(* ===== verification/_CoqProject ===== *)
-Q . S2P
Prelude.v
Bytes.v
TicketLock.v
Buddy.v
BuddyInv.v
Pools.v
FrameAlloc.v
PageSet.v
Ownership.v
Frames.v
KPageSet.v
HeaderFrame.v
PageTable.v
Elf.v
Vmem.v
AddrSpace.v
Kvm.v
KvmPool.v
KvmSafe.v
Handles.v
Revoke.v
SysPages.v
SysSafe.v
DmaSync.v
BootInfo.v
Sched.v
KSched.v
IpcState.v
Ipc.v
IpcSpec.v
IpcRefine.v
IpcSafe.v
IpcSched.v
Process.v
ProcSpec.v
ProcSafe.v
ProcCreate.v
ProcExit.v
KernelObjects.v
ObjSafe.v
WorldSafe.v
ObjWorld.v
Fat32.v
FatServer.v
FatVolume.v
FatSafe.v
Block.v
BlockSafe.v
Storage.v
