(* ===== verification/Prelude.v ===== *)
(** * A verification of the Lockjaw microkernel

    Lockjaw is a capability microkernel for AArch64 written in Rust. This library
    models its kernel (src/) and the pure logic it shares with host tests
    (lockjaw-types/) as executable definitions, and proves what its parts
    promise each other and user programs.

    ** The program

    Memory comes from a buddy allocator over physical frames (page_alloc.rs,
    buddy.rs) and a small DMA pool. User programs hold memory as PageSets:
    lists of frames with a page-resident header that counts handles and
    mappings, found through a table of 128 slots (pageset_table.rs). A process
    has a handle table and an address space of four-level page tables; system
    calls allocate, map, unmap, export and close PageSets (handler.rs,
    vmem.rs, page_table.rs). Kernel objects are made from PageSets a process
    donates: the donation is revoked from every process first (revoke.rs).
    Threads are scheduled round-robin (scheduler.rs) and talk through
    synchronous endpoints, reply objects and notifications (src/ipc). Kernel
    stacks and mapped objects live in a pool of kernel addresses (kvm.rs). All
    kernel code runs under one ticket lock, with interrupts masked. Above the
    kernel, user programs serve storage: a block driver, a partition manager that
    is a block server on top of it, and a FAT32 server that clients open and read
    files through, each reached by messages.

    ** Conventions

    A Rust function becomes a function of the same name. One that can panic
    returns an [outcome]: failed assertions, out-of-range indices, unwraps of
    [None], and arithmetic overflow, as in a build with overflow checks, are
    [Panic]. [Result] is [result] and [Option] is [option]. Mutable state is
    passed and returned. A machine word is a [Z] with its bounds in the
    statements, [wrap] where a cast truncates and [add_chk], [sub_chk],
    [mul_chk] where the source adds, subtracts or multiplies. Arrays that are
    sparse in practice (bitmaps, page-table memory) are [gmap]s from index or
    physical address to word, zero where nothing was written ([arr_peek]). An
    object in memory is the entry of a map at its address. One system call,
    interrupt or scheduling decision is one step, because the kernel lock
    serialises them; [TicketLock] is the model of that lock itself, at the grain
    of its atomic accesses, each CPU's in program order. TLB and cache
    maintenance instructions, barriers and printing have no modelled state,
    except that DmaSync records which cache lines are maintained.

    ** The files

    - Prelude: panics, results, machine words, counted loops
      ([for_range]), list and counting lemmas. Bytes: byte slices and endian words.
    - TicketLock: lockjaw-types/src/ticket_lock.rs.
    - Buddy, BuddyInv: buddy.rs, its bitmaps, its invariant and the refinement
      to the sets of free and allocated pages.
    - Pools: dma_pool.rs and pageset_header_pool.rs. FrameAlloc: page_alloc.rs,
      addr.rs and the boot carve-out.
    - PageSet, Ownership, KPageSet, HeaderFrame: the PageSet table and headers,
      who owns which page, and allocation, registration, release and donation
      (src/cap/pageset_table.rs) over the allocators.
    - Frames: the class of what page-table code asks of the frame allocator
      ([FrameOps], [FrameLaws]); KPageSet has the instance ([kframes],
      [kheld_laws]).
    - PageTable, Vmem, AddrSpace: descriptors and walks (page_table.rs), mapping
      into an address space, building and freeing one (vmem.rs).
    - Elf: elf.rs, elf_loader.rs and the loader loop of the POSIX server.
    - Kvm, KvmPool, KvmSafe: the kernel address pool (kvm.rs in both crates).
    - Handles, Revoke: handle tables, and revocation from every process.
    - SysPages, SysSafe: the page and handle system calls over the whole kernel
      state [Kernel], its accounting [sys_ok], and histories of calls.
    - DmaSync, BootInfo: cache maintenance of a PageSet; the device tree PageSet.
    - Sched, KSched: the scheduler's state machine and the kernel around it, as
      events of several CPUs.
    - IpcState, Ipc, IpcSpec, IpcRefine, IpcSafe, IpcSched: the pure IPC
      decisions, the kernel's IPC objects over a class of scheduler operations
      ([SchedulerLaws]), the specification, the refinement, and the instance with
      KSched, in which an exited thread's control block is freed and reading it
      is a panic.
    - Process, ProcSpec, ProcSafe, ProcCreate, ProcExit: process creation and
      thread exit over [World] (the kernel with its process objects, stacks,
      address pool, IPC objects and the frames its threads start with), the
      ownership of kernel pages and the soundness of handles ([world_ok],
      [handles_sound]).
    - KernelObjects, ObjSafe: endpoints, notifications, replies and threads made
      from donated pages (handler.rs, src/ipc, tcb.rs). WorldSafe, ObjWorld:
      histories of all of these and the theorems on them.
    - Fat32, FatServer, FatVolume, FatSafe: the FAT32 format (fat32.rs), the file
      protocol (fs.rs) and the FAT32 server over the classes [BlockDevice] and
      [Platform] (the kernel calls and the address allocator it uses, with their
      promises [Disk] and [PlatformLaws]: allocation, unmapping and the return of
      an address range may fail, and no other process takes a PageSet away); what
      cluster chains hold, when walks end, and histories of requests. Block,
      BlockSafe: the block server over the class [BlockEngine], its client over
      the class [Transport] (the connection and the kernel's handle calls, with
      their promises [TransportLaws]), the MBR and the partition engine.
      Storage: the theorems on these, with an example volume.

    ** What is proved

    Allocators: the buddy allocator refines two page sets, never hands out a
    page twice, and finds a block whenever one exists; PageSet allocation,
    registration, release and donation keep every page with exactly one owner
    and leak none on any error path.

    Address spaces: the software walk is compared with the translation of the
    Arm architecture ([arch_translation], written from its descriptor formats)
    and agrees with it exactly on the descriptors that are [plain], as the table
    and page descriptors are that the kernel builds; mapping is all or nothing;
    unmapping and revocation clear exactly what they validated; a query reports
    the maximal run.

    System calls: any history of page and handle calls keeps the accounting
    (counts equal the handles and mappings that exist) without a panic, and
    leaves a process that takes no part untouched; with the creation of
    processes, objects and threads and thread exit in the history the same holds
    together with the ownership of every kernel page. These histories ask of a
    creation of a process what the code does not check ([creation_ok]: the
    mapping count does not overflow, the donation is apart from stack and
    scratch memory, no process maps a PageSet over itself), and that no endpoint
    runs out of identities. Creation of processes and objects is all or nothing
    and exact, that of threads exact up to the stack page it may lose, and a new
    thread starts where it was asked to; exit gives back exactly what the
    process owned. Handles are typed: each names a live object of its kind, and
    an endpoint identity is held once. A kernel object's frame is in no PageSet
    of the allocator's frames; a device PageSet may name any address, and
    [device_page_exposes_object] is a history in which a process maps an
    endpoint's frame that way.

    Scheduling and IPC: the state machine keeps its own check_invariants, a
    ready thread runs within a round, possible histories of several CPUs do not
    panic, and IPC refines first-in first-out ports with at most one holder per
    pending reply, none only when the holder has exited. The IPC theorems ask
    three things of a history besides that it can happen ([occurs]), each a
    hypothesis of its own: threads leave [block_current] on the CPU they entered
    it on ([stays_put]), an interrupt finds its counter below [u64::MAX]
    ([counter_left]), and no thread waits for two things at once ([one_wait]).
    The ticket lock refines a queue, also when its 32-bit counters wrap, with
    [is_locked] as two loads. The address pool keeps its ranges disjoint and its
    tables exact.

    Loading: the load plan puts every segment byte where it belongs, and the
    parser reads back every file laid out by the ELF specification, with program
    headers at any offset and of any entry size.

    Storage: a FAT32 geometry that is accepted keeps every access inside the
    volume; reads deliver exactly the file's bytes; walks over the FAT are
    bounded or, for a lookup on a cyclic directory, never end; the server's
    clients cannot touch each other's files, and it loses pages and addresses
    only to unmaps that fail; a partition's server reaches no sector outside it
    and keeps its clients' buffers apart.

    The [error] theorems are inputs on which the code does not do what it says:
    leaked address space on roll-back, a foreign PageSet from boot information,
    double wake-ups, overlapping mappings, unchecked arguments of process
    creation, directory lookups that hang or return stale entries, segments that
    share a page, malformed ELF headers.

    ** Bounds and fuel

    Loops over ranges and lists are structural. Recursion with a fuel argument
    is used where the source loops until a condition: the
    table walks (four levels, fuel 5), the buddy split and merge (at most
    MAX_ORDER levels), the selection loop (one round of the thread table), the
    walks of the address pool (five steps per page and one to finish), the
    mapping query (one step for each of the 512 regions of 2 MiB, and one to
    finish), a directory buffer (one turn per slot and two more), a file read
    (one turn for each cluster the bytes may touch). Running out is
    [Panic PFuel], and the theorems state that the code returns, so they show
    that the fuel suffices. The directory walk of the FAT32 server has no bound
    in the source; its fuel is an argument, and the theorem on it says that one
    turn more than the volume has clusters decides whether it ever returns.

    ** What is not modelled

    Assembly, the context switch and exception entry (of register frames, the
    one a new thread starts with is modelled); device
    registers (interrupt controller, serial port, timer); the boot sequence apart
    from the frame allocator's carve-out, the device tree PageSet and the
    address pool; printing and crash reports: they have no state the models
    could follow. The interrupt binding table, the device tree parser, the
    allocator of user addresses (VMEM), and the other user-space drivers and
    servers are pure or small enough to follow in the same style; device register
    definitions and the code generators of the build have no behaviour to prove. *)
From stdpp Require Import base option list gmap numbers.
From Stdlib Require Import ZArith Lia Zbitwise.

(** * Panics

    A Rust operation that can panic returns an [outcome]: [Ret a] when it
    returns [a], [Panic p] when the source reaches a failing [assert!], an
    out-of-range index, an [unwrap] of [None], an [unreachable!] or an
    arithmetic overflow (which panics in the build with overflow checks).
    [PFuel] stands for a loop that has not ended within the model's bound. *)
Inductive panic :=
  | PAssert
  | PIndex
  | PUnwrap
  | PUnreachable
  | PArith
  | PFuel.

#[export] Instance panic_eq_dec : EqDecision panic.
Proof. solve_decision. Defined.

Inductive outcome (A : Type) :=
  | Ret (a : A)
  | Panic (p : panic).
Arguments Ret {A} a.
Arguments Panic {A} p.

#[export] Instance outcome_eq_dec {A} `{EqDecision A} : EqDecision (outcome A).
Proof. solve_decision. Defined.

#[export] Instance outcome_ret : MRet outcome := fun A a => Ret a.
#[export] Instance outcome_bind : MBind outcome := fun A B f m =>
  match m with
  | Ret a => f a
  | Panic p => Panic p
  end.

(** [assert!(b)] *)
Definition assert (b : bool) : outcome unit := if b then Ret tt else Panic PAssert.

(** [o.unwrap()] / [o.expect(..)] *)
Definition unwrap {A} (o : option A) : outcome A :=
  match o with Some a => Ret a | None => Panic PUnwrap end.

(** The outcome is a plain return value (nothing panicked). *)
Definition returns {A} (m : outcome A) : Prop := exists a, m = Ret a.

Lemma bind_Ret {A B} (a : A) (f : A -> outcome B) : (Ret a ≫= f) = f a.
Proof. reflexivity. Qed.

Lemma bind_Ret_inv {A B} (m : outcome A) (f : A -> outcome B) b :
  (m ≫= f) = Ret b -> exists a, m = Ret a /\ f a = Ret b.
Proof. destruct m; simpl; [eauto | discriminate]. Qed.

Lemma assert_Ret b : assert b = Ret tt <-> b = true.
Proof. destruct b; simpl; split; congruence. Qed.

(** * Result values of fallible Rust functions *)
Inductive result (A E : Type) :=
  | Ok (a : A)
  | Err (e : E).
Arguments Ok {A E} a.
Arguments Err {A E} e.

(** * Bounded loops

    [for_range i n body s] is [for j in i..i+n { body }] over a state [s]. *)
Fixpoint for_range {S} (i : Z) (n : nat) (body : Z -> S -> outcome S) (s : S) : outcome S :=
  match n with
  | O => Ret s
  | Datatypes.S n' => s' ← body i s; for_range (i + 1)%Z n' body s'
  end.

Lemma for_range_inv {S} (P : Z -> S -> Prop) (body : Z -> S -> outcome S) n :
  forall i s,
  P i s ->
  (forall j s, (i <= j < i + Z.of_nat n)%Z -> P j s ->
     exists s', body j s = Ret s' /\ P (j + 1)%Z s') ->
  exists s', for_range i n body s = Ret s' /\ P (i + Z.of_nat n)%Z s'.
Proof.
  induction n as [|n IH]; intros i s Hs Hb; simpl.
  - exists s. split; [done|]. by rewrite Z.add_0_r.
  - destruct (Hb i s ltac:(lia) Hs) as (s' & -> & Hs').
    destruct (IH (i + 1)%Z s' Hs') as (s'' & E & Hs'').
    { intros j t Hj. apply Hb. lia. }
    exists s''. split; [exact E|].
    replace (i + Z.of_nat (Datatypes.S n))%Z with (i + 1 + Z.of_nat n)%Z by lia.
    exact Hs''.
Qed.

(** * Fixed-size zero-initialised arrays

    A Rust array [[T; N]] of integers, zero at start, is a sparse map from
    index to value; [arr_get]/[arr_set] panic outside [0 <= i < N]. *)
Definition arr_peek (m : gmap Z Z) (i : Z) : Z := default 0%Z (m !! i).

Definition arr_get (N : Z) (m : gmap Z Z) (i : Z) : outcome Z :=
  if (0 <=? i)%Z && (i <? N)%Z then Ret (arr_peek m i) else Panic PIndex.

Definition arr_set (N : Z) (m : gmap Z Z) (i v : Z) : outcome (gmap Z Z) :=
  if (0 <=? i)%Z && (i <? N)%Z then Ret (<[i := v]> m) else Panic PIndex.

Lemma arr_peek_empty i : arr_peek ∅ i = 0%Z.
Proof. unfold arr_peek. by rewrite lookup_empty. Qed.

Lemma arr_peek_insert m i v j :
  arr_peek (<[i := v]> m) j = if decide (i = j) then v else arr_peek m j.
Proof. unfold arr_peek. rewrite lookup_insert. by case_decide. Qed.

Lemma arr_get_in N m i : (0 <= i < N)%Z -> arr_get N m i = Ret (arr_peek m i).
Proof.
  intros [H1 H2]. unfold arr_get.
  rewrite (proj2 (Z.leb_le _ _) H1), (proj2 (Z.ltb_lt _ _) H2). done.
Qed.

Lemma arr_set_in N m i v : (0 <= i < N)%Z -> arr_set N m i v = Ret (<[i := v]> m).
Proof.
  intros [H1 H2]. unfold arr_set.
  rewrite (proj2 (Z.leb_le _ _) H1), (proj2 (Z.ltb_lt _ _) H2). done.
Qed.

Lemma arr_get_out N m i : ~ (0 <= i < N)%Z -> arr_get N m i = Panic PIndex.
Proof.
  intros H. unfold arr_get.
  destruct (0 <=? i)%Z eqn:E1, (i <? N)%Z eqn:E2; try done. lia.
Qed.

(** * Words

    A [w]-bit word is a [Z] in [0 <= x < 2^w]. [not_w w] is Rust's [!x] at
    width [w]. *)
Definition word (w x : Z) : Prop := (0 <= x < 2 ^ w)%Z.

Definition not_w (w x : Z) : Z := Z.lxor x (Z.ones w).

Definition wrap (w x : Z) : Z := (x mod 2 ^ w)%Z.

(** 4 KiB pages (lockjaw-types/src/addr.rs). *)
Definition PAGE_SIZE : Z := 4096%Z.
Definition PAGE_SHIFT : Z := 12%Z.

Definition U64_MAX : Z := 18446744073709551615%Z.

(** [a.checked_add(b)] on u64 *)
Definition checked_add64 (a b : Z) : option Z :=
  if (a + b <=? U64_MAX)%Z then Some (a + b)%Z else None.

(** [a - b] on an unsigned integer, with the overflow check. *)
Definition sub_chk (a b : Z) : outcome Z := if (b <=? a)%Z then Ret (a - b)%Z else Panic PArith.

(** [a + b] and [a * b] on an unsigned [w]-bit integer, with the overflow
    check. *)
Definition add_chk (w a b : Z) : outcome Z := if (a + b <? 2 ^ w)%Z then Ret (a + b)%Z else Panic PArith.
Definition mul_chk (w a b : Z) : outcome Z := if (a * b <? 2 ^ w)%Z then Ret (a * b)%Z else Panic PArith.

(** [a.saturating_add(b)] and [a.saturating_mul(b)] at width [w] *)
Definition sat_add (w a b : Z) : Z := Z.min (a + b) (2 ^ w - 1).
Definition sat_mul (w a b : Z) : Z := Z.min (a * b) (2 ^ w - 1).

Open Scope Z_scope.

Lemma testbit_not_w w x i :
  0 <= w -> 0 <= i -> Z.testbit (not_w w x) i = xorb (Z.testbit x i) (i <? w).
Proof.
  intros Hw Hi. unfold not_w. rewrite Z.lxor_spec. f_equal.
  destruct (Z.ltb_spec i w).
  - apply Z.ones_spec_low; lia.
  - apply Z.ones_spec_high; lia.
Qed.

(** Clearing the low [n] bits rounds down to a multiple of [2^n]. *)
Lemma land_align_down w n x :
  0 <= n <= w -> word w x -> Z.land x (not_w w (2 ^ n - 1)) = x / 2 ^ n * 2 ^ n.
Proof.
  intros Hn Hx. apply Z.bits_inj'. intros i Hi. rewrite Z.land_spec, testbit_not_w by lia.
  replace (2 ^ n - 1) with (Z.ones n) by (rewrite Z.ones_equiv; lia). rewrite Z.testbit_ones_nonneg by lia.
  rewrite <- Z.shiftl_mul_pow2, <- Z.shiftr_div_pow2 by lia. rewrite Z.shiftl_spec by lia.
  destruct (Z.ltb_spec i n).
  - rewrite (Z.testbit_neg_r _ (i - n)) by lia. destruct (Z.ltb_spec i w); [apply andb_false_r|lia].
  - rewrite Z.shiftr_spec by lia. replace (i - n + n) with i by lia. destruct (Z.ltb_spec i w); [apply andb_true_r|].
    destruct (decide (x = 0)) as [->|]; [by rewrite Z.testbit_0_l|]. destruct Hx as [Hx0 Hx].
    rewrite (Z.bits_above_log2 x i); [done|done|]. apply Z.log2_lt_pow2; [lia|].
    eapply Z.lt_le_trans; [done|]. apply Z.pow_le_mono_r; lia.
Qed.

(** [1 << i] *)
Definition bitmask (i : Z) : Z := Z.shiftl 1 i.

Lemma testbit_bitmask i j : 0 <= i -> 0 <= j -> Z.testbit (bitmask i) j = (i =? j).
Proof.
  intros Hi Hj. unfold bitmask. rewrite Z.shiftl_1_l.
  by apply Z.pow2_bits_eqb.
Qed.

Lemma land_bitmask x i :
  0 <= i -> negb (Z.land x (bitmask i) =? 0) = Z.testbit x i.
Proof.
  intros Hi. destruct (Z.testbit x i) eqn:E.
  - apply negb_true_iff, Z.eqb_neq. intros H0.
    assert (Z.testbit (Z.land x (bitmask i)) i = false) as Hb by (by rewrite H0, Z.bits_0).
    rewrite Z.land_spec, testbit_bitmask, E, Z.eqb_refl in Hb by lia. done.
  - apply negb_false_iff, Z.eqb_eq. apply Z.bits_inj'. intros j Hj.
    rewrite Z.land_spec, testbit_bitmask, Z.bits_0 by lia.
    destruct (Z.eqb_spec i j) as [->|]; [by rewrite E | by rewrite andb_false_r].
Qed.

Lemma testbit_set x i j :
  0 <= i -> 0 <= j ->
  Z.testbit (Z.lor x (bitmask i)) j = if decide (i = j) then true else Z.testbit x j.
Proof.
  intros Hi Hj. rewrite Z.lor_spec, testbit_bitmask by lia.
  case_decide as E; [rewrite E, Z.eqb_refl; apply orb_true_r|].
  rewrite (proj2 (Z.eqb_neq _ _) E). apply orb_false_r.
Qed.

Lemma testbit_clear w x i j :
  0 <= i < w -> 0 <= j < w ->
  Z.testbit (Z.land x (not_w w (bitmask i))) j = if decide (i = j) then false else Z.testbit x j.
Proof.
  intros Hi Hj. rewrite Z.land_spec, testbit_not_w, testbit_bitmask by lia.
  rewrite (proj2 (Z.ltb_lt j w)) by lia.
  case_decide as E; [rewrite E, Z.eqb_refl; apply andb_false_r|].
  rewrite (proj2 (Z.eqb_neq _ _) E). apply andb_true_r.
Qed.

Lemma word_bits w x : 0 <= w -> word w x <-> 0 <= x /\ forall i, w <= i -> Z.testbit x i = false.
Proof.
  intros Hw. unfold word. split.
  - intros [H0 H1]. split; [lia|]. intros i Hi.
    destruct (decide (x = 0)) as [->|]; [apply Z.bits_0|].
    apply Z.bits_above_log2; [lia|].
    enough (Z.log2 x < w) by lia. apply Z.log2_lt_pow2; lia.
  - intros [H0 Hb]. split; [lia|].
    destruct (decide (x = 0)) as [->|]; [lia|].
    apply Z.log2_lt_pow2; [lia|].
    destruct (Z.lt_ge_cases (Z.log2 x) w); [done|].
    specialize (Hb (Z.log2 x) ltac:(lia)). rewrite Z.bit_log2 in Hb by lia. done.
Qed.

Lemma word_lor w x y : 0 <= w -> word w x -> word w y -> word w (Z.lor x y).
Proof.
  intros Hw Hx Hy. rewrite word_bits in * by done. destruct Hx as [Hx0 Hx], Hy as [Hy0 Hy].
  split; [by apply Z.lor_nonneg|]. intros i Hi. by rewrite Z.lor_spec, Hx, Hy.
Qed.

Lemma word_land_l w x y : 0 <= w -> word w x -> word w (Z.land x y).
Proof.
  intros Hw Hx. rewrite word_bits in * by done. destruct Hx as [Hx0 Hx].
  split; [apply Z.land_nonneg; by left|]. intros i Hi. by rewrite Z.land_spec, Hx.
Qed.

Lemma word_bitmask w i : 0 <= i < w -> word w (bitmask i).
Proof.
  intros Hi. unfold word, bitmask. rewrite Z.shiftl_1_l.
  split; [apply Z.pow_nonneg; lia|]. apply Z.pow_lt_mono_r; lia.
Qed.

Lemma word_0 w : 0 <= w -> word w 0.
Proof. intros. unfold word. split; [lia|]. apply Z.pow_pos_nonneg; lia. Qed.

Lemma pow2_pos k : 0 <= k -> 0 < 2 ^ k.
Proof. intros. apply Z.pow_pos_nonneg; lia. Qed.

Lemma word_zero_bits w x : 0 <= w -> word w x -> (forall i, 0 <= i < w -> Z.testbit x i = false) -> x = 0.
Proof.
  intros Hw Hx H. apply word_bits in Hx as [H0 Hb]; [|done].
  apply Z.bits_inj'. intros i Hi. rewrite Z.bits_0.
  destruct (Z.lt_ge_cases i w); [by apply H; lia | by apply Hb].
Qed.

(** [x & !(2^k - 1)]: rounding down to a multiple of [2^k]. *)
Lemma align_down w k x :
  0 <= k <= w -> word w x -> Z.land x (not_w w (Z.ones k)) = x / 2 ^ k * 2 ^ k.
Proof.
  intros Hk Hx. apply Z.bits_inj'. intros j Hj.
  rewrite Z.land_spec, testbit_not_w, Z.mul_pow2_bits by lia.
  destruct (Z.lt_ge_cases j k) as [L|L].
  - rewrite Z.ones_spec_low, (Z.testbit_neg_r _ (j - k)), (proj2 (Z.ltb_lt j w)) by lia.
    apply andb_false_r.
  - rewrite Z.ones_spec_high, Z.div_pow2_bits by lia. replace (j - k + k) with j by lia.
    rewrite xorb_false_l. destruct (Z.ltb_spec j w); [apply andb_true_r|].
    rewrite andb_false_r. apply word_bits in Hx as [_ Hx]; [|lia]. by rewrite Hx.
Qed.

(** [x.trailing_zeros()] at width [w]: the position of the lowest set bit,
    [w] when there is none; [x.trailing_ones()] the lowest clear bit. *)
Fixpoint first_bit (n : nat) (i : Z) (x : Z) : Z :=
  match n with
  | O => i
  | S n' => if Z.testbit x i then i else first_bit n' (i + 1) x
  end.

Definition trailing_zeros (w : nat) (x : Z) : Z := first_bit w 0 x.

Fixpoint first_clear (n : nat) (i : Z) (x : Z) : Z :=
  match n with
  | O => i
  | S n' => if Z.testbit x i then first_clear n' (i + 1) x else i
  end.

Definition trailing_ones (w : nat) (x : Z) : Z := first_clear w 0 x.

Lemma first_bit_spec n i x :
  let r := first_bit n i x in
  i <= r <= i + Z.of_nat n /\
  (forall j, i <= j < r -> Z.testbit x j = false) /\
  (r < i + Z.of_nat n -> Z.testbit x r = true).
Proof.
  revert i. induction n as [|n IH]; intros i; cbn -[Z.of_nat Z.add].
  - split_and!; try lia.
  - destruct (Z.testbit x i) eqn:E.
    + split_and!; try lia. done.
    + destruct (IH (i + 1)) as (H1 & H2 & H3). split_and!; try lia.
      * intros j Hj. destruct (decide (j = i)) as [->|]; [done|]. apply H2. lia.
      * intros. apply H3. lia.
Qed.

Lemma trailing_zeros_set (w : nat) n x :
  n <= Z.of_nat w -> (forall j, n <= j -> Z.testbit x j = false) -> x <> 0 ->
  0 <= trailing_zeros w x < n /\ Z.testbit x (trailing_zeros w x) = true.
Proof.
  intros Hn Hhigh Hx. unfold trailing_zeros.
  destruct (first_bit_spec w 0 x) as (H1 & H2 & H3).
  assert (first_bit w 0 x < n) as Ht.
  { destruct (Z.lt_ge_cases (first_bit w 0 x) n) as [|Hge]; [done|].
    exfalso. apply Hx, Z.bits_inj'. intros j Hj. rewrite Z.bits_0.
    destruct (decide (j < n)); [apply H2; lia|apply Hhigh; lia]. }
  split; [lia|]. apply H3. lia.
Qed.

Lemma first_clear_spec n i x :
  let r := first_clear n i x in
  i <= r <= i + Z.of_nat n /\
  (forall j, i <= j < r -> Z.testbit x j = true) /\
  (r < i + Z.of_nat n -> Z.testbit x r = false).
Proof.
  revert i. induction n as [|n IH]; intros i; cbn -[Z.of_nat Z.add].
  - split_and!; try lia.
  - destruct (Z.testbit x i) eqn:E.
    + destruct (IH (i + 1)) as (H1 & H2 & H3). split_and!; try lia.
      * intros j Hj. destruct (decide (j = i)) as [->|]; [done|]. apply H2. lia.
      * intros. apply H3. lia.
    + split_and!; try lia. done.
Qed.

(** * Counting

    [count f n]: how many of [0 .. n-1] satisfy [f]. *)
Fixpoint count (f : Z -> bool) (n : nat) : Z :=
  match n with
  | O => 0
  | S n' => count f n' + Z.b2z (f (Z.of_nat n'))
  end.

Lemma count_bounds f n : 0 <= count f n <= Z.of_nat n.
Proof. induction n as [|n IH]; simpl; [lia|]. destruct (f (Z.of_nat n)); simpl; lia. Qed.

Lemma count_ext f g n : (forall i, 0 <= i < Z.of_nat n -> f i = g i) -> count f n = count g n.
Proof.
  induction n as [|n IH]; intros H; simpl; [done|].
  rewrite IH by (intros; apply H; lia). by rewrite H by lia.
Qed.

Definition in_range (lo len : Z) (i : Z) : bool := (lo <=? i) && (i <? lo + len).

Lemma in_range_spec lo len i : in_range lo len i = true <-> lo <= i < lo + len.
Proof. unfold in_range. rewrite andb_true_iff, Z.leb_le, Z.ltb_lt. done. Qed.

Lemma in_range_false lo len i : in_range lo len i = false <-> ~ (lo <= i < lo + len).
Proof. rewrite <- not_true_iff_false, in_range_spec. done. Qed.

(** Decides an equation between boolean combinations of integer comparisons
    and opaque booleans. *)
Ltac zbool :=
  cbv beta; unfold in_range in *;
  repeat match goal with
  | |- context [Z.leb ?a ?b] => destruct (Z.leb_spec a b)
  | |- context [Z.ltb ?a ?b] => destruct (Z.ltb_spec a b)
  | |- context [Z.eqb ?a ?b] => destruct (Z.eqb_spec a b)
  end;
  cbn [andb orb negb];
  rewrite ?orb_true_r, ?orb_false_r, ?andb_true_r, ?andb_false_r;
  first [reflexivity | exfalso; lia].

(** Rewrites every integer comparison that linear arithmetic decides. *)
Ltac zcmp :=
  repeat (match goal with
  | |- context [Z.leb ?a ?b] =>
      first [rewrite (proj2 (Z.leb_le a b)) by lia | rewrite (proj2 (Z.leb_gt a b)) by lia]
  | |- context [Z.ltb ?a ?b] =>
      first [rewrite (proj2 (Z.ltb_lt a b)) by lia | rewrite (proj2 (Z.ltb_ge a b)) by lia]
  | |- context [Z.eqb ?a ?b] =>
      first [rewrite (proj2 (Z.eqb_eq a b)) by lia | rewrite (proj2 (Z.eqb_neq a b)) by lia]
  end; cbn [andb orb negb]);
  rewrite ?orb_true_r, ?orb_false_r, ?andb_true_r, ?andb_false_r.

(** Turning [len] consecutive indices from false to true adds [len]. *)
Lemma count_add_range f g lo len n :
  0 <= lo -> 0 <= len -> lo + len <= Z.of_nat n ->
  (forall i, 0 <= i < Z.of_nat n -> lo <= i < lo + len -> f i = false) ->
  (forall i, 0 <= i < Z.of_nat n -> g i = f i || in_range lo len i) ->
  count g n = count f n + len.
Proof.
  intros Hlo Hlen Hn Hf Hg.
  enough (forall m, (m <= n)%nat ->
    count g m = count f m + Z.max 0 (Z.min len (Z.of_nat m - lo))) as H.
  { rewrite (H n) by lia. lia. }
  induction m as [|m IH]; intros Hm; simpl; [lia|].
  rewrite IH by lia. rewrite Hg by lia.
  destruct (in_range lo len (Z.of_nat m)) eqn:E.
  - apply in_range_spec in E. rewrite Hf by lia. simpl. lia.
  - apply in_range_false in E. rewrite orb_false_r. lia.
Qed.

Lemma count_none n : count (fun _ => false) n = 0.
Proof. induction n as [|n IH]; simpl; lia. Qed.

Lemma for_range_ext {S} (f g : Z -> S -> outcome S) n : forall i s,
  (forall j s, i <= j < i + Z.of_nat n -> f j s = g j s) -> for_range i n f s = for_range i n g s.
Proof.
  induction n as [|n IH]; intros i s H; [done|]. cbn [for_range]. rewrite H by lia.
  destruct (g i s) as [s'|]; [|done]. simpl. apply IH. intros j t Hj. apply H. lia.
Qed.

#[global] Arguments count : simpl never.
#[global] Arguments for_range : simpl never.
