(* ===== verification/Bytes.v ===== *)
(** Byte slices: bounds-checked indexing, little- and big-endian words, and
    how a word is found in a concatenation. A byte is a [Z] below 256. *)
From Stdlib Require Import ZArith Lia.
From stdpp Require Import base option numbers list.
From S2P Require Import Prelude.
Open Scope Z_scope.

Definition is_byte (b : Z) : Prop := 0 <= b < 256.
Definition bytes (l : list Z) : Prop := Forall is_byte l.

(** [data.len()] *)
Definition len (data : list Z) : Z := Z.of_nat (length data).

(** [data[i]] *)
Definition byte_at (data : list Z) (i : Z) : outcome Z :=
  if 0 <=? i then match data !! Z.to_nat i with Some b => Ret b | None => Panic PIndex end else Panic PIndex.

(** [data[off + i], .., data[off + i + n - 1]] *)
Fixpoint bytes_at (data : list Z) (off i : Z) (n : nat) : outcome (list Z) :=
  match n with
  | O => Ret []
  | S n' => o ← add_chk 64 off i; b ← byte_at data o; r ← bytes_at data off (i + 1) n'; Ret (b :: r)
  end.

(** [uN::from_le_bytes] and [uN::from_be_bytes] *)
Definition from_le_bytes (l : list Z) : Z := foldr (fun b r => b + 256 * r) 0 l.
Definition from_be_bytes (l : list Z) : Z := from_le_bytes (reverse l).

Definition read_le (n : nat) (data : list Z) (off : Z) : outcome Z := l ← bytes_at data off 0 n; Ret (from_le_bytes l).
Definition read_be (n : nat) (data : list Z) (off : Z) : outcome Z := l ← bytes_at data off 0 n; Ret (from_be_bytes l).

(** [&data[a..a + n]] *)
Definition slice (data : list Z) (a n : Z) : list Z := take (Z.to_nat n) (drop (Z.to_nat a) data).

(** [n] bytes of [v], least significant first. *)
Fixpoint le_bytes (n : nat) (v : Z) : list Z :=
  match n with O => [] | S n' => v mod 256 :: le_bytes n' (v / 256) end.

Lemma byte_at_in data i : 0 <= i < len data -> exists b, data !! Z.to_nat i = Some b /\ byte_at data i = Ret b.
Proof.
  intros Hi. unfold len in Hi. destruct (lookup_lt_is_Some_2 data (Z.to_nat i)) as [b Hb]; [lia|]. exists b. split; [done|].
  unfold byte_at. by rewrite (proj2 (Z.leb_le _ _)), Hb by lia.
Qed.

Lemma byte_at_out data i : len data <= i -> byte_at data i = Panic PIndex.
Proof. intros Hi. unfold byte_at, len in *. destruct (0 <=? i); [|done]. by rewrite lookup_ge_None_2 by lia. Qed.

Lemma slice_cons data a n b : 0 <= a -> 0 <= n -> data !! Z.to_nat a = Some b -> slice data a (n + 1) = b :: slice data (a + 1) n.
Proof.
  intros Ha Hn Hb. unfold slice. rewrite (drop_S _ _ _ Hb). replace (Z.to_nat (n + 1)) with (S (Z.to_nat n)) by lia.
  cbn [take]. by replace (S (Z.to_nat a)) with (Z.to_nat (a + 1)) by lia.
Qed.

Lemma bytes_at_in data off n : forall i, 0 <= off -> 0 <= i -> off + i + Z.of_nat n <= len data -> len data < 2 ^ 64 ->
  bytes_at data off i n = Ret (slice data (off + i) (Z.of_nat n)).
Proof.
  induction n as [|n IH]; intros i Ho Hi Hn Hl; [done|]. cbn [bytes_at]. unfold add_chk. rewrite (proj2 (Z.ltb_lt _ _)), bind_Ret by lia.
  destruct (byte_at_in data (off + i)) as (b & Hb & ->); [lia|]. rewrite bind_Ret, IH, bind_Ret by lia.
  rewrite Nat2Z.inj_succ, <- Z.add_1_r, (slice_cons _ _ _ b) by (done || lia). by replace (off + (i + 1)) with (off + i + 1) by lia.
Qed.

Lemma read_le_in n data off : 0 <= off -> off + Z.of_nat n <= len data -> len data < 2 ^ 64 ->
  read_le n data off = Ret (from_le_bytes (slice data off (Z.of_nat n))).
Proof. intros. unfold read_le. by rewrite bytes_at_in, Z.add_0_r, bind_Ret by lia. Qed.

Lemma read_be_in n data off : 0 <= off -> off + Z.of_nat n <= len data -> len data < 2 ^ 64 ->
  read_be n data off = Ret (from_be_bytes (slice data off (Z.of_nat n))).
Proof. intros. unfold read_be. by rewrite bytes_at_in, Z.add_0_r, bind_Ret by lia. Qed.

Lemma from_le_range l : bytes l -> 0 <= from_le_bytes l < 256 ^ len l.
Proof.
  unfold len. induction 1 as [|b l Hb Hl IH]; [done|]. cbn [from_le_bytes foldr length]. fold (from_le_bytes l).
  rewrite Nat2Z.inj_succ, Z.pow_succ_r by lia. unfold is_byte in Hb. lia.
Qed.

Lemma from_be_range l : bytes l -> 0 <= from_be_bytes l < 256 ^ len l.
Proof.
  intros Hl. unfold from_be_bytes. replace (len l) with (len (reverse l)) by (unfold len; by rewrite length_reverse).
  apply from_le_range. by apply Forall_reverse.
Qed.

Lemma slice_bytes data a n : bytes data -> bytes (slice data a n).
Proof. intros H. by apply Forall_take, Forall_drop. Qed.

Lemma slice_length data a n : 0 <= a -> 0 <= n -> a + n <= len data -> len (slice data a n) = n.
Proof. intros. unfold slice, len in *. rewrite length_take, length_drop. lia. Qed.

Lemma slice_lookup data a n i : 0 <= a -> 0 <= i < n -> slice data a n !! Z.to_nat i = data !! Z.to_nat (a + i).
Proof. intros. unfold slice. rewrite lookup_take_lt, lookup_drop by lia. f_equal. lia. Qed.

Lemma le_bytes_length n v : length (le_bytes n v) = n.
Proof. revert v. induction n as [|n IH]; intros v; [done|]. cbn. by rewrite IH. Qed.

Lemma le_bytes_bytes n : forall v, bytes (le_bytes n v).
Proof. induction n as [|n IH]; intros v; [constructor|]. constructor; [apply Z.mod_pos_bound; lia|apply IH]. Qed.

Lemma from_le_le_bytes n : forall v, 0 <= v < 256 ^ Z.of_nat n -> from_le_bytes (le_bytes n v) = v.
Proof.
  induction n as [|n IH]; intros v Hv; [cbn in *; lia|]. cbn [le_bytes from_le_bytes foldr]. fold (from_le_bytes (le_bytes n (v / 256))).
  rewrite Nat2Z.inj_succ, Z.pow_succ_r in Hv by lia. rewrite IH; [pose proof (Z.div_mod v 256); lia|].
  split; [apply Z.div_pos; lia|apply Z.div_lt_upper_bound; lia].
Qed.

(** A field of a layout: what stands behind [pre]. *)
Lemma slice_app pre l post : slice (pre ++ l ++ post) (len pre) (len l) = l.
Proof.
  unfold slice, len. rewrite !Nat2Z.id, drop_app_length. by rewrite take_app_length.
Qed.
