(* ===== verification/TicketLock.v ===== *)
(** The ticket lock (lockjaw-types/src/ticket_lock.rs) behind the Giant Kernel
    Lock (src/sched/gkl.rs), under any interleaving of the atomic steps of
    several CPUs: what the CPUs observe is what they observe of a queue that
    serves one CPU at a time in its order of arrival. *)
From Stdlib Require Import ZArith Lia.
From stdpp Require Import base option numbers list.
From S2P Require Import Prelude.
Open Scope Z_scope.

(** * The lock *)

Record TicketLock := mkLock { next_ticket : Z; now_serving : Z }.

Definition new : TicketLock := mkLock 0 0.

(** [fetch_add] of one; the counters are 32 bits wide and wrap. *)
Definition take_ticket (l : TicketLock) : Z * TicketLock := (next_ticket l, mkLock (wrap 32 (next_ticket l + 1)) (now_serving l)).
(** One round of the loop of [lock]: the ticket is being served. *)
Definition served (l : TicketLock) (ticket : Z) : bool := now_serving l =? ticket.
Definition unlock (l : TicketLock) : TicketLock := mkLock (next_ticket l) (wrap 32 (now_serving l + 1)).
(** The two loads of [is_locked], in program order, between which other CPUs may
    run: the ticket counter, and the answer it gives with the served one. *)
Definition load_next (l : TicketLock) : Z := next_ticket l.
Definition is_locked (seen : Z) (l : TicketLock) : bool := negb (seen =? now_serving l).

(** * CPUs *)

(** Where a CPU is: outside, in the loop of [lock] with its ticket, or past
    it. *)
Inductive Cpu := Outside | Spinning (ticket : Z) | Inside.

Inductive Action :=
  | Take (c : nat)        (** the first instruction of [lock] *)
  | Spin (c : nat)        (** one round of its loop *)
  | Release (c : nat)     (** [unlock] *)
  | AskNext (c : nat)     (** the first load of [is_locked] *)
  | AskServing (c : nat). (** its second load, and the answer *)

(** The lock, where each CPU is, and what a CPU in [is_locked] has loaded. *)
Record Machine := mkMachine { lock_of : TicketLock; cpus : list Cpu; asks : list (option Z) }.

(** A CPU inside [is_locked] does nothing else. *)
Definition free_to_act (m : Machine) (c : nat) : bool := bool_decide (asks m !! c = Some None).

(** A CPU that does what its position does not allow is no execution:
    [None]. [Spin] observes whether the loop ends, [AskServing] the answer. *)
Definition act (m : Machine) (a : Action) : option (bool * Machine) :=
  let l := lock_of m in
  match a with
  | Take c =>
      match cpus m !! c with
      | Some Outside =>
          if free_to_act m c then let (t, l') := take_ticket l in Some (true, mkMachine l' (<[c := Spinning t]> (cpus m)) (asks m)) else None
      | _ => None
      end
  | Spin c =>
      match cpus m !! c with
      | Some (Spinning t) => if served l t then Some (true, mkMachine l (<[c := Inside]> (cpus m)) (asks m)) else Some (false, m)
      | _ => None
      end
  | Release c =>
      match cpus m !! c with
      | Some Inside => if free_to_act m c then Some (true, mkMachine (unlock l) (<[c := Outside]> (cpus m)) (asks m)) else None
      | _ => None
      end
  | AskNext c =>
      match cpus m !! c with
      | Some Outside | Some Inside =>
          if free_to_act m c then Some (true, mkMachine l (cpus m) (<[c := Some (load_next l)]> (asks m))) else None
      | _ => None
      end
  | AskServing c =>
      match asks m !! c with
      | Some (Some seen) => Some (is_locked seen l, mkMachine l (cpus m) (<[c := None]> (asks m)))
      | _ => None
      end
  end.

(** * The queue

    [queue] are the CPUs in their order of arrival, of which the first may hold
    the lock. [ahead] has, for a CPU that is asking, how many of the CPUs that were
    queued when it started have not left yet; it goes below zero when CPUs that
    came later leave too. *)
Record Queue := mkQueue { queue : list nat; held : bool; ahead : list (option Z) }.

Definition leave (ahead : list (option Z)) : list (option Z) := option_map (fun k => k - 1) <$> ahead.

(** A question is answered "unlocked" when exactly the CPUs it found in the queue
    have left. The counters cannot tell 2^32 departures from none. *)
Definition answer (k : Z) : bool := negb (k mod 2 ^ 32 =? 0).

Definition queue_act (n : nat) (s : Queue) (a : Action) : option (bool * Queue) :=
  let (q, held, ahead) := s in
  match a with
  | Take c => if decide ((c < n)%nat /\ c ∉ q /\ ahead !! c = Some None) then Some (true, mkQueue (q ++ [c]) held ahead) else None
  | Spin c =>
      if decide (c ∈ q) then
        if decide (head q = Some c) then if held then None else Some (true, mkQueue q true ahead) else Some (false, s)
      else None
  | Release c => if decide (head q = Some c /\ held = true /\ ahead !! c = Some None) then Some (true, mkQueue (tail q) false (leave ahead)) else None
  | AskNext c =>
      if decide ((c < n)%nat /\ (c ∉ q \/ head q = Some c /\ held = true) /\ ahead !! c = Some None)
      then Some (true, mkQueue q held (<[c := Some (Z.of_nat (length q))]> ahead)) else None
  | AskServing c =>
      match ahead !! c with
      | Some (Some k) => Some (answer k, mkQueue q held (<[c := None]> ahead))
      | _ => None
      end
  end.

(** What the CPUs observe, action by action. *)
Fixpoint observe {St} (f : St -> Action -> option (bool * St)) (s : St) (acts : list Action) : option (list bool * St) :=
  match acts with
  | [] => Some ([], s)
  | a :: acts' =>
      match f s a with
      | None => None
      | Some (o, s') => match observe f s' acts' with None => None | Some (os, s'') => Some (o :: os, s'') end
      end
  end.

(** * The simulation *)

(** The tickets of the queue are consecutive from [now_serving] on. *)
Record sim (n : nat) (l : TicketLock) (cpus : list Cpu) (q : list nat) (held : bool) : Prop := {
  sm_len : length cpus = n;
  sm_serving : 0 <= now_serving l < 2 ^ 32;
  sm_next : next_ticket l = wrap 32 (now_serving l + Z.of_nat (length q));
  sm_nodup : NoDup q;
  sm_outside : forall c, cpus !! c = Some Outside <-> (c < n)%nat /\ c ∉ q;
  sm_queue : forall i c, q !! i = Some c ->
    cpus !! c = Some (if held && (i =? 0)%nat then Inside else Spinning (wrap 32 (now_serving l + Z.of_nat i)));
  sm_held : held = true -> q <> [];
}.

Lemma wrap_range w x : 0 <= w -> 0 <= wrap w x < 2 ^ w.
Proof. intros. unfold wrap. apply Z.mod_pos_bound. lia. Qed.

Lemma wrap_add a b : wrap 32 (wrap 32 a + b) = wrap 32 (a + b).
Proof. unfold wrap. by rewrite Zplus_mod_idemp_l. Qed.

(** Positions within one turn of the counter differ. *)
Lemma wrap_offset a i j : 0 <= i < 2 ^ 32 -> 0 <= j < 2 ^ 32 -> wrap 32 (a + i) = wrap 32 (a + j) -> i = j.
Proof.
  intros Hi Hj H. unfold wrap in H.
  assert ((i - j) mod 2 ^ 32 = 0) as Hd.
  { replace (i - j) with ((a + i) - (a + j)) by lia. by rewrite Zminus_mod, H, Z.sub_diag. }
  apply Z.mod_divide in Hd as [x Hx]; [|lia]. nia.
Qed.

Section Sim.
Context (n : nat) (Hn : Z.of_nat n < 2 ^ 32).

Lemma queue_bound l cpus q held : sim n l cpus q held -> Z.of_nat (length q) <= Z.of_nat n.
Proof.
  intros S. assert (length q <= length (seq 0 n))%nat as H; [|rewrite length_seq in H; lia].
  apply submseteq_length, NoDup_submseteq; [apply (sm_nodup _ _ _ _ _ S)|].
  intros c [i Hi]%list_elem_of_lookup. apply elem_of_seq. apply (sm_queue _ _ _ _ _ S) in Hi. apply lookup_lt_Some in Hi.
  rewrite (sm_len _ _ _ _ _ S) in Hi. lia.
Qed.

(** The state of a CPU, from the queue. *)
Lemma cpu_cases l cpus q held c : sim n l cpus q held ->
  (cpus !! c = None /\ ~ (c < n)%nat /\ c ∉ q) \/ (cpus !! c = Some Outside /\ (c < n)%nat /\ c ∉ q) \/
  exists i, q !! i = Some c /\ (c < n)%nat /\ (head q = Some c <-> i = 0%nat) /\
    cpus !! c = Some (if held && (i =? 0)%nat then Inside else Spinning (wrap 32 (now_serving l + Z.of_nat i))).
Proof.
  intros S. destruct (decide (c ∈ q)) as [Hc|Hc].
  - right. right. apply list_elem_of_lookup in Hc as [i Hi]. exists i. pose proof (sm_queue _ _ _ _ _ S _ _ Hi) as H.
    split_and!; [done| | |done].
    + apply lookup_lt_Some in H. by rewrite (sm_len _ _ _ _ _ S) in H.
    + rewrite head_lookup. split; [|by intros ->]. intros H0. by apply (NoDup_lookup _ _ _ _ (sm_nodup _ _ _ _ _ S) Hi H0).
  - destruct (decide (c < n)%nat) as [Hl|Hl].
    + right. left. split_and!; [|done|done]. by apply (sm_outside _ _ _ _ _ S).
    + left. split_and!; [|done|done]. apply lookup_ge_None_2. rewrite (sm_len _ _ _ _ _ S). lia.
Qed.

(** The answer of [is_locked], from what its first load found. *)
Lemma is_locked_spec l k : 0 <= now_serving l < 2 ^ 32 -> is_locked (wrap 32 (now_serving l + k)) l = answer k.
Proof.
  intros Hs. unfold is_locked, answer, wrap. f_equal. apply eq_true_iff_eq. rewrite !Z.eqb_eq. split; intros H.
  - rewrite <- (Z.mod_small (now_serving l) (2 ^ 32) Hs) in H at 2. replace k with ((now_serving l + k) - now_serving l) by lia. by rewrite Zminus_mod, H, Z.sub_diag.
  - rewrite <- Zplus_mod_idemp_r, H, Z.add_0_r. by apply Z.mod_small.
Qed.

Lemma sim_take l cpus q held c : sim n l cpus q held -> (c < n)%nat -> c ∉ q ->
  sim n (mkLock (wrap 32 (next_ticket l + 1)) (now_serving l)) (<[c := Spinning (next_ticket l)]> cpus) (q ++ [c]) held.
Proof.
  intros S Hc Hq. destruct S as [S1 S2 S3 S4 S5 S6 S7]. constructor; cbn [next_ticket now_serving].
  - by rewrite length_insert.
  - done.
  - rewrite S3, wrap_add, length_app. cbn. f_equal. lia.
  - apply NoDup_app. split_and!; [done|by intros x Hx ->%list_elem_of_singleton|apply NoDup_singleton].
  - intros x. rewrite elem_of_app, list_elem_of_singleton. destruct (decide (x = c)) as [->|Hx].
    + rewrite list_lookup_insert_eq by lia. naive_solver.
    + rewrite list_lookup_insert_ne by done. rewrite S5. naive_solver.
  - intros i x Hi. apply lookup_app_Some in Hi as [Hi|[Hi Hx]].
    + rewrite list_lookup_insert_ne; [by apply S6|]. intros ->. by apply list_elem_of_lookup_2 in Hi.
    + apply list_lookup_singleton_Some in Hx as [Hx <-]. rewrite list_lookup_insert_eq by lia.
      assert (i = length q) as -> by lia. rewrite <- S3. destruct held; [|done]. destruct q; [by destruct (S7 eq_refl)|done].
  - intros Hh. by destruct q.
Qed.

Lemma sim_enter l cpus q c : sim n l cpus q false -> head q = Some c -> sim n l (<[c := Inside]> cpus) q true.
Proof.
  intros [S1 S2 S3 S4 S5 S6 S7] Hc. rewrite head_lookup in Hc.
  assert (c < length cpus)%nat as Hl by (eapply lookup_lt_Some, (S6 0%nat), Hc). constructor; try done.
  - by rewrite length_insert.
  - intros x. destruct (decide (x = c)) as [->|Hx].
    + rewrite list_lookup_insert_eq by done. apply list_elem_of_lookup_2 in Hc. naive_solver.
    + by rewrite list_lookup_insert_ne.
  - intros i x Hi. destruct (decide (x = c)) as [->|Hx].
    + rewrite list_lookup_insert_eq by done. by rewrite (NoDup_lookup _ _ _ _ S4 Hi Hc).
    + rewrite list_lookup_insert_ne by done. rewrite (S6 _ _ Hi). destruct i; [congruence|done].
  - by destruct q.
Qed.

Lemma sim_release l cpus c q : sim n l cpus (c :: q) true -> sim n (unlock l) (<[c := Outside]> cpus) q false.
Proof.
  intros [S1 S2 S3 S4 S5 S6 S7]. apply NoDup_cons in S4 as [Hq S4].
  assert (c < length cpus)%nat as Hl by (eapply lookup_lt_Some, (S6 0%nat); done).
  constructor; cbn [unlock next_ticket now_serving].
  - by rewrite length_insert.
  - by apply wrap_range.
  - rewrite S3, wrap_add. f_equal. cbn. lia.
  - done.
  - intros x. destruct (decide (x = c)) as [->|Hx].
    + rewrite list_lookup_insert_eq by done. split; [by rewrite <- S1|done].
    + rewrite list_lookup_insert_ne, S5, elem_of_cons by done. naive_solver.
  - intros i x Hi. assert (x <> c) by (intros ->; by apply list_elem_of_lookup_2 in Hi).
    rewrite list_lookup_insert_ne by done. rewrite (S6 (S i) x Hi). cbn. f_equal. f_equal. rewrite wrap_add. f_equal. lia.
  - done.
Qed.

Lemma served_spec l cpus q held i c : sim n l cpus q held -> q !! i = Some c ->
  served l (wrap 32 (now_serving l + Z.of_nat i)) = bool_decide (i = 0%nat).
Proof.
  intros S Hi. unfold served. pose proof (queue_bound _ _ _ _ S) as Hq. pose proof (sm_serving _ _ _ _ _ S) as Hs. apply lookup_lt_Some in Hi.
  assert (now_serving l = wrap 32 (now_serving l + 0)) as E by (rewrite Z.add_0_r; symmetry; by apply Z.mod_small).
  apply eq_true_iff_eq. rewrite Z.eqb_eq, bool_decide_eq_true. split; [|intros ->; done].
  rewrite E at 1. intros H%wrap_offset; lia.
Qed.

(** A question in progress loaded the counter [k] tickets behind the served one. *)
Definition asks_sim (l : TicketLock) (asks ahead : list (option Z)) : Prop :=
  asks = option_map (fun k => wrap 32 (now_serving l + k)) <$> ahead.

Lemma asks_lookup l asks ahead c : asks_sim l asks ahead -> asks !! c = option_map (fun k => wrap 32 (now_serving l + k)) <$> ahead !! c.
Proof. intros ->. apply list_lookup_fmap. Qed.

Lemma asks_free m aheads c : asks_sim (lock_of m) (asks m) aheads -> free_to_act m c = bool_decide (aheads !! c = Some None).
Proof.
  intros S. unfold free_to_act. rewrite (asks_lookup _ _ _ c S). destruct (aheads !! c) as [[k|]|]; done.
Qed.

Lemma asks_leave l asks ahead : asks_sim l asks ahead -> asks_sim (unlock l) asks (leave ahead).
Proof.
  intros ->. unfold asks_sim, leave. rewrite <- list_fmap_compose. apply list_fmap_ext. intros i [k|] _; [|done]. cbn. f_equal. rewrite wrap_add. f_equal. lia.
Qed.

Definition machine_sim (m : Machine) (s : Queue) : Prop := sim n (lock_of m) (cpus m) (queue s) (held s) /\ asks_sim (lock_of m) (asks m) (ahead s).

(** Both do the same with an action. *)
Definition same_step (r : option (bool * Machine)) (r' : option (bool * Queue)) : Prop :=
  match r, r' with
  | None, None => True
  | Some (o, m), Some (o', s) => o = o' /\ machine_sim m s
  | _, _ => False
  end.

Lemma take_sim m s c : machine_sim m s -> same_step (act m (Take c)) (queue_act n s (Take c)).
Proof.
  destruct s as [q hd ah]. intros [S A]. cbn [act queue_act queue held ahead] in *.
  destruct (cpu_cases _ _ _ _ c S) as [(-> & Hc & Hq)|[(E & Hc & Hq)|(i & Hi & Hc & _ & E)]].
  - by rewrite decide_False by tauto.
  - rewrite E, (asks_free _ _ _ A). destruct (decide (ah !! c = Some None)) as [Ha|Ha].
    + rewrite bool_decide_eq_true_2, decide_True by done. split; [done|]. split; [by apply sim_take|done].
    + rewrite bool_decide_eq_false_2, decide_False by tauto. done.
  - rewrite decide_False by (intros (_ & H & _); apply H; by eapply list_elem_of_lookup_2). rewrite E. by destruct (hd && _).
Qed.

Lemma spin_sim m s c : machine_sim m s -> same_step (act m (Spin c)) (queue_act n s (Spin c)).
Proof.
  destruct s as [q hd ah]. intros [S A]. cbn [act queue_act queue held ahead] in *.
  destruct (cpu_cases _ _ _ _ c S) as [(-> & Hc & Hq)|[(E & Hc & Hq)|(i & Hi & Hc & Hh & E)]]; [by rewrite decide_False|by rewrite E, decide_False|].
  rewrite E, decide_True by (by eapply list_elem_of_lookup_2). destruct (decide (i = 0%nat)) as [->|H0].
  - rewrite decide_True by (by apply Hh). destruct hd; [done|]. cbn [andb]. rewrite (served_spec _ _ _ _ _ _ S Hi).
    split; [done|]. split; [|done]. apply sim_enter; [done|]. by apply Hh.
  - rewrite decide_False by naive_solver. rewrite (proj2 (Nat.eqb_neq i 0)), andb_false_r by done. by rewrite (served_spec _ _ _ _ _ _ S Hi), bool_decide_eq_false_2.
Qed.

Lemma release_sim m s c : machine_sim m s -> same_step (act m (Release c)) (queue_act n s (Release c)).
Proof.
  destruct s as [q hd ah]. intros [S A]. cbn [act queue_act queue held ahead] in *.
  assert (Hnil : c ∉ q -> head q <> Some c) by (intros Hq H; by destruct q; [|injection H as ->; destruct Hq; left]).
  destruct (cpu_cases _ _ _ _ c S) as [(-> & Hc & Hq)|[(E & Hc & Hq)|(i & Hi & Hc & Hh & E)]].
  - by rewrite decide_False by (intros [? _]; by apply Hnil).
  - by rewrite E, decide_False by (intros [? _]; by apply Hnil).
  - rewrite E. destruct (decide (i = 0%nat)) as [->|H0].
    + destruct hd; [|by rewrite decide_False by naive_solver]. cbn [andb Nat.eqb]. rewrite (asks_free _ _ _ A). destruct (decide (ah !! c = Some None)) as [Ha|Ha].
      * rewrite bool_decide_eq_true_2, decide_True by naive_solver. split; [done|]. destruct q as [|x q]; [done|]. injection Hi as ->. split; [by apply sim_release|by apply asks_leave].
      * by rewrite bool_decide_eq_false_2, decide_False by naive_solver.
    + rewrite decide_False by naive_solver. by rewrite (proj2 (Nat.eqb_neq i 0)), andb_false_r.
Qed.

(** The first load finds the ticket behind the whole queue. *)
Lemma asks_start l cpus q held asks ahead c : sim n l cpus q held -> asks_sim l asks ahead ->
  asks_sim l (<[c := Some (load_next l)]> asks) (<[c := Some (Z.of_nat (length q))]> ahead).
Proof. intros S ->. unfold asks_sim, load_next. rewrite list_fmap_insert. cbn. by rewrite (sm_next _ _ _ _ _ S). Qed.

Lemma ask_next_sim m s c : machine_sim m s -> same_step (act m (AskNext c)) (queue_act n s (AskNext c)).
Proof.
  destruct s as [q hd ah]. intros [S A]. cbn [act queue_act queue held ahead] in *.
  assert (Hstart : machine_sim (mkMachine (lock_of m) (cpus m) (<[c := Some (load_next (lock_of m))]> (asks m))) (mkQueue q hd (<[c := Some (Z.of_nat (length q))]> ah)))
    by (split; [done|by eapply asks_start]).
  destruct (cpu_cases _ _ _ _ c S) as [(-> & Hc & Hq)|[(E & Hc & Hq)|(i & Hi & Hc & Hh & E)]]; [by rewrite decide_False by tauto|..].
  - rewrite E, (asks_free _ _ _ A). destruct (decide (ah !! c = Some None)) as [Ha|Ha]; [rewrite bool_decide_eq_true_2, decide_True by tauto; done|].
    by rewrite bool_decide_eq_false_2, decide_False by tauto.
  - assert (Hq : c ∈ q) by (by eapply list_elem_of_lookup_2). rewrite E. destruct (decide (i = 0%nat /\ hd = true)) as [[-> ->]|H0].
    + cbn [andb Nat.eqb]. rewrite (asks_free _ _ _ A). destruct (decide (ah !! c = Some None)) as [Ha|Ha]; [rewrite bool_decide_eq_true_2, decide_True by naive_solver; done|].
      by rewrite bool_decide_eq_false_2, decide_False by tauto.
    + rewrite decide_False by naive_solver. destruct hd, (Nat.eqb_spec i 0); naive_solver.
Qed.

Lemma ask_serving_sim m s c : machine_sim m s -> same_step (act m (AskServing c)) (queue_act n s (AskServing c)).
Proof.
  destruct s as [q hd ah]. intros [S A]. cbn [act queue_act queue held ahead] in *. rewrite (asks_lookup _ _ _ c A).
  destruct (ah !! c) as [[k|]|]; cbn; [|done..]. split; [apply is_locked_spec, S|]. split; [done|]. unfold asks_sim in *. cbn. by rewrite A, list_fmap_insert.
Qed.

Lemma act_sim m s a : machine_sim m s -> same_step (act m a) (queue_act n s a).
Proof. destruct a; [apply take_sim|apply spin_sim|apply release_sim|apply ask_next_sim|apply ask_serving_sim]. Qed.

Lemma observe_sim acts : forall m s, machine_sim m s ->
  fst <$> observe act m acts = fst <$> observe (queue_act n) s acts /\
  forall os m', observe act m acts = Some (os, m') -> exists s', observe (queue_act n) s acts = Some (os, s') /\ machine_sim m' s'.
Proof.
  induction acts as [|a acts IH]; intros m s S; cbn [observe].
  - split; [done|]. intros os m' [= <- <-]. eauto.
  - pose proof (act_sim _ _ a S) as H. destruct (act m a) as [[o m1]|], (queue_act n s a) as [[o' s1]|]; try done.
    destruct H as [<- S1]. destruct (IH _ _ S1) as [E Hs].
    destruct (observe act m1 acts) as [[os m2]|]; [|by destruct (observe (queue_act n) s1 acts)].
    destruct (Hs _ _ eq_refl) as (s2 & E2 & S2). rewrite E2 in *. split; [done|]. intros ? ? [= <- <-]. eauto.
Qed.

Definition start : Machine := mkMachine new (replicate n Outside) (replicate n None).
Definition empty_queue : Queue := mkQueue [] false (replicate n None).

Lemma sim_start : machine_sim start empty_queue.
Proof.
  split; [|unfold asks_sim; cbn; by rewrite fmap_replicate]. constructor; [by apply length_replicate|done|done|constructor| |done|done].
  intros c. cbn. rewrite lookup_replicate. split; [by intros [_ ?]; split; [|apply not_elem_of_nil]|by intros []].
Qed.
End Sim.

(** * Theorem *)

Definition inside (m : Machine) (c : nat) : Prop := cpus m !! c = Some Inside.

(** C28: The kernel lock is a fair lock. Let any number of CPUs below 2^32 take
    tickets, spin, release and ask whether it is locked, in any interleaving of
    the atomic operations on the two counters, each CPU releasing only what it
    holds; [is_locked] is two loads, and other CPUs may run between them. Every
    spin ends or goes on as it does on a queue that admits one CPU at a time in the
    order in which the tickets were taken, also across the wrap-around of the
    32-bit counters. [is_locked] answers "unlocked" exactly when, between its two
    loads, the CPUs it found in the queue and none behind them have left, the
    number of departures being counted modulo 2^32. At most one CPU is ever
    inside. *)
Theorem ticket_lock_is_fifo n acts :
  Z.of_nat n < 2 ^ 32 ->
  fst <$> observe act (start n) acts = fst <$> observe (queue_act n) (empty_queue n) acts /\
  forall os m, observe act (start n) acts = Some (os, m) -> forall c c', inside m c -> inside m c' -> c = c'.
Proof.
  intros Hn. destruct (observe_sim n Hn acts _ _ (sim_start n)) as [E Hs]. split; [done|].
  intros os m Ho. destruct (Hs _ _ Ho) as ([q hd ah] & _ & S & _). assert (forall c, inside m c -> head q = Some c) as Hh.
  { intros c Hc. unfold inside in Hc. destruct (cpu_cases n _ _ _ _ c S) as [(E1 & _)|[(E1 & _)|(i & Hi & _ & Hh & E1)]]; [congruence..|].
    apply Hh. rewrite E1 in Hc. destruct i; [done|]. by rewrite andb_false_r in Hc. }
  intros c c' H1%Hh H2%Hh. congruence.
Qed.

(** CPU 1 asks while CPU 2 holds the lock and CPU 0 waits; then again with the
    queue empty; then a question that spans the hand-over from CPU 0 to CPU 3 and
    answers "unlocked" although the queue is never empty. *)
Definition lock_run : list Action :=
  [Take 2; Take 0; AskNext 1; AskServing 1; Spin 0; Spin 2; Release 2; Spin 0; Release 0; AskNext 1; AskServing 1;
   Take 0; Spin 0; AskNext 1; Take 3; Release 0; AskServing 1; Spin 3].

Lemma ticket_lock_is_fifo_witness :
  fst <$> observe (queue_act 4) (empty_queue 4) lock_run =
  Some [true; true; true; true; false; true; true; true; true; true; false; true; true; true; true; true; false; true].
Proof. rewrite <- (proj1 (ticket_lock_is_fifo 4 lock_run ltac:(reflexivity))). reflexivity. Defined.
