(* ===== verification/Buddy.v ===== *)
(** The buddy allocator of lockjaw-types/src/buddy.rs: data, operations and
    the bit-level lemmas that turn its byte bitmaps into sets of blocks. *)
From stdpp Require Import base option list gmap numbers.
From Stdlib Require Import ZArith Lia.
From S2P Require Import Prelude.
Open Scope Z_scope.

Definition MAX_PAGES : Z := 262144.
Definition MAX_ORDER : Z := 18.

Definition bitmap_bytes_for_order (order : Z) : Z :=
  let blocks := Z.shiftr MAX_PAGES order in (blocks + 7) / 8.

Fixpoint bitmap_offset_loop (n : nat) (k offset : Z) : Z :=
  match n with
  | O => offset
  | S n' => bitmap_offset_loop n' (k + 1) (offset + bitmap_bytes_for_order k)
  end.

Definition bitmap_offset (order : Z) : Z := bitmap_offset_loop (Z.to_nat order) 0 0.

Definition BITMAP_TOTAL : Z := bitmap_offset (MAX_ORDER + 1).
Definition ALLOC_BITMAP_SIZE : Z := (MAX_PAGES + 7) / 8.

Record BuddyAllocator := mkBuddy {
  bitmap : gmap Z Z;
  allocated : gmap Z Z;
  total_pages : Z;
  free_count : Z;
}.

Definition new : BuddyAllocator := mkBuddy ∅ ∅ 0 0.

Definition init (_ : BuddyAllocator) (total : Z) : outcome BuddyAllocator :=
  _ ← assert (total <=? MAX_PAGES);
  Ret (mkBuddy ∅ ∅ total 0).

Definition add_count (s : BuddyAllocator) (d : Z) : BuddyAllocator :=
  mkBuddy (bitmap s) (allocated s) (total_pages s) (free_count s + d).

(** ** Allocated bitmap helpers *)

Definition is_allocated (s : BuddyAllocator) (page : Z) : outcome bool :=
  b ← arr_get ALLOC_BITMAP_SIZE (allocated s) (page / 8);
  Ret (negb (Z.land b (bitmask (page mod 8)) =? 0)).

Definition set_allocated (s : BuddyAllocator) (page : Z) : outcome BuddyAllocator :=
  b ← arr_get ALLOC_BITMAP_SIZE (allocated s) (page / 8);
  m ← arr_set ALLOC_BITMAP_SIZE (allocated s) (page / 8) (Z.lor b (bitmask (page mod 8)));
  Ret (mkBuddy (bitmap s) m (total_pages s) (free_count s)).

Definition clear_allocated (s : BuddyAllocator) (page : Z) : outcome BuddyAllocator :=
  b ← arr_get ALLOC_BITMAP_SIZE (allocated s) (page / 8);
  m ← arr_set ALLOC_BITMAP_SIZE (allocated s) (page / 8)
        (Z.land b (not_w 8 (bitmask (page mod 8))));
  Ret (mkBuddy (bitmap s) m (total_pages s) (free_count s)).

(** ** Free-block bitmap helpers *)

Definition is_free (s : BuddyAllocator) (order block_idx : Z) : outcome bool :=
  b ← arr_get BITMAP_TOTAL (bitmap s) (bitmap_offset order + block_idx / 8);
  Ret (negb (Z.land b (bitmask (block_idx mod 8)) =? 0)).

Definition set_bit (s : BuddyAllocator) (order block_idx : Z) : outcome BuddyAllocator :=
  let offset := bitmap_offset order + block_idx / 8 in
  b ← arr_get BITMAP_TOTAL (bitmap s) offset;
  m ← arr_set BITMAP_TOTAL (bitmap s) offset (Z.lor b (bitmask (block_idx mod 8)));
  Ret (mkBuddy m (allocated s) (total_pages s) (free_count s)).

Definition clear_bit (s : BuddyAllocator) (order block_idx : Z) : outcome BuddyAllocator :=
  let offset := bitmap_offset order + block_idx / 8 in
  b ← arr_get BITMAP_TOTAL (bitmap s) offset;
  m ← arr_set BITMAP_TOTAL (bitmap s) offset (Z.land b (not_w 8 (bitmask (block_idx mod 8))));
  Ret (mkBuddy m (allocated s) (total_pages s) (free_count s)).

(** The scan over the full bytes of one order's bitmap. *)
Fixpoint find_free_bytes (s : BuddyAllocator) (base : Z) (n : nat) (byte_idx : Z)
  : outcome (option Z) :=
  match n with
  | O => Ret None
  | S n' =>
      b ← arr_get BITMAP_TOTAL (bitmap s) (base + byte_idx);
      if negb (b =? 0) then Ret (Some (byte_idx * 8 + trailing_zeros 8 b))
      else find_free_bytes s base n' (byte_idx + 1)
  end.

Definition find_free (s : BuddyAllocator) (order max_blocks : Z) : outcome (option Z) :=
  let base := bitmap_offset order in
  let full_bytes := max_blocks / 8 in
  let remainder_bits := max_blocks mod 8 in
  r ← find_free_bytes s base (Z.to_nat full_bytes) 0;
  match r with
  | Some i => Ret (Some i)
  | None =>
      if 0 <? remainder_bits then
        b ← arr_get BITMAP_TOTAL (bitmap s) (base + full_bytes);
        let mask := bitmask remainder_bits - 1 in
        let masked := Z.land b mask in
        if negb (masked =? 0) then Ret (Some (full_bytes * 8 + trailing_zeros 8 masked))
        else Ret None
      else Ret None
  end.

(** ** Allocation *)

(** The upward search: clears the block it finds and returns
    [(page, found_order, state)]. *)
Fixpoint alloc_search (fuel : nat) (s : BuddyAllocator) (found_order : Z)
  : outcome (option (Z * Z * BuddyAllocator)) :=
  match fuel with
  | O => Panic PFuel
  | S fuel' =>
      let max_blocks := Z.shiftr (total_pages s) found_order in
      r ← find_free s found_order max_blocks;
      match r with
      | Some block_idx =>
          s1 ← clear_bit s found_order block_idx;
          let s2 := add_count s1 (- Z.shiftl 1 found_order) in
          Ret (Some (Z.shiftl block_idx found_order, found_order, s2))
      | None =>
          let found_order' := found_order + 1 in
          if MAX_ORDER <? found_order' then Ret None
          else alloc_search fuel' s found_order'
      end
  end.

(** The downward split: the right half of each level goes on the bitmap. *)
Fixpoint alloc_split (fuel : nat) (s : BuddyAllocator) (page found_order order : Z)
  : outcome BuddyAllocator :=
  if order <? found_order then
    match fuel with
    | O => Panic PFuel
    | S fuel' =>
        let found_order' := found_order - 1 in
        let right_half := page + Z.shiftl 1 found_order' in
        s1 ← set_bit s found_order' (Z.shiftr right_half found_order');
        alloc_split fuel' (add_count s1 (Z.shiftl 1 found_order')) page found_order' order
    end
  else Ret s.

Definition alloc (s : BuddyAllocator) (order : Z) : outcome (option Z * BuddyAllocator) :=
  if MAX_ORDER <? order then Ret (None, s)
  else
    r ← alloc_search (Z.to_nat (MAX_ORDER + 1)) s order;
    match r with
    | None => Ret (None, s)
    | Some (page, found_order, s1) =>
        s2 ← alloc_split (Z.to_nat MAX_ORDER) s1 page found_order order;
        s3 ← for_range 0 (Z.to_nat (Z.shiftl 1 order))
               (fun i st => set_allocated st (page + i)) s2;
        Ret (Some page, s3)
    end.

(** ** Deallocation *)

(** The double-free check: every page must be marked, and is unmarked. *)
Definition free_unmark (page i : Z) (s : BuddyAllocator) : outcome BuddyAllocator :=
  a ← is_allocated s (page + i);
  _ ← assert a;
  clear_allocated s (page + i).

(** The upward merge loop. *)
Fixpoint free_merge (fuel : nat) (s : BuddyAllocator) (current_page current_order : Z)
  : outcome BuddyAllocator :=
  match fuel with
  | O => Panic PFuel
  | S fuel' =>
      if current_order =? MAX_ORDER then
        s1 ← set_bit s current_order (Z.shiftr current_page current_order);
        Ret (add_count s1 (Z.shiftl 1 current_order))
      else
        let block_idx := Z.shiftr current_page current_order in
        let buddy_idx := Z.lxor block_idx 1 in
        let buddy_page := Z.shiftl buddy_idx current_order in
        bf ← (if buddy_page <? total_pages s then is_free s current_order buddy_idx
              else Ret false);
        if bf : bool then
          s1 ← clear_bit s current_order buddy_idx;
          let s2 := add_count s1 (- Z.shiftl 1 current_order) in
          let current_page' := Z.land current_page (not_w 64 (Z.shiftl 1 current_order)) in
          free_merge fuel' s2 current_page' (current_order + 1)
        else
          s1 ← set_bit s current_order block_idx;
          Ret (add_count s1 (Z.shiftl 1 current_order))
  end.

Definition free (s : BuddyAllocator) (page order : Z) : outcome BuddyAllocator :=
  _ ← assert (order <=? MAX_ORDER);
  _ ← assert (page + Z.shiftl 1 order <=? total_pages s);
  _ ← assert (page mod Z.shiftl 1 order =? 0);
  s1 ← for_range 0 (Z.to_nat (Z.shiftl 1 order)) (free_unmark page) s;
  free_merge (Z.to_nat (MAX_ORDER + 1)) s1 page order.

(** [add_range]: mark the pages allocated, then free them one by one. *)
Definition add_range (s : BuddyAllocator) (start_page cnt : Z) : outcome BuddyAllocator :=
  end_ ← unwrap (checked_add64 start_page cnt);
  _ ← assert (end_ <=? total_pages s);
  s1 ← for_range 0 (Z.to_nat cnt) (fun i st => set_allocated st (start_page + i)) s;
  for_range 0 (Z.to_nat cnt) (fun i st => free st (start_page + i) 0) s1.

(** [order_for_count]: smallest order with [2^order >= count]. The shift drops
    the bit that leaves the 64-bit word, so the size returns to 0 once it
    passes [2^63]; 64 iterations are enough for every [count] up to there. *)
Fixpoint order_loop (fuel : nat) (cnt order size : Z) : outcome Z :=
  if size <? cnt then
    match fuel with
    | O => Panic PFuel
    | S fuel' => order_loop fuel' cnt (order + 1) (wrap 64 (Z.shiftl size 1))
    end
  else Ret order.

Definition order_for_count (cnt : Z) : outcome Z :=
  if cnt <=? 1 then Ret 0 else order_loop 64 cnt 0 1.

(** * Bit-level view

    [fbit s k b]: the free bit of block [b] of order [k]; [abit s p]: the
    allocated bit of page [p]. *)
Definition fbit (s : BuddyAllocator) (k b : Z) : bool :=
  Z.testbit (arr_peek (bitmap s) (bitmap_offset k + b / 8)) (b mod 8).

Definition abit (s : BuddyAllocator) (p : Z) : bool :=
  Z.testbit (arr_peek (allocated s) (p / 8)) (p mod 8).

(** Block [b] of order [k] lies below [MAX_PAGES]. *)
Definition valid_block (k b : Z) : Prop := 0 <= k <= MAX_ORDER /\ 0 <= b < 2 ^ (MAX_ORDER - k).

(** Every element of the two byte arrays is a byte. *)
Definition bytes_ok (s : BuddyAllocator) : Prop :=
  (forall i, word 8 (arr_peek (bitmap s) i)) /\ (forall i, word 8 (arr_peek (allocated s) i)).

Lemma bitmap_offset_loop_S n k o :
  bitmap_offset_loop (S n) k o = bitmap_offset_loop n k o + bitmap_bytes_for_order (k + Z.of_nat n).
Proof.
  revert k o. induction n as [|n IH]; intros k o.
  - cbn [bitmap_offset_loop]. by rewrite Z.add_0_r.
  - change (bitmap_offset_loop (S (S n)) k o) with
      (bitmap_offset_loop (S n) (k + 1) (o + bitmap_bytes_for_order k)).
    rewrite IH.
    change (bitmap_offset_loop (S n) k o) with
      (bitmap_offset_loop n (k + 1) (o + bitmap_bytes_for_order k)).
    f_equal. f_equal. lia.
Qed.

Lemma bitmap_offset_succ k :
  0 <= k -> bitmap_offset (k + 1) = bitmap_offset k + bitmap_bytes_for_order k.
Proof.
  intros Hk. unfold bitmap_offset.
  replace (Z.to_nat (k + 1)) with (S (Z.to_nat k)) by lia.
  rewrite bitmap_offset_loop_S. f_equal. f_equal. lia.
Qed.

Lemma bitmap_bytes_nonneg k : 0 <= k -> 0 <= bitmap_bytes_for_order k.
Proof.
  intros Hk. unfold bitmap_bytes_for_order. rewrite Z.shiftr_div_pow2 by done.
  pose proof (pow2_pos k Hk). apply Z.div_pos; [|lia].
  enough (0 <= MAX_PAGES / 2 ^ k) by lia. apply Z.div_pos; unfold MAX_PAGES; lia.
Qed.

Lemma bitmap_offset_mono j k : 0 <= j <= k -> bitmap_offset j <= bitmap_offset k.
Proof.
  intros Hjk. replace k with (j + Z.of_nat (Z.to_nat (k - j))) by lia.
  generalize (Z.to_nat (k - j)) as n. induction n as [|n IH].
  - by rewrite Z.add_0_r.
  - replace (j + Z.of_nat (S n)) with (j + Z.of_nat n + 1) by lia.
    rewrite bitmap_offset_succ by lia.
    pose proof (bitmap_bytes_nonneg (j + Z.of_nat n) ltac:(lia)). lia.
Qed.

Lemma MAX_PAGES_pow : MAX_PAGES = 2 ^ MAX_ORDER.
Proof. reflexivity. Qed.

(** The byte of a valid block lies inside its order's region of the array. *)
Lemma block_byte k b :
  valid_block k b -> bitmap_offset k <= bitmap_offset k + b / 8 < bitmap_offset (k + 1).
Proof.
  intros [Hk Hb]. rewrite bitmap_offset_succ by lia.
  unfold bitmap_bytes_for_order. rewrite Z.shiftr_div_pow2, MAX_PAGES_pow by lia.
  rewrite <- Z.pow_sub_r by lia.
  pose proof (Z.div_pos b 8 ltac:(lia) ltac:(lia)).
  split; [lia|]. apply Z.add_lt_mono_l.
  pose proof (Z.div_mod b 8 ltac:(lia)). pose proof (Z.mod_pos_bound b 8 ltac:(lia)).
  enough (b / 8 + 1 <= (2 ^ (MAX_ORDER - k) + 7) / 8) by lia.
  apply Z.div_le_lower_bound; lia.
Qed.

Lemma block_byte_total k b : valid_block k b -> 0 <= bitmap_offset k + b / 8 < BITMAP_TOTAL.
Proof.
  intros Hv. pose proof (block_byte k b Hv). destruct Hv as [Hk Hb].
  pose proof (bitmap_offset_mono 0 k ltac:(lia)).
  pose proof (bitmap_offset_mono (k + 1) (MAX_ORDER + 1) ltac:(lia)).
  unfold BITMAP_TOTAL. change (bitmap_offset 0) with 0 in *. lia.
Qed.

(** Two valid blocks share a byte and a bit position only if they are equal. *)
Lemma block_pos_inj k b k' b' :
  valid_block k b -> valid_block k' b' ->
  bitmap_offset k + b / 8 = bitmap_offset k' + b' / 8 -> b mod 8 = b' mod 8 ->
  k = k' /\ b = b'.
Proof.
  intros Hv Hv' Ho Hm.
  pose proof (block_byte _ _ Hv) as H1. pose proof (block_byte _ _ Hv') as H2.
  destruct Hv as [Hk _], Hv' as [Hk' _].
  assert (k = k') as <-.
  { destruct (Z.lt_trichotomy k k') as [L|[L|L]]; [exfalso|done|exfalso].
    - pose proof (bitmap_offset_mono (k + 1) k' ltac:(lia)). lia.
    - pose proof (bitmap_offset_mono (k' + 1) k ltac:(lia)). lia. }
  split; [done|]. rewrite (Z.div_mod b 8), (Z.div_mod b' 8) by lia. lia.
Qed.

Lemma mod8 b : 0 <= b mod 8 < 8.
Proof. apply Z.mod_pos_bound. lia. Qed.

Lemma is_free_spec s k b : valid_block k b -> is_free s k b = Ret (fbit s k b).
Proof.
  intros Hv. unfold is_free. rewrite arr_get_in by (by apply block_byte_total).
  rewrite bind_Ret, land_bitmask by apply mod8. done.
Qed.

(** [s'] is [s] with the free bit of block [(k, b)] set to [v]. *)
Record upd_block (s s' : BuddyAllocator) (k b : Z) (v : bool) : Prop := {
  ub_bit : forall k' b', valid_block k' b' ->
    fbit s' k' b' = if decide (k = k' /\ b = b') then v else fbit s k' b';
  ub_alloc : allocated s' = allocated s;
  ub_total : total_pages s' = total_pages s;
  ub_count : free_count s' = free_count s;
  ub_bytes : bytes_ok s -> bytes_ok s';
}.

Lemma upd_block_intro s k b v x :
  valid_block k b ->
  let o := bitmap_offset k + b / 8 in
  (forall j, 0 <= j < 8 -> Z.testbit x j =
     if decide (b mod 8 = j) then v else Z.testbit (arr_peek (bitmap s) o) j) ->
  (word 8 (arr_peek (bitmap s) o) -> word 8 x) ->
  upd_block s (mkBuddy (<[o := x]> (bitmap s)) (allocated s) (total_pages s) (free_count s)) k b v.
Proof.
  intros Hv o Hx Hw. constructor; try done.
  - intros k' b' Hv'. unfold fbit at 1. simpl. rewrite arr_peek_insert.
    destruct (decide (o = bitmap_offset k' + b' / 8)) as [Ho|Ho].
    + rewrite Hx by apply mod8. destruct (decide (b mod 8 = b' mod 8)) as [Hm|Hm].
      * destruct (block_pos_inj k b k' b') as [-> ->]; [done..|]. by rewrite decide_True by done.
      * rewrite decide_False by (by intros [-> ->]). unfold fbit. by rewrite Ho.
    + rewrite decide_False; [done|]. intros [-> ->]. done.
  - intros [H1 H2]. split; [|done]. intros i. simpl. rewrite arr_peek_insert.
    case_decide; [by apply Hw|apply H1].
Qed.

Lemma set_bit_spec s k b :
  valid_block k b -> exists s', set_bit s k b = Ret s' /\ upd_block s s' k b true.
Proof.
  intros Hv. unfold set_bit.
  rewrite arr_get_in, bind_Ret, arr_set_in, bind_Ret by (by apply block_byte_total).
  eexists. split; [done|]. apply upd_block_intro; [done| |].
  - intros j Hj. apply testbit_set; pose proof (mod8 b); lia.
  - intros H. apply word_lor; [lia|done|]. apply word_bitmask, mod8.
Qed.

Lemma clear_bit_spec s k b :
  valid_block k b -> exists s', clear_bit s k b = Ret s' /\ upd_block s s' k b false.
Proof.
  intros Hv. unfold clear_bit.
  rewrite arr_get_in, bind_Ret, arr_set_in, bind_Ret by (by apply block_byte_total).
  eexists. split; [done|]. apply upd_block_intro; [done| |].
  - intros j Hj. apply testbit_clear; pose proof (mod8 b); lia.
  - intros H. apply word_land_l; [lia|done].
Qed.

(** The allocated bitmap, one page at a time. *)
Lemma page_byte p : 0 <= p < MAX_PAGES -> 0 <= p / 8 < ALLOC_BITMAP_SIZE.
Proof.
  unfold ALLOC_BITMAP_SIZE, MAX_PAGES. intros Hp. split; [apply Z.div_pos; lia|].
  change ((262144 + 7) / 8) with 32768. apply Z.div_lt_upper_bound; lia.
Qed.

Lemma is_allocated_spec s p : 0 <= p < MAX_PAGES -> is_allocated s p = Ret (abit s p).
Proof.
  intros Hp. unfold is_allocated. rewrite arr_get_in by (by apply page_byte).
  rewrite bind_Ret, land_bitmask by apply mod8. done.
Qed.

Record upd_page (s s' : BuddyAllocator) (p : Z) (v : bool) : Prop := {
  up_bit : forall q, abit s' q = if decide (p = q) then v else abit s q;
  up_bitmap : bitmap s' = bitmap s;
  up_total : total_pages s' = total_pages s;
  up_count : free_count s' = free_count s;
  up_bytes : bytes_ok s -> bytes_ok s';
}.

Lemma upd_page_intro s p v x :
  (forall j, 0 <= j < 8 -> Z.testbit x j =
     if decide (p mod 8 = j) then v else Z.testbit (arr_peek (allocated s) (p / 8)) j) ->
  (word 8 (arr_peek (allocated s) (p / 8)) -> word 8 x) ->
  upd_page s (mkBuddy (bitmap s) (<[p / 8 := x]> (allocated s)) (total_pages s) (free_count s)) p v.
Proof.
  intros Hx Hw. constructor; try done.
  - intros q. unfold abit at 1. simpl. rewrite arr_peek_insert.
    destruct (decide (p / 8 = q / 8)) as [Ho|Ho].
    + rewrite Hx by apply mod8. destruct (decide (p mod 8 = q mod 8)) as [Hm|Hm].
      * rewrite decide_True; [done|]. rewrite (Z.div_mod p 8), (Z.div_mod q 8) by lia. lia.
      * rewrite decide_False by naive_solver. unfold abit. by rewrite Ho.
    + rewrite decide_False; [done|]. by intros ->.
  - intros [H1 H2]. split; [done|]. intros i. simpl. rewrite arr_peek_insert.
    case_decide; [by apply Hw|apply H2].
Qed.

Lemma set_allocated_spec s p :
  0 <= p < MAX_PAGES -> exists s', set_allocated s p = Ret s' /\ upd_page s s' p true.
Proof.
  intros Hp. unfold set_allocated.
  rewrite arr_get_in, bind_Ret, arr_set_in, bind_Ret by (by apply page_byte).
  eexists. split; [done|]. apply upd_page_intro.
  - intros j Hj. apply testbit_set; pose proof (mod8 p); lia.
  - intros H. apply word_lor; [lia|done|]. apply word_bitmask, mod8.
Qed.

Lemma clear_allocated_spec s p :
  0 <= p < MAX_PAGES -> exists s', clear_allocated s p = Ret s' /\ upd_page s s' p false.
Proof.
  intros Hp. unfold clear_allocated.
  rewrite arr_get_in, bind_Ret, arr_set_in, bind_Ret by (by apply page_byte).
  eexists. split; [done|]. apply upd_page_intro.
  - intros j Hj. apply testbit_clear; pose proof (mod8 p); lia.
  - intros H. apply word_land_l; [lia|done].
Qed.

(** ** The scan *)

Lemma find_free_bytes_spec s base n i :
  bytes_ok s -> 0 <= base -> 0 <= i -> base + i + Z.of_nat n <= BITMAP_TOTAL ->
  exists r, find_free_bytes s base n i = Ret r /\
  match r with
  | Some b => i * 8 <= b < (i + Z.of_nat n) * 8 /\
      Z.testbit (arr_peek (bitmap s) (base + b / 8)) (b mod 8) = true
  | None => forall b, i * 8 <= b < (i + Z.of_nat n) * 8 ->
      Z.testbit (arr_peek (bitmap s) (base + b / 8)) (b mod 8) = false
  end.
Proof.
  intros [Hw _] Hbase. revert i. induction n as [|n IH]; intros i Hi Hn; simpl.
  - eexists. split; [done|]. simpl. intros b Hb. lia.
  - rewrite arr_get_in, bind_Ret by lia. set (x := arr_peek (bitmap s) (base + i)).
    destruct (Z.eqb_spec x 0) as [Hx|Hx]; simpl.
    + destruct (IH (i + 1)) as (r & E & Hr); [lia|lia|].
      exists r. split; [done|]. destruct r as [b|].
      * destruct Hr. split; [lia|done].
      * intros b Hb. destruct (decide (b < (i + 1) * 8)) as [L|L]; [|apply Hr; lia].
        replace (b / 8) with i by (apply Z.div_unique with (b - i * 8); lia).
        fold x. rewrite Hx. apply Z.bits_0.
    + eexists. split; [done|].
      destruct (trailing_zeros_set 8 8 x) as [H1 H2]; [lia|apply word_bits; [lia|apply Hw]|done|].
      split; [lia|].
      replace ((i * 8 + trailing_zeros 8 x) / 8) with i
        by (apply Z.div_unique with (trailing_zeros 8 x); lia).
      replace ((i * 8 + trailing_zeros 8 x) mod 8) with (trailing_zeros 8 x)
        by (apply Z.mod_unique with i; lia).
      done.
Qed.

(** [find_free] returns a free block below [max_blocks] when there is one. *)
Lemma find_free_spec s k n :
  bytes_ok s -> 0 <= k <= MAX_ORDER -> 0 <= n <= 2 ^ (MAX_ORDER - k) ->
  exists r, find_free s k n = Ret r /\
  match r with
  | Some b => 0 <= b < n /\ fbit s k b = true
  | None => forall b, 0 <= b < n -> fbit s k b = false
  end.
Proof.
  intros Hok Hk Hn. unfold find_free.
  pose proof (Z.div_mod n 8 ltac:(lia)) as Hdm. pose proof (mod8 n) as Hm.
  pose proof (Z.div_pos n 8 ltac:(lia) ltac:(lia)) as Hq.
  pose proof (bitmap_offset_mono 0 k ltac:(lia)) as Hb. change (bitmap_offset 0) with 0 in Hb.
  assert (bitmap_offset k + n / 8 <= BITMAP_TOTAL) as Hfit.
  { destruct (decide (n = 0)) as [->|]; [|].
    - pose proof (bitmap_offset_mono k (MAX_ORDER + 1) ltac:(lia)).
      unfold BITMAP_TOTAL. change (0 / 8) with 0. lia.
    - pose proof (block_byte_total k (n - 1) ltac:(split; lia)).
      enough (n / 8 <= (n - 1) / 8 + 1) by lia.
      pose proof (Z.div_mod (n - 1) 8 ltac:(lia)). pose proof (mod8 (n - 1)). lia. }
  destruct (find_free_bytes_spec s (bitmap_offset k) (Z.to_nat (n / 8)) 0) as (r & -> & Hr);
    [done|lia|lia|lia|].
  rewrite bind_Ret. rewrite !Z.add_0_l, Z2Nat.id, Z.mul_0_l in Hr by lia.
  destruct r as [b|]; [eexists; split; [done|]; split; [lia|apply Hr]|].
  destruct (Z.ltb_spec 0 (n mod 8)) as [L|L].
  2:{ eexists. split; [done|]. intros b Hb'. apply Hr. lia. }
  rewrite arr_get_in, bind_Ret.
  2:{ pose proof (block_byte_total k (n - 1) ltac:(split; lia)).
      replace ((n - 1) / 8) with (n / 8) in * by (apply Z.div_unique with (n mod 8 - 1); lia). lia. }
  set (x := arr_peek (bitmap s) (bitmap_offset k + n / 8)).
  assert (bitmask (n mod 8) - 1 = Z.ones (n mod 8)) as -> by (unfold bitmask, Z.ones; lia).
  assert (forall b, n / 8 * 8 <= b < n -> fbit s k b = Z.testbit (Z.land x (Z.ones (n mod 8))) (b - n / 8 * 8)) as Hlast.
  { intros b Hb'. unfold fbit. rewrite Z.land_spec, Z.ones_spec_low, andb_true_r by lia.
    replace (b / 8) with (n / 8) by (apply Z.div_unique with (b - n / 8 * 8); lia). fold x.
    f_equal. symmetry. apply Z.mod_unique with (n / 8); lia. }
  set (y := Z.land x (Z.ones (n mod 8))) in *.
  destruct (Z.eqb_spec y 0) as [Hy|Hy]; simpl.
  - eexists. split; [done|]. intros b Hb'.
    destruct (decide (b < n / 8 * 8)) as [L'|L']; [apply Hr; lia|].
    rewrite Hlast, Hy by lia. apply Z.bits_0.
  - eexists. split; [done|].
    destruct (trailing_zeros_set 8 (n mod 8) y) as [H1 H2]; [lia| |done|].
    { intros j Hj. unfold y. rewrite Z.land_spec, Z.ones_spec_high by lia. apply andb_false_r. }
    split; [lia|]. rewrite Hlast by lia.
    by replace (n / 8 * 8 + trailing_zeros 8 y - n / 8 * 8) with (trailing_zeros 8 y) by lia.
Qed.
