(* ===== verification/BuddyInv.v ===== *)
(** The buddy allocator's invariant, what each operation does to the set of
    free pages and to the set of pages handed out, and the refinement of the
    bitmaps to those two page sets. *)
From stdpp Require Import base option list gmap numbers.
From Stdlib Require Import ZArith Lia.
From S2P Require Import Prelude Buddy.
Open Scope Z_scope.

(** * The page-level view *)

(** Page [p] lies in a free block of order [k]. *)
Definition covers (s : BuddyAllocator) (k p : Z) : bool := fbit s k (p / 2 ^ k).

(** Page [p] lies in some free block. *)
Definition page_free (s : BuddyAllocator) (p : Z) : bool :=
  existsb (fun k => covers s k p) (seqZ 0 (MAX_ORDER + 1)).

Record WF (s : BuddyAllocator) : Prop := {
  wf_bytes : bytes_ok s;
  wf_total : 0 <= total_pages s <= MAX_PAGES;
  wf_in : forall k b, valid_block k b -> fbit s k b = true -> (b + 1) * 2 ^ k <= total_pages s;
  wf_once : forall p k k', 0 <= p < MAX_PAGES -> 0 <= k <= MAX_ORDER -> 0 <= k' <= MAX_ORDER ->
    covers s k p = true -> covers s k' p = true -> k = k';
  wf_unalloc : forall p, 0 <= p < MAX_PAGES -> page_free s p = true -> abit s p = false;
  wf_coalesced : forall k b, 0 <= k < MAX_ORDER -> valid_block k b ->
    fbit s k b = true -> fbit s k (Z.lxor b 1) = false;
  wf_count : free_count s = count (page_free s) (Z.to_nat (total_pages s));
}.

Lemma page_free_iff s p :
  page_free s p = true <-> exists k, 0 <= k <= MAX_ORDER /\ covers s k p = true.
Proof.
  unfold page_free. rewrite existsb_exists. split.
  - intros (k & Hin & Hk). apply list_elem_of_In, elem_of_seqZ in Hin. exists k. split; [lia|done].
  - intros (k & Hr & Hk). exists k. split; [|done]. apply list_elem_of_In, elem_of_seqZ. lia.
Qed.

Lemma page_free_false s p :
  page_free s p = false <-> forall k, 0 <= k <= MAX_ORDER -> covers s k p = false.
Proof.
  rewrite <- not_true_iff_false, page_free_iff. split.
  - intros H k Hk. apply not_true_is_false. naive_solver.
  - intros H (k & Hk & Hc). by rewrite H in Hc.
Qed.

(** ** Blocks and pages *)

Lemma div_block k b p : 0 <= k -> p / 2 ^ k = b <-> b * 2 ^ k <= p < b * 2 ^ k + 2 ^ k.
Proof.
  intros Hk. pose proof (pow2_pos k Hk) as Hp. split.
  - intros <-. pose proof (Z.div_mod p (2 ^ k) ltac:(lia)).
    pose proof (Z.mod_pos_bound p (2 ^ k) ltac:(lia)). lia.
  - intros H. symmetry. apply Z.div_unique with (p - b * 2 ^ k); lia.
Qed.

Lemma block_pages k b : valid_block k b -> 0 <= b * 2 ^ k /\ b * 2 ^ k + 2 ^ k <= MAX_PAGES.
Proof.
  intros [Hk Hb]. rewrite MAX_PAGES_pow.
  replace MAX_ORDER with (MAX_ORDER - k + k) at 1 by lia. rewrite Z.pow_add_r by lia.
  pose proof (pow2_pos k ltac:(lia)). nia.
Qed.

Lemma block_valid k b :
  0 <= k <= MAX_ORDER -> 0 <= b -> b * 2 ^ k + 2 ^ k <= MAX_PAGES -> valid_block k b.
Proof.
  intros Hk Hb. rewrite MAX_PAGES_pow. intros H. split; [done|]. split; [done|].
  replace MAX_ORDER with (MAX_ORDER - k + k) in H at 1 by lia. rewrite Z.pow_add_r in H by lia.
  pose proof (pow2_pos k ltac:(lia)). nia.
Qed.

Lemma page_block_valid k p : 0 <= k <= MAX_ORDER -> 0 <= p < MAX_PAGES -> valid_block k (p / 2 ^ k).
Proof.
  intros Hk Hp. split; [done|]. pose proof (pow2_pos k ltac:(lia)).
  split; [apply Z.div_pos; lia|]. apply Z.div_lt_upper_bound; [lia|].
  rewrite <- Z.pow_add_r by lia. replace (k + (MAX_ORDER - k)) with MAX_ORDER by lia.
  rewrite <- MAX_PAGES_pow. lia.
Qed.

(** Page [p] lies in block [(k, b)]. *)
Definition in_block (k b p : Z) : bool := in_range (b * 2 ^ k) (2 ^ k) p.

Lemma in_block_spec k b p : 0 <= k -> in_block k b p = true <-> p / 2 ^ k = b.
Proof. intros Hk. unfold in_block. rewrite in_range_spec. by rewrite div_block. Qed.

Lemma in_block_false k b p : 0 <= k -> in_block k b p = false <-> p / 2 ^ k <> b.
Proof. intros Hk. rewrite <- not_true_iff_false. by rewrite in_block_spec. Qed.

(** Every free page lies below [total_pages]. *)
Lemma covers_total s k p :
  WF s -> 0 <= k <= MAX_ORDER -> 0 <= p < MAX_PAGES -> covers s k p = true -> p < total_pages s.
Proof.
  intros W Hk Hp Hc. pose proof (wf_in s W _ _ (page_block_valid k p Hk Hp) Hc) as H.
  destruct (div_block k (p / 2 ^ k) p ltac:(lia)) as [H' _]. specialize (H' eq_refl). lia.
Qed.

(** ** The update of one free bit, at page level *)

Lemma upd_covers s s' k b v k' p :
  upd_block s s' k b v -> 0 <= k' <= MAX_ORDER -> 0 <= p < MAX_PAGES ->
  covers s' k' p = if decide (k = k' /\ b = p / 2 ^ k') then v else covers s k' p.
Proof. intros U Hk Hp. unfold covers. apply (ub_bit _ _ _ _ _ U). by apply page_block_valid. Qed.

Lemma upd_page_free_set s s' k b p :
  upd_block s s' k b true -> 0 <= k <= MAX_ORDER -> 0 <= p < MAX_PAGES ->
  page_free s' p = page_free s p || in_block k b p.
Proof.
  intros U Hk Hp. apply eq_bool_prop_intro. rewrite !Is_true_true, orb_true_iff, !page_free_iff.
  rewrite in_block_spec by lia. split.
  - intros (k' & Hk' & Hc). rewrite (upd_covers _ _ _ _ _ _ _ U) in Hc by done.
    case_decide; [right; naive_solver|left; eauto].
  - intros [(k' & Hk' & Hc)|<-].
    + exists k'. split; [done|]. rewrite (upd_covers _ _ _ _ _ _ _ U) by done. by case_decide.
    + exists k. split; [done|]. rewrite (upd_covers _ _ _ _ _ _ _ U) by done. by rewrite decide_True.
Qed.

Lemma upd_page_free_clear s s' k b p :
  WF s -> upd_block s s' k b false -> valid_block k b -> fbit s k b = true -> 0 <= p < MAX_PAGES ->
  page_free s' p = page_free s p && negb (in_block k b p).
Proof.
  intros W U [Hk Hb] Hf Hp. apply eq_bool_prop_intro.
  rewrite !Is_true_true, andb_true_iff, negb_true_iff, !page_free_iff, in_block_false by lia. split.
  - intros (k' & Hk' & Hc). rewrite (upd_covers _ _ _ _ _ _ _ U) in Hc by done.
    case_decide as E; [done|]. split; [eauto|]. intros <-. apply E.
    rewrite (wf_once s W p k k') by done. done.
  - intros [(k' & Hk' & Hc) Hn]. exists k'. split; [done|].
    rewrite (upd_covers _ _ _ _ _ _ _ U) by done. rewrite decide_False; [done|]. naive_solver.
Qed.

(** * Adding and removing one free block *)

Lemma total_nat s : WF s -> Z.of_nat (Z.to_nat (total_pages s)) = total_pages s.
Proof. intros W. pose proof (wf_total s W). lia. Qed.

(** What [set_block] needs: the block is in range, none of its pages is free
    or handed out, and its buddy is not free. *)
Record addable (s : BuddyAllocator) (k b : Z) : Prop := {
  ad_valid : valid_block k b;
  ad_in : (b + 1) * 2 ^ k <= total_pages s;
  ad_pages : forall p, in_block k b p = true -> page_free s p = false /\ abit s p = false;
  ad_buddy : k < MAX_ORDER -> fbit s k (Z.lxor b 1) = false;
}.

(** [s] is well formed, manages [t] pages, and has the free pages [f] and the
    handed-out pages [a]. *)
Record view (s : BuddyAllocator) (t : Z) (f a : Z -> bool) : Prop := {
  vw_wf : WF s;
  vw_total : total_pages s = t;
  vw_free : forall p, 0 <= p < MAX_PAGES -> page_free s p = f p;
  vw_alloc : forall p, abit s p = a p;
}.

Lemma view_self s : WF s -> view s (total_pages s) (page_free s) (abit s).
Proof. by constructor. Qed.

Lemma view_ext s t f a f' a' :
  view s t f a -> (forall p, 0 <= p < MAX_PAGES -> f p = f' p) -> (forall p, a p = a' p) ->
  view s t f' a'.
Proof.
  intros [W T F A] Hf Ha. constructor; [done|done| |].
  - intros p Hp. by rewrite F, Hf.
  - intros p. by rewrite A.
Qed.

Lemma lxor_1_r b : 0 <= b -> Z.lxor b 1 = if Z.even b then b + 1 else b - 1.
Proof.
  intros Hb. destruct (Z.even b) eqn:E.
  - apply Z.even_spec in E as [m ->]. rewrite <- Z.add_nocarry_lxor; [done|].
    apply Z.bits_inj'. intros j Hj. rewrite Z.land_spec, Z.bits_0.
    destruct (decide (j = 0)) as [->|].
    + by rewrite Z.testbit_even_0.
    + change 1 with (2 ^ 0). rewrite Z.pow2_bits_false by lia. apply andb_false_r.
  - rewrite <- Z.negb_odd in E. apply negb_false_iff, Z.odd_spec in E as [m ->].
    replace (2 * m + 1) with (Z.lxor (2 * m) 1) at 1.
    + rewrite Z.lxor_assoc, Z.lxor_nilpotent, Z.lxor_0_r. lia.
    + symmetry. apply Z.add_nocarry_lxor. apply Z.bits_inj'. intros j Hj.
      rewrite Z.land_spec, Z.bits_0. destruct (decide (j = 0)) as [->|].
      * by rewrite Z.testbit_even_0.
      * change 1 with (2 ^ 0). rewrite Z.pow2_bits_false by lia. apply andb_false_r.
Qed.

Lemma lxor_1_invol b : Z.lxor (Z.lxor b 1) 1 = b.
Proof. by rewrite Z.lxor_assoc, Z.lxor_nilpotent, Z.lxor_0_r. Qed.

(** The buddy of a block below the top order is a block of that order. *)
Lemma buddy_valid k b : k < MAX_ORDER -> valid_block k b -> valid_block k (Z.lxor b 1).
Proof.
  intros Hk [Hk' Hb]. split; [done|].
  replace (MAX_ORDER - k) with (Z.succ (MAX_ORDER - k - 1)) in * by lia.
  rewrite Z.pow_succ_r in * by lia. rewrite lxor_1_r by lia. destruct (Z.even b) eqn:E; [|].
  - apply Z.even_spec in E as [m ->]. lia.
  - rewrite <- Z.negb_odd in E. apply negb_false_iff, Z.odd_spec in E as [m ->]. lia.
Qed.

Lemma set_block_spec s k b :
  WF s -> addable s k b ->
  exists s', set_bit s k b = Ret s' /\
    view (add_count s' (2 ^ k)) (total_pages s)
      (fun p => page_free s p || in_block k b p) (abit s).
Proof.
  intros W A. pose proof (ad_valid _ _ _ A) as Hv. destruct Hv as [Hk Hb].
  destruct (set_bit_spec s k b (ad_valid _ _ _ A)) as (s' & E & U). exists s'. split; [done|].
  pose proof (fun p Hp => upd_page_free_set s s' k b p U Hk Hp) as Hpf.
  pose proof (pow2_pos k ltac:(lia)) as Hpos. pose proof (block_pages _ _ (ad_valid _ _ _ A)) as Hbp.
  assert (forall p, abit s' p = abit s p) as Hab by (intros p; unfold abit; by rewrite (ub_alloc _ _ _ _ _ U)).
  constructor; try done; [|by apply (ub_total _ _ _ _ _ U)].
  constructor.
  - apply (ub_bytes _ _ _ _ _ U), W.
  - simpl. rewrite (ub_total _ _ _ _ _ U). apply W.
  - intros k' b' Hv'. change (fbit (add_count s' (2 ^ k))) with (fbit s').
    simpl. rewrite (ub_bit _ _ _ _ _ U), (ub_total _ _ _ _ _ U) by done.
    case_decide as D; [|by apply W]. destruct D as [<- <-]. intros _. apply A.
  - intros p k1 k2 Hp Hk1 Hk2. change (covers (add_count s' (2 ^ k))) with (covers s').
    rewrite !(upd_covers _ _ _ _ _ _ _ U) by done.
    assert (forall j, 0 <= j <= MAX_ORDER -> b = p / 2 ^ k -> covers s j p = true -> False) as Hno.
    { intros j Hj Hb' Hc. destruct (ad_pages _ _ _ A p) as [Hf _]; [by apply in_block_spec; lia|].
      rewrite page_free_false in Hf. by rewrite Hf in Hc. }
    do 2 case_decide; [naive_solver| | |by apply (wf_once s W p)]; intros; exfalso; naive_solver.
  - intros p Hp. change (abit (add_count s' (2 ^ k))) with (abit s'). rewrite Hab.
    change (page_free (add_count s' (2 ^ k))) with (page_free s').
    rewrite Hpf, orb_true_iff by done. intros [Hf|Hf]; [by apply W|by apply A].
  - intros k' b' Hk' Hv'. change (fbit (add_count s' (2 ^ k))) with (fbit s').
    rewrite !(ub_bit _ _ _ _ _ U) by (try apply buddy_valid; done || lia).
    case_decide as D1; case_decide as D2.
    + exfalso. destruct D1 as [_ D1], D2 as [_ D2]. pose proof (lxor_1_r b) as Hx.
      rewrite <- D1 in D2. rewrite <- D2 in Hx. destruct (Z.even b); lia.
    + destruct D1 as [<- <-]. intros _. apply A. lia.
    + destruct D2 as [<- D2]. intros Hf. exfalso.
      pose proof (ad_buddy _ _ _ A ltac:(lia)) as Hb2. rewrite D2, lxor_1_invol in Hb2. congruence.
    + by apply W.
  - simpl. rewrite (ub_total _ _ _ _ _ U), (ub_count _ _ _ _ _ U), (wf_count s W).
    pose proof (wf_total s W) as Ht. pose proof (ad_in _ _ _ A).
    symmetry. apply count_add_range with (b * 2 ^ k); rewrite ?(total_nat s W); try lia.
    + intros p _ Hp. by apply (ad_pages _ _ _ A), in_range_spec.
    + intros p Hp. apply Hpf. lia.
Qed.

Lemma clear_block_spec s k b :
  WF s -> valid_block k b -> fbit s k b = true ->
  exists s', clear_bit s k b = Ret s' /\
    view (add_count s' (- 2 ^ k)) (total_pages s)
      (fun p => page_free s p && negb (in_block k b p)) (abit s) /\
    (forall k' b', valid_block k' b' -> fbit s k' b' = false -> fbit s' k' b' = false).
Proof.
  intros W Hv Hf. pose proof Hv as [Hk Hb].
  destruct (clear_bit_spec s k b Hv) as (s' & E & U). exists s'. split; [done|].
  pose proof (fun p Hp => upd_page_free_clear s s' k b p W U Hv Hf Hp) as Hpf.
  pose proof (pow2_pos k ltac:(lia)) as Hpos. pose proof (block_pages _ _ Hv) as Hbp.
  assert (forall p, abit s' p = abit s p) as Hab by (intros p; unfold abit; by rewrite (ub_alloc _ _ _ _ _ U)).
  assert (forall k' b', valid_block k' b' -> fbit s' k' b' = true -> fbit s k' b' = true) as Hsub.
  { intros k' b' Hv'. rewrite (ub_bit _ _ _ _ _ U) by done. by case_decide. }
  split; [|intros k' b' Hv'; rewrite (ub_bit _ _ _ _ _ U) by done; by case_decide].
  constructor; try done; [|by apply (ub_total _ _ _ _ _ U)].
  constructor.
  - apply (ub_bytes _ _ _ _ _ U), W.
  - simpl. rewrite (ub_total _ _ _ _ _ U). apply W.
  - intros k' b' Hv' Hf'. simpl. rewrite (ub_total _ _ _ _ _ U). apply W; [done|]. by apply Hsub.
  - intros p k1 k2 Hp Hk1 Hk2 H1 H2. apply (wf_once s W p); try done;
      apply Hsub; try done; by apply page_block_valid.
  - intros p Hp. change (abit (add_count s' (- 2 ^ k))) with (abit s'). rewrite Hab.
    change (page_free (add_count s' (- 2 ^ k))) with (page_free s').
    rewrite Hpf, andb_true_iff by done. intros [Hf' _]. by apply W.
  - intros k' b' Hk' Hv' Hf'. change (fbit (add_count s' (- 2 ^ k))) with (fbit s').
    rewrite (ub_bit _ _ _ _ _ U) by (apply buddy_valid; done || lia).
    case_decide; [done|]. apply W; [done..|]. by apply Hsub.
  - simpl. rewrite (ub_total _ _ _ _ _ U), (ub_count _ _ _ _ _ U), (wf_count s W).
    pose proof (wf_total s W) as Ht. pose proof (wf_in s W _ _ Hv Hf) as Hin.
    change (page_free (add_count s' (- 2 ^ k))) with (page_free s').
    enough (count (page_free s) (Z.to_nat (total_pages s)) =
      count (page_free s') (Z.to_nat (total_pages s)) + 2 ^ k) by lia.
    apply count_add_range with (b * 2 ^ k); rewrite ?(total_nat s W); try lia.
    + intros p _ Hp. rewrite Hpf by lia. apply in_range_spec in Hp. unfold in_block. rewrite Hp.
      apply andb_false_r.
    + intros p Hp. rewrite Hpf by lia. unfold in_block. destruct (in_range _ _ p) eqn:Er.
      * rewrite orb_true_r. apply page_free_iff. exists k. split; [done|]. unfold covers.
        apply (in_block_spec k b) in Er; [|lia]. by rewrite Er.
      * rewrite orb_false_r, andb_true_r. done.
Qed.

(** * The allocated bitmap *)

Lemma upd_page_view s s' p v :
  WF s -> upd_page s s' p v -> (v = true -> page_free s p = false) ->
  view s' (total_pages s) (page_free s) (fun q => if decide (p = q) then v else abit s q).
Proof.
  intros W [Ub Um Ut Uc Uw] Hv.
  assert (forall k b, fbit s' k b = fbit s k b) as Hf by (intros; unfold fbit; by rewrite Um).
  assert (forall k q, covers s' k q = covers s k q) as Hc by (intros; apply Hf).
  assert (forall q, page_free s' q = page_free s q) as Hp.
  { intros q. unfold page_free, covers, fbit. by rewrite Um. }
  constructor; try done. constructor.
  - apply Uw, W.
  - rewrite Ut. apply W.
  - intros k b. rewrite Hf, Ut. apply W.
  - intros q k k'. rewrite !Hc. apply (wf_once s W q k k').
  - intros q Hq. rewrite Hp, Ub. intros Hfq. case_decide as E; [|by apply W].
    subst q. destruct v; [|done]. rewrite Hv in Hfq by done. done.
  - intros k b. rewrite !Hf. apply W.
  - rewrite Uc, Ut, (wf_count s W). by apply count_ext.
Qed.

(** The marking loop of [alloc] and [add_range]. *)
Lemma mark_spec s lo n :
  WF s -> 0 <= lo -> 0 <= n -> lo + n <= MAX_PAGES ->
  (forall p, lo <= p < lo + n -> page_free s p = false) ->
  exists s', for_range 0 (Z.to_nat n) (fun i st => set_allocated st (lo + i)) s = Ret s' /\
    view s' (total_pages s) (page_free s) (fun p => abit s p || in_range lo n p) /\
    bitmap s' = bitmap s /\ free_count s' = free_count s.
Proof.
  intros W Hlo Hn Hmax Hnf.
  destruct (for_range_inv
    (fun i st => view st (total_pages s) (page_free s) (fun p => abit s p || in_range lo i p) /\
       bitmap st = bitmap s /\ free_count st = free_count s)
    (fun i st => set_allocated st (lo + i)) (Z.to_nat n) 0 s) as (s' & E & V).
  - split; [|done]. eapply view_ext; [by apply view_self|done|]. intros p.
    zbool.
  - intros j st Hj ([Wst Tst Fst Ast] & Bst & Cst).
    destruct (set_allocated_spec st (lo + j)) as (st' & -> & U); [lia|].
    exists st'. split; [done|]. split; [|by rewrite (up_bitmap _ _ _ _ U), (up_count _ _ _ _ U)].
    rewrite <- Tst. eapply view_ext; [eapply upd_page_view; [done|done|]| |].
    + intros _. rewrite Fst by lia. apply Hnf. lia.
    + intros p Hp. by apply Fst.
    + intros p. simpl. rewrite Ast. case_decide; zbool.
  - exists s'. split; [done|]. rewrite Z.add_0_l, Z2Nat.id in V by done. done.
Qed.

(** The double-free check of [free]: with every page handed out it unmarks
    them all. *)
Lemma unmark_spec s lo n :
  WF s -> 0 <= lo -> 0 <= n -> lo + n <= MAX_PAGES ->
  (forall p, lo <= p < lo + n -> abit s p = true) ->
  exists s', for_range 0 (Z.to_nat n) (free_unmark lo) s = Ret s' /\
    view s' (total_pages s) (page_free s) (fun p => abit s p && negb (in_range lo n p)).
Proof.
  intros W Hlo Hn Hmax Hall.
  destruct (for_range_inv
    (fun i st => view st (total_pages s) (page_free s) (fun p => abit s p && negb (in_range lo i p)))
    (free_unmark lo) (Z.to_nat n) 0 s) as (s' & E & V).
  - eapply view_ext; [by apply view_self|done|]. intros p. zbool.
  - intros j st Hj [Wst Tst Fst Ast]. unfold free_unmark.
    rewrite is_allocated_spec, bind_Ret, Ast, Hall by lia. simpl.
    assert (in_range lo j (lo + j) = false) as -> by (apply in_range_false; lia). simpl.
    destruct (clear_allocated_spec st (lo + j)) as (st' & -> & U); [lia|].
    exists st'. split; [done|].
    rewrite <- Tst. eapply view_ext; [by eapply upd_page_view| |].
    + intros p Hp. by apply Fst.
    + intros p. simpl. rewrite Ast. case_decide; zbool.
  - exists s'. split; [done|]. rewrite Z.add_0_l, Z2Nat.id in V by done. done.
Qed.

(** * Allocation *)

Lemma fbit_below s k b : WF s -> valid_block k b -> fbit s k b = true -> b < total_pages s / 2 ^ k.
Proof.
  intros W Hv Hf. pose proof (wf_in s W k b Hv Hf). destruct Hv as [Hk Hb].
  pose proof (pow2_pos k ltac:(lia)). enough (b + 1 <= total_pages s / 2 ^ k) by lia.
  apply Z.div_le_lower_bound; lia.
Qed.

Lemma alloc_search_spec fuel s k :
  WF s -> 0 <= k <= MAX_ORDER -> MAX_ORDER < k + Z.of_nat fuel ->
  exists r, alloc_search fuel s k = Ret r /\
  match r with
  | None => forall k' b, k <= k' <= MAX_ORDER -> valid_block k' b -> fbit s k' b = false
  | Some (page, k', s') => k <= k' /\ exists b, page = b * 2 ^ k' /\ valid_block k' b /\
      fbit s k' b = true /\
      view s' (total_pages s) (fun p => page_free s p && negb (in_block k' b p)) (abit s)
  end.
Proof.
  intros W. revert k. induction fuel as [|fuel IH]; intros k Hk Hfuel; [lia|]. simpl.
  rewrite Z.shiftr_div_pow2 by lia. pose proof (pow2_pos k ltac:(lia)) as Hpos.
  pose proof (wf_total s W) as Ht.
  destruct (find_free_spec s k (total_pages s / 2 ^ k)) as (r & -> & Hr).
  { apply W. } { done. }
  { split; [apply Z.div_pos; lia|]. rewrite Z.pow_sub_r, <- MAX_PAGES_pow by lia.
    apply Z.div_le_mono; lia. }
  rewrite bind_Ret. destruct r as [b|].
  - destruct Hr as [Hb Hf].
    assert (valid_block k b) as Hv.
    { apply block_valid; [done|lia|]. assert (b + 1 <= total_pages s / 2 ^ k) as H by lia.
      apply (Z.mul_le_mono_nonneg_r _ _ (2 ^ k)) in H; [|lia].
      pose proof (Z.mul_div_le (total_pages s) (2 ^ k) ltac:(lia)). lia. }
    destruct (clear_block_spec s k b W Hv Hf) as (s' & -> & V & _).
    rewrite bind_Ret, Z.shiftl_1_l, Z.shiftl_mul_pow2 by lia.
    eexists. split; [done|]. split; [lia|]. by exists b.
  - assert (forall b, valid_block k b -> fbit s k b = false) as Hnone.
    { intros b Hv. destruct (fbit s k b) eqn:E; [|done]. rewrite <- E. apply Hr.
      pose proof (fbit_below s k b W Hv E). destruct Hv. lia. }
    destruct (Z.ltb_spec MAX_ORDER (k + 1)) as [L|L].
    + eexists. split; [done|]. intros k' b Hk' Hv. replace k' with k in * by lia. by apply Hnone.
    + destruct (IH (k + 1)) as (r & E & Hr'); [lia|lia|]. exists r. split; [done|].
      destruct r as [[[page k'] s']|].
      * destruct Hr'. split; [lia|done].
      * intros k' b Hk' Hv. destruct (decide (k' = k)) as [->|]; [by apply Hnone|].
        apply Hr'; [lia|done].
Qed.

(** A block that is taken: in range, its pages neither free nor handed out. *)
Record taken (s : BuddyAllocator) (k b : Z) : Prop := {
  tk_valid : valid_block k b;
  tk_in : (b + 1) * 2 ^ k <= total_pages s;
  tk_pages : forall p, in_block k b p = true -> page_free s p = false /\ abit s p = false;
}.

Lemma in_block_first k b : 0 <= k -> in_block k b (b * 2 ^ k) = true.
Proof. intros Hk. apply in_range_spec. pose proof (pow2_pos k Hk). lia. Qed.

Lemma taken_fbit s k b : taken s k b -> fbit s k b = false.
Proof.
  intros [[Hk Hb] _ Hp]. destruct (Hp (b * 2 ^ k) (in_block_first k b ltac:(lia))) as [Hf _].
  rewrite page_free_false in Hf. specialize (Hf k Hk). unfold covers in Hf.
  by rewrite Z.div_mul in Hf by (pose proof (pow2_pos k ltac:(lia)); lia).
Qed.

(** Both halves of a taken block are taken. *)
Lemma taken_half s k b i :
  taken s (k + 1) b -> 0 <= k -> (i = 0 \/ i = 1) -> taken s k (2 * b + i).
Proof.
  intros [[Hk Hb] Hin Hp] Hk' Hi. rewrite Z.pow_add_r in Hin by lia. change (2 ^ 1) with 2 in Hin.
  pose proof (pow2_pos k Hk') as Hpos. constructor.
  - split; [lia|]. replace (MAX_ORDER - k) with (Z.succ (MAX_ORDER - (k + 1))) by lia.
    rewrite Z.pow_succ_r by lia. lia.
  - nia.
  - intros p Hb'. apply Hp. unfold in_block in *. rewrite in_range_spec in *.
    rewrite Z.pow_add_r by lia. change (2 ^ 1) with 2. nia.
Qed.

Lemma lxor_odd b : 0 <= b -> Z.lxor (2 * b + 1) 1 = 2 * b.
Proof.
  intros Hb. rewrite lxor_1_r by lia. rewrite Z.even_add, Z.even_mul. simpl. lia.
Qed.

Lemma alloc_split_spec fuel s b k order :
  WF s -> taken s k b -> 0 <= order <= k -> k - order <= Z.of_nat fuel ->
  exists s', alloc_split fuel s (b * 2 ^ k) k order = Ret s' /\
    view s' (total_pages s)
      (fun p => page_free s p || in_range (b * 2 ^ k + 2 ^ order) (2 ^ k - 2 ^ order) p) (abit s).
Proof.
  revert s b k. induction fuel as [|fuel IH]; intros s b k W T Ho Hf; simpl.
  { rewrite (proj2 (Z.ltb_ge order k)) by lia. exists s. split; [done|].
    replace k with order by lia. eapply view_ext; [by apply view_self| |done].
    intros p _. zbool. }
  destruct (Z.ltb_spec order k) as [L|L].
  2:{ exists s. split; [done|]. replace k with order by lia.
      eapply view_ext; [by apply view_self| |done]. intros p _. zbool. }
  assert (exists j, k = j + 1) as [j ->] by (exists (k - 1); lia). replace (j + 1 - 1) with j by lia.
  pose proof (tk_valid _ _ _ T) as [Hk Hb].
  assert (2 ^ (j + 1) = 2 * 2 ^ j) as Hpow by (rewrite Z.pow_add_r by lia; lia).
  pose proof (pow2_pos j ltac:(lia)) as Hpos.
  pose proof (taken_half _ _ _ 0 T ltac:(lia) ltac:(lia)) as TL.
  pose proof (taken_half _ _ _ 1 T ltac:(lia) ltac:(lia)) as TR.
  rewrite Z.add_0_r in TL. rewrite Z.shiftl_1_l.
  replace (Z.shiftr (b * 2 ^ (j + 1) + 2 ^ j) j) with (2 * b + 1).
  2:{ rewrite Z.shiftr_div_pow2 by lia. rewrite Hpow.
      replace (b * (2 * 2 ^ j) + 2 ^ j) with ((2 * b + 1) * 2 ^ j) by lia. by rewrite Z.div_mul by lia. }
  destruct (set_block_spec s j (2 * b + 1) W) as (s' & -> & V).
  { destruct TR. constructor; try done. intros _. rewrite lxor_odd by lia. by apply taken_fbit. }
  rewrite bind_Ret. replace (b * 2 ^ (j + 1)) with (2 * b * 2 ^ j) by lia.
  destruct V as [W' T' F' A'].
  destruct (IH (add_count s' (2 ^ j)) (2 * b) j) as (s'' & E & V''); [done| |lia|lia|].
  { destruct TL as [Hv Hi Hp]. constructor; [done|by rewrite T'|]. intros p Hin.
    pose proof (block_pages _ _ Hv). pose proof Hin as Hr. apply in_range_spec in Hr.
    rewrite F', A' by lia. destruct (Hp p Hin) as [-> ->]. split; [|done].
    apply in_range_false. lia. }
  exists s''. split; [done|]. rewrite T' in V''. eapply view_ext; [exact V''| |].
  - intros p Hp. cbv beta. rewrite F' by done. unfold in_block.
    pose proof (Z.pow_le_mono_r 2 order j ltac:(lia) ltac:(lia)).
    pose proof (pow2_pos order ltac:(lia)). zbool.
  - intros p. by rewrite A'.
Qed.

(** The [2^k] pages from [p] on are managed and free. *)
Definition run_free (s : BuddyAllocator) (k p : Z) : Prop :=
  0 <= p /\ p + 2 ^ k <= total_pages s /\ forall q, p <= q < p + 2 ^ k -> page_free s q = true.

(** An aligned run of free pages lies inside one free block, because two free
    buddies are always merged. *)
Lemma run_free_block s k b :
  WF s -> 0 <= k <= MAX_ORDER -> run_free s k (b * 2 ^ k) ->
  exists k', k <= k' <= MAX_ORDER /\ covers s k' (b * 2 ^ k) = true.
Proof.
  intros W Hk. pose proof (wf_total s W) as Ht.
  replace k with (Z.of_nat (Z.to_nat k)) in * by lia. generalize dependent (Z.to_nat k).
  clear k. intros n. revert b. induction n as [|n IH]; intros b Hk (Hp & Hin & Hr).
  - change (2 ^ Z.of_nat 0) with 1 in *.
    destruct (proj1 (page_free_iff s (b * 1)) (Hr (b * 1) ltac:(lia))) as (k & Hk' & Hc).
    exists k. split; [lia|done].
  - set (k := Z.of_nat n) in *. replace (Z.of_nat (S n)) with (k + 1) in * by lia.
    assert (2 ^ (k + 1) = 2 * 2 ^ k) as Hpow by (rewrite Z.pow_add_r by lia; lia).
    pose proof (pow2_pos k ltac:(lia)) as Hpos. rewrite Hpow in *.
    destruct (IH (2 * b)) as (k1 & Hk1 & Hc1); [lia|split; [lia|split; [lia|]]; intros; apply Hr; lia|].
    destruct (IH (2 * b + 1)) as (k2 & Hk2 & Hc2); [lia|split; [lia|split; [lia|]]; intros; apply Hr; lia|].
    replace (b * (2 * 2 ^ k)) with (2 * b * 2 ^ k) by lia.
    destruct (decide (k1 = k)) as [->|]; [|exists k1; split; [lia|done]].
    destruct (decide (k2 = k)) as [->|].
    + exfalso. unfold covers in Hc1, Hc2. rewrite !Z.div_mul in * by lia.
      assert (valid_block k (2 * b + 1)) as Hv by (apply block_valid; lia).
      pose proof (wf_coalesced s W k _ ltac:(lia) Hv Hc2) as Hx.
      rewrite lxor_odd in Hx by lia. congruence.
    + exists k2. split; [lia|]. unfold covers in *.
      replace (2 * b * 2 ^ k / 2 ^ k2) with ((2 * b + 1) * 2 ^ k / 2 ^ k2); [done|].
      replace k2 with (k + (k2 - k)) by lia. rewrite Z.pow_add_r, <- !Z.div_div by (try apply Z.pow_nonzero; lia).
      rewrite !Z.div_mul by lia. replace (k2 - k) with (1 + (k2 - k - 1)) by lia.
      rewrite Z.pow_add_r, <- !Z.div_div by (try apply pow2_pos; try apply Z.pow_nonzero; lia).
      f_equal. change (2 ^ 1) with 2. symmetry. rewrite Z.mul_comm, Z.div_mul by lia.
      apply Z.div_unique with 1; lia.
Qed.

(** What one call of [alloc] does. *)
Definition alloc_post (s : BuddyAllocator) (order : Z) (r : option Z) (s' : BuddyAllocator) : Prop :=
  match r with
  | Some p =>
      p mod 2 ^ order = 0 /\ run_free s order p /\
      view s' (total_pages s)
        (fun q => page_free s q && negb (in_range p (2 ^ order) q))
        (fun q => abit s q || in_range p (2 ^ order) q)
  | None => s' = s /\ forall b, ~ run_free s order (b * 2 ^ order)
  end.

Lemma fbit_run_free s k b : WF s -> valid_block k b -> fbit s k b = true -> run_free s k (b * 2 ^ k).
Proof.
  intros W Hv Hf. pose proof (block_pages _ _ Hv) as Hbp. pose proof (wf_in s W _ _ Hv Hf) as Hin.
  destruct Hv as [Hk Hb]. split; [lia|]. split; [lia|]. intros q Hq. apply page_free_iff.
  exists k. split; [done|]. unfold covers. by rewrite (proj2 (div_block k b q ltac:(lia))).
Qed.

Lemma alloc_spec s order :
  WF s -> 0 <= order -> exists r s', alloc s order = Ret (r, s') /\ alloc_post s order r s'.
Proof.
  intros W Ho. unfold alloc. pose proof (wf_total s W) as Ht.
  destruct (Z.ltb_spec MAX_ORDER order) as [L|L].
  { do 2 eexists. split; [done|]. split; [done|]. intros b (H1 & H2 & _).
    pose proof (Z.pow_lt_mono_r 2 MAX_ORDER order ltac:(lia) ltac:(lia) L) as Hlt.
    rewrite <- MAX_PAGES_pow in Hlt. lia. }
  destruct (alloc_search_spec (Z.to_nat (MAX_ORDER + 1)) s order W) as (r & -> & Hr); [lia|lia|].
  rewrite bind_Ret. destruct r as [[[page k] s1]|].
  2:{ do 2 eexists. split; [done|]. split; [done|]. intros b Hrun.
      destruct (run_free_block s order b W ltac:(lia) Hrun) as (k & Hk & Hc).
      destruct Hrun as (H1 & H2 & _). pose proof (pow2_pos order Ho).
      unfold covers in Hc. rewrite Hr in Hc; [done|lia|]. apply page_block_valid; lia. }
  destruct Hr as (Hk & b & -> & Hv & Hf & [W1 T1 F1 A1]).
  pose proof (block_pages _ _ Hv) as Hbp. pose proof (wf_in s W _ _ Hv Hf) as Hin.
  destruct (fbit_run_free s k b W Hv Hf) as (_ & _ & Hfree). pose proof Hv as [Hk' _].
  pose proof (pow2_pos order Ho) as Hpo. pose proof (Z.pow_le_mono_r 2 order k ltac:(lia) Hk) as Hle.
  destruct (alloc_split_spec (Z.to_nat MAX_ORDER) s1 b k order W1) as (s2 & -> & [W2 T2 F2 A2]); [|lia|lia|].
  { constructor; [done|by rewrite T1|]. intros p Hp. pose proof Hp as Hp'. apply in_range_spec in Hp'.
    rewrite F1, A1, Hp, andb_false_r by lia. split; [done|]. apply W; [lia|]. apply Hfree. lia. }
  rewrite bind_Ret, Z.shiftl_1_l.
  destruct (mark_spec s2 (b * 2 ^ k) (2 ^ order)) as (s3 & -> & [W3 T3 F3 A3] & _); [done|lia|lia|lia| |].
  { intros p Hp. rewrite F2, F1 by lia. unfold in_block. destruct (page_free s p); zbool. }
  exists (Some (b * 2 ^ k)), s3. split; [done|]. split_and!.
  - replace k with (k - order + order) by lia. rewrite Z.pow_add_r, Z.mul_assoc by lia.
    apply Z.mod_mul. lia.
  - split; [lia|]. split; [lia|]. intros q Hq. apply Hfree. lia.
  - constructor; [done|congruence| |].
    + intros p Hp. rewrite F3, F2, F1 by done. unfold in_block.
      destruct (page_free s p) eqn:E; [zbool|].
      destruct (in_range (b * 2 ^ k) (2 ^ k) p) eqn:E2; [|zbool]. apply in_range_spec in E2.
      rewrite Hfree in E by lia. done.
    + intros p. by rewrite A3, A2, A1.
Qed.

(** * Deallocation *)

Lemma merge_page b k :
  0 <= b -> 0 <= k -> b * 2 ^ k < 2 ^ 64 ->
  Z.land (b * 2 ^ k) (not_w 64 (2 ^ k)) = b / 2 * 2 ^ (k + 1).
Proof.
  intros Hb Hk Hlt. apply Z.bits_inj'. intros j Hj.
  pose proof (pow2_pos k Hk) as Hpos.
  assert (word 64 (b * 2 ^ k)) as Hw by (unfold word; nia).
  rewrite Z.land_spec, testbit_not_w, Z.pow2_bits_eqb by lia.
  rewrite !Z.mul_pow2_bits by lia.
  destruct (Z.lt_ge_cases j (k + 1)) as [L|L].
  - rewrite (Z.testbit_neg_r _ (j - (k + 1))) by lia.
    destruct (decide (j = k)) as [->|].
    + rewrite Z.eqb_refl. destruct (k <? 64) eqn:E; [by rewrite andb_false_r|].
      apply word_bits in Hw as [_ Hw]; [|lia]. specialize (Hw k ltac:(lia)).
      rewrite Z.mul_pow2_bits in Hw by lia. rewrite Hw. done.
    + by rewrite Z.testbit_neg_r by lia.
  - rewrite (proj2 (Z.eqb_neq k j)) by lia. rewrite xorb_false_l.
    change (b / 2) with (b / 2 ^ 1). rewrite Z.div_pow2_bits by lia.
    replace (j - (k + 1) + 1) with (j - k) by lia.
    destruct (j <? 64) eqn:E; [by rewrite andb_true_r|]. rewrite andb_false_r.
    apply word_bits in Hw as [_ Hw]; [|lia]. specialize (Hw j ltac:(lia)).
    by rewrite Z.mul_pow2_bits in Hw by lia.
Qed.

(** A block and its buddy are the two halves of one block. *)
Lemma buddy_halves b : 0 <= b ->
  exists i, (i = 0 \/ i = 1) /\ b = 2 * (b / 2) + i /\ Z.lxor b 1 = 2 * (b / 2) + (1 - i).
Proof.
  intros Hb. rewrite lxor_1_r by done. destruct (Z.even b) eqn:E.
  - apply Z.even_spec in E as [m ->]. exists 0. rewrite Z.mul_comm, Z.div_mul by lia. lia.
  - rewrite <- Z.negb_odd in E. apply negb_false_iff, Z.odd_spec in E as [m ->]. exists 1.
    replace ((2 * m + 1) / 2) with m by (apply Z.div_unique with 1; lia). lia.
Qed.

Lemma in_block_halves k b p : 0 <= k -> 0 <= b ->
  in_block (k + 1) (b / 2) p = in_block k b p || in_block k (Z.lxor b 1) p.
Proof.
  intros Hk Hb. destruct (buddy_halves b Hb) as (i & Hi & Eb & Ex).
  set (m := b / 2) in *. clearbody m. rewrite Ex, Eb.
  unfold in_block. rewrite Z.pow_add_r by lia. change (2 ^ 1) with 2. pose proof (pow2_pos k Hk).
  replace (m * (2 ^ k * 2)) with (2 * (m * 2 ^ k)) by lia.
  replace ((2 * m + i) * 2 ^ k) with (2 * (m * 2 ^ k) + i * 2 ^ k) by lia.
  replace ((2 * m + (1 - i)) * 2 ^ k) with (2 * (m * 2 ^ k) + (1 - i) * 2 ^ k) by lia.
  set (x := 2 ^ k) in *. set (y := m * x). clearbody x y.
  destruct Hi as [-> | ->]; zbool.
Qed.

(** Freeing the free buddy's bit leaves the merged block taken. *)
Lemma taken_merge s s' k b :
  WF s -> taken s k b -> k < MAX_ORDER -> fbit s k (Z.lxor b 1) = true ->
  view s' (total_pages s) (fun p => page_free s p && negb (in_block k (Z.lxor b 1) p)) (abit s) ->
  taken s' (k + 1) (b / 2).
Proof.
  intros W [Hv Hin Hp] Hk Hf [W' T' F' A']. pose proof (buddy_valid k b Hk Hv) as Hvx.
  pose proof (wf_in s W _ _ Hvx Hf) as Hinx. pose proof (wf_total s W) as Ht.
  destruct (fbit_run_free s k _ W Hvx Hf) as (_ & _ & Hfree). destruct Hv as [Hk' Hb].
  assert ((b / 2 + 1) * 2 ^ (k + 1) <= total_pages s) as Htot.
  { destruct (buddy_halves b ltac:(lia)) as (i & Hi & Eb & Ex). rewrite Z.pow_add_r by lia.
    change (2 ^ 1) with 2. rewrite Ex in Hinx. rewrite Eb in Hin. destruct Hi as [-> | ->]; lia. }
  pose proof (Z.div_pos b 2 ltac:(lia) ltac:(lia)) as Hb2.
  constructor; [apply block_valid; lia|by rewrite T'|].
  intros p Hp'. pose proof Hp' as Hr. apply in_range_spec in Hr.
  pose proof (pow2_pos (k + 1) ltac:(lia)).
  rewrite F', A' by nia. rewrite in_block_halves, orb_true_iff in Hp' by lia.
  destruct (in_block k (Z.lxor b 1) p) eqn:E.
  - rewrite andb_false_r. split; [done|]. apply W; [nia|]. apply Hfree, in_range_spec, E.
  - destruct Hp' as [Hp'|]; [|done]. destruct (Hp p Hp') as [-> ->]. done.
Qed.

Lemma free_merge_spec fuel s b k :
  WF s -> taken s k b -> MAX_ORDER < k + Z.of_nat fuel ->
  exists s', free_merge fuel s (b * 2 ^ k) k = Ret s' /\
    view s' (total_pages s) (fun p => page_free s p || in_block k b p) (abit s).
Proof.
  revert s b k. induction fuel as [|fuel IH]; intros s b k W T Hfuel.
  { pose proof (tk_valid _ _ _ T) as [? _]. lia. }
  simpl. pose proof (tk_valid _ _ _ T) as Hv. pose proof Hv as [Hk Hb].
  pose proof (pow2_pos k ltac:(lia)) as Hpos. pose proof (wf_total s W) as Ht.
  rewrite Z.shiftr_div_pow2, Z.div_mul, Z.shiftl_1_l by lia.
  destruct (Z.eqb_spec k MAX_ORDER) as [E|E].
  { destruct (set_block_spec s k b W) as (s' & -> & V); [|by eexists].
    destruct T. constructor; try done. lia. }
  pose proof (buddy_valid k b ltac:(lia) Hv) as Hvx.
  rewrite Z.shiftl_mul_pow2 by lia.
  assert ((if Z.lxor b 1 * 2 ^ k <? total_pages s then is_free s k (Z.lxor b 1) else Ret false)
    = Ret (fbit s k (Z.lxor b 1))) as ->.
  { destruct (Z.ltb_spec (Z.lxor b 1 * 2 ^ k) (total_pages s)); [by apply is_free_spec|].
    destruct (fbit s k (Z.lxor b 1)) eqn:Ef; [|done]. pose proof (wf_in s W _ _ Hvx Ef). lia. }
  rewrite bind_Ret. destruct (fbit s k (Z.lxor b 1)) eqn:Ef.
  - destruct (clear_block_spec s k _ W Hvx Ef) as (s1 & -> & V & _). rewrite bind_Ret.
    pose proof (taken_merge _ _ _ _ W T ltac:(lia) Ef V) as T'.
    rewrite merge_page; [|lia..|].
    2:{ pose proof (block_pages _ _ Hv). unfold MAX_PAGES in *. lia. }
    destruct V as [W' Tt F A].
    destruct (IH _ _ _ W' T' ltac:(lia)) as (s' & -> & V'). exists s'. split; [done|].
    rewrite Tt in V'. eapply view_ext; [exact V'| |by intros p; rewrite A].
    intros p Hp. cbv beta. rewrite F, in_block_halves by lia.
    destruct (fbit_run_free s k _ W Hvx Ef) as (_ & _ & Hfree).
    destruct (in_block k (Z.lxor b 1) p) eqn:Eb.
    + rewrite Hfree by (by apply in_range_spec). by rewrite orb_true_r.
    + by rewrite andb_true_r, orb_false_r.
  - destruct (set_block_spec s k b W) as (s' & -> & V); [|by eexists].
    destruct T. by constructor.
Qed.

Lemma free_spec s p order :
  WF s -> 0 <= order <= MAX_ORDER -> 0 <= p -> p mod 2 ^ order = 0 -> p + 2 ^ order <= total_pages s ->
  (forall q, p <= q < p + 2 ^ order -> abit s q = true) ->
  exists s', free s p order = Ret s' /\
    view s' (total_pages s)
      (fun q => page_free s q || in_range p (2 ^ order) q)
      (fun q => abit s q && negb (in_range p (2 ^ order) q)).
Proof.
  intros W Ho Hp Hmod Hin Hall. unfold free. pose proof (wf_total s W) as Ht.
  pose proof (pow2_pos order ltac:(lia)) as Hpos. rewrite Z.shiftl_1_l, Hmod.
  rewrite (proj2 (Z.leb_le order MAX_ORDER)), (proj2 (Z.leb_le _ _) Hin), Z.eqb_refl by lia.
  cbn [assert]. rewrite !bind_Ret.
  destruct (unmark_spec s p (2 ^ order)) as (s1 & -> & [W1 T1 F1 A1]); [done|lia..|done|].
  rewrite bind_Ret.
  assert (p = p / 2 ^ order * 2 ^ order) as Hpb by (pose proof (Z.div_mod p (2 ^ order)); lia).
  pose proof (Z.div_pos p (2 ^ order) ltac:(lia) ltac:(lia)) as Hb.
  set (b := p / 2 ^ order) in *. clearbody b. subst p.
  assert (taken s1 order b) as T.
  { constructor; [apply block_valid; lia|lia|]. intros q Hq. pose proof Hq as Hr.
    apply in_range_spec in Hr. rewrite F1, A1 by lia. unfold in_block in Hq. rewrite Hq, andb_false_r.
    split; [|done]. destruct (page_free s q) eqn:E; [|done].
    pose proof (wf_unalloc s W q ltac:(lia) E). by rewrite Hall in *. }
  destruct (free_merge_spec (Z.to_nat (MAX_ORDER + 1)) s1 b order W1 T) as (s' & -> & V); [lia|].
  exists s'. split; [done|]. rewrite <- T1.
  eapply view_ext; [exact V| |]; [intros q Hq; cbv beta; by rewrite F1|intros q; apply A1].
Qed.

(** [free] accepts only blocks whose pages are all handed out. *)
Lemma unmark_returns lo n :
  forall i s s', 0 <= lo + i -> lo + i + Z.of_nat n <= MAX_PAGES ->
  for_range i n (free_unmark lo) s = Ret s' ->
  forall q, lo + i <= q < lo + i + Z.of_nat n -> abit s q = true.
Proof.
  induction n as [|n IH]; intros i s s' Hlo Hmax E q Hq; [lia|]. cbn [for_range] in E.
  apply bind_Ret_inv in E as (s1 & E1 & E2). unfold free_unmark in E1.
  rewrite is_allocated_spec, bind_Ret in E1 by lia.
  apply bind_Ret_inv in E1 as (? & Ea & E1). destruct x. apply assert_Ret in Ea.
  destruct (clear_allocated_spec s (lo + i)) as (s1' & Ec & U); [lia|].
  rewrite Ec in E1. injection E1 as <-.
  destruct (decide (q = lo + i)) as [->|]; [done|].
  pose proof (IH (i + 1) s1' s' ltac:(lia) ltac:(lia) E2 q ltac:(lia)) as H.
  by rewrite (up_bit _ _ _ _ U), decide_False in H by lia.
Qed.

Lemma free_returns s p order s' :
  WF s -> 0 <= order -> 0 <= p -> free s p order = Ret s' ->
  order <= MAX_ORDER /\ p mod 2 ^ order = 0 /\ p + 2 ^ order <= total_pages s /\
  forall q, p <= q < p + 2 ^ order -> abit s q = true.
Proof.
  intros W Ho Hp E. unfold free in E. pose proof (wf_total s W) as Ht.
  pose proof (pow2_pos order Ho) as Hpos. rewrite Z.shiftl_1_l in E.
  apply bind_Ret_inv in E as ([] & E1 & E). apply bind_Ret_inv in E as ([] & E2 & E).
  apply bind_Ret_inv in E as ([] & E3 & E). apply bind_Ret_inv in E as (s1 & E4 & E).
  apply assert_Ret, Z.leb_le in E1. apply assert_Ret, Z.leb_le in E2. apply assert_Ret, Z.eqb_eq in E3.
  split_and!; try done. intros q Hq.
  apply (unmark_returns p (Z.to_nat (2 ^ order)) 0 s s1); [lia|lia|done|lia].
Qed.

(** * Initialisation *)

Lemma fbit_empty t a c k b : fbit (mkBuddy ∅ a t c) k b = false.
Proof. unfold fbit. simpl. rewrite arr_peek_empty. apply Z.bits_0. Qed.

Lemma page_free_empty t a c p : page_free (mkBuddy ∅ a t c) p = false.
Proof. apply page_free_false. intros k _. apply fbit_empty. Qed.

Lemma init_view t :
  0 <= t <= MAX_PAGES -> view (mkBuddy ∅ ∅ t 0) t (fun _ => false) (fun _ => false).
Proof.
  intros Ht. constructor; [|done|intros; apply page_free_empty|].
  2:{ intros p. unfold abit. simpl. rewrite arr_peek_empty. apply Z.bits_0. }
  constructor; simpl; try done.
  - intros k b _. by rewrite fbit_empty.
  - intros p k k' _ _ _. unfold covers. by rewrite fbit_empty.
  - intros p _. by rewrite page_free_empty.
  - intros k b _ _. by rewrite fbit_empty.
  - rewrite (count_ext _ (fun _ => false)) by (intros; apply page_free_empty).
    by rewrite count_none.
Qed.

Lemma add_range_spec s start n :
  WF s -> 0 <= start -> 0 <= n -> start + n <= total_pages s ->
  (forall p, start <= p < start + n -> page_free s p = false) ->
  exists s', add_range s start n = Ret s' /\
    view s' (total_pages s)
      (fun p => page_free s p || in_range start n p)
      (fun p => abit s p && negb (in_range start n p)).
Proof.
  intros W Hs Hn Hin Hnf. pose proof (wf_total s W) as Ht. unfold add_range, checked_add64.
  rewrite (proj2 (Z.leb_le (start + n) U64_MAX)) by (unfold U64_MAX, MAX_PAGES in *; lia).
  cbn [unwrap]. rewrite bind_Ret, (proj2 (Z.leb_le _ _) Hin). cbn [assert]. rewrite bind_Ret.
  destruct (mark_spec s start n) as (s1 & -> & [W1 T1 F1 A1] & _); [done|lia..|done|]. rewrite bind_Ret.
  destruct (for_range_inv
    (fun i st => view st (total_pages s)
       (fun p => page_free s p || in_range start i p)
       (fun p => (abit s p || in_range start n p) && negb (in_range start i p)))
    (fun i st => free st (start + i) 0) (Z.to_nat n) 0 s1) as (s' & E & V).
  - constructor; [done|done| |]; [intros p Hp; rewrite F1 by done|intros p; rewrite A1]; zbool.
  - intros j st Hj [Wst Tst Fst Ast].
    destruct (free_spec st (start + j) 0) as (st' & -> & [W' T' F' A']);
      rewrite ?Z.pow_0_r, ?Tst; [done|unfold MAX_ORDER; lia|lia|apply Z.mod_1_r|lia| |].
    { intros q Hq. rewrite Ast. destruct (abit s q); zbool. }
    exists st'. split; [done|]. rewrite Tst in T'. constructor; [done|done| |].
    + intros p Hp. rewrite F', Fst by done. change (2 ^ 0) with 1. zbool.
    + intros p. rewrite A', Ast. change (2 ^ 0) with 1. destruct (abit s p); zbool.
  - rewrite Z.add_0_l, Z2Nat.id in V by done. exists s'. split; [done|].
    eapply view_ext; [exact V|done|]. intros p. cbv beta. destruct (abit s p); zbool.
Qed.

(** * The free counter *)

Lemma alloc_count s order p s' :
  WF s -> 0 <= order -> alloc_post s order (Some p) s' -> free_count s' = free_count s - 2 ^ order.
Proof.
  intros W Ho (_ & (H1 & H2 & Hr) & [W' T' F' _]). pose proof (wf_total s W) as Ht.
  pose proof (pow2_pos order Ho). rewrite (wf_count s W), (wf_count s' W'), T'.
  rewrite (count_add_range (page_free s') (page_free s) p (2 ^ order)); [lia|..];
    rewrite ?(total_nat s W); try lia; intros q Hq; rewrite F' by lia.
  - intros Hin. zbool.
  - destruct (page_free s q) eqn:E; [zbool|]. destruct (in_range p (2 ^ order) q) eqn:E2; [|done].
    apply in_range_spec in E2. by rewrite Hr in E.
Qed.

Lemma add_count_eq s s' p n :
  WF s -> 0 <= p -> 0 <= n -> p + n <= total_pages s ->
  (forall q, p <= q < p + n -> page_free s q = false) ->
  WF s' -> total_pages s' = total_pages s ->
  (forall q, 0 <= q < MAX_PAGES -> page_free s' q = page_free s q || in_range p n q) ->
  free_count s' = free_count s + n.
Proof.
  intros W Hp Hn Hin Hnf W' T' F'. pose proof (wf_total s W) as Ht.
  rewrite (wf_count s W), (wf_count s' W'), T'.
  apply count_add_range with p; rewrite ?(total_nat s W); try lia.
  - intros q _. apply Hnf.
  - intros q Hq. apply F'. lia.
Qed.

(** * A client of the allocator

    A client holds the blocks it was given, keyed by first page; it may ask
    for a block of any order and give back any block it holds. *)
Inductive client_op :=
  | CAlloc (order : Z)
  | CFree (page : Z).

Definition client_step (op : client_op) (st : BuddyAllocator * gmap Z Z)
  : outcome (BuddyAllocator * gmap Z Z) :=
  let '(s, held) := st in
  match op with
  | CAlloc order =>
      r ← alloc s order;
      match r with
      | (Some p, s') => Ret (s', <[p := order]> held)
      | (None, s') => Ret (s', held)
      end
  | CFree page =>
      match held !! page with
      | Some order => s' ← free s page order; Ret (s', delete page held)
      | None => Ret (s, held)
      end
  end.

Fixpoint client_run (ops : list client_op) (st : BuddyAllocator * gmap Z Z)
  : outcome (BuddyAllocator * gmap Z Z) :=
  match ops with
  | [] => Ret st
  | op :: ops' => st' ← client_step op st; client_run ops' st'
  end.

Definition op_ok (op : client_op) : Prop :=
  match op with CAlloc order => 0 <= order | CFree _ => True end.

(** Page [q] belongs to a held block. *)
Definition held_page (held : gmap Z Z) (q : Z) : Prop :=
  exists p order, held !! p = Some order /\ p <= q < p + 2 ^ order.

(** The client's blocks are aligned and disjoint, the pages handed out are
    exactly theirs, and the free pages are the initial ones minus theirs. *)
Record client_inv (s0 : BuddyAllocator) (st : BuddyAllocator * gmap Z Z) : Prop := {
  ci_wf : WF st.1;
  ci_total : total_pages st.1 = total_pages s0;
  ci_block : forall p order, st.2 !! p = Some order ->
    0 <= order <= MAX_ORDER /\ 0 <= p /\ p mod 2 ^ order = 0 /\ p + 2 ^ order <= total_pages s0;
  ci_disjoint : forall p1 o1 p2 o2, st.2 !! p1 = Some o1 -> st.2 !! p2 = Some o2 -> p1 <> p2 ->
    p1 + 2 ^ o1 <= p2 \/ p2 + 2 ^ o2 <= p1;
  ci_alloc : forall q, 0 <= q < MAX_PAGES -> abit st.1 q = true <-> held_page st.2 q;
  ci_free : forall q, 0 <= q < MAX_PAGES ->
    page_free st.1 q = true <-> page_free s0 q = true /\ ~ held_page st.2 q;
}.

(** Blocks that contain a common page overlap. *)
Lemma held_page_insert held p order q :
  held !! p = None ->
  held_page (<[p := order]> held) q <-> held_page held q \/ p <= q < p + 2 ^ order.
Proof.
  intros Hn. split.
  - intros (p' & o' & Hl & Hq). apply lookup_insert_Some in Hl as [[<- <-]|[_ Hl]]; [by right|].
    left. by exists p', o'.
  - intros [(p' & o' & Hl & Hq)|Hq].
    + exists p', o'. split; [|done]. apply lookup_insert_Some. right. split; [|done]. by intros ->; simplify_eq.
    + exists p, order. by rewrite lookup_insert_eq.
Qed.

Lemma held_page_delete held p order q :
  held !! p = Some order ->
  (forall p' o', held !! p' = Some o' -> p <> p' -> p + 2 ^ order <= p' \/ p' + 2 ^ o' <= p) ->
  held_page (delete p held) q <-> held_page held q /\ ~ (p <= q < p + 2 ^ order).
Proof.
  intros Hp Hd. split.
  - intros (p' & o' & Hl & Hq). apply lookup_delete_Some in Hl as [Hne Hl].
    split; [by exists p', o'|]. destruct (Hd p' o' Hl Hne); lia.
  - intros [(p' & o' & Hl & Hq) Hn]. exists p', o'. split; [|done].
    apply lookup_delete_Some. split; [|done]. intros <-. simplify_eq. lia.
Qed.

Lemma overlap_page p1 n1 p2 n2 :
  0 < n1 -> 0 < n2 -> ~ (p1 + n1 <= p2 \/ p2 + n2 <= p1) ->
  exists q, p1 <= q < p1 + n1 /\ p2 <= q < p2 + n2.
Proof. intros. exists (Z.max p1 p2). lia. Qed.

Lemma order_bound order p t : 0 <= order -> 0 <= p -> p + 2 ^ order <= t -> t <= MAX_PAGES -> order <= MAX_ORDER.
Proof.
  intros Ho Hp H Ht. rewrite MAX_PAGES_pow in Ht. destruct (Z.le_gt_cases order MAX_ORDER) as [|L]; [done|].
  pose proof (Z.pow_lt_mono_r 2 MAX_ORDER order ltac:(lia) Ho L). lia.
Qed.

Lemma client_alloc_inv s0 s held order p s' :
  client_inv s0 (s, held) -> 0 <= order -> alloc_post s order (Some p) s' ->
  client_inv s0 (s', <[p := order]> held).
Proof.
  intros [W T B D A F] Ho (Hmod & (Hp & Hin & Hrun) & [W' T' F' A']). simpl in *.
  pose proof (pow2_pos order Ho) as Hpos. pose proof (wf_total s W) as Ht.
  assert (forall q, p <= q < p + 2 ^ order -> ~ held_page held q) as Hnh.
  { intros q Hq. apply (F q ltac:(lia)). by apply Hrun. }
  assert (forall p' o', held !! p' = Some o' -> p + 2 ^ order <= p' \/ p' + 2 ^ o' <= p) as Hdis.
  { intros p' o' Hl. destruct (B p' o' Hl) as (Ho' & Hp' & _ & Hin').
    pose proof (pow2_pos o' ltac:(lia)).
    destruct (decide (p + 2 ^ order <= p')) as [|N1]; [by left|].
    destruct (decide (p' + 2 ^ o' <= p)) as [|N2]; [by right|]. exfalso.
    destruct (overlap_page p (2 ^ order) p' (2 ^ o')) as (q & H1 & H2); [lia|lia|lia|].
    apply (Hnh q H1). by exists p', o'. }
  assert (held !! p = None) as Hnone.
  { destruct (held !! p) as [o'|] eqn:E; [|done]. pose proof (Hdis p o' E).
    destruct (B p o' E) as (Ho' & _). pose proof (pow2_pos o' ltac:(lia)). lia. }
  constructor; simpl; [done|congruence| | | |].
  - intros p' o' Hl. apply lookup_insert_Some in Hl as [[<- <-]|[_ Hl]]; [|by apply B].
    split; [|rewrite <- T; done]. split; [done|]. eapply order_bound; [done|done|done|lia].
  - intros p1 o1 p2 o2 H1 H2 Hne.
    apply lookup_insert_Some in H1 as [[<- <-]|[N1 H1]], H2 as [[<- <-]|[N2 H2]]; [done| | |].
    + by apply Hdis.
    + destruct (Hdis p1 o1 H1); lia.
    + by apply (D p1 o1 p2 o2).
  - intros q Hq. rewrite A', orb_true_iff, in_range_spec, A, held_page_insert by done. done.
  - intros q Hq. rewrite F', andb_true_iff, negb_true_iff, in_range_false, F, held_page_insert by done.
    tauto.
Qed.

Lemma client_free_inv s0 s held p order s' :
  client_inv s0 (s, held) -> held !! p = Some order ->
  (forall q, 0 <= q < MAX_PAGES -> held_page held q -> page_free s0 q = true) ->
  view s' (total_pages s) (fun q => page_free s q || in_range p (2 ^ order) q)
    (fun q => abit s q && negb (in_range p (2 ^ order) q)) ->
  client_inv s0 (s', delete p held).
Proof.
  intros [W T B D A F] Hl Hown [W' T' F' A']. simpl in *.
  pose proof (fun q => held_page_delete held p order q Hl
    (fun p' o' H' N => D p order p' o' Hl H' N)) as Hdel.
  constructor; simpl; [done|congruence| | | |].
  - intros p' o' Hl'. apply lookup_delete_Some in Hl' as [_ Hl']. by apply B.
  - intros p1 o1 p2 o2 H1 H2. apply lookup_delete_Some in H1 as [_ H1], H2 as [_ H2].
    by apply (D p1 o1 p2 o2).
  - intros q Hq. rewrite A', andb_true_iff, negb_true_iff, in_range_false, A, Hdel by done. done.
  - intros q Hq. rewrite F', orb_true_iff, in_range_spec, F, Hdel by done. split.
    + intros [[H1 H2]|H]; [tauto|]. split; [|tauto]. apply Hown; [done|]. by exists p, order.
    + intros [H1 H2]. destruct (decide (p <= q < p + 2 ^ order)) as [|N]; [by right|left].
      split; [done|]. tauto.
Qed.

(** The pages a client holds were free at the start. *)
Definition client_ok (s0 : BuddyAllocator) (st : BuddyAllocator * gmap Z Z) : Prop :=
  client_inv s0 st /\ forall q, 0 <= q < MAX_PAGES -> held_page st.2 q -> page_free s0 q = true.

Lemma client_step_ok s0 st op :
  client_ok s0 st -> op_ok op -> exists st', client_step op st = Ret st' /\ client_ok s0 st'.
Proof.
  intros [I Hown] Hop. destruct st as [s held], op as [order|p]; simpl in *.
  - destruct (alloc_spec s order (ci_wf _ _ I) Hop) as (r & s' & -> & Hpost). rewrite bind_Ret.
    destruct r as [p|].
    + eexists. split; [done|]. split; [by eapply client_alloc_inv|]. simpl.
      destruct Hpost as (_ & (Hp & Hin & Hrun) & _). intros q Hq (p' & o' & Hl & Hr).
      apply lookup_insert_Some in Hl as [[<- <-]|[_ Hl]].
      * apply (ci_free _ _ I q Hq). by apply Hrun.
      * apply Hown; [done|]. by exists p', o'.
    + destruct Hpost as [-> _]. eexists. split; [done|]. done.
  - destruct (held !! p) as [order|] eqn:E; [|by eexists].
    destruct (ci_block _ _ I p order E) as (Ho & Hp & Hmod & Hin).
    pose proof (ci_total _ _ I) as Ht. simpl in Ht.
    pose proof (wf_total _ (ci_wf _ _ I)). simpl in *.
    destruct (free_spec s p order (ci_wf _ _ I) Ho Hp Hmod) as (s' & -> & V); [lia| |].
    { intros q Hq. apply (ci_alloc _ _ I q); [simpl; lia|]. by exists p, order. }
    eexists. split; [done|]. split; [by eapply client_free_inv|]. simpl.
    intros q Hq (p' & o' & Hl & Hr). apply lookup_delete_Some in Hl as [_ Hl].
    apply Hown; [done|]. by exists p', o'.
Qed.

Lemma client_run_ok s0 ops : forall st,
  client_ok s0 st -> Forall op_ok ops -> exists st', client_run ops st = Ret st' /\ client_ok s0 st'.
Proof.
  induction ops as [|op ops IH]; intros st Hst Hops; simpl; [by eexists|].
  apply Forall_cons_1 in Hops as [Hop Hops].
  destruct (client_step_ok s0 st op Hst Hop) as (st' & -> & Hst'). by apply IH.
Qed.

(** * Boot: an empty allocator, then disjoint ranges of pages added to it *)

Fixpoint add_ranges (rs : list (Z * Z)) (s : BuddyAllocator) : outcome BuddyAllocator :=
  match rs with
  | [] => Ret s
  | (start, n) :: rs' => s' ← add_range s start n; add_ranges rs' s'
  end.

Definition in_ranges (rs : list (Z * Z)) (p : Z) : bool :=
  existsb (fun r => in_range r.1 r.2 p) rs.

Fixpoint ranges_ok (total : Z) (rs : list (Z * Z)) : Prop :=
  match rs with
  | [] => True
  | (start, n) :: rs' =>
      0 <= start /\ 0 <= n /\ start + n <= total /\
      (forall p, start <= p < start + n -> in_ranges rs' p = false) /\ ranges_ok total rs'
  end.

Lemma add_ranges_spec rs : forall s,
  WF s -> ranges_ok (total_pages s) rs -> (forall p, abit s p = false) ->
  (forall p, in_ranges rs p = true -> page_free s p = false) ->
  exists s', add_ranges rs s = Ret s' /\
    view s' (total_pages s) (fun p => page_free s p || in_ranges rs p) (fun _ => false).
Proof.
  induction rs as [|[start n] rs IH]; intros s W Hok Ha Hf; simpl in *.
  - exists s. split; [done|]. eapply view_ext; [by apply view_self| |done]. intros p _. by rewrite orb_false_r.
  - destruct Hok as (H1 & H2 & H3 & H4 & H5).
    destruct (add_range_spec s start n W H1 H2 H3) as (s1 & -> & [W1 T1 F1 A1]).
    { intros p Hp. apply Hf, orb_true_iff. left. by apply in_range_spec. }
    rewrite bind_Ret. pose proof (wf_total s W) as Ht.
    destruct (IH s1 W1) as (s' & -> & V); [by rewrite T1|intros p; by rewrite A1, Ha| |].
    { intros p Hp.
      assert (0 <= p < MAX_PAGES) as Hr.
      { clear -Hp H5 Ht. induction rs as [|[a m] rs IH]; simpl in *; [done|].
        destruct H5 as (? & ? & ? & ? & ?). apply orb_true_iff in Hp as [Hp|Hp]; [|by apply IH].
        apply in_range_spec in Hp. simpl in Hp. lia. }
      rewrite F1, Hf by (by rewrite ?Hp, ?orb_true_r). simpl. apply in_range_false.
      intros Hin. by rewrite (H4 p Hin) in Hp. }
    exists s'. split; [done|]. rewrite T1 in V. eapply view_ext; [exact V| |done].
    intros p Hp. cbv beta. rewrite F1 by done. by rewrite orb_assoc.
Qed.

Definition boot (total : Z) (rs : list (Z * Z)) : outcome BuddyAllocator :=
  s ← init new total; add_ranges rs s.

Lemma boot_spec total rs :
  0 <= total <= MAX_PAGES -> ranges_ok total rs ->
  exists s, boot total rs = Ret s /\ view s total (in_ranges rs) (fun _ => false).
Proof.
  intros Ht Hok. unfold boot, init. rewrite (proj2 (Z.leb_le total MAX_PAGES)) by lia.
  cbn [assert]. rewrite !bind_Ret. destruct (init_view total Ht) as [W T F A].
  destruct (add_ranges_spec rs (mkBuddy ∅ ∅ total 0) W) as (s & E & V); [done|done| |].
  { intros p _. apply page_free_empty. }
  exists s. split; [done|]. eapply view_ext; [exact V| |done].
  intros p Hp. cbv beta. by rewrite page_free_empty.
Qed.

Lemma boot_client_ok total rs s0 :
  view s0 total (in_ranges rs) (fun _ => false) -> client_ok s0 (s0, ∅).
Proof.
  intros [W T F A].
  assert (forall q, ~ held_page ∅ q) as Hnh by (intros q (? & ? & Hl & _); by rewrite lookup_empty in Hl).
  split; [|intros q _ Hq; by destruct (Hnh q)].
  constructor; simpl; [done|done| | | |].
  - intros p o Hl. by rewrite lookup_empty in Hl.
  - intros p1 o1 p2 o2 Hl. by rewrite lookup_empty in Hl.
  - intros q _. rewrite A. split; [done|]. intros Hq. by destruct (Hnh q).
  - intros q _. split; [|tauto]. intros Hq. split; [done|apply Hnh].
Qed.

(** * Theorems *)

(** C10: Allocator safety. Start from an empty allocator, add disjoint page
    ranges, and let a client ask for blocks of any order and give back blocks
    it holds, in any sequence: no operation panics, the blocks held are always
    aligned, in range and pairwise disjoint, a page is marked as handed out
    exactly when it lies in a held block, and the free pages are exactly the
    added pages outside the held blocks (nothing is lost or handed out twice). *)
Theorem buddy_client_safe total rs ops :
  0 <= total <= MAX_PAGES -> ranges_ok total rs -> Forall op_ok ops ->
  exists s0 st,
    boot total rs = Ret s0 /\ client_run ops (s0, ∅) = Ret st /\ client_inv s0 st /\
    (forall p, 0 <= p < MAX_PAGES -> page_free s0 p = in_ranges rs p).
Proof.
  intros Ht Hr Hops. destruct (boot_spec total rs Ht Hr) as (s0 & E0 & V).
  destruct (client_run_ok s0 ops (s0, ∅)) as (st & E & I & _); [by eapply boot_client_ok|done|].
  exists s0, st. split_and!; [done..|]. apply V.
Qed.

Lemma buddy_client_safe_witness :
  exists s0 st,
    boot 16 [(0, 6); (8, 8)] = Ret s0 /\
    client_run [CAlloc 2; CAlloc 0; CFree 0; CAlloc 3] (s0, ∅) = Ret st /\ client_inv s0 st /\
    (forall p, 0 <= p < MAX_PAGES -> page_free s0 p = in_ranges [(0, 6); (8, 8)] p).
Proof.
  apply (buddy_client_safe 16 [(0, 6); (8, 8)] [CAlloc 2; CAlloc 0; CFree 0; CAlloc 3]).
  - unfold MAX_PAGES. lia.
  - simpl. split_and!; try lia; try done. intros p Hp. unfold in_range. simpl. lia.
  - repeat constructor; simpl; lia.
Defined.

(** C20: Allocation is complete and exact. On a well-formed allocator [alloc]
    never panics; it returns [None] exactly when no naturally aligned run of
    [2^order] free pages exists, leaving the state unchanged, and otherwise an
    aligned run of free pages, which alone leaves the free pages and joins the
    pages handed out, the free counter dropping by [2^order]. *)
Theorem buddy_alloc_complete s order :
  WF s -> 0 <= order ->
  exists r s', alloc s order = Ret (r, s') /\ alloc_post s order r s' /\
    (r = None <-> forall b, ~ run_free s order (b * 2 ^ order)) /\
    (forall p, r = Some p -> free_count s' = free_count s - 2 ^ order).
Proof.
  intros W Ho. destruct (alloc_spec s order W Ho) as (r & s' & E & Hp). exists r, s'. split_and!; try done.
  - destruct r as [p|]; split; try done.
    + intros H. exfalso. destruct Hp as (Hm & Hr & _). apply (H (p / 2 ^ order)).
      pose proof (pow2_pos order Ho). pose proof (Z.div_mod p (2 ^ order) ltac:(lia)).
      by replace (p / 2 ^ order * 2 ^ order) with p by lia.
    + intros _. apply Hp.
  - intros p ->. by eapply alloc_count.
Qed.

Lemma buddy_alloc_complete_witness :
  exists r s', alloc (mkBuddy ∅ ∅ 16 0) 1 = Ret (r, s') /\ alloc_post (mkBuddy ∅ ∅ 16 0) 1 r s' /\
    (r = None <-> forall b, ~ run_free (mkBuddy ∅ ∅ 16 0) 1 (b * 2 ^ 1)) /\
    (forall p, r = Some p -> free_count s' = 0 - 2 ^ 1).
Proof.
  apply (buddy_alloc_complete (mkBuddy ∅ ∅ 16 0) 1); [|lia].
  apply (init_view 16). unfold MAX_PAGES. lia.
Defined.

(** Deallocation and double free. On a well-formed allocator [free]
    returns exactly when the order is at most [MAX_ORDER], the block is aligned
    and in range and all of its pages are handed out; it panics in every other
    case, a double free included. When it returns, the block's pages move from
    handed out to free, nothing else changes, and the counter grows by
    [2^order]. *)
Theorem buddy_free_exact s p order :
  WF s -> 0 <= order -> 0 <= p ->
  (returns (free s p order) <->
     order <= MAX_ORDER /\ p mod 2 ^ order = 0 /\ p + 2 ^ order <= total_pages s /\
     forall q, p <= q < p + 2 ^ order -> abit s q = true) /\
  (forall s', free s p order = Ret s' ->
     view s' (total_pages s)
       (fun q => page_free s q || in_range p (2 ^ order) q)
       (fun q => abit s q && negb (in_range p (2 ^ order) q)) /\
     free_count s' = free_count s + 2 ^ order).
Proof.
  intros W Ho Hp. split; [split|].
  - intros [s' E]. by eapply free_returns.
  - intros (H1 & H2 & H3 & H4). destruct (free_spec s p order) as (s' & E & _); try done. by exists s'.
  - intros s' E. destruct (free_returns s p order s' W Ho Hp E) as (H1 & H2 & H3 & H4).
    destruct (free_spec s p order W (conj Ho H1) Hp H2 H3 H4) as (s1 & E1 & V).
    rewrite E in E1. injection E1 as <-. split; [done|]. destruct V as [W' T' F' _].
    pose proof (pow2_pos order Ho). pose proof (wf_total s W).
    eapply (add_count_eq s s' p); try done; [lia|]. intros q Hq.
    destruct (page_free s q) eqn:Ef; [|done]. pose proof (wf_unalloc s W q ltac:(lia) Ef).
    by rewrite H4 in *.
Qed.

Lemma buddy_free_exact_witness :
  (returns (free (mkBuddy ∅ ∅ 16 0) 4 2) <->
     2 <= MAX_ORDER /\ 4 mod 2 ^ 2 = 0 /\ 4 + 2 ^ 2 <= 16 /\
     forall q, 4 <= q < 4 + 2 ^ 2 -> abit (mkBuddy ∅ ∅ 16 0) q = true).
Proof.
  apply (buddy_free_exact (mkBuddy ∅ ∅ 16 0) 4 2); [|lia|lia].
  apply (init_view 16). unfold MAX_PAGES. lia.
Defined.

(** Round trip. Allocating a block and freeing it again restores the free
    pages, the pages handed out and the free counter. *)
Theorem buddy_alloc_free_roundtrip s order p s1 :
  WF s -> 0 <= order -> alloc s order = Ret (Some p, s1) ->
  exists s2, free s1 p order = Ret s2 /\
    view s2 (total_pages s) (page_free s) (abit s) /\ free_count s2 = free_count s.
Proof.
  intros W Ho E. destruct (alloc_spec s order W Ho) as (r & s1' & E' & Hp).
  rewrite E in E'. injection E' as <- <-. pose proof (alloc_count _ _ _ _ W Ho Hp) as Hc.
  destruct Hp as (Hm & (H1 & H2 & H3) & [W1 T1 F1 A1]).
  pose proof (pow2_pos order Ho). pose proof (wf_total s W).
  pose proof (order_bound order p (total_pages s) Ho H1 H2 ltac:(lia)).
  destruct (free_spec s1 p order) as (s2 & E2 & [W2 T2 F2 A2]); try done; [by rewrite T1| |].
  { intros q Hq. rewrite A1. destruct (abit s q); zbool. }
  exists s2. split; [done|].
  assert (view s2 (total_pages s) (page_free s) (abit s)) as V.
  { constructor; [done|congruence| |].
    - intros q Hq. rewrite F2, F1 by done. destruct (page_free s q) eqn:Ef; [zbool|].
      destruct (in_range p (2 ^ order) q) eqn:Er; [|done]. apply in_range_spec in Er.
      by rewrite H3 in Ef.
    - intros q. rewrite A2, A1. destruct (in_range p (2 ^ order) q) eqn:Er.
      + apply in_range_spec in Er. rewrite (wf_unalloc s W); [done|lia|by apply H3].
      + by rewrite orb_false_r, andb_true_r. }
  split; [done|]. rewrite (wf_count s2 W2), (wf_count s W). destruct V as [_ -> F _].
  apply count_ext. intros q Hq. apply F. rewrite (total_nat s W) in Hq. lia.
Qed.

Lemma buddy_alloc_free_roundtrip_witness :
  exists s p s1 s2,
    boot 16 [(0, 16)] = Ret s /\ alloc s 2 = Ret (Some p, s1) /\ free s1 p 2 = Ret s2 /\
    view s2 (total_pages s) (page_free s) (abit s) /\ free_count s2 = free_count s.
Proof.
  destruct (boot_spec 16 [(0, 16)]) as (s & E & [W T F A]).
  { unfold MAX_PAGES. lia. } { simpl. split_and!; done. }
  destruct (alloc_spec s 2 W) as (r & s1 & E1 & Hp); [lia|].
  destruct r as [p|].
  - destruct (buddy_alloc_free_roundtrip s 2 p s1 W) as (s2 & H); [lia|done|].
    exists s, p, s1, s2. tauto.
  - exfalso. destruct Hp as [_ Hp]. apply (Hp 0). split; [lia|]. rewrite T. split; [lia|].
    intros q Hq. rewrite F by (unfold MAX_PAGES; lia). simpl. unfold in_range. simpl in *. lia.
Defined.

(** * [order_for_count] *)

Lemma order_loop_spec fuel cnt order :
  0 <= order -> order + Z.of_nat fuel = 64 -> 0 < cnt <= 2 ^ 63 ->
  (order = 0 \/ 2 ^ (order - 1) < cnt) -> order <= 63 ->
  exists r, order_loop fuel cnt order (2 ^ order) = Ret r /\
    0 <= r <= 63 /\ cnt <= 2 ^ r /\ (r = 0 \/ 2 ^ (r - 1) < cnt).
Proof.
  revert order. induction fuel as [|fuel IH]; intros order Ho Hf Hc Hlow Hmax; [lia|].
  cbn [order_loop]. destruct (Z.ltb_spec (2 ^ order) cnt) as [L|L].
  - assert (order < 63) as Hlt.
    { destruct (decide (order = 63)) as [->|]; lia. }
    replace (wrap 64 (Z.shiftl (2 ^ order) 1)) with (2 ^ (order + 1)).
    + apply IH; [lia|lia|done| |lia]. right. by replace (order + 1 - 1) with order by lia.
    + unfold wrap. rewrite Z.shiftl_mul_pow2, Z.mul_comm, <- Z.pow_add_r by lia.
      rewrite (Z.add_comm 1 order). symmetry. apply Z.mod_small.
      split; [apply Z.pow_nonneg; lia|]. apply Z.pow_lt_mono_r; lia.
  - exists order. split_and!; done || lia.
Qed.

(** Beyond [2^63] the doubled size wraps to zero and the loop never ends. *)
Lemma order_loop_zero fuel cnt order : 0 < cnt -> order_loop fuel cnt order 0 = Panic PFuel.
Proof.
  intros Hc. revert order. induction fuel as [|fuel IH]; intros order; cbn [order_loop];
    rewrite (proj2 (Z.ltb_lt 0 cnt)) by done; [done|].
  change (wrap 64 (Z.shiftl 0 1)) with 0. apply IH.
Qed.

Lemma order_loop_diverges_from fuel cnt order :
  2 ^ 63 < cnt -> 0 <= order <= 63 -> order_loop fuel cnt order (2 ^ order) = Panic PFuel.
Proof.
  intros Hc. revert order. induction fuel as [|fuel IH]; intros order Ho; cbn [order_loop];
    (assert (2 ^ order < cnt) as Hlt by (pose proof (Z.pow_le_mono_r 2 order 63); lia));
    rewrite (proj2 (Z.ltb_lt _ _) Hlt); [done|].
  destruct (decide (order = 63)) as [->|].
  - change (wrap 64 (Z.shiftl (2 ^ 63) 1)) with 0. apply order_loop_zero. lia.
  - replace (wrap 64 (Z.shiftl (2 ^ order) 1)) with (2 ^ (order + 1)); [apply IH; lia|].
    unfold wrap. rewrite Z.shiftl_mul_pow2, Z.mul_comm, <- Z.pow_add_r by lia.
    rewrite (Z.add_comm 1 order). symmetry. apply Z.mod_small.
    split; [apply Z.pow_nonneg; lia|]. apply Z.pow_lt_mono_r; lia.
Qed.

(** [order_for_count] returns the smallest order whose block holds
    [count] pages for every count up to [2^63]; above that its loop does not
    end, whatever number of iterations it is given. *)
Theorem order_for_count_least cnt :
  0 <= cnt ->
  (cnt <= 2 ^ 63 ->
     exists r, order_for_count cnt = Ret r /\ 0 <= r <= 63 /\ cnt <= 2 ^ r /\
       forall r', 0 <= r' -> cnt <= 2 ^ r' -> r <= r') /\
  (2 ^ 63 < cnt -> forall fuel, order_loop fuel cnt 0 1 = Panic PFuel).
Proof.
  intros H0. split; [intros Hc|intros Hc fuel; apply (order_loop_diverges_from fuel cnt 0); lia].
  unfold order_for_count. destruct (Z.leb_spec cnt 1) as [L|L].
  - exists 0. split_and!; try done; lia.
  - destruct (order_loop_spec 64 cnt 0) as (r & E & Hr & Hcnt & Hleast);
      [lia|lia|lia|by left|lia|].
    exists r. split_and!; try done; try lia. intros r' Hr' Hc'.
    destruct Hleast as [->|Hl]; [done|].
    destruct (Z.lt_ge_cases r' r) as [Hlt|]; [|done].
    pose proof (Z.pow_le_mono_r 2 r' (r - 1) ltac:(lia) ltac:(lia)). lia.
Qed.

Lemma order_for_count_least_witness :
  (exists r, order_for_count 5 = Ret r /\ 0 <= r <= 63 /\ 5 <= 2 ^ r /\
    forall r', 0 <= r' -> 5 <= 2 ^ r' -> r <= r') /\
  (forall fuel, order_loop fuel (2 ^ 63 + 1) 0 1 = Panic PFuel).
Proof.
  split.
  - apply (proj1 (order_for_count_least 5 ltac:(lia))). lia.
  - apply (proj2 (order_for_count_least (2 ^ 63 + 1) ltac:(lia))). lia.
Defined.
