(* ===== verification/Pools.v ===== *)
(** The two bitmap pools: the DMA page pool (lockjaw-types/src/dma_pool.rs,
    src/cap/dma_pool.rs) and the PageSet header pool
    (lockjaw-types/src/pageset_header_pool.rs, src/cap/pageset_header_pool.rs). *)
From stdpp Require Import base option list gmap numbers.
From Stdlib Require Import ZArith Lia.
From S2P Require Import Prelude.
Open Scope Z_scope.

(** * Bit arrays over [w]-bit words *)
Section BitArray.
Context (w : Z) (Hw : 0 < w).

Definition bm_bit (m : gmap Z Z) (i : Z) : bool := Z.testbit (arr_peek m (i / w)) (i mod w).

Definition bm_words (m : gmap Z Z) : Prop := forall i, word w (arr_peek m i).

Lemma mod_w i : 0 <= i mod w < w.
Proof. apply Z.mod_pos_bound. done. Qed.

Lemma bm_bit_empty i : bm_bit ∅ i = false.
Proof. unfold bm_bit. rewrite arr_peek_empty. apply Z.bits_0. Qed.

Lemma bm_words_empty : bm_words ∅.
Proof. intros i. rewrite arr_peek_empty. apply word_0. lia. Qed.

(** Replacing the word of bit [i] by one that differs only there. *)
Lemma bm_bit_update m i x v j :
  (forall k, 0 <= k < w -> Z.testbit x k = if decide (i mod w = k) then v else
     Z.testbit (arr_peek m (i / w)) k) ->
  bm_bit (<[i / w := x]> m) j = if decide (i = j) then v else bm_bit m j.
Proof.
  intros Hx. unfold bm_bit. rewrite arr_peek_insert.
  destruct (decide (i / w = j / w)) as [E|E].
  - rewrite Hx by apply mod_w. destruct (decide (i mod w = j mod w)) as [Em|Em].
    + rewrite decide_True; [done|]. rewrite (Z.div_mod i w), (Z.div_mod j w) by lia. congruence.
    + rewrite decide_False by congruence. by rewrite E.
  - rewrite decide_False by congruence. done.
Qed.

Lemma bm_bit_set m i j :
  bm_bit (<[i / w := Z.lor (arr_peek m (i / w)) (bitmask (i mod w))]> m) j
  = if decide (i = j) then true else bm_bit m j.
Proof.
  apply bm_bit_update. intros k Hk. apply testbit_set; [|lia]. apply mod_w.
Qed.

Lemma bm_bit_clear m i j :
  bm_bit (<[i / w := Z.land (arr_peek m (i / w)) (not_w w (bitmask (i mod w)))]> m) j
  = if decide (i = j) then false else bm_bit m j.
Proof. apply bm_bit_update. intros k Hk. apply testbit_clear; [apply mod_w|done]. Qed.

Lemma bm_words_set m i : bm_words m ->
  bm_words (<[i / w := Z.lor (arr_peek m (i / w)) (bitmask (i mod w))]> m).
Proof.
  intros H j. rewrite arr_peek_insert. case_decide; [|apply H].
  apply word_lor; [lia|apply H|]. apply word_bitmask, mod_w.
Qed.

Lemma bm_words_clear m i : bm_words m ->
  bm_words (<[i / w := Z.land (arr_peek m (i / w)) (not_w w (bitmask (i mod w)))]> m).
Proof. intros H j. rewrite arr_peek_insert. case_decide; [|apply H]. apply word_land_l; [lia|apply H]. Qed.

Lemma bm_index N i : 0 <= i < N * w -> 0 <= i / w < N.
Proof. intros H. split; [apply Z.div_pos; lia|]. apply Z.div_lt_upper_bound; lia. Qed.
End BitArray.

(** * The DMA page pool *)
Module Dma.

Definition DMA_POOL_PAGES : Z := 512.
Definition BITMAP_WORDS : Z := DMA_POOL_PAGES / 64.

Record DmaPool := mkDmaPool {
  bitmap : gmap Z Z;
  allocated_pages : Z;
}.

Inductive DmaPoolError := InvalidCount | Exhausted.

Definition empty : DmaPool := mkDmaPool ∅ 0.

Definition bit (s : DmaPool) (idx : Z) : outcome bool :=
  x ← arr_get BITMAP_WORDS (bitmap s) (idx / 64);
  Ret (negb (Z.land (Z.shiftr x (idx mod 64)) 1 =? 0)).

Definition set_bit (s : DmaPool) (idx : Z) (value : bool) : outcome DmaPool :=
  let mask := bitmask (idx mod 64) in
  x ← arr_get BITMAP_WORDS (bitmap s) (idx / 64);
  m ← arr_set BITMAP_WORDS (bitmap s) (idx / 64)
        (if value then Z.lor x mask else Z.land x (not_w 64 mask));
  Ret (mkDmaPool m (allocated_pages s)).

(** The scan for [count] consecutive free pages, [n] pages left from [i]. *)
Fixpoint alloc_scan (s : DmaPool) (cnt : Z) (n : nat) (i : Z) (run_start : option Z) (run_len : Z)
  : outcome (option Z) :=
  match n with
  | O => Ret None
  | S n' =>
      b ← bit s i;
      if b : bool then alloc_scan s cnt n' (i + 1) None 0
      else
        let run_start' := match run_start with None => Some i | Some r => Some r end in
        let run_len' := run_len + 1 in
        if run_len' =? cnt then
          start ← unwrap run_start';
          Ret (Some start)
        else alloc_scan s cnt n' (i + 1) run_start' run_len'
  end.

Definition alloc (s : DmaPool) (cnt : Z) : outcome (result Z DmaPoolError * DmaPool) :=
  if (cnt =? 0) || (DMA_POOL_PAGES <? cnt) then Ret (Err InvalidCount, s)
  else
    r ← alloc_scan s cnt (Z.to_nat DMA_POOL_PAGES) 0 None 0;
    match r with
    | Some start =>
        s' ← for_range 0 (Z.to_nat cnt) (fun j st => set_bit st (start + j) true) s;
        Ret (Ok start, mkDmaPool (bitmap s') (allocated_pages s' + cnt))
    | None => Ret (Err Exhausted, s)
    end.

Definition free_one (i : Z) (s : DmaPool) : outcome DmaPool :=
  b ← bit s i;
  _ ← assert b;
  set_bit s i false.

Definition free (s : DmaPool) (start_idx cnt : Z) : outcome DmaPool :=
  _ ← assert (start_idx + cnt <=? DMA_POOL_PAGES);
  s' ← for_range start_idx (Z.to_nat cnt) free_one s;
  Ret (mkDmaPool (bitmap s') (allocated_pages s' - cnt)).

Definition free_pages (s : DmaPool) : Z := DMA_POOL_PAGES - allocated_pages s.

(** ** Invariant: the counter is the number of set bits *)

Definition used (s : DmaPool) (i : Z) : bool := bm_bit 64 (bitmap s) i.

Record WF (s : DmaPool) : Prop := {
  wf_count : allocated_pages s = count (used s) (Z.to_nat DMA_POOL_PAGES);
}.

Lemma bit_spec s i : 0 <= i < DMA_POOL_PAGES -> bit s i = Ret (used s i).
Proof.
  intros Hi. unfold bit. rewrite arr_get_in, bind_Ret by (apply (bm_index 64); [lia|exact Hi]).
  f_equal. change 1 with (bitmask 0). by rewrite land_bitmask, Z.shiftr_spec by lia.
Qed.

Lemma dma_set_bit_spec s i v :
  0 <= i < DMA_POOL_PAGES ->
  exists s', set_bit s i v = Ret s' /\ allocated_pages s' = allocated_pages s /\
    forall j, used s' j = if decide (i = j) then v else used s j.
Proof.
  intros Hi. unfold set_bit.
  rewrite arr_get_in, bind_Ret, arr_set_in, bind_Ret by (apply (bm_index 64); [lia|exact Hi]).
  eexists. split; [done|]. split; [done|]. intros j. unfold used. simpl.
  destruct v; [by apply bm_bit_set|by apply bm_bit_clear].
Qed.

Lemma WF_empty : WF empty.
Proof.
  constructor. rewrite (count_ext _ (fun _ => false)); [by rewrite count_none|].
  intros i _. apply bm_bit_empty.
Qed.

(** The pages [lo .. lo+n-1] are in the pool and free. *)
Definition run_free (s : DmaPool) (lo n : Z) : Prop :=
  0 <= lo /\ lo + n <= DMA_POOL_PAGES /\ forall j, lo <= j < lo + n -> used s j = false.

(** The scan keeps [run_len] free pages ending before [i], and every earlier
    start fails; it returns the first fit. *)
Lemma alloc_scan_spec s cnt n : forall i rs rl,
  0 < cnt -> 0 <= i -> i + Z.of_nat n = DMA_POOL_PAGES -> 0 <= rl < cnt ->
  (rs = if rl =? 0 then None else Some (i - rl)) -> rl <= i ->
  (forall j, i - rl <= j < i -> used s j = false) ->
  (forall lo, 0 <= lo < i - rl -> ~ run_free s lo cnt) ->
  exists r, alloc_scan s cnt n i rs rl = Ret r /\
  match r with
  | Some start => run_free s start cnt /\ forall lo, 0 <= lo < start -> ~ run_free s lo cnt
  | None => forall lo, ~ run_free s lo cnt
  end.
Proof.
  induction n as [|n IH]; intros i rs rl Hc Hi Hn Hrl Hrs Hle Hrun Hno; cbn [alloc_scan].
  { eexists. split; [done|]. intros lo (H1 & H2 & H3). apply (Hno lo); [lia|]. by split_and!. }
  rewrite bit_spec, bind_Ret by lia. destruct (used s i) eqn:Eu.
  - apply IH; try done; try lia. intros lo Hlo Hf.
    destruct (decide (lo < i - rl)); [apply (Hno lo); [lia|done]|].
    destruct Hf as (H1 & H2 & H3). rewrite H3 in Eu; [done|]. lia.
  - assert ((match rs with None => Some i | Some r => Some r end) = Some (i - rl)) as Ers.
    { rewrite Hrs. destruct (Z.eqb_spec rl 0); [f_equal; lia|done]. }
    rewrite Ers. assert (forall j, i - rl <= j < i + 1 -> used s j = false) as Hrun'.
    { intros j Hj. destruct (decide (j = i)) as [->|]; [done|]. apply Hrun. lia. }
    destruct (Z.eqb_spec (rl + 1) cnt) as [E|E].
    + eexists. split; [done|]. split; [|intros lo Hlo; apply Hno; lia].
      split; [lia|]. split; [lia|]. intros j Hj. apply Hrun'. lia.
    + apply IH; try done; try lia.
      * rewrite (proj2 (Z.eqb_neq (rl + 1) 0)) by lia. f_equal. lia.
      * intros j Hj. apply Hrun'. lia.
      * intros lo Hlo. apply Hno. lia.
Qed.

Lemma dma_mark_spec s lo n :
  0 <= lo -> 0 <= n -> lo + n <= DMA_POOL_PAGES ->
  exists s', for_range 0 (Z.to_nat n) (fun j st => set_bit st (lo + j) true) s = Ret s' /\
    allocated_pages s' = allocated_pages s /\
    forall j, used s' j = used s j || in_range lo n j.
Proof.
  intros Hlo Hn Hmax.
  destruct (for_range_inv (fun i st => allocated_pages st = allocated_pages s /\
      forall j, used st j = used s j || in_range lo i j)
    (fun j st => set_bit st (lo + j) true) (Z.to_nat n) 0 s) as (s' & E & V).
  - split; [done|]. intros j. zbool.
  - intros j st Hj [Ha Hu]. destruct (dma_set_bit_spec st (lo + j) true) as (st' & -> & Ha' & Hu'); [lia|].
    exists st'. split; [done|]. split; [congruence|]. intros k. rewrite Hu', Hu. case_decide; zbool.
  - exists s'. rewrite Z.add_0_l, Z2Nat.id in V by done. done.
Qed.

Lemma free_loop_spec s lo n :
  0 <= lo -> 0 <= n -> lo + n <= DMA_POOL_PAGES ->
  (forall j, lo <= j < lo + n -> used s j = true) ->
  exists s', for_range lo (Z.to_nat n) free_one s = Ret s' /\
    allocated_pages s' = allocated_pages s /\
    forall j, used s' j = used s j && negb (in_range lo n j).
Proof.
  intros Hlo Hn Hmax Hall.
  destruct (for_range_inv (fun i st => allocated_pages st = allocated_pages s /\
      forall j, used st j = used s j && negb (in_range lo (i - lo) j))
    free_one (Z.to_nat n) lo s) as (s' & E & V).
  - split; [done|]. intros j. zbool.
  - intros j st Hj [Ha Hu]. unfold free_one. rewrite bit_spec, bind_Ret, Hu, Hall by lia.
    assert (in_range lo (j - lo) j = false) as -> by (apply in_range_false; lia). simpl.
    destruct (dma_set_bit_spec st j false) as (st' & -> & Ha' & Hu'); [lia|].
    exists st'. split; [done|]. split; [congruence|]. intros k. rewrite Hu', Hu. case_decide; zbool.
  - exists s'. rewrite Z2Nat.id in V by done. by replace (lo + n - lo) with n in V by lia.
Qed.

Lemma free_loop_returns n : forall lo s s',
  0 <= lo -> lo + Z.of_nat n <= DMA_POOL_PAGES -> for_range lo n free_one s = Ret s' ->
  forall j, lo <= j < lo + Z.of_nat n -> used s j = true.
Proof.
  induction n as [|n IH]; intros lo s s' Hlo Hmax E j Hj; [lia|]. cbn [for_range] in E.
  apply bind_Ret_inv in E as (s1 & E1 & E2). unfold free_one in E1.
  rewrite bit_spec, bind_Ret in E1 by lia. apply bind_Ret_inv in E1 as ([] & Ea & E1).
  apply assert_Ret in Ea. destruct (dma_set_bit_spec s lo false) as (s1' & Ec & _ & Hu); [lia|].
  rewrite Ec in E1. injection E1 as <-.
  destruct (decide (j = lo)) as [->|]; [done|].
  pose proof (IH (lo + 1) s1' s' ltac:(lia) ltac:(lia) E2 j ltac:(lia)) as H.
  by rewrite Hu, decide_False in H by lia.
Qed.

(** What one [alloc] does. *)
Definition alloc_post (s : DmaPool) (cnt : Z) (r : result Z DmaPoolError) (s' : DmaPool) : Prop :=
  match r with
  | Ok start =>
      run_free s start cnt /\ (forall lo, 0 <= lo < start -> ~ run_free s lo cnt) /\
      (forall j, used s' j = used s j || in_range start cnt j) /\ WF s' /\
      allocated_pages s' = allocated_pages s + cnt
  | Err InvalidCount => (cnt = 0 \/ DMA_POOL_PAGES < cnt) /\ s' = s
  | Err Exhausted => (forall lo, ~ run_free s lo cnt) /\ s' = s
  end.

Lemma dma_alloc_spec s cnt :
  WF s -> 0 <= cnt -> exists r s', alloc s cnt = Ret (r, s') /\ alloc_post s cnt r s'.
Proof.
  intros W Hc. unfold alloc.
  destruct (Z.eqb_spec cnt 0) as [->|Hne]; [do 2 eexists; split; [done|]; simpl; auto|].
  destruct (Z.ltb_spec DMA_POOL_PAGES cnt) as [L|L]; [do 2 eexists; split; [done|]; simpl; auto|].
  cbn [orb].
  destruct (alloc_scan_spec s cnt (Z.to_nat DMA_POOL_PAGES) 0 None 0) as (r & -> & Hr);
    try done; try lia.
  rewrite bind_Ret. destruct r as [start|]; [|by do 2 eexists].
  destruct Hr as [Hrun Hfirst]. pose proof Hrun as (H1 & H2 & H3).
  destruct (dma_mark_spec s start cnt) as (s' & -> & Ha & Hu); [lia..|]. rewrite bind_Ret.
  do 2 eexists. split; [done|]. simpl. split_and!; try done; try lia.
  - constructor. simpl. rewrite Ha, (wf_count s W). symmetry.
    apply count_add_range with start; rewrite ?Z2Nat.id by done; try lia; try done.
    + intros j _ Hj. by apply H3.
    + intros j _. apply Hu.
Qed.

Lemma dma_pool_free_spec s lo n :
  WF s -> 0 <= lo -> 0 <= n -> lo + n <= DMA_POOL_PAGES ->
  (forall j, lo <= j < lo + n -> used s j = true) ->
  exists s', free s lo n = Ret s' /\ WF s' /\
    (forall j, used s' j = used s j && negb (in_range lo n j)) /\
    allocated_pages s' = allocated_pages s - n.
Proof.
  intros W Hlo Hn Hmax Hall. unfold free. rewrite (proj2 (Z.leb_le _ _) Hmax). cbn [assert].
  rewrite bind_Ret. destruct (free_loop_spec s lo n) as (s' & -> & Ha & Hu); try done.
  rewrite bind_Ret. eexists. split; [done|]. simpl. split_and!; [|done|lia].
  constructor. simpl. rewrite Ha, (wf_count s W).
  rewrite (count_add_range (used s') (used s) lo n); rewrite ?Z2Nat.id by done; try lia.
  - rewrite Z.add_simpl_r. done.
  - intros j _ Hj. rewrite Hu. zbool.
  - intros j Hj. rewrite Hu. destruct (used s j) eqn:E; [zbool|].
    destruct (in_range lo n j) eqn:Er; [|done]. apply in_range_spec in Er. by rewrite Hall in E.
Qed.

(** DMA pool allocation is first fit and exact. On a pool whose counter
    is its number of set bits, [alloc] never panics; it rejects a count of
    zero or above the pool size, reports exhaustion exactly when no run of
    [count] free pages exists, and otherwise returns the lowest such run,
    which alone becomes used, the counter growing by [count]. *)
Theorem dma_alloc_first_fit s cnt :
  WF s -> 0 <= cnt ->
  exists r s', alloc s cnt = Ret (r, s') /\ alloc_post s cnt r s' /\
    (r = Err InvalidCount <-> cnt = 0 \/ DMA_POOL_PAGES < cnt) /\
    (r = Err Exhausted <-> 0 < cnt <= DMA_POOL_PAGES /\ forall lo, ~ run_free s lo cnt).
Proof.
  intros W Hc. destruct (dma_alloc_spec s cnt W Hc) as (r & s' & E & Hp).
  exists r, s'. split; [done|]. split; [done|].
  assert (forall lo, run_free s lo cnt -> cnt <= DMA_POOL_PAGES) as Hlim
    by (intros lo (? & ? & ?); lia).
  unfold alloc in E. destruct r as [start|[|]]; simpl in Hp.
  - destruct Hp as (Hr & _ & _ & _). pose proof (Hlim _ Hr). split.
    + split; [done|]. intros [->|]; [|lia]. simpl in E. done.
    + split; [done|]. intros [_ H']. by destruct (H' start).
  - split; [tauto|]. split; [done|]. lia.
  - destruct Hp as [Hp ->]. destruct (Z.eqb_spec cnt 0) as [->|]; [done|].
    destruct (Z.ltb_spec DMA_POOL_PAGES cnt); [done|].
    split; split; try done; [lia|]. intros _. split; [lia|done].
Qed.

Lemma dma_alloc_first_fit_witness :
  exists r s', alloc empty 3 = Ret (r, s') /\ alloc_post empty 3 r s' /\
    (r = Err InvalidCount <-> 3 = 0 \/ DMA_POOL_PAGES < 3) /\
    (r = Err Exhausted <-> 0 < 3 <= DMA_POOL_PAGES /\ forall lo, ~ run_free empty lo 3).
Proof. apply (dma_alloc_first_fit empty 3); [apply WF_empty|lia]. Defined.

(** DMA pool deallocation. [free] returns exactly when the range lies in
    the pool and every page of it is in use (any double free panics); exactly
    those pages become free, and the counter stays the number of set bits. *)
Theorem dma_free_exact s lo n :
  WF s -> 0 <= lo -> 0 <= n ->
  (returns (free s lo n) <->
     lo + n <= DMA_POOL_PAGES /\ forall j, lo <= j < lo + n -> used s j = true) /\
  (forall s', free s lo n = Ret s' ->
     WF s' /\ (forall j, used s' j = used s j && negb (in_range lo n j)) /\
     allocated_pages s' = allocated_pages s - n).
Proof.
  intros W Hlo Hn.
  assert (forall s', free s lo n = Ret s' ->
    lo + n <= DMA_POOL_PAGES /\ forall j, lo <= j < lo + n -> used s j = true) as Hret.
  { intros s' E. unfold free in E. apply bind_Ret_inv in E as ([] & E1 & E).
    apply assert_Ret, Z.leb_le in E1. split; [done|]. apply bind_Ret_inv in E as (s1 & E2 & _).
    intros j Hj. eapply (free_loop_returns (Z.to_nat n) lo s s1); [lia|lia|done|lia]. }
  split; [split|].
  - intros [s' E]. by apply (Hret s').
  - intros [H1 H2]. destruct (dma_pool_free_spec s lo n) as (s' & E & _); try done. by exists s'.
  - intros s' E. destruct (Hret s' E) as [H1 H2].
    destruct (dma_pool_free_spec s lo n) as (s1 & E1 & H); try done. rewrite E in E1. by injection E1 as <-.
Qed.

Lemma dma_free_exact_witness :
  returns (free empty 0 1) <-> 0 + 1 <= DMA_POOL_PAGES /\ forall j, 0 <= j < 0 + 1 -> used empty j = true.
Proof. apply (dma_free_exact empty 0 1); [apply WF_empty|lia|lia]. Defined.

End Dma.

(** * The PageSet header pool *)
Module HeaderPool.

Definition MAX_PAGESETS : Z := 128.
Definition MAX_PRACTICAL_PAGES_PER_SET : Z := 16384.
Definition PAGESET_HEADER_BYTES : Z := 24.

Definition header_pages_for (cnt : Z) : Z :=
  let bytes := PAGESET_HEADER_BYTES + cnt * 8 in
  (bytes + PAGE_SIZE - 1) / PAGE_SIZE.

Definition MAX_HEADER_PAGES_PER_PAGESET : Z := header_pages_for MAX_PRACTICAL_PAGES_PER_SET.
Definition POOL_BITMAP_WORDS : Z := (MAX_PAGESETS + 63) / 64.

Record PageSetHeaderPoolState := mkPool {
  free_bits : gmap Z Z;
  claimed_pages : gmap Z Z;
}.

Definition new : PageSetHeaderPoolState := mkPool ∅ ∅.

(** The loop over the words, [n] of them left from [word_idx]. *)
Fixpoint claim_words (s : PageSetHeaderPoolState) (header_pages : Z) (n : nat) (word_idx : Z)
  : outcome (option Z * PageSetHeaderPoolState) :=
  match n with
  | O => Ret (None, s)
  | S n' =>
      x ← arr_get POOL_BITMAP_WORDS (free_bits s) word_idx;
      let pos := trailing_ones 64 x in
      if pos <? 64 then
        let slot := word_idx * 64 + pos in
        if MAX_PAGESETS <=? slot then claim_words s header_pages n' (word_idx + 1)
        else
          m ← arr_set POOL_BITMAP_WORDS (free_bits s) word_idx (Z.lor x (bitmask pos));
          c ← arr_set MAX_PAGESETS (claimed_pages s) slot (wrap 8 header_pages);
          Ret (Some slot, mkPool m c)
      else claim_words s header_pages n' (word_idx + 1)
  end.

Definition claim (s : PageSetHeaderPoolState) (header_pages : Z)
  : outcome (option Z * PageSetHeaderPoolState) :=
  if (header_pages =? 0) || (MAX_HEADER_PAGES_PER_PAGESET <? header_pages) then Ret (None, s)
  else claim_words s header_pages (Z.to_nat POOL_BITMAP_WORDS) 0.

Definition release (s : PageSetHeaderPoolState) (slot_idx : Z) : outcome (Z * PageSetHeaderPoolState) :=
  _ ← assert (slot_idx <? MAX_PAGESETS);
  let word_idx := slot_idx / 64 in
  let bit := bitmask (slot_idx mod 64) in
  x ← arr_get POOL_BITMAP_WORDS (free_bits s) word_idx;
  _ ← assert (negb (Z.land x bit =? 0));
  m ← arr_set POOL_BITMAP_WORDS (free_bits s) word_idx (Z.land x (not_w 64 bit));
  pages ← arr_get MAX_PAGESETS (claimed_pages s) slot_idx;
  c ← arr_set MAX_PAGESETS (claimed_pages s) slot_idx 0;
  Ret (pages, mkPool m c).

Definition is_used (s : PageSetHeaderPoolState) (slot_idx : Z) : outcome bool :=
  if MAX_PAGESETS <=? slot_idx then Ret false
  else
    x ← arr_get POOL_BITMAP_WORDS (free_bits s) (slot_idx / 64);
    Ret (negb (Z.land x (bitmask (slot_idx mod 64)) =? 0)).

(** ** Invariant *)

Definition used (s : PageSetHeaderPoolState) (i : Z) : bool := bm_bit 64 (free_bits s) i.

Record WF (s : PageSetHeaderPoolState) : Prop := {
  wf_words : bm_words 64 (free_bits s);
  wf_claimed : forall i, 0 <= i < MAX_PAGESETS ->
    (used s i = true <-> 1 <= arr_peek (claimed_pages s) i <= MAX_HEADER_PAGES_PER_PAGESET) /\
    (used s i = false <-> arr_peek (claimed_pages s) i = 0);
}.

Lemma header_pages_for_bounds cnt :
  0 < cnt <= MAX_PRACTICAL_PAGES_PER_SET ->
  1 <= header_pages_for cnt <= MAX_HEADER_PAGES_PER_PAGESET /\
  PAGESET_HEADER_BYTES + cnt * 8 <= header_pages_for cnt * PAGE_SIZE.
Proof.
  unfold MAX_PRACTICAL_PAGES_PER_SET, MAX_HEADER_PAGES_PER_PAGESET, header_pages_for,
    PAGESET_HEADER_BYTES, PAGE_SIZE, MAX_PRACTICAL_PAGES_PER_SET. intros H.
  set (b := 24 + cnt * 8 + 4096 - 1).
  assert (b = 4096 * (b / 4096) + b mod 4096) by (apply Z.div_mod; lia).
  pose proof (Z.mod_pos_bound b 4096 ltac:(lia)).
  change ((24 + 16384 * 8 + 4096 - 1) / 4096) with 33. unfold b in *. lia.
Qed.

Lemma WF_new : WF new.
Proof.
  constructor; [apply bm_words_empty; lia|]. intros i Hi. unfold used. rewrite bm_bit_empty.
  simpl. rewrite arr_peek_empty. split; split; try done; lia.
Qed.

(** The lowest clear bit of a word that is not all ones. *)
Lemma word_scan s word_idx :
  WF s -> 0 <= word_idx ->
  let pos := trailing_ones 64 (arr_peek (free_bits s) word_idx) in
  (pos < 64 -> 0 <= pos /\ used s (word_idx * 64 + pos) = false) /\
  (forall j, word_idx * 64 <= j < word_idx * 64 + pos -> used s j = true) /\ 0 <= pos <= 64.
Proof.
  intros W Hw pos. destruct (first_clear_spec 64 0 (arr_peek (free_bits s) word_idx)) as (H1 & H2 & H3).
  change (first_clear 64 0 (arr_peek (free_bits s) word_idx)) with pos in *. clearbody pos.
  assert (forall k, 0 <= k < 64 -> used s (word_idx * 64 + k) = Z.testbit (arr_peek (free_bits s) word_idx) k) as Hu.
  { intros k Hk. unfold used, bm_bit.
    replace ((word_idx * 64 + k) / 64) with word_idx by (apply Z.div_unique with k; lia).
    by replace ((word_idx * 64 + k) mod 64) with k by (apply Z.mod_unique with word_idx; lia). }
  split_and!; try lia.
  - intros Hp. split; [lia|]. rewrite Hu by lia. apply H3. lia.
  - intros j Hj. replace j with (word_idx * 64 + (j - word_idx * 64)) by lia.
    rewrite Hu by lia. apply H2. lia.
Qed.

Definition claim_post (s : PageSetHeaderPoolState) (header_pages : Z) (r : option Z)
    (s' : PageSetHeaderPoolState) : Prop :=
  match r with
  | Some slot =>
      0 <= slot < MAX_PAGESETS /\ used s slot = false /\
      (forall j, 0 <= j < slot -> used s j = true) /\ WF s' /\
      (forall j, used s' j = if decide (slot = j) then true else used s j) /\
      (forall j, arr_peek (claimed_pages s') j =
         if decide (slot = j) then header_pages else arr_peek (claimed_pages s) j)
  | None => s' = s
  end.

Lemma claim_words_spec s header_pages n : forall word_idx,
  WF s -> 1 <= header_pages <= MAX_HEADER_PAGES_PER_PAGESET ->
  0 <= word_idx -> word_idx + Z.of_nat n = POOL_BITMAP_WORDS ->
  (forall j, 0 <= j < word_idx * 64 -> used s j = true) ->
  exists r s', claim_words s header_pages n word_idx = Ret (r, s') /\
    claim_post s header_pages r s' /\
    (r = None -> forall j, 0 <= j < MAX_PAGESETS -> used s j = true).
Proof.
  assert (POOL_BITMAP_WORDS = 2) as H2 by reflexivity.
  induction n as [|n IH]; intros word_idx W Hh Hi Hn Hall; cbn [claim_words].
  { do 2 eexists. split; [done|]. split; [done|]. intros _ j Hj. apply Hall.
    unfold MAX_PAGESETS in *. lia. }
  rewrite arr_get_in, bind_Ret by lia.
  destruct (word_scan s word_idx W Hi) as (Hfree & Hused & Hpos).
  set (pos := trailing_ones 64 (arr_peek (free_bits s) word_idx)) in *.
  assert (pos = 64 -> forall j, 0 <= j < (word_idx + 1) * 64 -> used s j = true) as Hnext.
  { intros E j Hj. destruct (decide (j < word_idx * 64)); [apply Hall; lia|apply Hused; lia]. }
  destruct (Z.ltb_spec pos 64) as [L|L]; [|apply IH; [done|done|lia|lia|apply Hnext; lia]].
  destruct (Hfree L) as [Hp Hf].
  rewrite (proj2 (Z.leb_gt MAX_PAGESETS (word_idx * 64 + pos))) by (unfold MAX_PAGESETS; lia).
  rewrite !arr_set_in, !bind_Ret by (unfold MAX_PAGESETS; lia).
  set (slot := word_idx * 64 + pos) in *.
  assert (slot / 64 = word_idx) as Ed by (symmetry; apply Z.div_unique with pos; lia).
  assert (slot mod 64 = pos) as Em by (symmetry; apply Z.mod_unique with word_idx; lia).
  assert (wrap 8 header_pages = header_pages) as Ew
    by (unfold wrap; apply Z.mod_small; unfold MAX_HEADER_PAGES_PER_PAGESET in Hh; change (2 ^ 8) with 256;
        change (header_pages_for MAX_PRACTICAL_PAGES_PER_SET) with 33 in Hh; lia).
  rewrite Ew. do 2 eexists. split; [done|]. split; [|done]. simpl.
  assert (forall j, used (mkPool (<[word_idx := Z.lor (arr_peek (free_bits s) word_idx) (bitmask pos)]> (free_bits s))
      (<[slot := header_pages]> (claimed_pages s))) j = if decide (slot = j) then true else used s j) as Hu.
  { intros j. unfold used. simpl. pose proof (bm_bit_set 64 ltac:(lia) (free_bits s) slot j) as Hb.
    by rewrite Ed, Em in Hb. }
  split_and!; [unfold MAX_PAGESETS; lia|unfold MAX_PAGESETS; lia|done| | |exact Hu|].
  - intros j Hj. destruct (decide (j < word_idx * 64)); [apply Hall; lia|apply Hused; lia].
  - constructor.
    + simpl. pose proof (bm_words_set 64 ltac:(lia) (free_bits s) slot (wf_words s W)) as Hb.
      by rewrite Ed, Em in Hb.
    + intros j Hj. rewrite Hu. simpl. rewrite arr_peek_insert. case_decide.
      * split; split; try done; lia.
      * by apply W.
  - intros j. apply arr_peek_insert.
Qed.

Lemma claim_spec s header_pages :
  WF s -> 0 <= header_pages ->
  exists r s', claim s header_pages = Ret (r, s') /\ claim_post s header_pages r s' /\
    (r = None <-> header_pages = 0 \/ MAX_HEADER_PAGES_PER_PAGESET < header_pages \/
       forall j, 0 <= j < MAX_PAGESETS -> used s j = true).
Proof.
  intros W Hh. unfold claim.
  destruct (Z.eqb_spec header_pages 0) as [->|H0]; [do 2 eexists; split; [done|]; split; [done|tauto]|].
  destruct (Z.ltb_spec MAX_HEADER_PAGES_PER_PAGESET header_pages) as [L|L];
    [do 2 eexists; split; [done|]; split; [done|tauto]|]. cbn [orb].
  destruct (claim_words_spec s header_pages (Z.to_nat POOL_BITMAP_WORDS) 0)
    as (r & s' & E & Hp & Hn); [done|lia|lia|done|lia|].
  exists r, s'. split; [done|]. split; [done|]. split; [tauto|].
  intros [?|[?|Hall]]; [lia|lia|]. destruct r as [slot|]; [|done]. exfalso.
  destruct Hp as (Hs & Hf & _). by rewrite Hall in Hf.
Qed.

Lemma release_spec s slot :
  WF s -> 0 <= slot < MAX_PAGESETS -> used s slot = true ->
  exists s', release s slot = Ret (arr_peek (claimed_pages s) slot, s') /\ WF s' /\
    (forall j, used s' j = if decide (slot = j) then false else used s j) /\
    (forall j, arr_peek (claimed_pages s') j =
       if decide (slot = j) then 0 else arr_peek (claimed_pages s) j).
Proof.
  intros W Hs Hu. unfold release. rewrite (proj2 (Z.ltb_lt slot MAX_PAGESETS)) by lia.
  cbn [assert]. rewrite bind_Ret.
  pose proof (bm_index 64 ltac:(lia) POOL_BITMAP_WORDS slot Hs) as Hidx.
  rewrite !arr_get_in, bind_Ret, land_bitmask by (done || apply mod_w; lia).
  unfold used, bm_bit in Hu. rewrite Hu. cbn [assert]. rewrite bind_Ret.
  rewrite !arr_set_in, !bind_Ret by done.
  eexists. split; [done|].
  assert (forall j, used (mkPool (<[slot / 64 := Z.land (arr_peek (free_bits s) (slot / 64)) (not_w 64 (bitmask (slot mod 64)))]> (free_bits s))
      (<[slot := 0]> (claimed_pages s))) j = if decide (slot = j) then false else used s j) as Hu'.
  { intros j. apply bm_bit_clear. lia. }
  split_and!; [|exact Hu'|intros j; apply arr_peek_insert].
  constructor; [apply bm_words_clear; [lia|apply W]|].
  intros j Hj. rewrite Hu'. simpl. rewrite arr_peek_insert. case_decide; [|by apply W].
  split; split; try done; lia.
Qed.

Lemma release_returns s slot r :
  WF s -> 0 <= slot -> release s slot = Ret r -> slot < MAX_PAGESETS /\ used s slot = true.
Proof.
  intros W Hs E. unfold release in E. apply bind_Ret_inv in E as ([] & E1 & E).
  apply assert_Ret, Z.ltb_lt in E1.
  pose proof (bm_index 64 ltac:(lia) POOL_BITMAP_WORDS slot (conj Hs E1)) as Hidx.
  rewrite !arr_get_in, bind_Ret, land_bitmask in E by (done || apply mod_w; lia).
  apply bind_Ret_inv in E as ([] & E2 & E). by apply assert_Ret in E2.
Qed.

(** Header-pool claims. On a well-formed pool (a slot is marked used
    exactly when it records 1 to 33 claimed pages) [claim] never panics; it
    fails exactly when the page count is 0 or above 33 or all 128 slots are
    used, and otherwise takes the lowest free slot and records the count.
    [release] of that slot then returns the count and frees only that slot;
    [release] panics exactly on a slot that is out of range or not used. *)
Theorem header_pool_claim_release s header_pages :
  WF s -> 0 <= header_pages ->
  exists r s', claim s header_pages = Ret (r, s') /\ claim_post s header_pages r s' /\
    (r = None <-> header_pages = 0 \/ MAX_HEADER_PAGES_PER_PAGESET < header_pages \/
       forall j, 0 <= j < MAX_PAGESETS -> used s j = true) /\
    (forall slot, r = Some slot ->
       exists s'', release s' slot = Ret (header_pages, s'') /\ WF s'' /\
         forall j, used s'' j = used s j) /\
    (forall slot, 0 <= slot ->
       returns (release s slot) <-> slot < MAX_PAGESETS /\ used s slot = true).
Proof.
  intros W Hh. destruct (claim_spec s header_pages W Hh) as (r & s' & E & Hp & Hn).
  exists r, s'. split_and!; try done; try tauto.
  - intros slot ->. destruct Hp as (Hs & Hf & _ & W' & Hu & Hc).
    destruct (release_spec s' slot W' Hs) as (s'' & E' & W'' & Hu' & _).
    { by rewrite Hu, decide_True. }
    rewrite Hc, decide_True in E' by done. exists s''. split_and!; try done.
    intros j. rewrite Hu', Hu. by case_decide; subst.
  - intros slot Hs. split.
    + intros [r' Er]. by eapply release_returns.
    + intros [H1 H2]. destruct (release_spec s slot W) as (s'' & Er & _); [lia|done|]. by eexists.
Qed.

Lemma header_pool_claim_release_witness :
  exists r s', claim new 33 = Ret (r, s') /\ claim_post new 33 r s'.
Proof.
  destruct (header_pool_claim_release new 33 WF_new) as (r & s' & H1 & H2 & _); [lia|].
  by exists r, s'.
Defined.

End HeaderPool.
