(* ===== verification/FrameAlloc.v ===== *)
(** The kernel's physical frame allocator (src/mm/page_alloc.rs) over the
    buddy allocator, with the boot-time carve-out of the DMA pool, and the
    address types it uses (lockjaw-types/src/addr.rs, src/mm/addr.rs). *)
From stdpp Require Import base option list gmap numbers.
From Stdlib Require Import ZArith Lia.
From S2P Require Import Prelude Buddy BuddyInv Pools.
Open Scope Z_scope.

(** A [PhysAddr] is its byte address, a [PhysPage] its page number. *)
Definition containing_page (addr : Z) : Z := Z.shiftr addr PAGE_SHIFT.
Definition start_addr (page : Z) : Z := wrap 64 (Z.shiftl page PAGE_SHIFT).

Inductive NotPageAligned := mkNotPageAligned (raw : Z).

Definition phys_page_aligned (raw : Z) : result Z NotPageAligned :=
  if negb (Z.land raw (PAGE_SIZE - 1) =? 0) then Err (mkNotPageAligned raw)
  else Ok (Z.shiftr raw PAGE_SHIFT).

Definition add_pages (page n : Z) : Z := wrap 64 (page + n).

(** The RAM window found by platform discovery. *)
Record Platform := mkPlatform { ram_base : Z; ram_size : Z }.

Definition ram_start (pl : Platform) : Z := ram_base pl.
Definition ram_end (pl : Platform) : Z := ram_base pl + ram_size pl.
Definition total_pages (pl : Platform) : Z := ram_size pl / PAGE_SIZE.

Definition page_index (pl : Platform) (addr : Z) : outcome Z :=
  d ← sub_chk addr (ram_start pl);
  Ret (d / PAGE_SIZE).

Definition round_up_page (pl : Platform) (addr : Z) : outcome Z :=
  idx ← page_index pl addr;
  Ret (if negb (Z.land addr (PAGE_SIZE - 1) =? 0) then idx + 1 else idx).

Definition index_to_page (pl : Platform) (idx : Z) : Z :=
  containing_page (ram_start pl + idx * PAGE_SIZE).

(** [dma_pool::init]: the base must be page aligned. *)
Definition dma_init (base_phys : Z) : outcome Z :=
  _ ← assert (Z.land base_phys (PAGE_SIZE - 1) =? 0);
  Ret base_phys.

(** Region 2 of [init_with_gap]: the pages after the stacks, without the DMA
    pool when it fits. *)
Definition add_post_stacks (pl : Platform) (b1 : BuddyAllocator) (stacks_end_page : Z)
  : outcome (BuddyAllocator * option Z) :=
  let dma_pool_pages := Dma.DMA_POOL_PAGES in
  let l2_block_pages := Dma.DMA_POOL_PAGES in
  let l2_size_bytes := l2_block_pages * PAGE_SIZE in
  let pool_end_aligned := Z.land (ram_end pl) (not_w 64 (l2_size_bytes - 1)) in
  let pool_base_phys := Z.max 0 (pool_end_aligned - l2_size_bytes) in
  d ← sub_chk pool_base_phys (ram_start pl);
  let pool_first_page := d / PAGE_SIZE in
  let pool_last_page := pool_first_page + dma_pool_pages in
  if (stacks_end_page <=? pool_first_page) && (pool_last_page <=? total_pages pl) then
    let pre_pool_count := pool_first_page - stacks_end_page in
    b2 ← (if 0 <? pre_pool_count then add_range b1 stacks_end_page pre_pool_count else Ret b1);
    let post_pool_count := total_pages pl - pool_last_page in
    b3 ← (if 0 <? post_pool_count then add_range b2 pool_last_page post_pool_count else Ret b2);
    base ← dma_init pool_base_phys;
    Ret (b3, Some base)
  else
    let total_post := total_pages pl - stacks_end_page in
    b2 ← add_range b1 stacks_end_page total_post;
    Ret (b2, None).

(** [init_with_gap]: the buddy allocator and the DMA pool base ([None] when
    the carve-out is skipped). *)
Definition init_with_gap (pl : Platform) (b : BuddyAllocator)
    (kernel_end stacks_start stacks_end : Z) : outcome (BuddyAllocator * option Z) :=
  b0 ← init b (total_pages pl);
  kernel_end_page ← round_up_page pl kernel_end;
  stacks_start_page ← page_index pl stacks_start;
  stacks_end_page ← round_up_page pl stacks_end;
  b1 ← (if kernel_end_page <? stacks_start_page
        then add_range b0 kernel_end_page (stacks_start_page - kernel_end_page)
        else Ret b0);
  if stacks_end_page <? total_pages pl then add_post_stacks pl b1 stacks_end_page
  else Ret (b1, None).

(** ** Allocation entry points *)

Definition alloc_page (pl : Platform) (b : BuddyAllocator) : outcome (option Z * BuddyAllocator) :=
  r ← alloc b 0;
  Ret (option_map (index_to_page pl) r.1, r.2).

Definition alloc_pages_contiguous (pl : Platform) (b : BuddyAllocator) (cnt : Z)
  : outcome (option Z * BuddyAllocator) :=
  if cnt =? 0 then Ret (None, b)
  else
    order ← order_for_count cnt;
    r ← alloc b order;
    Ret (option_map (index_to_page pl) r.1, r.2).

Definition dealloc_page (pl : Platform) (b : BuddyAllocator) (page : Z) : outcome BuddyAllocator :=
  idx ← page_index pl (start_addr page);
  free b idx 0.

Definition dealloc_pages_contiguous (pl : Platform) (b : BuddyAllocator) (first_page cnt : Z)
  : outcome BuddyAllocator :=
  if cnt =? 0 then Ret b
  else
    order ← order_for_count cnt;
    idx ← page_index pl (start_addr first_page);
    free b idx order.

(** ** The platform the kernel supports: page-aligned RAM base, at most
    [MAX_PAGES] pages, inside a 48-bit physical address space. *)
Record platform_ok (pl : Platform) : Prop := {
  pk_base : 0 <= ram_base pl;
  pk_align : ram_base pl mod PAGE_SIZE = 0;
  pk_size : 0 <= ram_size pl;
  pk_pages : total_pages pl <= MAX_PAGES;
  pk_top : ram_end pl < 2 ^ 48;
}.

Lemma page_mask_zero a : 0 <= a -> (Z.land a (PAGE_SIZE - 1) =? 0) = (a mod PAGE_SIZE =? 0).
Proof.
  intros Ha. change (PAGE_SIZE - 1) with (Z.ones 12). by rewrite Z.land_ones by lia.
Qed.

Lemma page_index_spec pl addr :
  ram_base pl <= addr -> page_index pl addr = Ret ((addr - ram_base pl) / PAGE_SIZE).
Proof.
  intros H. unfold page_index, sub_chk, ram_start. by rewrite (proj2 (Z.leb_le _ _) H).
Qed.

(** The first page at or above [addr]. *)
Lemma round_up_page_spec pl addr :
  platform_ok pl -> ram_base pl <= addr ->
  round_up_page pl addr = Ret ((addr - ram_base pl + PAGE_SIZE - 1) / PAGE_SIZE).
Proof.
  intros P H. unfold round_up_page. rewrite page_index_spec, bind_Ret by done.
  pose proof (pk_base _ P). rewrite page_mask_zero by lia.
  pose proof (pk_align _ P) as Ha. f_equal.
  set (d := addr - ram_base pl) in *.
  assert (addr mod PAGE_SIZE = d mod PAGE_SIZE) as ->.
  { unfold d. by rewrite Zminus_mod, Ha, Z.sub_0_r, Z.mod_mod by done. }
  pose proof (Z.div_mod d PAGE_SIZE ltac:(done)) as Hd.
  pose proof (Z.mod_pos_bound d PAGE_SIZE ltac:(done)) as Hm. unfold PAGE_SIZE in *.
  destruct (Z.eqb_spec (d mod 4096) 0) as [E|E]; simpl.
  - apply Z.div_unique with 4095; lia.
  - apply Z.div_unique with (d mod 4096 - 1); lia.
Qed.

(** A page index maps to a page of RAM and back. *)
Lemma index_to_page_start pl idx :
  platform_ok pl -> 0 <= idx < total_pages pl ->
  start_addr (index_to_page pl idx) = ram_base pl + idx * PAGE_SIZE.
Proof.
  intros P Hi. unfold start_addr, index_to_page, containing_page, ram_start, wrap.
  pose proof (pk_base _ P). pose proof (pk_align _ P) as Ha. pose proof (pk_top _ P) as Ht.
  unfold total_pages, ram_end in *.
  assert (idx * PAGE_SIZE <= ram_size pl) as Hsz.
  { pose proof (Z.mul_div_le (ram_size pl) PAGE_SIZE ltac:(done)). unfold PAGE_SIZE in *. lia. }
  rewrite Z.shiftr_div_pow2, Z.shiftl_mul_pow2 by done. change (2 ^ PAGE_SHIFT) with PAGE_SIZE.
  apply Z.mod_divide in Ha as [q Hq]; [|done]. rewrite Hq in *.
  rewrite <- Z.mul_add_distr_r, Z.div_mul by done. apply Z.mod_small.
  change (2 ^ 48) with 281474976710656 in *. change (2 ^ 64) with 18446744073709551616.
  unfold PAGE_SIZE in *. lia.
Qed.

Lemma index_roundtrip pl idx :
  platform_ok pl -> 0 <= idx < total_pages pl ->
  page_index pl (start_addr (index_to_page pl idx)) = Ret idx.
Proof.
  intros P Hi. rewrite index_to_page_start by done. unfold PAGE_SIZE.
  rewrite page_index_spec by lia. f_equal.
  replace (ram_base pl + idx * 4096 - ram_base pl) with (idx * PAGE_SIZE) by (unfold PAGE_SIZE; lia).
  by apply Z.div_mul.
Qed.

(** * Boot *)

Lemma opt_add_range b start n :
  WF b -> 0 <= start -> start + n <= Buddy.total_pages b ->
  (forall p, start <= p < start + n -> page_free b p = false) ->
  (forall p, abit b p = false) ->
  exists b', (if 0 <? n then add_range b start n else Ret b) = Ret b' /\
    view b' (Buddy.total_pages b) (fun p => page_free b p || in_range start n p) (fun _ => false).
Proof.
  intros W Hs Hin Hf Ha. destruct (Z.ltb_spec 0 n) as [L|L].
  - destruct (add_range_spec b start n) as (b' & E & V); try done; try lia.
    exists b'. split; [done|]. eapply view_ext; [exact V|done|]. intros p. cbv beta. by rewrite Ha.
  - exists b. split; [done|]. eapply view_ext; [by apply view_self| |done]. intros p _. zbool.
Qed.

(** The page numbers [init_with_gap] computes. *)
Definition up_page (pl : Platform) (addr : Z) : Z := (addr - ram_base pl + PAGE_SIZE - 1) / PAGE_SIZE.
Definition down_page (pl : Platform) (addr : Z) : Z := (addr - ram_base pl) / PAGE_SIZE.

(** The boot layout: kernel image, then stacks, inside RAM of at least 4 MiB. *)
Record layout_ok (pl : Platform) (kernel_end stacks_start stacks_end : Z) : Prop := {
  lo_pl : platform_ok pl;
  lo_order : ram_base pl <= kernel_end <= stacks_start /\ stacks_start <= stacks_end <= ram_end pl;
  lo_size : 2 ^ 22 <= ram_size pl;
}.

(** The pages the buddy allocator receives at boot. *)
Definition boot_free (pl : Platform) (kernel_end stacks_start stacks_end : Z) (pool : option Z) (p : Z) : bool :=
  in_range (up_page pl kernel_end) (down_page pl stacks_start - up_page pl kernel_end) p ||
  (in_range (up_page pl stacks_end) (total_pages pl - up_page pl stacks_end) p &&
   negb (match pool with
         | Some base => in_range (down_page pl base) Dma.DMA_POOL_PAGES p
         | None => false
         end)).

Lemma down_le_up pl a b : a <= b -> down_page pl a <= up_page pl b.
Proof.
  intros H. unfold down_page, up_page. apply Z.div_le_mono; unfold PAGE_SIZE; lia.
Qed.

Lemma layout_pages pl ke ss se :
  layout_ok pl ke ss se ->
  0 <= up_page pl ke /\ 0 <= down_page pl ss <= total_pages pl /\
  down_page pl ss <= up_page pl se /\ 0 <= up_page pl se /\ 0 <= total_pages pl <= MAX_PAGES.
Proof.
  intros [P Ho Hsz]. unfold up_page. pose proof (down_le_up pl ss se ltac:(lia)).
  pose proof (pk_pages _ P). pose proof (pk_size _ P). unfold ram_end, total_pages, down_page in *.
  split_and!; try done; try (apply Z.div_pos; unfold PAGE_SIZE in *; lia).
  apply Z.div_le_mono; unfold PAGE_SIZE in *; lia.
Qed.

(** The pool base the boot code computes: 2 MiB aligned, one pool below the
    aligned end of RAM, and above the start of RAM. *)
Lemma pool_base_spec pl :
  platform_ok pl -> 2 ^ 22 <= ram_size pl ->
  exists base, Z.max 0 (Z.land (ram_end pl) (not_w 64 (Dma.DMA_POOL_PAGES * PAGE_SIZE - 1))
                 - Dma.DMA_POOL_PAGES * PAGE_SIZE) = base /\
    base mod 2 ^ 21 = 0 /\ ram_base pl <= base /\ base + 2 ^ 21 <= ram_end pl.
Proof.
  intros P Hsz. change (Dma.DMA_POOL_PAGES * PAGE_SIZE - 1) with (Z.ones 21).
  change (Dma.DMA_POOL_PAGES * PAGE_SIZE) with (2 ^ 21).
  pose proof (pk_top _ P) as Ht. pose proof (pk_base _ P) as Hb. unfold ram_end in *.
  rewrite align_down; [|lia|split; [lia|]; change (2 ^ 64) with (2 ^ 48 * 65536); lia].
  set (e := ram_base pl + ram_size pl) in *.
  pose proof (Z.div_mod e (2 ^ 21) ltac:(done)) as Hd.
  pose proof (Z.mod_pos_bound e (2 ^ 21) ltac:(done)) as Hm.
  exists ((e / 2 ^ 21 - 1) * 2 ^ 21). change (2 ^ 22) with (2 * 2 ^ 21) in Hsz.
  split_and!; try lia. by rewrite Z.mod_mul.
Qed.

Lemma boot_tail pl b1 se f :
  platform_ok pl -> 2 ^ 22 <= ram_size pl -> 0 <= se < total_pages pl ->
  view b1 (total_pages pl) f (fun _ => false) ->
  (forall p, se <= p < total_pages pl -> f p = false) ->
  exists b pool,
    add_post_stacks pl b1 se = Ret (b, pool) /\
    view b (total_pages pl) (fun p => f p || (in_range se (total_pages pl - se) p &&
      negb (match pool with
            | Some base => in_range (down_page pl base) Dma.DMA_POOL_PAGES p
            | None => false
            end))) (fun _ => false) /\
    (forall base, pool = Some base -> base mod 2 ^ 21 = 0 /\ ram_base pl <= base /\
       se <= down_page pl base /\ base + Dma.DMA_POOL_PAGES * PAGE_SIZE <= ram_end pl).
Proof.
  intros P Hsz Hse [W1 T1 F1 A1] Hf. unfold add_post_stacks. cbv zeta.
  destruct (pool_base_spec pl P Hsz) as (base & -> & Hal & Hlo & Hhi).
  pose proof (pk_pages _ P) as Hmax.
  unfold sub_chk, ram_start. rewrite (proj2 (Z.leb_le _ _) Hlo), bind_Ret.
  change ((base - ram_base pl) / PAGE_SIZE) with (down_page pl base).
  set (pf := down_page pl base).
  destruct ((se <=? pf) && (pf + Dma.DMA_POOL_PAGES <=? total_pages pl)) eqn:Ec.
  - apply andb_true_iff in Ec as [E1%Z.leb_le E2%Z.leb_le]. unfold Dma.DMA_POOL_PAGES in *.
    destruct (opt_add_range b1 se (pf - se)) as (b2 & -> & [W2 T2 F2 A2]); try done; try lia.
    { intros p Hp. rewrite F1, Hf by lia. done. }
    rewrite bind_Ret. rewrite T1 in T2.
    destruct (opt_add_range b2 (pf + 512) (total_pages pl - (pf + 512))) as (b3 & -> & [W3 T3 F3 A3]);
      try done; try lia.
    { intros p Hp. rewrite F2, F1, Hf by lia. simpl. apply in_range_false. lia. }
    rewrite bind_Ret. unfold dma_init. rewrite page_mask_zero by (pose proof (pk_base _ P); lia).
    assert (base mod PAGE_SIZE = 0) as ->.
    { apply Z.mod_divide in Hal as [q ->]; [|done].
      replace (q * 2 ^ 21) with (q * 512 * PAGE_SIZE) by (unfold PAGE_SIZE; lia). by apply Z.mod_mul. }
    simpl. do 2 eexists. split; [done|]. split.
    + constructor; [done|congruence| |done]. intros p Hp. rewrite F3, F2, F1 by done.
      fold pf. destruct (f p); zbool.
    + intros base' [= <-]. split_and!; done.
  - destruct (add_range_spec b1 se (total_pages pl - se)) as (b2 & -> & [W2 T2 F2 A2]); try done; try lia.
    { intros p Hp. rewrite F1, Hf by lia. done. }
    rewrite bind_Ret. do 2 eexists. split; [done|]. split; [|done].
    constructor; [done|congruence| |].
    + intros p Hp. rewrite F2, F1 by done. by rewrite andb_true_r.
    + intros p. by rewrite A2, A1.
Qed.

Lemma init_with_gap_spec pl kernel_end stacks_start stacks_end :
  layout_ok pl kernel_end stacks_start stacks_end ->
  exists b pool,
    init_with_gap pl Buddy.new kernel_end stacks_start stacks_end = Ret (b, pool) /\
    view b (total_pages pl) (boot_free pl kernel_end stacks_start stacks_end pool) (fun _ => false) /\
    (forall base, pool = Some base -> base mod 2 ^ 21 = 0 /\ ram_base pl <= base /\
       up_page pl stacks_end <= down_page pl base /\
       base + Dma.DMA_POOL_PAGES * PAGE_SIZE <= ram_end pl).
Proof.
  intros L. pose proof (layout_pages _ _ _ _ L) as (Hke & Hss & Hle & Hse & Htot).
  destruct L as [P Ho Hsz]. unfold init_with_gap, init.
  rewrite (proj2 (Z.leb_le (total_pages pl) MAX_PAGES)) by lia. cbn [assert]. rewrite !bind_Ret.
  rewrite (round_up_page_spec pl kernel_end), bind_Ret by (done || lia).
  rewrite page_index_spec, bind_Ret by lia.
  rewrite (round_up_page_spec pl stacks_end), bind_Ret by (done || lia).
  fold (up_page pl kernel_end) (up_page pl stacks_end) (down_page pl stacks_start).
  unfold boot_free.
  set (ke := up_page pl kernel_end) in *. set (ss := down_page pl stacks_start) in *.
  set (se := up_page pl stacks_end) in *.
  destruct (init_view (total_pages pl) Htot) as [W0 T0 F0 A0].
  replace (ke <? ss) with (0 <? ss - ke) by (destruct (Z.ltb_spec ke ss), (Z.ltb_spec 0 (ss - ke)); lia).
  destruct (opt_add_range (mkBuddy ∅ ∅ (total_pages pl) 0) ke (ss - ke)) as (b1 & -> & V1);
    [done|done|simpl; lia|intros; apply page_free_empty|done|].
  rewrite bind_Ret. simpl in V1.
  destruct (Z.ltb_spec se (total_pages pl)) as [Lt|Ge].
  - destruct (boot_tail pl b1 se (in_range ke (ss - ke))) as (b & pool & E & V & Hpool); try done.
    + eapply view_ext; [exact V1| |done]. intros p Hp. cbv beta. by rewrite page_free_empty.
    + intros p Hp. apply in_range_false. lia.
    + exists b, pool. by split_and!.
  - exists b1, None. split_and!; try done. eapply view_ext; [exact V1| |done].
    intros p Hp. cbv beta. rewrite page_free_empty. zbool.
Qed.

(** C32: Boot carve-out. For every kernel layout inside RAM, [init_with_gap]
    does not panic, and the buddy allocator it leaves is well formed, has no
    page handed out, and has exactly these free pages: the gap between the
    kernel image and the stacks, and the pages after the stacks without the
    DMA pool; the pool, when there is one, is 2 MiB aligned and lies wholly
    after the stacks inside RAM. So no page belongs to both allocators and no
    page of the image or the stacks is ever handed out. *)
Theorem boot_carve_out pl kernel_end stacks_start stacks_end :
  layout_ok pl kernel_end stacks_start stacks_end ->
  exists b pool,
    init_with_gap pl Buddy.new kernel_end stacks_start stacks_end = Ret (b, pool) /\
    view b (total_pages pl) (boot_free pl kernel_end stacks_start stacks_end pool) (fun _ => false) /\
    (forall base, pool = Some base -> base mod 2 ^ 21 = 0 /\ ram_base pl <= base /\
       up_page pl stacks_end <= down_page pl base /\
       base + Dma.DMA_POOL_PAGES * PAGE_SIZE <= ram_end pl).
Proof. apply init_with_gap_spec. Qed.

Lemma boot_carve_out_witness :
  let pl := mkPlatform 1073741824 134217728 in
  layout_ok pl 1075838976 1077936128 1078984704 /\
  exists b pool,
    init_with_gap pl Buddy.new 1075838976 1077936128 1078984704 = Ret (b, pool) /\
    view b (total_pages pl) (boot_free pl 1075838976 1077936128 1078984704 pool) (fun _ => false) /\
    (forall base, pool = Some base -> base mod 2 ^ 21 = 0 /\ ram_base pl <= base /\
       up_page pl 1078984704 <= down_page pl base /\
       base + Dma.DMA_POOL_PAGES * PAGE_SIZE <= ram_end pl).
Proof.
  assert (layout_ok (mkPlatform 1073741824 134217728) 1075838976 1077936128 1078984704) as L.
  { constructor; [constructor|..]; try done. }
  split; [exact L|]. apply (boot_carve_out _ _ _ _ L).
Defined.

(** * The frame allocator in use *)

(** Page numbers handed out by the entry points are pages of RAM. *)
Definition phys_page_of (pl : Platform) (idx page : Z) : Prop :=
  page = index_to_page pl idx /\ start_addr page = ram_base pl + idx * PAGE_SIZE /\
  0 <= idx < total_pages pl.

Lemma alloc_page_spec pl b :
  platform_ok pl -> WF b -> Buddy.total_pages b = total_pages pl ->
  exists r b', alloc_page pl b = Ret (r, b') /\
  match r with
  | Some page => exists idx, phys_page_of pl idx page /\ page_free b idx = true /\
      view b' (total_pages pl)
        (fun q => page_free b q && negb (in_range idx 1 q))
        (fun q => abit b q || in_range idx 1 q)
  | None => b' = b /\ forall q, 0 <= q < total_pages pl -> page_free b q = false
  end.
Proof.
  intros P W T. unfold alloc_page.
  destruct (alloc_spec b 0 W) as (r & b' & -> & Hp); [lia|]. rewrite bind_Ret.
  destruct r as [idx|]; simpl; do 2 eexists; (split; [done|]).
  - destruct Hp as (_ & (H1 & H2 & H3) & V). change (2 ^ 0) with 1 in *. rewrite T in *.
    exists idx. split_and!; try done; [|apply H3; lia].
    split; [done|]. split; [apply index_to_page_start; done || lia|lia].
  - destruct Hp as [-> Hp]. split; [done|]. intros q Hq.
    destruct (page_free b q) eqn:E; [|done]. exfalso. apply (Hp q).
    unfold run_free. change (2 ^ 0) with 1. rewrite Z.mul_1_r, T. split_and!; try lia.
    intros q' Hq'. by replace q' with q by lia.
Qed.

Lemma dealloc_page_spec pl b idx page :
  platform_ok pl -> WF b -> Buddy.total_pages b = total_pages pl ->
  phys_page_of pl idx page -> abit b idx = true ->
  exists b', dealloc_page pl b page = Ret b' /\
    view b' (total_pages pl)
      (fun q => page_free b q || in_range idx 1 q)
      (fun q => abit b q && negb (in_range idx 1 q)).
Proof.
  intros P W T (-> & _ & Hi) Ha. unfold dealloc_page. rewrite index_roundtrip, bind_Ret by done.
  destruct (free_spec b idx 0 W) as (b' & E & V); change (2 ^ 0) with 1 in *;
    try (unfold MAX_ORDER; lia).
  - apply Z.mod_1_r.
  - intros q Hq. by replace q with idx by lia.
  - exists b'. split; [done|]. by rewrite T in V.
Qed.
