(* ===== verification/PageSet.v ===== *)
(** PageSets: origin tags, page-resident headers and their bounds-checked
    views, and the tracking table (lockjaw-types/src/pageset_table.rs). *)
From stdpp Require Import base option list gmap numbers.
From Stdlib Require Import ZArith Lia.
From S2P Require Import Prelude Pools.
Open Scope Z_scope.

Export HeaderPool (MAX_PAGESETS, MAX_PRACTICAL_PAGES_PER_SET, PAGESET_HEADER_BYTES,
  header_pages_for, MAX_HEADER_PAGES_PER_PAGESET).

Inductive PageSetOrigin := Buddy | DmaPool | ExternallyOwned.

#[export] Instance PageSetOrigin_eq_dec : EqDecision PageSetOrigin.
Proof. solve_decision. Defined.

(** [origin as u64] *)
Definition origin_as_u64 (o : PageSetOrigin) : Z :=
  match o with Buddy => 1 | DmaPool => 2 | ExternallyOwned => 3 end.

Definition from_raw (raw : Z) : option PageSetOrigin :=
  match raw with
  | 1 => Some Buddy
  | 2 => Some DmaPool
  | 3 => Some ExternallyOwned
  | _ => None
  end.

(** The header in its pages; [pages] is the address array that follows the
    24 bytes of metadata, zero where nothing was written. *)
Record PageSetHeader := mkHeader {
  h_count : Z;
  h_header_pages : Z;
  h_refcount : Z;
  h_map_count : Z;
  h_origin_raw : Z;
  h_pages : gmap Z Z;
}.

(** A zeroed header page. *)
Definition zero_header : PageSetHeader := mkHeader 0 0 0 0 0 ∅.

Module Hdr.

Definition empty (origin : PageSetOrigin) : PageSetHeader :=
  mkHeader 0 1 0 0 (origin_as_u64 origin) ∅.

Definition origin (h : PageSetHeader) : option PageSetOrigin := from_raw (h_origin_raw h).

(** [x.checked_add(1)] on u32, unwrapped. *)
Definition inc32 (x : Z) : outcome Z := if x + 1 <? 2 ^ 32 then Ret (x + 1) else Panic PUnwrap.

Definition inc_map_count (h : PageSetHeader) : outcome PageSetHeader :=
  m ← inc32 (h_map_count h);
  Ret (mkHeader (h_count h) (h_header_pages h) (h_refcount h) m (h_origin_raw h) (h_pages h)).

Definition dec_map_count (h : PageSetHeader) : outcome (bool * PageSetHeader) :=
  _ ← assert (0 <? h_map_count h);
  let m := h_map_count h - 1 in
  Ret ((m =? 0) && (h_refcount h =? 0),
       mkHeader (h_count h) (h_header_pages h) (h_refcount h) m (h_origin_raw h) (h_pages h)).

Definition inc_refcount (h : PageSetHeader) : outcome PageSetHeader :=
  r ← inc32 (h_refcount h);
  Ret (mkHeader (h_count h) (h_header_pages h) r (h_map_count h) (h_origin_raw h) (h_pages h)).

Definition dec_refcount (h : PageSetHeader) : outcome (bool * PageSetHeader) :=
  _ ← assert (0 <? h_refcount h);
  let r := h_refcount h - 1 in
  Ret ((r =? 0) && (h_map_count h =? 0),
       mkHeader (h_count h) (h_header_pages h) r (h_map_count h) (h_origin_raw h) (h_pages h)).

(** ** Views with a trusted count *)
Record BackedHeader := mkBacked {
  bk_header : PageSetHeader;
  bk_count : Z;
  bk_backing_pages : Z;
}.

Definition backed (h : PageSetHeader) (cnt : Z) : BackedHeader :=
  mkBacked h cnt (header_pages_for cnt).

Definition get_page (b : BackedHeader) (index : Z) : outcome (option Z) :=
  if bk_count b <=? index then Ret None
  else
    let byte_offset := PAGESET_HEADER_BYTES + index * 8 in
    _ ← assert (byte_offset + 8 <=? bk_backing_pages b * PAGE_SIZE);
    Ret (Some (arr_peek (h_pages (bk_header b)) index)).

Definition set_page (b : BackedHeader) (index addr : Z) : outcome BackedHeader :=
  _ ← assert (index <? bk_count b);
  let byte_offset := PAGESET_HEADER_BYTES + index * 8 in
  _ ← assert (byte_offset + 8 <=? bk_backing_pages b * PAGE_SIZE);
  let h := bk_header b in
  Ret (mkBacked
         (mkHeader (h_count h) (h_header_pages h) (h_refcount h) (h_map_count h) (h_origin_raw h)
            (<[index := addr]> (h_pages h)))
         (bk_count b) (bk_backing_pages b)).

Definition set_count (b : BackedHeader) (cnt : Z) (o : PageSetOrigin) : outcome BackedHeader :=
  let needed := header_pages_for cnt in
  _ ← assert (needed <=? bk_backing_pages b);
  let h := bk_header b in
  Ret (mkBacked
         (mkHeader (wrap 32 cnt) (wrap 32 needed) (h_refcount h) (h_map_count h)
            (origin_as_u64 o) (h_pages h))
         cnt (bk_backing_pages b)).

Fixpoint set_pages (b : BackedHeader) (i : Z) (addrs : list Z) : outcome BackedHeader :=
  match addrs with
  | [] => Ret b
  | a :: rest => b' ← set_page b i a; set_pages b' (i + 1) rest
  end.

Definition init (b : BackedHeader) (page_addrs : list Z) (o : PageSetOrigin) : outcome BackedHeader :=
  b1 ← set_count b (Z.of_nat (length page_addrs)) o;
  let h := bk_header b1 in
  let b2 := mkBacked (mkHeader (h_count h) (h_header_pages h) 0 0 (h_origin_raw h) (h_pages h))
              (bk_count b1) (bk_backing_pages b1) in
  set_pages b2 0 page_addrs.

(** A view whose backing holds its count. *)
Definition backed_ok (b : BackedHeader) : Prop :=
  0 < bk_count b <= MAX_PRACTICAL_PAGES_PER_SET /\ bk_backing_pages b = header_pages_for (bk_count b).

Lemma page_in_backing b index :
  backed_ok b -> 0 <= index < bk_count b ->
  PAGESET_HEADER_BYTES + index * 8 + 8 <= bk_backing_pages b * PAGE_SIZE.
Proof.
  intros [Hc ->] Hi. pose proof (HeaderPool.header_pages_for_bounds _ Hc) as [_ H]. lia.
Qed.

Definition put_page (b : BackedHeader) (index addr : Z) : BackedHeader :=
  let h := bk_header b in
  mkBacked (mkHeader (h_count h) (h_header_pages h) (h_refcount h) (h_map_count h) (h_origin_raw h)
              (<[index := addr]> (h_pages h))) (bk_count b) (bk_backing_pages b).

(** Inside the count, accesses stay in the backing pages and never panic. *)
Lemma set_page_spec b index addr :
  backed_ok b -> 0 <= index < bk_count b -> set_page b index addr = Ret (put_page b index addr).
Proof.
  intros Hb Hi. unfold set_page. rewrite (proj2 (Z.ltb_lt index (bk_count b))) by lia.
  cbn [assert]. rewrite bind_Ret.
  rewrite (proj2 (Z.leb_le _ _)) by (pose proof (page_in_backing b index Hb Hi); lia). done.
Qed.

Lemma get_page_spec b index :
  backed_ok b -> 0 <= index ->
  get_page b index =
    Ret (if index <? bk_count b then Some (arr_peek (h_pages (bk_header b)) index) else None).
Proof.
  intros Hb Hi. unfold get_page.
  destruct (Z.leb_spec (bk_count b) index) as [L|L], (Z.ltb_spec index (bk_count b)) as [L'|L']; try lia; [done|].
  rewrite (proj2 (Z.leb_le _ _)) by (pose proof (page_in_backing b index Hb ltac:(lia)); lia). done.
Qed.

Lemma set_count_spec h cnt o :
  set_count (backed h cnt) cnt o =
    Ret (mkBacked (mkHeader (wrap 32 cnt) (wrap 32 (header_pages_for cnt)) (h_refcount h)
           (h_map_count h) (origin_as_u64 o) (h_pages h)) cnt (header_pages_for cnt)).
Proof. unfold set_count, backed. simpl. rewrite Z.leb_refl. done. Qed.

Lemma origin_roundtrip o : from_raw (origin_as_u64 o) = Some o.
Proof. by destruct o. Qed.

Lemma set_pages_spec addrs : forall b i,
  backed_ok b -> 0 <= i -> i + Z.of_nat (length addrs) <= bk_count b ->
  exists b', set_pages b i addrs = Ret b' /\ bk_count b' = bk_count b /\
    h_origin_raw (bk_header b') = h_origin_raw (bk_header b) /\
    h_refcount (bk_header b') = h_refcount (bk_header b) /\
    h_map_count (bk_header b') = h_map_count (bk_header b) /\
    forall j, arr_peek (h_pages (bk_header b')) j =
      if decide (i <= j < i + Z.of_nat (length addrs)) then default 0 (addrs !! Z.to_nat (j - i))
      else arr_peek (h_pages (bk_header b)) j.
Proof.
  induction addrs as [|a rest IH]; intros b i Hb Hi Hlen; cbn [set_pages length] in *.
  - exists b. split_and!; try done. intros j. rewrite decide_False by lia. done.
  - rewrite set_page_spec, bind_Ret by (done || lia).
    destruct (IH (put_page b i a) (i + 1)) as (b' & -> & Hc & Ho & Hr & Hm & Hp); [done|lia|simpl; lia|].
    exists b'. split_and!; try done. intros j. rewrite Hp. simpl. rewrite arr_peek_insert.
    destruct (decide (i + 1 <= j < i + 1 + Z.of_nat (length rest))) as [H1|H1].
    + rewrite decide_True by lia. replace (Z.to_nat (j - i)) with (S (Z.to_nat (j - (i + 1)))) by lia. done.
    + destruct (decide (i = j)) as [->|Hne].
      * rewrite decide_True by lia. by rewrite Z.sub_diag.
      * rewrite decide_False by lia. done.
Qed.

End Hdr.

(** ** The table *)
Record PageSetEntry := mkEntry {
  e_count : Z;
  e_header_kva : Z;
  e_origin : PageSetOrigin;
}.

#[export] Instance PageSetEntry_eq_dec : EqDecision PageSetEntry.
Proof. solve_decision. Defined.

Inductive PageSetError := TableFull | InvalidCount | InvalidId | SlotEmpty.

Abbreviation PageSetTable := (list (option PageSetEntry)).

Module Tbl.

Definition new : PageSetTable := replicate (Z.to_nat MAX_PAGESETS) None.

(** [slots.iter().position(|s| s.is_none())] *)
Fixpoint first_none (t : PageSetTable) : option nat :=
  match t with
  | [] => None
  | None :: _ => Some 0%nat
  | Some _ :: t' => S <$> first_none t'
  end.

Definition insert (t : PageSetTable) (entry : PageSetEntry) : result nat PageSetError * PageSetTable :=
  if (e_count entry =? 0) || (MAX_PRACTICAL_PAGES_PER_SET <? e_count entry) then (Err InvalidCount, t)
  else match first_none t with
       | None => (Err TableFull, t)
       | Some slot => (Ok slot, <[slot := Some entry]> t)
       end.

Definition get (t : PageSetTable) (id : Z) : result PageSetEntry PageSetError :=
  if MAX_PAGESETS <=? id then Err InvalidId
  else match mjoin (t !! Z.to_nat id) with Some e => Ok e | None => Err SlotEmpty end.

Definition remove (t : PageSetTable) (id : Z) : result PageSetEntry PageSetError * PageSetTable :=
  if MAX_PAGESETS <=? id then (Err InvalidId, t)
  else match mjoin (t !! Z.to_nat id) with
       | Some e => (Ok e, <[Z.to_nat id := None]> t)
       | None => (Err SlotEmpty, t)
       end.

Fixpoint find_by_header_kva (t : PageSetTable) (header_kva : Z) : option nat :=
  match t with
  | [] => None
  | Some e :: t' =>
      if e_header_kva e =? header_kva then Some 0%nat else S <$> find_by_header_kva t' header_kva
  | None :: t' => S <$> find_by_header_kva t' header_kva
  end.

Lemma first_none_spec t :
  match first_none t with
  | Some i => t !! i = Some None /\ forall j, (j < i)%nat -> exists e, t !! j = Some (Some e)
  | None => forall j, (j < length t)%nat -> exists e, t !! j = Some (Some e)
  end.
Proof.
  induction t as [|[e|] t IH]; simpl.
  - intros j Hj. lia.
  - destruct (first_none t) as [i|]; simpl.
    + destruct IH as [H1 H2]. split; [done|]. intros [|j] Hj; simpl; [by eexists|]. apply H2. lia.
    + intros [|j] Hj; simpl; [by eexists|]. apply IH. lia.
  - split; [done|]. intros j Hj. lia.
Qed.

(** The reverse lookup finds the first entry with the header address. *)
Lemma find_spec t kva :
  match find_by_header_kva t kva with
  | Some i => exists e, t !! i = Some (Some e) /\ e_header_kva e = kva
  | None => forall i e, t !! i = Some (Some e) -> e_header_kva e <> kva
  end.
Proof.
  induction t as [|[e|] t IH]; simpl.
  - done.
  - destruct (Z.eqb_spec (e_header_kva e) kva) as [E|E]; [by exists e|].
    destruct (find_by_header_kva t kva) as [i|]; simpl; [done|].
    intros [|i] e' H; simpl in H; [by simplify_eq|by eapply IH].
  - destruct (find_by_header_kva t kva) as [i|]; simpl; [done|].
    intros [|i] e' H; simpl in H; [done|by eapply IH].
Qed.

Lemma find_unique t kva i e :
  t !! i = Some (Some e) -> e_header_kva e = kva ->
  (forall j e', t !! j = Some (Some e') -> e_header_kva e' = kva -> j = i) ->
  find_by_header_kva t kva = Some i.
Proof.
  intros H E U. pose proof (find_spec t kva) as S.
  destruct (find_by_header_kva t kva) as [j|].
  - destruct S as (e' & H' & E'). by rewrite (U j e').
  - exfalso. by eapply S.
Qed.

End Tbl.
