(* ===== verification/Ownership.v ===== *)
(** Ownership of a bitmap's set bits by numbered slots: every set bit below a
    bound belongs to exactly one slot or to a distinguished set [G]. Shared by
    the buddy pages and the DMA pages of the kernel's PageSets. *)
From stdpp Require Import base option list gmap numbers sets fin_sets.
From Stdlib Require Import ZArith Lia.
From S2P Require Import Prelude.
Open Scope Z_scope.

(** [own i] lists what slot [i] owns. *)
Record Partition (N : Z) (bits : Z -> bool) (G : gset Z) (own : nat -> list Z) : Prop := {
  pt_own : forall i j x, own i !! j = Some x -> 0 <= x < N /\ bits x = true /\ x ∉ G;
  pt_inj : forall i j i' j' x, own i !! j = Some x -> own i' !! j' = Some x -> i = i' /\ j = j';
  pt_all : forall x, 0 <= x < N -> bits x = true -> x ∈ G \/ exists i j, own i !! j = Some x;
  pt_G : forall x, x ∈ G -> 0 <= x < N /\ bits x = true;
}.

(** [own] with slot [i] owning [l]. *)
Definition set_own (own : nat -> list Z) (i : nat) (l : list Z) (k : nat) : list Z :=
  if decide (k = i) then l else own k.

Lemma set_own_eq own i l : set_own own i l i = l.
Proof. unfold set_own. by rewrite decide_True. Qed.

Lemma set_own_ne own i l k : k <> i -> set_own own i l k = own k.
Proof. intros H. unfold set_own. by rewrite decide_False. Qed.

Lemma set_own_twice own i l l' k : set_own (set_own own i l) i l' k = set_own own i l' k.
Proof. unfold set_own. by case_decide. Qed.

Section Partition.
Context (N : Z).

Lemma pt_ext bits bits' G own own' :
  (forall x, 0 <= x < N -> bits x = bits' x) -> (forall i, own i = own' i) ->
  Partition N bits G own -> Partition N bits' G own'.
Proof.
  intros Hb Ho [P1 P2 P3 P4]. constructor.
  - intros i j x. rewrite <- Ho. intros H. destruct (P1 _ _ _ H) as (? & ? & ?). by rewrite <- Hb.
  - intros i j i' j' x. rewrite <- !Ho. apply P2.
  - intros x Hx. rewrite <- Hb by done. intros H. destruct (P3 x Hx H) as [|(i & j & E)]; [by left|].
    right. exists i, j. by rewrite <- Ho.
  - intros x H. destruct (P4 x H). by rewrite <- Hb.
Qed.

(** New bits join [G]. *)
Lemma pt_take bits bits' G own (X : gset Z) :
  Partition N bits G own ->
  (forall x, x ∈ X -> 0 <= x < N /\ bits x = false) ->
  (forall x, 0 <= x < N -> bits' x = true <-> bits x = true \/ x ∈ X) ->
  Partition N bits' (G ∪ X) own.
Proof.
  intros [P1 P2 P3 P4] HX Hb. constructor; [|done| |].
  - intros i j x H. destruct (P1 i j x H) as (Hx & Ht & Hg). split_and!; try lia.
    + apply Hb; auto.
    + intros [?|HxX]%elem_of_union; [done|]. destruct (HX x HxX). congruence.
  - intros x Hx Ht. apply Hb in Ht as [Ht|Ht]; [|set_solver|done].
    destruct (P3 x Hx Ht); [set_solver|by right].
  - intros x [Hg|Hg]%elem_of_union.
    + destruct (P4 x Hg). split; [done|]. apply Hb; auto.
    + destruct (HX x Hg). split; [done|]. apply Hb; auto.
Qed.

(** Bits of [G] are cleared. *)
Lemma pt_give bits bits' G own (X : gset Z) :
  Partition N bits G own -> X ⊆ G ->
  (forall x, 0 <= x < N -> bits' x = true <-> bits x = true /\ x ∉ X) ->
  Partition N bits' (G ∖ X) own.
Proof.
  intros [P1 P2 P3 P4] HX Hb. constructor; [|done| |].
  - intros i j x H. destruct (P1 i j x H) as (Hx & Ht & Hg). split_and!; try lia; [|set_solver].
    apply Hb; [done|]. set_solver.
  - intros x Hx Ht. apply Hb in Ht as [Ht Hn]; [|done].
    destruct (P3 x Hx Ht); [left; set_solver|by right].
  - intros x [Hg Hn]%elem_of_difference. destruct (P4 x Hg). split; [done|]. by apply Hb.
Qed.

(** A slot that owns nothing receives part of [G]. *)
Lemma pt_commit bits G own i (L : list Z) :
  Partition N bits G own -> own i = [] -> NoDup L -> list_to_set L ⊆ G ->
  Partition N bits (G ∖ list_to_set L) (set_own own i L).
Proof.
  intros [P1 P2 P3 P4] Hi Hnd HL.
  assert (forall x, x ∈ L -> x ∈ G) as HLG.
  { intros x Hx. apply HL. by apply elem_of_list_to_set. }
  constructor.
  - intros k j x H. unfold set_own in H. case_decide.
    + apply list_elem_of_lookup_2 in H. destruct (P4 x (HLG x H)). split_and!; try lia; [done|].
      intros [_ Hn]%elem_of_difference. apply Hn. by apply elem_of_list_to_set.
    + destruct (P1 k j x H) as (? & ? & ?). split_and!; try lia; [done|set_solver].
  - intros k j k' j' x H H'. unfold set_own in *. do 2 case_decide; subst.
    + split; [done|]. by eapply NoDup_lookup.
    + exfalso. apply list_elem_of_lookup_2 in H'. destruct (P1 _ _ _ H) as (_ & _ & Hn). auto.
    + exfalso. apply list_elem_of_lookup_2 in H. destruct (P1 _ _ _ H') as (_ & _ & Hn). auto.
    + by eapply P2.
  - intros x Hx Ht. destruct (decide (x ∈ L)) as [HxL|HxL].
    + right. apply list_elem_of_lookup in HxL as [j Hj]. exists i, j. by rewrite set_own_eq.
    + destruct (P3 x Hx Ht) as [Hg|(k & j & Hk)].
      * left. apply elem_of_difference. split; [done|]. by rewrite elem_of_list_to_set.
      * right. exists k, j. rewrite set_own_ne; [done|]. intros ->. by rewrite Hi in Hk.
  - intros x [Hg _]%elem_of_difference. by apply P4.
Qed.

(** What a slot owns is moved to [G]. *)
Lemma pt_detach bits G own i :
  Partition N bits G own -> Partition N bits (G ∪ list_to_set (own i)) (set_own own i []).
Proof.
  intros [P1 P2 P3 P4].
  assert (forall x, x ∈ own i -> 0 <= x < N /\ bits x = true) as Hown.
  { intros x Hx. apply list_elem_of_lookup in Hx as [j Hj]. destruct (P1 i j x Hj) as (? & ? & _). done. }
  constructor.
  - intros k j x H. unfold set_own in H. case_decide; [done|].
    destruct (P1 k j x H) as (? & ? & ?). split_and!; try lia; [done|].
    rewrite elem_of_union, elem_of_list_to_set. intros [|Hx]; [done|].
    apply list_elem_of_lookup in Hx as [j' Hj']. by destruct (P2 k j i j' x).
  - intros k j k' j' x H H'. unfold set_own in *. do 2 case_decide; try done. by eapply P2.
  - intros x Hx Ht. destruct (P3 x Hx Ht) as [|(k & j & Hk)]; [left; set_solver|].
    destruct (decide (k = i)) as [->|Hne].
    + left. apply elem_of_union_r, elem_of_list_to_set. by eapply list_elem_of_lookup_2.
    + right. exists k, j. by rewrite set_own_ne.
  - intros x [Hg|Hg]%elem_of_union; [by apply P4|]. apply Hown. by apply elem_of_list_to_set in Hg.
Qed.

Lemma pt_nodup bits G own i : Partition N bits G own -> NoDup (own i).
Proof. intros P. apply NoDup_alt. intros j j' x H H'. by destruct (pt_inj _ _ _ _ P i j i j' x H H'). Qed.

Lemma pt_not_G bits G own i x : Partition N bits G own -> x ∈ own i -> x ∉ G.
Proof.
  intros P Hx. apply list_elem_of_lookup in Hx as [j Hj]. by apply (pt_own _ _ _ _ P i j).
Qed.

Lemma pt_in_range bits G own i x : Partition N bits G own -> x ∈ own i -> 0 <= x < N /\ bits x = true.
Proof.
  intros P Hx. apply list_elem_of_lookup in Hx as [j Hj].
  by destruct (pt_own _ _ _ _ P i j x Hj) as (? & ? & _).
Qed.
End Partition.
