(* ===== verification/Frames.v ===== *)
(** What the kernel's page-table code asks of the frame allocator
    (src/mm/page_alloc.rs): the operations it calls and the laws its proofs
    use. The allocator model discharges the laws in KPageSet. *)
From Stdlib Require Import ZArith Lia.
From stdpp Require Import base option list gmap sets fin_sets.
From S2P Require Import Prelude.
Open Scope Z_scope.

(** [alloc_page] and [dealloc_page] over page numbers ([PhysPage]). *)
Class FrameOps (M : Type) := {
  fr_alloc_page : M -> outcome (option Z * M);
  fr_dealloc_page : M -> Z -> outcome M;
}.

(** [Held H s]: in [s] the kernel holds exactly the frames [H] outside
    PageSets. Allocation hands out a frame nobody holds, below [2^36] (48-bit
    physical addresses); a held frame can be given back. *)
Class FrameLaws (M : Type) `{FrameOps M} (Held : gset Z -> M -> Prop) : Prop := {
  fr_alloc_law : forall H s, Held H s ->
    exists r s', fr_alloc_page s = Ret (r, s') /\
      match r with
      | Some p => ~ (p ∈ H) /\ 0 <= p < 2 ^ 36 /\ Held (H ∪ {[p]}) s'
      | None => s' = s
      end;
  fr_dealloc_law : forall H s p, Held H s -> p ∈ H ->
    exists s', fr_dealloc_page s p = Ret s' /\ Held (H ∖ {[p]}) s';
}.

(** [for p in l { dealloc_page(p) }] *)
Fixpoint dealloc_all {M} `{FrameOps M} (l : list Z) (s : M) : outcome M :=
  match l with
  | [] => Ret s
  | p :: l' => s' ← fr_dealloc_page s p; dealloc_all l' s'
  end.

Lemma dealloc_all_spec {M} `{FrameLaws M Held} l : forall H s,
  Held (H ∪ list_to_set l) s -> NoDup l -> (forall p, p ∈ l -> ~ (p ∈ H)) ->
  exists s', dealloc_all l s = Ret s' /\ Held H s'.
Proof.
  induction l as [|p l IH]; intros H' s Hh Hnd Hd; cbn [dealloc_all list_to_set] in *.
  - exists s. split; [done|]. by rewrite union_empty_r_L in Hh.
  - apply NoDup_cons in Hnd as [Hp Hnd].
    destruct (fr_dealloc_law _ s p Hh) as (s' & -> & Hh'); [set_solver|]. rewrite bind_Ret.
    apply (IH H' s'); [|done|set_solver].
    replace (H' ∪ list_to_set l) with ((H' ∪ ({[p]} ∪ list_to_set l)) ∖ {[p]}); [done|].
    assert (~ (p ∈ H')) by (apply Hd; set_solver). apply set_eq. intros x.
    rewrite elem_of_difference, !elem_of_union, elem_of_singleton, elem_of_list_to_set. split.
    + intros [[?|[?|?]] Hx]; [by left|done|by right].
    + intros [Hx|Hx]; (split; [tauto|]); intros ->; contradiction.
Qed.
