(* ===== verification/KPageSet.v ===== *)
(** The kernel's PageSets (src/cap/pageset_table.rs) over the frame
    allocator, the DMA pool (src/cap/dma_pool.rs) and the header pool
    (src/cap/pageset_header_pool.rs): allocation, registration, release, and
    the ownership of every page and header slot. *)
From Stdlib Require Import ZArith Lia.
From stdpp Require Import base option list gmap numbers sets fin_sets.
From S2P Require Import Prelude Buddy BuddyInv Pools FrameAlloc PageSet Ownership Frames.
Open Scope Z_scope.

(** What boot fixes: the RAM window, the header pool's base address and the
    DMA pool's base ([0] when the carve-out was skipped). *)
Record Config := mkConfig {
  plat : Platform;
  pool_base : Z;
  dma_base : Z;
}.

(** [headers] is the header pool's memory by slot address; [zeroed] the data
    pages (by address) last written by [zero_page]. *)
Record KMem := mkKMem {
  buddy : BuddyAllocator;
  dma : Dma.DmaPool;
  hpool : HeaderPool.PageSetHeaderPoolState;
  headers : gmap Z PageSetHeader;
  table : PageSetTable;
  zeroed : gset Z;
}.

Definition with_buddy (s : KMem) (b : BuddyAllocator) : KMem :=
  mkKMem b (dma s) (hpool s) (headers s) (table s) (zeroed s).
Definition with_dma (s : KMem) (d : Dma.DmaPool) : KMem :=
  mkKMem (buddy s) d (hpool s) (headers s) (table s) (zeroed s).
Definition with_table (s : KMem) (t : PageSetTable) : KMem :=
  mkKMem (buddy s) (dma s) (hpool s) (headers s) t (zeroed s).
Definition with_header (s : KMem) (kva : Z) (h : PageSetHeader) : KMem :=
  mkKMem (buddy s) (dma s) (hpool s) (<[kva := h]> (headers s)) (table s) (zeroed s).

Inductive AllocError :=
  | EInvalidCount
  | EHeaderPoolExhausted
  | EPageSetTableFull
  | EBuddyExhausted
  | EDmaPoolExhausted.

Section KPageSet.
Context (cfg : Config).

(** ** The header pool adapter *)

Definition SLOT_STRIDE : Z := MAX_HEADER_PAGES_PER_PAGESET * PAGE_SIZE.

Definition slot_kva (slot_idx : Z) : Z := pool_base cfg + slot_idx * SLOT_STRIDE.

Definition kva_to_slot (kva : Z) : outcome Z :=
  offset ← unwrap (if pool_base cfg <=? kva then Some (kva - pool_base cfg) else None);
  _ ← assert (offset mod SLOT_STRIDE =? 0);
  let slot := offset / SLOT_STRIDE in
  _ ← assert (slot <? MAX_PAGESETS);
  Ret slot.

Definition hp_claim (s : KMem) (header_pages : Z) : outcome (option Z * KMem) :=
  r ← HeaderPool.claim (hpool s) header_pages;
  match r with
  | (Some slot, hp) =>
      let kva := slot_kva slot in
      Ret (Some kva, mkKMem (buddy s) (dma s) hp (<[kva := zero_header]> (headers s)) (table s) (zeroed s))
  | (None, hp) => Ret (None, mkKMem (buddy s) (dma s) hp (headers s) (table s) (zeroed s))
  end.

Definition hp_release (s : KMem) (kva : Z) : outcome KMem :=
  slot ← kva_to_slot kva;
  r ← HeaderPool.release (hpool s) slot;
  Ret (mkKMem (buddy s) (dma s) r.2 (headers s) (table s) (zeroed s)).

Definition read_header (s : KMem) (kva : Z) : PageSetHeader := default zero_header (headers s !! kva).

(** ** The DMA pool adapter *)

Definition dma_alloc_pages (s : KMem) (cnt : Z) : outcome (result Z Dma.DmaPoolError * KMem) :=
  if dma_base cfg =? 0 then Ret (Err Dma.Exhausted, s)
  else
    r ← Dma.alloc (dma s) cnt;
    match r with
    | (Ok idx, d) => Ret (Ok (dma_base cfg + idx * PAGE_SIZE), with_dma s d)
    | (Err e, d) => Ret (Err e, with_dma s d)
    end.

Definition dma_free_pages (s : KMem) (first_phys cnt : Z) : outcome KMem :=
  _ ← assert (negb (dma_base cfg =? 0));
  offset ← unwrap (if dma_base cfg <=? first_phys then Some (first_phys - dma_base cfg) else None);
  _ ← assert (Z.land offset (PAGE_SIZE - 1) =? 0);
  let idx := offset / PAGE_SIZE in
  d ← Dma.free (dma s) idx cnt;
  Ret (with_dma s d).

(** ** Frames *)

Definition k_alloc_page (s : KMem) : outcome (option Z * KMem) :=
  r ← alloc_page (plat cfg) (buddy s);
  Ret (r.1, with_buddy s r.2).

Definition k_alloc_contiguous (s : KMem) (cnt : Z) : outcome (option Z * KMem) :=
  r ← alloc_pages_contiguous (plat cfg) (buddy s) cnt;
  Ret (r.1, with_buddy s r.2).

Definition k_dealloc_page (s : KMem) (page : Z) : outcome KMem :=
  b ← dealloc_page (plat cfg) (buddy s) page;
  Ret (with_buddy s b).

Definition k_dealloc_contiguous (s : KMem) (first_page cnt : Z) : outcome KMem :=
  b ← dealloc_pages_contiguous (plat cfg) (buddy s) first_page cnt;
  Ret (with_buddy s b).

Definition zero_page (s : KMem) (paddr : Z) : KMem :=
  mkKMem (buddy s) (dma s) (hpool s) (headers s) (table s) ({[ paddr ]} ∪ zeroed s).

(** ** The table *)

Definition insert_into_table (s : KMem) (cnt kva : Z) (o : PageSetOrigin) : option nat * KMem :=
  match Tbl.insert (table s) (mkEntry cnt kva o) with
  | (Ok id, t) => (Some id, with_table s t)
  | (Err _, t) => (None, with_table s t)
  end.

Definition alloc_and_insert_header (s : KMem) (page_addrs : list Z) (cnt : Z) (o : PageSetOrigin)
  : outcome (result nat AllocError * KMem) :=
  r ← hp_claim s (header_pages_for cnt);
  match r with
  | (None, s1) => Ret (Err EHeaderPoolExhausted, s1)
  | (Some kva, s1) =>
      b ← Hdr.init (Hdr.backed (read_header s1 kva) cnt) page_addrs o;
      let s2 := with_header s1 kva (Hdr.bk_header b) in
      match Tbl.insert (table s2) (mkEntry cnt kva o) with
      | (Ok id, t) => Ret (Ok id, with_table s2 t)
      | (Err _, t) => s3 ← hp_release (with_table s2 t) kva; Ret (Err EPageSetTableFull, s3)
      end
  end.

(** ** Allocation from the buddy allocator, page by page *)

(** The rollback: give back the pages written so far. *)
Definition rollback_page (b : Hdr.BackedHeader) (j : Z) (s : KMem) : outcome KMem :=
  o ← Hdr.get_page b j;
  paddr ← unwrap o;
  k_dealloc_page s (containing_page paddr).

Fixpoint alloc_data (s : KMem) (b : Hdr.BackedHeader) (n : nat) (i : Z)
  : outcome (bool * KMem * Hdr.BackedHeader) :=
  match n with
  | O => Ret (true, s, b)
  | S n' =>
      r ← k_alloc_page s;
      match r with
      | (Some page, s1) =>
          let s2 := zero_page s1 (start_addr page) in
          b' ← Hdr.set_page b i (start_addr page);
          alloc_data s2 b' n' (i + 1)
      | (None, s1) =>
          s2 ← for_range 0 (Z.to_nat i) (rollback_page b) s1;
          Ret (false, s2, b)
      end
  end.

Definition alloc_pages (s : KMem) (cnt : Z) : outcome (result nat AllocError * KMem) :=
  if (cnt =? 0) || (MAX_PRACTICAL_PAGES_PER_SET <? cnt) then Ret (Err EInvalidCount, s)
  else
    r ← hp_claim s (header_pages_for cnt);
    match r with
    | (None, s1) => Ret (Err EHeaderPoolExhausted, s1)
    | (Some kva, s1) =>
        b0 ← Hdr.set_count (Hdr.backed (read_header s1 kva) cnt) cnt Buddy;
        d ← alloc_data s1 b0 (Z.to_nat cnt) 0;
        let '(ok, s2, b1) := d in
        let s3 := with_header s2 kva (Hdr.bk_header b1) in
        if ok : bool then
          match insert_into_table s3 cnt kva Buddy with
          | (Some id, s4) => Ret (Ok id, s4)
          | (None, s4) => s5 ← hp_release s4 kva; Ret (Err EPageSetTableFull, s5)
          end
        else
          s4 ← hp_release s3 kva;
          Ret (Err EBuddyExhausted, s4)
    end.

(** ** Physically contiguous allocation *)

Definition write_run (base : Z) (i : Z) (st : KMem * Hdr.BackedHeader)
  : outcome (KMem * Hdr.BackedHeader) :=
  let '(s, b) := st in
  let paddr := base + i * PAGE_SIZE in
  let s1 := zero_page s paddr in
  b' ← Hdr.set_page b i paddr;
  Ret (s1, b').

Definition alloc_pages_contiguous (s : KMem) (cnt : Z) : outcome (result nat AllocError * KMem) :=
  if (cnt =? 0) || (MAX_PRACTICAL_PAGES_PER_SET <? cnt) then Ret (Err EInvalidCount, s)
  else
    order ← order_for_count cnt;
    let actual_count := Z.shiftl 1 order in
    if MAX_PRACTICAL_PAGES_PER_SET <? actual_count then Ret (Err EInvalidCount, s)
    else
      r ← hp_claim s (header_pages_for actual_count);
      match r with
      | (None, s1) => Ret (Err EHeaderPoolExhausted, s1)
      | (Some kva, s1) =>
          p ← k_alloc_contiguous s1 cnt;
          match p with
          | (None, s2) => s3 ← hp_release s2 kva; Ret (Err EBuddyExhausted, s3)
          | (Some first_data, s2) =>
              b0 ← Hdr.set_count (Hdr.backed (read_header s2 kva) actual_count) actual_count Buddy;
              st ← for_range 0 (Z.to_nat actual_count) (write_run (start_addr first_data)) (s2, b0);
              let s3 := with_header st.1 kva (Hdr.bk_header st.2) in
              match insert_into_table s3 actual_count kva Buddy with
              | (Some id, s4) => Ret (Ok id, s4)
              | (None, s4) =>
                  s5 ← k_dealloc_contiguous s4 first_data cnt;
                  s6 ← hp_release s5 kva;
                  Ret (Err EPageSetTableFull, s6)
              end
          end
      end.

(** ** Allocation from the DMA pool *)

Definition alloc_dma_pages (s : KMem) (cnt : Z) : outcome (result nat AllocError * KMem) :=
  if (cnt =? 0) || (MAX_PRACTICAL_PAGES_PER_SET <? cnt) then Ret (Err EInvalidCount, s)
  else
    r ← hp_claim s (header_pages_for cnt);
    match r with
    | (None, s1) => Ret (Err EHeaderPoolExhausted, s1)
    | (Some kva, s1) =>
        p ← dma_alloc_pages s1 cnt;
        match p with
        | (Err Dma.InvalidCount, s2) => s3 ← hp_release s2 kva; Ret (Err EInvalidCount, s3)
        | (Err Dma.Exhausted, s2) => s3 ← hp_release s2 kva; Ret (Err EDmaPoolExhausted, s3)
        | (Ok first_data, s2) =>
            b0 ← Hdr.set_count (Hdr.backed (read_header s2 kva) cnt) cnt DmaPool;
            b1 ← for_range 0 (Z.to_nat cnt)
                   (fun i b => Hdr.set_page b i (first_data + i * PAGE_SIZE)) b0;
            let s3 := with_header s2 kva (Hdr.bk_header b1) in
            match insert_into_table s3 cnt kva DmaPool with
            | (Some id, s4) => Ret (Ok id, s4)
            | (None, s4) =>
                s5 ← dma_free_pages s4 first_data cnt;
                s6 ← hp_release s5 kva;
                Ret (Err EPageSetTableFull, s6)
            end
        end
    end.

(** ** Registration of pages the kernel does not own *)

Definition MAX_REGISTER_EXISTING_PAGES : Z := 64.

Definition register_existing (s : KMem) (cnt : Z) (pages : list Z)
  : outcome (result nat AllocError * KMem) :=
  if (cnt =? 0) || (MAX_REGISTER_EXISTING_PAGES <? cnt) || (Z.of_nat (length pages) <? cnt)
  then Ret (Err EInvalidCount, s)
  else alloc_and_insert_header s (start_addr <$> take (Z.to_nat cnt) pages) cnt ExternallyOwned.

Definition register_device_page (s : KMem) (phys_addr : Z) : outcome (result nat AllocError * KMem) :=
  alloc_and_insert_header s [phys_addr] 1 ExternallyOwned.

(** ** Release *)

Definition consume_by_header_kva (s : KMem) (kva : Z) : bool * KMem :=
  match Tbl.find_by_header_kva (table s) kva with
  | Some id =>
      match Tbl.remove (table s) (Z.of_nat id) with
      | (Ok _, t) => (true, with_table s t)
      | (Err _, t) => (false, with_table s t)
      end
  | None => (false, s)
  end.

Definition free_header_page (s : KMem) (kva : Z) : outcome KMem :=
  hp_release (consume_by_header_kva s kva).2 kva.

(** The trusted count of a registered header. *)
Definition trusted_layout (s : KMem) (kva : Z) : option (Z * Z) :=
  id ← Tbl.find_by_header_kva (table s) kva;
  match Tbl.get (table s) (Z.of_nat id) with
  | Ok e => Some (e_count e, header_pages_for (e_count e))
  | Err _ => None
  end.

Definition read_header_backed (s : KMem) (kva : Z) : outcome Hdr.BackedHeader :=
  l ← unwrap (trusted_layout s kva);
  Ret (Hdr.backed (read_header s kva) l.1).

Definition free_data_page (b : Hdr.BackedHeader) (i : Z) (s : KMem) : outcome KMem :=
  o ← Hdr.get_page b i;
  match o with
  | Some paddr => k_dealloc_page s (containing_page paddr)
  | None => Ret s
  end.

Definition free_by_header_kva (s : KMem) (kva : Z) : outcome KMem :=
  l ← unwrap (trusted_layout s kva);
  let cnt := l.1 in
  b ← read_header_backed s kva;
  o ← unwrap (Hdr.origin (Hdr.bk_header b));
  s1 ← match o with
       | Buddy => for_range 0 (Z.to_nat cnt) (free_data_page b) s
       | DmaPool =>
           if 0 <? cnt then
             p ← Hdr.get_page b 0;
             match p with
             | Some first => dma_free_pages s first cnt
             | None => Ret s
             end
           else Ret s
       | ExternallyOwned => Ret s
       end;
  hp_release (consume_by_header_kva s1 kva).2 kva.

Definition dec_refcount_and_maybe_free (s : KMem) (kva : Z) : outcome KMem :=
  r ← Hdr.dec_refcount (read_header s kva);
  let s1 := with_header s kva r.2 in
  if r.1 : bool then free_by_header_kva s1 kva else Ret s1.

Definition dec_both_and_maybe_free (s : KMem) (kva : Z) : outcome KMem :=
  r ← Hdr.dec_map_count (read_header s kva);
  dec_refcount_and_maybe_free (with_header s kva r.2) kva.

Definition get_pageset (s : KMem) (id : Z) : option (Z * Z) :=
  match Tbl.get (table s) id with
  | Ok e => Some (e_count e, e_header_kva e)
  | Err _ => None
  end.

(** * Invariant *)

(** The address of buddy page [idx] and of DMA pool page [k]. *)
Definition addr_of (idx : Z) : Z := ram_base (plat cfg) + idx * PAGE_SIZE.
Definition daddr_of (k : Z) : Z := dma_base cfg + k * PAGE_SIZE.

(** The first [n] page addresses of a header. *)
Definition pages (h : PageSetHeader) (n : Z) : list Z := arr_peek (h_pages h) <$> seqZ 0 n.

(** The header of a registered PageSet lists the buddy pages [lb] or the
    contiguous DMA pages [ld], by its origin. *)
Definition entry_ok (h : PageSetHeader) (e : PageSetEntry) (lb ld : list Z) : Prop :=
  Hdr.origin h = Some (e_origin e) /\
  match e_origin e with
  | Buddy => pages h (e_count e) = addr_of <$> lb /\ ld = []
  | DmaPool => lb = [] /\ dma_base cfg <> 0 /\
      (exists k, ld = seqZ k (e_count e)) /\ pages h (e_count e) = daddr_of <$> ld
  | ExternallyOwned => lb = [] /\ ld = []
  end.

(** Table slot [i] and what it owns. The slot [R] is in transit and owns
    nothing. *)
Definition slot_ok (s : KMem) (R : option nat) (i : nat) (lb ld : list Z) : Prop :=
  match mjoin (table s !! i) with
  | Some e =>
      if decide (R = Some i) then lb = [] /\ ld = []
      else entry_ok (read_header s (slot_kva (Z.of_nat i))) e lb ld
  | None => lb = [] /\ ld = []
  end.

(** [G] and [D] are the buddy pages and DMA pages held outside PageSets. *)
Record inv (G D : gset Z) (R : option nat) (oB oD : nat -> list Z) (s : KMem) : Prop := {
  iv_wf : WF (buddy s);
  iv_total : Buddy.total_pages (buddy s) = total_pages (plat cfg);
  iv_dma : Dma.WF (dma s);
  iv_hpool : HeaderPool.WF (hpool s);
  iv_len : length (table s) = Z.to_nat MAX_PAGESETS;
  iv_slots : forall i, (i < Z.to_nat MAX_PAGESETS)%nat ->
    HeaderPool.used (hpool s) (Z.of_nat i) = true <-> is_Some (mjoin (table s !! i)) \/ R = Some i;
  iv_R : forall i, R = Some i -> (i < Z.to_nat MAX_PAGESETS)%nat;
  iv_entry : forall i e, table s !! i = Some (Some e) ->
    e_header_kva e = slot_kva (Z.of_nat i) /\ 0 < e_count e <= MAX_PRACTICAL_PAGES_PER_SET;
  iv_pages : forall i, slot_ok s R i (oB i) (oD i);
  iv_B : Partition (total_pages (plat cfg)) (abit (buddy s)) G oB;
  iv_D : Partition Dma.DMA_POOL_PAGES (Dma.used (dma s)) D oD;
}.

(** What boot establishes. *)
Record config_ok : Prop := {
  ck_plat : platform_ok (plat cfg);
  ck_dma : 0 <= dma_base cfg /\ dma_base cfg mod PAGE_SIZE = 0;
}.

Context (Hcfg : config_ok).

Lemma SLOT_STRIDE_pos : 0 < SLOT_STRIDE.
Proof. reflexivity. Qed.

Lemma slot_kva_inj i j : slot_kva i = slot_kva j -> i = j.
Proof. unfold slot_kva. pose proof SLOT_STRIDE_pos. intros E. nia. Qed.

Lemma kva_to_slot_spec i : 0 <= i < MAX_PAGESETS -> kva_to_slot (slot_kva i) = Ret i.
Proof.
  intros Hi. unfold kva_to_slot, slot_kva. pose proof SLOT_STRIDE_pos.
  rewrite (proj2 (Z.leb_le _ _)) by nia. cbn [unwrap]. rewrite bind_Ret.
  replace (pool_base cfg + i * SLOT_STRIDE - pool_base cfg) with (i * SLOT_STRIDE) by lia.
  rewrite Z.mod_mul, Z.div_mul by lia. cbn [assert Z.eqb]. rewrite bind_Ret.
  rewrite (proj2 (Z.ltb_lt i MAX_PAGESETS)) by lia. done.
Qed.

(** ** Changes that keep the invariant *)

Lemma inv_with_buddy G G' D R oB oD s b :
  inv G D R oB oD s -> WF b -> Buddy.total_pages b = total_pages (plat cfg) ->
  Partition (total_pages (plat cfg)) (abit b) G' oB -> inv G' D R oB oD (with_buddy s b).
Proof. intros I W T P. by destruct I; constructor. Qed.

Lemma inv_with_dma G D D' R oB oD s d :
  inv G D R oB oD s -> Dma.WF d -> Partition Dma.DMA_POOL_PAGES (Dma.used d) D' oD ->
  inv G D' R oB oD (with_dma s d).
Proof. intros I W P. by destruct I; constructor. Qed.

Lemma inv_zero_page G D R oB oD s a : inv G D R oB oD s -> inv G D R oB oD (zero_page s a).
Proof. intros I. by destruct I; constructor. Qed.

Lemma read_header_with s kva h kva' :
  read_header (with_header s kva h) kva' = if decide (kva = kva') then h else read_header s kva'.
Proof. unfold read_header, with_header. simpl. rewrite lookup_insert. by case_decide. Qed.

(** The header of the slot in transit may be written freely. *)
Lemma inv_with_header G D i oB oD s h :
  inv G D (Some i) oB oD s -> inv G D (Some i) oB oD (with_header s (slot_kva (Z.of_nat i)) h).
Proof.
  intros I. destruct I as [? ? ? ? ? ? ? ? Hp ? ?]. constructor; try done.
  intros k. specialize (Hp k). unfold slot_ok in *. cbn [table with_header] in *.
  destruct (mjoin (table s !! k)) as [e|]; [|done]. case_decide as E; [done|].
  rewrite read_header_with, decide_False; [done|].
  intros Heq%slot_kva_inj. apply E. f_equal. lia.
Qed.

(** Buddy pages join and leave [G]. *)
Lemma in_range_one idx q : in_range idx 1 q = true <-> q = idx.
Proof. rewrite in_range_spec. lia. Qed.

Lemma k_alloc_page_spec G D R oB oD s :
  inv G D R oB oD s ->
  exists r s', k_alloc_page s = Ret (r, s') /\
  match r with
  | Some page => exists idx, phys_page_of (plat cfg) idx page /\ ~ (idx ∈ G) /\
      (forall i, idx ∉ oB i) /\ page_free (buddy s) idx = true /\
      inv (G ∪ {[idx]}) D R oB oD s' /\ s' = with_buddy s (buddy s') /\
      free_count (buddy s') = free_count (buddy s) - 1 /\
      (forall q, 0 <= q < MAX_PAGES -> page_free (buddy s') q = page_free (buddy s) q && negb (in_range idx 1 q))
  | None => s' = s /\ free_count (buddy s) = 0
  end.
Proof.
  intros I. pose proof (iv_wf _ _ _ _ _ _ I) as W. pose proof (iv_total _ _ _ _ _ _ I) as T.
  pose proof (ck_plat Hcfg) as P. pose proof (pk_pages _ P) as Hmax.
  unfold k_alloc_page. destruct (alloc_page_spec (plat cfg) (buddy s) P W T) as (r & b' & -> & Hr).
  rewrite bind_Ret. simpl. do 2 eexists. split; [done|]. destruct r as [page|].
  - destruct Hr as (idx & Hpp & Hf & [W' T' F' A']). pose proof Hpp as (_ & _ & Hi).
    assert (abit (buddy s) idx = false) as Hab by (apply (wf_unalloc _ W); [lia|done]).
    pose proof (iv_B _ _ _ _ _ _ I) as PB. exists idx. split_and!; try done.
    + intros Hg. destruct (pt_G _ _ _ _ PB idx Hg). congruence.
    + intros i Hi'. destruct (pt_in_range _ _ _ _ _ _ PB Hi'). congruence.
    + apply (inv_with_buddy G); try done. eapply pt_take; [exact PB| |].
      * intros x ->%elem_of_singleton. done.
      * intros x Hx. rewrite A', orb_true_iff, in_range_one, elem_of_singleton. done.
    + simpl. rewrite (wf_count _ W'), (wf_count _ W), T', T.
      rewrite (count_add_range (page_free b') (page_free (buddy s)) idx 1); [lia|lia|lia|lia| |].
      * intros q Hq Hr. rewrite F' by lia. zbool.
      * intros q Hq. rewrite F' by lia. destruct (page_free (buddy s) q) eqn:E; [zbool|].
        destruct (in_range idx 1 q) eqn:Er; [|done]. apply in_range_one in Er as ->. congruence.
  - destruct Hr as [-> Hr]. split; [by destruct s|]. rewrite (wf_count _ W), T.
    rewrite (count_ext _ (fun _ => false)); [apply count_none|]. intros q Hq. apply Hr.
    pose proof (pk_size _ P). unfold total_pages in *.
    pose proof (Z.div_pos (ram_size (plat cfg)) PAGE_SIZE). unfold PAGE_SIZE in *. lia.
Qed.

Lemma k_dealloc_page_spec G D R oB oD s idx :
  inv G D R oB oD s -> idx ∈ G ->
  exists s', k_dealloc_page s (containing_page (addr_of idx)) = Ret s' /\
    inv (G ∖ {[idx]}) D R oB oD s' /\ s' = with_buddy s (buddy s') /\
    (forall q, 0 <= q < MAX_PAGES -> page_free (buddy s') q = page_free (buddy s) q || in_range idx 1 q).
Proof.
  intros I Hg. pose proof (iv_wf _ _ _ _ _ _ I) as W. pose proof (iv_total _ _ _ _ _ _ I) as T.
  pose proof (ck_plat Hcfg) as P. pose proof (iv_B _ _ _ _ _ _ I) as PB.
  destruct (pt_G _ _ _ _ PB idx Hg) as [Hi Ha].
  assert (phys_page_of (plat cfg) idx (containing_page (addr_of idx))) as Hpp.
  { change (containing_page (addr_of idx)) with (index_to_page (plat cfg) idx).
    split; [done|]. split; [by apply index_to_page_start|done]. }
  unfold k_dealloc_page.
  destruct (dealloc_page_spec _ _ _ _ P W T Hpp Ha) as (b' & -> & [W' T' F' A']).
  rewrite bind_Ret. eexists. split; [done|]. split_and!; try done.
  apply (inv_with_buddy G); try done. eapply pt_give; [exact PB|set_solver|].
  intros x Hx. rewrite A', andb_true_iff, negb_true_iff.
  rewrite <- not_true_iff_false, in_range_one, elem_of_singleton. done.
Qed.

(** ** Header slots *)

Lemma table_free_slot G D R oB oD s i :
  inv G D R oB oD s -> (i < Z.to_nat MAX_PAGESETS)%nat ->
  HeaderPool.used (hpool s) (Z.of_nat i) = false -> table s !! i = Some None.
Proof.
  intros I Hi Hu. pose proof (iv_slots _ _ _ _ _ _ I i Hi) as Hs.
  destruct (table s !! i) as [[e|]|] eqn:E; [|done|].
  - exfalso. rewrite Hu in Hs. assert (false = true); [|done]. apply Hs. left. by eexists.
  - exfalso. apply lookup_ge_None_1 in E. rewrite (iv_len _ _ _ _ _ _ I) in E. lia.
Qed.

(** The slot a claim takes is the table's first free slot. *)
Lemma hp_claim_spec G D oB oD s cnt :
  inv G D None oB oD s -> 0 < cnt <= MAX_PRACTICAL_PAGES_PER_SET ->
  exists r s', hp_claim s (header_pages_for cnt) = Ret (r, s') /\
  match r with
  | Some kva => exists i, kva = slot_kva (Z.of_nat i) /\ (i < Z.to_nat MAX_PAGESETS)%nat /\
      Tbl.first_none (table s) = Some i /\ inv G D (Some i) oB oD s' /\
      read_header s' kva = zero_header /\
      buddy s' = buddy s /\ dma s' = dma s /\ table s' = table s /\ zeroed s' = zeroed s /\
      (forall k, k <> kva -> read_header s' k = read_header s k)
  | None => s' = s /\ forall i, (i < Z.to_nat MAX_PAGESETS)%nat -> is_Some (mjoin (table s !! i))
  end.
Proof.
  intros I Hc. unfold hp_claim. pose proof (HeaderPool.header_pages_for_bounds cnt Hc) as [Hh _].
  destruct (HeaderPool.claim_spec (hpool s) (header_pages_for cnt) (iv_hpool _ _ _ _ _ _ I))
    as (r & hp & -> & Hp & Hn); [lia|].
  rewrite bind_Ret. destruct r as [slot|]; simpl; do 2 eexists; (split; [done|]).
  - destruct Hp as (Hs & Hf & Hlow & W' & Hu & _). exists (Z.to_nat slot).
    assert (Z.to_nat slot < Z.to_nat MAX_PAGESETS)%nat as Hlt by lia.
    rewrite Z2Nat.id by lia. split; [done|]. split; [done|].
    assert (table s !! Z.to_nat slot = Some None) as Hnone.
    { eapply table_free_slot; [done|done|]. by rewrite Z2Nat.id by lia. }
    assert (forall k h, read_header (mkKMem (buddy s) (dma s) hp (<[slot_kva slot := h]> (headers s)) (table s) (zeroed s)) k
       = if decide (slot_kva slot = k) then h else read_header s k) as Hrd.
    { intros k h. unfold read_header. simpl. rewrite lookup_insert. by case_decide. }
    split_and!; try done.
    + pose proof (Tbl.first_none_spec (table s)) as Hfn.
      destruct (Tbl.first_none (table s)) as [i|].
      * destruct Hfn as [Hi Hlo]. f_equal.
        destruct (Nat.lt_trichotomy i (Z.to_nat slot)) as [L|[->|L]]; [exfalso|done|exfalso].
        -- pose proof (Hlow (Z.of_nat i) ltac:(lia)) as Hui.
           apply (iv_slots _ _ _ _ _ _ I i ltac:(lia)) in Hui as [[e He]|]; [|done].
           by rewrite Hi in He.
        -- destruct (Hlo _ L) as [e He]. by rewrite Hnone in He.
      * exfalso. destruct (Hfn (Z.to_nat slot)) as [e He]; [by rewrite (iv_len _ _ _ _ _ _ I)|].
        by rewrite Hnone in He.
    + pose proof I as [? ? ? ? ? Hsl ? ? Hpg ? ?]. constructor; try done; simpl.
      * intros i Hi. rewrite Hu. case_decide as E.
        -- split; [|done]. intros _. right. f_equal. lia.
        -- rewrite Hsl by done. split; [intros [|]; auto; done|].
           intros [|[= <-]]; [by left|]. exfalso. apply E. by rewrite Z2Nat.id by lia.
      * intros i [= <-]. done.
      * intros i. specialize (Hpg i). unfold slot_ok in *. cbn [table with_header] in *.
        destruct (mjoin (table s !! i)) as [e|] eqn:Em; [|done].
        assert (i <> Z.to_nat slot) as Hne by (intros ->; by rewrite Hnone in Em).
        rewrite decide_False in Hpg by done. rewrite decide_False by congruence.
        rewrite Hrd, decide_False; [done|]. intros Heq%slot_kva_inj. lia.
    + rewrite Hrd. by rewrite decide_True.
    + intros k Hk. rewrite Hrd. by rewrite decide_False.
  - simpl in Hp. subst hp. split; [by destruct s|]. intros i Hi.
    destruct (proj1 Hn eq_refl) as [H0|[H0|Hall]]; [lia|lia|].
    pose proof (Hall (Z.of_nat i) ltac:(lia)) as Hui.
    apply (iv_slots _ _ _ _ _ _ I i Hi) in Hui as [|]; done.
Qed.

(** Releasing the slot in transit, once its table slot is empty. *)
Lemma hp_release_spec G D oB oD s i :
  inv G D (Some i) oB oD s -> table s !! i = Some None ->
  exists s', hp_release s (slot_kva (Z.of_nat i)) = Ret s' /\ inv G D None oB oD s' /\
    s' = mkKMem (buddy s) (dma s) (hpool s') (headers s) (table s) (zeroed s).
Proof.
  intros I Hnone. pose proof (iv_R _ _ _ _ _ _ I i eq_refl) as Hi.
  unfold hp_release. rewrite kva_to_slot_spec, bind_Ret by lia.
  destruct (HeaderPool.release_spec (hpool s) (Z.of_nat i) (iv_hpool _ _ _ _ _ _ I))
    as (hp & -> & W' & Hu & _); [lia|apply (iv_slots _ _ _ _ _ _ I i Hi); by right|].
  rewrite bind_Ret. simpl. eexists. split; [done|]. split; [|done].
  pose proof I as [? ? ? ? ? Hsl ? ? Hpg ? ?]. constructor; try done; simpl.
  - intros k Hk. rewrite Hu. case_decide as E.
    + split; [done|]. intros [Hs|]; [|done]. exfalso.
      assert (k = i) as -> by lia. rewrite Hnone in Hs. simpl in Hs. by destruct Hs.
    + rewrite Hsl by done. split; [|by intros [|]; [left|]].
      intros [|[= <-]]; [by left|]. done.
  - intros k. specialize (Hpg k). unfold slot_ok in *. cbn [table with_header] in *.
    destruct (mjoin (table s !! k)) as [e|] eqn:Em; [|done].
    rewrite decide_False in Hpg; [|intros [= <-]; by rewrite Hnone in Em]. by rewrite decide_False.
Qed.

Lemma transit_owns G D i oB oD s : inv G D (Some i) oB oD s -> oB i = [] /\ oD i = [].
Proof.
  intros I. pose proof (iv_pages _ _ _ _ _ _ I i) as H. unfold slot_ok in H.
  destruct (mjoin (table s !! i)); [|done]. by rewrite decide_True in H.
Qed.

(** Registering the PageSet in transit: its pages leave [G] and [D]. *)
Lemma commit_spec G D i oB oD s e lb ld :
  inv G D (Some i) oB oD s -> Tbl.first_none (table s) = Some i ->
  e_header_kva e = slot_kva (Z.of_nat i) -> 0 < e_count e <= MAX_PRACTICAL_PAGES_PER_SET ->
  entry_ok (read_header s (slot_kva (Z.of_nat i))) e lb ld ->
  NoDup lb -> NoDup ld -> list_to_set lb ⊆ G -> list_to_set ld ⊆ D ->
  exists s', Tbl.insert (table s) e = (Ok i, table s') /\ s' = with_table s (table s') /\
    table s' = <[i := Some e]> (table s) /\
    inv (G ∖ list_to_set lb) (D ∖ list_to_set ld) None (set_own oB i lb) (set_own oD i ld) s'.
Proof.
  intros I Hfn Hk Hc He NB ND HB HD. pose proof (iv_R _ _ _ _ _ _ I i eq_refl) as Hi.
  destruct (transit_owns _ _ _ _ _ _ I) as [EB ED].
  exists (with_table s (<[i := Some e]> (table s))). unfold Tbl.insert.
  rewrite (proj2 (Z.eqb_neq _ _)), (proj2 (Z.ltb_ge _ _)), Hfn by lia.
  split_and!; [done..|].
  pose proof I as [? ? ? ? Hlen Hsl ? Hen Hpg PB PD]. constructor; try done; cbn [table with_table].
  - by rewrite length_insert.
  - intros k Hlt. cbn [hpool with_table]. rewrite Hsl by done. destruct (decide (k = i)) as [->|Hne].
    + rewrite list_lookup_insert_eq by (by rewrite Hlen). simpl. split; intros _; [by left; eexists|by right].
    + rewrite list_lookup_insert_ne by done. split; [|by intros [|]; [left|]].
      intros [|[= ->]]; [by left|done].
  - intros k e'. destruct (decide (k = i)) as [->|Hne].
    + rewrite list_lookup_insert_eq by (by rewrite Hlen). by intros [= <-].
    + rewrite list_lookup_insert_ne by done. apply Hen.
  - intros k. specialize (Hpg k). unfold slot_ok in *. cbn [table with_table].
    change (read_header (with_table s (<[i:=Some e]> (table s)))) with (read_header s).
    destruct (decide (k = i)) as [->|Hne].
    + rewrite list_lookup_insert_eq by (by rewrite Hlen). cbn [mjoin option_join].
      by rewrite decide_False, !set_own_eq by done.
    + rewrite list_lookup_insert_ne by done. rewrite !set_own_ne by done.
      destruct (mjoin (table s !! k)); [|done].
      rewrite decide_False in Hpg by congruence. by rewrite decide_False by done.
  - by apply pt_commit.
  - by apply pt_commit.
Qed.

(** A registered PageSet put in transit: its pages join [G] and [D]. *)
Lemma detach_spec G D i oB oD s e :
  inv G D None oB oD s -> table s !! i = Some (Some e) ->
  inv (G ∪ list_to_set (oB i)) (D ∪ list_to_set (oD i)) (Some i) (set_own oB i []) (set_own oD i []) s.
Proof.
  intros I He. pose proof I as [? ? ? ? Hlen Hsl ? Hen Hpg PB PD].
  assert (i < Z.to_nat MAX_PAGESETS)%nat as Hi by (rewrite <- Hlen; by eapply lookup_lt_Some).
  constructor; try done.
  - intros k Hk. rewrite Hsl by done. split; [by intros [|]; [left|]|].
    intros [|[= <-]]; [by left|]. left. rewrite He. by eexists.
  - by intros k [= <-].
  - intros k. specialize (Hpg k). unfold slot_ok in *. destruct (decide (k = i)) as [->|Hne].
    + rewrite He in *. cbn [mjoin option_join] in *. rewrite decide_True by done. by rewrite !set_own_eq.
    + rewrite !set_own_ne by done. destruct (mjoin (table s !! k)); [|done].
      rewrite decide_False in Hpg by done. by rewrite decide_False by congruence.
  - by apply pt_detach.
  - by apply pt_detach.
Qed.

(** Removing the slot in transit from the table. *)
Lemma consume_spec G D i oB oD s e :
  inv G D (Some i) oB oD s -> table s !! i = Some (Some e) ->
  exists s', consume_by_header_kva s (slot_kva (Z.of_nat i)) = (true, s') /\
    inv G D (Some i) oB oD s' /\ table s' = <[i := None]> (table s) /\ s' = with_table s (table s').
Proof.
  intros I He. pose proof I as [? ? ? ? Hlen Hsl ? Hen Hpg PB PD].
  pose proof (iv_R _ _ _ _ _ _ I i eq_refl) as Hi.
  exists (with_table s (<[i := None]> (table s))). unfold consume_by_header_kva.
  rewrite (Tbl.find_unique _ _ i e He); [|by apply Hen|].
  2:{ intros j e' He' Hk. destruct (Hen j e' He') as [Hk' _]. rewrite Hk in Hk'.
      apply slot_kva_inj in Hk'. lia. }
  unfold Tbl.remove. rewrite (proj2 (Z.leb_gt _ _)), Nat2Z.id, He by lia. cbn [mjoin option_join].
  split_and!; [done| |done|done].
  constructor; try done; cbn [table with_table].
  - by rewrite length_insert.
  - intros k Hlt. cbn [hpool with_table]. rewrite Hsl by done. destruct (decide (k = i)) as [->|Hne].
    + split; by right.
    + by rewrite list_lookup_insert_ne by done.
  - intros k e'. destruct (decide (k = i)) as [->|Hne].
    + by rewrite list_lookup_insert_eq by (by rewrite Hlen).
    + rewrite list_lookup_insert_ne by done. apply Hen.
  - intros k. specialize (Hpg k). unfold slot_ok in *. cbn [table with_table].
    destruct (decide (k = i)) as [->|Hne].
    + rewrite list_lookup_insert_eq by (by rewrite Hlen). cbn [mjoin option_join].
      rewrite He in Hpg. cbn [mjoin option_join] in Hpg. by rewrite decide_True in Hpg.
    + by rewrite list_lookup_insert_ne by done.
Qed.

(** ** Allocation from the buddy allocator *)

Lemma pages_length h n : length (pages h n) = Z.to_nat n.
Proof. unfold pages. by rewrite length_fmap, length_seqZ. Qed.

Lemma pages_lookup h n j : 0 <= j < n -> pages h n !! Z.to_nat j = Some (arr_peek (h_pages h) j).
Proof.
  intros Hj. unfold pages. rewrite list_lookup_fmap, lookup_seqZ_lt by lia. simpl. do 2 f_equal. lia.
Qed.

(** Writing one more page extends the list of written pages. *)
Lemma pages_snoc b i a :
  0 <= i -> pages (Hdr.bk_header (Hdr.put_page b i a)) (i + 1) = pages (Hdr.bk_header b) i ++ [a].
Proof.
  intros Hi. unfold pages. rewrite seqZ_app by lia. rewrite fmap_app. f_equal.
  - apply list_fmap_ext. intros k x Hk. apply lookup_seqZ in Hk. simpl. rewrite arr_peek_insert.
    rewrite decide_False by lia. done.
  - rewrite seqZ_cons by lia. rewrite seqZ_nil by lia. simpl. rewrite arr_peek_insert.
    by rewrite decide_True.
Qed.

(** Everything but the buddy allocator and the page contents is unchanged. *)
Definition frames_only (s s' : KMem) : Prop :=
  dma s' = dma s /\ hpool s' = hpool s /\ headers s' = headers s /\ table s' = table s.

Lemma frames_trans s s1 s2 : frames_only s s1 -> frames_only s1 s2 -> frames_only s s2.
Proof. unfold frames_only. intuition congruence. Qed.

(** The rollback gives every written page back. *)
Lemma rollback_spec G D R oB oD s b L :
  inv (G ∪ list_to_set L) D R oB oD s -> Hdr.backed_ok b -> NoDup L -> list_to_set L ## G ->
  pages (Hdr.bk_header b) (Z.of_nat (length L)) = addr_of <$> L -> Z.of_nat (length L) <= Hdr.bk_count b ->
  exists s', for_range 0 (length L) (rollback_page b) s = Ret s' /\
    inv G D R oB oD s' /\ frames_only s s' /\ zeroed s' = zeroed s /\
    forall q, 0 <= q < MAX_PAGES -> page_free (buddy s') q = page_free (buddy s) q || bool_decide (q ∈ L).
Proof.
  intros I Hb Hnd Hdis Hpg Hlen.
  destruct (for_range_inv (fun j st => inv (G ∪ list_to_set (drop (Z.to_nat j) L)) D R oB oD st /\
      frames_only s st /\ zeroed st = zeroed s /\
      forall q, 0 <= q < MAX_PAGES -> page_free (buddy st) q =
        page_free (buddy s) q || bool_decide (q ∈ take (Z.to_nat j) L))
    (rollback_page b) (length L) 0 s) as (s' & E & I' & Hf & Hz & Hp).
  - change (Z.to_nat 0) with 0%nat. rewrite drop_0. split_and!; try done. intros q _. simpl. by rewrite orb_false_r.
  - intros j st Hj (Ist & Fst & Zst & Pst).
    assert (exists idx, L !! Z.to_nat j = Some idx) as [idx Hidx] by (apply lookup_lt_is_Some; lia).
    assert (arr_peek (h_pages (Hdr.bk_header b)) j = addr_of idx) as Ha.
    { pose proof (pages_lookup (Hdr.bk_header b) (Z.of_nat (length L)) j ltac:(lia)) as Hl.
      rewrite Hpg, list_lookup_fmap, Hidx in Hl. simpl in Hl. congruence. }
    unfold rollback_page. rewrite Hdr.get_page_spec, (proj2 (Z.ltb_lt _ _)), bind_Ret by (done || lia).
    cbn [unwrap]. rewrite bind_Ret, Ha.
    pose proof (drop_S L idx (Z.to_nat j) Hidx) as Hd.
    destruct (k_dealloc_page_spec _ _ _ _ _ _ idx Ist) as (st' & -> & I' & Hst & Hp').
    { rewrite Hd. set_solver. }
    exists st'. split; [done|]. replace (Z.to_nat (j + 1)) with (S (Z.to_nat j)) by lia. split_and!.
    + rewrite Hd in I'. cbn [list_to_set] in I'.
      assert (idx ∉ drop (S (Z.to_nat j)) L) as Hn.
      { rewrite <- (take_drop (Z.to_nat j) L), Hd in Hnd. apply NoDup_app in Hnd as (_ & _ & Hnd).
        by apply NoDup_cons in Hnd as [? _]. }
      assert (idx ∉ G) as Hg.
      { intros Hg. apply (Hdis idx); [|done]. apply elem_of_list_to_set. by eapply list_elem_of_lookup_2. }
      replace ((G ∪ ({[idx]} ∪ list_to_set (drop (S (Z.to_nat j)) L))) ∖ {[idx]})
        with (G ∪ list_to_set (drop (S (Z.to_nat j)) L)) in I'; [done|].
      apply leibniz_equiv. intros x. rewrite elem_of_difference, !elem_of_union, elem_of_list_to_set, elem_of_singleton.
      destruct (decide (x = idx)) as [->|]; tauto.
    + eapply frames_trans; [exact Fst|]. rewrite Hst. done.
    + by rewrite Hst.
    + intros q Hq. rewrite Hp', Pst by done. rewrite (take_S_r L _ idx Hidx).
      rewrite <- orb_assoc. f_equal. apply eq_bool_prop_intro.
      rewrite !Is_true_true, orb_true_iff, !bool_decide_eq_true, in_range_one, elem_of_app, list_elem_of_singleton. done.
  - exists s'. rewrite Z.add_0_l, Nat2Z.id in *. rewrite drop_all, firstn_all in *.
    cbn [list_to_set] in I'. rewrite union_empty_r_L in I'. done.
Qed.

Lemma alloc_data_spec G D slot oB oD n : forall i s b L,
  inv (G ∪ list_to_set L) D (Some slot) oB oD s -> Hdr.backed_ok b ->
  i + Z.of_nat n = Hdr.bk_count b -> i = Z.of_nat (length L) ->
  pages (Hdr.bk_header b) i = addr_of <$> L -> NoDup L -> list_to_set L ## G ->
  exists ok s' b', alloc_data s b n i = Ret (ok, s', b') /\ frames_only s s' /\
  if ok : bool then
    exists L', inv (G ∪ list_to_set (L ++ L')) D (Some slot) oB oD s' /\ length L' = n /\
      pages (Hdr.bk_header b') (Hdr.bk_count b) = addr_of <$> (L ++ L') /\ NoDup (L ++ L') /\
      list_to_set (L ++ L') ## G /\ (forall x, x ∈ L' -> page_free (buddy s) x = true) /\
      Hdr.origin (Hdr.bk_header b') = Hdr.origin (Hdr.bk_header b) /\
      h_refcount (Hdr.bk_header b') = h_refcount (Hdr.bk_header b) /\
      h_map_count (Hdr.bk_header b') = h_map_count (Hdr.bk_header b) /\
      zeroed s ⊆ zeroed s' /\ (forall x, x ∈ L' -> addr_of x ∈ zeroed s') /\
      free_count (buddy s') = free_count (buddy s) - Z.of_nat n /\
      forall q, 0 <= q < MAX_PAGES ->
        page_free (buddy s') q = page_free (buddy s) q && negb (bool_decide (q ∈ L'))
  else
    inv G D (Some slot) oB oD s' /\ free_count (buddy s) < Z.of_nat n /\
    forall q, 0 <= q < MAX_PAGES -> page_free (buddy s') q = page_free (buddy s) q || bool_decide (q ∈ L).
Proof.
  induction n as [|n IH]; intros i s b L I Hb Hin Hi Hpg Hnd Hdis; cbn [alloc_data].
  { do 3 eexists. split; [done|]. split; [done|]. exists []. rewrite app_nil_r.
    replace (Hdr.bk_count b) with i by lia. split_and!; try done;
      try (intros x Hx; by apply not_elem_of_nil in Hx); [simpl; lia|].
    intros q _. rewrite (bool_decide_false (q ∈ [])) by set_solver. by rewrite andb_true_r. }
  destruct (k_alloc_page_spec _ _ _ _ _ _ I) as (r & s1 & -> & Hr). rewrite bind_Ret.
  destruct r as [page|].
  - destruct Hr as (idx & (-> & Hst & Hidx) & Hng & Hno & Hfree & I1 & Es1 & Hcnt & Hpf).
    rewrite Hdr.set_page_spec, bind_Ret by (done || lia). rewrite Hst.
    change (ram_base (plat cfg) + idx * PAGE_SIZE) with (addr_of idx).
    set (s2 := zero_page s1 (addr_of idx)).
    assert (idx ∉ L) as HnL by (intros ?; apply Hng; set_solver).
    assert (frames_only s s2) as Hfr by (unfold s2; rewrite Es1; done).
    destruct (IH (i + 1) s2 (Hdr.put_page b i (addr_of idx)) (L ++ [idx])) as (ok & s' & b' & -> & Hf & Hok);
      clear IH.
    + apply inv_zero_page. replace (G ∪ list_to_set (L ++ [idx])) with (G ∪ list_to_set L ∪ {[idx]}); [done|].
      rewrite list_to_set_app_L. set_solver.
    + done.
    + simpl. lia.
    + rewrite length_app. simpl. lia.
    + rewrite pages_snoc, Hpg, fmap_app by lia. done.
    + apply NoDup_app. split_and!; [done|set_solver|apply NoDup_singleton].
    + set_solver.
    + do 3 eexists. split; [done|]. split; [by eapply frames_trans|]. destruct ok.
      * destruct Hok as (L' & I' & Hl' & Hpg' & Hnd' & Hdis' & Hfr' & Ho & Hrc & Hmc & Hz & Hz' & Hc' & Hq').
        rewrite <- app_assoc in *. exists (idx :: L'). split_and!; try done; try (simpl; lia).
        -- intros x [->|Hx]%elem_of_cons; [done|].
           pose proof (Hfr' x Hx) as Hq.
           assert (0 <= x < MAX_PAGES) as Hxr.
           { pose proof (iv_B _ _ _ _ _ _ I') as PB. destruct (pt_G _ _ _ _ PB x ltac:(set_solver)).
             pose proof (pk_pages _ (ck_plat Hcfg)). lia. }
           unfold s2 in Hq. simpl in Hq. rewrite Hpf, andb_true_iff in Hq by done. tauto.
        -- etransitivity; [|exact Hz]. unfold s2. simpl. rewrite Es1. set_solver.
        -- intros x [->|Hx]%elem_of_cons; [|by apply Hz']. apply Hz. unfold s2. simpl. set_solver.
        -- rewrite Hc'. unfold s2. simpl. lia.
        -- intros q Hq. rewrite Hq' by done. unfold s2. simpl. rewrite Hpf by done. rewrite <- andb_assoc.
           f_equal. rewrite <- negb_orb. f_equal. apply eq_bool_prop_intro.
           by rewrite !Is_true_true, orb_true_iff, !bool_decide_eq_true, in_range_one, elem_of_cons.
      * destruct Hok as (I' & Hc' & Hp'). unfold s2 in Hc'. simpl in Hc'. split_and!; [done|lia|].
        intros q Hq. rewrite Hp' by done. unfold s2. simpl. rewrite Hpf by done.
        destruct (decide (q = idx)) as [->|Hne].
        -- rewrite Hfree. rewrite (bool_decide_true (idx ∈ L ++ [idx])) by set_solver. by rewrite orb_true_r.
        -- assert (in_range idx 1 q = false) as -> by (apply in_range_false; lia). rewrite andb_true_r.
           f_equal. apply bool_decide_ext. set_solver.
  - destruct Hr as [-> H0]. replace (Z.to_nat i) with (length L) by lia.
    destruct (rollback_spec _ _ _ _ _ _ b L I Hb Hnd Hdis) as (s' & -> & I' & Hf & Hz & Hp); [by rewrite <- Hi|lia|].
    rewrite bind_Ret. do 3 eexists. split; [done|]. split; [done|]. split_and!; [done|lia|done].
Qed.

Lemma union_minus (G L : gset Z) : L ## G -> (G ∪ L) ∖ L = G.
Proof. set_solver. Qed.

Lemma set_own_nil own i k : own i = [] -> set_own own i [] k = own k.
Proof. intros H. unfold set_own. case_decide; [by subst|done]. Qed.

Lemma inv_ext G D R oB oD oB' oD' s :
  (forall i, oB i = oB' i) -> (forall i, oD i = oD' i) -> inv G D R oB oD s -> inv G D R oB' oD' s.
Proof.
  intros HB HD [? ? ? ? ? ? ? ? Hp PB PD]. constructor; try done.
  - intros i. rewrite <- HB, <- HD. apply Hp.
  - eapply pt_ext; [..|exact PB]; done.
  - eapply pt_ext; [..|exact PD]; done.
Qed.

(** Registering buddy pages [L] held in transit. *)
Lemma commit_buddy G D i oB oD s cnt L :
  inv (G ∪ list_to_set L) D (Some i) oB oD s -> Tbl.first_none (table s) = Some i ->
  0 < cnt <= MAX_PRACTICAL_PAGES_PER_SET -> NoDup L -> list_to_set L ## G ->
  Hdr.origin (read_header s (slot_kva (Z.of_nat i))) = Some Buddy ->
  pages (read_header s (slot_kva (Z.of_nat i))) cnt = addr_of <$> L ->
  exists s', insert_into_table s cnt (slot_kva (Z.of_nat i)) Buddy = (Some i, s') /\
    s' = with_table s (<[i := Some (mkEntry cnt (slot_kva (Z.of_nat i)) Buddy)]> (table s)) /\
    inv G D None (set_own oB i L) oD s'.
Proof.
  intros I Hfn Hc Hnd Hdis Ho Hp.
  destruct (transit_owns _ _ _ _ _ _ I) as [_ ED].
  destruct (commit_spec _ _ _ _ _ _ (mkEntry cnt (slot_kva (Z.of_nat i)) Buddy) L [] I Hfn)
    as (s' & E & Es & Et & I'); try done; try apply NoDup_nil_2; try apply empty_subseteq; try apply union_subseteq_r.
  exists s'. unfold insert_into_table. rewrite E. rewrite <- Es. split_and!; [done|by rewrite <- Et|].
  cbn [list_to_set] in I'. rewrite union_minus, difference_empty_L in I' by done.
  eapply inv_ext; [..|exact I']; [done|]. intros k. by apply set_own_nil.
Qed.

(** What [alloc_pages] does. *)
Definition alloc_pages_post (G D : gset Z) (oB oD : nat -> list Z) (s : KMem) (cnt : Z)
    (r : result nat AllocError) (s' : KMem) : Prop :=
  match r with
  | Ok id =>
      table s !! id = Some None /\
      table s' = <[id := Some (mkEntry cnt (slot_kva (Z.of_nat id)) Buddy)]> (table s) /\
      h_refcount (read_header s' (slot_kva (Z.of_nat id))) = 0 /\
      h_map_count (read_header s' (slot_kva (Z.of_nat id))) = 0 /\
      free_count (buddy s') = free_count (buddy s) - cnt /\
      exists L, inv G D None (set_own oB id L) oD s' /\ Z.of_nat (length L) = cnt /\ NoDup L /\
        (forall x, x ∈ L -> page_free (buddy s) x = true /\ addr_of x ∈ zeroed s') /\
        (forall q, 0 <= q < MAX_PAGES ->
           page_free (buddy s') q = page_free (buddy s) q && negb (bool_decide (q ∈ L)))
  | Err EInvalidCount => (cnt = 0 \/ MAX_PRACTICAL_PAGES_PER_SET < cnt) /\ s' = s
  | Err EHeaderPoolExhausted =>
      (forall i, (i < Z.to_nat MAX_PAGESETS)%nat -> is_Some (mjoin (table s !! i))) /\ s' = s
  | Err EBuddyExhausted =>
      free_count (buddy s) < cnt /\ inv G D None oB oD s' /\ table s' = table s /\ dma s' = dma s /\
      forall q, 0 <= q < MAX_PAGES -> page_free (buddy s') q = page_free (buddy s) q
  | Err _ => False
  end.

Lemma alloc_pages_spec G D oB oD s cnt :
  inv G D None oB oD s -> 0 <= cnt ->
  exists r s', alloc_pages s cnt = Ret (r, s') /\ alloc_pages_post G D oB oD s cnt r s'.
Proof.
  intros I H0. unfold alloc_pages.
  destruct (Z.eqb_spec cnt 0) as [->|Hne]; [do 2 eexists; split; [done|]; simpl; auto|].
  destruct (Z.ltb_spec MAX_PRACTICAL_PAGES_PER_SET cnt) as [L|L]; [do 2 eexists; split; [done|]; simpl; auto|].
  cbn [orb]. assert (0 < cnt <= MAX_PRACTICAL_PAGES_PER_SET) as Hc by lia.
  destruct (hp_claim_spec _ _ _ _ _ cnt I Hc) as (r & s1 & -> & Hr). rewrite bind_Ret.
  destruct r as [kva|]; [|do 2 eexists; split; [done|]; destruct Hr as [-> Hr]; by split].
  destruct Hr as (i & -> & Hi & Hfn & I1 & Hzh & Eb & Ed & Et & Ez & _).
  rewrite Hdr.set_count_spec, bind_Ret, Hzh. cbn [zero_header h_refcount h_map_count h_pages].
  set (b0 := Hdr.mkBacked _ cnt _).
  destruct (alloc_data_spec G D i oB oD (Z.to_nat cnt) 0 s1 b0 []) as (ok & s2 & b1 & -> & Hf & Hok);
    [cbn [list_to_set]; by rewrite union_empty_r_L|by split|simpl; lia|done|done|apply NoDup_nil_2|set_solver|].
  rewrite bind_Ret. cbn [fst snd]. destruct Hf as (F1 & F2 & F3 & F4).
  set (s3 := with_header s2 (slot_kva (Z.of_nat i)) (Hdr.bk_header b1)).
  destruct ok.
  - destruct Hok as (Lp & I2 & Hl & Hpg & Hnd & Hdis & Hfree & Ho & Hrc & Hmc & Hz & Hz' & Hcnt & Hq').
    simpl in *. destruct (commit_buddy G D i oB oD s3 cnt Lp) as (s4 & -> & Es4 & I4); try done.
    + by apply inv_with_header.
    + unfold s3. simpl. by rewrite F4, Et.
    + unfold s3. rewrite read_header_with, decide_True by done. rewrite Ho. done.
    + unfold s3. rewrite read_header_with, decide_True by done. done.
    + do 2 eexists. split; [done|].
      assert (read_header s4 (slot_kva (Z.of_nat i)) = Hdr.bk_header b1) as Hrd.
      { rewrite Es4. unfold s3. change (read_header (with_table ?a ?b)) with (read_header a).
        by rewrite read_header_with, decide_True. }
      pose proof (Tbl.first_none_spec (table s)) as Hfs. rewrite Hfn in Hfs.
      simpl. rewrite Hrd. split_and!; try done; try (by apply Hfs).
      * rewrite Es4. unfold s3. simpl. by rewrite F4, Et.
      * rewrite Es4. unfold s3. simpl. rewrite Hcnt, Eb. lia.
      * exists Lp. split_and!; try done; [lia| |].
        -- intros x Hx. split; [rewrite <- Eb; by apply Hfree|].
           rewrite Es4. unfold s3. simpl. by apply Hz'.
        -- intros q Hq. rewrite Es4. unfold s3. simpl. rewrite <- Eb. by apply Hq'.
  - destruct Hok as (I2 & Hcnt & Hp).
    destruct (hp_release_spec G D oB oD s3 i) as (s4 & -> & I4 & Es4).
    + by apply inv_with_header.
    + pose proof (Tbl.first_none_spec (table s)) as Hfs. rewrite Hfn in Hfs.
      unfold s3. simpl. rewrite F4, Et. apply Hfs.
    + rewrite bind_Ret. do 2 eexists. split; [done|]. simpl. rewrite Es4. unfold s3. simpl.
      rewrite Eb in *. split_and!; try done; [lia|..].
      * rewrite Es4 in I4. done.
      * by rewrite F4.
      * by rewrite F1.
      * intros q Hq. rewrite Hp by done. rewrite (bool_decide_false (q ∈ [])) by set_solver. apply orb_false_r.
Qed.

(** ** Release *)

Lemma trusted_layout_spec G D R oB oD s i e :
  inv G D R oB oD s -> table s !! i = Some (Some e) ->
  trusted_layout s (slot_kva (Z.of_nat i)) = Some (e_count e, header_pages_for (e_count e)).
Proof.
  intros I He. pose proof (iv_entry _ _ _ _ _ _ I) as Hen.
  assert (i < Z.to_nat MAX_PAGESETS)%nat as Hi
    by (rewrite <- (iv_len _ _ _ _ _ _ I); by eapply lookup_lt_Some).
  unfold trusted_layout. rewrite (Tbl.find_unique _ _ i e He); [|by apply Hen|].
  - simpl. unfold Tbl.get. rewrite (proj2 (Z.leb_gt _ _)), Nat2Z.id, He by lia. done.
  - intros j e' He' Hk. destruct (Hen j e' He') as [Hk' _]. rewrite Hk in Hk'.
    apply slot_kva_inj in Hk'. lia.
Qed.

Lemma dma_free_spec G D R oB oD s k n :
  inv G (D ∪ list_to_set (seqZ k n)) R oB oD s -> 0 < n -> dma_base cfg <> 0 ->
  list_to_set (seqZ k n) ## D ->
  exists s', dma_free_pages s (daddr_of k) n = Ret s' /\ inv G D R oB oD s' /\
    s' = with_dma s (dma s') /\
    forall j, Dma.used (dma s') j = Dma.used (dma s) j && negb (in_range k n j).
Proof.
  intros I Hn Hb Hdis. pose proof (iv_D _ _ _ _ _ _ I) as PD. pose proof (ck_dma Hcfg) as [Hb0 Hba].
  assert (forall x, k <= x < k + n -> 0 <= x < Dma.DMA_POOL_PAGES /\ Dma.used (dma s) x = true) as Hin.
  { intros x Hx. apply (pt_G _ _ _ _ PD). apply elem_of_union_r, elem_of_list_to_set, elem_of_seqZ. lia. }
  pose proof (Hin k ltac:(lia)). pose proof (Hin (k + n - 1) ltac:(lia)).
  unfold dma_free_pages. rewrite (proj2 (Z.eqb_neq _ _) Hb). cbn [negb assert]. rewrite bind_Ret.
  unfold daddr_of. rewrite (proj2 (Z.leb_le _ _)) by (unfold PAGE_SIZE; lia). cbn [unwrap]. rewrite bind_Ret.
  replace (dma_base cfg + k * PAGE_SIZE - dma_base cfg) with (k * PAGE_SIZE) by lia.
  rewrite page_mask_zero, Z.mod_mul, Z.div_mul by (unfold PAGE_SIZE; lia). cbn [Z.eqb assert]. rewrite bind_Ret.
  destruct (Dma.dma_pool_free_spec (dma s) k n (iv_dma _ _ _ _ _ _ I)) as (d & -> & Wd & Hu & _); [lia|lia|lia|by apply Hin|].
  rewrite bind_Ret. eexists. split; [done|]. split_and!; [|done|done].
  rewrite <- (union_minus D (list_to_set (seqZ k n))) by done.
  apply (inv_with_dma G (D ∪ list_to_set (seqZ k n))); try done.
  eapply pt_give; [exact PD|set_solver|]. intros x Hx.
  rewrite Hu, andb_true_iff, negb_true_iff, in_range_false, elem_of_list_to_set, elem_of_seqZ. done.
Qed.

(** A registered header view. *)
Lemma read_backed_spec G D R oB oD s i e :
  inv G D R oB oD s -> table s !! i = Some (Some e) ->
  read_header_backed s (slot_kva (Z.of_nat i)) =
    Ret (Hdr.backed (read_header s (slot_kva (Z.of_nat i))) (e_count e)).
Proof. intros I He. unfold read_header_backed. by rewrite (trusted_layout_spec _ _ _ _ _ _ _ _ I He). Qed.

(** Removing the registration and releasing the header slot. *)
Lemma retire_spec G D i oB oD s e :
  inv G D (Some i) oB oD s -> table s !! i = Some (Some e) ->
  exists s', hp_release (consume_by_header_kva s (slot_kva (Z.of_nat i))).2 (slot_kva (Z.of_nat i)) = Ret s' /\
    inv G D None oB oD s' /\ table s' = <[i := None]> (table s) /\
    buddy s' = buddy s /\ dma s' = dma s /\ headers s' = headers s.
Proof.
  intros I He. destruct (consume_spec _ _ _ _ _ _ _ I He) as (s1 & -> & I1 & Et & Es). cbn [snd].
  destruct (hp_release_spec _ _ _ _ _ _ I1) as (s2 & -> & I2 & Es2).
  { rewrite Et. apply list_lookup_insert_eq. rewrite (iv_len _ _ _ _ _ _ I). by apply (iv_R _ _ _ _ _ _ I). }
  exists s2. split; [done|]. split; [done|]. rewrite Es2, Es. done.
Qed.

(** What freeing the PageSet of slot [i] does. *)
Record freed (G D : gset Z) (oB oD : nat -> list Z) (i : nat) (s s' : KMem) : Prop := {
  fr_inv : inv G D None (set_own oB i []) (set_own oD i []) s';
  fr_table : table s' = <[i := None]> (table s);
  fr_pages : forall q, 0 <= q < MAX_PAGES ->
    page_free (buddy s') q = page_free (buddy s) q || bool_decide (q ∈ oB i);
  fr_dma : forall k, Dma.used (dma s') k = Dma.used (dma s) k && negb (bool_decide (k ∈ oD i));
}.

Lemma free_data_rollback b j s :
  Hdr.backed_ok b -> 0 <= j < Hdr.bk_count b -> free_data_page b j s = rollback_page b j s.
Proof.
  intros Hb Hj. unfold free_data_page, rollback_page.
  rewrite Hdr.get_page_spec, (proj2 (Z.ltb_lt _ _)) by (done || lia). done.
Qed.

Lemma free_by_header_kva_spec G D oB oD s i e :
  inv G D None oB oD s -> table s !! i = Some (Some e) ->
  exists s', free_by_header_kva s (slot_kva (Z.of_nat i)) = Ret s' /\ freed G D oB oD i s s'.
Proof.
  intros I He. unfold free_by_header_kva.
  rewrite (trusted_layout_spec _ _ _ _ _ _ _ _ I He). cbn [unwrap]. rewrite bind_Ret. cbn [fst].
  rewrite (read_backed_spec _ _ _ _ _ _ _ _ I He), bind_Ret. cbn [Hdr.bk_header Hdr.backed].
  pose proof (iv_pages _ _ _ _ _ _ I i) as Hp. unfold slot_ok in Hp. rewrite He in Hp.
  cbn [mjoin option_join] in Hp. rewrite decide_False in Hp by done. destruct Hp as [Ho Hp].
  rewrite Ho. cbn [unwrap]. rewrite bind_Ret.
  destruct (iv_entry _ _ _ _ _ _ I i e He) as [Hk Hc].
  pose proof (detach_spec _ _ _ _ _ _ _ I He) as Id.
  pose proof (iv_B _ _ _ _ _ _ I) as PB. pose proof (iv_D _ _ _ _ _ _ I) as PD.
  set (h := read_header s (slot_kva (Z.of_nat i))) in *. set (b := Hdr.backed h (e_count e)).
  assert (Hdr.backed_ok b) as Hb by (split; [exact Hc|done]).
  destruct (e_origin e).
  - destruct Hp as [Hpg ED].
    assert (Z.of_nat (length (oB i)) = e_count e) as Hlen.
    { pose proof (f_equal length Hpg) as Hl. rewrite pages_length, length_fmap in Hl. lia. }
    rewrite (for_range_ext _ (rollback_page b)) by (intros j t Hj; apply free_data_rollback; [done|simpl; lia]).
    replace (Z.to_nat (e_count e)) with (length (oB i)) by lia. rewrite ED in Id.
    destruct (rollback_spec _ _ _ _ _ _ b (oB i) Id Hb) as (s1 & -> & I1 & (F1 & F2 & F3 & F4) & _ & Hpf).
    { by eapply pt_nodup. } { intros x Hx%elem_of_list_to_set. by eapply pt_not_G. }
    { by rewrite Hlen. } { simpl. lia. }
    rewrite bind_Ret. cbn [list_to_set] in I1. rewrite union_empty_r_L in I1.
    destruct (retire_spec _ _ _ _ _ _ e I1) as (s2 & -> & I2 & Et & Eb & Ed & _); [by rewrite F4|].
    exists s2. split; [done|]. constructor; [done|congruence| |].
    + intros q Hq. rewrite Eb. by apply Hpf.
    + intros k. rewrite Ed, F1, ED. rewrite (bool_decide_false (k ∈ [])) by set_solver. by rewrite andb_true_r.
  - destruct Hp as (EB & Hdb & [k Ek] & Hpg).
    rewrite (proj2 (Z.ltb_lt _ _)) by lia. rewrite Hdr.get_page_spec, (proj2 (Z.ltb_lt _ _)), bind_Ret by (simpl; done || lia).
    assert (arr_peek (h_pages (Hdr.bk_header b)) 0 = daddr_of k) as ->.
    { pose proof (pages_lookup h (e_count e) 0 ltac:(lia)) as Hl. rewrite Hpg, Ek, list_lookup_fmap in Hl.
      rewrite lookup_seqZ_lt in Hl by lia. simpl in *. rewrite Z.add_0_r in Hl. congruence. }
    rewrite EB, Ek in Id.
    destruct (dma_free_spec _ _ _ _ _ _ k (e_count e) Id) as (s1 & -> & I1 & Es1 & Hu); [lia|done| |].
    { intros x Hx%elem_of_list_to_set. rewrite <- Ek in Hx. by eapply pt_not_G. }
    rewrite bind_Ret. cbn [list_to_set] in I1. rewrite union_empty_r_L in I1.
    destruct (retire_spec _ _ _ _ _ _ e I1) as (s2 & -> & I2 & Et & Eb & Ed & _); [by rewrite Es1|].
    exists s2. split; [done|]. rewrite Es1 in Et, Eb. constructor; [done|done| |].
    + intros q Hq. rewrite Eb, EB. cbn [buddy with_dma].
      rewrite (bool_decide_false (q ∈ [])) by set_solver. by rewrite orb_false_r.
    + intros j. rewrite Ed, Hu, Ek. f_equal. f_equal. apply eq_bool_prop_intro.
      rewrite !Is_true_true, bool_decide_eq_true, in_range_spec, elem_of_seqZ. done.
  - destruct Hp as [EB ED]. rewrite bind_Ret. rewrite EB, ED in Id. cbn [list_to_set] in Id.
    rewrite !union_empty_r_L in Id.
    destruct (retire_spec _ _ _ _ _ _ e Id He) as (s2 & -> & I2 & Et & Eb & Ed & _).
    exists s2. split; [done|]. constructor; [done|done| |].
    + intros q Hq. rewrite Eb, EB. rewrite (bool_decide_false (q ∈ [])) by set_solver. by rewrite orb_false_r.
    + intros k. rewrite Ed, ED. rewrite (bool_decide_false (k ∈ [])) by set_solver. by rewrite andb_true_r.
Qed.

(** ** Contiguous runs *)

(** [b] has the metadata of [b0] and its first [i] pages are [f 0 .. f (i-1)]. *)
Record written (f : Z -> Z) (b0 : Hdr.BackedHeader) (i : Z) (b : Hdr.BackedHeader) : Prop := {
  wr_count : Hdr.bk_count b = Hdr.bk_count b0;
  wr_backing : Hdr.bk_backing_pages b = Hdr.bk_backing_pages b0;
  wr_origin : h_origin_raw (Hdr.bk_header b) = h_origin_raw (Hdr.bk_header b0);
  wr_ref : h_refcount (Hdr.bk_header b) = h_refcount (Hdr.bk_header b0);
  wr_map : h_map_count (Hdr.bk_header b) = h_map_count (Hdr.bk_header b0);
  wr_pages : pages (Hdr.bk_header b) i = f <$> seqZ 0 i;
}.

Lemma written_put f b0 i b :
  0 <= i -> written f b0 i b -> written f b0 (i + 1) (Hdr.put_page b i (f i)).
Proof.
  intros Hi [? ? ? ? ? Hp]. constructor; try done. rewrite pages_snoc, Hp by done.
  rewrite seqZ_app by lia. by rewrite fmap_app.
Qed.

Lemma written_ok f b0 i b : Hdr.backed_ok b0 -> written f b0 i b -> Hdr.backed_ok b.
Proof. intros [H1 H2] [Hc Hb _ _ _ _]. split; [by rewrite Hc|]. by rewrite Hb, Hc. Qed.

Lemma dma_write_spec base b0 :
  Hdr.backed_ok b0 ->
  exists b1, for_range 0 (Z.to_nat (Hdr.bk_count b0))
      (fun i b => Hdr.set_page b i (base + i * PAGE_SIZE)) b0 = Ret b1 /\
    written (fun i => base + i * PAGE_SIZE) b0 (Hdr.bk_count b0) b1.
Proof.
  intros Hb. pose proof Hb as [Hc _].
  destruct (for_range_inv (written (fun i => base + i * PAGE_SIZE) b0)
    (fun i b => Hdr.set_page b i (base + i * PAGE_SIZE)) (Z.to_nat (Hdr.bk_count b0)) 0 b0) as (b1 & E & W).
  - by constructor.
  - intros j b Hj W. pose proof (written_ok _ _ _ _ Hb W) as Hok. pose proof (wr_count _ _ _ _ W) as Hcnt.
    rewrite Hdr.set_page_spec by (done || lia). eexists. split; [done|].
    apply (written_put (fun i => base + i * PAGE_SIZE)); [lia|done].
  - exists b1. rewrite Z.add_0_l, Z2Nat.id in W by lia. done.
Qed.

(** The loop of [alloc_pages_contiguous] also zeroes the pages. *)
Lemma write_run_spec base s b0 :
  Hdr.backed_ok b0 ->
  exists s1 b1, for_range 0 (Z.to_nat (Hdr.bk_count b0)) (write_run base) (s, b0) = Ret (s1, b1) /\
    written (fun i => base + i * PAGE_SIZE) b0 (Hdr.bk_count b0) b1 /\
    s1 = mkKMem (buddy s) (dma s) (hpool s) (headers s) (table s) (zeroed s1) /\
    forall i, 0 <= i < Hdr.bk_count b0 -> base + i * PAGE_SIZE ∈ zeroed s1.
Proof.
  intros Hb. pose proof Hb as [Hc _].
  destruct (for_range_inv (fun j st => written (fun i => base + i * PAGE_SIZE) b0 j st.2 /\
      st.1 = mkKMem (buddy s) (dma s) (hpool s) (headers s) (table s) (zeroed st.1) /\
      forall i, 0 <= i < j -> base + i * PAGE_SIZE ∈ zeroed st.1)
    (write_run base) (Z.to_nat (Hdr.bk_count b0)) 0 (s, b0)) as ([s1 b1] & E & W & Es & Hz).
  - split_and!; [by constructor|by destruct s|lia].
  - intros j [st b] Hj (W & Es & Hz). simpl in *. pose proof (written_ok _ _ _ _ Hb W) as Hok.
    pose proof (wr_count _ _ _ _ W) as Hcnt. unfold write_run.
    rewrite Hdr.set_page_spec, bind_Ret by (done || lia). eexists. split; [done|]. simpl. split_and!.
    + apply (written_put (fun i => base + i * PAGE_SIZE)); [lia|done].
    + by rewrite Es.
    + intros i Hi. destruct (decide (i = j)) as [->|]; [set_solver|]. apply elem_of_union_r, Hz. lia.
  - exists s1, b1. rewrite Z.add_0_l, Z2Nat.id in * by lia. done.
Qed.

(** Releasing the claimed slot on an error path. *)
Lemma abort_spec G D oB oD s i :
  inv G D (Some i) oB oD s -> Tbl.first_none (table s) = Some i ->
  exists s', hp_release s (slot_kva (Z.of_nat i)) = Ret s' /\ inv G D None oB oD s' /\
    table s' = table s /\ buddy s' = buddy s /\ dma s' = dma s.
Proof.
  intros I Hfn. pose proof (Tbl.first_none_spec (table s)) as Hf. rewrite Hfn in Hf. destruct Hf as [Hn _].
  destruct (hp_release_spec _ _ _ _ _ _ I Hn) as (s' & E & I' & Es). exists s'. rewrite Es. rewrite Es in I', E.
  done.
Qed.

(** ** DMA allocation *)

Definition alloc_dma_post (G D : gset Z) (oB oD : nat -> list Z) (s : KMem) (cnt : Z)
    (r : result nat AllocError) (s' : KMem) : Prop :=
  match r with
  | Ok id =>
      table s !! id = Some None /\
      table s' = <[id := Some (mkEntry cnt (slot_kva (Z.of_nat id)) DmaPool)]> (table s) /\
      buddy s' = buddy s /\
      exists k, Dma.run_free (dma s) k cnt /\ inv G D None oB (set_own oD id (seqZ k cnt)) s'
  | Err EInvalidCount => (cnt = 0 \/ Dma.DMA_POOL_PAGES < cnt) /\ inv G D None oB oD s' /\ table s' = table s
  | Err EHeaderPoolExhausted =>
      (forall i, (i < Z.to_nat MAX_PAGESETS)%nat -> is_Some (mjoin (table s !! i))) /\ s' = s
  | Err EDmaPoolExhausted =>
      (dma_base cfg = 0 \/ forall k, ~ Dma.run_free (dma s) k cnt) /\
      inv G D None oB oD s' /\ table s' = table s
  | Err _ => False
  end.

Lemma dma_alloc_pages_spec G D R oB oD s cnt :
  inv G D R oB oD s -> 0 < cnt ->
  exists r s', dma_alloc_pages s cnt = Ret (r, s') /\
  match r with
  | Ok pa => exists k, pa = daddr_of k /\ dma_base cfg <> 0 /\ Dma.run_free (dma s) k cnt /\
      inv G (D ∪ list_to_set (seqZ k cnt)) R oB oD s' /\ list_to_set (seqZ k cnt) ## D /\
      s' = with_dma s (dma s')
  | Err Dma.InvalidCount => Dma.DMA_POOL_PAGES < cnt /\ s' = s
  | Err Dma.Exhausted => (dma_base cfg = 0 \/ forall k, ~ Dma.run_free (dma s) k cnt) /\ s' = s
  end.
Proof.
  intros I Hc. unfold dma_alloc_pages.
  destruct (Z.eqb_spec (dma_base cfg) 0) as [Hb|Hb]; [do 2 eexists; split; [done|]; simpl; auto|].
  destruct (Dma.dma_alloc_spec (dma s) cnt (iv_dma _ _ _ _ _ _ I)) as (r & d & -> & Hp); [lia|].
  rewrite bind_Ret. pose proof (iv_D _ _ _ _ _ _ I) as PD.
  destruct r as [k|[|]]; simpl in Hp; do 2 eexists; (split; [done|]).
  - destruct Hp as (Hrun & _ & Hu & Wd & _). pose proof Hrun as (H1 & H2 & H3).
    exists k. split_and!; try done.
    + apply (inv_with_dma G D); [done|done|]. eapply pt_take; [exact PD| |].
      * intros x Hx%elem_of_list_to_set%elem_of_seqZ. split; [lia|]. apply H3. lia.
      * intros x Hx. rewrite Hu, orb_true_iff, in_range_spec, elem_of_list_to_set, elem_of_seqZ. done.
    + intros x Hx%elem_of_list_to_set%elem_of_seqZ Hd. destruct (pt_G _ _ _ _ PD x Hd) as [_ Ht].
      rewrite H3 in Ht by lia. done.
  - destruct Hp as [Hp ->]. split; [lia|by destruct s].
  - destruct Hp as [Hp ->]. split; [by right|by destruct s].
Qed.

Lemma commit_dma G D i oB oD s cnt k :
  inv G (D ∪ list_to_set (seqZ k cnt)) (Some i) oB oD s -> Tbl.first_none (table s) = Some i ->
  0 < cnt <= MAX_PRACTICAL_PAGES_PER_SET -> list_to_set (seqZ k cnt) ## D -> dma_base cfg <> 0 ->
  Hdr.origin (read_header s (slot_kva (Z.of_nat i))) = Some DmaPool ->
  pages (read_header s (slot_kva (Z.of_nat i))) cnt = daddr_of <$> seqZ k cnt ->
  exists s', insert_into_table s cnt (slot_kva (Z.of_nat i)) DmaPool = (Some i, s') /\
    s' = with_table s (<[i := Some (mkEntry cnt (slot_kva (Z.of_nat i)) DmaPool)]> (table s)) /\
    inv G D None oB (set_own oD i (seqZ k cnt)) s'.
Proof.
  intros I Hfn Hc Hdis Hb Ho Hp.
  destruct (transit_owns _ _ _ _ _ _ I) as [EB _].
  destruct (commit_spec _ _ _ _ _ _ (mkEntry cnt (slot_kva (Z.of_nat i)) DmaPool) [] (seqZ k cnt) I Hfn)
    as (s' & E & Es & Et & I'); try done; try apply NoDup_nil_2; try apply NoDup_seqZ; try apply empty_subseteq; try apply union_subseteq_r.
  { split; [done|]. simpl. split_and!; try done. by eexists. }
  exists s'. unfold insert_into_table. rewrite E. rewrite <- Es. split_and!; [done|by rewrite <- Et|].
  cbn [list_to_set] in I'. rewrite union_minus, difference_empty_L in I' by done.
  eapply inv_ext; [..|exact I']; [|done]. intros j. by apply set_own_nil.
Qed.

Lemma daddr_run k cnt : (fun i => daddr_of k + i * PAGE_SIZE) <$> seqZ 0 cnt = daddr_of <$> seqZ k cnt.
Proof.
  apply list_eq. intros j. rewrite !list_lookup_fmap.
  destruct (decide (Z.of_nat j < cnt)).
  - rewrite !lookup_seqZ_lt by lia. simpl. f_equal. unfold daddr_of. lia.
  - rewrite !lookup_seqZ_ge by lia. done.
Qed.

Lemma alloc_dma_pages_spec G D oB oD s cnt :
  inv G D None oB oD s -> 0 <= cnt ->
  exists r s', alloc_dma_pages s cnt = Ret (r, s') /\ alloc_dma_post G D oB oD s cnt r s'.
Proof.
  intros I H0. unfold alloc_dma_pages.
  destruct (Z.eqb_spec cnt 0) as [->|Hne]; [do 2 eexists; split; [done|]; simpl; auto|].
  destruct (Z.ltb_spec MAX_PRACTICAL_PAGES_PER_SET cnt) as [L|L].
  { do 2 eexists; split; [done|]. simpl. split_and!; try done. right.
    unfold MAX_PRACTICAL_PAGES_PER_SET, Dma.DMA_POOL_PAGES in *. lia. }
  cbn [orb]. assert (0 < cnt <= MAX_PRACTICAL_PAGES_PER_SET) as Hc by lia.
  destruct (hp_claim_spec _ _ _ _ _ cnt I Hc) as (r & s1 & -> & Hr). rewrite bind_Ret.
  destruct r as [kva|]; [|do 2 eexists; split; [done|]; destruct Hr as [-> Hr]; by split].
  destruct Hr as (i & -> & Hi & Hfn & I1 & Hzh & Eb & Ed & Et & Ez & _).
  destruct (dma_alloc_pages_spec _ _ _ _ _ _ cnt I1) as (p & s2 & -> & Hp); [lia|]. rewrite bind_Ret.
  destruct p as [pa|[|]].
  - destruct Hp as (k & -> & Hb & Hrun & I2 & Hdis & Es2).
    assert (read_header s2 (slot_kva (Z.of_nat i)) = zero_header) as -> by (by rewrite Es2).
    rewrite Hdr.set_count_spec, bind_Ret. cbn [zero_header h_refcount h_map_count h_pages].
    set (b0 := Hdr.mkBacked _ cnt _).
    destruct (dma_write_spec (daddr_of k) b0) as (b1 & E & W); [by split|].
    cbn [b0 Hdr.bk_count] in E, W. rewrite E, bind_Ret. rewrite Ed in Hrun.
    pose proof (Tbl.first_none_spec (table s)) as Hfs. rewrite Hfn in Hfs.
    set (s3 := with_header s2 _ _).
    assert (read_header s3 (slot_kva (Z.of_nat i)) = Hdr.bk_header b1) as Hrd
      by (unfold s3; by rewrite read_header_with, decide_True).
    destruct (commit_dma G D i oB oD s3 cnt k) as (s4 & -> & Es4 & I4); try done.
    + by apply inv_with_header.
    + unfold s3. rewrite Es2. simpl. by rewrite Et.
    + rewrite Hrd. unfold Hdr.origin. by rewrite (wr_origin _ _ _ _ W).
    + rewrite Hrd, (wr_pages _ _ _ _ W). apply daddr_run.
    + do 2 eexists. split; [done|]. simpl. split_and!; [by apply Hfs| | |by exists k].
      * rewrite Es4. unfold s3. rewrite Es2. simpl. by rewrite Et.
      * rewrite Es4. unfold s3. rewrite Es2. simpl. done.
  - destruct Hp as [Hp ->]. destruct (abort_spec _ _ _ _ _ _ I1) as (s3 & -> & I3 & Et3 & _); [by rewrite Et|].
    rewrite bind_Ret. do 2 eexists. split; [done|]. simpl. split_and!; [auto|done|congruence].
  - destruct Hp as [Hp ->]. destruct (abort_spec _ _ _ _ _ _ I1) as (s3 & -> & I3 & Et3 & _); [by rewrite Et|].
    rewrite bind_Ret. do 2 eexists. split; [done|]. simpl. rewrite Ed in Hp. split_and!; [auto|done|congruence].
Qed.

(** ** Contiguous allocation from the buddy allocator *)

Lemma k_alloc_contiguous_spec G D R oB oD s cnt :
  inv G D R oB oD s -> 0 < cnt <= MAX_PRACTICAL_PAGES_PER_SET ->
  exists order r s', order_for_count cnt = Ret order /\ cnt <= 2 ^ order /\ 0 <= order <= 63 /\
    (forall r', 0 <= r' -> cnt <= 2 ^ r' -> order <= r') /\
    k_alloc_contiguous s cnt = Ret (r, s') /\
  match r with
  | Some page => exists idx, start_addr page = addr_of idx /\ run_free (buddy s) order idx /\
      inv (G ∪ list_to_set (seqZ idx (2 ^ order))) D R oB oD s' /\
      list_to_set (seqZ idx (2 ^ order)) ## G /\ s' = with_buddy s (buddy s')
  | None => s' = s /\ forall b, ~ run_free (buddy s) order (b * 2 ^ order)
  end.
Proof.
  intros I Hc. pose proof (ck_plat Hcfg) as P. pose proof (pk_pages _ P) as Hmax.
  destruct (order_loop_spec 64 cnt 0) as (order & Eo & Ho & Hle & Hlow);
    [lia|lia|unfold MAX_PRACTICAL_PAGES_PER_SET in *; lia|by left|lia|].
  assert (order_for_count cnt = Ret order) as Eord.
  { unfold order_for_count. destruct (Z.leb_spec cnt 1) as [L|L]; [|exact Eo].
    destruct Hlow as [->|Hlow]; [done|]. pose proof (pow2_pos (order - 1)).
    destruct (decide (order = 0)) as [->|]; [done|]. lia. }
  pose proof (iv_wf _ _ _ _ _ _ I) as W. pose proof (iv_total _ _ _ _ _ _ I) as T.
  pose proof (iv_B _ _ _ _ _ _ I) as PB.
  unfold k_alloc_contiguous, FrameAlloc.alloc_pages_contiguous.
  rewrite (proj2 (Z.eqb_neq cnt 0)), Eord, bind_Ret by lia.
  destruct (alloc_spec (buddy s) order W) as (r & b' & -> & Hp); [lia|]. rewrite !bind_Ret. cbn [fst snd].
  exists order, (option_map (index_to_page (plat cfg)) r), (with_buddy s b'). split_and!; try done; try lia.
  { intros r' Hr' Hc'. destruct Hlow as [->|Hl]; [done|]. destruct (Z.lt_ge_cases r' order); [|done].
    pose proof (Z.pow_le_mono_r 2 r' (order - 1) ltac:(lia) ltac:(lia)). lia. }
  destruct r as [idx|]; cbn [option_map]; [|destruct Hp as [-> Hp]; split; [by destruct s|done]].
  destruct Hp as (Hm & Hrun & [W' T' F' A']). pose proof Hrun as (H1 & H2 & H3). rewrite T in *.
  pose proof (pow2_pos order ltac:(lia)).
  assert (forall x, idx <= x < idx + 2 ^ order -> abit (buddy s) x = false) as Hna.
  { intros x Hx. apply (wf_unalloc _ W); [lia|]. by apply H3. }
  exists idx. split_and!; try done.
  - apply index_to_page_start; [done|lia].
  - apply (inv_with_buddy G); try done. eapply pt_take; [exact PB| |].
    + intros x Hx%elem_of_list_to_set%elem_of_seqZ. split; [lia|by apply Hna].
    + intros x Hx. rewrite A', orb_true_iff, in_range_spec, elem_of_list_to_set, elem_of_seqZ. done.
  - intros x Hx%elem_of_list_to_set%elem_of_seqZ Hg. destruct (pt_G _ _ _ _ PB x Hg) as [_ Ht].
    rewrite Hna in Ht by lia. done.
Qed.

Lemma addr_run k cnt : (fun i => addr_of k + i * PAGE_SIZE) <$> seqZ 0 cnt = addr_of <$> seqZ k cnt.
Proof.
  apply list_eq. intros j. rewrite !list_lookup_fmap.
  destruct (decide (Z.of_nat j < cnt)).
  - rewrite !lookup_seqZ_lt by lia. simpl. f_equal. unfold addr_of. lia.
  - rewrite !lookup_seqZ_ge by lia. done.
Qed.

Definition alloc_contig_post (G D : gset Z) (oB oD : nat -> list Z) (s : KMem) (cnt : Z)
    (r : result nat AllocError) (s' : KMem) : Prop :=
  match r with
  | Ok id => exists order k, cnt <= 2 ^ order /\ 0 <= order /\
      (forall r', 0 <= r' -> cnt <= 2 ^ r' -> order <= r') /\
      table s !! id = Some None /\
      table s' = <[id := Some (mkEntry (2 ^ order) (slot_kva (Z.of_nat id)) Buddy)]> (table s) /\
      run_free (buddy s) order k /\ inv G D None (set_own oB id (seqZ k (2 ^ order))) oD s' /\
      forall x, x ∈ seqZ k (2 ^ order) -> addr_of x ∈ zeroed s'
  | Err EInvalidCount => (cnt = 0 \/ MAX_PRACTICAL_PAGES_PER_SET < cnt) /\ s' = s
  | Err EHeaderPoolExhausted =>
      (forall i, (i < Z.to_nat MAX_PAGESETS)%nat -> is_Some (mjoin (table s !! i))) /\ s' = s
  | Err EBuddyExhausted => exists order, order_for_count cnt = Ret order /\
      (forall b, ~ run_free (buddy s) order (b * 2 ^ order)) /\
      inv G D None oB oD s' /\ table s' = table s /\ buddy s' = buddy s
  | Err _ => False
  end.

Lemma alloc_pages_contiguous_spec G D oB oD s cnt :
  inv G D None oB oD s -> 0 <= cnt ->
  exists r s', alloc_pages_contiguous s cnt = Ret (r, s') /\ alloc_contig_post G D oB oD s cnt r s'.
Proof.
  intros I H0. unfold alloc_pages_contiguous.
  destruct (Z.eqb_spec cnt 0) as [->|Hne]; [do 2 eexists; split; [done|]; simpl; auto|].
  destruct (Z.ltb_spec MAX_PRACTICAL_PAGES_PER_SET cnt) as [L|L]; [do 2 eexists; split; [done|]; simpl; auto|].
  cbn [orb]. assert (0 < cnt <= MAX_PRACTICAL_PAGES_PER_SET) as Hc by lia.
  destruct (k_alloc_contiguous_spec _ _ _ _ _ _ cnt I Hc) as (order & _ & _ & Eo & Hle & Ho & Hleast & _).
  rewrite Eo, bind_Ret, Z.shiftl_1_l. pose proof (pow2_pos order ltac:(lia)) as Hpos.
  assert (2 ^ order <= MAX_PRACTICAL_PAGES_PER_SET) as Hmax.
  { change MAX_PRACTICAL_PAGES_PER_SET with (2 ^ 14). apply Z.pow_le_mono_r; [lia|]. by apply Hleast. }
  rewrite (proj2 (Z.ltb_ge _ _) Hmax).
  destruct (hp_claim_spec _ _ _ _ _ (2 ^ order) I) as (r & s1 & -> & Hr); [lia|]. rewrite bind_Ret.
  destruct r as [kva|]; [|do 2 eexists; split; [done|]; destruct Hr as [-> Hr]; by split].
  destruct Hr as (i & -> & Hi & Hfn & I1 & Hzh & Eb & Ed & Et & Ez & _).
  destruct (k_alloc_contiguous_spec _ _ _ _ _ _ cnt I1 Hc) as (order' & p & s2 & Eo' & _ & _ & _ & -> & Hp).
  assert (order' = order) as -> by congruence. rewrite bind_Ret. rewrite Eb in Hp.
  pose proof (Tbl.first_none_spec (table s)) as Hfs. rewrite Hfn in Hfs.
  destruct p as [page|].
  - destruct Hp as (k & Hst & Hrun & I2 & Hdis & Es2). rewrite Hst.
    assert (read_header s2 (slot_kva (Z.of_nat i)) = zero_header) as -> by (by rewrite Es2).
    rewrite Hdr.set_count_spec, bind_Ret. cbn [zero_header h_refcount h_map_count h_pages].
    set (b0 := Hdr.mkBacked _ (2 ^ order) _).
    destruct (write_run_spec (addr_of k) s2 b0) as (s2' & b1 & E & W & Es2' & Hz); [split; [simpl; lia|done]|].
    cbn [b0 Hdr.bk_count] in E, W, Hz. rewrite E, bind_Ret. cbn [fst snd].
    assert (inv (G ∪ list_to_set (seqZ k (2 ^ order))) D (Some i) oB oD s2') as I2'
      by (rewrite Es2'; by destruct I2; constructor).
    set (s3 := with_header s2' _ _).
    assert (read_header s3 (slot_kva (Z.of_nat i)) = Hdr.bk_header b1) as Hrd
      by (unfold s3; by rewrite read_header_with, decide_True).
    destruct (commit_buddy G D i oB oD s3 (2 ^ order) (seqZ k (2 ^ order))) as (s4 & -> & Es4 & I4); try done.
    + by apply inv_with_header.
    + unfold s3. rewrite Es2', Es2. simpl. by rewrite Et.
    + apply NoDup_seqZ.
    + rewrite Hrd. unfold Hdr.origin. by rewrite (wr_origin _ _ _ _ W).
    + rewrite Hrd, (wr_pages _ _ _ _ W). apply addr_run.
    + do 2 eexists. split; [done|]. exists order, k. split_and!; try done; try lia; [by apply Hfs| |].
      * rewrite Es4. unfold s3. rewrite Es2', Es2. simpl. by rewrite Et.
      * intros x Hx%elem_of_seqZ. rewrite Es4. simpl.
        replace (addr_of x) with (addr_of k + (x - k) * PAGE_SIZE) by (unfold addr_of; lia). apply Hz. lia.
  - destruct Hp as [-> Hp]. destruct (abort_spec _ _ _ _ _ _ I1) as (s3 & -> & I3 & Et3 & Eb3 & _); [by rewrite Et|].
    rewrite bind_Ret. do 2 eexists. split; [done|]. simpl. exists order. split_and!; try done; congruence.
Qed.

(** ** Registration of external pages *)

Definition register_post (G D : gset Z) (oB oD : nat -> list Z) (s : KMem) (addrs : list Z)
    (r : result nat AllocError) (s' : KMem) : Prop :=
  match r with
  | Ok id =>
      table s !! id = Some None /\
      table s' = <[id := Some (mkEntry (Z.of_nat (length addrs)) (slot_kva (Z.of_nat id)) ExternallyOwned)]> (table s) /\
      buddy s' = buddy s /\ dma s' = dma s /\ inv G D None oB oD s' /\
      pages (read_header s' (slot_kva (Z.of_nat id))) (Z.of_nat (length addrs)) = addrs
  | Err EHeaderPoolExhausted =>
      (forall i, (i < Z.to_nat MAX_PAGESETS)%nat -> is_Some (mjoin (table s !! i))) /\ s' = s
  | Err _ => False
  end.

Lemma pages_all h addrs :
  (forall j, 0 <= j < Z.of_nat (length addrs) -> arr_peek (h_pages h) j = default 0 (addrs !! Z.to_nat j)) ->
  pages h (Z.of_nat (length addrs)) = addrs.
Proof.
  intros H. apply list_eq. intros j. unfold pages. rewrite list_lookup_fmap.
  destruct (decide (j < length addrs)%nat) as [L|L].
  - rewrite lookup_seqZ_lt, Z.add_0_l by lia. cbn [fmap option_fmap option_map].
    rewrite H, Nat2Z.id by lia. destruct (lookup_lt_is_Some_2 addrs j L) as [x ->]. done.
  - rewrite lookup_seqZ_ge by lia. rewrite lookup_ge_None_2 by lia. done.
Qed.

Lemma register_spec G D oB oD s addrs :
  inv G D None oB oD s -> 0 < Z.of_nat (length addrs) <= MAX_PRACTICAL_PAGES_PER_SET ->
  exists r s', alloc_and_insert_header s addrs (Z.of_nat (length addrs)) ExternallyOwned = Ret (r, s') /\
    register_post G D oB oD s addrs r s'.
Proof.
  intros I Hc. unfold alloc_and_insert_header.
  destruct (hp_claim_spec _ _ _ _ _ _ I Hc) as (r & s1 & -> & Hr). rewrite bind_Ret.
  destruct r as [kva|]; [|do 2 eexists; split; [done|]; destruct Hr as [-> Hr]; by split].
  destruct Hr as (i & -> & Hi & Hfn & I1 & Hzh & Eb & Ed & Et & Ez & _).
  unfold Hdr.init. rewrite Hdr.set_count_spec, bind_Ret, Hzh. cbn [Hdr.bk_header Hdr.bk_count Hdr.bk_backing_pages].
  set (b2 := Hdr.mkBacked _ _ _).
  destruct (Hdr.set_pages_spec addrs b2 0) as (b' & -> & Hcn & Ho & _ & _ & Hp); [by split|lia|simpl; lia|].
  rewrite bind_Ret. set (s2 := with_header s1 _ _).
  pose proof (Tbl.first_none_spec (table s)) as Hfs. rewrite Hfn in Hfs.
  assert (read_header s2 (slot_kva (Z.of_nat i)) = Hdr.bk_header b') as Hrd
    by (unfold s2; by rewrite read_header_with, decide_True).
  destruct (transit_owns _ _ _ _ _ _ I1) as [EB ED].
  destruct (commit_spec G D i oB oD s2 (mkEntry (Z.of_nat (length addrs)) (slot_kva (Z.of_nat i)) ExternallyOwned) [] [])
    as (s' & -> & Es & Et' & I'); try done; try apply NoDup_nil_2; try apply empty_subseteq; try apply union_subseteq_r.
  - by apply inv_with_header.
  - unfold s2. simpl. by rewrite Et.
  - rewrite Hrd. split; [|done]. unfold Hdr.origin. by rewrite Ho.
  - do 2 eexists. split; [done|]. rewrite <- Es. simpl. split_and!; [by apply Hfs| | | | |].
    + rewrite Et'. unfold s2. simpl. by rewrite Et.
    + rewrite Es. unfold s2. simpl. done.
    + rewrite Es. unfold s2. simpl. done.
    + cbn [list_to_set] in I'. rewrite !difference_empty_L in I'.
      eapply inv_ext; [..|exact I']; intros k; by apply set_own_nil.
    + rewrite Es. change (read_header (with_table s2 (table s'))) with (read_header s2). rewrite Hrd.
      apply pages_all. intros j Hj. rewrite Hp, decide_True by lia. by rewrite Z.sub_0_r.
Qed.

(** ** Donation: the registration goes, the data pages stay with the kernel *)
Lemma consume_release_spec G D oB oD s i e :
  inv G D None oB oD s -> table s !! i = Some (Some e) ->
  exists s', free_header_page s (slot_kva (Z.of_nat i)) = Ret s' /\ table s' = <[i := None]> (table s) /\
    inv (G ∪ list_to_set (oB i)) (D ∪ list_to_set (oD i)) None (set_own oB i []) (set_own oD i []) s'.
Proof.
  intros I He. pose proof (detach_spec _ _ _ _ _ _ _ I He) as Id.
  destruct (retire_spec _ _ _ _ _ _ e Id He) as (s' & E & I' & Et & _). by exists s'.
Qed.

(** * Sequences of operations *)

Inductive kop :=
  | KAlloc (cnt : Z)
  | KAllocContiguous (cnt : Z)
  | KAllocDma (cnt : Z)
  | KRegisterDevice (phys_addr : Z)
  | KRegisterExisting (cnt : Z) (pages : list Z)
  | KFree (id : nat)
  | KDonate (id : nat).

(** One operation; releases act on registered PageSets. *)
Definition kstep (op : kop) (s : KMem) : outcome (option (result nat AllocError) * KMem) :=
  match op with
  | KAlloc cnt => r ← alloc_pages s cnt; Ret (Some r.1, r.2)
  | KAllocContiguous cnt => r ← alloc_pages_contiguous s cnt; Ret (Some r.1, r.2)
  | KAllocDma cnt => r ← alloc_dma_pages s cnt; Ret (Some r.1, r.2)
  | KRegisterDevice a => r ← register_device_page s a; Ret (Some r.1, r.2)
  | KRegisterExisting cnt ps => r ← register_existing s cnt ps; Ret (Some r.1, r.2)
  | KFree id =>
      match mjoin (table s !! id) with
      | Some e => s' ← free_by_header_kva s (e_header_kva e); Ret (None, s')
      | None => Ret (None, s)
      end
  | KDonate id =>
      match mjoin (table s !! id) with
      | Some e => s' ← free_header_page s (e_header_kva e); Ret (None, s')
      | None => Ret (None, s)
      end
  end.

Definition kop_ok (op : kop) : Prop :=
  match op with
  | KAlloc cnt | KAllocContiguous cnt | KAllocDma cnt | KRegisterExisting cnt _ => 0 <= cnt
  | _ => True
  end.

Fixpoint krun (ops : list kop) (s : KMem) : outcome (list (option (result nat AllocError)) * KMem) :=
  match ops with
  | [] => Ret ([], s)
  | op :: ops' =>
      r ← kstep op s;
      rs ← krun ops' r.2;
      Ret (r.1 :: rs.1, rs.2)
  end.

Definition is_donate (op : kop) : bool := match op with KDonate _ => true | _ => false end.

(** The invariant, with the kernel-held pages [G] and [D] growing only by
    donations. *)
Definition kinv (G D : gset Z) (s : KMem) : Prop := exists oB oD, inv G D None oB oD s.

Lemma kinv_intro G D oB oD s : inv G D None oB oD s -> kinv G D s.
Proof. intros I. by exists oB, oD. Qed.

Lemma joined_lookup (t : PageSetTable) i e : mjoin (t !! i) = Some e -> t !! i = Some (Some e).
Proof. destruct (t !! i) as [[e'|]|]; simpl; congruence. Qed.

(** Each operation's outcome keeps the invariant and never finds the table
    full: a claimed header slot is always a free table slot. *)
Definition good (G D : gset Z) (r : result nat AllocError) (s' : KMem) : Prop :=
  r <> Err EPageSetTableFull /\ kinv G D s'.

Lemma alloc_pages_good G D oB oD s cnt r s' :
  inv G D None oB oD s -> alloc_pages_post G D oB oD s cnt r s' -> good G D r s'.
Proof.
  intros I Hp. destruct r as [id|[]]; simpl in Hp; try done; (split; [done|]).
  - destruct Hp as (_ & _ & _ & _ & _ & L & I' & _). by eapply kinv_intro.
  - destruct Hp as [_ ->]. by eapply kinv_intro.
  - destruct Hp as [_ ->]. by eapply kinv_intro.
  - destruct Hp as (_ & I' & _). by eapply kinv_intro.
Qed.

Lemma alloc_contig_good G D oB oD s cnt r s' :
  inv G D None oB oD s -> alloc_contig_post G D oB oD s cnt r s' -> good G D r s'.
Proof.
  intros I Hp. destruct r as [id|[]]; simpl in Hp; try done; (split; [done|]).
  - destruct Hp as (order & k & _ & _ & _ & _ & _ & _ & I' & _). by eapply kinv_intro.
  - destruct Hp as [_ ->]. by eapply kinv_intro.
  - destruct Hp as [_ ->]. by eapply kinv_intro.
  - destruct Hp as (order & _ & _ & I' & _). by eapply kinv_intro.
Qed.

Lemma alloc_dma_good G D oB oD s cnt r s' :
  inv G D None oB oD s -> alloc_dma_post G D oB oD s cnt r s' -> good G D r s'.
Proof.
  intros I Hp. destruct r as [id|[]]; simpl in Hp; try done; (split; [done|]).
  - destruct Hp as (_ & _ & _ & k & _ & I'). by eapply kinv_intro.
  - destruct Hp as (_ & I' & _). by eapply kinv_intro.
  - destruct Hp as [_ ->]. by eapply kinv_intro.
  - destruct Hp as (_ & I' & _). by eapply kinv_intro.
Qed.

Lemma register_good G D oB oD s addrs r s' :
  inv G D None oB oD s -> register_post G D oB oD s addrs r s' -> good G D r s'.
Proof.
  intros I Hp. destruct r as [id|[]]; simpl in Hp; try done; (split; [done|]).
  - destruct Hp as (_ & _ & _ & _ & I' & _). by eapply kinv_intro.
  - destruct Hp as [_ ->]. by eapply kinv_intro.
Qed.

Lemma register_existing_good G D oB oD s cnt ps :
  inv G D None oB oD s -> 0 <= cnt -> exists r s', register_existing s cnt ps = Ret (r, s') /\ good G D r s'.
Proof.
  intros I Hc. unfold register_existing, MAX_REGISTER_EXISTING_PAGES.
  destruct ((cnt =? 0) || (64 <? cnt) || (Z.of_nat (length ps) <? cnt)) eqn:Ec.
  { do 2 eexists. split; [done|]. split; [done|]. by eapply kinv_intro. }
  apply orb_false_iff in Ec as [[E1 E2]%orb_false_iff E3].
  assert (length (start_addr <$> take (Z.to_nat cnt) ps) = Z.to_nat cnt) as Hl
    by (rewrite length_fmap, length_take; lia).
  destruct (register_spec _ _ _ _ _ (start_addr <$> take (Z.to_nat cnt) ps) I) as (r & s' & E & Hp).
  { rewrite Hl. unfold MAX_PRACTICAL_PAGES_PER_SET. lia. }
  rewrite Hl, Z2Nat.id in E by lia. exists r, s'. split; [done|]. by eapply register_good.
Qed.

Lemma kstep_spec G D s op :
  kinv G D s -> kop_ok op ->
  exists r s' G' D', kstep op s = Ret (r, s') /\ r <> Some (Err EPageSetTableFull) /\ kinv G' D' s' /\
    G ⊆ G' /\ D ⊆ D' /\ (is_donate op = false -> G' = G /\ D' = D).
Proof.
  intros (oB & oD & I) Hop.
  assert (forall (m : outcome (result nat AllocError * KMem)),
    (exists r s', m = Ret (r, s') /\ good G D r s') ->
    exists r s' G' D', (r ← m; Ret (Some r.1, r.2)) = Ret (r, s') /\ r <> Some (Err EPageSetTableFull) /\
      kinv G' D' s' /\ G ⊆ G' /\ D ⊆ D' /\ (is_donate op = false -> G' = G /\ D' = D)) as Hgood.
  { intros m (r & s' & -> & Hr & Hk). rewrite bind_Ret. exists (Some r), s', G, D. split_and!; try done. congruence. }
  destruct op as [cnt|cnt|cnt|a|cnt ps|id|id]; simpl in Hop; cbn [kstep].
  - apply Hgood. destruct (alloc_pages_spec _ _ _ _ _ cnt I Hop) as (r & s' & E & Hp).
    exists r, s'. split; [done|]. by eapply alloc_pages_good.
  - apply Hgood. destruct (alloc_pages_contiguous_spec _ _ _ _ _ cnt I Hop) as (r & s' & E & Hp).
    exists r, s'. split; [done|]. by eapply alloc_contig_good.
  - apply Hgood. destruct (alloc_dma_pages_spec _ _ _ _ _ cnt I Hop) as (r & s' & E & Hp).
    exists r, s'. split; [done|]. by eapply alloc_dma_good.
  - apply Hgood. destruct (register_spec _ _ _ _ _ [a] I) as (r & s' & E & Hp).
    { simpl. unfold MAX_PRACTICAL_PAGES_PER_SET. lia. }
    exists r, s'. split; [exact E|]. by eapply register_good.
  - apply Hgood. by eapply register_existing_good.
  - destruct (mjoin (table s !! id)) as [e|] eqn:E.
    + apply joined_lookup in E. destruct (iv_entry _ _ _ _ _ _ I id e E) as [-> _].
      destruct (free_by_header_kva_spec _ _ _ _ _ _ _ I E) as (s' & -> & [I' _ _ _]). rewrite bind_Ret.
      exists None, s', G, D. split_and!; try done. by eapply kinv_intro.
    + exists None, s, G, D. split_and!; try done. by eapply kinv_intro.
  - destruct (mjoin (table s !! id)) as [e|] eqn:E.
    + apply joined_lookup in E. destruct (iv_entry _ _ _ _ _ _ I id e E) as [-> _].
      destruct (consume_release_spec _ _ _ _ _ _ _ I E) as (s' & -> & _ & I'). rewrite bind_Ret.
      exists None, s', (G ∪ list_to_set (oB id)), (D ∪ list_to_set (oD id)).
      split_and!; [done|done|by eapply kinv_intro|apply union_subseteq_l|apply union_subseteq_l|done].
    + exists None, s, G, D. split_and!; try done. by eapply kinv_intro.
Qed.

Lemma krun_spec ops : forall G D s,
  kinv G D s -> Forall kop_ok ops ->
  exists rs s' G' D', krun ops s = Ret (rs, s') /\ ~ (Some (Err EPageSetTableFull) ∈ rs) /\ kinv G' D' s' /\
    G ⊆ G' /\ D ⊆ D' /\ (existsb is_donate ops = false -> G' = G /\ D' = D).
Proof.
  induction ops as [|op ops IH]; intros G D s I Hok; cbn [krun].
  { do 4 eexists. split; [done|]. split_and!; try done. set_solver. }
  apply Forall_cons in Hok as [Hop Hok].
  destruct (kstep_spec G D s op I Hop) as (r & s1 & G1 & D1 & -> & Hr & I1 & HG1 & HD1 & Hd1). rewrite bind_Ret.
  destruct (IH G1 D1 s1 I1 Hok) as (rs & s2 & G2 & D2 & E & Hrs & I2 & HG2 & HD2 & Hd2).
  cbn [snd]. rewrite E, bind_Ret. do 4 eexists. split; [done|]. split_and!; try done.
  - cbn [fst]. intros [Heq|Hin]%elem_of_cons; [by apply Hr|done].
  - by etransitivity.
  - by etransitivity.
  - simpl. intros [H1 H2]%orb_false_iff. destruct (Hd1 H1) as [-> ->]. by apply Hd2.
Qed.

(** ** The state boot leaves *)
Definition kboot (b : BuddyAllocator) : KMem :=
  mkKMem b Dma.empty HeaderPool.new ∅ Tbl.new ∅.

(** No PageSet exists; the buddy pages in use are held by the kernel. *)
Lemma kboot_held G b :
  WF b -> Buddy.total_pages b = total_pages (plat cfg) ->
  (forall x, 0 <= x < total_pages (plat cfg) -> abit b x = true -> x ∈ G) ->
  (forall x, x ∈ G -> 0 <= x < total_pages (plat cfg) /\ abit b x = true) ->
  inv G ∅ None (fun _ => []) (fun _ => []) (kboot b).
Proof.
  intros W T HG HG'.
  assert (forall i, mjoin (Tbl.new !! i) = None) as Hnew.
  { intros i. destruct (decide (i < Z.to_nat MAX_PAGESETS)%nat) as [L|L].
    - unfold Tbl.new. rewrite lookup_replicate_2 by done. done.
    - unfold Tbl.new. rewrite lookup_ge_None_2; [done|]. rewrite length_replicate. lia. }
  constructor; cbn [kboot buddy dma hpool table];
    [done|done|apply Dma.WF_empty|apply HeaderPool.WF_new|apply length_replicate|..]; try done.
  - intros i Hi. unfold HeaderPool.used. cbn [HeaderPool.free_bits HeaderPool.new]. rewrite bm_bit_empty.
    rewrite Hnew. split; [done|]. by intros [[? ?]|].
  - intros i e He. pose proof (Hnew i) as Hn. by rewrite He in Hn.
  - intros i. unfold slot_ok. cbn [kboot table]. by rewrite Hnew.
  - constructor; [done|done|intros x Hr Hx; left; by apply HG|done].
  - constructor; [done|done| |intros x Hx; set_solver].
    intros x _ Hx. unfold Dma.used in Hx. cbn [Dma.bitmap Dma.empty] in Hx. by rewrite bm_bit_empty in Hx.
Qed.

Lemma kboot_inv b f :
  view b (total_pages (plat cfg)) f (fun _ => false) -> kinv ∅ ∅ (kboot b).
Proof.
  intros [W T F A]. exists (fun _ => []), (fun _ => []). apply kboot_held; try done.
  - intros x _ Hx. by rewrite A in Hx.
Qed.

End KPageSet.

(** * The frame allocator interface

    The kernel memory as a source of frames. [kheld] fixes what the PageSets
    own; only the frames held by the kernel vary. *)
Definition kframes (cfg : Config) : FrameOps KMem :=
  {| fr_alloc_page := k_alloc_page cfg; fr_dealloc_page := k_dealloc_page cfg |}.

Definition frame_of (cfg : Config) (idx : Z) : Z := index_to_page (plat cfg) idx.

Definition kheld (cfg : Config) (D : gset Z) (oB oD : nat -> list Z) (s0 : KMem) (K : gset Z) (s : KMem) : Prop :=
  exists G, (forall p, p ∈ K <-> exists idx, idx ∈ G /\ p = frame_of cfg idx) /\
    inv cfg G D None oB oD s /\ frames_only s0 s.

Lemma frame_of_eq cfg idx : config_ok cfg -> 0 <= idx < total_pages (plat cfg) ->
  frame_of cfg idx * PAGE_SIZE = addr_of cfg idx /\ 0 <= frame_of cfg idx < 2 ^ 36.
Proof.
  intros [P _] Hi. pose proof (index_to_page_start _ _ P Hi) as E.
  pose proof (pk_base _ P). pose proof (pk_align _ P) as Ha. pose proof (pk_top _ P).
  unfold frame_of, addr_of, index_to_page, containing_page, ram_start, PAGE_SHIFT in *.
  rewrite Z.shiftr_div_pow2 in * by lia. change (2 ^ 12) with PAGE_SIZE in *.
  assert ((ram_base (plat cfg) + idx * PAGE_SIZE) mod PAGE_SIZE = 0) as Hm by (by rewrite Z.mod_add by done).
  assert (idx * PAGE_SIZE < ram_size (plat cfg)) as Hs.
  { unfold total_pages in Hi. pose proof (Z.mul_div_le (ram_size (plat cfg)) PAGE_SIZE ltac:(done)).
    unfold PAGE_SIZE in *. lia. }
  pose proof (Z.div_mod (ram_base (plat cfg) + idx * PAGE_SIZE) PAGE_SIZE ltac:(done)) as Hd.
  unfold ram_end, PAGE_SIZE in *. split; [lia|]. split; [apply Z.div_pos; lia|apply Z.div_lt_upper_bound; lia].
Qed.

Lemma frame_of_inj cfg i j : config_ok cfg ->
  0 <= i < total_pages (plat cfg) -> 0 <= j < total_pages (plat cfg) -> frame_of cfg i = frame_of cfg j -> i = j.
Proof.
  intros C Hi Hj E. destruct (frame_of_eq cfg i C Hi) as [Ei _], (frame_of_eq cfg j C Hj) as [Ej _].
  unfold addr_of, PAGE_SIZE in *. rewrite E in Ei. lia.
Qed.

Lemma kheld_laws cfg D oB oD s0 : config_ok cfg -> @FrameLaws KMem (kframes cfg) (kheld cfg D oB oD s0).
Proof.
  intros C. constructor.
  - intros K s (G & HK & I & F). destruct (k_alloc_page_spec cfg C _ _ _ _ _ s I) as (r & s' & E & Hr).
    exists r, s'. split; [exact E|]. destruct r as [p|]; [|tauto].
    destruct Hr as (idx & (-> & _ & Hi) & Hn & _ & _ & I' & Es & _). fold (frame_of cfg idx).
    assert (forall i, i ∈ G -> 0 <= i < total_pages (plat cfg)) as HG.
    { intros i Hg. by apply (pt_G _ _ _ _ (iv_B _ _ _ _ _ _ _ I)). }
    split_and!; [|apply frame_of_eq; done|apply frame_of_eq; done|].
    + rewrite HK. intros (j & Hj & Ej). apply frame_of_inj in Ej; [by subst|done|done|by apply HG].
    + exists (G ∪ {[idx]}). split_and!; [|done|rewrite Es; exact F].
      intros p. rewrite elem_of_union, elem_of_singleton, HK. split.
      * intros [(j & Hj & ->)| ->]; [exists j|exists idx]; set_solver.
      * intros (j & [Hj| ->%elem_of_singleton]%elem_of_union & ->); [left; by exists j|by right].
  - intros K s p (G & HK & I & F) Hp. apply HK in Hp as (idx & Hidx & ->).
    assert (forall i, i ∈ G -> 0 <= i < total_pages (plat cfg)) as HG.
    { intros i Hg. by apply (pt_G _ _ _ _ (iv_B _ _ _ _ _ _ _ I)). }
    destruct (k_dealloc_page_spec cfg C _ _ _ _ _ s idx I Hidx) as (s' & E & I' & Es & _).
    exists s'. split; [exact E|]. exists (G ∖ {[idx]}). split_and!; [|done|rewrite Es; exact F].
    intros p. rewrite elem_of_difference, elem_of_singleton, HK. split.
    + intros [(j & Hj & ->) Hne]. exists j. split; [|done]. apply elem_of_difference. split; [done|].
      intros ->%elem_of_singleton. done.
    + intros (j & [Hj Hne]%elem_of_difference & ->). split; [by exists j|]. intros Ej.
      apply Hne. apply elem_of_singleton. by apply (frame_of_inj cfg); auto.
Qed.

(** * Theorems *)

(** The configuration boot computes. *)
Definition boot_config (pl : Platform) (pool_base : Z) (pool : option Z) : Config :=
  mkConfig pl pool_base (default 0 pool).

Lemma boot_config_ok pl ke ss se pool_base pool :
  layout_ok pl ke ss se ->
  (forall base, pool = Some base -> base mod 2 ^ 21 = 0 /\ ram_base pl <= base /\
     up_page pl se <= down_page pl base /\ base + Dma.DMA_POOL_PAGES * PAGE_SIZE <= ram_end pl) ->
  config_ok (boot_config pl pool_base pool).
Proof.
  intros [P _ _] Hp. constructor; simpl; [done|].
  destruct pool as [base|]; [|done]. destruct (Hp base eq_refl) as (Ha & Hb & _).
  pose proof (pk_base _ P). simpl. split; [lia|]. apply Z.mod_divide in Ha as [q ->]; [|done].
  replace (q * 2 ^ 21) with (q * 512 * PAGE_SIZE) by (unfold PAGE_SIZE; lia). by apply Z.mod_mul.
Qed.

(** C11: PageSet safety. Boot any machine whose kernel image and stacks lie
    in RAM, then run any sequence of PageSet allocations (page by page,
    contiguous, from the DMA pool), registrations of device and firmware
    pages, frees and donations. Nothing panics, no allocation ever reports a
    full table (a claimed header slot is always a free table slot), and the
    ownership invariant holds at the end: each buddy page and each DMA page in
    use belongs to exactly one PageSet or was donated to the kernel, and
    without donations no page is held by the kernel at all, so no error path
    leaks a page. *)
Theorem pagesets_safe pl ke ss se pool_base ops :
  layout_ok pl ke ss se -> Forall kop_ok ops ->
  exists b pool rs s' G D,
    init_with_gap pl Buddy.new ke ss se = Ret (b, pool) /\
    krun (boot_config pl pool_base pool) ops (kboot b) = Ret (rs, s') /\
    ~ (Some (Err EPageSetTableFull) ∈ rs) /\
    kinv (boot_config pl pool_base pool) G D s' /\
    (existsb is_donate ops = false -> G = ∅ /\ D = ∅).
Proof.
  intros L Hops. destruct (init_with_gap_spec pl ke ss se L) as (b & pool & E & V & Hpool).
  pose proof (boot_config_ok pl ke ss se pool_base pool L Hpool) as Hcfg.
  pose proof (kboot_inv (boot_config pl pool_base pool) Hcfg b _ V) as K.
  destruct (krun_spec _ Hcfg ops _ _ _ K Hops) as (rs & s' & G & D & Er & Hrs & K' & _ & _ & Hd).
  by exists b, pool, rs, s', G, D.
Qed.

Lemma pagesets_safe_witness :
  exists b pool rs s' G D,
    init_with_gap (mkPlatform 1073741824 134217728) Buddy.new 1075838976 1077936128 1078984704 = Ret (b, pool) /\
    krun (boot_config (mkPlatform 1073741824 134217728) 4096 pool)
      [KAlloc 3; KAllocDma 2; KFree 0; KAllocContiguous 5; KDonate 0] (kboot b) = Ret (rs, s') /\
    ~ (Some (Err EPageSetTableFull) ∈ rs) /\
    kinv (boot_config (mkPlatform 1073741824 134217728) 4096 pool) G D s' /\
    (existsb is_donate [KAlloc 3; KAllocDma 2; KFree 0; KAllocContiguous 5; KDonate 0] = false -> G = ∅ /\ D = ∅).
Proof.
  apply pagesets_safe; [|repeat constructor; simpl; lia].
  constructor; [constructor|..]; done.
Defined.

(** C27: PageSet allocation, page by page. Under the ownership invariant
    [alloc_pages] never panics, and returns [InvalidCount] for a count of 0 or
    above the cap, [HeaderPoolExhausted] when all 128 slots are registered,
    [BuddyExhausted] when fewer than [count] pages are free (every page
    already taken is given back), and otherwise registers, in the first free
    slot, [count] distinct pages that were free, now all zeroed and owned by
    the new PageSet, whose reference and mapping counts are zero. *)
Theorem alloc_pages_exact cfg G D oB oD s cnt :
  config_ok cfg -> inv cfg G D None oB oD s -> 0 <= cnt ->
  exists r s', alloc_pages cfg s cnt = Ret (r, s') /\ alloc_pages_post cfg G D oB oD s cnt r s' /\
    (r = Err EBuddyExhausted -> 0 < cnt <= MAX_PRACTICAL_PAGES_PER_SET).
Proof.
  intros Hcfg I Hc. destruct (alloc_pages_spec cfg Hcfg _ _ _ _ _ cnt I Hc) as (r & s' & E & Hp).
  exists r, s'. split_and!; try done. intros ->. unfold alloc_pages in E.
  destruct (Z.eqb_spec cnt 0) as [->|]; [done|].
  destruct (Z.ltb_spec MAX_PRACTICAL_PAGES_PER_SET cnt); [done|]. lia.
Qed.

Definition witness_platform : Platform := mkPlatform 1073741824 134217728.

Lemma witness_boot :
  exists b pool, config_ok (boot_config witness_platform 4096 pool) /\
    kinv (boot_config witness_platform 4096 pool) ∅ ∅ (kboot b).
Proof.
  assert (layout_ok witness_platform 1075838976 1077936128 1078984704) as L
    by (constructor; [constructor|..]; done).
  destruct (init_with_gap_spec _ _ _ _ L) as (b & pool & E & V & Hpool).
  pose proof (boot_config_ok _ _ _ _ 4096 pool L Hpool) as Hcfg. exists b, pool. split; [done|].
  eapply kboot_inv; [done|exact V].
Qed.

Lemma alloc_pages_exact_witness :
  exists cfg s oB oD r s',
    inv cfg ∅ ∅ None oB oD s /\ alloc_pages cfg s 3 = Ret (r, s') /\
    alloc_pages_post cfg ∅ ∅ oB oD s 3 r s'.
Proof.
  destruct witness_boot as (b & pool & Hcfg & oB & oD & I).
  destruct (alloc_pages_exact _ ∅ ∅ oB oD (kboot b) 3 Hcfg I) as (r & s' & E & Hp & _); [lia|].
  by exists (boot_config witness_platform 4096 pool), (kboot b), oB, oD, r, s'.
Defined.

(** C29: Freeing a registered PageSet. Under the ownership invariant
    [free_by_header_kva] on a registered header never panics: exactly the
    PageSet's own pages return to the allocator of their origin, nothing
    happens to externally owned pages, the table slot and the header slot
    become free, and every other PageSet is untouched. Freeing right after
    [alloc_pages] restores the table, the free pages and the DMA pool. *)
Theorem free_pageset_exact cfg G D oB oD s i e :
  config_ok cfg -> inv cfg G D None oB oD s -> table s !! i = Some (Some e) ->
  (exists s', free_by_header_kva cfg s (e_header_kva e) = Ret s' /\ freed cfg G D oB oD i s s') /\
  (forall s0 oB0 cnt, inv cfg G D None oB0 oD s0 -> 0 <= cnt ->
     alloc_pages cfg s0 cnt = Ret (Ok i, s) ->
     exists s', free_by_header_kva cfg s (e_header_kva e) = Ret s' /\ table s' = table s0 /\
       (forall q, 0 <= q < MAX_PAGES -> page_free (buddy s') q = page_free (buddy s0) q)).
Proof.
  intros Hcfg I He. destruct (iv_entry _ _ _ _ _ _ _ I i e He) as [-> _]. split.
  - by eapply free_by_header_kva_spec.
  - intros s0 oB0 cnt I0 Hc Ea.
    destruct (alloc_pages_spec cfg Hcfg _ _ _ _ _ cnt I0 Hc) as (r & s1 & E1 & Hp).
    rewrite Ea in E1. injection E1 as <- <-. destruct Hp as (Hn & Ht & _ & _ & _ & L & I1 & _ & _ & HL & Hq0).
    destruct (free_by_header_kva_spec cfg Hcfg _ _ _ _ _ _ _ I1 He) as (s' & E' & [I' Ht' Hp' _]).
    exists s'. split; [done|]. split.
    + rewrite Ht', Ht, list_insert_insert_eq. by apply list_insert_id.
    + intros q Hq. rewrite Hp', set_own_eq, Hq0 by done.
      destruct (decide (q ∈ L)) as [Hin|Hin].
      * rewrite bool_decide_true by done. destruct (HL q Hin) as [-> _]. done.
      * rewrite bool_decide_false by done. by rewrite andb_true_r, orb_false_r.
Qed.

Lemma free_pageset_exact_witness :
  exists cfg s i e s', table s !! i = Some (Some e) /\ free_by_header_kva cfg s (e_header_kva e) = Ret s'.
Proof.
  destruct witness_boot as (b & pool & Hcfg & oB & oD & I).
  set (cfg := boot_config witness_platform 4096 pool) in *.
  destruct (register_spec cfg ∅ ∅ oB oD (kboot b) [4096] I) as (r & s & E & Hp); [done|].
  destruct r as [i|[]]; simpl in Hp; try done.
  destruct Hp as (Hn & Ht & _ & _ & I' & _).
  assert (table s !! i = Some (Some (mkEntry 1 (slot_kva cfg (Z.of_nat i)) ExternallyOwned))) as He.
  { rewrite Ht. apply list_lookup_insert_eq. by eapply lookup_lt_Some. }
  destruct (free_pageset_exact cfg ∅ ∅ oB oD s i _ Hcfg I' He) as [(s' & E' & _) _].
  by exists cfg, s, i, (mkEntry 1 (slot_kva cfg (Z.of_nat i)) ExternallyOwned), s'.
Defined.
