(* ===== verification/HeaderFrame.v ===== *)
(** Which PageSet headers the allocator operations write: those of registered
    PageSets are kept, and a new PageSet starts with both counters at zero. *)
From Stdlib Require Import ZArith Lia.
From stdpp Require Import base option list gmap numbers sets.
From S2P Require Import Prelude Buddy BuddyInv Pools FrameAlloc PageSet Ownership KPageSet.
Open Scope Z_scope.

Ltac unbind H x E := apply bind_Ret_inv in H as (x & E & H).

(** A loop that returns relates its ends by any preorder its steps respect. *)
Lemma for_range_rel {St} (R : St -> St -> Prop) body n : forall i s s',
  (forall s, R s s) -> (forall a b c, R a b -> R b c -> R a c) ->
  (forall j a b, body j a = Ret b -> R a b) -> for_range i n body s = Ret s' -> R s s'.
Proof.
  induction n as [|n IH]; intros i s s' Hr Ht Hb H.
  - injection H as <-. apply Hr.
  - change (for_range i (S n) body s) with (s1 ← body i s; for_range (i + 1) n body s1) in H.
    unbind H s1 E. eapply Ht; [by eapply Hb|by eapply IH].
Qed.

(** Headers and table kept. *)
Definition same_headers (s s' : KMem) : Prop := headers s' = headers s /\ table s' = table s.

Lemma same_headers_refl s : same_headers s s.
Proof. done. Qed.
Lemma same_headers_trans a b c : same_headers a b -> same_headers b c -> same_headers a c.
Proof. intros [] []. split; congruence. Qed.

(** Counters kept. *)
Definition same_counts (h h' : PageSetHeader) : Prop :=
  h_refcount h' = h_refcount h /\ h_map_count h' = h_map_count h.

Lemma set_page_counts b i a b' : Hdr.set_page b i a = Ret b' -> same_counts (Hdr.bk_header b) (Hdr.bk_header b').
Proof. unfold Hdr.set_page. intros H. unbind H u E. unbind H u' E'. by injection H as <-. Qed.

Section Frame.
Context (cfg : Config).

Lemma release_frame s kva s' : hp_release cfg s kva = Ret s' -> same_headers s s'.
Proof. unfold hp_release. intros H. unbind H slot E. unbind H r E'. by injection H as <-. Qed.

Lemma alloc_page_frame s r s' : k_alloc_page cfg s = Ret (r, s') -> same_headers s s'.
Proof. unfold k_alloc_page. intros H. unbind H x E. by injection H as _ <-. Qed.

Lemma dealloc_page_frame s p s' : k_dealloc_page cfg s p = Ret s' -> same_headers s s'.
Proof. unfold k_dealloc_page. intros H. unbind H x E. by injection H as <-. Qed.

Lemma dma_free_frame s f c s' : dma_free_pages cfg s f c = Ret s' -> same_headers s s'.
Proof.
  unfold dma_free_pages. intros H. unbind H u1 E1. unbind H u2 E2. unbind H u3 E3. unbind H d E4. by injection H as <-.
Qed.

Lemma rollback_frame b j s s' : rollback_page cfg b j s = Ret s' -> same_headers s s'.
Proof. unfold rollback_page. intros H. unbind H o E. unbind H p E'. by eapply dealloc_page_frame. Qed.

Lemma free_data_frame b j s s' : free_data_page cfg b j s = Ret s' -> same_headers s s'.
Proof.
  unfold free_data_page. intros H. unbind H o E. destruct o; [by eapply dealloc_page_frame|by injection H as <-].
Qed.

Lemma alloc_data_frame n : forall s b i ok s' b',
  alloc_data cfg s b n i = Ret (ok, s', b') -> same_headers s s' /\ same_counts (Hdr.bk_header b) (Hdr.bk_header b').
Proof.
  induction n as [|n IH]; intros s b i ok s' b' H; cbn [alloc_data] in H.
  { by injection H as <- <- <-. }
  unbind H r E. destruct r as [[page|] s1]; apply alloc_page_frame in E.
  - unbind H b1 Eb. apply set_page_counts in Eb as [E1 E2]. apply IH in H as [H [H1 H2]].
    split; [by eapply same_headers_trans|]. split; congruence.
  - unbind H s2 E2. injection H as <- <- <-. split; [|done]. eapply same_headers_trans; [exact E|].
    revert E2. apply for_range_rel; [apply same_headers_refl|apply same_headers_trans|]. intros j x y. apply rollback_frame.
Qed.

(** The header slot an allocation claims belongs to no registered PageSet. *)
Lemma claim_frame G D oB oD s cnt kva s1 :
  inv cfg G D None oB oD s -> 0 < cnt <= MAX_PRACTICAL_PAGES_PER_SET ->
  hp_claim cfg s (header_pages_for cnt) = Ret (Some kva, s1) ->
  exists i, kva = slot_kva cfg (Z.of_nat i) /\ Tbl.first_none (table s) = Some i /\
    read_header s1 kva = zero_header /\ table s1 = table s /\
    forall k, k <> kva -> read_header s1 k = read_header s k.
Proof.
  intros I Hc E. destruct (hp_claim_spec cfg _ _ _ _ _ cnt I Hc) as (r & s' & E' & H).
  rewrite E in E'. injection E' as <- <-. destruct H as (i & -> & _ & Hf & _ & Hz & _ & _ & Ht & _ & Hk). by exists i.
Qed.

(** What an allocation does to headers: those registered are kept; the new
    one counts no handle and no mapping. *)
Definition headers_kept (s s' : KMem) (r : result nat AllocError) : Prop :=
  (forall j e, table s !! j = Some (Some e) ->
     read_header s' (slot_kva cfg (Z.of_nat j)) = read_header s (slot_kva cfg (Z.of_nat j))) /\
  (forall id, r = Ok id -> h_refcount (read_header s' (slot_kva cfg (Z.of_nat id))) = 0 /\
     h_map_count (read_header s' (slot_kva cfg (Z.of_nat id))) = 0).

Lemma insert_first t e id t' : Tbl.insert t e = (Ok id, t') -> Tbl.first_none t = Some id.
Proof. unfold Tbl.insert. destruct (_ || _); [done|]. destruct (Tbl.first_none t); [|done]. by intros [= <- _]. Qed.

(** The claimed slot's header may be written, with counters at zero. *)
Lemma commit_frame s s1 s2 i h s' r :
  Tbl.first_none (table s) = Some i ->
  (forall k, k <> slot_kva cfg (Z.of_nat i) -> read_header s1 k = read_header s k) ->
  same_headers s1 s2 -> same_counts zero_header h ->
  headers s' = headers s2 \/ headers s' = headers (with_header s2 (slot_kva cfg (Z.of_nat i)) h) ->
  (forall id, r = Ok id -> id = i /\ headers s' = headers (with_header s2 (slot_kva cfg (Z.of_nat i)) h)) ->
  headers_kept s s' r.
Proof.
  intros Hf Hk [Hh _] [Hc1 Hc2] Hs' Hr. pose proof (Tbl.first_none_spec (table s)) as Hsp.
  rewrite Hf in Hsp. destruct Hsp as [Hn _]. split.
  - intros j e' Hj. assert (slot_kva cfg (Z.of_nat i) <> slot_kva cfg (Z.of_nat j)) as Hne.
    { intros E%slot_kva_inj. assert (i = j) by lia. congruence. }
    rewrite <- (Hk (slot_kva cfg (Z.of_nat j))) by congruence. unfold read_header.
    destruct Hs' as [->| ->]; cbn [with_header headers]; rewrite ?lookup_insert_ne, Hh by done; done.
  - intros id [-> E]%Hr. unfold read_header. rewrite E. cbn [with_header headers]. by rewrite lookup_insert_eq.
Qed.

Lemma kept_refl s e : headers_kept s s (Err e).
Proof. by split. Qed.

Lemma kept_same s s' e : headers s' = headers s -> headers_kept s s' (Err e).
Proof. intros E. split; [|done]. intros j e' _. unfold read_header. by rewrite E. Qed.

Lemma claim_none_frame s n s1 : hp_claim cfg s n = Ret (None, s1) -> headers s1 = headers s.
Proof. unfold hp_claim. intros H. unbind H r E. destruct r as [[slot|] hp]; [done|]. by injection H as <-. Qed.

Lemma alloc_pages_headers G D oB oD s cnt r s' :
  inv cfg G D None oB oD s -> 0 <= cnt -> alloc_pages cfg s cnt = Ret (r, s') -> headers_kept s s' r.
Proof.
  intros I H0 H. unfold alloc_pages in H. destruct ((cnt =? 0) || _) eqn:Ec; [injection H as <- <-; apply kept_refl|].
  apply orb_false_iff in Ec as [E1 E2]. unbind H c Eclaim. destruct c as [[kva|] s1].
  2: { injection H as <- <-. apply kept_same. by eapply claim_none_frame. }
  destruct (claim_frame _ _ _ _ _ cnt _ _ I ltac:(lia) Eclaim) as (i & -> & Hf & Hz & Ht & Hk).
  rewrite Hdr.set_count_spec, bind_Ret, Hz in H. unbind H d Ed. destruct d as [[ok s2] b1].
  apply alloc_data_frame in Ed as [Hs Hc]. cbn [Hdr.bk_header] in Hc.
  destruct ok.
  - unfold insert_into_table in H. destruct (Tbl.insert _ _) as [[id|x] t] eqn:Ei.
    + injection H as <- <-. apply insert_first in Ei. cbn [with_header table] in Ei. destruct Hs as [Hh Hst].
      eapply (commit_frame s s1 s2 i); try done; [by right|]. intros id' [= <-]. split; [|done]. congruence.
    + unbind H s5 E5. injection H as <- <-. apply release_frame in E5 as [E5 _].
      eapply (commit_frame s s1 s2 i); try done. by right.
  - unbind H s4 E4. injection H as <- <-. apply release_frame in E4 as [E4 _].
    eapply (commit_frame s s1 s2 i); try done. by right.
Qed.

Lemma write_run_frame base i st st' :
  write_run base i st = Ret st' -> same_headers st.1 st'.1 /\ same_counts (Hdr.bk_header st.2) (Hdr.bk_header st'.2).
Proof.
  destruct st as [s b]. unfold write_run. intros H. unbind H b' E. injection H as <-. cbn [fst snd].
  split; [done|]. by eapply set_page_counts.
Qed.

Lemma alloc_contiguous_frame s c r s' : k_alloc_contiguous cfg s c = Ret (r, s') -> same_headers s s'.
Proof. unfold k_alloc_contiguous. intros H. unbind H x E. by injection H as _ <-. Qed.

Lemma dealloc_contiguous_frame s p c s' : k_dealloc_contiguous cfg s p c = Ret s' -> same_headers s s'.
Proof. unfold k_dealloc_contiguous. intros H. unbind H x E. by injection H as <-. Qed.

Lemma dma_alloc_frame s c r s' : dma_alloc_pages cfg s c = Ret (r, s') -> same_headers s s'.
Proof.
  unfold dma_alloc_pages. destruct (_ =? _); [by intros [= _ <-]|]. intros H. unbind H x E.
  destruct x as [[idx|e] d]; by injection H as _ <-.
Qed.

Lemma counts_trans a b c : same_counts a b -> same_counts b c -> same_counts a c.
Proof. intros [] []. split; congruence. Qed.

Lemma alloc_contig_headers G D oB oD s cnt r s' :
  config_ok cfg -> inv cfg G D None oB oD s -> 0 <= cnt -> alloc_pages_contiguous cfg s cnt = Ret (r, s') -> headers_kept s s' r.
Proof.
  intros Hcfg I H0 H. unfold alloc_pages_contiguous in H.
  destruct ((cnt =? 0) || _) eqn:Ec; [injection H as <- <-; apply kept_refl|]. unbind H ord Eo.
  destruct (Z.ltb_spec MAX_PRACTICAL_PAGES_PER_SET (Z.shiftl 1 ord)) as [|Hmax]; [injection H as <- <-; apply kept_refl|].
  apply orb_false_iff in Ec as [E1 E2]. destruct (k_alloc_contiguous_spec cfg Hcfg _ _ _ _ _ _ cnt I ltac:(lia)) as (o & _ & _ & Eo' & _ & Ho & _).
  rewrite Eo in Eo'. injection Eo' as <-.
  unbind H c Eclaim. destruct c as [[kva|] s1].
  2: { injection H as <- <-. apply kept_same. by eapply claim_none_frame. }
  assert (0 < Z.shiftl 1 ord) as Hpos.
  { rewrite Z.shiftl_mul_pow2 by lia. pose proof (Z.pow_pos_nonneg 2 ord). lia. }
  destruct (claim_frame _ _ _ _ _ (Z.shiftl 1 ord) _ _ I ltac:(lia) Eclaim) as (i & -> & Hf & Hz & Ht & Hk).
  unbind H p Ep. destruct p as [[first|] s2]; apply alloc_contiguous_frame in Ep.
  2: { unbind H s3 E3. injection H as <- <-. apply release_frame in E3 as [E3 _].
       eapply (commit_frame s s1 s2 i zero_header); try done. by left. }
  assert (read_header s2 (slot_kva cfg (Z.of_nat i)) = zero_header) as Hz2.
  { unfold read_header in *. destruct Ep as [-> _]. done. }
  rewrite Hdr.set_count_spec, bind_Ret, Hz2 in H. unbind H st Est.
  assert (same_headers s2 st.1 /\ same_counts zero_header (Hdr.bk_header st.2)) as [Hs Hc].
  { revert Est. apply (for_range_rel (fun a b => same_headers a.1 b.1 /\ same_counts (Hdr.bk_header a.2) (Hdr.bk_header b.2))).
    - done.
    - intros a b c [] []. split; [by eapply same_headers_trans|by eapply counts_trans].
    - intros j a b. apply write_run_frame. }
  pose proof (same_headers_trans _ _ _ Ep Hs) as Hs1.
  unfold insert_into_table in H. destruct (Tbl.insert _ _) as [[id|x] t] eqn:Ei.
  - injection H as <- <-. apply insert_first in Ei. cbn [with_header table] in Ei. destruct Hs1 as [Hh Hst].
    eapply (commit_frame s s1 st.1 i); try done; [by right|]. intros id' [= <-]. split; [|done]. congruence.
  - unbind H s5 E5. unbind H s6 E6. injection H as <- <-. apply dealloc_contiguous_frame in E5 as [E5 _].
    apply release_frame in E6 as [E6 _]. eapply (commit_frame s s1 st.1 i); try done. right. by rewrite E6, E5.
Qed.

Lemma alloc_dma_headers G D oB oD s cnt r s' :
  inv cfg G D None oB oD s -> 0 <= cnt -> alloc_dma_pages cfg s cnt = Ret (r, s') -> headers_kept s s' r.
Proof.
  intros I H0 H. unfold alloc_dma_pages in H. destruct ((cnt =? 0) || _) eqn:Ec; [injection H as <- <-; apply kept_refl|].
  apply orb_false_iff in Ec as [E1 E2]. unbind H c Eclaim. destruct c as [[kva|] s1].
  2: { injection H as <- <-. apply kept_same. by eapply claim_none_frame. }
  destruct (claim_frame _ _ _ _ _ cnt _ _ I ltac:(lia) Eclaim) as (i & -> & Hf & Hz & Ht & Hk).
  unbind H p Ep. destruct p as [pr s2]. apply dma_alloc_frame in Ep.
  destruct pr as [first|[]].
  2, 3: unbind H s3 E3; injection H as <- <-; apply release_frame in E3 as [E3 _];
       eapply (commit_frame s s1 s2 i zero_header); try done; by left.
  assert (read_header s2 (slot_kva cfg (Z.of_nat i)) = zero_header) as Hz2.
  { unfold read_header in *. destruct Ep as [-> _]. done. }
  rewrite Hdr.set_count_spec, bind_Ret, Hz2 in H. unbind H b1 Eb.
  assert (same_counts zero_header (Hdr.bk_header b1)) as Hc.
  { revert Eb. apply (for_range_rel (fun a b => same_counts (Hdr.bk_header a) (Hdr.bk_header b))).
    - done.
    - intros a b c. apply counts_trans.
    - intros j a b. apply set_page_counts. }
  unfold insert_into_table in H. destruct (Tbl.insert _ _) as [[id|x] t] eqn:Ei.
  - injection H as <- <-. apply insert_first in Ei. cbn [with_header table] in Ei. destruct Ep as [Hh Hst].
    eapply (commit_frame s s1 s2 i); try done; [by right|]. intros id' [= <-]. split; [|done]. congruence.
  - unbind H s5 E5. unbind H s6 E6. injection H as <- <-. apply dma_free_frame in E5 as [E5 _].
    apply release_frame in E6 as [E6 _]. eapply (commit_frame s s1 s2 i); try done. right. by rewrite E6, E5.
Qed.

Lemma set_pages_counts addrs : forall b i b',
  Hdr.set_pages b i addrs = Ret b' -> same_counts (Hdr.bk_header b) (Hdr.bk_header b').
Proof.
  induction addrs as [|a addrs IH]; intros b i b' H; cbn [Hdr.set_pages] in H; [by injection H as <-|].
  unbind H b1 E. eapply counts_trans; [by eapply set_page_counts|by eapply IH].
Qed.

Lemma register_headers G D oB oD s addrs cnt o r s' :
  inv cfg G D None oB oD s -> 0 < cnt <= MAX_PRACTICAL_PAGES_PER_SET ->
  alloc_and_insert_header cfg s addrs cnt o = Ret (r, s') -> headers_kept s s' r.
Proof.
  intros I Hcnt H. unfold alloc_and_insert_header in H. unbind H c Eclaim. destruct c as [[kva|] s1].
  2: { injection H as <- <-. apply kept_same. by eapply claim_none_frame. }
  destruct (claim_frame _ _ _ _ _ cnt _ _ I Hcnt Eclaim) as (i & -> & Hf & Hz & Ht & Hk).
  unbind H b Eb. unfold Hdr.init in Eb. unbind Eb b1 E1. apply set_pages_counts in Eb. cbn [Hdr.bk_header] in Eb.
  destruct (Tbl.insert _ _) as [[id|x] t] eqn:Ei.
  - injection H as <- <-. apply insert_first in Ei. cbn [with_header table] in Ei.
    eapply (commit_frame s s1 s1 i (Hdr.bk_header b)); try done; [by right|]. intros id' [= <-]. split; [|done]. congruence.
  - unbind H s5 E5. injection H as <- <-. apply release_frame in E5 as [E5 _].
    eapply (commit_frame s s1 s1 i (Hdr.bk_header b)); try done. by right.
Qed.

Lemma consume_frame s kva : headers (consume_by_header_kva s kva).2 = headers s.
Proof.
  unfold consume_by_header_kva. destruct (Tbl.find_by_header_kva (table s) kva); [|done].
  by destruct (Tbl.remove _ _) as [[] ?].
Qed.

Lemma free_headers s kva s' : free_by_header_kva cfg s kva = Ret s' -> headers s' = headers s.
Proof.
  unfold free_by_header_kva. intros H. unbind H l El. unbind H b Eb. unbind H o Eo. unbind H s1 E1.
  apply release_frame in H as [H _]. rewrite H, consume_frame. destruct o.
  - revert E1. apply (for_range_rel (fun a b => headers b = headers a)); [done|congruence|].
    intros j a c Hj. by apply free_data_frame in Hj as [? _].
  - destruct (0 <? l.1); [|by injection E1 as <-]. unbind E1 p Ep. destruct p; [|by injection E1 as <-].
    by apply dma_free_frame in E1 as [? _].
  - by injection E1 as <-.
Qed.
End Frame.
