(* ===== verification/PageTable.v ===== *)
(** User page tables (lockjaw-types/src/page_table.rs): the entry encoding,
    the four-level walk, the mapping walk, the mapping query and the
    validated unmap. Table memory is a map from physical address to 64-bit
    word (0 where nothing was written); [read] is the kernel's read closure.
    Physical addresses are below [2^48] and user addresses below [2^48], so
    the address sums of the source stay inside u64. *)
From Stdlib Require Import ZArith Lia.
From stdpp Require Import base option list gmap numbers.
From S2P Require Import Prelude.
Open Scope Z_scope.

(** * Entries *)

Definition MAIR_DEVICE : Z := 0.
Definition MAIR_NORMAL : Z := 1.
Definition MAIR_NORMAL_NC : Z := 2.
Definition AP_RW_EL1 : Z := 0.
Definition AP_RW_ALL : Z := 1.
Definition SH_NON : Z := 0.
Definition SH_OUTER : Z := 2.
Definition SH_INNER : Z := 3.

Definition PTE_VALID : Z := Z.shiftl 1 0.
Definition PTE_TABLE : Z := Z.shiftl 1 1.
Definition PTE_AF : Z := Z.shiftl 1 10.
Definition PTE_PXN : Z := Z.shiftl 1 53.
Definition PTE_UXN : Z := Z.shiftl 1 54.
Definition PTE_ATTR_SHIFT : Z := 2.
Definition PTE_AP_SHIFT : Z := 6.
Definition PTE_SH_SHIFT : Z := 8.
Definition PTE_ADDR_MASK : Z := 0x0000FFFFFFFFF000.

Definition is_valid (e : Z) : bool := negb (Z.land e PTE_VALID =? 0).
Definition is_table (e : Z) : bool :=
  Z.land e (Z.lor PTE_VALID PTE_TABLE) =? Z.lor PTE_VALID PTE_TABLE.
Definition is_block (e : Z) : bool := Z.land e (Z.lor PTE_VALID PTE_TABLE) =? PTE_VALID.
Definition attr_index (e : Z) : Z := Z.land (Z.shiftr e PTE_ATTR_SHIFT) 0x7.
Definition ap (e : Z) : Z := Z.land (Z.shiftr e PTE_AP_SHIFT) 0x3.
Definition sh (e : Z) : Z := Z.land (Z.shiftr e PTE_SH_SHIFT) 0x3.
Definition af (e : Z) : bool := negb (Z.land e PTE_AF =? 0).
Definition output_addr (e : Z) : Z := Z.land e PTE_ADDR_MASK.

Definition new_table (next_table_phys : Z) : Z :=
  Z.lor (Z.lor PTE_VALID PTE_TABLE) (Z.land next_table_phys PTE_ADDR_MASK).

Definition new_block (phys attr ap sh : Z) : Z :=
  Z.lor (Z.lor (Z.lor (Z.lor (Z.lor PTE_VALID
    (Z.shiftl (Z.land attr 0x7) PTE_ATTR_SHIFT))
    (Z.shiftl (Z.land ap 0x3) PTE_AP_SHIFT))
    (Z.shiftl (Z.land sh 0x3) PTE_SH_SHIFT))
    PTE_AF) (Z.land phys PTE_ADDR_MASK).

Definition new_page (phys attr ap sh : Z) : Z :=
  Z.lor (Z.lor (Z.lor (Z.lor (Z.lor (Z.lor PTE_VALID PTE_TABLE)
    (Z.shiftl (Z.land attr 0x7) PTE_ATTR_SHIFT))
    (Z.shiftl (Z.land ap 0x3) PTE_AP_SHIFT))
    (Z.shiftl (Z.land sh 0x3) PTE_SH_SHIFT))
    PTE_AF) (Z.land phys PTE_ADDR_MASK).

Definition with_pxn (e : Z) : Z := Z.lor e PTE_PXN.
Definition with_uxn (e : Z) : Z := Z.lor e PTE_UXN.
Definition is_pxn (e : Z) : bool := negb (Z.land e PTE_PXN =? 0).
Definition is_uxn (e : Z) : bool := negb (Z.land e PTE_UXN =? 0).

(** * The walk *)

Definition page_table_indices (va : Z) : Z * Z * Z * Z :=
  (Z.land (Z.shiftr va 39) 0x1FF, Z.land (Z.shiftr va 30) 0x1FF,
   Z.land (Z.shiftr va 21) 0x1FF, Z.land (Z.shiftr va 12) 0x1FF).

Inductive WalkResult := Continue (pte_paddr : Z) | Done (phys : Z) | Fault.

Record PageTableWalk := mkWalk {
  w_level : Z;
  w_va : Z;
  w_indices : Z * Z * Z * Z;
}.

Definition start (ttbr0_paddr va : Z) : PageTableWalk * WalkResult :=
  let '(l0, l1, l2, l3) := page_table_indices va in
  (mkWalk 0 va (l0, l1, l2, l3), Continue (ttbr0_paddr + l0 * 8)).

Definition step (w : PageTableWalk) (pte : Z) : PageTableWalk * WalkResult :=
  let '(_, i1, i2, i3) := w_indices w in
  match w_level w with
  | 0 =>
      if negb (is_table pte) then (w, Fault) else
      (mkWalk 1 (w_va w) (w_indices w), Continue (output_addr pte + i1 * 8))
  | 1 =>
      if is_block pte then (w, Done (output_addr pte + Z.land (w_va w) 0x3FFFFFFF)) else
      if negb (is_table pte) then (w, Fault) else
      (mkWalk 2 (w_va w) (w_indices w), Continue (output_addr pte + i2 * 8))
  | 2 =>
      if is_block pte then (w, Done (output_addr pte + Z.land (w_va w) 0x1FFFFF)) else
      if negb (is_table pte) then (w, Fault) else
      (mkWalk 3 (w_va w) (w_indices w), Continue (output_addr pte + i3 * 8))
  | 3 =>
      if negb (is_valid pte) then (w, Fault) else
      (w, Done (output_addr pte + Z.land (w_va w) 0xFFF))
  | _ => (w, Fault)
  end.

(** Five rounds end every walk loop: four entry reads and the exit. *)
Definition WALK_FUEL : nat := 5.

(** translate_user_va (src/arch/aarch64/vmem.rs), returning the physical
    address; the source adds the direct map's offset. *)
Fixpoint translate_loop (fuel : nat) (read : Z -> Z) (w : PageTableWalk) (r : WalkResult)
  : outcome (option Z) :=
  match fuel with
  | O => Panic PFuel
  | S fuel' =>
      match r with
      | Continue pte_paddr =>
          let (w', r') := step w (read pte_paddr) in translate_loop fuel' read w' r'
      | Done phys_addr => Ret (Some phys_addr)
      | Fault => Ret None
      end
  end.

Definition translate_user_va (read : Z -> Z) (ttbr0_paddr user_va : Z) : outcome (option Z) :=
  let (w, r) := start ttbr0_paddr user_va in translate_loop WALK_FUEL read w r.

(** * Validated unmap *)

Fixpoint match_loop (fuel : nat) (read : Z -> Z) (w : PageTableWalk) (r : WalkResult)
    (expected : Z) : outcome bool :=
  match fuel with
  | O => Panic PFuel
  | S fuel' =>
      match r with
      | Continue pte_paddr =>
          let (w', next) := step w (read pte_paddr) in
          match next with
          | Done phys_addr =>
              if negb (w_level w' =? 3) then Ret false else
              Ret (Z.land phys_addr (not_w 64 0xFFF) =? expected)
          | _ => match_loop fuel' read w' next expected
          end
      | Done _ | Fault => Ret false
      end
  end.

(** From page [i] on; [Err i] is the first page that does not match. *)
Fixpoint validate_from (read : Z -> Z) (ttbr0_paddr va i : Z) (expected_pages : list Z)
  : outcome (result unit Z) :=
  match expected_pages with
  | [] => Ret (Ok tt)
  | e :: rest =>
      let page_va := va + i * 4096 in
      let (w, r) := start ttbr0_paddr page_va in
      ok ← match_loop WALK_FUEL read w r e;
      if ok : bool then validate_from read ttbr0_paddr va (i + 1) rest else Ret (Err i)
  end.

Definition validate_pte_match (read : Z -> Z) (ttbr0_paddr va : Z) (expected_pages : list Z)
  : outcome (result unit Z) := validate_from read ttbr0_paddr va 0 expected_pages.

Fixpoint clear_loop (fuel : nat) (m : gmap Z Z) (w : PageTableWalk) (r : WalkResult)
  : outcome (gmap Z Z) :=
  match fuel with
  | O => Panic PFuel
  | S fuel' =>
      match r with
      | Continue pte_paddr =>
          let (w', next) := step w (arr_peek m pte_paddr) in
          match next with
          | Done _ =>
              if negb (w_level w' =? 3) then Panic PAssert else Ret (<[pte_paddr := 0]> m)
          | Continue _ => clear_loop fuel' m w' next
          | Fault => Panic PAssert
          end
      | Done _ | Fault => Panic PAssert
      end
  end.

Definition clear_page (ttbr0_paddr va i : Z) (m : gmap Z Z) : outcome (gmap Z Z) :=
  let page_va := va + i * 4096 in
  let (w, r) := start ttbr0_paddr page_va in clear_loop WALK_FUEL m w r.

Definition clear_validated_pte (ttbr0_paddr va cnt : Z) (m : gmap Z Z) : outcome (gmap Z Z) :=
  for_range 0 (Z.to_nat cnt) (clear_page ttbr0_paddr va) m.

Definition unmap_validated (ttbr0_paddr va : Z) (expected_pages : list Z) (m : gmap Z Z)
  : outcome (result unit Z * gmap Z Z) :=
  v ← validate_pte_match (arr_peek m) ttbr0_paddr va expected_pages;
  match v with
  | Err i => Ret (Err i, m)
  | Ok _ =>
      m' ← clear_validated_pte ttbr0_paddr va (Z.of_nat (length expected_pages)) m;
      Ret (Ok tt, m')
  end.

(** * Mapping query *)

Definition USER_VA_END : Z := 0x40000000.

(** The scan of one L3 table from [l3_idx]: [inl] is the early return. *)
Fixpoint query_l3 (read : Z -> Z) (l3_table : Z) (first_mapped : bool) (n : nat) (l3_idx va cnt : Z)
  : (bool * Z) + (Z * Z) :=
  match n with
  | O => inr (va, cnt)
  | S n' =>
      if USER_VA_END <=? va then inr (va, cnt) else
      let mapped := is_valid (read (l3_table + l3_idx * 8)) in
      if negb (Bool.eqb mapped first_mapped) then inl (first_mapped, cnt) else
      query_l3 read l3_table first_mapped n' (l3_idx + 1) (va + 4096) (cnt + 1)
  end.

Fixpoint query_scan (fuel : nat) (read : Z -> Z) (l2_table : Z) (first_mapped : bool) (va cnt : Z)
  : outcome (bool * Z) :=
  match fuel with
  | O => Panic PFuel
  | S fuel' =>
      if negb (va <? USER_VA_END) then Ret (first_mapped, cnt) else
      let l2_idx := Z.land (Z.shiftr va 21) 0x1FF in
      if 512 <=? l2_idx then Ret (first_mapped, cnt) else
      let l2 := read (l2_table + l2_idx * 8) in
      let region_end := Z.min (Z.shiftl (Z.shiftr va 21 + 1) 21) USER_VA_END in
      if negb (is_valid l2) then
        if first_mapped then Ret (first_mapped, cnt) else
        query_scan fuel' read l2_table first_mapped region_end (cnt + (region_end - va) / 4096)
      else if is_block l2 then
        if negb first_mapped then Ret (first_mapped, cnt) else
        query_scan fuel' read l2_table first_mapped region_end (cnt + (region_end - va) / 4096)
      else
        let l3_start := Z.land (Z.shiftr va 12) 0x1FF in
        match query_l3 read (output_addr l2) first_mapped (Z.to_nat (512 - l3_start)) l3_start va cnt with
        | inl r => Ret r
        | inr (va', cnt') => query_scan fuel' read l2_table first_mapped va' cnt'
        end
  end.

(** Every round of the scan ends on an L2 region boundary: 512 regions. *)
Definition QUERY_FUEL : nat := 513.

Definition query_mapping_run (read : Z -> Z) (ttbr0_paddr start_va : Z) : outcome (bool * Z) :=
  if USER_VA_END <=? start_va then Ret (false, 0) else
  let l0 := read ttbr0_paddr in
  if negb (is_valid l0) || negb (is_table l0) then Ret (false, (USER_VA_END - start_va) / 4096) else
  let l1_idx := Z.land (Z.shiftr start_va 30) 0x1FF in
  let l1 := read (output_addr l0 + l1_idx * 8) in
  let l1_end := Z.min (Z.shiftl (l1_idx + 1) 30) USER_VA_END in
  if negb (is_valid l1) then Ret (false, (l1_end - start_va) / 4096) else
  if is_block l1 then Ret (true, (l1_end - start_va) / 4096) else
  let l2_table := output_addr l1 in
  let first_l2 := read (l2_table + Z.land (Z.shiftr start_va 21) 0x1FF * 8) in
  let first_mapped :=
    if negb (is_valid first_l2) then false
    else if is_block first_l2 then true
    else is_valid (read (output_addr first_l2 + Z.land (Z.shiftr start_va 12) 0x1FF * 8)) in
  query_scan QUERY_FUEL read l2_table first_mapped start_va 0.

(** * Entry encoding *)

Lemma addr_mask_ones : PTE_ADDR_MASK = Z.shiftl (Z.ones 36) 12.
Proof. reflexivity. Qed.

Lemma field_bit x k s i :
  0 <= k -> 0 <= s -> 0 <= i ->
  Z.testbit (Z.shiftl (Z.land x (Z.ones k)) s) i = (s <=? i) && (i <? s + k) && Z.testbit x (i - s).
Proof.
  intros Hk Hs Hi. rewrite Z.shiftl_spec by done. destruct (Z.leb_spec s i) as [L|L].
  - rewrite Z.land_spec, Z.testbit_ones_nonneg by lia. simpl.
    replace (i - s <? k) with (i <? s + k) by zbool. apply andb_comm.
  - by rewrite Z.testbit_neg_r by lia.
Qed.

Lemma addr_bit x i :
  0 <= i -> Z.testbit (Z.land x PTE_ADDR_MASK) i = (12 <=? i) && (i <? 48) && Z.testbit x i.
Proof.
  intros Hi. rewrite Z.land_spec, addr_mask_ones, Z.shiftl_spec by done.
  destruct (Z.leb_spec 12 i).
  - rewrite Z.testbit_ones_nonneg by lia. replace (i - 12 <? 36) with (i <? 48) by zbool.
    simpl. apply andb_comm.
  - rewrite (Z.testbit_neg_r _ (i - 12)) by lia. apply andb_false_r.
Qed.

Lemma low2 e : Z.land e 3 = Z.b2z (Z.testbit e 0) + 2 * Z.b2z (Z.testbit e 1).
Proof.
  change 3 with (Z.ones 2). rewrite Z.land_ones by lia. change (2 ^ 2) with (2 * 2).
  rewrite Z.rem_mul_r, Z.bit0_mod by lia. f_equal. f_equal.
  rewrite Z.testbit_eqb by lia. change (2 ^ 1) with 2.
  destruct (Z.eqb_spec ((e / 2) mod 2) 1) as [->|]; [done|].
  pose proof (Z.mod_pos_bound (e / 2) 2). simpl. lia.
Qed.

Lemma is_valid_bit e : is_valid e = Z.testbit e 0.
Proof. apply land_bitmask. lia. Qed.

Lemma is_table_bits e : is_table e = Z.testbit e 0 && Z.testbit e 1.
Proof.
  unfold is_table. change (Z.lor PTE_VALID PTE_TABLE) with 3. rewrite low2.
  by destruct (Z.testbit e 0), (Z.testbit e 1).
Qed.

Lemma is_block_bits e : is_block e = Z.testbit e 0 && negb (Z.testbit e 1).
Proof.
  unfold is_block. change (Z.lor PTE_VALID PTE_TABLE) with 3. rewrite low2.
  by destruct (Z.testbit e 0), (Z.testbit e 1).
Qed.

Lemma table_valid e : is_table e = true -> is_valid e = true /\ is_block e = false.
Proof. rewrite is_valid_bit, is_table_bits, is_block_bits. by destruct (Z.testbit e 0), (Z.testbit e 1). Qed.

Lemma is_valid_0 : is_valid 0 = false.
Proof. reflexivity. Qed.

(** Reduces an equation between words built from entry fields to its bits. *)
Ltac pte_bits :=
  apply Z.bits_inj'; let i := fresh "i" in intros i ?;
  unfold attr_index, ap, sh, output_addr, new_page, new_block, new_table, with_pxn, with_uxn;
  change 0x3 with (Z.ones 2); change 0x7 with (Z.ones 3);
  rewrite ?addr_bit, ?Z.land_spec, ?Z.shiftr_spec, ?Z.testbit_ones_nonneg by lia;
  repeat first [rewrite Z.lor_spec
               | rewrite field_bit by (unfold PTE_ATTR_SHIFT, PTE_AP_SHIFT, PTE_SH_SHIFT; lia)
               | rewrite addr_bit by (unfold PTE_ATTR_SHIFT, PTE_AP_SHIFT, PTE_SH_SHIFT; lia)];
  unfold PTE_VALID, PTE_TABLE, PTE_AF, PTE_PXN, PTE_UXN; fold (bitmask 0) (bitmask 1) (bitmask 10)
    (bitmask 53) (bitmask 54);
  rewrite ?testbit_bitmask by (unfold PTE_ATTR_SHIFT, PTE_AP_SHIFT, PTE_SH_SHIFT; lia);
  unfold PTE_ATTR_SHIFT, PTE_AP_SHIFT, PTE_SH_SHIFT.

(** Splits the bit index at the given positions and decides each case. *)
Ltac pte_split a b :=
  pte_bits;
  match goal with i : Z |- _ =>
    destruct (Z.lt_ge_cases i a); [|destruct (Z.lt_ge_cases i b)];
    try (exfalso; lia); zcmp;
    rewrite ?Z.add_simpl_r; try reflexivity
  end.

Lemma output_new_page phys attr a s : output_addr (new_page phys attr a s) = output_addr phys.
Proof. pte_split 12 48. Qed.

Lemma attr_new_page phys attr a s : attr_index (new_page phys attr a s) = Z.land attr 0x7.
Proof. pte_split 0 3. Qed.

Lemma ap_new_page phys attr a s : ap (new_page phys attr a s) = Z.land a 0x3.
Proof. pte_split 0 2. Qed.

Lemma sh_new_page phys attr a s : sh (new_page phys attr a s) = Z.land s 0x3.
Proof. pte_split 0 2. Qed.

Lemma new_page_flags phys attr a s :
  is_table (new_page phys attr a s) = true /\ af (new_page phys attr a s) = true.
Proof.
  rewrite is_table_bits. unfold af, PTE_AF. fold (bitmask 10). rewrite land_bitmask by lia.
  unfold new_page. rewrite !Z.lor_spec. change (Z.testbit PTE_VALID 0) with true.
  change (Z.testbit PTE_TABLE 1) with true. change (Z.testbit PTE_AF 10) with true.
  by rewrite ?orb_true_r.
Qed.

Lemma with_xn_fields e :
  output_addr (with_pxn (with_uxn e)) = output_addr e /\ is_table (with_pxn (with_uxn e)) = is_table e.
Proof.
  split; [pte_split 12 48; by rewrite ?orb_false_r|].
  rewrite !is_table_bits. unfold with_pxn, with_uxn. rewrite !Z.lor_spec.
  change (Z.testbit PTE_PXN 0) with false. change (Z.testbit PTE_UXN 0) with false.
  change (Z.testbit PTE_PXN 1) with false. change (Z.testbit PTE_UXN 1) with false.
  by rewrite ?orb_false_r.
Qed.

Lemma new_table_fields p :
  is_table (new_table p) = true /\ output_addr (new_table p) = output_addr p.
Proof.
  split; [|pte_split 12 48].
  rewrite is_table_bits. unfold new_table. rewrite !Z.lor_spec.
  change (Z.testbit PTE_VALID 0) with true. change (Z.testbit PTE_TABLE 1) with true.
  by rewrite ?orb_true_r.
Qed.

(** A page address: 4 KiB aligned, below [2^48]. *)
Definition page_addr (p : Z) : Prop := 0 <= p < 2 ^ 48 /\ p mod 4096 = 0.

Lemma output_addr_eq x : 0 <= x < 2 ^ 48 -> output_addr x = x / 4096 * 4096.
Proof.
  intros Hx. change 4096 with (2 ^ 12). apply Z.bits_inj'. intros i Hi.
  unfold output_addr. rewrite addr_bit, Z.mul_pow2_bits by lia.
  destruct (Z.lt_ge_cases i 12).
  - zcmp. by rewrite Z.testbit_neg_r by lia.
  - rewrite Z.div_pow2_bits by lia. replace (i - 12 + 12) with i by lia.
    destruct (Z.lt_ge_cases i 48); zcmp; [done|].
    symmetry. apply (proj1 (word_bits 48 x ltac:(lia)) Hx). done.
Qed.

Lemma output_page p : page_addr p -> output_addr p = p.
Proof. intros [Hp Hm]. rewrite output_addr_eq by done. pose proof (Z.div_mod p 4096). lia. Qed.

Lemma output_addr_page e : page_addr (output_addr e).
Proof.
  assert (word 48 (output_addr e)) as W.
  { apply word_bits; [lia|]. split.
    - apply Z.land_nonneg. right. done.
    - intros i Hi. unfold output_addr. rewrite addr_bit by lia. zcmp. done. }
  split; [done|]. change 4096 with (2 ^ 12). rewrite <- Z.land_ones by lia.
  apply Z.bits_inj'. intros i Hi. rewrite Z.land_spec, Z.bits_0, Z.testbit_ones_nonneg by lia.
  unfold output_addr. rewrite addr_bit by lia. destruct (Z.lt_ge_cases i 12); zcmp; done.
Qed.

(** * The walk in closed form *)

Definition vidx (k va : Z) : Z := (va / 2 ^ k) mod 512.

(** The entry that ends the walk of [va] from [r]: its level and address, or
    nothing when the walk faults. *)
Definition leaf (read : Z -> Z) (r va : Z) : option (Z * Z) :=
  let e0 := read (r + vidx 39 va * 8) in
  if negb (is_table e0) then None else
  let a1 := output_addr e0 + vidx 30 va * 8 in
  let e1 := read a1 in
  if is_block e1 then Some (1, a1) else
  if negb (is_table e1) then None else
  let a2 := output_addr e1 + vidx 21 va * 8 in
  let e2 := read a2 in
  if is_block e2 then Some (2, a2) else
  if negb (is_table e2) then None else
  let a3 := output_addr e2 + vidx 12 va * 8 in
  if is_valid (read a3) then Some (3, a3) else None.

(** A level [l] entry maps [2^(39 - 9 l)] bytes. *)
Definition translation (read : Z -> Z) (r va : Z) : option Z :=
  match leaf read r va with
  | Some (l, a) => Some (output_addr (read a) + va mod 2 ^ (39 - 9 * l))
  | None => None
  end.

Definition mapped (read : Z -> Z) (r va : Z) : bool :=
  match leaf read r va with Some _ => true | None => false end.

Lemma idx_arith k va : 0 <= k -> Z.land (Z.shiftr va k) 0x1FF = vidx k va.
Proof. intros Hk. change 0x1FF with (Z.ones 9). by rewrite Z.land_ones, Z.shiftr_div_pow2 by lia. Qed.

Lemma vidx_range k va : 0 <= vidx k va < 512.
Proof. apply Z.mod_pos_bound. lia. Qed.

Lemma start_eq r va :
  start r va = (mkWalk 0 va (vidx 39 va, vidx 30 va, vidx 21 va, vidx 12 va), Continue (r + vidx 39 va * 8)).
Proof. unfold start, page_table_indices. by rewrite !idx_arith by lia. Qed.

(** Runs a walk loop: one unfolding per level, splitting on the entries. *)
Ltac run_walk :=
  unfold WALK_FUEL;
  repeat first
    [ progress cbn [translate_loop match_loop clear_loop step w_level w_va w_indices fst snd negb mbind option_bind]
    | match goal with
      | H : is_table ?e = _ |- context [is_table ?e] => rewrite H
      | H : is_block ?e = _ |- context [is_block ?e] => rewrite H
      | H : is_valid ?e = _ |- context [is_valid ?e] => rewrite H
      end
    | match goal with |- context [is_table ?e] => destruct (is_table e) eqn:? end
    | match goal with |- context [is_block ?e] => destruct (is_block e) eqn:? end
    | match goal with |- context [is_valid ?e] => destruct (is_valid e) eqn:? end ].

Lemma translate_spec read r va : translate_user_va read r va = Ret (translation read r va).
Proof.
  unfold translate_user_va, translation, leaf. rewrite start_eq.
  run_walk; try reflexivity;
    change 0x3FFFFFFF with (Z.ones 30); change 0x1FFFFF with (Z.ones 21); change 0xFFF with (Z.ones 12);
    by rewrite Z.land_ones by lia.
Qed.

Lemma page_of_phys e va : Z.land (output_addr e + Z.land va 0xFFF) (not_w 64 0xFFF) = output_addr e.
Proof.
  destruct (output_addr_page e) as [Hr Hm]. change 0xFFF with (Z.ones 12). rewrite Z.land_ones by lia.
  pose proof (Z.mod_pos_bound va (2 ^ 12) ltac:(lia)).
  assert (output_addr e <= 2 ^ 48 - 4096).
  { pose proof (Z.div_mod (output_addr e) 4096 ltac:(lia)).
    assert (output_addr e / 4096 < 2 ^ 36) by (apply Z.div_lt_upper_bound; lia). lia. }
  rewrite align_down by (unfold word; lia). change (2 ^ 12) with 4096 in *.
  pose proof (Z.div_mod (output_addr e) 4096 ltac:(lia)) as E. rewrite Hm in E.
  assert ((output_addr e + va mod 4096) / 4096 = output_addr e / 4096) as ->; [|lia].
  symmetry. apply Z.div_unique with (va mod 4096); lia.
Qed.

(** The page a walk reaches through an L3 entry. *)
Definition page_at (read : Z -> Z) (r va : Z) : option Z :=
  match leaf read r va with Some (l, a) => if l =? 3 then Some (output_addr (read a)) else None | None => None end.

Lemma match_spec read r va expected :
  (let (w, res) := start r va in match_loop WALK_FUEL read w res expected)
  = Ret (bool_decide (page_at read r va = Some expected)).
Proof.
  rewrite start_eq. unfold page_at, leaf. run_walk; try reflexivity. rewrite page_of_phys.
  change (3 =? 3) with true. f_equal. case_bool_decide as E; [injection E as ->; apply Z.eqb_refl|].
  apply Z.eqb_neq. congruence.
Qed.

Lemma clear_page_spec r va i m :
  clear_page r va i m
  = match leaf (arr_peek m) r (va + i * 4096) with
    | Some (l, a) => if l =? 3 then Ret (<[a := 0]> m) else Panic PAssert
    | None => Panic PAssert
    end.
Proof. unfold clear_page. rewrite start_eq. unfold leaf. run_walk; reflexivity. Qed.

(** * The architecture's translation

    The VMSAv8-64 walk with a 4 KiB granule and 48-bit addresses (D8.3 of the Arm
    Architecture Reference Manual), without access flag and permissions. [below] is
    the number of levels below the table: 3 for the level 0 table, 0 for level 3. *)

(** Bits [lo] to [47] of a descriptor. *)
Definition address_bits (lo d : Z) : Z := d / 2 ^ lo mod 2 ^ (48 - lo) * 2 ^ lo.

(** The bytes one entry maps. *)
Definition granule_bits (below : nat) : Z := 12 + 9 * Z.of_nat below.

Inductive Descriptor := DFault | DTable (table : Z) | DLeaf (base : Z).

(** 0b11 is a table, and at level 3 a page; 0b01 is a block at levels 1 and 2 and
    reserved at levels 0 and 3; bit 0 clear is invalid. *)
Definition decode (below : nat) (d : Z) : Descriptor :=
  if d mod 4 =? 3 then match below with O => DLeaf (address_bits 12 d) | S _ => DTable (address_bits 12 d) end
  else if d mod 4 =? 1 then match below with 1%nat | 2%nat => DLeaf (address_bits (granule_bits below) d) | _ => DFault end
  else DFault.

(** The level and the descriptor at which the walk ends. *)
Fixpoint walk_end (below : nat) (read : Z -> Z) (table va : Z) : nat * Z :=
  let d := read (table + 8 * (va / 2 ^ granule_bits below mod 512)) in
  match below, decode below d with
  | S below', DTable t => walk_end below' read t va
  | _, _ => (below, d)
  end.

Definition arch_translation (read : Z -> Z) (ttbr va : Z) : option Z :=
  if 2 ^ 48 <=? va then None else
  let (below, d) := walk_end 3 read ttbr va in
  match decode below d with DLeaf base => Some (base + va mod 2 ^ granule_bits below) | _ => None end.

(** A descriptor that the kernel reads as the architecture does: not the reserved
    encoding of level 3, and no address bits inside the block. *)
Definition plain (below : nat) (d : Z) : bool :=
  match below with
  | O => negb (d mod 4 =? 1)
  | S _ => match decode below d with DLeaf base => base =? address_bits 12 d | _ => true end
  end.

Lemma low_bits e : Z.land e 3 = e mod 4.
Proof. change 3 with (Z.ones 2). by rewrite Z.land_ones. Qed.

Lemma table_mod e : is_table e = (e mod 4 =? 3).
Proof. unfold is_table. change (Z.lor PTE_VALID PTE_TABLE) with 3. by rewrite low_bits. Qed.

Lemma block_mod e : is_block e = (e mod 4 =? 1).
Proof. unfold is_block. change (Z.lor PTE_VALID PTE_TABLE) with 3. by rewrite low_bits. Qed.

Lemma valid_mod e : is_valid e = (e mod 4 =? 1) || (e mod 4 =? 3).
Proof.
  unfold is_valid. change PTE_VALID with (Z.ones 1). rewrite Z.land_ones by lia. change (2 ^ 1) with 2.
  pose proof (Z.div_mod e 4 ltac:(lia)). pose proof (Z.mod_pos_bound e 4 ltac:(lia)).
  assert (e mod 2 = e mod 4 mod 2) as -> by (rewrite H at 1; replace (4 * (e / 4) + e mod 4) with (e mod 4 + (2 * (e / 4)) * 2) by lia; apply Z.mod_add; lia).
  assert (e mod 4 = 0 \/ e mod 4 = 1 \/ e mod 4 = 2 \/ e mod 4 = 3) as [->|[->|[->| ->]]] by lia; done.
Qed.

Lemma output_bits e : output_addr e = address_bits 12 e.
Proof.
  unfold output_addr, address_bits. change PTE_ADDR_MASK with (Z.shiftl (Z.ones 36) 12). rewrite <- Z.shiftl_mul_pow2, <- (Z.land_ones _ (48 - 12)), <- Z.shiftr_div_pow2 by lia.
  apply Z.bits_inj'. intros i Hi. rewrite Z.land_spec, !Z.shiftl_spec by lia. destruct (Z.lt_ge_cases i 12).
  - rewrite !(Z.testbit_neg_r _ (i - 12)) by lia. by rewrite andb_false_r.
  - rewrite Z.land_spec, Z.shiftr_spec by lia. do 2 f_equal; try lia.
Qed.

(** The kernel's walk ends where the architecture's does, and differs there only on
    the descriptors that are not plain. *)
Lemma leaf_end read r va : let (below, d) := walk_end 3 read r va in
  translation read r va = match decode below d with
    | DLeaf _ => Some (address_bits 12 d + va mod 2 ^ granule_bits below)
    | _ => if plain below d then None else Some (address_bits 12 d + va mod 2 ^ granule_bits below)
    end.
Proof.
  unfold translation, leaf. rewrite !table_mod, !block_mod, !valid_mod, !output_bits. cbn [walk_end]. rewrite !(Z.mul_comm 8). change (granule_bits 3) with 39.
  fold (vidx 39 va). set (d0 := read _). unfold decode at 1. destruct (Z.eqb_spec (d0 mod 4) 3) as [E0|E0]; cbn [negb].
  2:{ destruct (d0 mod 4 =? 1) eqn:B0; unfold plain, decode; by rewrite (proj2 (Z.eqb_neq _ _) E0), B0. }
  change (granule_bits 2) with 30. fold (vidx 30 va). set (d1 := read (address_bits 12 d0 + _)). unfold decode at 1. destruct (Z.eqb_spec (d1 mod 4) 3) as [E1|E1]; cbn [negb].
  2:{ destruct (d1 mod 4 =? 1) eqn:B1; unfold plain, decode; rewrite (proj2 (Z.eqb_neq _ _) E1), B1; [|done]. by rewrite output_bits. }
  rewrite E1. change (3 =? 1) with false. cbv iota.
  change (granule_bits 1) with 21. fold (vidx 21 va). set (d2 := read (address_bits 12 d1 + _)). unfold decode at 1. destruct (Z.eqb_spec (d2 mod 4) 3) as [E2|E2]; cbn [negb].
  2:{ destruct (d2 mod 4 =? 1) eqn:B2; unfold plain, decode; rewrite (proj2 (Z.eqb_neq _ _) E2), B2; [|done]. by rewrite output_bits. }
  rewrite E2. change (3 =? 1) with false. cbv iota.
  change (granule_bits 0) with 12. fold (vidx 12 va). set (d3 := read (address_bits 12 d2 + _)). unfold decode, plain. destruct (Z.eqb_spec (d3 mod 4) 3) as [E3|E3].
  - rewrite orb_true_r. by rewrite output_bits.
  - rewrite orb_false_r. destruct (d3 mod 4 =? 1); [|done]. by rewrite output_bits.
Qed.

(** The address bits above 47 do not matter to the kernel. *)
Lemma translation_low read r va : translation read r va = translation read r (va mod 2 ^ 48).
Proof.
  assert (Hi : forall k, 0 <= k <= 39 -> vidx k (va mod 2 ^ 48) = vidx k va).
  { intros k Hk. unfold vidx. replace (2 ^ 48) with (2 ^ k * 2 ^ (48 - k)) by (rewrite <- Z.pow_add_r by lia; f_equal; lia).
    rewrite Z.rem_mul_r, Z.mul_comm, Z.div_add, Z.div_small, Z.add_0_l by (try apply Z.mod_pos_bound; lia).
    replace (2 ^ (48 - k)) with (512 * 2 ^ (48 - k - 9)) by (change 512 with (2 ^ 9); rewrite <- Z.pow_add_r by lia; f_equal; lia).
    rewrite Z.rem_mul_r, Z.mul_comm, Z.mod_add, Z.mod_mod by lia. done. }
  assert (Hm : forall k, 0 <= k <= 48 -> (va mod 2 ^ 48) mod 2 ^ k = va mod 2 ^ k).
  { intros k Hk. replace (2 ^ 48) with (2 ^ k * 2 ^ (48 - k)) by (rewrite <- Z.pow_add_r by lia; f_equal; lia).
    rewrite Z.rem_mul_r, (Z.mul_comm (2 ^ k)), Z.mod_add, Z.mod_mod by lia. done. }
  unfold translation, leaf. rewrite !Hi by lia. repeat case_match; try done; simplify_eq; by rewrite Hm by lia.
Qed.

(** Tables and pages are plain. *)
Lemma table_plain below e : is_table e = true -> plain below e = true.
Proof. rewrite table_mod, Z.eqb_eq. intros E. unfold plain, decode. rewrite E. by destruct below. Qed.

(** C15: The kernel's translation of a user address against the architecture's, on
    any table memory. It always ends. Below 2^48 it is the translation of the Arm
    architecture exactly when the descriptor that ends the walk is [plain]: at a
    level 3 entry with the reserved encoding 0b01 the architecture faults and the
    kernel returns an address, and the kernel adds the offset to a block's
    whole address field, which the architecture cuts off at the block's size. Bits
    48 to 63 of the address are ignored, where the architecture faults. Level,
    index, table, block and page handling are otherwise the architecture's, and
    every table and page entry the kernel builds is plain. *)
Theorem translate_is_architectural read r va :
  exists o, translate_user_va read r va = Ret o /\
    (va < 2 ^ 48 -> let (below, d) := walk_end 3 read r va in o = arch_translation read r va <-> plain below d = true) /\
    translate_user_va read r (va mod 2 ^ 48) = Ret o /\
    forall below p attr a s, plain below (new_table p) = true /\ plain below (new_page p attr a s) = true /\ plain below (with_pxn (with_uxn (new_page p attr a s))) = true.
Proof.
  exists (translation read r va). rewrite !translate_spec. split; [done|]. split; [|split; [by rewrite <- translation_low|]].
  2:{ intros below p attr a s. destruct (new_table_fields p), (new_page_flags p attr a s). split_and!; apply table_plain; [done|done|by rewrite (proj2 (with_xn_fields _))]. }
  intros Hva. pose proof (leaf_end read r va) as H. unfold arch_translation. rewrite (proj2 (Z.leb_gt _ _)) by done. destruct (walk_end 3 read r va) as [below d]. rewrite H.
  destruct (decode below d) as [|t|base] eqn:E.
  - by destruct (plain below d).
  - by destruct (plain below d).
  - destruct below as [|below]; cbn [plain].
    + unfold decode in E. destruct (Z.eqb_spec (d mod 4) 3) as [->|]; [by injection E as <-|]. by destruct (d mod 4 =? 1).
    + rewrite E, Z.eqb_eq. split; [intros [= H1]; lia|by intros ->].
Qed.

(** A page, and an entry with the reserved encoding behind it. *)
Definition walk_mem : gmap Z Z :=
  <[4096 := new_table 8192]> (<[8192 := new_table 12288]> (<[12288 := new_table 16384]> (<[16384 := new_page 20480 MAIR_NORMAL AP_RW_ALL SH_INNER]> (<[16392 := 20481]> ∅)))).

Lemma translate_is_architectural_witness :
  Ret (arch_translation (arr_peek walk_mem) 4096 52) = translate_user_va (arr_peek walk_mem) 4096 52 /\ arch_translation (arr_peek walk_mem) 4096 52 = Some 20532 /\
  translate_user_va (arr_peek walk_mem) 4096 4148 = Ret (Some 20532) /\ arch_translation (arr_peek walk_mem) 4096 4148 <> Some 20532.
Proof.
  destruct (translate_is_architectural (arr_peek walk_mem) 4096 52) as (o & -> & H & _). destruct (translate_is_architectural (arr_peek walk_mem) 4096 4148) as (o' & E' & H' & _).
  specialize (H ltac:(lia)). specialize (H' ltac:(lia)). rewrite (proj2 H ltac:(vm_compute; reflexivity)). split; [reflexivity|]. split; [vm_compute; reflexivity|]. split; [vm_compute; reflexivity|].
  assert (o' = Some 20532) as -> by (assert (Hc : translate_user_va (arr_peek walk_mem) 4096 4148 = Ret (Some 20532)) by (vm_compute; reflexivity); congruence).
  intros E. symmetry in E. apply H' in E. vm_compute in E. discriminate.
Defined.

Definition validate_post (read : Z -> Z) (r va i : Z) (es : list Z) (res : result unit Z) : Prop :=
  match res with
  | Ok _ => forall j e, es !! j = Some e -> page_at read r (va + (i + Z.of_nat j) * 4096) = Some e
  | Err k => exists j e, es !! j = Some e /\ k = i + Z.of_nat j /\
      page_at read r (va + k * 4096) <> Some e /\
      forall j' e', (j' < j)%nat -> es !! j' = Some e' ->
        page_at read r (va + (i + Z.of_nat j') * 4096) = Some e'
  end.

Lemma validate_from_spec read r va es : forall i,
  exists res, validate_from read r va i es = Ret res /\ validate_post read r va i es res.
Proof.
  induction es as [|e es IH]; intros i; cbn [validate_from].
  { exists (Ok tt). split; [done|]. intros j e. by rewrite lookup_nil. }
  pose proof (match_spec read r (va + i * 4096) e) as Em.
  destruct (start r (va + i * 4096)) as [w res]. rewrite Em, bind_Ret. clear Em.
  case_bool_decide as H0.
  - destruct (IH (i + 1)) as (res' & -> & Hp). exists res'. split; [done|].
    destruct res' as [u|k].
    + intros [|j] e' He.
      * injection He as <-. by rewrite Z.add_0_r.
      * rewrite <- (Hp j e' He). f_equal. lia.
    + destruct Hp as (j & e' & He & -> & Hne & Hlt). exists (S j), e'. split_and!; [done|lia|done|].
      intros [|j'] e'' Hj He'.
      * injection He' as <-. by rewrite Z.add_0_r.
      * rewrite <- (Hlt j' e'' ltac:(lia) He'). f_equal. lia.
  - exists (Err i). split; [done|]. exists 0%nat, e. split_and!; [done|lia| |intros; lia].
    done.
Qed.

(** * Address spaces

    The tables of a user address space: the L1 and L2 table and, by L2
    index, the L3 tables. User addresses use entry 0 of L0 and L1 only. *)
Record AS := mkAS { as_l1 : Z; as_l2 : Z; as_l3 : Z -> option Z }.

Record as_ok (m : gmap Z Z) (r : Z) (a : AS) : Prop := {
  ao_root : page_addr r;
  ao_l0 : is_table (arr_peek m r) = true /\ output_addr (arr_peek m r) = as_l1 a;
  ao_l0_rest : forall k, 0 < k < 512 -> is_valid (arr_peek m (r + k * 8)) = false;
  ao_l1 : is_table (arr_peek m (as_l1 a)) = true /\ output_addr (arr_peek m (as_l1 a)) = as_l2 a;
  ao_l1_rest : forall k, 0 < k < 512 -> is_valid (arr_peek m (as_l1 a + k * 8)) = false;
  ao_l2 : forall k, 0 <= k < 512 ->
    match as_l3 a k with
    | Some p => is_table (arr_peek m (as_l2 a + k * 8)) = true /\ output_addr (arr_peek m (as_l2 a + k * 8)) = p
    | None => is_valid (arr_peek m (as_l2 a + k * 8)) = false
    end;
  ao_range : forall k p, as_l3 a k = Some p -> 0 <= k < 512;
  ao_upper : r <> as_l1 a /\ r <> as_l2 a /\ as_l1 a <> as_l2 a;
  ao_lower : forall k p, as_l3 a k = Some p -> p <> r /\ p <> as_l1 a /\ p <> as_l2 a;
  ao_inj : forall k k' p, as_l3 a k = Some p -> as_l3 a k' = Some p -> k = k';
}.

(** The pages of its tables. *)
Definition as_page (r : Z) (a : AS) (q : Z) : Prop :=
  q = r \/ q = as_l1 a \/ q = as_l2 a \/ exists k, as_l3 a k = Some q.

(** What it maps at user page [v] (address [v * 4096]). *)
Definition as_view (m : gmap Z Z) (a : AS) (v : Z) : option Z :=
  match as_l3 a (v / 512) with
  | Some p => let e := arr_peek m (p + v mod 512 * 8) in
              if is_valid e then Some (output_addr e) else None
  | None => None
  end.

Lemma as_page_addr m r a q : as_ok m r a -> as_page r a q -> page_addr q.
Proof.
  intros H [->|[->|[->|(k & Hk)]]].
  - apply H.
  - rewrite <- (proj2 (ao_l0 _ _ _ H)). apply output_addr_page.
  - rewrite <- (proj2 (ao_l1 _ _ _ H)). apply output_addr_page.
  - pose proof (ao_l2 _ _ _ H k (ao_range _ _ _ H _ _ Hk)) as Hl. rewrite Hk in Hl.
    rewrite <- (proj2 Hl). apply output_addr_page.
Qed.

Lemma word_inj q q' i i' :
  page_addr q -> page_addr q' -> 0 <= i < 512 -> 0 <= i' < 512 -> q + i * 8 = q' + i' * 8 -> q = q' /\ i = i'.
Proof.
  intros [_ Hq] [_ Hq'] Hi Hi' E.
  pose proof (Z.div_mod q 4096 ltac:(lia)). pose proof (Z.div_mod q' 4096 ltac:(lia)).
  assert (q / 4096 = q' / 4096) by lia. lia.
Qed.

Lemma as_frame m m' r a :
  as_ok m r a ->
  (forall q i, as_page r a q -> 0 <= i < 512 -> (exists k, as_l3 a k = Some q) \/
     arr_peek m' (q + i * 8) = arr_peek m (q + i * 8)) ->
  as_ok m' r a.
Proof.
  intros H F.
  assert (forall q i, as_page r a q -> (forall k, as_l3 a k <> Some q) -> 0 <= i < 512 ->
    arr_peek m' (q + i * 8) = arr_peek m (q + i * 8)) as F'.
  { intros q i Hq Hn Hi. destruct (F q i Hq Hi) as [(k & Hk)|]; [by destruct (Hn k)|done]. }
  assert (forall k, as_l3 a k <> Some r) as N0 
    by (intros k Hk; destruct (ao_lower _ _ _ H _ _ Hk) as (? & ? & ?); congruence).
  assert (forall k, as_l3 a k <> Some (as_l1 a)) as N1 
    by (intros k Hk; destruct (ao_lower _ _ _ H _ _ Hk) as (? & ? & ?); congruence).
  assert (forall k, as_l3 a k <> Some (as_l2 a)) as N2 
    by (intros k Hk; destruct (ao_lower _ _ _ H _ _ Hk) as (? & ? & ?); congruence).
  constructor; try apply H.
  - pose proof (F' r 0 ltac:(by left) N0 ltac:(lia)) as E. rewrite Z.add_0_r in E. rewrite E. apply H.
  - intros k Hk. rewrite F'; [by apply H|by left|done|lia].
  - pose proof (F' (as_l1 a) 0 ltac:(by right; left) N1 ltac:(lia)) as E. rewrite Z.add_0_r in E.
    rewrite E. apply H.
  - intros k Hk. rewrite F'; [by apply H|by right; left|done|lia].
  - intros k Hk. rewrite F'; [by apply H|by right; right; left|done|lia].
Qed.

(** Writing an L3 entry changes the view at its page only. *)
Lemma as_write m r a k p i v :
  as_ok m r a -> as_l3 a k = Some p -> 0 <= i < 512 -> as_ok (<[p + i * 8 := v]> m) r a.
Proof.
  intros H Hk Hi. apply (as_frame m); [done|]. intros q j Hq Hj. rewrite arr_peek_insert.
  case_decide as E; [|by right]. left. exists k.
  destruct (word_inj p q i j) as [-> _]; try done; [|by eapply as_page_addr].
  eapply (as_page_addr m r a); [done|]. right. right. right. by exists k.
Qed.

Lemma as_write_view m r a k p i v u :
  as_ok m r a -> as_l3 a k = Some p -> 0 <= i < 512 ->
  as_view (<[p + i * 8 := v]> m) a u =
  if decide (u = k * 512 + i) then (if is_valid v then Some (output_addr v) else None) else as_view m a u.
Proof.
  intros H Hk Hi. unfold as_view. destruct (decide (u = k * 512 + i)) as [->|Hne].
  - replace ((k * 512 + i) / 512) with k by (apply Z.div_unique with i; lia).
    replace ((k * 512 + i) mod 512) with i by (apply Z.mod_unique with k; lia).
    rewrite Hk, arr_peek_insert. by rewrite decide_True.
  - destruct (as_l3 a (u / 512)) as [q|] eqn:Hq; [|done].
    rewrite arr_peek_insert, decide_False; [done|]. intros E.
    destruct (word_inj p q i (u mod 512)) as [-> ->]; try done.
    + eapply (as_page_addr m r a); [done|]. right. right. right. by exists k.
    + eapply (as_page_addr m r a); [done|]. right. right. right. by exists (u / 512).
    + apply Z.mod_pos_bound. lia.
    + rewrite (ao_inj _ _ _ H _ _ _ Hk Hq) in Hne. apply Hne. pose proof (Z.div_mod u 512). lia.
Qed.

(** User pages are those under entry 0 of L0 and L1. *)
Lemma low_page v :
  0 <= v -> v * 4096 < 2 ^ 48 -> vidx 39 (v * 4096) = 0 /\ vidx 30 (v * 4096) = 0 <-> v < 2 ^ 18.
Proof.
  intros Hv Hv'. unfold vidx. change (2 ^ 39) with (4096 * (2 ^ 18 * 512)). change (2 ^ 30) with (4096 * 2 ^ 18).
  rewrite <- !(Z.div_div (v * 4096) 4096), Z.div_mul, <- (Z.div_div v (2 ^ 18) 512) by lia.
  assert (0 <= v / 2 ^ 18) by (apply Z.div_pos; lia).
  assert (0 <= v / 2 ^ 18 / 512 < 512) as R.
  { split; [by apply Z.div_pos|]. rewrite Z.div_div by lia. apply Z.div_lt_upper_bound; lia. }
  rewrite (Z.mod_small (v / 2 ^ 18 / 512)) by done. split.
  - intros [E0 E1]. pose proof (Z.div_mod (v / 2 ^ 18) 512 ltac:(lia)).
    apply Z.div_small_iff in E0; [|lia]. pose proof (Z.div_mod v (2 ^ 18) ltac:(lia)).
    pose proof (Z.mod_pos_bound v (2 ^ 18) ltac:(lia)). lia.
  - intros L. by rewrite (Z.div_small v) by lia.
Qed.

Lemma low_vidx v :
  0 <= v < 2 ^ 18 -> vidx 21 (v * 4096) = v / 512 /\ vidx 12 (v * 4096) = v mod 512 /\ 0 <= v / 512 < 512.
Proof.
  intros Hv. assert (0 <= v / 512 < 512) as R by (split; [apply Z.div_pos|apply Z.div_lt_upper_bound]; lia).
  unfold vidx. change (2 ^ 21) with (4096 * 512). change (2 ^ 12) with 4096.
  rewrite <- Z.div_div, Z.div_mul by lia. by rewrite (Z.mod_small (v / 512)).
Qed.

Lemma l3_low m r a v p : as_ok m r a -> 0 <= v -> as_l3 a (v / 512) = Some p -> v < 2 ^ 18.
Proof.
  intros H Hv Hp. apply (ao_range _ _ _ H) in Hp.
  pose proof (Z.div_mod v 512). pose proof (Z.mod_pos_bound v 512). lia.
Qed.

(** The walk inside an address space. *)
Lemma leaf_as m r a v :
  as_ok m r a -> 0 <= v -> v * 4096 < 2 ^ 48 ->
  leaf (arr_peek m) r (v * 4096)
  = match as_l3 a (v / 512) with
    | Some p => if is_valid (arr_peek m (p + v mod 512 * 8)) then Some (3, p + v mod 512 * 8) else None
    | None => None
    end.
Proof.
  intros H Hv Hv'. pose proof (low_page v Hv Hv') as Hlow. unfold leaf.
  pose proof (vidx_range 39 (v * 4096)) as R0. pose proof (vidx_range 30 (v * 4096)) as R1.
  destruct (decide (v < 2 ^ 18)) as [L|L].
  - destruct (proj2 Hlow L) as [-> ->]. destruct (low_vidx v ltac:(lia)) as (-> & -> & R).
    rewrite !Z.add_0_r. destruct (ao_l0 _ _ _ H) as [T0 ->]. rewrite T0.
    destruct (ao_l1 _ _ _ H) as [T1 ->]. destruct (table_valid _ T1) as [_ ->]. rewrite T1. cbn [negb].
    pose proof (ao_l2 _ _ _ H (v / 512) R) as L2. destruct (as_l3 a (v / 512)) as [p|].
    + destruct L2 as [T2 ->]. destruct (table_valid _ T2) as [_ ->]. by rewrite T2.
    + by rewrite is_block_bits, is_table_bits, <- is_valid_bit, L2.
  - destruct (as_l3 a (v / 512)) as [p|] eqn:Hp; [by apply (l3_low m r) in Hp|].
    destruct (decide (vidx 39 (v * 4096) = 0)) as [E0|E0].
    + rewrite E0, Z.add_0_r. destruct (ao_l0 _ _ _ H) as [T0 ->]. rewrite T0. cbn [negb].
      rewrite is_block_bits, is_table_bits, <- is_valid_bit, (ao_l1_rest _ _ _ H); [done|lia].
    + rewrite is_table_bits, <- is_valid_bit, (ao_l0_rest _ _ _ H); [done|lia].
Qed.

Lemma page_at_as m r a v :
  as_ok m r a -> 0 <= v -> v * 4096 < 2 ^ 48 -> page_at (arr_peek m) r (v * 4096) = as_view m a v.
Proof.
  intros H Hv Hv'. unfold page_at, as_view. rewrite (leaf_as m r a) by done.
  destruct (as_l3 a (v / 512)) as [p|]; [|done].
  by destruct (is_valid (arr_peek m (p + v mod 512 * 8))).
Qed.

(** ** Several address spaces: no two share a table page. *)
Record spaces_ok (m : gmap Z Z) (S : gmap Z AS) : Prop := {
  so_as : forall r a, S !! r = Some a -> as_ok m r a;
  so_sep : forall r r' a a' q,
    S !! r = Some a -> S !! r' = Some a' -> as_page r a q -> as_page r' a' q -> r = r';
}.

(** The view of every space but [r] kept, that of [r] given by [f]. *)
Definition view_upd (m m' : gmap Z Z) (S : gmap Z AS) (r : Z) (f : Z -> option Z) : Prop :=
  forall r' a' u, S !! r' = Some a' -> as_view m' a' u = if decide (r' = r) then f u else as_view m a' u.

Lemma spaces_write m S r a k p i v :
  spaces_ok m S -> S !! r = Some a -> as_l3 a k = Some p -> 0 <= i < 512 ->
  spaces_ok (<[p + i * 8 := v]> m) S /\
  view_upd m (<[p + i * 8 := v]> m) S r (fun u =>
    if decide (u = k * 512 + i) then (if is_valid v then Some (output_addr v) else None) else as_view m a u).
Proof.
  intros [Ho Hs] Hr Hk Hi. pose proof (Ho r a Hr) as Ha.
  assert (page_addr p /\ as_page r a p) as [Pp Ap].
  { assert (as_page r a p) by (right; right; right; by exists k). split; [|done]. by eapply as_page_addr. }
  assert (forall r' a' q j, S !! r' = Some a' -> r' <> r -> as_page r' a' q -> 0 <= j < 512 ->
    arr_peek (<[p + i * 8 := v]> m) (q + j * 8) = arr_peek m (q + j * 8)) as F.
  { intros r' a' q j Hr' Hne Hq Hj. rewrite arr_peek_insert, decide_False; [done|]. intros E.
    destruct (word_inj p q i j) as [<- _]; try done;
      [exact (as_page_addr m r' a' q (Ho r' a' Hr') Hq)|].
    apply Hne. by eapply Hs. }
  split.
  - constructor; [|done]. intros r' a' Hr'. destruct (decide (r' = r)) as [->|Hne].
    + rewrite Hr in Hr'. injection Hr' as <-. by eapply as_write.
    + apply (as_frame m); [by apply Ho|]. intros q j Hq Hj. right. by eapply F.
  - intros r' a' u Hr'. case_decide as E.
    + subst. rewrite Hr in Hr'. injection Hr' as <-. by eapply as_write_view.
    + unfold as_view. destruct (as_l3 a' (u / 512)) as [q|] eqn:Hq; [|done].
      rewrite (F r' a' q (u mod 512)); [done|done|done| |apply Z.mod_pos_bound; lia].
      right. right. right. by exists (u / 512).
Qed.

Lemma view_in m a u q : as_view m a u = Some q ->
  exists p, as_l3 a (u / 512) = Some p /\ is_valid (arr_peek m (p + u mod 512 * 8)) = true /\
    output_addr (arr_peek m (p + u mod 512 * 8)) = q.
Proof.
  unfold as_view. destruct (as_l3 a (u / 512)) as [p|]; [|done].
  destruct (is_valid (arr_peek m (p + u mod 512 * 8))) eqn:E; [|done]. intros H. injection H as <-. eauto.
Qed.

Lemma clear_spec m S r a v n :
  spaces_ok m S -> S !! r = Some a -> 0 <= v -> 0 <= n ->
  (forall j, 0 <= j < n -> is_Some (as_view m a (v + j))) ->
  exists m', clear_validated_pte r (v * 4096) n m = Ret m' /\ spaces_ok m' S /\
    view_upd m m' S r (fun u => if decide (v <= u < v + n) then None else as_view m a u).
Proof.
  intros Hs Hr Hv Hn Hm. unfold clear_validated_pte.
  destruct (for_range_inv (fun j m' => spaces_ok m' S /\
      view_upd m m' S r (fun u => if decide (v <= u < v + j) then None else as_view m a u))
    (clear_page r (v * 4096)) (Z.to_nat n) 0 m) as (m' & E & Hs' & Hv').
  - split; [done|]. intros r' a' u Hr'. case_decide; [subst|done]. rewrite Hr in Hr'. injection Hr' as <-.
    by rewrite decide_False by lia.
  - intros j mj Hj [Hsj Hvj].
    destruct (Hm j ltac:(lia)) as [q Hq].
    assert (as_view mj a (v + j) = Some q) as Hq'.
    { rewrite (Hvj r a _ Hr), decide_True, decide_False by lia. done. }
    destruct (view_in _ _ _ _ Hq') as (p & Hp & Hval & Ho).
    pose proof (so_as _ _ Hsj r a Hr) as Ha. pose proof (l3_low mj r a (v + j) p Ha ltac:(lia) Hp) as Hlow.
    rewrite clear_page_spec. replace (v * 4096 + j * 4096) with ((v + j) * 4096) by lia.
    rewrite (leaf_as mj r a) by (try done; lia). rewrite Hp, Hval. cbn -[Z.add Z.mul].
    eexists. split; [done|].
    destruct (spaces_write mj S r a _ p ((v + j) mod 512) 0 Hsj Hr Hp) as [Hs2 Hv2];
      [apply Z.mod_pos_bound; lia|]. split; [done|].
    assert ((v + j) / 512 * 512 + (v + j) mod 512 = v + j) as Eu by (pose proof (Z.div_mod (v + j) 512); lia).
    rewrite Eu in Hv2. intros r' a' u Hr'. rewrite (Hv2 r' a' u Hr'). case_decide as Er.
    + rewrite is_valid_0. destruct (decide (u = v + j)) as [->|Hne]; [by rewrite decide_True by lia|].
      rewrite (Hvj r a u Hr), (decide_True (P := r = r)) by done.
      destruct (decide (v <= u < v + j)); [by rewrite decide_True by lia|by rewrite decide_False by lia].
    + rewrite (Hvj r' a' u Hr'). by rewrite decide_False.
  - exists m'. rewrite Z.add_0_l, Z2Nat.id in Hv' by lia. done.
Qed.

Lemma unmap_validated_spec m S r a v es :
  spaces_ok m S -> S !! r = Some a -> 0 <= v -> (v + Z.of_nat (length es)) * 4096 <= 2 ^ 48 ->
  exists res m', unmap_validated r (v * 4096) es m = Ret (res, m') /\ spaces_ok m' S /\
    match res with
    | Ok _ =>
        (forall j e, es !! j = Some e -> as_view m a (v + Z.of_nat j) = Some e) /\
        view_upd m m' S r (fun u => if decide (v <= u < v + Z.of_nat (length es)) then None else as_view m a u)
    | Err i =>
        m' = m /\ exists j e, i = Z.of_nat j /\ es !! j = Some e /\ as_view m a (v + i) <> Some e /\
          forall j' e', (j' < j)%nat -> es !! j' = Some e' -> as_view m a (v + Z.of_nat j') = Some e'
    end.
Proof.
  intros Hs Hr Hv Hb. unfold unmap_validated, validate_pte_match.
  pose proof (so_as _ _ Hs r a Hr) as Ha.
  destruct (validate_from_spec (arr_peek m) r (v * 4096) es 0) as (res & -> & Hp). rewrite bind_Ret.
  assert (forall j e, es !! j = Some e ->
    page_at (arr_peek m) r (v * 4096 + (0 + Z.of_nat j) * 4096) = as_view m a (v + Z.of_nat j)) as Hpa.
  { intros j e Hj. apply lookup_lt_Some in Hj.
    replace (v * 4096 + (0 + Z.of_nat j) * 4096) with ((v + Z.of_nat j) * 4096) by lia.
    apply page_at_as; [done|lia..]. }
  destruct res as [[]|i].
  - destruct (clear_spec m S r a v (Z.of_nat (length es)) Hs Hr Hv ltac:(lia)) as (m' & -> & Hs' & Hv').
    { intros j Hj. destruct (lookup_lt_is_Some_2 es (Z.to_nat j) ltac:(lia)) as [e He].
      specialize (Hp _ _ He). rewrite (Hpa _ _ He), Z2Nat.id in Hp by lia. by rewrite Hp. }
    exists (Ok tt), m'. split_and!; try done. intros j e He. rewrite <- (Hpa _ _ He). by apply Hp.
  - destruct Hp as (j & e & He & -> & Hne & Hlt). exists (Err (0 + Z.of_nat j)), m. split_and!; try done.
    exists j, e. split_and!; [lia|done| |].
    + rewrite (Hpa _ _ He) in Hne. by rewrite Z.add_0_l.
    + intros j' e' Hj He'. rewrite <- (Hpa _ _ He'). by apply Hlt.
Qed.

(** C26: Unmapping a PageSet from an address space. The kernel's
    [unmap_validated] never panics on a family of separate address spaces.
    When every page of the range is mapped by an L3 entry to the expected
    frame it clears exactly those pages of that address space, changing
    nothing else in it or in any other; otherwise it reports the first page
    that differs and leaves the tables unchanged. *)
Theorem unmap_validated_exact m S r a v es :
  spaces_ok m S -> S !! r = Some a -> 0 <= v -> (v + Z.of_nat (length es)) * 4096 <= 2 ^ 48 ->
  exists res m', unmap_validated r (v * 4096) es m = Ret (res, m') /\ spaces_ok m' S /\
    match res with
    | Ok _ =>
        (forall j e, es !! j = Some e -> as_view m a (v + Z.of_nat j) = Some e) /\
        view_upd m m' S r (fun u => if decide (v <= u < v + Z.of_nat (length es)) then None else as_view m a u)
    | Err i =>
        m' = m /\ exists j e, i = Z.of_nat j /\ es !! j = Some e /\ as_view m a (v + i) <> Some e /\
          forall j' e', (j' < j)%nat -> es !! j' = Some e' -> as_view m a (v + Z.of_nat j') = Some e'
    end.
Proof. apply unmap_validated_spec. Qed.

Definition ex_mem : gmap Z Z :=
  <[4096 := new_table 8192]> (<[8192 := new_table 12288]> (<[12288 := new_table 16384]>
    (<[16384 + 5 * 8 := new_page 327680 MAIR_NORMAL AP_RW_ALL SH_INNER]> ∅))).
Definition ex_as : AS := mkAS 8192 12288 (fun k => if k =? 0 then Some 16384 else None).

Lemma ex_peek x :
  arr_peek ex_mem x =
  if decide (4096 = x) then new_table 8192 else if decide (8192 = x) then new_table 12288 else
  if decide (12288 = x) then new_table 16384 else
  if decide (16384 + 5 * 8 = x) then new_page 327680 MAIR_NORMAL AP_RW_ALL SH_INNER else 0.
Proof. unfold ex_mem. by rewrite !arr_peek_insert, arr_peek_empty. Qed.

Lemma ex_spaces : spaces_ok ex_mem {[4096 := ex_as]}.
Proof.
  constructor.
  - intros r a [<- <-]%lookup_singleton_Some.
    constructor; rewrite ?ex_peek; simpl; try done.
    + intros k Hk. rewrite ex_peek. by repeat rewrite decide_False by lia.
    + intros k Hk. rewrite ex_peek. by repeat rewrite decide_False by lia.
    + intros k Hk. rewrite ex_peek. destruct (Z.eqb_spec k 0) as [->|]; [done|].
      by repeat rewrite decide_False by lia.
    + intros k p. destruct (Z.eqb_spec k 0); [lia|done].
    + intros k p. destruct (Z.eqb_spec k 0); [|done]. intros [= <-]. lia.
    + intros k k' p. destruct (Z.eqb_spec k 0), (Z.eqb_spec k' 0); try done. lia.
  - intros r r' a a' q [<- _]%lookup_singleton_Some [<- _]%lookup_singleton_Some. done.
Qed.

Lemma unmap_validated_exact_witness :
  exists res m', unmap_validated 4096 (5 * 4096) [327680] ex_mem = Ret (res, m') /\ res = Ok tt /\
    as_view m' ex_as 5 = None.
Proof.
  destruct (unmap_validated_exact ex_mem {[4096 := ex_as]} 4096 ex_as 5 [327680]) as (res & m' & E & _ & H).
  - apply ex_spaces.
  - reflexivity.
  - lia.
  - simpl. lia.
  - exists res, m'. split; [done|]. destruct res as [[]|i].
    + split; [done|]. destruct H as [_ H]. by rewrite (H 4096 ex_as 5) by reflexivity.
    + exfalso. destruct H as (_ & j & e & -> & Hj & Hne & _). destruct j as [|j]; [|done].
      injection Hj as <-. apply Hne. unfold as_view. simpl. by rewrite ex_peek.
Defined.

(** * The mapping query *)

(** Whether page [u] is mapped below the L2 table at [l2_table]. *)
Definition l2_mapped (read : Z -> Z) (l2_table u : Z) : bool :=
  let e := read (l2_table + u / 512 * 8) in
  if is_block e then true else
  if is_table e then is_valid (read (output_addr e + u mod 512 * 8)) else false.

(** The pages from [u] on that have state [b]: [n] of them, and the next one
    differs unless the range ends. *)
Definition run_of (f : Z -> bool) (b : bool) (u n : Z) : Prop :=
  0 <= n /\ u + n <= 2 ^ 18 /\ (forall j, 0 <= j < n -> f (u + j) = b) /\
  (u + n < 2 ^ 18 -> f (u + n) = negb b).

Lemma run_app f b u d n :
  0 <= d -> (forall j, 0 <= j < d -> f (u + j) = b) -> run_of f b (u + d) n -> run_of f b u (d + n).
Proof.
  intros Hd Hf (H1 & H2 & H3 & H4). split_and!; [lia|lia| |].
  - intros j Hj. destruct (decide (j < d)); [apply Hf; lia|].
    replace (u + j) with (u + d + (j - d)) by lia. apply H3. lia.
  - intros. rewrite Z.add_assoc. apply H4. lia.
Qed.

Lemma query_l3_spec read t b f n : forall i u cnt,
  0 <= u -> u + Z.of_nat n <= 2 ^ 18 ->
  (forall j, 0 <= j < Z.of_nat n -> f (u + j) = is_valid (read (t + (i + j) * 8))) ->
  match query_l3 read t b n i (u * 4096) cnt with
  | inl (b', c) => b' = b /\ cnt <= c /\ run_of f b u (c - cnt)
  | inr (va, c) => va = (u + Z.of_nat n) * 4096 /\ c = cnt + Z.of_nat n /\
      forall j, 0 <= j < Z.of_nat n -> f (u + j) = b
  end.
Proof.
  induction n as [|n IH]; intros i u cnt Hu Hn Hf; cbn [query_l3].
  { split_and!; lia. }
  unfold USER_VA_END. rewrite (proj2 (Z.leb_gt _ _)) by lia.
  pose proof (Hf 0 ltac:(lia)) as H0. rewrite !Z.add_0_r in H0. rewrite <- H0.
  destruct (Bool.eqb (f u) b) eqn:E; cbn [negb].
  - apply eqb_prop in E. specialize (IH (i + 1) (u + 1) (cnt + 1)).
    replace ((u + 1) * 4096) with (u * 4096 + 4096) in IH by lia.
    assert (forall j, 0 <= j < 1 -> f (u + j) = b) as H1 by (intros; by replace (u + j) with u by lia).
    destruct query_l3 as [[b' c]|[va c]].
    + destruct IH as (-> & Hc & Hr); [lia|lia| |].
      { intros j Hj. rewrite <- Z.add_assoc, Hf by lia. do 2 f_equal. lia. }
      split_and!; [done|lia|]. replace (c - cnt) with (1 + (c - (cnt + 1))) by lia.
      apply run_app; [lia|done|done].
    + destruct IH as (-> & -> & Hr); [lia|lia| |].
      { intros j Hj. rewrite <- Z.add_assoc, Hf by lia. do 2 f_equal. lia. }
      split_and!; [lia|lia|]. intros j Hj. destruct (decide (j = 0)) as [->|]; [apply H1; lia|].
      replace (u + j) with (u + 1 + (j - 1)) by lia. apply Hr. lia.
  - split_and!; [done|lia|]. rewrite Z.sub_diag. split_and!; [lia|lia|lia|]. rewrite Z.add_0_r.
    intros _. by destruct (f u), b.
Qed.

Lemma region_arith u :
  0 <= u < 2 ^ 18 ->
  let d := 512 - u mod 512 in
  Z.land (Z.shiftr (u * 4096) 21) 0x1FF = u / 512 /\ Z.land (Z.shiftr (u * 4096) 12) 0x1FF = u mod 512 /\
  Z.min (Z.shiftl (Z.shiftr (u * 4096) 21 + 1) 21) USER_VA_END = (u + d) * 4096 /\
  ((u + d) * 4096 - u * 4096) / 4096 = d /\ 0 < d <= 512 /\ u + d <= 2 ^ 18 /\
  (u + d) / 512 = u / 512 + 1 /\ (forall j, 0 <= j < d -> (u + j) / 512 = u / 512 /\ (u + j) mod 512 = u mod 512 + j).
Proof.
  intros Hu d. destruct (low_vidx u Hu) as (E1 & E2 & R). rewrite !idx_arith, E1, E2 by lia.
  pose proof (Z.div_mod u 512 ltac:(lia)) as Ed. pose proof (Z.mod_pos_bound u 512 ltac:(lia)).
  assert (Z.shiftr (u * 4096) 21 = u / 512) as ->.
  { rewrite Z.shiftr_div_pow2 by lia. change (2 ^ 21) with (4096 * 512).
    by rewrite <- Z.div_div, Z.div_mul by lia. }
  rewrite Z.shiftl_mul_pow2 by lia. unfold USER_VA_END.
  assert (u + d = (u / 512 + 1) * 512) as Eud by lia.
  split_and!; try done; try lia.
  - rewrite <- Z.mul_sub_distr_r, Z.div_mul by lia. lia.
  - rewrite Eud. by rewrite Z.div_mul by lia.
  - intros j Hj. split; symmetry; [apply Z.div_unique with (u mod 512 + j)|apply Z.mod_unique with (u / 512)]; lia.
Qed.

Lemma query_scan_spec read l2 b fuel : forall u cnt,
  0 <= u <= 2 ^ 18 -> 512 < Z.of_nat fuel + u / 512 ->
  exists n, query_scan fuel read l2 b (u * 4096) cnt = Ret (b, cnt + n) /\ run_of (l2_mapped read l2) b u n.
Proof.
  induction fuel as [|fuel IH]; intros u cnt Hu Hf.
  { exfalso. assert (u / 512 <= 512) by (apply Z.div_le_upper_bound; lia). lia. }
  cbn [query_scan]. unfold USER_VA_END at 1. destruct (decide (u = 2 ^ 18)) as [->|Hne].
  { exists 0. rewrite (proj2 (Z.ltb_ge _ _)) by lia. split; [f_equal; f_equal; lia|].
    split_and!; try lia. }
  rewrite (proj2 (Z.ltb_lt _ _)) by lia. cbn [negb].
  destruct (region_arith u ltac:(lia)) as (-> & -> & -> & Ec & Hd & Hud & Edi & Hj).
  set (d := 512 - u mod 512) in *. rewrite Ec.
  assert (0 <= u / 512 < 512) as R by (split; [apply Z.div_pos|apply Z.div_lt_upper_bound]; lia).
  rewrite (proj2 (Z.leb_gt _ _)) by lia.
  set (e := read (l2 + u / 512 * 8)).
  assert (forall x, (forall j, 0 <= j < d -> l2_mapped read l2 (u + j) = x) ->
    exists n, (if Bool.eqb x b then query_scan fuel read l2 b ((u + d) * 4096) (cnt + d) else Ret (b, cnt))
              = Ret (b, cnt + n) /\ run_of (l2_mapped read l2) b u n) as Hskip.
  { intros x Hx. destruct (Bool.eqb x b) eqn:Eb.
    - apply eqb_prop in Eb as ->. destruct (IH (u + d) (cnt + d) ltac:(lia) ltac:(lia)) as (n & -> & Hr).
      exists (d + n). split; [do 2 f_equal; lia|]. apply run_app; [lia|done|done].
    - exists 0. split; [do 2 f_equal; lia|]. split_and!; [lia|lia|lia|]. intros _.
      rewrite (Hx 0) by lia. by destruct x, b. }
  assert (forall j, 0 <= j < d -> l2_mapped read l2 (u + j) =
    (if is_block e then true else if is_table e then is_valid (read (output_addr e + (u mod 512 + j) * 8)) else false)) as Hm.
  { intros j Hj'. unfold l2_mapped. destruct (Hj j Hj') as [-> ->]. done. }
  destruct (is_valid e) eqn:Ev; cbn [negb].
  2:{ destruct (Hskip false) as (n & E & Hr).
      { intros j Hj'. rewrite Hm by done. by rewrite is_block_bits, is_table_bits, <- is_valid_bit, Ev. }
      exists n. split; [|done]. rewrite <- E. by destruct b. }
  destruct (is_block e) eqn:Eb.
  { destruct (Hskip true) as (n & E & Hr); [by intros; rewrite Hm|].
    exists n. split; [|done]. rewrite <- E. by destruct b. }
  assert (is_table e = true) as Et.
  { rewrite is_valid_bit in Ev. rewrite is_block_bits in Eb. rewrite is_table_bits.
    by destruct (Z.testbit e 0), (Z.testbit e 1). }
  pose proof (query_l3_spec read (output_addr e) b (l2_mapped read l2) (Z.to_nat d) (u mod 512) u cnt) as Hq.
  rewrite Z2Nat.id in Hq by lia. fold d.
  destruct (query_l3 _ _ _ _ _ _ _) as [[b' c]|[va c]].
  - destruct Hq as (-> & Hc & Hr); [lia|lia| |].
    { intros j Hj'. by rewrite Hm, Et. }
    exists (c - cnt). split; [do 2 f_equal; lia|done].
  - destruct Hq as (-> & -> & Hr); [lia|lia| |].
    { intros j Hj'. by rewrite Hm, Et. }
    destruct (IH (u + d) (cnt + d) ltac:(lia) ltac:(lia)) as (n & -> & Hrn).
    exists (d + n). split; [do 2 f_equal; lia|]. apply run_app; [lia|done|done].
Qed.

(** The walk of a user page, below its first two levels. *)
Lemma mapped_low read r u :
  0 <= u < 2 ^ 18 ->
  mapped read r (u * 4096) =
  (let e0 := read r in
   if negb (is_table e0) then false else
   let e1 := read (output_addr e0) in
   if is_block e1 then true else
   if negb (is_table e1) then false else l2_mapped read (output_addr e1) u).
Proof.
  intros Hu. unfold mapped, leaf, l2_mapped. destruct (low_vidx u Hu) as (-> & -> & _).
  destruct (proj2 (low_page u ltac:(lia) ltac:(lia)) ltac:(lia)) as [-> ->]. rewrite !Z.add_0_r.
  destruct (is_table (read r)); [|done]. cbn [negb].
  destruct (is_block (read (output_addr (read r)))); [done|].
  destruct (is_table (read (output_addr (read r)))); [|done]. cbn [negb].
  set (e2 := read (_ + u / 512 * 8)). destruct (is_block e2); [done|]. destruct (is_table e2); [|done].
  cbn [negb]. by destruct (is_valid (read (output_addr e2 + u mod 512 * 8))).
Qed.

Lemma run_const f b u : 0 <= u <= 2 ^ 18 -> (forall v, u <= v < 2 ^ 18 -> f v = b) -> run_of f b u (2 ^ 18 - u).
Proof. intros Hu Hf. split_and!; [lia|lia| |lia]. intros j Hj. apply Hf. lia. Qed.

Lemma run_ext f g b u n : 0 <= u -> (forall v, 0 <= v < 2 ^ 18 -> f v = g v) -> run_of f b u n -> run_of g b u n.
Proof.
  intros Hu Hfg (H1 & H2 & H3 & H4). split_and!; [lia|lia| |].
  - intros j Hj. rewrite <- Hfg by lia. by apply H3.
  - intros Hlt. rewrite <- Hfg by lia. by apply H4.
Qed.

Lemma run_first f b u n : run_of f b u n -> 0 < n -> f u = b.
Proof. intros (_ & _ & H & _) Hn. rewrite <- (H 0) by lia. f_equal. lia. Qed.

Lemma query_mapping_run_spec read r u :
  0 <= u < 2 ^ 18 ->
  exists n, query_mapping_run read r (u * 4096) = Ret (mapped read r (u * 4096), n) /\ 0 < n /\
    run_of (fun v => mapped read r (v * 4096)) (mapped read r (u * 4096)) u n.
Proof.
  intros Hu. unfold query_mapping_run. rewrite (proj2 (Z.leb_gt _ _)) by (unfold USER_VA_END; lia).
  assert (Z.land (Z.shiftr (u * 4096) 30) 0x1FF = 0) as ->.
  { rewrite idx_arith by lia. by apply low_page; lia. }
  rewrite Z.mul_0_l, Z.add_0_r. change (Z.min (Z.shiftl (0 + 1) 30) USER_VA_END) with (2 ^ 18 * 4096).
  change USER_VA_END with (2 ^ 18 * 4096). rewrite <- Z.mul_sub_distr_r, Z.div_mul by lia.
  pose proof (fun v H => mapped_low read r v H) as Hlow. cbv zeta in Hlow.
  destruct (is_table (read r)) eqn:E0; cbn [negb] in *.
  2:{ rewrite orb_true_r. exists (2 ^ 18 - u). rewrite Hlow by done. split_and!; [done|lia|].
      apply run_const; [lia|]. intros v Hv. by apply Hlow; lia. }
  destruct (table_valid _ E0) as [-> _]. cbn [negb orb].
  set (e1 := read (output_addr (read r))) in *.
  destruct (is_valid e1) eqn:E1; cbn [negb].
  2:{ exists (2 ^ 18 - u). assert (is_block e1 = false /\ is_table e1 = false) as [Eb Et].
      { rewrite is_block_bits, is_table_bits, <- is_valid_bit, E1. done. }
      rewrite Eb, Et in Hlow. cbn [negb] in Hlow. rewrite Hlow by done. split_and!; [done|lia|].
      apply run_const; [lia|]. intros v Hv. by apply Hlow; lia. }
  destruct (is_block e1) eqn:Eb.
  { exists (2 ^ 18 - u). rewrite Hlow by done. split_and!; [done|lia|].
    apply run_const; [lia|]. intros v Hv. by apply Hlow; lia. }
  assert (is_table e1 = true) as Et.
  { rewrite is_valid_bit in E1. rewrite is_block_bits in Eb. rewrite is_table_bits.
    by destruct (Z.testbit e1 0), (Z.testbit e1 1). }
  rewrite Et in Hlow. cbn [negb] in Hlow. set (l2 := output_addr e1) in *.
  destruct (region_arith u Hu) as (-> & -> & _).
  assert ((if negb (is_valid (read (l2 + u / 512 * 8))) then false
           else if is_block (read (l2 + u / 512 * 8)) then true
           else is_valid (read (output_addr (read (l2 + u / 512 * 8)) + u mod 512 * 8)))
          = l2_mapped read l2 u) as ->.
  { unfold l2_mapped. rewrite is_block_bits, is_table_bits, is_valid_bit.
    by destruct (Z.testbit (read (l2 + u / 512 * 8)) 0), (Z.testbit (read (l2 + u / 512 * 8)) 1). }
  destruct (query_scan_spec read l2 (l2_mapped read l2 u) QUERY_FUEL u 0) as (n & -> & Hr); [lia| |].
  { unfold QUERY_FUEL. assert (0 <= u / 512) by (apply Z.div_pos; lia). lia. }
  exists n. rewrite (Hlow u Hu). split_and!; [done| |].
  - destruct Hr as (? & ? & ? & Hend). destruct (decide (n = 0)) as [->|]; [|lia].
    rewrite Z.add_0_r in Hend. specialize (Hend ltac:(lia)). by destruct (l2_mapped read l2 u).
  - eapply run_ext; [lia| |exact Hr]. intros v Hv. symmetry. by apply Hlow.
Qed.

(** sys_query_mapping's scan. For a page-aligned user address and any
    table memory [query_mapping_run] ends and returns whether the page is
    mapped, together with the length of the longest run of pages from there
    on, inside the user range, that are in the same state: all of them agree
    with the architectural walk and the page after the run, if any, differs. *)
Theorem query_mapping_run_maximal read r u :
  0 <= u < 2 ^ 18 ->
  exists n, query_mapping_run read r (u * 4096) = Ret (mapped read r (u * 4096), n) /\ 0 < n /\
    run_of (fun v => mapped read r (v * 4096)) (mapped read r (u * 4096)) u n.
Proof. apply query_mapping_run_spec. Qed.

Lemma query_mapping_run_maximal_witness :
  exists n, query_mapping_run (arr_peek ex_mem) 4096 (5 * 4096) = Ret (true, n) /\ 0 < n.
Proof.
  destruct (query_mapping_run_maximal (arr_peek ex_mem) 4096 5) as (n & E & Hn & _); [lia|].
  exists n. split; [|done]. rewrite E. reflexivity.
Defined.

(** Page entries decode to what they were built from: a page entry is
    valid, carries its frame, attribute index, access permission and
    shareability in their fields, and the execute-never bits leave all of it
    unchanged. *)
Theorem page_entry_roundtrip phys attr a s :
  page_addr phys -> 0 <= attr < 8 -> 0 <= a < 4 -> 0 <= s < 4 ->
  let e := new_page phys attr a s in
  is_valid e = true /\ is_block e = false /\ af e = true /\ output_addr e = phys /\
  attr_index e = attr /\ ap e = a /\ sh e = s /\
  output_addr (with_pxn (with_uxn e)) = phys /\ is_table (with_pxn (with_uxn e)) = true.
Proof.
  intros Hp Hattr Ha Hsh e. subst e. destruct (new_page_flags phys attr a s) as [Ht Haf].
  destruct (table_valid _ Ht) as [-> ->]. destruct (with_xn_fields (new_page phys attr a s)) as [-> ->].
  rewrite attr_new_page, ap_new_page, sh_new_page, output_new_page, output_page by done.
  change 0x3 with (Z.ones 2). change 0x7 with (Z.ones 3). rewrite !Z.land_ones, !Z.mod_small by lia.
  split_and!; done.
Qed.

Lemma page_entry_roundtrip_witness :
  output_addr (new_page 327680 MAIR_NORMAL AP_RW_ALL SH_INNER) = 327680.
Proof. apply (page_entry_roundtrip 327680 MAIR_NORMAL AP_RW_ALL SH_INNER); unfold page_addr; done. Defined.
