(* ===== verification/Elf.v ===== *)
(** ELF parsing and the page-by-page load plan (lockjaw-types/src/elf.rs and
    elf_loader.rs): what a parsed file says, and the memory image that carrying
    out a plan gives. *)
From Stdlib Require Import ZArith Lia.
From stdpp Require Import base option gmap numbers sets fin_sets list.
From S2P Require Import Prelude Bytes PageTable.
Open Scope Z_scope.

(** * The parser *)

Definition ELF_MAGIC : list Z := [0x7f; 0x45; 0x4c; 0x46].
Definition ELFCLASS64 : Z := 2.
Definition ELFDATA2LSB : Z := 1.
Definition ET_EXEC : Z := 2.
Definition EM_AARCH64 : Z := 183.
Definition PT_LOAD : Z := 1.
Definition PF_X : Z := 1.
Definition PF_W : Z := 2.
Definition MAX_SEGMENTS : Z := 8.

Record LoadSegment := mkSeg { vaddr : Z; file_offset : Z; file_size : Z; mem_size : Z; executable : bool; writable : bool }.

(** [segments] are the first [segment_count] entries of the array. *)
Record ElfInfo := mkInfo { entry_point : Z; segments : list LoadSegment }.

Inductive ElfError := TooSmall | BadMagic | BadFormat | NotExec | NotAarch64 | TooManySegments.

Definition read_u16 := read_le 2.
Definition read_u32 := read_le 4.
Definition read_u64 := read_le 8.

(** [read_uN(data, off + d)] *)
Definition field (read : list Z -> Z -> outcome Z) (data : list Z) (off d : Z) : outcome Z := o ← add_chk 64 off d; read data o.

(** The loop over program headers, from the [i]-th on. *)
Fixpoint parse_from (data : list Z) (phoff phentsize : Z) (n : nat) (i : Z) (segs : list LoadSegment)
  : outcome (result (list LoadSegment) ElfError) :=
  match n with
  | O => Ret (Ok segs)
  | S n' =>
      t ← mul_chk 64 i phentsize;
      off ← add_chk 64 phoff t;
      e ← add_chk 64 off phentsize;
      if len data <? e then Ret (Ok segs) else
      p_type ← read_u32 data off;
      if negb (p_type =? PT_LOAD) then parse_from data phoff phentsize n' (i + 1) segs else
      if MAX_SEGMENTS <=? Z.of_nat (length segs) then Ret (Err TooManySegments) else
      p_flags ← field read_u32 data off 4;
      p_offset ← field read_u64 data off 8;
      p_vaddr ← field read_u64 data off 16;
      p_filesz ← field read_u64 data off 32;
      p_memsz ← field read_u64 data off 40;
      parse_from data phoff phentsize n' (i + 1)
        (segs ++ [mkSeg p_vaddr p_offset p_filesz p_memsz (negb (Z.land p_flags PF_X =? 0)) (negb (Z.land p_flags PF_W =? 0))])
  end.

Definition parse_elf (data : list Z) : outcome (result ElfInfo ElfError) :=
  if len data <? 64 then Ret (Err TooSmall) else
  if negb (bool_decide (slice data 0 4 = ELF_MAGIC)) then Ret (Err BadMagic) else
  class ← byte_at data 4;
  order ← byte_at data 5;
  if negb (class =? ELFCLASS64) || negb (order =? ELFDATA2LSB) then Ret (Err BadFormat) else
  e_type ← read_u16 data 16;
  e_machine ← read_u16 data 18;
  if negb (e_type =? ET_EXEC) then Ret (Err NotExec) else
  if negb (e_machine =? EM_AARCH64) then Ret (Err NotAarch64) else
  entry ← read_u64 data 24;
  phoff ← read_u64 data 32;
  phentsize ← read_u16 data 54;
  phnum ← read_u16 data 56;
  r ← parse_from data phoff phentsize (Z.to_nat phnum) 0 [];
  match r with
  | Err e => Ret (Err e)
  | Ok segs => Ret (Ok (mkInfo entry segs))
  end.

(** [data[start..].iter().position(|&b| b == 0)], as an index into [data]; its
    length if there is none. *)
Fixpoint name_end (data : list Z) (i : Z) : Z :=
  match data with [] => i | b :: data' => if b =? 0 then i else name_end data' (i + 1) end.

(** The search from section header [i] on; [n] headers are left. *)
Fixpoint find_from (data name : list Z) (shoff shentsize strtab_addr : Z) (n : nat) (i : Z) : outcome (option Z) :=
  match n with
  | O => Ret None
  | S n' =>
      t ← mul_chk 64 i shentsize;
      sh_off ← add_chk 64 shoff t;
      e ← add_chk 64 sh_off shentsize;
      if len data <? e then Ret None else
      name_idx ← read_u32 data sh_off;
      sec_offset ← field read_u64 data sh_off 24;
      sec_size ← field read_u64 data sh_off 32;
      name_start ← add_chk 64 strtab_addr name_idx;
      if name_start <? len data then
        let e := name_end (drop (Z.to_nat name_start) data) name_start in
        if bool_decide (slice data name_start (e - name_start) = name) && (8 <=? sec_size) then
          l ← add_chk 64 sec_offset 8;
          if l <=? len data then v ← read_u64 data sec_offset; Ret (Some v) else find_from data name shoff shentsize strtab_addr n' (i + 1)
        else find_from data name shoff shentsize strtab_addr n' (i + 1)
      else find_from data name shoff shentsize strtab_addr n' (i + 1)
  end.

(** [name] as bytes. *)
Definition find_section_u64 (data name : list Z) : outcome (option Z) :=
  if (len data <? 64) || negb (bool_decide (slice data 0 4 = ELF_MAGIC)) then Ret None else
  shoff ← read_u64 data 40;
  shentsize ← read_u16 data 58;
  shnum ← read_u16 data 60;
  shstrndx ← read_u16 data 62;
  if (shoff =? 0) || (shnum =? 0) || (shentsize <? 64) then Ret None else
  t ← mul_chk 64 shstrndx shentsize;
  strtab_off ← add_chk 64 shoff t;
  e ← add_chk 64 strtab_off shentsize;
  if len data <? e then Ret None else
  strtab_addr ← field read_u64 data strtab_off 24;
  strtab_size ← field read_u64 data strtab_off 32;
  e ← add_chk 64 strtab_addr strtab_size;
  if len data <? e then Ret None else
  find_from data name shoff shentsize strtab_addr (Z.to_nat shnum) 0.

(** * The load plan *)

Record ElfLoadEntry := mkEntry { page_va : Z; src_start : Z; src_end : Z; in_page_offset : Z; e_executable : bool }.

Inductive ElfLoadError :=
  | VaddrRangeOverflow (seg_idx : Z)
  | FileRangeOutOfBounds (seg_idx file_end elf_len : Z)
  | TooManyEntries (needed cap : Z)
  | VaddrOutOfUserRange (seg_idx vaddr : Z)
  | FileSizeExceedsMemSize (seg_idx file_size mem_size : Z).

(** The entry of the [p]-th page of a segment. *)
Definition page_entry (seg : LoadSegment) (first_page_va seg_file_end_va p : Z) : outcome ElfLoadEntry :=
  t ← mul_chk 64 p PAGE_SIZE;
  page_va ← add_chk 64 first_page_va t;
  page_end_va ← add_chk 64 page_va PAGE_SIZE;
  let copy_start_va := Z.max page_va (vaddr seg) in
  let copy_end_va := Z.min page_end_va seg_file_end_va in
  if copy_start_va <? copy_end_va then
    in_page_off ← sub_chk copy_start_va page_va;
    d ← sub_chk copy_start_va (vaddr seg);
    src_start ← add_chk 64 (file_offset seg) d;
    n ← sub_chk copy_end_va copy_start_va;
    src_end ← add_chk 64 src_start n;
    Ret (mkEntry page_va src_start src_end in_page_off (executable seg))
  else Ret (mkEntry page_va 0 0 0 (executable seg)).

(** [out[count] = ..; count += 1], [out] of length [cap]. *)
Definition emit (cap : Z) (out : list ElfLoadEntry) (e : ElfLoadEntry) : outcome (list ElfLoadEntry) :=
  if Z.of_nat (length out) <? cap then Ret (out ++ [e]) else Panic PIndex.

Definition plan_segment (elf_len cap i : Z) (seg : LoadSegment) (out : list ElfLoadEntry)
  : outcome (result (list ElfLoadEntry) ElfLoadError) :=
  if mem_size seg <? file_size seg then Ret (Err (FileSizeExceedsMemSize i (file_size seg) (mem_size seg))) else
  if mem_size seg =? 0 then Ret (Ok out) else
  match checked_add64 (vaddr seg) (mem_size seg) with
  | None => Ret (Err (VaddrRangeOverflow i))
  | Some seg_end_va =>
      seg_file_end_va ← add_chk 64 (vaddr seg) (file_size seg);
      match checked_add64 (file_offset seg) (file_size seg) with
      | None => Ret (Err (FileRangeOutOfBounds i U64_MAX elf_len))
      | Some file_end =>
          if (elf_len <? file_end) || (elf_len <? file_offset seg) then Ret (Err (FileRangeOutOfBounds i file_end elf_len)) else
          if (USER_VA_END <=? vaddr seg) || (USER_VA_END <? seg_end_va) then Ret (Err (VaddrOutOfUserRange i (vaddr seg))) else
          let first_page_va := Z.land (vaddr seg) (not_w 64 (PAGE_SIZE - 1)) in
          last ← sub_chk seg_end_va 1;
          let last_page_va := Z.land last (not_w 64 (PAGE_SIZE - 1)) in
          d ← sub_chk last_page_va first_page_va;
          let num_pages := d / PAGE_SIZE + 1 in
          let cnt := Z.of_nat (length out) in
          if match checked_add64 cnt num_pages with Some n => cap <? n | None => true end then
            needed ← add_chk 64 cnt num_pages; Ret (Err (TooManyEntries needed cap))
          else
            out ← for_range 0 (Z.to_nat num_pages) (fun p out => e ← page_entry seg first_page_va seg_file_end_va p; emit cap out e) out;
            Ret (Ok out)
      end
  end.

Fixpoint plan_from (elf_len cap i : Z) (segs : list LoadSegment) (out : list ElfLoadEntry)
  : outcome (result (list ElfLoadEntry) ElfLoadError) :=
  match segs with
  | [] => Ret (Ok out)
  | seg :: segs' =>
      r ← plan_segment elf_len cap i seg out;
      match r with
      | Err e => Ret (Err e)
      | Ok out => plan_from elf_len cap (i + 1) segs' out
      end
  end.

(** [cap] is [out.len()]. *)
Definition plan_elf_load (info : ElfInfo) (elf_len cap : Z) : outcome (result (list ElfLoadEntry) ElfLoadError) :=
  plan_from elf_len cap 0 (segments info) [].

(** * Program headers of a file *)

Definition u16 (data : list Z) (off : Z) : Z := from_le_bytes (slice data off 2).
Definition u32 (data : list Z) (off : Z) : Z := from_le_bytes (slice data off 4).
Definition u64 (data : list Z) (off : Z) : Z := from_le_bytes (slice data off 8).

(** The segment the program header at [off] describes. *)
Definition segment_at (data : list Z) (off : Z) : LoadSegment :=
  mkSeg (u64 data (off + 16)) (u64 data (off + 8)) (u64 data (off + 32)) (u64 data (off + 40))
    (Z.testbit (u32 data (off + 4)) 0) (Z.testbit (u32 data (off + 4)) 1).

(** Loadable segments among the [n] headers of size [sz] from the [i]-th on, up
    to the first that does not lie in the file. *)
Fixpoint loads (data : list Z) (phoff sz : Z) (n : nat) (i : Z) : list LoadSegment :=
  match n with
  | O => []
  | S n' =>
      let off := phoff + i * sz in
      if len data <? off + sz then [] else
      if u32 data off =? PT_LOAD then segment_at data off :: loads data phoff sz n' (i + 1) else loads data phoff sz n' (i + 1)
  end.

Section Parse.
Context (data : list Z) (Hb : bytes data) (Hlen : len data < 2 ^ 64).

Lemma u16_range off : 0 <= off -> off + 2 <= len data -> 0 <= u16 data off < 2 ^ 16.
Proof. intros. pose proof (from_le_range (slice data off 2) (slice_bytes _ _ _ Hb)) as R. rewrite slice_length in R by lia. exact R. Qed.
Lemma u64_range off : 0 <= off -> off + 8 <= len data -> 0 <= u64 data off < 2 ^ 64.
Proof. intros. pose proof (from_le_range (slice data off 8) (slice_bytes _ _ _ Hb)) as R. rewrite slice_length in R by lia. exact R. Qed.

Lemma field_u32 off d : 0 <= off -> 0 <= d -> off + d + 4 <= len data -> field read_u32 data off d = Ret (u32 data (off + d)).
Proof. intros. unfold field, add_chk. rewrite (proj2 (Z.ltb_lt _ _)), bind_Ret by lia. apply read_le_in; lia. Qed.
Lemma field_u64 off d : 0 <= off -> 0 <= d -> off + d + 8 <= len data -> field read_u64 data off d = Ret (u64 data (off + d)).
Proof. intros. unfold field, add_chk. rewrite (proj2 (Z.ltb_lt _ _)), bind_Ret by lia. apply read_le_in; lia. Qed.

Lemma flag_bit x k : 0 <= k -> negb (Z.land x (2 ^ k) =? 0) = Z.testbit x k.
Proof. intros Hk. rewrite <- (Z.shiftl_1_l k). by apply land_bitmask. Qed.

Lemma parse_from_spec phoff sz n : forall i segs, 0 <= phoff -> 56 <= sz -> 0 <= i -> phoff + (i + Z.of_nat n) * sz < 2 ^ 64 ->
  Z.of_nat (length segs) <= MAX_SEGMENTS ->
  parse_from data phoff sz n i segs =
    Ret (if Z.of_nat (length (segs ++ loads data phoff sz n i)) <=? MAX_SEGMENTS then Ok (segs ++ loads data phoff sz n i) else Err TooManySegments).
Proof.
  induction n as [|n IH]; intros i segs Hp Hsz Hi Hov Hs; cbn [parse_from loads].
  { rewrite app_nil_r, (proj2 (Z.leb_le _ _)) by lia. done. }
  rewrite Nat2Z.inj_succ in Hov. unfold mul_chk, add_chk. assert (i * sz <= phoff + i * sz) by lia.
  rewrite (proj2 (Z.ltb_lt (i * sz) _)), bind_Ret by nia. rewrite (proj2 (Z.ltb_lt (phoff + _) _)), bind_Ret by nia.
  rewrite (proj2 (Z.ltb_lt (phoff + _ + _) _)), bind_Ret by nia. set (off := phoff + i * sz). assert (0 <= off) by (unfold off; nia).
  destruct (Z.ltb_spec (len data) (off + sz)).
  { rewrite app_nil_r, (proj2 (Z.leb_le _ _)) by lia. done. }
  change (read_u32 data off) with (read_le 4 data off). rewrite read_le_in, bind_Ret by lia. change (from_le_bytes _) with (u32 data off).
  destruct (u32 data off =? PT_LOAD); cbn [negb].
  2: { apply IH; try done; nia. }
  destruct (Z.leb_spec MAX_SEGMENTS (Z.of_nat (length segs))).
  { rewrite (proj2 (Z.leb_gt _ _)); [done|]. rewrite length_app. cbn [length]. lia. }
  rewrite field_u32, !field_u64, !bind_Ret by lia. rewrite (flag_bit _ 0), (flag_bit _ 1) by lia.
  change (mkSeg _ _ _ _ _ _) with (segment_at data off). rewrite IH by (try done; rewrite ?length_app; cbn; nia).
  by rewrite <- app_assoc.
Qed.

(** A well-formed header: what [parse_elf] returns. *)
Lemma parse_elf_spec : 64 <= len data -> slice data 0 4 = ELF_MAGIC ->
  data !! 4%nat = Some ELFCLASS64 -> data !! 5%nat = Some ELFDATA2LSB ->
  56 <= u16 data 54 -> u64 data 32 + u16 data 56 * u16 data 54 < 2 ^ 64 ->
  let ls := loads data (u64 data 32) (u16 data 54) (Z.to_nat (u16 data 56)) 0 in
  parse_elf data = Ret (if negb (u16 data 16 =? ET_EXEC) then Err NotExec else if negb (u16 data 18 =? EM_AARCH64) then Err NotAarch64 else
    if Z.of_nat (length ls) <=? MAX_SEGMENTS then Ok (mkInfo (u64 data 24) ls) else Err TooManySegments).
Proof.
  intros H1 H2 H5 H6 H7 H8 ls. unfold parse_elf. rewrite (proj2 (Z.ltb_ge _ _)), bool_decide_eq_true_2 by done. cbn [negb].
  unfold byte_at. cbn [Z.leb Z.compare Z.to_nat Pos.to_nat Pos.iter_op]. change (Z.to_nat 4) with 4%nat. change (Z.to_nat 5) with 5%nat.
  rewrite H5, H6, !bind_Ret. cbn [orb negb Z.eqb ELFCLASS64 ELFDATA2LSB Pos.eqb]. unfold read_u16, read_u64. rewrite !read_le_in by lia.
  change (from_le_bytes (slice data 16 (Z.of_nat 2))) with (u16 data 16). change (from_le_bytes (slice data 18 (Z.of_nat 2))) with (u16 data 18).
  change (from_le_bytes (slice data 24 (Z.of_nat 8))) with (u64 data 24). change (from_le_bytes (slice data 32 (Z.of_nat 8))) with (u64 data 32).
  change (from_le_bytes (slice data 54 (Z.of_nat 2))) with (u16 data 54). change (from_le_bytes (slice data 56 (Z.of_nat 2))) with (u16 data 56).
  rewrite !bind_Ret. destruct (u16 data 16 =? ET_EXEC); [|done]. destruct (u16 data 18 =? EM_AARCH64); [|done]. cbn [negb].
  pose proof (u64_range 32 ltac:(lia) ltac:(lia)). pose proof (u16_range 56 ltac:(lia) ltac:(lia)).
  rewrite parse_from_spec, bind_Ret by (rewrite ?Z2Nat.id by lia; first [done | lia]). cbn [app]. fold ls. by destruct (_ <=? MAX_SEGMENTS).
Qed.
End Parse.

(** * ELF files

    The layout of the ELF-64 specification. *)
Record Phdr := mkPh { ph_type : Z; ph_flags : Z; ph_offset : Z; ph_vaddr : Z; ph_paddr : Z; ph_filesz : Z; ph_memsz : Z; ph_align : Z }.

Record Ehdr := mkEh { eh_ident : list Z; eh_type : Z; eh_machine : Z; eh_version : Z; eh_entry : Z; eh_shoff : Z; eh_flags : Z; eh_size : Z; eh_shentsize : Z; eh_shnum : Z; eh_shstrndx : Z }.

Definition ph_bytes (p : Phdr) : list Z :=
  le_bytes 4 (ph_type p) ++ le_bytes 4 (ph_flags p) ++ le_bytes 8 (ph_offset p) ++ le_bytes 8 (ph_vaddr p) ++
  le_bytes 8 (ph_paddr p) ++ le_bytes 8 (ph_filesz p) ++ le_bytes 8 (ph_memsz p) ++ le_bytes 8 (ph_align p).

(** The file header, of a file with [phnum] program headers of [phentsize] bytes at
    [phoff]. *)
Definition eh_bytes (h : Ehdr) (phoff phentsize phnum : Z) : list Z :=
  ELF_MAGIC ++ [ELFCLASS64; ELFDATA2LSB] ++ eh_ident h ++ le_bytes 2 (eh_type h) ++ le_bytes 2 (eh_machine h) ++ le_bytes 4 (eh_version h) ++
  le_bytes 8 (eh_entry h) ++ le_bytes 8 phoff ++ le_bytes 8 (eh_shoff h) ++ le_bytes 4 (eh_flags h) ++ le_bytes 2 (eh_size h) ++
  le_bytes 2 phentsize ++ le_bytes 2 phnum ++ le_bytes 2 (eh_shentsize h) ++ le_bytes 2 (eh_shnum h) ++ le_bytes 2 (eh_shstrndx h).

(** A program header and what fills it up to [e_phentsize]. *)
Definition entry_bytes (p : Phdr * list Z) : list Z := ph_bytes p.1 ++ p.2.

(** A file: the header, other bytes, the program headers with [extra] bytes behind
    each, and the rest. *)
Definition elf_file (h : Ehdr) (gap : list Z) (extra : nat) (phs : list (Phdr * list Z)) (rest : list Z) : list Z :=
  eh_bytes h (64 + len gap) (56 + Z.of_nat extra) (Z.of_nat (length phs)) ++ gap ++ concat (entry_bytes <$> phs) ++ rest.

Record phdr_ok (p : Phdr) : Prop := {
  po_type : word 32 (ph_type p); po_flags : word 32 (ph_flags p); po_offset : word 64 (ph_offset p); po_vaddr : word 64 (ph_vaddr p);
  po_filesz : word 64 (ph_filesz p); po_memsz : word 64 (ph_memsz p);
}.

Definition segment_of (p : Phdr) : LoadSegment :=
  mkSeg (ph_vaddr p) (ph_offset p) (ph_filesz p) (ph_memsz p) (Z.testbit (ph_flags p) 0) (Z.testbit (ph_flags p) 1).

Lemma ph_bytes_length p : length (ph_bytes p) = 56%nat.
Proof. done. Qed.

Lemma slice_drop data a b n : 0 <= a -> 0 <= b -> slice data (a + b) n = slice (drop (Z.to_nat a) data) b n.
Proof. intros. unfold slice. rewrite drop_drop. do 2 f_equal. lia. Qed.

(** The fields of a header at the front of a list. *)
Lemma ph_fields p rest : phdr_ok p ->
  u32 (ph_bytes p ++ rest) 0 = ph_type p /\ segment_at (ph_bytes p ++ rest) 0 = segment_of p.
Proof.
  intros [H1 H2 H3 H4 H5 H6]. unfold segment_at, segment_of, u32, u64.
  change (slice (ph_bytes p ++ rest) 0 4) with (le_bytes 4 (ph_type p)). change (slice (ph_bytes p ++ rest) (0 + 4) 4) with (le_bytes 4 (ph_flags p)).
  change (slice (ph_bytes p ++ rest) (0 + 8) 8) with (le_bytes 8 (ph_offset p)). change (slice (ph_bytes p ++ rest) (0 + 16) 8) with (le_bytes 8 (ph_vaddr p)).
  change (slice (ph_bytes p ++ rest) (0 + 32) 8) with (le_bytes 8 (ph_filesz p)). change (slice (ph_bytes p ++ rest) (0 + 40) 8) with (le_bytes 8 (ph_memsz p)).
  by rewrite !from_le_le_bytes by done.
Qed.

Lemma drop_headers pre phs extra i rest : Forall (fun p => length p.2 = extra) phs -> (i <= length phs)%nat ->
  drop (length pre + i * (56 + extra)) (pre ++ concat (entry_bytes <$> phs) ++ rest) = concat (entry_bytes <$> drop i phs) ++ rest.
Proof.
  intros Hx Hi. rewrite <- drop_drop, drop_app_length. clear pre. revert phs Hx Hi.
  induction i as [|i IH]; intros phs Hx Hi; [by rewrite !drop_0|]. destruct phs as [|p phs]; [cbn in Hi; lia|]. apply Forall_cons in Hx as [Hp Hx].
  cbn [fmap list_fmap concat drop]. rewrite <- app_assoc. replace (S i * (56 + extra))%nat with ((56 + extra) + i * (56 + extra))%nat by lia.
  rewrite <- drop_drop, (drop_app_length' (entry_bytes p)) by (unfold entry_bytes; rewrite length_app, ph_bytes_length; lia). apply IH; [done|]. cbn in Hi. lia.
Qed.

Lemma segment_at_drop data a off : 0 <= a -> 0 <= off -> segment_at data (a + off) = segment_at (drop (Z.to_nat a) data) off.
Proof. intros. unfold segment_at, u32, u64. by rewrite <- !Z.add_assoc, !slice_drop by lia. Qed.

(** The headers that load. *)
Definition load_headers (phs : list (Phdr * list Z)) : list LoadSegment := segment_of <$> filter (fun p => ph_type p = PT_LOAD) phs.*1.

Lemma load_headers_cons p phs : load_headers (p :: phs) = if ph_type p.1 =? PT_LOAD then segment_of p.1 :: load_headers phs else load_headers phs.
Proof.
  unfold load_headers. rewrite fmap_cons, filter_cons. destruct (Z.eqb_spec (ph_type p.1) PT_LOAD) as [E|E]; [by rewrite decide_True|by rewrite decide_False].
Qed.

Lemma loads_file pre phs extra rest : Forall (fun p => phdr_ok p.1) phs -> Forall (fun p => length p.2 = extra) phs -> forall n i, (i + n = length phs)%nat ->
  loads (pre ++ concat (entry_bytes <$> phs) ++ rest) (len pre) (56 + Z.of_nat extra) n (Z.of_nat i) = load_headers (drop i phs).
Proof.
  intros Hok Hx. set (data := pre ++ _ ++ rest). induction n as [|n IH]; intros i Hi.
  { rewrite drop_ge by lia. done. }
  destruct (lookup_lt_is_Some_2 phs i) as [p Hpi]; [lia|]. rewrite (drop_S _ _ _ Hpi), load_headers_cons. cbn [loads]. set (off := len pre + Z.of_nat i * _).
  assert (Hoff : 0 <= off) by (unfold off, len; lia).
  assert (Ed : drop (Z.to_nat off) data = ph_bytes p.1 ++ p.2 ++ concat (entry_bytes <$> drop (S i) phs) ++ rest).
  { unfold off, len. replace (Z.to_nat _) with (length pre + i * (56 + extra))%nat by lia. unfold data. rewrite drop_headers by (done || lia).
    rewrite (drop_S _ _ _ Hpi), fmap_cons. cbn [concat]. unfold entry_bytes at 1. by rewrite <- !app_assoc. }
  apply (Forall_lookup_1 _ _ i p) in Hok as Hokp; [|done]. apply (Forall_lookup_1 _ _ i p) in Hx as Hxp; [|done].
  assert (Hl : off + (56 + Z.of_nat extra) <= len data).
  { unfold len. apply (f_equal length) in Ed. rewrite length_drop, !length_app, ph_bytes_length in Ed. cbn in Hxp. lia. }
  rewrite (proj2 (Z.ltb_ge _ _)) by lia. destruct (ph_fields p.1 (p.2 ++ concat (entry_bytes <$> drop (S i) phs) ++ rest) Hokp) as [F1 F2]. rewrite <- Ed in F1, F2.
  rewrite <- segment_at_drop, Z.add_0_r in F2 by lia. unfold u32 in F1. rewrite <- slice_drop, Z.add_0_r in F1 by lia. fold (u32 data off) in F1.
  rewrite F1, F2. specialize (IH (S i) ltac:(lia)). rewrite Nat2Z.inj_succ in IH. unfold Z.succ in IH. by rewrite IH.
Qed.

Lemma eh_bytes_bytes h a b c : bytes (eh_ident h) -> bytes (eh_bytes h a b c).
Proof.
  intros Hid. unfold eh_bytes. repeat apply Forall_app_2; try apply le_bytes_bytes; try done; repeat constructor; unfold is_byte, ELFCLASS64, ELFDATA2LSB; lia.
Qed.

Lemma entries_bytes phs : Forall (fun p => bytes p.2) phs -> bytes (concat (entry_bytes <$> phs)).
Proof.
  induction 1 as [|p phs Hp _ IH]; [constructor|]. rewrite fmap_cons. cbn [concat]. apply Forall_app_2; [|done]. unfold entry_bytes, ph_bytes. repeat apply Forall_app_2; try apply le_bytes_bytes. done.
Qed.

(** The fields of the file header. *)
Lemma eh_fields h phoff phentsize phnum rest : length (eh_ident h) = 10%nat -> word 64 (eh_entry h) -> word 16 (eh_type h) -> word 16 (eh_machine h) ->
  word 64 phoff -> word 16 phentsize -> word 16 phnum ->
  let data := eh_bytes h phoff phentsize phnum ++ rest in
  slice data 0 4 = ELF_MAGIC /\ data !! 4%nat = Some ELFCLASS64 /\ data !! 5%nat = Some ELFDATA2LSB /\ u16 data 16 = eh_type h /\ u16 data 18 = eh_machine h /\
  u64 data 24 = eh_entry h /\ u64 data 32 = phoff /\ u16 data 54 = phentsize /\ u16 data 56 = phnum.
Proof.
  intros Hl He Ht Hm Hp Hs Hn data. destruct h as [ident ty ma v e so fl sz s1 s2 s3]. cbn [eh_ident eh_entry eh_type eh_machine] in *.
  do 10 (destruct ident as [|? ident]; [done|]). destruct ident; [|done]. unfold u16, u64. split; [done|]. split; [done|]. split; [done|].
  change (slice data 16 2) with (le_bytes 2 ty). change (slice data 18 2) with (le_bytes 2 ma). change (slice data 24 8) with (le_bytes 8 e).
  change (slice data 32 8) with (le_bytes 8 phoff). change (slice data 54 2) with (le_bytes 2 phentsize). change (slice data 56 2) with (le_bytes 2 phnum).
  by rewrite !from_le_le_bytes by done.
Qed.

(** The parts of a file are inside their ranges: the type, machine and entry of the
    header, the fields of the program headers, and as many extra bytes behind each
    as [e_phentsize] says; the file is shorter than 2^64 bytes. *)
Record file_ok (h : Ehdr) (gap : list Z) (extra : nat) (phs : list (Phdr * list Z)) (rest : list Z) : Prop := {
  fo_ident : bytes (eh_ident h) /\ length (eh_ident h) = 10%nat;
  fo_header : word 64 (eh_entry h) /\ word 16 (eh_type h) /\ word 16 (eh_machine h);
  fo_phdrs : Forall (fun p => phdr_ok p.1) phs;
  fo_extra : Forall (fun p => length p.2 = extra /\ bytes p.2) phs;
  fo_bytes : bytes gap /\ bytes rest;
  fo_counts : Z.of_nat (length phs) < 2 ^ 16 /\ 56 + Z.of_nat extra < 2 ^ 16;
  fo_len : len (elf_file h gap extra phs rest) < 2 ^ 64;
}.

(** C31: Reading back an ELF file. For every 64-bit little-endian ELF file, with its
    program headers anywhere behind the file header, as [e_phoff] says, and with
    entries of any size [e_phentsize] of at least the 56 bytes of a header:
    [parse_elf] refuses a file that is not of type ET_EXEC, then one that is not
    for AArch64, then one with more than eight loadable segments; otherwise it
    returns the entry point and the loadable segments in order, with their
    addresses, sizes, offsets and flags. *)
Theorem parse_elf_roundtrip h gap extra phs rest :
  file_ok h gap extra phs rest ->
  parse_elf (elf_file h gap extra phs rest) =
    Ret (if negb (eh_type h =? ET_EXEC) then Err NotExec else if negb (eh_machine h =? EM_AARCH64) then Err NotAarch64 else
      if Z.of_nat (length (load_headers phs)) <=? MAX_SEGMENTS then Ok (mkInfo (eh_entry h) (load_headers phs)) else Err TooManySegments).
Proof.
  intros [[Hid Hl] (He & Ht & Hm) Hok Hx [Hg Hr] [Hn Hs] Hlen]. apply Forall_and in Hx as [Hx Hxb]. unfold elf_file in *.
  set (body := gap ++ concat (entry_bytes <$> phs) ++ rest) in *. set (eh := eh_bytes _ _ _ _) in *.
  assert (Hpre : length eh = 64%nat) by (unfold eh, eh_bytes; rewrite !length_app, !le_bytes_length, Hl; done).
  assert (Hgap : len gap < 2 ^ 64 - 64) by (unfold len in *; unfold body in Hlen; rewrite !length_app in Hlen; lia).
  assert (Hcat : length (concat (entry_bytes <$> phs)) = (length phs * (56 + extra))%nat).
  { clear -Hx. induction Hx as [|p phs Hp _ IH]; [done|]. rewrite fmap_cons. cbn [concat length]. unfold entry_bytes at 1. rewrite !length_app, ph_bytes_length, IH, Hp. lia. }
  assert (Hb : bytes (eh ++ body)) by (apply Forall_app_2; [by apply eh_bytes_bytes|]; repeat apply Forall_app_2; try done; by apply entries_bytes).
  destruct (eh_fields h (64 + len gap) (56 + Z.of_nat extra) (Z.of_nat (length phs)) body Hl He Ht Hm) as (F1 & F2 & F3 & F4 & F5 & F6 & F7 & F8 & F9); [unfold word, len in *; lia..|].
  fold eh in F1, F2, F3, F4, F5, F6, F7, F8, F9.
  rewrite (parse_elf_spec _ Hb Hlen) by (rewrite ?F7, ?F8, ?F9; try done; unfold len, body in *; rewrite ?length_app in *; lia).
  rewrite F4, F5, F6, F7, F8, F9, Nat2Z.id. pose proof (loads_file (eh ++ gap) phs extra rest Hok Hx (length phs) 0 eq_refl) as HL. rewrite drop_0, <- app_assoc in HL.
  assert (E : len (eh ++ gap) = 64 + len gap) by (unfold len; rewrite length_app, Hpre; lia). rewrite E in HL. change (Z.of_nat 0) with 0 in HL. fold body in HL. by rewrite HL.
Qed.

(** * What a plan loads

    [apply_elf_load_entry] of the POSIX server and the loop of init's
    [spawn_elf]: a zeroed page, the file slice copied into it, and the page
    mapped at [page_va]. Mapping a second page at the same address replaces the
    first. *)
Definition page_content (data : list Z) (e : ElfLoadEntry) : list Z :=
  list_inserts (Z.to_nat (in_page_offset e)) (slice data (src_start e) (src_end e - src_start e)) (replicate (Z.to_nat PAGE_SIZE) 0).

Abbreviation image := (gmap Z (list Z * bool)).

Definition apply_elf_load_entry (data : list Z) (sp : image) (e : ElfLoadEntry) : image :=
  <[page_va e := (page_content data e, e_executable e)]> sp.

Definition load_elf_segments (data : list Z) (entries : list ElfLoadEntry) : image := foldl (apply_elf_load_entry data) ∅ entries.

(** The byte the loaded program sees at [va]. *)
Definition image_byte (sp : image) (va : Z) : option Z :=
  '(page, _) ← sp !! (va / PAGE_SIZE * PAGE_SIZE); page !! Z.to_nat (va mod PAGE_SIZE).

(** ** The contract *)

(** The byte a segment has at [va]: of the file up to [file_size], zero behind. *)
Definition seg_byte (data : list Z) (s : LoadSegment) (va : Z) : option Z :=
  if decide (vaddr s <= va < vaddr s + file_size s) then data !! Z.to_nat (file_offset s + (va - vaddr s)) else Some 0.

Definition seg_has (s : LoadSegment) (va : Z) : Prop := vaddr s <= va < vaddr s + mem_size s.

(** The pages a segment touches. *)
Definition seg_page_count (s : LoadSegment) : Z :=
  if mem_size s =? 0 then 0 else (vaddr s + mem_size s - 1) / PAGE_SIZE - vaddr s / PAGE_SIZE + 1.

Definition seg_pages (s : LoadSegment) : list Z :=
  (fun p => (vaddr s / PAGE_SIZE + p) * PAGE_SIZE) <$> seqZ 0 (seg_page_count s).

(** A segment's own defect. *)
Definition seg_error (elf_len i : Z) (s : LoadSegment) : option ElfLoadError :=
  if mem_size s <? file_size s then Some (FileSizeExceedsMemSize i (file_size s) (mem_size s)) else
  if mem_size s =? 0 then None else
  if 2 ^ 64 <=? vaddr s + mem_size s then Some (VaddrRangeOverflow i) else
  if elf_len <? file_offset s + file_size s then
    Some (FileRangeOutOfBounds i (Z.min (file_offset s + file_size s) U64_MAX) elf_len) else
  if USER_VA_END <? vaddr s + mem_size s then Some (VaddrOutOfUserRange i (vaddr s)) else None.

(** Entry [e] loads page [va] of segment [s]. *)
Record entry_for (data : list Z) (s : LoadSegment) (va : Z) (e : ElfLoadEntry) : Prop := {
  ef_va : page_va e = va;
  ef_exec : e_executable e = executable s;
  ef_src : 0 <= src_start e <= src_end e /\ src_end e <= len data;
  ef_off : 0 <= in_page_offset e /\ in_page_offset e + (src_end e - src_start e) <= PAGE_SIZE;
  ef_page : forall o, 0 <= o < PAGE_SIZE -> page_content data e !! Z.to_nat o = seg_byte data s (va + o);
}.

Record seg_ok (s : LoadSegment) : Prop := {
  so_vaddr : word 64 (vaddr s); so_off : word 64 (file_offset s); so_file : word 64 (file_size s); so_mem : word 64 (mem_size s);
}.

Definition page_count (segs : list LoadSegment) : Z := foldr (fun s n => seg_page_count s + n) 0 segs.

(** What [plan_elf_load] promises of the segments. *)
Definition plan_promise (data : list Z) (cap : Z) (segs : list LoadSegment) (r : result (list ElfLoadEntry) ElfLoadError) : Prop :=
  match r with
  | Ok out =>
      page_count segs <= cap /\
      Forall2 (fun e '(s, va) => entry_for data s va e) out (segs ≫= fun s => pair s <$> seg_pages s)
  | Err e =>
      exists pre s post, segs = pre ++ s :: post /\ page_count pre <= cap /\ Forall (fun s => seg_error (len data) 0 s = None) pre /\
        (seg_error (len data) (Z.of_nat (length pre)) s = Some e \/
         seg_error (len data) 0 s = None /\ e = TooManyEntries (page_count (pre ++ [s])) cap /\ cap < page_count (pre ++ [s]))
  end.

Section Plan.
Context (data : list Z) (Hlen : len data < 2 ^ 63) (cap : Z) (Hcap : 0 <= cap < 2 ^ 63).

Lemma len_nonneg : 0 <= len data.
Proof using. unfold len. lia. Qed.

Lemma page_align x : word 64 x -> Z.land x (not_w 64 (PAGE_SIZE - 1)) = x / PAGE_SIZE * PAGE_SIZE.
Proof using. intros H. change (PAGE_SIZE - 1) with (2 ^ 12 - 1). rewrite land_align_down by done. done. Qed.

(** A page with [n] bytes of the file at [off]. *)
Lemma content_lookup e o : 0 <= src_start e <= src_end e -> src_end e <= len data -> 0 <= in_page_offset e ->
  in_page_offset e + (src_end e - src_start e) <= PAGE_SIZE -> 0 <= o < PAGE_SIZE ->
  page_content data e !! Z.to_nat o =
    if decide (in_page_offset e <= o < in_page_offset e + (src_end e - src_start e))
    then data !! Z.to_nat (src_start e + (o - in_page_offset e)) else Some 0.
Proof using.
  intros H1 H2 H3 H4 H5. pose proof (slice_length data (src_start e) (src_end e - src_start e) ltac:(lia) ltac:(lia) ltac:(lia)) as L.
  unfold len in L. unfold page_content. destruct (decide _) as [D|D].
  - rewrite list_lookup_inserts by (rewrite ?length_replicate; lia).
    replace (Z.to_nat o - Z.to_nat (in_page_offset e))%nat with (Z.to_nat (o - in_page_offset e)) by lia. apply slice_lookup; lia.
  - assert (Z.to_nat o < Z.to_nat (in_page_offset e) \/ Z.to_nat (in_page_offset e) + length (slice data (src_start e) (src_end e - src_start e)) <= Z.to_nat o)%nat as [?|?] by lia.
    + rewrite list_lookup_inserts_lt by lia. apply lookup_replicate_2. lia.
    + rewrite list_lookup_inserts_ge by lia. apply lookup_replicate_2. lia.
Qed.

Lemma page_entry_spec s p : seg_ok s -> seg_error (len data) 0 s = None -> 0 <= p < seg_page_count s ->
  exists e, page_entry s (vaddr s / PAGE_SIZE * PAGE_SIZE) (vaddr s + file_size s) p = Ret e /\
    entry_for data s ((vaddr s / PAGE_SIZE + p) * PAGE_SIZE) e.
Proof using Hlen.
  intros [H1 H2 H3 H4] He Hp. unfold seg_page_count in Hp. unfold seg_error in He. pose proof len_nonneg.
  destruct (Z.ltb_spec (mem_size s) (file_size s)); [done|]. destruct (Z.eqb_spec (mem_size s) 0); [lia|].
  destruct (Z.leb_spec (2 ^ 64) (vaddr s + mem_size s)); [done|]. destruct (Z.ltb_spec (len data) (file_offset s + file_size s)); [done|].
  destruct (Z.ltb_spec USER_VA_END (vaddr s + mem_size s)); [done|]. clear He. unfold USER_VA_END in *.
  unfold word in *. set (q := vaddr s / PAGE_SIZE) in *.
  assert (Hq : q * PAGE_SIZE <= vaddr s < q * PAGE_SIZE + PAGE_SIZE) by (unfold q, PAGE_SIZE; pose proof (Z.div_mod (vaddr s) 4096); pose proof (Z.mod_pos_bound (vaddr s) 4096); lia).
  set (l := (vaddr s + mem_size s - 1) / PAGE_SIZE) in *.
  assert (Hl : l * PAGE_SIZE <= vaddr s + mem_size s - 1) by (unfold l, PAGE_SIZE; pose proof (Z.div_mod (vaddr s + mem_size s - 1) 4096); pose proof (Z.mod_pos_bound (vaddr s + mem_size s - 1) 4096); lia).
  clearbody q l. unfold PAGE_SIZE in *. unfold page_entry, mul_chk, add_chk, sub_chk, PAGE_SIZE.
  rewrite (proj2 (Z.ltb_lt (p * 4096) _)), bind_Ret by lia. rewrite (proj2 (Z.ltb_lt (q * 4096 + p * 4096) _)), bind_Ret by lia.
  replace (q * 4096 + p * 4096) with ((q + p) * 4096) by lia. set (va := (q + p) * 4096) in *. assert (Hva : 0 <= va <= 0x40000000) by lia.
  assert (Hnear : vaddr s < va + 4096) by lia.
  clearbody va. rewrite (proj2 (Z.ltb_lt (va + 4096) _)), bind_Ret by lia.
  destruct (Z.ltb_spec (Z.max va (vaddr s)) (Z.min (va + 4096) (vaddr s + file_size s))) as [C|C].
  - rewrite (proj2 (Z.leb_le va _)), bind_Ret by lia. rewrite (proj2 (Z.leb_le (vaddr s) _)), bind_Ret by lia.
    rewrite (proj2 (Z.ltb_lt (file_offset s + _) _)), bind_Ret by lia. rewrite (proj2 (Z.leb_le (Z.max _ _) _)), bind_Ret by lia.
    rewrite (proj2 (Z.ltb_lt (file_offset s + _ + _) _)), bind_Ret by lia. eexists. split; [reflexivity|].
    split; cbn; try done; unfold PAGE_SIZE; try lia.
    intros o Ho. rewrite content_lookup by (cbn; unfold PAGE_SIZE; lia). cbn. unfold seg_byte.
    destruct (decide (vaddr s <= va + o < _)); [rewrite decide_True by lia; f_equal; lia|by rewrite decide_False by lia].
  - eexists. split; [reflexivity|]. split; cbn; try done; unfold PAGE_SIZE; try lia.
    intros o Ho. rewrite content_lookup by (cbn; unfold PAGE_SIZE; lia). cbn. unfold seg_byte.
    rewrite !decide_False by lia. done.
Qed.

Lemma seg_page_count_pos s : seg_ok s -> 0 <= seg_page_count s.
Proof using.
  intros [H1 H2 H3 H4]. unfold seg_page_count. destruct (Z.eqb_spec (mem_size s) 0); [lia|]. unfold word in *.
  pose proof (Z.div_le_mono (vaddr s) (vaddr s + mem_size s - 1) PAGE_SIZE ltac:(done) ltac:(lia)). lia.
Qed.

Lemma page_count_app a b : page_count (a ++ b) = page_count a + page_count b.
Proof using. induction a as [|s a IH]; [done|]. cbn. fold (page_count (a ++ b)) (page_count a). lia. Qed.

Lemma seg_pages_take s n : 0 <= n -> (fun p => (vaddr s / PAGE_SIZE + p) * PAGE_SIZE) <$> seqZ 0 (n + 1) =
  ((fun p => (vaddr s / PAGE_SIZE + p) * PAGE_SIZE) <$> seqZ 0 n) ++ [(vaddr s / PAGE_SIZE + n) * PAGE_SIZE].
Proof using. intros Hn. rewrite seqZ_app, fmap_app by lia. f_equal. Qed.

(** The loop over a segment's pages. *)
Lemma segment_loop s out : seg_ok s -> seg_error (len data) 0 s = None -> Z.of_nat (length out) + seg_page_count s <= cap ->
  exists new, for_range 0 (Z.to_nat (seg_page_count s))
      (fun p out => e ← page_entry s (vaddr s / PAGE_SIZE * PAGE_SIZE) (vaddr s + file_size s) p; emit cap out e) out = Ret (out ++ new) /\
    Forall2 (fun e '(s, va) => entry_for data s va e) new (pair s <$> seg_pages s).
Proof using Hlen.
  intros Hok He Hfit. pose proof (seg_page_count_pos s Hok) as Hn.
  destruct (for_range_inv (fun p o => exists new, o = out ++ new /\ Z.of_nat (length new) = p /\
    Forall2 (fun e '(s, va) => entry_for data s va e) new (pair s <$> ((fun p => (vaddr s / PAGE_SIZE + p) * PAGE_SIZE) <$> seqZ 0 p)))
    (fun p out => e ← page_entry s (vaddr s / PAGE_SIZE * PAGE_SIZE) (vaddr s + file_size s) p; emit cap out e)
    (Z.to_nat (seg_page_count s)) 0 out) as (o & -> & new & -> & _ & HF).
  - exists []. rewrite app_nil_r. split_and!; [done|done|constructor].
  - intros p o Hp (new & -> & Hl & HF). destruct (page_entry_spec s p Hok He) as (e & -> & Hent); [lia|]. rewrite bind_Ret. unfold emit.
    rewrite (proj2 (Z.ltb_lt _ _)) by (rewrite length_app; lia). eexists. split; [reflexivity|]. exists (new ++ [e]).
    rewrite app_assoc. split_and!; [done|rewrite length_app; cbn; lia|]. rewrite seg_pages_take, fmap_app by lia.
    apply Forall2_app; [done|]. constructor; [done|constructor].
  - exists new. split; [done|]. unfold seg_pages. by rewrite Z.add_0_l, Z2Nat.id in HF by lia.
Qed.

(** One segment: its own error, no room, or its pages. *)
Lemma plan_segment_spec i s out : seg_ok s -> Z.of_nat (length out) <= cap ->
  match seg_error (len data) i s with
  | Some e => plan_segment (len data) cap i s out = Ret (Err e)
  | None =>
      if decide (Z.of_nat (length out) + seg_page_count s <= cap)
      then exists new, plan_segment (len data) cap i s out = Ret (Ok (out ++ new)) /\
             Forall2 (fun e '(s, va) => entry_for data s va e) new (pair s <$> seg_pages s)
      else plan_segment (len data) cap i s out = Ret (Err (TooManyEntries (Z.of_nat (length out) + seg_page_count s) cap))
  end.
Proof using Hlen Hcap.
  intros Hok Hout. pose proof (segment_loop s out Hok) as Loop. pose proof (seg_page_count_pos s Hok) as Hpc.
  assert (E0 : seg_error (len data) 0 s = None <-> seg_error (len data) i s = None) by (unfold seg_error; by repeat case_match).
  rewrite E0 in Loop. clear E0. destruct Hok as [H1 H2 H3 H4]. unfold word in *. pose proof len_nonneg. unfold plan_segment. unfold seg_error in *.
  destruct (Z.ltb_spec (mem_size s) (file_size s)); [done|]. destruct (Z.eqb_spec (mem_size s) 0) as [E|E].
  { unfold seg_page_count, seg_pages, seg_page_count. rewrite E. cbn [Z.eqb]. rewrite decide_True by lia. exists []. rewrite app_nil_r. split; [done|constructor]. }
  unfold checked_add64. change U64_MAX with (2 ^ 64 - 1) in *. destruct (Z.leb_spec (2 ^ 64) (vaddr s + mem_size s)).
  { by rewrite (proj2 (Z.leb_gt (vaddr s + mem_size s) _)) by lia. }
  rewrite (proj2 (Z.leb_le (vaddr s + mem_size s) _)) by lia. unfold add_chk, sub_chk. rewrite (proj2 (Z.ltb_lt (vaddr s + file_size s) _)), bind_Ret by lia.
  destruct (Z.ltb_spec (len data) (file_offset s + file_size s)).
  { destruct (Z.leb_spec (file_offset s + file_size s) (2 ^ 64 - 1)).
    - rewrite (proj2 (Z.ltb_lt _ _)) by lia. cbn [orb]. by rewrite Z.min_l by lia.
    - by rewrite Z.min_r by lia. }
  rewrite (proj2 (Z.leb_le (file_offset s + file_size s) _)) by lia. rewrite (proj2 (Z.ltb_ge (len data) (file_offset s + _))), (proj2 (Z.ltb_ge (len data) (file_offset s))) by lia.
  cbn [orb]. destruct (Z.ltb_spec USER_VA_END (vaddr s + mem_size s)); [by rewrite orb_true_r|].
  rewrite (proj2 (Z.leb_gt USER_VA_END _)) by lia. cbn [orb]. rewrite (proj2 (Z.leb_le 1 _)), bind_Ret by lia.
  rewrite !page_align by (unfold word; lia). pose proof (Z.div_le_mono (vaddr s) (vaddr s + mem_size s - 1) PAGE_SIZE ltac:(done) ltac:(lia)) as Hd.
  rewrite (proj2 (Z.leb_le (vaddr s / PAGE_SIZE * PAGE_SIZE) _)), bind_Ret by (apply Z.mul_le_mono_nonneg_r; [done|exact Hd]).
  assert (En : ((vaddr s + mem_size s - 1) / PAGE_SIZE * PAGE_SIZE - vaddr s / PAGE_SIZE * PAGE_SIZE) / PAGE_SIZE + 1 = seg_page_count s).
  { unfold seg_page_count. rewrite (proj2 (Z.eqb_neq _ _)), <- Z.mul_sub_distr_r, Z.div_mul by done. done. }
  rewrite En. assert (seg_page_count s < 2 ^ 32).
  { unfold seg_page_count. rewrite (proj2 (Z.eqb_neq _ _)) by done. unfold USER_VA_END, PAGE_SIZE in *. pose proof (Z.div_pos (vaddr s) 4096).
    pose proof (Z.div_le_upper_bound (vaddr s + mem_size s - 1) 4096 (2 ^ 31)). lia. }
  rewrite (proj2 (Z.leb_le (_ + seg_page_count s) _)) by lia. destruct (decide _) as [D|D].
  - rewrite (proj2 (Z.ltb_ge cap _)) by lia. destruct (Loop eq_refl D) as (new & -> & HF). exists new. by rewrite bind_Ret.
  - rewrite (proj2 (Z.ltb_lt cap _)), (proj2 (Z.ltb_lt _ (2 ^ 64))), bind_Ret by lia. done.
Qed.

Lemma plan_from_spec segs : forall pre out, Forall seg_ok segs -> Forall (fun s => seg_error (len data) 0 s = None) pre ->
  Z.of_nat (length out) = page_count pre -> page_count pre <= cap ->
  Forall2 (fun e '(s, va) => entry_for data s va e) out (pre ≫= fun s => pair s <$> seg_pages s) ->
  exists r, plan_from (len data) cap (Z.of_nat (length pre)) segs out = Ret r /\ plan_promise data cap (pre ++ segs) r.
Proof using Hlen Hcap.
  induction segs as [|s segs IH]; intros pre out Hok Hpre Hn Hfit HF; cbn [plan_from].
  { eexists. split; [reflexivity|]. by rewrite app_nil_r. }
  apply Forall_cons in Hok as [Hs Hok]. pose proof (plan_segment_spec (Z.of_nat (length pre)) s out Hs ltac:(lia)) as Sp.
  pose proof (seg_page_count_pos s Hs) as Hsp. assert (Hps : page_count (pre ++ [s]) = page_count pre + seg_page_count s) by (rewrite page_count_app; cbn; lia).
  destruct (seg_error (len data) (Z.of_nat (length pre)) s) as [e|] eqn:E.
  { rewrite Sp, bind_Ret. eexists. split; [reflexivity|]. exists pre, s, segs. split_and!; [done|done|done|by left]. }
  assert (E0 : seg_error (len data) 0 s = None) by (revert E; unfold seg_error; by repeat case_match).
  destruct (decide _) as [D|D].
  - destruct Sp as (new & -> & HFn). rewrite bind_Ret. specialize (IH (pre ++ [s]) (out ++ new) Hok).
    replace (Z.of_nat (length (pre ++ [s]))) with (Z.of_nat (length pre) + 1) in IH by (rewrite length_app; cbn [length]; lia). rewrite <- app_assoc in IH. apply IH.
    + apply Forall_app_2; [done|]. by constructor.
    + pose proof (Forall2_length _ _ _ HFn) as L. rewrite length_fmap in L. unfold seg_pages in L. rewrite length_fmap, length_seqZ in L.
      rewrite length_app. lia.
    + lia.
    + rewrite bind_app. apply Forall2_app; [done|]. cbn. by rewrite app_nil_r.
  - rewrite Sp, bind_Ret. eexists. split; [reflexivity|]. exists pre, s, segs. split_and!; [done|done|done|]. right. rewrite Hps. split_and!; [done|by rewrite Hn|lia].
Qed.
End Plan.

(** Loading pages at distinct addresses: every entry is seen where it was put. *)
Lemma load_lookup data entries : NoDup (page_va <$> entries) -> forall e, e ∈ entries ->
  load_elf_segments data entries !! page_va e = Some (page_content data e, e_executable e).
Proof.
  unfold load_elf_segments. induction entries as [|x entries IH] using rev_ind; intros Hnd e He; [by apply not_elem_of_nil in He|].
  rewrite fmap_app in Hnd. apply NoDup_app in Hnd as (Hnd & Hx & _). rewrite foldl_app. cbn [foldl]. unfold apply_elf_load_entry at 1.
  apply elem_of_app in He as [He|He].
  - rewrite lookup_insert_ne; [by apply IH|]. intros Heq. apply (Hx (page_va e)); [by apply list_elem_of_fmap_2|].
    rewrite <- Heq. by apply list_elem_of_singleton.
  - apply list_elem_of_singleton in He as ->. apply lookup_insert_eq.
Qed.

Lemma plan_pages data segs out : Forall2 (fun e '(s, va) => entry_for data s va e) out (segs ≫= fun s => pair s <$> seg_pages s) ->
  page_va <$> out = segs ≫= seg_pages.
Proof.
  intros HF. transitivity (snd <$> (segs ≫= fun s => pair s <$> seg_pages s)).
  - induction HF as [|e [s va] ?? [Hva _ _ _ _] _ IH]; [done|]. cbn. by rewrite Hva, IH.
  - clear. induction segs as [|s segs IH]; [done|]. cbn. rewrite fmap_app. f_equal; [|done]. rewrite <- list_fmap_compose. cbn.
    rewrite <- (list_fmap_id (seg_pages s)) at 2. by apply list_fmap_ext.
Qed.

Lemma seg_has_page s va : seg_ok s -> seg_has s va -> va / PAGE_SIZE * PAGE_SIZE ∈ seg_pages s.
Proof.
  intros [H1 H2 H3 H4] [Ha Hb]. unfold word in *. apply list_elem_of_fmap. exists (va / PAGE_SIZE - vaddr s / PAGE_SIZE). split; [f_equal; lia|].
  apply elem_of_seqZ. pose proof (Z.div_le_mono (vaddr s) va PAGE_SIZE ltac:(done) ltac:(lia)).
  pose proof (Z.div_le_mono va (vaddr s + mem_size s - 1) PAGE_SIZE ltac:(done) ltac:(lia)).
  unfold seg_page_count. rewrite (proj2 (Z.eqb_neq _ _)) by lia. lia.
Qed.

(** C30: The load plan. For any segments and any file, [plan_elf_load] returns,
    without an arithmetic or index panic. It reports the defect of the first
    defective segment, or that the buffer is too small, or it returns one entry
    per page each segment touches: in the user range of the page, with a source
    range inside the file that fits the page, so that the page filled from it
    holds at every offset the segment's byte of the file or zero. If no two
    segments share a page, the program loaded from the plan sees, at every
    address of every segment, that segment's byte. *)
Theorem elf_plan_loads_segments data cap info :
  len data < 2 ^ 63 -> 0 <= cap < 2 ^ 63 -> Forall seg_ok (segments info) ->
  exists r, plan_elf_load info (len data) cap = Ret r /\ plan_promise data cap (segments info) r /\
    forall out, r = Ok out -> NoDup (segments info ≫= seg_pages) ->
      forall s va, s ∈ segments info -> seg_has s va -> image_byte (load_elf_segments data out) va = seg_byte data s va.
Proof.
  intros Hlen Hcap Hok. destruct (plan_from_spec data Hlen cap Hcap (segments info) [] []) as (r & Hr & Hp); [done|constructor|done|cbn; lia|constructor|].
  exists r. split; [exact Hr|]. split; [exact Hp|]. intros out -> Hnd s va Hs Hva. destruct Hp as [_ HF]. cbn [app] in HF.
  rewrite <- (plan_pages _ _ _ HF) in Hnd. pose proof (proj1 (Forall_forall _ _) Hok s Hs) as Hsok.
  assert (Hin : (s, va / PAGE_SIZE * PAGE_SIZE) ∈ segments info ≫= fun s => pair s <$> seg_pages s).
  { apply list_elem_of_bind. exists s. split; [|done]. apply list_elem_of_fmap_2. by apply seg_has_page. }
  apply list_elem_of_lookup in Hin as [i Hi]. destruct (Forall2_lookup_r _ _ _ _ _ HF Hi) as (e & He & [Hev _ _ _ Hpage]).
  apply list_elem_of_lookup_2 in He. unfold image_byte. rewrite <- Hev, (load_lookup _ _ Hnd _ He). cbn [mbind option_bind].
  rewrite Hpage by (apply Z.mod_pos_bound; done). f_equal. pose proof (Z.div_mod va PAGE_SIZE ltac:(done)). lia.
Qed.

(** ** Instances *)

Definition sample_header : Ehdr := mkEh (replicate 10 0) ET_EXEC EM_AARCH64 1 0x400010 0 0 64 0 0 0.
(** Headers of 60 bytes, 4 bytes behind the file header. *)
Definition sample_phdrs : list (Phdr * list Z) :=
  [(mkPh 6 4 68 0x400044 0x400044 180 180 8, [1; 2; 3; 4]); (mkPh 1 5 0 0x400010 0x400010 8 8 4096, [0; 0; 0; 0]); (mkPh 1 6 8 0x401ffc 0x401ffc 6 8 4096, [0; 0; 0; 0])].
Definition sample_file : list Z := elf_file sample_header [9; 9; 9; 9] 4 sample_phdrs [7; 7].

Lemma parse_elf_roundtrip_witness :
  parse_elf sample_file = Ret (Ok (mkInfo 0x400010 [mkSeg 0x400010 0 8 8 true false; mkSeg 0x401ffc 8 6 8 false true])).
Proof.
  apply (parse_elf_roundtrip sample_header [9; 9; 9; 9] 4 sample_phdrs [7; 7]).
  constructor; [split; [repeat constructor; unfold is_byte; lia|done]|done|repeat constructor; done|repeat constructor; done|split; repeat constructor; done|done|done].
Defined.

Lemma elf_plan_loads_segments_witness :
  exists out, plan_elf_load (mkInfo 0x400010 [mkSeg 0x400010 0 8 8 true false; mkSeg 0x401ffc 8 6 8 false true]) (len sample_file) 8 = Ret (Ok out) /\
    image_byte (load_elf_segments sample_file out) 0x400011 = Some 0x45.
Proof.
  destruct (elf_plan_loads_segments sample_file 8 (mkInfo 0x400010 [mkSeg 0x400010 0 8 8 true false; mkSeg 0x401ffc 8 6 8 false true]))
    as (r & Hr & _ & Himg); [done|lia|repeat constructor; done|].
  vm_compute in Hr. injection Hr as <-. eexists. split; [reflexivity|].
  rewrite (Himg _ eq_refl) with (s := mkSeg 0x400010 0 8 8 true false); [reflexivity| |by constructor|split; cbn; lia].
  repeat constructor; set_solver.
Defined.

(** Malformed headers make the parsers panic. A file of one header whose
    program header table, at the end of the file, has entries of size zero passes
    [parse_elf]'s bounds check, and reading the first entry is out of bounds. A
    header whose section table starts at the end of the address space makes
    [find_section_u64], which should return nothing for a malformed file,
    overflow. *)
Theorem elf_parsers_panic_on_malformed :
  let header phoff shoff phnum shentsize shnum :=
    ELF_MAGIC ++ [ELFCLASS64; ELFDATA2LSB] ++ replicate 10 0 ++ le_bytes 2 ET_EXEC ++ le_bytes 2 EM_AARCH64 ++ le_bytes 4 1 ++ le_bytes 8 0 ++
    le_bytes 8 phoff ++ le_bytes 8 shoff ++ le_bytes 4 0 ++ le_bytes 2 64 ++ le_bytes 2 0 ++ le_bytes 2 phnum ++ le_bytes 2 shentsize ++
    le_bytes 2 shnum ++ le_bytes 2 0 in
  (forall a b c d e, bytes (header a b c d e) /\ len (header a b c d e) = 64) /\
  parse_elf (header 64 0 1 0 0) = Panic PIndex /\
  find_section_u64 (header 64 (2 ^ 64 - 1) 0 64 1) [46] = Panic PArith.
Proof.
  intros header. split; [|split; reflexivity]. intros. split; [|reflexivity]. unfold header. repeat apply Forall_app_2; try apply le_bytes_bytes;
    try (apply Forall_replicate; unfold is_byte; lia); repeat (apply Forall_cons_2; [split; done|]); apply Forall_nil_2.
Qed.

(** Two segments in one page. The plan of a file whose second segment starts
    in the last page of the first has two entries for that page; the page loaded
    last has only the second segment's bytes, and the first segment's bytes there
    read as zero. *)
Theorem elf_plan_drops_shared_page :
  let a := mkSeg 0x400000 0 16 16 true false in
  let b := mkSeg 0x400100 16 16 16 false true in
  let data := replicate 16 0xAA ++ replicate 16 0xBB in
  exists out, plan_elf_load (mkInfo 0x400000 [a; b]) (len data) 8 = Ret (Ok out) /\
    page_va <$> out = [0x400000; 0x400000] /\ seg_byte data a 0x400004 = Some 0xAA /\
    image_byte (load_elf_segments data out) 0x400004 = Some 0.
Proof. eexists. split; [reflexivity|]. split; [reflexivity|]. split; reflexivity. Qed.
