(* ===== verification/Vmem.v ===== *)
(** User address spaces (lockjaw-types/src/vmem.rs, the mapping walk of
    lockjaw-types/src/page_table.rs and src/arch/aarch64/vmem.rs): request
    validation, the region iterator, and mapping a PageSet into an existing
    address space. *)
From Stdlib Require Import ZArith Lia.
From stdpp Require Import base option list gmap numbers sets fin_sets.
From S2P Require Import Prelude Frames BuddyInv Pools FrameAlloc PageSet KPageSet PageTable.
Open Scope Z_scope.

(** * Mapping requests *)

Inductive MapMemoryAttribute := Normal | Device | NormalNonCacheable.

Definition attr_from_raw (raw : Z) : option MapMemoryAttribute :=
  match raw with
  | 0 => Some Normal
  | 1 => Some Device
  | 2 => Some NormalNonCacheable
  | _ => None
  end.

Definition to_pte_attrs (a : MapMemoryAttribute) : Z * Z :=
  match a with
  | Normal => (MAIR_NORMAL, SH_INNER)
  | Device => (MAIR_DEVICE, SH_NON)
  | NormalNonCacheable => (MAIR_NORMAL_NC, SH_OUTER)
  end.

Definition select_attrs (a : MapMemoryAttribute) : Z * Z := to_pte_attrs a.

Inductive L2SlotState := L2Empty | HasL3Table | IsBlock.
Inductive MapAction := AllocateL3 | UseExistingL3 | ErrorBlockConflict.

Definition map_action_for_l2 (state : L2SlotState) : MapAction :=
  match state with
  | L2Empty => AllocateL3
  | HasL3Table => UseExistingL3
  | IsBlock => ErrorBlockConflict
  end.

Definition classify_l2_entry (pte : Z) : L2SlotState :=
  if is_table pte then HasL3Table else if negb (is_valid pte) then L2Empty else IsBlock.

Inductive MapValidation :=
  | ValidOk (l2_idx l3_start : Z)
  | ErrorOutOfRange
  | ErrorTooManyPages.

Definition validate_mapping (virt_addr page_count : Z) : MapValidation :=
  if (page_count =? 0) || (HeaderPool.MAX_PRACTICAL_PAGES_PER_SET <? page_count) then ErrorTooManyPages else
  let '(l0, l1, l2_start, l3_start) := page_table_indices virt_addr in
  if negb (l0 =? 0) || negb (l1 =? 0) then ErrorOutOfRange else
  match checked_add64 virt_addr (page_count * PAGE_SIZE) with
  | None => ErrorOutOfRange
  | Some end_va_excl =>
      if USER_VA_END <? end_va_excl then ErrorOutOfRange else ValidOk l2_start l3_start
  end.

Definition validate_intra_page (user_va size : Z) : bool :=
  Z.land user_va (PAGE_SIZE - 1) + size <=? PAGE_SIZE.

Definition validate_process_mappings (mapping_count stack_count capacity : Z) : outcome bool :=
  if negb (0 <? mapping_count) then Ret false else
  if negb (0 <? stack_count) then Ret false else
  t ← add_chk 64 mapping_count stack_count; Ret (t <=? capacity).

(** ** The region iterator *)

Definition PAGES_PER_L2_REGION : Z := 512.

Record L2Region := mkL2Region {
  rg_l2_idx : Z;
  rg_l3_start : Z;
  rg_pages_in_region : Z;
  rg_data_offset : Z;
}.

Record L2RegionIter := mkIter {
  it_next_l2_idx : Z;
  it_next_l3_offset : Z;
  it_pages_remaining : Z;
  it_data_offset : Z;
}.

Definition iter_new (l2_start l3_start page_count : Z) : L2RegionIter :=
  mkIter l2_start l3_start page_count 0.

Definition iter_next (it : L2RegionIter) : option (L2Region * L2RegionIter) :=
  if it_pages_remaining it =? 0 then None else
  let pages_in_region :=
    Z.min (PAGES_PER_L2_REGION - it_next_l3_offset it) (it_pages_remaining it) in
  Some (mkL2Region (it_next_l2_idx it) (it_next_l3_offset it) pages_in_region (it_data_offset it),
        mkIter (it_next_l2_idx it + 1) 0 (it_pages_remaining it - pages_in_region)
          (it_data_offset it + pages_in_region)).

(** The regions a [for] loop over the iterator visits. *)
Fixpoint iter_collect (fuel : nat) (it : L2RegionIter) : outcome (list L2Region) :=
  match fuel with
  | O => Panic PFuel
  | S fuel' =>
      match iter_next it with
      | None => Ret []
      | Some (r, it') => rs ← iter_collect fuel' it'; Ret (r :: rs)
      end
  end.

(** Each round takes at least one page. *)
Definition l2_regions (l2_start l3_start page_count : Z) : outcome (list L2Region) :=
  iter_collect (S (Z.to_nat page_count)) (iter_new l2_start l3_start page_count).

(** ** The mapping walk *)

Inductive MapWalkResult :=
  | ReadPte (pte_paddr : Z)
  | ReachedL2 (l2_table_paddr l2_idx l3_start : Z) (state : L2SlotState)
  | MapFault
  | InvalidMapping.

Record MapWalk := mkMapWalk {
  mw_level : Z;
  mw_l2_idx : Z;
  mw_l3_start : Z;
  mw_l2_table_paddr : Z;
}.

Definition map_start (ttbr0_paddr virt_addr page_count : Z) : MapWalk * MapWalkResult :=
  match validate_mapping virt_addr page_count with
  | ValidOk l2_idx l3_start => (mkMapWalk 0 l2_idx l3_start 0, ReadPte (ttbr0_paddr + 0 * 8))
  | _ => (mkMapWalk 0 0 0 0, InvalidMapping)
  end.

Definition map_step (w : MapWalk) (pte : Z) : MapWalk * MapWalkResult :=
  match mw_level w with
  | 0 =>
      if negb (is_table pte) then (w, MapFault) else
      (mkMapWalk 1 (mw_l2_idx w) (mw_l3_start w) (mw_l2_table_paddr w), ReadPte (output_addr pte + 0 * 8))
  | 1 =>
      if negb (is_table pte) then (w, MapFault) else
      let l2_table := output_addr pte in
      (mkMapWalk 2 (mw_l2_idx w) (mw_l3_start w) l2_table, ReadPte (l2_table + mw_l2_idx w * 8))
  | 2 => (w, ReachedL2 (mw_l2_table_paddr w) (mw_l2_idx w) (mw_l3_start w) (classify_l2_entry pte))
  | _ => (w, MapFault)
  end.

(** * map_pages_in_existing *)

Inductive VmemError :=
  | TooManyMappings
  | TooManyL3Regions
  | OutOfPages
  | InvalidParameter
  | OutOfPageTables.

Fixpoint map_walk_loop (fuel : nat) (m : gmap Z Z) (w : MapWalk) (r : MapWalkResult)
  : outcome (result (Z * Z * Z) VmemError) :=
  match fuel with
  | O => Panic PFuel
  | S fuel' =>
      match r with
      | ReadPte pte_paddr =>
          let (w', r') := map_step w (arr_peek m pte_paddr) in map_walk_loop fuel' m w' r'
      | ReachedL2 l2_table_paddr l2_idx l3_start _ => Ret (Ok (l2_table_paddr, l2_idx, l3_start))
      | MapFault => Ret (Err OutOfPages)
      | InvalidMapping => Ret (Err TooManyMappings)
      end
  end.

(** Reading and assigning entry [i] of a table (bounds-checked indexing). *)
Definition entry_get (m : gmap Z Z) (table_paddr i : Z) : outcome Z :=
  if (0 <=? i) && (i <? 512) then Ret (arr_peek m (table_paddr + i * 8)) else Panic PIndex.
Definition entry_set (m : gmap Z Z) (table_paddr i e : Z) : outcome (gmap Z Z) :=
  if (0 <=? i) && (i <? 512) then Ret (<[table_paddr + i * 8 := e]> m) else Panic PIndex.

(** [ptr::write_bytes(table, 0, 1)] *)
Definition zero_table (m : gmap Z Z) (table_paddr : Z) : gmap Z Z :=
  foldr (fun i m' => <[table_paddr + i * 8 := 0]> m') m (seqZ 0 512).

Definition build_user_page (phys attr sh : Z) : Z := with_pxn (with_uxn (new_page phys attr AP_RW_ALL sh)).

(** Pass 1: reject block conflicts, count the missing L3 tables. *)
Fixpoint classify_regions (m : gmap Z Z) (l2_table : Z) (rs : list L2Region) (needed_l3_allocs : Z)
  : outcome (result Z VmemError) :=
  match rs with
  | [] => Ret (Ok needed_l3_allocs)
  | region :: rs' =>
      e ← entry_get m l2_table (rg_l2_idx region);
      match map_action_for_l2 (classify_l2_entry e) with
      | UseExistingL3 => classify_regions m l2_table rs' needed_l3_allocs
      | AllocateL3 => classify_regions m l2_table rs' (needed_l3_allocs + 1)
      | ErrorBlockConflict => Ret (Err TooManyL3Regions)
      end
  end.

Definition MAX_L2_REGIONS_PER_MAP : Z := 33.

Section Map.
Context {M : Type} `{FrameOps M}.

(** Pass 2: take the frames of the missing tables, giving them back when one
    cannot be had. *)
Fixpoint prealloc (n : nat) (i : Z) (prealloc_l3 : list Z) (s : M) : outcome (option (list Z) * M) :=
  match n with
  | O => Ret (Some prealloc_l3, s)
  | S n' =>
      r ← fr_alloc_page s;
      match r.1 with
      | Some p =>
          if i <? MAX_L2_REGIONS_PER_MAP then prealloc n' (i + 1) (prealloc_l3 ++ [p]) r.2
          else Panic PIndex
      | None => s' ← dealloc_all prealloc_l3 r.2; Ret (None, s')
      end
  end.

(** Pass 3: install the new tables and write the page entries. *)
Definition write_entry (b : Hdr.BackedHeader) (mair_attr sh l3_table : Z) (region : L2Region)
    (i : Z) (m : gmap Z Z) : outcome (gmap Z Z) :=
  o ← Hdr.get_page b (rg_data_offset region + i);
  phys ← unwrap o;
  entry_set m l3_table (rg_l3_start region + i) (build_user_page phys mair_attr sh).

Fixpoint apply_regions (b : Hdr.BackedHeader) (mair_attr sh l2_table : Z) (rs : list L2Region)
    (prealloc_l3 : list Z) (m : gmap Z Z) : outcome (gmap Z Z) :=
  match rs with
  | [] => Ret m
  | region :: rs' =>
      l2_entry ← entry_get m l2_table (rg_l2_idx region);
      x ← match map_action_for_l2 (classify_l2_entry l2_entry) with
          | UseExistingL3 => Ret (output_addr l2_entry, prealloc_l3, m)
          | AllocateL3 =>
              match prealloc_l3 with
              | [] => Panic PUnwrap
              | l3_page :: rest =>
                  let l3_paddr := start_addr l3_page in
                  m' ← entry_set (zero_table m l3_paddr) l2_table (rg_l2_idx region) (new_table l3_paddr);
                  Ret (l3_paddr, rest, m')
              end
          | ErrorBlockConflict => Panic PAssert
          end;
      let '(l3_table, prealloc_l3', m1) := x in
      m2 ← for_range 0 (Z.to_nat (rg_pages_in_region region)) (write_entry b mair_attr sh l3_table region) m1;
      apply_regions b mair_attr sh l2_table rs' prealloc_l3' m2
  end.

Definition map_pages_in_existing (m : gmap Z Z) (s : M) (ttbr0_paddr virt_addr : Z)
    (header : Hdr.BackedHeader) (attr : MapMemoryAttribute)
  : outcome (result unit VmemError * gmap Z Z * M) :=
  let page_count := Hdr.bk_count header in
  let (w, r) := map_start ttbr0_paddr virt_addr page_count in
  x ← map_walk_loop 4 m w r;
  match x with
  | Err e => Ret (Err e, m, s)
  | Ok (l2_table, l2_start, l3_start) =>
      let (mair_attr, sh) := select_attrs attr in
      rs ← l2_regions l2_start l3_start page_count;
      c ← classify_regions m l2_table rs 0;
      match c with
      | Err e => Ret (Err e, m, s)
      | Ok needed_l3_allocs =>
          p ← prealloc (Z.to_nat needed_l3_allocs) 0 [] s;
          match p with
          | (None, s') => Ret (Err OutOfPages, m, s')
          | (Some prealloc_l3, s') =>
              m' ← apply_regions header mair_attr sh l2_table rs prealloc_l3 m;
              Ret (Ok tt, m', s')
          end
      end
  end.
End Map.

(** * Validation and regions *)

Lemma validate_mapping_spec v n :
  0 <= v -> v * 4096 < 2 ^ 64 -> 0 <= n ->
  validate_mapping (v * 4096) n =
    if (n =? 0) || (HeaderPool.MAX_PRACTICAL_PAGES_PER_SET <? n) then ErrorTooManyPages else
    if bool_decide (vidx 39 (v * 4096) = 0 /\ vidx 30 (v * 4096) = 0 /\ (v + n) * 4096 <= USER_VA_END)
    then ValidOk (vidx 21 (v * 4096)) (vidx 12 (v * 4096)) else ErrorOutOfRange.
Proof.
  intros Hv Hv' Hn. unfold validate_mapping, page_table_indices. rewrite !idx_arith by lia.
  destruct (_ || _) eqn:E; [done|]. apply orb_false_iff in E as [E1 E2].
  apply Z.ltb_ge in E2. unfold HeaderPool.MAX_PRACTICAL_PAGES_PER_SET in E2.
  destruct (Z.eqb_spec (vidx 39 (v * 4096)) 0) as [E39|E39]; simpl; [|by rewrite bool_decide_false by tauto].
  destruct (Z.eqb_spec (vidx 30 (v * 4096)) 0) as [E30|E30]; simpl; [|by rewrite bool_decide_false by tauto].
  unfold checked_add64, U64_MAX, PAGE_SIZE, USER_VA_END.
  destruct (Z.leb_spec (v * 4096 + n * 4096) 18446744073709551615) as [L|L];
    [|by rewrite bool_decide_false by lia].
  destruct (Z.ltb_spec 0x40000000 (v * 4096 + n * 4096)) as [L'|L'].
  - by rewrite bool_decide_false by lia.
  - by rewrite bool_decide_true by (split_and!; [done|done|lia]).
Qed.

(** [covers v n off rs]: the regions [rs] cut the pages [v .. v+n-1], whose
    data starts at [off], at the 2 MiB boundaries. *)
Inductive covers : Z -> Z -> Z -> list L2Region -> Prop :=
  | cov_nil v off : covers v 0 off []
  | cov_cons v n off k rs :
      0 < k -> k = Z.min (512 - v mod 512) n -> covers (v + k) (n - k) (off + k) rs ->
      covers v n off (mkL2Region (v / 512) (v mod 512) k off :: rs).

Lemma next_region v k : k = 512 - v mod 512 -> (v + k) / 512 = v / 512 + 1 /\ (v + k) mod 512 = 0.
Proof.
  intros ->. pose proof (Z.div_mod v 512 ltac:(lia)).
  replace (v + (512 - v mod 512)) with ((v / 512 + 1) * 512) by lia.
  by rewrite Z.div_mul, Z.mod_mul by lia.
Qed.

Lemma iter_collect_spec fuel : forall v n off,
  0 <= n < Z.of_nat fuel ->
  exists rs, iter_collect fuel (mkIter (v / 512) (v mod 512) n off) = Ret rs /\ covers v n off rs.
Proof.
  induction fuel as [|fuel IH]; intros v n off Hn; [lia|].
  cbn [iter_collect]. unfold iter_next. simpl. destruct (Z.eqb_spec n 0) as [->|Hne].
  { exists []. split; [done|]. constructor. }
  pose proof (Z.mod_pos_bound v 512 ltac:(lia)). unfold PAGES_PER_L2_REGION.
  set (k := Z.min (512 - v mod 512) n).
  assert (0 < k <= n) as Hkn by (subst k; lia).
  destruct (decide (k = 512 - v mod 512)) as [Hk|Hk].
  - destruct (next_region v k Hk) as [E1 E2].
    destruct (IH (v + k) (n - k) (off + k) ltac:(lia)) as (rs & E & Hc).
    rewrite E1, E2 in E. rewrite E. eexists. split; [done|]. constructor; [lia|done|done].
  - assert (k = n) as Ekn by (subst k; lia). rewrite Ekn, Z.sub_diag.
    destruct fuel as [|fuel]; [lia|]. cbn [iter_collect iter_next it_pages_remaining].
    change (0 =? 0) with true. cbn iota. eexists. split; [done|]. constructor; [lia|subst k; lia|].
    rewrite Z.sub_diag. constructor.
Qed.

Lemma l2_regions_spec v n :
  0 <= n -> exists rs, l2_regions (v / 512) (v mod 512) n = Ret rs /\ covers v n 0 rs.
Proof. intros Hn. apply iter_collect_spec. lia. Qed.

Lemma covers_length v n off rs :
  covers v n off rs -> 0 < n -> Z.of_nat (length rs) = (v + n - 1) / 512 - v / 512 + 1.
Proof.
  induction 1 as [|v n off k rs Hk Hkm Hc IH]; intros Hn; [lia|]. cbn [length].
  pose proof (Z.mod_pos_bound v 512 ltac:(lia)). pose proof (Z.div_mod v 512 ltac:(lia)).
  destruct (decide (n - k = 0)) as [E|E].
  - rewrite E in Hc. inversion Hc; subst; [|lia]. cbn [length].
    assert ((v + n - 1) / 512 = v / 512) as ->; [|lia].
    symmetry. apply Z.div_unique with (v mod 512 + n - 1); lia.
  - destruct (next_region v k ltac:(lia)) as [E1 _]. rewrite Nat2Z.inj_succ, IH, E1 by lia.
    replace (v + k + (n - k) - 1) with (v + n - 1) by lia. lia.
Qed.

Lemma covers_max v n off rs :
  covers v n off rs -> 0 < n <= HeaderPool.MAX_PRACTICAL_PAGES_PER_SET ->
  Z.of_nat (length rs) <= MAX_L2_REGIONS_PER_MAP.
Proof.
  intros Hc [H0 H1]. rewrite (covers_length _ _ _ _ Hc) by done.
  unfold HeaderPool.MAX_PRACTICAL_PAGES_PER_SET, MAX_L2_REGIONS_PER_MAP in *.
  assert ((v + n - 1) / 512 < v / 512 + 33); [|lia]. apply Z.div_lt_upper_bound; [lia|].
  pose proof (Z.div_mod v 512 ltac:(lia)). pose proof (Z.mod_pos_bound v 512 ltac:(lia)). lia.
Qed.

(** The (page, data index) pairs a region writes. *)
Definition region_pages (r : L2Region) : list (Z * Z) :=
  (fun i => (rg_l2_idx r * 512 + rg_l3_start r + i, rg_data_offset r + i)) <$> seqZ 0 (rg_pages_in_region r).

(** The region iterator visits every page of a mapping exactly once, in
    order and inside one L3 table at a time: the pages and data indices its
    regions write are [v, v+1, .. v+n-1] with [0, 1, .. n-1], no region leaves
    its 512-entry table, and a mapping of the largest supported size touches
    at most the 33 regions the kernel reserves frames for. *)
Theorem l2_regions_exact v n :
  0 <= n <= HeaderPool.MAX_PRACTICAL_PAGES_PER_SET ->
  exists rs, l2_regions (v / 512) (v mod 512) n = Ret rs /\
    rs ≫= region_pages = (fun j => (v + j, j)) <$> seqZ 0 n /\
    Forall (fun r => 0 < rg_pages_in_region r /\ 0 <= rg_l3_start r /\
                     rg_l3_start r + rg_pages_in_region r <= 512) rs /\
    Z.of_nat (length rs) <= MAX_L2_REGIONS_PER_MAP.
Proof.
  intros Hn. destruct (l2_regions_spec v n ltac:(lia)) as (rs & E & Hc). exists rs. split; [done|].
  assert (forall off, covers v n off rs ->
    rs ≫= region_pages = (fun j => (v + j, off + j)) <$> seqZ 0 n /\
    Forall (fun r => 0 < rg_pages_in_region r /\ 0 <= rg_l3_start r /\
                     rg_l3_start r + rg_pages_in_region r <= 512) rs) as G.
  { clear Hc E. destruct Hn as [Hn _]. intros off Hc. induction Hc as [v off|v n off k rs Hk Hkm Hc IH]; [done|].
    pose proof (Z.mod_pos_bound v 512 ltac:(lia)). pose proof (Z.div_mod v 512 ltac:(lia)).
    destruct IH as [IH1 IH2]; [lia|]. split.
    - cbn [mbind list_bind]. rewrite IH1. unfold region_pages. simpl.
      replace n with (k + (n - k)) at 2 by lia. rewrite seqZ_app, fmap_app by lia. f_equal.
      + apply list_fmap_ext. intros i x _. f_equal. lia.
      + rewrite Z.add_0_l. replace (seqZ k (n - k)) with (Z.add k <$> seqZ 0 (n - k))
          by (by rewrite fmap_add_seqZ, Z.add_0_r).
        rewrite <- list_fmap_compose.
        apply list_fmap_ext. intros i x _. simpl. f_equal; lia.
    - constructor; [simpl; lia|done]. }
  destruct (G 0 Hc) as [G1 G2]. split_and!; [done|done|].
  destruct (decide (n = 0)) as [->|]; [|apply (covers_max v n 0 rs Hc); lia].
  inversion Hc; subst; simpl; unfold MAX_L2_REGIONS_PER_MAP; lia.
Qed.

Lemma l2_regions_exact_witness :
  exists rs, l2_regions (510 / 512) (510 mod 512) 600 = Ret rs /\ length rs = 3%nat.
Proof.
  destruct (l2_regions_exact 510 600) as (rs & E & _ & _ & _).
  { unfold HeaderPool.MAX_PRACTICAL_PAGES_PER_SET. lia. }
  exists rs. split; [done|]. vm_compute in E. by injection E as <-.
Defined.

(** * Changing a family of address spaces *)

(** What the space at root [r] maps at page [u]. *)
Definition sview (m : gmap Z Z) (S : gmap Z AS) (r u : Z) : option Z :=
  match S !! r with Some a => as_view m a u | None => None end.

Lemma view_upd_sview m m' S r a f r' u :
  S !! r = Some a -> view_upd m m' S r f ->
  sview m' S r' u = if decide (r' = r) then f u else sview m S r' u.
Proof.
  intros Hr Hv. unfold sview. destruct (S !! r') as [a'|] eqn:E.
  - by apply Hv.
  - rewrite decide_False by congruence. done.
Qed.

Lemma foldr_zero_peek m p l x :
  arr_peek (foldr (fun i m' => <[p + i * 8 := 0]> m') m l) x =
  if decide (Exists (fun i => p + i * 8 = x) l) then 0 else arr_peek m x.
Proof.
  induction l as [|i l IH]; cbn [foldr].
  - rewrite decide_False; [done|]. by intros ?%Exists_nil.
  - rewrite arr_peek_insert, IH. destruct (decide (p + i * 8 = x)) as [E|E].
    + rewrite decide_True; [done|]. by apply Exists_cons_hd.
    + destruct (decide (Exists (fun i => p + i * 8 = x) l)) as [Hl|Hl].
      * rewrite decide_True; [done|]. by apply Exists_cons_tl.
      * rewrite decide_False; [done|]. rewrite Exists_cons. tauto.
Qed.

Lemma zero_table_peek m p q i :
  page_addr p -> page_addr q -> 0 <= i < 512 ->
  arr_peek (zero_table m p) (q + i * 8) = if decide (q = p) then 0 else arr_peek m (q + i * 8).
Proof.
  intros Hp Hq Hi. unfold zero_table. rewrite foldr_zero_peek. destruct (decide (q = p)) as [->|Hne].
  - rewrite decide_True; [done|]. apply Exists_exists. exists i. rewrite elem_of_seqZ. split; [lia|done].
  - rewrite decide_False; [done|]. rewrite Exists_exists. intros (j & Hj%elem_of_seqZ & E).
    by destruct (word_inj p q j i Hp Hq ltac:(lia) Hi E).
Qed.

(** [a] with the L3 table [p] at L2 index [k]. *)
Definition add_l3 (a : AS) (k p : Z) : AS :=
  mkAS (as_l1 a) (as_l2 a) (fun j => if decide (j = k) then Some p else as_l3 a j).

Lemma add_l3_page r a k p q : as_l3 a k = None -> as_page r (add_l3 a k p) q <-> as_page r a q \/ q = p.
Proof.
  intros Hk. unfold as_page, add_l3. simpl. split.
  - intros [|[|[|(j & Hj)]]]; try tauto. case_decide; [right; congruence|]. left. do 3 right. by exists j.
  - intros [[|[|[|(j & Hj)]]]| ->]; try tauto.
    + do 3 right. exists j. rewrite decide_False by congruence. done.
    + do 3 right. exists k. by rewrite decide_True.
Qed.

Lemma install_l3 m S r a k p :
  spaces_ok m S -> S !! r = Some a -> 0 <= k < 512 -> as_l3 a k = None -> page_addr p ->
  (forall r' a', S !! r' = Some a' -> ~ as_page r' a' p) ->
  forall m', m' = <[as_l2 a + k * 8 := new_table p]> (zero_table m p) ->
  spaces_ok m' (<[r := add_l3 a k p]> S) /\
  forall r' u, sview m' (<[r := add_l3 a k p]> S) r' u = sview m S r' u.
Proof.
  intros [Ho Hs] Hr Hk Hn Hp Hfresh m' Em'. pose proof (Ho r a Hr) as Ha. pose proof (Hfresh r a Hr) as Hpr.
  assert (page_addr (as_l2 a)) as P2 by (eapply as_page_addr; [done|]; do 2 right; by left).
  assert (forall q i, page_addr q -> 0 <= i < 512 -> arr_peek m' (q + i * 8) =
    if decide (q = as_l2 a /\ i = k) then new_table p else if decide (q = p) then 0 else arr_peek m (q + i * 8)) as Pk.
  { intros q i Hq Hi. rewrite Em', arr_peek_insert, zero_table_peek by done.
    destruct (decide (as_l2 a + k * 8 = q + i * 8)) as [E|E].
    - destruct (word_inj _ _ _ _ P2 Hq Hk Hi E) as [-> ->]. by rewrite decide_True.
    - rewrite (decide_False (P := q = as_l2 a /\ i = k)); [done|]. intros [-> ->]. by apply E. }
  clear Em'. assert (forall r' a' q i, S !! r' = Some a' -> as_page r' a' q -> 0 <= i < 512 ->
    ~ (q = as_l2 a /\ i = k) -> arr_peek m' (q + i * 8) = arr_peek m (q + i * 8)) as Keep.
  { intros r' a' q i Hr' Hq Hi Hne. rewrite Pk, decide_False, decide_False; [done| |done| |done].
    - intros ->. by apply (Hfresh r' a').
    - eapply as_page_addr; [by apply Ho|done]. }
  destruct (ao_upper _ _ _ Ha) as (U1 & U2 & U3). split.
  - constructor.
    + intros r' a' [[<- <-]|[Hne Hr']]%lookup_insert_Some.
      2:{ apply (as_frame m); [by apply Ho|]. intros q i Hq Hi. right. apply (Keep r' a'); try done.
          intros [-> _]. apply Hne. apply (Hs r r' a a' (as_l2 a)); try done. do 2 right. by left. }
      pose proof (Keep r a r 0 Hr ltac:(by left) ltac:(lia) ltac:(tauto)) as K0.
      pose proof (Keep r a (as_l1 a) 0 Hr ltac:(by right; left) ltac:(lia) ltac:(tauto)) as K1.
      rewrite !Z.add_0_r in K0, K1. constructor; cbn [add_l3 as_l1 as_l2 as_l3].
      * apply Ha.
      * rewrite K0. apply Ha.
      * intros j Hj. rewrite (Keep r a); [by apply Ha|done|by left|lia|tauto].
      * rewrite K1. apply Ha.
      * intros j Hj. rewrite (Keep r a); [by apply Ha|done|by right; left|lia|tauto].
      * intros j Hj. destruct (decide (j = k)) as [->|Hjk].
        -- rewrite Pk, decide_True by done. destruct (new_table_fields p) as [-> ->]. by rewrite output_page.
        -- rewrite (Keep r a); [by apply Ha|done|do 2 right; by left|lia|tauto].
      * intros j q. case_decide; [lia|]. apply Ha.
      * done.
      * intros j q. case_decide; [|by apply Ha]. intros [= <-]. split_and!; intros ->; apply Hpr; unfold as_page; tauto.
      * intros j j' q. repeat case_decide; try congruence; [| |apply Ha].
        -- intros [= <-] Hj'. exfalso. apply Hpr. do 3 right. by exists j'.
        -- intros Hj [= <-]. exfalso. apply Hpr. do 3 right. by exists j.
    + assert (forall r0 a0 q, <[r := add_l3 a k p]> S !! r0 = Some a0 -> as_page r0 a0 q ->
        (q = p /\ r0 = r) \/ exists a1, S !! r0 = Some a1 /\ as_page r0 a1 q) as Hpg.
      { intros r0 a0 q [[<- <-]|[Hne Hr0]]%lookup_insert_Some Hq; [|right; by exists a0].
        apply add_l3_page in Hq as [Hq| ->]; [right; by exists a|by left|done]. }
      intros r1 r2 a1 a2 q H1 H2 Q1 Q2. destruct (Hpg _ _ _ H1 Q1) as [[E1 F1]|(b1 & B1 & Q1')],
        (Hpg _ _ _ H2 Q2) as [[E2 F2]|(b2 & B2 & Q2')].
      * congruence.
      * rewrite E1 in Q2'. exfalso. exact (Hfresh r2 b2 B2 Q2').
      * rewrite E2 in Q1'. exfalso. exact (Hfresh r1 b1 B1 Q1').
      * exact (Hs r1 r2 b1 b2 q B1 B2 Q1' Q2').
  - intros r' u. unfold sview. destruct (decide (r' = r)) as [->|Hne].
    + rewrite lookup_insert_eq, Hr. unfold as_view. simpl. destruct (decide (u / 512 = k)) as [->|Hu].
      * rewrite Hn, Pk; [|done|apply Z.mod_pos_bound; lia]. rewrite decide_False, decide_True; [done|done|].
        intros [-> _]. apply Hpr. do 2 right. by left.
      * destruct (as_l3 a (u / 512)) as [q|] eqn:Hq; [|done].
        rewrite (Keep r a); [done|done|do 3 right; by eexists|apply Z.mod_pos_bound; lia|].
        intros [-> _]. by destruct (ao_lower _ _ _ Ha _ _ Hq) as (? & ? & ?).
    + rewrite lookup_insert_ne by done. destruct (S !! r') as [a'|] eqn:Hr'; [|done]. unfold as_view.
      destruct (as_l3 a' (u / 512)) as [q|] eqn:Hq; [|done].
      rewrite (Keep r' a'); [done|done|do 3 right; by eexists|apply Z.mod_pos_bound; lia|].
      intros [-> _]. apply Hne. symmetry. apply (Hs r r' a a' (as_l2 a)); try done; [do 2 right; by left|].
      do 3 right. by eexists.
Qed.

(** * The three passes *)

Lemma entry_get_in m t i : 0 <= i < 512 -> entry_get m t i = Ret (arr_peek m (t + i * 8)).
Proof. intros Hi. unfold entry_get. by zcmp. Qed.

Lemma entry_set_in m t i e : 0 <= i < 512 -> entry_set m t i e = Ret (<[t + i * 8 := e]> m).
Proof. intros Hi. unfold entry_set. by zcmp. Qed.

Lemma user_page_fields phys attr s :
  is_valid (build_user_page phys attr s) = true /\ output_addr (build_user_page phys attr s) = output_addr phys.
Proof.
  unfold build_user_page. destruct (with_xn_fields (new_page phys attr AP_RW_ALL s)) as [-> Ht].
  destruct (new_page_flags phys attr AP_RW_ALL s) as [Hn _]. rewrite output_new_page. split; [|done].
  rewrite Hn in Ht. by apply table_valid.
Qed.

(** In a well-formed space an L2 slot is empty or has its L3 table. *)
Lemma classify_as m r a k :
  as_ok m r a -> 0 <= k < 512 ->
  map_action_for_l2 (classify_l2_entry (arr_peek m (as_l2 a + k * 8))) =
  match as_l3 a k with Some _ => UseExistingL3 | None => AllocateL3 end.
Proof.
  intros Ha Hk. pose proof (ao_l2 _ _ _ Ha k Hk) as H2. unfold classify_l2_entry.
  destruct (as_l3 a k) as [p|]; [by destruct H2 as [-> _]|].
  by rewrite is_table_bits, <- is_valid_bit, H2.
Qed.

(** The regions whose L3 table is missing. *)
Definition missing (a : AS) (rs : list L2Region) : list L2Region :=
  filter (fun r => as_l3 a (rg_l2_idx r) = None) rs.

Lemma covers_idx v n off rs :
  covers v n off rs -> 0 <= v -> v + n <= 2 ^ 18 -> Forall (fun r => v / 512 <= rg_l2_idx r < 512) rs.
Proof.
  induction 1 as [|v n off k rs Hk Hkm Hc IH]; intros Hv Hn; constructor.
  - simpl. split; [lia|]. apply Z.div_lt_upper_bound; lia.
  - eapply Forall_impl; [apply IH; lia|]. intros r. simpl.
    assert (v / 512 <= (v + k) / 512) by (apply Z.div_le_mono; lia). lia.
Qed.

Lemma classify_regions_spec m r a rs : forall needed,
  as_ok m r a -> Forall (fun rg => 0 <= rg_l2_idx rg < 512) rs ->
  classify_regions m (as_l2 a) rs needed = Ret (Ok (needed + Z.of_nat (length (missing a rs)))).
Proof.
  induction rs as [|rg rs IH]; intros needed Ha Hf; cbn [classify_regions].
  - unfold missing. simpl. by rewrite Z.add_0_r.
  - apply Forall_cons in Hf as [Hi Hf]. rewrite entry_get_in, bind_Ret, (classify_as m r) by done.
    unfold missing. rewrite filter_cons. destruct (as_l3 a (rg_l2_idx rg)) as [p|] eqn:E.
    + rewrite decide_False by congruence. by apply IH.
    + rewrite decide_True by done. cbn [length]. rewrite IH by done. do 2 f_equal. unfold missing. lia.
Qed.

Section Passes.
Context {M : Type} `{FrameLaws M Held}.

Lemma prealloc_spec n : forall i pre K s,
  Held (K ∪ list_to_set pre) s -> NoDup pre -> (forall p, p ∈ pre -> ~ (p ∈ K) /\ 0 <= p < 2 ^ 36) ->
  0 <= i -> i + Z.of_nat n <= MAX_L2_REGIONS_PER_MAP ->
  exists o s', prealloc n i pre s = Ret (o, s') /\
    match o with
    | Some L => length L = (length pre + n)%nat /\ NoDup L /\
        (forall p, p ∈ L -> ~ (p ∈ K) /\ 0 <= p < 2 ^ 36) /\ Held (K ∪ list_to_set L) s'
    | None => Held K s'
    end.
Proof.
  induction n as [|n IH]; intros i pre K s Hh Hnd Hp Hi Hn; cbn [prealloc].
  { exists (Some pre), s. split; [done|]. split_and!; [lia|done|done|done]. }
  destruct (fr_alloc_law _ s Hh) as (r & s' & -> & Hr). rewrite bind_Ret. simpl. destruct r as [p|].
  - destruct Hr as (Hpn & Hpr & Hh'). rewrite (proj2 (Z.ltb_lt _ _)) by lia.
    destruct (IH (i + 1) (pre ++ [p]) K s') as (o & s2 & E & Ho).
    + rewrite list_to_set_app_L. cbn [list_to_set]. by rewrite union_empty_r_L, (union_assoc_L K).
    + apply NoDup_app. split_and!; [done| |apply NoDup_singleton].
      intros x Hx ->%list_elem_of_singleton. apply Hpn. apply elem_of_union_r. by apply elem_of_list_to_set.
    + intros x [Hx| ->%list_elem_of_singleton]%elem_of_app; [by apply Hp|]. split; [|done].
      intros Hk. apply Hpn. by apply elem_of_union_l.
    + lia.
    + lia.
    + exists o, s2. split; [done|]. destruct o as [L|]; [|done].
      rewrite length_app in Ho. simpl in Ho. destruct Ho as (Hl & Ho). split; [lia|done].
  - subst s'. destruct (dealloc_all_spec pre K s Hh Hnd) as (s' & -> & Hh'); [by intros; apply Hp|].
    exists None, s'. done.
Qed.

(** The table pages of the spaces are frames the kernel holds. *)
Definition tables_held (K : gset Z) (S : gmap Z AS) : Prop :=
  forall r a q, S !! r = Some a -> as_page r a q -> q / 4096 ∈ K.
End Passes.

Lemma start_addr_page p : 0 <= p < 2 ^ 36 -> start_addr p = p * 4096 /\ page_addr (start_addr p).
Proof.
  intros Hp. assert (start_addr p = p * 4096) as ->.
  { unfold start_addr, PAGE_SHIFT, wrap. rewrite Z.shiftl_mul_pow2 by lia. apply Z.mod_small. lia. }
  split; [done|]. split; [lia|]. by apply Z.mod_mul.
Qed.

(** Page [j] of the mapped PageSet. *)
Definition pg (b : Hdr.BackedHeader) (j : Z) : Z := arr_peek (h_pages (Hdr.bk_header b)) j.

(** Pages [v .. v+n-1] of the space [r] now map the data from [off] on. *)
Definition mapped_range (b : Hdr.BackedHeader) (m m' : gmap Z Z) (S S' : gmap Z AS) (r v n off : Z) : Prop :=
  forall r' u, sview m' S' r' u =
    if decide (r' = r /\ v <= u < v + n) then Some (output_addr (pg b (off + (u - v)))) else sview m S r' u.

Lemma write_region_spec b mair sh m S r a t v k off :
  spaces_ok m S -> S !! r = Some a -> as_l3 a (v / 512) = Some t -> Hdr.backed_ok b ->
  0 <= off -> 0 <= k -> v mod 512 + k <= 512 -> off + k <= Hdr.bk_count b ->
  exists m', for_range 0 (Z.to_nat k) (write_entry b mair sh t (mkL2Region (v / 512) (v mod 512) k off)) m = Ret m' /\
    spaces_ok m' S /\ mapped_range b m m' S S r v k off.
Proof.
  intros Hs Hr Ht Hb Ho Hk Hvk Hok. pose proof (Z.mod_pos_bound v 512 ltac:(lia)) as Hm.
  pose proof (Z.div_mod v 512 ltac:(lia)) as Hdm.
  destruct (for_range_inv (fun j m' => spaces_ok m' S /\ mapped_range b m m' S S r v j off)
    (write_entry b mair sh t (mkL2Region (v / 512) (v mod 512) k off)) (Z.to_nat k) 0 m) as (m' & E & H').
  - split; [done|]. intros r' u. by rewrite decide_False by lia.
  - intros j mj Hj [Hsj Hvj]. unfold write_entry. simpl.
    rewrite Hdr.get_page_spec, bind_Ret, (proj2 (Z.ltb_lt _ _)) by (done || lia). cbn [unwrap].
    rewrite bind_Ret, entry_set_in by lia. eexists. split; [done|].
    destruct (spaces_write mj S r a (v / 512) t (v mod 512 + j)
      (build_user_page (arr_peek (h_pages (Hdr.bk_header b)) (off + j)) mair sh) Hsj Hr Ht) as [Hs2 Hv2]; [lia|].
    split; [done|]. intros r' u. rewrite (view_upd_sview _ _ _ _ _ _ r' u Hr Hv2).
    destruct (user_page_fields (arr_peek (h_pages (Hdr.bk_header b)) (off + j)) mair sh) as [-> ->].
    replace (v / 512 * 512 + (v mod 512 + j)) with (v + j) by lia. destruct (decide (r' = r)) as [->|Hne].
    + destruct (decide (u = v + j)) as [->|Hu].
      * rewrite decide_True by lia. unfold pg. do 3 f_equal. lia.
      * pose proof (Hvj r u) as Hvu. unfold sview in Hvu at 1. rewrite Hr in Hvu. rewrite Hvu.
        destruct (decide (r = r /\ v <= u < v + j)); [rewrite decide_True by lia|rewrite decide_False by lia]; done.
    + rewrite (Hvj r' u), !decide_False by tauto. done.
  - exists m'. rewrite Z.add_0_l, Z2Nat.id in H' by lia. split; [done|]. exact H'.
Qed.

(** The frames [L] are pages no space uses. *)
Definition fresh_frames (S : gmap Z AS) (L : list Z) : Prop :=
  NoDup L /\ forall p, p ∈ L -> 0 <= p < 2 ^ 36 /\ forall r a, S !! r = Some a -> ~ as_page r a (p * 4096).

(** [a'] is [a] with the frames [U] installed as new L3 tables. *)
Record grown (r : Z) (a a' : AS) (U : list Z) : Prop := {
  gr_l2 : as_l2 a' = as_l2 a;
  gr_mono : forall k q, as_l3 a k = Some q -> as_l3 a' k = Some q;
  gr_page : forall q, as_page r a' q -> as_page r a q \/ exists p, p ∈ U /\ q = p * 4096;
  gr_new : forall p, p ∈ U -> exists k, as_l3 a k = None /\ as_l3 a' k = Some (p * 4096);
}.

Lemma grown_refl r a : grown r a a [].
Proof. constructor; auto. by intros p ?%elem_of_nil. Qed.

Lemma grown_trans r a a1 a2 U V : grown r a a1 U -> grown r a1 a2 V -> grown r a a2 (U ++ V).
Proof.
  intros [L1 M1 P1 N1] [L2 M2 P2 N2]. constructor.
  - congruence.
  - intros k q Hk. by apply M2, M1.
  - intros q Hq. destruct (P2 q Hq) as [Hq'|(p & Hp & ->)].
    + destruct (P1 q Hq') as [|(p & Hp & ->)]; [by left|]. right. exists p. split; [|done]. apply elem_of_app. by left.
    + right. exists p. split; [|done]. apply elem_of_app. by right.
  - intros p [Hp|Hp]%elem_of_app.
    + destruct (N1 p Hp) as (k & Hk & Hk'). exists k. split; [done|]. by apply M2.
    + destruct (N2 p Hp) as (k & Hk & Hk'). exists k. split; [|done].
      destruct (as_l3 a k) as [q|] eqn:E; [|done]. apply M1 in E. congruence.
Qed.

Lemma grown_add r a k p : as_l3 a k = None -> grown r a (add_l3 a k (p * 4096)) [p].
Proof.
  intros Hk. constructor; simpl.
  - done.
  - intros j q Hj. by rewrite decide_False by congruence.
  - intros q Hq. apply add_l3_page in Hq as [|Hq]; [by left| |done]. right. exists p. split; [|done].
    by apply list_elem_of_singleton.
  - intros q ->%list_elem_of_singleton. exists k. by rewrite decide_True.
Qed.

Lemma mapped_range_app b m m1 m2 S S1 S2 r v k n off :
  0 <= k <= n ->
  mapped_range b m m1 S S1 r v k off -> mapped_range b m1 m2 S1 S2 r (v + k) (n - k) (off + k) ->
  mapped_range b m m2 S S2 r v n off.
Proof.
  intros Hk H1 H2 r' u. rewrite (H2 r' u). destruct (decide (r' = r)) as [->|Hne].
  - destruct (decide (r = r /\ v + k <= u < v + k + (n - k))) as [L|L].
    + rewrite decide_True by lia. do 3 f_equal. lia.
    + rewrite (H1 r u). destruct (decide (r = r /\ v <= u < v + k)); [by rewrite decide_True by lia|].
      by rewrite decide_False by lia.
  - rewrite decide_False by tauto. rewrite (H1 r' u). by rewrite !decide_False by tauto.
Qed.

Lemma missing_add a k p rs :
  Forall (fun r => rg_l2_idx r <> k) rs -> missing (add_l3 a k p) rs = missing a rs.
Proof.
  unfold missing. induction 1 as [|x rs Hx Hrs IH]; [done|]. rewrite !filter_cons, IH.
  simpl. by rewrite (decide_False (P := rg_l2_idx x = k)).
Qed.

(** One region: its L3 table is there or is installed, its entries written. *)
Lemma region_spec b mair sh m S r a v k off rs L :
  spaces_ok m S -> S !! r = Some a -> Hdr.backed_ok b -> 0 <= v -> v < 2 ^ 18 ->
  0 <= off -> 0 < k -> v mod 512 + k <= 512 -> off + k <= Hdr.bk_count b ->
  let rg := mkL2Region (v / 512) (v mod 512) k off in
  length L = length (missing a (rg :: rs)) -> fresh_frames S L ->
  Forall (fun r => rg_l2_idx r <> v / 512) rs ->
  exists a1 U L1 m1, apply_regions b mair sh (as_l2 a) (rg :: rs) L m = apply_regions b mair sh (as_l2 a) rs L1 m1 /\
    spaces_ok m1 (<[r := a1]> S) /\ mapped_range b m m1 S (<[r := a1]> S) r v k off /\
    grown r a a1 U /\ length L1 = length (missing a1 rs) /\ L = U ++ L1 /\ fresh_frames (<[r := a1]> S) L1.
Proof.
  intros Hs Hr Hb Hv Hv2 Hoff Hk Hvk Hok rg HL HfL Hrest. pose proof (so_as _ _ Hs r a Hr) as Ha.
  assert (0 <= v / 512 < 512) as Hi by (split; [apply Z.div_pos|apply Z.div_lt_upper_bound]; lia).
  subst rg. cbn [apply_regions rg_l2_idx rg_pages_in_region].
  rewrite entry_get_in, bind_Ret, (classify_as m r) by done.
  unfold missing in HL. rewrite filter_cons in HL. cbn [rg_l2_idx] in HL.
  destruct (as_l3 a (v / 512)) as [t|] eqn:Et.
  - rewrite decide_False in HL by congruence. rewrite bind_Ret.
    pose proof (ao_l2 _ _ _ Ha _ Hi) as H2. rewrite Et in H2. destruct H2 as [_ ->].
    destruct (write_region_spec b mair sh m S r a t v k off) as (m1 & E & Hs1 & Hv1); try done; try lia.
    rewrite E, bind_Ret. exists a, [], L, m1.
    rewrite insert_id by done. split_and!; try done. apply grown_refl.
  - rewrite decide_True in HL by done. destruct L as [|p L]; [done|]. cbn [length] in HL.
    destruct HfL as [Hnd HfL]. apply NoDup_cons in Hnd as [HpL Hnd].
    destruct (HfL p ltac:(set_solver)) as [Hp Hfr]. destruct (start_addr_page p Hp) as [Esa Hpa].
    rewrite entry_set_in, !bind_Ret by done.
    destruct (install_l3 m S r a (v / 512) (start_addr p) Hs Hr Hi Et Hpa) with
      (m' := <[as_l2 a + v / 512 * 8 := new_table (start_addr p)]> (zero_table m (start_addr p))) as [Hs1 Hv1];
      [by rewrite Esa|done|].
    set (m0 := <[as_l2 a + v / 512 * 8 := new_table (start_addr p)]> (zero_table m (start_addr p))) in *.
    clearbody m0. set (a1 := add_l3 a (v / 512) (start_addr p)) in *.
    destruct (write_region_spec b mair sh m0 (<[r := a1]> S) r a1 (start_addr p) v k off) as (m1 & E & Hs2 & Hv2');
      try done; try lia; [by rewrite lookup_insert_eq|subst a1; simpl; by rewrite decide_True|].
    rewrite E, bind_Ret. exists a1, [p], L, m1. split_and!; try done.
    + intros r' u. rewrite (Hv2' r' u). by rewrite Hv1.
    + subst a1. rewrite Esa. by apply grown_add.
    + injection HL as ->. subst a1. by rewrite missing_add.
    + split; [done|]. intros q Hq. destruct (HfL q ltac:(set_solver)) as [Hq1 Hq2]. split; [done|].
      intros r' a' [[<- <-]|[Hne Hr']]%lookup_insert_Some Hpg; [|by eapply Hq2].
      apply add_l3_page in Hpg as [Hpg|Hpg]; [by eapply Hq2| |done].
      rewrite Esa in Hpg. assert (q = p) as -> by lia. done.
Qed.

Lemma apply_regions_spec b mair sh r v n off rs :
  covers v n off rs -> forall L m S a,
  spaces_ok m S -> S !! r = Some a -> Hdr.backed_ok b -> 0 <= v -> 0 <= n -> v + n <= 2 ^ 18 ->
  0 <= off -> off + n <= Hdr.bk_count b -> length L = length (missing a rs) -> fresh_frames S L ->
  exists m' a', apply_regions b mair sh (as_l2 a) rs L m = Ret m' /\ spaces_ok m' (<[r := a']> S) /\
    mapped_range b m m' S (<[r := a']> S) r v n off /\ grown r a a' L.
Proof.
  induction 1 as [v off|v n off k rs Hk Hkm Hc IH]; intros L m S a Hs Hr Hb Hv Hn Hvn Hoff Hcnt HL HfL.
  - destruct L; [|done]. exists m, a. rewrite insert_id by done. split_and!; try done; [|apply grown_refl].
    intros r' u. by rewrite decide_False by lia.
  - pose proof (Z.mod_pos_bound v 512 ltac:(lia)) as Hmod.
    assert (Forall (fun r => rg_l2_idx r <> v / 512) rs) as Hrest.
    { destruct (decide (n - k = 0)) as [E|E]; [rewrite E in Hc; inversion Hc; [constructor|lia]|].
      destruct (next_region v k ltac:(lia)) as [Ed _].
      eapply Forall_impl; [apply (covers_idx _ _ _ _ Hc); lia|]. intros x. simpl. lia. }
    destruct (region_spec b mair sh m S r a v k off rs L) 
      as (a1 & U & L1 & m1 & -> & Hs1 & Hm1 & Hg1 & HL1 & -> & Hf1);
      try done; try lia.
    destruct (IH L1 m1 (<[r := a1]> S) a1) as (m' & a' & E & Hs' & Hm' & Hg); try done; try lia;
      [by rewrite lookup_insert_eq|].
    rewrite (gr_l2 _ _ _ _ Hg1) in E. exists m', a'. rewrite insert_insert_eq in Hs', Hm'. split_and!; try done.
    + eapply mapped_range_app; [|exact Hm1|exact Hm']. lia.
    + by eapply grown_trans.
Qed.

Lemma map_walk_spec m r a v n :
  as_ok m r a -> 0 <= v -> v * 4096 < 2 ^ 64 -> 0 <= n ->
  (let (w, res) := map_start r (v * 4096) n in map_walk_loop 4 m w res) =
  Ret (if decide (0 < n <= HeaderPool.MAX_PRACTICAL_PAGES_PER_SET /\ v + n <= 2 ^ 18)
       then Ok (as_l2 a, v / 512, v mod 512) else Err TooManyMappings).
Proof.
  intros Ha Hv Hv' Hn. unfold map_start. rewrite validate_mapping_spec by done.
  unfold HeaderPool.MAX_PRACTICAL_PAGES_PER_SET.
  destruct (Z.eqb_spec n 0) as [->|Hn0]; [by rewrite decide_False by lia|].
  destruct (Z.ltb_spec 16384 n); [by rewrite decide_False by lia|]. simpl orb. cbn iota.
  destruct (decide (v + n <= 2 ^ 18)) as [Hin|Hout].
  - destruct (proj2 (low_page v Hv ltac:(lia)) ltac:(lia)) as [E39 E30].
    rewrite bool_decide_true, decide_True by (unfold USER_VA_END; split_and!; done || lia).
    destruct (low_vidx v ltac:(lia)) as (-> & -> & _).
    destruct (ao_l0 _ _ _ Ha) as [T0 O0]. destruct (ao_l1 _ _ _ Ha) as [T1 O1].
    cbn [map_walk_loop map_step mw_level]. rewrite Z.mul_0_l, Z.add_0_r, T0, O0.
    cbn [negb map_step mw_level mw_l2_idx mw_l3_start mw_l2_table_paddr]. by rewrite Z.add_0_r, T1, O1.
  - rewrite bool_decide_false, decide_False by (unfold USER_VA_END; lia). done.
Qed.

(** The whole operation. *)
Lemma map_pages_spec {M} `{FrameLaws M Held} m S r a K s v header attr :
  spaces_ok m S -> S !! r = Some a -> Held K s -> tables_held K S -> Hdr.backed_ok header ->
  0 <= v -> v * 4096 < 2 ^ 64 ->
  exists res m' s', map_pages_in_existing m s r (v * 4096) header attr = Ret (res, m', s') /\
  match res with
  | Ok _ =>
      v + Hdr.bk_count header <= 2 ^ 18 /\
      exists a' L, spaces_ok m' (<[r := a']> S) /\ Held (K ∪ list_to_set L) s' /\
        tables_held (K ∪ list_to_set L) (<[r := a']> S) /\
        mapped_range header m m' S (<[r := a']> S) r v (Hdr.bk_count header) 0 /\
        NoDup L /\ (forall p, p ∈ L -> ~ (p ∈ K) /\ exists k, as_l3 a k = None /\ as_l3 a' k = Some (p * 4096)) /\
        Z.of_nat (length L) <= MAX_L2_REGIONS_PER_MAP /\
        (forall q, as_page r a' q -> as_page r a q \/ exists p, p ∈ L /\ q = p * 4096)
  | Err e =>
      m' = m /\ Held K s' /\
      (e = TooManyMappings /\ 2 ^ 18 < v + Hdr.bk_count header \/ e = OutOfPages)
  end.
Proof.
  intros Hs Hr Hh Ht Hb Hv Hv'. pose proof (so_as _ _ Hs r a Hr) as Ha. pose proof Hb as [Hc _].
  unfold map_pages_in_existing. pose proof (map_walk_spec m r a v (Hdr.bk_count header) Ha Hv Hv' ltac:(lia)) as Hw.
  destruct (map_start r (v * 4096) (Hdr.bk_count header)) as [w res0]. rewrite Hw, bind_Ret. clear Hw.
  destruct (decide (0 < Hdr.bk_count header <= HeaderPool.MAX_PRACTICAL_PAGES_PER_SET /\
    v + Hdr.bk_count header <= 2 ^ 18)) as [[_ Hin]|Hout].
  2:{ exists (Err TooManyMappings), m, s. split_and!; try done. left. split; [done|lia]. }
  destruct (select_attrs attr) as [mair sh].
  destruct (l2_regions_spec v (Hdr.bk_count header) ltac:(lia)) as (rs & -> & Hcov). rewrite bind_Ret.
  rewrite (classify_regions_spec m r a), bind_Ret; [|done|].
  2:{ eapply Forall_impl; [apply (covers_idx _ _ _ _ Hcov Hv Hin)|]. simpl.
      assert (0 <= v / 512) by (apply Z.div_pos; lia). intros x. lia. }
  assert (length (missing a rs) <= length rs)%nat as Hml by apply length_filter.
  pose proof (covers_max _ _ _ _ Hcov Hc) as Hmax.
  rewrite Z.add_0_l, Nat2Z.id.
  destruct (prealloc_spec (length (missing a rs)) 0 [] K s) as (o & s' & -> & Ho); try lia; [|constructor|set_solver|].
  { cbn [list_to_set]. by rewrite union_empty_r_L. }
  rewrite bind_Ret. destruct o as [L|].
  2:{ exists (Err OutOfPages), m, s'. split_and!; try done. by right. }
  destruct Ho as (HL & Hnd & Hfr & Hh').
  assert (fresh_frames S L) as HfL.
  { split; [done|]. intros p Hp. destruct (Hfr p Hp) as [HpK Hpr]. split; [done|]. intros r' a' Hr' Hpg.
    apply HpK. replace p with (p * 4096 / 4096) by (by rewrite Z.div_mul). by eapply Ht. }
  destruct (apply_regions_spec header mair sh r v (Hdr.bk_count header) 0 rs Hcov L m S a)
    as (m' & a' & -> & Hs' & Hm' & Hg); try done; try lia.
  simpl in HL. rewrite bind_Ret. exists (Ok tt), m', s'. split; [done|]. split; [done|]. exists a', L.
  split_and!; try done; [| |lia|apply (gr_page _ _ _ _ Hg)].
  2:{ intros p Hp. split; [by apply Hfr|]. by apply (gr_new _ _ _ _ Hg). }
  intros r' b q [[<- <-]|[Hne Hr']]%lookup_insert_Some Hq.
  - destruct (gr_page _ _ _ _ Hg q Hq) as [Hq'|(p & Hp & ->)].
    + apply elem_of_union_l. by eapply Ht.
    + apply elem_of_union_r. rewrite Z.div_mul by lia. by apply elem_of_list_to_set.
  - apply elem_of_union_l. by eapply Ht.
Qed.

(** C17: Mapping a PageSet into an address space is all or nothing. On
    separate address spaces whose table pages the kernel holds,
    [map_pages_in_existing] never panics. It succeeds only inside the user
    range; then the requested pages of that address space map the PageSet's
    frames in order, every other page of it and every other address space map
    what they did before, and the frames added to those the kernel holds are
    exactly the new L3 tables, at most 33. On an error, a request outside the
    range or no frame left, the tables are unchanged and every frame taken is
    given back. *)
Theorem map_pages_transactional {M} `{FrameLaws M Held} m S r a K s v header attr :
  spaces_ok m S -> S !! r = Some a -> Held K s -> tables_held K S -> Hdr.backed_ok header ->
  0 <= v -> v * 4096 < 2 ^ 64 ->
  exists res m' s', map_pages_in_existing m s r (v * 4096) header attr = Ret (res, m', s') /\
  match res with
  | Ok _ =>
      v + Hdr.bk_count header <= 2 ^ 18 /\
      exists a' L, spaces_ok m' (<[r := a']> S) /\ Held (K ∪ list_to_set L) s' /\
        tables_held (K ∪ list_to_set L) (<[r := a']> S) /\
        mapped_range header m m' S (<[r := a']> S) r v (Hdr.bk_count header) 0 /\
        NoDup L /\ (forall p, p ∈ L -> ~ (p ∈ K) /\ exists k, as_l3 a k = None /\ as_l3 a' k = Some (p * 4096)) /\
        Z.of_nat (length L) <= MAX_L2_REGIONS_PER_MAP /\
        (forall q, as_page r a' q -> as_page r a q \/ exists p, p ∈ L /\ q = p * 4096)
  | Err e =>
      m' = m /\ Held K s' /\
      (e = TooManyMappings /\ 2 ^ 18 < v + Hdr.bk_count header \/ e = OutOfPages)
  end.
Proof. apply map_pages_spec. Qed.

(** A frame source that hands out increasing frame numbers. *)
Definition bump_ops : FrameOps Z :=
  {| fr_alloc_page := fun s => Ret (if s <? 2 ^ 36 then (Some s, s + 1) else (None, s));
     fr_dealloc_page := fun s _ => Ret s |}.
Definition bump_held (K : gset Z) (s : Z) : Prop := 0 <= s /\ forall p, p ∈ K -> p < s.

Lemma bump_laws : @FrameLaws Z bump_ops bump_held.
Proof.
  constructor.
  - intros K s [Hs HK]. simpl. destruct (Z.ltb_spec s (2 ^ 36)); do 2 eexists; (split; [done|]); simpl; [|done].
    split_and!; [intros ?%HK; lia|lia|lia|]. split; [lia|].
    intros p [Hp%HK| ->%elem_of_singleton]%elem_of_union; lia.
  - intros K s p [Hs HK] Hp. exists s. split; [done|]. split; [done|]. intros q [Hq _]%elem_of_difference. by apply HK.
Qed.

Definition ex_header : Hdr.BackedHeader :=
  Hdr.backed (mkHeader 1 1 1 0 1 {[0 := 393216]}) 1.

Lemma map_pages_transactional_witness :
  exists res m' s', @map_pages_in_existing Z bump_ops ex_mem 5 4096 (6 * 4096) ex_header Normal = Ret (res, m', s') /\
    match res with
    | Ok _ => exists a', sview m' {[4096 := a']} 4096 6 = Some 393216
    | Err e => m' = ex_mem
    end.
Proof.
  destruct (@map_pages_transactional Z bump_ops bump_held bump_laws ex_mem {[4096 := ex_as]} 4096 ex_as
    {[1; 2; 3; 4]} 5 6 ex_header Normal) as (res & m' & s' & E & H).
  - apply ex_spaces.
  - reflexivity.
  - split; [lia|]. set_solver by lia.
  - intros r a q [<- <-]%lookup_singleton_Some [->|[->|[->|(k & Hk)]]]; simpl in *; [set_solver..|].
    destruct (k =? 0); [|done]. injection Hk as <-. set_solver.
  - split; [simpl; unfold HeaderPool.MAX_PRACTICAL_PAGES_PER_SET; lia|reflexivity].
  - lia.
  - lia.
  - exists res, m', s'. split; [done|]. destruct res as [u|e]; [|tauto].
    destruct H as (_ & a' & L & _ & _ & _ & Hm & _). exists a'.
    pose proof (Hm 4096 6) as Hv. rewrite insert_singleton_eq in Hv. rewrite Hv. reflexivity.
Defined.
