(* ===== verification/AddrSpace.v ===== *)
(** Building and freeing user address spaces (src/arch/aarch64/vmem.rs and the
    builder's pure parts in lockjaw-types/src/vmem.rs): the page-table
    workspace, the table of L3 regions, the scratch cursor,
    AddressSpaceBuilder and free_address_space. *)
From Stdlib Require Import ZArith Lia.
From stdpp Require Import base option gmap numbers sets fin_sets list.
From S2P Require Import Prelude Frames FrameAlloc PageTable Vmem.
Open Scope Z_scope.

(** * The pure parts *)

Record Mapping := mkMapping { virt_addr : Z; phys_addr : Z; user_accessible : bool; m_executable : bool }.

(** A mapping is 24 bytes: two words and two flags. *)
Definition MAPPINGS_PER_PAGE : Z := 170.
Definition MAX_L3_TABLES : Z := 8.

Definition PROCESS_KERNEL_OBJ_PAGES : Z := 4.
Definition WORKSPACE_MIN_PAGES : Z := 3 + MAX_L3_TABLES.
Definition WORKSPACE_MAX_PAGES : Z := 32.
Definition PROCESS_MIN_PAGES : Z := PROCESS_KERNEL_OBJ_PAGES + WORKSPACE_MIN_PAGES.
Definition PROCESS_MAX_PAGES : Z := PROCESS_KERNEL_OBJ_PAGES + WORKSPACE_MAX_PAGES.

Definition build_process_page (phys : Z) (user_accessible executable : bool) : Z :=
  if negb user_accessible then new_page phys MAIR_NORMAL AP_RW_EL1 SH_INNER
  else if executable then with_pxn (new_page phys MAIR_NORMAL AP_RW_ALL SH_INNER)
  else with_pxn (with_uxn (new_page phys MAIR_NORMAL AP_RW_ALL SH_INNER)).

Record PageTableWorkspace := mkWorkspace { capacity : Z; claimed : Z }.

Definition workspace_new (capacity : Z) : PageTableWorkspace := mkWorkspace capacity 0.

Definition claim (w : PageTableWorkspace) : option Z * PageTableWorkspace :=
  if capacity w <=? claimed w then (None, w) else (Some (claimed w), mkWorkspace (capacity w) (claimed w + 1)).

Inductive L3Lookup := Existing (slot : nat) | NeedAlloc (slot : nat) | Full.

(** The first [count] entries of [indices]. *)
Definition L3RegionTracker : Type := list Z.

Definition tracker_lookup (t : L3RegionTracker) (l2_idx : Z) : L3Lookup :=
  match list_find (eq l2_idx) t with
  | Some (i, _) => Existing i
  | None => if MAX_L3_TABLES <=? Z.of_nat (length t) then Full else NeedAlloc (length t)
  end.

Definition register (t : L3RegionTracker) (slot : nat) (l2_idx : Z) : outcome L3RegionTracker :=
  assert (bool_decide (slot = length t)) ;;
  assert (Z.of_nat slot <? MAX_L3_TABLES) ;;
  Ret (t ++ [l2_idx]).

(** ** The scratch cursor *)
Module Scratch.
Inductive ScratchAction := Continue | FlushAndAdvance (next_page_idx : Z).

Record ScratchCursor := mkCursor { page_idx : Z; offset : Z; total_pages : Z; total_written : Z }.

Definition new (total_scratch_pages : Z) : ScratchCursor := mkCursor 0 0 total_scratch_pages 0.

Definition advance (c : ScratchCursor) : ScratchAction * ScratchCursor :=
  let c' := mkCursor (page_idx c) (offset c + 1) (total_pages c) (total_written c + 1) in
  if (MAPPINGS_PER_PAGE <=? offset c') && (page_idx c' + 1 <? total_pages c')
  then (FlushAndAdvance (page_idx c' + 1), c') else (Continue, c').

Definition did_advance (c : ScratchCursor) : ScratchCursor := mkCursor (page_idx c + 1) 0 (total_pages c) (total_written c).

Definition has_pending (c : ScratchCursor) : bool := 0 <? offset c.
Definition pending_count (c : ScratchCursor) : Z := offset c.
End Scratch.

(** * AddressSpaceBuilder

    [page i] is [donation.page_paddr(i)]; [m] the memory of page tables. *)
Record AddressSpaceBuilder := mkBuilder {
  workspace : PageTableWorkspace; l0_paddr : Z; l2_table : Z; tracker : L3RegionTracker; l3_ptrs : list Z
}.

Section Builder.
Context (page : Z -> outcome (option Z)).

Definition claim_zeroed (w : PageTableWorkspace) (m : gmap Z Z)
  : outcome (result Z VmemError * PageTableWorkspace * gmap Z Z) :=
  let '(i, w') := claim w in
  match i with
  | None => Ret (Err OutOfPageTables, w', m)
  | Some workspace_idx =>
      o ← page (PROCESS_KERNEL_OBJ_PAGES + workspace_idx);
      match o with
      | None => Ret (Err OutOfPageTables, w', m)
      | Some paddr => Ret (Ok paddr, w', zero_table m paddr)
      end
  end.

Definition builder_new (w : PageTableWorkspace) (m : gmap Z Z)
  : outcome (result AddressSpaceBuilder VmemError * gmap Z Z) :=
  x ← claim_zeroed w m;
  match x with
  | (Err e, _, m) => Ret (Err e, m)
  | (Ok l0, w, m) =>
      x ← claim_zeroed w m;
      match x with
      | (Err e, _, m) => Ret (Err e, m)
      | (Ok l1, w, m) =>
          x ← claim_zeroed w m;
          match x with
          | (Err e, _, m) => Ret (Err e, m)
          | (Ok l2, w, m) =>
              m ← entry_set m l0 0 (new_table l1);
              m ← entry_set m l1 0 (new_table l2);
              Ret (Ok (mkBuilder w l0 l2 [] []), m)
          end
      end
  end.

(** One mapping of a batch. *)
Definition map_one (mp : Mapping) (b : AddressSpaceBuilder) (m : gmap Z Z)
  : outcome (result AddressSpaceBuilder VmemError * gmap Z Z) :=
  let '(_, _, l2_idx, l3_idx) := page_table_indices (virt_addr mp) in
  x ← match tracker_lookup (tracker b) l2_idx with
      | Existing slot => l3 ← unwrap (l3_ptrs b !! slot); Ret (Ok (l3, b), m)
      | NeedAlloc slot =>
          x ← claim_zeroed (workspace b) m;
          match x with
          | (Err e, _, m) => Ret (Err e, m)
          | (Ok l3, w, m) =>
              m ← entry_set m (l2_table b) l2_idx (new_table l3);
              t ← register (tracker b) slot l2_idx;
              Ret (Ok (l3, mkBuilder w (l0_paddr b) (l2_table b) t (l3_ptrs b ++ [l3])), m)
          end
      | Full => Ret (Err TooManyL3Regions, m)
      end;
  match x with
  | (Err e, m) => Ret (Err e, m)
  | (Ok (l3, b), m) =>
      m ← entry_set m l3 l3_idx (build_process_page (phys_addr mp) (user_accessible mp) (m_executable mp));
      Ret (Ok b, m)
  end.

Fixpoint map_batch (ms : list Mapping) (b : AddressSpaceBuilder) (m : gmap Z Z)
  : outcome (result AddressSpaceBuilder VmemError * gmap Z Z) :=
  match ms with
  | [] => Ret (Ok b, m)
  | mp :: ms' =>
      x ← map_one mp b m;
      match x with
      | (Err e, m) => Ret (Err e, m)
      | (Ok b, m) => map_batch ms' b m
      end
  end.
End Builder.

(** The root and the number of workspace pages claimed. *)
Definition finish (b : AddressSpaceBuilder) : Z * Z := (l0_paddr b, claimed (workspace b)).

(** * free_address_space *)
Section Free.
Context {M : Type} `{FrameOps M}.

(** [dealloc_page(PhysPage::containing(addr))] *)
Definition dealloc_at (addr : Z) (s : M) : outcome M := fr_dealloc_page s (containing_page addr).

Definition free_l3s (m : gmap Z Z) (l2 : Z) (s : M) : outcome M :=
  for_range 0 512 (fun i s =>
    entry ← entry_get m l2 i;
    if is_table entry then dealloc_at (output_addr entry) s else Ret s) s.

Definition free_address_space (m : gmap Z Z) (ttbr0 : Z) (s : M) : outcome M :=
  l0_entry ← entry_get m ttbr0 0;
  s ← (if is_table l0_entry then
         let l1 := output_addr l0_entry in
         l1_entry ← entry_get m l1 0;
         s ← (if is_table l1_entry then
                let l2 := output_addr l1_entry in
                s ← free_l3s m l2 s;
                dealloc_at l2 s
              else Ret s);
         dealloc_at l1 s
       else Ret s);
  dealloc_at ttbr0 s.
End Free.

(** * Views of a builder *)

(** The page of the new space a mapping is entered at. The entry's L0 and L1
    indices are dropped: an address is taken modulo 1 GiB. *)
Definition slot_of (va : Z) : Z := (va / 4096) mod 2 ^ 18.

Lemma slot_split va : slot_of va / 512 = vidx 21 va /\ slot_of va mod 512 = vidx 12 va.
Proof.
  unfold slot_of, vidx. change (2 ^ 18) with (512 * 512). change (2 ^ 21) with (4096 * 512). change (2 ^ 12) with 4096.
  rewrite <- Z.div_div by lia. set (x := va / 4096). clearbody x. split.
  - rewrite Z.rem_mul_r by lia. rewrite Z.add_comm, Z.mul_comm, Z.div_add_l by lia.
    rewrite (Z.div_small (x mod 512)) by (apply Z.mod_pos_bound; lia). lia.
  - rewrite Z.rem_mul_r by lia. rewrite Z.mul_comm, Z.mod_add by lia. apply Z.mod_mod. lia.
Qed.

Lemma process_page_fields phys ua ex :
  is_valid (build_process_page phys ua ex) = true /\ output_addr (build_process_page phys ua ex) = output_addr phys.
Proof.
  assert (P : forall a s, let e := new_page phys MAIR_NORMAL a s in is_table e = true /\ output_addr e = output_addr phys).
  { intros a s. split; [apply new_page_flags|apply output_new_page]. }
  assert (X : forall e, output_addr (with_pxn e) = output_addr e /\ is_table (with_pxn e) = is_table e).
  { intros e. split; [pte_split 12 48; by rewrite ?orb_false_r|]. rewrite !is_table_bits. unfold with_pxn. rewrite !Z.lor_spec.
    change (Z.testbit PTE_PXN 0) with false. change (Z.testbit PTE_PXN 1) with false. by rewrite !orb_false_r. }
  unfold build_process_page. destruct (P AP_RW_EL1 SH_INNER) as [T O], (P AP_RW_ALL SH_INNER) as [T' O'].
  destruct (negb ua); [split; [by apply table_valid|done]|]. destruct ex.
  - destruct (X (new_page phys MAIR_NORMAL AP_RW_ALL SH_INNER)) as [E1 E2]. rewrite E1. split; [apply table_valid; congruence|done].
  - destruct (with_xn_fields (new_page phys MAIR_NORMAL AP_RW_ALL SH_INNER)) as [E1 E2]. rewrite E1. split; [apply table_valid; congruence|done].
Qed.

Section Built.
Context (S : gmap Z AS) (page : Z -> outcome (option Z)) (P : Z -> Z) (cap : Z) (m0 : gmap Z Z).
Context (Hcap : WORKSPACE_MIN_PAGES <= cap).
Context (Hpage : forall i, 0 <= i < cap -> page (PROCESS_KERNEL_OBJ_PAGES + i) = Ret (Some (P i))).
Context (Hinj : forall i j, 0 <= i < cap -> 0 <= j < cap -> P i = P j -> i = j).
Context (Haddr : forall i, 0 <= i < cap -> page_addr (P i)).
Context (Hfresh : forall i r a, 0 <= i < cap -> S !! r = Some a -> ~ as_page r a (P i)).

(** The builder's state: a space of [S] extended by the tables claimed so far. *)
Record built (m : gmap Z Z) (b : AddressSpaceBuilder) (a : AS) : Prop := {
  bu_cap : capacity (workspace b) = cap;
  bu_claimed : claimed (workspace b) = 3 + Z.of_nat (length (tracker b));
  bu_small : Z.of_nat (length (tracker b)) <= MAX_L3_TABLES;
  bu_root : l0_paddr b = P 0;
  bu_spaces : spaces_ok m (<[P 0 := a]> S);
  bu_l2 : as_l2 a = l2_table b;
  bu_len : length (l3_ptrs b) = length (tracker b);
  bu_nodup : NoDup (tracker b);
  bu_l3 : forall k p, as_l3 a k = Some p <-> exists i, tracker b !! i = Some k /\ l3_ptrs b !! i = Some p;
  bu_pages : forall q, as_page (P 0) a q <-> exists i, 0 <= i < claimed (workspace b) /\ q = P i;
  bu_others : forall r u, r <> P 0 -> sview m S r u = sview m0 S r u;
}.

Lemma root_fresh : S !! P 0 = None.
Proof using Hfresh Hcap.
  destruct (S !! P 0) as [a|] eqn:E; [|done]. exfalso. unfold WORKSPACE_MIN_PAGES, MAX_L3_TABLES in Hcap.
  apply (Hfresh 0 (P 0) a); [lia|done|by left].
Qed.

Lemma claim_zeroed_spec w m : capacity w = cap -> 0 <= claimed w < cap ->
  claim_zeroed page w m = Ret (Ok (P (claimed w)), mkWorkspace cap (claimed w + 1), zero_table m (P (claimed w))).
Proof using Hpage.
  intros Hc Hw. unfold claim_zeroed, claim. rewrite (proj2 (Z.leb_gt _ _)), Hpage, bind_Ret by lia. by rewrite Hc.
Qed.

(** The empty space of three zeroed tables. *)
Lemma fresh_space m : spaces_ok m S ->
  let m1 := zero_table (zero_table (zero_table m (P 0)) (P 1)) (P 2) in
  let m2 := <[P 1 + 0 * 8 := new_table (P 2)]> (<[P 0 + 0 * 8 := new_table (P 1)]> m1) in
  let a := mkAS (P 1) (P 2) (fun _ => None) in
  spaces_ok m2 (<[P 0 := a]> S) /\ forall r u, r <> P 0 -> sview m2 S r u = sview m S r u.
Proof using Hcap Hinj Haddr Hfresh.
  intros [Ho Hs] m1 m2 a. unfold WORKSPACE_MIN_PAGES, MAX_L3_TABLES in Hcap.
  assert (D01 : P 0 <> P 1) by (intros E%Hinj; lia). assert (D02 : P 0 <> P 2) by (intros E%Hinj; lia). assert (D12 : P 1 <> P 2) by (intros E%Hinj; lia).
  assert (A0 := Haddr 0 ltac:(lia)). assert (A1 := Haddr 1 ltac:(lia)). assert (A2 := Haddr 2 ltac:(lia)).
  assert (Pk : forall q i, page_addr q -> 0 <= i < 512 -> arr_peek m2 (q + i * 8) =
    if decide (q = P 1 /\ i = 0) then new_table (P 2) else if decide (q = P 0 /\ i = 0) then new_table (P 1) else
    if decide (q = P 0 \/ q = P 1 \/ q = P 2) then 0 else arr_peek m (q + i * 8)).
  { intros q i Hq Hi. unfold m2. rewrite !arr_peek_insert.
    destruct (decide (P 1 + 0 * 8 = q + i * 8)) as [E|E].
    { apply word_inj in E as [-> <-]; try done; try lia. by rewrite decide_True. }
    rewrite (decide_False (P := q = P 1 /\ i = 0)) by (intros [-> ->]; lia).
    destruct (decide (P 0 + 0 * 8 = q + i * 8)) as [E'|E'].
    { apply word_inj in E' as [-> <-]; try done; try lia. by rewrite decide_True. }
    rewrite (decide_False (P := q = P 0 /\ i = 0)) by (intros [-> ->]; lia).
    unfold m1. rewrite !zero_table_peek by done. repeat case_decide; try done; tauto. }
  clearbody m2. clear m1.
  assert (Keep : forall r' a' q i, S !! r' = Some a' -> as_page r' a' q -> 0 <= i < 512 -> arr_peek m2 (q + i * 8) = arr_peek m (q + i * 8)).
  { intros r' a' q i Hr Hq Hi. rewrite Pk; [|eapply as_page_addr; [by apply Ho|done]|done].
    assert (q <> P 0 /\ q <> P 1 /\ q <> P 2) as (N0 & N1 & N2).
    { split; [|split]; intros ->; [apply (Hfresh 0 r' a')|apply (Hfresh 1 r' a')|apply (Hfresh 2 r' a')]; try done; lia. }
    rewrite !decide_False by tauto. done. }
  split; [constructor|].
  - intros r' a' [[<- <-]|[Hne Hr']]%lookup_insert_Some.
    2:{ apply (as_frame m); [by apply Ho|]. intros q i Hq Hi. right. by apply (Keep r' a'). }
    assert (E0 := Pk (P 0) 0 A0 ltac:(lia)). rewrite Z.mul_0_l, Z.add_0_r, decide_False, decide_True in E0 by tauto.
    assert (E1 := Pk (P 1) 0 A1 ltac:(lia)). rewrite Z.mul_0_l, Z.add_0_r, decide_True in E1 by tauto.
    destruct (new_table_fields (P 1)) as [T1 O1], (new_table_fields (P 2)) as [T2 O2]. rewrite (output_page _ A1) in O1. rewrite (output_page _ A2) in O2.
    assert (Hz : forall q k, q = P 0 \/ q = P 1 \/ q = P 2 -> page_addr q -> 0 <= k < 512 -> k <> 0 \/ q = P 2 -> is_valid (arr_peek m2 (q + k * 8)) = false).
    { intros q k Hq Ha Hk Hn. rewrite Pk by assumption. rewrite decide_False, decide_False, decide_True by intuition congruence. apply is_valid_0. }
    constructor; cbn [a as_l1 as_l2 as_l3]; rewrite ?E0, ?E1; try (split; assumption); try assumption.
    + intros k Hk. apply Hz; [tauto|done|lia|left; lia].
    + intros k Hk. apply Hz; [tauto|done|lia|left; lia].
    + intros k Hk. apply Hz; [tauto|done|lia|by right].
    + discriminate.
    + split; [exact D01|split; [exact D02|exact D12]].
    + discriminate.
    + discriminate.
  - assert (Hp : forall q, as_page (P 0) a q -> q = P 0 \/ q = P 1 \/ q = P 2).
    { intros q [->|[->|[->|(k & Hk)]]]; cbn in *; try tauto. done. }
    assert (Hn : forall r' a' q, S !! r' = Some a' -> as_page r' a' q -> ~ as_page (P 0) a q).
    { intros r' a' q Hr Hq [->|[->| ->]]%Hp; [apply (Hfresh 0 r' a')|apply (Hfresh 1 r' a')|apply (Hfresh 2 r' a')]; try done; lia. }
    intros r1 r2 a1 a2 q [[<- <-]|[N1 H1]]%lookup_insert_Some [[<- <-]|[N2 H2]]%lookup_insert_Some Q1 Q2; try done.
    + by destruct (Hn r2 a2 q).
    + by destruct (Hn r1 a1 q).
    + by apply (Hs r1 r2 a1 a2 q).
  - intros r u Hr. unfold sview. destruct (S !! r) as [a'|] eqn:E; [|done]. unfold as_view. destruct (as_l3 a' (u / 512)) as [q|] eqn:Hq; [|done].
    rewrite (Keep r a'); [done|done|do 3 right; by eexists|apply Z.mod_pos_bound; lia].
Qed.

Lemma builder_new_spec : spaces_ok m0 S ->
  exists b m a, builder_new page (workspace_new cap) m0 = Ret (Ok b, m) /\ built m b a /\ tracker b = [] /\ forall u, as_view m a u = None.
Proof using All.
  intros Hs. pose proof (fresh_space m0 Hs) as [Hsp Hoth]. unfold WORKSPACE_MIN_PAGES, MAX_L3_TABLES in Hcap. unfold builder_new, workspace_new.
  rewrite claim_zeroed_spec, bind_Ret by (cbn; lia). cbn [claimed]. rewrite claim_zeroed_spec, bind_Ret by (cbn; lia). cbn [claimed].
  rewrite claim_zeroed_spec, bind_Ret by (cbn; lia). cbn [claimed]. rewrite !entry_set_in, !bind_Ret by lia. change (0 + 1) with 1. change (1 + 1) with 2.
  eexists _, _, (mkAS (P 1) (P 2) (fun _ => None)). split; [reflexivity|]. split; [|done].
  constructor; cbn; try done; try (unfold MAX_L3_TABLES; lia).
  - constructor.
  - intros k p. split; [done|]. by intros (i & Hi & _).
  - intros q. unfold as_page. cbn. split.
    + intros [->|[->|[->|(k & Hk)]]]; [by exists 0|by exists 1|by exists 2|done].
    + intros (i & Hi & ->). assert (i = 0 \/ i = 1 \/ i = 2) as [->|[->| ->]] by lia; tauto.
Qed.

Lemma tracker_lookup_spec t k : match tracker_lookup t k with
  | Existing i => t !! i = Some k
  | NeedAlloc i => i = length t /\ k ∉ t /\ Z.of_nat (length t) < MAX_L3_TABLES
  | Full => k ∉ t /\ MAX_L3_TABLES <= Z.of_nat (length t)
  end.
Proof using.
  unfold tracker_lookup. destruct (list_find (eq k) t) as [[i x]|] eqn:E.
  - apply list_find_Some in E as (Hi & -> & _). done.
  - apply list_find_None in E. assert (k ∉ t) by (intros Hin; apply (proj1 (Forall_forall _ _) E k Hin); done).
    destruct (Z.leb_spec MAX_L3_TABLES (Z.of_nat (length t))); [done|]. split; [done|]. split; [done|lia].
Qed.

(** A new L3 table for region [k]. *)
Lemma built_add m b a k : built m b a -> 0 <= k < 512 -> k ∉ tracker b -> Z.of_nat (length (tracker b)) < MAX_L3_TABLES ->
  let p := P (claimed (workspace b)) in
  let m' := <[l2_table b + k * 8 := new_table p]> (zero_table m p) in
  built m' (mkBuilder (mkWorkspace cap (claimed (workspace b) + 1)) (l0_paddr b) (l2_table b) (tracker b ++ [k]) (l3_ptrs b ++ [p])) (add_l3 a k p) /\
  forall u, as_view m' (add_l3 a k p) u = as_view m a u.
Proof using Hcap Hpage Hinj Haddr Hfresh.
  intros [B1 B2 B3 B4 B5 B6 B7 B8 B9 B10 B11] Hk Hnk Hl p m'. unfold WORKSPACE_MIN_PAGES, MAX_L3_TABLES in *.
  assert (Hr : 0 <= claimed (workspace b) < cap) by lia. assert (Hnone : as_l3 a k = None).
  { destruct (as_l3 a k) as [q|] eqn:E; [|done]. apply B9 in E as (i & Hi & _). exfalso. apply Hnk. by eapply list_elem_of_lookup_2. }
  destruct (install_l3 m (<[P 0 := a]> S) (P 0) a k p) with (m' := m') as [Hs' Hv'].
  - exact B5.
  - apply lookup_insert_eq.
  - exact Hk.
  - exact Hnone.
  - by apply Haddr.
  - intros r' a' [[<- <-]|[Hne Hr']]%lookup_insert_Some; [|by apply Hfresh].
    intros (i & Hi & E)%B10. apply Hinj in E; lia.
  - unfold m'. by rewrite B6.
  - rewrite insert_insert_eq in Hs', Hv'. split.
    + constructor; cbn; try done.
      * rewrite length_app. cbn. lia.
      * rewrite length_app. cbn. unfold MAX_L3_TABLES. lia.
      * rewrite !length_app. cbn. lia.
      * apply NoDup_app. split; [done|]. split; [|apply NoDup_singleton]. intros x Hx ->%list_elem_of_singleton. done.
      * intros j q. unfold L3RegionTracker in *. destruct (decide (j = k)) as [->|Hj].
        -- split.
           ++ intros [= <-]. exists (length (tracker b)). split; [by rewrite lookup_app_r, Nat.sub_diag by lia|rewrite <- B7; by rewrite lookup_app_r, Nat.sub_diag by lia].
           ++ intros (i & Hi & Hq). apply lookup_app_Some in Hi as [Hi|[Hi' Hi]].
              ** exfalso. apply Hnk. by eapply list_elem_of_lookup_2.
              ** apply lookup_app_Some in Hq as [Hq|[_ Hq]]; [apply lookup_lt_Some in Hq; lia|].
                 apply list_lookup_singleton_Some in Hq as [_ <-]. done.
        -- rewrite B9. split; intros (i & Hi & Hq).
           ++ exists i. rewrite !lookup_app_l by (apply lookup_lt_Some in Hi; apply lookup_lt_Some in Hq; lia). done.
           ++ apply lookup_app_Some in Hi as [Hi|[_ Hi]]; [|apply list_lookup_singleton_Some in Hi as [_ <-]; done].
              exists i. split; [done|]. apply lookup_app_Some in Hq as [Hq|[Hq _]]; [done|]. apply lookup_lt_Some in Hi. lia.
      * intros q. rewrite add_l3_page by done. rewrite B10. split.
        -- intros [(i & Hi & ->)| ->]; [exists i; split; [lia|done]|exists (claimed (workspace b)); split; [lia|done]].
        -- intros (i & Hi & ->). destruct (decide (i = claimed (workspace b))) as [->|]; [by right|left; exists i; split; [lia|done]].
      * intros r u Hne. pose proof (Hv' r u) as Hvr. unfold sview in Hvr. rewrite !lookup_insert_ne in Hvr by done. unfold sview. rewrite Hvr. apply (B11 r u Hne).
    + intros u. pose proof (Hv' (P 0) u) as Hvr. unfold sview in Hvr. by rewrite !lookup_insert_eq in Hvr.
Qed.

(** Writing a page entry. *)
Lemma built_write m b a k i l3 v : built m b a -> tracker b !! i = Some k -> l3_ptrs b !! i = Some l3 -> forall j, 0 <= j < 512 ->
  built (<[l3 + j * 8 := v]> m) b a /\
  forall u, as_view (<[l3 + j * 8 := v]> m) a u =
    if decide (u = k * 512 + j) then (if is_valid v then Some (output_addr v) else None) else as_view m a u.
Proof using.
  intros [B1 B2 B3 B4 B5 B6 B7 B8 B9 B10 B11] Hk Hl j Hj.
  assert (Ha : as_l3 a k = Some l3) by (apply B9; by exists i).
  destruct (spaces_write m (<[P 0 := a]> S) (P 0) a k l3 j v B5) as [Hs' Hv']; [apply lookup_insert_eq|done|done|]. split.
  - constructor; try done. intros r u Hne. rewrite <- (B11 r u Hne). unfold sview. destruct (S !! r) as [a'|] eqn:E; [|done].
    rewrite (Hv' r a' u); [by rewrite decide_False|by rewrite lookup_insert_ne].
  - intros u. rewrite (Hv' (P 0) a u); [by rewrite decide_True|apply lookup_insert_eq].
Qed.

Lemma map_one_spec mp m b a : built m b a ->
  exists r m', map_one page mp b m = Ret (r, m') /\
    match r with
    | Ok b' => exists a', built m' b' a' /\
        forall u, as_view m' a' u = if decide (u = slot_of (virt_addr mp)) then Some (output_addr (phys_addr mp)) else as_view m a u
    | Err e => e = TooManyL3Regions /\ m' = m
    end.
Proof using Hcap Hpage Hinj Haddr Hfresh.
  intros B. unfold map_one, page_table_indices. rewrite !idx_arith by lia. destruct (slot_split (virt_addr mp)) as [E1 E2].
  pose proof (vidx_range 21 (virt_addr mp)) as R1. pose proof (vidx_range 12 (virt_addr mp)) as R2.
  assert (Es : slot_of (virt_addr mp) = vidx 21 (virt_addr mp) * 512 + vidx 12 (virt_addr mp)).
  { rewrite <- E1, <- E2. pose proof (Z.div_mod (slot_of (virt_addr mp)) 512). lia. }
  set (k := vidx 21 (virt_addr mp)) in *. set (j := vidx 12 (virt_addr mp)) in *. clearbody k j. rewrite Es.
  destruct (process_page_fields (phys_addr mp) (user_accessible mp) (m_executable mp)) as [Pv Po].
  pose proof (tracker_lookup_spec (tracker b) k) as T. destruct (tracker_lookup (tracker b) k) as [i|i|].
  - destruct (lookup_lt_is_Some_2 (l3_ptrs b) i) as [l3 Hl3]; [rewrite (bu_len _ _ _ B); by eapply lookup_lt_Some|].
    rewrite Hl3. cbn [unwrap]. rewrite !bind_Ret, entry_set_in, bind_Ret by done. eexists _, _. split; [reflexivity|]. exists a.
    destruct (built_write m b a k i l3 (build_process_page (phys_addr mp) (user_accessible mp) (m_executable mp)) B T Hl3 j R2) as [B' V'].
    split; [done|]. intros u. rewrite V', Pv, Po. done.
  - destruct T as (-> & Hnk & Hl). destruct (built_add m b a k B R1 Hnk Hl) as [B' V'].
    rewrite claim_zeroed_spec; [|apply B|rewrite (bu_claimed _ _ _ B); unfold WORKSPACE_MIN_PAGES, MAX_L3_TABLES in *; lia].
    rewrite !bind_Ret, entry_set_in, bind_Ret by done. unfold register. rewrite bool_decide_eq_true_2, (proj2 (Z.ltb_lt _ _)) by done.
    cbn [assert]. rewrite !bind_Ret, entry_set_in, bind_Ret by done. eexists _, _. split; [reflexivity|]. eexists.
    destruct (built_write _ _ _ k (length (tracker b)) (P (claimed (workspace b))) (build_process_page (phys_addr mp) (user_accessible mp) (m_executable mp)) B')
      with (j := j) as [B2 V2]; unfold L3RegionTracker in *; cbn.
    + by rewrite lookup_app_r, Nat.sub_diag by lia.
    + rewrite <- (bu_len _ _ _ B). by rewrite lookup_app_r, Nat.sub_diag by lia.
    + done.
    + split; [exact B2|]. intros u. rewrite V2, Pv, Po, V'. done.
  - rewrite bind_Ret. eexists _, _. split; [reflexivity|]. done.
Qed.

(** What a list of mappings shows at page [u]: the last one there. *)
Definition view_of (ms : list Mapping) (u : Z) : option Z :=
  foldl (fun v mp => if decide (u = slot_of (virt_addr mp)) then Some (output_addr (phys_addr mp)) else v) None ms.

Lemma view_of_snoc ms mp u :
  view_of (ms ++ [mp]) u = if decide (u = slot_of (virt_addr mp)) then Some (output_addr (phys_addr mp)) else view_of ms u.
Proof using. unfold view_of. by rewrite foldl_app. Qed.

Lemma map_batch_spec ms : forall done m b a, built m b a -> (forall u, as_view m a u = view_of done u) ->
  exists r m', map_batch page ms b m = Ret (r, m') /\
    match r with
    | Ok b' => exists a', built m' b' a' /\ forall u, as_view m' a' u = view_of (done ++ ms) u
    | Err e => e = TooManyL3Regions /\ exists b' a', built m' b' a'
    end.
Proof using Hcap Hpage Hinj Haddr Hfresh.
  induction ms as [|mp ms IH]; intros dn m b a B V; cbn [map_batch].
  { eexists _, _. split; [reflexivity|]. exists a. rewrite app_nil_r. done. }
  destruct (map_one_spec mp m b a B) as (r & m' & -> & Hr). rewrite bind_Ret. destruct r as [b'|e].
  - destruct Hr as (a' & B' & V'). destruct (IH (dn ++ [mp]) m' b' a' B') as (r & m2 & E & Hr).
    + intros u. by rewrite V', view_of_snoc, V.
    + exists r, m2. split; [done|]. destruct r; [|done]. by rewrite <- app_assoc in Hr.
  - destruct Hr as [-> ->]. eexists _, _. split; [reflexivity|]. split; [done|]. by exists b, a.
Qed.
End Built.

(** * Freeing *)

(** The frames of a space's tables. *)
Definition l3_frames (a : AS) (n : Z) : gset Z := list_to_set ((fun q => q / 4096) <$> omap (as_l3 a) (seqZ 0 n)).
Definition as_frames (r : Z) (a : AS) : gset Z := {[r / 4096; as_l1 a / 4096; as_l2 a / 4096]} ∪ l3_frames a 512.

Lemma elem_of_l3_frames a n p : p ∈ l3_frames a n <-> exists k q, 0 <= k < n /\ as_l3 a k = Some q /\ p = q / 4096.
Proof.
  unfold l3_frames. rewrite elem_of_list_to_set, list_elem_of_fmap. split.
  - intros (q & -> & Hq). apply list_elem_of_omap in Hq as (k & Hk%elem_of_seqZ & Hq). exists k, q. split; [lia|done].
  - intros (k & q & Hk & Hq & ->). exists q. split; [done|]. apply list_elem_of_omap. exists k. rewrite elem_of_seqZ. split; [lia|done].
Qed.

Lemma elem_of_as_frames m r a p : as_ok m r a -> p ∈ as_frames r a <-> exists q, as_page r a q /\ p = q / 4096.
Proof.
  intros Ha. unfold as_frames. rewrite !elem_of_union, !elem_of_singleton, elem_of_l3_frames. unfold as_page. split.
  - intros [[[->| ->]| ->]|(k & q & Hk & Hq & ->)]; eexists; (split; [|reflexivity]); eauto.
  - intros (q & [->|[->|[->|(k & Hk)]]] & ->); try tauto. right. exists k, q. split; [by eapply ao_range|done].
Qed.

Lemma page_frame_inj q q' : page_addr q -> page_addr q' -> q / 4096 = q' / 4096 -> q = q'.
Proof. intros [_ Hq] [_ Hq'] E. pose proof (Z.div_mod q 4096). pose proof (Z.div_mod q' 4096). lia. Qed.

Section FreeSpec.
Context {M : Type} `{FrameLaws M Held}.

Lemma containing_div q : containing_page q = q / 4096.
Proof using. unfold containing_page, PAGE_SHIFT. rewrite Z.shiftr_div_pow2 by lia. done. Qed.

Lemma dealloc_at_spec q K s : Held K s -> q / 4096 ∈ K -> exists s', dealloc_at q s = Ret s' /\ Held (K ∖ {[q / 4096]}) s'.
Proof using All. intros HK Hq. unfold dealloc_at. rewrite containing_div. by apply fr_dealloc_law. Qed.

Lemma free_l3s_spec m r a K s : as_ok m r a -> Held K s -> l3_frames a 512 ⊆ K ->
  exists s', free_l3s m (as_l2 a) s = Ret s' /\ Held (K ∖ l3_frames a 512) s'.
Proof using All.
  intros Ha HK Hsub. unfold free_l3s.
  match goal with |- context [for_range 0 512 ?f s] => destruct (for_range_inv (fun n s => Held (K ∖ l3_frames a n) s) f 512 0 s) as (s' & -> & Hs') end.
  - replace (K ∖ l3_frames a 0) with K; [done|]. apply set_eq. intros x. rewrite elem_of_difference, elem_of_l3_frames. split; [|tauto].
    intros Hx. split; [done|]. intros (k & q & Hk & _). lia.
  - intros i s1 Hi Hs1. rewrite entry_get_in, bind_Ret by lia. pose proof (ao_l2 _ _ _ Ha i ltac:(lia)) as L.
    destruct (as_l3 a i) as [q|] eqn:Hq.
    + destruct L as [-> ->]. destruct (dealloc_at_spec q _ s1 Hs1) as (s2 & -> & Hs2).
      { apply elem_of_difference. split.
        - apply Hsub, elem_of_l3_frames. exists i, q. split; [lia|done].
        - intros (k & q' & Hk & Hq' & E)%elem_of_l3_frames. apply page_frame_inj in E;
            [|eapply as_page_addr; [done|do 3 right; by eexists]|eapply as_page_addr; [done|do 3 right; by eexists]].
          subst q'. pose proof (ao_inj _ _ _ Ha _ _ _ Hq Hq'). lia. }
      eexists. split; [reflexivity|]. replace (K ∖ l3_frames a (i + 1)) with ((K ∖ l3_frames a i) ∖ {[q / 4096]}); [done|].
      apply set_eq. intros x. rewrite !elem_of_difference, !elem_of_l3_frames, elem_of_singleton. split.
      * intros [[Hx Hn] Hne]. split; [done|]. intros (k & q' & Hk & Hq' & ->). destruct (decide (k = i)) as [->|].
        -- rewrite Hq in Hq'. injection Hq' as <-. done.
        -- apply Hn. exists k, q'. split; [lia|done].
      * intros [Hx Hn]. split; [split; [done|]|].
        -- intros (k & q' & Hk & Hq' & ->). apply Hn. exists k, q'. split; [lia|done].
        -- intros ->. apply Hn. exists i, q. split; [lia|done].
    + destruct (is_table (arr_peek m (as_l2 a + i * 8))) eqn:T; [apply table_valid in T as [T _]; congruence|].
      eexists. split; [reflexivity|]. replace (K ∖ l3_frames a (i + 1)) with (K ∖ l3_frames a i); [done|].
      apply set_eq. intros x. rewrite !elem_of_difference, !elem_of_l3_frames. split; intros [Hx Hn]; (split; [done|]); intros (k & q' & Hk & Hq' & ->);
        apply Hn; exists k, q'; (split; [|done]); [|lia]. destruct (decide (k = i)) as [->|]; [congruence|lia].
  - exists s'. done.
Qed.

Lemma free_address_space_spec m r a K s : as_ok m r a -> Held K s -> as_frames r a ⊆ K ->
  exists s', free_address_space m r s = Ret s' /\ Held (K ∖ as_frames r a) s'.
Proof using All.
  intros Ha HK Hsub. pose proof Ha as [A0 [T0 O0] _ [T1 O1] _ _ _ (N1 & N2 & N3) A9 _]. unfold free_address_space.
  rewrite entry_get_in, Z.mul_0_l, Z.add_0_r, bind_Ret, T0, O0 by lia. rewrite entry_get_in, Z.mul_0_l, Z.add_0_r, bind_Ret, T1, O1 by lia.
  assert (P1 : page_addr (as_l1 a)) by (eapply as_page_addr; [done|by right; left]).
  assert (P2 : page_addr (as_l2 a)) by (eapply as_page_addr; [done|by do 2 right; left]).
  assert (F : forall q, as_page r a q -> q / 4096 ∈ K) by (intros q Hq; apply Hsub; rewrite (elem_of_as_frames m) by done; by exists q).
  assert (N : forall q, q = r \/ q = as_l1 a \/ q = as_l2 a -> page_addr q -> q / 4096 ∉ l3_frames a 512).
  { intros q Hq Pq (k & p & Hk & Hp & E)%elem_of_l3_frames. apply page_frame_inj in E; [|done|eapply as_page_addr; [done|do 3 right; by eexists]].
    subst p. destruct (A9 _ _ Hp) as (? & ? & ?). by destruct Hq as [|[|]]. }
  assert (M1 : as_l1 a / 4096 <> as_l2 a / 4096) by (intros E%page_frame_inj; done).
  assert (M2 : r / 4096 <> as_l1 a / 4096) by (intros E%page_frame_inj; done).
  assert (M3 : r / 4096 <> as_l2 a / 4096) by (intros E%page_frame_inj; done).
  destruct (free_l3s_spec m r a K s Ha HK) as (s1 & -> & H1); [intros x Hx; apply Hsub; unfold as_frames; rewrite elem_of_union; by right|]. rewrite bind_Ret.
  destruct (dealloc_at_spec (as_l2 a) _ s1 H1) as (s2 & -> & H2).
  { apply elem_of_difference. split; [apply F; by do 2 right; left|apply N; [tauto|done]]. }
  rewrite bind_Ret. destruct (dealloc_at_spec (as_l1 a) _ s2 H2) as (s3 & -> & H3).
  { rewrite !elem_of_difference, elem_of_singleton. split; [split; [apply F; by right; left|apply N; [tauto|done]]|done]. }
  rewrite bind_Ret. destruct (dealloc_at_spec r _ s3 H3) as (s4 & -> & H4).
  { rewrite !elem_of_difference, !elem_of_singleton. split; [split; [split; [apply F; by left|apply N; [tauto|done]]|done]|done]. }
  exists s4. split; [done|]. replace (K ∖ as_frames r a) with (((K ∖ l3_frames a 512) ∖ {[as_l2 a / 4096]}) ∖ {[as_l1 a / 4096]} ∖ {[r / 4096]}); [done|].
  apply set_eq. intros x. unfold as_frames. rewrite !elem_of_difference, !elem_of_union, !elem_of_singleton. tauto.
Qed.
End FreeSpec.
