(* ===== verification/Kvm.v ===== *)
(** The kernel's virtual address pool (lockjaw-types/src/kvm.rs): the free list
    of virtual pages and the walks that install and remove mappings. The free
    list's array is modelled by its live prefix: entries from [count] on are
    never read. *)
From Stdlib Require Import ZArith Lia.
From stdpp Require Import base option gmap numbers list.
From S2P Require Import Prelude PageTable.
Open Scope Z_scope.

(** * The pool *)

Definition KVM_POOL_BASE : Z := 0xFFFF800000000000.
Definition KVM_L0_INDEX : Z := 256.
Definition KVM_POOL_USABLE_SIZE : Z := Z.shiftl 1 30.
Definition KVM_L2_TABLES_COUNT : Z := (KVM_POOL_USABLE_SIZE + Z.shiftl 1 30 - 1) / Z.shiftl 1 30.
Definition KVM_L3_TABLES_COUNT : Z := (KVM_POOL_USABLE_SIZE + Z.shiftl 1 21 - 1) / Z.shiftl 1 21.
Definition KVM_BOOTSTRAP_TABLE_PAGES : Z := 1 + KVM_L2_TABLES_COUNT + KVM_L3_TABLES_COUNT.
Definition KVM_MAX_FREE_REGIONS : nat := 64.

Definition kvm_pool_indices (kva : Z) : Z * Z * Z * Z := page_table_indices kva.

(** [KernelVa::add_pages] *)
Definition add_pages (kva pages : Z) : outcome Z := n ← mul_chk 64 pages PAGE_SIZE; add_chk 64 kva n.

Definition build_kernel_page (phys : Z) : Z := with_pxn (with_uxn (new_page phys MAIR_NORMAL AP_RW_EL1 SH_INNER)).

(** * The free list *)

Record KvmFreeRegion := mkRegion { r_start : Z; r_pages : Z }.

Inductive KvmFreeListError := OutOfVirtualMemory | RegionTableFull | DoubleFree | OutOfPool.

Definition KvmFreeList : Type := list KvmFreeRegion.

Definition new : KvmFreeList := [mkRegion KVM_POOL_BASE (KVM_POOL_USABLE_SIZE / PAGE_SIZE)].

Definition free_pages (l : KvmFreeList) : Z := foldr (fun r n => r_pages r + n) 0 l.

(** The loop of [try_alloc]. *)
Fixpoint alloc_from (pages : Z) (l : KvmFreeList) : outcome (result Z KvmFreeListError * KvmFreeList) :=
  match l with
  | [] => Ret (Err OutOfVirtualMemory, [])
  | r :: rest =>
      if pages <=? r_pages r then
        let remaining := r_pages r - pages in
        if remaining =? 0 then Ret (Ok (r_start r), rest)
        else start ← add_pages (r_start r) pages; Ret (Ok (r_start r), mkRegion start remaining :: rest)
      else x ← alloc_from pages rest; Ret (x.1, r :: x.2)
  end.

Definition try_alloc (l : KvmFreeList) (pages : Z) : outcome (result Z KvmFreeListError * KvmFreeList) :=
  if pages =? 0 then Ret (Err OutOfVirtualMemory, l) else alloc_from pages l.

Definition region_end (r : KvmFreeRegion) : outcome Z := add_pages (r_start r) (r_pages r).

(** The first region behind [start_va]. *)
Fixpoint insertion_point (l : KvmFreeList) (start_va : Z) : nat :=
  match l with
  | [] => 0
  | r :: rest => if start_va <? r_start r then 0 else S (insertion_point rest start_va)
  end.

(** The end of [free]: merge with the next region or insert a new one. *)
Definition free_behind (l : KvmFreeList) (start pages end_va : Z) (insert_at : nat)
  : outcome (result unit KvmFreeListError * KvmFreeList) :=
  let insert_new :=
    if (KVM_MAX_FREE_REGIONS <=? length l)%nat then Ret (Err RegionTableFull, l)
    else Ret (Ok tt, take insert_at l ++ mkRegion start pages :: drop insert_at l) in
  match l !! insert_at with
  | Some nx =>
      if r_start nx =? end_va then Ret (Ok tt, <[insert_at := mkRegion start (pages + r_pages nx)]> l)
      else insert_new
  | None => insert_new
  end.

Definition free (l : KvmFreeList) (start pages : Z) : outcome (result unit KvmFreeListError * KvmFreeList) :=
  if pages =? 0 then Ret (Ok tt, l) else
  end_va ← add_pages start pages;
  let usable_end := KVM_POOL_BASE + KVM_POOL_USABLE_SIZE in
  if (start <? KVM_POOL_BASE) || (usable_end <? end_va) then Ret (Err OutOfPool, l) else
  let insert_at := insertion_point l start in
  let prev := match insert_at with O => None | S i => l !! i end in
  let next := l !! insert_at in
  prev_end ← match prev with Some r => e ← region_end r; Ret (Some e) | None => Ret None end;
  if match prev_end with Some e => start <? e | None => false end then Ret (Err DoubleFree, l) else
  if match next with Some r => r_start r <? end_va | None => false end then Ret (Err DoubleFree, l) else
  match prev with
  | Some p =>
      if bool_decide (prev_end = Some start) then
        let merged := mkRegion (r_start p) (r_pages p + pages) in
        e ← region_end merged;
        match next with
        | Some nx =>
            if r_start nx =? e then
              Ret (Ok tt, delete insert_at (<[pred insert_at := mkRegion (r_start p) (r_pages merged + r_pages nx)]> l))
            else Ret (Ok tt, <[pred insert_at := merged]> l)
        | None => Ret (Ok tt, <[pred insert_at := merged]> l)
        end
      else free_behind l start pages end_va insert_at
  | None => free_behind l start pages end_va insert_at
  end.

(** * The mapping walk *)

Inductive PageState := NeedL1 | NeedL2 | NeedL3 | NeedBacking | NeedWritePte | Faulted | MapDone.

Inductive KvmMapStep :=
  | ReadL1Pte (l1_pte_paddr : Z)
  | ReadL2Pte (l2_pte_paddr : Z)
  | ReadL3Pte (l3_pte_paddr : Z)
  | WantBacking
  | WritePagePte (pte_paddr entry : Z)
  | StepDone
  | StepFault.

#[export] Instance PageState_eq_dec : EqDecision PageState.
Proof. solve_decision. Defined.

Record KvmMapWalk := mkMW {
  mw_base : Z;
  mw_pages : Z;
  mw_page_idx : Z;
  mw_state : PageState;
  mw_l1 : Z;
  mw_l2 : Z;
  mw_l3 : Z;
  mw_pending : option Z;
}.

Definition mw_with (w : KvmMapWalk) (st : PageState) (l2 l3 : Z) (pending : option Z) : KvmMapWalk :=
  mkMW (mw_base w) (mw_pages w) (mw_page_idx w) st (mw_l1 w) l2 l3 pending.

Definition map_start (base pages l1_paddr : Z) : KvmMapWalk :=
  mkMW base pages 0 (if pages =? 0 then MapDone else NeedL1) l1_paddr 0 0 None.

Definition map_current_step (w : KvmMapWalk) : outcome KvmMapStep :=
  kva ← add_pages (mw_base w) (mw_page_idx w);
  let '(_, l1, l2, l3) := kvm_pool_indices kva in
  match mw_state w with
  | NeedL1 => a ← add_chk 64 (mw_l1 w) (l1 * 8); Ret (ReadL1Pte a)
  | NeedL2 => a ← add_chk 64 (mw_l2 w) (l2 * 8); Ret (ReadL2Pte a)
  | NeedL3 => a ← add_chk 64 (mw_l3 w) (l3 * 8); Ret (ReadL3Pte a)
  | NeedBacking => Ret WantBacking
  | NeedWritePte =>
      match mw_pending w with
      | Some phys => a ← add_chk 64 (mw_l3 w) (l3 * 8); Ret (WritePagePte a (build_kernel_page phys))
      | None => Ret StepFault
      end
  | Faulted => Ret StepFault
  | MapDone => Ret StepDone
  end.

(** The [debug_assert!]s of the steps panic in a build that has them. *)
Definition map_step_l1 (w : KvmMapWalk) (pte : Z) : outcome KvmMapWalk :=
  _ ← assert (bool_decide (mw_state w = NeedL1));
  if negb (is_valid pte) || negb (is_table pte) then Ret (mw_with w Faulted (mw_l2 w) (mw_l3 w) (mw_pending w))
  else Ret (mw_with w NeedL2 (output_addr pte) (mw_l3 w) (mw_pending w)).

Definition map_step_l2 (w : KvmMapWalk) (pte : Z) : outcome KvmMapWalk :=
  _ ← assert (bool_decide (mw_state w = NeedL2));
  if negb (is_valid pte) || negb (is_table pte) then Ret (mw_with w Faulted (mw_l2 w) (mw_l3 w) (mw_pending w))
  else Ret (mw_with w NeedL3 (mw_l2 w) (output_addr pte) (mw_pending w)).

Definition map_step_l3 (w : KvmMapWalk) (pte : Z) : outcome KvmMapWalk :=
  _ ← assert (bool_decide (mw_state w = NeedL3));
  if is_valid pte then Ret (mw_with w Faulted (mw_l2 w) (mw_l3 w) (mw_pending w))
  else Ret (mw_with w NeedBacking (mw_l2 w) (mw_l3 w) (mw_pending w)).

Definition supply_backing (w : KvmMapWalk) (phys : Z) : outcome KvmMapWalk :=
  _ ← assert (bool_decide (mw_state w = NeedBacking));
  Ret (mw_with w NeedWritePte (mw_l2 w) (mw_l3 w) (Some phys)).

(** Where the walk of the next page starts: the first table whose index
    changed. *)
Definition next_level {A} (base page_idx : Z) (need_l1 need_l2 need_l3 : A) : outcome A :=
  kva ← add_pages base page_idx;
  prev_kva ← add_pages base (page_idx - 1);
  let '(_, l1_p, l2_p, _) := kvm_pool_indices prev_kva in
  let '(_, l1, l2, _) := kvm_pool_indices kva in
  Ret (if negb (l1 =? l1_p) then need_l1 else if negb (l2 =? l2_p) then need_l2 else need_l3).

Definition step_pte_written (w : KvmMapWalk) : outcome KvmMapWalk :=
  _ ← assert (bool_decide (mw_state w = NeedWritePte));
  let idx := mw_page_idx w + 1 in
  st ← (if mw_pages w <=? idx then Ret MapDone else next_level (mw_base w) idx NeedL1 NeedL2 NeedL3);
  Ret (mkMW (mw_base w) (mw_pages w) idx st (mw_l1 w) (mw_l2 w) (mw_l3 w) None).

(** * The removing walk *)

Inductive FreeState := FNeedL1 | FNeedL2 | FNeedL3 | FNeedClear | FFaulted | FDone.

Inductive KvmFreeStep :=
  | FReadL1Pte (l1_pte_paddr : Z)
  | FReadL2Pte (l2_pte_paddr : Z)
  | FReadL3Pte (l3_pte_paddr : Z)
  | ClearPte (pte_paddr backing : Z)
  | FStepDone
  | FStepFault.

#[export] Instance FreeState_eq_dec : EqDecision FreeState.
Proof. solve_decision. Defined.

Record KvmFreeWalk := mkFW {
  fw_base : Z;
  fw_pages : Z;
  fw_page_idx : Z;
  fw_state : FreeState;
  fw_l1 : Z;
  fw_l2 : Z;
  fw_l3 : Z;
  fw_backing : option Z;
}.

Definition fw_with (w : KvmFreeWalk) (st : FreeState) (l2 l3 : Z) (backing : option Z) : KvmFreeWalk :=
  mkFW (fw_base w) (fw_pages w) (fw_page_idx w) st (fw_l1 w) l2 l3 backing.

Definition free_start (base pages l1_paddr : Z) : KvmFreeWalk :=
  mkFW base pages 0 (if pages =? 0 then FDone else FNeedL1) l1_paddr 0 0 None.

Definition free_current_step (w : KvmFreeWalk) : outcome KvmFreeStep :=
  kva ← add_pages (fw_base w) (fw_page_idx w);
  let '(_, l1, l2, l3) := kvm_pool_indices kva in
  match fw_state w with
  | FNeedL1 => a ← add_chk 64 (fw_l1 w) (l1 * 8); Ret (FReadL1Pte a)
  | FNeedL2 => a ← add_chk 64 (fw_l2 w) (l2 * 8); Ret (FReadL2Pte a)
  | FNeedL3 => a ← add_chk 64 (fw_l3 w) (l3 * 8); Ret (FReadL3Pte a)
  | FNeedClear =>
      match fw_backing w with
      | Some backing => a ← add_chk 64 (fw_l3 w) (l3 * 8); Ret (ClearPte a backing)
      | None => Ret FStepFault
      end
  | FFaulted => Ret FStepFault
  | FDone => Ret FStepDone
  end.

Definition free_step_l1 (w : KvmFreeWalk) (pte : Z) : outcome KvmFreeWalk :=
  _ ← assert (bool_decide (fw_state w = FNeedL1));
  if negb (is_table pte) then Ret (fw_with w FFaulted (fw_l2 w) (fw_l3 w) (fw_backing w))
  else Ret (fw_with w FNeedL2 (output_addr pte) (fw_l3 w) (fw_backing w)).

Definition free_step_l2 (w : KvmFreeWalk) (pte : Z) : outcome KvmFreeWalk :=
  _ ← assert (bool_decide (fw_state w = FNeedL2));
  if negb (is_table pte) then Ret (fw_with w FFaulted (fw_l2 w) (fw_l3 w) (fw_backing w))
  else Ret (fw_with w FNeedL3 (fw_l2 w) (output_addr pte) (fw_backing w)).

Definition free_step_l3 (w : KvmFreeWalk) (pte : Z) : outcome KvmFreeWalk :=
  _ ← assert (bool_decide (fw_state w = FNeedL3));
  if negb (is_valid pte) then Ret (fw_with w FFaulted (fw_l2 w) (fw_l3 w) (fw_backing w))
  else Ret (fw_with w FNeedClear (fw_l2 w) (fw_l3 w) (Some (output_addr pte))).

Definition step_pte_cleared (w : KvmFreeWalk) : outcome KvmFreeWalk :=
  _ ← assert (bool_decide (fw_state w = FNeedClear));
  let idx := fw_page_idx w + 1 in
  st ← (if fw_pages w <=? idx then Ret FDone else next_level (fw_base w) idx FNeedL1 FNeedL2 FNeedL3);
  Ret (mkFW (fw_base w) (fw_pages w) idx st (fw_l1 w) (fw_l2 w) (fw_l3 w) None).

(** * What the free list means *)

Definition USABLE_END : Z := KVM_POOL_BASE + KVM_POOL_USABLE_SIZE.
Definition r_end (r : KvmFreeRegion) : Z := r_start r + r_pages r * 4096.
Definition aligned (a : Z) : Prop := a mod 4096 = 0.
Definition span (start pages a : Z) : Prop := start <= a < start + pages * 4096.

(** [a] lies in a free region. *)
Definition is_free (l : KvmFreeList) (a : Z) : Prop := Exists (fun r => r_start r <= a < r_end r) l.

(** Regions of whole pages inside the pool, in order, behind [lo] and with a
    gap between each two. *)
Fixpoint chain (lo : Z) (l : KvmFreeList) : Prop :=
  match l with
  | [] => True
  | r :: rest => lo < r_start r /\ aligned (r_start r) /\ 0 < r_pages r /\ r_end r <= USABLE_END /\ chain (r_end r) rest
  end.

(** Just below the pool. *)
Definition lo0 : Z := KVM_POOL_BASE - 1.

Definition fl_ok (l : KvmFreeList) : Prop := chain lo0 l /\ (length l <= KVM_MAX_FREE_REGIONS)%nat.

Lemma new_ok : fl_ok new.
Proof. split; [|cbv; lia]. cbn [new chain]. split_and!; try done. Qed.

Lemma pool_base_pos : 0 < KVM_POOL_BASE.
Proof. reflexivity. Qed.

(** Page arithmetic inside the pool does not overflow. *)
Lemma add_pages_ok a n : 0 <= n -> 0 <= a -> a + n * 4096 < 2 ^ 64 -> add_pages a n = Ret (a + n * 4096).
Proof.
  intros. unfold add_pages, mul_chk, PAGE_SIZE. rewrite (proj2 (Z.ltb_lt _ _)) by lia. rewrite bind_Ret. unfold add_chk.
  by rewrite (proj2 (Z.ltb_lt _ _)) by lia.
Qed.

Lemma add_pages_in a n : 0 <= n -> 0 <= a -> a + n * 4096 <= USABLE_END -> add_pages a n = Ret (a + n * 4096).
Proof. intros. change USABLE_END with 18446603337294938112 in *. apply add_pages_ok; lia. Qed.

Lemma region_end_in r : 0 <= r_start r -> 0 <= r_pages r -> r_end r <= USABLE_END -> region_end r = Ret (r_end r).
Proof. intros. by apply add_pages_in. Qed.

Lemma chain_weaken lo lo' l : lo' <= lo -> chain lo l -> chain lo' l.
Proof. destruct l; cbn; [done|]. intros ? (? & ?). split; [lia|done]. Qed.

Lemma chain_start lo l : chain lo l -> Forall (fun r => lo < r_start r) l.
Proof.
  revert lo. induction l as [|r l IH]; intros lo; cbn; [constructor|]. intros (H1 & H2 & H3 & H4 & H5). constructor; [done|].
  eapply Forall_impl; [by apply IH|]. cbn. intros x Hx. unfold r_end in Hx. lia.
Qed.

Lemma chain_free lo l a : chain lo l -> is_free l a -> lo < a < USABLE_END.
Proof.
  revert lo. induction l as [|r l IH]; intros lo; cbn; [by intros _ ?%Exists_nil|]. intros (H1 & H2 & H3 & H4 & H5) [H|H]%Exists_cons; [lia|].
  specialize (IH _ H5 H). unfold r_end in *. lia.
Qed.

Lemma aligned_end r : aligned (r_start r) -> aligned (r_end r).
Proof. unfold aligned, r_end. intros H. by rewrite Z_mod_plus_full. Qed.

Lemma aligned_add a n : aligned a -> aligned (a + n * 4096).
Proof. unfold aligned. intros H. by rewrite Z_mod_plus_full. Qed.

Lemma is_free_cons r l a : is_free (r :: l) a <-> r_start r <= a < r_end r \/ is_free l a.
Proof. apply Exists_cons. Qed.

Lemma is_free_app l l' a : is_free (l ++ l') a <-> is_free l a \/ is_free l' a.
Proof. apply Exists_app. Qed.

Definition has_room (l : KvmFreeList) (base n : Z) : Prop := forall a, span base n a -> is_free l a.

(** A run of free pages lies inside one region. *)
Lemma room_cons lo r l base n : chain lo (r :: l) -> 0 < n -> has_room (r :: l) base n ->
  (r_start r <= base /\ base + n * 4096 <= r_end r) \/ has_room l base n.
Proof.
  intros (H1 & H2 & H3 & H4 & H5) Hn Hr. assert (Hs : span base n base) by (unfold span; lia).
  pose proof (proj1 (is_free_cons _ _ _) (Hr base Hs)) as [Hb|Hb].
  - left. split; [lia|]. destruct (Z.le_gt_cases (base + n * 4096) (r_end r)) as [|Hgt]; [done|]. exfalso.
    destruct (proj1 (is_free_cons _ _ _) (Hr (r_end r) ltac:(unfold span; lia))) as [?|Hf]; [lia|].
    pose proof (chain_free _ _ _ H5 Hf). lia.
  - right. intros a Ha. destruct (proj1 (is_free_cons _ _ _) (Hr a Ha)) as [Hf|]; [|done].
    pose proof (chain_free _ _ _ H5 Hb). unfold span in Ha. lia.
Qed.

Lemma alloc_from_spec n l : forall lo, KVM_POOL_BASE - 1 <= lo -> 0 < n -> chain lo l ->
  exists r l', alloc_from n l = Ret (r, l') /\ chain lo l' /\ (length l' <= length l)%nat /\
    match r with
    | Ok base => lo < base /\ aligned base /\ base + n * 4096 <= USABLE_END /\ has_room l base n /\
        (forall a, is_free l' a <-> is_free l a /\ ~ span base n a) /\
        (forall b, has_room l b n -> base <= b)
    | Err e => e = OutOfVirtualMemory /\ l' = l /\ forall b, ~ has_room l b n
    end.
Proof.
  pose proof pool_base_pos as Hpos. induction l as [|r l IH]; intros lo Hlo Hn Hc; cbn [alloc_from].
  - eexists _, _. split; [done|]. split_and!; [done..|]. intros b Hr. specialize (Hr b ltac:(unfold span; lia)). by apply Exists_nil in Hr.
  - pose proof Hc as (H1 & H2 & H3 & H4 & H5). destruct (Z.leb_spec n (r_pages r)) as [Hle|Hgt].
    + assert (Hroom : has_room (r :: l) (r_start r) n).
      { intros a Ha. apply is_free_cons. left. unfold span, r_end in *. lia. }
      assert (Hlow : forall b, has_room (r :: l) b n -> r_start r <= b).
      { intros b Hb. destruct (room_cons _ _ _ _ _ Hc Hn Hb) as [?|Hb']; [lia|]. specialize (Hb' b ltac:(unfold span; lia)).
        pose proof (chain_free _ _ _ H5 Hb'). unfold r_end in *. lia. }
      destruct (Z.eqb_spec (r_pages r - n) 0) as [He|Hne].
      * eexists _, _. split; [done|]. split_and!; try done; [eapply chain_weaken; [|done]; unfold r_end; lia|cbn; lia|unfold r_end in *; lia|].
        intros a. rewrite is_free_cons. unfold span. split.
        -- intros Hf. split; [by right|]. pose proof (chain_free _ _ _ H5 Hf). unfold r_end in *. lia.
        -- intros [[?|?] Hs]; [unfold r_end in *; lia|done].
      * rewrite add_pages_in by (unfold r_end in *; lia). rewrite bind_Ret. eexists _, _. split; [done|].
        assert (Hend : r_end (mkRegion (r_start r + n * 4096) (r_pages r - n)) = r_end r) by (unfold r_end; cbn; lia).
        split_and!; try done.
        -- cbn [chain r_start r_pages]. rewrite Hend. split_and!; try done; [lia|by apply aligned_add|lia].
        -- unfold r_end in *; lia.
        -- intros a. rewrite !is_free_cons, Hend. cbn [r_start]. unfold span. split.
           ++ intros [?|Hf]; [split; [left; lia|lia]|]. split; [by right|]. pose proof (chain_free _ _ _ H5 Hf). unfold r_end in *. lia.
           ++ intros [[?|?] Hs]; [left; lia|by right].
    + destruct (IH (r_end r) ltac:(unfold r_end; lia) Hn H5) as (x & l' & E & Hc' & Hlen & Hx). rewrite E, bind_Ret.
      eexists _, _. split; [done|]. cbn [fst snd]. split; [by split_and!|]. split; [cbn; lia|].
      assert (Hskip : forall b, has_room (r :: l) b n -> has_room l b n).
      { intros b Hb. destruct (room_cons _ _ _ _ _ Hc Hn Hb) as [?|?]; [unfold r_end in *; lia|done]. }
      destruct x as [base|e].
      * destruct Hx as (X1 & X2 & X3 & X4 & X5 & X6). split_and!; try done; [unfold r_end in *; lia| | |auto].
        -- intros a Ha. apply is_free_cons. right. auto.
        -- intros a. rewrite !is_free_cons, X5. unfold span. split; [|tauto]. intros [?|?]; [|tauto]. split; [by left|]. lia.
      * destruct Hx as (-> & -> & Hx). split_and!; try done. intros b Hb%Hskip. by eapply Hx.
Qed.

Lemma try_alloc_spec l n : fl_ok l -> 0 <= n ->
  exists r l', try_alloc l n = Ret (r, l') /\ fl_ok l' /\
    match r with
    | Ok base => 0 < n /\ KVM_POOL_BASE <= base /\ aligned base /\ base + n * 4096 <= USABLE_END /\ has_room l base n /\
        (forall a, is_free l' a <-> is_free l a /\ ~ span base n a) /\
        (forall b, has_room l b n -> base <= b)
    | Err e => e = OutOfVirtualMemory /\ l' = l /\ (0 < n -> forall b, ~ has_room l b n)
    end.
Proof.
  intros [Hc Hl] Hn. unfold try_alloc. destruct (Z.eqb_spec n 0) as [->|Hne].
  - eexists _, _. split_and!; try done.
  - destruct (alloc_from_spec n l lo0 ltac:(unfold lo0; lia) ltac:(lia) Hc) as (r & l' & E & Hc' & Hl' & Hr). rewrite E.
    eexists _, _. split; [done|]. split; [split; [done|lia]|]. destruct r; [|naive_solver].
    destruct Hr as (? & ? & ? & ? & ? & ?). unfold lo0 in *. split_and!; try done; lia.
Qed.

Definition last_end (lo : Z) (l : KvmFreeList) : Z := match last l with Some r => r_end r | None => lo end.

Lemma last_end_cons lo r l : last_end lo (r :: l) = last_end (r_end r) l.
Proof. unfold last_end. rewrite last_cons. by destruct (last l). Qed.

Lemma chain_app lo l l' : chain lo (l ++ l') <-> chain lo l /\ chain (last_end lo l) l'.
Proof.
  revert lo. induction l as [|r l IH]; intros lo; cbn [app chain].
  - unfold last_end. cbn. tauto.
  - rewrite last_end_cons, IH. tauto.
Qed.

Lemma chain_free_last lo l a : chain lo l -> is_free l a -> a < last_end lo l.
Proof.
  revert lo. induction l as [|r l IH]; intros lo; [by intros _ ?%Exists_nil|]. intros (H1 & H2 & H3 & H4 & H5) Hf.
  rewrite last_end_cons. apply is_free_cons in Hf as [?|?]; [|by apply IH].
  assert (r_end r <= last_end (r_end r) l); [|lia]. clear -H5. revert H5. generalize (r_end r). induction l as [|x l IH]; intros e H; [done|].
  rewrite last_end_cons. destruct H as (? & ? & ? & ? & H). specialize (IH _ H). unfold r_end in *. lia.
Qed.

Lemma insertion_split l s : exists A B, l = A ++ B /\ length A = insertion_point l s /\ Forall (fun r => r_start r <= s) A /\
  match B with r :: _ => s < r_start r | [] => True end.
Proof.
  induction l as [|r l (A & B & -> & HA & HF & HB)]; [by exists [], []|]. cbn [insertion_point].
  destruct (Z.ltb_spec s (r_start r)) as [Hs|Hs]; [by exists [], (r :: A ++ B)|]. exists (r :: A), B. split_and!; [done|cbn; lia|by constructor|done].
Qed.

(** The regions around a range that overlaps none of them. *)
Record around (A B : KvmFreeList) (s e : Z) : Prop := {
  ar_before : forall a, is_free A a -> a < s;
  ar_behind : forall a, is_free B a -> e <= a;
}.

Lemma around_free A B s n a : around A B s (s + n * 4096) -> span s n a -> ~ is_free (A ++ B) a.
Proof. intros [H1 H2] Ha [Hf%H1|Hf%H2]%is_free_app; unfold span in Ha; lia. Qed.

Lemma chain_head_start lo B e : chain lo B -> match B with r :: _ => e <= r_start r | [] => True end -> forall a, is_free B a -> e <= a.
Proof.
  destruct B as [|r B]; [by intros _ _ a ?%Exists_nil|]. intros (H1 & H2 & H3 & H4 & H5) He a [?|Hf]%is_free_cons; [lia|].
  pose proof (chain_free _ _ _ H5 Hf). unfold r_end in *. lia.
Qed.

(** A new region between its neighbours, which it does not touch. *)
Lemma chain_insert A B r : chain lo0 (A ++ B) -> last_end lo0 A < r_start r -> aligned (r_start r) -> 0 < r_pages r -> r_end r <= USABLE_END ->
  match B with x :: _ => r_end r < r_start x | [] => True end -> chain lo0 (A ++ r :: B).
Proof.
  intros [HA HB]%chain_app H1 H2 H3 H4 H5. apply chain_app. split; [done|]. cbn. split_and!; try done.
  destruct B as [|x B]; [done|]. destruct HB as (_ & HB). by split.
Qed.

Definition adds (l l' : KvmFreeList) (s n : Z) : Prop := forall a, is_free l' a <-> is_free l a \/ span s n a.

(** Widening the region before, and joining it with the one behind. *)
Lemma adds_before A p B s n : s = r_end p -> 0 < n -> 0 < r_pages p -> adds (A ++ p :: B) (A ++ mkRegion (r_start p) (r_pages p + n) :: B) s n.
Proof.
  intros -> Hn Hp a. rewrite !is_free_app, !is_free_cons. unfold span, r_end. cbn [r_start r_pages].
  assert (r_start p <= a < r_start p + (r_pages p + n) * 4096 <->
    r_start p <= a < r_start p + r_pages p * 4096 \/ r_start p + r_pages p * 4096 <= a < r_start p + r_pages p * 4096 + n * 4096) by lia.
  tauto.
Qed.

Lemma adds_behind A x B s n : r_start x = s + n * 4096 -> 0 < n -> 0 < r_pages x -> adds (A ++ x :: B) (A ++ mkRegion s (n + r_pages x) :: B) s n.
Proof.
  intros Hx Hn Hp a. rewrite !is_free_app, !is_free_cons. unfold span, r_end. cbn [r_start r_pages]. rewrite Hx.
  assert (s <= a < s + (n + r_pages x) * 4096 <-> s + n * 4096 <= a < s + n * 4096 + r_pages x * 4096 \/ s <= a < s + n * 4096) by lia.
  tauto.
Qed.

Lemma adds_both A p x B s n : s = r_end p -> r_start x = s + n * 4096 -> 0 < n -> 0 < r_pages p -> 0 < r_pages x ->
  adds (A ++ p :: x :: B) (A ++ mkRegion (r_start p) (r_pages p + n + r_pages x) :: B) s n.
Proof.
  intros -> Hx Hn Hp Hq a. rewrite !is_free_app, !is_free_cons. unfold span, r_end in *. cbn [r_start r_pages]. rewrite Hx.
  assert (r_start p <= a < r_start p + (r_pages p + n + r_pages x) * 4096 <->
    r_start p <= a < r_start p + r_pages p * 4096 \/
    r_start p + r_pages p * 4096 + n * 4096 <= a < r_start p + r_pages p * 4096 + n * 4096 + r_pages x * 4096 \/
    r_start p + r_pages p * 4096 <= a < r_start p + r_pages p * 4096 + n * 4096) by lia.
  tauto.
Qed.

Lemma adds_new A B s n : adds (A ++ B) (A ++ mkRegion s n :: B) s n.
Proof. intros a. rewrite !is_free_app, is_free_cons. unfold span, r_end. cbn [r_start r_pages]. tauto. Qed.

(** What [free] gives back when the range is allocated. *)
Definition freed (l : KvmFreeList) (s n : Z) (r : result unit KvmFreeListError) (l' : KvmFreeList) : Prop :=
  match r with
  | Ok _ => adds l l' s n
  | Err e => e = RegionTableFull /\ l' = l /\ length l = KVM_MAX_FREE_REGIONS /\ ~ is_free l (s - 1) /\ ~ is_free l (s + n * 4096)
  end.

Lemma delete_behind {X} (A : list X) p x B : delete (S (length A)) (A ++ p :: x :: B) = A ++ p :: B.
Proof. induction A; cbn; [done|]. by f_equal. Qed.

Section Free.
Context (A B : KvmFreeList) (s n : Z).
Context (Hl : fl_ok (A ++ B)) (Hs : aligned s) (Hn : 0 < n) (Hbase : KVM_POOL_BASE <= s) (Hend : s + n * 4096 <= USABLE_END).
Context (Hbefore : last_end lo0 A <= s) (Hbehind : match B with x :: _ => s + n * 4096 <= r_start x | [] => True end).

Lemma free_behind_spec : last_end lo0 A < s ->
  exists r l', free_behind (A ++ B) s n (s + n * 4096) (length A) = Ret (r, l') /\ fl_ok l' /\ freed (A ++ B) s n r l'.
Proof.
  intros Hlt. destruct Hl as [Hc Hlen]. pose proof (proj1 (chain_app _ _ _) Hc) as [HA HB]. unfold free_behind, KvmFreeList in *.
  assert (Hnew : match B with x :: _ => s + n * 4096 < r_start x | [] => True end ->
    exists r l', (if (KVM_MAX_FREE_REGIONS <=? length (A ++ B))%nat then Ret (Err RegionTableFull, A ++ B)
      else Ret (Ok tt, take (length A) (A ++ B) ++ mkRegion s n :: drop (length A) (A ++ B))) = Ret (r, l') /\ fl_ok l' /\ freed (A ++ B) s n r l').
  { intros Hx. destruct (Nat.leb_spec KVM_MAX_FREE_REGIONS (length (A ++ B))).
    - eexists _, _. split; [done|]. split; [done|]. cbn [freed]. split_and!; [done|done|lia| |].
      + intros [Hf|Hf]%is_free_app; [pose proof (chain_free_last _ _ _ HA Hf); lia|].
        pose proof (chain_head_start _ _ _ HB Hbehind _ Hf). lia.
      + intros [Hf|Hf]%is_free_app; [pose proof (chain_free_last _ _ _ HA Hf); lia|].
        pose proof (chain_head_start _ _ (s + n * 4096 + 1) HB ltac:(destruct B; [done|lia]) _ Hf). lia.
    - rewrite take_app_length, drop_app_length. eexists _, _. split; [done|]. split; [split|apply adds_new].
      + by apply chain_insert.
      + rewrite length_app in *. cbn. lia. }
  destruct B as [|x B']; [by rewrite lookup_ge_None_2 by (rewrite app_nil_r; lia); apply Hnew|].
  rewrite list_lookup_middle by done. destruct (Z.eqb_spec (r_start x) (s + n * 4096)) as [He|Hne]; [|apply Hnew; lia].
  destruct HB as (HB1 & HB2 & HB3 & HB4 & HB5). eexists _, _. rewrite insert_app_r_alt, Nat.sub_diag by done. cbn [insert list_insert].
  split; [done|]. split; [split|by apply adds_behind].
  - apply chain_app. split; [done|]. cbn [chain r_start r_pages]. assert (r_end (mkRegion s (n + r_pages x)) = r_end x) as -> by (unfold r_end; cbn; lia).
    by split_and!; [..|lia|done|].
  - rewrite length_app in *. done.
Qed.
End Free.

Lemma last_end_snoc lo A p : last_end lo (A ++ [p]) = r_end p.
Proof. unfold last_end. by rewrite last_snoc. Qed.

(** The region before touches the range. *)
Lemma kvm_free_merge_spec A p B s n :
  fl_ok ((A ++ [p]) ++ B) -> 0 < n -> s + n * 4096 <= USABLE_END -> s = r_end p ->
  match B with x :: _ => s + n * 4096 <= r_start x | [] => True end ->
  let l := (A ++ [p]) ++ B in
  let l' := match B with
    | x :: B' => if r_start x =? s + n * 4096 then A ++ mkRegion (r_start p) (r_pages p + n + r_pages x) :: B'
                 else A ++ mkRegion (r_start p) (r_pages p + n) :: B
    | [] => A ++ [mkRegion (r_start p) (r_pages p + n)]
    end in
  fl_ok l' /\ adds l l' s n.
Proof.
  intros [Hc Hlen] Hn Hend Hs Hb. rewrite <- app_assoc in *. cbn [app] in *. apply chain_app in Hc as [HA (H1 & H2 & H3 & H4 & HB)].
  assert (Hm : r_end (mkRegion (r_start p) (r_pages p + n)) = s + n * 4096) by (subst s; unfold r_end; cbn; lia).
  destruct B as [|x B]; cbn zeta.
  - split; [split|by apply (adds_before A p [])].
    + apply chain_app. split; [done|]. cbn [chain r_start r_pages]. rewrite Hm. by split_and!; [..|lia|done|].
    + rewrite length_app in *. done.
  - destruct HB as (B1 & B2 & B3 & B4 & B5). destruct (Z.eqb_spec (r_start x) (s + n * 4096)) as [He|Hne].
    + split; [split|by apply adds_both].
      * apply chain_app. split; [done|]. cbn [chain r_start r_pages].
        assert (r_end (mkRegion (r_start p) (r_pages p + n + r_pages x)) = r_end x) as -> by (subst s; unfold r_end in *; cbn; lia).
        by split_and!; [..|lia|done|].
      * rewrite length_app in *. cbn in *. lia.
    + split; [split|by apply adds_before].
      * apply chain_app. split; [done|]. cbn [chain r_start r_pages]. rewrite Hm. split_and!; try done; lia.
      * rewrite length_app in *. done.
Qed.

Lemma kvm_free_spec l s n : fl_ok l -> aligned s -> 0 <= s -> 0 < n -> s + n * 4096 < 2 ^ 64 ->
  exists r l', free l s n = Ret (r, l') /\ fl_ok l' /\
    match r with
    | Err OutOfPool => l' = l /\ ~ (KVM_POOL_BASE <= s /\ s + n * 4096 <= USABLE_END)
    | Err DoubleFree => l' = l /\ exists a, span s n a /\ is_free l a
    | r => KVM_POOL_BASE <= s /\ s + n * 4096 <= USABLE_END /\ (forall a, span s n a -> ~ is_free l a) /\ freed l s n r l'
    end.
Proof.
  intros Hl Ha H0 Hn Hov. unfold free, KvmFreeList in *. rewrite (proj2 (Z.eqb_neq n 0)) by lia.
  rewrite add_pages_ok, bind_Ret by lia.
  fold USABLE_END. destruct (Z.ltb_spec s KVM_POOL_BASE) as [Hb|Hb]; [cbn [orb]; eexists _, _; split; [done|]; split; [done|]; split; [done|lia]|].
  destruct (Z.ltb_spec USABLE_END (s + n * 4096)) as [He|He]; [cbn [orb]; eexists _, _; split; [done|]; split; [done|]; split; [done|lia]|]. cbn [orb].
  destruct (insertion_split l s) as (A & B & -> & <- & HA & HB). destruct Hl as [Hc Hlen]. pose proof (proj1 (chain_app _ _ _) Hc) as [CA CB].
  assert (Hnx : (A ++ B) !! length A = head B) by (rewrite lookup_app_r, Nat.sub_diag by done; by destruct B). rewrite Hnx.
  assert (Hover : forall x, head B = Some x -> (r_start x <? s + n * 4096) = true -> exists a, span s n a /\ is_free (A ++ B) a).
  { intros x Hx Hlt%Z.ltb_lt. destruct B as [|y B]; [done|]. injection Hx as ->. exists (r_start x). destruct CB as (_ & _ & ? & _).
    split; [unfold span; lia|]. apply is_free_app. right. apply is_free_cons. left. unfold r_end. lia. }
  assert (Hdone : last_end lo0 A <= s -> match B with x :: _ => s + n * 4096 <= r_start x | [] => True end -> forall a, span s n a -> ~ is_free (A ++ B) a).
  { intros H1 H2 a Hs. apply (around_free A B s n a); [|done]. constructor.
    - intros b Hf. pose proof (chain_free_last _ _ _ CA Hf). lia.
    - by apply (chain_head_start _ _ _ CB). }
  assert (Hnext : (match head B with Some r => r_start r <? s + n * 4096 | None => false end) = false ->
    match B with x :: _ => s + n * 4096 <= r_start x | [] => True end) by (destruct B; [done|]; apply Z.ltb_ge).
  assert (Hbehind : last_end lo0 A < s -> match B with x :: _ => s + n * 4096 <= r_start x | [] => True end ->
    exists r l', free_behind (A ++ B) s n (s + n * 4096) (length A) = Ret (r, l') /\ fl_ok l' /\
      match r with
      | Err OutOfPool => l' = A ++ B /\ ~ (KVM_POOL_BASE <= s /\ s + n * 4096 <= USABLE_END)
      | Err DoubleFree => l' = A ++ B /\ exists a, span s n a /\ is_free (A ++ B) a
      | r => KVM_POOL_BASE <= s /\ s + n * 4096 <= USABLE_END /\ (forall a, span s n a -> ~ is_free (A ++ B) a) /\ freed (A ++ B) s n r l'
      end).
  { intros H1 H2. destruct (free_behind_spec A B s n (conj Hc Hlen) Ha Hn He H2 H1) as (r & l' & E & O & F). eexists _, _. split; [done|]. split; [done|].
    assert (forall a, span s n a -> ~ is_free (A ++ B) a) by (apply Hdone; [lia|done]).
    destruct r as [u|e]; [by split_and!|]. pose proof F as [-> _]. by split_and!. }
  assert (Hprev : exists o, (match length A with O => None | S i => (A ++ B) !! i end) = o /\ o = last A).
  { eexists. split; [done|]. destruct A as [|p A _] using rev_ind; [done|]. rewrite length_app, Nat.add_1_r, last_snoc, <- app_assoc. by apply list_lookup_middle. }
  destruct Hprev as (o & -> & ->). destruct (last A) as [p|] eqn:Hp.
  - apply last_Some in Hp as [A' ->]. rewrite last_end_snoc in *. pose proof (proj1 (chain_app _ _ _) CA) as [_ (P1 & P2 & P3 & P4 & _)].
    assert (r_start p <= s) as Hps by (apply Forall_app in HA as [_ HA2]; by inversion HA2).
    assert (0 <= r_start p) as Hp0.
    { pose proof (chain_start _ _ CA) as [_ HS]%Forall_app. inversion HS; subst. pose proof pool_base_pos. unfold lo0 in *. lia. }
    rewrite (region_end_in p), !bind_Ret by lia.
    destruct (s <? r_end p) eqn:Hov1; [eexists _, _; split; [done|]; split; [done|]; split; [done|]|].
    { exists s. split; [unfold span; lia|]. apply is_free_app. left. apply is_free_app. right. apply is_free_cons. left. lia. }
    apply Z.ltb_ge in Hov1.
    destruct (match head B with Some r => r_start r <? s + n * 4096 | None => false end) eqn:Hov2.
    { eexists _, _. split; [done|]. split; [done|]. split; [done|]. destruct (head B) as [x|] eqn:Hx; [by apply (Hover x)|done]. }
    clear Hov2. pose proof (Hnext eq_refl) as Hov2. case_bool_decide as Hm; [|apply Hbehind; [|done]; assert (r_end p <> s) by congruence; lia].
    injection Hm as Hm. destruct (kvm_free_merge_spec A' p B s n (conj Hc Hlen) Hn He (eq_sym Hm) Hov2) as [F1 F2].
    assert (Hme : r_end (mkRegion (r_start p) (r_pages p + n)) = s + n * 4096) by (unfold r_end in *; cbn; lia).
    rewrite region_end_in, bind_Ret, Hme by (rewrite ?Hme; cbn; lia).
    rewrite length_app, Nat.add_1_r. cbn [pred]. rewrite <- app_assoc. cbn [app]. rewrite <- app_assoc in F2, Hdone. cbn [app] in F2, Hdone.
    assert (Hins : forall r C, <[length A' := r]> (A' ++ p :: C) = A' ++ r :: C) by (intros; rewrite insert_app_r_alt, Nat.sub_diag by done; done).
    destruct B as [|x B']; cbn [head hd_error]; rewrite ?Hins.
    + eexists _, _. split; [done|]. split; [done|]. split_and!; [done|done|by apply Hdone|done].
    + cbn zeta in F1, F2. revert F1 F2. destruct (r_start x =? s + n * 4096); intros F1 F2; cbn [r_pages]; rewrite ?Hins, ?delete_behind; eexists _, _.
      * split; [done|]. split; [done|]. split_and!; [done|done|by apply Hdone|done].
      * split; [done|]. split; [done|]. split_and!; [done|done|by apply Hdone|done].
  - apply last_None in Hp as ->. rewrite bind_Ret. cbn [app length] in *.
    destruct (match head B with Some r => r_start r <? s + n * 4096 | None => false end) eqn:Hov2.
    { eexists _, _. split; [done|]. split; [done|]. split; [done|]. destruct (head B) as [x|] eqn:Hx; [by apply (Hover x)|done]. }
    apply Hbehind; [unfold last_end, lo0; cbn; lia|by apply Hnext].
Qed.
