(* ===== verification/KvmPool.v ===== *)
(** The kernel's virtual address pool in use (src/mm/kvm.rs): boot set-up of the
    page-table tree, allocation and mapping of ranges with their roll-back, and
    tear-down. Table memory is a map from physical address to 64-bit word, as
    in PageTable; the frame allocator is the interface of Frames. TLB
    invalidation carries no modelled state. *)
From Stdlib Require Import ZArith Lia.
From stdpp Require Import base option gmap numbers sets fin_sets list.
From S2P Require Import Prelude FrameAlloc Frames PageTable Vmem Kvm.
Open Scope Z_scope.

Inductive KvmError := KvmOutOfVirtualMemory | OutOfPhysicalFrames.

(** The allocator's singleton, the table memory and the frame allocator. *)
Record Pool (M : Type) := mkPool { p_list : KvmFreeList; p_l1 : Z; p_initialized : bool; p_mem : gmap Z Z; p_frames : M }.
Arguments mkPool {M}. Arguments p_list {M}. Arguments p_l1 {M}. Arguments p_initialized {M}. Arguments p_mem {M}. Arguments p_frames {M}.

Definition read_pte (m : gmap Z Z) (pte_paddr : Z) : Z := arr_peek m pte_paddr.
Definition write_pte (m : gmap Z Z) (pte_paddr raw : Z) : gmap Z Z := <[pte_paddr := raw]> m.

(** * Boot *)

Section Init.
Context {M : Type} (alloc_contiguous : M -> Z -> outcome (option Z * M)).

(** The parent entries of L2 table [l2_idx]. *)
Definition stitch (base l2_idx : Z) (m : gmap Z Z) : outcome (gmap Z Z) :=
  let l2_paddr := base + PAGE_SIZE + l2_idx * PAGE_SIZE in
  let l3_base := base + (1 + KVM_L2_TABLES_COUNT) * PAGE_SIZE in
  let m := write_pte m (base + l2_idx * 8) (new_table l2_paddr) in
  for_range 0 512 (fun sub m =>
    let global_l3_idx := l2_idx * 512 + sub in
    if KVM_L3_TABLES_COUNT <=? global_l3_idx then Ret m
    else Ret (write_pte m (l2_paddr + sub * 8) (new_table (l3_base + global_l3_idx * PAGE_SIZE)))) m.

Definition kvm_init (k : Pool M) (kernel_l0_paddr : Z) : outcome (Pool M) :=
  _ ← assert (negb (p_initialized k));
  x ← alloc_contiguous (p_frames k) KVM_BOOTSTRAP_TABLE_PAGES;
  first_page ← unwrap x.1;
  let base := start_addr first_page in
  m ← for_range 0 (Z.to_nat KVM_BOOTSTRAP_TABLE_PAGES) (fun i m => Ret (zero_table m (base + i * PAGE_SIZE))) (p_mem k);
  m ← for_range 0 (Z.to_nat KVM_L2_TABLES_COUNT) (stitch base) m;
  m ← entry_set m kernel_l0_paddr KVM_L0_INDEX (new_table base);
  Ret (mkPool (p_list k) base true m x.2).
End Init.

(** * Mapping *)

Section Drive.
Context {M : Type} (next_backing : Z -> M -> outcome (result Z KvmError * M)).

Fixpoint drive_map_walk (fuel : nat) (w : KvmMapWalk) (pages_done : Z) (m : gmap Z Z) (s : M)
  : outcome (result unit KvmError * Z * gmap Z Z * M) :=
  match fuel with
  | O => Panic PFuel
  | S fuel' =>
      st ← map_current_step w;
      match st with
      | ReadL1Pte a => w ← map_step_l1 w (read_pte m a); drive_map_walk fuel' w pages_done m s
      | ReadL2Pte a => w ← map_step_l2 w (read_pte m a); drive_map_walk fuel' w pages_done m s
      | ReadL3Pte a => w ← map_step_l3 w (read_pte m a); drive_map_walk fuel' w pages_done m s
      | WantBacking =>
          r ← next_backing pages_done s;
          match r with
          | (Err e, s) => Ret (Err e, pages_done, m, s)
          | (Ok paddr, s) => w ← supply_backing w paddr; drive_map_walk fuel' w pages_done m s
          end
      | WritePagePte a entry => w ← step_pte_written w; drive_map_walk fuel' w (pages_done + 1) (write_pte m a entry) s
      | StepDone => Ret (Ok tt, pages_done, m, s)
      | StepFault => Panic PUnreachable
      end
  end.
End Drive.

(** Five rounds for each page, and the last one. *)
Definition walk_fuel (pages : Z) : nat := 5 * Z.to_nat pages + 1.

(** * Tear-down *)

Section Ops.
Context {M : Type} `{FrameOps M}.

Definition TO_FREE_LEN : nat := 64.

(** The walk of [tear_down_range]; [to_free] holds the frames to give back
    after it. *)
Fixpoint tear_down_walk (fuel : nat) (w : KvmFreeWalk) (dealloc_backing : bool) (m : gmap Z Z) (to_free : list Z) (s : M)
  : outcome (gmap Z Z * list Z * M) :=
  match fuel with
  | O => Panic PFuel
  | S fuel' =>
      st ← free_current_step w;
      match st with
      | FReadL1Pte a => w ← free_step_l1 w (read_pte m a); tear_down_walk fuel' w dealloc_backing m to_free s
      | FReadL2Pte a => w ← free_step_l2 w (read_pte m a); tear_down_walk fuel' w dealloc_backing m to_free s
      | FReadL3Pte a => w ← free_step_l3 w (read_pte m a); tear_down_walk fuel' w dealloc_backing m to_free s
      | ClearPte a backing =>
          let m := write_pte m a 0 in
          x ← (if dealloc_backing then
                 if (length to_free <? TO_FREE_LEN)%nat then Ret (to_free ++ [containing_page backing], s)
                 else s ← fr_dealloc_page s (containing_page backing); Ret (to_free, s)
               else Ret (to_free, s));
          w ← step_pte_cleared w;
          tear_down_walk fuel' w dealloc_backing m x.1 x.2
      | FStepDone => Ret (m, to_free, s)
      | FStepFault => Panic PUnreachable
      end
  end.

Definition tear_down_range (k : Pool M) (kva pages : Z) (dealloc_backing : bool) : outcome (Pool M) :=
  if pages =? 0 then Ret k else
  x ← tear_down_walk (walk_fuel pages) (free_start kva pages (p_l1 k)) dealloc_backing (p_mem k) [] (p_frames k);
  let '(m, to_free, s) := x in
  s ← dealloc_all to_free s;
  r ← free (p_list k) kva pages;
  Ret (mkPool r.2 (p_l1 k) (p_initialized k) m s).

(** * The entry points *)

(** Undoes a mapping that stopped after [pages_done] pages. *)
Definition roll_back (k : Pool M) (kva pages pages_done : Z) (dealloc_backing : bool) : outcome (Pool M) :=
  if 0 <? pages_done then tear_down_range k kva pages_done dealloc_backing
  else r ← free (p_list k) kva pages; Ret (mkPool r.2 (p_l1 k) (p_initialized k) (p_mem k) (p_frames k)).

Definition backing_alloc (_ : Z) (s : M) : outcome (result Z KvmError * M) :=
  r ← fr_alloc_page s;
  Ret (match r.1 with Some frame => Ok (start_addr frame) | None => Err OutOfPhysicalFrames end, r.2).

Definition alloc_kernel_pages (k : Pool M) (pages : Z) : outcome (result Z KvmError * Pool M) :=
  _ ← assert (p_initialized k);
  if pages =? 0 then Ret (Err KvmOutOfVirtualMemory, k) else
  a ← try_alloc (p_list k) pages;
  let k := mkPool a.2 (p_l1 k) (p_initialized k) (p_mem k) (p_frames k) in
  match a.1 with
  | Err _ => Ret (Err KvmOutOfVirtualMemory, k)
  | Ok kva =>
      x ← drive_map_walk backing_alloc (walk_fuel pages) (map_start kva pages (p_l1 k)) 0 (p_mem k) (p_frames k);
      let '(result, pages_done, m, s) := x in
      let k := mkPool (p_list k) (p_l1 k) (p_initialized k) m s in
      match result with
      | Err e => k ← roll_back k kva pages pages_done true; Ret (Err e, k)
      | Ok _ => Ret (Ok kva, k)
      end
  end.

Definition map_existing (k : Pool M) (page : Z) : outcome (result Z KvmError * Pool M) :=
  _ ← assert (p_initialized k);
  a ← try_alloc (p_list k) 1;
  let k := mkPool a.2 (p_l1 k) (p_initialized k) (p_mem k) (p_frames k) in
  match a.1 with
  | Err _ => Ret (Err KvmOutOfVirtualMemory, k)
  | Ok kva =>
      x ← drive_map_walk (fun _ s => Ret (Ok (start_addr page), s)) (walk_fuel 1) (map_start kva 1 (p_l1 k)) 0 (p_mem k) (p_frames k);
      let '(result, pages_done, m, s) := x in
      let k := mkPool (p_list k) (p_l1 k) (p_initialized k) m s in
      match result with
      | Err e => k ← roll_back k kva 1 pages_done false; Ret (Err e, k)
      | Ok _ => Ret (Ok kva, k)
      end
  end.

Definition free_kernel_pages (k : Pool M) (kva pages : Z) : outcome (Pool M) :=
  _ ← assert (p_initialized k); tear_down_range k kva pages true.

Definition unmap_existing (k : Pool M) (kva pages : Z) : outcome (Pool M) :=
  _ ← assert (p_initialized k); tear_down_range k kva pages false.
End Ops.

(** * What the tables mean *)

Definition POOL_PAGES : Z := 262144.
Definition va_of (i : Z) : Z := KVM_POOL_BASE + i * 4096.
Definition l3_of (base i : Z) : Z := base + 8192 + i / 512 * 4096.
Definition slot (base i : Z) : Z := base + 8192 + i * 8.

Lemma pool_indices i : 0 <= i < POOL_PAGES -> kvm_pool_indices (va_of i) = (256, 0, i / 512, i mod 512).
Proof.
  intros Hi. unfold kvm_pool_indices, page_table_indices. rewrite !idx_arith by lia. unfold va_of, vidx, POOL_PAGES in *.
  change KVM_POOL_BASE with (33554176 * 549755813888).
  change (2 ^ 39) with 549755813888. change (2 ^ 30) with 1073741824. change (2 ^ 21) with 2097152. change (2 ^ 12) with 4096.
  assert (0 <= i / 512 < 512) as R by (split; [apply Z.div_pos|apply Z.div_lt_upper_bound]; lia).
  assert ((33554176 * 549755813888 + i * 4096) / 549755813888 = 33554176) as -> by (symmetry; apply Z.div_unique with (r := i * 4096); lia).
  assert ((33554176 * 549755813888 + i * 4096) / 1073741824 = 33554176 * 512) as -> by (symmetry; apply Z.div_unique with (r := i * 4096); lia).
  assert ((33554176 * 549755813888 + i * 4096) / 2097152 = i / 512 + 33554176 * 512 * 512) as ->.
  { symmetry. apply Z.div_unique with (r := i mod 512 * 4096); pose proof (Z.div_mod i 512); pose proof (Z.mod_pos_bound i 512); lia. }
  assert ((33554176 * 549755813888 + i * 4096) / 4096 = i + 33554176 * 512 * 512 * 512) as -> by (symmetry; apply Z.div_unique with (r := 0); lia).
  rewrite !Z_mod_plus_full, (Z.mod_small (i / 512)) by lia. done.
Qed.

Lemma kernel_page_fields phys : is_valid (build_kernel_page phys) = true /\ output_addr (build_kernel_page phys) = output_addr phys.
Proof.
  unfold build_kernel_page. destruct (with_xn_fields (new_page phys MAIR_NORMAL AP_RW_EL1 SH_INNER)) as [-> Ht].
  destruct (new_page_flags phys MAIR_NORMAL AP_RW_EL1 SH_INNER) as [Hn _]. rewrite output_new_page. split; [|done].
  rewrite Hn in Ht. by apply table_valid.
Qed.

Lemma slot_l3 base i : l3_of base i + i mod 512 * 8 = slot base i.
Proof. unfold l3_of, slot. pose proof (Z.div_mod i 512). lia. Qed.

Section Tree.
(** Memory as it is outside the tables. *)
Context (outside : gmap Z Z).

(** The tree of [kvm_init]: one L2 table and 512 L3 tables behind the L1 table
    at [base]. *)
Record tree (m : gmap Z Z) (base : Z) : Prop := {
  tr_base : page_addr base /\ base + 514 * 4096 <= 2 ^ 48;
  tr_l1 : arr_peek m base = new_table (base + 4096);
  tr_l2 : forall k, 0 <= k < 512 -> arr_peek m (base + 4096 + k * 8) = new_table (base + 8192 + k * 4096);
  tr_rest : forall a, a < base \/ base + 514 * 4096 <= a -> arr_peek m a = arr_peek outside a;
}.

(** The L3 entries map page [i] of the pool to the frame at [F i]. *)
Definition maps (m : gmap Z Z) (base : Z) (F : gmap Z Z) : Prop :=
  forall i, 0 <= i < POOL_PAGES ->
    arr_peek m (slot base i) = match F !! i with Some p => build_kernel_page p | None => 0 end.

Lemma write_slot m base F i v : tree m base -> maps m base F -> 0 <= i < POOL_PAGES ->
  tree (write_pte m (slot base i) (match v with Some p => build_kernel_page p | None => 0 end)) base /\
  maps (write_pte m (slot base i) (match v with Some p => build_kernel_page p | None => 0 end)) base (partial_alter (fun _ => v) i F).
Proof.
  intros [T1 T2 T3 T4] HM Hi. unfold write_pte, slot, POOL_PAGES in *. split; [constructor; [done| | |]|].
  - rewrite arr_peek_insert, decide_False by lia. done.
  - intros k Hk. rewrite arr_peek_insert, decide_False by lia. auto.
  - intros a Ha. rewrite arr_peek_insert, decide_False by lia. auto.
  - intros j Hj. unfold slot. rewrite arr_peek_insert. destruct (decide (i = j)) as [->|Hne].
    + rewrite decide_True by done. by rewrite lookup_partial_alter_eq.
    + rewrite decide_False by lia. rewrite lookup_partial_alter_ne by done. by apply HM.
Qed.

(** The frames [fs] at the pages from [i] on. *)
Fixpoint put {A} (i : Z) (fs : list A) (F : gmap Z A) : gmap Z A :=
  match fs with [] => F | p :: fs' => put (i + 1) fs' (<[i := p]> F) end.

Lemma put_snoc {A} fs p : forall i (F : gmap Z A), put i (fs ++ [p]) F = <[i + Z.of_nat (length fs) := p]> (put i fs F).
Proof.
  induction fs as [|q fs IH]; intros i F; cbn [app put length]; [by rewrite Z.add_0_r|]. rewrite IH. f_equal. lia.
Qed.

Lemma put_lookup {A} fs : forall i (F : gmap Z A) x,
  put i fs F !! x = if decide (i <= x < i + Z.of_nat (length fs)) then fs !! Z.to_nat (x - i) else F !! x.
Proof.
  induction fs as [|p fs IH]; intros i F x; cbn [put length].
  - rewrite decide_False by lia. done.
  - rewrite IH. destruct (decide (i = x)) as [->|Hne].
    + rewrite decide_False, decide_True by lia. rewrite lookup_insert_eq. by replace (Z.to_nat (x - x)) with 0%nat by lia.
    + rewrite lookup_insert_ne by done. destruct (decide (i + 1 <= x < _)); [rewrite decide_True by lia|rewrite decide_False by lia; done].
      replace (Z.to_nat (x - i)) with (S (Z.to_nat (x - (i + 1)))) by lia. done.
Qed.

Lemma put_fmap {A B} (f : A -> B) fs : forall i F, f <$> put i fs F = put i (f <$> fs) (f <$> F).
Proof. induction fs as [|p fs IH]; intros i F; cbn [put fmap list_fmap]; [done|]. rewrite IH. by rewrite fmap_insert. Qed.

(** The map without [k] pages from [i] on. *)
Fixpoint drop_pages {A} (i : Z) (k : nat) (F : gmap Z A) : gmap Z A :=
  match k with O => F | S k' => drop_pages (i + 1) k' (delete i F) end.

Lemma drop_pages_lookup {A} k : forall i (F : gmap Z A) x,
  drop_pages i k F !! x = if decide (i <= x < i + Z.of_nat k) then None else F !! x.
Proof.
  induction k as [|k IH]; intros i F x; cbn [drop_pages].
  - rewrite decide_False by lia. done.
  - rewrite IH. destruct (decide (i = x)) as [->|Hne].
    + rewrite decide_False, decide_True by lia. by rewrite lookup_delete_eq.
    + rewrite lookup_delete_ne by done. destruct (decide (i + 1 <= x < _)); [by rewrite decide_True by lia|by rewrite decide_False by lia].
Qed.

Lemma drop_fmap {A B} (f : A -> B) k : forall i F, f <$> drop_pages i k F = drop_pages i k (f <$> F).
Proof. induction k as [|k IH]; intros i F; cbn [drop_pages]; [done|]. rewrite IH. by rewrite fmap_delete. Qed.

Lemma drop_put {A} (fs : list A) i F : (forall x, i <= x < i + Z.of_nat (length fs) -> F !! x = None) ->
  drop_pages i (length fs) (put i fs F) = F.
Proof.
  intros HF. apply map_eq. intros x. rewrite drop_pages_lookup, put_lookup. case_decide; [symmetry; auto|done].
Qed.

(** * The mapping walk over the tree *)

Section Walk.
Context (base i0 n : Z) (Hn : 0 <= n) (Hi : 0 <= i0) (Hin : i0 + n <= POOL_PAGES).

Lemma kva_at j : 0 <= j <= n -> add_pages (va_of i0) j = Ret (va_of (i0 + j)).
Proof.
  intros Hj. unfold va_of, POOL_PAGES in *. rewrite add_pages_in; [f_equal; lia|lia|pose proof pool_base_pos; lia|].
  change USABLE_END with (KVM_POOL_BASE + 1073741824). lia.
Qed.

Lemma l3_bound m j : tree m base -> 0 <= j < n -> 0 <= l3_of base (i0 + j) /\ l3_of base (i0 + j) + 4096 < 2 ^ 64 /\ page_addr (l3_of base (i0 + j)).
Proof.
  intros [[[B1 B2] B3] _ _] Hj. unfold l3_of, POOL_PAGES in *. assert (0 <= (i0 + j) / 512 < 512) by (split; [apply Z.div_pos|apply Z.div_lt_upper_bound]; lia).
  split_and!; [lia|lia|]. split; [lia|].
  replace (base + 8192 + (i0 + j) / 512 * 4096) with (base + (2 + (i0 + j) / 512) * 4096) by lia. by rewrite Z_mod_plus_full.
Qed.

Lemma next_level_at {A} j (a b c : A) : 0 < j < n ->
  exists x, next_level (va_of i0) j a b c = Ret x /\ (x = b \/ x = c /\ l3_of base (i0 + (j - 1)) = l3_of base (i0 + j)).
Proof.
  intros Hj. unfold next_level. rewrite !kva_at, !bind_Ret by lia. rewrite !pool_indices by lia. cbn [negb Z.eqb].
  eexists. split; [done|]. destruct (Z.eqb_spec ((i0 + j) / 512) ((i0 + (j - 1)) / 512)) as [E|]; [|by left].
  right. split; [done|]. unfold l3_of. by rewrite E.
Qed.

Section Map.
Context {M : Type} (next_backing : Z -> M -> outcome (result Z KvmError * M)).
Abbreviation drive := (drive_map_walk next_backing).

(** The walk is about to look for the entry of page [j]. *)
Record at_page (w : KvmMapWalk) (j : Z) : Prop := {
  ap_base : mw_base w = va_of i0;
  ap_pages : mw_pages w = n;
  ap_idx : mw_page_idx w = j;
  ap_l1 : mw_l1 w = base;
  ap_state : mw_state w = NeedL1 \/ (mw_state w = NeedL2 /\ mw_l2 w = base + 4096) \/
    (mw_state w = NeedL3 /\ mw_l2 w = base + 4096 /\ mw_l3 w = l3_of base (i0 + j));
}.

Lemma page_idx j : 0 <= j < n -> 0 <= (i0 + j) / 512 < 512 /\ 0 <= (i0 + j) mod 512 < 512.
Proof.
  intros Hj. unfold POOL_PAGES in *. split; [split; [apply Z.div_pos|apply Z.div_lt_upper_bound]; lia|apply Z.mod_pos_bound; lia].
Qed.

Lemma read_l3 m F f w j d s : tree m base -> maps m base F -> 0 <= j < n -> F !! (i0 + j) = None ->
  mw_base w = va_of i0 -> mw_page_idx w = j -> mw_state w = NeedL3 -> mw_l3 w = l3_of base (i0 + j) ->
  drive (S f) w d m s = drive f (mw_with w NeedBacking (mw_l2 w) (mw_l3 w) (mw_pending w)) d m s.
Proof.
  intros T HM Hj HF E1 E2 E3 E4. destruct (l3_bound m j T Hj) as (L1 & L2 & _). destruct (page_idx j Hj) as [_ R].
  cbn [drive_map_walk]. unfold map_current_step. rewrite E1, E2, E3, E4, kva_at, bind_Ret, pool_indices by lia.
  unfold add_chk. rewrite (proj2 (Z.ltb_lt _ _)) by lia. rewrite !bind_Ret. unfold map_step_l3, read_pte. rewrite E3, bool_decide_eq_true_2 by done.
  cbn [assert]. rewrite bind_Ret, slot_l3, (HM (i0 + j)), HF by lia. by rewrite is_valid_0, bind_Ret, E4.
Qed.

Lemma read_l2 m f w j d s : tree m base -> 0 <= j < n ->
  mw_base w = va_of i0 -> mw_page_idx w = j -> mw_state w = NeedL2 -> mw_l2 w = base + 4096 ->
  drive (S f) w d m s = drive f (mw_with w NeedL3 (mw_l2 w) (l3_of base (i0 + j)) (mw_pending w)) d m s.
Proof.
  intros T Hj E1 E2 E3 E4. destruct (l3_bound m j T Hj) as (_ & _ & L). destruct (tr_base _ _ T) as [[B1 B2] B3]. destruct (page_idx j Hj) as [R _].
  cbn [drive_map_walk]. unfold map_current_step. rewrite E1, E2, E3, E4, kva_at, bind_Ret, pool_indices by lia.
  unfold add_chk. rewrite (proj2 (Z.ltb_lt _ _)) by lia. rewrite !bind_Ret. unfold map_step_l2, read_pte. rewrite E3, bool_decide_eq_true_2 by done.
  cbn [assert]. rewrite bind_Ret, (tr_l2 _ _ T) by done. fold (l3_of base (i0 + j)). destruct (new_table_fields (l3_of base (i0 + j))) as [F1 F2].
  rewrite F1, (proj1 (table_valid _ F1)), F2, output_page by done. cbn [negb orb]. by rewrite bind_Ret, E4.
Qed.

Lemma read_l1 m f w j d s : tree m base -> 0 <= j < n ->
  mw_base w = va_of i0 -> mw_page_idx w = j -> mw_state w = NeedL1 -> mw_l1 w = base ->
  drive (S f) w d m s = drive f (mw_with w NeedL2 (base + 4096) (mw_l3 w) (mw_pending w)) d m s.
Proof.
  intros T Hj E1 E2 E3 E4. destruct (tr_base _ _ T) as [[B1 B2] B3].
  assert (P1 : page_addr (base + 4096)) by (split; [lia|]; by rewrite <- Zplus_mod_idemp_l, B2).
  cbn [drive_map_walk]. unfold map_current_step. rewrite E1, E2, E3, E4, kva_at, bind_Ret, pool_indices by lia.
  unfold add_chk. rewrite (proj2 (Z.ltb_lt _ _)) by lia. rewrite !bind_Ret, Z.add_0_r. unfold map_step_l1, read_pte. rewrite E3, bool_decide_eq_true_2 by done.
  cbn [assert]. rewrite bind_Ret, (tr_l1 _ _ T). destruct (new_table_fields (base + 4096)) as [F1 F2].
  rewrite F1, (proj1 (table_valid _ F1)), F2, output_page by done. cbn [negb orb]. by rewrite bind_Ret.
Qed.

(** The walk has found the free entry of page [j]. *)
Record found (w : KvmMapWalk) (j : Z) : Prop := {
  fo_base : mw_base w = va_of i0;
  fo_pages : mw_pages w = n;
  fo_idx : mw_page_idx w = j;
  fo_state : mw_state w = NeedBacking;
  fo_l1 : mw_l1 w = base;
  fo_l2 : mw_l2 w = base + 4096;
  fo_l3 : mw_l3 w = l3_of base (i0 + j);
}.

Lemma find_slot m F fuel w j d s : tree m base -> maps m base F -> 0 <= j < n -> F !! (i0 + j) = None -> at_page w j ->
  exists fuel' w', (fuel <= fuel')%nat /\ drive (3 + fuel) w d m s = drive fuel' w' d m s /\ found w' j.
Proof.
  intros T HM Hj HF [A1 A2 A3 A4 [A5|[(A5 & A6)|(A5 & A6 & A7)]]].
  - exists fuel. eexists. split; [done|]. change (3 + fuel)%nat with (S (S (S fuel))).
    rewrite (read_l1 m _ w j) by done. rewrite (read_l2 m _ _ j) by done. rewrite (read_l3 m F _ _ j) by done. split; [done|]. by constructor.
  - exists (1 + fuel)%nat. eexists. split; [lia|]. change (3 + fuel)%nat with (S (S (1 + fuel))).
    rewrite (read_l2 m _ w j) by done. rewrite (read_l3 m F _ _ j) by done. split; [done|]. by constructor.
  - exists (2 + fuel)%nat. eexists. split; [lia|]. change (3 + fuel)%nat with (S (2 + fuel)).
    rewrite (read_l3 m F _ w j) by done. split; [done|]. by constructor.
Qed.
(** What the frames supplied so far say of the allocator. *)
Context (P : list Z -> M -> Prop) (Fails : list Z -> KvmError -> Prop).
Context (Hsupply : forall fs s, P fs s ->
  exists r s', next_backing (Z.of_nat (length fs)) s = Ret (r, s') /\ match r with Ok p => P (fs ++ [p]) s' | Err e => Fails fs e /\ P fs s' end).

Definition stage (w : KvmMapWalk) (j : Z) : Prop :=
  if decide (j = n) then mw_base w = va_of i0 /\ mw_page_idx w = n /\ mw_state w = MapDone else at_page w j.

(** The frame [p] goes to the entry the walk has found. *)
Lemma fill_slot m F fuel w j d s p s' : tree m base -> maps m base F -> 0 <= j < n -> found w j -> next_backing d s = Ret (Ok p, s') ->
  exists w' m', drive (2 + fuel) w d m s = drive fuel w' (d + 1) m' s' /\ tree m' base /\ maps m' base (<[i0 + j := p]> F) /\ stage w' (j + 1).
Proof.
  intros T HM Hj [E1 E2 E3 E4 E5 E6 E7] Hb. destruct (l3_bound m j T Hj) as (L1 & L2 & _). destruct (page_idx j Hj) as [_ R].
  change (2 + fuel)%nat with (S (S fuel)). cbn [drive_map_walk].
  unfold map_current_step. rewrite E1, E3, E4, kva_at, bind_Ret, pool_indices by lia. rewrite !bind_Ret, Hb, bind_Ret.
  unfold supply_backing. rewrite E4, bool_decide_eq_true_2 by done. cbn [assert]. rewrite !bind_Ret.
  set (w1 := mw_with _ _ _ _ _). cbn [w1 mw_with mw_base mw_page_idx mw_state mw_pending mw_l3].
  rewrite E1, E3, E7, kva_at, bind_Ret, pool_indices by lia. unfold add_chk. rewrite (proj2 (Z.ltb_lt _ _)) by lia. rewrite !bind_Ret, slot_l3.
  destruct (write_slot m base F (i0 + j) (Some p) T HM ltac:(lia)) as [T' M'].
  unfold step_pte_written. cbn [w1 mw_with mw_base mw_page_idx mw_state mw_pages mw_l1 mw_l2 mw_l3]. rewrite bool_decide_eq_true_2 by done.
  cbn [assert]. rewrite bind_Ret, E1, E2, E3, E5, E6, E7. unfold stage. destruct (Z.leb_spec n (j + 1)).
  - rewrite !bind_Ret. eexists _, _. split; [done|]. split_and!; [done|done|]. rewrite decide_True by lia. cbn. split_and!; [done|lia|done].
  - destruct (next_level_at (j + 1) NeedL1 NeedL2 NeedL3 ltac:(lia)) as (st & -> & Hst). rewrite !bind_Ret.
    eexists _, _. split; [done|]. split_and!; [done|done|]. rewrite decide_False by lia. constructor; cbn; try done.
    right. destruct Hst as [->|[-> E]]; [by left|]. right. split_and!; [done|done|]. by rewrite <- E, Z.add_simpl_r.
Qed.

Lemma drive_from (r : nat) : forall fs w m s fuel F,
  Z.of_nat (length fs) + Z.of_nat r = n -> (5 * r + 1 <= fuel)%nat -> tree m base -> maps m base F ->
  (forall x, Z.of_nat (length fs) <= x < n -> F !! (i0 + x) = None) -> P fs s -> stage w (Z.of_nat (length fs)) ->
  exists res fs' m' s', drive fuel w (Z.of_nat (length fs)) m s = Ret (res, Z.of_nat (length (fs ++ fs')), m', s') /\
    tree m' base /\ maps m' base (put (i0 + Z.of_nat (length fs)) fs' F) /\ P (fs ++ fs') s' /\
    match res with Ok _ => Z.of_nat (length (fs ++ fs')) = n | Err e => Fails (fs ++ fs') e /\ Z.of_nat (length (fs ++ fs')) < n end.
Proof.
  induction r as [|r IH]; intros fs w m s fuel F Hr Hf T HM HF HP Hw; unfold stage in Hw.
  - rewrite decide_True in Hw by lia. destruct Hw as (W1 & W2 & W3). destruct fuel as [|fuel]; [lia|]. cbn [drive_map_walk].
    unfold map_current_step. rewrite W1, W2, W3, kva_at, bind_Ret by lia. destruct (kvm_pool_indices _) as [[[? ?] ?] ?]. rewrite bind_Ret.
    exists (Ok tt), [], m, s. rewrite app_nil_r. split_and!; try done. lia.
  - rewrite decide_False in Hw by lia. set (j := Z.of_nat (length fs)) in *.
    replace fuel with (3 + (2 + (fuel - 5)))%nat by lia.
    destruct (find_slot m F (2 + (fuel - 5)) w j j s T HM ltac:(lia) (HF j ltac:(lia)) Hw) as (f1 & w1 & Hf1 & -> & Hw1).
    destruct (Hsupply fs s HP) as (b & s1 & Hb & Hb'). fold j in Hb. destruct b as [p|e].
    + replace f1 with (2 + (f1 - 2))%nat by lia.
      destruct (fill_slot m F (f1 - 2) w1 j j s p s1 T HM ltac:(lia) Hw1 Hb) as (w2 & m2 & -> & T2 & M2 & Hw2).
      assert (Ej : Z.of_nat (length (fs ++ [p])) = j + 1) by (rewrite length_app; cbn; lia).
      destruct (IH (fs ++ [p]) w2 m2 s1 (f1 - 2)%nat (<[i0 + j := p]> F)) as (res & fs' & m' & s' & E & T' & M' & P' & R'); try (rewrite ?Ej; done || lia).
      { intros x Hx. rewrite lookup_insert_ne by lia. apply HF. lia. }
      rewrite Ej in *. exists res, (p :: fs'), m', s'. rewrite <- app_assoc in *. cbn [app] in *. rewrite E. split_and!; try done.
      cbn [put]. by replace (i0 + j + 1) with (i0 + (j + 1)) by lia.
    + destruct f1 as [|f1]; [lia|]. destruct Hw1 as [E1 E2 E3 E4 E5 E6 E7]. cbn [drive_map_walk]. unfold map_current_step.
      rewrite E1, E3, E4, kva_at, bind_Ret, pool_indices by lia. rewrite !bind_Ret, Hb, bind_Ret.
      exists (Err e), [], m, s1. destruct Hb' as [Hb' HP']. rewrite app_nil_r. split_and!; try done. lia.
Qed.

Lemma drive_spec m F s : 0 < n -> tree m base -> maps m base F -> (forall x, 0 <= x < n -> F !! (i0 + x) = None) -> P [] s ->
  exists res fs m' s', drive (walk_fuel n) (map_start (va_of i0) n base) 0 m s = Ret (res, Z.of_nat (length fs), m', s') /\
    tree m' base /\ maps m' base (put i0 fs F) /\ P fs s' /\
    match res with Ok _ => Z.of_nat (length fs) = n | Err e => Fails fs e /\ Z.of_nat (length fs) < n end.
Proof.
  intros H0 T HM HF HP. destruct (drive_from (Z.to_nat n) [] (map_start (va_of i0) n base) m s (walk_fuel n) F) as (res & fs & m' & s' & E & T' & M' & P' & R').
  - cbn. lia.
  - unfold walk_fuel. lia.
  - done.
  - done.
  - intros x Hx. apply HF. cbn in Hx. lia.
  - done.
  - unfold stage, map_start. cbn. rewrite decide_False by lia. rewrite (proj2 (Z.eqb_neq n 0)) by lia. constructor; cbn; try done. by left.
  - cbn [length app Z.of_nat] in *. rewrite Z.add_0_r in M'. by exists res, fs, m', s'.
Qed.
End Map.

(** * The removing walk over the tree *)

Section Clear.
Context {M : Type} `{FrameOps M} (dealloc : bool).

Record fat_page (w : KvmFreeWalk) (j : Z) : Prop := {
  fp_base : fw_base w = va_of i0;
  fp_pages : fw_pages w = n;
  fp_idx : fw_page_idx w = j;
  fp_l1 : fw_l1 w = base;
  fp_state : fw_state w = FNeedL1 \/ (fw_state w = FNeedL2 /\ fw_l2 w = base + 4096) \/
    (fw_state w = FNeedL3 /\ fw_l2 w = base + 4096 /\ fw_l3 w = l3_of base (i0 + j));
}.

Lemma fread_l3 m F f w j p tf s : tree m base -> maps m base F -> 0 <= j < n -> F !! (i0 + j) = Some p -> page_addr p ->
  fw_base w = va_of i0 -> fw_page_idx w = j -> fw_state w = FNeedL3 -> fw_l3 w = l3_of base (i0 + j) ->
  tear_down_walk (S f) w dealloc m tf s = tear_down_walk f (fw_with w FNeedClear (fw_l2 w) (fw_l3 w) (Some p)) dealloc m tf s.
Proof.
  intros T HM Hj HF Hp E1 E2 E3 E4. destruct (l3_bound m j T Hj) as (L1 & L2 & _). destruct (page_idx j Hj) as [_ R].
  cbn [tear_down_walk]. unfold free_current_step. rewrite E1, E2, E3, E4, kva_at, bind_Ret, pool_indices by lia.
  unfold add_chk. rewrite (proj2 (Z.ltb_lt _ _)) by lia. rewrite !bind_Ret. unfold free_step_l3, read_pte. rewrite E3, bool_decide_eq_true_2 by done.
  cbn [assert]. rewrite bind_Ret, slot_l3, (HM (i0 + j)), HF by lia. destruct (kernel_page_fields p) as [-> ->]. cbn [negb]. by rewrite bind_Ret, E4, output_page.
Qed.

Lemma fread_l2 m f w j tf s : tree m base -> 0 <= j < n ->
  fw_base w = va_of i0 -> fw_page_idx w = j -> fw_state w = FNeedL2 -> fw_l2 w = base + 4096 ->
  tear_down_walk (S f) w dealloc m tf s = tear_down_walk f (fw_with w FNeedL3 (fw_l2 w) (l3_of base (i0 + j)) (fw_backing w)) dealloc m tf s.
Proof.
  intros T Hj E1 E2 E3 E4. destruct (l3_bound m j T Hj) as (_ & _ & L). destruct (tr_base _ _ T) as [[B1 B2] B3]. destruct (page_idx j Hj) as [R _].
  cbn [tear_down_walk]. unfold free_current_step. rewrite E1, E2, E3, E4, kva_at, bind_Ret, pool_indices by lia.
  unfold add_chk. rewrite (proj2 (Z.ltb_lt _ _)) by lia. rewrite !bind_Ret. unfold free_step_l2, read_pte. rewrite E3, bool_decide_eq_true_2 by done.
  cbn [assert]. rewrite bind_Ret, (tr_l2 _ _ T) by done. fold (l3_of base (i0 + j)). destruct (new_table_fields (l3_of base (i0 + j))) as [F1 F2].
  rewrite F1, F2, output_page by done. cbn [negb]. by rewrite bind_Ret, E4.
Qed.

Lemma fread_l1 m f w j tf s : tree m base -> 0 <= j < n ->
  fw_base w = va_of i0 -> fw_page_idx w = j -> fw_state w = FNeedL1 -> fw_l1 w = base ->
  tear_down_walk (S f) w dealloc m tf s = tear_down_walk f (fw_with w FNeedL2 (base + 4096) (fw_l3 w) (fw_backing w)) dealloc m tf s.
Proof.
  intros T Hj E1 E2 E3 E4. destruct (tr_base _ _ T) as [[B1 B2] B3].
  assert (P1 : page_addr (base + 4096)) by (split; [lia|]; by rewrite <- Zplus_mod_idemp_l, B2).
  cbn [tear_down_walk]. unfold free_current_step. rewrite E1, E2, E3, E4, kva_at, bind_Ret, pool_indices by lia.
  unfold add_chk. rewrite (proj2 (Z.ltb_lt _ _)) by lia. rewrite !bind_Ret, Z.add_0_r. unfold free_step_l1, read_pte. rewrite E3, bool_decide_eq_true_2 by done.
  cbn [assert]. rewrite bind_Ret, (tr_l1 _ _ T). destruct (new_table_fields (base + 4096)) as [F1 F2].
  rewrite F1, F2, output_page by done. cbn [negb]. by rewrite bind_Ret.
Qed.

(** The walk holds the backing [p] of page [j]. *)
Record ffound (w : KvmFreeWalk) (j p : Z) : Prop := {
  ff_base : fw_base w = va_of i0;
  ff_pages : fw_pages w = n;
  ff_idx : fw_page_idx w = j;
  ff_state : fw_state w = FNeedClear;
  ff_l1 : fw_l1 w = base;
  ff_l2 : fw_l2 w = base + 4096;
  ff_l3 : fw_l3 w = l3_of base (i0 + j);
  ff_backing : fw_backing w = Some p;
}.

Lemma find_backing m F fuel w j p tf s : tree m base -> maps m base F -> 0 <= j < n -> F !! (i0 + j) = Some p -> page_addr p -> fat_page w j ->
  exists fuel' w', (fuel <= fuel')%nat /\ tear_down_walk (3 + fuel) w dealloc m tf s = tear_down_walk fuel' w' dealloc m tf s /\ ffound w' j p.
Proof.
  intros T HM Hj HF Hp [A1 A2 A3 A4 [A5|[(A5 & A6)|(A5 & A6 & A7)]]].
  - exists fuel. eexists. split; [done|]. change (3 + fuel)%nat with (S (S (S fuel))).
    rewrite (fread_l1 m _ w j) by done. rewrite (fread_l2 m _ _ j) by done. rewrite (fread_l3 m F _ _ j p) by done. split; [done|]. by constructor.
  - exists (1 + fuel)%nat. eexists. split; [lia|]. change (3 + fuel)%nat with (S (S (1 + fuel))).
    rewrite (fread_l2 m _ w j) by done. rewrite (fread_l3 m F _ _ j p) by done. split; [done|]. by constructor.
  - exists (2 + fuel)%nat. eexists. split; [lia|]. change (3 + fuel)%nat with (S (2 + fuel)).
    rewrite (fread_l3 m F _ w j p) by done. split; [done|]. by constructor.
Qed.

(** What becomes of a cleared page's frame. *)
Definition release (tf : list Z) (s : M) (p : Z) : outcome (list Z * M) :=
  if dealloc then
    if (length tf <? TO_FREE_LEN)%nat then Ret (tf ++ [containing_page p], s)
    else s ← fr_dealloc_page s (containing_page p); Ret (tf, s)
  else Ret (tf, s).

(** [Q tf rest s]: the frames waiting to be given back and those still
    mapped. *)
Context (Q : list Z -> list Z -> M -> Prop).
Context (Hrelease : forall tf p rest s, Q tf (p :: rest) s -> exists tf' s', release tf s p = Ret (tf', s') /\ Q tf' rest s').

Definition fstage (w : KvmFreeWalk) (j : Z) : Prop :=
  if decide (j = n) then fw_base w = va_of i0 /\ fw_page_idx w = n /\ fw_state w = FDone else fat_page w j.

Lemma clear_slot m F fuel w j p tf s tf' s' : tree m base -> maps m base F -> 0 <= j < n -> ffound w j p -> release tf s p = Ret (tf', s') ->
  exists w' m', tear_down_walk (1 + fuel) w dealloc m tf s = tear_down_walk fuel w' dealloc m' tf' s' /\
    tree m' base /\ maps m' base (delete (i0 + j) F) /\ fstage w' (j + 1).
Proof.
  intros T HM Hj [E1 E2 E3 E4 E5 E6 E7 E8] Hr. destruct (l3_bound m j T Hj) as (L1 & L2 & _). destruct (page_idx j Hj) as [_ R].
  change (1 + fuel)%nat with (S fuel). cbn [tear_down_walk]. unfold free_current_step.
  rewrite E1, E3, E4, E7, E8, kva_at, bind_Ret, pool_indices by lia. unfold add_chk. rewrite (proj2 (Z.ltb_lt _ _)) by lia.
  rewrite !bind_Ret, slot_l3. unfold release in Hr. rewrite Hr, bind_Ret.
  destruct (write_slot m base F (i0 + j) None T HM ltac:(lia)) as [T' M'].
  unfold step_pte_cleared. rewrite E4, bool_decide_eq_true_2 by done. cbn [assert]. rewrite bind_Ret, E1, E2, E3, E5, E6, E7.
  unfold fstage. destruct (Z.leb_spec n (j + 1)).
  - rewrite !bind_Ret. eexists _, _. split; [done|]. split_and!; [done|done|]. rewrite decide_True by lia. cbn. split_and!; [done|lia|done].
  - destruct (next_level_at (j + 1) FNeedL1 FNeedL2 FNeedL3 ltac:(lia)) as (st & -> & Hst). rewrite !bind_Ret.
    eexists _, _. split; [done|]. split_and!; [done|done|]. rewrite decide_False by lia. constructor; cbn; try done.
    right. destruct Hst as [->|[-> E]]; [by left|]. right. split_and!; [done|done|]. by rewrite <- E, Z.add_simpl_r.
Qed.

Lemma tear_from (rest : list Z) : forall w j m tf s fuel F,
  j + Z.of_nat (length rest) = n -> 0 <= j -> (5 * length rest + 1 <= fuel)%nat -> tree m base -> maps m base F ->
  (forall x p, rest !! x = Some p -> F !! (i0 + j + Z.of_nat x) = Some p /\ page_addr p) -> Q tf rest s -> fstage w j ->
  exists m' tf' s', tear_down_walk fuel w dealloc m tf s = Ret (m', tf', s') /\
    tree m' base /\ maps m' base (drop_pages (i0 + j) (length rest) F) /\ Q tf' [] s'.
Proof.
  induction rest as [|p rest IH]; intros w j m tf s fuel F Hr Hj Hf T HM HF HQ Hw; unfold fstage in Hw; cbn [length] in *.
  - rewrite decide_True in Hw by lia. destruct Hw as (W1 & W2 & W3). destruct fuel as [|fuel]; [lia|]. cbn [tear_down_walk].
    unfold free_current_step. rewrite W1, W2, W3, kva_at, bind_Ret by lia. destruct (kvm_pool_indices _) as [[[? ?] ?] ?]. rewrite bind_Ret.
    by exists m, tf, s.
  - rewrite decide_False in Hw by lia. replace fuel with (3 + (2 + (fuel - 5)))%nat by lia.
    destruct (HF 0%nat p eq_refl) as [Hp Hp']. rewrite Z.add_0_r in Hp.
    destruct (find_backing m F (2 + (fuel - 5)) w j p tf s T HM ltac:(lia) Hp Hp' Hw) as (f1 & w1 & Hf1 & -> & Hw1).
    destruct (Hrelease _ _ _ _ HQ) as (tf1 & s1 & Er & HQ1). replace f1 with (1 + (f1 - 1))%nat by lia.
    destruct (clear_slot m F (f1 - 1) w1 j p tf s tf1 s1 T HM ltac:(lia) Hw1 Er) as (w2 & m2 & -> & T2 & M2 & Hw2).
    destruct (IH w2 (j + 1) m2 tf1 s1 (f1 - 1)%nat (delete (i0 + j) F)) as (m' & tf' & s' & E & T' & M' & Q'); try done; [lia..| |].
    { intros x q Hx. destruct (HF (S x) q Hx) as [Hq Hq']. split; [|done]. rewrite lookup_delete_ne by lia. rewrite <- Hq. f_equal. lia. }
    exists m', tf', s'. split_and!; try done. cbn [drop_pages]. by replace (i0 + j + 1) with (i0 + (j + 1)) by lia.
Qed.
End Clear.
End Walk.

(** * The pool's invariant *)

(** Whole pages are free or not. *)
Lemma free_page l lo i a : chain lo l -> 0 <= i -> span (va_of i) 1 a -> is_free l a -> is_free l (va_of i).
Proof.
  revert lo. induction l as [|r l IH]; intros lo Hc Hi Ha; [by intros ?%Exists_nil|]. destruct Hc as (H1 & H2 & H3 & H4 & H5).
  rewrite !is_free_cons. intros [Hf|Hf]; [|right; by eapply IH]. left. unfold span, va_of, r_end, aligned in *.
  assert (KVM_POOL_BASE = 4503565267632128 * 4096) as E by reflexivity. rewrite E in *.
  pose proof (Z.div_mod (r_start r) 4096). lia.
Qed.

Context (root : Z).

(** [F]: the physical page behind each mapped page of the pool. *)
Record pool_ok {M} (k : Pool M) (F : gmap Z Z) : Prop := {
  po_init : p_initialized k = true;
  po_list : fl_ok (p_list k);
  po_tree : tree (p_mem k) (p_l1 k);
  po_maps : maps (p_mem k) (p_l1 k) F;
  po_free : forall i, 0 <= i < POOL_PAGES -> is_free (p_list k) (va_of i) -> F !! i = None;
  po_root : p_l1 k = root;
}.

Definition addrs (qs : list Z) : list Z := start_addr <$> qs.
Definition frame (q : Z) : Prop := 0 <= q < 2 ^ 36.

Lemma containing_start q : frame q -> containing_page (start_addr q) = q.
Proof.
  intros Hq. destruct (start_addr_page q Hq) as [-> _]. unfold containing_page, PAGE_SHIFT. rewrite Z.shiftr_div_pow2 by lia.
  change (2 ^ 12) with 4096. by rewrite Z.div_mul.
Qed.

(** The addresses of a range of pages. *)
Lemma span_pages i n a : 0 <= i -> span (va_of i) n a -> exists x, 0 <= x < n /\ span (va_of (i + x)) 1 a.
Proof.
  intros Hi Ha. unfold span, va_of in *. exists ((a - (KVM_POOL_BASE + i * 4096)) / 4096).
  pose proof (Z.div_mod (a - (KVM_POOL_BASE + i * 4096)) 4096). pose proof (Z.mod_pos_bound (a - (KVM_POOL_BASE + i * 4096)) 4096). lia.
Qed.

Lemma va_inside i n : 0 <= i -> i + n <= POOL_PAGES -> KVM_POOL_BASE <= va_of i /\ va_of i + n * 4096 <= USABLE_END.
Proof. unfold va_of, POOL_PAGES. change USABLE_END with (KVM_POOL_BASE + 262144 * 4096). lia. Qed.

Lemma va_aligned i : aligned (va_of i).
Proof. unfold aligned, va_of. by rewrite Z_mod_plus_full. Qed.

(** Every page-aligned address of the pool is a page's. *)
Lemma va_page a n : aligned a -> KVM_POOL_BASE <= a -> a + n * 4096 <= USABLE_END -> exists i, a = va_of i /\ 0 <= i /\ i + n <= POOL_PAGES.
Proof.
  unfold aligned, va_of, POOL_PAGES. change USABLE_END with (4503565267632128 * 4096 + 262144 * 4096). change KVM_POOL_BASE with (4503565267632128 * 4096).
  intros Ha H1 H2. exists (a / 4096 - 4503565267632128). pose proof (Z.div_mod a 4096). lia.
Qed.

Section Safe.
Context {M : Type} `{FrameLaws M Held}.

(** Giving back the range [i], mapped to [ps]. *)
Lemma tear_spec (k : Pool M) F i ps dealloc (Q : list Z -> list Z -> M -> Prop) :
  pool_ok k F -> 0 <= i -> i + Z.of_nat (length ps) <= POOL_PAGES -> ps <> [] ->
  (forall x p, ps !! x = Some p -> F !! (i + Z.of_nat x) = Some p /\ page_addr p) -> Q [] ps (p_frames k) ->
  (forall tf p rest s, Q tf (p :: rest) s -> exists tf' s', release dealloc tf s p = Ret (tf', s') /\ Q tf' rest s') ->
  (forall tf s, Q tf [] s -> exists s', dealloc_all tf s = Ret s' /\ Q [] [] s') ->
  exists k' r, tear_down_range k (va_of i) (Z.of_nat (length ps)) dealloc = Ret k' /\ pool_ok k' (drop_pages i (length ps) F) /\
    Q [] [] (p_frames k') /\ freed (p_list k) (va_of i) (Z.of_nat (length ps)) r (p_list k').
Proof.
  intros [O1 O2 O3 O4 O5 O6] Hi Hin Hps HF HQ Hrel Hdone. set (n := Z.of_nat (length ps)) in *.
  assert (Hn : 0 < n) by (destruct ps; [done|cbn in n; lia]). unfold tear_down_range. rewrite (proj2 (Z.eqb_neq n 0)) by lia.
  destruct (tear_from (p_l1 k) i n ltac:(lia) Hi Hin dealloc Q Hrel ps (free_start (va_of i) n (p_l1 k)) 0 (p_mem k) [] (p_frames k) (walk_fuel n) F)
    as (m & tf & s & E & T & HM & HQ').
  1-2: lia. 1: unfold walk_fuel; lia. 1-2: done. 1: intros x p Hx; rewrite Z.add_0_r; by apply HF. 1: done.
  { unfold fstage, free_start. cbn. rewrite decide_False by lia. rewrite (proj2 (Z.eqb_neq n 0)) by lia. constructor; cbn; try done. by left. }
  rewrite E, bind_Ret. destruct (Hdone _ _ HQ') as (s' & -> & HQ2). rewrite bind_Ret, Z.add_0_r in *.
  destruct (va_inside i n Hi Hin) as [V1 V2]. pose proof pool_base_pos as Hpos.
  destruct (kvm_free_spec (p_list k) (va_of i) n O2 (va_aligned i) ltac:(lia) Hn) as (r & l' & -> & Ol & Hr).
  { change USABLE_END with 18446603337294938112 in V2. lia. }
  assert (Hnf : forall a, span (va_of i) n a -> ~ is_free (p_list k) a).
  { intros a Ha Hf. destruct (span_pages i n a Hi Ha) as (x & Hx & Hsp). destruct O2 as [Oc _].
    pose proof (free_page _ _ (i + x) a Oc ltac:(lia) Hsp Hf) as Hf'. apply O5 in Hf'; [|unfold POOL_PAGES in *; lia].
    destruct (lookup_lt_is_Some_2 ps (Z.to_nat x)) as [p Hp]; [lia|]. destruct (HF _ _ Hp) as [E' _].
    replace (i + Z.of_nat (Z.to_nat x)) with (i + x) in E' by lia. congruence. }
  assert (Hfr : freed (p_list k) (va_of i) n r l').
  { destruct r as [u|[]]; try (by destruct Hr as (_ & _ & _ & ?)).
    - destruct Hr as [-> (a & Ha & Hf)]. by destruct (Hnf a Ha).
    - destruct Hr as [-> Hout]. tauto. }
  rewrite bind_Ret. cbn [snd]. eexists _, r. split; [done|]. cbn [p_list p_frames]. split_and!; [|done|done].
  constructor; cbn; try done. intros j Hj Hf. rewrite drop_pages_lookup. case_decide as Hd; [done|]. apply O5; [done|].
  destruct r as [u|e]; cbn [freed] in Hfr.
  - apply Hfr in Hf as [?|Hs]; [done|]. unfold span, va_of in Hs. lia.
  - destruct Hfr as (_ & -> & _). done.
Qed.

Definition given (H' : gset Z) (qs : list Z) : Prop := NoDup qs /\ forall q, q ∈ qs -> frame q /\ q ∉ H'.

Lemma addrs_lookup qs x p : addrs qs !! x = Some p -> exists q, qs !! x = Some q /\ p = start_addr q.
Proof. unfold addrs. rewrite list_lookup_fmap. destruct (qs !! x) as [q|]; [|done]. intros [= <-]. eauto. Qed.

(** An owned range gives its frames back. *)
Lemma tear_owned (k : Pool M) F H' i qs : pool_ok k F -> 0 <= i -> i + Z.of_nat (length qs) <= POOL_PAGES -> qs <> [] -> given H' qs ->
  (forall x q, qs !! x = Some q -> F !! (i + Z.of_nat x) = Some (start_addr q)) -> Held (H' ∪ list_to_set qs) (p_frames k) ->
  exists k' r, tear_down_range k (va_of i) (Z.of_nat (length qs)) true = Ret k' /\ pool_ok k' (drop_pages i (length qs) F) /\
    Held H' (p_frames k') /\ freed (p_list k) (va_of i) (Z.of_nat (length qs)) r (p_list k').
Proof.
  intros Ok Hi Hin Hne [Hnd Hq] HF Hh.
  destruct (tear_spec k F i (addrs qs) true (fun tf rest s => exists qs', rest = addrs qs' /\ given H' (tf ++ qs') /\ Held (H' ∪ list_to_set (tf ++ qs')) s))
    as (k' & r & E & Ok' & HQ & Hf); try (unfold addrs; rewrite ?length_fmap; done).
  - by destruct qs.
  - intros x p (q & Hx & ->)%addrs_lookup. split; [by apply HF|]. apply start_addr_page. apply Hq. by eapply list_elem_of_lookup_2.
  - exists qs. by split_and!.
  - intros tf p rest s (qs' & Hr & [Hnd' Hg] & Hh'). destruct qs' as [|q qs']; [done|]. injection Hr as -> ->.
    destruct (Hg q ltac:(set_solver)) as [Hfq HqH]. unfold release. destruct (length tf <? TO_FREE_LEN)%nat; rewrite containing_start by done.
    + eexists _, _. split; [done|]. exists qs'. rewrite <- app_assoc. by split_and!.
    + destruct (fr_dealloc_law _ s q Hh' ltac:(set_solver)) as (s' & -> & Hh''). rewrite bind_Ret. eexists _, _. split; [done|]. exists qs'.
      apply NoDup_app in Hnd' as (N1 & N2 & [N3 N4]%NoDup_cons). split_and!; [done| |].
      * split; [|intros x Hx; apply Hg; rewrite elem_of_app, elem_of_cons; apply elem_of_app in Hx; tauto]. apply NoDup_app. split_and!; [done| |done]. intros x Hx Hx'. apply (N2 x Hx). by right.
      * replace (H' ∪ list_to_set (tf ++ qs')) with ((H' ∪ list_to_set (tf ++ q :: qs')) ∖ {[q]}); [done|].
        assert (q ∉ tf) by (intros Hqt; apply (N2 q Hqt); by left). set_solver.
  - intros tf s (qs' & Hr & [Hnd' Hg] & Hh'). destruct qs'; [|done]. rewrite app_nil_r in *.
    destruct (dealloc_all_spec tf H' s Hh' Hnd') as (s' & E' & Hh''); [intros p Hp; by apply Hg|]. exists s'. split; [done|].
    exists []. split_and!; [done|by split; [constructor|set_solver]|]. cbn. by rewrite union_empty_r_L.
  - destruct HQ as (qs' & Hr & _ & Hh'). destruct qs'; [|done]. cbn in Hh'. rewrite union_empty_r_L in Hh'.
    unfold addrs in *. rewrite length_fmap in *. by exists k', r.
Qed.

(** A mapped range leaves its frames to their owner. *)
Lemma tear_mapped (k : Pool M) F i qs : pool_ok k F -> 0 <= i -> i + Z.of_nat (length qs) <= POOL_PAGES -> qs <> [] -> (forall q, q ∈ qs -> frame q) ->
  (forall x q, qs !! x = Some q -> F !! (i + Z.of_nat x) = Some (start_addr q)) ->
  exists k' r, tear_down_range k (va_of i) (Z.of_nat (length qs)) false = Ret k' /\ pool_ok k' (drop_pages i (length qs) F) /\
    p_frames k' = p_frames k /\ freed (p_list k) (va_of i) (Z.of_nat (length qs)) r (p_list k').
Proof.
  intros Ok Hi Hin Hne Hq HF.
  destruct (tear_spec k F i (addrs qs) false (fun tf _ s => tf = [] /\ s = p_frames k)) as (k' & r & E & Ok' & [_ HQ] & Hf);
    try (unfold addrs; rewrite ?length_fmap; done).
  - by destruct qs.
  - intros x p (q & Hx & ->)%addrs_lookup. split; [by apply HF|]. apply start_addr_page. apply Hq. by eapply list_elem_of_lookup_2.
  - intros tf p rest s [-> ->]. by exists [], (p_frames k).
  - intros tf s [-> ->]. by exists (p_frames k).
  - unfold addrs in *. rewrite length_fmap in *. by exists k', r.
Qed.

(** The pool after its free list has given out [n] pages from [i] on. *)
Lemma take_range (k : Pool M) F l' n : pool_ok k F -> 0 <= n -> 
  forall r, try_alloc (p_list k) n = Ret (r, l') ->
  match r with
  | Ok kva => exists i, kva = va_of i /\ 0 < n /\ 0 <= i /\ i + n <= POOL_PAGES /\ (forall x, i <= x < i + n -> F !! x = None) /\
      has_room (p_list k) (va_of i) n /\ (forall a, is_free l' a <-> is_free (p_list k) a /\ ~ span (va_of i) n a) /\
      pool_ok (mkPool l' (p_l1 k) (p_initialized k) (p_mem k) (p_frames k)) F
  | Err _ => l' = p_list k /\ (0 < n -> forall b, ~ has_room (p_list k) b n)
  end.
Proof.
  intros [O1 O2 O3 O4 O5 O6] Hn r E. destruct (try_alloc_spec _ n O2 Hn) as (r' & l1 & E' & Ol & Hr). rewrite E in E'. injection E' as <- <-.
  destruct r as [kva|e]; [|naive_solver]. destruct Hr as (H1 & H2 & H3 & H4 & H5 & H6 & H7).
  destruct (va_page kva n H3 H2 H4) as (i & -> & Hi & Hin). exists i. split_and!; try done.
  - intros x Hx. apply O5; [unfold POOL_PAGES in *; lia|]. apply H5. unfold span, va_of. lia.
  - constructor; try done. cbn [p_list]. intros x Hx [Hf _]%H6. auto.
Qed.

Lemma supply_alloc H' fs s : (exists qs, fs = addrs qs /\ given H' qs /\ Held (H' ∪ list_to_set qs) s) ->
  exists r s', backing_alloc (Z.of_nat (length fs)) s = Ret (r, s') /\
    match r with
    | Ok p => exists qs, fs ++ [p] = addrs qs /\ given H' qs /\ Held (H' ∪ list_to_set qs) s'
    | Err e => e = OutOfPhysicalFrames /\ exists qs, fs = addrs qs /\ given H' qs /\ Held (H' ∪ list_to_set qs) s'
    end.
Proof.
  intros (qs & -> & [Hnd Hq] & Hh). unfold backing_alloc. destruct (fr_alloc_law _ s Hh) as (r & s' & -> & Hr). rewrite bind_Ret. cbn [fst snd].
  destruct r as [q|].
  - destruct Hr as (Hq1 & Hq2 & Hh'). eexists _, _. split; [done|]. exists (qs ++ [q]). split_and!.
    + unfold addrs. by rewrite fmap_app.
    + split; [|intros x [Hx|Hx]%elem_of_app; [auto|apply list_elem_of_singleton in Hx as ->; split; [done|set_solver]]].
      apply NoDup_app. split_and!; [done| |apply NoDup_singleton]. intros x Hx ->%list_elem_of_singleton. set_solver.
    + replace (H' ∪ list_to_set (qs ++ [q])) with (H' ∪ list_to_set qs ∪ {[q]}); [done|]. set_solver.
  - subst s'. eexists _, _. split; [done|]. split; [done|]. by exists qs.
Qed.

(** Rolling back what was mapped of a range leaves at most it free. *)
Lemma roll_back_spec (k : Pool M) F H' i n qs : pool_ok k (put i (addrs qs) F) -> 0 <= i -> i + n <= POOL_PAGES -> given H' qs ->
  0 < n -> Z.of_nat (length qs) <= n -> (forall x, i <= x < i + n -> F !! x = None) -> Held (H' ∪ list_to_set qs) (p_frames k) ->
  (forall a, span (va_of i) n a -> ~ is_free (p_list k) a) ->
  exists k', roll_back k (va_of i) n (Z.of_nat (length qs)) true = Ret k' /\ pool_ok k' F /\ Held H' (p_frames k') /\
    forall a, is_free (p_list k') a -> is_free (p_list k) a \/ span (va_of i) n a.
Proof.
  intros Ok Hi Hin Hg Hn Hlen HF Hh Hnf. unfold roll_back. destruct (Z.ltb_spec 0 (Z.of_nat (length qs))) as [Hl|Hl].
  - destruct (tear_owned k (put i (addrs qs) F) H' i qs Ok Hi ltac:(lia) ltac:(by destruct qs) Hg) as (k' & r & E & Ok' & Hh' & Hf); [|done|].
    { intros x q Hx. rewrite put_lookup. apply lookup_lt_Some in Hx as Hlt. unfold addrs. rewrite length_fmap, decide_True by lia.
      replace (Z.to_nat (i + Z.of_nat x - i)) with x by lia. by rewrite list_lookup_fmap, Hx. }
    exists k'. split; [done|]. replace (length qs) with (length (addrs qs)) in Ok' by (unfold addrs; by rewrite length_fmap).
    rewrite drop_put in Ok' by (intros x Hx; apply HF; unfold addrs in Hx; rewrite length_fmap in Hx; lia). split_and!; [done|done|].
    intros a Ha. destruct r as [u|e]; cbn [freed] in Hf; [|destruct Hf as (_ & Ef & _); rewrite Ef in Ha; by left]. apply Hf in Ha as [?|Ha]; [by left|].
    right. unfold span in *. lia.
  - assert (qs = []) as -> by (destruct qs; [done|cbn in Hl; lia]). cbn [addrs fmap list_fmap put list_to_set] in *. rewrite union_empty_r_L in Hh.
    destruct Ok as [O1 O2 O3 O4 O5 O6]. destruct (va_inside i n Hi Hin) as [V1 V2]. pose proof pool_base_pos as Hpos.
    destruct (kvm_free_spec (p_list k) (va_of i) n O2 (va_aligned i) ltac:(lia) Hn) as (r & l' & -> & Ol & Hr).
    { change USABLE_END with 18446603337294938112 in V2. lia. }
    rewrite bind_Ret. cbn [snd]. assert (Hf : forall a, is_free l' a -> is_free (p_list k) a \/ span (va_of i) n a).
    { intros a Ha. destruct r as [u|[]]; cbn [freed] in Hr; [by apply Hr|..]; [..|by destruct Hr as [-> _]; left|by destruct Hr as [-> _]; left];
        destruct Hr as (_ & _ & _ & _ & -> & _); by left. }
    eexists. split; [done|]. split_and!; [|done|done]. constructor; cbn; try done. intros x Hx [Ha|Ha]%Hf; [auto|]. apply HF. unfold span, va_of in Ha. lia.
Qed.

Definition alloc_post (k : Pool M) (F : gmap Z Z) (H' : gset Z) (n : Z) (r : result Z KvmError) (k' : Pool M) : Prop :=
  match r with
  | Ok kva => exists i qs, kva = va_of i /\ 0 < n /\ 0 <= i /\ i + n <= POOL_PAGES /\ Z.of_nat (length qs) = n /\ given H' qs /\
      (forall x, i <= x < i + n -> F !! x = None) /\ pool_ok k' (put i (addrs qs) F) /\ Held (H' ∪ list_to_set qs) (p_frames k')
  | Err KvmOutOfVirtualMemory => k' = k /\ (0 < n -> forall b, ~ has_room (p_list k) b n)
  | Err OutOfPhysicalFrames => pool_ok k' F /\ Held H' (p_frames k') /\ forall a, is_free (p_list k') a -> is_free (p_list k) a
  end.

Lemma kvm_alloc_spec (k : Pool M) F H' n : pool_ok k F -> Held H' (p_frames k) -> 0 <= n ->
  exists r k', alloc_kernel_pages k n = Ret (r, k') /\ alloc_post k F H' n r k'.
Proof.
  intros Ok Hh Hn. unfold alloc_kernel_pages. rewrite (po_init _ _ Ok). cbn [assert]. rewrite bind_Ret.
  destruct (Z.eqb_spec n 0) as [->|Hn0]; [eexists _, _; split; [done|]; split; [done|lia]|].
  destruct (try_alloc_spec _ n (po_list _ _ Ok) Hn) as (r & l' & E & _). rewrite E, bind_Ret. cbn [fst snd p_l1 p_mem p_frames p_list p_initialized].
  pose proof (take_range k F l' n Ok Hn r E) as Hr. destruct r as [kva|e].
  2: { destruct Hr as [-> Hr]. eexists _, _. split; [done|]. split; [by destruct k; destruct Ok; cbn in *; subst|done]. }
  destruct Hr as (i & -> & _ & Hi & Hin & HF & Hroom & Hfree & Ok1). pose proof Ok1 as [P1 P2 P3 P4 P5 P6]. cbn in P2, P3, P4, P5.
  destruct (drive_spec (p_l1 k) i n Hn Hi Hin backing_alloc
    (fun fs s => exists qs, fs = addrs qs /\ given H' qs /\ Held (H' ∪ list_to_set qs) s) (fun _ e => e = OutOfPhysicalFrames)) with (m := p_mem k) (F := F) (s := p_frames k)
    as (res & fs & m & s & Ed & T & HM & (qs & -> & Hg & Hh') & Hres); [|lia|done|done|intros x Hx; apply HF; lia| |].
  { apply supply_alloc. }
  { exists []. split_and!; [done|by split; [constructor|set_solver]|]. cbn. by rewrite union_empty_r_L. }
  assert (El : length (addrs qs) = length qs) by apply length_fmap. rewrite El in Ed, Hres. rewrite Ed, bind_Ret. cbn [p_list p_l1 p_initialized].
  assert (Ok2 : pool_ok (mkPool l' (p_l1 k) true m s) (put i (addrs qs) F)).
  { constructor; try done. cbn [p_list]. intros x Hx Hf. rewrite put_lookup. unfold addrs. rewrite length_fmap. rewrite decide_False; [by apply P5|].
    intros Hin'. apply Hfree in Hf as [_ Hf]. apply Hf. assert (Z.of_nat (length qs) <= n) by (destruct res; lia). unfold span, va_of. lia. }
  destruct res as [u|e].
  { eexists _, _. split; [done|]. exists i, qs. split_and!; done || lia. }
  destruct Hres as [-> Hlt]. destruct (roll_back_spec (mkPool l' (p_l1 k) true m s) F H' i n qs Ok2 Hi Hin Hg) as (k2 & E2 & Ok3 & Hh2 & Hf2); try done; [lia|lia| |].
  { intros a Ha Hf. by apply Hfree in Hf as [_ ?]. }
  rewrite E2, bind_Ret. eexists _, _. split; [done|]. split_and!; [done|done|]. intros a [Hf|Hs]%Hf2; [by apply Hfree in Hf as [? _]|by apply Hroom].
Qed.

(** Mapping the caller's page touches no frame. *)
Lemma kvm_map_spec (k : Pool M) F q : pool_ok k F -> frame q ->
  exists r k', map_existing k q = Ret (r, k') /\ p_frames k' = p_frames k /\
    match r with
    | Ok kva => exists i, kva = va_of i /\ 0 <= i /\ i + 1 <= POOL_PAGES /\ F !! i = None /\ pool_ok k' (put i (addrs [q]) F)
    | Err e => e = KvmOutOfVirtualMemory /\ k' = k /\ forall b, ~ has_room (p_list k) b 1
    end.
Proof.
  intros HK Hq. unfold map_existing. rewrite (po_init _ _ HK). cbn [assert]. rewrite bind_Ret.
  destruct (try_alloc_spec _ 1 (po_list _ _ HK) ltac:(lia)) as (r & l' & E & _). rewrite E, bind_Ret. cbn [fst snd p_l1 p_mem p_frames p_list p_initialized].
  pose proof (take_range k F l' 1 HK ltac:(lia) r E) as Hr. destruct r as [kva|e].
  2: { destruct Hr as [-> Hr]. eexists _, _. split; [done|]. split; [done|]. split; [done|]. split; [by destruct k; destruct HK; cbn in *; subst|]. apply Hr. lia. }
  destruct Hr as (i & -> & _ & Hi & Hin & HF & Hroom & Hfree & Ok1). pose proof Ok1 as [P1 P2 P3 P4 P5 P6]. cbn in P2, P3, P4, P5.
  destruct (drive_spec (p_l1 k) i 1 ltac:(lia) Hi Hin (fun _ s => Ret (Ok (start_addr q), s))
    (fun fs s => Forall (fun p => p = start_addr q) fs /\ s = p_frames k) (fun _ _ => False)) with (m := p_mem k) (F := F) (s := p_frames k)
    as (res & fs & m & s & Ed & T & HM & (Hfs & ->) & Hres); [|lia|done|done|intros x Hx; apply HF; lia|done|].
  { intros fs s [Hfs ->]. eexists _, _. split; [done|]. cbn. split; [|done]. apply Forall_app. by split; [|constructor]. }
  rewrite Ed, bind_Ret. destruct res as [u|e]; [|by destruct Hres]. eexists _, _. split; [done|]. split; [done|]. exists i.
  destruct fs as [|p [|]]; cbn in Hres; [lia| |lia]. apply Forall_cons in Hfs as [-> _]. split_and!; try done; [apply HF; lia|].
  constructor; try done. cbn [p_list]. intros x Hx Hf. rewrite put_lookup. cbn [addrs fmap list_fmap length]. rewrite decide_False; [by apply P5|].
  intros Hin'. apply Hfree in Hf as [_ Hf]. apply Hf. unfold span, va_of. lia.
Qed.
End Safe.
End Tree.
