(* ===== verification/KvmSafe.v ===== *)
(** Safety of the kernel's virtual address pool: what boot leaves behind, and
    what any sequence of allocations, mappings, frees and unmaps that respects
    the ranges' types sees through the page tables. *)
From Stdlib Require Import ZArith Lia.
From stdpp Require Import base option gmap numbers sets fin_sets list.
From S2P Require Import Prelude FrameAlloc Frames PageTable Vmem Kvm KvmPool.
Open Scope Z_scope.

(** * Clients *)

(** A live range: [OwnedKvmRange], or the [MappedKvmRange] of a page. *)
Inductive Range := Owned (pages : Z) | Mapped (page : Z).

Definition range_pages (r : Range) : Z := match r with Owned n => n | Mapped _ => 1 end.

Inductive KvmCall := KAlloc (pages : Z) | KMap (page : Z) | KFree (kva : Z) | KUnmap (kva : Z).

Section Client.
Context {M : Type} `{FrameOps M}.

(** A caller frees what it was given, once, and by the range's type. *)
Definition client (c : KvmCall) (x : Pool M * gmap Z Range) : outcome (Pool M * gmap Z Range) :=
  let '(k, live) := x in
  match c with
  | KAlloc n => r ← alloc_kernel_pages k n; Ret (r.2, match r.1 with Ok kva => <[kva := Owned n]> live | Err _ => live end)
  | KMap q => r ← map_existing k q; Ret (r.2, match r.1 with Ok kva => <[kva := Mapped q]> live | Err _ => live end)
  | KFree kva =>
      match live !! kva with
      | Some (Owned n) => k ← free_kernel_pages k kva n; Ret (k, delete kva live)
      | _ => Ret x
      end
  | KUnmap kva =>
      match live !! kva with
      | Some (Mapped _) => k ← unmap_existing k kva 1; Ret (k, delete kva live)
      | _ => Ret x
      end
  end.

Fixpoint clients (cs : list KvmCall) (x : Pool M * gmap Z Range) : outcome (Pool M * gmap Z Range) :=
  match cs with
  | [] => Ret x
  | c :: cs' => x ← client c x; clients cs' x
  end.
End Client.

Definition kcall_ok (c : KvmCall) : Prop :=
  match c with KAlloc n => 0 <= n | KMap q => frame q | _ => True end.

(** * Boot *)

Definition block (p : Z) : gset Z := list_to_set (seqZ p 514).

Lemma zero_table_rest m p a : a < p \/ p + 4096 <= a -> arr_peek (zero_table m p) a = arr_peek m a.
Proof.
  intros Ha. unfold zero_table. rewrite foldr_zero_peek. rewrite decide_False; [done|]. rewrite Exists_exists. intros (j & Hj%elem_of_seqZ & E). lia.
Qed.

Lemma zero_table_word m p i : 0 <= i < 512 -> arr_peek (zero_table m p) (p + i * 8) = 0.
Proof.
  intros Hi. unfold zero_table. rewrite foldr_zero_peek, decide_True; [done|]. apply Exists_exists. exists i. rewrite elem_of_seqZ. split; [lia|done].
Qed.

(** Boot zeroes all words of the tables. *)
Lemma zero_tables m base : exists m', for_range 0 514 (fun i m => Ret (zero_table m (base + i * 4096))) m = Ret m' /\
  (forall w, 0 <= w < 514 * 512 -> arr_peek m' (base + w * 8) = 0) /\
  (forall a, a < base \/ base + 514 * 4096 <= a -> arr_peek m' a = arr_peek m a).
Proof.
  destruct (for_range_inv (fun i m' => (forall w, 0 <= w < i * 512 -> arr_peek m' (base + w * 8) = 0) /\
    (forall a, a < base \/ base + 514 * 4096 <= a -> arr_peek m' a = arr_peek m a))
    (fun i m => Ret (zero_table m (base + i * 4096))) 514 0 m) as (m' & E & Hw & Ha).
  - split; [lia|done].
  - intros j m1 Hj [Hw Ha]. eexists. split; [done|]. split.
    + intros w Hw'. destruct (decide (j * 512 <= w)).
      * replace (base + w * 8) with (base + j * 4096 + (w - j * 512) * 8) by lia. apply zero_table_word. lia.
      * rewrite zero_table_rest by lia. apply Hw. lia.
    + intros a Hout. rewrite zero_table_rest by lia. auto.
  - exists m'. split_and!; [exact E|intros w Hw'; apply Hw; lia|exact Ha].
Qed.

(** The one L2 table's parent entry and its 512 entries. *)
Lemma stitch_spec m base : exists m', stitch base 0 m = Ret m' /\ forall a,
  arr_peek m' a = if decide (a = base) then new_table (base + 4096)
    else if decide (base + 4096 <= a < base + 8192 /\ (a - base) mod 8 = 0) then new_table (base + 8192 + (a - base - 4096) / 8 * 4096)
    else arr_peek m a.
Proof.
  unfold stitch. change KVM_L2_TABLES_COUNT with 1. change KVM_L3_TABLES_COUNT with 512. change PAGE_SIZE with 4096. cbv zeta.
  set (m0 := write_pte _ _ _). match goal with |- context [for_range 0 512 ?f m0] => set (body := f) end.
  destruct (for_range_inv (fun i m' => forall a, arr_peek m' a =
      if decide (base + 4096 <= a < base + 4096 + i * 8 /\ (a - base) mod 8 = 0) then new_table (base + 8192 + (a - base - 4096) / 8 * 4096) else arr_peek m0 a)
    body 512 0 m0) as (m' & E & Hm).
  - intros a. rewrite decide_False by lia. reflexivity.
  - intros j m1 Hj IH. unfold body. rewrite (proj2 (Z.leb_gt _ _)) by lia. eexists. split; [reflexivity|]. intros a. unfold write_pte. rewrite arr_peek_insert, IH.
    pose proof (Z.div_mod (a - base) 8). pose proof (Z.mod_pos_bound (a - base) 8).
    destruct (decide (_ = a)) as [Ea|Ea].
    + rewrite decide_True by (subst a; split; [lia|]; replace (_ - base) with ((512 + j) * 8) by lia; apply Z.mod_mul; lia). f_equal. subst a.
      replace (base + 4096 + 0 * 4096 + j * 8 - base - 4096) with (j * 8) by lia. rewrite Z.div_mul by lia. lia.
    + destruct (decide (base + 4096 <= a < base + 4096 + j * 8 /\ (a - base) mod 8 = 0)); [by rewrite decide_True by lia|]. rewrite decide_False by lia. reflexivity.
  - exists m'. split; [exact E|]. intros a. rewrite Hm. unfold m0, write_pte. replace (base + 0 * 8) with base by lia. rewrite arr_peek_insert.
    change (base + 4096 + (0 + Z.of_nat 512) * 8) with (base + 4096 + 4096). replace (base + 4096 + 4096) with (base + 8192) by lia.
    destruct (decide (base = a)) as [<-|Hne].
    + rewrite decide_False by lia. rewrite decide_True by reflexivity. f_equal. lia.
    + rewrite (decide_False (P := a = base)) by congruence. reflexivity.
Qed.

Section Boot.
Context {M : Type} (alloc_contiguous : M -> Z -> outcome (option Z * M)).

Lemma kvm_init_spec k l0 p s' q0 :
  p_initialized k = false -> p_list k = new -> alloc_contiguous (p_frames k) KVM_BOOTSTRAP_TABLE_PAGES = Ret (Some p, s') ->
  0 <= p -> p + 514 <= 2 ^ 36 -> l0 = start_addr q0 -> frame q0 -> ~ (q0 ∈ block p) ->
  exists k', kvm_init alloc_contiguous k l0 = Ret k' /\ p_frames k' = s' /\ p_list k' = new /\
    pool_ok (<[l0 + 2048 := new_table (start_addr p)]> (p_mem k)) (start_addr p) k' ∅.
Proof.
  intros Hi Hl Ha Hp0 Hp -> Hq Hb. unfold kvm_init. rewrite Hi, Ha. cbn [negb assert]. rewrite !bind_Ret. cbn [fst snd unwrap]. rewrite bind_Ret.
  destruct (start_addr_page p ltac:(lia)) as [Ep Pp]. destruct (start_addr_page q0 Hq) as [Eq Pq]. set (base := start_addr p) in *.
  change (Z.to_nat KVM_BOOTSTRAP_TABLE_PAGES) with 514%nat. change PAGE_SIZE with 4096.
  destruct (zero_tables (p_mem k) base) as (m1 & -> & Hz & Ho). rewrite bind_Ret.
  change (for_range 0 (Z.to_nat KVM_L2_TABLES_COUNT) (stitch base) m1) with (s ← stitch base 0 m1; Ret s). destruct (stitch_spec m1 base) as (m2 & -> & Hs). rewrite !bind_Ret.
  change KVM_L0_INDEX with 256. rewrite entry_set_in, bind_Ret by lia. eexists. split; [reflexivity|]. split; [reflexivity|]. split; [done|].
  assert (Hq0 : start_addr q0 + 2048 < base \/ base + 514 * 4096 <= start_addr q0 + 2048).
  { rewrite Eq, Ep. unfold block in Hb. rewrite elem_of_list_to_set, elem_of_seqZ in Hb. lia. }
  change (256 * 8) with 2048. constructor; cbn [p_initialized p_list p_l1 p_mem].
  - reflexivity.
  - rewrite Hl. apply new_ok.
  - constructor.
    + split; [done|]. rewrite Ep. lia.
    + rewrite arr_peek_insert, decide_False by lia. rewrite Hs, decide_True by done. reflexivity.
    + intros i Hi'. rewrite arr_peek_insert, decide_False by lia. rewrite Hs, decide_False by lia. rewrite decide_True.
      * f_equal. replace (base + 4096 + i * 8 - base - 4096) with (i * 8) by lia. rewrite Z.div_mul by lia. lia.
      * split; [lia|]. replace (base + 4096 + i * 8 - base) with ((512 + i) * 8) by lia. apply Z.mod_mul. lia.
    + intros a Hout. rewrite !arr_peek_insert. case_decide; [done|]. rewrite Hs, !decide_False by lia. auto.
  - intros i Hi'. rewrite lookup_empty. unfold slot, POOL_PAGES in *. rewrite arr_peek_insert, decide_False by lia.
    rewrite Hs, !decide_False by lia. replace (base + 8192 + i * 8) with (base + (1024 + i) * 8) by lia. apply Hz. lia.
  - intros i _ _. apply lookup_empty.
  - reflexivity.
Qed.
End Boot.

(** * Translation *)

Lemma vidx_page k va : 12 <= k -> vidx k va = vidx k (va / 4096 * 4096).
Proof.
  intros Hk. unfold vidx. replace (2 ^ k) with (4096 * 2 ^ (k - 12)) by (change 4096 with (2 ^ 12); rewrite <- Z.pow_add_r by lia; f_equal; lia).
  rewrite <- !Zdiv_Zdiv by (try lia; apply Z.pow_nonneg; lia). by rewrite Z.div_mul.
Qed.

Lemma pool_vidx va : KVM_POOL_BASE <= va < USABLE_END -> let i := (va - KVM_POOL_BASE) / 4096 in
  0 <= i < POOL_PAGES /\ vidx 39 va = 256 /\ vidx 30 va = 0 /\ vidx 21 va = i / 512 /\ vidx 12 va = i mod 512.
Proof.
  intros Hva i. assert (Hi : 0 <= i < POOL_PAGES).
  { unfold i, POOL_PAGES. change USABLE_END with (KVM_POOL_BASE + 262144 * 4096) in Hva. split; [apply Z.div_pos|apply Z.div_lt_upper_bound]; lia. }
  assert (E : va / 4096 * 4096 = va_of i).
  { unfold i, va_of. assert (KVM_POOL_BASE = 4503565267632128 * 4096) as -> by reflexivity. rewrite <- Z.add_opp_r, <- Z.mul_opp_l, Z_div_plus_full by lia. lia. }
  pose proof (pool_indices i Hi) as P. unfold kvm_pool_indices, page_table_indices in P. rewrite !idx_arith in P by lia.
  split; [done|]. rewrite !(vidx_page _ va), E by lia. by injection P.
Qed.

Section View.
Context {M : Type} (outside : gmap Z Z) (root l0 : Z).
Context (Hsep : l0 + 4096 <= root \/ root + 514 * 4096 <= l0).
Context (Hentry : arr_peek outside (l0 + 2048) = new_table root).

(** What the hardware sees of the pool. *)
Lemma pool_translation (k : Pool M) F va : pool_ok outside root k F -> KVM_POOL_BASE <= va < USABLE_END ->
  translation (arr_peek (p_mem k)) l0 va = (fun p => output_addr p + va mod 4096) <$> F !! ((va - KVM_POOL_BASE) / 4096).
Proof.
  intros [_ _ T HM _ ER] Hva. destruct (pool_vidx va Hva) as (Hi & E0 & E1 & E2 & E3). cbv zeta in *. set (i := (va - KVM_POOL_BASE) / 4096) in *.
  rewrite ER in *. destruct T as [[Pb Hb] T1 T2 T3]. destruct Pb as [Pb0 Pb1].
  assert (Hd : 0 <= i / 512 < 512) by (unfold POOL_PAGES in Hi; split; [apply Z.div_pos|apply Z.div_lt_upper_bound]; lia).
  assert (Pg : forall x, 0 <= x < 514 -> page_addr (root + x * 4096)) by (intros x Hx; split; [lia|]; by rewrite Z_mod_plus_full).
  unfold translation, leaf. rewrite E0, E1, E2, E3. change (256 * 8) with 2048. rewrite T3, Hentry by lia.
  destruct (new_table_fields root) as [-> ->]. rewrite output_page by (by split). cbn [negb]. rewrite Z.add_0_r, T1.
  destruct (new_table_fields (root + 4096)) as [Ht ->]. destruct (table_valid _ Ht) as [_ ->]. rewrite Ht. cbn [negb].
  rewrite output_page by (apply (Pg 1); lia). rewrite T2 by done.
  destruct (new_table_fields (root + 8192 + i / 512 * 4096)) as [Ht2 ->]. destruct (table_valid _ Ht2) as [_ ->]. rewrite Ht2. cbn [negb].
  rewrite output_page by (replace (root + 8192 + i / 512 * 4096) with (root + (2 + i / 512) * 4096) by lia; apply Pg; lia).
  change (root + 8192 + i / 512 * 4096) with (l3_of root i). rewrite slot_l3, (HM i Hi). destruct (F !! i) as [p|] eqn:EF; [|by rewrite is_valid_0].
  destruct (kernel_page_fields p) as [-> Ho]. by rewrite (HM i Hi), EF, Ho.
Qed.
End View.

(** * The invariant of clients *)

Definition owned (r : Range) : bool := match r with Owned _ => true | Mapped _ => false end.

Section Inv.
Context {M : Type} `{FrameLaws M Held} (outside : gmap Z Z) (root : Z) (Base : gset Z).

(** [G] gives each mapped page its range, the range's kind and its frame. *)
Definition backing (G : gmap Z (Z * bool * Z)) : gmap Z Z := (fun v => start_addr v.2) <$> G.

Definition backed (G : gmap Z (Z * bool * Z)) (kva : Z) (r : Range) : Prop :=
  exists i qs, kva = va_of i /\ 0 <= i /\ i + Z.of_nat (length qs) <= POOL_PAGES /\ qs <> [] /\ Z.of_nat (length qs) = range_pages r /\
    (forall x q, qs !! x = Some q -> G !! (i + Z.of_nat x) = Some (kva, owned r, q)) /\ (forall q, r = Mapped q -> qs = [q]).

Record kinv (k : Pool M) (live : gmap Z Range) (G : gmap Z (Z * bool * Z)) (K : gset Z) : Prop := {
  ki_ok : pool_ok outside root k (backing G);
  ki_held : Held (Base ∪ K) (p_frames k);
  ki_sep : forall q, q ∈ K -> ~ q ∈ Base;
  ki_owned : forall q, q ∈ K <-> exists x kva, G !! x = Some (kva, true, q);
  ki_inj : forall x y q kva kva', G !! x = Some (kva, true, q) -> G !! y = Some (kva', true, q) -> x = y;
  ki_page : forall x kva b q, G !! x = Some (kva, b, q) -> frame q /\ 0 <= x < POOL_PAGES /\
    exists r, live !! kva = Some r /\ owned r = b /\ span kva (range_pages r) (va_of x);
  ki_live : forall kva r, live !! kva = Some r -> backed G kva r;
}.

Definition tag (kva : Z) (b : bool) (qs : list Z) : list (Z * bool * Z) := (fun q => (kva, b, q)) <$> qs.

Lemma backing_put i kva b qs G : backing (put i (tag kva b qs) G) = put i (addrs qs) (backing G).
Proof. unfold backing, tag, addrs. rewrite put_fmap. f_equal. by rewrite <- list_fmap_compose. Qed.

Lemma tag_lookup kva b qs i G x : put i (tag kva b qs) G !! x =
  if decide (i <= x < i + Z.of_nat (length qs)) then (fun q => (kva, b, q)) <$> qs !! Z.to_nat (x - i) else G !! x.
Proof. rewrite put_lookup. unfold tag. rewrite length_fmap. case_decide; [|done]. by rewrite list_lookup_fmap. Qed.

Lemma va_of_inj i j : va_of i = va_of j -> i = j.
Proof. unfold va_of. lia. Qed.

Lemma va_span i n x : span (va_of i) n (va_of x) <-> i <= x < i + n.
Proof. unfold span, va_of. lia. Qed.

(** A new range. *)
Lemma kinv_add k live G K k' i r qs (K' := if owned r then K ∪ list_to_set qs else K) :
  kinv k live G K -> 0 <= i -> i + Z.of_nat (length qs) <= POOL_PAGES -> qs <> [] -> Z.of_nat (length qs) = range_pages r ->
  (forall x, i <= x < i + Z.of_nat (length qs) -> backing G !! x = None) -> (forall q, q ∈ qs -> frame q) -> (forall q, r = Mapped q -> qs = [q]) ->
  (owned r = true -> given (Base ∪ K) qs) -> pool_ok outside root k' (put i (addrs qs) (backing G)) -> Held (Base ∪ K') (p_frames k') ->
  kinv k' (<[va_of i := r]> live) (put i (tag (va_of i) (owned r) qs) G) K'.
Proof.
  intros [I1 I2 I3 I4 I5 I6 I7] Hi Hin Hne Hlen HG Hq Hm Hown Ok' Hh.
  assert (HG' : forall x, i <= x < i + Z.of_nat (length qs) -> G !! x = None).
  { intros x Hx. apply HG in Hx. unfold backing in Hx. rewrite lookup_fmap in Hx. by destruct (G !! x). }
  assert (Hnew : live !! va_of i = None).
  { destruct (live !! va_of i) as [r'|] eqn:E; [|done]. destruct (I7 _ _ E) as (j & qs' & Ej & _ & _ & Hne' & _ & HG'' & _).
    apply va_of_inj in Ej as <-. destruct qs' as [|q' ?]; [done|]. specialize (HG'' 0%nat q' eq_refl). rewrite Z.add_0_r, HG' in HG''; [done|].
    destruct qs; [done|cbn; lia]. }
  constructor.
  - by rewrite backing_put.
  - done.
  - intros q. unfold K'. destruct (owned r); [|auto]. destruct Hown as [_ Hg]; [done|]. rewrite elem_of_union, elem_of_list_to_set. intros [?|Hx]; [auto|].
    apply Hg in Hx as [_ Hx]. set_solver.
  - intros q. unfold K'. transitivity ((exists x kva, G !! x = Some (kva, true, q)) \/ (owned r = true /\ q ∈ qs)).
    { rewrite <- I4. destruct (owned r); set_solver. }
    split.
    + intros [(x & kva & E)|[Eo Hx]].
      * exists x, kva. rewrite tag_lookup, decide_False; [done|]. intros Hx. rewrite HG' in E; done.
      * apply list_elem_of_lookup in Hx as [x Hx]. exists (i + Z.of_nat x), (va_of i). pose proof (lookup_lt_Some _ _ _ Hx).
        rewrite tag_lookup, decide_True by lia. replace (Z.to_nat _) with x by lia. by rewrite Hx, Eo.
    + intros (x & kva & E). rewrite tag_lookup in E. case_decide; [|left; eauto]. right.
      destruct (qs !! _) as [q'|] eqn:Ex; [|done]. injection E as <- Eo <-. split; [done|]. by eapply list_elem_of_lookup_2.
  - intros x y q kva kva'. rewrite !tag_lookup. intros Ex Ey.
    destruct (decide (i <= x < i + Z.of_nat (length qs))) as [Dx|Dx]; destruct (decide (i <= y < i + Z.of_nat (length qs))) as [Dy|Dy].
    + destruct (qs !! Z.to_nat (x - i)) as [q1|] eqn:E1; [|done]. destruct (qs !! Z.to_nat (y - i)) as [q2|] eqn:E2; [|done].
      injection Ex as _ Eo ->. injection Ey as _ _ ->. destruct (Hown Eo) as [Hnd _]. pose proof (NoDup_lookup _ _ _ _ Hnd E1 E2). lia.
    + destruct (qs !! Z.to_nat (x - i)) as [q1|] eqn:E1; [|done]. injection Ex as _ Eo ->. apply list_elem_of_lookup_2 in E1.
      destruct (Hown Eo) as [_ Hg]. apply Hg in E1 as [_ []]. apply elem_of_union_r, I4. eauto.
    + destruct (qs !! Z.to_nat (y - i)) as [q1|] eqn:E1; [|done]. injection Ey as _ Eo ->. apply list_elem_of_lookup_2 in E1.
      destruct (Hown Eo) as [_ Hg]. apply Hg in E1 as [_ []]. apply elem_of_union_r, I4. eauto.
    + by eapply I5.
  - intros x kva b q E. rewrite tag_lookup in E. case_decide as Dx.
    + destruct (qs !! _) as [q'|] eqn:Ex; [|done]. injection E as <- <- ->. split; [apply Hq; by eapply list_elem_of_lookup_2|]. split; [lia|].
      exists r. rewrite lookup_insert_eq. split; [done|]. split; [done|]. apply va_span. lia.
    + destruct (I6 _ _ _ _ E) as (? & ? & r' & E' & ? & ?). split; [done|]. split; [done|]. exists r'. rewrite lookup_insert_ne; [done|]. intros <-. by rewrite Hnew in E'.
  - intros kva r' [[<- <-]|[Hk E]]%lookup_insert_Some.
    + exists i, qs. split_and!; try done. intros x q Hx. pose proof (lookup_lt_Some _ _ _ Hx). rewrite tag_lookup, decide_True by lia.
      replace (Z.to_nat _) with x by lia. by rewrite Hx.
    + destruct (I7 _ _ E) as (j & qs' & ? & ? & ? & ? & ? & Hx & ?). exists j, qs'. split_and!; try done. intros x q Hxq. pose proof (Hx _ _ Hxq) as Eg.
      rewrite tag_lookup, decide_False; [done|]. intros Hx'. by rewrite HG' in Eg.
Qed.

(** A range that goes. *)
Lemma kinv_remove k live G K k' kva r i qs (K' := if owned r then K ∖ list_to_set qs else K) :
  kinv k live G K -> live !! kva = Some r -> kva = va_of i -> Z.of_nat (length qs) = range_pages r ->
  (forall x q, qs !! x = Some q -> G !! (i + Z.of_nat x) = Some (kva, owned r, q)) ->
  pool_ok outside root k' (drop_pages i (length qs) (backing G)) -> Held (Base ∪ K') (p_frames k') ->
  kinv k' (delete kva live) (drop_pages i (length qs) G) K'.
Proof.
  intros [I1 I2 I3 I4 I5 I6 I7] Hl -> Hlen HG Ok' Hh.
  assert (Hin : forall x, i <= x < i + Z.of_nat (length qs) -> exists q, G !! x = Some (va_of i, owned r, q) /\ q ∈ qs).
  { intros x Hx. destruct (lookup_lt_is_Some_2 qs (Z.to_nat (x - i))) as [q Hq]; [lia|]. exists q. split; [|by eapply list_elem_of_lookup_2].
    specialize (HG _ _ Hq). by replace (i + Z.of_nat (Z.to_nat (x - i))) with x in HG by lia. }
  assert (Hout : forall x v, drop_pages i (length qs) G !! x = Some v -> G !! x = Some v /\ ~ (i <= x < i + Z.of_nat (length qs))).
  { intros x v. rewrite drop_pages_lookup. by case_decide. }
  assert (Hqs : forall q, q ∈ qs -> exists x, i <= x < i + Z.of_nat (length qs) /\ G !! x = Some (va_of i, owned r, q)).
  { intros q [x Hx]%list_elem_of_lookup. pose proof (lookup_lt_Some _ _ _ Hx). exists (i + Z.of_nat x). split; [lia|]. by apply HG. }
  constructor.
  - unfold backing. by rewrite drop_fmap.
  - done.
  - intros q. unfold K'. destruct (owned r); [|auto]. rewrite elem_of_difference. intros [? _]. auto.
  - intros q. split.
    + intros Hq. assert (q ∈ K) as Hq' by (unfold K' in Hq; destruct (owned r); set_solver). apply I4 in Hq' as (x & kva & E). exists x, kva.
      rewrite drop_pages_lookup, decide_False; [done|]. intros Hx. destruct (Hin x Hx) as (q' & E' & Hq'). rewrite E in E'. injection E' as -> Eo ->.
      unfold K' in Hq. rewrite <- Eo in Hq. set_solver.
    + intros (x & kva & E). apply Hout in E as [E Hx]. assert (q ∈ K) by (apply I4; eauto). unfold K'. destruct (owned r) eqn:Eo; [|done].
      apply elem_of_difference. split; [done|]. rewrite elem_of_list_to_set. intros (y & Hy & Ey)%Hqs. rewrite (I5 _ _ _ _ _ E Ey) in Hx. done.
  - intros x y q k1 k2 [Ex _]%Hout [Ey _]%Hout. by eapply I5.
  - intros x kva b q [E Hx]%Hout. destruct (I6 _ _ _ _ E) as (? & ? & r' & E' & Eb & Hs). split; [done|]. split; [done|]. exists r'.
    split; [|by split]. rewrite lookup_delete_ne; [done|]. intros <-. rewrite Hl in E'. injection E' as <-. apply (proj1 (va_span _ _ _)) in Hs. lia.
  - intros kva r' [Hk E]%lookup_delete_Some. destruct (I7 _ _ E) as (j & qs' & ? & ? & ? & ? & ? & Hx & ?). exists j, qs'. split_and!; try done.
    intros x q Hxq. pose proof (Hx _ _ Hxq) as Eg. rewrite drop_pages_lookup, decide_False; [done|]. intros Hx'.
    destruct (Hin _ Hx') as (q' & E' & _). rewrite Eg in E'. injection E' as -> _ _. done.
Qed.

Lemma kinv_pool k k' live G K : kinv k live G K -> pool_ok outside root k' (backing G) -> Held (Base ∪ K) (p_frames k') -> kinv k' live G K.
Proof. intros [I1 I2 I3 I4 I5 I6 I7] Ok' Hh. by constructor. Qed.

Lemma client_alloc k live G K n : kinv k live G K -> 0 <= n ->
  exists k' live' G' K', client (KAlloc n) (k, live) = Ret (k', live') /\ kinv k' live' G' K'.
Proof.
  intros I Hn. cbn [client]. destruct (kvm_alloc_spec outside root k (backing G) (Base ∪ K) n (ki_ok _ _ _ _ I) (ki_held _ _ _ _ I) Hn) as (r & k' & E & Hr).
  rewrite E, bind_Ret. cbn [fst snd]. destruct r as [kva|[|]]; cbn [alloc_post] in Hr.
  - destruct Hr as (i & qs & -> & H1 & H2 & H3 & H4 & H5 & H6 & H7 & H8). eexists _, _, _, _. split; [done|].
    eapply (kinv_add _ _ _ _ _ i (Owned n) qs); try done; cbn [owned range_pages]; try lia.
    + intros ->. cbn in H4. lia.
    + intros x Hx. apply H6. lia.
    + intros q Hq. by apply H5.
    + by rewrite (assoc_L (∪)).
  - destruct Hr as [-> _]. by eexists _, _, _, _.
  - destruct Hr as (H1 & H2 & _). eexists _, _, _, _. split; [done|]. by eapply kinv_pool.
Qed.

Lemma client_map k live G K q : kinv k live G K -> frame q ->
  exists k' live' G' K', client (KMap q) (k, live) = Ret (k', live') /\ kinv k' live' G' K'.
Proof.
  intros I Hq. cbn [client]. destruct (kvm_map_spec outside root k (backing G) q (ki_ok _ _ _ _ I) Hq) as (r & k' & E & Hf & Hr).
  rewrite E, bind_Ret. cbn [fst snd]. destruct r as [kva|e].
  - destruct Hr as (i & -> & H1 & H2 & H3 & H4). eexists _, _, _, _. split; [done|].
    eapply (kinv_add _ _ _ _ _ i (Mapped q) [q]); try done; cbn [owned range_pages length]; try lia.
    + intros x Hx. replace x with i by lia. done.
    + by intros x ->%list_elem_of_singleton.
    + by intros x [= ->].
    + rewrite Hf. apply I.
  - destruct Hr as (_ & -> & _). by eexists _, _, _, _.
Qed.

Lemma range_nodup k live G K kva r i qs : kinv k live G K -> owned r = true ->
  (forall x q, qs !! x = Some q -> G !! (i + Z.of_nat x) = Some (kva, owned r, q)) -> NoDup qs /\ forall q, q ∈ qs -> frame q /\ q ∈ K.
Proof.
  intros I Eo HG. rewrite Eo in HG. split.
  - apply NoDup_alt. intros x y q Hx Hy. pose proof (ki_inj _ _ _ _ I _ _ _ _ _ (HG _ _ Hx) (HG _ _ Hy)). lia.
  - intros q [x Hx]%list_elem_of_lookup. apply HG in Hx. split; [by eapply (ki_page _ _ _ _ I)|]. apply (ki_owned _ _ _ _ I). eauto.
Qed.

Lemma client_free k live G K kva : kinv k live G K ->
  exists k' live' G' K', client (KFree kva) (k, live) = Ret (k', live') /\ kinv k' live' G' K'.
Proof.
  intros I. cbn [client]. destruct (live !! kva) as [[n|q]|] eqn:El; [|by eexists _, _, _, _..].
  destruct (ki_live _ _ _ _ I _ _ El) as (i & qs & -> & H1 & H2 & H3 & H4 & H5 & _). cbn [range_pages] in H4.
  destruct (range_nodup _ _ _ _ _ (Owned n) _ _ I eq_refl H5) as [Hnd Hq]. unfold free_kernel_pages. rewrite (po_init _ _ _ _ (ki_ok _ _ _ _ I)). cbn [assert]. rewrite bind_Ret, <- H4.
  destruct (tear_owned outside root k (backing G) (Base ∪ (K ∖ list_to_set qs)) i qs) as (k' & r & -> & Ok' & Hh & _).
  - apply I.
  - done.
  - done.
  - done.
  - split; [done|]. intros q Hx. apply Hq in Hx as Hx'. destruct Hx' as [? HK]. split; [done|]. pose proof (ki_sep _ _ _ _ I _ HK). set_solver.
  - intros x q Hx. unfold backing. by rewrite lookup_fmap, (H5 _ _ Hx).
  - replace (Base ∪ K ∖ list_to_set qs ∪ list_to_set qs) with (Base ∪ K); [apply I|].
    assert (list_to_set qs ⊆ K) by (intros q; rewrite elem_of_list_to_set; apply Hq). apply set_eq. intros q.
    rewrite !elem_of_union, elem_of_difference. destruct (decide (q ∈@{gset Z} list_to_set qs)); set_solver.
  - rewrite bind_Ret. eexists _, _, _, _. split; [done|]. by eapply (kinv_remove _ _ _ _ _ _ (Owned n)).
Qed.

Lemma client_unmap k live G K kva : kinv k live G K ->
  exists k' live' G' K', client (KUnmap kva) (k, live) = Ret (k', live') /\ kinv k' live' G' K'.
Proof.
  intros I. cbn [client]. destruct (live !! kva) as [[n|q]|] eqn:El; [by eexists _, _, _, _| |by eexists _, _, _, _].
  destruct (ki_live _ _ _ _ I _ _ El) as (i & qs & -> & H1 & H2 & H3 & H4 & H5 & H6). specialize (H6 q eq_refl) as ->.
  unfold unmap_existing. rewrite (po_init _ _ _ _ (ki_ok _ _ _ _ I)). cbn [assert]. rewrite bind_Ret.
  destruct (tear_mapped outside root k (backing G) i [q]) as (k' & r & E & Ok' & Hh & _); try done; [apply I| | |].
  - intros q' ->%list_elem_of_singleton. by eapply (ki_page _ _ _ _ I), (H5 0%nat).
  - intros x q' Hx. unfold backing. by rewrite lookup_fmap, (H5 _ _ Hx).
  - change (Z.of_nat (length [q])) with 1 in E. rewrite E, bind_Ret. eexists _, _, _, _. split; [done|].
    eapply (kinv_remove _ _ _ _ _ _ (Mapped q) i [q]); try done. cbn [owned]. rewrite Hh. apply I.
Qed.

Lemma clients_kinv cs : forall k live G K, Forall kcall_ok cs -> kinv k live G K ->
  exists k' live' G' K', clients cs (k, live) = Ret (k', live') /\ kinv k' live' G' K'.
Proof.
  induction cs as [|c cs IH]; intros k live G K Hc I; [by eexists _, _, _, _|]. apply Forall_cons in Hc as [Hc Hcs].
  assert (exists k' live' G' K', client c (k, live) = Ret (k', live') /\ kinv k' live' G' K') as (k1 & l1 & G1 & K1 & E & I1).
  { destruct c; [by eapply client_alloc|by eapply client_map|by eapply client_free|by eapply client_unmap]. }
  cbn [clients]. rewrite E, bind_Ret. by eapply IH.
Qed.

Lemma kinv_start k : pool_ok outside root k ∅ -> Held Base (p_frames k) -> kinv k ∅ ∅ ∅.
Proof.
  intros Ok' Hh. constructor; try (intros * E; by rewrite lookup_empty in E).
  - unfold backing. by rewrite fmap_empty.
  - by rewrite union_empty_r_L.
  - set_solver.
  - intros q. split; [set_solver|]. intros (x & kva & E). by rewrite lookup_empty in E.
Qed.
End Inv.

(** * What callers rely on *)

Section Promise.
Context {M : Type} (Held : gset Z -> M -> Prop) (Base : gset Z) (l0 : Z).

(** [K]: the frames behind owned ranges. *)
Record pool_safe (K : gset Z) (k : Pool M) (live : gmap Z Range) : Prop := {
  ps_ranges : forall kva r, live !! kva = Some r -> aligned kva /\ 0 < range_pages r /\ KVM_POOL_BASE <= kva /\ kva + range_pages r * 4096 <= USABLE_END;
  ps_disjoint : forall kva kva' r r' a, live !! kva = Some r -> live !! kva' = Some r' -> span kva (range_pages r) a -> span kva' (range_pages r') a -> kva = kva';
  ps_mapped : forall kva q off, live !! kva = Some (Mapped q) -> 0 <= off < 4096 -> translation (arr_peek (p_mem k)) l0 (kva + off) = Some (q * 4096 + off);
  ps_owned : forall kva n a, live !! kva = Some (Owned n) -> span kva n a ->
    exists q, q ∈ K /\ translation (arr_peek (p_mem k)) l0 a = Some (q * 4096 + a mod 4096);
  ps_exclusive : forall kva kva' n n' a a', live !! kva = Some (Owned n) -> live !! kva' = Some (Owned n') -> span kva n a -> span kva' n' a' ->
    translation (arr_peek (p_mem k)) l0 a = translation (arr_peek (p_mem k)) l0 a' -> a = a';
  ps_used : forall q, q ∈ K -> exists kva n a, live !! kva = Some (Owned n) /\ span kva n a /\ translation (arr_peek (p_mem k)) l0 a = Some (q * 4096);
  ps_unmapped : forall a, KVM_POOL_BASE <= a < USABLE_END -> (forall kva r, live !! kva = Some r -> ~ span kva (range_pages r) a) ->
    translation (arr_peek (p_mem k)) l0 a = None;
  ps_held : Held (Base ∪ K) (p_frames k) /\ forall q, q ∈ K -> ~ q ∈ Base;
}.
End Promise.

Section Seen.
Context {M : Type} `{FrameLaws M Held} (outside : gmap Z Z) (root l0 : Z) (Base : gset Z).
Context (Hsep : l0 + 4096 <= root \/ root + 514 * 4096 <= l0).
Context (Hentry : arr_peek outside (l0 + 2048) = new_table root).
Context (k : Pool M) (live : gmap Z Range) (G : gmap Z (Z * bool * Z)) (K : gset Z) (I : kinv (Held := Held) outside root Base k live G K).

(** The page of the pool at an address. *)
Definition page_no (a : Z) : Z := (a - KVM_POOL_BASE) / 4096.

Lemma page_no_va i off : 0 <= off < 4096 -> page_no (va_of i + off) = i /\ (va_of i + off) mod 4096 = off.
Proof.
  intros Ho. unfold page_no, va_of. assert (KVM_POOL_BASE = 4503565267632128 * 4096) as E by reflexivity. split.
  - replace (KVM_POOL_BASE + i * 4096 + off - KVM_POOL_BASE) with (off + i * 4096) by lia. rewrite Z_div_plus_full, Z.div_small by lia. lia.
  - rewrite E. replace (4503565267632128 * 4096 + i * 4096 + off) with (off + (4503565267632128 + i) * 4096) by lia. rewrite Z_mod_plus_full. apply Z.mod_small. lia.
Qed.

Lemma page_split a : exists off, a = va_of (page_no a) + off /\ 0 <= off < 4096.
Proof.
  exists ((a - KVM_POOL_BASE) mod 4096). unfold page_no, va_of. pose proof (Z.div_mod (a - KVM_POOL_BASE) 4096). pose proof (Z.mod_pos_bound (a - KVM_POOL_BASE) 4096). lia.
Qed.

Lemma span_page i n a : span (va_of i) n a <-> i <= page_no a < i + n.
Proof. destruct (page_split a) as (off & E & Ho). rewrite E at 1. unfold span, va_of. lia. Qed.

Lemma seen a : KVM_POOL_BASE <= a < USABLE_END ->
  translation (arr_peek (p_mem k)) l0 a = match G !! page_no a with Some (_, _, q) => Some (q * 4096 + a mod 4096) | None => None end.
Proof.
  intros Ha. rewrite (pool_translation outside root l0 Hsep Hentry k (backing G) a (ki_ok _ _ _ _ _ _ _ I) Ha). unfold backing. rewrite lookup_fmap.
  fold (page_no a). destruct (G !! page_no a) as [[[kva b] q]|] eqn:E; [|done]. cbn.
  destruct (ki_page _ _ _ _ _ _ _ I _ _ _ _ E) as (Hq & _). destruct (start_addr_page q Hq) as [E1 E2]. by rewrite output_page, E1.
Qed.

(** The page of a live range at [a]. *)
Lemma live_page kva r a : live !! kva = Some r -> span kva (range_pages r) a ->
  KVM_POOL_BASE <= a < USABLE_END /\ exists q, G !! page_no a = Some (kva, owned r, q) /\ (forall p, r = Mapped p -> q = p).
Proof.
  intros Hl Ha. destruct (ki_live _ _ _ _ _ _ _ I _ _ Hl) as (i & qs & -> & H1 & H2 & H3 & H4 & H5 & H6).
  destruct (va_inside i _ H1 H2) as [V1 V2]. split; [unfold span in Ha; lia|]. apply span_page in Ha.
  destruct (lookup_lt_is_Some_2 qs (Z.to_nat (page_no a - i))) as [q Hq]; [lia|]. exists q. apply H5 in Hq as HG.
  replace (i + Z.of_nat (Z.to_nat (page_no a - i))) with (page_no a) in HG by lia. split; [done|]. intros p Ep. rewrite (H6 p Ep) in Hq.
  by apply list_lookup_singleton_Some in Hq as [_ ->].
Qed.

Lemma kinv_safe : pool_safe Held Base l0 K k live.
Proof.
  constructor.
  - intros kva r Hl. destruct (ki_live _ _ _ _ _ _ _ I _ _ Hl) as (i & qs & -> & H1 & H2 & H3 & H4 & _). destruct (va_inside i _ H1 H2) as [V1 V2].
    split; [apply va_aligned|]. destruct qs; [done|]. cbn [length] in *. lia.
  - intros kva kva' r r' a Hl Hl' Ha Ha'. destruct (live_page _ _ _ Hl Ha) as (_ & q & E & _). destruct (live_page _ _ _ Hl' Ha') as (_ & q' & E' & _). congruence.
  - intros kva q off Hl Ho. destruct (live_page _ _ (kva + off) Hl) as (Ha & q' & E & Hq); [unfold span; cbn; lia|]. rewrite seen, E, (Hq q) by done.
    destruct (ki_live _ _ _ _ _ _ _ I _ _ Hl) as (i & qs & -> & _). by destruct (page_no_va i off Ho) as [_ ->].
  - intros kva n a Hl Ha. destruct (live_page _ _ a Hl Ha) as (Hp & q & E & _). exists q. rewrite seen, E by done. split; [|done].
    apply (ki_owned _ _ _ _ _ _ _ I). eauto.
  - intros kva kva' n n' a a' Hl Hl' Ha Ha'. destruct (live_page _ _ a Hl Ha) as (Hp & q & E & _). destruct (live_page _ _ a' Hl' Ha') as (Hp' & q' & E' & _).
    rewrite !seen, E, E' by done. intros [= Et]. pose proof (Z.mod_pos_bound a 4096). pose proof (Z.mod_pos_bound a' 4096). assert (q = q') as <- by lia.
    pose proof (ki_inj _ _ _ _ _ _ _ I _ _ _ _ _ E E') as Ep. destruct (page_split a) as (o & Ea & Ho). destruct (page_split a') as (o' & Ea' & Ho').
    destruct (page_no_va (page_no a) o Ho) as [_ M1]. destruct (page_no_va (page_no a') o' Ho') as [_ M2]. rewrite <- Ea in M1. rewrite <- Ea' in M2. rewrite Ea, Ea', Ep. lia.
  - intros q (x & kva & E)%(ki_owned _ _ _ _ _ _ _ I). destruct (ki_page _ _ _ _ _ _ _ I _ _ _ _ E) as (_ & Hx & [n|?] & Hl & Eo & Hs); [|done].
    exists kva, n, (va_of x). split_and!; [done|done|]. destruct (live_page _ _ _ Hl Hs) as (Hp & _). rewrite seen by done.
    destruct (page_no_va x 0 ltac:(lia)) as [P1 P2]. rewrite Z.add_0_r in P1, P2. rewrite P1, P2, E, Z.add_0_r. done.
  - intros a Ha Hno. rewrite seen by done. destruct (G !! page_no a) as [[[kva b] q]|] eqn:E; [|done]. exfalso.
    destruct (ki_page _ _ _ _ _ _ _ I _ _ _ _ E) as (_ & _ & r & Hl & _ & Hs). apply (Hno _ _ Hl).
    destruct (ki_live _ _ _ _ _ _ _ I _ _ Hl) as (i & qs & -> & _). apply span_page. by apply (proj1 (va_span _ _ _)) in Hs.
  - split; [apply I|apply I].
Qed.
End Seen.

(** C18: After [kvm_init], no sequence of [alloc_kernel_pages], [map_existing],
    [free_kernel_pages] and [unmap_existing] that gives back each range once,
    by its type, panics. The live ranges stay disjoint inside the pool. Through
    the page tables from the kernel's L0, a mapped range shows the caller's
    page, each address of an owned range shows a frame that no other address of
    an owned range shows, and the rest of the pool faults. The frames behind
    owned ranges are exactly those taken from the frame allocator and not given
    back; none is a page table of the pool or a frame held before boot. *)
Theorem kvm_pool_safe {M} `{FrameLaws M Held} (alloc_contiguous : M -> Z -> outcome (option Z * M)) (k : Pool M) (Base : gset Z) q0 p s' cs :
  p_initialized k = false -> p_list k = new -> frame q0 -> q0 ∈ Base ->
  alloc_contiguous (p_frames k) KVM_BOOTSTRAP_TABLE_PAGES = Ret (Some p, s') -> 0 <= p -> p + 514 <= 2 ^ 36 ->
  (forall q, q ∈ block p -> ~ q ∈ Base) -> Held (Base ∪ block p) s' -> Forall kcall_ok cs ->
  exists k1 k2 live K, kvm_init alloc_contiguous k (start_addr q0) = Ret k1 /\ clients cs (k1, ∅) = Ret (k2, live) /\
    pool_safe Held (Base ∪ block p) (start_addr q0) K k2 live.
Proof.
  intros Hi Hl Hq Hq0 Ha H1 H2 Hb Hh Hc. assert (Hnb : ~ q0 ∈ block p) by (intros Hx; by apply (Hb q0 Hx)).
  destruct (kvm_init_spec alloc_contiguous k _ p s' q0 Hi Hl Ha H1 H2 eq_refl Hq Hnb) as (k1 & E1 & Ef & _ & Ok1).
  rewrite <- Ef in Hh. destruct (clients_kinv _ _ _ cs _ _ _ _ Hc (kinv_start _ _ _ _ Ok1 Hh)) as (k2 & live & G & K & E2 & I).
  exists k1, k2, live, K. split; [done|]. split; [done|].
  destruct (start_addr_page q0 Hq) as [E0 P0]. destruct (start_addr_page p ltac:(lia)) as [Ep Pp].
  eapply kinv_safe; [| |done].
  - rewrite E0, Ep. unfold block in Hnb. rewrite elem_of_list_to_set, elem_of_seqZ in Hnb. lia.
  - by rewrite arr_peek_insert, decide_True.
Qed.

(** A frame source that hands out increasing frame numbers also has blocks. *)
Definition bump_contiguous (s n : Z) : outcome (option Z * Z) := Ret (if s + n <=? 2 ^ 36 then (Some s, s + n) else (None, s)).

Definition bump_pool (s : Z) : Pool Z := mkPool new 0 false ∅ s.

Lemma kvm_pool_safe_witness : exists k1 k2 live K, kvm_init bump_contiguous (bump_pool 16) 32768 = Ret k1 /\
  @clients Z bump_ops [KAlloc 3; KMap 9; KFree KVM_POOL_BASE; KAlloc 2; KUnmap 5] (k1, ∅) = Ret (k2, live) /\
  pool_safe bump_held ({[8]} ∪ block 16) 32768 K k2 live.
Proof.
  apply (@kvm_pool_safe Z bump_ops bump_held bump_laws bump_contiguous (bump_pool 16) {[8]} 8 16 530).
  - reflexivity.
  - reflexivity.
  - split; [lia|reflexivity].
  - set_solver.
  - reflexivity.
  - lia.
  - vm_compute. discriminate.
  - intros q Hq ->%elem_of_singleton. unfold block in Hq. rewrite elem_of_list_to_set, elem_of_seqZ in Hq. lia.
  - split; [lia|]. intros q [->%elem_of_singleton|Hq]%elem_of_union; [lia|]. unfold block in Hq. rewrite elem_of_list_to_set, elem_of_seqZ in Hq. lia.
  - repeat constructor; cbn; unfold frame; lia.
Defined.

(** The last frame backs one page, then there is none. *)
Lemma last_frame_supply fs s : (fs = [] /\ s = 2 ^ 36 - 1 \/ fs = [start_addr (2 ^ 36 - 1)] /\ s = 2 ^ 36) ->
  exists r s', @backing_alloc Z bump_ops (Z.of_nat (length fs)) s = Ret (r, s') /\
    match r with
    | Ok p => fs ++ [p] = [] /\ s' = 2 ^ 36 - 1 \/ fs ++ [p] = [start_addr (2 ^ 36 - 1)] /\ s' = 2 ^ 36
    | Err e => (e = OutOfPhysicalFrames /\ fs = [start_addr (2 ^ 36 - 1)]) /\ (fs = [] /\ s' = 2 ^ 36 - 1 \/ fs = [start_addr (2 ^ 36 - 1)] /\ s' = 2 ^ 36)
    end.
Proof. intros [[-> ->]|[-> ->]]; eexists _, _; (split; [reflexivity|]); cbn; [by right|]. split; [done|by right]. Qed.

(** C37: An allocation that runs out of frames part-way loses virtual pages. From
    a pool that is all free, with one frame left, [alloc_kernel_pages(3)] returns
    [OutOfPhysicalFrames] and leaves nothing mapped, but the second and third
    page of the reservation are not free any more: the roll-back gives back the
    pages that were mapped, not the reservation. *)
Theorem kvm_alloc_rollback_leaks : exists k1 k2, kvm_init bump_contiguous (bump_pool (2 ^ 36 - 515)) 32768 = Ret k1 /\
  @alloc_kernel_pages Z bump_ops k1 3 = Ret (Err OutOfPhysicalFrames, k2) /\
  (forall a, KVM_POOL_BASE <= a < USABLE_END -> is_free (p_list k1) a) /\ maps (p_mem k2) (p_l1 k2) ∅ /\
  forall a, is_free (p_list k2) a <-> KVM_POOL_BASE <= a < USABLE_END /\ ~ KVM_POOL_BASE + 4096 <= a < KVM_POOL_BASE + 3 * 4096.
Proof.
  destruct (kvm_init_spec bump_contiguous (bump_pool (2 ^ 36 - 515)) 32768 (2 ^ 36 - 515) (2 ^ 36 - 1) 8) as (k1 & E1 & Ef & El & Ok1).
  1-3: reflexivity. 1-2: lia. 1: reflexivity. 1: split; [lia|reflexivity].
  { unfold block. rewrite elem_of_list_to_set, elem_of_seqZ. lia. }
  set (outside := <[_ := _]> _) in Ok1. set (root := start_addr _) in Ok1. clearbody outside root. pose proof Ok1 as [P1 P2 P3 P4 P5 P6].
  set (l' := [mkRegion (KVM_POOL_BASE + 3 * 4096) 262141]).
  destruct (drive_spec outside (p_l1 k1) 0 3 ltac:(lia) ltac:(lia) ltac:(unfold POOL_PAGES; lia) (@backing_alloc Z bump_ops) _
    (fun fs e => e = OutOfPhysicalFrames /\ fs = [start_addr (2 ^ 36 - 1)]) last_frame_supply (p_mem k1) ∅ (2 ^ 36 - 1))
    as (res & fs & m & s & Ed & T & HM & HP & Hres); [lia|exact P3|exact P4|intros; apply lookup_empty|left; split; reflexivity|].
  destruct res as [u|e]; [destruct HP as [[-> _]|[-> _]]; cbn in Hres; lia|]. destruct Hres as [[-> ->] _]. destruct HP as [[[=] _]|[_ ->]].
  assert (Ok2 : pool_ok outside root (mkPool l' (p_l1 k1) true m (2 ^ 36)) (put 0 (addrs [2 ^ 36 - 1]) ∅)).
  { constructor; cbn [p_initialized p_list p_l1 p_mem]; [reflexivity| |exact T|exact HM| |exact P6].
    - split; [|apply Nat.leb_le; reflexivity]. vm_compute. split_and!; done.
    - intros i Hi Hf. apply is_free_cons in Hf as [Hf|[]%Exists_nil]. cbn [r_start] in Hf. cbn [addrs fmap list_fmap put].
      rewrite lookup_insert_ne; [apply lookup_empty|]. unfold va_of in Hf. lia. }
  destruct (@tear_owned outside root Z bump_ops bump_held bump_laws (mkPool l' (p_l1 k1) true m (2 ^ 36)) _ ∅ 0 [2 ^ 36 - 1] Ok2)
    as (k2 & r & E2 & Ok3 & _ & Hf); [lia|unfold POOL_PAGES; cbn; lia|discriminate| | | |].
  { split; [apply NoDup_singleton|]. intros q ->%list_elem_of_singleton. split; [split; [lia|reflexivity]|apply not_elem_of_empty]. }
  { intros [|x] q Hx; [|discriminate Hx]. injection Hx as <-. cbn [addrs fmap list_fmap put]. apply lookup_insert_eq. }
  { cbn [p_frames]. split; [lia|]. intros p. rewrite elem_of_union, elem_of_list_to_set, list_elem_of_singleton. cbn [p_frames]. intros [[]%not_elem_of_empty| ->]; lia. }
  exists k1, k2. split; [exact E1|]. split.
  { unfold alloc_kernel_pages. rewrite P1, El, Ef. cbn [assert]. rewrite bind_Ret. change (3 =? 0) with false. cbv iota.
    change (try_alloc new 3) with (@Ret (result Z KvmFreeListError * KvmFreeList) (Ok (va_of 0), l')). rewrite bind_Ret. cbn [fst snd p_l1 p_mem p_frames p_list p_initialized].
    rewrite Ed, bind_Ret. unfold roll_back. change (0 <? _) with true. cbv iota. change (Z.of_nat (length _)) with (Z.of_nat (length [2 ^ 36 - 1])).
    rewrite E2. reflexivity. }
  assert (Hnew : forall a, KVM_POOL_BASE <= a < USABLE_END -> is_free (p_list k1) a).
  { intros a Ha. rewrite El. apply is_free_cons. left. exact Ha. }
  split; [exact Hnew|]. split.
  { replace (∅ : gmap Z Z) with (drop_pages 0 (length [2 ^ 36 - 1]) (put 0 (addrs [2 ^ 36 - 1]) ∅)) by (apply (drop_put (addrs [2 ^ 36 - 1])); intros; apply lookup_empty). apply Ok3. }
  destruct r as [u|e]; [|destruct Hf as (_ & _ & Hl & _); discriminate Hl]. intros a. cbn [freed] in Hf. unfold adds in Hf. rewrite Hf. cbn [p_list]. unfold l'.
  rewrite is_free_cons. unfold is_free at 1. rewrite Exists_nil. unfold span, r_end, va_of. cbn [r_start r_pages length]. change USABLE_END with (KVM_POOL_BASE + 262144 * 4096). lia.
Qed.
