(* ===== verification/Handles.v ===== *)
(** Capabilities (lockjaw-types/src/rights.rs, object.rs, handle_ops.rs,
    ipc_token.rs, syscall.rs and src/cap/handle_table.rs): rights, handle
    kinds and the handle-table slot operations. *)
From Stdlib Require Import ZArith Lia.
From stdpp Require Import base option list gmap numbers.
From S2P Require Import Prelude.
Open Scope Z_scope.

(** * Rights *)

Definition RIGHT_READ : Z := Z.shiftl 1 0.
Definition RIGHT_WRITE : Z := Z.shiftl 1 1.
Definition RIGHT_GRANT : Z := Z.shiftl 1 2.

(** [Rights] is a u8. *)
Definition rights_none : Z := 0.
Definition contains (self required : Z) : bool := Z.land required (not_w 8 self) =? 0.

(** * Errors *)

Inductive SyscallError :=
  | OK
  | INVALID_HANDLE
  | INSUFFICIENT_RIGHTS
  | OUT_OF_MEMORY
  | INVALID_PARAMETER
  | ENDPOINT_BUSY
  | NO_CALLER
  | QUEUE_FULL
  | NOT_MONOTONIC
  | ALREADY_WAITING
  | WOULD_BLOCK
  | REPLY_BOUND
  | HANDLE_TABLE_FULL
  | NOT_SUPPORTED
  | OUT_OF_PAGE_SETS
  | OUT_OF_PAGE_TABLES
  | UNKNOWN.

#[export] Instance SyscallError_eq_dec : EqDecision SyscallError.
Proof. solve_decision. Defined.

(** What a handler returns: an error code, a code with a value in x1, or a
    code with the registers from x1 on that the handler wrote itself. *)
Inductive SyscallReturn :=
  | Void (e : SyscallError)
  | Value (r : result Z SyscallError)
  | Message (e : SyscallError) (regs : list Z).

Inductive HandleError := TableFull | InvalidHandle | InsufficientRights.

#[export] Instance HandleError_eq_dec : EqDecision HandleError.
Proof. solve_decision. Defined.

(** * Handles *)

Inductive ObjectType :=
  | OTHandleTable
  | OTThreadControlBlock
  | OTEndpoint
  | OTNotification
  | OTReply
  | OTProcess
  | OTPageSet.

#[export] Instance ObjectType_eq_dec : EqDecision ObjectType.
Proof. solve_decision. Defined.

Inductive HandleKind :=
  | HEmpty
  | HHandleTable (kva : Z)
  | HThreadControlBlock (paddr : Z)
  | HEndpoint (kva : Z) (caller_token : option Z)
  | HNotification (kva : Z)
  | HReply (kva : Z)
  | HProcess (kva : Z)
  | HPageSet (kva : Z) (mapped_va_page : Z).

#[export] Instance HandleKind_eq_dec : EqDecision HandleKind.
Proof. solve_decision. Defined.

Definition obj_type (k : HandleKind) : ObjectType :=
  match k with
  | HEmpty => OTHandleTable
  | HHandleTable _ => OTHandleTable
  | HThreadControlBlock _ => OTThreadControlBlock
  | HEndpoint _ _ => OTEndpoint
  | HNotification _ => OTNotification
  | HReply _ => OTReply
  | HProcess _ => OTProcess
  | HPageSet _ _ => OTPageSet
  end.

Record HandleEntry := mkHandle { h_rights : Z; h_kind : HandleKind }.

Definition EMPTY : HandleEntry := mkHandle rights_none HEmpty.

(** ** Closing *)

Inductive CloseHandleResult :=
  | RemoveOnly
  | RemoveAndDecRef (header_kva : Z)
  | UnmapThenRemove (header_kva mapped_va_page : Z)
  | CloseInvalidHandle.

Definition decide_close_handle (entry : option HandleEntry) : CloseHandleResult :=
  match entry with
  | None => CloseInvalidHandle
  | Some e =>
      match h_kind e with
      | HEmpty => CloseInvalidHandle
      | HPageSet kva mapped_va_page =>
          if negb (mapped_va_page =? 0) then UnmapThenRemove kva mapped_va_page else RemoveAndDecRef kva
      | _ => RemoveOnly
      end
  end.

Inductive TeardownHandleAction := DecRef (header_kva : Z) | Skip.

Definition decide_teardown_handle (entry : HandleEntry) : outcome TeardownHandleAction :=
  match h_kind entry with
  | HEmpty => Ret Skip
  | HPageSet kva mapped_va_page => _ ← assert (mapped_va_page =? 0); Ret (DecRef kva)
  | _ => Ret Skip
  end.

(** ** Sizes: [HandleTableHeader] is 16 bytes and [HandleEntry] 32. *)
Definition HANDLE_TABLE_HEADER_BYTES : Z := 16.
Definition HANDLE_ENTRY_BYTES : Z := 32.
Definition HANDLE_SLOTS_PER_PAGE : Z := (PAGE_SIZE - HANDLE_TABLE_HEADER_BYTES) / HANDLE_ENTRY_BYTES.

Definition query_handle_table_size (slot_count : Z) : Z :=
  (HANDLE_TABLE_HEADER_BYTES + HANDLE_ENTRY_BYTES * slot_count + PAGE_SIZE - 1) / PAGE_SIZE.

(** create_handle_table: the slots of a fresh table. *)
Definition create_handle_table (slot_count : Z) : option (list HandleEntry) :=
  if (slot_count =? 0) || (HANDLE_SLOTS_PER_PAGE <? slot_count) then None
  else Some (replicate (Z.to_nat slot_count) EMPTY).

(** * Slot operations *)

Definition is_empty (e : HandleEntry) : bool := match h_kind e with HEmpty => true | _ => false end.

Fixpoint find_empty_slot (slots : list HandleEntry) : option nat :=
  match slots with
  | [] => None
  | s :: rest => if is_empty s then Some O else S <$> find_empty_slot rest
  end.

Definition slot_lookup (slots : list HandleEntry) (index required : Z) : result HandleEntry HandleError :=
  match slots !! Z.to_nat index with
  | None => Err InvalidHandle
  | Some slot =>
      if is_empty slot then Err InvalidHandle else
      if negb (contains (h_rights slot) required) then Err InsufficientRights else Ok slot
  end.

Definition clear_mapping (k : HandleKind) : HandleKind :=
  match k with HPageSet kva _ => HPageSet kva 0 | other => other end.

Definition slot_insert (slots : list HandleEntry) (rights : Z) (kind : HandleKind)
  : result Z HandleError * list HandleEntry :=
  match kind with
  | HEmpty => (Err InvalidHandle, slots)
  | _ =>
      match find_empty_slot slots with
      | None => (Err TableFull, slots)
      | Some idx => (Ok (Z.of_nat idx), <[idx := mkHandle rights (clear_mapping kind)]> slots)
      end
  end.

Definition slot_remove (slots : list HandleEntry) (index : Z) : result HandleEntry HandleError * list HandleEntry :=
  match slots !! Z.to_nat index with
  | None => (Err InvalidHandle, slots)
  | Some slot =>
      if is_empty slot then (Err InvalidHandle, slots)
      else (Ok slot, <[Z.to_nat index := EMPTY]> slots)
  end.

Definition slot_get_mapped_va (slots : list HandleEntry) (index : Z) : result Z HandleError :=
  match slots !! Z.to_nat index with
  | Some (mkHandle _ (HPageSet _ mapped_va_page)) => Ok mapped_va_page
  | _ => Err InvalidHandle
  end.

Definition slot_set_mapped_va (slots : list HandleEntry) (index va_page : Z)
  : result unit HandleError * list HandleEntry :=
  match slots !! Z.to_nat index with
  | Some (mkHandle rights (HPageSet kva _)) =>
      (Ok tt, <[Z.to_nat index := mkHandle rights (HPageSet kva va_page)]> slots)
  | _ => (Err InvalidHandle, slots)
  end.

(** ** Revocation walks *)

Record SlotRevokeAction := mkAction {
  ra_had_mapping : bool;
  ra_mapped_va_page : Z;
  ra_kind : HandleKind;
}.

(** The action of a slot that is a PageSet handle to [target]. *)
Definition revoke_action (slot : HandleEntry) (target : Z) : option SlotRevokeAction :=
  match h_kind slot with
  | HPageSet kva mapped_va_page =>
      if negb (kva =? target) then None
      else Some (mkAction (negb (mapped_va_page =? 0)) mapped_va_page (h_kind slot))
  | _ => None
  end.

(** The walks thread the callback's state; the count is the returned number
    of matching slots. *)
Fixpoint slot_revoke_validate {St} (slots : list HandleEntry) (target : Z)
    (on_action : SlotRevokeAction -> St -> outcome St) (st : St) (cnt : Z) : outcome (Z * St) :=
  match slots with
  | [] => Ret (cnt, st)
  | slot :: rest =>
      match revoke_action slot target with
      | None => slot_revoke_validate rest target on_action st cnt
      | Some action =>
          st' ← on_action action st;
          slot_revoke_validate rest target on_action st' (cnt + 1)
      end
  end.

Fixpoint slot_revoke_apply {St} (slots : list HandleEntry) (target : Z)
    (on_action : SlotRevokeAction -> St -> outcome St) (st : St) (cnt : Z)
  : outcome (Z * list HandleEntry * St) :=
  match slots with
  | [] => Ret (cnt, [], st)
  | slot :: rest =>
      match revoke_action slot target with
      | None =>
          r ← slot_revoke_apply rest target on_action st cnt;
          let '(c, rest', st') := r in Ret (c, slot :: rest', st')
      | Some action =>
          st1 ← on_action action st;
          r ← slot_revoke_apply rest target on_action st1 (cnt + 1);
          let '(c, rest', st') := r in Ret (c, EMPTY :: rest', st')
      end
  end.

(** * HandleTableRef: the syscall layer's view *)

Definition lookup_any (slots : list HandleEntry) (handle required : Z) : result HandleEntry SyscallError :=
  match slot_lookup slots handle required with
  | Ok e => Ok e
  | Err _ => Err INVALID_HANDLE
  end.

Definition lookup (slots : list HandleEntry) (handle required : Z) (expected : ObjectType)
  : result HandleEntry SyscallError :=
  match slot_lookup slots handle required with
  | Err _ => Err INVALID_HANDLE
  | Ok entry =>
      if decide (obj_type (h_kind entry) = expected) then Ok entry else Err INVALID_PARAMETER
  end.

Definition ht_insert (slots : list HandleEntry) (rights : Z) (kind : HandleKind)
  : result Z SyscallError * list HandleEntry :=
  match slot_insert slots rights kind with
  | (Ok i, t) => (Ok i, t)
  | (Err _, t) => (Err HANDLE_TABLE_FULL, t)
  end.

Definition ht_remove (slots : list HandleEntry) (handle : Z) : result HandleEntry SyscallError * list HandleEntry :=
  match slot_remove slots handle with
  | (Ok e, t) => (Ok e, t)
  | (Err _, t) => (Err INVALID_HANDLE, t)
  end.

Definition ht_set_mapped_va (slots : list HandleEntry) (handle va_page : Z)
  : result unit SyscallError * list HandleEntry :=
  match slot_set_mapped_va slots handle va_page with
  | (Ok u, t) => (Ok u, t)
  | (Err _, t) => (Err INVALID_HANDLE, t)
  end.

Definition ht_get_mapped_va (slots : list HandleEntry) (handle : Z) : result Z SyscallError :=
  match slot_get_mapped_va slots handle with
  | Ok v => Ok v
  | Err _ => Err INVALID_HANDLE
  end.

(** for_each_entry: the occupied slots, in order. *)
Definition occupied (slots : list HandleEntry) : list HandleEntry :=
  filter (fun e => is_empty e = false) slots.

(** * Caller tokens *)

Definition mint_caller_token (next_token : Z) : outcome (Z * Z) :=
  _ ← assert (negb (next_token =? 0));
  next ← unwrap (checked_add64 next_token 1);
  Ret (next_token, next).

(** * Laws of the slot operations *)

Lemma find_empty_slot_spec slots :
  match find_empty_slot slots with
  | Some i => (exists h, slots !! i = Some h /\ is_empty h = true) /\
      forall j h, (j < i)%nat -> slots !! j = Some h -> is_empty h = false
  | None => forall j h, slots !! j = Some h -> is_empty h = false
  end.
Proof.
  induction slots as [|s slots IH]; cbn [find_empty_slot]; [intros j h H; by rewrite lookup_nil in H|].
  destruct (is_empty s) eqn:E.
  - split; [by exists s|]. intros j h Hj. lia.
  - destruct (find_empty_slot slots) as [i|]; cbn [fmap option_fmap option_map].
    + destruct IH as [IH1 IH2]. split; [done|]. intros [|j] h Hj H; [by injection H as <-|]. apply (IH2 j); [lia|done].
    + intros [|j] h H; [by injection H as <-|]. by apply (IH j).
Qed.

Lemma is_empty_kind h : is_empty h = true <-> h_kind h = HEmpty.
Proof. unfold is_empty. by destruct (h_kind h). Qed.

Lemma slot_lookup_spec slots index required :
  slot_lookup slots index required =
  match slots !! Z.to_nat index with
  | Some h => if is_empty h then Err InvalidHandle
              else if contains (h_rights h) required then Ok h else Err InsufficientRights
  | None => Err InvalidHandle
  end.
Proof.
  unfold slot_lookup. destruct (slots !! Z.to_nat index) as [h|]; [|done].
  destruct (is_empty h); [done|]. by destruct (contains (h_rights h) required).
Qed.

Lemma lookup_any_ok slots handle required e :
  lookup_any slots handle required = Ok e -> slots !! Z.to_nat handle = Some e /\ is_empty e = false.
Proof.
  unfold lookup_any. rewrite slot_lookup_spec. destruct (slots !! Z.to_nat handle) as [h|]; [|done].
  destruct (is_empty h) eqn:E; [done|]. destruct (contains _ _); [|done]. by intros [= <-].
Qed.

Lemma lookup_ok slots handle required ty e :
  lookup slots handle required ty = Ok e -> slots !! Z.to_nat handle = Some e /\ obj_type (h_kind e) = ty.
Proof.
  unfold lookup. rewrite slot_lookup_spec. destruct (slots !! Z.to_nat handle) as [h|]; [|done].
  destruct (is_empty h); [done|]. destruct (contains _ _); [|done]. case_decide; [|done]. by intros [= <-].
Qed.

Lemma lookup_err slots handle required ty err : lookup slots handle required ty = Err err -> err <> OK.
Proof.
  unfold lookup. destruct (slot_lookup _ _ _); [case_decide; [done|]|]; by intros [= <-].
Qed.

Lemma ht_get_mapped_ok slots handle kva mv r :
  slots !! Z.to_nat handle = Some (mkHandle r (HPageSet kva mv)) -> ht_get_mapped_va slots handle = Ok mv.
Proof. intros H. unfold ht_get_mapped_va, slot_get_mapped_va. by rewrite H. Qed.

Lemma ht_set_mapped_ok slots handle kva mv r v :
  slots !! Z.to_nat handle = Some (mkHandle r (HPageSet kva mv)) ->
  ht_set_mapped_va slots handle v = (Ok tt, <[Z.to_nat handle := mkHandle r (HPageSet kva v)]> slots).
Proof. intros H. unfold ht_set_mapped_va, slot_set_mapped_va. by rewrite H. Qed.

Lemma ht_remove_ok slots handle h :
  slots !! Z.to_nat handle = Some h -> is_empty h = false ->
  ht_remove slots handle = (Ok h, <[Z.to_nat handle := EMPTY]> slots).
Proof. intros H E. unfold ht_remove, slot_remove. by rewrite H, E. Qed.

Lemma ht_insert_cases slots rights kind :
  kind <> HEmpty ->
  (exists i h, slots !! i = Some h /\ h_kind h = HEmpty /\
     ht_insert slots rights kind = (Ok (Z.of_nat i), <[i := mkHandle rights (clear_mapping kind)]> slots)) \/
  ht_insert slots rights kind = (Err HANDLE_TABLE_FULL, slots).
Proof.
  intros Hk. unfold ht_insert, slot_insert. pose proof (find_empty_slot_spec slots) as H.
  destruct (find_empty_slot slots) as [i|].
  - destruct H as [(h & Hi & Hh) _]. left. exists i, h. rewrite is_empty_kind in Hh. split_and!; try done. by destruct kind.
  - right. by destruct kind.
Qed.

(** * Theorems *)

(** A handle table behaves as a map from indices to handles. Insertion
    fails only for the empty kind or when no slot is free, and otherwise puts
    the handle, with no mapping recorded, in the lowest free slot. Lookup
    returns the handle of an occupied slot exactly when it carries all the
    required rights. Removing what was inserted restores the table, and none of
    the operations touches any other slot. *)
Theorem handle_table_laws slots rights kind :
  (forall r slots', slot_insert slots rights kind = (r, slots') ->
     match r with
     | Ok idx => exists i, idx = Z.of_nat i /\ kind <> HEmpty /\
         (exists h, slots !! i = Some h /\ is_empty h = true) /\
         (forall j h, (j < i)%nat -> slots !! j = Some h -> is_empty h = false) /\
         slots' = <[i := mkHandle rights (clear_mapping kind)]> slots /\
         (forall required, contains rights required = true ->
            slot_lookup slots' idx required = Ok (mkHandle rights (clear_mapping kind))) /\
         (forall required, contains rights required = false ->
            slot_lookup slots' idx required = Err InsufficientRights) /\
         (forall j required, 0 <= j -> j <> idx -> slot_lookup slots' j required = slot_lookup slots j required) /\
         (slots !! i = Some EMPTY -> slot_remove slots' idx = (Ok (mkHandle rights (clear_mapping kind)), slots))
     | Err e => slots' = slots /\
         (e = InvalidHandle /\ kind = HEmpty \/ e = TableFull /\ forall j h, slots !! j = Some h -> is_empty h = false)
     end).
Proof.
  intros r slots' H. unfold slot_insert in H.
  destruct (decide (kind = HEmpty)) as [->|Hk]; [injection H as <- <-; auto|].
  pose proof (find_empty_slot_spec slots) as Hf.
  assert (match find_empty_slot slots with
    | None => (Err TableFull, slots)
    | Some idx => (Ok (Z.of_nat idx), <[idx := mkHandle rights (clear_mapping kind)]> slots)
    end = (r, slots')) as H' by (by destruct kind). clear H.
  destruct (find_empty_slot slots) as [i|]; injection H' as <- <-; [|auto].
  destruct Hf as [(h & Hi & Hh) Hlow]. pose proof (lookup_lt_Some _ _ _ Hi) as Hlt.
  assert (is_empty (mkHandle rights (clear_mapping kind)) = false) as Hne by (by destruct kind).
  exists i. split_and!; eauto.
  - intros required Hc. rewrite slot_lookup_spec, Nat2Z.id, list_lookup_insert_eq, Hne by done.
    cbn [h_rights]. by rewrite Hc.
  - intros required Hc. rewrite slot_lookup_spec, Nat2Z.id, list_lookup_insert_eq, Hne by done.
    cbn [h_rights]. by rewrite Hc.
  - intros j required Hj Hji. rewrite !slot_lookup_spec, list_lookup_insert_ne by lia. done.
  - intros He. unfold slot_remove. rewrite Nat2Z.id, list_lookup_insert_eq, Hne by done.
    by rewrite list_insert_insert_eq, list_insert_id.
Qed.

Lemma handle_table_laws_witness :
  slot_insert [EMPTY; EMPTY] RIGHT_READ (HPageSet 4096 7) =
    (Ok 0, [mkHandle RIGHT_READ (HPageSet 4096 0); EMPTY]) /\
  slot_lookup [mkHandle RIGHT_READ (HPageSet 4096 0); EMPTY] 0 RIGHT_WRITE = Err InsufficientRights.
Proof.
  split; [reflexivity|].
  destruct (handle_table_laws [EMPTY; EMPTY] RIGHT_READ (HPageSet 4096 7) (Ok 0)
    [mkHandle RIGHT_READ (HPageSet 4096 0); EMPTY] eq_refl) as (i & Hi & _ & _ & _ & _ & _ & H & _).
  apply H. reflexivity.
Defined.
