(* ===== verification/Revoke.v ===== *)
(** Cross-process handle revocation (src/cap/revoke.rs and the consume
    operations of src/cap/pageset_table.rs): the walk over every live
    process's handle table, its validate and apply phases, and the accounting
    that ties a PageSet header's counters to the handles that exist. *)
From Stdlib Require Import ZArith Lia.
From stdpp Require Import base option list gmap numbers sets fin_sets fin_maps.
From S2P Require Import Prelude Frames Buddy BuddyInv Pools FrameAlloc PageSet Ownership KPageSet PageTable Vmem Handles.
Open Scope Z_scope.

(** * Kernel state *)

(** A ProcessObject: its TTBR0 (0 for a kernel process) and handle table. *)
Record Proc := mkProc { p_ttbr0 : Z; p_table : list HandleEntry }.

(** [k_pt] is the memory of the page tables; [k_procs] the ProcessObjects by
    address; [k_threads] the scheduler's thread slots, holding TCB addresses,
    and [k_tcb_process] the TCBs' process_kva; [k_next_token] the endpoints'
    token counters. *)
Record Kernel := mkKernel {
  k_mem : KMem;
  k_pt : gmap Z Z;
  k_procs : gmap Z Proc;
  k_threads : list (option Z);
  k_tcb_process : gmap Z Z;
  k_next_token : gmap Z Z;
}.

Definition with_mem (k : Kernel) (s : KMem) : Kernel :=
  mkKernel s (k_pt k) (k_procs k) (k_threads k) (k_tcb_process k) (k_next_token k).
Definition with_pt (k : Kernel) (m : gmap Z Z) : Kernel :=
  mkKernel (k_mem k) m (k_procs k) (k_threads k) (k_tcb_process k) (k_next_token k).
Definition with_procs (k : Kernel) (ps : gmap Z Proc) : Kernel :=
  mkKernel (k_mem k) (k_pt k) ps (k_threads k) (k_tcb_process k) (k_next_token k).

(** Writing the handle table of a process. *)
Definition with_slots (k : Kernel) (process_kva : Z) (pr : Proc) (slots : list HandleEntry) : Kernel :=
  with_procs k (<[process_kva := mkProc (p_ttbr0 pr) slots]> (k_procs k)).

(** * The walk over processes *)

Definition MAX_THREADS : Z := 1024.

(** for_each_tcb and for_each_unique_process: [f] runs once per distinct
    non-kernel process of the scheduler's slots, in slot order. *)
Fixpoint for_each_unique_process {St} (tcb_process : gmap Z Z) (threads : list (option Z)) (visited : list Z)
    (f : Z -> St -> outcome St) (st : St) : outcome St :=
  match threads with
  | [] => Ret st
  | None :: rest => for_each_unique_process tcb_process rest visited f st
  | Some tcb :: rest =>
      process_kva ← unwrap (tcb_process !! tcb);
      if process_kva =? 0 then for_each_unique_process tcb_process rest visited f st else
      if bool_decide (process_kva ∈ visited) then for_each_unique_process tcb_process rest visited f st else
      if MAX_THREADS <=? Z.of_nat (length visited) then Panic PAssert else
      st' ← f process_kva st;
      for_each_unique_process tcb_process rest (visited ++ [process_kva]) f st'
  end.

(** * Validate and apply *)

Inductive RevokeError :=
  | AccountingMismatch (snapshot_refcount snapshot_map_count walked_refcount walked_map_count : Z)
  | UnmapFailed (process_kva va : Z).

Record Walked := mkWalked {
  wk_refcount : Z;
  wk_map_count : Z;
  wk_first_error : option RevokeError;
}.

(** The pages a header lists, by its trusted count. *)
Definition pages_slice (b : Hdr.BackedHeader) : list Z :=
  arr_peek (h_pages (Hdr.bk_header b)) <$> seqZ 0 (Hdr.bk_count b).

Definition validate_action (k : Kernel) (header_kva process_kva ttbr0 : Z) (action : SlotRevokeAction) (w : Walked)
  : outcome Walked :=
  let wr := wk_refcount w + 1 in
  if ra_had_mapping action then
    let va := Z.shiftl (ra_mapped_va_page action) 12 in
    b ← read_header_backed (k_mem k) header_kva;
    ok ← validate_pte_match (arr_peek (k_pt k)) ttbr0 va (pages_slice b);
    match ok with
    | Err _ => Ret (mkWalked wr (wk_map_count w) (Some (UnmapFailed process_kva va)))
    | Ok _ => Ret (mkWalked wr (wk_map_count w + 1) (wk_first_error w))
    end
  else Ret (mkWalked wr (wk_map_count w) (wk_first_error w)).

Definition validate_process (k : Kernel) (header_kva process_kva : Z) (w : Walked) : outcome Walked :=
  match wk_first_error w with
  | Some _ => Ret w
  | None =>
      pr ← unwrap (k_procs k !! process_kva);
      r ← slot_revoke_validate (p_table pr) header_kva
            (validate_action k header_kva process_kva (p_ttbr0 pr)) w 0;
      Ret r.2
  end.

Definition revoke_validate (k : Kernel) (header_kva : Z) : outcome (result unit RevokeError) :=
  let h := read_header (k_mem k) header_kva in
  w ← for_each_unique_process (k_tcb_process k) (k_threads k) []
        (validate_process k header_kva) (mkWalked 0 0 None);
  match wk_first_error w with
  | Some e => Ret (Err e)
  | None =>
      if negb (wk_refcount w =? h_refcount h) || negb (wk_map_count w =? h_map_count h) then
        Ret (Err (AccountingMismatch (h_refcount h) (h_map_count h) (wk_refcount w) (wk_map_count w)))
      else Ret (Ok tt)
  end.

Record RevokeStats := mkStats { rs_processes : Z; rs_slots : Z; rs_mappings : Z }.

(** The header and page-table memory the apply walk changes, and its counts. *)
Definition ApplyState : Type := KMem * gmap Z Z * RevokeStats.

Definition apply_action (header_kva ttbr0 : Z) (action : SlotRevokeAction) (st : ApplyState)
  : outcome ApplyState :=
  let '(s, m, stats) := st in
  x ← (if ra_had_mapping action then
         let va := Z.shiftl (ra_mapped_va_page action) 12 in
         b ← read_header_backed s header_kva;
         m' ← clear_validated_pte ttbr0 va (Hdr.bk_count b) m;
         d ← Hdr.dec_map_count (read_header s header_kva);
         Ret (with_header s header_kva d.2, m', rs_mappings stats + 1)
       else Ret (s, m, rs_mappings stats));
  let '(s1, m1, mappings) := x in
  match ra_kind action with
  | HPageSet _ _ =>
      d ← Hdr.dec_refcount (read_header s1 header_kva);
      Ret (with_header s1 header_kva d.2, m1, mkStats (rs_processes stats) (rs_slots stats + 1) mappings)
  | _ => Ret (s1, m1, mkStats (rs_processes stats) (rs_slots stats + 1) mappings)
  end.

Definition apply_process (header_kva process_kva : Z) (x : Kernel * RevokeStats) : outcome (Kernel * RevokeStats) :=
  let '(k, stats) := x in
  let stats1 := mkStats (rs_processes stats + 1) (rs_slots stats) (rs_mappings stats) in
  pr ← unwrap (k_procs k !! process_kva);
  r ← slot_revoke_apply (p_table pr) header_kva (apply_action header_kva (p_ttbr0 pr))
        (k_mem k, k_pt k, stats1) 0;
  let '(_, slots, (s, m, stats2)) := r in
  Ret (with_slots (with_pt (with_mem k s) m) process_kva pr slots, stats2).

Definition revoke_apply (k : Kernel) (header_kva : Z) : outcome (Kernel * RevokeStats) :=
  for_each_unique_process (k_tcb_process k) (k_threads k) [] (apply_process header_kva) (k, mkStats 0 0 0).

(** ** Consuming a PageSet *)
Section Consume.
Context (cfg : Config).

Definition consume_pageset_validate (k : Kernel) (header_kva : Z) : outcome (result unit RevokeError) :=
  revoke_validate k header_kva.

Definition consume_pageset_apply (k : Kernel) (header_kva : Z) : outcome Kernel :=
  x ← revoke_apply k header_kva;
  let k1 := x.1 in
  s ← hp_release cfg (consume_by_header_kva (k_mem k1) header_kva).2 header_kva;
  Ret (with_mem k1 s).
End Consume.

(** * Walks as iterations *)

Fixpoint iterM {A St} (f : A -> St -> outcome St) (l : list A) (st : St) : outcome St :=
  match l with
  | [] => Ret st
  | x :: l' => st' ← f x st; iterM f l' st'
  end.

(** An iteration whose steps keep an invariant on the prefix done so far. *)
Lemma iterM_inv {A St} (P : list A -> St -> Prop) f l : forall acc st,
  P acc st ->
  (forall pre x post st, l = pre ++ x :: post -> P (acc ++ pre) st -> exists st', f x st = Ret st' /\ P (acc ++ pre ++ [x]) st') ->
  exists st', iterM f l st = Ret st' /\ P (acc ++ l) st'.
Proof.
  induction l as [|x l IH]; intros acc st H0 Hs; cbn [iterM].
  { exists st. by rewrite app_nil_r. }
  destruct (Hs [] x l st) as (st' & -> & H1); [done|by rewrite app_nil_r|]. rewrite bind_Ret.
  destruct (IH (acc ++ [x]) st') as (st2 & E & H2); [done| |].
  - intros pre y post st3 -> H3. destruct (Hs (x :: pre) y post st3) as (st4 & E & H4); [done|by rewrite <- app_assoc in H3|].
    exists st4. split; [done|]. by rewrite <- app_assoc.
  - exists st2. split; [done|]. by rewrite <- app_assoc in H2.
Qed.

(** The processes of the scheduler's slots, and the order of first visits. *)
Definition procs_of (tcb_process : gmap Z Z) (threads : list (option Z)) : list Z :=
  omap (fun o => o ≫= (fun tcb => tcb_process !! tcb)) threads.

Fixpoint uniq (visited l : list Z) : list Z :=
  match l with
  | [] => []
  | x :: l' => if decide (x = 0 \/ x ∈ visited) then uniq visited l' else x :: uniq (visited ++ [x]) l'
  end.

Lemma uniq_elem l : forall visited x, x ∈ uniq visited l <-> x ∈ l /\ x <> 0 /\ ~ (x ∈ visited).
Proof.
  induction l as [|y l IH]; intros visited x; cbn [uniq].
  { rewrite elem_of_nil. tauto. }
  rewrite elem_of_cons. case_decide as H.
  - rewrite IH. split; [tauto|]. intros ([->|?] & ? & ?); tauto.
  - rewrite elem_of_cons, IH, elem_of_app, list_elem_of_singleton.
    destruct (decide (x = y)) as [->|Hne]; tauto.
Qed.

Lemma uniq_nodup l : forall visited, NoDup (uniq visited l).
Proof.
  induction l as [|y l IH]; intros visited; cbn [uniq]; [constructor|].
  case_decide; [apply IH|]. apply NoDup_cons. split; [|apply IH].
  rewrite uniq_elem, elem_of_app, list_elem_of_singleton. tauto.
Qed.

(** With a process for every thread and at most [MAX_THREADS] slots the
    visited buffer never overflows and the walk is one pass over the distinct
    processes. *)
Lemma walk_iter {St} tp (f : Z -> St -> outcome St) threads : forall visited st,
  (forall tcb, Some tcb ∈ threads -> is_Some (tp !! tcb)) ->
  Z.of_nat (length visited + length threads) <= MAX_THREADS ->
  for_each_unique_process tp threads visited f st = iterM f (uniq visited (procs_of tp threads)) st.
Proof.
  induction threads as [|[tcb|] threads IH]; intros visited st Ht Hl; cbn [for_each_unique_process].
  - done.
  - destruct (Ht tcb ltac:(apply elem_of_cons; by left)) as [p Hp]. cbn [length] in Hl.
    assert (procs_of tp (Some tcb :: threads) = p :: procs_of tp threads) as ->.
    { unfold procs_of. simpl. by rewrite Hp. }
    rewrite Hp. cbn [unwrap uniq]. rewrite bind_Ret.
    assert (forall tcb, Some tcb ∈ threads -> is_Some (tp !! tcb)) as Ht'.
    { intros t Hin. apply Ht. apply elem_of_cons. by right. }
    destruct (Z.eqb_spec p 0) as [E|E].
    { rewrite decide_True by tauto. apply IH; [done|lia]. }
    destruct (decide (p ∈ visited)) as [Hv|Hv].
    { rewrite bool_decide_true, decide_True by tauto. apply IH; [done|lia]. }
    rewrite bool_decide_false, decide_False by tauto. rewrite (proj2 (Z.leb_gt _ _)) by lia.
    cbn [iterM]. destruct (f p st) as [st'|]; [|done]. cbn [mbind outcome_bind]. apply IH; [done|].
    rewrite length_app. simpl. lia.
  - cbn [length] in Hl. apply IH; [|lia]. intros t Hin. apply Ht. apply elem_of_cons. by right.
Qed.

(** The actions of a table, and the table after revocation. *)
Definition actions (target : Z) (slots : list HandleEntry) : list SlotRevokeAction :=
  omap (fun slot => revoke_action slot target) slots.

Definition revoke_slot (target : Z) (slot : HandleEntry) : HandleEntry :=
  match revoke_action slot target with Some _ => EMPTY | None => slot end.

Lemma actions_cons target slot slots :
  actions target (slot :: slots) =
  match revoke_action slot target with Some a => a :: actions target slots | None => actions target slots end.
Proof. reflexivity. Qed.

Lemma slot_validate_iter {St} target (f : SlotRevokeAction -> St -> outcome St) slots : forall st c,
  slot_revoke_validate slots target f st c =
  (st' ← iterM f (actions target slots) st; Ret (c + Z.of_nat (length (actions target slots)), st')).
Proof.
  induction slots as [|slot slots IH]; intros st c; cbn [slot_revoke_validate].
  - cbn. by rewrite Z.add_0_r.
  - rewrite actions_cons. destruct (revoke_action slot target) as [a|]; [|by rewrite IH].
    cbn [iterM]. destruct (f a st) as [st'|]; [|done]. rewrite !bind_Ret, IH.
    destruct (iterM f (actions target slots) st'); [|done]. rewrite !bind_Ret.
    do 2 f_equal. cbn [length]. lia.
Qed.

Lemma slot_apply_iter {St} target (f : SlotRevokeAction -> St -> outcome St) slots : forall st c,
  slot_revoke_apply slots target f st c =
  (st' ← iterM f (actions target slots) st;
   Ret (c + Z.of_nat (length (actions target slots)), revoke_slot target <$> slots, st')).
Proof.
  induction slots as [|slot slots IH]; intros st c; cbn [slot_revoke_apply].
  - cbn. by rewrite Z.add_0_r.
  - rewrite actions_cons, fmap_cons. unfold revoke_slot at 1. destruct (revoke_action slot target) as [a|].
    + cbn [iterM]. destruct (f a st) as [st'|]; [|done]. rewrite !bind_Ret, IH.
      destruct (iterM f (actions target slots) st'); [|done]. rewrite !bind_Ret.
      do 3 f_equal. cbn [length]. lia.
    + rewrite IH. by destruct (iterM f (actions target slots) st).
Qed.

(** * Counting handles *)

Definition tally (w : HandleEntry -> Z) (slots : list HandleEntry) : Z := foldr (fun e n => w e + n) 0 slots.

(** A handle to [target], and a mapped handle to [target]. *)
Definition ref_w (target : Z) (e : HandleEntry) : Z :=
  match revoke_action e target with Some _ => 1 | None => 0 end.
Definition map_w (target : Z) (e : HandleEntry) : Z :=
  match revoke_action e target with Some a => Z.b2z (ra_had_mapping a) | None => 0 end.

Definition nrefs (target : Z) : list HandleEntry -> Z := tally (ref_w target).
Definition nmaps (target : Z) : list HandleEntry -> Z := tally (map_w target).

Lemma tally_insert w slots i old new :
  slots !! i = Some old -> tally w (<[i := new]> slots) = tally w slots - w old + w new.
Proof.
  revert i. induction slots as [|e slots IH]; intros [|i] H; simpl in *; try done.
  - injection H as ->. lia.
  - rewrite (IH i H). lia.
Qed.

Lemma nrefs_actions target slots : nrefs target slots = Z.of_nat (length (actions target slots)).
Proof.
  unfold nrefs. induction slots as [|e slots IH]; [done|]. rewrite actions_cons. cbn [tally foldr]. fold (tally (ref_w target) slots).
  rewrite IH. unfold ref_w. destruct (revoke_action e target); simpl; lia.
Qed.

Definition mapped_actions (target : Z) (slots : list HandleEntry) : list SlotRevokeAction :=
  filter (fun a => ra_had_mapping a = true) (actions target slots).

Lemma nmaps_actions target slots : nmaps target slots = Z.of_nat (length (mapped_actions target slots)).
Proof.
  unfold nmaps, mapped_actions. induction slots as [|e slots IH]; [done|]. rewrite actions_cons.
  cbn [tally foldr]. fold (tally (map_w target) slots). rewrite IH. unfold map_w.
  destruct (revoke_action e target) as [a|]; [|done]. rewrite filter_cons.
  destruct (ra_had_mapping a); [rewrite decide_True by done|rewrite decide_False by done]; simpl; lia.
Qed.

Lemma nmaps_le_nrefs target slots : 0 <= nmaps target slots <= nrefs target slots.
Proof.
  rewrite nrefs_actions, nmaps_actions. unfold mapped_actions.
  pose proof (length_filter (fun a => ra_had_mapping a = true) (actions target slots)). lia.
Qed.

Lemma nrefs_bound target slots : nrefs target slots <= Z.of_nat (length slots).
Proof.
  unfold nrefs. induction slots as [|e slots IH]; [done|]. cbn [tally foldr length].
  fold (tally (ref_w target) slots). unfold ref_w at 1. destruct (revoke_action e target); lia.
Qed.

(** ** Sums over processes *)

Definition sum_procs (f : list HandleEntry -> Z) (ps : gmap Z Proc) : Z :=
  map_fold (fun _ pr n => f (p_table pr) + n) 0 ps.

Lemma sum_procs_delete f ps p pr :
  ps !! p = Some pr -> sum_procs f ps = f (p_table pr) + sum_procs f (delete p ps).
Proof.
  intros H. unfold sum_procs. rewrite (map_fold_delete_L _ _ p pr); [done| |done].
  intros j1 j2 z1 z2 y _ _ _. lia.
Qed.

Lemma sum_procs_insert f ps p pr pr' :
  ps !! p = Some pr -> sum_procs f (<[p := pr']> ps) = sum_procs f ps - f (p_table pr) + f (p_table pr').
Proof.
  intros H. rewrite (sum_procs_delete f ps p pr H), (sum_procs_delete f (<[p := pr']> ps) p pr').
  - rewrite delete_insert_eq. lia.
  - apply lookup_insert_eq.
Qed.

Lemma sum_procs_empty f : sum_procs f ∅ = 0.
Proof. apply map_fold_empty. Qed.

Lemma sum_procs_ext f g ps :
  (forall p pr, ps !! p = Some pr -> f (p_table pr) = g (p_table pr)) -> sum_procs f ps = sum_procs g ps.
Proof.
  revert ps. induction ps as [|p pr ps Hp IH] using map_ind; intros H; [by rewrite !sum_procs_empty|].
  rewrite (sum_procs_delete f _ p pr), (sum_procs_delete g _ p pr) by apply lookup_insert_eq.
  rewrite delete_insert_id by done. rewrite (H p pr) by apply lookup_insert_eq. f_equal. apply IH.
  intros q qr Hq. apply (H q). rewrite lookup_insert_ne; [done|]. congruence.
Qed.

Lemma sum_procs_nonneg f ps :
  (forall p pr, ps !! p = Some pr -> 0 <= f (p_table pr)) -> 0 <= sum_procs f ps.
Proof.
  revert ps. induction ps as [|p pr ps Hp IH] using map_ind; intros H; [by rewrite sum_procs_empty|].
  rewrite (sum_procs_delete f _ p pr) by apply lookup_insert_eq. rewrite delete_insert_id by done.
  pose proof (H p pr (lookup_insert_eq _ _ _)). enough (0 <= sum_procs f ps) by lia. apply IH.
  intros q qr Hq. apply (H q). rewrite lookup_insert_ne; [done|]. congruence.
Qed.

Lemma sum_procs_le f ps p pr :
  ps !! p = Some pr -> (forall q qr, ps !! q = Some qr -> 0 <= f (p_table qr)) -> f (p_table pr) <= sum_procs f ps.
Proof.
  intros Hp Hf. rewrite (sum_procs_delete f ps p pr Hp).
  enough (0 <= sum_procs f (delete p ps)) by lia. apply sum_procs_nonneg.
  intros q qr Hq. apply lookup_delete_Some in Hq as [_ Hq]. by apply (Hf q).
Qed.

(** The same sum along a list of processes. *)
Fixpoint sum_list (f : list HandleEntry -> Z) (ps : gmap Z Proc) (l : list Z) : Z :=
  match l with
  | [] => 0
  | p :: l' => match ps !! p with Some pr => f (p_table pr) | None => 0 end + sum_list f ps l'
  end.

Lemma sum_list_ext f ps ps' l : (forall p, p ∈ l -> ps !! p = ps' !! p) -> sum_list f ps l = sum_list f ps' l.
Proof.
  induction l as [|p l IH]; intros H; cbn [sum_list]; [done|].
  rewrite (H p) by (apply elem_of_cons; by left). f_equal. apply IH.
  intros q Hq. apply H. apply elem_of_cons. by right.
Qed.

Lemma sum_list_procs f l : forall ps,
  NoDup l -> (forall p, p ∈ l <-> is_Some (ps !! p)) -> sum_list f ps l = sum_procs f ps.
Proof.
  induction l as [|p l IH]; intros ps Hnd Hl; cbn [sum_list].
  - assert (ps = ∅) as ->; [|by rewrite sum_procs_empty].
    apply map_empty. intros p. apply eq_None_not_Some. intros Hp%Hl. by apply elem_of_nil in Hp.
  - apply NoDup_cons in Hnd as [Hp Hnd]. destruct (proj1 (Hl p) ltac:(apply elem_of_cons; by left)) as [pr Hpr].
    rewrite Hpr, (sum_procs_delete f ps p pr Hpr). f_equal. rewrite <- (IH (delete p ps) Hnd).
    + apply sum_list_ext. intros q Hq. rewrite lookup_delete_ne; [done|]. congruence.
    + intros q. split.
      * intros Hq. rewrite lookup_delete_ne by congruence. apply Hl. apply elem_of_cons. by right.
      * intros [qr Hq]. apply lookup_delete_Some in Hq as [Hne Hq].
        pose proof (proj2 (Hl q) (ex_intro _ qr Hq)) as Hin. apply elem_of_cons in Hin as [|]; [congruence|done].
Qed.

(** * The kernel invariant *)
Section Invariant.
Context (cfg : Config).

(** [G], [D], [oB], [oD] describe the memory (see KPageSet), [S] the address
    spaces. *)
Record sys_ok (G D : gset Z) (oB oD : nat -> list Z) (S : gmap Z AS) (k : Kernel) : Prop := {
  ok_mem : inv cfg G D None oB oD (k_mem k);
  ok_spaces : spaces_ok (k_pt k) S;
  ok_tables : tables_held (set_map (frame_of cfg) G) S;
  ok_len : Z.of_nat (length (k_threads k)) <= MAX_THREADS;
  ok_tcb : forall tcb, Some tcb ∈ k_threads k -> is_Some (k_tcb_process k !! tcb);
  ok_live : forall p, p ∈ procs_of (k_tcb_process k) (k_threads k) /\ p <> 0 <-> is_Some (k_procs k !! p);
  ok_root : forall p pr, k_procs k !! p = Some pr -> p_ttbr0 pr = 0 \/ is_Some (S !! p_ttbr0 pr);
  ok_root_inj : forall p p' pr pr', k_procs k !! p = Some pr -> k_procs k !! p' = Some pr' ->
    p_ttbr0 pr = p_ttbr0 pr' -> p_ttbr0 pr <> 0 -> p = p';
  ok_slots : forall p pr, k_procs k !! p = Some pr -> Z.of_nat (length (p_table pr)) <= HANDLE_SLOTS_PER_PAGE;
  ok_handle : forall p pr i h kva mv, k_procs k !! p = Some pr -> p_table pr !! i = Some h -> h_kind h = HPageSet kva mv ->
    exists j e, table (k_mem k) !! j = Some (Some e) /\ e_header_kva e = kva /\ 0 <= mv /\
      (mv <> 0 -> p_ttbr0 pr <> 0 /\ mv + e_count e <= 2 ^ 18);
  ok_counts : forall j e, table (k_mem k) !! j = Some (Some e) ->
    h_refcount (read_header (k_mem k) (e_header_kva e)) = sum_procs (nrefs (e_header_kva e)) (k_procs k) /\
    h_map_count (read_header (k_mem k) (e_header_kva e)) = sum_procs (nmaps (e_header_kva e)) (k_procs k);
}.

Lemma trusted_layout_entry G D R oB oD s i e :
  inv cfg G D R oB oD s -> table s !! i = Some (Some e) ->
  trusted_layout s (e_header_kva e) = Some (e_count e, HeaderPool.header_pages_for (e_count e)).
Proof.
  intros I He. destruct (iv_entry _ _ _ _ _ _ _ I i e He) as [Hk _]. rewrite Hk.
  by eapply trusted_layout_spec.
Qed.

Lemma entry_unique G D R oB oD s i j e e' :
  inv cfg G D R oB oD s -> table s !! i = Some (Some e) -> table s !! j = Some (Some e') ->
  e_header_kva e = e_header_kva e' -> i = j.
Proof.
  intros I Hi Hj E. destruct (iv_entry _ _ _ _ _ _ _ I i e Hi) as [H1 _].
  destruct (iv_entry _ _ _ _ _ _ _ I j e' Hj) as [H2 _]. rewrite H1, H2 in E.
  apply slot_kva_inj in E. lia.
Qed.

(** The order in which a walk visits the processes. *)
Definition visits (k : Kernel) : list Z := uniq [] (procs_of (k_tcb_process k) (k_threads k)).

Lemma visits_live G D oB oD S k p : sys_ok G D oB oD S k -> p ∈ visits k <-> is_Some (k_procs k !! p).
Proof.
  intros K. unfold visits. rewrite uniq_elem, <- (ok_live _ _ _ _ _ _ K).
  pose proof (not_elem_of_nil p). tauto.
Qed.

Lemma sum_visits G D oB oD S k f : sys_ok G D oB oD S k -> sum_list f (k_procs k) (visits k) = sum_procs f (k_procs k).
Proof.
  intros K. apply sum_list_procs; [apply uniq_nodup|]. intros p. by eapply visits_live.
Qed.

Lemma walk_visits {St} G D oB oD S k (f : Z -> St -> outcome St) st :
  sys_ok G D oB oD S k ->
  for_each_unique_process (k_tcb_process k) (k_threads k) [] f st = iterM f (visits k) st.
Proof.
  intros K. apply walk_iter; [apply (ok_tcb _ _ _ _ _ _ K)|]. simpl. apply (ok_len _ _ _ _ _ _ K).
Qed.

(** ** Validation *)

(** The frames of the PageSet at [kva], whose registration says [cnt] pages. *)
Definition frames (s : KMem) (kva cnt : Z) : list Z := pages_slice (Hdr.backed (read_header s kva) cnt).

(** The address space [r] maps [es] from page [mv] on. *)
Definition maps_at (m : gmap Z Z) (S : gmap Z AS) (r mv : Z) (es : list Z) : Prop :=
  forall n x, es !! n = Some x -> sview m S r (mv + Z.of_nat n) = Some x.

Lemma frames_length s kva cnt : length (frames s kva cnt) = Z.to_nat cnt.
Proof. unfold frames, pages_slice. by rewrite length_fmap, length_seqZ. Qed.

(** [mv] is where the handle of an action is mapped. *)
Lemma action_slot target slots a :
  a ∈ actions target slots <->
  exists i h mv, slots !! i = Some h /\ h_kind h = HPageSet target mv /\
    a = mkAction (negb (mv =? 0)) mv (HPageSet target mv).
Proof.
  unfold actions. rewrite list_elem_of_omap. split.
  - intros (h & Hh & Ha). apply list_elem_of_lookup in Hh as [i Hi]. unfold revoke_action in Ha.
    destruct (h_kind h) as [| | | | | | |kva mv] eqn:Ek; try done.
    destruct (Z.eqb_spec kva target) as [->|]; [|done]. injection Ha as <-. eauto 10.
  - intros (i & h & mv & Hi & Hk & ->). exists h. split; [by eapply list_elem_of_lookup_2|].
    unfold revoke_action. by rewrite Hk, Z.eqb_refl.
Qed.

(** Two slots give two actions. *)
Lemma actions_two target slots i i' h h' mv :
  slots !! i = Some h -> slots !! i' = Some h' -> i <> i' ->
  h_kind h = HPageSet target mv -> h_kind h' = HPageSet target mv ->
  let a := mkAction (negb (mv =? 0)) mv (HPageSet target mv) in
  exists n n', actions target slots !! n = Some a /\ actions target slots !! n' = Some a /\ n <> n'.
Proof.
  intros Hi Hi' Hne Hk Hk' a.
  assert (forall h, h_kind h = HPageSet target mv -> revoke_action h target = Some a) as Hr.
  { intros h0 E. unfold revoke_action. by rewrite E, Z.eqb_refl. }
  assert (forall l n h0, l !! n = Some h0 -> h_kind h0 = HPageSet target mv ->
    exists m, actions target l !! m = Some a) as Hone.
  { intros l n h0 Hn E. apply list_elem_of_lookup. unfold actions. apply list_elem_of_omap.
    exists h0. split; [by eapply list_elem_of_lookup_2|by apply Hr]. }
  assert (forall l n n' h0 h1, (n < n')%nat -> l !! n = Some h0 -> l !! n' = Some h1 -> h_kind h0 = HPageSet target mv ->
    h_kind h1 = HPageSet target mv -> exists m m', actions target l !! m = Some a /\ actions target l !! m' = Some a /\ m <> m') as Hlt.
  { intros l n n' h0 h1 L H0 H1 E0 E1. rewrite <- (take_drop (S n) l). unfold actions. rewrite omap_app.
    destruct (Hone (take (S n) l) n h0) as [m Hm]; [rewrite lookup_take_lt by lia; done|done|].
    destruct (Hone (drop (S n) l) (n' - S n)%nat h1) as [m' Hm'].
    { rewrite lookup_drop. replace (S n + (n' - S n))%nat with n' by lia. done. }
    { done. }
    exists m, (length (actions target (take (S n) l)) + m')%nat. pose proof (lookup_lt_Some _ _ _ Hm).
    split_and!; [by apply lookup_app_l_Some| |lia]. rewrite lookup_app_r by apply Nat.le_add_r.
    by rewrite (Nat.add_comm _ m'), Nat.add_sub. }
  destruct (decide (i < i')%nat); [by eapply Hlt|].
  destruct (Hlt slots i' i h' h) as (m & m' & H1 & H2 & H3); try done; [lia|]. by exists m', m.
Qed.

(** Where a mapped action's range lies. *)
Lemma action_range G D oB oD S k j e p pr a :
  sys_ok G D oB oD S k -> table (k_mem k) !! j = Some (Some e) -> k_procs k !! p = Some pr ->
  a ∈ actions (e_header_kva e) (p_table pr) -> ra_had_mapping a = true ->
  0 < ra_mapped_va_page a /\ ra_mapped_va_page a + e_count e <= 2 ^ 18 /\ p_ttbr0 pr <> 0 /\ is_Some (S !! p_ttbr0 pr).
Proof.
  intros K He Hp Ha Hm. apply action_slot in Ha as (i & h & mv & Hi & Hk & ->). simpl in *.
  destruct (Z.eqb_spec mv 0) as [|Hne]; [done|].
  destruct (ok_handle _ _ _ _ _ _ K p pr i h _ mv Hp Hi Hk) as (j' & e' & He' & E & H0 & H1).
  assert (j' = j) as -> by (by eapply (entry_unique _ _ _ _ _ _ _ _ _ _ (ok_mem _ _ _ _ _ _ K))).
  rewrite He in He'. injection He' as <-. destruct (H1 Hne) as [Hr Hv].
  split_and!; [lia|lia|done|]. by destruct (ok_root _ _ _ _ _ _ K p pr Hp).
Qed.

Lemma page_at_sview m S r a v :
  spaces_ok m S -> S !! r = Some a -> 0 <= v < 2 ^ 18 -> page_at (arr_peek m) r (v * 4096) = sview m S r v.
Proof.
  intros Hs Hr Hv. unfold sview. rewrite Hr. apply page_at_as; [by apply (so_as _ _ Hs)|lia..].
Qed.

(** One validation callback counts the handle, and counts the mapping or
    records the failure. *)
Lemma validate_action_spec G D oB oD S k j e p pr a w :
  sys_ok G D oB oD S k -> table (k_mem k) !! j = Some (Some e) -> k_procs k !! p = Some pr ->
  a ∈ actions (e_header_kva e) (p_table pr) ->
  exists w', validate_action k (e_header_kva e) p (p_ttbr0 pr) a w = Ret w' /\ wk_refcount w' = wk_refcount w + 1 /\
    (wk_map_count w' = wk_map_count w + Z.b2z (ra_had_mapping a) /\ wk_first_error w' = wk_first_error w /\
       (ra_had_mapping a = true ->
          maps_at (k_pt k) S (p_ttbr0 pr) (ra_mapped_va_page a) (frames (k_mem k) (e_header_kva e) (e_count e))) \/
     ra_had_mapping a = true /\ wk_first_error w' = Some (UnmapFailed p (ra_mapped_va_page a * 4096)) /\
       ~ maps_at (k_pt k) S (p_ttbr0 pr) (ra_mapped_va_page a) (frames (k_mem k) (e_header_kva e) (e_count e))).
Proof.
  intros K He Hp Ha. unfold validate_action. destruct (ra_had_mapping a) eqn:Hm.
  2: { eexists. split; [done|]. split; [done|]. left. simpl. split_and!; [lia|done|done]. }
  destruct (action_range _ _ _ _ _ _ _ _ _ _ _ K He Hp Ha Hm) as (H0 & H1 & _ & [as0 Hr]).
  unfold read_header_backed. rewrite (trusted_layout_entry _ _ _ _ _ _ _ _ (ok_mem _ _ _ _ _ _ K) He).
  cbn [unwrap]. rewrite !bind_Ret. cbn [fst]. fold (frames (k_mem k) (e_header_kva e) (e_count e)).
  set (es := frames _ _ _) in *. set (v := ra_mapped_va_page a) in *.
  rewrite Z.shiftl_mul_pow2 by lia. change (2 ^ 12) with 4096. unfold validate_pte_match.
  destruct (validate_from_spec (arr_peek (k_pt k)) (p_ttbr0 pr) (v * 4096) es 0) as (res & -> & Hres).
  rewrite bind_Ret.
  assert (forall n x, es !! n = Some x -> page_at (arr_peek (k_pt k)) (p_ttbr0 pr) (v * 4096 + (0 + Z.of_nat n) * 4096)
     = sview (k_pt k) S (p_ttbr0 pr) (v + Z.of_nat n)) as Hpa.
  { intros n x Hn. apply lookup_lt_Some in Hn. unfold es in Hn. rewrite frames_length in Hn.
    replace (v * 4096 + (0 + Z.of_nat n) * 4096) with ((v + Z.of_nat n) * 4096) by lia.
    apply (page_at_sview _ _ _ as0); [apply (ok_spaces _ _ _ _ _ _ K)|done|lia]. }
  destruct res as [[]|i].
  - eexists. split; [done|]. split; [done|]. left. simpl. split_and!; [lia|done|].
    intros _ n x Hn. rewrite <- (Hpa _ _ Hn). by apply Hres.
  - eexists. split; [done|]. split; [done|]. right. split_and!; [done|done|].
    destruct Hres as (n & x & Hn & -> & Hne & _). intros Hall. apply Hne.
    rewrite (Hpa n x Hn). by apply Hall.
Qed.

(** What a failed validation reports: a handle mapped where the address space
    does not map the PageSet's frames. *)
Definition bad_mapping (k : Kernel) (S : gmap Z AS) (e : PageSetEntry) (err : RevokeError) : Prop :=
  exists p pr a, k_procs k !! p = Some pr /\ a ∈ actions (e_header_kva e) (p_table pr) /\ ra_had_mapping a = true /\
    err = UnmapFailed p (ra_mapped_va_page a * 4096) /\
    ~ maps_at (k_pt k) S (p_ttbr0 pr) (ra_mapped_va_page a) (frames (k_mem k) (e_header_kva e) (e_count e)).

(** Every mapped handle of the process to the PageSet maps its frames. *)
Definition proc_matches (k : Kernel) (S : gmap Z AS) (e : PageSetEntry) (pr : Proc) : Prop :=
  forall a, a ∈ actions (e_header_kva e) (p_table pr) -> ra_had_mapping a = true ->
    maps_at (k_pt k) S (p_ttbr0 pr) (ra_mapped_va_page a) (frames (k_mem k) (e_header_kva e) (e_count e)).

Definition mapped_count (l : list SlotRevokeAction) : Z :=
  Z.of_nat (length (filter (fun a => ra_had_mapping a = true) l)).

Lemma mapped_count_snoc l a : mapped_count (l ++ [a]) = mapped_count l + Z.b2z (ra_had_mapping a).
Proof.
  unfold mapped_count. rewrite filter_app, length_app, filter_cons.
  destruct (ra_had_mapping a); simpl; lia.
Qed.

Lemma validate_process_spec G D oB oD S k j e p pr w :
  sys_ok G D oB oD S k -> table (k_mem k) !! j = Some (Some e) -> k_procs k !! p = Some pr ->
  wk_first_error w = None ->
  exists w', validate_process k (e_header_kva e) p w = Ret w' /\
    match wk_first_error w' with
    | None => wk_refcount w' = wk_refcount w + nrefs (e_header_kva e) (p_table pr) /\
        wk_map_count w' = wk_map_count w + nmaps (e_header_kva e) (p_table pr) /\ proc_matches k S e pr
    | Some err => bad_mapping k S e err
    end.
Proof.
  intros K He Hp Hw. unfold validate_process. rewrite Hw, Hp. cbn [unwrap]. rewrite bind_Ret.
  rewrite slot_validate_iter. set (acts := actions _ _).
  destruct (iterM_inv (fun pre w' => match wk_first_error w' with
      | None => wk_refcount w' = wk_refcount w + Z.of_nat (length pre) /\
          wk_map_count w' = wk_map_count w + mapped_count pre /\
          forall a, a ∈ pre -> ra_had_mapping a = true ->
            maps_at (k_pt k) S (p_ttbr0 pr) (ra_mapped_va_page a) (frames (k_mem k) (e_header_kva e) (e_count e))
      | Some err => bad_mapping k S e err
      end) (validate_action k (e_header_kva e) p (p_ttbr0 pr)) acts [] w) as (w' & -> & Hw').
  - rewrite Hw. split_and!; [simpl; lia|unfold mapped_count; simpl; lia|]. intros a Ha. by apply elem_of_nil in Ha.
  - cbn [app]. intros pre a post w1 El H1.
    assert (a ∈ acts) as Ha by (rewrite El; set_solver).
    destruct (validate_action_spec _ _ _ _ _ _ _ _ _ _ a w1 K He Hp Ha) as (w2 & -> & Hr & [(Hm & Hf & Hmt)|(Hm & Hf & Hn)]);
      exists w2; split; [done| |done|]; rewrite Hf.
    + destruct (wk_first_error w1); [done|]. destruct H1 as (H1 & H2 & H3). rewrite mapped_count_snoc, length_app.
      split_and!; [simpl; lia|lia|]. intros b [Hb|Hb]%elem_of_app; [by apply H3|].
      apply list_elem_of_singleton in Hb as ->. done.
    + exists p, pr, a. done.
  - rewrite !bind_Ret. exists w'. split; [done|]. cbn [app] in Hw'. destruct (wk_first_error w'); [done|].
    rewrite nrefs_actions, nmaps_actions. exact Hw'.
Qed.

Lemma sum_list_snoc f ps l p : sum_list f ps (l ++ [p]) = sum_list f ps l + match ps !! p with Some pr => f (p_table pr) | None => 0 end.
Proof. induction l as [|q l IH]; cbn [sum_list app]; lia. Qed.

(** What the validate walk decides. *)
Definition validated (k : Kernel) (S : gmap Z AS) (e : PageSetEntry) : Prop :=
  forall p pr, k_procs k !! p = Some pr -> proc_matches k S e pr.

Lemma revoke_validate_spec G D oB oD S k j e :
  sys_ok G D oB oD S k -> table (k_mem k) !! j = Some (Some e) ->
  exists res, revoke_validate k (e_header_kva e) = Ret res /\
    match res with Ok _ => validated k S e | Err err => bad_mapping k S e err end.
Proof.
  intros K He. unfold revoke_validate. rewrite (walk_visits _ _ _ _ _ _ _ _ K).
  destruct (iterM_inv (fun pre w => match wk_first_error w with
      | None => wk_refcount w = sum_list (nrefs (e_header_kva e)) (k_procs k) pre /\
          wk_map_count w = sum_list (nmaps (e_header_kva e)) (k_procs k) pre /\
          forall p pr, p ∈ pre -> k_procs k !! p = Some pr -> proc_matches k S e pr
      | Some err => bad_mapping k S e err
      end) (validate_process k (e_header_kva e)) (visits k) [] (mkWalked 0 0 None)) as (w & -> & Hw).
  - split_and!; [done|done|]. intros p pr H. by apply elem_of_nil in H.
  - cbn [app]. intros pre p post w El H.
    destruct (proj1 (visits_live _ _ _ _ _ _ p K)) as [pr Hp]; [rewrite El; set_solver|].
    destruct (wk_first_error w) as [err|] eqn:Ew.
    { exists w. unfold validate_process. rewrite Ew. done. }
    destruct (validate_process_spec _ _ _ _ _ _ _ _ _ _ w K He Hp Ew) as (w' & -> & Hw'). exists w'. split; [done|].
    destruct (wk_first_error w'); [done|]. destruct H as (H1 & H2 & H3), Hw' as (H4 & H5 & H6).
    rewrite !sum_list_snoc, Hp. split_and!; [lia|lia|]. intros q qr [Hq|Hq]%elem_of_app Hqr; [by eapply H3|].
    apply list_elem_of_singleton in Hq as ->. rewrite Hp in Hqr. by injection Hqr as <-.
  - rewrite bind_Ret. cbn [app] in Hw. destruct (wk_first_error w) as [err|]; [by exists (Err err)|].
    destruct Hw as (-> & -> & Hm). rewrite !(sum_visits _ _ _ _ _ _ _ K).
    destruct (ok_counts _ _ _ _ _ _ K j e He) as [-> ->]. rewrite !Z.eqb_refl. exists (Ok tt). split; [done|].
    intros p pr Hp. apply (Hm p pr); [|done]. apply (visits_live _ _ _ _ _ _ p K). by eexists.
Qed.

(** ** Application *)

(** Only the counters of the header at [kva] may differ. *)
Record hdr_only (kva : Z) (s s' : KMem) : Prop := {
  ho_buddy : buddy s' = buddy s;
  ho_dma : dma s' = dma s;
  ho_hpool : hpool s' = hpool s;
  ho_table : table s' = table s;
  ho_zeroed : zeroed s' = zeroed s;
  ho_other : forall x, x <> kva -> read_header s' x = read_header s x;
  ho_pages : h_pages (read_header s' kva) = h_pages (read_header s kva);
  ho_origin : h_origin_raw (read_header s' kva) = h_origin_raw (read_header s kva);
}.

Lemma hdr_only_refl kva s : hdr_only kva s s.
Proof. by constructor. Qed.

Lemma hdr_only_trans kva s1 s2 s3 : hdr_only kva s1 s2 -> hdr_only kva s2 s3 -> hdr_only kva s1 s3.
Proof.
  intros [? ? ? ? ? O1 ? ?] [? ? ? ? ? O2 ? ?]. constructor; try congruence.
  intros x Hx. by rewrite O2, O1.
Qed.

Lemma hdr_only_with kva s h :
  h_pages h = h_pages (read_header s kva) -> h_origin_raw h = h_origin_raw (read_header s kva) ->
  hdr_only kva s (with_header s kva h).
Proof.
  intros Hp Ho. constructor; try done; intros; rewrite read_header_with.
  - by rewrite decide_False by done.
  - by rewrite decide_True by done.
  - by rewrite decide_True by done.
Qed.

Lemma hdr_only_read kva s s' x :
  hdr_only kva s s' -> h_pages (read_header s' x) = h_pages (read_header s x) /\
    h_origin_raw (read_header s' x) = h_origin_raw (read_header s x).
Proof.
  intros H. destruct (decide (x = kva)) as [->|Hne]; [by destruct H|]. by rewrite (ho_other _ _ _ H).
Qed.

Lemma hdr_only_inv kva G D R oB oD s s' : hdr_only kva s s' -> inv cfg G D R oB oD s -> inv cfg G D R oB oD s'.
Proof.
  intros H I. pose proof (fun x => hdr_only_read _ _ _ x H) as Hr. destruct H as [Eb Ed Eh Et _ _ _ _]. destruct I.
  constructor; rewrite ?Eb, ?Ed, ?Eh, ?Et; try done.
  intros i. specialize (iv_pages i). unfold slot_ok in *. rewrite Et.
  destruct (mjoin (table s !! i)) as [e|]; [|done]. case_decide; [done|].
  destruct (Hr (slot_kva cfg (Z.of_nat i))) as [Hp Ho]. revert iv_pages. unfold entry_ok, pages, Hdr.origin. by rewrite Hp, Ho.
Qed.

Lemma hdr_only_backed kva s s' x b :
  hdr_only kva s s' -> read_header_backed s x = Ret b ->
  exists b', read_header_backed s' x = Ret b' /\ Hdr.bk_count b' = Hdr.bk_count b.
Proof.
  intros H. unfold read_header_backed. assert (trusted_layout s' x = trusted_layout s x) as ->.
  { unfold trusted_layout. by rewrite (ho_table _ _ _ H). }
  destruct (trusted_layout s x) as [l|]; cbn [unwrap]; [|done]. rewrite !bind_Ret. intros [= <-]. by eexists.
Qed.

(** The pages the mapped handles of a list of actions cover. *)
Definition covered (cnt : Z) (acts : list SlotRevokeAction) (u : Z) : bool :=
  existsb (fun a => ra_had_mapping a && (ra_mapped_va_page a <=? u) && (u <? ra_mapped_va_page a + cnt)) acts.

Lemma covered_snoc cnt acts a u :
  covered cnt (acts ++ [a]) u =
  covered cnt acts u || (ra_had_mapping a && (ra_mapped_va_page a <=? u) && (u <? ra_mapped_va_page a + cnt)).
Proof. unfold covered. rewrite existsb_app. simpl. by rewrite orb_false_r. Qed.

Lemma covered_true cnt acts u :
  covered cnt acts u = true <->
  exists a, a ∈ acts /\ ra_had_mapping a = true /\ ra_mapped_va_page a <= u < ra_mapped_va_page a + cnt.
Proof.
  unfold covered. rewrite existsb_exists. split.
  - intros (a & Ha & H). apply list_elem_of_In in Ha. exists a. rewrite !andb_true_iff in H. split_and!; [done|tauto|lia..].
  - intros (a & Ha & Hm & H). exists a. split; [by apply list_elem_of_In|]. rewrite Hm. simpl.
    apply andb_true_iff. lia.
Qed.

(** No two mapped handles of the list cover a page in common. *)
Definition disjoint_ranges (cnt : Z) (acts : list SlotRevokeAction) : Prop :=
  forall i i' a a', acts !! i = Some a -> acts !! i' = Some a' -> i <> i' ->
    ra_had_mapping a = true -> ra_had_mapping a' = true ->
    ra_mapped_va_page a + cnt <= ra_mapped_va_page a' \/ ra_mapped_va_page a' + cnt <= ra_mapped_va_page a.

Lemma disjoint_prefix cnt acts pre a post u :
  disjoint_ranges cnt acts -> acts = pre ++ a :: post -> ra_had_mapping a = true ->
  ra_mapped_va_page a <= u < ra_mapped_va_page a + cnt -> covered cnt pre u = false.
Proof.
  intros Hd El Hm Hu. destruct (covered cnt pre u) eqn:E; [|done].
  apply covered_true in E as (b & Hb & Hmb & Hub). apply list_elem_of_lookup in Hb as [i Hi].
  pose proof (lookup_lt_Some _ _ _ Hi) as Hlt.
  destruct (Hd i (length pre) b a) as [|]; subst; try done; try lia.
  - by apply lookup_app_l_Some.
  - by apply list_lookup_middle.
Qed.

Lemma dec_map_spec h : 0 < h_map_count h ->
  exists b, Hdr.dec_map_count h = Ret (b, mkHeader (h_count h) (h_header_pages h) (h_refcount h) (h_map_count h - 1)
    (h_origin_raw h) (h_pages h)).
Proof. intros H. unfold Hdr.dec_map_count. rewrite (proj2 (Z.ltb_lt _ _)) by lia. by eexists. Qed.

Lemma dec_ref_spec h : 0 < h_refcount h ->
  exists b, Hdr.dec_refcount h = Ret (b, mkHeader (h_count h) (h_header_pages h) (h_refcount h - 1) (h_map_count h)
    (h_origin_raw h) (h_pages h)).
Proof. intros H. unfold Hdr.dec_refcount. rewrite (proj2 (Z.ltb_lt _ _)) by lia. by eexists. Qed.

(** The effect of the callback on a sequence of actions. *)
Record applied (kva r cnt : Z) (S : gmap Z AS) (acts : list SlotRevokeAction) (st st' : ApplyState) : Prop := {
  ap_hdr : hdr_only kva st.1.1 st'.1.1;
  ap_ref : h_refcount (read_header st'.1.1 kva) = h_refcount (read_header st.1.1 kva) - Z.of_nat (length acts);
  ap_map : h_map_count (read_header st'.1.1 kva) = h_map_count (read_header st.1.1 kva) - mapped_count acts;
  ap_spaces : spaces_ok st'.1.2 S;
  ap_view : forall r' u, sview st'.1.2 S r' u =
    if bool_decide (r' = r) && covered cnt acts u then None else sview st.1.2 S r' u;
  ap_stats : st'.2 = mkStats (rs_processes st.2) (rs_slots st.2 + Z.of_nat (length acts)) (rs_mappings st.2 + mapped_count acts);
}.

Lemma unmap_step S r cnt a m :
  spaces_ok m S -> is_Some (S !! r) -> 0 <= ra_mapped_va_page a -> 0 <= cnt ->
  (forall u, ra_mapped_va_page a <= u < ra_mapped_va_page a + cnt -> is_Some (sview m S r u)) ->
  exists m', clear_validated_pte r (Z.shiftl (ra_mapped_va_page a) 12) cnt m = Ret m' /\ spaces_ok m' S /\
    forall r' u, sview m' S r' u =
      if bool_decide (r' = r) && ((ra_mapped_va_page a <=? u) && (u <? ra_mapped_va_page a + cnt)) then None
      else sview m S r' u.
Proof.
  intros Hs [as0 Hr] H0 Hc Hv. rewrite Z.shiftl_mul_pow2 by lia. change (2 ^ 12) with 4096.
  destruct (clear_spec m S r as0 (ra_mapped_va_page a) cnt Hs Hr H0 Hc) as (m' & E & Hs' & Hu).
  - intros j Hj. specialize (Hv (ra_mapped_va_page a + j) ltac:(lia)). unfold sview in Hv. by rewrite Hr in Hv.
  - exists m'. split_and!; [done|done|]. intros r' u. rewrite (view_upd_sview _ _ _ _ _ _ _ _ Hr Hu).
    case_decide as E1; [|by rewrite bool_decide_false]. subst. rewrite bool_decide_true by done. cbn [andb].
    unfold sview. rewrite Hr. case_decide as E2; zbool; try lia; done.
Qed.

Lemma apply_action_spec kva r cnt S a s m stats :
  (exists b, read_header_backed s kva = Ret b /\ Hdr.bk_count b = cnt) -> 0 <= cnt ->
  (exists x y, ra_kind a = HPageSet x y) -> spaces_ok m S ->
  0 < h_refcount (read_header s kva) ->
  (ra_had_mapping a = true -> 0 < h_map_count (read_header s kva) /\ is_Some (S !! r) /\ 0 <= ra_mapped_va_page a /\
     forall u, ra_mapped_va_page a <= u < ra_mapped_va_page a + cnt -> is_Some (sview m S r u)) ->
  exists st', apply_action kva r a (s, m, stats) = Ret st' /\ applied kva r cnt S [a] (s, m, stats) st'.
Proof.
  intros (b & Hb & Hcnt) Hc (x & y & Hk) Hs Href Hmap. unfold apply_action. rewrite Hk.
  destruct (ra_had_mapping a) eqn:Hm.
  - destruct Hmap as (Hmc & Hr & H0 & Hv); [done|]. rewrite Hb, bind_Ret, Hcnt.
    destruct (unmap_step S r cnt a m Hs Hr H0 Hc Hv) as (m' & -> & Hs' & Hv'). rewrite bind_Ret.
    destruct (dec_map_spec _ Hmc) as [b1 ->]. rewrite !bind_Ret. cbn [snd].
    rewrite read_header_with, decide_True by done.
    match goal with |- context [Hdr.dec_refcount ?h] => destruct (dec_ref_spec h) as [b2 ->]; [done|] end.
    rewrite bind_Ret. eexists. split; [done|]. cbn [snd].
    constructor; cbn [fst snd]; rewrite ?read_header_with, ?decide_True by done; try done.
    + eapply hdr_only_trans; apply hdr_only_with; try done; by rewrite read_header_with, decide_True.
    + unfold mapped_count. rewrite filter_cons, decide_True by done. done.
    + intros r' u. rewrite Hv'. unfold covered. cbn [existsb]. by rewrite Hm, orb_false_r.
    + unfold mapped_count. rewrite filter_cons, decide_True by done. done.
  - rewrite bind_Ret. destruct (dec_ref_spec _ Href) as [b2 ->]. rewrite bind_Ret. eexists. split; [done|]. cbn [snd].
    assert (mapped_count [a] = 0) as Hz by (unfold mapped_count; rewrite filter_cons, decide_False by (by rewrite Hm); done).
    constructor; cbn [fst snd]; rewrite ?read_header_with, ?decide_True, ?Hz by done; try done.
    + by apply hdr_only_with.
    + cbn [h_map_count]. lia.
    + intros r' u. unfold covered. cbn [existsb]. by rewrite Hm, andb_false_r.
    + f_equal; lia.
Qed.

Lemma applied_nil kva r cnt S st : spaces_ok st.1.2 S -> applied kva r cnt S [] st st.
Proof.
  intros H. destruct st as [[s m] [x y z]]. constructor; cbn; try done; try (unfold mapped_count; cbn; lia).
  - intros. by rewrite andb_false_r.
  - f_equal; unfold mapped_count; cbn; lia.
Qed.

Lemma applied_snoc kva r cnt S acts a st st1 st2 :
  applied kva r cnt S acts st st1 -> applied kva r cnt S [a] st1 st2 -> applied kva r cnt S (acts ++ [a]) st st2.
Proof.
  intros [H1 R1 M1 S1 V1 T1] [H2 R2 M2 S2 V2 T2]. constructor.
  - by eapply hdr_only_trans.
  - rewrite R2, R1, length_app. simpl. lia.
  - rewrite M2, M1, mapped_count_snoc. change [a] with ([] ++ [a]). rewrite mapped_count_snoc.
    change (mapped_count []) with 0. lia.
  - done.
  - intros r' u. rewrite V2, V1, covered_snoc. unfold covered at 1. cbn [existsb]. rewrite orb_false_r.
    destruct (bool_decide (r' = r)), (covered cnt acts u), (ra_had_mapping a && _ && _); done.
  - rewrite T2, T1. cbn. rewrite length_app, mapped_count_snoc. change [a] with ([] ++ [a]).
    rewrite mapped_count_snoc. change (mapped_count []) with 0. cbn. f_equal; lia.
Qed.

Lemma mapped_count_app l l' : mapped_count (l ++ l') = mapped_count l + mapped_count l'.
Proof. unfold mapped_count. rewrite filter_app, length_app. lia. Qed.

Lemma mapped_count_cons a l : mapped_count (a :: l) = Z.b2z (ra_had_mapping a) + mapped_count l.
Proof. unfold mapped_count. rewrite filter_cons. destruct (ra_had_mapping a); simpl; lia. Qed.

Lemma mapped_count_nonneg l : 0 <= mapped_count l.
Proof. unfold mapped_count. lia. Qed.

(** Some handles of a process: their validated, disjoint mappings are cleared. *)
Lemma apply_actions_spec G D oB oD S k j e p pr acts s m stats :
  sys_ok G D oB oD S k -> table (k_mem k) !! j = Some (Some e) -> k_procs k !! p = Some pr ->
  (forall a, a ∈ acts -> a ∈ actions (e_header_kva e) (p_table pr)) ->
  proc_matches k S e pr -> disjoint_ranges (e_count e) acts ->
  hdr_only (e_header_kva e) (k_mem k) s -> spaces_ok m S ->
  (forall u, sview m S (p_ttbr0 pr) u = sview (k_pt k) S (p_ttbr0 pr) u) ->
  Z.of_nat (length acts) <= h_refcount (read_header s (e_header_kva e)) ->
  mapped_count acts <= h_map_count (read_header s (e_header_kva e)) ->
  exists st', iterM (apply_action (e_header_kva e) (p_ttbr0 pr)) acts (s, m, stats) = Ret st' /\
    applied (e_header_kva e) (p_ttbr0 pr) (e_count e) S acts (s, m, stats) st'.
Proof.
  intros K He Hp Hsub Hpm Hd Hh Hs Hv Href Hmap. set (kva := e_header_kva e) in *.
  assert (0 < e_count e) as Hc by apply (iv_entry _ _ _ _ _ _ _ (ok_mem _ _ _ _ _ _ K) j e He).
  apply (iterM_inv (fun pre st' => applied kva (p_ttbr0 pr) (e_count e) S pre (s, m, stats) st') _ acts []).
  { by apply applied_nil. }
  cbn [app]. intros pre a post st El A.
  assert (a ∈ actions kva (p_table pr)) as Ha by (apply Hsub; rewrite El; set_solver).
  destruct st as [[s1 m1] stats1]. pose proof A as [A1 A2 A3 A4 A5 _]. cbn [fst snd] in *.
  rewrite El in Href, Hmap. rewrite length_app in Href. cbn [length] in Href.
  rewrite mapped_count_app, mapped_count_cons in Hmap.
  pose proof (mapped_count_nonneg post) as Hpost. pose proof (mapped_count_nonneg pre).
  destruct (apply_action_spec kva (p_ttbr0 pr) (e_count e) S a s1 m1 stats1) as (st' & E' & A').
  - destruct (hdr_only_backed kva (k_mem k) s1 kva (Hdr.backed (read_header (k_mem k) kva) (e_count e)))
      as (b & Eb & Hb).
    + by eapply hdr_only_trans.
    + unfold read_header_backed, kva. by rewrite (trusted_layout_entry _ _ _ _ _ _ _ _ (ok_mem _ _ _ _ _ _ K) He).
    + exists b. split; [done|]. by rewrite Hb.
  - lia.
  - apply action_slot in Ha as (? & ? & ? & _ & _ & ->). simpl. eauto.
  - done.
  - lia.
  - intros Hm. rewrite Hm in Hmap. cbn [Z.b2z] in Hmap.
    destruct (action_range _ _ _ _ _ _ _ _ _ _ _ K He Hp Ha Hm) as (H0 & H1 & Hr0 & Hr).
    split_and!; [lia|done|lia|]. intros u Hu. rewrite A5.
    rewrite (disjoint_prefix _ _ _ _ _ u Hd El Hm Hu), andb_false_r.
    rewrite Hv.
    specialize (Hpm a Ha Hm). destruct (lookup_lt_is_Some_2 (frames (k_mem k) kva (e_count e)) (Z.to_nat (u - ra_mapped_va_page a)))
      as [x Hx]; [rewrite frames_length; lia|].
    specialize (Hpm _ _ Hx). exists x. rewrite <- Hpm. f_equal. lia.
  - exists st'. split; [done|]. by eapply applied_snoc.
Qed.

Definition revoke_proc (kva : Z) (pr : Proc) : Proc := mkProc (p_ttbr0 pr) (revoke_slot kva <$> p_table pr).

(** The kernel after the processes [pre] have been visited. *)
Record partly_revoked (S : gmap Z AS) (e : PageSetEntry) (k : Kernel) (pre : list Z) (x : Kernel * RevokeStats) : Prop := {
  pr_threads : k_threads x.1 = k_threads k /\ k_tcb_process x.1 = k_tcb_process k /\ k_next_token x.1 = k_next_token k;
  pr_procs : forall q, k_procs x.1 !! q =
    if bool_decide (q ∈ pre) then revoke_proc (e_header_kva e) <$> k_procs k !! q else k_procs k !! q;
  pr_hdr : hdr_only (e_header_kva e) (k_mem k) (k_mem x.1);
  pr_ref : h_refcount (read_header (k_mem x.1) (e_header_kva e)) =
    h_refcount (read_header (k_mem k) (e_header_kva e)) - sum_list (nrefs (e_header_kva e)) (k_procs k) pre;
  pr_map : h_map_count (read_header (k_mem x.1) (e_header_kva e)) =
    h_map_count (read_header (k_mem k) (e_header_kva e)) - sum_list (nmaps (e_header_kva e)) (k_procs k) pre;
  pr_spaces : spaces_ok (k_pt x.1) S;
  pr_view : forall q qr u, k_procs k !! q = Some qr -> sview (k_pt x.1) S (p_ttbr0 qr) u =
    if bool_decide (q ∈ pre) && covered (e_count e) (actions (e_header_kva e) (p_table qr)) u then None
    else sview (k_pt k) S (p_ttbr0 qr) u;
  pr_noroot : forall r u, (forall q qr, k_procs k !! q = Some qr -> p_ttbr0 qr <> r) ->
    sview (k_pt x.1) S r u = sview (k_pt k) S r u;
  pr_stats : x.2 = mkStats (Z.of_nat (length pre)) (sum_list (nrefs (e_header_kva e)) (k_procs k) pre)
    (sum_list (nmaps (e_header_kva e)) (k_procs k) pre);
}.

Lemma covered_unmapped G D oB oD S k j e p pr u :
  sys_ok G D oB oD S k -> table (k_mem k) !! j = Some (Some e) -> k_procs k !! p = Some pr ->
  covered (e_count e) (actions (e_header_kva e) (p_table pr)) u = true -> p_ttbr0 pr <> 0.
Proof.
  intros K He Hp (a & Ha & Hm & _)%covered_true. by eapply action_range.
Qed.

Lemma sum_list_step f ps l pre p pr post :
  (forall t, 0 <= f t) -> l = pre ++ p :: post -> ps !! p = Some pr -> sum_list f ps pre + f (p_table pr) <= sum_list f ps l.
Proof.
  intros Hf -> Hp. induction pre as [|q pre IH]; cbn [sum_list app].
  - rewrite Hp. enough (0 <= sum_list f ps post) by lia. clear -Hf. induction post as [|q post IH]; cbn [sum_list]; [lia|].
    destruct (ps !! q) as [qr|]; [pose proof (Hf (p_table qr))|]; lia.
  - lia.
Qed.

(** A process about to be visited is as it was. *)
Lemma visit_facts G D oB oD S k j e pre p post x :
  sys_ok G D oB oD S k -> table (k_mem k) !! j = Some (Some e) ->
  visits k = pre ++ p :: post -> partly_revoked S e k pre x ->
  exists pr, ~ (p ∈ pre) /\ k_procs k !! p = Some pr /\ k_procs x.1 !! p = Some pr /\
    (forall u, sview (k_pt x.1) S (p_ttbr0 pr) u = sview (k_pt k) S (p_ttbr0 pr) u) /\
    Z.of_nat (length (actions (e_header_kva e) (p_table pr))) <= h_refcount (read_header (k_mem x.1) (e_header_kva e)) /\
    mapped_count (actions (e_header_kva e) (p_table pr)) <= h_map_count (read_header (k_mem x.1) (e_header_kva e)).
Proof.
  intros K He Ev [_ Pp _ Pr Pm _ Pv _ _].
  destruct (proj1 (visits_live _ _ _ _ _ _ p K)) as [pr Hp]; [rewrite Ev; set_solver|].
  assert (p ∉ pre) as Hnp.
  { pose proof (uniq_nodup (procs_of (k_tcb_process k) (k_threads k)) []) as Hnd. fold (visits k) in Hnd.
    rewrite Ev in Hnd. apply NoDup_app in Hnd as (_ & Hnd & _). intros Hin. apply (Hnd p Hin). set_solver. }
  destruct (ok_counts _ _ _ _ _ _ K j e He) as [Cr Cm]. set (kva := e_header_kva e) in *.
  pose proof (sum_visits _ _ _ _ _ _ (nrefs kva) K) as Sr. pose proof (sum_visits _ _ _ _ _ _ (nmaps kva) K) as Sm.
  pose proof (sum_list_step (nrefs kva) (k_procs k) _ pre p pr post ltac:(intros; rewrite nrefs_actions; lia) Ev Hp) as Lr.
  pose proof (sum_list_step (nmaps kva) (k_procs k) _ pre p pr post ltac:(intros; rewrite nmaps_actions; lia) Ev Hp) as Lm.
  rewrite nrefs_actions in Lr. rewrite nmaps_actions in Lm. exists pr. split_and!; try done.
  - by rewrite (Pp p), bool_decide_false.
  - intros u. by rewrite (Pv p pr u Hp), bool_decide_false.
  - lia.
  - change (mapped_count _) with (Z.of_nat (length (mapped_actions kva (p_table pr)))). lia.
Qed.

Lemma apply_process_spec G D oB oD S k j e pre p post x :
  sys_ok G D oB oD S k -> table (k_mem k) !! j = Some (Some e) -> validated k S e ->
  (forall qr, k_procs k !! p = Some qr -> disjoint_ranges (e_count e) (actions (e_header_kva e) (p_table qr))) ->
  visits k = pre ++ p :: post -> partly_revoked S e k pre x ->
  exists x', apply_process (e_header_kva e) p x = Ret x' /\ partly_revoked S e k (pre ++ [p]) x'.
Proof.
  intros K He Hval Hdis Ev PR.
  destruct (visit_facts _ _ _ _ _ _ _ _ _ _ _ _ K He Ev PR) as (pr & Hnp & Hp & Hp1 & Hv1 & Hr1 & Hm1).
  destruct PR as [(T1 & T2 & T3) Pp Ph Pr Pm Ps Pv Pn Pt]. destruct x as [k1 stats]. cbn [fst snd] in *.
  set (kva := e_header_kva e) in *.
  unfold apply_process. rewrite Hp1. cbn [unwrap]. rewrite bind_Ret, slot_apply_iter.
  set (stats1 := mkStats _ _ _).
  destruct (apply_actions_spec _ _ _ _ _ _ _ _ _ _ (actions kva (p_table pr)) (k_mem k1) (k_pt k1) stats1 K He Hp)
    as (st' & Est & A); fold kva; try done.
  { by apply Hval with p. }
  { by apply Hdis. }
  fold kva in Est, A. rewrite Est, !bind_Ret. destruct st' as [[s2 m2] stats2]. eexists. split; [done|].
  destruct A as [A1 A2 A3 A4 A5 A6]. cbn [fst snd] in *.
  assert (forall q qr u, k_procs k !! q = Some qr -> q <> p -> p_ttbr0 qr = p_ttbr0 pr ->
    covered (e_count e) (actions kva (p_table pr)) u = false) as Hsame.
  { intros q qr u Hq Hne Er. apply not_true_is_false. intros Hcov. apply Hne.
    apply (ok_root_inj _ _ _ _ _ _ K q p qr pr); try done. rewrite Er. by eapply covered_unmapped. }
  assert (forall q, q <> p -> bool_decide (q ∈ pre ++ [p]) = bool_decide (q ∈ pre)) as Hmem
    by (intros q Hq; apply bool_decide_ext; set_solver).
  constructor; cbn [fst snd k_threads k_tcb_process k_next_token k_procs k_mem k_pt with_slots with_pt with_mem with_procs];
    fold kva; rewrite ?sum_list_snoc, ?Hp.
  - done.
  - intros q. destruct (decide (q = p)) as [->|Hne].
    + rewrite lookup_insert_eq, bool_decide_true, Hp by set_solver. done.
    + by rewrite lookup_insert_ne, Pp, Hmem by congruence.
  - by eapply hdr_only_trans.
  - rewrite A2, Pr, nrefs_actions. lia.
  - rewrite A3, Pm, nmaps_actions. unfold mapped_count, mapped_actions. lia.
  - done.
  - intros q qr u Hq. rewrite A5, (Pv q qr u Hq). destruct (decide (q = p)) as [->|Hne].
    + rewrite Hp in Hq. injection Hq as <-. rewrite (bool_decide_true (_ = _)) by done.
      rewrite (bool_decide_false (p ∈ pre)), (bool_decide_true (p ∈ pre ++ [p])) by set_solver. done.
    + rewrite (Hmem q Hne). case_bool_decide as Er; [|done]. by rewrite (Hsame q qr u Hq Hne Er).
  - intros r u Hr. rewrite A5, bool_decide_false, Pn by (try done; intros ->; by eapply Hr). done.
  - rewrite A6. unfold stats1. rewrite Pt. cbn. rewrite length_app, nrefs_actions, nmaps_actions. cbn. f_equal; lia.
Qed.

(** The kernel after revoking the PageSet of [e] everywhere. *)
Record revoked (S : gmap Z AS) (e : PageSetEntry) (k k' : Kernel) : Prop := {
  rv_threads : k_threads k' = k_threads k /\ k_tcb_process k' = k_tcb_process k /\ k_next_token k' = k_next_token k;
  rv_procs : k_procs k' = revoke_proc (e_header_kva e) <$> k_procs k;
  rv_view : forall p pr u, k_procs k !! p = Some pr -> sview (k_pt k') S (p_ttbr0 pr) u =
    if covered (e_count e) (actions (e_header_kva e) (p_table pr)) u then None else sview (k_pt k) S (p_ttbr0 pr) u;
  rv_noroot : forall r u, (forall p pr, k_procs k !! p = Some pr -> p_ttbr0 pr <> r) ->
    sview (k_pt k') S r u = sview (k_pt k) S r u;
}.

(** After revocation: no handle to the target, every other handle kept. *)
Lemma revoke_slot_kind target h : h_kind (revoke_slot target h) <> HEmpty ->
  revoke_slot target h = h /\ forall mv, h_kind h <> HPageSet target mv.
Proof.
  unfold revoke_slot. destruct (revoke_action h target) as [a|] eqn:E; [done|]. intros _. split; [done|].
  intros mv Hk. unfold revoke_action in E. by rewrite Hk, Z.eqb_refl in E.
Qed.

Lemma revoke_action_slot target target' h :
  revoke_action (revoke_slot target h) target' = if decide (target = target') then None else revoke_action h target'.
Proof.
  unfold revoke_slot. destruct (revoke_action h target) as [a|] eqn:E.
  - case_decide as Ht; [done|]. unfold revoke_action in *. destruct (h_kind h); try done.
    destruct (Z.eqb_spec kva target) as [->|]; [|done]. simpl. by rewrite (proj2 (Z.eqb_neq target target')).
  - by case_decide; subst.
Qed.

Lemma tally_revoke (w : option SlotRevokeAction -> Z) target target' slots :
  w None = 0 ->
  tally (fun h => w (revoke_action h target')) (revoke_slot target <$> slots) =
  if decide (target = target') then 0 else tally (fun h => w (revoke_action h target')) slots.
Proof.
  intros Hw. induction slots as [|h slots IH]; [by case_decide|]. unfold tally in *. rewrite fmap_cons. cbn [foldr].
  rewrite IH, revoke_action_slot. case_decide; [rewrite Hw|]; lia.
Qed.

Lemma nrefs_revoke target target' slots :
  nrefs target' (revoke_slot target <$> slots) = if decide (target = target') then 0 else nrefs target' slots.
Proof. apply (tally_revoke (fun o => match o with Some _ => 1 | None => 0 end)). done. Qed.

Lemma nmaps_revoke target target' slots :
  nmaps target' (revoke_slot target <$> slots) = if decide (target = target') then 0 else nmaps target' slots.
Proof. apply (tally_revoke (fun o => match o with Some a => Z.b2z (ra_had_mapping a) | None => 0 end)). done. Qed.

Lemma sum_procs_fmap f target ps :
  sum_procs f (revoke_proc target <$> ps) = sum_procs (fun t => f (revoke_slot target <$> t)) ps.
Proof.
  induction ps as [|p pr ps Hp IH] using map_ind.
  - by rewrite fmap_empty, !sum_procs_empty.
  - rewrite fmap_insert. rewrite (sum_procs_delete f _ p (revoke_proc target pr)) by apply lookup_insert_eq.
    rewrite (sum_procs_delete _ (<[p := pr]> ps) p pr) by apply lookup_insert_eq.
    rewrite !delete_insert_id by (rewrite ?lookup_fmap, Hp; done). by rewrite IH.
Qed.

Lemma sum_procs_zero ps : sum_procs (fun _ => 0) ps = 0.
Proof.
  induction ps as [|p pr ps Hp IH] using map_ind; [by rewrite sum_procs_empty|].
  rewrite (sum_procs_delete _ _ p pr) by apply lookup_insert_eq. by rewrite delete_insert_id by done.
Qed.

(** Sums of handle counts after revocation. *)
Lemma counts_revoke target target' ps :
  sum_procs (nrefs target') (revoke_proc target <$> ps) = (if decide (target = target') then 0 else sum_procs (nrefs target') ps) /\
  sum_procs (nmaps target') (revoke_proc target <$> ps) = (if decide (target = target') then 0 else sum_procs (nmaps target') ps).
Proof.
  rewrite !sum_procs_fmap. split.
  - rewrite (sum_procs_ext _ (if decide (target = target') then (fun _ => 0) else nrefs target')).
    + case_decide; [apply sum_procs_zero|done].
    + intros p pr _. rewrite nrefs_revoke. by case_decide.
  - rewrite (sum_procs_ext _ (if decide (target = target') then (fun _ => 0) else nmaps target')).
    + case_decide; [apply sum_procs_zero|done].
    + intros p pr _. rewrite nmaps_revoke. by case_decide.
Qed.

(** Every two mapped handles of one process to the PageSet cover disjoint
    ranges. *)
Definition no_overlap (k : Kernel) (e : PageSetEntry) : Prop :=
  forall p pr, k_procs k !! p = Some pr -> disjoint_ranges (e_count e) (actions (e_header_kva e) (p_table pr)).

Lemma revoke_apply_spec G D oB oD S k j e :
  sys_ok G D oB oD S k -> table (k_mem k) !! j = Some (Some e) -> validated k S e -> no_overlap k e ->
  exists k' stats, revoke_apply k (e_header_kva e) = Ret (k', stats) /\ revoked S e k k' /\
    spaces_ok (k_pt k') S /\ hdr_only (e_header_kva e) (k_mem k) (k_mem k') /\
    h_refcount (read_header (k_mem k') (e_header_kva e)) = 0 /\
    h_map_count (read_header (k_mem k') (e_header_kva e)) = 0 /\
    rs_slots stats = h_refcount (read_header (k_mem k) (e_header_kva e)) /\
    rs_mappings stats = h_map_count (read_header (k_mem k) (e_header_kva e)).
Proof.
  intros K He Hval Hno. unfold revoke_apply. rewrite (walk_visits _ _ _ _ _ _ _ _ K).
  destruct (iterM_inv (fun pre x => partly_revoked S e k pre x) (apply_process (e_header_kva e)) (visits k) []
    (k, mkStats 0 0 0)) as ([k' stats] & E & [P1 P2 P3 P4 P5 P6 P7 P8 P9]).
  - constructor; cbn [fst snd sum_list]; try done; try lia.
    apply (ok_spaces _ _ _ _ _ _ K).
  - cbn [app]. intros pre p post x El Hx. eapply apply_process_spec; try done. apply Hno.
  - cbn [app fst snd] in *. exists k', stats. rewrite (sum_visits _ _ _ _ _ _ _ K) in P4. rewrite (sum_visits _ _ _ _ _ _ _ K) in P5.
    destruct (ok_counts _ _ _ _ _ _ K j e He) as [Cr Cm].
    assert (forall p pr, k_procs k !! p = Some pr -> bool_decide (p ∈ visits k) = true) as Hin.
    { intros p pr Hp. apply bool_decide_true. apply (visits_live _ _ _ _ _ _ p K). by eexists. }
    split_and!; try done; try lia.
    + constructor; try done.
      * apply map_eq. intros p. rewrite P2, lookup_fmap. destruct (k_procs k !! p) as [pr|] eqn:Hp.
        -- by rewrite (Hin p pr Hp).
        -- by destruct (bool_decide (p ∈ visits k)).
      * intros p pr u Hp. by rewrite (P7 p pr u Hp), (Hin p pr Hp).
    + rewrite P9. cbn. by rewrite (sum_visits _ _ _ _ _ _ _ K).
    + rewrite P9. cbn. by rewrite (sum_visits _ _ _ _ _ _ _ K).
Qed.

(** *** Overlapping mappings *)

Lemma clear_panics S r a n : forall v m u,
  spaces_ok m S -> S !! r = Some a -> 0 <= v -> v + Z.of_nat n <= 2 ^ 18 -> v <= u < v + Z.of_nat n ->
  as_view m a u = None -> forall i v0, v = v0 + i -> for_range i n (clear_page r (v0 * 4096)) m = Panic PAssert.
Proof.
  induction n as [|n IH]; intros v m u Hs Hr Hv Hb Hu Hn i v0 ->; [lia|].
  change (for_range i (Datatypes.S n) ?f ?m) with (m' ← f i m; for_range (i + 1) n f m').
  rewrite clear_page_spec. replace (v0 * 4096 + i * 4096) with ((v0 + i) * 4096) by lia.
  rewrite (leaf_as m r a) by (try apply (so_as _ _ Hs); done || lia).
  destruct (as_view m a (v0 + i)) as [x|] eqn:E.
  - destruct (view_in _ _ _ _ E) as (q & Hq & Hval & _). rewrite Hq, Hval. cbn -[Z.add Z.mul Z.modulo Z.div].
    destruct (spaces_write m S r a _ q ((v0 + i) mod 512) 0 Hs Hr Hq) as [Hs2 Hv2]; [apply Z.mod_pos_bound; lia|].
    assert (u <> v0 + i) as Hne by congruence.
    apply (IH (v0 + (i + 1)) _ u); try done; try lia.
    rewrite (Hv2 r a u Hr), decide_True, decide_False; [done| |done].
    pose proof (Z.div_mod (v0 + i) 512). lia.
  - unfold as_view in E. destruct (as_l3 a ((v0 + i) / 512)) as [q|]; [|done].
    by destruct (is_valid (arr_peek m (q + (v0 + i) mod 512 * 8))).
Qed.

Lemma iterM_app {A St} (f : A -> St -> outcome St) l l' st : iterM f (l ++ l') st = (st' ← iterM f l st; iterM f l' st').
Proof.
  revert st. induction l as [|x l IH]; intros st; cbn [iterM app]; [by rewrite bind_Ret|].
  destruct (f x st) as [st'|]; [|done]. rewrite !bind_Ret. apply IH.
Qed.

(** Either the ranges are disjoint, or some handle covers a page an earlier
    one covers. *)
Lemma first_overlap cnt acts :
  disjoint_ranges cnt acts \/
  exists pre a post u, acts = pre ++ a :: post /\ disjoint_ranges cnt pre /\ ra_had_mapping a = true /\
    ra_mapped_va_page a <= u < ra_mapped_va_page a + cnt /\ covered cnt pre u = true.
Proof.
  induction acts as [|a acts IH] using rev_ind; [left; intros i i' b b' H; by rewrite lookup_nil in H|].
  destruct IH as [Hd|(pre & b & post & u & -> & H)].
  2: { right. exists pre, b, (post ++ [a]), u. by rewrite <- app_assoc. }
  destruct (decide (Exists (fun b => ra_had_mapping a = true /\ ra_had_mapping b = true /\
    ra_mapped_va_page a < ra_mapped_va_page b + cnt /\ ra_mapped_va_page b < ra_mapped_va_page a + cnt) acts)) as [Hx|Hx].
  - right. apply Exists_exists in Hx as (b & Hb & Ha & Hmb & H1 & H2).
    exists acts, a, [], (Z.max (ra_mapped_va_page a) (ra_mapped_va_page b)). split_and!; try done; try lia.
    apply covered_true. exists b. split_and!; try done; lia.
  - left. assert (forall b, b ∈ acts -> ra_had_mapping a = true -> ra_had_mapping b = true ->
      ra_mapped_va_page b + cnt <= ra_mapped_va_page a \/ ra_mapped_va_page a + cnt <= ra_mapped_va_page b) as Hn.
    { intros b Hb H1 H2. destruct (decide (ra_mapped_va_page b + cnt <= ra_mapped_va_page a)) as [|L1]; [by left|].
      destruct (decide (ra_mapped_va_page a + cnt <= ra_mapped_va_page b)) as [|L2]; [by right|].
      exfalso. apply Hx, Exists_exists. exists b. split_and!; try done; lia. }
    intros i i' b b' Hi Hi' Hne Hm Hm'.
    apply lookup_app_Some in Hi as [Hi|[Hl [Hi <-]%list_lookup_singleton_Some]];
      apply lookup_app_Some in Hi' as [Hi'|[Hl' [Hi' <-]%list_lookup_singleton_Some]].
    + by eapply Hd.
    + apply Hn; try done. by eapply list_elem_of_lookup_2.
    + destruct (Hn b') as [|]; [by eapply list_elem_of_lookup_2|done|done|by right|by left].
    + lia.
Qed.

(** Two handles of one process that cover a page in common: clearing the
    second finds the page already unmapped. *)
Lemma apply_process_panics G D oB oD S k j e pre p post x pr :
  sys_ok G D oB oD S k -> table (k_mem k) !! j = Some (Some e) -> validated k S e ->
  visits k = pre ++ p :: post -> partly_revoked S e k pre x -> k_procs k !! p = Some pr ->
  ~ disjoint_ranges (e_count e) (actions (e_header_kva e) (p_table pr)) ->
  apply_process (e_header_kva e) p x = Panic PAssert.
Proof.
  intros K He Hval Ev PR Hp Hnd.
  destruct (visit_facts _ _ _ _ _ _ _ _ _ _ _ _ K He Ev PR) as (pr' & _ & Hp' & Hp1 & Hv1 & Hr1 & Hm1).
  rewrite Hp in Hp'. injection Hp' as <-. destruct x as [k1 stats]. pose proof (pr_hdr _ _ _ _ _ PR) as Ph.
  pose proof (pr_spaces _ _ _ _ _ PR) as Ps. cbn [fst snd] in *.
  unfold apply_process. rewrite Hp1. cbn [unwrap]. rewrite bind_Ret, slot_apply_iter. set (stats1 := mkStats _ _ _).
  destruct (first_overlap (e_count e) (actions (e_header_kva e) (p_table pr))) as [|(l & a & l' & u & El & Hd & Hm & Hu & Hc)];
    [done|].
  assert (a ∈ actions (e_header_kva e) (p_table pr)) as Ha by (rewrite El; set_solver).
  rewrite El in Hr1, Hm1. rewrite length_app in Hr1. rewrite mapped_count_app in Hm1.
  pose proof (mapped_count_nonneg (a :: l')).
  destruct (apply_actions_spec _ _ _ _ _ _ _ _ _ _ l (k_mem k1) (k_pt k1) stats1 K He Hp) as ([[s2 m2] stats2] & Est & A);
    try done; try lia.
  { intros b Hb. rewrite El. set_solver. }
  { by apply Hval with p. }
  rewrite El, iterM_app, Est, bind_Ret. destruct A as [A1 _ _ A4 A5 _]. cbn [fst snd] in *.
  destruct (action_range _ _ _ _ _ _ _ _ _ _ _ K He Hp Ha Hm) as (H0 & H1 & _ & [as0 Has]).
  specialize (A5 (p_ttbr0 pr) u). rewrite bool_decide_true, Hc in A5 by done. cbn [andb] in A5.
  unfold sview in A5. rewrite Has in A5.
  cbn [iterM]. assert (apply_action (e_header_kva e) (p_ttbr0 pr) a (s2, m2, stats2) = Panic PAssert) as ->; [|done].
  unfold apply_action. rewrite Hm.
  destruct (hdr_only_backed (e_header_kva e) (k_mem k) s2 (e_header_kva e)
    (Hdr.backed (read_header (k_mem k) (e_header_kva e)) (e_count e))) as (b & -> & Hb).
  { by eapply hdr_only_trans. }
  { unfold read_header_backed. by rewrite (trusted_layout_entry _ _ _ _ _ _ _ _ (ok_mem _ _ _ _ _ _ K) He). }
  rewrite bind_Ret, Hb. cbn [Hdr.bk_count Hdr.backed]. rewrite Z.shiftl_mul_pow2 by lia. change (2 ^ 12) with 4096.
  unfold clear_validated_pte.
  rewrite (clear_panics S (p_ttbr0 pr) as0 (Z.to_nat (e_count e)) (ra_mapped_va_page a) m2 u); try done; lia.
Qed.

(** The validated walk panics exactly when two mappings overlap. *)
Lemma revoke_apply_panics G D oB oD S k j e p pr :
  sys_ok G D oB oD S k -> table (k_mem k) !! j = Some (Some e) -> validated k S e ->
  k_procs k !! p = Some pr -> ~ disjoint_ranges (e_count e) (actions (e_header_kva e) (p_table pr)) ->
  revoke_apply k (e_header_kva e) = Panic PAssert.
Proof.
  intros K He Hval Hp Hnd. unfold revoke_apply. rewrite (walk_visits _ _ _ _ _ _ _ _ K).
  assert (p ∈ visits k) as Hin by (apply (visits_live _ _ _ _ _ _ p K); by eexists).
  assert (partly_revoked S e k [] (k, mkStats 0 0 0)) as P0.
  { constructor; cbn [fst snd sum_list]; try done; try lia. apply (ok_spaces _ _ _ _ _ _ K). }
  assert (forall l pre x, visits k = pre ++ l -> p ∈ l -> partly_revoked S e k pre x ->
    iterM (apply_process (e_header_kva e)) l x = Panic PAssert) as Hgo.
  { clear P0. induction l as [|q l IH]; intros pre x Ev Hl PR; [by apply elem_of_nil in Hl|]. cbn [iterM].
    destruct (proj1 (visits_live _ _ _ _ _ _ q K)) as [qr Hq]; [rewrite Ev; set_solver|].
    destruct (first_overlap (e_count e) (actions (e_header_kva e) (p_table qr))) as [Hd|(l1 & a & l2 & u & El & _ & Hm & Hu & Hc)].
    - destruct (apply_process_spec _ _ _ _ _ _ _ _ _ _ _ _ K He Hval ltac:(intros ? Hq'; rewrite Hq in Hq'; by injection Hq' as <-) Ev PR)
        as (x' & -> & PR'). rewrite bind_Ret. apply (IH (pre ++ [q])); [by rewrite <- app_assoc| |done].
      apply elem_of_cons in Hl as [->|]; [|done]. rewrite Hp in Hq. by injection Hq as <-.
    - rewrite (apply_process_panics _ _ _ _ _ _ _ _ _ _ _ _ _ K He Hval Ev PR Hq); [done|].
      intros Hd. by rewrite (disjoint_prefix _ _ _ _ _ u Hd El Hm Hu) in Hc. }
  by apply (Hgo (visits k) []).
Qed.

(** A PageSet handle left after revocation was there before and is not one to
    the target. *)
Lemma revoked_handle kva (ps : gmap Z Proc) p pr i h kva' mv :
  (revoke_proc kva <$> ps) !! p = Some pr -> p_table pr !! i = Some h -> h_kind h = HPageSet kva' mv ->
  kva' <> kva /\ exists pr0, ps !! p = Some pr0 /\ p_ttbr0 pr0 = p_ttbr0 pr /\ p_table pr0 !! i = Some h.
Proof.
  intros Hp Hi Hk. rewrite lookup_fmap in Hp. destruct (ps !! p) as [pr0|] eqn:E; [|done]. injection Hp as <-.
  cbn [revoke_proc p_table] in Hi. rewrite list_lookup_fmap in Hi.
  destruct (p_table pr0 !! i) as [h0|] eqn:E0; [|done]. injection Hi as <-.
  destruct (revoke_slot_kind kva h0) as [Eh Hn]; [by rewrite Hk|]. rewrite Eh in *.
  split; [|by exists pr0]. intros ->. by apply (Hn mv).
Qed.

(** The invariant after the PageSet has been revoked and its registration
    removed: its pages are held by the caller. *)
Lemma consumed_ok G D oB oD S k j e k' s' :
  sys_ok G D oB oD S k -> table (k_mem k) !! j = Some (Some e) -> revoked S e k k' -> spaces_ok (k_pt k') S ->
  inv cfg (G ∪ list_to_set (oB j)) (D ∪ list_to_set (oD j)) None (set_own oB j []) (set_own oD j []) s' ->
  table s' = <[j := None]> (table (k_mem k)) ->
  (forall x, x <> e_header_kva e -> read_header s' x = read_header (k_mem k) x) ->
  sys_ok (G ∪ list_to_set (oB j)) (D ∪ list_to_set (oD j)) (set_own oB j []) (set_own oD j []) S (with_mem k' s').
Proof.
  intros K He [(T1 & T2 & T3) Pp _ _] Hs I' Et Hh. pose proof (ok_mem _ _ _ _ _ _ K) as I.
  assert (forall i e', table s' !! i = Some (Some e') ->
    table (k_mem k) !! i = Some (Some e') /\ e_header_kva e' <> e_header_kva e) as Htab.
  { intros i e' Hi. rewrite Et in Hi. apply list_lookup_insert_Some in Hi as [(_ & ? & _)|(Hne & Hi)]; [done|].
    split; [done|]. intros E. apply Hne. by eapply entry_unique. }
  constructor; cbn [with_mem k_mem k_pt k_procs k_threads k_tcb_process]; rewrite ?T1, ?T2, ?Pp.
  - done.
  - done.
  - intros r a q Hr Hq. pose proof (ok_tables _ _ _ _ _ _ K r a q Hr Hq). set_solver.
  - apply (ok_len _ _ _ _ _ _ K).
  - apply (ok_tcb _ _ _ _ _ _ K).
  - intros p. rewrite lookup_fmap, fmap_is_Some. apply (ok_live _ _ _ _ _ _ K).
  - intros p pr. rewrite lookup_fmap. intros (pr0 & Hp & ->)%fmap_Some. by apply (ok_root _ _ _ _ _ _ K p pr0).
  - intros p p' pr pr'. rewrite !lookup_fmap. intros (a & Ha & ->)%fmap_Some (b & Hb & ->)%fmap_Some.
    by apply (ok_root_inj _ _ _ _ _ _ K p p' a b).
  - intros p pr. rewrite lookup_fmap. intros (a & Ha & ->)%fmap_Some. cbn [revoke_proc p_table]. rewrite length_fmap.
    by apply (ok_slots _ _ _ _ _ _ K p a).
  - intros p pr i h kva mv Hp Hi Hk. destruct (revoked_handle _ _ _ _ _ _ _ _ Hp Hi Hk) as (Hne & pr0 & Hp0 & Er & Hi0).
    destruct (ok_handle _ _ _ _ _ _ K p pr0 i h kva mv Hp0 Hi0 Hk) as (j' & e' & Hj & Hk' & Hm & Hv).
    exists j', e'. rewrite Et, <- Er, list_lookup_insert_ne; [done|]. intros <-. rewrite He in Hj. congruence.
  - intros i e' Hi. destruct (Htab i e' Hi) as [Hi0 Hne]. rewrite (Hh _ Hne).
    destruct (counts_revoke (e_header_kva e) (e_header_kva e') (k_procs k)) as [-> ->].
    rewrite !decide_False by congruence. by apply (ok_counts _ _ _ _ _ _ K i e').
Qed.
(** Consuming a PageSet whose mapped handles are all backed. *)
Lemma consume_apply_spec G D oB oD S k j e :
  sys_ok G D oB oD S k -> table (k_mem k) !! j = Some (Some e) -> validated k S e -> no_overlap k e ->
  exists k', consume_pageset_apply cfg k (e_header_kva e) = Ret k' /\ revoked S e k k' /\
    table (k_mem k') = <[j := None]> (table (k_mem k)) /\
    (forall x, x <> e_header_kva e -> read_header (k_mem k') x = read_header (k_mem k) x) /\
    sys_ok (G ∪ list_to_set (oB j)) (D ∪ list_to_set (oD j)) (set_own oB j []) (set_own oD j []) S k'.
Proof.
  intros K He Hv Hno.
  destruct (revoke_apply_spec _ _ _ _ _ _ _ _ K He Hv Hno) as (k1 & stats & E1 & R & Hs & Hh & _).
  unfold consume_pageset_apply. rewrite E1, bind_Ret. cbn [fst].
  pose proof (hdr_only_inv _ _ _ _ _ _ _ _ Hh (ok_mem _ _ _ _ _ _ K)) as I1.
  pose proof He as He1. rewrite <- (ho_table _ _ _ Hh) in He1.
  destruct (retire_spec _ _ _ _ _ _ _ _ (detach_spec _ _ _ _ _ _ _ _ I1 He1) He1) as (s' & Es & I' & Et & _ & _ & Eh).
  destruct (iv_entry _ _ _ _ _ _ _ I1 j e He1) as [Hk _]. rewrite <- Hk in Es. rewrite Es, bind_Ret.
  rewrite (ho_table _ _ _ Hh) in Et. exists (with_mem k1 s').
  assert (Hr : forall x, x <> e_header_kva e -> read_header s' x = read_header (k_mem k) x).
  { intros x Hx. rewrite <- (ho_other _ _ _ Hh x Hx). unfold read_header. by rewrite Eh. }
  split_and!; [done|by destruct R|done|done|]. by eapply consumed_ok.
Qed.
End Invariant.

(** * Theorems *)

(** The validate phase of revocation. In a kernel whose accounting holds,
    [revoke_validate] on a registered PageSet never panics, changes nothing
    and never reports an accounting mismatch. It succeeds exactly when each
    handle to the PageSet that records a mapping, in every live process, is
    mapped: that process's tables map the PageSet's frames, in order, from
    the recorded address on. Otherwise the error names a process and an
    address at which they do not. *)
Theorem revoke_validate_exact cfg G D oB oD S k j e :
  sys_ok cfg G D oB oD S k -> table (k_mem k) !! j = Some (Some e) ->
  exists res, revoke_validate k (e_header_kva e) = Ret res /\
    (res = Ok tt <-> validated k S e) /\
    (forall err, res = Err err -> exists p pr i h mv, err = UnmapFailed p (mv * 4096) /\
       k_procs k !! p = Some pr /\ p_table pr !! i = Some h /\ h_kind h = HPageSet (e_header_kva e) mv /\ mv <> 0 /\
       ~ maps_at (k_pt k) S (p_ttbr0 pr) mv (frames (k_mem k) (e_header_kva e) (e_count e))).
Proof.
  intros K He. destruct (revoke_validate_spec _ _ _ _ _ _ _ _ _ K He) as (res & E & H). exists res. split; [done|].
  destruct res as [[]|err]; [by split|].
  destruct H as (p & pr & a & Hp & Ha & Hm & -> & Hn). split.
  - split; [done|]. intros Hv. exfalso. apply Hn. by apply (Hv p pr Hp a).
  - intros err [= <-]. apply action_slot in Ha as (i & h & mv & Hi & Hk & ->). cbn in *.
    exists p, pr, i, h, mv. split_and!; try done. by intros ->.
Qed.

(** C19: Consuming a PageSet. After a successful validation, and when no
    process maps the PageSet twice over the same pages, the apply phase never
    panics: every handle to the PageSet in every process is emptied and every
    other handle kept, exactly the pages those handles had mapped are
    unmapped, its registration is gone, its pages are held by the kernel and
    the accounting of every other PageSet still holds. *)
Theorem consume_pageset_exact cfg G D oB oD S k j e :
  sys_ok cfg G D oB oD S k -> table (k_mem k) !! j = Some (Some e) ->
  consume_pageset_validate k (e_header_kva e) = Ret (Ok tt) -> no_overlap k e ->
  exists k', consume_pageset_apply cfg k (e_header_kva e) = Ret k' /\ revoked S e k k' /\
    table (k_mem k') = <[j := None]> (table (k_mem k)) /\
    sys_ok cfg (G ∪ list_to_set (oB j)) (D ∪ list_to_set (oD j)) (set_own oB j []) (set_own oD j []) S k'.
Proof.
  intros K He Hval Hno. destruct (revoke_validate_spec _ _ _ _ _ _ _ _ _ K He) as (res & E & Hv).
  unfold consume_pageset_validate in Hval. rewrite E in Hval. injection Hval as ->.
  destruct (consume_apply_spec _ _ _ _ _ _ _ _ _ K He Hv Hno) as (k' & Ek & R & Et & _ & K'). exists k'. done.
Qed.

(** C40: Revocation with overlapping mappings. Nothing stops a process from
    mapping two handles to one PageSet at the same address, since mapping
    overwrites valid entries. Then validation succeeds, both handles being
    backed by the same entries, but the apply phase, which the code expects
    not to fail after a successful validation, panics the kernel: the second
    clear finds the pages unmapped by the first. *)
Theorem consume_overlap_panics cfg G D oB oD S k j e p pr i i' h h' mv :
  sys_ok cfg G D oB oD S k -> table (k_mem k) !! j = Some (Some e) ->
  k_procs k !! p = Some pr -> p_table pr !! i = Some h -> p_table pr !! i' = Some h' -> i <> i' ->
  h_kind h = HPageSet (e_header_kva e) mv -> h_kind h' = HPageSet (e_header_kva e) mv -> mv <> 0 ->
  consume_pageset_validate k (e_header_kva e) = Ret (Ok tt) ->
  consume_pageset_apply cfg k (e_header_kva e) = Panic PAssert.
Proof.
  intros K He Hp Hi Hi' Hne Hk Hk' Hmv Hval.
  destruct (revoke_validate_spec _ _ _ _ _ _ _ _ _ K He) as (res & E & Hv).
  unfold consume_pageset_validate in Hval. rewrite E in Hval. injection Hval as ->.
  unfold consume_pageset_apply. rewrite (revoke_apply_panics _ _ _ _ _ _ _ _ _ _ _ K He Hv Hp); [done|].
  intros Hd. assert (0 < e_count e) as Hc by apply (iv_entry _ _ _ _ _ _ _ (ok_mem _ _ _ _ _ _ _ K) j e He).
  destruct (actions_two _ _ _ _ _ _ _ Hi Hi' Hne Hk Hk') as (n & n' & Hn & Hn' & Hnn).
  destruct (Hd n n' _ _ Hn Hn' Hnn); cbn in *; try lia; by destruct (Z.eqb_spec mv 0).
Qed.

(** ** An example kernel *)

(** Sixteen pages of RAM from address 4096 on, the first four held by the
    kernel as the tables of [ex_mem], no page free. *)
Definition ex_cfg : Config := mkConfig (mkPlatform 4096 65536) 1048576 0.
Definition ex_buddy : BuddyAllocator := mkBuddy ∅ {[0 := 15]} 16 0.
Definition ex_held : gset Z := {[0; 1; 2; 3]}.

Lemma ex_cfg_ok : config_ok ex_cfg.
Proof. constructor; [constructor|]; done. Qed.

Lemma ex_abit p : 0 <= p < 16 -> abit ex_buddy p = true <-> p ∈ ex_held.
Proof.
  intros Hp. assert (p ∈ seqZ 0 16) as Hin by (apply elem_of_seqZ; lia).
  unfold ex_held. rewrite !elem_of_union, !elem_of_singleton. change (seqZ 0 16) with [0;1;2;3;4;5;6;7;8;9;10;11;12;13;14;15] in Hin.
  repeat (apply elem_of_cons in Hin as [->|Hin]; [vm_compute; intuition congruence|]). by apply elem_of_nil in Hin.
Qed.

Lemma ex_wf : WF ex_buddy.
Proof.
  destruct (init_view 16 ltac:(unfold MAX_PAGES; lia)) as [[[Hb _] Ht Hi Ho Hu Hc Hn] _ HF _].
  constructor; try done.
  - split; [done|]. intros i. unfold ex_buddy. cbn. unfold arr_peek. rewrite lookup_singleton.
    case_decide; cbn; unfold word; lia.
  - intros p Hp Hf. assert (page_free ex_buddy p = page_free (mkBuddy ∅ ∅ 16 0) p) as E by done.
    rewrite E, HF in Hf by done. done.
Qed.

(** One externally owned PageSet of the frame 327680, its counters at
    [refs] and [maps]. *)
Lemma ex_pageset refs maps :
  exists s i e, inv ex_cfg ex_held ∅ None (fun _ => []) (fun _ => []) s /\
    (forall j, table s !! j = Some (Some e) <-> j = i) /\ (forall j e', table s !! j = Some (Some e') -> e' = e) /\
    e_count e = 1 /\ frames s (e_header_kva e) 1 = [327680] /\
    h_refcount (read_header s (e_header_kva e)) = refs /\ h_map_count (read_header s (e_header_kva e)) = maps.
Proof.
  assert (inv ex_cfg ex_held ∅ None (fun _ => []) (fun _ => []) (kboot ex_buddy)) as I0.
  { apply kboot_held; [apply ex_cfg_ok|apply ex_wf|done| |].
    - intros x Hx. by apply ex_abit.
    - intros x Hx. assert (0 <= x < 16) as Hr by (unfold ex_held in Hx; set_solver by lia). split; [done|].
      by apply ex_abit. }
  destruct (register_spec ex_cfg _ _ _ _ _ [327680] I0) as (r & s & _ & Hp); [done|].
  destruct r as [i|[]]; simpl in Hp; try done.
  2: { destruct Hp as [Hp _]. by destruct (Hp 0%nat ltac:(unfold MAX_PAGESETS; lia)). }
  destruct Hp as (Hn & Ht & _ & _ & I' & Hpg). set (e := mkEntry 1 (slot_kva ex_cfg (Z.of_nat i)) ExternallyOwned) in *.
  set (h := read_header s (slot_kva ex_cfg (Z.of_nat i))) in *.
  assert (hdr_only (e_header_kva e) s (with_header s (e_header_kva e)
    (mkHeader (h_count h) (h_header_pages h) refs maps (h_origin_raw h) (h_pages h)))) as Hh by (by apply hdr_only_with).
  assert (forall j e', table s !! j = Some (Some e') -> j = i /\ e' = e) as Hall.
  { intros j e'. rewrite Ht. intros [(<- & H & _)|(_ & H)]%list_lookup_insert_Some; [by injection H as H; subst e'|].
    apply list_elem_of_lookup_2 in H. apply elem_of_replicate in H as [H _]. done. }
  eexists _, i, e. split; [by eapply hdr_only_inv|]. cbn [table with_header]. split_and!.
  - intros j. split; [by intros [? _]%Hall|]. intros ->. rewrite Ht. apply list_lookup_insert_eq. by eapply lookup_lt_Some.
  - intros j e' [_ ?]%Hall. done.
  - done.
  - unfold frames, pages_slice, Hdr.backed. cbn [Hdr.bk_header Hdr.bk_count]. by rewrite read_header_with, decide_True.
  - by rewrite read_header_with, decide_True.
  - by rewrite read_header_with, decide_True.
Qed.

(** One process of one thread, with a handle per element of [mvs]. *)
Definition ex_handles (kva : Z) (mvs : list Z) : list HandleEntry :=
  (fun mv => mkHandle RIGHT_READ (HPageSet kva mv)) <$> mvs.
Definition ex_kernel (s : KMem) (kva : Z) (mvs : list Z) : Kernel :=
  mkKernel s ex_mem {[77 := mkProc 4096 (ex_handles kva mvs)]} [Some 5] {[5 := 77]} ∅.

Lemma ex_handle_slot kva mvs i h kva' mv :
  ex_handles kva mvs !! i = Some h -> h_kind h = HPageSet kva' mv -> kva' = kva /\ mvs !! i = Some mv.
Proof.
  unfold ex_handles. rewrite list_lookup_fmap. destruct (mvs !! i); [|done]. intros [= <-] [= <- <-]. done.
Qed.

Lemma sum_single f p pr : sum_procs f {[p := pr]} = f (p_table pr).
Proof.
  rewrite (sum_procs_delete f _ p pr) by apply lookup_singleton_eq. rewrite delete_singleton_eq, sum_procs_empty. lia.
Qed.

Lemma ex_tables : tables_held (set_map (frame_of ex_cfg) ex_held) {[4096 := ex_as]}.
Proof.
  intros r a q [<- <-]%lookup_singleton_Some Hq.
  assert (q = 4096 \/ q = 8192 \/ q = 12288 \/ q = 16384) as Hcase.
  { destruct Hq as [->|[->|[->|[k Hk]]]]; [tauto..|]. cbn in Hk. destruct (k =? 0); [|done]. injection Hk as <-. tauto. }
  clear Hq. apply elem_of_map. unfold ex_held.
  destruct Hcase as [->|[->|[->| ->]]]; [exists 0|exists 1|exists 2|exists 3]; split; [reflexivity|set_solver|
    reflexivity|set_solver|reflexivity|set_solver|reflexivity|set_solver].
Qed.

Lemma ex_sys mvs :
  Forall (fun mv => mv = 0 \/ mv = 5) mvs -> (length mvs <= 127)%nat ->
  exists s i e, e_count e = 1 /\ table s !! i = Some (Some e) /\ frames s (e_header_kva e) 1 = [327680] /\
    sys_ok ex_cfg ex_held ∅ (fun _ => []) (fun _ => []) {[4096 := ex_as]} (ex_kernel s (e_header_kva e) mvs).
Proof.
  intros Hm Hl.
  destruct (ex_pageset (Z.of_nat (length mvs)) (Z.of_nat (length (filter (fun mv => mv <> 0) mvs))))
    as (s & i & e & I & Hi & Hu & Hc & Hf & Hr & Hmc).
  exists s, i, e. split_and!; [done|by apply Hi|done|]. unfold ex_kernel.
  constructor; cbn [k_mem k_pt k_procs k_threads k_tcb_process]; try done.
  - apply ex_spaces.
  - apply ex_tables.
  - intros tcb Ht. apply list_elem_of_singleton in Ht. injection Ht as ->. by rewrite lookup_singleton_eq.
  - intros p. unfold procs_of. cbn. rewrite lookup_singleton_eq. cbn. rewrite list_elem_of_singleton.
    split; [intros [-> _]; by rewrite lookup_singleton_eq|]. intros [pr [<- _]%lookup_singleton_Some]. done.
  - intros p pr [<- <-]%lookup_singleton_Some. right. cbn. by rewrite lookup_singleton_eq.
  - intros p p' pr pr' [<- _]%lookup_singleton_Some [<- _]%lookup_singleton_Some. done.
  - intros p pr [<- <-]%lookup_singleton_Some. cbn [p_table]. unfold ex_handles. rewrite length_fmap. change HANDLE_SLOTS_PER_PAGE with 127. lia.
  - intros p pr j h kva mv [<- <-]%lookup_singleton_Some Hj Hk. cbn in Hj.
    destruct (ex_handle_slot _ _ _ _ _ _ Hj Hk) as [-> Hmv]. exists i, e.
    assert (mv = 0 \/ mv = 5) as Hcase by (by eapply Forall_lookup_1 in Hm). rewrite Hc. cbn.
    split_and!; [by apply Hi|done|lia|lia].
  - intros j e' Hj. rewrite (Hu _ _ Hj), !sum_single, Hr, Hmc. cbn [p_table]. clear.
    unfold nrefs, nmaps, tally, ref_w, map_w, revoke_action, ex_handles.
    induction mvs as [|mv mvs [IH1 IH2]]; [done|]. cbn [fmap list_fmap foldr h_kind length].
    rewrite Z.eqb_refl, filter_cons. cbn [negb ra_had_mapping] in *. rewrite <- IH1, <- IH2. split; [lia|].
    destruct (Z.eqb_spec mv 0) as [->|]; [rewrite decide_False by lia|rewrite decide_True by lia]; cbn [length negb Z.b2z]; lia.
Qed.

Lemma ex_maps : maps_at ex_mem {[4096 := ex_as]} 4096 5 [327680].
Proof.
  intros [|n] x Hx; [|done]. injection Hx as <-. unfold sview. rewrite lookup_singleton_eq.
  unfold as_view. change (as_l3 ex_as ((5 + Z.of_nat 0) / 512)) with (Some 16384).
  cbv beta iota zeta. by rewrite ex_peek.
Qed.

Lemma ex_validated s e mvs :
  Forall (fun mv => mv = 0 \/ mv = 5) mvs -> e_count e = 1 -> frames s (e_header_kva e) 1 = [327680] ->
  validated (ex_kernel s (e_header_kva e) mvs) {[4096 := ex_as]} e.
Proof.
  intros Hm Hc Hf p pr Hp. cbn [ex_kernel k_procs] in Hp. apply lookup_singleton_Some in Hp as [<- <-].
  intros a (i & h & mv & Hi & Hk & ->)%action_slot Hmap. cbn in *.
  destruct (ex_handle_slot _ _ _ _ _ _ Hi Hk) as [_ Hmv]. rewrite Hc, Hf.
  assert (mv = 0 \/ mv = 5) as [->| ->] by (by eapply Forall_lookup_1 in Hm); [done|]. apply ex_maps.
Qed.

Lemma ex_validate G D oB oD S s j e mvs :
  sys_ok ex_cfg G D oB oD S (ex_kernel s (e_header_kva e) mvs) -> table s !! j = Some (Some e) ->
  Forall (fun mv => mv = 0 \/ mv = 5) mvs -> e_count e = 1 -> frames s (e_header_kva e) 1 = [327680] ->
  S = {[4096 := ex_as]} -> revoke_validate (ex_kernel s (e_header_kva e) mvs) (e_header_kva e) = Ret (Ok tt).
Proof.
  intros K He Hm Hc Hf ->. destruct (revoke_validate_spec _ _ _ _ _ _ _ _ _ K He) as (res & E & Hr).
  rewrite E. destruct res as [[]|err]; [done|]. exfalso. destruct Hr as (p & pr & a & Hp & Ha & Hmp & _ & Hn).
  apply Hn. by apply (ex_validated s e mvs Hm Hc Hf p pr Hp a).
Qed.

Lemma revoke_validate_exact_witness :
  exists s e, revoke_validate (ex_kernel s (e_header_kva e) [5; 0]) (e_header_kva e) = Ret (Ok tt).
Proof.
  destruct (ex_sys [5; 0]) as (s & i & e & Hc & He & Hf & K); [repeat constructor; lia|cbn; lia|].
  destruct (revoke_validate_exact ex_cfg _ _ _ _ _ _ i e K He) as (res & E & Hr & _). exists s, e. rewrite E. f_equal.
  apply Hr. apply ex_validated; [repeat constructor; lia|done|done].
Defined.

Lemma consume_pageset_exact_witness :
  exists s e k', consume_pageset_validate (ex_kernel s (e_header_kva e) [5; 0]) (e_header_kva e) = Ret (Ok tt) /\
    consume_pageset_apply ex_cfg (ex_kernel s (e_header_kva e) [5; 0]) (e_header_kva e) = Ret k'.
Proof.
  destruct (ex_sys [5; 0]) as (s & i & e & Hc & He & Hf & K); [repeat constructor; lia|cbn; lia|].
  assert (consume_pageset_validate (ex_kernel s (e_header_kva e) [5; 0]) (e_header_kva e) = Ret (Ok tt)) as Hv.
  { eapply ex_validate; [exact K|exact He|repeat constructor; lia|done..]. }
  destruct (consume_pageset_exact ex_cfg _ _ _ _ _ _ i e K He Hv) as (k' & E & _).
  - intros p pr Hp. cbn [ex_kernel k_procs] in Hp. apply lookup_singleton_Some in Hp as [<- <-]. cbn [p_table].
    assert (actions (e_header_kva e) (ex_handles (e_header_kva e) [5; 0]) =
      [mkAction true 5 (HPageSet (e_header_kva e) 5); mkAction false 0 (HPageSet (e_header_kva e) 0)]) as ->.
    { unfold actions, ex_handles, revoke_action. cbn. by rewrite Z.eqb_refl. }
    intros [|[|n]] [|[|n']] a a' Ha Ha' Hne Hm Hm'; try done; injection Ha as <-; injection Ha' as <-; done.
  - by exists s, e, k'.
Defined.

Lemma consume_overlap_panics_witness :
  exists s e, consume_pageset_validate (ex_kernel s (e_header_kva e) [5; 5]) (e_header_kva e) = Ret (Ok tt) /\
    consume_pageset_apply ex_cfg (ex_kernel s (e_header_kva e) [5; 5]) (e_header_kva e) = Panic PAssert.
Proof.
  destruct (ex_sys [5; 5]) as (s & i & e & Hc & He & Hf & K); [repeat constructor; lia|cbn; lia|].
  assert (consume_pageset_validate (ex_kernel s (e_header_kva e) [5; 5]) (e_header_kva e) = Ret (Ok tt)) as Hv.
  { eapply ex_validate; [exact K|exact He|repeat constructor; lia|done..]. }
  exists s, e. split; [done|].
  eapply (consume_overlap_panics ex_cfg _ _ _ _ _ _ i e 77 _ 0 1 _ _ 5 K He); try reflexivity; done.
Defined.
