(* ===== verification/SysPages.v ===== *)
(** The page and handle system calls (src/syscall/handler.rs): allocation,
    mapping, unmapping, export, queries and close, over the whole kernel state,
    with the lemmas on how a change of one table or header keeps the kernel's
    accounting. *)
From Stdlib Require Import ZArith Lia.
From stdpp Require Import base option list gmap numbers sets fin_sets fin_maps.
From S2P Require Import Prelude Frames Buddy BuddyInv Pools FrameAlloc PageSet Ownership KPageSet HeaderFrame PageTable Vmem Handles Revoke.
Open Scope Z_scope.

(** * The handlers

    [p] is the process of the calling thread. Register values are 64-bit; a
    handle index is the low 32 bits. *)

Definition ALLOC_FLAG_CONTIGUOUS : Z := Z.shiftl 1 0.

(** [impl From<AllocError> for SyscallError] *)
Definition syscall_error_of (e : AllocError) : SyscallError :=
  match e with
  | EInvalidCount => INVALID_PARAMETER
  | EHeaderPoolExhausted => OUT_OF_PAGE_SETS
  | EPageSetTableFull => OUT_OF_PAGE_SETS
  | EBuddyExhausted => OUT_OF_MEMORY
  | EDmaPoolExhausted => OUT_OF_MEMORY
  end.

Definition RIGHTS_RW : Z := Z.lor RIGHT_READ RIGHT_WRITE.

Definition with_tokens (k : Kernel) (t : gmap Z Z) : Kernel :=
  mkKernel (k_mem k) (k_pt k) (k_procs k) (k_threads k) (k_tcb_process k) t.

(** The token counter of an endpoint, 1 when the endpoint is created. *)
Definition next_token_of (k : Kernel) (kva : Z) : Z := default 1 (k_next_token k !! kva).

(** read_header_mut(kva).inc_refcount() and its kin. *)
Definition inc_refcount_at (s : KMem) (kva : Z) : outcome KMem :=
  h ← Hdr.inc_refcount (read_header s kva); Ret (with_header s kva h).
Definition inc_map_count_at (s : KMem) (kva : Z) : outcome KMem :=
  h ← Hdr.inc_map_count (read_header s kva); Ret (with_header s kva h).

(** CurrentThread::address_space() *)
Definition address_space (pr : Proc) : option Z := if p_ttbr0 pr =? 0 then None else Some (p_ttbr0 pr).

(** Shows the fields of an updated kernel. *)
Ltac open_kernel :=
  unfold with_slots, with_procs, with_pt, with_mem, with_tokens;
  cbn [k_mem k_pt k_procs k_threads k_tcb_process k_next_token].

Section Handlers.
Context (cfg : Config).

(** The common end of the allocating calls: a handle to the new PageSet for
    the caller, or [on_full] when its table is full. *)
Definition give_handle (k : Kernel) (p header_kva : Z) (on_full : KMem -> outcome KMem)
  : outcome (result Z SyscallError * Kernel) :=
  pr ← unwrap (k_procs k !! p);
  match ht_insert (p_table pr) RIGHTS_RW (HPageSet header_kva 0) with
  | (Ok h, slots) =>
      s ← inc_refcount_at (k_mem k) header_kva;
      Ret (Ok h, with_slots (with_mem k s) p pr slots)
  | (Err e, slots) =>
      s ← on_full (k_mem k);
      Ret (Err e, with_slots (with_mem k s) p pr slots)
  end.

(** After a PageSet allocation: [?] on its error, the header's address, the
    handle. *)
Definition new_pageset (k : Kernel) (p : Z) (a : result nat AllocError * KMem) (on_full : Z -> KMem -> outcome KMem)
  : outcome (result Z SyscallError * Kernel) :=
  let k1 := with_mem k a.2 in
  match a.1 with
  | Err e => Ret (Err (syscall_error_of e), k1)
  | Ok id =>
      match get_pageset a.2 (Z.of_nat id) with
      | None => Ret (Err UNKNOWN, k1)
      | Some (_, header_kva) => give_handle k1 p header_kva (on_full header_kva)
      end
  end.

Definition sys_alloc_pages (k : Kernel) (p count flags : Z) : outcome (result Z SyscallError * Kernel) :=
  if negb (Z.land flags (not_w 64 ALLOC_FLAG_CONTIGUOUS) =? 0) then Ret (Err INVALID_PARAMETER, k) else
  a ← (if negb (Z.land flags ALLOC_FLAG_CONTIGUOUS =? 0) then KPageSet.alloc_pages_contiguous cfg (k_mem k) count
       else alloc_pages cfg (k_mem k) count);
  new_pageset k p a (fun kva s => free_by_header_kva cfg s kva).

Definition sys_alloc_dma_pages (k : Kernel) (p count : Z) : outcome (result Z SyscallError * Kernel) :=
  a ← alloc_dma_pages cfg (k_mem k) count;
  new_pageset k p a (fun kva s => free_by_header_kva cfg s kva).

Definition sys_register_device_page (k : Kernel) (p phys_addr : Z) : outcome (result Z SyscallError * Kernel) :=
  a ← register_device_page cfg (k_mem k) phys_addr;
  new_pageset k p a (fun kva s => free_header_page cfg s kva).

(** [dtb_id] is dtb_pageset_id(); the in-page offset returned beside the
    handle is a boot constant. *)
Definition sys_get_boot_info (k : Kernel) (p dtb_id : Z) : outcome (result Z SyscallError * Kernel) :=
  match get_pageset (k_mem k) dtb_id with
  | None => Ret (Err UNKNOWN, k)
  | Some (_, header_kva) => give_handle k p header_kva Ret
  end.

(** The attribute a mapping may use, by the PageSet's origin. *)
Definition attr_allowed (o : PageSetOrigin) (attr : MapMemoryAttribute) : bool :=
  match o, attr with
  | Buddy, NormalNonCacheable => false
  | DmaPool, NormalNonCacheable => false
  | DmaPool, Device => false
  | ExternallyOwned, NormalNonCacheable => false
  | _, _ => true
  end.

Definition sys_map_pages (k : Kernel) (p handle_reg virt_addr attr_reg : Z) : outcome (SyscallError * Kernel) :=
  let handle := wrap 32 handle_reg in
  match attr_from_raw attr_reg with
  | None => Ret (INVALID_PARAMETER, k)
  | Some attr =>
      if (virt_addr =? 0) || negb (Z.land virt_addr 0xFFF =? 0) then Ret (INVALID_PARAMETER, k) else
      pr ← unwrap (k_procs k !! p);
      match address_space pr with
      | None => Ret (INVALID_PARAMETER, k)
      | Some ttbr0 =>
          match lookup (p_table pr) handle RIGHT_READ OTPageSet with
          | Err e => Ret (e, k)
          | Ok entry =>
              match ht_get_mapped_va (p_table pr) handle with
              | Err e => Ret (e, k)
              | Ok va_page =>
                  if negb (va_page =? 0) then Ret (INVALID_PARAMETER, k) else
                  match h_kind entry with
                  | HPageSet header_kva _ =>
                      header ← read_header_backed (k_mem k) header_kva;
                      match Hdr.origin (Hdr.bk_header header) with
                      | None => Ret (INVALID_HANDLE, k)
                      | Some o =>
                          if negb (attr_allowed o attr) then Ret (INVALID_PARAMETER, k) else
                          x ← @map_pages_in_existing KMem (kframes cfg) (k_pt k) (k_mem k) ttbr0 virt_addr header attr;
                          let '(res, m, s) := x in
                          let k1 := with_pt (with_mem k s) m in
                          match res with
                          | Err _ => Ret (UNKNOWN, k1)
                          | Ok _ =>
                              match ht_set_mapped_va (p_table pr) handle (wrap 32 (Z.shiftr virt_addr 12)) with
                              | (Err e, slots) => Ret (e, with_slots k1 p pr slots)
                              | (Ok _, slots) =>
                                  s1 ← inc_map_count_at s header_kva;
                                  Ret (OK, with_slots (with_mem k1 s1) p pr slots)
                              end
                          end
                      end
                  | _ => Ret (INVALID_HANDLE, k)
                  end
              end
          end
      end
  end.

Definition sys_unmap_pages (k : Kernel) (p handle_reg va : Z) : outcome (SyscallError * Kernel) :=
  let handle := wrap 32 handle_reg in
  pr ← unwrap (k_procs k !! p);
  match address_space pr with
  | None => Ret (INVALID_PARAMETER, k)
  | Some ttbr0 =>
      match lookup (p_table pr) handle RIGHT_READ OTPageSet with
      | Err e => Ret (e, k)
      | Ok entry =>
          match ht_get_mapped_va (p_table pr) handle with
          | Err e => Ret (e, k)
          | Ok mapped_va_page =>
              if mapped_va_page =? 0 then Ret (INVALID_PARAMETER, k) else
              if negb (va =? Z.shiftl mapped_va_page 12) then Ret (INVALID_PARAMETER, k) else
              match h_kind entry with
              | HPageSet header_kva _ =>
                  b ← read_header_backed (k_mem k) header_kva;
                  u ← unmap_validated ttbr0 va (pages_slice b) (k_pt k);
                  match u with
                  | (Err _, m) => Ret (INVALID_PARAMETER, with_pt k m)
                  | (Ok _, m) =>
                      let slots := (ht_set_mapped_va (p_table pr) handle 0).2 in
                      d ← Hdr.dec_map_count (read_header (k_mem k) header_kva);
                      let s := with_header (k_mem k) header_kva d.2 in
                      s' ← (if d.1 : bool then free_by_header_kva cfg s header_kva else Ret s);
                      Ret (OK, with_slots (with_pt (with_mem k s') m) p pr slots)
                  end
              | _ => Ret (INVALID_HANDLE, k)
              end
          end
      end
  end.

(** The removal that ends every way of closing a handle. *)
Definition remove_then (k : Kernel) (p handle : Z) (pr : Proc) (release : KMem -> outcome KMem)
  : outcome (SyscallError * Kernel) :=
  match ht_remove (p_table pr) handle with
  | (Ok _, slots) =>
      s ← release (k_mem k);
      Ret (OK, with_slots (with_mem k s) p pr slots)
  | (Err e, slots) => Ret (e, with_slots k p pr slots)
  end.

Definition sys_close_handle (k : Kernel) (p handle_reg : Z) : outcome (SyscallError * Kernel) :=
  let handle := wrap 32 handle_reg in
  pr ← unwrap (k_procs k !! p);
  let entry := match lookup_any (p_table pr) handle rights_none with Ok e => Some e | Err _ => None end in
  match decide_close_handle entry with
  | CloseInvalidHandle => Ret (INVALID_HANDLE, k)
  | RemoveOnly => remove_then k p handle pr Ret
  | RemoveAndDecRef header_kva =>
      remove_then k p handle pr (fun s => dec_refcount_and_maybe_free cfg s header_kva)
  | UnmapThenRemove header_kva mapped_va_page =>
      b ← read_header_backed (k_mem k) header_kva;
      let va := Z.shiftl mapped_va_page 12 in
      u ← match address_space pr with
          | Some ttbr0 => unmap_validated ttbr0 va (pages_slice b) (k_pt k)
          | None => Ret (Ok tt, k_pt k)
          end;
      match u with
      | (Err _, m) => Ret (INVALID_PARAMETER, with_pt k m)
      | (Ok _, m) => remove_then (with_pt k m) p handle pr (fun s => dec_both_and_maybe_free cfg s header_kva)
      end
  end.

(** An exported endpoint handle gets a fresh caller token. *)
Definition export_kind_of (k : Kernel) (kind : HandleKind) : outcome (HandleKind * Kernel) :=
  match kind with
  | HEndpoint kva _ =>
      r ← mint_caller_token (next_token_of k kva);
      Ret (HEndpoint kva (Some r.1), with_tokens k (<[kva := r.2]> (k_next_token k)))
  | _ => Ret (kind, k)
  end.

(** [reply_kva] is the caller's current_reply_kva and [caller_tcb] the
    caller_tcb_kva of that Reply. *)
Definition sys_export_handle (k : Kernel) (p handle_reg reply_kva caller_tcb : Z)
  : outcome (result Z SyscallError * Kernel) :=
  let handle := wrap 32 handle_reg in
  if reply_kva =? 0 then Ret (Err NO_CALLER, k) else
  if caller_tcb =? 0 then Ret (Err NO_CALLER, k) else
  pr ← unwrap (k_procs k !! p);
  match lookup_any (p_table pr) handle rights_none with
  | Err e => Ret (Err e, k)
  | Ok entry =>
      x ← export_kind_of k (h_kind entry);
      let '(export_kind, k1) := x in
      q ← unwrap (k_tcb_process k !! caller_tcb);
      qr ← unwrap (k_procs k1 !! q);
      match ht_insert (p_table qr) (h_rights entry) export_kind with
      | (Err e, slots) => Ret (Err e, with_slots k1 q qr slots)
      | (Ok idx, slots) =>
          s ← match export_kind with
              | HPageSet kva _ => inc_refcount_at (k_mem k1) kva
              | _ => Ret (k_mem k1)
              end;
          Ret (Ok idx, with_slots (with_mem k1 s) q qr slots)
      end
  end.

Definition sys_query_pageset_phys (k : Kernel) (p handle_reg page_index : Z) : outcome (result Z SyscallError * Kernel) :=
  let handle := wrap 32 handle_reg in
  pr ← unwrap (k_procs k !! p);
  match lookup (p_table pr) handle RIGHT_READ OTPageSet with
  | Err e => Ret (Err e, k)
  | Ok entry =>
      match h_kind entry with
      | HPageSet header_kva _ =>
          b ← read_header_backed (k_mem k) header_kva;
          o ← Hdr.get_page b page_index;
          match o with
          | Some a => Ret (Ok a, k)
          | None => Ret (Err INVALID_PARAMETER, k)
          end
      | _ => Ret (Err INVALID_HANDLE, k)
      end
  end.

Definition sys_query_mapping (k : Kernel) (p va : Z) : outcome (result (Z * Z) SyscallError * Kernel) :=
  if (USER_VA_END <=? va) || negb (Z.land va 0xFFF =? 0) then Ret (Err INVALID_PARAMETER, k) else
  pr ← unwrap (k_procs k !! p);
  r ← query_mapping_run (arr_peek (k_pt k)) (p_ttbr0 pr) va;
  Ret (Ok (Z.b2z r.1, r.2), k).

(** The calls of this file with their argument registers. What a handler reads
    of the calling thread besides its process is an argument: for an export
    the current reply object and its caller, for the boot information the id
    of the DTB's PageSet and the DTB's offset in its page. *)
Inductive Call :=
  | AllocPages (count flags : Z)
  | AllocDmaPages (count : Z)
  | MapPages (handle va attr : Z)
  | ExportHandle (handle reply_kva caller_tcb : Z)
  | GetBootInfo (dtb_id dtb_offset : Z)
  | RegisterDevicePage (phys_addr : Z)
  | QueryPagesetPhys (handle page_index : Z)
  | QueryMapping (va : Z)
  | CloseHandle (handle : Z)
  | UnmapPages (handle va : Z).

Definition into_return {A} (f : A -> SyscallReturn) (m : outcome (A * Kernel)) : outcome (SyscallReturn * Kernel) :=
  x ← m; Ret (f x.1, x.2).

(** The registers from x1 on that [sys_query_mapping] and [sys_get_boot_info]
    write themselves. *)
Definition mapping_return (r : result (Z * Z) SyscallError) : SyscallReturn :=
  match r with Ok (mapped, run_pages) => Message OK [mapped; run_pages] | Err e => Value (Err e) end.
Definition boot_info_return (dtb_offset : Z) (r : result Z SyscallError) : SyscallReturn :=
  match r with Ok h => Message OK [h; dtb_offset] | Err e => Void e end.

(** The dispatch of [handle_syscall], for these calls. *)
Definition handle_syscall (k : Kernel) (p : Z) (c : Call) : outcome (SyscallReturn * Kernel) :=
  match c with
  | AllocPages count flags => into_return Value (sys_alloc_pages k p count flags)
  | AllocDmaPages count => into_return Value (sys_alloc_dma_pages k p count)
  | MapPages handle va attr => into_return Void (sys_map_pages k p handle va attr)
  | ExportHandle handle reply_kva caller_tcb => into_return Value (sys_export_handle k p handle reply_kva caller_tcb)
  | GetBootInfo dtb_id dtb_offset => into_return (boot_info_return dtb_offset) (sys_get_boot_info k p dtb_id)
  | RegisterDevicePage phys_addr => into_return Value (sys_register_device_page k p phys_addr)
  | QueryPagesetPhys handle page_index => into_return Value (sys_query_pageset_phys k p handle page_index)
  | QueryMapping va => into_return mapping_return (sys_query_mapping k p va)
  | CloseHandle handle => into_return Void (sys_close_handle k p handle)
  | UnmapPages handle va => into_return Void (sys_unmap_pages k p handle va)
  end.

(** A history: which process called what, in order. *)
Fixpoint run_calls (k : Kernel) (cs : list (Z * Call)) : outcome (list SyscallReturn * Kernel) :=
  match cs with
  | [] => Ret ([], k)
  | (p, c) :: cs' =>
      x ← handle_syscall k p c;
      y ← run_calls x.2 cs';
      Ret (x.1 :: y.1, y.2)
  end.
End Handlers.

(** * The invariant across a change *)
Section Changes.
Context (cfg : Config).

(** A PageSet handle of a process with root [r]: registered, and mapped only
    inside the user range. *)
Definition handle_ok (t : PageSetTable) (r : Z) (h : HandleEntry) : Prop :=
  forall kva mv, h_kind h = HPageSet kva mv ->
    exists j e, t !! j = Some (Some e) /\ e_header_kva e = kva /\ 0 <= mv /\ (mv <> 0 -> r <> 0 /\ mv + e_count e <= 2 ^ 18).

Lemma nrefs_pos target slots i h mv :
  slots !! i = Some h -> h_kind h = HPageSet target mv -> 0 < nrefs target slots.
Proof.
  intros Hi Hk. rewrite nrefs_actions.
  assert (mkAction (negb (mv =? 0)) mv (HPageSet target mv) ∈ actions target slots) as Hin.
  { apply action_slot. eauto 10. }
  destruct (actions target slots); [by apply elem_of_nil in Hin|]. cbn [length]. lia.
Qed.

Lemma nrefs_nonneg target slots : 0 <= nrefs target slots.
Proof. rewrite nrefs_actions. lia. Qed.

(** No reference in any table: no handle anywhere. *)
Lemma sum_refs_zero target (ps : gmap Z Proc) :
  sum_procs (nrefs target) ps = 0 <->
  forall p pr i h mv, ps !! p = Some pr -> p_table pr !! i = Some h -> h_kind h <> HPageSet target mv.
Proof.
  split.
  - intros Hz p pr i h mv Hp Hi Hk. pose proof (nrefs_pos _ _ _ _ _ Hi Hk).
    pose proof (sum_procs_le (nrefs target) ps p pr Hp ltac:(intros; apply nrefs_nonneg)). lia.
  - intros Hn. rewrite (sum_procs_ext _ (fun _ => 0)); [apply sum_procs_zero|].
    intros p pr Hp. rewrite nrefs_actions. destruct (actions target (p_table pr)) as [|a l] eqn:E; [done|].
    assert (a ∈ actions target (p_table pr)) as Ha by (rewrite E; set_solver).
    apply action_slot in Ha as (i & h & mv & Hi & Hk & _). by destruct (Hn p pr i h mv Hp Hi).
Qed.

Lemma sum_maps_zero target ps : sum_procs (nrefs target) ps = 0 -> sum_procs (nmaps target) ps = 0.
Proof.
  intros Hz. rewrite sum_refs_zero in Hz. rewrite (sum_procs_ext _ (fun _ => 0)); [apply sum_procs_zero|].
  intros p pr Hp. pose proof (nmaps_le_nrefs target (p_table pr)) as Hle.
  assert (nrefs target (p_table pr) = 0) as E; [|lia].
  rewrite nrefs_actions. destruct (actions target (p_table pr)) as [|a l] eqn:E; [done|].
  assert (a ∈ actions target (p_table pr)) as Ha by (rewrite E; set_solver).
  apply action_slot in Ha as (i & h & mv & Hi & Hk & _). by destruct (Hz p pr i h mv Hp Hi).
Qed.

(** A header address that is not registered has no handle. *)
Lemma unregistered_zero G D oB oD S k kva :
  sys_ok cfg G D oB oD S k -> (forall j e, table (k_mem k) !! j = Some (Some e) -> e_header_kva e <> kva) ->
  sum_procs (nrefs kva) (k_procs k) = 0.
Proof.
  intros K Hn. apply sum_refs_zero. intros p pr i h mv Hp Hi Hk.
  destruct (ok_handle _ _ _ _ _ _ _ K p pr i h kva mv Hp Hi Hk) as (j & e & Hj & E & _). by apply (Hn j e Hj).
Qed.

(** Changes of the memory alone: registrations are kept with their counters,
    or made with none, or dropped when no handle is left. *)
Lemma sys_mem_change G D oB oD S k G' D' oB' oD' s' :
  sys_ok cfg G D oB oD S k -> inv cfg G' D' None oB' oD' s' -> tables_held (set_map (frame_of cfg) G') S ->
  (forall j e, table s' !! j = Some (Some e) ->
     table (k_mem k) !! j = Some (Some e) /\ same_counts (read_header (k_mem k) (e_header_kva e)) (read_header s' (e_header_kva e)) \/
     same_counts zero_header (read_header s' (e_header_kva e)) /\ sum_procs (nrefs (e_header_kva e)) (k_procs k) = 0) ->
  (forall j e, table (k_mem k) !! j = Some (Some e) ->
     table s' !! j = Some (Some e) \/ sum_procs (nrefs (e_header_kva e)) (k_procs k) = 0) ->
  sys_ok cfg G' D' oB' oD' S (with_mem k s').
Proof.
  intros K I' Ht Hnew Hold. pose proof K as [? ? ? ? ? ? ? ? ? ? ?]. constructor; try done; cbn [with_mem k_mem k_procs].
  - intros p pr i h kva mv Hp Hi Hk. destruct (ok_handle p pr i h kva mv Hp Hi Hk) as (j & e & Hj & E & Hmv).
    exists j, e. split; [|done]. destruct (Hold j e Hj) as [|Hz]; [done|]. exfalso.
    rewrite sum_refs_zero in Hz. apply (Hz p pr i h mv Hp Hi). by rewrite E.
  - intros j e Hj. destruct (Hnew j e Hj) as [[Hj' [-> ->]]|[[-> ->] Hz]]; [by apply (ok_counts j)|].
    rewrite Hz, sum_maps_zero by done. done.
Qed.

(** One handle slot of a process changes, with the counters of one header. *)
Lemma sys_slot_change G D oB oD S k G' s' m' S' tok p pr i old new kva :
  sys_ok cfg G D oB oD S k -> k_procs k !! p = Some pr -> p_table pr !! i = Some old ->
  inv cfg G' D None oB oD s' -> table s' = table (k_mem k) ->
  spaces_ok m' S' -> tables_held (set_map (frame_of cfg) G') S' -> (forall r, is_Some (S !! r) -> is_Some (S' !! r)) ->
  (forall x, x <> kva -> same_counts (read_header (k_mem k) x) (read_header s' x)) ->
  h_refcount (read_header s' kva) = h_refcount (read_header (k_mem k) kva) - ref_w kva old + ref_w kva new ->
  h_map_count (read_header s' kva) = h_map_count (read_header (k_mem k) kva) - map_w kva old + map_w kva new ->
  (forall x, x <> kva -> ref_w x old = ref_w x new /\ map_w x old = map_w x new) ->
  handle_ok (table (k_mem k)) (p_ttbr0 pr) new ->
  sys_ok cfg G' D oB oD S' (mkKernel s' m' (<[p := mkProc (p_ttbr0 pr) (<[i := new]> (p_table pr))]> (k_procs k))
    (k_threads k) (k_tcb_process k) tok).
Proof.
  intros K Hp Hi I' Et Hs Ht HS Hx Hr Hm Hw Hn. pose proof K as [? ? ? ? ? ? ? ? ? ? ?].
  assert (forall q qr, <[p := mkProc (p_ttbr0 pr) (<[i := new]> (p_table pr))]> (k_procs k) !! q = Some qr ->
    exists qr0, k_procs k !! q = Some qr0 /\ p_ttbr0 qr = p_ttbr0 qr0) as Hq.
  { intros q qr [[<- <-]|[_ H]]%lookup_insert_Some; eauto. }
  constructor; try done; cbn [k_mem k_pt k_procs k_threads k_tcb_process].
  - intros q. rewrite ok_live, !lookup_insert_is_Some. destruct (decide (p = q)) as [<-|]; [|tauto].
    split; [by left|]. intros _. by eexists.
  - intros q qr (qr0 & H & ->)%Hq. destruct (ok_root q qr0 H); [by left|right; auto].
  - intros q q' qr qr' (qr0 & H & ->)%Hq (qr0' & H' & ->)%Hq. by apply ok_root_inj.
  - intros q qr [[<- <-]|[_ H]]%lookup_insert_Some; [cbn; rewrite length_insert|]; eauto.
  - rewrite Et. intros q qr i' h kva' mv [[<- <-]|[_ Hqr]]%lookup_insert_Some Hi' Hk; [|by eapply ok_handle].
    cbn [p_table p_ttbr0] in *. apply list_lookup_insert_Some in Hi' as [(<- & -> & _)|[_ Hi']]; [by apply Hn|by eapply ok_handle].
  - rewrite Et. intros j e Hj. destruct (ok_counts j e Hj) as [Cr Cm].
    rewrite !(sum_procs_insert _ _ _ _ _ Hp). cbn [p_table]. unfold nrefs, nmaps. rewrite !(tally_insert _ _ _ _ _ Hi).
    fold (nrefs (e_header_kva e)) (nmaps (e_header_kva e)).
    destruct (decide (e_header_kva e = kva)) as [E|Hne].
    + rewrite E in *. lia.
    + destruct (Hx _ Hne) as [-> ->], (Hw _ Hne) as [-> ->]. lia.
Qed.

(** The number of handles is bounded by the tables. *)
Lemma refs_bound G D oB oD S k kva :
  sys_ok cfg G D oB oD S k -> 0 <= sum_procs (nrefs kva) (k_procs k) <= MAX_THREADS * HANDLE_SLOTS_PER_PAGE.
Proof.
  intros K. split; [apply sum_procs_nonneg; intros; apply nrefs_nonneg|].
  rewrite <- (sum_visits _ _ _ _ _ _ _ _ K).
  assert (Z.of_nat (length (visits k)) <= MAX_THREADS) as Hl.
  { pose proof (ok_len _ _ _ _ _ _ _ K). unfold visits.
    assert (forall l v, (length (uniq v l) <= length l)%nat) as Hu.
    { induction l as [|x l IH]; intros v; cbn [uniq length]; [lia|].
      case_decide; [pose proof (IH v)|pose proof (IH (v ++ [x]))]; cbn [length]; lia. }
    assert (forall l, (length (procs_of (k_tcb_process k) l) <= length l)%nat) as Ho.
    { induction l as [|x l IH]; cbn [length]; [cbn; lia|]. unfold procs_of in *. cbn.
      destruct (x ≫= _); cbn [length]; lia. }
    pose proof (Hu (procs_of (k_tcb_process k) (k_threads k)) []). pose proof (Ho (k_threads k)). lia. }
  assert (0 < HANDLE_SLOTS_PER_PAGE) as Hpos by reflexivity.
  enough (sum_list (nrefs kva) (k_procs k) (visits k) <= Z.of_nat (length (visits k)) * HANDLE_SLOTS_PER_PAGE) by nia.
  clear Hl. induction (visits k) as [|q l IH]; cbn [sum_list length]; [lia|].
  destruct (k_procs k !! q) as [qr|] eqn:Eq; [|lia].
  pose proof (ok_slots _ _ _ _ _ _ _ K q qr Eq). pose proof (nrefs_bound kva (p_table qr)). lia.
Qed.

(** ** What a call may change *)

Definition kernel_ok (k : Kernel) : Prop := exists G D oB oD S, sys_ok cfg G D oB oD S k.

(** The accounting holds again in [k'], the kernel holds at least the pages [G],
    and its address spaces have no table on them that was not there in [S]. *)
Definition grown (G : gset Z) (S : gmap Z AS) (k' : Kernel) : Prop :=
  exists G' D' oB' oD' S', sys_ok cfg G' D' oB' oD' S' k' /\ (forall idx, idx ∈ G -> idx ∈ G') /\
    forall r a' q, S' !! r = Some a' -> as_page r a' q -> (exists a, S !! r = Some a /\ as_page r a q) \/ ~ (q / 4096 ∈ (set_map (frame_of cfg) G : gset Z)).

Lemma grown_same G D oB oD S k : sys_ok cfg G D oB oD S k -> grown G S k.
Proof. intros K. exists G, D, oB, oD, S. split; [done|]. split; [done|]. intros r a q Hr Hq. left. by exists a. Qed.

Lemma grown_ok G S k : grown G S k -> kernel_ok k.
Proof. intros (G' & D' & oB' & oD' & S' & K & _). by exists G', D', oB', oD', S'. Qed.

(** What user page [u] of the address space at [r] maps. *)
Definition user_view (k : Kernel) (r u : Z) : option Z := page_at (arr_peek (k_pt k)) r (u * 4096).

(** A handle of process [p] is of this kind. *)
Definition held (k : Kernel) (p : Z) (kind : HandleKind) : Prop :=
  exists pr i h, k_procs k !! p = Some pr /\ p_table pr !! i = Some h /\ h_kind h = kind.

(** What a call by process [p] does to a handle table and the token counters:
    nothing, a PageSet's handle or an empty slot, a copy of a handle of [p], or
    a new identity on an endpoint of [p]. *)
Inductive table_step (k : Kernel) (p : Z) (slots : list HandleEntry) : list HandleEntry -> gmap Z Z -> Prop :=
  | ts_same tok : (forall x, next_token_of k x <= default 1 (tok !! x)) -> table_step k p slots slots tok
  | ts_plain i h : h_kind h = HEmpty \/ (exists kva mv, h_kind h = HPageSet kva mv) -> table_step k p slots (<[i := h]> slots) (k_next_token k)
  | ts_copy i rights kind : held k p kind -> (forall kva t, kind <> HEndpoint kva t) ->
      table_step k p slots (<[i := mkHandle rights kind]> slots) (k_next_token k)
  | ts_mint i rights kva t : held k p (HEndpoint kva t) ->
      table_step k p slots (<[i := mkHandle rights (HEndpoint kva (Some (next_token_of k kva)))]> slots) (<[kva := next_token_of k kva + 1]> (k_next_token k)).

Lemma ts_refl k p slots : table_step k p slots slots (k_next_token k).
Proof. apply ts_same. intros x. unfold next_token_of. lia. Qed.

Lemma ts_mem k s p slots slots' tok : table_step (with_mem k s) p slots slots' tok -> table_step k p slots slots' tok.
Proof.
  intros [tok' H|i h H|i rights kind H1 H2|i rights kva t H].
  - by apply ts_same.
  - exact (ts_plain k p slots i h H).
  - exact (ts_copy k p slots i rights kind H1 H2).
  - exact (ts_mint k p slots i rights kva t H).
Qed.

(** A call by process [p] that may change the handle table of [tgt]: threads,
    other tables and the mappings of other processes are kept. *)
Record step_frame (p tgt : Z) (k k' : Kernel) : Prop := {
  sf_threads : k_threads k' = k_threads k /\ k_tcb_process k' = k_tcb_process k;
  sf_procs : forall q, q <> tgt -> k_procs k' !! q = k_procs k !! q;
  sf_tgt : forall pr, k_procs k !! tgt = Some pr ->
    exists slots, k_procs k' !! tgt = Some (mkProc (p_ttbr0 pr) slots) /\ length slots = length (p_table pr) /\
      table_step k p (p_table pr) slots (k_next_token k');
  sf_view : forall q qr u, q <> p -> k_procs k !! q = Some qr -> p_ttbr0 qr <> 0 -> 0 <= u < 2 ^ 18 ->
    user_view k' (p_ttbr0 qr) u = user_view k (p_ttbr0 qr) u;
  sf_tokens : forall x, next_token_of k x <= next_token_of k' x <= next_token_of k x + 1;
}.

Lemma step_frame_refl p tgt k : step_frame p tgt k k.
Proof. constructor; try done; [intros pr Hp; exists (p_table pr); destruct pr; split; [done|]; split; [done|]; exact (ts_refl k p _)|]. intros x. lia. Qed.

Lemma step_frame_mem p tgt k s : step_frame p tgt k (with_mem k s).
Proof.
  constructor; try done; [intros pr Hp; exists (p_table pr); destruct pr; split; [done|]; split; [done|]; exact (ts_refl k p _)|].
  intros x. change (next_token_of (with_mem k s)) with (next_token_of k). lia.
Qed.

Lemma with_slots_id k p pr : k_procs k !! p = Some pr -> with_slots k p pr (p_table pr) = k.
Proof.
  intros Hp. unfold with_slots, with_procs. destruct pr as [t sl], k as [? ? ps ? ? ?]. cbn in *. by rewrite insert_id.
Qed.

Lemma step_frame_slots p tgt k pr s m slots tok :
  k_procs k !! tgt = Some pr -> length slots = length (p_table pr) ->
  (forall q qr u, q <> p -> k_procs k !! q = Some qr -> p_ttbr0 qr <> 0 -> 0 <= u < 2 ^ 18 ->
     page_at (arr_peek m) (p_ttbr0 qr) (u * 4096) = user_view k (p_ttbr0 qr) u) ->
  (forall x, next_token_of k x <= default 1 (tok !! x) <= next_token_of k x + 1) -> table_step k p (p_table pr) slots tok ->
  step_frame p tgt k (mkKernel s m (<[tgt := mkProc (p_ttbr0 pr) slots]> (k_procs k)) (k_threads k) (k_tcb_process k) tok).
Proof.
  intros Hp Hl Hv Htok Hts. constructor; try done; cbn [k_procs].
  - intros q Hq. by rewrite lookup_insert_ne.
  - intros pr' Hp'. rewrite Hp in Hp'. injection Hp' as <-. exists slots. by rewrite lookup_insert_eq.
Qed.

Lemma ref_w_pageset x h kva mv : h_kind h = HPageSet kva mv ->
  ref_w x h = (if decide (x = kva) then 1 else 0) /\
  map_w x h = (if decide (x = kva /\ mv <> 0) then 1 else 0).
Proof.
  intros Hk. unfold ref_w, map_w, revoke_action. rewrite Hk. destruct (Z.eqb_spec kva x) as [->|Hne]; cbn [negb].
  - rewrite decide_True by done. split; [done|]. destruct (Z.eqb_spec mv 0) as [->|]; cbn.
    + by rewrite decide_False by tauto.
    + by rewrite decide_True by tauto.
  - by rewrite !decide_False by (intros ?; intuition congruence).
Qed.

Lemma ref_w_other x h : (forall kva mv, h_kind h <> HPageSet kva mv) -> ref_w x h = 0 /\ map_w x h = 0.
Proof.
  intros Hk. unfold ref_w, map_w, revoke_action. destruct (h_kind h); try done. by destruct (Hk kva mapped_va_page).
Qed.

Lemma inc_ref_spec s kva : h_refcount (read_header s kva) + 1 < 2 ^ 32 ->
  exists s', inc_refcount_at s kva = Ret s' /\ hdr_only kva s s' /\
    h_refcount (read_header s' kva) = h_refcount (read_header s kva) + 1 /\
    h_map_count (read_header s' kva) = h_map_count (read_header s kva).
Proof.
  intros H. unfold inc_refcount_at, Hdr.inc_refcount, Hdr.inc32. rewrite (proj2 (Z.ltb_lt _ _)) by done.
  rewrite !bind_Ret. eexists. split; [done|]. rewrite read_header_with, decide_True by done. split; [|done].
  by apply hdr_only_with.
Qed.

Lemma inc_map_spec s kva : h_map_count (read_header s kva) + 1 < 2 ^ 32 ->
  exists s', inc_map_count_at s kva = Ret s' /\ hdr_only kva s s' /\
    h_refcount (read_header s' kva) = h_refcount (read_header s kva) /\
    h_map_count (read_header s' kva) = h_map_count (read_header s kva) + 1.
Proof.
  intros H. unfold inc_map_count_at, Hdr.inc_map_count, Hdr.inc32. rewrite (proj2 (Z.ltb_lt _ _)) by done.
  rewrite !bind_Ret. eexists. split; [done|]. rewrite read_header_with, decide_True by done. split; [|done].
  by apply hdr_only_with.
Qed.

Lemma hdr_only_counts kva s s' x : hdr_only kva s s' -> x <> kva -> same_counts (read_header s x) (read_header s' x).
Proof. intros H Hx. by rewrite (ho_other _ _ _ H x Hx). Qed.

(** A reference to a registered PageSet fits its counter. *)
Lemma ref_room G D oB oD S k j e :
  sys_ok cfg G D oB oD S k -> table (k_mem k) !! j = Some (Some e) ->
  h_refcount (read_header (k_mem k) (e_header_kva e)) + 1 < 2 ^ 32 /\
  h_map_count (read_header (k_mem k) (e_header_kva e)) + 1 < 2 ^ 32.
Proof.
  intros K He. destruct (ok_counts _ _ _ _ _ _ _ K j e He) as [-> Hm].
  pose proof (refs_bound _ _ _ _ _ _ (e_header_kva e) K) as Hb.
  change (MAX_THREADS * HANDLE_SLOTS_PER_PAGE) with 130048 in Hb.
  assert (sum_procs (nmaps (e_header_kva e)) (k_procs k) <= sum_procs (nrefs (e_header_kva e)) (k_procs k)); [|lia].
  rewrite <- !(sum_visits _ _ _ _ _ _ _ _ K). induction (visits k) as [|q l IH]; cbn [sum_list]; [done|].
  destruct (k_procs k !! q) as [qr|]; [|lia]. pose proof (nmaps_le_nrefs (e_header_kva e) (p_table qr)). lia.
Qed.

Lemma same_tokens k x : next_token_of k x <= default 1 (k_next_token k !! x) <= next_token_of k x + 1.
Proof. unfold next_token_of. lia. Qed.

(** A new unmapped handle in an empty slot. *)
Lemma add_handle_spec G D oB oD S k p tgt pr i h rights j e tok :
  (forall x, next_token_of k x <= default 1 (tok !! x) <= next_token_of k x + 1) -> sys_ok cfg G D oB oD S k -> k_procs k !! tgt = Some pr -> p_table pr !! i = Some h -> h_kind h = HEmpty ->
  table (k_mem k) !! j = Some (Some e) -> table_step k p (p_table pr) (<[i := mkHandle rights (HPageSet (e_header_kva e) 0)]> (p_table pr)) tok ->
  exists s, inc_refcount_at (k_mem k) (e_header_kva e) = Ret s /\
    let k' := mkKernel s (k_pt k) (<[tgt := mkProc (p_ttbr0 pr) (<[i := mkHandle rights (HPageSet (e_header_kva e) 0)]> (p_table pr))]> (k_procs k))
      (k_threads k) (k_tcb_process k) tok in
    sys_ok cfg G D oB oD S k' /\ step_frame p tgt k k'.
Proof.
  intros Htok K Hp Hi Hk He Hts. destruct (ref_room _ _ _ _ _ _ _ _ K He) as [Hr _].
  destruct (inc_ref_spec _ _ Hr) as (s & E & Ho & Er & Em). exists s. split; [done|]. split.
  - destruct (ref_w_other (e_header_kva e) h ltac:(congruence)) as [W1 W2].
    destruct (ref_w_pageset (e_header_kva e) (mkHandle rights (HPageSet (e_header_kva e) 0)) (e_header_kva e) 0 eq_refl) as [N1 N2].
    rewrite decide_True in N1 by done. rewrite decide_False in N2 by tauto.
    eapply (sys_slot_change _ _ _ _ _ _ _ _ _ _ _ _ _ _ h _ (e_header_kva e)); try done; try lia.
    + by eapply hdr_only_inv; [|apply (ok_mem _ _ _ _ _ _ _ K)].
    + apply (ho_table _ _ _ Ho).
    + apply (ok_spaces _ _ _ _ _ _ _ K).
    + apply (ok_tables _ _ _ _ _ _ _ K).
    + intros x Hx. by eapply hdr_only_counts.
    + intros x Hx. destruct (ref_w_other x h ltac:(congruence)) as [-> ->].
      destruct (ref_w_pageset x (mkHandle rights (HPageSet (e_header_kva e) 0)) (e_header_kva e) 0 eq_refl) as [-> ->].
      by rewrite !decide_False by tauto.
    + intros kva mv [= <- <-]. exists j, e. split_and!; done || lia.
  - apply step_frame_slots; [done|by rewrite length_insert|done|done|done].
Qed.

Lemma give_handle_spec G D oB oD S k p pr j e on_full :
  sys_ok cfg G D oB oD S k -> k_procs k !! p = Some pr -> table (k_mem k) !! j = Some (Some e) ->
  (exists s, on_full (k_mem k) = Ret s /\ grown G S (with_mem k s)) ->
  exists r k', give_handle k p (e_header_kva e) on_full = Ret (r, k') /\ grown G S k' /\ step_frame p p k k'.
Proof.
  intros K Hp He (s & Ef & Kf). unfold give_handle. rewrite Hp. cbn [unwrap]. rewrite bind_Ret.
  destruct (ht_insert_cases (p_table pr) RIGHTS_RW (HPageSet (e_header_kva e) 0)) as [(i & h & Hi & Hk & ->)| ->]; [done| |].
  - destruct (add_handle_spec _ _ _ _ _ _ p p pr i h RIGHTS_RW j e (k_next_token k) (same_tokens k) K Hp Hi Hk He) as (s' & -> & K' & F).
    { apply ts_plain. right. eauto. }
    rewrite bind_Ret. do 2 eexists. split; [done|]. split; [|exact F]. by eapply grown_same.
  - rewrite Ef, bind_Ret, with_slots_id by done. do 2 eexists. split; [done|]. split; [done|apply step_frame_mem].
Qed.

(** ** Allocating calls *)

Lemma first_free_new G D oB oD S k id :
  sys_ok cfg G D oB oD S k -> table (k_mem k) !! id = Some None ->
  sum_procs (nrefs (slot_kva cfg (Z.of_nat id))) (k_procs k) = 0.
Proof.
  intros K Hn. eapply unregistered_zero; [done|]. intros j e Hj E.
  destruct (iv_entry _ _ _ _ _ _ _ (ok_mem _ _ _ _ _ _ _ K) j e Hj) as [Hk _]. rewrite Hk in E.
  apply slot_kva_inj in E. assert (j = id) by lia. congruence.
Qed.

(** A PageSet just registered. *)
Lemma sys_new G D oB oD S k oB' oD' id e s' :
  sys_ok cfg G D oB oD S k -> table (k_mem k) !! id = Some None ->
  table s' = <[id := Some e]> (table (k_mem k)) -> inv cfg G D None oB' oD' s' -> headers_kept cfg (k_mem k) s' (Ok id) ->
  sys_ok cfg G D oB' oD' S (with_mem k s').
Proof.
  intros K Hn Ht I' [Hk Hz].
  assert (table s' !! id = Some (Some e)) as Hid.
  { rewrite Ht. apply list_lookup_insert_eq. by eapply lookup_lt_Some. }
  destruct (iv_entry _ _ _ _ _ _ _ I' id e Hid) as [Ee _].
  eapply sys_mem_change; [done|done|apply (ok_tables _ _ _ _ _ _ _ K)| |].
  - intros j e' Hj. rewrite Ht in Hj. apply list_lookup_insert_Some in Hj as [(<- & E & _)|[_ Hj]].
    + right. injection E as <-. rewrite Ee. split; [by destruct (Hz id eq_refl)|]. by eapply first_free_new.
    + left. split; [done|]. destruct (iv_entry _ _ _ _ _ _ _ (ok_mem _ _ _ _ _ _ _ K) j e' Hj) as [-> _]. by rewrite (Hk j e').
  - intros j e' Hj. left. rewrite Ht, list_lookup_insert_ne; [done|]. intros ->. congruence.
Qed.

(** An allocation that failed. *)
Lemma sys_kept G D oB oD S k s' r :
  sys_ok cfg G D oB oD S k -> table s' = table (k_mem k) -> inv cfg G D None oB oD s' ->
  headers_kept cfg (k_mem k) s' r -> sys_ok cfg G D oB oD S (with_mem k s').
Proof.
  intros K Ht I' [Hk _]. eapply sys_mem_change; [done|done|apply (ok_tables _ _ _ _ _ _ _ K)| |].
  - intros j e Hj. rewrite Ht in Hj. left. split; [done|].
    destruct (iv_entry _ _ _ _ _ _ _ (ok_mem _ _ _ _ _ _ _ K) j e Hj) as [-> _]. by rewrite (Hk j e).
  - intros j e Hj. left. by rewrite Ht.
Qed.

(** A registration removed while no handle refers to it. *)
Lemma sys_drop G D oB oD S k oB' oD' j e s' :
  sys_ok cfg G D oB oD S k -> table (k_mem k) !! j = Some (Some e) ->
  sum_procs (nrefs (e_header_kva e)) (k_procs k) = 0 ->
  table s' = <[j := None]> (table (k_mem k)) -> inv cfg G D None oB' oD' s' -> headers s' = headers (k_mem k) ->
  sys_ok cfg G D oB' oD' S (with_mem k s').
Proof.
  intros K He Hz Ht I' Hh. eapply sys_mem_change; [done|done|apply (ok_tables _ _ _ _ _ _ _ K)| |].
  - intros i e' Hi. rewrite Ht in Hi. apply list_lookup_insert_Some in Hi as [(_ & E & _)|[_ Hi]]; [done|].
    left. split; [done|]. unfold read_header. by rewrite Hh.
  - intros i e' Hi. rewrite Ht. destruct (decide (i = j)) as [->|Hne].
    + right. rewrite He in Hi. by injection Hi as <-.
    + left. by rewrite list_lookup_insert_ne.
Qed.

(** Freeing a PageSet without handles. *)
Lemma sys_free (Hcfg : config_ok cfg) G D oB oD S k j e :
  sys_ok cfg G D oB oD S k -> table (k_mem k) !! j = Some (Some e) ->
  sum_procs (nrefs (e_header_kva e)) (k_procs k) = 0 ->
  exists s, free_by_header_kva cfg (k_mem k) (e_header_kva e) = Ret s /\ grown G S (with_mem k s).
Proof.
  intros K He Hz. pose proof (ok_mem _ _ _ _ _ _ _ K) as I.
  destruct (iv_entry _ _ _ _ _ _ _ I j e He) as [Ek _].
  destruct (free_by_header_kva_spec cfg Hcfg _ _ _ _ _ _ _ I He) as (s & E & [I' Ht _ _]). rewrite <- Ek in E.
  exists s. split; [done|]. eapply grown_same, sys_drop; try done. by eapply free_headers.
Qed.

Lemma new_pageset_spec (Hcfg : config_ok cfg) G D oB oD S k p pr (a : result nat AllocError * KMem) on_full :
  sys_ok cfg G D oB oD S k -> k_procs k !! p = Some pr -> headers_kept cfg (k_mem k) a.2 a.1 ->
  match a.1 with
  | Ok id => exists e oB' oD', table (k_mem k) !! id = Some None /\ table a.2 = <[id := Some e]> (table (k_mem k)) /\
      inv cfg G D None oB' oD' a.2
  | Err _ => table a.2 = table (k_mem k) /\ inv cfg G D None oB oD a.2
  end ->
  (forall j e oB' oD', a.1 = Ok j -> sys_ok cfg G D oB' oD' S (with_mem k a.2) -> table a.2 !! j = Some (Some e) ->
     sum_procs (nrefs (e_header_kva e)) (k_procs k) = 0 ->
     exists s, on_full (e_header_kva e) a.2 = Ret s /\ grown G S (with_mem (with_mem k a.2) s)) ->
  exists r k', new_pageset k p a on_full = Ret (r, k') /\ grown G S k' /\ step_frame p p k k'.
Proof.
  intros K Hp Hh Ha Hf. unfold new_pageset. destruct a as [[id|err] s1]; cbn [fst snd] in *.
  - destruct Ha as (e & oB' & oD' & Hn & Ht & I').
    assert (sys_ok cfg G D oB' oD' S (with_mem k s1)) as K1 by (by eapply sys_new).
    assert (table s1 !! id = Some (Some e)) as Hid.
    { rewrite Ht. apply list_lookup_insert_eq. by eapply lookup_lt_Some. }
    assert (get_pageset s1 (Z.of_nat id) = Some (e_count e, e_header_kva e)) as ->.
    { unfold get_pageset, Tbl.get. pose proof (lookup_lt_Some _ _ _ Hid) as Hlt. rewrite (iv_len _ _ _ _ _ _ _ I') in Hlt.
      rewrite (proj2 (Z.leb_gt _ _)), Nat2Z.id, Hid by lia. done. }
    destruct (iv_entry _ _ _ _ _ _ _ I' id e Hid) as [Ee _].
    destruct (give_handle_spec _ _ _ _ _ _ p pr id e (on_full (e_header_kva e)) K1 Hp Hid) as (r & k' & E & Kk & F).
    { eapply (Hf id); try done. rewrite Ee. by eapply first_free_new. }
    exists r, k'. split; [done|]. split; [done|]. destruct F as [F1 F2 F3 F4 F5]. constructor; try done.
    intros pr0 Hp0. destruct (F3 pr0 Hp0) as (sl & ? & ? & ?%ts_mem). by exists sl.
  - destruct Ha as [Ht I']. do 2 eexists. split; [done|]. split; [|apply step_frame_mem].
    eapply grown_same. by eapply sys_kept.
Qed.

Lemma sys_alloc_pages_spec (Hcfg : config_ok cfg) G D oB oD S k p pr count flags :
  sys_ok cfg G D oB oD S k -> k_procs k !! p = Some pr -> 0 <= count ->
  exists r k', sys_alloc_pages cfg k p count flags = Ret (r, k') /\ grown G S k' /\ step_frame p p k k'.
Proof.
  intros K Hp Hc. pose proof (ok_mem _ _ _ _ _ _ _ K) as I. unfold sys_alloc_pages.
  destruct (negb (Z.land flags (not_w 64 ALLOC_FLAG_CONTIGUOUS) =? 0)).
  { do 2 eexists. split; [done|]. split; [by eapply grown_same|apply step_frame_refl]. }
  destruct (negb (Z.land flags ALLOC_FLAG_CONTIGUOUS =? 0)).
  - destruct (alloc_pages_contiguous_spec cfg Hcfg _ _ _ _ _ count I Hc) as (r & s1 & E & Hpost).
    rewrite E, bind_Ret. eapply new_pageset_spec; try done.
    + by eapply alloc_contig_headers.
    + destruct r as [id|[]]; simpl in Hpost; cbn [fst snd]; try done.
      * destruct Hpost as (o & b & _ & _ & _ & Hn & Ht & _ & I' & _). eauto 10.
      * by destruct Hpost as [_ ->].
      * by destruct Hpost as [_ ->].
      * destruct Hpost as (o & _ & _ & I' & Ht & _). done.
    + intros j e oB' oD' _ K1 He Hz. by eapply (sys_free Hcfg _ _ _ _ _ (with_mem k s1)).
  - destruct (alloc_pages_spec cfg Hcfg _ _ _ _ _ count I Hc) as (r & s1 & E & Hpost).
    rewrite E, bind_Ret. eapply new_pageset_spec; try done.
    + by eapply alloc_pages_headers.
    + destruct r as [id|[]]; simpl in Hpost; cbn [fst snd]; try done.
      * destruct Hpost as (Hn & Ht & _ & _ & _ & L & I' & _). eauto 10.
      * by destruct Hpost as [_ ->].
      * by destruct Hpost as [_ ->].
      * by destruct Hpost as (_ & I' & Ht & _).
    + intros j e oB' oD' _ K1 He Hz. by eapply (sys_free Hcfg _ _ _ _ _ (with_mem k s1)).
Qed.

Lemma sys_alloc_dma_pages_spec (Hcfg : config_ok cfg) G D oB oD S k p pr count :
  sys_ok cfg G D oB oD S k -> k_procs k !! p = Some pr -> 0 <= count ->
  exists r k', sys_alloc_dma_pages cfg k p count = Ret (r, k') /\ grown G S k' /\ step_frame p p k k'.
Proof.
  intros K Hp Hc. pose proof (ok_mem _ _ _ _ _ _ _ K) as I. unfold sys_alloc_dma_pages.
  destruct (alloc_dma_pages_spec cfg Hcfg _ _ _ _ _ count I Hc) as (r & s1 & E & Hpost).
  rewrite E, bind_Ret. eapply new_pageset_spec; try done.
  - by eapply alloc_dma_headers.
  - destruct r as [id|[]]; simpl in Hpost; cbn [fst snd]; try done.
    + destruct Hpost as (Hn & Ht & _ & b & _ & I'). eauto 10.
    + by destruct Hpost as (_ & I' & Ht).
    + by destruct Hpost as [_ ->].
    + by destruct Hpost as (_ & I' & Ht).
  - intros j e oB' oD' _ K1 He Hz. by eapply (sys_free Hcfg _ _ _ _ _ (with_mem k s1)).
Qed.

Lemma sys_register_device_page_spec (Hcfg : config_ok cfg) G D oB oD S k p pr phys :
  sys_ok cfg G D oB oD S k -> k_procs k !! p = Some pr ->
  exists r k', sys_register_device_page cfg k p phys = Ret (r, k') /\ grown G S k' /\ step_frame p p k k'.
Proof.
  intros K Hp. pose proof (ok_mem _ _ _ _ _ _ _ K) as I. unfold sys_register_device_page, register_device_page.
  destruct (register_spec cfg _ _ _ _ _ [phys] I) as (r & s1 & E & Hpost); [done|]. cbn [length] in E.
  change (Z.of_nat 1) with 1 in E. rewrite E, bind_Ret. eapply new_pageset_spec; try done.
  - eapply register_headers; [done| |exact E]. unfold MAX_PRACTICAL_PAGES_PER_SET. lia.
  - destruct r as [id|[]]; simpl in Hpost; cbn [fst snd]; try done.
    + destruct Hpost as (Hn & Ht & _ & _ & I' & _). eauto 10.
    + by destruct Hpost as [_ ->].
  - cbn [fst snd]. intros j e oB' oD' -> K1 He Hz. pose proof (ok_mem _ _ _ _ _ _ _ K1) as I1. cbn [with_mem k_mem] in I1.
    destruct (iv_entry _ _ _ _ _ _ _ I1 j e He) as [Ek _]. simpl in Hpost. destruct Hpost as (Hn & Ht & _).
    assert (e_origin e = ExternallyOwned) as Eo.
    { rewrite Ht, list_lookup_insert_eq in He by (by eapply lookup_lt_Some). by injection He as <-. }
    pose proof (iv_pages _ _ _ _ _ _ _ I1 j) as Hpg. unfold slot_ok in Hpg. rewrite He in Hpg. cbn in Hpg.
    destruct Hpg as [_ Hpg]. rewrite Eo in Hpg. destruct Hpg as [EB ED].
    destruct (consume_release_spec cfg _ _ _ _ _ _ _ I1 He) as (s2 & E2 & Ht2 & I2). rewrite <- Ek in E2.
    exists s2. split; [done|]. rewrite EB, ED in I2. cbn [list_to_set] in I2. rewrite !union_empty_r_L in I2.
    eapply grown_same, (sys_drop _ _ _ _ _ (with_mem k s1)); try done.
    unfold free_header_page in E2. apply release_frame in E2 as [E2 _]. rewrite E2. apply consume_frame.
Qed.

Lemma sys_get_boot_info_spec G D oB oD S k p pr dtb_id :
  sys_ok cfg G D oB oD S k -> k_procs k !! p = Some pr ->
  exists r k', sys_get_boot_info k p dtb_id = Ret (r, k') /\ grown G S k' /\ step_frame p p k k'.
Proof.
  intros K Hp. unfold sys_get_boot_info, get_pageset, Tbl.get.
  assert (grown G S k) as Kk by (by eapply grown_same).
  destruct (MAX_PAGESETS <=? dtb_id); [do 2 eexists; split; [done|]; split; [done|apply step_frame_refl]|].
  destruct (mjoin (table (k_mem k) !! Z.to_nat dtb_id)) as [e|] eqn:E.
  2: { do 2 eexists; split; [done|]; split; [done|apply step_frame_refl]. }
  apply joined_lookup in E. eapply give_handle_spec; try done. exists (k_mem k). split; [done|]. by destruct k.
Qed.

(** ** Unmapping *)

(** The address spaces other than [r] map what they did. *)
Lemma view_frame G D oB oD S k m' S' p pr :
  sys_ok cfg G D oB oD S k -> k_procs k !! p = Some pr -> spaces_ok m' S' ->
  (forall r, is_Some (S !! r) -> is_Some (S' !! r)) ->
  (forall r' u, r' <> p_ttbr0 pr -> sview m' S' r' u = sview (k_pt k) S r' u) ->
  forall q qr u, q <> p -> k_procs k !! q = Some qr -> p_ttbr0 qr <> 0 -> 0 <= u < 2 ^ 18 ->
    page_at (arr_peek m') (p_ttbr0 qr) (u * 4096) = user_view k (p_ttbr0 qr) u.
Proof.
  intros K Hp Hs' HS Hv q qr u Hq Hqr Hr Hu.
  destruct (ok_root _ _ _ _ _ _ _ K q qr Hqr) as [|[a Ha]]; [done|]. destruct (HS (p_ttbr0 qr)) as [a' Ha']; [by eexists|].
  unfold user_view. rewrite (page_at_sview _ _ _ _ _ Hs' Ha' Hu).
  rewrite (page_at_sview _ _ _ _ _ (ok_spaces _ _ _ _ _ _ _ K) Ha Hu). apply Hv. intros E.
  apply Hq. by eapply (ok_root_inj _ _ _ _ _ _ _ K q p qr pr).
Qed.

(** The handle of a slot and its registration. *)
Lemma slot_entry G D oB oD S k p pr i h kva mv :
  sys_ok cfg G D oB oD S k -> k_procs k !! p = Some pr -> p_table pr !! i = Some h -> h_kind h = HPageSet kva mv ->
  exists j e, table (k_mem k) !! j = Some (Some e) /\ kva = e_header_kva e /\ 0 <= mv /\
    (mv <> 0 -> p_ttbr0 pr <> 0 /\ is_Some (S !! p_ttbr0 pr) /\ mv + e_count e <= 2 ^ 18) /\
    read_header_backed (k_mem k) kva = Ret (Hdr.backed (read_header (k_mem k) kva) (e_count e)) /\ 0 < e_count e /\
    1 <= h_refcount (read_header (k_mem k) kva) /\ (mv <> 0 -> 1 <= h_map_count (read_header (k_mem k) kva)).
Proof.
  intros K Hp Hi Hk. destruct (ok_handle _ _ _ _ _ _ _ K p pr i h kva mv Hp Hi Hk) as (j & e & Hj & <- & H0 & Hmv).
  pose proof (ok_mem _ _ _ _ _ _ _ K) as I. destruct (ok_counts _ _ _ _ _ _ _ K j e Hj) as [Cr Cm].
  pose proof (sum_procs_le (nrefs (e_header_kva e)) _ p pr Hp ltac:(intros; apply nrefs_nonneg)) as Lr.
  pose proof (sum_procs_le (nmaps (e_header_kva e)) _ p pr Hp ltac:(intros; apply nmaps_le_nrefs)) as Lm.
  pose proof (nrefs_pos _ _ _ _ _ Hi Hk). exists j, e. split_and!; try done.
  - intros Hne. destruct (Hmv Hne) as [Hr Hv]. split_and!; [done| |done]. by destruct (ok_root _ _ _ _ _ _ _ K p pr Hp).
  - unfold read_header_backed. by rewrite (trusted_layout_entry _ _ _ _ _ _ _ _ _ I Hj).
  - by apply (iv_entry _ _ _ _ _ _ _ I j e Hj).
  - lia.
  - intros Hne. enough (0 < nmaps (e_header_kva e) (p_table pr)) by lia. rewrite nmaps_actions.
    assert (mkAction (negb (mv =? 0)) mv (HPageSet (e_header_kva e) mv) ∈ mapped_actions (e_header_kva e) (p_table pr)) as Hin.
    { unfold mapped_actions. apply list_elem_of_filter. split; [|apply action_slot; eauto 10]. cbn. by destruct (Z.eqb_spec mv 0). }
    destruct (mapped_actions _ _); [by apply elem_of_nil in Hin|]. cbn [length]. lia.
Qed.

Lemma unmap_call_spec G D oB oD S k p pr mv es :
  sys_ok cfg G D oB oD S k -> k_procs k !! p = Some pr -> is_Some (S !! p_ttbr0 pr) ->
  0 <= mv -> mv + Z.of_nat (length es) <= 2 ^ 18 ->
  exists res m, unmap_validated (p_ttbr0 pr) (Z.shiftl mv 12) es (k_pt k) = Ret (res, m) /\ spaces_ok m S /\
    (forall r' u, r' <> p_ttbr0 pr -> sview m S r' u = sview (k_pt k) S r' u) /\
    (forall err, res = Err err -> m = k_pt k).
Proof.
  intros K Hp [a Ha] H0 Hb. rewrite Z.shiftl_mul_pow2 by lia. change (2 ^ 12) with 4096.
  destruct (unmap_validated_spec (k_pt k) S (p_ttbr0 pr) a mv es (ok_spaces _ _ _ _ _ _ _ K) Ha H0 ltac:(lia))
    as (res & m & E & Hs & H). exists res, m. split_and!; try done.
  - intros r' u Hr. destruct res as [u'|err]; [|by destruct H as [-> _]].
    destruct H as [_ Hv]. rewrite (view_upd_sview _ _ _ _ _ _ _ _ Ha Hv). by rewrite decide_False.
  - intros err ->. by destruct H as [-> _].
Qed.

Lemma dec_map_alive h : 1 <= h_map_count h -> 1 <= h_refcount h ->
  Hdr.dec_map_count h = Ret (false, mkHeader (h_count h) (h_header_pages h) (h_refcount h) (h_map_count h - 1)
    (h_origin_raw h) (h_pages h)).
Proof.
  intros Hm Hr. unfold Hdr.dec_map_count. rewrite (proj2 (Z.ltb_lt _ _)) by lia.
  cbn [assert]. rewrite bind_Ret. by rewrite (proj2 (Z.eqb_neq (h_refcount h) 0)), andb_false_r by lia.
Qed.

(** The result of a call that changed nothing. *)
Lemma unchanged {R} G D oB oD S k p (r : R) :
  sys_ok cfg G D oB oD S k ->
  exists r' k', Ret (r, k) = Ret (r', k') /\ grown G S k' /\ step_frame p p k k'.
Proof. intros K. exists r, k. split; [done|]. split; [by eapply grown_same|apply step_frame_refl]. Qed.

Lemma sys_unmap_pages_spec G D oB oD S k p pr handle va :
  sys_ok cfg G D oB oD S k -> k_procs k !! p = Some pr ->
  exists r k', sys_unmap_pages cfg k p handle va = Ret (r, k') /\ grown G S k' /\ step_frame p p k k'.
Proof.
  intros K Hp. unfold sys_unmap_pages. rewrite Hp. cbn [unwrap]. rewrite bind_Ret.
  unfold address_space. destruct (Z.eqb_spec (p_ttbr0 pr) 0) as [|Hr0]; [by eapply unchanged|].
  destruct (lookup _ _ _ _) as [[rights kind]|err] eqn:El; [|by eapply unchanged].
  apply lookup_ok in El as [Hi Hty]. cbn [h_kind] in *.
  destruct kind as [| | | | | | |kva mv]; try done. rewrite (ht_get_mapped_ok _ _ _ _ _ Hi).
  destruct (Z.eqb_spec mv 0) as [|Hmv]; [by eapply unchanged|].
  destruct (Z.eqb_spec va (Z.shiftl mv 12)) as [->|]; [cbn [negb]|by eapply unchanged].
  destruct (slot_entry _ _ _ _ _ _ _ _ _ _ _ _ K Hp Hi eq_refl) as (j & e & He & -> & H0 & Hm & -> & Hc & Hr & Hmc).
  destruct (Hm Hmv) as (_ & HS & Hb). rewrite bind_Ret. fold (frames (k_mem k) (e_header_kva e) (e_count e)).
  destruct (unmap_call_spec _ _ _ _ _ _ _ _ mv (frames (k_mem k) (e_header_kva e) (e_count e)) K Hp HS H0)
    as (res & m & -> & Hs & Hv & Herr); [rewrite frames_length; lia|].
  rewrite bind_Ret. destruct res as [u|err].
  2: { rewrite (Herr err eq_refl). assert (with_pt k (k_pt k) = k) as -> by (by destruct k). by eapply unchanged. }
  rewrite (ht_set_mapped_ok _ _ _ _ _ 0 Hi). cbn [snd].
  rewrite dec_map_alive, bind_Ret by (done || by apply Hmc). cbn [fst snd]. rewrite bind_Ret.
  do 2 eexists. split; [done|]. set (h := read_header (k_mem k) (e_header_kva e)) in *.
  set (s' := with_header _ _ _).
  assert (hdr_only (e_header_kva e) (k_mem k) s') as Ho by (by apply hdr_only_with).
  assert (read_header s' (e_header_kva e) = mkHeader (h_count h) (h_header_pages h) (h_refcount h) (h_map_count h - 1)
    (h_origin_raw h) (h_pages h)) as Hrd by (unfold s'; by rewrite read_header_with, decide_True).
  open_kernel. split.
  - eapply grown_same.
    assert (forall x b, let w := mkHandle rights (HPageSet (e_header_kva e) b) in
      ref_w x w = (if decide (x = e_header_kva e) then 1 else 0) /\
      map_w x w = (if decide (x = e_header_kva e /\ b <> 0) then 1 else 0)) as Hw by (intros; by apply ref_w_pageset).
    eapply (sys_slot_change _ _ _ _ _ _ _ _ _ _ _ _ _ _ _ _ (e_header_kva e) K Hp Hi); try done.
    + by eapply hdr_only_inv; [|apply (ok_mem _ _ _ _ _ _ _ K)].
    + apply (ok_tables _ _ _ _ _ _ _ K).
    + intros x Hx. by eapply hdr_only_counts.
    + rewrite Hrd. cbn [h_refcount]. destruct (Hw (e_header_kva e) mv) as [-> _], (Hw (e_header_kva e) 0) as [-> _]. fold h. lia.
    + rewrite Hrd. cbn [h_map_count]. destruct (Hw (e_header_kva e) mv) as [_ ->], (Hw (e_header_kva e) 0) as [_ ->].
      rewrite decide_True, decide_False by tauto. fold h. lia.
    + intros x Hx. destruct (Hw x mv) as [-> ->], (Hw x 0) as [-> ->]. by rewrite !(decide_False (P := x = _ /\ _)) by tauto.
    + intros kva' mv' [= <- <-]. exists j, e. split_and!; done || lia.
  - apply step_frame_slots; [done|by rewrite length_insert|by eapply view_frame|apply same_tokens|apply ts_plain; right; eauto].
Qed.
End Changes.
