(* ===== verification/SysSafe.v ===== *)
(** Safety of the page and handle system calls: each of them, on any
    arguments, returns without a panic to a kernel whose accounting holds and
    changes nothing of any other process; sequences of them therefore do
    too. *)
From Stdlib Require Import ZArith Lia.
From stdpp Require Import base option list gmap numbers sets fin_sets fin_maps.
From S2P Require Import Prelude Frames Buddy BuddyInv Pools FrameAlloc PageSet Ownership KPageSet HeaderFrame PageTable Vmem Handles Revoke SysPages.
Open Scope Z_scope.

Section Calls.
Context (cfg : Config) (Hcfg : config_ok cfg).

(** ** Closing *)

Lemma dec_ref_flag h : 1 <= h_refcount h ->
  Hdr.dec_refcount h = Ret ((h_refcount h - 1 =? 0) && (h_map_count h =? 0),
    mkHeader (h_count h) (h_header_pages h) (h_refcount h - 1) (h_map_count h) (h_origin_raw h) (h_pages h)).
Proof. intros H. unfold Hdr.dec_refcount. by rewrite (proj2 (Z.ltb_lt _ _)) by lia. Qed.

(** Dropping the reference of a closed handle, on a header already adjusted. *)
Lemma dec_and_free_spec G D oB oD S k s0 j e :
  let h := read_header s0 (e_header_kva e) in
  1 <= h_refcount h ->
  let s1 := with_header s0 (e_header_kva e)
    (mkHeader (h_count h) (h_header_pages h) (h_refcount h - 1) (h_map_count h) (h_origin_raw h) (h_pages h)) in
  sys_ok cfg G D oB oD S (with_mem k s1) -> table s1 !! j = Some (Some e) ->
  exists s, dec_refcount_and_maybe_free cfg s0 (e_header_kva e) = Ret s /\ grown cfg G S (with_mem k s).
Proof.
  intros h Hr s1 K He. unfold dec_refcount_and_maybe_free. fold h. rewrite dec_ref_flag, bind_Ret by done. cbn [fst snd].
  fold s1. destruct ((h_refcount h - 1 =? 0) && (h_map_count h =? 0)) eqn:E.
  - apply andb_true_iff in E as [E _]. destruct (sys_free cfg Hcfg _ _ _ _ _ _ j e K He) as (s & Es & Ks).
    + destruct (ok_counts _ _ _ _ _ _ _ K j e He) as [Hc _]. rewrite <- Hc. cbn [with_mem k_mem].
      unfold s1. rewrite read_header_with, decide_True by done. cbn [h_refcount]. lia.
    + exists s. split; [done|]. by destruct k.
  - exists s1. split; [done|]. by eapply grown_same.
Qed.

(** The slot emptied and the counters adjusted, before the PageSet is freed. *)
Lemma closed_ok G D oB oD S k m p pr i rights j e mv h' tok :
  sys_ok cfg G D oB oD S k -> k_procs k !! p = Some pr ->
  p_table pr !! i = Some (mkHandle rights (HPageSet (e_header_kva e) mv)) -> table (k_mem k) !! j = Some (Some e) ->
  spaces_ok m S ->
  let h := read_header (k_mem k) (e_header_kva e) in
  h_pages h' = h_pages h -> h_origin_raw h' = h_origin_raw h -> h_refcount h' = h_refcount h - 1 ->
  h_map_count h' = h_map_count h - (if decide (mv = 0) then 0 else 1) ->
  sys_ok cfg G D oB oD S (mkKernel (with_header (k_mem k) (e_header_kva e) h') m
    (<[p := mkProc (p_ttbr0 pr) (<[i := EMPTY]> (p_table pr))]> (k_procs k)) (k_threads k) (k_tcb_process k) tok).
Proof.
  intros K Hp Hi He Hs h Hpg Ho Hr Hm. set (s' := with_header _ _ _).
  assert (hdr_only (e_header_kva e) (k_mem k) s') as HO by (by apply hdr_only_with).
  assert (read_header s' (e_header_kva e) = h') as Hrd by (unfold s'; by rewrite read_header_with, decide_True).
  assert (forall x, ref_w x EMPTY = 0 /\ map_w x EMPTY = 0) as H0 by (intros x; by apply ref_w_other).
  pose proof (fun x => ref_w_pageset x (mkHandle rights (HPageSet (e_header_kva e) mv)) _ _ eq_refl) as Hw.
  eapply (sys_slot_change _ _ _ _ _ _ _ _ _ _ _ _ _ _ _ _ _ (e_header_kva e) K Hp Hi); try done.
  - by eapply hdr_only_inv; [|apply (ok_mem _ _ _ _ _ _ _ K)].
  - apply (ok_tables _ _ _ _ _ _ _ K).
  - intros x Hx. by eapply hdr_only_counts.
  - rewrite Hrd, Hr. destruct (H0 (e_header_kva e)) as [-> _], (Hw (e_header_kva e)) as [-> _].
    rewrite decide_True by done. fold h. lia.
  - rewrite Hrd, Hm. destruct (H0 (e_header_kva e)) as [_ ->], (Hw (e_header_kva e)) as [_ ->]. fold h.
    destruct (decide (mv = 0)); [rewrite decide_False by tauto|rewrite decide_True by tauto]; lia.
  - intros x Hx. destruct (H0 x) as [-> ->], (Hw x) as [-> ->]. by rewrite !decide_False by tauto.
Qed.

Lemma sys_close_handle_spec G D oB oD S k p pr handle :
  sys_ok cfg G D oB oD S k -> k_procs k !! p = Some pr ->
  exists r k', sys_close_handle cfg k p handle = Ret (r, k') /\ grown cfg G S k' /\ step_frame p p k k'.
Proof.
  intros K Hp. unfold sys_close_handle. rewrite Hp. cbn [unwrap]. rewrite bind_Ret.
  destruct (lookup_any _ _ _) as [[rights kind]|err] eqn:El; [|by eapply unchanged].
  apply lookup_any_ok in El as [Hi Hne]. unfold decide_close_handle. cbn [h_kind].
  assert (forall f, remove_then k p (wrap 32 handle) pr f =
    (s ← f (k_mem k); Ret (OK, with_slots (with_mem k s) p pr (<[Z.to_nat (wrap 32 handle) := EMPTY]> (p_table pr))))) as Hrem.
  { intros f. unfold remove_then. by rewrite (ht_remove_ok _ _ _ Hi Hne). }
  assert ((forall kva mv, kind <> HPageSet kva mv) ->
    exists r k', remove_then k p (wrap 32 handle) pr Ret = Ret (r, k') /\ grown cfg G S k' /\ step_frame p p k k') as Hother.
  { intros Hk. rewrite Hrem, bind_Ret. do 2 eexists. split; [done|]. open_kernel. split.
    - eapply grown_same. pose proof (fun x => ref_w_other x (mkHandle rights kind) Hk) as Hw.
      assert (forall x, ref_w x EMPTY = 0 /\ map_w x EMPTY = 0) as H0 by (intros x; by apply ref_w_other).
      eapply (sys_slot_change _ _ _ _ _ _ _ _ _ _ _ _ _ _ _ _ _ 0 K Hp Hi); try done.
      + apply (ok_mem _ _ _ _ _ _ _ K).
      + apply (ok_spaces _ _ _ _ _ _ _ K).
      + apply (ok_tables _ _ _ _ _ _ _ K).
      + destruct (Hw 0) as [-> _], (H0 0) as [-> _]. lia.
      + destruct (Hw 0) as [_ ->], (H0 0) as [_ ->]. lia.
    - apply step_frame_slots; [done|by rewrite length_insert|done|apply same_tokens|apply ts_plain; by left]. }
  destruct kind as [| | | | | | |kva mv]; try (apply Hother; done); [done|]. clear Hother.
  destruct (slot_entry _ _ _ _ _ _ _ _ _ _ _ _ _ K Hp Hi eq_refl) as (j & e & He & -> & H0 & Hm & Hb & Hc & Hr & Hmc).
  destruct (Z.eqb_spec mv 0) as [->|Hmv]; cbn [negb].
  - rewrite Hrem. set (k1 := mkKernel (k_mem k) (k_pt k) (<[p := mkProc (p_ttbr0 pr)
      (<[Z.to_nat (wrap 32 handle) := EMPTY]> (p_table pr))]> (k_procs k)) (k_threads k) (k_tcb_process k) (k_next_token k)).
    destruct (dec_and_free_spec G D oB oD S k1 (k_mem k) j e Hr) as (s & -> & Ks); [|done|].
    { apply (closed_ok G D oB oD S k (k_pt k) p pr _ rights j e 0); try done; [apply (ok_spaces _ _ _ _ _ _ _ K)|].
      rewrite decide_True by done. cbn. lia. }
    rewrite bind_Ret. do 2 eexists. split; [done|]. split; [exact Ks|].
    open_kernel. apply step_frame_slots; [done|by rewrite length_insert|done|apply same_tokens|apply ts_plain; by left].
  - destruct (Hm Hmv) as (Hr0 & HS & Hv). rewrite Hb, bind_Ret. unfold address_space.
    rewrite (proj2 (Z.eqb_neq _ _) Hr0). fold (frames (k_mem k) (e_header_kva e) (e_count e)).
    destruct (unmap_call_spec _ _ _ _ _ _ _ _ _ mv (frames (k_mem k) (e_header_kva e) (e_count e)) K Hp HS H0)
      as (res & m & -> & Hs & Hview & Herr); [rewrite frames_length; lia|].
    rewrite bind_Ret. destruct res as [u|err].
    2: { rewrite (Herr err eq_refl). assert (with_pt k (k_pt k) = k) as -> by (by destruct k). by eapply unchanged. }
    unfold remove_then. rewrite (ht_remove_ok _ _ _ Hi Hne). unfold dec_both_and_maybe_free. cbn [with_pt k_mem].
    rewrite dec_map_alive, bind_Ret by (done || by apply Hmc). cbn [snd].
    set (h := read_header (k_mem k) (e_header_kva e)) in *. set (s0 := with_header _ _ _).
    set (k1 := mkKernel (k_mem k) m (<[p := mkProc (p_ttbr0 pr)
      (<[Z.to_nat (wrap 32 handle) := EMPTY]> (p_table pr))]> (k_procs k)) (k_threads k) (k_tcb_process k) (k_next_token k)).
    assert (read_header s0 (e_header_kva e) = mkHeader (h_count h) (h_header_pages h) (h_refcount h) (h_map_count h - 1)
      (h_origin_raw h) (h_pages h)) as Hrd by (unfold s0; by rewrite read_header_with, decide_True).
    destruct (dec_and_free_spec G D oB oD S k1 s0 j e) as (s & -> & Ks); [by rewrite Hrd| |done|].
    { rewrite Hrd. cbn [h_count h_header_pages h_refcount h_map_count h_origin_raw h_pages].
      assert (forall x y, with_header (with_header (k_mem k) (e_header_kva e) x) (e_header_kva e) y =
        with_header (k_mem k) (e_header_kva e) y) as Hww.
      { intros x y. unfold with_header. cbn. by rewrite insert_insert_eq. }
      unfold s0. rewrite Hww. apply (closed_ok G D oB oD S k m p pr _ rights j e mv); try done. by rewrite decide_False. }
    rewrite bind_Ret. do 2 eexists. split; [done|]. split; [exact Ks|].
    open_kernel. apply step_frame_slots; [done|by rewrite length_insert|by eapply view_frame|apply same_tokens|apply ts_plain; by left].
Qed.

(** ** Exporting *)

(** A handle that is not to a PageSet, in an empty slot. *)
Lemma add_other_ok G D oB oD S k tgt pr i h new tok : sys_ok cfg G D oB oD S k -> k_procs k !! tgt = Some pr -> p_table pr !! i = Some h -> h_kind h = HEmpty ->
  (forall kva mv, h_kind new <> HPageSet kva mv) ->
  sys_ok cfg G D oB oD S (mkKernel (k_mem k) (k_pt k) (<[tgt := mkProc (p_ttbr0 pr) (<[i := new]> (p_table pr))]> (k_procs k)) (k_threads k) (k_tcb_process k) tok).
Proof.
  intros K Hp Hi Hk Hn. pose proof (fun x => ref_w_other x h ltac:(congruence)) as Wo. pose proof (fun x => ref_w_other x new Hn) as Wn.
  eapply (sys_slot_change _ _ _ _ _ _ _ _ _ _ _ _ _ _ _ _ _ 0 K Hp Hi); try done.
  - apply (ok_mem _ _ _ _ _ _ _ K).
  - apply (ok_spaces _ _ _ _ _ _ _ K).
  - apply (ok_tables _ _ _ _ _ _ _ K).
  - destruct (Wo 0) as [-> _], (Wn 0) as [-> _]. lia.
  - destruct (Wo 0) as [_ ->], (Wn 0) as [_ ->]. lia.
  - intros x _. destruct (Wo x) as [-> ->], (Wn x) as [-> ->]. done.
  - intros kva mv E. by destruct (Hn kva mv).
Qed.

Lemma add_other_spec G D oB oD S k p tgt pr i h new tok :
  (forall x, next_token_of k x <= default 1 (tok !! x) <= next_token_of k x + 1) ->
  sys_ok cfg G D oB oD S k -> k_procs k !! tgt = Some pr -> p_table pr !! i = Some h -> h_kind h = HEmpty ->
  (forall kva mv, h_kind new <> HPageSet kva mv) -> table_step k p (p_table pr) (<[i := new]> (p_table pr)) tok ->
  let k' := mkKernel (k_mem k) (k_pt k) (<[tgt := mkProc (p_ttbr0 pr) (<[i := new]> (p_table pr))]> (k_procs k))
      (k_threads k) (k_tcb_process k) tok in
  sys_ok cfg G D oB oD S k' /\ step_frame p tgt k k'.
Proof.
  intros Htok K Hp Hi Hk Hn Hts. split; [by eapply add_other_ok|]. apply step_frame_slots; [done|by rewrite length_insert|done|done|done].
Qed.

Lemma pageset_kind kind : (exists kva mv, kind = HPageSet kva mv) \/ forall kva mv, kind <> HPageSet kva mv.
Proof. destruct kind; try (right; done). left. eauto. Qed.

Lemma endpoint_kind kind : (exists kva t, kind = HEndpoint kva t) \/ forall kva t, kind <> HEndpoint kva t.
Proof. destruct kind; try (right; done). left. eauto. Qed.

Lemma with_tokens_self k : with_tokens k (k_next_token k) = k.
Proof. by destruct k. Qed.

Lemma tokens_changed G D oB oD S k tok :
  sys_ok cfg G D oB oD S k -> sys_ok cfg G D oB oD S (with_tokens k tok).
Proof. intros [? ? ? ? ? ? ? ? ? ? ?]. by constructor. Qed.

Lemma with_tokens_frame p tgt k tok :
  (forall x, next_token_of k x <= default 1 (tok !! x) <= next_token_of k x + 1) -> step_frame p tgt k (with_tokens k tok).
Proof. intros H. constructor; try done. intros pr Hp. exists (p_table pr). destruct pr. split; [done|]. split; [done|]. apply ts_same. intros x. apply H. Qed.

(** The handle of an export, in the caller's table. *)
Lemma insert_export_spec G D oB oD S k p q qr rights kind tok :
  sys_ok cfg G D oB oD S k -> k_procs k !! q = Some qr ->
  (forall x, next_token_of k x <= default 1 (tok !! x) <= next_token_of k x + 1) ->
  kind <> HEmpty -> (forall kva mv, kind = HPageSet kva mv -> exists j e, table (k_mem k) !! j = Some (Some e) /\ e_header_kva e = kva) ->
  (forall i, table_step k p (p_table qr) (<[i := mkHandle rights (clear_mapping kind)]> (p_table qr)) tok) ->
  exists r k', (match ht_insert (p_table qr) rights kind with
      | (Err e, slots) => Ret (Err e, with_slots (with_tokens k tok) q qr slots)
      | (Ok idx, slots) =>
          s ← match kind with HPageSet kva _ => inc_refcount_at (k_mem k) kva | _ => Ret (k_mem k) end;
          Ret (Ok idx, with_slots (with_mem (with_tokens k tok) s) q qr slots)
      end) = Ret (r, k') /\ grown cfg G S k' /\ step_frame p q k k'.
Proof.
  intros K Hq Htok Hne Hps Hts. destruct (ht_insert_cases (p_table qr) rights kind Hne) as [(i & h & Hi & Hk & ->)| ->].
  - destruct (pageset_kind kind) as [(kva & mv & ->)|Hno'].
    + destruct (Hps _ _ eq_refl) as (j & e & He & <-). cbn [clear_mapping].
      destruct (add_handle_spec _ _ _ _ _ _ _ p q qr i h rights j e tok Htok K Hq Hi Hk He (Hts i)) as (s & -> & K' & F).
      rewrite bind_Ret. do 2 eexists. split; [done|]. split; [|exact F]. by eapply grown_same.
    + assert (clear_mapping kind = kind) as Ecm by (destruct kind; try done; by destruct (Hno' kva mapped_va_page)). rewrite Ecm in *.
      destruct (add_other_spec _ _ _ _ _ _ p q qr i h (mkHandle rights kind) tok Htok K Hq Hi Hk Hno' (Hts i)) as [K' F].
      eexists _, _. split; [|split; [by eapply grown_same|exact F]].
      destruct kind; try done. by destruct (Hno' kva mapped_va_page).
  - assert (with_slots (with_tokens k tok) q qr (p_table qr) = with_tokens k tok) as -> by (by apply with_slots_id).
    do 2 eexists. split; [done|]. split; [eapply grown_same; by apply tokens_changed|by apply with_tokens_frame].
Qed.

(** The process the caller of an export belongs to is [q]. *)
Lemma sys_export_handle_spec G D oB oD S k p pr q qr handle reply_kva caller_tcb :
  sys_ok cfg G D oB oD S k -> k_procs k !! p = Some pr ->
  (reply_kva <> 0 -> caller_tcb <> 0 -> k_tcb_process k !! caller_tcb = Some q /\ k_procs k !! q = Some qr) ->
  (forall x, 0 < next_token_of k x /\ next_token_of k x + 1 < 2 ^ 64) ->
  exists r k', sys_export_handle k p handle reply_kva caller_tcb = Ret (r, k') /\ grown cfg G S k' /\ step_frame p q k k'.
Proof.
  intros K Hp Hq Htok. unfold sys_export_handle.
  assert (forall (r : result Z SyscallError), exists r' k', Ret (r, k) = Ret (r', k') /\ grown cfg G S k' /\ step_frame p q k k') as Hun.
  { intros r. exists r, k. split; [done|]. split; [by eapply grown_same|apply step_frame_refl]. }
  destruct (Z.eqb_spec reply_kva 0) as [|Hr]; [apply Hun|]. destruct (Z.eqb_spec caller_tcb 0) as [|Hc]; [apply Hun|].
  destruct (Hq Hr Hc) as [Et Hqr]. rewrite Hp. cbn [unwrap]. rewrite bind_Ret.
  destruct (lookup_any _ _ _) as [[rights kind]|err] eqn:El; [|apply Hun].
  apply lookup_any_ok in El as [Hi Hne]. cbn [h_kind h_rights].
  assert (kind <> HEmpty) as Hke by (intros ->; done).
  assert (forall kva mv, kind = HPageSet kva mv -> exists j e, table (k_mem k) !! j = Some (Some e) /\ e_header_kva e = kva) as Hps.
  { intros kva mv ->. destruct (slot_entry _ _ _ _ _ _ _ _ _ _ _ _ _ K Hp Hi eq_refl) as (j & e & He & -> & _). eauto. }
  destruct (endpoint_kind kind) as [(kva & t & ->)|Hno].
  - destruct (Htok kva) as [T0 T1]. cbn [export_kind_of]. unfold mint_caller_token, checked_add64.
    rewrite (proj2 (Z.eqb_neq _ _)) by lia. cbn [negb assert]. rewrite bind_Ret.
    rewrite (proj2 (Z.leb_le _ _)) by (unfold U64_MAX; lia). cbn [unwrap]. rewrite !bind_Ret. cbn [fst snd]. rewrite Et. cbn [unwrap].
    rewrite bind_Ret. cbn [with_tokens k_procs]. rewrite Hqr. cbn [unwrap]. rewrite bind_Ret.
    apply (insert_export_spec G D oB oD S k p q qr rights (HEndpoint kva (Some (next_token_of k kva)))
      (<[kva := next_token_of k kva + 1]> (k_next_token k))); try done; [|intros i; cbn [clear_mapping]; apply ts_mint with t; by eexists _, _, _].
    intros x. rewrite lookup_insert. unfold next_token_of. case_decide as E; [subst|]; cbn; lia.
  - assert (export_kind_of k kind = Ret (kind, k)) as ->.
    { destruct kind as [| | |kva t| | | |]; try done. by destruct (Hno kva t). }
    rewrite bind_Ret, Et. cbn [unwrap]. rewrite bind_Ret, Hqr. cbn [unwrap]. rewrite bind_Ret.
    pose proof (insert_export_spec _ _ _ _ _ _ p q qr rights kind (k_next_token k) K Hqr (same_tokens k) Hke Hps) as H.
    rewrite with_tokens_self in H. apply H. intros i. destruct (pageset_kind kind) as [(kva & mv & ->)|Hnp].
    + apply ts_plain. right. cbn. eauto.
    + replace (clear_mapping kind) with kind by (destruct kind; try done; by destruct (Hnp kva mapped_va_page)). apply ts_copy; [by eexists _, _, _|done].
Qed.

(** ** Queries *)

Lemma sys_query_pageset_phys_spec G D oB oD S k p pr handle page_index :
  sys_ok cfg G D oB oD S k -> k_procs k !! p = Some pr -> 0 <= page_index ->
  exists r, sys_query_pageset_phys k p handle page_index = Ret (r, k).
Proof.
  intros K Hp Hx. unfold sys_query_pageset_phys. rewrite Hp. cbn [unwrap]. rewrite bind_Ret.
  destruct (lookup _ _ _ _) as [[rights kind]|err] eqn:El; [|by eexists].
  apply lookup_ok in El as [Hi Hty]. cbn [h_kind] in *. destruct kind as [| | | | | | |kva mv]; try done.
  destruct (slot_entry _ _ _ _ _ _ _ _ _ _ _ _ _ K Hp Hi eq_refl) as (j & e & He & -> & _ & _ & -> & Hc & _).
  rewrite bind_Ret, Hdr.get_page_spec, bind_Ret; [destruct (page_index <? _); by eexists| |done].
  split; [|done]. cbn [Hdr.backed Hdr.bk_count]. by apply (iv_entry _ _ _ _ _ _ _ (ok_mem _ _ _ _ _ _ _ K) j e He).
Qed.

Lemma aligned_page va : 0 <= va -> (Z.land va 0xFFF =? 0) = true -> exists v, 0 <= v /\ va = v * 4096.
Proof.
  intros H0 H. change 0xFFF with (Z.ones 12) in H. rewrite Z.land_ones in H by lia. apply Z.eqb_eq in H.
  exists (va / 4096). change (2 ^ 12) with 4096 in H. pose proof (Z.div_mod va 4096). pose proof (Z.div_pos va 4096). lia.
Qed.

Lemma sys_query_mapping_spec k p pr va :
  k_procs k !! p = Some pr -> 0 <= va -> exists r, sys_query_mapping k p va = Ret (r, k).
Proof.
  intros Hp H0. unfold sys_query_mapping. destruct (Z.leb_spec USER_VA_END va) as [|Hlt]; [by eexists|]. cbn [orb].
  destruct (Z.land va 0xFFF =? 0) eqn:Ea; cbn [negb]; [|by eexists].
  destruct (aligned_page va H0 Ea) as (v & Hv & ->). rewrite Hp. cbn [unwrap]. rewrite bind_Ret.
  destruct (query_mapping_run_spec (arr_peek (k_pt k)) (p_ttbr0 pr) v) as (n & -> & _); [unfold USER_VA_END in Hlt; lia|].
  rewrite bind_Ret. by eexists.
Qed.

(** ** Mapping *)

Lemma kheld_image D oB oD s0 K s : kheld cfg D oB oD s0 K s ->
  exists G, K = set_map (frame_of cfg) G /\ inv cfg G D None oB oD s /\ frames_only s0 s.
Proof.
  intros (G & HK & I & F). exists G. split_and!; [|done|done]. apply set_eq. intros x. rewrite HK, elem_of_map. naive_solver.
Qed.

Lemma frames_subset G G' D oB oD D' oB' oD' s s' : inv cfg G D None oB oD s -> inv cfg G' D' None oB' oD' s' ->
  (set_map (frame_of cfg) G : gset Z) ⊆ set_map (frame_of cfg) G' -> forall idx, idx ∈ G -> idx ∈ G'.
Proof.
  intros I I' Hsub idx Hi. assert (Hf : frame_of cfg idx ∈ (set_map (frame_of cfg) G' : gset Z)) by (apply Hsub; by apply elem_of_map_2).
  apply elem_of_map in Hf as (x & E & Hx). apply frame_of_inj in E as ->; [done|done| |].
  - by apply (pt_G _ _ _ _ (iv_B _ _ _ _ _ _ _ I)).
  - by apply (pt_G _ _ _ _ (iv_B _ _ _ _ _ _ _ I')).
Qed.

(** Mapping a registered PageSet: the frames taken are held by the kernel, and
    nothing of any PageSet changes. *)
Lemma map_call_spec G D oB oD S k p pr j e v attr :
  sys_ok cfg G D oB oD S k -> k_procs k !! p = Some pr -> p_ttbr0 pr <> 0 -> table (k_mem k) !! j = Some (Some e) ->
  0 <= v -> v * 4096 < 2 ^ 64 ->
  exists res m s G' S', @map_pages_in_existing KMem (kframes cfg) (k_pt k) (k_mem k) (p_ttbr0 pr) (v * 4096)
      (Hdr.backed (read_header (k_mem k) (e_header_kva e)) (e_count e)) attr = Ret (res, m, s) /\
    inv cfg G' D None oB oD s /\ frames_only (k_mem k) s /\ spaces_ok m S' /\
    tables_held (set_map (frame_of cfg) G') S' /\ (forall r, is_Some (S !! r) -> is_Some (S' !! r)) /\
    (forall idx, idx ∈ G -> idx ∈ G') /\
    (forall r a' q, S' !! r = Some a' -> as_page r a' q -> (exists a, S !! r = Some a /\ as_page r a q) \/ ~ (q / 4096 ∈ (set_map (frame_of cfg) G : gset Z))) /\
    (forall r' u, r' <> p_ttbr0 pr -> sview m S' r' u = sview (k_pt k) S r' u) /\
    match res with Ok _ => v + e_count e <= 2 ^ 18 | Err _ => m = k_pt k /\ S' = S end.
Proof.
  intros K Hp Hr He H0 Hv. destruct (ok_root _ _ _ _ _ _ _ K p pr Hp) as [|[a Ha]]; [done|].
  destruct (iv_entry _ _ _ _ _ _ _ (ok_mem _ _ _ _ _ _ _ K) j e He) as (_ & Hc1 & Hc2).
  destruct (@map_pages_spec KMem (kframes cfg) (kheld cfg D oB oD (k_mem k)) (kheld_laws cfg D oB oD _ Hcfg)
    (k_pt k) S (p_ttbr0 pr) a (set_map (frame_of cfg) G) (k_mem k) v
    (Hdr.backed (read_header (k_mem k) (e_header_kva e)) (e_count e)) attr) as (res & m & s & E & H); try done.
  - apply (ok_spaces _ _ _ _ _ _ _ K).
  - exists G. split_and!; [|apply (ok_mem _ _ _ _ _ _ _ K)|done]. intros q. rewrite elem_of_map. naive_solver.
  - apply (ok_tables _ _ _ _ _ _ _ K).
  - exists res, m, s. destruct res as [u|err].
    + destruct H as (Hb & a' & L & Hs & Hh & Ht & Hm & _ & HL & _ & Hpg). destruct (kheld_image _ _ _ _ _ _ Hh) as (G' & EK & I & F).
      exists G', (<[p_ttbr0 pr := a']> S). rewrite <- EK. split_and!; try done.
      * intros r Hs'. apply lookup_insert_is_Some'. by right.
      * eapply (frames_subset _ _ _ _ _ _ _ _ _ _ (ok_mem _ _ _ _ _ _ _ K) I). intros x Hx. rewrite <- EK. by apply elem_of_union_l.
      * intros r a0 q [[<- <-]|[_ Hr']]%lookup_insert_Some Hq; [|left; by exists a0]. destruct (Hpg q Hq) as [Hq'|(x & Hx & ->)]; [left; by exists a|].
        right. rewrite Z.div_mul by done. by apply HL.
      * intros r' x Hr'. rewrite (Hm r' x). by rewrite decide_False by tauto.
    + destruct H as (-> & Hh & _). destruct (kheld_image _ _ _ _ _ _ Hh) as (G' & EK & I & F).
      exists G', S. rewrite <- EK. split_and!; try done.
      * apply (ok_spaces _ _ _ _ _ _ _ K).
      * apply (ok_tables _ _ _ _ _ _ _ K).
      * eapply (frames_subset _ _ _ _ _ _ _ _ _ _ (ok_mem _ _ _ _ _ _ _ K) I). intros x Hx. by rewrite <- EK.
      * intros r a0 q Hr' Hq. left. by exists a0.
Qed.

Lemma sys_map_pages_spec G D oB oD S k p pr handle va attr_reg :
  sys_ok cfg G D oB oD S k -> k_procs k !! p = Some pr -> 0 <= va < 2 ^ 64 ->
  exists r k', sys_map_pages cfg k p handle va attr_reg = Ret (r, k') /\ grown cfg G S k' /\ step_frame p p k k'.
Proof.
  intros K Hp [H0 H64]. unfold sys_map_pages. destruct (attr_from_raw attr_reg) as [attr|]; [|by eapply unchanged].
  destruct (Z.eqb_spec va 0) as [|Hva]; [by eapply unchanged|]. cbn [orb].
  destruct (Z.land va 0xFFF =? 0) eqn:Ea; cbn [negb]; [|by eapply unchanged].
  destruct (aligned_page va H0 Ea) as (v & Hv & ->). rewrite Hp. cbn [unwrap]. rewrite bind_Ret.
  unfold address_space. destruct (Z.eqb_spec (p_ttbr0 pr) 0) as [|Hr0]; [by eapply unchanged|].
  destruct (lookup _ _ _ _) as [[rights kind]|err] eqn:El; [|by eapply unchanged].
  apply lookup_ok in El as [Hi Hty]. cbn [h_kind] in *.
  destruct kind as [| | | | | | |kva mv]; try done. rewrite (ht_get_mapped_ok _ _ _ _ _ Hi).
  destruct (Z.eqb_spec mv 0) as [->|]; cbn [negb]; [|by eapply unchanged].
  destruct (slot_entry _ _ _ _ _ _ _ _ _ _ _ _ _ K Hp Hi eq_refl) as (j & e & He & -> & _ & _ & -> & Hc & Hr & _).
  rewrite bind_Ret. destruct (Hdr.origin _) as [o|]; [|by eapply unchanged].
  destruct (attr_allowed o attr); cbn [negb]; [|by eapply unchanged].
  destruct (map_call_spec _ _ _ _ _ _ _ _ _ _ v attr K Hp Hr0 He Hv H64)
    as (res & m & s & G' & S' & -> & I & F & Hs & Ht & HS & HG & HSn & Hsv & Hres). rewrite bind_Ret.
  pose proof F as (_ & _ & Fh & Ft).
  assert (forall x, read_header s x = read_header (k_mem k) x) as Hrd by (intros x; unfold read_header; by rewrite Fh).
  destruct res as [u|err].
  2:{ destruct Hres as [-> ->]. assert (with_pt (with_mem k s) (k_pt k) = with_mem k s) as -> by (by destruct k).
      do 2 eexists. split; [done|]. split; [|apply step_frame_mem]. exists G', D, oB, oD, S. split; [|by split].
      eapply sys_mem_change; try done; rewrite Ft; intros j' e' He'; [left|by left]. by rewrite Hrd. }
  rewrite (ht_set_mapped_ok _ _ _ _ _ _ Hi). cbn [snd].
  replace (wrap 32 (Z.shiftr (v * 4096) 12)) with v.
  2:{ rewrite Z.shiftr_div_pow2 by lia. change (2 ^ 12) with 4096. rewrite Z.div_mul by lia. unfold wrap. rewrite Z.mod_small; lia. }
  destruct (inc_map_spec s (e_header_kva e)) as (s1 & -> & Ho & Er & Em).
  { rewrite Hrd. by eapply ref_room. }
  rewrite bind_Ret. do 2 eexists. split; [done|]. rewrite Hrd in Er, Em. open_kernel. split.
  - exists G', D, oB, oD, S'. split; [|by split].
    assert (forall x b, let w := mkHandle rights (HPageSet (e_header_kva e) b) in
      ref_w x w = (if decide (x = e_header_kva e) then 1 else 0) /\
      map_w x w = (if decide (x = e_header_kva e /\ b <> 0) then 1 else 0)) as Hw by (intros; by apply ref_w_pageset).
    eapply (sys_slot_change _ _ _ _ _ _ _ _ _ _ _ _ _ _ _ _ _ (e_header_kva e) K Hp Hi); try done.
    + by eapply hdr_only_inv.
    + by rewrite (ho_table _ _ _ Ho).
    + intros x Hx. rewrite <- Hrd. by eapply hdr_only_counts.
    + rewrite Er. destruct (Hw (e_header_kva e) v) as [-> _], (Hw (e_header_kva e) 0) as [-> _]. lia.
    + rewrite Em. destruct (Hw (e_header_kva e) v) as [_ ->], (Hw (e_header_kva e) 0) as [_ ->].
      rewrite (decide_True (P := _ /\ v <> 0)), decide_False by (tauto || (split; [done|]; lia)). lia.
    + intros x Hx. destruct (Hw x v) as [-> ->], (Hw x 0) as [-> ->]. by rewrite !(decide_False (P := x = _ /\ _)) by tauto.
    + intros kva' mv' [= <- <-]. exists j, e. split_and!; done || lia.
  - apply step_frame_slots; [done|by rewrite length_insert|by eapply view_frame|apply same_tokens|apply ts_plain; right; eauto].
Qed.

(** ** Histories *)

(** The process whose handle table a call by [p] may change. *)
Definition target (k : Kernel) (p : Z) (c : Call) : Z :=
  match c with
  | ExportHandle _ _ caller_tcb => default p (k_tcb_process k !! caller_tcb)
  | _ => p
  end.

(** A call a running thread can make: its process lives, the registers hold
    64 bits, and the caller recorded in its reply object is a thread of a live
    process. *)
Definition call_ok (k : Kernel) (pc : Z * Call) : Prop :=
  is_Some (k_procs k !! pc.1) /\
  match pc.2 with
  | AllocPages count _ | AllocDmaPages count => 0 <= count
  | MapPages _ va _ => 0 <= va < 2 ^ 64
  | ExportHandle _ reply_kva caller_tcb =>
      reply_kva <> 0 -> caller_tcb <> 0 ->
      exists q, k_tcb_process k !! caller_tcb = Some q /\ is_Some (k_procs k !! q)
  | QueryPagesetPhys _ page_index => 0 <= page_index
  | QueryMapping va => 0 <= va
  | _ => True
  end.

Definition tokens_left (k : Kernel) (n : Z) : Prop := forall x, 0 < next_token_of k x /\ next_token_of k x + n < 2 ^ 64.

Lemma into_return_spec {A} (f : A -> SyscallReturn) m (P : Kernel -> Prop) :
  (exists r k', m = Ret (r, k') /\ P k') -> exists r k', into_return f m = Ret (r, k') /\ P k'.
Proof. intros (r & k' & -> & H). exists (f r), k'. done. Qed.

Lemma query_unchanged {R} G D oB oD S k p (m : outcome (R * Kernel)) :
  sys_ok cfg G D oB oD S k -> (exists r, m = Ret (r, k)) ->
  exists r k', m = Ret (r, k') /\ grown cfg G S k' /\ step_frame p p k k'.
Proof. intros K [r ->]. by eapply unchanged. Qed.

Lemma export_target G D oB oD S k p pr handle reply_kva caller_tcb :
  sys_ok cfg G D oB oD S k -> k_procs k !! p = Some pr -> tokens_left k 1 ->
  (reply_kva <> 0 -> caller_tcb <> 0 -> exists q, k_tcb_process k !! caller_tcb = Some q /\ is_Some (k_procs k !! q)) ->
  exists r k', sys_export_handle k p handle reply_kva caller_tcb = Ret (r, k') /\ grown cfg G S k' /\
    step_frame p (default p (k_tcb_process k !! caller_tcb)) k k'.
Proof.
  intros K Hp Ht Hq. destruct (k_tcb_process k !! caller_tcb) as [q|] eqn:Eq; cbn [default].
  - destruct (k_procs k !! q) as [qr|] eqn:Eqr; [by eapply sys_export_handle_spec|].
    unfold sys_export_handle. destruct (Z.eqb_spec reply_kva 0) as [|Hr]; [|destruct (Z.eqb_spec caller_tcb 0) as [|Hc]].
    1,2: do 2 eexists; split; [done|]; split; [by eapply grown_same|apply step_frame_refl].
    destruct (Hq Hr Hc) as (q' & [= <-] & [? ?]). congruence.
  - eapply (sys_export_handle_spec _ _ _ _ _ _ _ pr p pr); try done.
    intros Hr Hc. destruct (Hq Hr Hc) as (q' & ? & _). congruence.
Qed.

Lemma call_spec G D oB oD S k p c : sys_ok cfg G D oB oD S k -> call_ok k (p, c) -> tokens_left k 1 ->
  exists r k', handle_syscall cfg k p c = Ret (r, k') /\ grown cfg G S k' /\ step_frame p (target k p c) k k'.
Proof.
  intros K [[pr Hp] Hc] Ht. cbn [fst snd] in *.
  destruct c; cbn [handle_syscall target] in *; apply into_return_spec.
  - by eapply sys_alloc_pages_spec.
  - by eapply sys_alloc_dma_pages_spec.
  - by eapply sys_map_pages_spec.
  - by eapply export_target.
  - by eapply sys_get_boot_info_spec.
  - by eapply sys_register_device_page_spec.
  - eapply query_unchanged; [done|]. by eapply sys_query_pageset_phys_spec.
  - eapply query_unchanged; [done|]. by eapply sys_query_mapping_spec.
  - by eapply sys_close_handle_spec.
  - by eapply sys_unmap_pages_spec.
Qed.

(** A step keeps which processes live, so what a later call needs. *)
Lemma frame_live p tgt k k' q : step_frame p tgt k k' -> is_Some (k_procs k !! q) -> is_Some (k_procs k' !! q).
Proof.
  intros F [qr Hq]. destruct (decide (q = tgt)) as [->|].
  - destruct (sf_tgt _ _ _ _ F qr Hq) as (slots & -> & _). by eexists.
  - rewrite (sf_procs _ _ _ _ F q) by done. by eexists.
Qed.

Lemma frame_call_ok p tgt k k' pc : step_frame p tgt k k' -> call_ok k pc -> call_ok k' pc.
Proof.
  intros F [Hl Hc]. split; [by eapply frame_live|]. destruct (pc.2); try done.
  intros Hr Ht. destruct (Hc Hr Ht) as (q & Eq & Hq). exists q. destruct (sf_threads _ _ _ _ F) as [_ ->].
  split; [done|]. by eapply frame_live.
Qed.

Lemma frame_target p tgt k k' q c : step_frame p tgt k k' -> target k' q c = target k q c.
Proof. intros F. destruct c; try done. cbn. by destruct (sf_threads _ _ _ _ F) as [_ ->]. Qed.

Lemma frame_tokens p tgt k k' n : step_frame p tgt k k' -> tokens_left k (n + 1) -> tokens_left k' n.
Proof. intros F Ht x. pose proof (sf_tokens _ _ _ _ F x). specialize (Ht x). lia. Qed.

(** What one history leaves alone of a process it does not run and does not
    export to. *)
Definition kept_proc (q : Z) (k k' : Kernel) : Prop :=
  k_procs k' !! q = k_procs k !! q /\
  forall qr u, k_procs k !! q = Some qr -> p_ttbr0 qr <> 0 -> 0 <= u < 2 ^ 18 ->
    user_view k' (p_ttbr0 qr) u = user_view k (p_ttbr0 qr) u.

Lemma run_spec cs : forall k, kernel_ok cfg k -> Forall (call_ok k) cs -> tokens_left k (Z.of_nat (length cs)) ->
  exists rs k', run_calls cfg k cs = Ret (rs, k') /\ length rs = length cs /\ kernel_ok cfg k' /\
    k_threads k' = k_threads k /\ k_tcb_process k' = k_tcb_process k /\
    forall q, Forall (fun pc => pc.1 <> q /\ target k pc.1 pc.2 <> q) cs -> kept_proc q k k'.
Proof.
  induction cs as [|[p c] cs IH]; intros k Kk Hok Ht; cbn [run_calls].
  { exists [], k. split_and!; try done. }
  apply Forall_cons in Hok as [Hc Hcs]. cbn [length] in Ht. rewrite Nat2Z.inj_succ in Ht.
  destruct Kk as (G & D & oB & oD & S & K). destruct (call_spec _ _ _ _ _ k p c K Hc) as (r & k1 & -> & K1 & F); [intros x; specialize (Ht x); lia|].
  rewrite bind_Ret. cbn [fst snd].
  destruct (IH k1 (grown_ok _ _ _ _ K1)) as (rs & k' & -> & Hl & K' & Et & Ed & Hk).
  { eapply Forall_impl; [exact Hcs|]. intros pc. by eapply frame_call_ok. }
  { eapply frame_tokens; [exact F|]. exact Ht. }
  rewrite bind_Ret. exists (r :: rs), k'. split; [done|]. cbn [length]. split_and!; [by rewrite Hl|done| | |].
  - rewrite Et. apply (sf_threads _ _ _ _ F).
  - rewrite Ed. apply (sf_threads _ _ _ _ F).
  - intros q [[Hp Hq] Hall]%Forall_cons. cbn [fst snd] in *.
    destruct (Hk q) as [E1 E2].
    { eapply Forall_impl; [exact Hall|]. intros pc [? ?]. split; [done|]. by rewrite (frame_target _ _ _ _ _ _ F). }
    pose proof (sf_procs _ _ _ _ F q ltac:(congruence)) as E0. split; [congruence|].
    intros qr u Hqr Hr Hu. rewrite E2 by congruence. by eapply (sf_view _ _ _ _ F).
Qed.
End Calls.

(** * Theorems *)

(** C4: Safety of the page and handle system calls. From any kernel whose
    accounting holds (page ownership, reference and mapping counts, page
    tables, handle tables), every history of calls, by any live processes in
    any order and with any argument registers, runs to its end without a panic
    (no failed assertion, no counter overflow, no dangling PageSet, no broken
    page-table walk) and leaves a kernel whose accounting holds again. The one
    resource the kernel does not bound, the 64-bit caller-token counter of an
    endpoint, must not run out. *)
Theorem page_calls_safe cfg k cs :
  config_ok cfg -> kernel_ok cfg k -> Forall (call_ok k) cs -> tokens_left k (Z.of_nat (length cs)) ->
  exists rs k', run_calls cfg k cs = Ret (rs, k') /\ length rs = length cs /\ kernel_ok cfg k'.
Proof.
  intros C K Hc Ht. destruct (run_spec cfg C cs k K Hc Ht) as (rs & k' & E & Hl & K' & _). eauto.
Qed.

(** C5: Isolation. A process that makes none of a history's calls and is
    exported no handle finds its handle table and everything it can read
    through its address space mapped as before, whatever the others did. *)
Theorem page_calls_isolated cfg k cs q :
  config_ok cfg -> kernel_ok cfg k -> Forall (call_ok k) cs -> tokens_left k (Z.of_nat (length cs)) ->
  Forall (fun pc => pc.1 <> q /\ target k pc.1 pc.2 <> q) cs ->
  exists rs k', run_calls cfg k cs = Ret (rs, k') /\ kept_proc q k k' /\
    k_threads k' = k_threads k /\ k_tcb_process k' = k_tcb_process k.
Proof.
  intros C K Hc Ht Hq. destruct (run_spec cfg C cs k K Hc Ht) as (rs & k' & E & _ & _ & ? & ? & H). eauto 10.
Qed.

(** ** Witnesses *)

Definition idle_proc : Proc := mkProc 0 (replicate 4 EMPTY).
Definition with_idle (k : Kernel) (tcb p : Z) : Kernel :=
  mkKernel (k_mem k) (k_pt k) (<[p := idle_proc]> (k_procs k)) (Some tcb :: k_threads k) (<[tcb := p]> (k_tcb_process k)) (k_next_token k).

(** A further process without an address space and without handles. *)
Lemma sys_idle cfg G D oB oD S k tcb p :
  sys_ok cfg G D oB oD S k -> k_procs k !! p = None -> p <> 0 -> k_tcb_process k !! tcb = None ->
  Z.of_nat (length (k_threads k)) < MAX_THREADS -> sys_ok cfg G D oB oD S (with_idle k tcb p).
Proof.
  intros K Hp H0 Ht Hl. pose proof K as [? ? ? ? ? ? ? ? ? ? ?].
  assert (forall t, Some t ∈ k_threads k -> t <> tcb) as Hne.
  { intros t Hin ->. destruct (ok_tcb tcb Hin). congruence. }
  constructor; try done; cbn [with_idle k_mem k_pt k_procs k_threads k_tcb_process].
  - cbn [length]. lia.
  - intros t [[= ->]|Hin]%elem_of_cons; [by rewrite lookup_insert_eq|].
    rewrite lookup_insert_ne by (intros <-; by apply (Hne tcb)). by apply ok_tcb.
  - intros q. assert (procs_of (<[tcb := p]> (k_tcb_process k)) (Some tcb :: k_threads k) =
      p :: procs_of (k_tcb_process k) (k_threads k)) as ->.
    { unfold procs_of. cbn. rewrite lookup_insert_eq. f_equal. clear -Hne. induction (k_threads k) as [|[t|] l IH]; [done| |].
      - cbn. rewrite lookup_insert_ne by (intros <-; apply (Hne tcb); [by left|done]).
        rewrite IH; [done|]. intros t' Hin. apply Hne. by right.
      - apply IH. intros t' Hin. apply Hne. by right. }
    rewrite elem_of_cons, lookup_insert_is_Some, <- ok_live. destruct (decide (p = q)) as [<-|]; naive_solver.
  - intros q qr [[<- <-]|[_ Hq]]%lookup_insert_Some; [by left|by eapply ok_root].
  - intros q q' qr qr' [[<- <-]|[_ Hq]]%lookup_insert_Some [[<- <-]|[_ Hq']]%lookup_insert_Some; try done.
    by eapply ok_root_inj.
  - intros q qr [[<- <-]|[_ Hq]]%lookup_insert_Some; [done|by eapply ok_slots].
  - intros q qr i h kva mv [[<- <-]|[_ Hq]]%lookup_insert_Some Hi Hk; [|by eapply ok_handle].
    apply (lookup_replicate 4 EMPTY h i) in Hi as [-> _]. done.
  - intros j e He. destruct (ok_counts j e He) as [-> ->].
    rewrite !(sum_procs_delete _ (<[p := idle_proc]> (k_procs k)) p idle_proc) by apply lookup_insert_eq.
    rewrite delete_insert_id by done. done.
Qed.

(** The kernel right after the memory subsystems are up: no process yet. *)
Definition boot_kernel (b : BuddyAllocator) : Kernel := mkKernel (kboot b) ∅ ∅ [] ∅ ∅.

Lemma sys_boot cfg b f :
  config_ok cfg -> view b (total_pages (plat cfg)) f (fun _ => false) ->
  sys_ok cfg ∅ ∅ (fun _ => []) (fun _ => []) ∅ (boot_kernel b).
Proof.
  intros C [W T F A]. assert (inv cfg ∅ ∅ None (fun _ => []) (fun _ => []) (kboot b)) as I.
  { apply kboot_held; try done. intros x _ Hx. by rewrite A in Hx. }
  constructor; cbn [boot_kernel k_mem k_pt k_procs k_threads k_tcb_process]; try done.
  - intros tcb H. by apply elem_of_nil in H.
  - intros p. unfold procs_of. cbn. rewrite lookup_empty, elem_of_nil. split; [tauto|by intros [? ?]].
Qed.

Definition ex_history : list (Z * Call) :=
  [(78, AllocPages 1 0); (78, QueryPagesetPhys 0 0); (78, MapPages 0 4096 0); (78, CloseHandle 0)].

Lemma ex_two_procs : exists s e, sys_ok ex_cfg ex_held ∅ (fun _ => []) (fun _ => []) {[4096 := ex_as]}
  (with_idle (ex_kernel s (e_header_kva e) [5; 0]) 6 78).
Proof.
  destruct (ex_sys [5; 0]) as (s & i & e & Hc & He & Hf & K); [repeat constructor; lia|cbn; lia|].
  exists s, e. by apply sys_idle.
Qed.

Lemma ex_calls_ok s kva : Forall (call_ok (with_idle (ex_kernel s kva [5; 0]) 6 78)) ex_history.
Proof. repeat constructor; cbn [fst snd with_idle ex_kernel k_procs]; try lia; apply lookup_insert_is_Some; by left. Qed.

Lemma ex_tokens s kva : tokens_left (with_idle (ex_kernel s kva [5; 0]) 6 78) (Z.of_nat (length ex_history)).
Proof. intros x. unfold next_token_of. cbn [with_idle ex_kernel k_next_token]. rewrite lookup_empty. cbn. lia. Qed.

Lemma page_calls_safe_witness : exists k rs k', run_calls ex_cfg k ex_history = Ret (rs, k') /\ length rs = 4%nat.
Proof.
  destruct ex_two_procs as (s & e & K). eexists.
  destruct (page_calls_safe ex_cfg (with_idle (ex_kernel s (e_header_kva e) [5; 0]) 6 78) ex_history ex_cfg_ok
    (ex_intro _ _ (ex_intro _ _ (ex_intro _ _ (ex_intro _ _ (ex_intro _ _ K))))) (ex_calls_ok s (e_header_kva e)))
    as (rs & k' & E & Hl & _); [|by exists rs, k'].
  apply ex_tokens.
Defined.

Lemma page_calls_isolated_witness :
  exists k rs k', run_calls ex_cfg k ex_history = Ret (rs, k') /\ is_Some (k_procs k !! 77) /\ kept_proc 77 k k'.
Proof.
  destruct ex_two_procs as (s & e & K). eexists.
  destruct (page_calls_isolated ex_cfg (with_idle (ex_kernel s (e_header_kva e) [5; 0]) 6 78) ex_history 77 ex_cfg_ok
    (ex_intro _ _ (ex_intro _ _ (ex_intro _ _ (ex_intro _ _ (ex_intro _ _ K))))) (ex_calls_ok s (e_header_kva e)))
    as (rs & k' & E & Hk & _).
  - apply ex_tokens.
  - repeat constructor; cbn; lia.
  - exists rs, k'. split_and!; [done| |done]. by eexists.
Defined.
