(* ===== verification/DmaSync.v ===== *)
(** Cache maintenance for DMA: the line arithmetic (lockjaw-types/src/cache.rs),
    the kernel's maintenance loops (src/arch/aarch64/cache.rs) and the two sync
    system calls over a PageSet (src/syscall/handler.rs), with the theorem that
    a sync touches every line of the range asked for and no line outside the
    caller's PageSet. *)
From Stdlib Require Import ZArith Lia.
From stdpp Require Import base option list gmap numbers sets fin_sets fin_maps.
From S2P Require Import Prelude Buddy BuddyInv Pools FrameAlloc PageSet Ownership KPageSet HeaderFrame PageTable Vmem Handles Revoke SysPages SysSafe.
Open Scope Z_scope.

(** * Cache lines *)

Definition CACHE_LINE_BYTES : Z := 64.

Definition align_down_to_line (addr : Z) : Z := Z.land addr (not_w 64 (CACHE_LINE_BYTES - 1)).

Definition checked_align_up_to_line (e : Z) : option Z :=
  match checked_add64 e (CACHE_LINE_BYTES - 1) with
  | Some padded => Some (Z.land padded (not_w 64 (CACHE_LINE_BYTES - 1)))
  | None => None
  end.

Definition lines_covering (start len : Z) : option (Z * Z) :=
  if len =? 0 then Some (align_down_to_line start, 0) else
  match checked_add64 start len with
  | None => None
  | Some e =>
      match checked_align_up_to_line e with
      | None => None
      | Some line_end =>
          let line_start := align_down_to_line start in
          Some (line_start, (line_end - line_start) / CACHE_LINE_BYTES)
      end
  end.

(** The operand of each [dc] instruction the loop issues. *)
Inductive CacheOp := Civac (addr : Z) | Cvac (addr : Z).
Definition op_addr (o : CacheOp) : Z := match o with Civac a | Cvac a => a end.

Fixpoint line_loop (op : Z -> CacheOp) (n : nat) (addr : Z) : outcome (list CacheOp) :=
  match n with
  | O => Ret []
  | S n' =>
      addr' ← add_chk 64 addr CACHE_LINE_BYTES;
      l ← line_loop op n' addr';
      Ret (op addr :: l)
  end.

Definition maintain_range (op : Z -> CacheOp) (start_kva len : Z) : outcome (list CacheOp) :=
  match lines_covering start_kva len with
  | None => Panic PAssert
  | Some (line_start, line_count) =>
      if line_count =? 0 then Ret [] else line_loop op (Z.to_nat line_count) line_start
  end.

Definition invalidate_range : Z -> Z -> outcome (list CacheOp) := maintain_range Civac.
Definition clean_range : Z -> Z -> outcome (list CacheOp) := maintain_range Cvac.

(** * The system calls *)

Definition KERNEL_VA_OFFSET : Z := 0xFFFF000000000000.

(** The error code and the cache operations issued. *)
Definition dma_sync_common (k : Kernel) (p handle_reg offset len : Z) (for_cpu : bool)
  : outcome (SyscallError * list CacheOp) :=
  let handle := wrap 32 handle_reg in
  pr ← unwrap (k_procs k !! p);
  match lookup (p_table pr) handle RIGHT_READ OTPageSet with
  | Err e => Ret (e, [])
  | Ok entry =>
      match h_kind entry with
      | HPageSet header_kva _ =>
          header ← read_header_backed (k_mem k) header_kva;
          match Hdr.origin (Hdr.bk_header header) with
          | None => Ret (INVALID_HANDLE, [])
          | Some origin =>
              if negb (bool_decide (origin = DmaPool)) then Ret (INVALID_PARAMETER, []) else
              pageset_bytes ← mul_chk 64 (Hdr.bk_count header) PAGE_SIZE;
              match checked_add64 offset len with
              | None => Ret (INVALID_PARAMETER, [])
              | Some e =>
                  if pageset_bytes <? e then Ret (INVALID_PARAMETER, []) else
                  o ← Hdr.get_page header 0;
                  match o with
                  | None => Ret (OK, [])
                  | Some pa_base =>
                      kva_base ← add_chk 64 pa_base KERNEL_VA_OFFSET;
                      kva_start ← add_chk 64 kva_base offset;
                      ops ← (if for_cpu then invalidate_range kva_start len else clean_range kva_start len);
                      Ret (OK, ops)
                  end
              end
          end
      | _ => Ret (INVALID_HANDLE, [])
      end
  end.

Definition sys_dma_sync_for_cpu (k : Kernel) (p handle offset len : Z) : outcome (SyscallError * list CacheOp) :=
  dma_sync_common k p handle offset len true.
Definition sys_dma_sync_for_device (k : Kernel) (p handle offset len : Z) : outcome (SyscallError * list CacheOp) :=
  dma_sync_common k p handle offset len false.

(** * Lemmas *)

Definition line_of (a : Z) : Z := a / 64 * 64.

Lemma line_of_bound a : line_of a <= a < line_of a + 64.
Proof. unfold line_of. pose proof (Z.mod_pos_bound a 64). pose proof (Z.div_mod a 64). lia. Qed.

Lemma align_down_line a : word 64 a -> align_down_to_line a = line_of a.
Proof. intros H. unfold align_down_to_line. change (CACHE_LINE_BYTES - 1) with (2 ^ 6 - 1). by apply land_align_down. Qed.

(** The lines of a range that does not reach the end of the address space. *)
Lemma lines_covering_spec start len :
  0 <= start -> 0 <= len -> start + len + 63 < 2 ^ 64 ->
  lines_covering start len = Some (line_of start, if len =? 0 then 0 else (line_of (start + len + 63) - line_of start) / 64).
Proof.
  intros Hs Hl Hb. unfold lines_covering, checked_align_up_to_line, checked_add64, CACHE_LINE_BYTES, U64_MAX.
  rewrite align_down_line by (unfold word; lia). destruct (Z.eqb_spec len 0) as [|Hne]; [done|].
  rewrite (proj2 (Z.leb_le (start + len) _)) by lia. rewrite (proj2 (Z.leb_le (start + len + _) _)) by lia.
  change (64 - 1) with (2 ^ 6 - 1) at 2. rewrite land_align_down by (unfold word; lia). done.
Qed.

Lemma line_loop_spec op n addr :
  0 <= addr -> addr + 64 * Z.of_nat n < 2 ^ 64 ->
  line_loop op n addr = Ret ((fun i => op (addr + 64 * i)) <$> seqZ 0 (Z.of_nat n)).
Proof.
  revert addr. induction n as [|n IH]; intros addr H0 Hb; [done|]. cbn [line_loop].
  unfold add_chk, CACHE_LINE_BYTES. rewrite (proj2 (Z.ltb_lt _ _)) by lia. rewrite bind_Ret, IH, bind_Ret by lia.
  rewrite (seqZ_cons 0 (Z.of_nat (S n))) by lia. cbn [fmap list_fmap]. do 2 f_equal; [f_equal; lia|].
  replace (Z.pred (Z.of_nat (S n))) with (Z.of_nat n) by lia. change (Z.succ 0) with 1.
  rewrite <- (fmap_add_seqZ 1 0), <- list_fmap_compose. apply list_fmap_ext. intros i x _. cbn. f_equal. lia.
Qed.

(** The maintenance of a range is one operation for each line that meets it. *)
Lemma maintain_spec op start len :
  0 <= start -> 0 <= len -> start + len + 127 < 2 ^ 64 ->
  exists n, maintain_range op start len = Ret ((fun i => op (line_of start + 64 * i)) <$> seqZ 0 n) /\
    0 <= n /\ (len = 0 -> n = 0) /\ (0 < len -> line_of start + 64 * n = line_of (start + len + 63)).
Proof.
  intros Hs Hl Hb. pose proof (line_of_bound start). pose proof (line_of_bound (start + len + 63)).
  unfold maintain_range. rewrite lines_covering_spec by lia.
  destruct (Z.eqb_spec len 0) as [->|Hne]; [exists 0; cbn; split_and!; done || lia|].
  set (n := (line_of (start + len + 63) - line_of start) / 64).
  assert (line_of start + 64 * n = line_of (start + len + 63)) as Hn.
  { unfold n, line_of. rewrite <- Z.mul_sub_distr_r, Z.div_mul by lia. lia. }
  assert (0 <= line_of start) by (apply Z.mul_nonneg_nonneg; [by apply Z.div_pos|lia]).
  assert (0 < n) by lia. exists n. rewrite (proj2 (Z.eqb_neq n 0)) by lia.
  rewrite line_loop_spec by lia. rewrite Z2Nat.id by lia. split_and!; done || lia.
Qed.

(** A page-aligned buffer is made of whole lines, so the lines of a range of
    it stay inside. *)
Lemma maintain_within op base offset len bytes :
  0 <= base -> base mod 4096 = 0 -> bytes mod 4096 = 0 -> 0 <= offset -> 0 <= len -> offset + len <= bytes ->
  base + bytes + 127 < 2 ^ 64 ->
  exists ops, maintain_range op (base + offset) len = Ret ops /\
    (forall o, o ∈ ops -> exists a, o = op a /\ a mod 64 = 0 /\ base <= a /\ a + 64 <= base + bytes) /\
    (forall x, base + offset <= x < base + offset + len -> op (line_of x) ∈ ops).
Proof.
  intros Hb Hba Hbb Ho Hl Hle H64. destruct (maintain_spec op (base + offset) len) as (n & E & Hn0 & Hz & Hn); try lia.
  eexists. split; [exact E|]. clear E.
  assert (exists qb, base = 64 * qb) as [qb ->].
  { exists (64 * (base / 4096)). pose proof (Z.div_mod base 4096). lia. }
  assert (exists q, bytes = 64 * q) as [q ->].
  { exists (64 * (bytes / 4096)). pose proof (Z.div_mod bytes 4096). lia. }
  pose proof (line_of_bound (64 * qb + offset)) as B1. pose proof (line_of_bound (64 * qb + offset + len + 63)) as B2.
  unfold line_of in *. set (s := (64 * qb + offset) / 64) in *. set (e := (64 * qb + offset + len + 63) / 64) in *. split.
  - intros o (i & -> & Hi)%list_elem_of_fmap. apply elem_of_seqZ in Hi. exists (s * 64 + 64 * i).
    destruct (decide (len = 0)); [lia|]. specialize (Hn ltac:(lia)).
    split_and!; [done| |lia|lia]. replace (s * 64 + 64 * i) with ((s + i) * 64) by lia. apply Z.mod_mul. lia.
  - intros x Hx. specialize (Hn ltac:(lia)). pose proof (line_of_bound x) as B3. unfold line_of in B3.
    apply list_elem_of_fmap. exists (x / 64 - s). split; [f_equal; lia|]. apply elem_of_seqZ. lia.
Qed.

(** A DMA PageSet is contiguous and inside the pool. *)
Lemma dma_entry cfg G D oB oD s i e :
  inv cfg G D None oB oD s -> table s !! i = Some (Some e) -> e_origin e = DmaPool ->
  exists k, 0 <= k /\ k + e_count e <= Dma.DMA_POOL_PAGES /\
    arr_peek (h_pages (read_header s (e_header_kva e))) 0 = daddr_of cfg k.
Proof.
  intros I He Ho. destruct (iv_entry _ _ _ _ _ _ _ I i e He) as [Ek Hc].
  pose proof (iv_pages _ _ _ _ _ _ _ I i) as Hs. unfold slot_ok in Hs. rewrite He in Hs. cbn [mjoin option_join] in Hs.
  rewrite decide_False, <- Ek in Hs by done. destruct Hs as [_ Hs]. rewrite Ho in Hs.
  destruct Hs as (_ & _ & (k & Hk) & Hp). exists k.
  assert (forall x, k <= x < k + e_count e -> 0 <= x < Dma.DMA_POOL_PAGES) as Hin.
  { intros x Hx. assert (x ∈ oD i) as Hin by (rewrite Hk; apply elem_of_seqZ; lia).
    apply list_elem_of_lookup in Hin as [j Hj]. by apply (pt_own _ _ _ _ (iv_D _ _ _ _ _ _ _ I) i j). }
  pose proof (Hin k ltac:(lia)). pose proof (Hin (k + e_count e - 1) ltac:(lia)). split_and!; [lia|lia|].
  unfold pages in Hp. rewrite Hk, (seqZ_cons 0), (seqZ_cons k) in Hp by lia. by injection Hp.
Qed.

Lemma entry_origin cfg G D oB oD s i e :
  inv cfg G D None oB oD s -> table s !! i = Some (Some e) ->
  Hdr.origin (read_header s (e_header_kva e)) = Some (e_origin e).
Proof.
  intros I He. destruct (iv_entry _ _ _ _ _ _ _ I i e He) as [Ek _].
  pose proof (iv_pages _ _ _ _ _ _ _ I i) as Hs. unfold slot_ok in Hs. rewrite He in Hs. cbn [mjoin option_join] in Hs.
  rewrite decide_False, <- Ek in Hs by done. by destruct Hs.
Qed.

(** * Theorems *)

(** The instruction a sync issues. *)
Definition sync_op (for_cpu : bool) : Z -> CacheOp := if for_cpu then Civac else Cvac.

(** C33: Bounds of the DMA sync calls. On any registers a sync returns without
    a panic or an overflow. It either fails and issues no cache operation, or
    it names a DMA PageSet of the caller and a byte range inside it; then it
    issues the operation for every line of the range, and every line it
    touches lies wholly inside that PageSet, so no other memory is cleaned or
    invalidated. *)
Theorem dma_sync_bounds cfg k p pr handle offset len for_cpu :
  config_ok cfg -> kernel_ok cfg k -> k_procs k !! p = Some pr -> word 64 offset -> word 64 len ->
  dma_base cfg + Dma.DMA_POOL_PAGES * PAGE_SIZE < 2 ^ 48 ->
  exists err ops, dma_sync_common k p handle offset len for_cpu = Ret (err, ops) /\
    (err <> OK /\ ops = [] \/
     err = OK /\ exists i e rights mv base,
       p_table pr !! Z.to_nat (wrap 32 handle) = Some (mkHandle rights (HPageSet (e_header_kva e) mv)) /\
       table (k_mem k) !! i = Some (Some e) /\ e_origin e = DmaPool /\
       Hdr.get_page (Hdr.backed (read_header (k_mem k) (e_header_kva e)) (e_count e)) 0 = Ret (Some base) /\
       let kva := base + KERNEL_VA_OFFSET in
       (forall o, o ∈ ops -> exists a, o = sync_op for_cpu a /\ a mod 64 = 0 /\ kva <= a /\ a + 64 <= kva + e_count e * PAGE_SIZE) /\
       forall x, kva + offset <= x < kva + offset + len -> sync_op for_cpu (line_of x) ∈ ops).
Proof.
  intros C (G & D & oB & oD & S & K) Hp [Ho0 Ho] [Hl0 Hl] Hd. unfold dma_sync_common. rewrite Hp. cbn [unwrap]. rewrite bind_Ret.
  destruct (lookup _ _ _ _) as [[rights kind]|err] eqn:El.
  2:{ exists err, []. split; [done|]. left. split; [by eapply lookup_err|done]. }
  apply lookup_ok in El as [Hi Hty]. cbn [h_kind] in *. destruct kind as [| | | | | | |kva mv]; try done.
  destruct (slot_entry _ _ _ _ _ _ _ _ _ _ _ _ _ K Hp Hi eq_refl) as (j & e & He & -> & _ & _ & -> & Hc & _).
  rewrite bind_Ret. cbn [Hdr.backed Hdr.bk_header Hdr.bk_count].
  pose proof (ok_mem _ _ _ _ _ _ _ K) as I. destruct (iv_entry _ _ _ _ _ _ _ I j e He) as [_ [_ Hmax]].
  rewrite (entry_origin _ _ _ _ _ _ _ _ I He). case_bool_decide as Horg; cbn [negb]; [|by eexists _, _; split; [|left]].
  destruct (dma_entry _ _ _ _ _ _ _ _ I He Horg) as (n & Hn0 & Hn & Hbase).
  destruct (ck_dma _ C) as [Hd0 Hda]. change Dma.DMA_POOL_PAGES with 512 in *. unfold PAGE_SIZE in *.
  unfold mul_chk. rewrite (proj2 (Z.ltb_lt _ _)), bind_Ret by lia.
  unfold checked_add64, U64_MAX. destruct (Z.leb_spec (offset + len) 18446744073709551615); [|by eexists _, _; split; [|left]].
  destruct (Z.ltb_spec (e_count e * 4096) (offset + len)) as [|Hfit]; [by eexists _, _; split; [|left]|].
  assert (Hdr.get_page (Hdr.backed (read_header (k_mem k) (e_header_kva e)) (e_count e)) 0 = Ret (Some (daddr_of cfg n))) as Hg.
  { rewrite Hdr.get_page_spec; [|by split|done]. cbn [Hdr.backed Hdr.bk_count Hdr.bk_header].
    by rewrite (proj2 (Z.ltb_lt _ _)), Hbase by done. }
  rewrite Hg, bind_Ret. unfold daddr_of, PAGE_SIZE in *. set (base := dma_base cfg + n * 4096) in *.
  assert (base mod 4096 = 0) as Hal by (unfold base; by rewrite Z.mod_add).
  unfold add_chk, KERNEL_VA_OFFSET in *. rewrite (proj2 (Z.ltb_lt _ _)), bind_Ret by lia.
  rewrite (proj2 (Z.ltb_lt _ _)), bind_Ret by lia.
  destruct (maintain_within (sync_op for_cpu) (base + 0xFFFF000000000000) offset len (e_count e * 4096))
    as (ops & E & Hin & Hcov); try lia.
  { rewrite Zplus_mod, Hal. reflexivity. }
  { by apply Z.mod_mul. }
  { pose proof (Z.div_mod (dma_base cfg) 4096). unfold base. lia. }
  exists OK, ops. split; [destruct for_cpu; cbn in E; unfold invalidate_range, clean_range; by rewrite E, bind_Ret|].
  right. split; [done|]. exists j, e, rights, mv, base. done.
Qed.

(** ** A DMA buffer of two pages *)

Definition dma_cfg : Config := mkConfig (mkPlatform 4096 65536) 1048576 2097152.
Definition dma_boot : Kernel := with_idle (boot_kernel (mkBuddy ∅ ∅ 16 0)) 6 78.
Definition dma_kernel : Kernel :=
  match handle_syscall dma_cfg dma_boot 78 (AllocDmaPages 2) with Ret (_, k) => k | Panic _ => dma_boot end.

Lemma dma_cfg_ok : config_ok dma_cfg.
Proof. constructor; [constructor|]; done. Qed.

Lemma dma_boot_ok : kernel_ok dma_cfg dma_boot.
Proof.
  exists ∅, ∅, (fun _ => []), (fun _ => []), ∅. apply sys_idle; try done. eapply sys_boot; [apply dma_cfg_ok|].
  exact (init_view 16 ltac:(unfold MAX_PAGES; lia)).
Qed.

Lemma dma_kernel_ok : kernel_ok dma_cfg dma_kernel /\ is_Some (k_procs dma_kernel !! 78).
Proof.
  destruct dma_boot_ok as (G & D & oB & oD & S & K0). destruct (call_spec dma_cfg dma_cfg_ok _ _ _ _ _ dma_boot 78 (AllocDmaPages 2) K0) as (r & k & E & K & F).
  - split; [by eexists|]. cbn. lia.
  - intros x. unfold next_token_of. cbn [dma_boot with_idle boot_kernel k_next_token]. rewrite lookup_empty. cbn. lia.
  - unfold dma_kernel. rewrite E. split; [by eapply grown_ok|]. eapply frame_live; [exact F|]. by eexists.
Qed.

Lemma dma_sync_bounds_witness :
  exists err ops, dma_sync_common dma_kernel 78 0 100 200 true = Ret (err, ops) /\ err = OK /\ length ops = 4%nat /\
    forall o, o ∈ ops -> exists a, o = Civac a /\ a mod 64 = 0.
Proof.
  destruct dma_kernel_ok as [K [pr Hp]].
  destruct (dma_sync_bounds dma_cfg dma_kernel 78 pr 0 100 200 true) as (err & ops & E & H);
    [apply dma_cfg_ok|exact K|exact Hp|unfold word; lia|unfold word; lia|reflexivity|].
  assert (match dma_sync_common dma_kernel 78 0 100 200 true with
    | Ret (OK, l) => length l = 4%nat | _ => False end) as Hc by (vm_compute; reflexivity).
  rewrite E in Hc. destruct err; try (exfalso; exact Hc). exists OK, ops. split; [exact E|]. split; [reflexivity|]. split; [exact Hc|].
  destruct H as [[H _]|(_ & j & e & rights & mv & base & _ & _ & _ & _ & H & _)]; [exfalso; apply H; reflexivity|].
  intros o Ho. destruct (H o Ho) as (a & Ea & Ha & _). exists a. split; [exact Ea|exact Ha].
Defined.
