(* ===== verification/BootInfo.v ===== *)
(** The boot device tree as a PageSet: its page layout
    (lockjaw-types/src/dtb_layout.rs), its registration at boot (src/main.rs)
    and what [sys_get_boot_info] hands out over a history of calls. *)
From Stdlib Require Import ZArith Lia.
From stdpp Require Import base option list gmap numbers sets fin_sets fin_maps.
From S2P Require Import Prelude Buddy BuddyInv Pools FrameAlloc PageSet Ownership KPageSet HeaderFrame PageTable Vmem Handles Revoke SysPages SysSafe.
Open Scope Z_scope.

Record DtbLayout := mkLayout { first_page : Z; in_page_offset : Z; page_count : Z }.

Definition compute_layout (dtb_paddr content_size : Z) : outcome DtbLayout :=
  let in_page_offset := wrap 32 (Z.land dtb_paddr (PAGE_SIZE - 1)) in
  let first_page := containing_page (Z.land dtb_paddr (not_w 64 (PAGE_SIZE - 1))) in
  total_bytes ← add_chk 64 in_page_offset content_size;
  t ← add_chk 64 total_bytes PAGE_SIZE;
  Ret (mkLayout first_page in_page_offset ((t - 1) / PAGE_SIZE)).

(** The registration in [kernel_main]: the pages of the DTB, at most 16, as
    one PageSet. The id is stored for [dtb_pageset_id()], the offset for
    [dtb_in_page_offset()]. *)
Definition register_dtb (cfg : Config) (s : KMem) (dtb_paddr content_size : Z) : outcome (Z * Z * KMem) :=
  layout ← compute_layout dtb_paddr content_size;
  if 16 <? page_count layout then Panic PAssert else
  let dtb_pages := (fun i => add_pages (first_page layout) i) <$> seqZ 0 (page_count layout) in
  r ← register_existing cfg s (page_count layout) dtb_pages;
  match r with
  | (Ok dtb_ps_id, s') => Ret (Z.of_nat dtb_ps_id, in_page_offset layout, s')
  | (Err _, _) => Panic PUnwrap
  end.

(** The DTB layout recovers every byte. For a DTB anywhere in physical
    memory, byte [i] of it is at offset [(in_page_offset + i) mod 4096] of page
    [(in_page_offset + i) / 4096] of the span, that page is one of the
    [page_count] pages, and no page of the span is superfluous: the last one
    holds the last byte. *)
Theorem dtb_layout_recovers dtb_paddr content_size :
  0 <= dtb_paddr < 2 ^ 48 -> 0 < content_size < 2 ^ 48 ->
  exists l, compute_layout dtb_paddr content_size = Ret l /\ 0 <= in_page_offset l < PAGE_SIZE /\
    (forall i, 0 <= i < content_size ->
       let page := (in_page_offset l + i) / PAGE_SIZE in
       0 <= page < page_count l /\
       start_addr (add_pages (first_page l) page) + (in_page_offset l + i) mod PAGE_SIZE = dtb_paddr + i) /\
    (in_page_offset l + (content_size - 1)) / PAGE_SIZE = page_count l - 1.
Proof.
  intros Hd Hc. unfold compute_layout, PAGE_SIZE.
  replace (Z.land dtb_paddr (4096 - 1)) with (dtb_paddr mod 4096) by (change (4096 - 1) with (Z.ones 12); by rewrite Z.land_ones).
  change (4096 - 1) with (2 ^ 12 - 1). rewrite land_align_down by (unfold word; lia).
  change (2 ^ 12) with 4096. pose proof (Z.mod_pos_bound dtb_paddr 4096 ltac:(lia)) as Hm.
  pose proof (Z.div_mod dtb_paddr 4096 ltac:(lia)) as Hdm. unfold wrap. rewrite (Z.mod_small _ (2 ^ 32)) by lia.
  unfold add_chk. rewrite (proj2 (Z.ltb_lt _ _)), bind_Ret by lia. rewrite (proj2 (Z.ltb_lt _ _)), bind_Ret by lia.
  eexists. split; [done|]. cbn [first_page in_page_offset page_count]. split; [lia|].
  unfold containing_page, add_pages, start_addr, PAGE_SHIFT. rewrite Z.shiftr_div_pow2 by lia. change (2 ^ 12) with 4096.
  rewrite Z.div_mul by lia. set (o := dtb_paddr mod 4096) in *. set (f := dtb_paddr / 4096) in *.
  replace (o + content_size + 4096 - 1) with (o + (content_size - 1) + 1 * 4096) by lia. rewrite Z.div_add by lia.
  split; [|lia]. intros i Hi.
  assert (0 <= (o + i) / 4096 <= (o + (content_size - 1)) / 4096) as Hp.
  { split; [apply Z.div_pos; lia|]. apply Z.div_le_mono; lia. }
  assert ((o + (content_size - 1)) / 4096 <= (2 ^ 48 + 4096) / 4096) as Hp2 by (apply Z.div_le_mono; lia).
  change ((2 ^ 48 + 4096) / 4096) with 68719476737 in Hp2.
  split; [lia|]. assert (0 <= f < 2 ^ 36) by (unfold f; split; [apply Z.div_pos; lia|apply Z.div_lt_upper_bound; lia]).
  unfold wrap. rewrite Z.shiftl_mul_pow2 by lia. rewrite (Z.mod_small (f + _)) by lia.
  rewrite Z.mod_small by lia. pose proof (Z.div_mod (o + i) 4096 ltac:(lia)). lia.
Qed.

Lemma dtb_layout_recovers_witness :
  exists l, compute_layout 0x2eff1e00 512 = Ret l /\ in_page_offset l = 0xe00 /\ page_count l = 1 /\
    forall i, 0 <= i < 512 -> (in_page_offset l + i) / PAGE_SIZE < page_count l.
Proof.
  destruct (dtb_layout_recovers 0x2eff1e00 512) as (l & E & _ & H & _); [lia|lia|].
  exists l. split; [exact E|]. vm_compute in E. injection E as <-. split; [reflexivity|]. split; [reflexivity|].
  intros i Hi. destruct (H i Hi) as [[_ Hp] _]. exact Hp.
Defined.

(** ** Handing out the boot information *)

(** Two processes without address spaces, on the memory [register_dtb] left. *)
Definition boot_procs (s : KMem) : Kernel :=
  mkKernel s ∅ {[77 := idle_proc; 78 := idle_proc]} [Some 5; Some 6] {[5 := 77; 6 := 78]} ∅.

(** Process 77 asks for the boot information and closes the handle, process 78
    allocates a page of its own, and process 77 asks again. *)
Definition dtb_history (dtb_id dtb_offset : Z) : list (Z * Call) :=
  [(77, GetBootInfo dtb_id dtb_offset); (77, CloseHandle 0); (78, AllocPages 1 0); (77, GetBootInfo dtb_id dtb_offset)].

Definition boot_cfg : Config := mkConfig (mkPlatform 0x40000000 65536) 0x40100000 0.

(** C38: The boot information can name another process's memory. The DTB's
    PageSet is registered without a reference of the kernel's own, so the
    first handle to it that is closed frees it; its table slot is then taken
    by the next allocation of any process, and [sys_get_boot_info] gives every
    later caller a readable and writable handle to that process's pages. *)
Theorem boot_info_hands_out_foreign_pages :
  exists b dtb_id dtb_offset s rs k,
    add_range (mkBuddy ∅ ∅ 16 0) 0 16 = Ret b /\
    register_dtb boot_cfg (kboot b) 0x48000000 4096 = Ret (dtb_id, dtb_offset, s) /\
    run_calls boot_cfg (boot_procs s) (dtb_history dtb_id dtb_offset) = Ret (rs, k) /\
    match k_procs k !! 77, k_procs k !! 78 with
    | Some thief, Some owner =>
        p_table thief !! 0%nat = p_table owner !! 0%nat /\
        (exists kva, p_table thief !! 0%nat = Some (mkHandle RIGHTS_RW (HPageSet kva 0)) /\
           Hdr.origin (read_header (k_mem k) kva) = Some Buddy /\ h_refcount (read_header (k_mem k) kva) = 2)
    | _, _ => False
    end.
Proof.
  eexists _, _, _, _, _, _. split; [vm_compute; reflexivity|]. split; [vm_compute; reflexivity|].
  split; [vm_compute; reflexivity|]. vm_compute. split; [reflexivity|]. eexists. split; [reflexivity|]. split; reflexivity.
Qed.
