(* ===== verification/Sched.v ===== *)
(** The scheduler state machine (lockjaw-types/src/scheduler.rs): thread
    states, round-robin selection, the step of a CPU and the transitions the
    kernel calls. The invariant is the source's own [check_invariants]; the
    theorems are that every transition keeps it, what a step decides, and that
    no ready thread waits for more than a round of steps. *)
From Stdlib Require Import ZArith Lia.
From stdpp Require Import base option list numbers.
From S2P Require Import Prelude.
Open Scope nat_scope.

(** * States and decisions *)

Inductive SchedThreadState := Ready | Running | Blocked | Exited.
#[export] Instance SchedThreadState_eq_dec : EqDecision SchedThreadState.
Proof. solve_decision. Defined.

Inductive SchedReason := Preempt | Block | Exit.
#[export] Instance SchedReason_eq_dec : EqDecision SchedReason.
Proof. solve_decision. Defined.

Inductive SchedDecision :=
  | SwitchTo (idx : nat)
  | StayOnCurrent
  | WaitForInterrupt
  | ExitAndSwitch (exited next : nat)
  | ExitAndHalt (exited : nat).

Inductive SchedError := InvalidTransition | InvalidIndex.

Definition MAX_THREADS : nat := 1024.
Definition MAX_CPUS : nat := 4.

(** * Selection *)

(** The loop of [select_next]: [fuel] bounds the rounds. *)
Fixpoint select_loop (fuel current thread_count next : nat) (get_state : nat -> SchedThreadState) : outcome (option nat) :=
  match fuel with
  | O => Panic PFuel
  | S fuel' =>
      if decide (get_state next = Ready) then Ret (Some next) else
      let next' := (next + 1) mod thread_count in
      if next' =? current then Ret None else select_loop fuel' current thread_count next' get_state
  end.

Definition select_next (current thread_count : nat) (reason : SchedReason) (get_state : nat -> SchedThreadState)
  : outcome SchedDecision :=
  found ← (if 2 <=? thread_count then select_loop thread_count current thread_count ((current + 1) mod thread_count) get_state
           else Ret None);
  Ret match found with
      | Some next => match reason with Exit => ExitAndSwitch current next | _ => SwitchTo next end
      | None =>
          match reason with
          | Preempt => match get_state current with Running => StayOnCurrent | _ => WaitForInterrupt end
          | Block => WaitForInterrupt
          | Exit => ExitAndHalt current
          end
      end.

Fixpoint idle_loop (n i : nat) (get_state : nat -> SchedThreadState) : option nat :=
  match n with
  | O => None
  | S n' => if decide (get_state i = Ready) then Some i else idle_loop n' (i + 1) get_state
  end.

Definition select_for_idle_cpu (thread_count : nat) (get_state : nat -> SchedThreadState) : option nat :=
  idle_loop thread_count 0 get_state.

(** * The state *)

Record SchedState := mkSched {
  current_per_cpu : list (option nat);
  states : list (option SchedThreadState);
}.

Definition new_const : SchedState := mkSched (replicate MAX_CPUS None) (replicate MAX_THREADS None).

(** [self.states[idx] = v] and [self.current_per_cpu[cpu_id] = v] *)
Definition set_state (s : SchedState) (idx : nat) (v : option SchedThreadState) : outcome SchedState :=
  if decide (idx < length (states s)) then Ret (mkSched (current_per_cpu s) (<[idx := v]> (states s))) else Panic PIndex.
Definition set_current (s : SchedState) (cpu_id idx : nat) : outcome SchedState :=
  if decide (cpu_id < length (current_per_cpu s)) then Ret (mkSched (<[cpu_id := Some idx]> (current_per_cpu s)) (states s))
  else Panic PIndex.

Definition try_current_for (s : SchedState) (cpu_id : nat) : outcome (option nat) :=
  match current_per_cpu s !! cpu_id with Some c => Ret c | None => Panic PIndex end.

Definition current_for (s : SchedState) (cpu_id : nat) : outcome nat :=
  c ← try_current_for s cpu_id; unwrap c.

Definition current_for_panic_safe (s : SchedState) (cpu_id : nat) : option nat := mjoin (current_per_cpu s !! cpu_id).

Definition new : outcome SchedState :=
  s ← set_state new_const 0 (Some Running); set_current s 0 0.

Fixpoint first_free (l : list (option SchedThreadState)) (i : nat) : option nat :=
  match l with
  | [] => None
  | None :: _ => Some i
  | Some _ :: l' => first_free l' (i + 1)
  end.

Definition add_thread (s : SchedState) : option nat * SchedState :=
  match first_free (states s) 0 with
  | Some i => (Some i, mkSched (current_per_cpu s) (<[i := Some Ready]> (states s)))
  | None => (None, s)
  end.

Definition has_free_slot (s : SchedState) : bool := existsb (fun o => bool_decide (o = None)) (states s).

Definition mark_initial_running (s : SchedState) (cpu_id : nat) : outcome SchedState :=
  idx ← current_for s cpu_id; set_state s idx (Some Running).

Definition thread_count (s : SchedState) : nat := length (filter (fun o => is_Some o) (states s)).

Definition get (s : SchedState) (idx : nat) : option SchedThreadState := mjoin (states s !! idx).

Definition block_current (s : SchedState) (cpu_id : nat) : outcome (result unit SchedError * SchedState) :=
  current ← current_for s cpu_id;
  match get s current with
  | Some Running => s' ← set_state s current (Some Blocked); Ret (Ok tt, s')
  | _ => Ret (Err InvalidTransition, s)
  end.

Definition is_current (s : SchedState) (idx : nat) : bool := existsb (fun c => bool_decide (c = Some idx)) (current_per_cpu s).

Definition unblock (s : SchedState) (idx : nat) : outcome (result unit SchedError * SchedState) :=
  match get s idx with
  | Some Blocked => s' ← set_state s idx (Some (if is_current s idx then Running else Ready)); Ret (Ok tt, s')
  | Some _ => Ret (Err InvalidTransition, s)
  | None => Ret (Err InvalidIndex, s)
  end.

Definition remove_thread (s : SchedState) (idx : nat) : outcome (result unit SchedError * SchedState) :=
  if is_current s idx then Ret (Err InvalidTransition, s) else
  match get s idx with
  | Some Exited => s' ← set_state s idx None; Ret (Ok tt, s')
  | Some _ => Ret (Err InvalidTransition, s)
  | None => Ret (Err InvalidIndex, s)
  end.

(** * Steps *)

(** Is any thread but [skip] ready? *)
Definition other_ready (s : SchedState) (skip : option nat) : bool :=
  existsb (fun i => bool_decide (Some i <> skip) && bool_decide (get s i = Some Ready)) (seq 0 (length (states s))).

Definition apply_decision (s : SchedState) (cpu_id : nat) (reason : SchedReason) (decision : SchedDecision)
  : outcome (result unit SchedError * SchedState) :=
  current ← current_for s cpu_id;
  let fail := Ret (Err InvalidTransition, s) in
  match decision with
  | SwitchTo new_idx =>
      if negb (bool_decide (get s new_idx = Some Ready)) then fail else
      match reason with
      | Preempt =>
          if negb (bool_decide (get s current = Some Running)) then fail else
          s1 ← set_state s current (Some Ready);
          s2 ← set_state s1 new_idx (Some Running);
          s3 ← set_current s2 cpu_id new_idx;
          Ret (Ok tt, s3)
      | _ =>
          if negb (bool_decide (get s current = Some Blocked)) && negb (bool_decide (get s current = Some Exited)) then fail else
          s2 ← set_state s new_idx (Some Running);
          s3 ← set_current s2 cpu_id new_idx;
          Ret (Ok tt, s3)
      end
  | StayOnCurrent =>
      if negb (bool_decide (reason = Preempt)) then fail else
      if negb (bool_decide (get s current = Some Running)) then fail else
      if other_ready s (Some current) then fail else Ret (Ok tt, s)
  | WaitForInterrupt => if other_ready s None then fail else Ret (Ok tt, s)
  | ExitAndSwitch exited next =>
      if negb (bool_decide (reason = Exit)) then fail else
      if negb (bool_decide (get s exited = Some Running)) then fail else
      if negb (bool_decide (get s next = Some Ready)) then fail else
      s1 ← set_state s exited (Some Exited);
      s2 ← set_state s1 next (Some Running);
      s3 ← set_current s2 cpu_id next;
      Ret (Ok tt, s3)
  | ExitAndHalt exited =>
      if negb (bool_decide (reason = Exit)) then fail else
      if negb (bool_decide (get s exited = Some Running)) then fail else
      s1 ← set_state s exited (Some Exited);
      Ret (Ok tt, s1)
  end.

(** How often [c] occurs as a CPU's current thread. *)
Definition cpu_count (s : SchedState) (c : option nat) : nat := length (filter (fun o => o = c) (current_per_cpu s)).

Definition check_invariants (s : SchedState) : bool :=
  let cpus := seq 0 (length (current_per_cpu s)) in
  forallb (fun c => match mjoin (current_per_cpu s !! c) with
    | Some idx =>
        (idx <? MAX_THREADS) && bool_decide (is_Some (get s idx)) &&
        forallb (fun c2 => (c2 =? c) || negb (bool_decide (current_per_cpu s !! c2 = current_per_cpu s !! c))) cpus
    | None => true end) cpus &&
  forallb (fun i => if bool_decide (get s i = Some Running) then cpu_count s (Some i) =? 1 else true) (seq 0 (length (states s))) &&
  forallb (fun o => match o with Some idx => negb (bool_decide (get s idx = Some Ready)) | None => true end) (current_per_cpu s).

(** What [decide] and [step_from_idle] see of a thread. *)
Definition decide_state (s : SchedState) (current : option nat) (i : nat) : SchedThreadState :=
  let state := default Blocked (get s i) in
  if bool_decide (state = Running) && bool_decide (Some i <> current) then Blocked else state.

Definition sched_decide (s : SchedState) (cpu_id : nat) (reason : SchedReason) : outcome SchedDecision :=
  current ← current_for s cpu_id;
  select_next current MAX_THREADS reason (decide_state s (Some current)).

(** The assertion a step starts with, by its reason. *)
Definition entry_ok (s : SchedState) (current : nat) (reason : SchedReason) : bool :=
  match reason with
  | Preempt | Exit => bool_decide (get s current = Some Running)
  | Block => bool_decide (get s current = Some Blocked) || bool_decide (get s current = Some Exited)
  end.

Definition step (s : SchedState) (cpu_id : nat) (reason : SchedReason) : outcome (SchedDecision * SchedState) :=
  current ← current_for s cpu_id;
  _ ← assert (entry_ok s current reason);
  decision ← sched_decide s cpu_id reason;
  r ← apply_decision s cpu_id reason decision;
  match r with
  | (Err _, _) => Panic PUnwrap
  | (Ok _, s') => _ ← assert (check_invariants s'); Ret (decision, s')
  end.

Definition set_initial_current (s : SchedState) (cpu_id thread_idx : nat) : outcome SchedState :=
  c ← try_current_for s cpu_id;
  _ ← assert (bool_decide (c = None));
  _ ← assert (bool_decide (get s thread_idx = Some Ready));
  s1 ← set_state s thread_idx (Some Running);
  set_current s1 cpu_id thread_idx.

Definition step_from_idle (s : SchedState) (cpu_id : nat) : outcome (option SchedDecision * SchedState) :=
  c ← try_current_for s cpu_id;
  _ ← assert (bool_decide (c = None));
  match select_for_idle_cpu MAX_THREADS (decide_state s None) with
  | None => Ret (None, s)
  | Some next_idx =>
      s1 ← set_state s next_idx (Some Running);
      s2 ← set_current s1 cpu_id next_idx;
      _ ← assert (check_invariants s2);
      Ret (Some (SwitchTo next_idx), s2)
  end.

(** * Selection finds the next ready thread *)

(** Places from [current] forward to [n] around a ring of [tc]. *)
Definition ahead (tc current n : nat) : nat := if current <? n then n - current else n + tc - current.

Lemma ahead_bound tc current n : current < tc -> n < tc -> n <> current -> 0 < ahead tc current n < tc.
Proof. intros. unfold ahead. destruct (Nat.ltb_spec current n); lia. Qed.

Lemma mod_succ n tc : n < tc -> (n + 1) mod tc = if n + 1 =? tc then 0 else n + 1.
Proof.
  intros H. destruct (Nat.eqb_spec (n + 1) tc) as [->|]; [apply Nat.Div0.mod_same|]. apply Nat.mod_small. lia.
Qed.

Lemma ahead_succ tc current n :
  current < tc -> n < tc -> (n + 1) mod tc <> current ->
  (n + 1) mod tc < tc /\ (n <> current -> ahead tc current ((n + 1) mod tc) = ahead tc current n + 1).
Proof.
  intros Hc Hn. rewrite mod_succ by done. unfold ahead. destruct (Nat.eqb_spec (n + 1) tc); intros Hne; split; try lia.
  - destruct (Nat.ltb_spec current 0), (Nat.ltb_spec current n); lia.
  - destruct (Nat.ltb_spec current (n + 1)), (Nat.ltb_spec current n); lia.
Qed.

Lemma ahead_inj tc current n m : current < tc -> n < tc -> m < tc -> ahead tc current n = ahead tc current m -> n = m.
Proof. intros. unfold ahead in *. destruct (Nat.ltb_spec current n), (Nat.ltb_spec current m); lia. Qed.

(** [next] is the first ready thread after [current]. *)
Definition first_ready (tc current : nat) (get_state : nat -> SchedThreadState) (next : nat) : Prop :=
  next < tc /\ next <> current /\ get_state next = Ready /\
  forall m, m < tc -> m <> current -> ahead tc current m < ahead tc current next -> get_state m <> Ready.

Lemma select_loop_spec get_state tc current fuel : forall next,
  current < tc -> next < tc -> next <> current -> tc - ahead tc current next <= fuel ->
  (forall m, m < tc -> m <> current -> ahead tc current m < ahead tc current next -> get_state m <> Ready) ->
  exists o, select_loop fuel current tc next get_state = Ret o /\
    match o with
    | Some n => first_ready tc current get_state n
    | None => forall m, m < tc -> m <> current -> get_state m <> Ready
    end.
Proof.
  induction fuel as [|fuel IH]; intros next Hc Hn Hne Hf Hlow; pose proof (ahead_bound tc current next Hc Hn Hne); [lia|].
  cbn [select_loop]. destruct (decide (get_state next = Ready)) as [Hr|Hr]; [by exists (Some next)|].
  assert (forall m, m < tc -> m <> current -> ahead tc current m <= ahead tc current next -> get_state m <> Ready) as Hle.
  { intros m Hm Hmc Hl. destruct (decide (m = next)) as [->|Hd]; [done|]. apply Hlow; try done.
    assert (ahead tc current m <> ahead tc current next) by (intros E; by apply ahead_inj in E). lia. }
  destruct (Nat.eqb_spec ((next + 1) mod tc) current) as [E|E].
  - exists None. split; [done|]. intros m Hm Hmc. apply Hle; try done.
    rewrite mod_succ in E by done. unfold ahead. destruct (Nat.eqb_spec (next + 1) tc); destruct (Nat.ltb_spec current m), (Nat.ltb_spec current next); lia.
  - destruct (ahead_succ tc current next Hc Hn E) as [Hb Ha]. specialize (Ha Hne).
    apply IH; try done; [lia|]. intros m Hm Hmc Hl. apply Hle; try done. lia.
Qed.

Lemma ahead_first tc current : 2 <= tc -> current < tc ->
  (current + 1) mod tc < tc /\ (current + 1) mod tc <> current /\ ahead tc current ((current + 1) mod tc) = 1.
Proof.
  intros H2 Hc. rewrite mod_succ by done. unfold ahead. destruct (Nat.eqb_spec (current + 1) tc); split_and!; try lia.
  - destruct (Nat.ltb_spec current 0); lia.
  - destruct (Nat.ltb_spec current (current + 1)); lia.
Qed.

(** Enough fuel for one round: the loop ends, on the first ready thread or
    when there is none. *)
Lemma select_spec tc current reason get_state :
  2 <= tc -> current < tc ->
  (exists next, first_ready tc current get_state next /\
     select_next current tc reason get_state = Ret (match reason with Exit => ExitAndSwitch current next | _ => SwitchTo next end)) \/
  (forall m, m < tc -> m <> current -> get_state m <> Ready) /\
     select_next current tc reason get_state =
       Ret match reason with
           | Preempt => match get_state current with Running => StayOnCurrent | _ => WaitForInterrupt end
           | Block => WaitForInterrupt
           | Exit => ExitAndHalt current
           end.
Proof.
  intros H2 Hc. unfold select_next. rewrite (proj2 (Nat.leb_le 2 tc)) by done.
  destruct (ahead_first tc current H2 Hc) as (Hn & Hne & Ha).
  destruct (select_loop_spec get_state tc current tc ((current + 1) mod tc)) as (o & -> & Ho); try done; [lia| |].
  { intros m Hm Hmc. pose proof (ahead_bound tc current m Hc Hm Hmc). lia. }
  rewrite bind_Ret. destruct o as [n|]; [left; by exists n|right; done].
Qed.

Lemma idle_loop_spec get_state n : forall i,
  match idle_loop n i get_state with
  | Some j => i <= j < i + n /\ get_state j = Ready /\ forall m, i <= m < j -> get_state m <> Ready
  | None => forall m, i <= m < i + n -> get_state m <> Ready
  end.
Proof.
  induction n as [|n IH]; intros i; cbn [idle_loop]; [intros m; lia|].
  destruct (decide (get_state i = Ready)) as [H|H]; [split_and!; [lia|lia|done|intros m; lia]|].
  specialize (IH (i + 1)). destruct (idle_loop n (i + 1) get_state) as [j|].
  - destruct IH as (Hj & Hr & Hl). split_and!; [lia|lia|done|]. intros m Hm.
    destruct (decide (m = i)) as [->|]; [done|]. apply Hl. lia.
  - intros m Hm. destruct (decide (m = i)) as [->|]; [done|]. apply IH. lia.
Qed.

(** * The invariant *)

Record sinv (s : SchedState) : Prop := {
  si_cpus : length (current_per_cpu s) = MAX_CPUS;
  si_threads : length (states s) = MAX_THREADS;
  si_current : forall c i, current_per_cpu s !! c = Some (Some i) -> exists st, get s i = Some st /\ st <> Ready;
  si_unique : forall c c' i, current_per_cpu s !! c = Some (Some i) -> current_per_cpu s !! c' = Some (Some i) -> c = c';
  si_running : forall i, get s i = Some Running -> exists c, current_per_cpu s !! c = Some (Some i);
}.

Lemma get_lt s i st : get s i = Some st -> i < length (states s).
Proof. unfold get. intros H. destruct (states s !! i) eqn:E; [by eapply lookup_lt_Some|done]. Qed.

Lemma seq_forallb (f : nat -> bool) n : forallb f (seq 0 n) = true <-> forall i, i < n -> f i = true.
Proof.
  rewrite forallb_forall. split.
  - intros H i Hi. apply H. apply in_seq. lia.
  - intros H i Hi%in_seq. apply H. lia.
Qed.

Lemma list_forallb {A} (f : A -> bool) (l : list A) : forallb f l = true <-> forall i x, l !! i = Some x -> f x = true.
Proof.
  rewrite forallb_forall. split.
  - intros H i x Hi. apply H. apply list_elem_of_In. by eapply list_elem_of_lookup_2.
  - intros H x Hx%list_elem_of_In. apply list_elem_of_lookup in Hx as [i Hi]. by eapply H.
Qed.

(** A value that occurs at one place only. *)
Lemma count_one {A} `{EqDecision A} (l : list A) x i :
  l !! i = Some x -> length (filter (fun y => y = x) l) = 1 <-> forall j, l !! j = Some x -> j = i.
Proof.
  revert i. induction l as [|y l IH]; intros i Hi; [done|]. rewrite filter_cons. destruct i as [|i].
  - injection Hi as ->. rewrite decide_True by done. cbn [length]. split.
    + intros H [|j] Hj; [done|]. exfalso. cbn in Hj.
      assert (x ∈ filter (fun y => y = x) l) as Hin by (apply list_elem_of_filter; split; [done|by eapply list_elem_of_lookup_2]).
      destruct (filter (fun y => y = x) l); [by apply elem_of_nil in Hin|done].
    + intros H. f_equal. apply length_zero_iff_nil. apply elem_of_nil_inv. intros z [-> Hz]%list_elem_of_filter.
      apply list_elem_of_lookup in Hz as [j Hj]. by specialize (H (S j) Hj).
  - cbn in Hi. case_decide as Hd.
    + subst y. split; [|intros H; by specialize (H 0 eq_refl)]. intros H.
      assert (x ∈ filter (fun y => y = x) l) as Hin by (apply list_elem_of_filter; split; [done|by eapply list_elem_of_lookup_2]).
      cbn [length] in H. destruct (filter (fun y => y = x) l); [by apply elem_of_nil in Hin|done].
    + rewrite (IH i Hi). split; intros H j Hj; [destruct j as [|j]; [injection Hj as ->; done|by rewrite (H j Hj)]|].
      specialize (H (S j) Hj). lia.
Qed.

(** The executable check of the source decides the invariant. *)
Lemma check_invariants_spec s :
  length (current_per_cpu s) = MAX_CPUS -> length (states s) = MAX_THREADS -> check_invariants s = true <-> sinv s.
Proof.
  intros Hc Ht. unfold check_invariants. rewrite !andb_true_iff, !seq_forallb, list_forallb. split.
  - intros [[H1 H2] H3].
    assert (forall c i, current_per_cpu s !! c = Some (Some i) ->
      is_Some (get s i) /\ forall c2, c2 < length (current_per_cpu s) -> current_per_cpu s !! c2 = Some (Some i) -> c2 = c) as Hcur.
    { intros c i Hi. specialize (H1 c (lookup_lt_Some _ _ _ Hi)). rewrite Hi in H1. cbn [mjoin option_join] in H1.
      apply andb_true_iff in H1 as [[_ Hs]%andb_true_iff Hu]. split; [by eapply bool_decide_eq_true_1|].
      rewrite seq_forallb in Hu. intros c2 Hl E. specialize (Hu c2 Hl). rewrite E, bool_decide_eq_true_2, orb_false_r in Hu by done.
      by apply Nat.eqb_eq. }
    constructor; [done|done| | |].
    + intros c i Hi. destruct (Hcur c i Hi) as [[st Hst] _]. exists st. split; [done|]. intros ->.
      specialize (H3 c _ Hi). cbn in H3. by rewrite bool_decide_eq_true_2 in H3.
    + intros c c' i Hi Hi'. destruct (Hcur c' i Hi') as [_ Hu]. apply Hu; [by eapply lookup_lt_Some|done].
    + intros i Hr. specialize (H2 i (get_lt _ _ _ Hr)). rewrite bool_decide_eq_true_2 in H2 by done.
      apply Nat.eqb_eq in H2. unfold cpu_count in H2.
      destruct (filter (fun o => o = Some i) (current_per_cpu s)) as [|o l] eqn:E; [done|].
      assert (o ∈ filter (fun o => o = Some i) (current_per_cpu s)) as Ho by (rewrite E; left).
      apply list_elem_of_filter in Ho as [-> Ho]. by apply list_elem_of_lookup in Ho.
  - intros [_ _ Hcur Hu Hr]. split; [split|].
    + intros c Hlt. destruct (current_per_cpu s !! c) as [[i|]|] eqn:E; [|done|done]. cbn [mjoin option_join].
      destruct (Hcur c i E) as (st & Hst & _). pose proof (get_lt _ _ _ Hst) as Hl. rewrite Ht in Hl.
      rewrite (proj2 (Nat.ltb_lt _ _)), bool_decide_eq_true_2 by (done || by eexists). cbn [andb].
      apply seq_forallb. intros c2 _. destruct (Nat.eqb_spec c2 c); [done|]. cbn [orb].
      rewrite bool_decide_eq_false_2; [done|]. intros E2. by rewrite (Hu c2 c i) in n.
    + intros i Hi. case_bool_decide as Hd; [|done]. apply Nat.eqb_eq. destruct (Hr i Hd) as [c Ec].
      unfold cpu_count. apply (count_one _ _ c Ec). intros j Ej. by eapply Hu.
    + intros c [i|] Hi; [|done]. destruct (Hcur c i Hi) as (st & Hst & Hne).
      rewrite bool_decide_eq_false_2; [done|]. intros E. congruence.
Qed.

(** * Transitions keep the invariant *)

Definition with_state (s : SchedState) (i : nat) (v : option SchedThreadState) : SchedState :=
  mkSched (current_per_cpu s) (<[i := v]> (states s)).

Lemma get_with_state s i v j : i < length (states s) -> get (with_state s i v) j = if decide (j = i) then v else get s j.
Proof.
  intros Hi. unfold get, with_state. cbn [states]. destruct (decide (j = i)) as [->|Hne].
  - by rewrite list_lookup_insert_eq.
  - by rewrite list_lookup_insert_ne by done.
Qed.

Lemma set_state_spec s i v : i < length (states s) -> set_state s i v = Ret (with_state s i v).
Proof. intros H. unfold set_state. by rewrite decide_True. Qed.

Lemma is_current_spec s i : is_current s i = true <-> exists c, current_per_cpu s !! c = Some (Some i).
Proof.
  unfold is_current. rewrite existsb_exists. split.
  - intros (o & Ho & E). apply bool_decide_eq_true_1 in E as ->. apply list_elem_of_In, list_elem_of_lookup in Ho. done.
  - intros [c Hc]. exists (Some i). split; [apply list_elem_of_In; by eapply list_elem_of_lookup_2|by apply bool_decide_eq_true_2].
Qed.

Lemma sinv_set s i v :
  sinv s -> i < length (states s) ->
  (forall c, current_per_cpu s !! c = Some (Some i) -> exists st, v = Some st /\ st <> Ready) ->
  (v = Some Running -> exists c, current_per_cpu s !! c = Some (Some i)) ->
  sinv (with_state s i v).
Proof.
  intros [H1 H2 H3 H4 H5] Hi Hc Hr. constructor; cbn [with_state current_per_cpu states]; try done.
  - by rewrite length_insert.
  - intros c j Hj. rewrite get_with_state by done. destruct (decide (j = i)) as [->|]; [by apply (Hc c)|by apply (H3 c)].
  - intros j. rewrite get_with_state by done. destruct (decide (j = i)) as [->|]; auto.
Qed.

(** CPU [c] gets thread [n], once nothing runs on it any more. *)
Lemma sinv_assign s c o n :
  length (current_per_cpu s) = MAX_CPUS -> length (states s) = MAX_THREADS -> current_per_cpu s !! c = Some o ->
  (forall c' i, c' <> c -> current_per_cpu s !! c' = Some (Some i) -> exists st, get s i = Some st /\ st <> Ready) ->
  (forall c c' i, current_per_cpu s !! c = Some (Some i) -> current_per_cpu s !! c' = Some (Some i) -> c = c') ->
  (forall i, get s i = Some Running -> exists c', c' <> c /\ current_per_cpu s !! c' = Some (Some i)) ->
  get s n = Some Ready ->
  sinv (mkSched (<[c := Some n]> (current_per_cpu s)) (<[n := Some Running]> (states s))).
Proof.
  intros H1 H2 Hc H3 H4 H5 Hn. pose proof (get_lt _ _ _ Hn) as Hl. pose proof (lookup_lt_Some _ _ _ Hc) as Hcl.
  assert (forall j, get (mkSched (<[c := Some n]> (current_per_cpu s)) (<[n := Some Running]> (states s))) j =
    if decide (j = n) then Some Running else get s j) as Hg by (intros j; apply (get_with_state s n (Some Running) j Hl)).
  assert (forall c' i, <[c := Some n]> (current_per_cpu s) !! c' = Some (Some i) <->
    c' = c /\ i = n \/ c' <> c /\ current_per_cpu s !! c' = Some (Some i)) as Hcur.
  { intros c' i. destruct (decide (c' = c)) as [->|].
    - rewrite list_lookup_insert_eq by done. naive_solver.
    - rewrite list_lookup_insert_ne by done. naive_solver. }
  assert (forall c', c' <> c -> current_per_cpu s !! c' <> Some (Some n)) as Hother.
  { intros c' Hne E. destruct (H3 c' n Hne E) as (st & Est & ?). congruence. }
  constructor; cbn [current_per_cpu states]; [by rewrite length_insert|by rewrite length_insert| | |].
  - intros c' i [[-> ->]|[Hne Hi]]%Hcur; rewrite Hg.
    + rewrite decide_True by done. by exists Running.
    + destruct (decide (i = n)) as [->|]; [by apply Hother in Hi|by eapply H3].
  - intros c1 c2 i [[-> ->]|[Hne Hi]]%Hcur [[-> E]|[Hne' Hi']]%Hcur; subst; try done; try (by apply Hother in Hi || by apply Hother in Hi').
    by eapply H4.
  - intros i. rewrite Hg. destruct (decide (i = n)) as [->|Hd].
    + intros _. exists c. apply Hcur. by left.
    + intros Hr. destruct (H5 i Hr) as (c' & Hne & Hi). exists c'. apply Hcur. by right.
Qed.

(** Switching CPU [c] from [cur], which becomes [v], to the ready thread [n]. *)
Lemma sinv_switch s c cur v n :
  sinv s -> current_per_cpu s !! c = Some (Some cur) -> v <> Running -> get s n = Some Ready ->
  sinv (mkSched (<[c := Some n]> (current_per_cpu s)) (<[n := Some Running]> (<[cur := Some v]> (states s)))).
Proof.
  intros [H1 H2 H3 H4 H5] Hc Hv Hn. destruct (H3 c cur Hc) as (st & Est & Hst).
  pose proof (get_lt _ _ _ Est) as Hl. assert (n <> cur) as Hne by (intros ->; congruence).
  apply (sinv_assign (with_state s cur (Some v)) c (Some cur) n); cbn [with_state current_per_cpu states]; try done.
  - by rewrite length_insert.
  - intros c' i Hc' Hi. rewrite get_with_state by done. rewrite decide_False; [by eapply H3|]. intros ->. by apply Hc', (H4 c' c cur).
  - intros i. rewrite get_with_state by done. case_decide as Hd; [by intros [= ->]|]. intros Hr.
    destruct (H5 i Hr) as [c' Hc']. exists c'. split; [|done]. intros ->. congruence.
  - rewrite get_with_state, decide_False by done. done.
Qed.

(** ** One step *)

(** The next thread in round-robin order after [cur]. *)
Definition next_ready (s : SchedState) (cur n : nat) : Prop :=
  n <> cur /\ get s n = Some Ready /\
  forall m, m <> cur -> ahead MAX_THREADS cur m < ahead MAX_THREADS cur n -> get s m <> Some Ready.

Definition nobody_ready (s : SchedState) : Prop := forall m, get s m <> Some Ready.

(** What a step needs of the current thread. *)
Definition reason_ok (reason : SchedReason) (st : option SchedThreadState) : Prop :=
  match reason with Preempt | Exit => st = Some Running | Block => st = Some Blocked \/ st = Some Exited end.

#[export] Instance reason_ok_dec reason st : Decision (reason_ok reason st).
Proof. destruct reason; cbn; apply _. Defined.

(** The state of the thread that gives up its CPU. *)
Definition left_as (reason : SchedReason) (st : SchedThreadState) : SchedThreadState :=
  match reason with Preempt => Ready | Block => st | Exit => Exited end.

Definition switched (s : SchedState) (c cur : nat) (v : SchedThreadState) (n : nat) : SchedState :=
  mkSched (<[c := Some n]> (current_per_cpu s)) (<[n := Some Running]> (<[cur := Some v]> (states s))).

Definition step_post (s : SchedState) (c cur : nat) (st : SchedThreadState) (reason : SchedReason)
  (d : SchedDecision) (s' : SchedState) : Prop :=
  (exists n, next_ready s cur n /\ d = (match reason with Exit => ExitAndSwitch cur n | _ => SwitchTo n end) /\
     s' = switched s c cur (left_as reason st) n) \/
  nobody_ready s /\
    match reason with
    | Preempt => d = StayOnCurrent /\ s' = s
    | Block => d = WaitForInterrupt /\ s' = s
    | Exit => d = ExitAndHalt cur /\ s' = with_state s cur (Some Exited)
    end.

Lemma decide_state_ready s o i : decide_state s o i = Ready <-> get s i = Some Ready.
Proof.
  unfold decide_state. destruct (get s i) as [[]|]; cbn; try done.
  all: repeat case_bool_decide; cbn; done.
Qed.

Lemma current_for_spec s c cur : current_per_cpu s !! c = Some (Some cur) -> current_for s c = Ret cur.
Proof. intros H. unfold current_for, try_current_for. by rewrite H. Qed.

Lemma other_ready_none s skip : nobody_ready s -> other_ready s skip = false.
Proof.
  intros H. apply not_true_iff_false. unfold other_ready. rewrite existsb_exists. intros (i & _ & E).
  apply andb_true_iff in E as [_ E]. apply bool_decide_eq_true_1 in E. by apply (H i).
Qed.

Lemma set_current_spec s c n : c < length (current_per_cpu s) ->
  set_current s c n = Ret (mkSched (<[c := Some n]> (current_per_cpu s)) (states s)).
Proof. intros H. unfold set_current. by rewrite decide_True. Qed.

(** The update of a switch, as the code performs it. *)
Lemma switch_code s c cur v n :
  cur < length (states s) -> n < length (states s) -> c < length (current_per_cpu s) ->
  (s1 ← set_state s cur (Some v); s2 ← set_state s1 n (Some Running); s3 ← set_current s2 c n; Ret (Ok (E := SchedError) tt, s3))
  = Ret (Ok tt, switched s c cur v n).
Proof.
  intros Hc Hn Hp. rewrite set_state_spec, bind_Ret by done.
  rewrite set_state_spec, bind_Ret by (cbn; by rewrite length_insert). rewrite set_current_spec, bind_Ret by done. done.
Qed.

Lemma with_state_self s i st : get s i = Some st -> with_state s i (Some st) = s.
Proof.
  intros H. unfold with_state, get in *. destruct s as [cur l]. cbn in *. f_equal. apply list_insert_id.
  by destruct (l !! i) as [[]|]; cbn in H; simplify_eq.
Qed.

Lemma apply_switch s c cur st n reason :
  sinv s -> current_per_cpu s !! c = Some (Some cur) -> get s cur = Some st -> reason_ok reason (Some st) ->
  get s n = Some Ready ->
  apply_decision s c reason (match reason with Exit => ExitAndSwitch cur n | _ => SwitchTo n end) =
    Ret (Ok tt, switched s c cur (left_as reason st) n).
Proof.
  intros I Hc Hst Hr Hn. pose proof (get_lt _ _ _ Hst) as Hl. pose proof (get_lt _ _ _ Hn) as Hln.
  pose proof (lookup_lt_Some _ _ _ Hc) as Hcl.
  unfold apply_decision. rewrite (current_for_spec _ _ _ Hc), bind_Ret.
  destruct reason; cbn [reason_ok left_as] in *; rewrite (bool_decide_eq_true_2 (get s n = Some Ready)) by done; cbn [negb].
  - rewrite bool_decide_eq_true_2 by congruence. cbn [negb]. by apply switch_code.
  - rewrite <- (switch_code s c cur st n) by done. rewrite (set_state_spec s cur), bind_Ret, with_state_self by done.
    destruct Hr as [[= ->]|[= ->]]; rewrite Hst; repeat case_bool_decide; done.
  - rewrite (bool_decide_eq_true_2 (get s cur = Some Running)), bool_decide_eq_true_2 by congruence. cbn [negb].
    by apply switch_code.
Qed.

Lemma entry_ok_spec s cur reason : entry_ok s cur reason = true <-> reason_ok reason (get s cur).
Proof. destruct reason; cbn; rewrite ?orb_true_iff, ?bool_decide_eq_true; done. Qed.

Lemma checked s : sinv s -> check_invariants s = true.
Proof. intros I. by apply check_invariants_spec; [apply (si_cpus _ I)|apply (si_threads _ I)|]. Qed.

(** Nobody to switch to. *)
Lemma apply_stay s c cur st reason :
  sinv s -> current_per_cpu s !! c = Some (Some cur) -> get s cur = Some st -> reason_ok reason (Some st) -> nobody_ready s ->
  let d := match reason with
    | Preempt => match decide_state s (Some cur) cur with Running => StayOnCurrent | _ => WaitForInterrupt end
    | Block => WaitForInterrupt
    | Exit => ExitAndHalt cur end in
  exists s', apply_decision s c reason d = Ret (Ok tt, s') /\ sinv s' /\ step_post s c cur st reason d s'.
Proof.
  intros I Hc Hst Hr Hno d. pose proof (get_lt _ _ _ Hst) as Hl.
  unfold apply_decision. rewrite (current_for_spec _ _ _ Hc), bind_Ret. destruct reason; cbn [reason_ok] in Hr.
  - injection Hr as ->. assert (d = StayOnCurrent) as ->.
    { unfold d, decide_state. rewrite Hst. cbn [default from_option id].
      by rewrite (bool_decide_eq_false_2 (Some cur <> Some cur)), andb_false_r by tauto. }
    rewrite !bool_decide_eq_true_2, other_ready_none by done. exists s. split_and!; try done. by right.
  - unfold d. rewrite other_ready_none by done. exists s. split_and!; try done. by right.
  - injection Hr as ->. unfold d. rewrite !bool_decide_eq_true_2 by done. cbn [negb]. rewrite set_state_spec, bind_Ret by done.
    eexists. split; [done|]. split; [|by right]. apply sinv_set; [done|done| |done]. intros _ _. by exists Exited.
Qed.

Lemma step_spec s c cur st reason :
  sinv s -> current_per_cpu s !! c = Some (Some cur) -> get s cur = Some st -> reason_ok reason (Some st) ->
  exists d s', step s c reason = Ret (d, s') /\ sinv s' /\ step_post s c cur st reason d s'.
Proof.
  intros I Hc Hst Hr. pose proof (get_lt _ _ _ Hst) as Hl. rewrite (si_threads _ I) in Hl.
  unfold step, sched_decide. rewrite (current_for_spec _ _ _ Hc), !bind_Ret.
  rewrite (proj2 (entry_ok_spec s cur reason)) by congruence. cbn [assert]. rewrite bind_Ret.
  destruct (select_spec MAX_THREADS cur reason (decide_state s (Some cur))) as [(n & Hf & ->)|[Hf ->]]; [unfold MAX_THREADS; lia|done|..];
    rewrite bind_Ret.
  - destruct Hf as (Hnl & Hne & Hn & Hlow). rewrite decide_state_ready in Hn.
    rewrite (apply_switch s c cur st) by done. rewrite bind_Ret.
    assert (sinv (switched s c cur (left_as reason st) n)) as I'.
    { apply sinv_switch; try done. destruct reason; cbn in *; try done. destruct Hr as [[= ->]|[= ->]]; done. }
    rewrite (checked _ I'). cbn [assert]. rewrite bind_Ret.
    do 2 eexists. split; [done|]. split; [done|]. left. exists n. split_and!; try done. split_and!; try done.
    intros m Hm Ha E. apply (Hlow m); try done; [|by apply decide_state_ready].
    rewrite <- (si_threads _ I). by eapply get_lt.
  - destruct (apply_stay s c cur st reason I Hc Hst Hr) as (s' & -> & I' & Hp).
    { intros m E. destruct (decide (m = cur)) as [->|Hne].
      - destruct (si_current _ I c cur Hc) as (st' & ? & ?). congruence.
      - apply (Hf m); [rewrite <- (si_threads _ I); by eapply get_lt|done|by apply decide_state_ready]. }
    rewrite bind_Ret, (checked _ I'). cbn [assert]. rewrite bind_Ret. eauto.
Qed.

(** Outside its precondition a step is refused. *)
Lemma step_refused s c cur reason :
  current_per_cpu s !! c = Some (Some cur) -> ~ reason_ok reason (get s cur) -> step s c reason = Panic PAssert.
Proof.
  intros Hc Hn. unfold step. rewrite (current_for_spec _ _ _ Hc), bind_Ret.
  destruct (entry_ok s cur reason) eqn:E; [by apply entry_ok_spec in E|done].
Qed.

(** ** Every transition *)

Inductive SchedOp :=
  | OpAdd
  | OpMarkRunning (cpu_id : nat)
  | OpBlock (cpu_id : nat)
  | OpUnblock (idx : nat)
  | OpRemove (idx : nat)
  | OpStep (cpu_id : nat) (reason : SchedReason)
  | OpInitial (cpu_id thread_idx : nat)
  | OpIdle (cpu_id : nat).

Definition exec (s : SchedState) (op : SchedOp) : outcome SchedState :=
  match op with
  | OpAdd => Ret (add_thread s).2
  | OpMarkRunning c => mark_initial_running s c
  | OpBlock c => r ← block_current s c; Ret r.2
  | OpUnblock i => r ← unblock s i; Ret r.2
  | OpRemove i => r ← remove_thread s i; Ret r.2
  | OpStep c reason => r ← step s c reason; Ret r.2
  | OpInitial c i => set_initial_current s c i
  | OpIdle c => r ← step_from_idle s c; Ret r.2
  end.

Fixpoint run (s : SchedState) (ops : list SchedOp) : outcome SchedState :=
  match ops with
  | [] => Ret s
  | op :: ops' => s' ← exec s op; run s' ops'
  end.

Lemma first_free_spec l : forall k,
  match first_free l k with
  | Some i => exists j, i = k + j /\ l !! j = Some None /\ forall m, m < j -> l !! m <> Some None
  | None => forall m, l !! m <> Some None
  end.
Proof.
  induction l as [|[x|] l IH]; intros k; cbn [first_free]; [done| |].
  - specialize (IH (k + 1)). destruct (first_free l (k + 1)) as [i|].
    + destruct IH as (j & -> & Hj & Hl). exists (S j). split_and!; [lia|done|].
      intros [|m] Hm; [done|]. apply Hl. lia.
    + intros [|m]; [done|]. apply IH.
  - exists 0. split_and!; [lia|done|]. intros m. lia.
Qed.

(** What an accepted transition does to the state, one thread at a time. *)
Inductive trans (s : SchedState) : SchedState -> Prop :=
  | tr_same : trans s s
  | tr_set i v :
      i < length (states s) -> get s i <> Some Ready ->
      (forall c, current_per_cpu s !! c = Some (Some i) -> exists st, v = Some st /\ st <> Ready) ->
      (v = Some Running -> exists c, current_per_cpu s !! c = Some (Some i)) ->
      trans s (with_state s i v)
  | tr_switch c cur st reason n :
      current_per_cpu s !! c = Some (Some cur) -> get s cur = Some st -> reason_ok reason (Some st) -> next_ready s cur n ->
      trans s (switched s c cur (left_as reason st) n)
  | tr_assign c n :
      current_per_cpu s !! c = Some None -> get s n = Some Ready ->
      trans s (mkSched (<[c := Some n]> (current_per_cpu s)) (<[n := Some Running]> (states s))).

Lemma trans_sinv s s' : sinv s -> trans s s' -> sinv s'.
Proof.
  intros I [|i v Hi _ Hc Hr|c cur st reason n Hc Hst Hr Hn|c n Hc Hn]; [done|by apply sinv_set| |].
  - apply sinv_switch; try done; [|apply Hn]. destruct reason; cbn in *; try done. destruct Hr as [[= ->]|[= ->]]; done.
  - eapply sinv_assign; try done; try apply I.
    + intros c' i _. apply (si_current _ I).
    + intros i Hr. destruct (si_running _ I i Hr) as [c' Hc']. exists c'. split; [|done]. intros ->. congruence.
Qed.

Lemma current_for_inv s c cur : current_for s c = Ret cur -> current_per_cpu s !! c = Some (Some cur).
Proof. unfold current_for, try_current_for. destruct (current_per_cpu s !! c) as [[i|]|]; cbn; by intros [= ->]. Qed.

Lemma step_trans s c reason d s' : sinv s -> step s c reason = Ret (d, s') -> trans s s'.
Proof.
  intros I H. destruct (current_for s c) as [cur|] eqn:Hcf; [|unfold step in H; by rewrite Hcf in H].
  pose proof (current_for_inv _ _ _ Hcf) as Hc. destruct (si_current _ I c cur Hc) as (st & Hst & Hne).
  assert (reason_ok reason (Some st)) as Hr.
  { rewrite <- Hst. apply entry_ok_spec. unfold step in H. rewrite Hcf, bind_Ret in H. by destruct (entry_ok s cur reason). }
  destruct (step_spec s c cur st reason I Hc Hst Hr) as (d' & s'' & E & _ & Hp). rewrite E in H. injection H as -> ->.
  destruct Hp as [(n & Hn & _ & ->)|[Hno Hp]]; [by econstructor|].
  destruct reason; destruct Hp as [_ ->]; try constructor; [by eapply get_lt|congruence| |done].
  intros _ _. by exists Exited.
Qed.

Lemma step_from_idle_trans s c o s' : sinv s -> step_from_idle s c = Ret (o, s') -> trans s s'.
Proof.
  intros I. unfold step_from_idle, try_current_for. destruct (current_per_cpu s !! c) as [[i|]|] eqn:Hc; try done.
  rewrite bind_Ret. cbn [assert bool_decide]. rewrite bool_decide_eq_true_2 by done. cbn [assert]. rewrite bind_Ret.
  pose proof (idle_loop_spec (decide_state s None) MAX_THREADS 0) as Hs. unfold select_for_idle_cpu.
  destruct (idle_loop MAX_THREADS 0 (decide_state s None)) as [n|]; [|intros [= <- <-]; constructor].
  destruct Hs as (Hl & Hn & _). apply decide_state_ready in Hn. pose proof (get_lt _ _ _ Hn).
  rewrite set_state_spec, bind_Ret, set_current_spec, bind_Ret by (done || by eapply lookup_lt_Some).
  destruct (check_invariants _); cbn [assert]; [|done]. rewrite bind_Ret. intros [= <- <-]. by apply tr_assign.
Qed.

Lemma exec_trans s op s' : sinv s -> exec s op = Ret s' -> trans s s'.
Proof.
  intros I. destruct op as [|c|c|i|i|c reason|c i|c]; cbn [exec].
  - unfold add_thread. pose proof (first_free_spec (states s) 0) as Hf. destruct (first_free (states s) 0) as [i|]; intros [= <-]; [|constructor].
    destruct Hf as (j & -> & Hj & _). cbn [Nat.add snd]. assert (get s j = None) as Hg by (unfold get; by rewrite Hj).
    apply tr_set; [by eapply lookup_lt_Some|congruence| |done].
    intros c Hc. destruct (si_current _ I c j Hc) as (st & ? & _). congruence.
  - unfold mark_initial_running. intros H. destruct (current_for s c) as [cur|] eqn:Hcf; [|done]. rewrite bind_Ret in H.
    pose proof (current_for_inv _ _ _ Hcf) as Hc. destruct (si_current _ I c cur Hc) as (st & Hst & Hne).
    rewrite set_state_spec in H by (by eapply get_lt). injection H as <-.
    apply tr_set; [by eapply get_lt|congruence|intros _ _; by exists Running|by exists c].
  - unfold block_current. intros H. destruct (current_for s c) as [cur|] eqn:Hcf; [|done]. rewrite bind_Ret in H.
    destruct (get s cur) as [[]|] eqn:Hg; try (injection H as <-; constructor).
    rewrite set_state_spec, !bind_Ret in H by (by eapply get_lt). injection H as <-.
    apply tr_set; [by eapply get_lt|congruence|intros _ _; by exists Blocked|done].
  - unfold unblock. intros H. destruct (get s i) as [[]|] eqn:Hg; try (injection H as <-; constructor).
    rewrite set_state_spec, !bind_Ret in H by (by eapply get_lt). injection H as <-.
    pose proof (is_current_spec s i) as Hcur.
    apply tr_set; [by eapply get_lt|congruence| |]; destruct (is_current s i); try done.
    + intros _ _. by exists Running.
    + intros c Hc. by specialize (proj2 Hcur (ex_intro _ c Hc)).
    + intros _. by apply Hcur.
  - unfold remove_thread. pose proof (is_current_spec s i) as Hcur. destruct (is_current s i); [intros [= <-]; constructor|].
    intros H. destruct (get s i) as [[]|] eqn:Hg; try (injection H as <-; constructor).
    rewrite set_state_spec, !bind_Ret in H by (by eapply get_lt). injection H as <-.
    apply tr_set; [by eapply get_lt|congruence| |done]. intros c Hc. by specialize (proj2 Hcur (ex_intro _ c Hc)).
  - destruct (step s c reason) as [[d s1]|] eqn:E; [|done]. rewrite bind_Ret. intros [= <-]. by eapply step_trans.
  - unfold set_initial_current, try_current_for. destruct (current_per_cpu s !! c) as [o|] eqn:Hc; [|done]. rewrite bind_Ret.
    destruct o as [?|]; [done|]. rewrite (bool_decide_eq_true_2 (@None nat = None)) by done. cbn [assert]. rewrite bind_Ret.
    case_bool_decide as Hr; [|done]. cbn [assert].
    rewrite bind_Ret, set_state_spec, bind_Ret, set_current_spec by (by eapply get_lt || by eapply lookup_lt_Some).
    intros [= <-]. by apply tr_assign.
  - destruct (step_from_idle s c) as [[o s1]|] eqn:E; [|done]. rewrite bind_Ret. intros [= <-]. by eapply step_from_idle_trans.
Qed.

Lemma run_sinv ops : forall s s', sinv s -> run s ops = Ret s' -> sinv s'.
Proof.
  induction ops as [|op ops IH]; intros s s' I H; [by injection H as <-|]. cbn [run] in H.
  destruct (exec s op) as [s1|] eqn:E; [|done]. rewrite bind_Ret in H. eapply IH; [|done].
  eapply trans_sinv; [done|]. by eapply exec_trans.
Qed.

Lemma sinv_new_const : sinv new_const.
Proof.
  assert (forall i, get new_const i = None) as Hg.
  { intros i. unfold get, new_const. cbn [states]. destruct (replicate MAX_THREADS None !! i) as [o|] eqn:E; [|done].
    apply lookup_replicate in E as [-> _]. done. }
  assert (forall c i, current_per_cpu new_const !! c <> Some (Some i)) as Hc.
  { intros c i E. unfold new_const in E. cbn [current_per_cpu] in E. apply lookup_replicate in E as [E _]. done. }
  constructor; unfold new_const; cbn [current_per_cpu states]; [apply length_replicate|apply length_replicate| | |].
  - intros c i E. by apply Hc in E.
  - intros c c' i E. by apply Hc in E.
  - intros i E. rewrite Hg in E. done.
Qed.

(** ** Waiting *)

(** The steps of CPU [c] in a run. *)
Fixpoint steps_on (c : nat) (ops : list SchedOp) : nat :=
  match ops with
  | [] => 0
  | OpStep c' _ :: ops' => (if c' =? c then 1 else 0) + steps_on c ops'
  | _ :: ops' => steps_on c ops'
  end.

Lemma ahead_diff tc cur n t :
  cur < tc -> n < tc -> t < tc -> ahead tc cur n < ahead tc cur t -> ahead tc n t + ahead tc cur n = ahead tc cur t.
Proof. intros. unfold ahead in *. destruct (Nat.ltb_spec cur n), (Nat.ltb_spec cur t), (Nat.ltb_spec n t); lia. Qed.

(** A waiting thread [t] runs, or waits on with CPU [c] as near or nearer. *)
Definition waits (s' : SchedState) (c t bound : nat) : Prop :=
  get s' t = Some Running \/
  get s' t = Some Ready /\ exists cur', current_per_cpu s' !! c = Some (Some cur') /\ ahead MAX_THREADS cur' t <= bound.

Lemma get_switched s c cur v n j :
  cur < length (states s) -> n < length (states s) ->
  get (switched s c cur v n) j = if decide (j = n) then Some Running else if decide (j = cur) then Some v else get s j.
Proof.
  intros Hc Hn. change (get (switched s c cur v n) j) with (get (with_state (with_state s cur (Some v)) n (Some Running)) j).
  rewrite get_with_state by (cbn; by rewrite length_insert). by rewrite get_with_state by done.
Qed.

Lemma switch_waits s c cur st reason n t :
  sinv s -> current_per_cpu s !! c = Some (Some cur) -> get s cur = Some st -> next_ready s cur n -> get s t = Some Ready ->
  waits (switched s c cur (left_as reason st) n) c t (ahead MAX_THREADS cur t - 1).
Proof.
  intros I Hc Hst (Hne & Hn & Hlow) Ht. pose proof (get_lt _ _ _ Hst) as L1. pose proof (get_lt _ _ _ Hn) as L2.
  pose proof (get_lt _ _ _ Ht) as L3. destruct (si_current _ I c cur Hc) as (st' & Hst' & Hr).
  assert (t <> cur) as Htc by (intros ->; congruence).
  unfold waits. rewrite get_switched by done. destruct (decide (t = n)) as [->|Htn]; [by left|]. right.
  rewrite decide_False by done. split; [done|]. exists n. cbn [switched current_per_cpu].
  rewrite list_lookup_insert_eq by (by eapply lookup_lt_Some). split; [done|]. rewrite (si_threads _ I) in *.
  destruct (decide (ahead MAX_THREADS cur n < ahead MAX_THREADS cur t)) as [Hlt|Hge].
  - pose proof (ahead_diff MAX_THREADS cur n t L1 L2 L3 Hlt). pose proof (ahead_bound MAX_THREADS cur n L1 L2 Hne). lia.
  - exfalso. destruct (decide (ahead MAX_THREADS cur t = ahead MAX_THREADS cur n)) as [E|]; [by apply ahead_inj in E|].
    apply (Hlow t); [done|lia|done].
Qed.

Lemma trans_waits s s' c cur t :
  sinv s -> trans s s' -> current_per_cpu s !! c = Some (Some cur) -> get s t = Some Ready ->
  waits s' c t (ahead MAX_THREADS cur t).
Proof.
  intros I [|i v Hi Hnr Hcv Hr|c' cur' st reason n Hc' Hst Hr Hn|c' n Hc' Hn] Hc Ht.
  - right. eauto.
  - right. rewrite get_with_state by done. rewrite decide_False by congruence. split; [done|]. exists cur. done.
  - destruct (decide (c' = c)) as [->|Hne].
    + rewrite Hc in Hc'. injection Hc' as <-. destruct (switch_waits s c cur st reason n t I Hc Hst Hn Ht) as [|(Hg & x & Hx & Hl)]; [by left|].
      right. split; [done|]. exists x. split; [done|lia].
    + destruct (si_current _ I c' cur' Hc') as (st' & ? & ?). destruct Hn as (Hnc & Hn & _).
      unfold waits. rewrite get_switched by (by eapply get_lt). destruct (decide (t = n)) as [->|]; [by left|]. right.
      rewrite decide_False by (intros ->; congruence). split; [done|]. exists cur. cbn [switched current_per_cpu].
      by rewrite list_lookup_insert_ne.
  - assert (c' <> c) as Hne by (intros ->; congruence). unfold waits.
    change (get _ t) with (get (with_state s n (Some Running)) t). rewrite get_with_state by (by eapply get_lt).
    destruct (decide (t = n)) as [->|]; [by left|]. right. split; [done|]. exists cur. cbn [current_per_cpu].
    by rewrite list_lookup_insert_ne.
Qed.

Lemma step_waits s s' c cur t reason :
  sinv s -> exec s (OpStep c reason) = Ret s' -> current_per_cpu s !! c = Some (Some cur) -> get s t = Some Ready ->
  waits s' c t (ahead MAX_THREADS cur t - 1).
Proof.
  intros I H Hc Ht. cbn [exec] in H. destruct (si_current _ I c cur Hc) as (st & Hst & Hne).
  destruct (decide (reason_ok reason (Some st))) as [Hr|Hr].
  2:{ rewrite (step_refused s c cur reason Hc) in H by congruence. done. }
  destruct (step_spec s c cur st reason I Hc Hst Hr) as (d & s1 & E & _ & Hp). rewrite E, bind_Ret in H. injection H as <-.
  destruct Hp as [(n & Hn & _ & ->)|[Hno _]]; [by apply switch_waits|by apply Hno in Ht].
Qed.

Lemma run_waits ops : forall s s' c cur t,
  sinv s -> run s ops = Ret s' -> current_per_cpu s !! c = Some (Some cur) -> get s t = Some Ready ->
  ahead MAX_THREADS cur t <= steps_on c ops ->
  exists ops1 ops2 s1, ops = ops1 ++ ops2 /\ run s ops1 = Ret s1 /\ get s1 t = Some Running.
Proof.
  induction ops as [|op ops IH]; intros s s' c cur t I H Hc Ht Hb.
  { destruct (si_current _ I c cur Hc) as (st & Hst & Hne). cbn in Hb.
    pose proof (get_lt _ _ _ Hst) as L1. pose proof (get_lt _ _ _ Ht) as L2. rewrite (si_threads _ I) in *.
    pose proof (ahead_bound MAX_THREADS cur t L1 L2 ltac:(intros ->; congruence)). lia. }
  cbn [run] in H. destruct (exec s op) as [s1|] eqn:E; [|done]. rewrite bind_Ret in H.
  assert (sinv s1) as I1 by (eapply trans_sinv; [done|by eapply exec_trans]).
  assert (waits s1 c t (steps_on c ops)) as [Hr|(Hr & cur' & Hc' & Hl)].
  { assert (waits s1 c t (ahead MAX_THREADS cur t)) as Hw
      by exact (trans_waits s s1 c cur t I (exec_trans _ _ _ I E) Hc Ht).
    destruct op as [| | | | |c' reason| |]; cbn [steps_on] in Hb;
      try (destruct Hw as [|(? & x & ? & ?)]; [by left|right; split; [done|]; exists x; split; [done|lia]]).
    destruct (Nat.eqb_spec c' c) as [->|]; [destruct (step_waits s s1 c cur t reason I E Hc Ht) as [|(? & x & ? & ?)]|
      destruct Hw as [|(? & x & ? & ?)]]; try (by left); right; (split; [done|]); exists x; (split; [done|]); lia. }
  - exists [op], ops, s1. split; [done|]. cbn [run]. by rewrite E, bind_Ret.
  - destruct (IH s1 s' c cur' t I1 H Hc' Hr Hl) as (ops1 & ops2 & s2 & -> & H2 & Hg).
    exists (op :: ops1), ops2, s2. split; [done|]. cbn [run]. by rewrite E, bind_Ret.
Qed.

(** * Theorems *)

(** Termination and correctness of the round-robin selection. For at least
    two threads and a current index among them, the loop of [select_next] ends
    within one round whatever the thread states are: it picks the first ready
    thread after the current one, or finds that no other thread is ready and
    falls back by the reason. *)
Theorem select_next_terminates tc current reason get_state :
  2 <= tc -> current < tc ->
  (exists next, first_ready tc current get_state next /\
     select_next current tc reason get_state = Ret (match reason with Exit => ExitAndSwitch current next | _ => SwitchTo next end)) \/
  (forall m, m < tc -> m <> current -> get_state m <> Ready) /\
     select_next current tc reason get_state =
       Ret match reason with
           | Preempt => match get_state current with Running => StayOnCurrent | _ => WaitForInterrupt end
           | Block => WaitForInterrupt
           | Exit => ExitAndHalt current
           end.
Proof. apply select_spec. Qed.

Lemma select_next_terminates_witness :
  select_next 2 4 Preempt (fun i => match i with 1 => Ready | 2 => Running | _ => Blocked end) = Ret (SwitchTo 1).
Proof.
  destruct (select_next_terminates 4 2 Preempt (fun i => match i with 1 => Ready | 2 => Running | _ => Blocked end))
    as [(next & (_ & _ & Hn & _) & ->)|[H _]]; [lia|lia| |].
  - destruct next as [|[|[|next]]]; cbn in Hn; try discriminate Hn. reflexivity.
  - exfalso. apply (H 1); [lia|lia|reflexivity].
Defined.

(** The scheduler invariant. Starting with no threads, after any sequence
    of the transitions the kernel can call, on any CPUs and in any order, the
    invariants the source checks hold: each CPU's current thread is registered
    and not ready, no thread is current on two CPUs, and every running thread
    is current on exactly one CPU. *)
Theorem sched_invariant ops s :
  run new_const ops = Ret s -> check_invariants s = true /\ sinv s.
Proof.
  intros H. assert (sinv s) as I by (eapply run_sinv; [apply sinv_new_const|done]). split; [by apply checked|done].
Qed.

Lemma sched_invariant_witness :
  exists s, run new_const [OpAdd; OpInitial 0 0; OpAdd; OpBlock 0; OpStep 0 Block; OpUnblock 0; OpStep 0 Preempt; OpStep 0 Exit; OpRemove 0] = Ret s /\
    check_invariants s = true /\ current_per_cpu s = [Some 1; None; None; None].
Proof.
  eexists. split; [vm_compute; reflexivity|]. split; [|reflexivity].
  exact (proj1 (sched_invariant [OpAdd; OpInitial 0 0; OpAdd; OpBlock 0; OpStep 0 Block; OpUnblock 0; OpStep 0 Preempt; OpStep 0 Exit; OpRemove 0]
    _ ltac:(vm_compute; reflexivity))).
Defined.

(** C25: Exactness of a scheduling step. On a CPU with a current thread a step
    returns exactly when the thread's state fits the reason (running for a
    preemption or an exit, blocked or exited for a block), and its internal
    checks never fail. It then switches to the first ready thread after the
    current one in round-robin order, leaving the current one ready, blocked
    or exited, and when no thread at all is ready it stays, waits or halts. *)
Theorem sched_step_exact s c cur reason :
  sinv s -> current_per_cpu s !! c = Some (Some cur) ->
  (exists st, get s cur = Some st /\ reason_ok reason (Some st) /\
     exists d s', step s c reason = Ret (d, s') /\ check_invariants s' = true /\ step_post s c cur st reason d s') \/
  ~ reason_ok reason (get s cur) /\ step s c reason = Panic PAssert.
Proof.
  intros I Hc. destruct (si_current _ I c cur Hc) as (st & Hst & _).
  destruct (decide (reason_ok reason (Some st))) as [Hr|Hr].
  - left. exists st. split_and!; try done. destruct (step_spec s c cur st reason I Hc Hst Hr) as (d & s' & E & I' & Hp).
    exists d, s'. split_and!; try done. by apply checked.
  - right. rewrite Hst. split; [done|]. apply (step_refused s c cur reason Hc). by rewrite Hst.
Qed.

Definition ex_sched : SchedState :=
  mkSched [Some 0; None; None; None] (Some Running :: Some Blocked :: Some Ready :: replicate 1021 None).

Lemma ex_sched_inv : sinv ex_sched.
Proof. apply check_invariants_spec; vm_compute; reflexivity. Qed.

Lemma sched_step_exact_witness : exists d s', step ex_sched 0 Preempt = Ret (d, s') /\ d = SwitchTo 2.
Proof.
  destruct (sched_step_exact ex_sched 0 0 Preempt ex_sched_inv eq_refl) as [(st & _ & _ & d & s' & E & _)|[H _]].
  - exists d, s'. split; [exact E|]. vm_compute in E. congruence.
  - exfalso. apply H. reflexivity.
Defined.

(** C24: Bounded waiting. A ready thread never waits for more steps of a CPU
    than the round-robin distance from that CPU's current thread, whatever
    other transitions are interleaved, on that CPU or any other: within that
    many steps (at most 1023) some prefix of the run has it running. *)
Theorem ready_thread_runs s s' ops c cur t :
  sinv s -> run s ops = Ret s' -> current_per_cpu s !! c = Some (Some cur) -> get s t = Some Ready ->
  ahead MAX_THREADS cur t <= steps_on c ops ->
  exists ops1 ops2 s1, ops = ops1 ++ ops2 /\ run s ops1 = Ret s1 /\ get s1 t = Some Running.
Proof. apply run_waits. Qed.

Lemma ready_thread_runs_witness :
  exists ops1 s1, run ex_sched ops1 = Ret s1 /\ get s1 2 = Some Running.
Proof.
  destruct (run ex_sched [OpStep 0 Preempt; OpAdd; OpStep 0 Preempt]) as [s'|] eqn:Er; [|vm_compute in Er; discriminate Er].
  destruct (ready_thread_runs ex_sched s' [OpStep 0 Preempt; OpAdd; OpStep 0 Preempt] 0 0 2 ex_sched_inv Er eq_refl eq_refl)
    as (ops1 & ops2 & s1 & _ & E & H).
  - vm_compute. lia.
  - exists ops1, s1. split; [exact E|exact H].
Defined.
