(* ===== verification/KSched.v ===== *)
(** The kernel's scheduler (src/sched/scheduler.rs) over the state machine of
    [Sched]: the table of thread control blocks, the timer tick, blocking,
    waking, deadlines and exit, as the events of several CPUs that take turns
    under the kernel lock. On one CPU no history of events panics; with two, a
    thread that resumes on another CPU than it blocked on can. *)
From Stdlib Require Import ZArith Lia.
From stdpp Require Import base option list gmap numbers fin_maps.
From S2P Require Import Prelude Sched.
Open Scope nat_scope.

(** * State *)

(** Where a thread's kernel stack lives. *)
Inductive KernelStackBase := Image (va : Z) | Pool (va : Z) | DirectMap (va : Z).
Inductive ThreadResourceRegime := RImage | RPool | RDirectMap.
Definition regime (b : KernelStackBase) : ThreadResourceRegime :=
  match b with Image _ => RImage | Pool _ => RPool | DirectMap _ => RDirectMap end.

(** The fields of a thread control block the scheduler reads, with the word at
    the base of the thread's kernel stack: its canary. *)
Record Tcb := mkTcb { stack_base : KernelStackBase; wait_deadline : Z; canary : Z }.
Definition STACK_CANARY : Z := 0xDEADBEEFDEADBEEF.

Record PendingExit := mkPending { thread_idx : nat; tcb_kva : Z }.

(** [in_block] are the activations of [block_current] that have not returned:
    for each such thread the [cpu_id] the function read when it was called. *)
Record KSched := mkKS {
  ks_state : SchedState;
  ks_threads : list (option Z);
  ks_active : bool;
  ks_pending : list (option PendingExit);
  ks_tcbs : gmap Z Tcb;
  in_block : gmap nat nat;
}.

Definition with_st (k : KSched) (s : SchedState) : KSched :=
  mkKS s (ks_threads k) (ks_active k) (ks_pending k) (ks_tcbs k) (in_block k).
Definition with_threads (k : KSched) (t : list (option Z)) : KSched :=
  mkKS (ks_state k) t (ks_active k) (ks_pending k) (ks_tcbs k) (in_block k).
Definition with_pending (k : KSched) (p : list (option PendingExit)) : KSched :=
  mkKS (ks_state k) (ks_threads k) (ks_active k) p (ks_tcbs k) (in_block k).
Definition with_tcbs (k : KSched) (t : gmap Z Tcb) : KSched :=
  mkKS (ks_state k) (ks_threads k) (ks_active k) (ks_pending k) t (in_block k).
Definition with_block (k : KSched) (b : gmap nat nat) : KSched :=
  mkKS (ks_state k) (ks_threads k) (ks_active k) (ks_pending k) (ks_tcbs k) b.

(** [threads[idx].unwrap()] *)
Definition tcb_at (k : KSched) (idx : nat) : outcome Z :=
  match ks_threads k !! idx with
  | None => Panic PIndex
  | Some o => unwrap o
  end.

(** * Deadlines *)

Definition NO_DEADLINE : Z := U64_MAX.
Definition is_no_deadline (d : Z) : bool := (d =? NO_DEADLINE)%Z.
Definition has_expired (d now : Z) : bool := if (d =? U64_MAX)%Z then false else (d <=? now)%Z.

(** * Operations *)

Definition add_thread (k : KSched) (tcb : Z) : outcome (bool * KSched) :=
  match Sched.add_thread (ks_state k) with
  | (None, s) => Ret (false, with_st k s)
  | (Some idx, s) =>
      s1 ← (if idx =? 0 then set_initial_current s 0 idx else Ret s);
      if MAX_THREADS <=? idx then Ret (false, with_st k s1) else
      Ret (true, with_threads (with_st k s1) (<[idx := Some tcb]> (ks_threads k)))
  end.

Definition thread_index_for (k : KSched) (tcb : Z) : option nat :=
  fst <$> list_find (fun o => o = Some tcb) (ks_threads k).

Definition unblock_thread (k : KSched) (tcb : Z) : outcome KSched :=
  idx ← unwrap (thread_index_for k tcb);
  r ← unblock (ks_state k) idx;
  match r with
  | (Err _, _) => Panic PUnwrap
  | (Ok _, s) => Ret (with_st k s)
  end.

(** One slot of [wake_expired_deadlines]. *)
Definition wake_slot (now : Z) (idx : Z) (k : KSched) : outcome KSched :=
  match ks_threads k !! Z.to_nat idx with
  | None => Panic PIndex
  | Some None => Ret k
  | Some (Some kva) =>
      tcb ← unwrap (ks_tcbs k !! kva);
      let deadline := wait_deadline tcb in
      if is_no_deadline deadline then Ret k else
      if negb (has_expired deadline now) then Ret k else
      if negb (bool_decide (get (ks_state k) (Z.to_nat idx) = Some Blocked)) then Ret k else
      let k1 := with_tcbs k (<[kva := mkTcb (stack_base tcb) NO_DEADLINE (canary tcb)]> (ks_tcbs k)) in
      r ← unblock (ks_state k1) (Z.to_nat idx);
      match r with
      | (Err _, _) => Panic PUnwrap
      | (Ok _, s) => Ret (with_st k1 s)
      end
  end.

Definition wake_expired_deadlines (k : KSched) (now : Z) : outcome KSched :=
  for_range 0 MAX_THREADS (wake_slot now) k.

(** The part of [finish_exit] that concerns the scheduler: the exited thread
    leaves the run queue, its stack's regime is checked and its control block
    is freed ([ProcExit] has the frames and the process). *)
Definition finish_exit (k : KSched) (cpu_id : nat) : outcome KSched :=
  match ks_pending k !! cpu_id with
  | None => Panic PIndex
  | Some None => Ret k
  | Some (Some pending) =>
      current ← try_current_for (ks_state k) cpu_id;
      match current with
      | None => Ret k
      | Some current_idx =>
          if thread_idx pending =? current_idx then Ret k else
          tcb ← unwrap (ks_tcbs k !! tcb_kva pending);
          r ← remove_thread (ks_state k) (thread_idx pending);
          match r with
          | (Err _, _) => Panic PUnwrap
          | (Ok _, s) =>
              if decide (thread_idx pending < length (ks_threads k)) then
                match stack_base tcb with
                | Image _ => Panic PAssert
                | _ =>
                    Ret (with_tcbs (with_pending (with_threads (with_st k s) (<[thread_idx pending := None]> (ks_threads k)))
                      (<[cpu_id := None]> (ks_pending k))) (delete (tcb_kva pending) (ks_tcbs k)))
                end
              else Panic PIndex
          end
      end
  end.

Definition check_thread_canary (tcb : Tcb) : outcome unit := assert (canary tcb =? STACK_CANARY)%Z.

(** [schedule] up to the context switch, after which CPU [cpu_id] runs the
    thread that is its current one. *)
Definition schedule (k : KSched) (cpu_id : nat) (reason : SchedReason) : outcome KSched :=
  k ← finish_exit k cpu_id;
  current ← try_current_for (ks_state k) cpu_id;
  old_idx ← unwrap current;
  old_kva ← tcb_at k old_idx;
  x ← step (ks_state k) cpu_id reason;
  let '(decision, s) := x in
  match decision with
  | SwitchTo idx =>
      _ ← tcb_at k idx;
      old_tcb ← unwrap (ks_tcbs k !! old_kva);
      _ ← check_thread_canary old_tcb;
      Ret (with_st k s)
  | StayOnCurrent | WaitForInterrupt => Ret (with_st k s)
  | ExitAndSwitch _ _ | ExitAndHalt _ => Panic PUnreachable
  end.

Definition schedule_from_idle (k : KSched) (cpu_id : nat) : outcome KSched :=
  k ← finish_exit k cpu_id;
  current ← try_current_for (ks_state k) cpu_id;
  _ ← assert (bool_decide (current = None));
  x ← step_from_idle (ks_state k) cpu_id;
  match x with
  | (None, s) => Ret (with_st k s)
  | (Some (SwitchTo idx), s) => _ ← tcb_at k idx; Ret (with_st k s)
  | (Some _, _) => Panic PUnreachable
  end.

Definition tick (k : KSched) (cpu_id : nat) : outcome KSched :=
  if negb (ks_active k) || (thread_count (ks_state k) <? 2) then Ret k else
  current ← try_current_for (ks_state k) cpu_id;
  match current with
  | None => schedule_from_idle k cpu_id
  | Some cur =>
      match get (ks_state k) cur with
      | Some Exited => schedule k cpu_id Block
      | Some Running => schedule k cpu_id Preempt
      | _ => Ret k
      end
  end.

Definition handle_tick (k : KSched) (cpu_id : nat) (now : Z) : outcome KSched :=
  k ← wake_expired_deadlines k now; tick k cpu_id.

(** One iteration of the loop of [block_current], by thread [t] running on
    [cpu_id], up to the point where it halts or is switched away from. The
    loop looks at the CPU whose number was read when the call began. *)
Definition block_iter (k : KSched) (cpu_id t : nat) : outcome KSched :=
  captured ← unwrap (in_block k !! t);
  current ← current_for (ks_state k) captured;
  match get (ks_state k) current with
  | Some Running => Ret (with_block k (delete t (in_block k)))
  | Some Blocked => schedule k cpu_id Block
  | _ => Panic PUnreachable
  end.

(** The call itself and its first iteration. *)
Definition block_current (k : KSched) (cpu_id : nat) : outcome KSched :=
  t ← current_for (ks_state k) cpu_id;
  r ← Sched.block_current (ks_state k) cpu_id;
  match r with
  | (Err _, _) => Panic PUnwrap
  | (Ok _, s) => block_iter (with_block (with_st k s) (<[t := cpu_id]> (in_block k))) cpu_id t
  end.

(** [exit_current] up to the context switch or the first halt; each later
    round of its halt loop is a [schedule] for [Block]. *)
Definition exit_current (k : KSched) (cpu_id : nat) : outcome KSched :=
  k ← finish_exit k cpu_id;
  p ← match ks_pending k !! cpu_id with Some p => Ret p | None => Panic PIndex end;
  _ ← assert (bool_decide (p = None));
  x ← step (ks_state k) cpu_id Exit;
  match x with
  | (ExitAndSwitch exited next, s) =>
      kva ← tcb_at k exited;
      _ ← tcb_at k next;
      Ret (with_pending (with_st k s) (<[cpu_id := Some (mkPending exited kva)]> (ks_pending k)))
  | (ExitAndHalt exited, s) =>
      kva ← tcb_at k exited;
      schedule (with_pending (with_st k s) (<[cpu_id := Some (mkPending exited kva)]> (ks_pending k))) cpu_id Block
  | _ => Panic PUnreachable
  end.

(** * Events *)

(** What happens next, and on which CPU: a timer interrupt, a system call of
    the running thread that sets a deadline, blocks or exits, the end of a halt
    in [block_current] or [exit_current], the wake-up of a blocked thread, or
    the start of a thread. *)
Inductive Event :=
  | EvTick (c : nat) (now : Z)
  | EvDeadline (c : nat) (deadline : Z)
  | EvBlock (c : nat)
  | EvBlockWake (c : nat)
  | EvExit (c : nat)
  | EvExitWake (c : nat)
  | EvUnblock (t : nat)
  | EvAdd (tcb stack : Z).

(** [CurrentThread::set_wait_deadline] *)
Definition set_wait_deadline (k : KSched) (cpu_id : nat) (deadline : Z) : outcome KSched :=
  t ← current_for (ks_state k) cpu_id;
  kva ← tcb_at k t;
  tcb ← unwrap (ks_tcbs k !! kva);
  Ret (with_tcbs k (<[kva := mkTcb (stack_base tcb) deadline (canary tcb)]> (ks_tcbs k))).

Definition handle (k : KSched) (e : Event) : outcome KSched :=
  match e with
  | EvTick c now => handle_tick k c now
  | EvDeadline c deadline => set_wait_deadline k c deadline
  | EvBlock c => block_current k c
  | EvBlockWake c => t ← current_for (ks_state k) c; block_iter k c t
  | EvExit c => exit_current k c
  | EvExitWake c => schedule k c Block
  | EvUnblock t => kva ← tcb_at k t; unblock_thread k kva
  | EvAdd tcb stack =>
      r ← add_thread (with_tcbs k (<[tcb := mkTcb (DirectMap stack) NO_DEADLINE STACK_CANARY]> (ks_tcbs k))) tcb;
      Ret r.2
  end.

Fixpoint history (k : KSched) (es : list Event) : outcome KSched :=
  match es with
  | [] => Ret k
  | e :: es' => k' ← handle k e; history k' es'
  end.

(** Thread [t] is on CPU [c]. *)
Definition on_cpu (k : KSched) (c t : nat) : Prop := current_per_cpu (ks_state k) !! c = Some (Some t).

(** [t] runs on [c] outside [block_current], so it can enter the kernel. *)
Definition running_user (k : KSched) (c t : nat) : Prop :=
  on_cpu k c t /\ get (ks_state k) t = Some Running /\ in_block k !! t = None.

(** When an event can happen. The boot thread (slot 0) never exits; a thread
    is woken only while it is blocked; a new control block is a page no other
    thread uses. *)
Definition enabled (k : KSched) (e : Event) : Prop :=
  match e with
  | EvTick c _ => c < MAX_CPUS
  | EvDeadline c _ | EvBlock c => exists t, running_user k c t
  | EvBlockWake c => exists t, on_cpu k c t /\ is_Some (in_block k !! t)
  | EvExit c => exists t, running_user k c t /\ t <> 0
  | EvExitWake c => exists t, on_cpu k c t /\ get (ks_state k) t = Some Exited
  | EvUnblock t => get (ks_state k) t = Some Blocked
  | EvAdd tcb _ => forall i, ks_threads k !! i <> Some (Some tcb)
  end.

(** A thread leaves [block_current] on the CPU it entered it on. *)
Definition stays (k : KSched) (e : Event) : Prop :=
  match e with
  | EvBlockWake c => forall t, on_cpu k c t -> in_block k !! t = Some c
  | _ => True
  end.

(** * The invariant *)

Record KI (k : KSched) : Prop := {
  ki_sched : sinv (ks_state k);
  ki_len : length (ks_threads k) = MAX_THREADS;
  ki_plen : length (ks_pending k) = MAX_CPUS;
  ki_threads : forall i, is_Some (get (ks_state k) i) <-> is_Some (mjoin (ks_threads k !! i));
  ki_inj : forall i j kva, ks_threads k !! i = Some (Some kva) -> ks_threads k !! j = Some (Some kva) -> i = j;
  ki_tcb : forall i kva, ks_threads k !! i = Some (Some kva) ->
    exists tcb, ks_tcbs k !! kva = Some tcb /\ canary tcb = STACK_CANARY /\ (i <> 0 -> forall va, stack_base tcb <> Image va);
  ki_boot : exists st, get (ks_state k) 0 = Some st /\ st <> Exited;
  ki_block : forall t c, in_block k !! t = Some c -> exists st, get (ks_state k) t = Some st /\ st <> Exited;
  ki_blocked : forall t, get (ks_state k) t = Some Blocked -> is_Some (in_block k !! t);
  ki_pending : forall c p, ks_pending k !! c = Some (Some p) ->
    get (ks_state k) (thread_idx p) = Some Exited /\ ks_threads k !! thread_idx p = Some (Some (tcb_kva p)) /\
    forall c', on_cpu k c' (thread_idx p) -> c' = c;
  ki_exited : forall i, get (ks_state k) i = Some Exited -> exists c p, ks_pending k !! c = Some (Some p) /\ thread_idx p = i;
  ki_punique : forall c c' p p', ks_pending k !! c = Some (Some p) -> ks_pending k !! c' = Some (Some p') ->
    thread_idx p = thread_idx p' -> c = c';
}.

(** The scheduler moves threads around without exiting or blocking any. *)
Lemma KI_state k s :
  KI k -> sinv s ->
  (forall i, is_Some (get s i) <-> is_Some (get (ks_state k) i)) ->
  (forall i, get s i = Some Exited <-> get (ks_state k) i = Some Exited) ->
  (forall i, get s i = Some Blocked -> get (ks_state k) i = Some Blocked) ->
  (forall c i, current_per_cpu s !! c = Some (Some i) -> get s i = Some Exited -> on_cpu k c i) ->
  KI (with_st k s).
Proof.
  intros [? ? ? HT ? ? HB HBL HBD HP HE ?] Hs H1 H2 H3 H4.
  constructor; cbn [with_st ks_state ks_threads ks_pending ks_tcbs in_block]; try done.
  - intros i. by rewrite H1.
  - destruct HB as (st & Hst & Hne). destruct (proj2 (H1 0)) as [st' Hst']; [by eexists|]. exists st'. split; [done|].
    intros ->. apply H2 in Hst'. congruence.
  - intros t c Ht. destruct (HBL t c Ht) as (st & Hst & Hne). destruct (proj2 (H1 t)) as [st' Hst']; [by eexists|].
    exists st'. split; [done|]. intros ->. apply H2 in Hst'. congruence.
  - intros t Ht. apply HBD. by apply H3.
  - intros c p Hp. destruct (HP c p Hp) as (E & Et & Eu). split_and!; [by apply H2|done|].
    intros c' Hc'. apply Eu. apply H4; [done|by apply H2].
  - intros i Hi. by apply HE, H2.
Qed.

Lemma tcb_at_spec k i : KI k -> is_Some (get (ks_state k) i) ->
  exists kva, tcb_at k i = Ret kva /\ ks_threads k !! i = Some (Some kva).
Proof.
  intros I H. apply (ki_threads _ I) in H as [kva H]. exists kva. unfold tcb_at.
  destruct (ks_threads k !! i) as [[x|]|]; cbn in H; simplify_eq; done.
Qed.

Lemma on_cpu_lt k c t : KI k -> on_cpu k c t -> c < MAX_CPUS.
Proof. intros I H. rewrite <- (si_cpus _ (ki_sched _ I)). by eapply lookup_lt_Some. Qed.

Lemma try_current_spec s c : sinv s -> c < MAX_CPUS -> exists o, current_per_cpu s !! c = Some o /\ try_current_for s c = Ret o.
Proof.
  intros I Hc. unfold try_current_for. destruct (lookup_lt_is_Some_2 (current_per_cpu s) c) as [o E]; [by rewrite (si_cpus _ I)|].
  rewrite E. eauto.
Qed.

(** An exited thread that no CPU is on leaves the queue. *)
Lemma KI_remove k c p :
  KI k -> ks_pending k !! c = Some (Some p) -> (forall c', ~ on_cpu k c' (thread_idx p)) ->
  KI (with_tcbs (with_pending (with_threads (with_st k (with_state (ks_state k) (thread_idx p) None)) (<[thread_idx p := None]> (ks_threads k)))
    (<[c := None]> (ks_pending k))) (delete (tcb_kva p) (ks_tcbs k))).
Proof.
  intros I Hp Hn. pose proof I as [HS ? ? HT HJ ? HB HBL HBD HP HE HU]. destruct (HP c p Hp) as (E & Et & _).
  pose proof (get_lt _ _ _ E) as Hl. pose proof (lookup_lt_Some _ _ _ Et) as Hlt.
  assert (forall i, ks_threads (with_threads k (<[thread_idx p := None]> (ks_threads k))) !! i =
    if decide (i = thread_idx p) then Some None else ks_threads k !! i) as Hth.
  { intros i. cbn. destruct (decide (i = thread_idx p)) as [->|]; [by rewrite list_lookup_insert_eq|by rewrite list_lookup_insert_ne]. }
  assert (forall c' q, <[c := None]> (ks_pending k) !! c' = Some (Some q) -> c' <> c /\ ks_pending k !! c' = Some (Some q)) as Hpe.
  { intros c' q H. apply list_lookup_insert_Some in H as [(_ & [=] & _)|[Hne H]]. done. }
  assert (forall i v, get (with_state (ks_state k) (thread_idx p) None) i = Some v -> i <> thread_idx p /\ get (ks_state k) i = Some v) as Hg.
  { intros i v. rewrite get_with_state by done. by case_decide. }
  assert (forall i v, i <> thread_idx p -> get (ks_state k) i = Some v -> get (with_state (ks_state k) (thread_idx p) None) i = Some v) as Hg'.
  { intros i v Hi Hv. rewrite get_with_state by done. by rewrite decide_False. }
  constructor; cbn [with_tcbs with_pending with_threads with_st ks_state ks_threads ks_pending ks_tcbs in_block]; try (by rewrite length_insert).
  - apply sinv_set; [done|done| |done]. intros c' Hc'. by apply Hn in Hc'.
  - intros i. rewrite Hth, get_with_state by done. case_decide; [split; intros [? [=]]|]. apply HT.
  - intros i j kva. rewrite !Hth. repeat case_decide; try done. apply HJ.
  - intros i kva. rewrite Hth. case_decide as Hd; [done|]. intros Hi. rewrite lookup_delete_ne; [auto|].
    intros Ek. rewrite <- Ek in Hi. by apply Hd, (HJ _ _ _ Hi Et).
  - destruct HB as (st & Hst & Hne). exists st. split; [|done]. apply Hg'; [|done]. intros E0. rewrite <- E0 in E. congruence.
  - intros t c' Ht. destruct (HBL t c' Ht) as (st & Hst & Hne). exists st. split; [|done]. apply Hg'; [|done]. intros ->. congruence.
  - intros t Ht. apply Hg in Ht as [_ Ht]. auto.
  - intros c' q Hq. apply Hpe in Hq as [Hne Hq]. destruct (HP c' q Hq) as (E' & Et' & Eu).
    assert (thread_idx q <> thread_idx p) as Hd by (intros Ed; by apply Hne, (HU c' c q p)).
    split_and!; [by apply Hg'| |done]. by rewrite Hth, decide_False.
  - intros i Hi. apply Hg in Hi as [Hd Hi]. destruct (HE i Hi) as (c' & q & Hq & <-). exists c', q. split; [|done].
    rewrite list_lookup_insert_ne; [done|]. intros <-. congruence.
  - intros c1 c2 q q' [_ H1]%Hpe [_ H2]%Hpe. by apply HU.
Qed.

(** What draining the exit slot leaves as it was. *)
Record drained (k k' : KSched) (c : nat) : Prop := {
  dr_ki : KI k';
  dr_cpus : current_per_cpu (ks_state k') = current_per_cpu (ks_state k);
  dr_get : forall i, get (ks_state k) i <> Some Exited \/ (exists c', on_cpu k c' i) -> get (ks_state k') i = get (ks_state k) i;
  dr_block : in_block k' = in_block k;
  dr_pending : forall cur, on_cpu k c cur -> get (ks_state k) cur <> Some Exited -> ks_pending k' !! c = Some None;
}.

Lemma finish_exit_spec k c : KI k -> c < MAX_CPUS -> exists k', finish_exit k c = Ret k' /\ drained k k' c.
Proof.
  intros I Hc. unfold finish_exit.
  destruct (lookup_lt_is_Some_2 (ks_pending k) c) as [o Eo]; [by rewrite (ki_plen _ I)|]. rewrite Eo.
  destruct o as [p|]; [|exists k; split; [done|]; by constructor].
  destruct (try_current_spec _ _ (ki_sched _ I) Hc) as (cur & Ecur & ->). rewrite bind_Ret.
  destruct cur as [cur|].
  2:{ exists k. split; [done|]. constructor; try done. intros x Hx. unfold on_cpu in Hx. congruence. }
  destruct (ki_pending _ I c p Eo) as (E & Et & Eu).
  destruct (Nat.eqb_spec (thread_idx p) cur) as [Heq|Hne].
  { exists k. split; [done|]. constructor; try done. intros x Hx Hnx. unfold on_cpu in Hx. rewrite Ecur in Hx.
    injection Hx as <-. congruence. }
  destruct (ki_tcb _ I _ _ Et) as (tcb & Htcb & _ & Him). rewrite Htcb. cbn [unwrap]. rewrite bind_Ret.
  assert (forall c', ~ on_cpu k c' (thread_idx p)) as Hno.
  { intros c' Hc'. pose proof (Eu c' Hc') as ->. unfold on_cpu in Hc'. congruence. }
  pose proof (is_current_spec (ks_state k) (thread_idx p)) as Hcur.
  unfold remove_thread. destruct (is_current (ks_state k) (thread_idx p)).
  { destruct (proj1 Hcur eq_refl) as [c' Hc']. by apply Hno in Hc'. }
  rewrite E. rewrite set_state_spec, !bind_Ret by (by eapply get_lt).
  rewrite decide_True by (by eapply lookup_lt_Some).
  assert (thread_idx p <> 0) as H0.
  { intros E0. destruct (ki_boot _ I) as (st & Hst & Hn0). rewrite E0 in E. congruence. }
  destruct (stack_base tcb) eqn:Es; [by destruct (Him H0 va)| |];
    (eexists; split; [done|]); (constructor; [by apply KI_remove|done| |done|]).
  1,3: intros i Hi; cbn [with_tcbs with_pending with_threads with_st ks_state]; rewrite get_with_state by (by eapply get_lt);
    rewrite decide_False; [done|]; intros ->; destruct Hi as [Hi|[c' Hi]]; [congruence|by apply Hno in Hi].
  1,2: intros x _ _; cbn [with_tcbs with_pending ks_pending]; apply list_lookup_insert_eq; by eapply lookup_lt_Some.
Qed.

(** ** Scheduling *)

Lemma step_KI k c cur st reason d s :
  KI k -> on_cpu k c cur -> get (ks_state k) cur = Some st -> reason <> Exit -> reason_ok reason (Some st) ->
  step_post (ks_state k) c cur st reason d s -> sinv s -> KI (with_st k s).
Proof.
  intros I Hc Hst Hne Hr Hp Hs. destruct Hp as [(n & (Hnc & Hn & _) & _ & ->)|[_ Hp]].
  2:{ destruct reason; [destruct Hp as [_ ->]..|done]; by destruct k. }
  pose proof (get_lt _ _ _ Hst) as L1. pose proof (get_lt _ _ _ Hn) as L2.
  assert (left_as reason st = st \/ left_as reason st = Ready /\ st = Running) as Hleft.
  { destruct reason; cbn in *; [right; split; [done|congruence]|by left|done]. }
  apply KI_state; [done|done|..]; intros.
  - rewrite get_switched by done. case_decide as D1; [subst; rewrite Hn; split; by eexists|].
    case_decide as D2; [subst; rewrite Hst; split; by eexists|done].
  - rewrite get_switched by done. case_decide as D1; [subst; rewrite Hn; done|].
    case_decide as D2; [subst i; rewrite Hst; destruct Hleft as [-> | [-> ->]]; done|done].
  - revert H. rewrite get_switched by done. case_decide as D1; [done|].
    case_decide as D2; [subst i; rewrite Hst; destruct Hleft as [-> | [-> ->]]; done|done].
  - cbn [switched current_per_cpu] in H. apply list_lookup_insert_Some in H as [(_ & [= <-] & _)|[_ H]]; [|done].
    revert H0. rewrite get_switched by done. by rewrite decide_True.
Qed.

Lemma schedule_spec k c cur st reason :
  KI k -> on_cpu k c cur -> get (ks_state k) cur = Some st -> reason <> Exit -> reason_ok reason (Some st) ->
  exists k', schedule k c reason = Ret k' /\ KI k'.
Proof.
  intros I Hc Hst Hne Hr. unfold schedule.
  destruct (finish_exit_spec k c I (on_cpu_lt _ _ _ I Hc)) as (k1 & -> & [I1 D1 D2 D3 _]). rewrite bind_Ret.
  assert (on_cpu k1 c cur) as Hc1 by (unfold on_cpu; by rewrite D1).
  assert (get (ks_state k1) cur = Some st) as Hst1 by (rewrite D2; [done|right; by exists c]).
  unfold try_current_for. rewrite Hc1, bind_Ret. cbn [unwrap]. rewrite bind_Ret.
  destruct (tcb_at_spec k1 cur I1 ltac:(by eexists)) as (kva & -> & Hkva). rewrite bind_Ret.
  destruct (ki_tcb _ I1 _ _ Hkva) as (tcb & Htcb & Hcan & _).
  destruct (step_spec (ks_state k1) c cur st reason (ki_sched _ I1) Hc1 Hst1 Hr) as (d & s & -> & Hs & Hp). rewrite bind_Ret.
  assert (KI (with_st k1 s)) as I2 by (by eapply step_KI).
  destruct Hp as [(n & (_ & Hn & _) & -> & _)|[_ Hp]].
  - destruct (tcb_at_spec k1 n I1 ltac:(by eexists)) as (kva' & Ek & _). destruct reason; [| |done];
      rewrite Ek, bind_Ret, Htcb; cbn [unwrap]; unfold check_thread_canary; rewrite bind_Ret, Hcan; cbn; eauto.
  - destruct reason; [destruct Hp as [-> _]; eauto..|done].
Qed.

Lemma idle_spec k c : KI k -> current_per_cpu (ks_state k) !! c = Some None ->
  exists k', schedule_from_idle k c = Ret k' /\ KI k'.
Proof.
  intros I Hc. assert (c < MAX_CPUS) as Hl by (rewrite <- (si_cpus _ (ki_sched _ I)); by eapply lookup_lt_Some).
  unfold schedule_from_idle. destruct (finish_exit_spec k c I Hl) as (k1 & -> & [I1 D1 D2 D3 _]). rewrite bind_Ret.
  rewrite <- D1 in Hc. unfold try_current_for. rewrite Hc, bind_Ret, bool_decide_eq_true_2 by done. cbn [assert]. rewrite bind_Ret.
  unfold step_from_idle, try_current_for. rewrite Hc, bind_Ret, bool_decide_eq_true_2 by done. cbn [assert]. rewrite bind_Ret.
  pose proof (idle_loop_spec (decide_state (ks_state k1) None) MAX_THREADS 0) as Hs. unfold select_for_idle_cpu.
  destruct (idle_loop MAX_THREADS 0 (decide_state (ks_state k1) None)) as [n|].
  2:{ rewrite bind_Ret. eexists. split; [done|]. by destruct k1. }
  destruct Hs as (_ & Hn & _). apply decide_state_ready in Hn. pose proof (get_lt _ _ _ Hn) as Hln.
  pose proof (ki_sched _ I1) as S1. assert (trans (ks_state k1) (mkSched (<[c := Some n]> (current_per_cpu (ks_state k1))) (<[n := Some Running]> (states (ks_state k1))))) as Htr by (by apply tr_assign).
  pose proof (trans_sinv _ _ S1 Htr) as S2.
  rewrite set_state_spec, bind_Ret, set_current_spec, bind_Ret by (done || by eapply lookup_lt_Some).
  change (current_per_cpu (with_state (ks_state k1) n (Some Running))) with (current_per_cpu (ks_state k1)).
  change (states (with_state (ks_state k1) n (Some Running))) with (<[n := Some Running]> (states (ks_state k1))).
  rewrite (checked _ S2). cbn [assert]. rewrite !bind_Ret.
  destruct (tcb_at_spec k1 n I1 ltac:(by eexists)) as (kva & -> & _). rewrite bind_Ret. eexists. split; [done|].
  set (s2 := mkSched _ _) in *.
  assert (forall i, get s2 i = if decide (i = n) then Some Running else get (ks_state k1) i) as Hg.
  { intros i. apply (get_with_state (ks_state k1) n (Some Running) i Hln). }
  apply KI_state; [done|done| | | |].
  - intros i. rewrite Hg. case_decide; [subst; rewrite Hn; split; by eexists|done].
  - intros i. rewrite Hg. case_decide; [subst; by rewrite Hn|done].
  - intros i. rewrite Hg. by case_decide.
  - intros c' i Hi. rewrite Hg. case_decide as Hd; [done|]. intros _. unfold s2 in Hi. cbn [current_per_cpu] in Hi.
    apply list_lookup_insert_Some in Hi as [(_ & [= <-] & _)|[_ H]]; done.
Qed.

(** ** The events *)

Lemma unblock_KI k t : KI k -> get (ks_state k) t = Some Blocked ->
  exists s, unblock (ks_state k) t = Ret (Ok tt, s) /\ KI (with_st k s).
Proof.
  intros I Ht. pose proof (get_lt _ _ _ Ht) as Hl. pose proof (ki_sched _ I) as S.
  assert (exec (ks_state k) (OpUnblock t) = Ret (with_state (ks_state k) t (Some (if is_current (ks_state k) t then Running else Ready)))) as E.
  { cbn [exec]. unfold unblock. rewrite Ht, set_state_spec, !bind_Ret by done. done. }
  pose proof (trans_sinv _ _ S (exec_trans _ _ _ S E)) as S'. unfold unblock. rewrite Ht, set_state_spec, bind_Ret by done.
  eexists. split; [done|].
  apply KI_state; [done|done| | | |].
  - intros i. rewrite get_with_state by done. case_decide; [subst; rewrite Ht; split; by eexists|done].
  - intros i. rewrite get_with_state by done. case_decide; [subst; rewrite Ht; by destruct (is_current _ _)|done].
  - intros i. rewrite get_with_state by done. case_decide; [by destruct (is_current _ _)|done].
  - done.
Qed.

Lemma KI_tcbs k kva tcb d : KI k -> ks_tcbs k !! kva = Some tcb ->
  KI (with_tcbs k (<[kva := mkTcb (stack_base tcb) d (canary tcb)]> (ks_tcbs k))).
Proof.
  intros [? ? ? ? ? HTC ? ? ? ? ? ?] Hk. constructor; try done. intros i kva' Hi. cbn [with_tcbs ks_tcbs].
  destruct (HTC i kva' Hi) as (tcb' & Ht & Hcan & Him). destruct (decide (kva' = kva)) as [->|].
  - rewrite lookup_insert_eq. eexists. split; [done|]. cbn. rewrite Hk in Ht. by injection Ht as ->.
  - rewrite lookup_insert_ne by done. eauto.
Qed.

Lemma wake_slot_spec now idx k : KI k -> (0 <= idx < Z.of_nat MAX_THREADS)%Z -> exists k', wake_slot now idx k = Ret k' /\ KI k'.
Proof.
  intros I Hi. unfold wake_slot.
  destruct (lookup_lt_is_Some_2 (ks_threads k) (Z.to_nat idx)) as [o Eo]; [rewrite (ki_len _ I); lia|]. rewrite Eo.
  destruct o as [kva|]; [|by exists k]. destruct (ki_tcb _ I _ _ Eo) as (tcb & Htcb & _). rewrite Htcb. cbn [unwrap]. rewrite bind_Ret.
  destruct (is_no_deadline _); [by exists k|]. destruct (has_expired _ _); [cbn [negb]|by exists k].
  case_bool_decide as Hb; [cbn [negb]|by exists k]. pose proof (KI_tcbs k kva tcb NO_DEADLINE I Htcb) as I1.
  destruct (unblock_KI _ (Z.to_nat idx) I1 Hb) as (s & -> & I2). rewrite bind_Ret. eauto.
Qed.

Lemma wake_spec now k : KI k -> exists k', wake_expired_deadlines k now = Ret k' /\ KI k'.
Proof.
  intros I. destruct (for_range_inv (fun _ k => KI k) (wake_slot now) MAX_THREADS 0%Z k I) as (k' & E & I'); [|by exists k'].
  intros j k1 Hj I1. by apply wake_slot_spec.
Qed.

Lemma tick_spec k c : KI k -> c < MAX_CPUS -> exists k', tick k c = Ret k' /\ KI k'.
Proof.
  intros I Hc. unfold tick. destruct (negb (ks_active k) || _); [by exists k|].
  destruct (try_current_spec _ _ (ki_sched _ I) Hc) as (o & Eo & ->). rewrite bind_Ret.
  destruct o as [cur|]; [|by apply idle_spec]. destruct (get (ks_state k) cur) as [[]|] eqn:E; try (by exists k).
  - eapply schedule_spec; done.
  - eapply schedule_spec; try done. by right.
Qed.

Lemma block_iter_spec k c t : KI k -> on_cpu k c t -> in_block k !! t = Some c -> exists k', block_iter k c t = Ret k' /\ KI k'.
Proof.
  intros I Hc Hb. unfold block_iter. rewrite Hb. cbn [unwrap]. rewrite bind_Ret, (current_for_spec _ _ _ Hc), bind_Ret.
  destruct (ki_block _ I t c Hb) as (st & Hst & Hne). destruct (si_current _ (ki_sched _ I) c t Hc) as (st' & Hst' & Hnr).
  rewrite Hst in *. injection Hst' as <-. destruct st; try done.
  - eexists. split; [done|]. pose proof I as [? ? ? ? ? ? ? HBL HBD ? ? ?]. constructor; try done; cbn [with_block in_block ks_state].
    + intros t' c' [_ H]%lookup_delete_Some. by eapply HBL.
    + intros t' Ht'. rewrite lookup_delete_ne by (intros ->; congruence). auto.
  - eapply schedule_spec; try done. by left.
Qed.

(** A thread that has marked itself blocked. *)
Definition marked (k : KSched) (c t : nat) : KSched :=
  with_block (with_st k (with_state (ks_state k) t (Some Blocked))) (<[t := c]> (in_block k)).

Lemma marked_KI k c t : KI k -> running_user k c t -> KI (marked k c t).
Proof.
  intros I (Hc & Hr & Hb). pose proof (get_lt _ _ _ Hr) as Hl. unfold marked.
  pose proof I as [HS ? ? HT ? ? HB HBL HBD HP HE ?]. set (s := with_state _ _ _).
  assert (forall i, get s i = if decide (i = t) then Some Blocked else get (ks_state k) i) as Hg by (intros i; by apply get_with_state).
  constructor; try done; cbn [with_block with_st ks_state in_block ks_threads ks_pending ks_tcbs].
  - apply sinv_set; [done|done| |done]. intros _ _. by exists Blocked.
  - intros i. rewrite Hg. case_decide; [subst; rewrite <- HT, Hr; split; by eexists|done].
  - destruct HB as (st & Hst & Hne). rewrite Hg. case_decide; [by exists Blocked|by exists st].
  - intros t' c' Ht'. rewrite Hg. case_decide as Hd; [by exists Blocked|]. rewrite lookup_insert_ne in Ht' by done. by eapply HBL.
  - intros t'. rewrite Hg. case_decide as Hd; [subst; rewrite lookup_insert_eq; by eexists|]. rewrite lookup_insert_ne by done. auto.
  - intros c' p Hp. destruct (HP c' p Hp) as (E & ? & ?). split_and!; [|done|done]. rewrite Hg. rewrite decide_False; [done|]. congruence.
  - intros i. rewrite Hg. case_decide; [done|]. auto.
Qed.

Lemma block_marks k c t : running_user k c t -> block_current k c = block_iter (marked k c t) c t.
Proof.
  intros (Hc & Hr & Hb). pose proof (get_lt _ _ _ Hr) as Hl. unfold block_current, Sched.block_current.
  by rewrite (current_for_spec _ _ _ Hc), !bind_Ret, Hr, set_state_spec, !bind_Ret.
Qed.

Lemma block_spec k c t : KI k -> running_user k c t -> exists k', block_current k c = Ret k' /\ KI k'.
Proof.
  intros I Hu. rewrite (block_marks _ _ _ Hu). apply block_iter_spec; [by apply marked_KI|by apply Hu|cbn; by rewrite lookup_insert_eq].
Qed.

Lemma KI_exit k c t kva s :
  KI k -> on_cpu k c t -> get (ks_state k) t = Some Running -> t <> 0 -> in_block k !! t = None -> ks_pending k !! c = Some None ->
  ks_threads k !! t = Some (Some kva) -> sinv s ->
  (forall i, get s i = Some Exited <-> i = t \/ get (ks_state k) i = Some Exited) ->
  (forall i, is_Some (get s i) <-> is_Some (get (ks_state k) i)) ->
  (forall i, get s i = Some Blocked -> get (ks_state k) i = Some Blocked) ->
  (forall c' i, current_per_cpu s !! c' = Some (Some i) -> get s i = Some Exited -> on_cpu k c' i) ->
  KI (with_pending (with_st k s) (<[c := Some (mkPending t kva)]> (ks_pending k))).
Proof.
  intros [HS ? ? HT ? ? HB HBL HBD HP HE HU] Hc Hr H0 Hb Hp Hth Hs H1 H2 H3 H4.
  assert (forall c' p, <[c := Some (mkPending t kva)]> (ks_pending k) !! c' = Some (Some p) <->
    c' = c /\ p = mkPending t kva \/ c' <> c /\ ks_pending k !! c' = Some (Some p)) as Hpe.
  { intros c' p. pose proof (lookup_lt_Some _ _ _ Hp). destruct (decide (c' = c)) as [->|].
    - rewrite list_lookup_insert_eq by done. naive_solver.
    - rewrite list_lookup_insert_ne by done. naive_solver. }
  assert (forall c' p, ks_pending k !! c' = Some (Some p) -> thread_idx p <> t) as Hpt.
  { intros c' p Hq E. destruct (HP c' p Hq) as (E' & _). rewrite E in E'. congruence. }
  constructor; cbn [with_pending with_st ks_state ks_threads ks_pending ks_tcbs in_block]; try done; try (by rewrite length_insert).
  - intros i. by rewrite H2.
  - destruct HB as (st & Hst & Hne). destruct (proj2 (H2 0)) as [st' Hst']; [by eexists|]. exists st'. split; [done|].
    intros ->. apply H1 in Hst' as [E|E]; [by apply H0|congruence].
  - intros t' c' Ht. destruct (HBL t' c' Ht) as (st & Hst & Hne). destruct (proj2 (H2 t')) as [st' Hst']; [by eexists|].
    exists st'. split; [done|]. intros ->. apply H1 in Hst' as [->|E]; congruence.
  - intros t' Ht. apply HBD. by apply H3.
  - intros c' p [[-> ->]|[Hne Hq]]%Hpe; cbn [thread_idx tcb_kva].
    + split_and!; [apply H1; by left|done|]. intros c' Hc'. assert (on_cpu k c' t) as Hc2 by (apply H4; [done|apply H1; by left]).
      by eapply (si_unique _ HS).
    + destruct (HP c' p Hq) as (E & Et & Eu). split_and!; [apply H1; by right|done|].
      intros c2 Hc2. apply Eu. apply H4; [done|]. apply H1. by right.
  - intros i [->|Hi]%H1; [exists c, (mkPending t kva); split; [apply Hpe; by left|done]|].
    destruct (HE i Hi) as (c' & p & Hq & <-). exists c', p. split; [|done]. apply Hpe. right. split; [|done]. intros ->. congruence.
  - intros c1 c2 p p' [[-> ->]|[Hne Hq]]%Hpe [[-> ->]|[Hne' Hq']]%Hpe; cbn [thread_idx]; try done.
    + intros E. by apply Hpt in Hq'.
    + intros E. by apply Hpt in Hq.
    + by apply HU.
Qed.

Lemma exit_spec k c t : KI k -> running_user k c t -> t <> 0 -> exists k', exit_current k c = Ret k' /\ KI k'.
Proof.
  intros I (Hc & Hr & Hb) H0. unfold exit_current.
  destruct (finish_exit_spec k c I (on_cpu_lt _ _ _ I Hc)) as (k1 & -> & [I1 D1 D2 D3 D4]). rewrite bind_Ret.
  assert (on_cpu k1 c t) as Hc1 by (unfold on_cpu; by rewrite D1).
  assert (get (ks_state k1) t = Some Running) as Hr1 by (rewrite D2; [done|right; by exists c]).
  rewrite <- D3 in Hb. pose proof (D4 t Hc ltac:(congruence)) as Hp. rewrite Hp, bind_Ret, bool_decide_eq_true_2 by done.
  cbn [assert]. rewrite bind_Ret.
  destruct (step_spec (ks_state k1) c t Running Exit (ki_sched _ I1) Hc1 Hr1 eq_refl) as (d & s & -> & Hs & Hpost). rewrite bind_Ret.
  destruct (tcb_at_spec k1 t I1 ltac:(by eexists)) as (kva & Ek & Eth). pose proof (get_lt _ _ _ Hr1) as L1.
  destruct Hpost as [(n & (Hnt & Hn & _) & -> & ->)|[_ [-> ->]]]; cbn [left_as] in *; rewrite Ek, bind_Ret.
  - destruct (tcb_at_spec k1 n I1 ltac:(by eexists)) as (kva' & -> & _). rewrite bind_Ret. eexists. split; [done|].
    pose proof (get_lt _ _ _ Hn) as L2. apply KI_exit; try done; intros i.
    + rewrite get_switched by done. repeat case_decide; subst; naive_solver congruence.
    + rewrite get_switched by done. repeat case_decide; subst; rewrite ?Hn, ?Hr1; [split; by eexists..|done].
    + rewrite get_switched by done. by repeat case_decide.
    + intros j Hj. rewrite get_switched by done. unfold on_cpu. cbn [switched current_per_cpu] in Hj.
      apply list_lookup_insert_Some in Hj as [(_ & [= <-] & _)|[_ Hj]]; [by rewrite decide_True|done].
  - eapply (schedule_spec _ c t Exited); [|done| |done|by right].
    + apply KI_exit; try done; intros i.
      * rewrite get_with_state by done. case_decide; subst; naive_solver.
      * rewrite get_with_state by done. case_decide; [subst; rewrite Hr1; split; by eexists|done].
      * rewrite get_with_state by done. by case_decide.
    + cbn. rewrite get_with_state by done. by rewrite decide_True.
Qed.

(** A new ready thread in an empty slot. *)
Lemma KI_add k j tcb t :
  KI k -> get (ks_state k) j = None -> j < MAX_THREADS -> (forall i, ks_threads k !! i <> Some (Some tcb)) ->
  ks_tcbs k !! tcb = Some t -> canary t = STACK_CANARY -> (forall va, stack_base t <> Image va) ->
  KI (with_threads (with_st k (with_state (ks_state k) j (Some Ready))) (<[j := Some tcb]> (ks_threads k))).
Proof.
  intros [HS HL HPL HT HJ HTC HB HBL HBD HP HE HU] Hg0 Hl Hf Ht Hcan Him.
  assert (forall i, get (with_state (ks_state k) j (Some Ready)) i = if decide (i = j) then Some Ready else get (ks_state k) i) as Hg.
  { intros i. apply get_with_state. by rewrite (si_threads _ HS). }
  assert (forall i, <[j := Some tcb]> (ks_threads k) !! i = if decide (i = j) then Some (Some tcb) else ks_threads k !! i) as Hth.
  { intros i. case_decide as Hd; [subst; apply list_lookup_insert_eq; by rewrite HL|by rewrite list_lookup_insert_ne]. }
  constructor; cbn [with_threads with_st ks_state ks_threads ks_pending ks_tcbs in_block]; try done; try (by rewrite length_insert).
  - apply sinv_set; [done|by rewrite (si_threads _ HS)| |done]. intros c Hc.
    destruct (si_current _ HS c j Hc) as (st & E & _). congruence.
  - intros i. rewrite Hg, Hth. case_decide; [split; by eexists|done].
  - intros i i' kva. rewrite !Hth. repeat case_decide; subst; try done.
    + intros [= <-] E. by apply Hf in E.
    + intros E [= <-]. by apply Hf in E.
    + apply HJ.
  - intros i kva. rewrite Hth. case_decide as Hd; [intros [= <-]; eauto|auto].
  - destruct HB as (st & E & ?). exists st. rewrite Hg, decide_False; [done|]. intros <-. congruence.
  - intros t' c Ht'. destruct (HBL t' c Ht') as (st & ? & ?). exists st. rewrite Hg, decide_False; [done|]. intros ->. congruence.
  - intros t'. rewrite Hg. case_decide; [done|auto].
  - intros c p Hp. destruct (HP c p Hp) as (E & Et & Eu).
    assert (thread_idx p <> j) by (intros Ed; rewrite Ed in E; congruence).
    split_and!; [by rewrite Hg, decide_False|by rewrite Hth, decide_False|done].
  - intros i. rewrite Hg. case_decide; [done|auto].
Qed.

Lemma add_spec k tcb stack : KI k -> (forall i, ks_threads k !! i <> Some (Some tcb)) ->
  exists r k', add_thread (with_tcbs k (<[tcb := mkTcb (DirectMap stack) NO_DEADLINE STACK_CANARY]> (ks_tcbs k))) tcb = Ret (r, k') /\ KI k'.
Proof.
  intros I Hf. set (k1 := with_tcbs _ _).
  assert (KI k1) as I1.
  { pose proof I as [? ? ? ? ? HTC ? ? ? ? ? ?]. constructor; try done. intros i kva Hi. cbn [k1 with_tcbs ks_tcbs].
    rewrite lookup_insert_ne; [auto|]. intros <-. by apply (Hf i). }
  unfold add_thread, Sched.add_thread.
  pose proof (first_free_spec (states (ks_state k1)) 0) as Hs. destruct (first_free (states (ks_state k1)) 0) as [idx|].
  2:{ do 2 eexists. split; [done|]. by destruct k1. }
  destruct Hs as (j & -> & Hj & _). cbn [Nat.add]. assert (get (ks_state k1) j = None) as Hg0 by (unfold get; by rewrite Hj).
  assert (j <> 0) as Hj0 by (intros ->; destruct (ki_boot _ I1) as (st & ? & _); congruence).
  pose proof (lookup_lt_Some _ _ _ Hj) as Hl. rewrite (si_threads _ (ki_sched _ I1)) in Hl.
  rewrite (proj2 (Nat.eqb_neq j 0)), bind_Ret by done. rewrite (proj2 (Nat.leb_gt MAX_THREADS j)) by done.
  do 2 eexists. split; [done|].
  apply (KI_add k1 j tcb (mkTcb (DirectMap stack) NO_DEADLINE STACK_CANARY) I1 Hg0 Hl Hf); [apply lookup_insert_eq|done|done].
Qed.

Lemma handle_spec k e : KI k -> enabled k e -> stays k e -> exists k', handle k e = Ret k' /\ KI k'.
Proof.
  intros I. destruct e as [c now|c d|c|c|c|c|t|tcb stack]; cbn [enabled stays handle].
  - intros Hc _. unfold handle_tick. destruct (wake_spec now k I) as (k1 & -> & I1). rewrite bind_Ret. by apply tick_spec.
  - intros (t & Hc & Hr & _) _. unfold set_wait_deadline. rewrite (current_for_spec _ _ _ Hc), bind_Ret.
    destruct (tcb_at_spec k t I ltac:(by eexists)) as (kva & -> & Hk). rewrite bind_Ret.
    destruct (ki_tcb _ I _ _ Hk) as (tcb & Ht & _). rewrite Ht. cbn [unwrap]. rewrite bind_Ret. eexists. split; [done|]. by apply KI_tcbs.
  - intros (t & Hu) _. by eapply block_spec.
  - intros (t & Hc & _) Hs. rewrite (current_for_spec _ _ _ Hc), bind_Ret. apply block_iter_spec; auto.
  - intros (t & Hu & H0) _. by eapply exit_spec.
  - intros (t & Hc & He) _. eapply schedule_spec; try done. by right.
  - intros Hb _. destruct (tcb_at_spec k t I ltac:(by eexists)) as (kva & -> & Hk). rewrite bind_Ret.
    unfold unblock_thread, thread_index_for.
    destruct (list_find (fun o => o = Some kva) (ks_threads k)) as [[i x]|] eqn:Ef.
    + apply list_find_Some in Ef as (Hi & -> & _). rewrite (ki_inj _ I i t kva Hi Hk). cbn [fmap option_fmap option_map fst unwrap].
      rewrite bind_Ret. destruct (unblock_KI k t I Hb) as (s & -> & I'). rewrite bind_Ret. eauto.
    + eapply list_find_None, Forall_lookup_1 in Ef; [|exact Hk]. done.
  - intros Hf _. destruct (add_spec k tcb stack I Hf) as (r & k' & -> & I'). rewrite bind_Ret. eauto.
Qed.

(** ** What an event leaves alone *)

(** Splits a computation that returned into its parts. *)
Ltac undo H :=
  repeat match type of H with
  | mbind _ ?m = Ret _ => let E := fresh "E" in destruct m eqn:E; [rewrite bind_Ret in H|discriminate H]
  | (if ?b then _ else _) = Ret _ => destruct b; try discriminate H
  | context [match ?x with _ => _ end] => destruct x; try discriminate H
  end.

(** Only CPU [c] may have got another thread. *)
Definition same_others (c : nat) (s s' : SchedState) : Prop :=
  forall c', c' <> c -> current_per_cpu s' !! c' = current_per_cpu s !! c'.

Lemma set_state_cpus s i v s' : set_state s i v = Ret s' -> current_per_cpu s' = current_per_cpu s.
Proof. unfold set_state. case_decide; [by intros [= <-]|done]. Qed.

Lemma set_current_others s c n s' : set_current s c n = Ret s' -> same_others c s s'.
Proof. unfold set_current. case_decide; [|done]. intros [= <-] c' Hc. cbn. by apply list_lookup_insert_ne. Qed.

Lemma apply_decision_others s c r d x s' : apply_decision s c r d = Ret (x, s') -> same_others c s s'.
Proof.
  intros H. unfold apply_decision in H. undo H; try (injection H as <- <-; done); injection H as <- <-;
  intros c' Hc; repeat match goal with
  | H : set_current _ _ _ = Ret ?s |- current_per_cpu ?s !! _ = _ => rewrite (set_current_others _ _ _ _ H c' Hc); clear H
  | H : set_state _ _ _ = Ret ?s |- current_per_cpu ?s !! _ = _ => rewrite (set_state_cpus _ _ _ _ H); clear H
  end; done.
Qed.

Lemma step_others s c r d s' : step s c r = Ret (d, s') -> same_others c s s'.
Proof. intros H. unfold step in H. undo H. injection H as <- <-. by eapply apply_decision_others. Qed.

Lemma step_from_idle_others s c d s' : step_from_idle s c = Ret (d, s') -> same_others c s s'.
Proof.
  intros H. unfold step_from_idle in H. undo H; injection H as <- <-; [|done].
  intros c' Hc. rewrite (set_current_others _ _ _ _ E2 c' Hc). by rewrite (set_state_cpus _ _ _ _ E1).
Qed.

Lemma unblock_cpus s i x s' : unblock s i = Ret (x, s') -> current_per_cpu s' = current_per_cpu s.
Proof. intros H. unfold unblock in H. undo H; injection H as <- <-; try done. by eapply set_state_cpus. Qed.

Lemma remove_thread_cpus s i x s' : remove_thread s i = Ret (x, s') -> current_per_cpu s' = current_per_cpu s.
Proof. intros H. unfold remove_thread in H. undo H; injection H as <- <-; try done. by eapply set_state_cpus. Qed.

Lemma block_current_cpus s c x s' : Sched.block_current s c = Ret (x, s') -> current_per_cpu s' = current_per_cpu s.
Proof. intros H. unfold Sched.block_current in H. undo H; injection H as <- <-; try done. by eapply set_state_cpus. Qed.

(** CPU [c] alone may have switched, and only activations of [block_current]
    on [c] are new. *)
Definition local_to (c : nat) (k k' : KSched) : Prop :=
  same_others c (ks_state k) (ks_state k') /\
  forall t c', in_block k' !! t = Some c' -> in_block k !! t = Some c' \/ c' = c.

Lemma local_refl c k : local_to c k k.
Proof. split; [done|]. intros t c' H. by left. Qed.

Lemma local_trans c k1 k2 k3 : local_to c k1 k2 -> local_to c k2 k3 -> local_to c k1 k3.
Proof.
  intros [A1 A2] [B1 B2]. split; [intros c' Hc; by rewrite B1, A1|]. intros t c' H. destruct (B2 t c' H) as [H'|]; [auto|by right].
Qed.

Lemma finish_exit_local k c c' k' : finish_exit k c = Ret k' -> local_to c' k k'.
Proof.
  intros H. unfold finish_exit in H. undo H; try (injection H as <-; apply local_refl); injection H as <-.
  all: split; [|intros t c0 Ht; by left]; intros c0 _; cbn [with_pending with_threads with_st ks_state].
  all: by erewrite remove_thread_cpus by done.
Qed.

Lemma schedule_local k c r k' : schedule k c r = Ret k' -> local_to c k k'.
Proof.
  intros H. unfold schedule in H. undo H; try discriminate H; injection H as <-.
  all: eapply local_trans; [by eapply finish_exit_local|]; split; [by eapply step_others|]; intros t c' Ht; by left.
Qed.

Lemma schedule_from_idle_local k c k' : schedule_from_idle k c = Ret k' -> local_to c k k'.
Proof.
  intros H. unfold schedule_from_idle in H. undo H; try discriminate H; injection H as <-.
  all: eapply local_trans; [by eapply finish_exit_local|]; split; [by eapply step_from_idle_others|]; intros t c' Ht; by left.
Qed.

Lemma wake_local c now k k' : KI k -> wake_expired_deadlines k now = Ret k' -> local_to c k k'.
Proof.
  intros I H. destruct (for_range_inv (fun _ k1 => KI k1 /\ local_to c k k1) (wake_slot now) MAX_THREADS 0%Z k) as (k2 & E & _ & L).
  - split; [done|apply local_refl].
  - intros j k1 Hj [I1 L1]. destruct (wake_slot_spec now j k1 I1 Hj) as (k2 & E & I2). exists k2. split_and!; try done.
    eapply local_trans; [exact L1|]. clear -E. unfold wake_slot in E. undo E; try (injection E as <-; apply local_refl); injection E as <-.
    split; [|intros t c' Ht; by left]. intros c' _. cbn [with_st ks_state]. by erewrite unblock_cpus by done.
  - unfold wake_expired_deadlines in H. rewrite E in H. by injection H as <-.
Qed.

Definition event_cpu (e : Event) : option nat :=
  match e with
  | EvTick c _ | EvDeadline c _ | EvBlock c | EvBlockWake c | EvExit c | EvExitWake c => Some c
  | EvUnblock _ | EvAdd _ _ => None
  end.

Lemma block_iter_local k c t k' : block_iter k c t = Ret k' -> local_to c k k'.
Proof.
  intros H. unfold block_iter in H. undo H; try discriminate H; [|by eapply schedule_local].
  injection H as <-. split; [done|]. intros t' c' Ht. cbn [with_block in_block] in Ht. apply lookup_delete_Some in Ht as [_ Ht]. by left.
Qed.

Lemma exit_local k c k' : exit_current k c = Ret k' -> local_to c k k'.
Proof.
  intros H. unfold exit_current in H. undo H; try discriminate H.
  all: eapply local_trans; [by eapply finish_exit_local|].
  - injection H as <-. split; [by eapply step_others|]. intros t c' Ht. by left.
  - eapply local_trans; [|by eapply schedule_local]. split; [by eapply step_others|]. intros t c' Ht. by left.
Qed.

Lemma add_local k tcb r k' c : is_Some (get (ks_state k) 0) -> add_thread k tcb = Ret (r, k') -> local_to c k k'.
Proof.
  intros [st Hst] H. unfold add_thread, Sched.add_thread in H.
  pose proof (first_free_spec (states (ks_state k)) 0) as Hs. destruct (first_free (states (ks_state k)) 0) as [idx|].
  2:{ injection H as <- <-. split; [done|]. intros t c' Ht. by left. }
  destruct Hs as (j & -> & Hj & _). cbn [Nat.add] in H.
  rewrite (proj2 (Nat.eqb_neq j 0)), bind_Ret in H by (intros ->; unfold get in Hst; by rewrite Hj in Hst).
  undo H; injection H as <- <-; (split; [done|]); intros t c' Ht; by left.
Qed.

Lemma handle_local k e k' c : KI k -> event_cpu e = Some c \/ event_cpu e = None -> handle k e = Ret k' -> local_to c k k'.
Proof.
  intros I Hc H. destruct e as [c0 now|c0 d|c0|c0|c0|c0|t|tcb stack]; cbn [event_cpu handle] in *; destruct Hc as [Hc|Hc]; try discriminate Hc;
    try (injection Hc as ->).
  - unfold handle_tick in H. undo H. eapply local_trans; [by eapply wake_local|]. clear E. unfold tick in H. undo H; try discriminate H;
    try (injection H as <-; apply local_refl); first [by eapply schedule_local|by eapply schedule_from_idle_local].
  - unfold set_wait_deadline in H. undo H. injection H as <-. split; [done|]. intros t c' Ht. by left.
  - unfold block_current in H. undo H; try discriminate H. eapply local_trans; [|by eapply block_iter_local].
    split; [intros c' _; cbn; by erewrite block_current_cpus by done|]. intros t c' Ht. cbn [with_block in_block] in Ht.
    apply lookup_insert_Some in Ht as [[_ <-]|[_ Ht]]; [by right|by left].
  - undo H. by eapply block_iter_local.
  - by eapply exit_local.
  - by eapply schedule_local.
  - undo H. unfold unblock_thread in H. undo H. injection H as <-. split; [|intros t' c' Ht; by left].
    intros c' _. cbn. by erewrite unblock_cpus by done.
  - undo H. injection H as <-. destruct a as [r k1].
    apply (add_local _ tcb r k1 c) in E as [L1 L2]; [by split|]. destruct (ki_boot _ I) as (st & ? & _). by eexists.
Qed.

(** * Histories *)

(** Every event of the history is possible when its turn comes. *)
Fixpoint admissible (P : KSched -> Event -> Prop) (k : KSched) (es : list Event) : Prop :=
  match es with
  | [] => True
  | e :: es' => P k e /\ forall k', handle k e = Ret k' -> admissible P k' es'
  end.

Lemma history_spec P es : (forall k e, P k e -> enabled k e /\ stays k e) ->
  forall k, KI k -> admissible P k es -> exists k', history k es = Ret k' /\ KI k'.
Proof.
  intros HP. induction es as [|e es IH]; intros k I H; cbn [history]; [by exists k|].
  destruct H as [He Hes]. destruct (HP k e He) as [H1 H2]. destruct (handle_spec k e I H1 H2) as (k1 & E & I1).
  rewrite E, bind_Ret. apply IH; auto.
Qed.

(** One CPU only: nothing runs elsewhere. *)
Definition one_cpu (k : KSched) : Prop :=
  (forall c t, on_cpu k c t -> c = 0) /\ (forall t c, in_block k !! t = Some c -> c = 0).

Definition cpu0_event (e : Event) : Prop := event_cpu e = Some 0 \/ event_cpu e = None.

Lemma one_cpu_local k k' : one_cpu k -> local_to 0 k k' -> one_cpu k'.
Proof.
  intros [H1 H2] [L1 L2]. split.
  - intros c t Hc. destruct (decide (c = 0)) as [|Hne]; [done|]. unfold on_cpu in Hc. rewrite L1 in Hc by done. by eapply H1.
  - intros t c Ht. destruct (L2 t c Ht) as [H|]; [by eapply H2|done].
Qed.

Lemma history_up es : forall k, KI k -> one_cpu k -> admissible (fun k e => enabled k e /\ cpu0_event e) k es ->
  exists k', history k es = Ret k' /\ KI k'.
Proof.
  induction es as [|e es IH]; intros k I U H; cbn [history]; [by exists k|]. destruct H as [[He Hc] Hes].
  assert (stays k e) as Hs.
  { destruct e; try done. destruct Hc as [[= ->]|[=]]. intros t Ht. cbn [enabled] in He. destruct He as (t' & Ht' & [x Hx]).
    unfold on_cpu in *. rewrite Ht in Ht'. injection Ht' as <-. by rewrite Hx, (proj2 U t x Hx). }
  destruct (handle_spec k e I He Hs) as (k1 & E & I1). rewrite E, bind_Ret. apply IH; [done| |by apply Hes].
  eapply one_cpu_local; [done|]. by apply (handle_local k e).
Qed.

(** ** Example systems *)

(** The boot thread on CPU 0 and one more, ready, thread. *)
Definition two_threads : KSched :=
  mkKS (mkSched [Some 0; None; None; None] (Some Running :: Some Ready :: replicate 1022 None))
    (Some 4096%Z :: Some 8192%Z :: replicate 1022 None) true (replicate 4 None)
    {[4096%Z := mkTcb (Image 0) NO_DEADLINE STACK_CANARY; 8192%Z := mkTcb (DirectMap 0) NO_DEADLINE STACK_CANARY]} ∅.

Lemma replicate_join {A} n (i : nat) : mjoin (replicate n (@None A) !! i) = None.
Proof. destruct (replicate n None !! i) as [o|] eqn:E; [|done]. by apply lookup_replicate in E as [-> _]. Qed.

Lemma two_threads_slot i : mjoin (ks_threads two_threads !! i) = match i with 0 => Some 4096%Z | 1 => Some 8192%Z | _ => None end.
Proof. destruct i as [|[|i]]; [done|done|]. exact (replicate_join 1022 i). Qed.

Lemma two_threads_get i : get (ks_state two_threads) i = match i with 0 => Some Running | 1 => Some Ready | _ => None end.
Proof. destruct i as [|[|i]]; [done|done|]. exact (replicate_join 1022 i). Qed.

Lemma two_threads_KI : KI two_threads.
Proof.
  constructor.
  - apply check_invariants_spec; vm_compute; reflexivity.
  - reflexivity.
  - reflexivity.
  - intros i. rewrite two_threads_get, two_threads_slot. destruct i as [|[|i]]; [split; by eexists|split; by eexists|].
    split; by intros [? ?].
  - intros i j kva Hi Hj. pose proof (two_threads_slot i) as Ei. pose proof (two_threads_slot j) as Ej.
    rewrite Hi in Ei. rewrite Hj in Ej. cbn [mjoin option_join] in *. destruct i as [|[|i]], j as [|[|j]]; congruence.
  - intros i kva Hi. pose proof (two_threads_slot i) as Ei. rewrite Hi in Ei. cbn [mjoin option_join] in Ei.
    destruct i as [|[|i]]; [injection Ei as ->|injection Ei as ->|discriminate Ei]; (eexists; split; [reflexivity|]; split; [reflexivity|]); [done|]. intros _ va. done.
  - exists Running. split; [reflexivity|done].
  - intros t c H. done.
  - intros t. rewrite two_threads_get. by destruct t as [|[|t]].
  - intros c p H. cbn in H. by do 4 (destruct c as [|c]; [done|]).
  - intros i. rewrite two_threads_get. by destruct i as [|[|i]].
  - intros c c' p p' H. cbn in H. by do 4 (destruct c as [|c]; [done|]).
Qed.

(** ** Deciding whether an event is possible *)

Definition on_cpu_with (k : KSched) (c : nat) (p : nat -> bool) : bool :=
  match current_per_cpu (ks_state k) !! c with Some (Some t) => p t | _ => false end.

Definition enabledb (k : KSched) (e : Event) : bool :=
  let user t := bool_decide (get (ks_state k) t = Some Running) && bool_decide (in_block k !! t = None) in
  match e with
  | EvTick c _ => c <? MAX_CPUS
  | EvDeadline c _ | EvBlock c => on_cpu_with k c user
  | EvBlockWake c => on_cpu_with k c (fun t => bool_decide (is_Some (in_block k !! t)))
  | EvExit c => on_cpu_with k c (fun t => user t && negb (t =? 0))
  | EvExitWake c => on_cpu_with k c (fun t => bool_decide (get (ks_state k) t = Some Exited))
  | EvUnblock t => bool_decide (get (ks_state k) t = Some Blocked)
  | EvAdd tcb _ => bool_decide (Some tcb ∉ ks_threads k)
  end.

Lemma on_cpu_with_spec k c p : on_cpu_with k c p = true -> exists t, on_cpu k c t /\ p t = true.
Proof. unfold on_cpu_with, on_cpu. destruct (current_per_cpu (ks_state k) !! c) as [[t|]|]; [eauto|done|done]. Qed.

Lemma enabledb_sound k e : enabledb k e = true -> enabled k e.
Proof.
  destruct e; cbn [enabledb enabled].
  - apply Nat.ltb_lt.
  - intros (t & Hc & [H1 H2]%andb_true_iff)%on_cpu_with_spec. exists t. by repeat split; try (by eapply bool_decide_eq_true_1).
  - intros (t & Hc & [H1 H2]%andb_true_iff)%on_cpu_with_spec. exists t. by repeat split; try (by eapply bool_decide_eq_true_1).
  - intros (t & Hc & H)%on_cpu_with_spec. exists t. split; [done|]. by eapply bool_decide_eq_true_1.
  - intros (t & Hc & [[H1 H2]%andb_true_iff H3]%andb_true_iff)%on_cpu_with_spec. exists t.
    split; [|by apply Nat.eqb_neq, negb_true_iff]. by repeat split; try (by eapply bool_decide_eq_true_1).
  - intros (t & Hc & H)%on_cpu_with_spec. exists t. split; [done|]. by eapply bool_decide_eq_true_1.
  - apply bool_decide_eq_true_1.
  - intros H%bool_decide_eq_true_1 i Hi. apply H. by eapply list_elem_of_lookup_2.
Qed.

Fixpoint checks (p : KSched -> Event -> bool) (k : KSched) (es : list Event) : bool :=
  match es with
  | [] => true
  | e :: es' => p k e && match handle k e with Ret k' => checks p k' es' | Panic _ => true end
  end.

Lemma checks_sound (p : KSched -> Event -> bool) (P : KSched -> Event -> Prop) es :
  (forall k e, p k e = true -> P k e) -> forall k, checks p k es = true -> admissible P k es.
Proof.
  intros Hp. induction es as [|e es IH]; intros k H; [done|]. cbn [checks admissible] in *.
  apply andb_true_iff in H as [H1 H2]. split; [auto|]. intros k' E. rewrite E in H2. auto.
Qed.

Definition cpu0b (e : Event) : bool := match event_cpu e with Some 0 | None => true | _ => false end.
Definition staysb (k : KSched) (e : Event) : bool :=
  match e with
  | EvBlockWake c => on_cpu_with k c (fun t => bool_decide (in_block k !! t = Some c))
  | _ => true
  end.

Lemma staysb_sound k e : staysb k e = true -> stays k e.
Proof.
  destruct e; try done. cbn [staysb stays]. intros (t & Hc & H)%on_cpu_with_spec t' Ht'. unfold on_cpu in *.
  rewrite Hc in Ht'. injection Ht' as <-. by eapply bool_decide_eq_true_1.
Qed.

(** * Theorems *)

(** C12: Safety of the scheduler on several CPUs. From a sound state, any
    history of ticks, blocking and exiting system calls, wake-ups, deadlines
    and new threads, on up to four CPUs in any interleaving, runs without a
    panic and keeps the scheduler, thread table, exit slots and blocked
    threads consistent, provided every thread leaves [block_current] on the
    CPU it entered it on. *)
Theorem kernel_sched_safe k es :
  KI k -> admissible (fun k e => enabled k e /\ stays k e) k es -> exists k', history k es = Ret k' /\ KI k'.
Proof. apply history_spec. done. Qed.

Definition smp_history : list Event :=
  [EvAdd 12288 1; EvTick 1 0; EvBlock 0; EvUnblock 0; EvTick 0 0; EvBlockWake 0; EvDeadline 1 5; EvBlock 1; EvTick 1 7;
   EvBlockWake 1; EvExit 1; EvTick 1 9].

Lemma kernel_sched_safe_witness : exists k', history two_threads smp_history = Ret k' /\ KI k'.
Proof.
  apply (kernel_sched_safe two_threads smp_history two_threads_KI).
  apply (checks_sound (fun k e => enabledb k e && staysb k e)); [|vm_compute; reflexivity].
  intros k e [H1 H2]%andb_true_iff. split; [by apply enabledb_sound|by apply staysb_sound].
Defined.

(** Safety of the scheduler on one CPU. When only CPU 0 takes part, no
    history of possible events panics at all, and the scheduler's state stays
    sound; the condition on [block_current] holds by itself. *)
Theorem kernel_sched_safe_one_cpu k es :
  KI k -> one_cpu k -> admissible (fun k e => enabled k e /\ cpu0_event e) k es -> exists k', history k es = Ret k' /\ KI k'.
Proof. apply history_up. Qed.

Definition up_history : list Event :=
  [EvBlock 0; EvUnblock 0; EvTick 0 3; EvBlockWake 0; EvDeadline 0 10; EvBlock 0; EvBlock 0; EvTick 0 11; EvBlockWake 0].

Lemma kernel_sched_safe_one_cpu_witness : exists es k', history two_threads es = Ret k' /\ length es = 9 /\ KI k'.
Proof.
  exists up_history.
  destruct (kernel_sched_safe_one_cpu two_threads up_history two_threads_KI) as (k' & E & I).
  - split; [|intros t c H; done]. intros c t H. unfold on_cpu in H. by do 4 (destruct c as [|c]; [done|]).
  - apply (checks_sound (fun k e => enabledb k e && cpu0b e)); [|vm_compute; reflexivity].
    intros k e [H1 H2]%andb_true_iff. split; [by apply enabledb_sound|]. unfold cpu0_event, cpu0b in *. destruct (event_cpu e) as [[]|]; [auto|discriminate H2|auto].
  - exists k'. split; [exact E|]. split; [reflexivity|exact I].
Defined.

(** C39: Blocking can panic once threads move between CPUs. [block_current]
    reads its CPU number once and its loop keeps looking at that CPU. With two
    CPUs there is a history of possible events in which a thread blocks on CPU
    0, is woken and resumed by CPU 1, and, because the thread CPU 0 took up
    instead has blocked meanwhile, takes itself for blocked and asks the
    scheduler to block a running thread, which panics the kernel. *)
Theorem block_current_migration_panics :
  KI two_threads /\
  let es := [EvBlock 0; EvUnblock 0; EvTick 1 0; EvBlock 0; EvBlockWake 1] in
  admissible enabled two_threads es /\ history two_threads es = Panic PAssert.
Proof.
  split; [apply two_threads_KI|]. split; [|vm_compute; reflexivity].
  apply (checks_sound enabledb); [apply enabledb_sound|vm_compute; reflexivity].
Qed.
