(* ===== verification/IpcState.v ===== *)
(** The pure parts of IPC: the decision functions and the three-thread model of
    lockjaw-types/src/ipc_state.rs, the timeline counter of notification_state.rs
    and the readiness logic of wait.rs. The model is checked exhaustively: no
    sequence of operations panics or breaks the invariants the source asserts,
    and the decisions the kernel takes are the transitions of the model. *)
From Stdlib Require Import ZArith Lia.
From stdpp Require Import base option list numbers.
From S2P Require Import Prelude.
Open Scope nat_scope.

(** * Endpoint, waiter and reply states *)

Inductive EpState := Idle | HasWaiters | HasReceiver.
Inductive ThreadState := Ready | Running | Blocked.
Inductive ThreadId := Client1 | Client2 | Server.
Inductive ClientId := One | Two.
Inductive WaitKind := WSend | WReceive | WCall.
Inductive ReplyState := Fresh | Bound (caller : ClientId).

#[export] Instance EpState_eq_dec : EqDecision EpState.
Proof. solve_decision. Defined.
#[export] Instance ThreadState_eq_dec : EqDecision ThreadState.
Proof. solve_decision. Defined.
#[export] Instance ThreadId_eq_dec : EqDecision ThreadId.
Proof. solve_decision. Defined.
#[export] Instance ClientId_eq_dec : EqDecision ClientId.
Proof. solve_decision. Defined.
#[export] Instance WaitKind_eq_dec : EqDecision WaitKind.
Proof. solve_decision. Defined.
#[export] Instance ReplyState_eq_dec : EqDecision ReplyState.
Proof. solve_decision. Defined.

Definition all_threads : list ThreadId := [Client1; Client2; Server].
Definition all_clients : list ClientId := [One; Two].
Definition as_index (t : ThreadId) : nat := match t with Client1 => 0 | Client2 => 1 | Server => 2 end.
Definition as_client (t : ThreadId) : option ClientId :=
  match t with Client1 => Some One | Client2 => Some Two | Server => None end.
Definition client_index (c : ClientId) : nat := match c with One => 0 | Two => 1 end.
Definition as_thread (c : ClientId) : ThreadId := match c with One => Client1 | Two => Client2 end.

(** ** The bytes the kernel stores *)

Definition EP_IDLE : Z := 0.
Definition EP_HAS_WAITERS : Z := 1.
Definition EP_HAS_RECEIVER : Z := 2.
Definition WAIT_KIND_NONE : Z := 0.
Definition WAIT_KIND_SEND : Z := 1.
Definition WAIT_KIND_RECEIVE : Z := 2.
Definition WAIT_KIND_CALL : Z := 3.
Definition REPLY_STATE_FRESH : Z := 0.
Definition REPLY_STATE_BOUND : Z := 1.

Definition ep_from_raw (v : Z) : option EpState :=
  if (v =? EP_IDLE)%Z then Some Idle else
  if (v =? EP_HAS_WAITERS)%Z then Some HasWaiters else
  if (v =? EP_HAS_RECEIVER)%Z then Some HasReceiver else None.
Definition ep_to_raw (s : EpState) : Z :=
  match s with Idle => EP_IDLE | HasWaiters => EP_HAS_WAITERS | HasReceiver => EP_HAS_RECEIVER end.

Definition wait_from_raw (v : Z) : option WaitKind :=
  if (v =? WAIT_KIND_SEND)%Z then Some WSend else
  if (v =? WAIT_KIND_RECEIVE)%Z then Some WReceive else
  if (v =? WAIT_KIND_CALL)%Z then Some WCall else None.
Definition wait_to_raw (k : WaitKind) : Z :=
  match k with WSend => WAIT_KIND_SEND | WReceive => WAIT_KIND_RECEIVE | WCall => WAIT_KIND_CALL end.

Lemma ep_raw_roundtrip s : ep_from_raw (ep_to_raw s) = Some s.
Proof. by destruct s. Qed.
Lemma wait_raw_roundtrip k : wait_from_raw (wait_to_raw k) = Some k.
Proof. by destruct k. Qed.

Inductive IpcError := EndpointBusy | NoCaller | WouldBlock | ReplyBound.

#[export] Instance IpcError_eq_dec : EqDecision IpcError.
Proof. solve_decision. Defined.

(** * Decisions *)

Inductive SendDecision :=
  | SendDeliver (next_ep_state : EpState)
  | SendQueue (next_ep_state : EpState) (wake_readiness : bool).

Definition decide_send (ep_state : EpState) : SendDecision :=
  match ep_state with
  | HasReceiver => SendDeliver Idle
  | Idle => SendQueue HasWaiters true
  | HasWaiters => SendQueue HasWaiters false
  end.

Inductive ReceiveDecision :=
  | DequeueSend (next_ep_state : EpState)
  | DequeueCall (next_ep_state : EpState)
  | ReceiveQueue (next_ep_state : EpState)
  | ReceiveError (e : IpcError).

Definition decide_receive (ep_state : EpState) (has_outstanding_reply : bool)
    (head_wait_kind : option WaitKind) (queue_has_more : bool) : ReceiveDecision :=
  if has_outstanding_reply then ReceiveError EndpointBusy else
  match ep_state with
  | HasWaiters =>
      let next := if queue_has_more then HasWaiters else Idle in
      match head_wait_kind with
      | Some WSend => DequeueSend next
      | Some WCall => DequeueCall next
      | _ => ReceiveError EndpointBusy
      end
  | HasReceiver => ReceiveError EndpointBusy
  | Idle => ReceiveQueue HasReceiver
  end.

Inductive CallDecision :=
  | CallDeliver (next_ep_state : EpState)
  | CallQueue (next_ep_state : EpState) (wake_readiness : bool)
  | CallError (e : IpcError).

Definition decide_call (reply_is_fresh : bool) (ep_state : EpState) : CallDecision :=
  if negb reply_is_fresh then CallError ReplyBound else
  match ep_state with
  | HasReceiver => CallDeliver Idle
  | Idle => CallQueue HasWaiters true
  | HasWaiters => CallQueue HasWaiters false
  end.

Inductive ReplyDecision := ReplyDeliver | ReplyError (e : IpcError).

Definition decide_reply (has_reply reply_is_bound : bool) : ReplyDecision :=
  if negb has_reply then ReplyError NoCaller else
  if negb reply_is_bound then ReplyError NoCaller else ReplyDeliver.

(** * Notifications: a timeline counter with one waiter *)

Record NotificationState := mkNS { value : Z; has_waiter : bool; wait_threshold : Z }.
Inductive SignalResult := Updated | WakeWaiter.
Inductive WaitResult := WaitReady | WaitBlock.
Inductive NotificationError := ValueNotMonotonic | AlreadyHasWaiter.

Definition new_notification : NotificationState := mkNS 0 false 0.

Definition signal (n : NotificationState) (new_value : Z) : result SignalResult NotificationError * NotificationState :=
  if (new_value <=? value n)%Z then (Err ValueNotMonotonic, n) else
  if has_waiter n && (wait_threshold n <=? new_value)%Z
  then (Ok WakeWaiter, mkNS new_value false 0)
  else (Ok Updated, mkNS new_value (has_waiter n) (wait_threshold n)).

Definition wait (n : NotificationState) (threshold : Z) : result WaitResult NotificationError * NotificationState :=
  if (threshold <=? value n)%Z then (Ok WaitReady, n) else
  if has_waiter n then (Err AlreadyHasWaiter, n) else
  (Ok WaitBlock, mkNS (value n) true threshold).

(** * Readiness *)

Definition MAX_WAIT_OBJECTS : nat := 4.
Record WaitEntry := mkWE { we_handle : Z; we_threshold : Z }.

Definition USER_VA_END : Z := 0x40000000.
Definition validate_user_buffer (ptr byte_count : Z) : bool :=
  match checked_add64 ptr byte_count with
  | Some end_ => (ptr <? USER_VA_END)%Z && (end_ <=? USER_VA_END)%Z
  | None => false
  end.

Definition validate_wait_count (count : nat) : bool := count <=? MAX_WAIT_OBJECTS.
Definition is_endpoint_ready (s : EpState) : bool := bool_decide (s = HasWaiters).
Definition is_notification_ready (current_value threshold : Z) : bool := (threshold <=? current_value)%Z.

Inductive ObjectReadiness :=
  | REndpoint (s : EpState)
  | RNotification (value threshold : Z).

Definition object_ready (o : ObjectReadiness) : bool :=
  match o with
  | REndpoint s => is_endpoint_ready s
  | RNotification v t => is_notification_ready v t
  end.

(** The loop of [compute_ready_mask] from entry [i] on. *)
Fixpoint ready_mask_from (i : Z) (objects : list ObjectReadiness) (mask : Z) : Z :=
  match objects with
  | [] => mask
  | obj :: rest => ready_mask_from (i + 1) rest (if object_ready obj then Z.lor mask (Z.shiftl 1 i) else mask)
  end.
Definition compute_ready_mask (objects : list ObjectReadiness) : Z := ready_mask_from 0 objects 0.

(** A slot for one waiting thread; 0 is an empty slot. *)
Definition waiter_register (slot tcb : Z) : result unit unit * Z :=
  if negb (slot =? 0)%Z then (Err tt, slot) else (Ok tt, tcb).
Definition waiter_clear_if_match (slot expected : Z) : bool * Z :=
  if (slot =? expected)%Z && negb (expected =? 0)%Z then (true, 0%Z) else (false, slot).
Definition waiter_registered (slot : Z) : bool := negb (slot =? 0)%Z.

(** * The model of one endpoint, two clients and a server *)
Module Model.

Inductive IpcOp := OpSend | OpReceive | OpCall | OpReply.
Inductive TransitionError := Busy | ENoCaller | ReplyAlreadyBound | ThreadNotRunnable.

Record QueueEntry := mkQE { thread : ThreadId; kind : WaitKind }.

#[export] Instance QueueEntry_eq_dec : EqDecision QueueEntry.
Proof. solve_decision. Defined.
#[export] Instance IpcOp_eq_dec : EqDecision IpcOp.
Proof. solve_decision. Defined.
#[export] Instance TransitionError_eq_dec : EqDecision TransitionError.
Proof. solve_decision. Defined.

(** ** The fixed-size queue *)

Record Queue := mkQueue { entries : list (option QueueEntry); count : nat }.

#[export] Instance Queue_eq_dec : EqDecision Queue.
Proof. solve_decision. Defined.

Definition queue_empty : Queue := mkQueue [None; None; None] 0.

(** [entries[i] = x] *)
Definition set_entry (es : list (option QueueEntry)) (i : nat) (x : option QueueEntry) : outcome (list (option QueueEntry)) :=
  if i <? length es then Ret (<[i := x]> es) else Panic PIndex.
Definition get_entry (es : list (option QueueEntry)) (i : nat) : outcome (option QueueEntry) :=
  match es !! i with Some x => Ret x | None => Panic PIndex end.

Definition enqueue (q : Queue) (entry : QueueEntry) : outcome Queue :=
  _ ← assert (count q <? 3);
  es ← set_entry (entries q) (count q) (Some entry);
  Ret (mkQueue es (S (count q))).

Definition shift_entry (i : Z) (es : list (option QueueEntry)) : outcome (list (option QueueEntry)) :=
  x ← get_entry es (S (Z.to_nat i)); set_entry es (Z.to_nat i) x.

Definition dequeue (q : Queue) : outcome (option QueueEntry * Queue) :=
  if count q =? 0 then Ret (None, q) else
  head ← get_entry (entries q) 0;
  es ← for_range 0 (count q - 1) shift_entry (entries q);
  es ← set_entry es (count q - 1) None;
  Ret (head, mkQueue es (count q - 1)).

Definition head (q : Queue) : outcome (option QueueEntry) :=
  if count q =? 0 then Ret None else get_entry (entries q) 0.
Definition is_empty (q : Queue) : bool := count q =? 0.
Definition live (q : Queue) : list (option QueueEntry) := take (count q) (entries q).
Definition count_kind (q : Queue) (k : WaitKind) : nat :=
  length (filter (fun e => (kind <$> e) = Some k) (live q)).

(** ** The system *)

Record SystemState := mkSys {
  endpoint : EpState;
  queue : Queue;
  reply_state : list ReplyState;
  current_reply : list (option ClientId);
  thread_state : list ThreadState;
}.

#[export] Instance SystemState_eq_dec : EqDecision SystemState.
Proof. solve_decision. Defined.

Definition initial : SystemState :=
  mkSys Idle queue_empty [Fresh; Fresh] [None; None; None] [Ready; Ready; Ready].

Definition index {A} (l : list A) (i : nat) : outcome A :=
  match l !! i with Some x => Ret x | None => Panic PIndex end.
Definition store {A} (l : list A) (i : nat) (x : A) : outcome (list A) :=
  if i <? length l then Ret (<[i := x]> l) else Panic PIndex.

Definition thread_of (s : SystemState) (t : ThreadId) : outcome ThreadState := index (thread_state s) (as_index t).
Definition reply_of (s : SystemState) (c : ClientId) : outcome ReplyState := index (reply_state s) (client_index c).
Definition with_thread (s : SystemState) (t : ThreadId) (st : ThreadState) : outcome SystemState :=
  l ← store (thread_state s) (as_index t) st;
  Ret (mkSys (endpoint s) (queue s) (reply_state s) (current_reply s) l).
Definition with_reply (s : SystemState) (c : ClientId) (r : ReplyState) : outcome SystemState :=
  l ← store (reply_state s) (client_index c) r;
  Ret (mkSys (endpoint s) (queue s) l (current_reply s) (thread_state s)).
Definition with_current (s : SystemState) (t : ThreadId) (c : option ClientId) : outcome SystemState :=
  l ← store (current_reply s) (as_index t) c;
  Ret (mkSys (endpoint s) (queue s) (reply_state s) l (thread_state s)).
Definition with_queue (s : SystemState) (q : Queue) : SystemState :=
  mkSys (endpoint s) q (reply_state s) (current_reply s) (thread_state s).
Definition with_endpoint (s : SystemState) (e : EpState) : SystemState :=
  mkSys e (queue s) (reply_state s) (current_reply s) (thread_state s).

(** ** Effects: an array of ten slots and the number used *)

Inductive IpcEffect :=
  | SetEndpointState (s : EpState)
  | EnqueueSelfAs (k : WaitKind)
  | DequeueHead
  | StoreMsgInOwnTcb
  | WriteMsgToBlockedReceiver
  | WriteMsgToBoundCaller
  | TakeMsgFromDequeuedHead
  | BindReply (caller : ClientId)
  | ClearReply (caller : ClientId)
  | SetCurrentReply (receiver : ThreadId) (caller : ClientId)
  | ClearCurrentReply (receiver : ThreadId)
  | UnblockThread (who : ThreadId)
  | BlockCurrent.

#[export] Instance IpcEffect_eq_dec : EqDecision IpcEffect.
Proof. solve_decision. Defined.

Definition MAX_EFFECTS : nat := 10.
Definition empty_effects : list IpcEffect := replicate MAX_EFFECTS (SetEndpointState Idle).

(** [effects[n] = e; n += 1;] for each effect in turn. *)
Fixpoint emit (effects : list IpcEffect) (n : nat) (es : list IpcEffect) : outcome (list IpcEffect * nat) :=
  match es with
  | [] => Ret (effects, n)
  | e :: es' => effects' ← store effects n e; emit effects' (S n) es'
  end.

Definition transition := result (SystemState * list IpcEffect * nat) TransitionError.

Definition finish (next : SystemState) (es : list IpcEffect) : outcome transition :=
  x ← emit empty_effects 0 es; Ret (Ok (next, x.1, x.2)).

(** ** Transitions *)

Definition step_send (state : SystemState) (who : ThreadId) : outcome transition :=
  match endpoint state with
  | HasReceiver =>
      d ← dequeue (queue state);
      hd ← unwrap d.1;
      _ ← assert (bool_decide (kind hd = WReceive));
      next ← with_thread (with_queue state d.2) (thread hd) Ready;
      finish (with_endpoint next Idle)
        [DequeueHead; WriteMsgToBlockedReceiver; UnblockThread (thread hd); SetEndpointState Idle]
  | Idle | HasWaiters =>
      q ← enqueue (queue state) (mkQE who WSend);
      next ← with_thread (with_queue state q) who Blocked;
      let endpoint_changed := bool_decide (endpoint next = Idle) in
      finish (if endpoint_changed then with_endpoint next HasWaiters else next)
        ([StoreMsgInOwnTcb; EnqueueSelfAs WSend] ++
         (if endpoint_changed then [SetEndpointState HasWaiters] else []) ++ [BlockCurrent])
  end.

Definition step_receive (state : SystemState) (who : ThreadId) : outcome transition :=
  cr ← index (current_reply state) (as_index who);
  if bool_decide (is_Some cr) then Ret (Err Busy) else
  match endpoint state with
  | HasReceiver => Ret (Err Busy)
  | HasWaiters =>
      d ← dequeue (queue state);
      hd ← unwrap d.1;
      _ ← assert (bool_decide (kind hd = WSend) || bool_decide (kind hd = WCall));
      x ← match kind hd with
          | WSend => next ← with_thread (with_queue state d.2) (thread hd) Ready; Ret (next, UnblockThread (thread hd))
          | WCall =>
              client ← unwrap (as_client (thread hd));
              next ← with_current (with_queue state d.2) who (Some client);
              Ret (next, SetCurrentReply who client)
          | WReceive => Panic PUnreachable
          end;
      let '(next, e) := x in
      let drained := is_empty (queue next) in
      finish (if drained then with_endpoint next Idle else next)
        ([DequeueHead; TakeMsgFromDequeuedHead; e] ++ (if drained then [SetEndpointState Idle] else []))
  | Idle =>
      q ← enqueue (queue state) (mkQE who WReceive);
      next ← with_thread (with_queue state q) who Blocked;
      finish (with_endpoint next HasReceiver) [EnqueueSelfAs WReceive; SetEndpointState HasReceiver; BlockCurrent]
  end.

Definition step_call (state : SystemState) (who : ThreadId) : outcome transition :=
  match as_client who with
  | None => Ret (Err Busy)
  | Some client =>
      r ← reply_of state client;
      if negb (bool_decide (r = Fresh)) then Ret (Err ReplyAlreadyBound) else
      match endpoint state with
      | HasReceiver =>
          d ← dequeue (queue state);
          hd ← unwrap d.1;
          _ ← assert (bool_decide (kind hd = WReceive));
          next ← with_thread (with_queue state d.2) (thread hd) Ready;
          next ← with_thread next who Blocked;
          next ← with_reply next client (Bound client);
          next ← with_current next (thread hd) (Some client);
          finish (with_endpoint next Idle)
            [DequeueHead; BindReply client; WriteMsgToBlockedReceiver; SetCurrentReply (thread hd) client;
             UnblockThread (thread hd); SetEndpointState Idle; BlockCurrent]
      | Idle | HasWaiters =>
          next ← with_reply state client (Bound client);
          q ← enqueue (queue next) (mkQE who WCall);
          next ← with_thread (with_queue next q) who Blocked;
          let endpoint_changed := bool_decide (endpoint next = Idle) in
          finish (if endpoint_changed then with_endpoint next HasWaiters else next)
            ([BindReply client; StoreMsgInOwnTcb; EnqueueSelfAs WCall] ++
             (if endpoint_changed then [SetEndpointState HasWaiters] else []) ++ [BlockCurrent])
      end
  end.

Definition step_reply (state : SystemState) (who : ThreadId) : outcome transition :=
  cr ← index (current_reply state) (as_index who);
  match cr with
  | None => Ret (Err ENoCaller)
  | Some client =>
      r ← reply_of state client;
      if negb (bool_decide (r = Bound client)) then Ret (Err Busy) else
      let target := as_thread client in
      next ← with_thread state target Ready;
      next ← with_reply next client Fresh;
      next ← with_current next who None;
      finish next [WriteMsgToBoundCaller; UnblockThread target; ClearReply client; ClearCurrentReply who]
  end.

Definition step (state : SystemState) (who : ThreadId) (op : IpcOp) : outcome transition :=
  ts ← thread_of state who;
  if bool_decide (ts = Blocked) then Ret (Err ThreadNotRunnable) else
  match op with
  | OpSend => step_send state who
  | OpReceive => step_receive state who
  | OpCall => step_call state who
  | OpReply => step_reply state who
  end.

(** ** The invariants the source asserts *)

Fixpoint check_all {A} (f : A -> outcome unit) (l : list A) : outcome unit :=
  match l with [] => Ret tt | x :: l' => _ ← f x; check_all f l' end.

Definition check_queue_shape (s : SystemState) : outcome unit :=
  match endpoint s with
  | Idle => assert (is_empty (queue s))
  | HasReceiver =>
      _ ← assert (count (queue s) =? 1);
      h ← head (queue s); hd ← unwrap h;
      assert (bool_decide (kind hd = WReceive))
  | HasWaiters =>
      _ ← assert (negb (is_empty (queue s)));
      check_all (fun e => e ← unwrap e; assert (bool_decide (kind e = WSend) || bool_decide (kind e = WCall))) (live (queue s))
  end.

Definition check_client (s : SystemState) (c : ClientId) : outcome unit :=
  let t := as_thread c in
  let queued_as_call := existsb (fun e => bool_decide (e = Some (mkQE t WCall))) (live (queue s)) in
  let being_handled_by := length (filter (fun x => x = Some c) (current_reply s)) in
  _ ← assert (being_handled_by <=? 1);
  r ← reply_of s c;
  match r with
  | Bound caller =>
      _ ← assert (bool_decide (caller = c));
      ts ← thread_of s t;
      _ ← assert (bool_decide (ts = Blocked));
      assert (xorb queued_as_call (being_handled_by =? 1))
  | Fresh =>
      _ ← assert (being_handled_by =? 0);
      assert (negb queued_as_call)
  end.

Definition check_invariants (s : SystemState) : outcome unit :=
  _ ← check_queue_shape s;
  _ ← assert (count_kind (queue s) WReceive <=? 1);
  _ ← check_all (fun e => e ← unwrap e; ts ← thread_of s (thread e); assert (bool_decide (ts = Blocked))) (live (queue s));
  _ ← check_all (fun t => assert (length (filter (fun e => (thread <$> e) = Some t) (live (queue s))) <=? 1)) all_threads;
  _ ← check_all (check_client s) all_clients;
  _ ← check_all (fun cr => match cr with
        | None => Ret tt
        | Some c => r ← reply_of s c; assert (bool_decide (r = Bound c))
        end) (current_reply s);
  assert (length (filter (fun x => x = Running) (thread_state s)) <=? 1).

(** ** Histories *)

(** A refused operation leaves the state as it is. *)
Fixpoint run (s : SystemState) (ops : list (ThreadId * IpcOp)) : outcome SystemState :=
  match ops with
  | [] => Ret s
  | (who, op) :: ops' =>
      r ← step s who op;
      run (match r with Ok (next, _, _) => next | Err _ => s end) ops'
  end.

Definition all_ops : list (ThreadId * IpcOp) :=
  who ← all_threads; op ← [OpSend; OpReceive; OpCall; OpReply]; [(who, op)].

Lemma all_ops_complete p : p ∈ all_ops.
Proof. destruct p as [[] []]; apply (bool_decide_unpack _); vm_compute; exact I. Qed.

(** The states one operation leads to. *)
Definition successors (s : SystemState) : list SystemState :=
  omap (fun p => match step s p.1 p.2 with Ret (Ok (next, _, _)) => Some next | _ => None end) all_ops.

(** The states reachable in at most [n] operations. *)
Fixpoint explore (n : nat) (seen frontier : list SystemState) : list SystemState :=
  match n with
  | O => seen
  | S n' =>
      let new := remove_dups (filter (fun s => s ∉ seen) (frontier ≫= successors)) in
      match new with [] => seen | _ => explore n' (seen ++ new) new end
  end.

Definition reachable : list SystemState := Eval vm_compute in explore 20 [initial] [initial].

(** ** Checking every reachable state *)

Lemma reachable_check (P : SystemState -> bool) s : forallb P reachable = true -> s ∈ reachable -> P s = true.
Proof. intros H Hs. apply (proj1 (forallb_forall _ _) H), list_elem_of_In, Hs. Qed.

Definition step_stays (s : SystemState) : bool :=
  forallb (fun p => match step s p.1 p.2 with
    | Ret (Ok (next, _, _)) => bool_decide (next ∈ reachable)
    | Ret (Err _) => true
    | Panic _ => false
    end) all_ops.

Lemma reachable_closed : forallb step_stays reachable = true.
Proof. vm_compute. reflexivity. Qed.

Lemma reachable_run ops : forall s, s ∈ reachable -> exists s', run s ops = Ret s' /\ s' ∈ reachable.
Proof.
  induction ops as [|[who op] ops IH]; intros s Hs; cbn [run]; [by exists s|].
  pose proof (reachable_check _ s reachable_closed Hs) as H.
  pose proof (proj1 (forallb_forall _ _) H (who, op) (proj1 (list_elem_of_In _ _) (all_ops_complete _))) as E.
  cbn [fst snd] in E. destruct (step s who op) as [[[[next es] n]|e]|]; [|by apply IH|discriminate].
  apply IH. by apply bool_decide_eq_true in E.
Qed.

Lemma initial_reachable : initial ∈ reachable.
Proof. apply (bool_decide_unpack _). vm_compute. exact I. Qed.

(** The source's own assertions. *)
Definition sound_state (s : SystemState) : bool := bool_decide (check_invariants s = Ret tt).

(** What the effects of a transition say: at most one thread is woken, it was
    blocked and is ready afterwards, and the acting thread blocks exactly when
    the last effect is [BlockCurrent]. *)
Definition wakes (es : list IpcEffect) : list ThreadId :=
  omap (fun e => match e with UnblockThread t => Some t | _ => None end) es.

Definition effects_match (s : SystemState) (who : ThreadId) (op : IpcOp) : bool :=
  match step s who op with
  | Ret (Ok (next, effects, n)) =>
      let es := take n effects in
      bool_decide (n <= MAX_EFFECTS) &&
      bool_decide (length (wakes es) <= 1) &&
      forallb (fun t => bool_decide
        (thread_of next t = if bool_decide (t ∈ wakes es) then Ret Ready
                            else if bool_decide (t = who) && bool_decide (es !! pred (length es) = Some BlockCurrent) then Ret Blocked
                            else thread_of s t)) all_threads &&
      forallb (fun t => bool_decide (thread_of s t = Ret Blocked)) (wakes es) &&
      bool_decide (BlockCurrent ∉ removelast es)
  | Ret (Err _) => true
  | Panic _ => false
  end.

(** What the kernel observes of an endpoint before it decides. *)
Definition head_kind (s : SystemState) : option WaitKind :=
  match endpoint s with
  | HasWaiters => match entries (queue s) with Some e :: _ => Some (kind e) | _ => None end
  | _ => None
  end.

Definition error_of (e : IpcError) : TransitionError :=
  match e with EndpointBusy | WouldBlock => Busy | NoCaller => ENoCaller | ReplyBound => ReplyAlreadyBound end.

(** The transition ends in endpoint state [e]; the acting thread blocks or
    not. *)
Definition takes (t : outcome transition) (who : ThreadId) (e : EpState) (blocks : bool) : bool :=
  match t with
  | Ret (Ok (next, _, _)) =>
      bool_decide (endpoint next = e) && Bool.eqb blocks (bool_decide (thread_of next who = Ret Blocked))
  | _ => false
  end.
Definition refuses (t : outcome transition) (e : IpcError) : bool :=
  match t with Ret (Err e') => bool_decide (e' = error_of e) | _ => false end.

(** Number of threads queued. *)
Definition queued (t : outcome transition) : nat :=
  match t with Ret (Ok (next, _, _)) => count (queue next) | _ => 0 end.

Definition decisions_agree (s : SystemState) (who : ThreadId) : bool :=
  let more := 1 <? count (queue s) in
  let has_reply := match index (current_reply s) (as_index who) with Ret (Some _) => true | _ => false end in
  (match decide_send (endpoint s) with
   | SendDeliver e => takes (step s who OpSend) who e false && (queued (step s who OpSend) =? count (queue s) - 1)
   | SendQueue e wake => takes (step s who OpSend) who e true && (queued (step s who OpSend) =? S (count (queue s))) &&
       Bool.eqb wake (bool_decide (endpoint s = Idle))
   end) &&
  (match decide_receive (endpoint s) has_reply (head_kind s) more with
   | DequeueSend e | DequeueCall e =>
       takes (step s who OpReceive) who e false && (queued (step s who OpReceive) =? count (queue s) - 1)
   | ReceiveQueue e => takes (step s who OpReceive) who e true && (queued (step s who OpReceive) =? S (count (queue s)))
   | ReceiveError e => refuses (step s who OpReceive) e
   end) &&
  (match as_client who with
   | None => true
   | Some c =>
       match decide_call (bool_decide (reply_of s c = Ret Fresh)) (endpoint s) with
       | CallDeliver e => takes (step s who OpCall) who e true && (queued (step s who OpCall) =? count (queue s) - 1)
       | CallQueue e wake => takes (step s who OpCall) who e true && (queued (step s who OpCall) =? S (count (queue s))) &&
           Bool.eqb wake (bool_decide (endpoint s = Idle))
       | CallError e => refuses (step s who OpCall) e
       end
   end) &&
  (let bound := match index (current_reply s) (as_index who) with
                | Ret (Some c) => bool_decide (reply_of s c = Ret (Bound c))
                | _ => false
                end in
   match decide_reply has_reply bound with
   | ReplyDeliver => takes (step s who OpReply) who (endpoint s) false
   | ReplyError e => refuses (step s who OpReply) e
   end).

Definition state_agrees (s : SystemState) : bool :=
  forallb (fun who => bool_decide (thread_of s who = Ret Blocked) || decisions_agree s who) all_threads.

Lemma reachable_sound : forallb sound_state reachable = true.
Proof. vm_compute. reflexivity. Qed.
Lemma reachable_effects : forallb (fun s => forallb (fun p => effects_match s p.1 p.2) all_ops) reachable = true.
Proof. vm_compute. reflexivity. Qed.
Lemma reachable_agrees : forallb state_agrees reachable = true.
Proof. vm_compute. reflexivity. Qed.

Lemma history_reachable ops s : run initial ops = Ret s -> s ∈ reachable.
Proof. intros H. destruct (reachable_run ops _ initial_reachable) as (s' & E & Hs). congruence. Qed.

(** no sequence of sends, receives, calls and replies by the three threads
    of the model panics; in every state reached the source's
    [check_invariants] passes (each bound reply is held by exactly one of the
    endpoint's queue and one receiver, queued threads are blocked, nobody is
    queued twice, ...); and every further operation emits at most
    [MAX_EFFECTS] effects, which wake only blocked threads and block the
    acting thread, as the last effect, exactly when its state says so. *)
Theorem ipc_model_invariant ops :
  exists s, run initial ops = Ret s /\ check_invariants s = Ret tt /\
    forall who op, effects_match s who op = true.
Proof.
  destruct (reachable_run ops _ initial_reachable) as (s & E & Hs). exists s. split_and!; [done| |].
  - apply (bool_decide_eq_true_1 (check_invariants s = Ret tt)), (reachable_check sound_state s reachable_sound Hs).
  - intros who op. pose proof (reachable_check _ s reachable_effects Hs) as H.
    exact (proj1 (forallb_forall _ _) H (who, op) (proj1 (list_elem_of_In _ _) (all_ops_complete _))).
Qed.

(** in every state of the model that a history reaches, the kernel-facing
    decision functions, applied to what the kernel observes of that state,
    decide what the model's transition does: which endpoint state follows,
    whether a waiter is taken from or added to the queue, whether the acting
    thread blocks, and which error refuses the operation. *)
Theorem decisions_follow_model ops s who :
  run initial ops = Ret s -> thread_of s who <> Ret Blocked -> decisions_agree s who = true.
Proof.
  intros H Hb. pose proof (reachable_check _ s reachable_agrees (history_reachable _ _ H)) as E.
  assert (Hw : In who all_threads) by (destruct who; cbn; tauto).
  pose proof (proj1 (forallb_forall _ _) E who Hw) as Ew. cbn beta in Ew.
  by rewrite bool_decide_eq_false_2 in Ew.
Qed.

Definition two_callers : list (ThreadId * IpcOp) :=
  [(Client1, OpCall); (Client2, OpCall); (Server, OpReceive); (Server, OpReply); (Server, OpReceive)].

Lemma decisions_follow_model_witness :
  exists s, run initial two_callers = Ret s /\ decisions_agree s Server = true.
Proof.
  eexists. split; [vm_compute; reflexivity|].
  apply (decisions_follow_model two_callers); vm_compute; [reflexivity|discriminate].
Defined.

End Model.
