(* ===== verification/Ipc.v ===== *)
(** Kernel IPC (src/ipc and the IPC calls of src/cap/object_ops.rs and
    src/syscall/handler.rs): endpoints with their intrusive queue of waiting
    threads, reply objects, notifications and [sys_wait_any], over an interface
    of the scheduler. The definitions; [IpcSpec] has the specification and the
    refinement. *)
From Stdlib Require Import ZArith Lia.
From stdpp Require Import base option list gmap numbers fin_maps.
From S2P Require Import Prelude Vmem Handles IpcState.
Open Scope Z_scope.

(** * What IPC asks of the scheduler *)

(** [S] is the scheduler's state; a CPU runs its current thread. A call of
    [block_current] returns in the model when the thread has been switched
    away from or halted; the part of the caller that follows it runs when the
    thread does. [sched_step] is everything that happens between system calls:
    ticks, halted threads that look again, exits. [tcb_live] says whether the
    control block at an address is allocated: the scheduler frees it once its
    thread has exited. *)
Class Scheduler (S : Type) := {
  current_tcb_kva : S -> nat -> outcome Z;
  unblock_thread : S -> Z -> outcome S;
  block_current : S -> nat -> outcome S;
  tcb_live : S -> Z -> bool;
  set_wait_deadline : S -> nat -> Z -> outcome S;
  sched_event : Type;
  sched_step : S -> sched_event -> outcome S;
}.

Definition no_deadline : Z := U64_MAX.
Definition deadline_expired (d now : Z) : bool := if d =? U64_MAX then false else d <=? now.

(** * Objects *)

(** Four message words. *)
Definition Msg : Type := (Z * Z * Z * Z)%type.
Definition words (m : Msg) : list Z := let '(a, b, c, d) := m in [a; b; c; d].

(** The fields of a thread control block that IPC uses. *)
Record Tcb := mkTcb {
  process_kva : Z;
  ipc_blocked_on : Z;
  ipc_msg : Msg;
  ipc_queue_next : Z;
  ipc_wait_kind : Z;
  ipc_caller_token : Z;
  current_reply_kva : Z;
  last_caller_token : Z;
  ipc_call_reply_kva : Z;
  wait_objects : list Z;
  wait_types : list Z;
}.

Definition set_blocked_on (t : Tcb) (x : Z) : Tcb :=
  mkTcb (process_kva t) x (ipc_msg t) (ipc_queue_next t) (ipc_wait_kind t) (ipc_caller_token t)
    (current_reply_kva t) (last_caller_token t) (ipc_call_reply_kva t) (wait_objects t) (wait_types t).
Definition set_msg (t : Tcb) (x : Msg) : Tcb :=
  mkTcb (process_kva t) (ipc_blocked_on t) x (ipc_queue_next t) (ipc_wait_kind t) (ipc_caller_token t)
    (current_reply_kva t) (last_caller_token t) (ipc_call_reply_kva t) (wait_objects t) (wait_types t).
Definition set_next (t : Tcb) (x : Z) : Tcb :=
  mkTcb (process_kva t) (ipc_blocked_on t) (ipc_msg t) x (ipc_wait_kind t) (ipc_caller_token t)
    (current_reply_kva t) (last_caller_token t) (ipc_call_reply_kva t) (wait_objects t) (wait_types t).
Definition set_kind (t : Tcb) (x : Z) : Tcb :=
  mkTcb (process_kva t) (ipc_blocked_on t) (ipc_msg t) (ipc_queue_next t) x (ipc_caller_token t)
    (current_reply_kva t) (last_caller_token t) (ipc_call_reply_kva t) (wait_objects t) (wait_types t).
Definition set_token (t : Tcb) (x : Z) : Tcb :=
  mkTcb (process_kva t) (ipc_blocked_on t) (ipc_msg t) (ipc_queue_next t) (ipc_wait_kind t) x
    (current_reply_kva t) (last_caller_token t) (ipc_call_reply_kva t) (wait_objects t) (wait_types t).
Definition set_reply (t : Tcb) (x : Z) : Tcb :=
  mkTcb (process_kva t) (ipc_blocked_on t) (ipc_msg t) (ipc_queue_next t) (ipc_wait_kind t) (ipc_caller_token t)
    x (last_caller_token t) (ipc_call_reply_kva t) (wait_objects t) (wait_types t).
Definition set_last_token (t : Tcb) (x : Z) : Tcb :=
  mkTcb (process_kva t) (ipc_blocked_on t) (ipc_msg t) (ipc_queue_next t) (ipc_wait_kind t) (ipc_caller_token t)
    (current_reply_kva t) x (ipc_call_reply_kva t) (wait_objects t) (wait_types t).
Definition set_call_reply (t : Tcb) (x : Z) : Tcb :=
  mkTcb (process_kva t) (ipc_blocked_on t) (ipc_msg t) (ipc_queue_next t) (ipc_wait_kind t) (ipc_caller_token t)
    (current_reply_kva t) (last_caller_token t) x (wait_objects t) (wait_types t).
(** The arrays hold the entries in use; [wait_count] is their length. *)
Definition set_wait (t : Tcb) (objects types : list Z) : Tcb :=
  mkTcb (process_kva t) (ipc_blocked_on t) (ipc_msg t) (ipc_queue_next t) (ipc_wait_kind t) (ipc_caller_token t)
    (current_reply_kva t) (last_caller_token t) (ipc_call_reply_kva t) objects types.

Record EndpointObject := mkEp { ep_state : Z; ep_readiness : Z; queue_head : Z; queue_tail : Z }.
Record ReplyObject := mkReply { rp_state : Z; caller_tcb_kva : Z }.
Record NotificationObject := mkNotif {
  nt_state : NotificationState;
  blocked_tcb_kva : Z;
  nt_readiness : Z;
  readiness_threshold : Z;
}.

Definition create_endpoint : EndpointObject := mkEp EP_IDLE 0 0 0.
Definition create_reply : ReplyObject := mkReply REPLY_STATE_FRESH 0.
Definition create_notification : NotificationObject := mkNotif new_notification 0 0 0.

(** What a thread that has blocked does when it returns from
    [block_current]: the rest of its system call. *)
Inductive Suspended :=
  | InSend
  | InReceive
  | InCall
  | InWaitNotification (notif : Z)
  | InWaitAny (addrs : list Z) (types : list ObjectType) (thresholds : list Z).

(** Kernel objects by address, the handle table of each process, and the
    kernel stacks of the threads that are inside a blocking call. [tcbs] keeps
    what the control block of an exited thread held last; [tcb_at] refuses to
    read it. *)
Record Kernel (S : Type) := mkK {
  eps : gmap Z EndpointObject;
  reps : gmap Z ReplyObject;
  ntfs : gmap Z NotificationObject;
  tcbs : gmap Z Tcb;
  tables : gmap Z (list HandleEntry);
  stacks : gmap Z Suspended;
  sch : S;
}.
Arguments mkK {S}. Arguments eps {S}. Arguments reps {S}. Arguments ntfs {S}. Arguments tcbs {S}.
Arguments tables {S}. Arguments stacks {S}. Arguments sch {S}.

Section Ops.
Context {S : Type} `{Scheduler S}.
Abbreviation Kernel := (Kernel S).

Definition with_ep (k : Kernel) (e : Z) (x : EndpointObject) : Kernel :=
  mkK (<[e := x]> (eps k)) (reps k) (ntfs k) (tcbs k) (tables k) (stacks k) (sch k).
Definition with_rep (k : Kernel) (r : Z) (x : ReplyObject) : Kernel :=
  mkK (eps k) (<[r := x]> (reps k)) (ntfs k) (tcbs k) (tables k) (stacks k) (sch k).
Definition with_ntf (k : Kernel) (n : Z) (x : NotificationObject) : Kernel :=
  mkK (eps k) (reps k) (<[n := x]> (ntfs k)) (tcbs k) (tables k) (stacks k) (sch k).
Definition with_tcb (k : Kernel) (t : Z) (x : Tcb) : Kernel :=
  mkK (eps k) (reps k) (ntfs k) (<[t := x]> (tcbs k)) (tables k) (stacks k) (sch k).
Definition with_stacks (k : Kernel) (x : gmap Z Suspended) : Kernel :=
  mkK (eps k) (reps k) (ntfs k) (tcbs k) (tables k) x (sch k).
Definition with_sch (k : Kernel) (x : S) : Kernel :=
  mkK (eps k) (reps k) (ntfs k) (tcbs k) (tables k) (stacks k) x.

(** [KernelMut::from_kva] of a live object; an address that holds none, or a
    control block that has been freed, is a kernel fault. *)
Definition ep_at (k : Kernel) (e : Z) : outcome EndpointObject := unwrap (eps k !! e).
Definition rep_at (k : Kernel) (r : Z) : outcome ReplyObject := unwrap (reps k !! r).
Definition ntf_at (k : Kernel) (n : Z) : outcome NotificationObject := unwrap (ntfs k !! n).
Definition tcb_at (k : Kernel) (t : Z) : outcome Tcb :=
  tcb ← unwrap (tcbs k !! t); _ ← assert (tcb_live (sch k) t); Ret tcb.
Definition ep_state_at (ep : EndpointObject) : outcome EpState := unwrap (ep_from_raw (ep_state ep)).

Definition wake (k : Kernel) (t : Z) : outcome Kernel := s ← unblock_thread (sch k) t; Ret (with_sch k s).

(** [scheduler::block_current] by thread [t] with the rest of its call on the
    kernel stack. *)
Definition suspend (k : Kernel) (c : nat) (t : Z) (rest : Suspended) : outcome Kernel :=
  s ← block_current (sch k) c; Ret (with_sch (with_stacks k (<[t := rest]> (stacks k))) s).

(** * The waiter queue (ep_queue.rs) *)

Definition enqueue (k : Kernel) (e tcb_kva : Z) : outcome Kernel :=
  tcb ← tcb_at k tcb_kva;
  let k := with_tcb k tcb_kva (set_next tcb 0) in
  ep ← ep_at k e;
  if queue_tail ep =? 0 then
    Ret (with_ep k e (mkEp (ep_state ep) (ep_readiness ep) tcb_kva tcb_kva))
  else
    prev_tail ← tcb_at k (queue_tail ep);
    let k := with_tcb k (queue_tail ep) (set_next prev_tail tcb_kva) in
    Ret (with_ep k e (mkEp (ep_state ep) (ep_readiness ep) (queue_head ep) tcb_kva)).

Definition dequeue (k : Kernel) (e : Z) : outcome (option Z * Kernel) :=
  ep ← ep_at k e;
  let head := queue_head ep in
  if head =? 0 then Ret (None, k) else
  head_tcb ← tcb_at k head;
  let next := ipc_queue_next head_tcb in
  let k := with_tcb k head (set_next head_tcb 0) in
  Ret (Some head, with_ep k e (mkEp (ep_state ep) (ep_readiness ep) next (if next =? 0 then 0 else queue_tail ep))).

(** The loop of [remove] from [cur] on. *)
Fixpoint remove_loop (fuel : nat) (k : Kernel) (e target prev cur : Z) : outcome (bool * Kernel) :=
  match fuel with
  | O => Panic PFuel
  | Datatypes.S fuel' =>
      if cur =? 0 then Ret (false, k) else
      cur_tcb ← tcb_at k cur;
      let next := ipc_queue_next cur_tcb in
      if cur =? target then
        ep ← ep_at k e;
        k1 ← (if prev =? 0 then Ret (with_ep k e (mkEp (ep_state ep) (ep_readiness ep) next (queue_tail ep)))
              else prev_tcb ← tcb_at k prev; Ret (with_tcb k prev (set_next prev_tcb next)));
        ep ← ep_at k1 e;
        let k2 := if queue_tail ep =? cur then with_ep k1 e (mkEp (ep_state ep) (ep_readiness ep) (queue_head ep) prev) else k1 in
        cur_tcb ← tcb_at k2 cur;
        Ret (true, with_tcb k2 cur (set_next cur_tcb 0))
      else remove_loop fuel' k e target cur next
  end.

Definition remove (fuel : nat) (k : Kernel) (e tcb_kva : Z) : outcome (bool * Kernel) :=
  ep ← ep_at k e; remove_loop fuel k e tcb_kva 0 (queue_head ep).

Definition set_ep_state (k : Kernel) (e : Z) (s : EpState) : outcome Kernel :=
  ep ← ep_at k e; Ret (with_ep k e (mkEp (ep_to_raw s) (ep_readiness ep) (queue_head ep) (queue_tail ep))).

Definition wake_readiness_waiter_if_registered (k : Kernel) (e : Z) : outcome Kernel :=
  ep ← ep_at k e;
  if waiter_registered (ep_readiness ep) then
    k ← wake k (ep_readiness ep);
    Ret (with_ep k e (mkEp (ep_state ep) 0 (queue_head ep) (queue_tail ep)))
  else Ret k.

(** * Endpoint operations (endpoint.rs)

    [None] for an operation that has blocked. *)

Definition ipc_send (k : Kernel) (c : nat) (e : Z) (msg : Msg) (caller_token : Z)
  : outcome (option (result unit IpcError) * Kernel) :=
  ep ← ep_at k e;
  st ← ep_state_at ep;
  match decide_send st with
  | SendDeliver next_ep_state =>
      d ← dequeue k e;
      receiver ← unwrap d.1;
      let k := d.2 in
      r ← tcb_at k receiver;
      let k := with_tcb k receiver
        (set_blocked_on (set_kind (set_last_token (set_msg r msg) caller_token) WAIT_KIND_NONE) 0) in
      k ← wake k receiver;
      k ← set_ep_state k e next_ep_state;
      Ret (Some (Ok tt), k)
  | SendQueue next_ep_state wake_readiness =>
      sender ← current_tcb_kva (sch k) c;
      s ← tcb_at k sender;
      let k := with_tcb k sender
        (set_blocked_on (set_kind (set_token (set_msg s msg) caller_token) WAIT_KIND_SEND) e) in
      k ← enqueue k e sender;
      k ← set_ep_state k e next_ep_state;
      k ← (if wake_readiness then wake_readiness_waiter_if_registered k e else Ret k);
      k ← suspend k c sender InSend;
      Ret (None, k)
  end.

Definition ipc_receive (k : Kernel) (c : nat) (e : Z) : outcome (option (result Msg IpcError) * Kernel) :=
  receiver ← current_tcb_kva (sch k) c;
  ep ← ep_at k e;
  st ← ep_state_at ep;
  rt ← tcb_at k receiver;
  let has_outstanding_reply := negb (current_reply_kva rt =? 0) in
  obs ← (if bool_decide (st = HasWaiters) && negb (queue_head ep =? 0) then
           head_tcb ← tcb_at k (queue_head ep);
           Ret (wait_from_raw (ipc_wait_kind head_tcb), negb (ipc_queue_next head_tcb =? 0))
         else Ret (None, false));
  match decide_receive st has_outstanding_reply obs.1 obs.2 with
  | DequeueSend next_ep_state =>
      d ← dequeue k e;
      head ← unwrap d.1;
      let k := d.2 in
      h ← tcb_at k head;
      let msg := ipc_msg h in
      let sender_token := ipc_caller_token h in
      let k := with_tcb k head (set_blocked_on (set_kind h WAIT_KIND_NONE) 0) in
      r ← tcb_at k receiver;
      let k := with_tcb k receiver (set_last_token r sender_token) in
      k ← wake k head;
      k ← set_ep_state k e next_ep_state;
      Ret (Some (Ok msg), k)
  | DequeueCall next_ep_state =>
      d ← dequeue k e;
      head ← unwrap d.1;
      let k := d.2 in
      h ← tcb_at k head;
      let msg := ipc_msg h in
      let sender_token := ipc_caller_token h in
      let reply_kva := ipc_call_reply_kva h in
      let k := with_tcb k head (set_call_reply (set_kind h WAIT_KIND_NONE) 0) in
      r ← tcb_at k receiver;
      let k := with_tcb k receiver (set_last_token (set_reply r reply_kva) sender_token) in
      k ← set_ep_state k e next_ep_state;
      Ret (Some (Ok msg), k)
  | ReceiveQueue next_ep_state =>
      let k := with_tcb k receiver (set_blocked_on (set_kind rt WAIT_KIND_RECEIVE) e) in
      k ← enqueue k e receiver;
      k ← set_ep_state k e next_ep_state;
      k ← suspend k c receiver InReceive;
      Ret (None, k)
  | ReceiveError err => Ret (Some (Err err), k)
  end.

Definition ipc_call (k : Kernel) (c : nat) (e reply : Z) (msg : Msg) (caller_token : Z)
  : outcome (option (result Msg IpcError) * Kernel) :=
  rep ← rep_at k reply;
  let reply_is_fresh := rp_state rep =? REPLY_STATE_FRESH in
  ep ← ep_at k e;
  st ← ep_state_at ep;
  match decide_call reply_is_fresh st with
  | CallDeliver next_ep_state =>
      caller ← current_tcb_kva (sch k) c;
      let k := with_rep k reply (mkReply REPLY_STATE_BOUND caller) in
      d ← dequeue k e;
      receiver ← unwrap d.1;
      let k := d.2 in
      r ← tcb_at k receiver;
      let k := with_tcb k receiver
        (set_blocked_on (set_reply (set_kind (set_last_token (set_msg r msg) caller_token) WAIT_KIND_NONE) reply) 0) in
      k ← wake k receiver;
      k ← set_ep_state k e next_ep_state;
      ct ← tcb_at k caller;
      let k := with_tcb k caller (set_blocked_on ct e) in
      k ← suspend k c caller InCall;
      Ret (None, k)
  | CallQueue next_ep_state wake_readiness =>
      caller ← current_tcb_kva (sch k) c;
      let k := with_rep k reply (mkReply REPLY_STATE_BOUND caller) in
      ct ← tcb_at k caller;
      let k := with_tcb k caller
        (set_blocked_on (set_call_reply (set_kind (set_token (set_msg ct msg) caller_token) WAIT_KIND_CALL) reply) e) in
      k ← enqueue k e caller;
      k ← set_ep_state k e next_ep_state;
      k ← (if wake_readiness then wake_readiness_waiter_if_registered k e else Ret k);
      k ← suspend k c caller InCall;
      Ret (None, k)
  | CallError err => Ret (Some (Err err), k)
  end.

Definition ipc_receive_nb (k : Kernel) (c : nat) (e : Z) : outcome (option (result Msg IpcError) * Kernel) :=
  ep ← ep_at k e;
  st ← ep_state_at ep;
  if negb (bool_decide (st = HasWaiters)) then Ret (Some (Err WouldBlock), k) else
  ipc_receive k c e.

(** ** Replies (reply.rs) *)

Definition ipc_reply (k : Kernel) (c : nat) (msg : Msg) : outcome (result unit IpcError * Kernel) :=
  replier ← current_tcb_kva (sch k) c;
  rt ← tcb_at k replier;
  let reply_kva := current_reply_kva rt in
  let has_reply := negb (reply_kva =? 0) in
  reply_is_bound ← (if has_reply then rep ← rep_at k reply_kva; Ret (rp_state rep =? REPLY_STATE_BOUND) else Ret false);
  match decide_reply has_reply reply_is_bound with
  | ReplyDeliver =>
      rep ← rep_at k reply_kva;
      let caller := caller_tcb_kva rep in
      ct ← tcb_at k caller;
      let k := with_tcb k caller (set_blocked_on (set_msg ct msg) 0) in
      k ← wake k caller;
      let k := with_rep k reply_kva (mkReply REPLY_STATE_FRESH 0) in
      rt ← tcb_at k replier;
      Ret (Ok tt, with_tcb k replier (set_reply rt 0))
  | ReplyError err => Ret (Err err, k)
  end.

(** * Notifications (notification.rs) *)

Definition notification_signal (k : Kernel) (n new_value : Z) : outcome (result unit NotificationError * Kernel) :=
  obj ← ntf_at k n;
  match signal (nt_state obj) new_value with
  | (Err e, _) => Ret (Err e, k)
  | (Ok action, st) =>
      k ← match action with
          | Updated => Ret (with_ntf k n (mkNotif st (blocked_tcb_kva obj) (nt_readiness obj) (readiness_threshold obj)))
          | WakeWaiter =>
              wake (with_ntf k n (mkNotif st 0 (nt_readiness obj) (readiness_threshold obj))) (blocked_tcb_kva obj)
          end;
      obj ← ntf_at k n;
      if waiter_registered (nt_readiness obj) && is_notification_ready new_value (readiness_threshold obj) then
        k ← wake (with_ntf k n (mkNotif (nt_state obj) (blocked_tcb_kva obj) 0 0)) (nt_readiness obj);
        Ret (Ok tt, k)
      else Ret (Ok tt, k)
  end.

Definition notification_wait (k : Kernel) (c : nat) (n threshold : Z)
  : outcome (option (result Z NotificationError) * Kernel) :=
  obj ← ntf_at k n;
  match wait (nt_state obj) threshold with
  | (Err e, _) => Ret (Some (Err e), k)
  | (Ok WaitReady, st) =>
      Ret (Some (Ok (value st)), with_ntf k n (mkNotif st (blocked_tcb_kva obj) (nt_readiness obj) (readiness_threshold obj)))
  | (Ok WaitBlock, st) =>
      caller ← current_tcb_kva (sch k) c;
      let k := with_ntf k n (mkNotif st caller (nt_readiness obj) (readiness_threshold obj)) in
      ct ← tcb_at k caller;
      let k := with_tcb k caller (set_blocked_on ct n) in
      k ← suspend k c caller (InWaitNotification n);
      Ret (None, k)
  end.

(** The interrupt handler signals the bound notification with the next value
    and ignores a refusal. *)
Definition irq_signal (k : Kernel) (n : Z) : outcome Kernel :=
  obj ← ntf_at k n;
  new_value ← add_chk 64 (value (nt_state obj)) 1;
  r ← notification_signal k n new_value;
  Ret r.2.

(** * Readiness *)

Definition set_readiness_waiter (k : Kernel) (kind : ObjectType) (kva waiter threshold : Z) : outcome Kernel :=
  match kind with
  | OTEndpoint =>
      ep ← ep_at k kva;
      Ret (with_ep k kva (mkEp (ep_state ep) (waiter_register (ep_readiness ep) waiter).2 (queue_head ep) (queue_tail ep)))
  | OTNotification =>
      o ← ntf_at k kva;
      Ret (with_ntf k kva (mkNotif (nt_state o) (blocked_tcb_kva o) (waiter_register (nt_readiness o) waiter).2 threshold))
  | _ => Ret k
  end.

Definition clear_readiness_waiter (k : Kernel) (kind : ObjectType) (kva expected : Z) : outcome Kernel :=
  match kind with
  | OTEndpoint =>
      ep ← ep_at k kva;
      Ret (with_ep k kva (mkEp (ep_state ep) (waiter_clear_if_match (ep_readiness ep) expected).2 (queue_head ep) (queue_tail ep)))
  | OTNotification =>
      o ← ntf_at k kva;
      let x := waiter_clear_if_match (nt_readiness o) expected in
      Ret (with_ntf k kva (mkNotif (nt_state o) (blocked_tcb_kva o) x.2 (if x.1 then 0 else readiness_threshold o)))
  | _ => Ret k
  end.

(** [types[i] as u8] and back. *)
Definition obj_type_to_u8 (t : ObjectType) : Z :=
  match t with
  | OTHandleTable => 0 | OTThreadControlBlock => 1 | OTEndpoint => 2 | OTNotification => 3
  | OTReply => 4 | OTProcess => 5 | OTPageSet => 6
  end.
Definition obj_type_from_u8 (v : Z) : ObjectType :=
  if v =? 2 then OTEndpoint else if v =? 3 then OTNotification else OTHandleTable.

(** The snapshots [check_readiness] takes, in order. *)
Fixpoint snapshots (k : Kernel) (addrs : list Z) (types : list ObjectType) (thresholds : list Z)
  : outcome (list ObjectReadiness) :=
  match addrs, types, thresholds with
  | a :: addrs', ty :: types', th :: thresholds' =>
      o ← match ty with
          | OTEndpoint => ep ← ep_at k a; st ← ep_state_at ep; Ret (REndpoint st)
          | OTNotification => n ← ntf_at k a; Ret (RNotification (value (nt_state n)) th)
          | _ => Ret (REndpoint Idle)
          end;
      os ← snapshots k addrs' types' thresholds';
      Ret (o :: os)
  | _, _, _ => Ret []
  end.

Definition check_readiness (k : Kernel) (addrs : list Z) (types : list ObjectType) (thresholds : list Z) : outcome Z :=
  os ← snapshots k addrs types thresholds; Ret (compute_ready_mask os).

(** * System calls *)

Definition handle_table (k : Kernel) (c : nat) : outcome (list HandleEntry) :=
  t ← current_tcb_kva (sch k) c; tcb ← tcb_at k t; unwrap (tables k !! process_kva tcb).

(** ** Operations on handles *)

(** A call that has blocked has no result yet. *)
Definition OpResult (A E : Type) : Type := (result (option (result A E)) SyscallError * Kernel)%type.

Definition op_send (k : Kernel) (c : nat) (handle : Z) (msg : Msg) : outcome (OpResult unit IpcError) :=
  slots ← handle_table k c;
  match lookup slots handle RIGHT_WRITE OTEndpoint with
  | Err e => Ret (Err e, k)
  | Ok entry =>
      match h_kind entry with
      | HEndpoint kva (Some token) => x ← ipc_send k c kva msg token; Ret (Ok x.1, x.2)
      | _ => Ret (Err INVALID_PARAMETER, k)
      end
  end.

Definition op_receive (k : Kernel) (c : nat) (handle : Z) : outcome (OpResult Msg IpcError) :=
  slots ← handle_table k c;
  match lookup slots handle RIGHT_READ OTEndpoint with
  | Err e => Ret (Err e, k)
  | Ok entry =>
      match h_kind entry with
      | HEndpoint kva _ => x ← ipc_receive k c kva; Ret (Ok x.1, x.2)
      | _ => Ret (Err INVALID_PARAMETER, k)
      end
  end.

Definition op_call (k : Kernel) (c : nat) (ep_handle reply_handle : Z) (msg : Msg) : outcome (OpResult Msg IpcError) :=
  slots ← handle_table k c;
  let rw := Z.lor RIGHT_READ RIGHT_WRITE in
  match lookup slots ep_handle rw OTEndpoint with
  | Err e => Ret (Err e, k)
  | Ok ep_entry =>
      match lookup slots reply_handle rw OTReply with
      | Err e => Ret (Err e, k)
      | Ok reply_entry =>
          match h_kind ep_entry, h_kind reply_entry with
          | HEndpoint ep_kva (Some token), HReply reply_kva =>
              x ← ipc_call k c ep_kva reply_kva msg token; Ret (Ok x.1, x.2)
          | _, _ => Ret (Err INVALID_PARAMETER, k)
          end
      end
  end.

Definition op_recv_nb (k : Kernel) (c : nat) (handle : Z) : outcome (OpResult Msg IpcError) :=
  slots ← handle_table k c;
  match lookup slots handle RIGHT_READ OTEndpoint with
  | Err e => Ret (Err e, k)
  | Ok entry =>
      match h_kind entry with
      | HEndpoint kva _ => x ← ipc_receive_nb k c kva; Ret (Ok x.1, x.2)
      | _ => Ret (Err INVALID_PARAMETER, k)
      end
  end.

Definition op_signal_notification (k : Kernel) (c : nat) (handle new_value : Z) : outcome (OpResult unit NotificationError) :=
  slots ← handle_table k c;
  match lookup slots handle RIGHT_WRITE OTNotification with
  | Err e => Ret (Err e, k)
  | Ok entry =>
      match h_kind entry with
      | HNotification kva => x ← notification_signal k kva new_value; Ret (Ok (Some x.1), x.2)
      | _ => Ret (Err INVALID_PARAMETER, k)
      end
  end.

Definition op_wait_notification (k : Kernel) (c : nat) (handle threshold : Z) : outcome (OpResult Z NotificationError) :=
  slots ← handle_table k c;
  match lookup slots handle RIGHT_READ OTNotification with
  | Err e => Ret (Err e, k)
  | Ok entry =>
      match h_kind entry with
      | HNotification kva => x ← notification_wait k c kva threshold; Ret (Ok x.1, x.2)
      | _ => Ret (Err INVALID_PARAMETER, k)
      end
  end.

(** ** Handlers *)

(** The arguments are the caller's registers; handles are their low 32 bits. *)
Inductive Sys :=
  | SysSend (x0 : Z) (msg : Msg)
  | SysReceive (x0 : Z)
  | SysCall (x0 x1 : Z) (msg : Msg)
  | SysReply (msg : Msg)
  | SysRecvNb (x0 : Z)
  | SysSignal (x0 new_value : Z)
  | SysWaitNotification (x0 threshold : Z)
  | SysWaitAny (user_load : option (Z -> option WaitEntry)) (entries_va : Z) (count : nat) (deadline now : Z)
  | SysQueryCallerToken.

Definition SysResult : Type := (option SyscallReturn * Kernel)%type.

Definition sys_send (k : Kernel) (c : nat) (x0 : Z) (msg : Msg) : outcome SysResult :=
  x ← op_send k c (wrap 32 x0) msg;
  Ret (match x.1 with
       | Ok None => None
       | Ok (Some (Ok _)) => Some (Void OK)
       | Ok (Some (Err _)) => Some (Void ENDPOINT_BUSY)
       | Err e => Some (Void e)
       end, x.2).

(** The return value of the receiving calls. *)
Definition message_return (r : option (result Msg IpcError)) (of_error : IpcError -> SyscallError) : option SyscallReturn :=
  match r with
  | None => None
  | Some (Ok m) => Some (Message OK (words m))
  | Some (Err e) => Some (Message (of_error e) [])
  end.

Definition sys_receive (k : Kernel) (c : nat) (x0 : Z) : outcome SysResult :=
  x ← op_receive k c (wrap 32 x0);
  Ret (match x.1 with Ok r => message_return r (fun _ => UNKNOWN) | Err e => Some (Message e []) end, x.2).

Definition call_error (e : IpcError) : SyscallError := match e with ReplyBound => REPLY_BOUND | _ => UNKNOWN end.

Definition sys_call (k : Kernel) (c : nat) (x0 x1 : Z) (msg : Msg) : outcome SysResult :=
  x ← op_call k c (wrap 32 x0) (wrap 32 x1) msg;
  Ret (match x.1 with Ok r => message_return r call_error | Err e => Some (Message e []) end, x.2).

Definition sys_reply (k : Kernel) (c : nat) (msg : Msg) : outcome SysResult :=
  x ← ipc_reply k c msg;
  Ret (Some (match x.1 with
             | Ok _ => Void OK
             | Err NoCaller => Void NO_CALLER
             | Err _ => Void UNKNOWN
             end), x.2).

Definition nb_error (e : IpcError) : SyscallError := match e with WouldBlock => WOULD_BLOCK | _ => UNKNOWN end.

Definition sys_recv_nb (k : Kernel) (c : nat) (x0 : Z) : outcome SysResult :=
  x ← op_recv_nb k c (wrap 32 x0);
  Ret (match x.1 with Ok r => message_return r nb_error | Err e => Some (Message e []) end, x.2).

Definition sys_signal_notification (k : Kernel) (c : nat) (x0 new_value : Z) : outcome SysResult :=
  x ← op_signal_notification k c (wrap 32 x0) new_value;
  Ret (match x.1 with
       | Ok None => None
       | Ok (Some (Ok _)) => Some (Void OK)
       | Ok (Some (Err ValueNotMonotonic)) => Some (Void NOT_MONOTONIC)
       | Ok (Some (Err _)) => Some (Void UNKNOWN)
       | Err e => Some (Void e)
       end, x.2).

Definition sys_wait_notification (k : Kernel) (c : nat) (x0 threshold : Z) : outcome SysResult :=
  x ← op_wait_notification k c (wrap 32 x0) threshold;
  Ret (match x.1 with
       | Ok None => None
       | Ok (Some (Ok v)) => Some (Value (Ok v))
       | Ok (Some (Err AlreadyHasWaiter)) => Some (Value (Err ALREADY_WAITING))
       | Ok (Some (Err _)) => Some (Value (Err UNKNOWN))
       | Err e => Some (Value (Err e))
       end, x.2).

(** [UserAddressSpace::read] of a wait entry (16 bytes, 8-aligned): the checks
    of the address; [user_load] is the page walk and the load. *)
Definition WAIT_ENTRY_BYTES : Z := 16.
Definition user_read (user_load : Z -> option WaitEntry) (user_va : Z) : option WaitEntry :=
  if negb (validate_user_buffer user_va WAIT_ENTRY_BYTES) then None else
  if negb (validate_intra_page user_va WAIT_ENTRY_BYTES) then None else
  if negb (Z.land user_va (8 - 1) =? 0) then None else
  user_load user_va.

(** The entries [i], ..., [i + n - 1]: address, type and threshold. *)
Fixpoint read_entries (user_load : Z -> option WaitEntry) (slots : list HandleEntry) (entries_va i : Z) (n : nat)
  : outcome (result (list (Z * ObjectType * Z)) SyscallError) :=
  match n with
  | O => Ret (Ok [])
  | Datatypes.S n' =>
      user_va ← add_chk 64 entries_va (i * WAIT_ENTRY_BYTES);
      match user_read user_load user_va with
      | None => Ret (Err INVALID_PARAMETER)
      | Some entry =>
          match lookup_any slots (wrap 32 (we_handle entry)) RIGHT_READ with
          | Err e => Ret (Err e)
          | Ok he =>
              match h_kind he with
              | HEndpoint kva _ =>
                  r ← read_entries user_load slots entries_va (i + 1) n';
                  Ret (match r with Ok l => Ok ((kva, OTEndpoint, we_threshold entry) :: l) | Err e => Err e end)
              | HNotification kva =>
                  r ← read_entries user_load slots entries_va (i + 1) n';
                  Ret (match r with Ok l => Ok ((kva, OTNotification, we_threshold entry) :: l) | Err e => Err e end)
              | _ => Ret (Err INVALID_PARAMETER)
              end
          end
      end
  end.

Fixpoint register_all (k : Kernel) (tcb_kva : Z) (entries : list (Z * ObjectType * Z)) : outcome Kernel :=
  match entries with
  | [] => Ret k
  | (a, ty, th) :: rest => k ← set_readiness_waiter k ty a tcb_kva th; register_all k tcb_kva rest
  end.

Fixpoint unregister_all (k : Kernel) (tcb_kva : Z) (objects types : list Z) : outcome Kernel :=
  match objects, types with
  | a :: objects', tag :: types' =>
      k ← clear_readiness_waiter k (obj_type_from_u8 tag) a tcb_kva;
      unregister_all k tcb_kva objects' types'
  | _, _ => Ret k
  end.

(** [user_load] is [None] for a thread without an address space. *)
Definition sys_wait_any (k : Kernel) (c : nat) (user_load : option (Z -> option WaitEntry)) (entries_va : Z)
    (count : nat) (deadline now : Z) : outcome SysResult :=
  if negb (validate_wait_count count) then Ret (Some (Value (Err INVALID_PARAMETER)), k) else
  if bool_decide (count <> 0%nat) && bool_decide (user_load = None) then Ret (Some (Value (Err INVALID_PARAMETER)), k) else
  tcb_kva ← current_tcb_kva (sch k) c;
  r ← match count, user_load with
      | Datatypes.S _, Some load => slots ← handle_table k c; read_entries load slots entries_va 0 count
      | _, _ => Ret (Ok [])
      end;
  match r with
  | Err e => Ret (Some (Value (Err e)), k)
  | Ok entries =>
      let addrs := map (fun x => x.1.1) entries in
      let types := map (fun x => x.1.2) entries in
      let thresholds := map snd entries in
      mask ← check_readiness k addrs types thresholds;
      if negb (mask =? 0) then Ret (Some (Value (Ok mask)), k) else
      if deadline_expired deadline now then Ret (Some (Value (Ok 0)), k) else
      k ← register_all k tcb_kva entries;
      tcb ← tcb_at k tcb_kva;
      let k := with_tcb k tcb_kva (set_wait tcb addrs (map obj_type_to_u8 types)) in
      s ← set_wait_deadline (sch k) c deadline;
      k ← suspend (with_sch k s) c tcb_kva (InWaitAny addrs types thresholds);
      Ret (None, k)
  end.

Definition sys_query_caller_token (k : Kernel) (c : nat) : outcome SysResult :=
  t ← current_tcb_kva (sch k) c; tcb ← tcb_at k t; Ret (Some (Value (Ok (last_caller_token tcb))), k).

(** The dispatch of [handle_syscall], for these calls. *)
Definition ipc_syscall (k : Kernel) (c : nat) (call : Sys) : outcome SysResult :=
  match call with
  | SysSend x0 msg => sys_send k c x0 msg
  | SysReceive x0 => sys_receive k c x0
  | SysCall x0 x1 msg => sys_call k c x0 x1 msg
  | SysReply msg => sys_reply k c msg
  | SysRecvNb x0 => sys_recv_nb k c x0
  | SysSignal x0 new_value => sys_signal_notification k c x0 new_value
  | SysWaitNotification x0 threshold => sys_wait_notification k c x0 threshold
  | SysWaitAny load entries_va count deadline now => sys_wait_any k c load entries_va count deadline now
  | SysQueryCallerToken => sys_query_caller_token k c
  end.

(** The rest of a call after [block_current] has returned. *)
Definition resume (k : Kernel) (c : nat) : outcome SysResult :=
  t ← current_tcb_kva (sch k) c;
  rest ← unwrap (stacks k !! t);
  let k := with_stacks k (delete t (stacks k)) in
  match rest with
  | InSend => Ret (Some (Void OK), k)
  | InReceive | InCall => tcb ← tcb_at k t; Ret (Some (Message OK (words (ipc_msg tcb))), k)
  | InWaitNotification n => obj ← ntf_at k n; Ret (Some (Value (Ok (value (nt_state obj)))), k)
  | InWaitAny addrs types thresholds =>
      s ← set_wait_deadline (sch k) c no_deadline;
      let k := with_sch k s in
      tcb ← tcb_at k t;
      let wc := length (wait_objects tcb) in
      k ← unregister_all k t (wait_objects tcb) (wait_types tcb);
      tcb ← tcb_at k t;
      let k := with_tcb k t (set_wait tcb [] []) in
      mask ← check_readiness k (take wc addrs) (take wc types) (take wc thresholds);
      Ret (Some (Value (Ok mask)), k)
  end.

(** * Histories *)

Inductive Event :=
  | Enter (c : nat) (call : Sys)
  | Resume (c : nat)
  | Irq (notif : Z)
  | Between (e : sched_event).

Definition handle (k : Kernel) (ev : Event) : outcome SysResult :=
  match ev with
  | Enter c call => ipc_syscall k c call
  | Resume c => resume k c
  | Irq n => k ← irq_signal k n; Ret (None, k)
  | Between e => s ← sched_step (sch k) e; Ret (None, with_sch k s)
  end.

Fixpoint history (k : Kernel) (evs : list Event) : outcome (list (option SyscallReturn) * Kernel) :=
  match evs with
  | [] => Ret ([], k)
  | ev :: evs' =>
      x ← handle k ev;
      y ← history x.2 evs';
      Ret (x.1 :: y.1, y.2)
  end.

End Ops.
