(* ===== verification/IpcSpec.v ===== *)
(** The specification of IPC: first-in first-out ports, calls that are answered
    by exactly the thread that took them, and the invariant of its states. The
    refinement of the kernel's objects is in [IpcRefine]. *)
From Stdlib Require Import ZArith Lia.
From stdpp Require Import base option list gmap numbers fin_maps.
From S2P Require Import Prelude Handles IpcState Ipc.
Open Scope Z_scope.

(** * States *)

(** What a thread inside a blocking call waits for: its turn at a port, with
    the message it brought; the answer to a call that was taken; nothing any
    more, with the result it will return; a notification; any of several
    objects. A thread without a status is not inside a call. *)
Inductive Status :=
  | Queued (e : Z) (kind : WaitKind) (msg : Msg) (token reply : Z)
  | Awaiting (reply : Z)
  | Completed (r : SyscallReturn)
  | OnNotification (n : Z)
  | OnAny.

(** A port holds the senders and callers in their order of arrival, or one
    waiting receiver. *)
Inductive Port := Waiters (ts : list Z) | Receiver (t : Z).
Definition port_threads (p : Port) : list Z := match p with Waiters ts => ts | Receiver t => [t] end.

Definition port_state (p : Port) : EpState :=
  match p with Waiters [] => Idle | Waiters _ => HasWaiters | Receiver _ => HasReceiver end.

(** [calls]: the reply objects in use and their callers; [serving]: the reply
    a thread still owes; [sender]: the token of the last message a thread
    took. *)
Record Spec := mkSpec {
  status : gmap Z Status;
  ports : gmap Z Port;
  calls : gmap Z Z;
  serving : gmap Z Z;
  sender : gmap Z Z;
}.

Definition no_msg : Msg := (0, 0, 0, 0).

(** * Operations of thread [t] *)

Definition spec_send (a : Spec) (t e : Z) (msg : Msg) (tok : Z) : option SyscallReturn * Spec :=
  match ports a !! e with
  | Some (Receiver u) =>
      (Some (Void OK),
       mkSpec (<[u := Completed (Message OK (words msg))]> (status a)) (<[e := Waiters []]> (ports a))
         (calls a) (serving a) (<[u := tok]> (sender a)))
  | Some (Waiters ts) =>
      (None,
       mkSpec (<[t := Queued e WSend msg tok 0]> (status a)) (<[e := Waiters (ts ++ [t])]> (ports a))
         (calls a) (serving a) (sender a))
  | None => (Some (Void UNKNOWN), a)
  end.

Definition spec_receive (a : Spec) (t e : Z) : option SyscallReturn * Spec :=
  match serving a !! t, ports a !! e with
  | None, Some (Waiters []) =>
      (None,
       mkSpec (<[t := Queued e WReceive no_msg 0 0]> (status a)) (<[e := Receiver t]> (ports a))
         (calls a) (serving a) (sender a))
  | None, Some (Waiters (u :: ts)) =>
      match status a !! u with
      | Some (Queued _ WSend msg tok _) =>
          (Some (Message OK (words msg)),
           mkSpec (<[u := Completed (Void OK)]> (status a)) (<[e := Waiters ts]> (ports a))
             (calls a) (serving a) (<[t := tok]> (sender a)))
      | Some (Queued _ WCall msg tok r) =>
          (Some (Message OK (words msg)),
           mkSpec (<[u := Awaiting r]> (status a)) (<[e := Waiters ts]> (ports a))
             (calls a) (<[t := r]> (serving a)) (<[t := tok]> (sender a)))
      | _ => (Some (Message UNKNOWN []), a)
      end
  | _, _ => (Some (Message UNKNOWN []), a)
  end.

Definition spec_call (a : Spec) (t e r : Z) (msg : Msg) (tok : Z) : option SyscallReturn * Spec :=
  match calls a !! r, ports a !! e with
  | None, Some (Receiver u) =>
      (None,
       mkSpec (<[t := Awaiting r]> (<[u := Completed (Message OK (words msg))]> (status a)))
         (<[e := Waiters []]> (ports a)) (<[r := t]> (calls a)) (<[u := r]> (serving a)) (<[u := tok]> (sender a)))
  | None, Some (Waiters ts) =>
      (None,
       mkSpec (<[t := Queued e WCall msg tok r]> (status a)) (<[e := Waiters (ts ++ [t])]> (ports a))
         (<[r := t]> (calls a)) (serving a) (sender a))
  | Some _, _ => (Some (Message REPLY_BOUND []), a)
  | None, None => (Some (Message UNKNOWN []), a)
  end.

Definition spec_reply (a : Spec) (t : Z) (msg : Msg) : option SyscallReturn * Spec :=
  match serving a !! t with
  | None => (Some (Void NO_CALLER), a)
  | Some r =>
      match calls a !! r with
      | None => (Some (Void NO_CALLER), a)
      | Some c =>
          (Some (Void OK),
           mkSpec (<[c := Completed (Message OK (words msg))]> (status a)) (ports a)
             (delete r (calls a)) (delete t (serving a)) (sender a))
      end
  end.

Definition spec_recv_nb (a : Spec) (t e : Z) : option SyscallReturn * Spec :=
  match ports a !! e with
  | Some (Waiters (_ :: _)) => spec_receive a t e
  | _ => (Some (Message WOULD_BLOCK []), a)
  end.

Definition with_status (a : Spec) (s : gmap Z Status) : Spec := mkSpec s (ports a) (calls a) (serving a) (sender a).

(** * The invariant *)

(** Thread [c] has reply [r] in use: it is queued with it or awaits its
    answer. *)
Definition holds (a : Spec) (c r : Z) : Prop :=
  (exists e m tok, status a !! c = Some (Queued e WCall m tok r)) \/ status a !! c = Some (Awaiting r).

Definition queued_at (a : Spec) (t e : Z) (w : WaitKind) : Prop :=
  exists m tok r, status a !! t = Some (Queued e w m tok r).

Record SpecInv (a : Spec) : Prop := {
  si_nodup : forall e p, ports a !! e = Some p -> NoDup (port_threads p);
  si_member : forall e p t, ports a !! e = Some p -> (t ∈ port_threads p <-> exists w, queued_at a t e w);
  si_kind : forall e p t w, ports a !! e = Some p -> queued_at a t e w -> (w = WReceive <-> p = Receiver t);
  si_port : forall t e w, queued_at a t e w -> is_Some (ports a !! e);
  si_calls : forall r c, calls a !! r = Some c <-> holds a c r;
  si_serving : forall t r, serving a !! t = Some r -> exists c, status a !! c = Some (Awaiting r);
  si_inj : forall t t' r, serving a !! t = Some r -> serving a !! t' = Some r -> t = t';
  si_awaited : forall c r, status a !! c = Some (Awaiting r) -> exists t, serving a !! t = Some r;
  si_receiver : forall t e, queued_at a t e WReceive -> serving a !! t = None;
}.

(** A thread that is not inside a call. *)
Definition idle (a : Spec) (t : Z) : Prop := status a !! t = None.

(** * Preservation *)

(** Case analysis on the lookups of updated maps. *)
Ltac lookups :=
  repeat match goal with
  | H : context [<[_ := _]> _ !! _] |- _ => rewrite lookup_insert in H
  | |- context [<[_ := _]> _ !! _] => rewrite lookup_insert
  | H : context [delete _ _ !! _] |- _ => rewrite lookup_delete in H
  | |- context [delete _ _ !! _] => rewrite lookup_delete
  | H : context [decide (?x = ?y)] |- _ => destruct (decide (x = y)); simplify_eq
  | |- context [decide (?x = ?y)] => destruct (decide (x = y)); simplify_eq
  end.

(** A change of one thread's status that is neither queued nor awaiting
    before or after. *)
Lemma inv_plain a u s :
  SpecInv a ->
  (forall e w m tok r, status a !! u <> Some (Queued e w m tok r)) -> (forall r, status a !! u <> Some (Awaiting r)) ->
  (forall e w m tok r, s <> Queued e w m tok r) -> (forall r, s <> Awaiting r) ->
  SpecInv (with_status a (<[u := s]> (status a))).
Proof.
  intros I H1 H2 H3 H4.
  assert (Q : forall t e w m tok r, <[u := s]> (status a) !! t = Some (Queued e w m tok r) <->
    status a !! t = Some (Queued e w m tok r)).
  { intros t e w m tok r. lookups; naive_solver. }
  assert (A : forall t r, <[u := s]> (status a) !! t = Some (Awaiting r) <-> status a !! t = Some (Awaiting r)).
  { intros t r. lookups; naive_solver. }
  destruct I. constructor; unfold queued_at, holds in *; cbn [with_status status ports calls serving sender];
    repeat setoid_rewrite Q; repeat setoid_rewrite A; eauto.
Qed.

Lemma inv_drop a u :
  SpecInv a ->
  (forall e w m tok r, status a !! u <> Some (Queued e w m tok r)) -> (forall r, status a !! u <> Some (Awaiting r)) ->
  SpecInv (with_status a (delete u (status a))).
Proof.
  intros I H1 H2.
  assert (Q : forall t e w m tok r, delete u (status a) !! t = Some (Queued e w m tok r) <->
    status a !! t = Some (Queued e w m tok r)).
  { intros t e w m tok r. lookups; naive_solver. }
  assert (A : forall t r, delete u (status a) !! t = Some (Awaiting r) <-> status a !! t = Some (Awaiting r)).
  { intros t r. lookups; naive_solver. }
  destruct I. constructor; unfold queued_at, holds in *; cbn [with_status status ports calls serving sender];
    repeat setoid_rewrite Q; repeat setoid_rewrite A; eauto.
Qed.

(** An idle thread that starts to wait for something else than a port. *)
Lemma idle_not_queued a t : idle a t -> forall e w m tok r, status a !! t <> Some (Queued e w m tok r).
Proof. unfold idle. congruence. Qed.
Lemma idle_not_awaiting a t : idle a t -> forall r, status a !! t <> Some (Awaiting r).
Proof. unfold idle. congruence. Qed.

(** [t] joins the port [e]. *)
Lemma inv_join a t e p p' w m tok r calls' :
  SpecInv a -> idle a t -> ports a !! e = Some p ->
  (w = WReceive /\ p = Waiters [] /\ p' = Receiver t /\ serving a !! t = None \/
   w <> WReceive /\ exists ts, p = Waiters ts /\ p' = Waiters (ts ++ [t])) ->
  (w = WCall /\ calls a !! r = None /\ calls' = <[r := t]> (calls a) \/ w <> WCall /\ calls' = calls a) ->
  SpecInv (mkSpec (<[t := Queued e w m tok r]> (status a)) (<[e := p']> (ports a)) calls' (serving a) (sender a)).
Proof.
  intros I Ht He Hp Hc.
  assert (Q : forall t' e' w', queued_at (mkSpec (<[t := Queued e w m tok r]> (status a)) (<[e := p']> (ports a)) calls' (serving a) (sender a)) t' e' w' <->
    (t' = t /\ e' = e /\ w' = w) \/ queued_at a t' e' w').
  { intros t' e' w'. unfold queued_at, idle in *. cbn. lookups; naive_solver. }
  assert (Nt : forall e' w', ~ queued_at a t e' w') by (intros e' w' (? & ? & ? & Hq); congruence).
  assert (Hts : port_threads p' = port_threads p ++ [t]) by naive_solver.
  assert (Hnew : t ∉ port_threads p).
  { rewrite (si_member _ I e p t He). intros [w' Hw']. by eapply Nt. }
  constructor; cbn [status ports calls serving sender].
  - intros e' p0 E. lookups; [|by eapply si_nodup]. rewrite Hts. apply NoDup_app. split_and!.
    + by eapply si_nodup.
    + intros x Hx ->%list_elem_of_singleton. done.
    + apply NoDup_singleton.
  - intros e' p0 t' E. setoid_rewrite Q. lookups.
    + rewrite Hts, elem_of_app, list_elem_of_singleton, (si_member _ I _ _ t' He). naive_solver.
    + rewrite (si_member _ I e' p0 t' E). naive_solver.
  - intros e' p0 t' w' E. rewrite Q. intros [(-> & -> & ->)|Hq]; lookups.
    + destruct Hp as [(-> & _ & -> & _)|(Hw & ts & _ & ->)]; naive_solver.
    + pose proof (si_kind _ I _ _ _ _ He Hq) as K.
      destruct Hp as [(-> & -> & -> & _)|(Hw & ts & -> & ->)].
      * exfalso. assert (t' ∈ port_threads (Waiters [])) as X%elem_of_nil by (rewrite (si_member _ I _ _ _ He); eauto). done.
      * rewrite K. naive_solver.
    + by eapply si_kind.
  - intros t' e' w'. rewrite Q. intros [(-> & -> & ->)|Hq]; lookups; eauto. by eapply si_port.
  - intros r' c. unfold holds, idle in *; cbn. destruct Hc as [(-> & Hr & ->)|(Hw & ->)].
    + pose proof (si_calls _ I r' c) as K. unfold holds in K. lookups; naive_solver.
    + pose proof (si_calls _ I r' c) as K. unfold holds in K. rewrite K. lookups; naive_solver.
  - intros t' r' Hs. destruct (si_serving _ I _ _ Hs) as [c Hc']. exists c. unfold idle in Ht. lookups; congruence.
  - apply (si_inj _ I).
  - intros c r' Hc'. unfold idle in Ht. lookups. by eapply si_awaited.
  - intros t' e'. rewrite Q. intros [(-> & -> & <-)|Hq]; [|by eapply si_receiver]. naive_solver.
Qed.

(** The head [u] of port [e] leaves: its operation completes, or it was a call
    and [t] is to answer it. *)
Lemma inv_leave a t e p u ts w m tok r s serving' sender' :
  SpecInv a -> ports a !! e = Some p -> port_threads p = u :: ts -> status a !! u = Some (Queued e w m tok r) ->
  (w <> WCall /\ (exists x, s = Completed x) /\ serving' = serving a \/
   w = WCall /\ s = Awaiting r /\ serving' = <[t := r]> (serving a) /\ serving a !! t = None /\ idle a t) ->
  SpecInv (mkSpec (<[u := s]> (status a)) (<[e := Waiters ts]> (ports a)) (calls a) serving' sender').
Proof.
  intros I He Hp Hu Hs.
  assert (Q : forall t' e' w', queued_at (mkSpec (<[u := s]> (status a)) (<[e := Waiters ts]> (ports a)) (calls a) serving' sender') t' e' w' <->
    t' <> u /\ queued_at a t' e' w').
  { intros t' e' w'. unfold queued_at. cbn. lookups; naive_solver. }
  assert (A : forall c r', <[u := s]> (status a) !! c = Some (Awaiting r') <->
    (c = u /\ s = Awaiting r') \/ (c <> u /\ status a !! c = Some (Awaiting r'))).
  { intros c r'. lookups; naive_solver. }
  pose proof (si_nodup _ I _ _ He) as ND. rewrite Hp in ND. apply NoDup_cons in ND as [Nu ND].
  assert (Mts : forall t', t' ∈ ts <-> t' <> u /\ exists w', queued_at a t' e w').
  { intros t'. rewrite <- (si_member _ I _ _ t' He), Hp, elem_of_cons. naive_solver. }
  constructor; cbn [status ports calls serving sender].
  - intros e' p0 E. lookups; [done|by eapply si_nodup].
  - intros e' p0 t' E. setoid_rewrite Q. lookups; cbn [port_threads]; [rewrite Mts; naive_solver|].
    rewrite (si_member _ I _ _ t' E). split; [|naive_solver].
    intros [w' Hw]. exists w'. split; [|done]. intros ->. destruct Hw as (? & ? & ? & ?). congruence.
  - intros e' p0 t' w' E. rewrite Q. intros [Hne Hq]. lookups; [|by eapply si_kind].
    split; [|done]. intros ->. pose proof (proj1 (si_kind _ I _ _ _ _ He Hq) eq_refl) as ->. cbn in Hp. naive_solver.
  - intros t' e' w'. rewrite Q. intros [_ Hq]. lookups; eauto. by eapply si_port.
  - intros r' c. unfold holds in *; cbn. rewrite A. pose proof (si_calls _ I r' c) as K. unfold holds in K. rewrite K.
    destruct (decide (u = c)) as [<-|Hne]; lookups; [|naive_solver].
    destruct Hs as [(Hw & [x ->] & _)|(-> & -> & _)]; naive_solver.
  - intros t' r' Ht'. setoid_rewrite A. destruct Hs as [(Hw & [x ->] & ->)|(-> & -> & -> & Hn & _)].
    + destruct (si_serving _ I _ _ Ht') as [c Hc]. exists c. right. split; [|done]. intros ->. congruence.
    + lookups; [by eauto|]. destruct (si_serving _ I _ _ Ht') as [c Hc]. exists c. right. split; [|done]. intros ->. congruence.
  - intros t1 t2 r' H1 H2. destruct Hs as [(Hw & [x ->] & ->)|(-> & -> & -> & Hn & _)]; [by eapply (si_inj _ I)|].
    assert (X : forall t', serving a !! t' <> Some r).
    { intros t' Ht'. destruct (si_serving _ I _ _ Ht') as [c Hc].
      assert (calls a !! r = Some c) as C1 by (apply si_calls; [done|]; by right).
      assert (calls a !! r = Some u) as C2 by (apply si_calls; [done|]; left; eauto). congruence. }
    lookups; try done; [by destruct (X t2)|by destruct (X t1)|by eapply (si_inj _ I)].
  - intros c r'. rewrite A. destruct Hs as [(Hw & [x ->] & ->)|(-> & -> & -> & Hn & _)].
    + intros [[_ ?]|[_ Hc]]; [done|]. by eapply si_awaited.
    + intros [[-> [= <-]]|[_ Hc]]; [exists t; lookups; done|].
      destruct (si_awaited _ I _ _ Hc) as [t' Ht']. exists t'. lookups; congruence.
  - intros t' e'. rewrite Q. intros [Hne Hq]. pose proof (si_receiver _ I _ _ Hq) as K.
    destruct Hs as [(Hw & [x ->] & ->)|(-> & -> & -> & Hn & Hi)]; [done|]. lookups; [|done].
    destruct Hq as (? & ? & ? & ?). unfold idle in Hi. congruence.
Qed.

(** The idle thread [t] has its call with reply [r] taken at once by [u], which
    owes no other reply. *)
Lemma inv_taken a t u r sender' :
  SpecInv a -> idle a t -> calls a !! r = None -> serving a !! u = None -> (forall e, ~ queued_at a u e WReceive) ->
  SpecInv (mkSpec (<[t := Awaiting r]> (status a)) (ports a) (<[r := t]> (calls a)) (<[u := r]> (serving a)) sender').
Proof.
  intros I Ht Hr Hu Hq. unfold idle in Ht.
  assert (Q : forall t' e' w', queued_at (mkSpec (<[t := Awaiting r]> (status a)) (ports a) (<[r := t]> (calls a)) (<[u := r]> (serving a)) sender') t' e' w' <->
    queued_at a t' e' w').
  { intros t' e' w'. unfold queued_at. cbn. lookups; naive_solver. }
  assert (NA : forall c, status a !! c <> Some (Awaiting r)).
  { intros c Hc. assert (calls a !! r = Some c) by (apply si_calls; [done|by right]). congruence. }
  assert (NS : forall t', serving a !! t' <> Some r) by (intros t' Ht'; destruct (si_serving _ I _ _ Ht') as [c Hc]; by eapply NA).
  constructor; cbn [status ports calls serving sender]; try setoid_rewrite Q.
  - apply (si_nodup _ I).
  - apply (si_member _ I).
  - apply (si_kind _ I).
  - apply (si_port _ I).
  - intros r' c. unfold holds; cbn. pose proof (si_calls _ I r' c) as K. unfold holds in K. lookups; naive_solver.
  - intros t' r' Hs. lookups; [exists t; lookups; done|]. destruct (si_serving _ I _ _ Hs) as [c Hc]. exists c. lookups; congruence.
  - intros t1 t2 r' H1 H2. lookups; first [done|by eapply (si_inj _ I)|exfalso; by eapply NS].
  - intros c r' Hc. lookups; [exists u; lookups; done|]. destruct (si_awaited _ I _ _ Hc) as [t' Ht']. exists t'. lookups; congruence.
  - intros t' e Hq'. lookups; [by destruct (Hq e)|by eapply si_receiver].
Qed.

(** [t] answers the reply [r] of [c]. *)
Lemma inv_answer a t r c x :
  SpecInv a -> serving a !! t = Some r -> calls a !! r = Some c ->
  SpecInv (mkSpec (<[c := Completed x]> (status a)) (ports a) (delete r (calls a)) (delete t (serving a)) (sender a)).
Proof.
  intros I Ht Hr.
  assert (Hc : status a !! c = Some (Awaiting r)).
  { destruct (si_serving _ I _ _ Ht) as [c' Hc']. assert (calls a !! r = Some c') by (apply si_calls; [done|by right]). congruence. }
  assert (Q : forall t' e' w', queued_at (mkSpec (<[c := Completed x]> (status a)) (ports a) (delete r (calls a)) (delete t (serving a)) (sender a)) t' e' w' <->
    queued_at a t' e' w').
  { intros t' e' w'. unfold queued_at. cbn. lookups; naive_solver. }
  constructor; cbn [status ports calls serving sender]; try setoid_rewrite Q.
  - apply (si_nodup _ I).
  - apply (si_member _ I).
  - apply (si_kind _ I).
  - apply (si_port _ I).
  - intros r' c'. unfold holds; cbn. pose proof (si_calls _ I r' c') as K. pose proof (si_calls _ I r c') as K'.
    unfold holds in K, K'. lookups; naive_solver.
  - intros t' r' Hs. lookups. destruct (si_serving _ I _ _ Hs) as [c' Hc']. exists c'. lookups; [|done].
    exfalso. by destruct (si_inj _ I _ _ _ Hs Ht).
  - intros t1 t2 r' H1 H2. lookups. by eapply (si_inj _ I).
  - intros c' r' Hc'. lookups. destruct (si_awaited _ I _ _ Hc') as [t' Ht']. exists t'. lookups; [|done].
    assert (calls a !! r = Some c') by (apply si_calls; [done|right; congruence]). congruence.
  - intros t' e Hq. lookups; [done|by eapply si_receiver].
Qed.
