(* ===== verification/IpcRefine.v ===== *)
(** The kernel's IPC objects implement [IpcSpec]: the abstraction relation
    between endpoints, reply objects, thread control blocks and suspended calls
    on one side and ports, calls and thread states on the other, and its
    preservation by every system call, resumption, interrupt and scheduling
    step. The scheduler enters through the laws of [SchedulerLaws]. *)
From Stdlib Require Import ZArith Lia.
From stdpp Require Import base option list gmap numbers fin_maps.
From S2P Require Import Prelude Handles IpcState Ipc IpcSpec.
Open Scope Z_scope.

(** * What IPC relies on *)

(** [s_runs s c t]: thread [t] executes on CPU [c] and is not inside
    [block_current]. A blocked thread is woken once by [unblock_thread]; by
    itself it wakes only when it set a deadline. The control block of a thread
    the scheduler knows is allocated. A step the scheduler enables runs without
    a panic when it has [s_stays]. *)
Class SchedulerLaws (S : Type) `{Scheduler S} := {
  s_ok : S -> Prop;
  s_runs : S -> nat -> Z -> Prop;
  s_blocked : S -> Z -> Prop;
  s_known : S -> Z -> Prop;
  s_deadline : S -> Z -> Z;
  s_enabled : S -> sched_event -> Prop;
  s_stays : S -> sched_event -> Prop;
  law_current s c t : s_ok s -> s_runs s c t -> current_tcb_kva s c = Ret t;
  law_known s c t : s_ok s -> s_runs s c t -> s_known s t;
  law_awake s c t : s_ok s -> s_runs s c t -> ~ s_blocked s t;
  law_unblock s t : s_ok s -> s_blocked s t ->
    exists s', unblock_thread s t = Ret s' /\ s_ok s' /\
      (forall u, s_blocked s' u <-> s_blocked s u /\ u <> t) /\
      (forall u, s_deadline s' u = s_deadline s u) /\ (forall u, s_known s' u -> s_known s u) /\
      (forall c u, s_runs s c u -> s_runs s' c u);
  law_block s c t : s_ok s -> s_runs s c t ->
    exists s', block_current s c = Ret s' /\ s_ok s' /\
      (forall u, s_blocked s' u <-> s_blocked s u \/ u = t) /\
      (forall u, s_deadline s u = no_deadline -> s_deadline s' u = no_deadline) /\ (forall u, s_known s' u -> s_known s u);
  law_deadline s c t d : s_ok s -> s_runs s c t ->
    exists s', set_wait_deadline s c d = Ret s' /\ s_ok s' /\
      (forall u, s_blocked s' u <-> s_blocked s u) /\
      (forall u, s_deadline s' u = if decide (u = t) then d else s_deadline s u) /\
      (forall u, s_known s' u -> s_known s u) /\ (forall c u, s_runs s c u -> s_runs s' c u);
  law_step s e : s_ok s -> s_enabled s e -> s_stays s e ->
    exists s', sched_step s e = Ret s' /\ s_ok s' /\
      (forall u, s_deadline s u = no_deadline -> s_deadline s' u = no_deadline /\ (s_blocked s u -> s_blocked s' u)) /\
      (forall u, s_known s' u -> s_known s u);
  law_live s t : s_ok s -> s_known s t -> tcb_live s t = true;
  law_blocked s t : s_ok s -> s_blocked s t -> s_known s t;
  law_unblock_live s t s' u : unblock_thread s t = Ret s' -> tcb_live s' u = tcb_live s u;
  law_deadline_live s c d s' u : set_wait_deadline s c d = Ret s' -> tcb_live s' u = tcb_live s u;
}.

(** * Evaluating an operation *)

Definition with_tcbs {S} (k : Kernel S) (m : gmap Z Tcb) : Kernel S :=
  mkK (eps k) (reps k) (ntfs k) m (tables k) (stacks k) (sch k).

Ltac exec := repeat first [rewrite bind_Ret | progress cbn [unwrap fst snd with_ep with_tcb with_tcbs with_sch with_stacks with_rep with_ntf
  eps tcbs sch stacks reps ntfs tables ep_state ep_readiness queue_head queue_tail rp_state caller_tcb_kva
  port_state decide_send ep_to_raw assert] | rewrite lookup_insert_eq
  | match goal with
    | H : tcb_live _ ?t = true |- context [tcb_live _ ?t] => rewrite H
    | H : forall u, tcb_live ?s u = tcb_live _ u |- context [tcb_live ?s _] => rewrite H
    end | rewrite insert_insert_eq].

(** The fields of an updated state. *)
Ltac fields := cbn [with_ep with_tcb with_tcbs with_sch with_stacks with_rep with_ntf eps tcbs sch stacks reps ntfs tables
  status ports calls serving sender]; rewrite ?insert_insert_eq.

Section Refine.
Context {S : Type} `{SL : SchedulerLaws S}.
Abbreviation Kernel := (Kernel S).

(** * The abstraction relation *)

(** The intrusive list from [h] is [ts]. *)
Fixpoint links (m : gmap Z Tcb) (h : Z) (ts : list Z) : Prop :=
  match ts with
  | [] => h = 0
  | t :: ts' => h = t /\ t <> 0 /\ exists tcb, m !! t = Some tcb /\ links m (ipc_queue_next tcb) ts'
  end.

Definition last_or_0 (ts : list Z) : Z := List.last ts 0.

Record ep_rel (m : gmap Z Tcb) (ep : EndpointObject) (p : Port) : Prop := {
  er_state : ep_state ep = ep_to_raw (port_state p);
  er_links : links m (queue_head ep) (port_threads p);
  er_tail : queue_tail ep = last_or_0 (port_threads p);
}.

Definition suspended_as (w : WaitKind) : Suspended := match w with WSend => InSend | WReceive => InReceive | WCall => InCall end.

(** What a suspended call returns once nothing is left to wait for. *)
Definition return_of (x : Suspended) (tcb : Tcb) : option SyscallReturn :=
  match x with
  | InSend => Some (Void OK)
  | InReceive | InCall => Some (Message OK (words (ipc_msg tcb)))
  | _ => None
  end.

Definition object_live (k : Kernel) (kva : Z) (ty : ObjectType) : Prop :=
  match ty with
  | OTEndpoint => is_Some (eps k !! kva)
  | OTNotification => is_Some (ntfs k !! kva)
  | _ => False
  end.

Definition status_rel (k : Kernel) (t : Z) (tcb : Tcb) (s : option Status) : Prop :=
  match s with
  | None => stacks k !! t = None /\ s_deadline (sch k) t = no_deadline
  | Some (Queued _ w m tok r) =>
      stacks k !! t = Some (suspended_as w) /\ s_deadline (sch k) t = no_deadline /\ s_blocked (sch k) t /\
      ipc_wait_kind tcb = wait_to_raw w /\
      (w <> WReceive -> ipc_msg tcb = m /\ ipc_caller_token tcb = tok) /\ (w = WCall -> ipc_call_reply_kva tcb = r)
  | Some (Awaiting _) => stacks k !! t = Some InCall /\ s_deadline (sch k) t = no_deadline /\ s_blocked (sch k) t
  | Some (Completed ret) =>
      s_deadline (sch k) t = no_deadline /\ exists x, stacks k !! t = Some x /\ return_of x tcb = Some ret
  | Some (OnNotification n) =>
      stacks k !! t = Some (InWaitNotification n) /\ s_deadline (sch k) t = no_deadline /\ is_Some (ntfs k !! n)
  | Some OnAny =>
      exists addrs types ths, stacks k !! t = Some (InWaitAny addrs types ths) /\
        wait_objects tcb = addrs /\ wait_types tcb = map obj_type_to_u8 types /\ length ths = length addrs /\
        Forall2 (object_live k) addrs types
  end.

Definition thread_rel (k : Kernel) (a : Spec) (t : Z) (tcb : Tcb) : Prop :=
  is_Some (tables k !! process_kva tcb) /\
  current_reply_kva tcb = default 0 (serving a !! t) /\
  last_caller_token tcb = default 0 (sender a !! t) /\
  status_rel k t tcb (status a !! t).

(** [t] is in the readiness slot of an object. *)
Definition registered (k : Kernel) (ty : ObjectType) (kva t : Z) : Prop :=
  match ty with
  | OTEndpoint => exists ep, eps k !! kva = Some ep /\ ep_readiness ep = t
  | OTNotification => exists o, ntfs k !! kva = Some o /\ nt_readiness o = t
  | _ => False
  end.

(** A registered thread is blocked in [sys_wait_any] on that object alone,
    without a deadline. *)
Record ready_rel (k : Kernel) (a : Spec) (ty : ObjectType) (kva t : Z) : Prop := {
  rr_status : status a !! t = Some OnAny;
  rr_blocked : s_blocked (sch k) t;
  rr_deadline : s_deadline (sch k) t = no_deadline;
  rr_object : exists tcb, tcbs k !! t = Some tcb /\ wait_objects tcb = [kva] /\ wait_types tcb = [obj_type_to_u8 ty];
}.

Definition handle_wf (k : Kernel) (h : HandleKind) : Prop :=
  match h with
  | HEndpoint kva _ => is_Some (eps k !! kva)
  | HReply kva => is_Some (reps k !! kva)
  | HNotification kva => is_Some (ntfs k !! kva)
  | _ => True
  end.

Record Rel (k : Kernel) (a : Spec) : Prop := {
  rl_ok : s_ok (sch k);
  rl_known : forall t, s_known (sch k) t -> is_Some (tcbs k !! t);
  rl_zero : tcbs k !! 0 = None /\ reps k !! 0 = None;
  rl_thread : forall t tcb, tcbs k !! t = Some tcb -> thread_rel k a t tcb;
  rl_dom : forall t, tcbs k !! t = None -> status a !! t = None /\ serving a !! t = None;
  rl_ep : forall e ep, eps k !! e = Some ep -> exists p, ports a !! e = Some p /\ ep_rel (tcbs k) ep p;
  rl_port : forall e, is_Some (ports a !! e) -> is_Some (eps k !! e);
  rl_rep : forall r rep, reps k !! r = Some rep ->
    rep = match calls a !! r with Some c => mkReply REPLY_STATE_BOUND c | None => mkReply REPLY_STATE_FRESH 0 end;
  rl_call : forall r, is_Some (calls a !! r) -> is_Some (reps k !! r);
  rl_ntf : forall n o, ntfs k !! n = Some o -> has_waiter (nt_state o) = true ->
    status a !! blocked_tcb_kva o = Some (OnNotification n) /\ s_blocked (sch k) (blocked_tcb_kva o);
  rl_ready : forall ty kva t, registered k ty kva t -> t <> 0 -> ready_rel k a ty kva t;
  rl_handles : forall p slots h, tables k !! p = Some slots -> h ∈ slots -> handle_wf k (h_kind h);
}.

(** * A change of the kernel and the specification state

    [T] are the threads whose own state changes. *)

Definition same_but_next (x y : Tcb) : Prop := set_next x 0 = set_next y 0.

Record unchanged (k k' : Kernel) (a a' : Spec) (t : Z) : Prop := {
  un_status : status a' !! t = status a !! t;
  un_serving : serving a' !! t = serving a !! t;
  un_sender : sender a' !! t = sender a !! t;
  un_stack : stacks k' !! t = stacks k !! t;
  un_deadline : s_deadline (sch k) t = no_deadline -> s_deadline (sch k') t = no_deadline;
  un_blocked : s_blocked (sch k) t ->
    match status a !! t with Some (Queued _ _ _ _ _) | Some (Awaiting _) => s_blocked (sch k') t | _ => True end;
  un_tcb : match tcbs k !! t, tcbs k' !! t with
    | Some x, Some y => same_but_next x y
    | None, None => True
    | _, _ => False
    end;
}.

Record grows (k k' : Kernel) : Prop := {
  gr_eps : forall e, is_Some (eps k !! e) -> is_Some (eps k' !! e);
  gr_reps : forall e, is_Some (reps k !! e) -> is_Some (reps k' !! e);
  gr_ntfs : forall e, is_Some (ntfs k !! e) -> is_Some (ntfs k' !! e);
}.

Lemma object_live_grows k k' kva ty : grows k k' -> object_live k kva ty -> object_live k' kva ty.
Proof. intros [? ? ?]. destruct ty; cbn; auto. Qed.

Lemma same_fields x y : same_but_next x y ->
  process_kva x = process_kva y /\ ipc_msg x = ipc_msg y /\ ipc_wait_kind x = ipc_wait_kind y /\
  ipc_caller_token x = ipc_caller_token y /\ current_reply_kva x = current_reply_kva y /\
  last_caller_token x = last_caller_token y /\ ipc_call_reply_kva x = ipc_call_reply_kva y /\
  wait_objects x = wait_objects y /\ wait_types x = wait_types y.
Proof.
  intros E. pose proof (f_equal process_kva E). pose proof (f_equal ipc_msg E). pose proof (f_equal ipc_wait_kind E).
  pose proof (f_equal ipc_caller_token E). pose proof (f_equal current_reply_kva E). pose proof (f_equal last_caller_token E).
  pose proof (f_equal ipc_call_reply_kva E). pose proof (f_equal wait_objects E). by pose proof (f_equal wait_types E).
Qed.

Lemma status_rel_keep k k' a a' t x y :
  grows k k' -> unchanged k k' a a' t -> same_but_next x y ->
  status_rel k t x (status a !! t) -> status_rel k' t y (status a !! t).
Proof.
  intros G [_ _ _ Hst Hd Hb _] E. destruct (same_fields _ _ E) as (_ & Em & Ek & Et & _ & _ & Er & Ewo & Ewt).
  destruct (status a !! t) as [[e w m tok r|r|ret|n|]|] eqn:Es; rewrite ?Es in Hb; cbn; rewrite Hst.
  - intros (? & ? & ? & Hk & Hm & Hc). rewrite <- Ek, <- Em, <- Et, <- Er. split_and!; auto.
  - intros (? & ? & ?). auto.
  - intros (? & z & ? & Hz). split; [auto|]. exists z. split; [done|]. unfold return_of in *. by rewrite <- Em.
  - intros (? & ? & ?). split_and!; auto. by apply (gr_ntfs _ _ G).
  - intros (addrs & types & ths & ? & ? & ? & ? & ?). exists addrs, types, ths. rewrite <- Ewo, <- Ewt. split_and!; auto.
    eapply Forall2_impl; [done|]. intros. by eapply object_live_grows.
  - intros (? & ?). auto.
Qed.

Lemma handle_wf_grows k k' h : grows k k' -> handle_wf k h -> handle_wf k' h.
Proof. intros [? ? ?]. destruct h; cbn; auto. Qed.

Lemma Rel_update k k' a a' (T : list Z) :
  Rel k a -> grows k k' -> tables k' = tables k -> s_ok (sch k') ->
  (forall t, s_known (sch k') t -> is_Some (tcbs k !! t)) ->
  (forall t, t ∉ T -> unchanged k k' a a' t) ->
  (forall t, t ∈ T -> exists tcb, tcbs k !! t = Some tcb /\ exists tcb', tcbs k' !! t = Some tcb' /\ thread_rel k' a' t tcb') ->
  (forall r, reps k !! r = None -> reps k' !! r = None) ->
  (forall e ep, eps k' !! e = Some ep -> exists p, ports a' !! e = Some p /\ ep_rel (tcbs k') ep p) ->
  (forall e, is_Some (ports a' !! e) -> is_Some (eps k' !! e)) ->
  (forall r rep, reps k' !! r = Some rep ->
    rep = match calls a' !! r with Some c => mkReply REPLY_STATE_BOUND c | None => mkReply REPLY_STATE_FRESH 0 end) ->
  (forall r, is_Some (calls a' !! r) -> is_Some (reps k' !! r)) ->
  (forall n o, ntfs k' !! n = Some o -> has_waiter (nt_state o) = true ->
    status a' !! blocked_tcb_kva o = Some (OnNotification n) /\ s_blocked (sch k') (blocked_tcb_kva o)) ->
  (forall ty kva t, registered k' ty kva t -> t <> 0 -> ready_rel k' a' ty kva t) ->
  Rel k' a'.
Proof.
  intros RL G Htab Hok Hkn HU HT Hreps Hep Hport Hrep Hcall Hntf Hready.
  assert (D : forall t, tcbs k !! t = None <-> tcbs k' !! t = None).
  { intros t. destruct (decide (t ∈ T)) as [HtT|HtT].
    - destruct (HT t HtT) as (x & Hx & y & Hy & _). by rewrite Hx, Hy.
    - pose proof (un_tcb _ _ _ _ _ (HU t HtT)) as Ht. destruct (tcbs k !! t), (tcbs k' !! t); done. }
  destruct (rl_zero _ _ RL) as [Z1 Z2].
  constructor; try done.
  - intros t Ht. apply Hkn in Ht. destruct (tcbs k' !! t) eqn:E; [by eauto|]. apply D in E. rewrite E in Ht. by destruct Ht.
  - split; [by apply D|by apply Hreps].
  - intros t tcb' Ht. destruct (decide (t ∈ T)) as [HtT|HtT].
    + destruct (HT t HtT) as (x & Hx & y & Hy & Hr). by simplify_eq.
    + pose proof (HU t HtT) as U. pose proof (un_tcb _ _ _ _ _ U) as Hsame. rewrite Ht in Hsame.
      destruct (tcbs k !! t) as [tcb|] eqn:Ht0; [|done]. destruct (rl_thread _ _ RL t tcb Ht0) as (H1 & H2 & H3 & H4).
      destruct (same_fields _ _ Hsame) as (Ep & _ & _ & _ & Er & El & _).
      split_and!; [by rewrite Htab, <- Ep|by rewrite <- Er, (un_serving _ _ _ _ _ U)|by rewrite <- El, (un_sender _ _ _ _ _ U)|].
      rewrite (un_status _ _ _ _ _ U). by eapply status_rel_keep.
  - intros t Ht. assert (t ∉ T) as HtT by (intros HtT; destruct (HT t HtT) as (? & ? & ? & ? & _); congruence).
    rewrite (un_status _ _ _ _ _ (HU t HtT)), (un_serving _ _ _ _ _ (HU t HtT)). by apply (rl_dom _ _ RL), D.
  - intros p slots h Hp Hh. rewrite Htab in Hp. eapply handle_wf_grows; [done|]. by eapply (rl_handles _ _ RL).
Qed.

(** A change at endpoint [e]. *)
Lemma Rel_port k k' a a' (T : list Z) e ep ep' p' :
  Rel k a -> SpecInv a -> s_ok (sch k') ->
  eps k !! e = Some ep -> eps k' = <[e := ep']> (eps k) -> ports a' = <[e := p']> (ports a) ->
  ntfs k' = ntfs k -> tables k' = tables k ->
  (forall t, s_known (sch k') t -> s_known (sch k) t) ->
  (forall t, t ∉ T -> unchanged k k' a a' t) ->
  (forall t, t ∈ T ->
    (forall n, status a !! t <> Some (OnNotification n)) /\ status a !! t <> Some OnAny /\
    (forall e' w, queued_at a t e' w -> e' = e) /\
    exists tcb, tcbs k !! t = Some tcb /\ exists tcb', tcbs k' !! t = Some tcb' /\ thread_rel k' a' t tcb') ->
  (forall t e' w, queued_at a t e' w -> e' <> e -> ipc_queue_next <$> tcbs k' !! t = ipc_queue_next <$> tcbs k !! t) ->
  ep_rel (tcbs k') ep' p' ->
  (forall t n, status a !! t = Some (OnNotification n) -> s_blocked (sch k) t -> s_blocked (sch k') t) ->
  (forall ty kva t, registered k' ty kva t -> t <> 0 -> registered k ty kva t /\ s_blocked (sch k') t) ->
  (forall r, is_Some (reps k !! r) <-> is_Some (reps k' !! r)) ->
  (forall r rep, reps k' !! r = Some rep ->
    rep = match calls a' !! r with Some c => mkReply REPLY_STATE_BOUND c | None => mkReply REPLY_STATE_FRESH 0 end) ->
  (forall r, is_Some (calls a' !! r) -> is_Some (reps k' !! r)) ->
  Rel k' a'.
Proof.
  intros RL I Hok He Heps Hports Hntfs Htab Hkn HU HT Hnext Hrel Hnb Hreg Hreps Hrep Hcall.
  assert (G : grows k k').
  { constructor; [|by intros r Hr; apply Hreps|by rewrite Hntfs].
    intros x Hx. rewrite Heps, lookup_insert. case_decide; eauto. }
  apply (Rel_update k k' a a' T); try done.
  - intros t Ht. by apply (rl_known _ _ RL), Hkn.
  - intros t Ht. by destruct (HT t Ht) as (_ & _ & _ & ?).
  - intros r Hr. destruct (reps k' !! r) eqn:E; [|done]. destruct (proj2 (Hreps r)); [by eauto|congruence].
  - intros e' ep0 E. rewrite Heps in E. rewrite Hports. lookups; [by eauto|].
    destruct (rl_ep _ _ RL _ _ E) as (p & Hp & Hl). exists p. split; [done|].
    destruct Hl as [H1 H2 H3]. constructor; [done| |done].
    assert (K : forall t, t ∈ port_threads p -> exists e0 w, queued_at a t e0 w /\ e0 <> e).
    { intros t [w Hw]%(si_member _ I _ _ _ Hp). eauto. }
    clear -H2 K Hnext. revert H2 K. generalize (queue_head ep0). induction (port_threads p) as [|u us IH]; intros h Hl K; [done|].
    destruct Hl as (-> & Hu & x & Hx & Hl). destruct (K u) as (e0 & w & Hq & Hne); [left|].
    specialize (Hnext u e0 w Hq Hne). rewrite Hx in Hnext. destruct (tcbs k' !! u) as [y|] eqn:Ey; [|done].
    cbn. split_and!; [done|done|]. exists y. split; [done|]. injection Hnext as ->.
    apply IH; [done|]. intros t Ht. apply K. by right.
  - intros x Hx. rewrite Hports in Hx. rewrite Heps. lookups; [by eauto|]. by apply (rl_port _ _ RL).
  - intros n o Hn Hw. rewrite Hntfs in Hn. destruct (rl_ntf _ _ RL _ _ Hn Hw) as [H1 H2].
    assert (blocked_tcb_kva o ∉ T) as HnT by (intros HtT; destruct (HT _ HtT) as (K & _); by eapply K).
    split; [by rewrite (un_status _ _ _ _ _ (HU _ HnT))|by eapply Hnb].
  - intros ty kva t Hr Ht. destruct (Hreg _ _ _ Hr Ht) as [Hr0 Hb]. destruct (rl_ready _ _ RL _ _ _ Hr0 Ht) as [H1 H2 H3 (tcb & H4 & H5 & H6)].
    assert (t ∉ T) as HnT by (intros HtT; by destruct (HT _ HtT) as (_ & K & _)).
    pose proof (HU t HnT) as U. constructor; [by rewrite (un_status _ _ _ _ _ U)|done|by apply (un_deadline _ _ _ _ _ U)|].
    pose proof (un_tcb _ _ _ _ _ U) as Hs. rewrite H4 in Hs. destruct (tcbs k' !! t) as [y|]; [|done].
    destruct (same_fields _ _ Hs) as (_ & _ & _ & _ & _ & _ & _ & E1 & E2). exists y. by rewrite <- E1, <- E2.
Qed.

(** * The queue *)

Lemma links_ext m m' ts : forall h,
  (forall t, t ∈ ts -> ipc_queue_next <$> m' !! t = ipc_queue_next <$> m !! t) -> links m h ts -> links m' h ts.
Proof.
  induction ts as [|t ts IH]; intros h Hn Hl; [done|]. destruct Hl as (-> & Ht & x & Hx & Hl).
  pose proof (Hn t ltac:(left)) as E. rewrite Hx in E. destruct (m' !! t) as [y|] eqn:Ey; [|done]. injection E as E.
  cbn. split_and!; [done|done|]. exists y. split; [done|]. rewrite E. apply IH; [|done]. intros u Hu. apply Hn. by right.
Qed.

Lemma links_snoc m m' ts l t : forall h,
  (forall u, u ∈ ts -> ipc_queue_next <$> m' !! u = ipc_queue_next <$> m !! u) ->
  ipc_queue_next <$> m' !! l = Some t -> ipc_queue_next <$> m' !! t = Some 0 -> t <> 0 ->
  links m h (ts ++ [l]) -> links m' h ((ts ++ [l]) ++ [t]).
Proof.
  induction ts as [|u ts IH]; intros h Hn Hl Ht H0 HL; cbn in *.
  - destruct HL as (-> & Hne & x & Hx & Hz). destruct (m' !! l) as [y|] eqn:Ey; [|done]. injection Hl as Hl.
    destruct (m' !! t) as [z|] eqn:Ez; [|done]. injection Ht as Ht. split_and!; [done|done|]. exists y. split_and!; [done|done|done|].
    exists z. done.
  - destruct HL as (-> & Hne & x & Hx & HL). pose proof (Hn u ltac:(left)) as E. rewrite Hx in E.
    destruct (m' !! u) as [y|] eqn:Ey; [|done]. injection E as E. split_and!; [done|done|]. exists y. split; [done|].
    rewrite E. apply IH; try done. intros v Hv. apply Hn. by right.
Qed.

Lemma links_head m h ts : links m h ts -> h = default 0 (head ts).
Proof. destruct ts; cbn; [done|]. by intros (-> & _). Qed.
Lemma links_head_0 m h ts : links m h ts -> (h =? 0) = match ts with [] => true | _ => false end.
Proof. destruct ts; cbn; [by intros ->|]. intros (-> & Ht & _). by apply Z.eqb_neq. Qed.
Lemma links_last_0 m h ts : links m h ts -> (last_or_0 ts =? 0) = match ts with [] => true | _ => false end.
Proof.
  revert h. induction ts as [|t ts IH]; intros h; [done|]. cbn. intros (-> & Ht & x & Hx & Hl). specialize (IH _ Hl).
  unfold last_or_0 in *. destruct ts; cbn in *; [by apply Z.eqb_neq|done].
Qed.
Lemma last_snoc ts t : last_or_0 (ts ++ [t]) = t.
Proof. unfold last_or_0. by rewrite List.last_last. Qed.

Lemma enqueue_spec (k : Kernel) e t tcb ep ts :
  eps k !! e = Some ep -> links (tcbs k) (queue_head ep) ts -> queue_tail ep = last_or_0 ts ->
  NoDup ts -> t ∉ ts -> t <> 0 -> tcbs k !! t = Some tcb ->
  tcb_live (sch k) t = true -> (forall u, u ∈ ts -> tcb_live (sch k) u = true) ->
  exists m h, enqueue k e t = Ret (with_ep (with_tcbs k m) e (mkEp (ep_state ep) (ep_readiness ep) h t)) /\
    links m h (ts ++ [t]) /\ m !! t = Some (set_next tcb 0) /\
    (forall u, u ≠ t -> u ∉ ts -> m !! u = tcbs k !! u) /\
    (forall u, u ≠ t -> match tcbs k !! u, m !! u with
      | Some x, Some y => same_but_next x y | None, None => True | _, _ => False end).
Proof.
  intros He Hl Htl ND Hn H0 Ht Lt Lts. unfold enqueue, tcb_at, ep_at. rewrite Ht. exec.
  rewrite He. exec. rewrite Htl, (links_last_0 _ _ _ Hl).
  destruct ts as [|u0 us0] eqn:Ets.
  - exists (<[t := set_next tcb 0]> (tcbs k)), t. split_and!; [done| | |intros u ? _; by rewrite lookup_insert_ne|].
    + cbn. split_and!; [done|done|]. exists (set_next tcb 0). by rewrite lookup_insert_eq.
    + by rewrite lookup_insert_eq.
    + intros u Hu. rewrite lookup_insert_ne by done. destruct (tcbs k !! u); done.
  - destruct (exists_last (l := u0 :: us0)) as (us & l & El); [done|]. rewrite <- Ets in *. rewrite Ets, El in *.
    rewrite last_snoc in *.
    assert (Hlin : l ∈ us ++ [l]) by set_solver.
    assert (t <> l) as Htl' by (intros ->; done). apply NoDup_app in ND as (NDus & Hdis & _).
    assert (exists x, tcbs k !! l = Some x) as [x Hx].
    { clear -Hl. revert Hl. generalize (queue_head ep). induction us as [|v us IH]; intros h; cbn.
      - intros (_ & _ & x & Hx & _). eauto.
      - intros (_ & _ & x & _ & Hl). by eapply IH. }
    pose proof (Lts l Hlin) as Ll. rewrite (lookup_insert_ne _ _ _ _ Htl'), Hx. exec.
    exists (<[l := set_next x t]> (<[t := set_next tcb 0]> (tcbs k))), (queue_head ep). split_and!; [done| | | |].
    + apply (links_snoc (tcbs k)); [|by rewrite lookup_insert_eq|by rewrite lookup_insert_ne, lookup_insert_eq by done|done|done].
      intros u Hu. rewrite !lookup_insert_ne; [done| |]; intros ->; [set_solver|]. by destruct (Hdis u Hu); set_solver.
    + by rewrite lookup_insert_ne, lookup_insert_eq by done.
    + intros u Hu1 Hu2. rewrite !lookup_insert_ne; [done|by intros ->|]. intros ->. set_solver.
    + intros u Hu. rewrite lookup_insert. case_decide as E; [subst; by rewrite Hx|]. rewrite lookup_insert_ne by done.
      by destruct (tcbs k !! u).
Qed.

Lemma dequeue_spec (k : Kernel) e t ts ep :
  eps k !! e = Some ep -> links (tcbs k) (queue_head ep) (t :: ts) -> queue_tail ep = last_or_0 (t :: ts) -> NoDup (t :: ts) ->
  tcb_live (sch k) t = true ->
  exists tcb h, tcbs k !! t = Some tcb /\
    dequeue k e = Ret (Some t, with_ep (with_tcb k t (set_next tcb 0)) e (mkEp (ep_state ep) (ep_readiness ep) h (last_or_0 ts))) /\
    links (tcbs k) h ts /\ h = ipc_queue_next tcb.
Proof.
  intros He (Hh & H0 & tcb & Ht & Hl) Htl ND Lt. exists tcb, (ipc_queue_next tcb). split; [done|].
  unfold dequeue, ep_at, tcb_at. rewrite He. cbn [unwrap]. rewrite bind_Ret, Hh, (proj2 (Z.eqb_neq t 0) H0), Ht.
  exec. rewrite (links_head_0 _ _ _ Hl), Htl. split; [|done]. by destruct ts.
Qed.

(** * Endpoint operations *)

Lemma running k a c t :
  Rel k a -> s_runs (sch k) c t ->
  exists tcb, tcbs k !! t = Some tcb /\ thread_rel k a t tcb /\ current_tcb_kva (sch k) c = Ret t /\ t <> 0 /\ ~ s_blocked (sch k) t.
Proof.
  intros RL Hr. pose proof (rl_ok _ _ RL) as Ok. destruct (rl_known _ _ RL t) as [tcb Ht]; [by eapply law_known|].
  exists tcb. split_and!; [done|by apply (rl_thread _ _ RL)|by apply law_current| |by eapply law_awake].
  intros ->. destruct (rl_zero _ _ RL). congruence.
Qed.

Lemma port_of k a e ep :
  Rel k a -> eps k !! e = Some ep ->
  exists p, ports a !! e = Some p /\ ep_rel (tcbs k) ep p /\ ep_state_at ep = Ret (port_state p).
Proof.
  intros RL He. destruct (rl_ep _ _ RL _ _ He) as (p & Hp & Hl). exists p. split_and!; [done|done|].
  unfold ep_state_at. by rewrite (er_state _ _ _ Hl), ep_raw_roundtrip.
Qed.

(** A thread in a port. *)
Lemma member k a e p u :
  Rel k a -> SpecInv a -> ports a !! e = Some p -> u ∈ port_threads p ->
  exists w m tok r tcb, status a !! u = Some (Queued e w m tok r) /\ tcbs k !! u = Some tcb /\ thread_rel k a u tcb /\ u <> 0.
Proof.
  intros RL I Hp Hu. destruct (proj1 (si_member _ I _ _ _ Hp) Hu) as (w & m & tok & r & Hs). exists w, m, tok, r.
  destruct (tcbs k !! u) as [tcb|] eqn:E; [|destruct (rl_dom _ _ RL _ E); congruence].
  exists tcb. split_and!; [done|done|by apply (rl_thread _ _ RL)|]. intros ->. destruct (rl_zero _ _ RL). congruence.
Qed.

(** The control blocks of running, blocked and queued threads are allocated. *)
Lemma runs_live k a c t : Rel k a -> s_runs (sch k) c t -> tcb_live (sch k) t = true.
Proof. intros RL Hr. pose proof (rl_ok _ _ RL). eapply law_live, law_known; eauto. Qed.
Lemma blocked_live k a t : Rel k a -> s_blocked (sch k) t -> tcb_live (sch k) t = true.
Proof. intros RL Hb. pose proof (rl_ok _ _ RL). by apply law_live, law_blocked. Qed.
Lemma queued_live k a e p u :
  Rel k a -> SpecInv a -> ports a !! e = Some p -> u ∈ port_threads p -> tcb_live (sch k) u = true.
Proof.
  intros RL I Hp Hu. destruct (member _ _ _ _ _ RL I Hp Hu) as (w & m & tok & r & tcb & Hs & _ & (_ & _ & _ & T4) & _).
  rewrite Hs in T4. destruct T4 as (_ & _ & Hb & _). by eapply blocked_live.
Qed.

Lemma tcb_refl (m m' : gmap Z Tcb) t : m' !! t = m !! t ->
  match m !! t, m' !! t with Some x, Some y => same_but_next x y | None, None => True | _, _ => False end.
Proof. intros ->. by destruct (m !! t). Qed.

(** The waiting receiver [u] of port [e] gets a message, and owes [r] for a
    call; the endpoint is idle afterwards. [K] is the state before, with the
    reply objects [reps'] and calls already updated. *)
Definition delivered (k : Kernel) (e u : Z) (ep : EndpointObject) (tcb' : Tcb) (reps' : gmap Z ReplyObject) (s : S) : Kernel :=
  mkK (<[e := mkEp EP_IDLE (ep_readiness ep) 0 0]> (eps k)) reps' (ntfs k) (<[u := tcb']> (tcbs k)) (tables k) (stacks k) s.

Lemma send_deliver k a c t e ep u msg tok :
  Rel k a -> SpecInv a -> s_runs (sch k) c t -> idle a t -> eps k !! e = Some ep -> ports a !! e = Some (Receiver u) ->
  exists k', ipc_send k c e msg tok = Ret (Some (Ok tt), k') /\ Rel k' (spec_send a t e msg tok).2.
Proof.
  intros RL I Hr Hi He Hp. destruct (port_of _ _ _ _ RL He) as (p & Hp' & Hl & Hst). assert (p = Receiver u) as -> by congruence.
  destruct (member _ _ _ _ u RL I Hp ltac:(cbn; set_solver)) as (w & m & tk & r & tcb & Hs & Ht & (T1 & T2 & T3 & T4) & H0).
  assert (w = WReceive) as -> by (eapply (si_kind _ I e (Receiver u) u w Hp); [by eexists _, _, _|done]).
  rewrite Hs in T4. destruct T4 as (Sk & Dl & Bl & _).
  pose proof (queued_live _ _ _ _ u RL I Hp ltac:(by left)) as Lu.
  destruct (dequeue_spec k e u [] ep He (er_links _ _ _ Hl) (er_tail _ _ _ Hl) (NoDup_singleton _) Lu) as (tcb0 & h & Ht0 & Hdq & Hlk & _).
  assert (tcb0 = tcb) as -> by congruence. cbn in Hlk; subst h.
  destruct (law_unblock (sch k) u (rl_ok _ _ RL) Bl) as (s' & Hub & Ok' & Hb & Hd & Hk & _).
  unfold ipc_send, wake, set_ep_state, ep_at, tcb_at. rewrite He. exec. rewrite Hst. exec.
  rewrite Hdq. exec.
  rewrite Hub. exec. eexists. split; [reflexivity|].
  unfold spec_send. rewrite Hp. cbn [snd].
  eapply (Rel_port k _ a _ [u] e ep); fields; try done.
  - intros v Hv. assert (v <> u) by (intros ->; by apply Hv, list_elem_of_singleton). constructor; fields; rewrite ?lookup_insert_ne by done; try done.
    + by rewrite Hd.
    + intros Bv. assert (s_blocked s' v) by (by apply Hb). by destruct (status a !! v) as [[]|].
    + by destruct (tcbs k !! v).
  - intros v ->%list_elem_of_singleton. split_and!; [by intros n; rewrite Hs|by rewrite Hs| |].
    + intros e' w' (? & ? & ? & ?). congruence.
    + exists tcb. split; [done|]. eexists. split; [by rewrite lookup_insert_eq|]. split_and!; [done|done| |].
      * cbn. by rewrite lookup_insert_eq.
      * cbn. rewrite lookup_insert_eq. cbn. rewrite Hd. split; [done|]. exists InReceive. done.
  - intros v e' w' Hq Hne. destruct (decide (v = u)) as [->|]; [destruct Hq as (? & ? & ? & ?); congruence|]. by rewrite lookup_insert_ne by done.
  - intros v n Hv Bv. apply Hb. split; [done|]. intros ->. congruence.
  - intros ty kva v Hreg Hv. assert (registered k ty kva v) as Hreg0.
    { destruct ty; cbn in *; try done. destruct Hreg as (x & Hx & Hx'). lookups; eauto. }
    split; [done|]. destruct (rl_ready _ _ RL _ _ _ Hreg0 Hv). apply Hb. split; [done|]. intros ->. congruence.
  - apply (rl_rep _ _ RL).
  - apply (rl_call _ _ RL).
Qed.

(** The readiness waiter of an endpoint is woken: the scheduler and the slot
    change, no thread of the specification does. *)
Lemma wake_readiness k a e ep :
  Rel k a -> eps k !! e = Some ep ->
  exists s', s_ok s' /\
    (forall k0, sch k0 = sch k -> (exists x h tl, eps k0 !! e = Some (mkEp x (ep_readiness ep) h tl)) ->
      exists x h tl, eps k0 !! e = Some (mkEp x (ep_readiness ep) h tl) /\
      wake_readiness_waiter_if_registered k0 e = Ret (with_ep (with_sch k0 s') e (mkEp x 0 h tl))) /\
    (forall c u, s_runs (sch k) c u -> s_runs s' c u) /\
    (forall u, s_deadline s' u = s_deadline (sch k) u) /\ (forall u, s_known s' u -> s_known (sch k) u) /\
    (forall u, s_blocked (sch k) u -> status a !! u <> Some OnAny -> s_blocked s' u) /\
    (forall ty kva u, registered k ty kva u -> u <> 0 -> (ty, kva) <> (OTEndpoint, e) -> s_blocked s' u).
Proof.
  intros RL He. destruct (Z.eq_dec (ep_readiness ep) 0) as [E0|E0].
  - exists (sch k). split_and!; try done; [apply RL| |by intros ty kva u Hreg Hu _; apply (rl_ready _ _ RL ty kva u)].
    intros k0 Hs (x & h & tl & Hk). exists x, h, tl. split; [done|].
    unfold wake_readiness_waiter_if_registered, ep_at. rewrite Hk. exec. unfold waiter_registered. rewrite E0. cbn.
    do 2 f_equal. destruct k0. cbn in *. subst. unfold with_ep, with_sch. cbn. f_equal. symmetry. apply insert_id. by rewrite Hk, E0.
  - pose proof (rl_ready _ _ RL OTEndpoint e _ ltac:(by eexists) E0) as [R1 R2 R3 (tcb & R4 & R5 & R6)].
    destruct (law_unblock (sch k) _ (rl_ok _ _ RL) R2) as (s' & Hub & Ok' & Hb & Hd & Hk & Hr). exists s'.
    split_and!; try done.
    + intros k0 Hs (x & h & tl & Hx). exists x, h, tl. split; [done|].
      unfold wake_readiness_waiter_if_registered, ep_at, wake. rewrite Hx. exec. unfold waiter_registered.
      rewrite (proj2 (Z.eqb_neq _ 0) E0). cbn [negb]. rewrite Hs, Hub. by exec.
    + intros u Hu Hn. apply Hb. split; [done|]. intros ->. done.
    + intros ty kva u Hreg Hu Hne. pose proof (rl_ready _ _ RL ty kva u Hreg Hu) as [Q1 Q2 _ (tcb' & Q4 & Q5 & Q6)].
      apply Hb. split; [done|]. intros ->. assert (tcb' = tcb) as -> by congruence. apply Hne.
      assert (kva = e) as -> by congruence. f_equal. rewrite R6 in Q6. destruct ty; cbn in *; done.
Qed.

Lemma status_rel_queued k t tcb e w m tok r :
  stacks k !! t = Some (suspended_as w) -> s_deadline (sch k) t = no_deadline -> s_blocked (sch k) t ->
  ipc_wait_kind tcb = wait_to_raw w -> ipc_msg tcb = m \/ w = WReceive -> ipc_caller_token tcb = tok \/ w = WReceive ->
  (w = WCall -> ipc_call_reply_kva tcb = r) -> status_rel k t tcb (Some (Queued e w m tok r)).
Proof. intros. cbn. split_and!; try done; naive_solver. Qed.

Lemma queue_and_block k a c t e ep ts w m tok r p' next tcb tcb' (wk : bool) reps' calls' :
  Rel k a -> SpecInv a -> s_runs (sch k) c t -> idle a t -> eps k !! e = Some ep -> ports a !! e = Some (Waiters ts) ->
  port_threads p' = ts ++ [t] -> next = port_state p' ->
  tcbs k !! t = Some tcb -> process_kva tcb' = process_kva tcb -> current_reply_kva tcb' = current_reply_kva tcb ->
  last_caller_token tcb' = last_caller_token tcb -> ipc_wait_kind tcb' = wait_to_raw w ->
  ipc_msg tcb' = m \/ w = WReceive -> ipc_caller_token tcb' = tok \/ w = WReceive -> (w = WCall -> ipc_call_reply_kva tcb' = r) ->
  (forall r, is_Some (reps k !! r) <-> is_Some (reps' !! r)) ->
  (forall r rep, reps' !! r = Some rep ->
    rep = match calls' !! r with Some c => mkReply REPLY_STATE_BOUND c | None => mkReply REPLY_STATE_FRESH 0 end) ->
  (forall r, is_Some (calls' !! r) -> is_Some (reps' !! r)) ->
  exists k2 k3 k4 k',
    enqueue (mkK (eps k) reps' (ntfs k) (<[t := tcb']> (tcbs k)) (tables k) (stacks k) (sch k)) e t = Ret k2 /\
    set_ep_state k2 e next = Ret k3 /\
    (if wk then wake_readiness_waiter_if_registered k3 e else Ret k3) = Ret k4 /\
    suspend k4 c t (suspended_as w) = Ret k' /\
    Rel k' (mkSpec (<[t := Queued e w m tok r]> (status a)) (<[e := p']> (ports a)) calls' (serving a) (sender a)).
Proof.
  intros RL I Hr Hi He Hp Hp' Hnext Ht P1 P2 P3 P4 P5 P6 P7 Q1 Q2 Q3.
  destruct (running _ _ _ _ RL Hr) as (tcb0 & Ht0 & (T1 & T2 & T3 & T4) & _ & H0 & Hnb). assert (tcb0 = tcb) as -> by congruence.
  unfold idle in Hi. rewrite Hi in T4. destruct T4 as [Sk Dl].
  destruct (port_of _ _ _ _ RL He) as (p & Hpe & Hl & _). assert (p = Waiters ts) as -> by congruence.
  assert (Hnt : t ∉ ts) by (intros Hin; destruct (member _ _ _ _ t RL I Hp Hin) as (? & ? & ? & ? & ? & ? & _); congruence).
  pose proof (si_nodup _ I _ _ Hp) as ND. cbn in ND.
  set (k1 := mkK (eps k) reps' (ntfs k) (<[t := tcb']> (tcbs k)) (tables k) (stacks k) (sch k)).
  destruct (enqueue_spec k1 e t tcb' ep ts) as (mm & h & Hen & Hlk & Hmt & Hmu & Hms); try done.
  { cbn. apply (links_ext (tcbs k)); [|apply Hl]. intros u Hu. rewrite lookup_insert_ne; [done|]. by intros ->. }
  { apply Hl. } { cbn. by rewrite lookup_insert_eq. } { exact (runs_live _ _ _ _ RL Hr). }
  { intros u Hu. exact (queued_live k a e (Waiters ts) u RL I Hp Hu). }
  destruct (wake_readiness _ _ _ _ RL He) as (s1 & Ok1 & Hw & Hr1 & Hd1 & Hk1 & Hb1 & Hreg1).
  set (rd := if wk then 0 else ep_readiness ep). set (s2 := if wk then s1 else sch k).
  assert (Ok2 : s_ok s2) by (subst s2; destruct wk; [done|apply RL]).
  assert (Hr2 : s_runs s2 c t) by (subst s2; destruct wk; auto).
  destruct (law_block s2 c t Ok2 Hr2) as (s3 & Hbk & Ok3 & Hb3 & Hd3 & Hk3).
  assert (Hd : forall u, s_deadline (sch k) u = no_deadline -> s_deadline s3 u = no_deadline).
  { intros u Hu. apply Hd3. subst s2. destruct wk; [by rewrite Hd1|done]. }
  assert (Hb : forall u, s_blocked (sch k) u -> status a !! u <> Some OnAny -> s_blocked s3 u).
  { intros u Hu Hn. apply Hb3. left. subst s2. destruct wk; auto. }
  exists (with_ep (with_tcbs k1 mm) e (mkEp (ep_state ep) (ep_readiness ep) h t)),
    (with_ep (with_tcbs k1 mm) e (mkEp (ep_to_raw next) (ep_readiness ep) h t)),
    (with_ep (with_sch (with_tcbs k1 mm) s2) e (mkEp (ep_to_raw next) rd h t)),
    (mkK (<[e := mkEp (ep_to_raw next) rd h t]> (eps k)) reps' (ntfs k) mm (tables k) (<[t := suspended_as w]> (stacks k)) s3).
  split_and!; [done| | | |].
  - unfold set_ep_state, ep_at. exec. by unfold with_ep; fields.
  - subst rd s2. destruct wk; [|by destruct k]. destruct (Hw (with_ep (with_tcbs k1 mm) e (mkEp (ep_to_raw next) (ep_readiness ep) h t))) as (x & h' & tl & Hx & ->).
    + done.
    + fields. rewrite lookup_insert_eq. by eexists _, _, _.
    + revert Hx. fields. rewrite lookup_insert_eq. intros [= <- <- <-]. unfold with_ep, with_sch, with_tcbs. by fields.
  - unfold suspend. fields. rewrite Hbk. exec. done.
  - eapply (Rel_port k _ a _ [t] e ep); fields; try done.
    + intros u Hu. apply Hk3 in Hu. subst s2. destruct wk; auto.
    + intros v Hv. assert (v <> t) by (intros ->; by apply Hv, list_elem_of_singleton). constructor; fields; rewrite ?lookup_insert_ne by done; try done.
      * apply Hd.
      * intros Bv. destruct (status a !! v) as [[]|] eqn:Ev; try done; (apply Hb; [done|congruence]).
      * specialize (Hms v ltac:(done)). cbn in Hms. by rewrite lookup_insert_ne in Hms by done.
    + intros v ->%list_elem_of_singleton. split_and!; [by intros n; rewrite Hi|by rewrite Hi| |].
      * intros e' w' (? & ? & ? & ?). congruence.
      * exists tcb. split; [done|]. exists (set_next tcb' 0). split; [done|]. split_and!; [by cbn; rewrite P1|by cbn; rewrite P2|by cbn; rewrite P3|].
        fields. rewrite lookup_insert_eq. apply status_rel_queued; try done; fields; [by rewrite lookup_insert_eq|by apply Hd|].
        apply Hb3. by right.
    + intros v e' w' Hq Hne. assert (v <> t) by (intros ->; destruct Hq as (? & ? & ? & ?); congruence).
      rewrite Hmu; [|done|]. { cbn. by rewrite lookup_insert_ne by done. }
      intros Hin. destruct (proj1 (si_member _ I _ _ v Hp) Hin) as (w2 & ? & ? & ? & E2). destruct Hq as (? & ? & ? & E1). congruence.
    + constructor; [by rewrite Hnext|by rewrite Hp'|by rewrite Hp', last_snoc].
    + intros v n Hv Bv. apply Hb; [done|congruence].
    + intros ty kva v Hreg Hv. assert (registered k ty kva v /\ (wk = true -> (ty, kva) <> (OTEndpoint, e))) as [Hreg0 Hne].
      { destruct ty; cbn in *; try done. destruct Hreg as (x & Hx & Hx'). subst rd. lookups; cbn in *.
        - destruct wk; [done|]. split; [by eauto|done].
        - split; [by eauto|]. intros _ ?. by simplify_eq. }
      split; [done|]. apply Hb3. left. pose proof (rl_ready _ _ RL _ _ _ Hreg0 Hv) as [_ HB _ _].
      subst s2. destruct wk; [|done]. eapply Hreg1; eauto.
Qed.

Definition send_return (r : option (result unit IpcError)) : option SyscallReturn :=
  match r with None => None | Some (Ok _) => Some (Void OK) | Some (Err _) => Some (Void ENDPOINT_BUSY) end.

Lemma send_spec k a c t e msg tok :
  Rel k a -> SpecInv a -> s_runs (sch k) c t -> idle a t -> is_Some (eps k !! e) ->
  exists r k', ipc_send k c e msg tok = Ret (r, k') /\ send_return r = (spec_send a t e msg tok).1 /\
    Rel k' (spec_send a t e msg tok).2 /\ SpecInv (spec_send a t e msg tok).2.
Proof.
  intros RL I Hr Hi [ep He]. destruct (port_of _ _ _ _ RL He) as (p & Hp & Hl & Hst). destruct p as [ts|u].
  - destruct (running _ _ _ _ RL Hr) as (tcb & Ht & _ & Hc & _). pose proof (runs_live _ _ _ _ RL Hr) as Lt.
    destruct (queue_and_block k a c t e ep ts WSend msg tok 0 (Waiters (ts ++ [t])) HasWaiters tcb
      (set_blocked_on (set_kind (set_token (set_msg tcb msg) tok) WAIT_KIND_SEND) e) (bool_decide (ts = [])) (reps k) (calls a))
      as (k2 & k3 & k4 & k' & E2 & E3 & E4 & E5 & RL'); try done; try (by left); try (apply RL).
    { by destruct ts. }
    exists None, k'. unfold spec_send. rewrite Hp. split_and!; [|done|done|].
    + unfold ipc_send, ep_at, tcb_at. rewrite He. exec. rewrite Hst, bind_Ret.
      assert (D : decide_send (port_state (Waiters ts)) = SendQueue HasWaiters (bool_decide (ts = []))) by (by destruct ts).
      rewrite D, Hc. exec. rewrite Ht. exec. unfold with_tcb. rewrite E2. exec. rewrite E3. exec. rewrite E4. exec.
      cbn [suspended_as] in E5. rewrite E5. by exec.
    + cbn [snd]. apply (inv_join a t e (Waiters ts)); try done; [right; split; [done|by eexists]|right; done].
  - destruct (send_deliver _ _ _ _ _ _ _ msg tok RL I Hr Hi He Hp) as (k' & E & RL'). exists (Some (Ok tt)), k'.
    unfold spec_send in *. rewrite Hp in *. split_and!; [done|done|done|]. cbn [snd].
    destruct (member _ _ _ _ u RL I Hp ltac:(by left)) as (w & m & tk & r & tcb & Hs & _).
    assert (w = WReceive) as -> by (eapply (si_kind _ I e (Receiver u) u w Hp); [by eexists _, _, _|done]).
    eapply (inv_leave a t e (Receiver u) u []); try done. left. split_and!; [done|by eexists|done].
Qed.

(** * Receiving *)

Lemma raw_0 (x : Z) : negb (x =? 0) = false <-> x = 0.
Proof. rewrite negb_false_iff. apply Z.eqb_eq. Qed.

(** The observations of [ipc_receive] at a port with waiters. *)
Lemma observe k a e ep u ts w m tok r tcb :
  Rel k a -> eps k !! e = Some ep -> ports a !! e = Some (Waiters (u :: ts)) ->
  status a !! u = Some (Queued e w m tok r) -> tcbs k !! u = Some tcb -> thread_rel k a u tcb ->
  (queue_head ep =? 0) = false /\ queue_head ep = u /\ wait_from_raw (ipc_wait_kind tcb) = Some w /\
  negb (ipc_queue_next tcb =? 0) = match ts with [] => false | _ => true end.
Proof.
  intros RL He Hp Hs Ht (_ & _ & _ & T4). destruct (port_of _ _ _ _ RL He) as (p & Hp' & Hl & _).
  assert (p = Waiters (u :: ts)) as -> by congruence. pose proof (er_links _ _ _ Hl) as Hk. cbn in Hk.
  destruct Hk as (Hh & H0 & x & Hx & Hk). assert (x = tcb) as -> by congruence.
  rewrite Hs in T4. destruct T4 as (_ & _ & _ & Hkd & _). split_and!; [by apply Z.eqb_neq; rewrite Hh|done|by rewrite Hkd, wait_raw_roundtrip|].
  rewrite (links_head_0 _ _ _ Hk). by destruct ts.
Qed.

(** The head [u] of port [e] is taken by the running thread [t]. *)
Lemma take_head k a t e ep u ts w m tok r ut' tt tt' h s s' status_u serving' :
  Rel k a -> SpecInv a -> idle a t -> eps k !! e = Some ep -> ports a !! e = Some (Waiters (u :: ts)) ->
  status a !! u = Some (Queued e w m tok r) -> tcbs k !! t = Some tt -> links (tcbs k) h ts ->
  s_ok s' -> (forall v, s_known s' v -> s_known (sch k) v) -> (forall v, s_deadline s' v = s_deadline (sch k) v) ->
  (forall v, v <> u -> s_blocked (sch k) v -> s_blocked s' v) ->
  s = mkK (<[e := mkEp (ep_to_raw (port_state (Waiters ts))) (ep_readiness ep) h (last_or_0 ts)]> (eps k)) (reps k) (ntfs k)
        (<[t := tt']> (<[u := ut']> (tcbs k))) (tables k) (stacks k) s' ->
  (forall v, v <> t -> serving' !! v = serving a !! v) ->
  let a' := mkSpec (<[u := status_u]> (status a)) (<[e := Waiters ts]> (ports a)) (calls a) serving' (<[t := tok]> (sender a)) in
  thread_rel s a' u ut' -> thread_rel s a' t tt' -> Rel s a'.
Proof.
  intros RL I Hi He Hp Hs Ht Hlk Ok' Hk Hd Hb -> Hsv a' Tu Tt. unfold idle in Hi.
  assert (Hut : u <> t) by congruence.
  destruct (member _ _ _ _ u RL I Hp ltac:(by left)) as (w0 & m0 & tk0 & r0 & tcb & Hs0 & Hu & _ & H0).
  pose proof (si_nodup _ I _ _ Hp) as ND. apply NoDup_cons in ND as [Hu' ND].
  assert (Hnt : t ∉ ts) by (intros Hin; destruct (member _ _ _ _ t RL I Hp ltac:(by right)) as (? & ? & ? & ? & ? & ? & _); congruence).
  eapply (Rel_port k _ a _ [u; t] e ep); subst a'; fields; try done.
  - intros v [Hv1 [Hv2 _]%not_elem_of_cons]%not_elem_of_cons. constructor; fields; rewrite ?lookup_insert_ne by done; try done.
    + by apply Hsv.
    + by rewrite Hd.
    + intros Bv. pose proof (Hb v Hv1 Bv). by destruct (status a !! v) as [[]|].
    + by destruct (tcbs k !! v).
  - intros v [->| ->%list_elem_of_singleton]%elem_of_cons.
    + split_and!; [by intros n; rewrite Hs|by rewrite Hs|intros e' w' (? & ? & ? & ?); congruence|].
      exists tcb. split; [done|]. exists ut'. split; [|done]. by rewrite lookup_insert_ne, lookup_insert_eq by done.
    + split_and!; [by intros n; rewrite Hi|by rewrite Hi|intros e' w' (? & ? & ? & ?); congruence|].
      exists tt. split; [done|]. exists tt'. by rewrite lookup_insert_eq.
  - intros v e' w' (? & ? & ? & Hq) Hne. rewrite !lookup_insert_ne; [done| |]; intros ->; congruence.
  - constructor; [done| |done]. apply (links_ext (tcbs k)); [|done].
    intros v Hv. rewrite !lookup_insert_ne; [done| |]; by intros ->.
  - intros v n Hv Bv. apply Hb; [congruence|done].
  - intros ty kva v Hreg Hv. assert (registered k ty kva v) as Hreg0.
    { destruct ty; cbn in *; try done. destruct Hreg as (x & Hx & Hx'). lookups; eauto. }
    split; [done|]. destruct (rl_ready _ _ RL _ _ _ Hreg0 Hv). apply Hb; [congruence|done].
  - apply (rl_rep _ _ RL).
  - apply (rl_call _ _ RL).
Qed.

Definition unknown (e : IpcError) : SyscallError := UNKNOWN.

Lemma receive_spec k a c t e :
  Rel k a -> SpecInv a -> s_runs (sch k) c t -> idle a t -> is_Some (eps k !! e) ->
  exists r k', ipc_receive k c e = Ret (r, k') /\ message_return r unknown = (spec_receive a t e).1 /\
    Rel k' (spec_receive a t e).2 /\ SpecInv (spec_receive a t e).2.
Proof.
  intros RL I Hr Hi [ep He]. destruct (port_of _ _ _ _ RL He) as (p & Hp & Hl & Hst).
  destruct (running _ _ _ _ RL Hr) as (tcb & Ht & (T1 & T2 & T3 & T4) & Hc & H0 & Hnb).
  pose proof (runs_live _ _ _ _ RL Hr) as Lt.
  unfold ipc_receive, ep_at, tcb_at. rewrite Hc. exec. rewrite He. exec. rewrite Hst, bind_Ret, Ht. exec.
  assert (Hserv : negb (current_reply_kva tcb =? 0) = match serving a !! t with Some _ => true | None => false end).
  { rewrite T2. destruct (serving a !! t) as [r|] eqn:Es; [|done]. cbn.
    destruct (si_serving _ I _ _ Es) as [c0 Hc0]. assert (calls a !! r = Some c0) by (apply si_calls; [done|by right]).
    destruct (rl_call _ _ RL r) as [rep Hrep]; [by eauto|]. destruct (rl_zero _ _ RL) as [_ Hz].
    apply negb_true_iff, Z.eqb_neq. intros ->. congruence. }
  rewrite Hserv. unfold spec_receive.
  destruct p as [[|u ts]|u].
  - (* nobody is waiting *)
    rewrite Hp. exec. unfold decide_receive. cbn [port_state]. destruct (serving a !! t) as [r|] eqn:Es; [by eexists _, _|].
    destruct (queue_and_block k a c t e ep [] WReceive no_msg 0 0 (Receiver t) HasReceiver tcb
      (set_blocked_on (set_kind tcb WAIT_KIND_RECEIVE) e) false (reps k) (calls a))
      as (k2 & k3 & k4 & k' & E2 & E3 & E4 & E5 & RL'); try done; try (by right); try (apply RL).
    exists None, k'. unfold with_tcb. rewrite E2. exec. rewrite E3. exec. injection E4 as <-. cbn [suspended_as] in E5. rewrite E5. exec.
    split_and!; [done|done|done|]. cbn [snd]. apply (inv_join a t e (Waiters [])); try done; [by left|by right].
  - (* the first waiter is taken *)
    destruct (member _ _ _ _ u RL I Hp ltac:(by left)) as (w & m & tok & r & utcb & Hs & Hu & Tu & Hu0).
    destruct (observe _ _ _ _ _ _ _ _ _ _ _ RL He Hp Hs Hu Tu) as (O1 & O2 & O3 & O4).
    assert (Hut : u <> t) by (unfold idle in Hi; congruence). pose proof (queued_live _ _ _ _ u RL I Hp ltac:(by left)) as Lu.
    cbn [port_state]. rewrite bool_decide_eq_true_2, O1, O2 by done. cbn [negb andb]. rewrite Hu. exec. rewrite O3, O4.
    unfold decide_receive. rewrite Hp. destruct (serving a !! t) as [r'|] eqn:Es; [by eexists _, _|]. rewrite Hs.
    destruct (dequeue_spec k e u ts ep He (er_links _ _ _ Hl) (er_tail _ _ _ Hl) (si_nodup _ I _ _ Hp) Lu) as (tcb0 & h & Ht0 & Hdq & Hlk & _).
    assert (tcb0 = utcb) as -> by congruence. destruct Tu as (U1 & U2 & U3 & U4). rewrite Hs in U4. destruct U4 as (Sk & Dl & Bl & Kd & Km & Kc).
    assert (Hnk : w <> WReceive).
    { intros ->. assert (Waiters (u :: ts) = Receiver u) as X; [|done]. by apply (si_kind _ I e _ u WReceive Hp); [by eexists _, _, _|]. }
    destruct (Km Hnk) as [Kmsg Ktok]. unfold idle in Hi. rewrite Hi in T4.
    destruct w; [| done |].
    + destruct (law_unblock (sch k) u (rl_ok _ _ RL) Bl) as (s' & Hub & Ok' & Hb & Hd & Hk & _).
      pose proof (fun v => law_unblock_live _ _ _ v Hub) as Ls.
      unfold wake, set_ep_state, ep_at, tcb_at. rewrite Hdq. exec. rewrite !lookup_insert_ne by done.
      rewrite Ht. exec. rewrite Hub. exec. eexists _, _. split; [reflexivity|]. split_and!; [by cbn; rewrite Kmsg| |].
      * eapply (take_head k a t e ep u ts WSend m tok r _ tcb); try done; [by intros v Hv Bv; apply Hb| | |].
        -- unfold with_ep, with_tcb, with_sch. fields. cbn [ipc_caller_token set_next]. rewrite Ktok. destruct ts; reflexivity.
        -- split_and!; [exact U1|exact U2|by cbn; rewrite lookup_insert_ne by done|]. fields. rewrite lookup_insert_eq. cbn. rewrite Hd.
           split; [done|]. by eexists InSend.
        -- split_and!; [exact T1|by cbn; rewrite Es|by cbn; rewrite lookup_insert_eq|]. fields. rewrite lookup_insert_ne by done. rewrite Hi. cbn. by rewrite Hd.
      * eapply (inv_leave a t e _ u ts); try done. left. split_and!; [done|by eexists|done].
    + unfold set_ep_state, ep_at, tcb_at. rewrite Hdq. exec. rewrite !lookup_insert_ne by done.
      rewrite Ht. exec. eexists _, _. split; [reflexivity|]. split_and!; [by cbn; rewrite Kmsg| |].
      * eapply (take_head k a t e ep u ts WCall m tok r _ tcb _ _ _ (sch k)); try done; [apply RL| | | |].
        -- unfold with_ep, with_tcb, with_sch. fields. cbn [ipc_caller_token ipc_call_reply_kva set_next]. rewrite Ktok, (Kc eq_refl). destruct ts; reflexivity.
        -- intros v Hv. by rewrite lookup_insert_ne by done.
        -- split_and!; [done| |by cbn; rewrite lookup_insert_ne by done|].
           { cbn. by rewrite lookup_insert_ne by done. }
           fields. rewrite lookup_insert_eq. done.
        -- split_and!; [done|by cbn; rewrite lookup_insert_eq|by cbn; rewrite lookup_insert_eq|]. fields. rewrite lookup_insert_ne by done. by rewrite Hi.
      * eapply (inv_leave a t e _ u ts); try done. right. split_and!; done.
  - (* another receiver is waiting *)
    rewrite Hp. exec. unfold decide_receive. destruct (serving a !! t) as [r|] eqn:Es; by eexists _, _.
Qed.

(** * Calls *)

(** The reply objects after [r] is bound to [t] or released. *)
Lemma bind_reply k a r t :
  Rel k a -> is_Some (reps k !! r) ->
  (forall r', is_Some (reps k !! r') <-> is_Some (<[r := mkReply REPLY_STATE_BOUND t]> (reps k) !! r')) /\
  (forall r' rep, <[r := mkReply REPLY_STATE_BOUND t]> (reps k) !! r' = Some rep ->
    rep = match <[r := t]> (calls a) !! r' with Some c => mkReply REPLY_STATE_BOUND c | None => mkReply REPLY_STATE_FRESH 0 end) /\
  (forall r', is_Some (<[r := t]> (calls a) !! r') -> is_Some (<[r := mkReply REPLY_STATE_BOUND t]> (reps k) !! r')).
Proof.
  intros RL Hr. split_and!; intros r'; [|intros rep E|]; lookups; try done; [by apply (rl_rep _ _ RL)|].
  intros Hc. by apply (rl_call _ _ RL).
Qed.

Lemma free_reply k a r :
  Rel k a -> is_Some (reps k !! r) ->
  (forall r', is_Some (reps k !! r') <-> is_Some (<[r := mkReply REPLY_STATE_FRESH 0]> (reps k) !! r')) /\
  (forall r' rep, <[r := mkReply REPLY_STATE_FRESH 0]> (reps k) !! r' = Some rep ->
    rep = match delete r (calls a) !! r' with Some c => mkReply REPLY_STATE_BOUND c | None => mkReply REPLY_STATE_FRESH 0 end) /\
  (forall r', is_Some (delete r (calls a) !! r') -> is_Some (<[r := mkReply REPLY_STATE_FRESH 0]> (reps k) !! r')).
Proof.
  intros RL Hr. split_and!; intros r'; [|intros rep E|]; lookups; try done; [by apply (rl_rep _ _ RL)|].
  intros Hc. by apply (rl_call _ _ RL).
Qed.

Lemma call_deliver k a c t e ep u reply msg tok :
  Rel k a -> SpecInv a -> s_runs (sch k) c t -> idle a t -> eps k !! e = Some ep -> ports a !! e = Some (Receiver u) ->
  is_Some (reps k !! reply) -> calls a !! reply = None ->
  exists k', ipc_call k c e reply msg tok = Ret (None, k') /\ Rel k' (spec_call a t e reply msg tok).2.
Proof.
  intros RL I Hr Hi He Hp [rep Hrep] Hfr. destruct (port_of _ _ _ _ RL He) as (p & Hp' & Hl & Hst). assert (p = Receiver u) as -> by congruence.
  destruct (member _ _ _ _ u RL I Hp ltac:(by left)) as (w & m & tk & r & tcb & Hs & Ht & (T1 & T2 & T3 & T4) & H0).
  assert (w = WReceive) as -> by (eapply (si_kind _ I e (Receiver u) u w Hp); [by eexists _, _, _|done]).
  rewrite Hs in T4. destruct T4 as (Sk & Dl & Bl & _).
  destruct (running _ _ _ _ RL Hr) as (ct & Hct & (C1 & C2 & C3 & C4) & Hc & Hc0 & Hcb). unfold idle in Hi. rewrite Hi in C4. destruct C4 as [Csk Cdl].
  assert (Hut : u <> t) by congruence.
  pose proof (queued_live _ _ _ _ u RL I Hp ltac:(by left)) as Lu. pose proof (runs_live _ _ _ _ RL Hr) as Lt.
  destruct (dequeue_spec (with_rep k reply (mkReply REPLY_STATE_BOUND t)) e u [] ep He (er_links _ _ _ Hl) (er_tail _ _ _ Hl) (NoDup_singleton _) Lu) as (tcb0 & h & Ht0 & Hdq & Hlk & _).
  assert (tcb0 = tcb) as -> by (cbn in Ht0; congruence). cbn in Hlk; subst h.
  destruct (law_unblock (sch k) u (rl_ok _ _ RL) Bl) as (s1 & Hub & Ok1 & Hb1 & Hd1 & Hk1 & Hr1).
  pose proof (fun v => law_unblock_live _ _ _ v Hub) as Ls.
  destruct (law_block s1 c t Ok1 (Hr1 _ _ Hr)) as (s2 & Hbk & Ok2 & Hb2 & Hd2 & Hk2).
  pose proof (rl_rep _ _ RL _ _ Hrep) as Erep. rewrite Hfr in Erep. subst rep.
  unfold ipc_call, wake, suspend, set_ep_state, rep_at, ep_at, tcb_at. rewrite Hrep. exec. rewrite He. exec. rewrite Hst. exec.
  cbn [Z.eqb REPLY_STATE_FRESH decide_call negb]. rewrite Hc. exec. rewrite Hdq. exec.
  rewrite Hub. exec.
  rewrite !lookup_insert_ne by done. rewrite Hct. exec. rewrite Hbk. exec. eexists. split; [reflexivity|].
  unfold spec_call. rewrite Hfr, Hp. cbn [snd]. destruct (bind_reply k a reply t RL ltac:(by eauto)) as (B1 & B2 & B3).
  eapply (Rel_port k _ a _ [u; t] e ep); fields; try done.
  - intros v Hv. by apply Hk1, Hk2.
  - intros v [Hv1 [Hv2 _]%not_elem_of_cons]%not_elem_of_cons. constructor; fields; rewrite ?lookup_insert_ne by done; try done.
    + intros Hv. apply Hd2. by rewrite Hd1.
    + intros Bv. assert (s_blocked s2 v) by (apply Hb2; left; by apply Hb1). by destruct (status a !! v) as [[]|].
    + by destruct (tcbs k !! v).
  - intros v [->| ->%list_elem_of_singleton]%elem_of_cons.
    + split_and!; [by intros n; rewrite Hs|by rewrite Hs|intros e' w' (? & ? & ? & ?); congruence|].
      exists tcb. split; [done|]. eexists. split; [by rewrite lookup_insert_ne, lookup_insert_eq by done|].
      split_and!; [done|by cbn; rewrite lookup_insert_eq|by cbn; rewrite lookup_insert_eq|].
      fields. rewrite lookup_insert_ne, lookup_insert_eq by done. cbn. split; [apply Hd2; by rewrite Hd1|]. exists InReceive.
      by rewrite lookup_insert_ne by done.
    + split_and!; [by intros n; rewrite Hi|by rewrite Hi|intros e' w' (? & ? & ? & ?); congruence|].
      exists ct. split; [done|]. eexists. split; [by rewrite lookup_insert_eq|].
      split_and!; [done|by cbn; rewrite lookup_insert_ne by done|by cbn; rewrite lookup_insert_ne by done|].
      fields. rewrite lookup_insert_eq. cbn. rewrite lookup_insert_eq. split_and!; [done|apply Hd2; by rewrite Hd1|]. apply Hb2. by right.
  - intros v e' w' (? & ? & ? & Hq) Hne. rewrite !lookup_insert_ne; [done| |]; intros ->; congruence.
  - intros v n Hv Bv. apply Hb2. left. apply Hb1. split; [done|congruence].
  - intros ty kva v Hreg Hv. assert (registered k ty kva v) as Hreg0.
    { destruct ty; cbn in *; try done. destruct Hreg as (x & Hx & Hx'). lookups; eauto. }
    split; [done|]. destruct (rl_ready _ _ RL _ _ _ Hreg0 Hv). apply Hb2. left. apply Hb1. split; [done|congruence].
Qed.

Lemma ipc_call_spec k a c t e reply msg tok :
  Rel k a -> SpecInv a -> s_runs (sch k) c t -> idle a t -> is_Some (eps k !! e) -> is_Some (reps k !! reply) ->
  exists r k', ipc_call k c e reply msg tok = Ret (r, k') /\ message_return r call_error = (spec_call a t e reply msg tok).1 /\
    Rel k' (spec_call a t e reply msg tok).2 /\ SpecInv (spec_call a t e reply msg tok).2.
Proof.
  intros RL I Hr Hi [ep He] [rep Hrep]. destruct (port_of _ _ _ _ RL He) as (p & Hp & Hl & Hst).
  pose proof (rl_rep _ _ RL _ _ Hrep) as Erep.
  destruct (calls a !! reply) as [c0|] eqn:Hfr.
  - exists (Some (Err ReplyBound)), k. unfold spec_call, ipc_call, rep_at, ep_at. rewrite Hfr, Hrep. exec. rewrite He. exec.
    rewrite Hst, bind_Ret. subst rep. done.
  - destruct p as [ts|u].
    + destruct (running _ _ _ _ RL Hr) as (tcb & Ht & _ & Hc & _). pose proof (runs_live _ _ _ _ RL Hr) as Lt.
      destruct (bind_reply k a reply t RL ltac:(by eauto)) as (B1 & B2 & B3).
      destruct (queue_and_block k a c t e ep ts WCall msg tok reply (Waiters (ts ++ [t])) HasWaiters tcb
        (set_blocked_on (set_call_reply (set_kind (set_token (set_msg tcb msg) tok) WAIT_KIND_CALL) reply) e) (bool_decide (ts = []))
        (<[reply := mkReply REPLY_STATE_BOUND t]> (reps k)) (<[reply := t]> (calls a)))
        as (k2 & k3 & k4 & k' & E2 & E3 & E4 & E5 & RL'); try done; try (by left).
      { by destruct ts. }
      exists None, k'. unfold spec_call. rewrite Hfr, Hp. split_and!; [|done|done|].
      * unfold ipc_call, rep_at, ep_at, tcb_at. rewrite Hrep. exec. rewrite He. exec. rewrite Hst, bind_Ret. subst rep.
        assert (D : decide_call true (port_state (Waiters ts)) = CallQueue HasWaiters (bool_decide (ts = []))) by (by destruct ts).
        cbn [rp_state Z.eqb REPLY_STATE_FRESH]. rewrite D, Hc. exec. rewrite Ht. exec. unfold with_tcb, with_rep. fields.
        rewrite E2. exec. rewrite E3. exec. rewrite E4. exec. cbn [suspended_as] in E5. rewrite E5. by exec.
      * cbn [snd]. apply (inv_join a t e (Waiters ts)); try done; [right; split; [done|by eexists]|left; done].
    + destruct (call_deliver _ _ _ _ _ _ _ _ msg tok RL I Hr Hi He Hp ltac:(by eauto) Hfr) as (k' & E & RL'). exists None, k'.
      unfold spec_call in *. rewrite Hfr, Hp in *. split_and!; [done|done|done|]. cbn [snd].
      destruct (member _ _ _ _ u RL I Hp ltac:(by left)) as (w & m & tk & r & tcb & Hs & _).
      assert (w = WReceive) as -> by (eapply (si_kind _ I e (Receiver u) u w Hp); [by eexists _, _, _|done]).
      assert (Hut : u <> t) by (unfold idle in Hi; congruence).
      pose proof (inv_leave a t e (Receiver u) u [] WReceive m tk r (Completed (Message OK (words msg))) (serving a) (sender a) I Hp eq_refl Hs
        ltac:(left; split_and!; [done|by eexists|done])) as I'.
      apply (inv_taken _ t u reply (<[u := tok]> (sender a))) in I'; [exact I'|..]; unfold idle; cbn [status calls serving].
      * by rewrite lookup_insert_ne by done.
      * done.
      * by eapply si_receiver; [done|]; eexists _, _, _.
      * intros e' (? & ? & ? & Hq). cbn in Hq. by rewrite lookup_insert_eq in Hq.
Qed.

(** * Replies *)

Definition reply_return (r : result unit IpcError) : SyscallReturn :=
  match r with Ok _ => Void OK | Err NoCaller => Void NO_CALLER | Err _ => Void UNKNOWN end.

Lemma reply_spec k a c t msg :
  Rel k a -> SpecInv a -> s_runs (sch k) c t -> idle a t ->
  exists r k', ipc_reply k c msg = Ret (r, k') /\ Some (reply_return r) = (spec_reply a t msg).1 /\
    Rel k' (spec_reply a t msg).2 /\ SpecInv (spec_reply a t msg).2.
Proof.
  intros RL I Hr Hi. destruct (running _ _ _ _ RL Hr) as (tcb & Ht & (T1 & T2 & T3 & T4) & Hc & H0 & Hnb).
  pose proof (runs_live _ _ _ _ RL Hr) as Lt.
  unfold ipc_reply, spec_reply, wake, rep_at, tcb_at. rewrite Hc. exec. rewrite Ht. exec. rewrite T2.
  destruct (serving a !! t) as [r|] eqn:Es; [|by eexists _, _]. change (default 0 (Some r)) with r.
  destruct (si_serving _ I _ _ Es) as [cl Hcl]. assert (Hca : calls a !! r = Some cl) by (apply si_calls; [done|by right]).
  destruct (rl_call _ _ RL r) as [rep Hrep]; [by eauto|]. pose proof (rl_rep _ _ RL _ _ Hrep) as Erep. rewrite Hca in Erep. subst rep.
  assert (Hr0 : r <> 0) by (intros ->; destruct (rl_zero _ _ RL); congruence).
  rewrite (proj2 (Z.eqb_neq r 0) Hr0), Hrep, Hca. exec. cbn [Z.eqb REPLY_STATE_BOUND Pos.eqb negb decide_reply]. exec.
  destruct (tcbs k !! cl) as [ct|] eqn:Hct; [|destruct (rl_dom _ _ RL _ Hct); congruence].
  destruct (rl_thread _ _ RL _ _ Hct) as (C1 & C2 & C3 & C4). rewrite Hcl in C4. destruct C4 as (Csk & Cdl & Cbl).
  unfold idle in Hi. assert (Hne : cl <> t) by congruence. rewrite Hi in T4.
  destruct (law_unblock (sch k) cl (rl_ok _ _ RL) Cbl) as (s' & Hub & Ok' & Hb & Hd & Hk & _).
  pose proof (fun v => law_unblock_live _ _ _ v Hub) as Ls. pose proof (blocked_live _ _ _ RL Cbl) as Lc.
  exec. rewrite Hub. exec. rewrite lookup_insert_ne by done. rewrite Ht. exec. eexists _, _. split; [reflexivity|].
  split_and!; [done| |by eapply inv_answer]. cbn [snd].
  destruct (free_reply k a r RL ltac:(by eauto)) as (B1 & B2 & B3).
  eapply (Rel_update k _ a _ [cl; t]); fields; try done.
  - constructor; fields; [done|by intros e He; apply B1|done].
  - intros v Hv. by apply (rl_known _ _ RL), Hk.
  - intros v [Hv1 [Hv2 _]%not_elem_of_cons]%not_elem_of_cons. constructor; fields; rewrite ?lookup_insert_ne, ?lookup_delete_ne by done; try done.
    + by rewrite Hd.
    + intros Bv. assert (s_blocked s' v) by (by apply Hb). by destruct (status a !! v) as [[]|].
    + by destruct (tcbs k !! v).
  - intros v [->| ->%list_elem_of_singleton]%elem_of_cons.
    + exists ct. split; [done|]. eexists. split; [by rewrite lookup_insert_ne, lookup_insert_eq by done|].
      split_and!; [done|by cbn; rewrite lookup_delete_ne by done|done|]. fields. rewrite lookup_insert_eq. cbn. rewrite Hd. split; [done|]. by exists InCall.
    + exists tcb. split; [done|]. eexists. split; [by rewrite lookup_insert_eq|].
      split_and!; [done|by cbn; rewrite lookup_delete_eq|done|]. fields. rewrite lookup_insert_ne by done. rewrite Hi. cbn. by rewrite Hd.
  - intros r' Hr'. rewrite lookup_insert_ne; [done|]. intros ->. congruence.
  - intros e ep He. destruct (rl_ep _ _ RL _ _ He) as (p & Hp & [L1 L2 L3]). exists p. split; [done|]. constructor; [done| |done].
    apply (links_ext (tcbs k)); [|done]. intros v Hv. destruct (member _ _ _ _ v RL I Hp Hv) as (? & ? & ? & ? & ? & Hvs & _).
    rewrite !lookup_insert_ne; [done| |]; intros ->; congruence.
  - apply (rl_port _ _ RL).
  - intros n o Hn Hw. destruct (rl_ntf _ _ RL _ _ Hn Hw) as [N1 N2]. assert (blocked_tcb_kva o <> cl) by congruence.
    rewrite lookup_insert_ne by done. split; [done|]. by apply Hb.
  - intros ty kva v Hreg Hv. assert (registered k ty kva v) as Hreg0 by (destruct ty; done).
    destruct (rl_ready _ _ RL _ _ _ Hreg0 Hv) as [R1 R2 R3 (tc & R4 & R5 & R6)]. assert (v <> cl) by congruence. assert (v <> t) by congruence.
    constructor; fields; [by rewrite lookup_insert_ne by done|by apply Hb|by rewrite Hd|]. exists tc. by rewrite !lookup_insert_ne by done.
Qed.

End Refine.
