(* ===== verification/IpcSafe.v ===== *)
(** Notifications, [sys_wait_any], the resumption of blocked calls and the
    system calls themselves keep the relation of [IpcRefine]; with it every
    history of IPC refines [IpcSpec] and does not panic, as long as a
    [sys_wait_any] waits on at most one object and then without a deadline. *)
From Stdlib Require Import ZArith Lia.
From stdpp Require Import base option list gmap numbers fin_maps.
From S2P Require Import Prelude Handles IpcState Ipc IpcSpec IpcRefine.
Open Scope Z_scope.

Section Safe.
Context {S : Type} `{SL : SchedulerLaws S}.
Abbreviation Kernel := (Kernel S).

(** * Notifications *)

(** A change of notification [n] and of the scheduler that wakes only threads
    in [notification_wait] or [sys_wait_any]. *)
Lemma Rel_notif k a n o o' s' :
  Rel k a -> ntfs k !! n = Some o -> s_ok s' ->
  (forall t, s_known s' t -> s_known (sch k) t) -> (forall t, s_deadline s' t = s_deadline (sch k) t) ->
  (forall t, s_blocked (sch k) t -> status a !! t <> Some OnAny -> status a !! t <> Some (OnNotification n) -> s_blocked s' t) ->
  (has_waiter (nt_state o') = true -> status a !! blocked_tcb_kva o' = Some (OnNotification n) /\ s_blocked s' (blocked_tcb_kva o')) ->
  (nt_readiness o' <> 0 -> nt_readiness o' = nt_readiness o) ->
  (forall ty kva t, registered (with_ntf (with_sch k s') n o') ty kva t -> t <> 0 -> s_blocked s' t) ->
  Rel (with_ntf (with_sch k s') n o') a.
Proof.
  intros RL Hn Ok' Hk Hd Hb Hw Hrd Hreg.
  apply (Rel_update k _ a _ []); fields; try done.
  - constructor; fields; [done|done|]. intros x Hx. rewrite lookup_insert. case_decide; eauto.
  - intros t Ht. by apply (rl_known _ _ RL), Hk.
  - intros t _. constructor; fields; try done; [by rewrite Hd| |by destruct (tcbs k !! t)].
    intros Bt. destruct (status a !! t) as [[]|] eqn:E; try done; (apply Hb; [done|congruence|congruence]).
  - intros t Ht. by apply elem_of_nil in Ht.
  - apply (rl_ep _ _ RL).
  - apply (rl_port _ _ RL).
  - apply (rl_rep _ _ RL).
  - apply (rl_call _ _ RL).
  - intros n' x Hx Hx'. lookups; [by apply Hw|]. destruct (rl_ntf _ _ RL _ _ Hx Hx') as [E1 E2]. split; [done|].
    apply Hb; [done|congruence|congruence].
  - intros ty kva t Hr Ht. assert (registered k ty kva t) as Hr0.
    { destruct ty; cbn in *; try done. destruct Hr as (x & Hx & Hx'). lookups; [|by eauto]. exists o. split; [done|]. symmetry. by apply Hrd. }
    destruct (rl_ready _ _ RL _ _ _ Hr0 Ht) as [R1 R2 R3 R4]. constructor; fields; [done|by eapply Hreg|by rewrite Hd|done].
Qed.

(** The second half of a signal: the readiness waiter. *)
Lemma signal_ready k a n o v :
  Rel k a -> ntfs k !! n = Some o ->
  exists k', (if waiter_registered (nt_readiness o) && is_notification_ready v (readiness_threshold o)
     then k ← wake (with_ntf k n (mkNotif (nt_state o) (blocked_tcb_kva o) 0 0)) (nt_readiness o); Ret (@Ok unit NotificationError tt, k)
     else Ret (Ok tt, k)) = Ret (Ok tt, k') /\ Rel k' a /\ (exists o', ntfs k' !! n = Some o' /\ nt_state o' = nt_state o).
Proof.
  intros RL Hn. unfold waiter_registered. destruct (Z.eqb_spec (nt_readiness o) 0) as [E0|E0]; [by exists k; eauto|]. cbn [negb andb].
  destruct (is_notification_ready _ _); [|by exists k; eauto].
  pose proof (rl_ready _ _ RL OTNotification n _ ltac:(by eexists) E0) as [R1 R2 R3 (tcb & R4 & R5 & R6)].
  destruct (law_unblock (sch k) _ (rl_ok _ _ RL) R2) as (s' & Hub & Ok' & Hb & Hd & Hk & _).
  unfold wake. fields. rewrite Hub. exec. eexists. split; [reflexivity|]. split.
  - change (with_sch (with_ntf k n (mkNotif (nt_state o) (blocked_tcb_kva o) 0 0)) s')
      with (with_ntf (with_sch k s') n (mkNotif (nt_state o) (blocked_tcb_kva o) 0 0)).
    apply (Rel_notif k a n o); try done.
    + intros t Bt Hn1 _. apply Hb. split; [done|]. congruence.
    + intros Hw. destruct (rl_ntf _ _ RL _ _ Hn Hw) as [E1 E2]. split; [done|]. apply Hb. split; [done|]. cbn. congruence.
    + intros ty kva t Hr Ht. assert (registered k ty kva t /\ (ty, kva) <> (OTNotification, n)) as [Hr0 Hne].
      { destruct ty; cbn in *; try done; destruct Hr as (x & Hx & Hx'); lookups; try done; split; eauto; congruence. }
      pose proof (rl_ready _ _ RL ty kva t Hr0 Ht) as [Q1 Q2 _ (tcb' & Q4 & Q5 & Q6)]. apply Hb. split; [done|]. intros ->.
      assert (tcb' = tcb) as -> by congruence. apply Hne. assert (kva = n) as -> by congruence. f_equal. rewrite R6 in Q6. by destruct ty.
  - fields. rewrite lookup_insert_eq. by eexists.
Qed.

Lemma signal_spec k a n v :
  Rel k a -> is_Some (ntfs k !! n) ->
  exists r k', notification_signal k n v = Ret (r, k') /\ Rel k' a.
Proof.
  intros RL [o Hn]. unfold notification_signal, ntf_at, signal. rewrite Hn. exec.
  destruct (v <=? value (nt_state o)); [by exists (Err ValueNotMonotonic), k|].
  destruct (has_waiter (nt_state o) && (wait_threshold (nt_state o) <=? v)) eqn:Ew.
  - apply andb_true_iff in Ew as [Hw _]. destruct (rl_ntf _ _ RL _ _ Hn Hw) as [N1 N2].
    destruct (law_unblock (sch k) _ (rl_ok _ _ RL) N2) as (s' & Hub & Ok' & Hb & Hd & Hk & _).
    unfold wake. fields. rewrite Hub. exec.
    set (o1 := mkNotif (mkNS v false 0) 0 (nt_readiness o) (readiness_threshold o)).
    assert (RL1 : Rel (with_ntf (with_sch k s') n o1) a).
    { apply (Rel_notif k a n o); try done.
      - intros t Bt _ Hn1. apply Hb. split; [done|]. congruence.
      - intros ty kva t Hr Ht. assert (registered k ty kva t) as Hr0.
        { destruct ty; cbn in *; try done. destruct Hr as (x & Hx & Hx'). lookups; [|by eauto]. exists o. done. }
        destruct (rl_ready _ _ RL _ _ _ Hr0 Ht) as [R1 R2 _ _]. apply Hb. split; [done|]. congruence. }
    destruct (signal_ready _ a n o1 v RL1) as (k' & E & RL' & _); [fields; by rewrite lookup_insert_eq|].
    exists (Ok tt), k'. split; [exact E|done].
  - set (o1 := mkNotif (mkNS v (has_waiter (nt_state o)) (wait_threshold (nt_state o))) (blocked_tcb_kva o) (nt_readiness o) (readiness_threshold o)).
    assert (RL1 : Rel (with_ntf k n o1) a).
    { change (with_ntf k n o1) with (with_ntf (with_sch k (sch k)) n o1). apply (Rel_notif k a n o); try done; [apply RL|exact (rl_ntf _ _ RL n o Hn)|].
      intros ty kva t Hr Ht. assert (registered k ty kva t) as Hr0.
      { destruct ty; cbn in *; try done. destruct Hr as (x & Hx & Hx'). lookups; [|by eauto]. exists o. done. }
      by destruct (rl_ready _ _ RL _ _ _ Hr0 Ht). }
    rewrite bind_Ret. fields. rewrite lookup_insert_eq. exec.
    destruct (signal_ready _ a n o1 v RL1) as (k' & E & RL' & _); [fields; by rewrite lookup_insert_eq|].
    exists (Ok tt), k'. split; [exact E|done].
Qed.

(** * A thread starts or ends waiting for objects *)

(** Endpoints change only in their readiness slots, notifications anyhow. *)
Definition slots_only (k k' : Kernel) : Prop :=
  (forall e ep', eps k' !! e = Some ep' -> exists ep, eps k !! e = Some ep /\
    ep_state ep' = ep_state ep /\ queue_head ep' = queue_head ep /\ queue_tail ep' = queue_tail ep) /\
  (forall e, is_Some (eps k !! e) -> is_Some (eps k' !! e)) /\
  (forall n, is_Some (ntfs k !! n) -> is_Some (ntfs k' !! n)) /\
  reps k' = reps k /\ tables k' = tables k.

(** Thread [t], which is in no queue and holds no reply, changes its own
    state. *)
Lemma Rel_thread k k' a a' t tcb tcb' :
  Rel k a -> SpecInv a -> slots_only k k' -> s_ok (sch k') ->
  (forall v, s_known (sch k') v -> s_known (sch k) v) ->
  (forall v, v <> t -> s_deadline (sch k) v = no_deadline -> s_deadline (sch k') v = no_deadline) ->
  (forall v, v <> t -> s_blocked (sch k) v -> s_blocked (sch k') v) ->
  (forall e w, ~ queued_at a t e w) ->
  tcbs k !! t = Some tcb -> tcbs k' = <[t := tcb']> (tcbs k) ->
  (forall v, v <> t -> stacks k' !! v = stacks k !! v /\ status a' !! v = status a !! v) ->
  ports a' = ports a -> calls a' = calls a -> serving a' = serving a -> sender a' = sender a ->
  thread_rel k' a' t tcb' ->
  (forall n o, ntfs k' !! n = Some o -> has_waiter (nt_state o) = true ->
    status a' !! blocked_tcb_kva o = Some (OnNotification n) /\ s_blocked (sch k') (blocked_tcb_kva o)) ->
  (forall ty kva v, registered k' ty kva v -> v <> 0 -> v = t \/ registered k ty kva v) ->
  (forall ty kva, registered k' ty kva t -> ready_rel k' a' ty kva t) ->
  Rel k' a'.
Proof.
  intros RL I (Se & Ge & Gn & Er & Et) Ok' Hk Hd Hb Hq Ht Etc Hst Ep Ec Es Esn Hrel Hntf Hreg Hself.
  eapply (Rel_update k _ a _ [t]); try done.
  - constructor; [done|by rewrite Er|done].
  - intros v Hv. by apply (rl_known _ _ RL), Hk.
  - intros v Hv. assert (v <> t) as Hne by (intros ->; by apply Hv, list_elem_of_singleton). destruct (Hst v Hne) as [E1 E2].
    constructor; [done|by rewrite Es|by rewrite Esn|done|by apply Hd| |].
    + intros Bv. pose proof (Hb v Hne Bv). by destruct (status a !! v) as [[]|].
    + rewrite Etc, lookup_insert_ne by done. by destruct (tcbs k !! v).
  - intros v ->%list_elem_of_singleton. exists tcb. split; [done|]. exists tcb'. by rewrite Etc, lookup_insert_eq.
  - by rewrite Er.
  - intros e ep' He. destruct (Se _ _ He) as (ep & He0 & E1 & E2 & E3). destruct (rl_ep _ _ RL _ _ He0) as (p & Hp & [L1 L2 L3]).
    exists p. rewrite Ep. split; [done|]. constructor; [by rewrite E1| |by rewrite E3]. rewrite E2.
    apply (links_ext (tcbs k)); [|done]. intros v Hv. rewrite Etc, lookup_insert_ne; [done|]. intros <-.
    destruct (proj1 (si_member _ I _ _ _ Hp) Hv) as [w Hw]. by eapply Hq.
  - intros e He. rewrite Ep in He. by apply Ge, (rl_port _ _ RL).
  - intros r rep Hr. rewrite Er in Hr. rewrite Ec. by apply (rl_rep _ _ RL).
  - intros r. rewrite Er, Ec. apply (rl_call _ _ RL).
  - intros ty kva v Hv H0. destruct (decide (v = t)) as [->|Hne]; [by apply Hself|].
    destruct (Hreg _ _ _ Hv H0) as [->|Hr0]; [done|]. destruct (rl_ready _ _ RL _ _ _ Hr0 H0) as [R1 R2 R3 (tc & R4 & R5 & R6)].
    constructor; [by rewrite (proj2 (Hst v Hne))|by apply Hb|by apply Hd|]. exists tc. rewrite Etc, lookup_insert_ne by done. done.
Qed.

Lemma idle_free a t : idle a t -> forall e w, ~ queued_at a t e w.
Proof. unfold idle. intros Hi e w (? & ? & ? & ?). congruence. Qed.

Definition wait_return (r : option (result Z NotificationError)) : option SyscallReturn :=
  match r with
  | None => None
  | Some (Ok v) => Some (Value (Ok v))
  | Some (Err AlreadyHasWaiter) => Some (Value (Err ALREADY_WAITING))
  | Some (Err _) => Some (Value (Err UNKNOWN))
  end.

(** What becomes of the specification when [t] returns [r] from a call that
    may leave it waiting with status [s]. *)
Definition spec_wait {A} (a : Spec) (t : Z) (s : Status) (r : option A) : Spec :=
  match r with None => with_status a (<[t := s]> (status a)) | Some _ => a end.

Lemma spec_wait_inv {A} a t s (r : option A) :
  SpecInv a -> idle a t -> (forall e w m tok r, s <> Queued e w m tok r) -> (forall r, s <> Awaiting r) -> SpecInv (spec_wait a t s r).
Proof. intros I Hi H1 H2. destruct r; cbn; [done|]. apply inv_plain; try done; [by apply idle_not_queued|by apply idle_not_awaiting]. Qed.

Lemma notification_wait_spec k a c t n threshold :
  Rel k a -> SpecInv a -> s_runs (sch k) c t -> idle a t -> is_Some (ntfs k !! n) ->
  exists r k', notification_wait k c n threshold = Ret (r, k') /\ Rel k' (spec_wait a t (OnNotification n) r).
Proof.
  intros RL I Hr Hi [o Hn]. destruct (running _ _ _ _ RL Hr) as (tcb & Ht & (T1 & T2 & T3 & T4) & Hc & H0 & Hnb).
  pose proof (runs_live _ _ _ _ RL Hr) as Lt. unfold notification_wait, ntf_at, tcb_at, wait. rewrite Hn. exec.
  destruct (threshold <=? value (nt_state o)).
  { exists (Some (Ok (value (nt_state o)))), k. split; [|done]. do 2 f_equal. destruct k, o. unfold with_ntf. cbn in *. f_equal. by apply insert_id. }
  destruct (has_waiter (nt_state o)) eqn:Hw; [by exists (Some (Err AlreadyHasWaiter)), k|].
  rewrite Hc. exec. rewrite Ht. exec. destruct (law_block (sch k) c t (rl_ok _ _ RL) Hr) as (s' & Hbk & Ok' & Hb & Hd & Hk).
  unfold suspend. fields. rewrite Hbk. exec. eexists _, _. split; [reflexivity|]. cbn [spec_wait].
  pose proof Hi as Hi'. unfold idle in Hi'. rewrite Hi' in T4.
  eapply (Rel_thread k _ a _ t tcb); fields; try done.
  - split_and!; fields; try done; [by eauto|]. intros x Hx. rewrite lookup_insert. case_decide; eauto.
  - intros v _. apply Hd.
  - intros v Hv Bv. apply Hb. by left.
  - by apply idle_free.
  - intros v Hv. cbn. by rewrite !lookup_insert_ne by done.
  - split_and!; [done|done|done|]. cbn [with_status status]. rewrite lookup_insert_eq. cbn. rewrite !lookup_insert_eq. by split_and!; [done|apply Hd, T4|eexists].
  - intros n' x Hx Hx'. cbn. rewrite lookup_insert in Hx. case_decide; simplify_eq; cbn in *.
    + rewrite lookup_insert_eq. split; [done|]. apply Hb. by right.
    + destruct (rl_ntf _ _ RL _ _ Hx Hx') as [E1 E2]. rewrite lookup_insert_ne by congruence. split; [done|]. apply Hb. by left.
  - intros ty kva v Hreg Hv. right. destruct ty; cbn in *; try done. destruct Hreg as (x & Hx & Hx'). lookups; eauto.
  - intros ty kva Hreg. exfalso. assert (registered k ty kva t) as Hr0.
    { destruct ty; cbn in *; try done. destruct Hreg as (x & Hx & Hx'). rewrite lookup_insert in Hx. case_decide; [injection Hx as <-; subst; by exists o|by exists x]. }
    destruct (rl_ready _ _ RL _ _ _ Hr0 H0). congruence.
Qed.

(** * Readiness of several objects *)

Definition states_ok (k : Kernel) : Prop := forall e ep, eps k !! e = Some ep -> is_Some (ep_from_raw (ep_state ep)).

Lemma Rel_states k a : Rel k a -> states_ok k.
Proof. intros RL e ep He. destruct (rl_ep _ _ RL _ _ He) as (p & _ & [L1 _ _]). rewrite L1, ep_raw_roundtrip. eauto. Qed.

Lemma check_readiness_returns k addrs types : forall ths,
  states_ok k -> Forall2 (object_live k) addrs types -> exists mask, check_readiness k addrs types ths = Ret mask.
Proof.
  intros ths Hs Hl. unfold check_readiness.
  assert (exists os, snapshots k addrs types ths = Ret os) as [os ->]; [|exec; eauto].
  revert ths. induction Hl as [|x ty addrs types Hx Hl IH]; intros ths; [by exists []|].
  destruct ths as [|th ths]; [by exists []|]. cbn [snapshots]. destruct (IH ths) as [os E]. rewrite E.
  destruct ty; cbn in Hx; try done; destruct Hx as [o Ho].
  - unfold ep_at, ep_state_at. rewrite Ho. exec. destruct (Hs _ _ Ho) as [st ->]. exec. eauto.
  - unfold ntf_at. rewrite Ho. exec. eauto.
Qed.

(** Every entry that [read_entries] accepts is a live endpoint or
    notification, and the address arithmetic does not overflow: the entry
    before was read inside the user range. *)
Lemma read_entries_spec k a load p slots entries_va n : forall i,
  Rel k a -> tables k !! p = Some slots -> 0 <= i -> entries_va + i * WAIT_ENTRY_BYTES < 2 ^ 64 ->
  exists r, read_entries load slots entries_va i n = Ret r /\
    forall l, r = Ok l -> length l = n /\ Forall (fun x => object_live k x.1.1 x.1.2) l.
Proof.
  induction n as [|n IH]; intros i RL Hp Hi Hva; cbn [read_entries]; [exists (Ok []); split; [done|]; by intros l [= <-]|].
  unfold add_chk. rewrite (proj2 (Z.ltb_lt _ _) Hva). exec. unfold user_read, validate_user_buffer, checked_add64.
  set (va := entries_va + i * WAIT_ENTRY_BYTES) in *.
  destruct (va + WAIT_ENTRY_BYTES <=? U64_MAX) eqn:E1; [|by eexists].
  destruct ((va <? USER_VA_END) && (va + WAIT_ENTRY_BYTES <=? USER_VA_END)) eqn:E2; cbn [negb]; [|by eexists].
  destruct (negb (Vmem.validate_intra_page _ _)); [by eexists|]. destruct (negb (_ =? 0)); [by eexists|].
  destruct (load va) as [entry|]; [|by eexists].
  destruct (lookup_any slots _ RIGHT_READ) as [he|e] eqn:El; [|by eexists]. apply lookup_any_ok in El as [El _].
  pose proof (rl_handles _ _ RL _ _ he Hp (list_elem_of_lookup_2 _ _ _ El)) as Hwf.
  apply andb_true_iff in E2 as [_ E2]. apply Z.leb_le in E2.
  assert (Hnext : entries_va + (i + 1) * WAIT_ENTRY_BYTES < 2 ^ 64).
  { unfold USER_VA_END in E2. unfold va, WAIT_ENTRY_BYTES in *. lia. }
  destruct (IH (i + 1) RL Hp ltac:(lia) Hnext) as (r & Er & Hr).
  destruct (h_kind he); try (by eexists); rewrite Er; exec; (eexists; split; [reflexivity|]);
    intros l; (destruct r as [l0|]; [intros [= <-]|done]); destruct (Hr l0 eq_refl) as [E3 E4]; cbn; (split; [by rewrite E3|by constructor]).
Qed.

(** ** Starting to wait *)

Lemma register_one k t ty kva th :
  object_live k kva ty ->
  exists k', set_readiness_waiter k ty kva t th = Ret k' /\ slots_only k k' /\
    tcbs k' = tcbs k /\ stacks k' = stacks k /\ sch k' = sch k /\ grows k k' /\
    (forall n o, ntfs k' !! n = Some o -> exists o0, ntfs k !! n = Some o0 /\ nt_state o = nt_state o0 /\ blocked_tcb_kva o = blocked_tcb_kva o0) /\
    (forall ty' kva' v, registered k' ty' kva' v -> registered k ty' kva' v \/ (v = t /\ ty' = ty /\ kva' = kva)).
Proof.
  intros Hl. destruct ty; cbn in Hl; try done; destruct Hl as [o Ho]; cbn [set_readiness_waiter]; unfold ep_at, ntf_at; rewrite Ho; exec;
    (eexists; split; [reflexivity|]); unfold waiter_register, slots_only.
  - split_and!; fields; try done.
    + intros e ep' He. rewrite lookup_insert in He. case_decide; [injection He as <-; subst; exists o; done|by exists ep'].
    + intros e He. rewrite lookup_insert. case_decide; eauto.
    + constructor; fields; [|done|done]. intros e He. rewrite lookup_insert. case_decide; eauto.
    + intros n o' Hn. by exists o'.
    + intros ty' kva' v Hr. destruct ty'; cbn in *; try (by left). destruct Hr as (x & Hx & <-). rewrite lookup_insert in Hx.
      case_decide; [injection Hx as <-; subst|left; by exists x]. cbn. destruct (Z.eqb_spec (ep_readiness o) 0); cbn; [by right|left; by exists o].
  - split_and!; fields; try done.
    + intros e ep' He. by exists ep'.
    + intros e He. rewrite lookup_insert. case_decide; eauto.
    + constructor; fields; [done|done|]. intros e He. rewrite lookup_insert. case_decide; eauto.
    + intros n o' Hn. rewrite lookup_insert in Hn. case_decide; [injection Hn as <-; subst; exists o; done|by exists o'].
    + intros ty' kva' v Hr. destruct ty'; cbn in *; try (by left). destruct Hr as (x & Hx & <-). rewrite lookup_insert in Hx.
      case_decide; [injection Hx as <-; subst|left; by exists x]. cbn. destruct (Z.eqb_spec (nt_readiness o) 0); cbn; [by right|left; by exists o].
Qed.

Lemma slots_only_refl k : slots_only k k.
Proof. split_and!; try done. eauto. Qed.

Lemma register_entries k t entries :
  (length entries <= 1)%nat -> Forall (fun x => object_live k x.1.1 x.1.2) entries ->
  exists k', register_all k t entries = Ret k' /\ slots_only k k' /\
    tcbs k' = tcbs k /\ stacks k' = stacks k /\ sch k' = sch k /\ grows k k' /\
    (forall n o, ntfs k' !! n = Some o -> exists o0, ntfs k !! n = Some o0 /\ nt_state o = nt_state o0 /\ blocked_tcb_kva o = blocked_tcb_kva o0) /\
    (forall ty kva v, registered k' ty kva v -> registered k ty kva v \/ (v = t /\ exists th, entries = [(kva, ty, th)])).
Proof.
  intros Hlen Hl. destruct entries as [|[[kva ty] th] [|]]; [| |cbn in Hlen; lia].
  - exists k. split_and!; try done; [apply slots_only_refl|intros n o Hn; by exists o|by left].
  - inversion Hl as [|? ? Hlive]; subst. cbn in Hlive.
    destruct (register_one k t ty kva th Hlive) as (k' & E & S1 & S2 & S3 & S4 & S5 & S6 & S7). exists k'. cbn [register_all]. rewrite E. exec.
    split_and!; try done. intros ty' kva' v Hr. destruct (S7 _ _ _ Hr) as [?|(-> & -> & ->)]; [by left|right; eauto].
Qed.

(** What the theorem asks of a [sys_wait_any]. *)
Definition single_wait (count : nat) (deadline : Z) : Prop := count = 0%nat \/ (count = 1%nat /\ deadline = no_deadline).

Lemma wait_any_spec k a c t load entries_va count deadline now :
  Rel k a -> SpecInv a -> s_runs (sch k) c t -> idle a t -> 0 <= entries_va < 2 ^ 64 -> single_wait count deadline ->
  exists r k', sys_wait_any k c load entries_va count deadline now = Ret (r, k') /\ Rel k' (spec_wait a t OnAny r).
Proof.
  intros RL I Hr Hi Hva Hsw. destruct (running _ _ _ _ RL Hr) as (tcb & Ht & (T1 & T2 & T3 & T4) & Hc & H0 & Hnb).
  pose proof (runs_live _ _ _ _ RL Hr) as Lt.
  unfold sys_wait_any. destruct (negb (validate_wait_count count)); [by eexists _, _|].
  destruct (bool_decide (count <> 0%nat) && bool_decide (load = None)); [by eexists _, _|]. rewrite Hc. exec.
  assert (exists r, match count, load with
      | Datatypes.S _, Some load => slots ← handle_table k c; read_entries load slots entries_va 0 count
      | _, _ => Ret (Ok [])
      end = Ret r /\ forall l, r = Ok l -> (length l <= count)%nat /\ Forall (fun x => object_live k x.1.1 x.1.2) l) as (r & -> & Hrd).
  { destruct count as [|n]; [exists (Ok []); split; [done|]; by intros l [= <-]|].
    destruct load as [load|]; [|exists (Ok []); split; [done|]; intros l [= <-]; split; [cbn; lia|done]].
    destruct T1 as [slots Hsl]. unfold handle_table, tcb_at. rewrite Hc. exec. rewrite Ht. exec. rewrite Hsl. exec.
    destruct (read_entries_spec k a load _ slots entries_va (Datatypes.S n) 0 RL Hsl) as (r & Er & Hr'); [done|unfold WAIT_ENTRY_BYTES; lia|].
    exists r. split; [done|]. intros l El. destruct (Hr' l El) as [-> ?]. done. }
  exec. destruct r as [entries|e]; [|by eexists _, _]. destruct (Hrd entries eq_refl) as [Hlen Hlive].
  set (addrs := map (fun x => x.1.1) entries) in *. set (types := map (fun x => x.1.2) entries) in *. set (ths := map snd entries) in *.
  assert (F2 : Forall2 (object_live k) addrs types) by (subst addrs types; by apply Forall2_fmap, Forall_Forall2_diag).
  destruct (check_readiness_returns k addrs types ths (Rel_states _ _ RL) F2) as [mask ->]. exec.
  destruct (negb (mask =? 0)); [by eexists _, _|]. destruct (deadline_expired deadline now); [by eexists _, _|].
  destruct (register_entries k t entries) as (k1 & E1 & S1 & S2 & S3 & S4 & G & S6 & S7); [destruct Hsw as [->|[-> _]]; lia|done|].
  rewrite E1. exec. unfold tcb_at. rewrite S2, S4, Ht. exec.
  destruct (law_deadline (sch k) c t deadline (rl_ok _ _ RL) Hr) as (s1 & Hdl & Ok1 & Hb1 & Hd1 & Hk1 & Hr1). rewrite Hdl. exec.
  destruct (law_block s1 c t Ok1 (Hr1 _ _ Hr)) as (s2 & Hbk & Ok2 & Hb2 & Hd2 & Hk2). unfold suspend. fields. rewrite Hbk. exec.
  eexists _, _. split; [reflexivity|]. cbn [spec_wait]. pose proof Hi as Hi'. unfold idle in Hi'.
  assert (Ed : forall kva ty th, entries = [(kva, ty, th)] -> deadline = no_deadline).
  { intros kva ty th ->. destruct Hsw as [->|[_ ?]]; [cbn in Hlen; lia|done]. }
  eapply (Rel_thread k _ a _ t tcb); fields; try done.
  - intros v Hv. by apply Hk1, Hk2.
  - intros v Hv Hvd. apply Hd2. by rewrite Hd1, decide_False by done.
  - intros v Hv Bv. apply Hb2. left. by apply Hb1.
  - by apply idle_free.
  - by rewrite S2.
  - intros v Hv. cbn. by rewrite S3, !lookup_insert_ne by done.
  - destruct S1 as (_ & _ & _ & _ & Stab). split_and!; [by cbn; rewrite Stab|done|done|]. cbn [with_status status]. rewrite lookup_insert_eq. cbn.
    rewrite lookup_insert_eq. exists addrs, types, ths. split_and!; try done; [subst addrs ths; by rewrite !length_map|].
    eapply Forall2_impl; [done|]. intros x y Hxy. eapply (object_live_grows k); [destruct G; by constructor|done].
  - intros n o Hn Hw. destruct (S6 _ _ Hn) as (o0 & Hn0 & Es & Eb). rewrite Es in Hw. rewrite Eb.
    destruct (rl_ntf _ _ RL _ _ Hn0 Hw) as [N1 N2]. cbn. rewrite lookup_insert_ne by congruence. split; [done|]. apply Hb2. left. by apply Hb1.
  - intros ty kva v Hreg Hv. destruct (S7 ty kva v) as [?|[-> _]]; [by destruct ty|by right|by left].
  - intros ty kva Hreg. destruct (S7 ty kva t) as [Hr0|(_ & th & Ee)]; [by destruct ty| |].
    + exfalso. destruct (rl_ready _ _ RL _ _ _ Hr0 H0). congruence.
    + constructor; fields; [by cbn; rewrite lookup_insert_eq|apply Hb2; by right|apply Hd2; rewrite Hd1, decide_True by done; by eapply Ed|].
      eexists. rewrite lookup_insert_eq. split; [done|]. subst addrs types. by rewrite Ee.
Qed.

(** ** Ending the wait *)

(** [k'] is [k] with some readiness slots emptied. *)
Record cleared (k k' : Kernel) : Prop := {
  cl_slots : slots_only k k';
  cl_tcbs : tcbs k' = tcbs k;
  cl_stacks : stacks k' = stacks k;
  cl_sch : sch k' = sch k;
  cl_ntfs : forall n o, ntfs k' !! n = Some o ->
    exists o0, ntfs k !! n = Some o0 /\ nt_state o = nt_state o0 /\ blocked_tcb_kva o = blocked_tcb_kva o0;
  cl_reg : forall ty kva v, registered k' ty kva v -> v <> 0 -> registered k ty kva v;
}.

Lemma cleared_grows k k' : cleared k k' -> grows k k'.
Proof. intros [(_ & H1 & H2 & H3 & _) _ _ _ _ _]. constructor; [done|by rewrite H3|done]. Qed.

Lemma cleared_refl k : cleared k k.
Proof. constructor; try done; [apply slots_only_refl|eauto]. Qed.

Lemma cleared_trans k1 k2 k3 : cleared k1 k2 -> cleared k2 k3 -> cleared k1 k3.
Proof.
  intros [(A1 & A2 & A3 & A4 & A5) B1 B2 B3 B4 B5] [(C1 & C2 & C3 & C4 & C5) D1 D2 D3 D4 D5]. constructor; try congruence.
  - split_and!; [|by auto|by auto|congruence|congruence]. intros e ep He. destruct (C1 _ _ He) as (ep1 & Q1 & ? & ? & ?).
    destruct (A1 _ _ Q1) as (ep2 & Q2 & ? & ? & ?). exists ep2. split_and!; congruence.
  - intros n o Hn. destruct (D4 _ _ Hn) as (o1 & Q1 & ? & ?). destruct (B4 _ _ Q1) as (o2 & Q2 & ? & ?). exists o2. split_and!; congruence.
  - intros ty kva v Hr Hv. apply (B5 ty kva v); [|done]. by apply (D5 ty kva v).
Qed.

Lemma clear_one k t ty kva :
  t <> 0 -> object_live k kva ty ->
  exists k', clear_readiness_waiter k ty kva t = Ret k' /\ cleared k k' /\ ~ registered k' ty kva t.
Proof.
  intros H0 Hl. destruct ty; cbn in Hl; try done; destruct Hl as [o Ho]; cbn [clear_readiness_waiter]; unfold ep_at, ntf_at; rewrite Ho; exec;
    (eexists; split; [reflexivity|]); unfold waiter_clear_if_match; rewrite (proj2 (Z.eqb_neq t 0) H0), andb_true_r.
  - split; [constructor; fields; try done|].
    + split_and!; fields; try done.
      * intros e ep' He. rewrite lookup_insert in He. case_decide; [injection He as <-; subst; exists o; done|by exists ep'].
      * intros e He. rewrite lookup_insert. case_decide; eauto.
    + intros n o' Hn. by exists o'.
    + intros ty' kva' v Hr Hv. destruct ty'; cbn in *; try done. destruct Hr as (x & Hx & <-). rewrite lookup_insert in Hx.
      case_decide; [injection Hx as <-; subst|by exists x]. cbn in *. destruct (Z.eqb_spec (ep_readiness o) t); cbn in *; [done|by exists o].
    + cbn. rewrite lookup_insert_eq. intros (x & [= <-] & Hx). cbn in Hx. destruct (Z.eqb_spec (ep_readiness o) t); cbn in *; congruence.
  - split; [constructor; fields; try done|].
    + split_and!; fields; try done; [by eauto|]. intros e He. rewrite lookup_insert. case_decide; eauto.
    + intros n o' Hn. rewrite lookup_insert in Hn. case_decide; [injection Hn as <-; subst; exists o; done|by exists o'].
    + intros ty' kva' v Hr Hv. destruct ty'; cbn in *; try done. destruct Hr as (x & Hx & <-). rewrite lookup_insert in Hx.
      case_decide; [injection Hx as <-; subst|by exists x]. cbn in *. destruct (Z.eqb_spec (nt_readiness o) t); cbn in *; [done|by exists o].
    + cbn. rewrite lookup_insert_eq. intros (x & [= <-] & Hx). cbn in Hx. destruct (Z.eqb_spec (nt_readiness o) t); cbn in *; congruence.
Qed.

Lemma obj_type_roundtrip (k : Kernel) kva ty : object_live k kva ty -> obj_type_from_u8 (obj_type_to_u8 ty) = ty.
Proof. by destruct ty. Qed.

Lemma unregister_spec t addrs types : forall k : Kernel,
  t <> 0 -> Forall2 (object_live k) addrs types ->
  exists k', unregister_all k t addrs (map obj_type_to_u8 types) = Ret k' /\ cleared k k' /\
    forall ty kva, (kva, ty) ∈ zip addrs types -> ~ registered k' ty kva t.
Proof.
  revert types. induction addrs as [|x addrs IH]; intros types k H0 Hl; inversion Hl as [|? ty ? types' Hx Hl' E1 E2]; subst.
  - exists k. split_and!; [done|apply cleared_refl|]. intros ty kva Hin. by apply elem_of_nil in Hin.
  - destruct (clear_one k t ty x H0 Hx) as (k1 & E1 & C1 & N1).
    destruct (IH types' k1 H0) as (k' & E2 & C2 & N2).
    { eapply Forall2_impl; [done|]. intros. by eapply object_live_grows; [apply cleared_grows|]. }
    exists k'. cbn [unregister_all map]. rewrite (obj_type_roundtrip k x ty Hx), E1. exec. split_and!; [done|by eapply cleared_trans|].
    intros ty' kva [[= -> ->]|Hin]%elem_of_cons; [|by apply N2]. intros Hr. by apply N1, (cl_reg _ _ C2).
Qed.

Lemma cleared_states k k' : cleared k k' -> states_ok k -> states_ok k'.
Proof. intros [(A1 & _) _ _ _ _ _] Hs e ep He. destruct (A1 _ _ He) as (ep0 & H0 & -> & _). by eapply Hs. Qed.

Definition spec_drop (a : Spec) (t : Z) : Spec := with_status a (delete t (status a)).

(** The thread leaves its call; its objects no longer name it. *)
Lemma Rel_drop k k' a t tcb tcb' s' :
  Rel k a -> SpecInv a -> cleared k k' -> s_ok s' ->
  (forall v, s_known s' v -> s_known (sch k) v) -> (forall v, s_blocked s' v <-> s_blocked (sch k) v) ->
  (forall v, v <> t -> s_deadline s' v = s_deadline (sch k) v) -> s_deadline s' t = no_deadline ->
  (forall e w, ~ queued_at a t e w) -> ~ s_blocked (sch k) t ->
  tcbs k !! t = Some tcb -> (is_Some (tables k !! process_kva tcb')) -> current_reply_kva tcb' = current_reply_kva tcb ->
  last_caller_token tcb' = last_caller_token tcb ->
  (forall ty kva, ~ registered k' ty kva t) ->
  Rel (mkK (eps k') (reps k') (ntfs k') (<[t := tcb']> (tcbs k')) (tables k') (delete t (stacks k')) s') (spec_drop a t).
Proof.
  intros RL I C Ok' Hk Hb Hd Hdt Hq Hnb Ht Hp Hc Hl Hreg. destruct (rl_thread _ _ RL _ _ Ht) as (T1 & T2 & T3 & T4).
  destruct (cl_slots _ _ C) as (A1 & A2 & A3 & A4 & A5).
  eapply (Rel_thread k _ a _ t tcb); fields; try done.
  - intros v Hv Hvd. by rewrite Hd.
  - intros v Hv Bv. by apply Hb.
  - by rewrite (cl_tcbs _ _ C).
  - intros v Hv. cbn. by rewrite (cl_stacks _ _ C), !lookup_delete_ne by done.
  - split_and!; [by cbn; rewrite A5|by rewrite Hc|by rewrite Hl|]. cbn. by rewrite lookup_delete_eq; cbn; rewrite lookup_delete_eq.
  - intros n o Hn Hw. destruct (cl_ntfs _ _ C _ _ Hn) as (o0 & Hn0 & Es & Eb). rewrite Es in Hw. rewrite Eb.
    destruct (rl_ntf _ _ RL _ _ Hn0 Hw) as [N1 N2]. cbn. rewrite lookup_delete_ne; [split; [done|by apply Hb]|]. intros E. apply Hnb. by rewrite E.
  - intros ty kva v Hr Hv. right. apply (cl_reg _ _ C); [by destruct ty|done].
  - intros ty kva Hr. destruct (Hreg ty kva). by destruct ty.
Qed.

Lemma insert_self {A} (m : gmap Z A) i x : m !! i = Some x -> <[i := x]> m = m.
Proof. apply insert_id. Qed.

Lemma resume_spec k a c t :
  Rel k a -> SpecInv a -> s_runs (sch k) c t -> ~ idle a t ->
  exists r k', resume k c = Ret (Some r, k') /\ Rel k' (spec_drop a t) /\ SpecInv (spec_drop a t) /\
    forall ret, status a !! t = Some (Completed ret) -> r = ret.
Proof.
  intros RL I Hr Hi. destruct (running _ _ _ _ RL Hr) as (tcb & Ht & (T1 & T2 & T3 & T4) & Hc & H0 & Hnb).
  unfold resume. rewrite Hc. exec.
  pose proof (runs_live _ _ _ _ RL Hr) as Lt.
  assert (Hq : forall e w m tok r, status a !! t <> Some (Queued e w m tok r)).
  { intros e w m tok r E. rewrite E in T4. by destruct T4 as (_ & _ & ? & _). }
  assert (Ha : forall r, status a !! t <> Some (Awaiting r)).
  { intros r E. rewrite E in T4. by destruct T4 as (_ & _ & ?). }
  assert (I' : SpecInv (spec_drop a t)) by (by apply inv_drop).
  assert (Hq' : forall e w, ~ queued_at a t e w) by (intros e w (? & ? & ? & ?); by eapply Hq).
  assert (Hreg : status a !! t <> Some OnAny -> forall ty kva, ~ registered k ty kva t).
  { intros Hn ty kva Hg. by destruct (rl_ready _ _ RL _ _ _ Hg H0). }
  assert (Hplain : status a !! t <> Some OnAny -> s_deadline (sch k) t = no_deadline ->
    Rel (with_stacks k (delete t (stacks k))) (spec_drop a t)).
  { intros Hn Hd. pose proof (Rel_drop k k a t tcb tcb (sch k) RL I (cleared_refl k)) as RD. rewrite (insert_self _ _ _ Ht) in RD.
    apply RD; try done; [apply RL|by apply Hreg]. }
  destruct (status a !! t) as [[e w m tok r|r|ret|n|]|] eqn:Es; [by edestruct Hq|by edestruct Ha| | | |by destruct Hi].
  - destruct T4 as (Hd & x & Hx & Hret). rewrite Hx. exec. unfold tcb_at. fields. rewrite Ht. exec.
    destruct x; cbn in Hret; try done; injection Hret as <-; exec; (eexists _, _; split; [reflexivity|]);
      (split_and!; [by apply Hplain|done|by intros ret [= <-]]).
  - destruct T4 as (Hx & Hd & [o Ho]). rewrite Hx. exec. unfold ntf_at. fields. rewrite Ho. exec. eexists _, _. split; [reflexivity|].
    split_and!; [by apply Hplain|done|done].
  - destruct T4 as (addrs & types & ths & Hx & Ew & Et & El & F2). rewrite Hx. exec.
    destruct (law_deadline (sch k) c t no_deadline (rl_ok _ _ RL) Hr) as (s1 & Hdl & Ok1 & Hb1 & Hd1 & Hk1 & _). rewrite Hdl. exec.
    pose proof (fun v => law_deadline_live _ _ _ _ v Hdl) as Ls. unfold tcb_at. fields. rewrite Ht. exec. rewrite Ew, Et.
    set (k1 := with_sch (with_stacks k (delete t (stacks k))) s1).
    destruct (unregister_spec t addrs types k1 H0 F2) as (k2 & E2 & C2 & N2). rewrite E2. exec. rewrite (cl_tcbs _ _ C2), (cl_sch _ _ C2). subst k1. fields.
    rewrite Ht. exec.
    set (k3 := with_tcb k2 t (set_wait tcb [] [])).
    assert (F3 : Forall2 (object_live k3) addrs types).
    { eapply Forall2_impl; [exact F2|]. intros x y Hxy. apply (object_live_grows k2); [by constructor|].
      apply (object_live_grows (with_sch (with_stacks k (delete t (stacks k))) s1)); [by apply cleared_grows|]. by destruct y. }
    rewrite !firstn_all2; [|lia|by rewrite (Forall2_length _ _ _ F2)|lia].
    destruct (check_readiness_returns k3 addrs types ths) as [mask ->]; [|done|].
    { exact (cleared_states _ k2 C2 (Rel_states _ _ RL)). }
    exec. eexists _, _. split; [reflexivity|]. split_and!; [|done|done].
    (* the kernel before with the same slots emptied *)
    assert (C : cleared k (mkK (eps k2) (reps k2) (ntfs k2) (tcbs k2) (tables k2) (stacks k) (sch k))).
    { destruct C2 as [B1 B2 B3 B4 B5 B6]. by constructor. }
    pose proof (Rel_drop k _ a t tcb (set_wait tcb [] []) s1 RL I C Ok1 Hk1 Hb1) as RD. revert RD. fields. intros RD.
    subst k3. destruct C2 as [B1 B2 B3 B4 B5 B6]. cbn in B3, B4. unfold with_tcb. rewrite B3, B4. apply RD; try done.
    + intros v Hv. by rewrite Hd1, decide_False by done.
    + by rewrite Hd1, decide_True by done.
    + intros ty kva Hg. assert (registered k ty kva t) as Hg0 by (by apply (cl_reg _ _ C)).
      destruct (rl_ready _ _ RL _ _ _ Hg0 H0) as [_ _ _ (tc & G1 & G2 & G3)]. assert (tc = tcb) as -> by congruence.
      apply (N2 ty kva); [|by destruct ty]. rewrite Ew in G2. rewrite Et in G3. rewrite G2 in F2 |- *.
      destruct types as [|ty' [|]]; try done. cbn in G3. assert (ty' = ty) as ->; [|by left].
      injection G3 as G3. inversion F2 as [|? ? ? ? Hlive]; subst. destruct ty', ty; cbn in *; done.
Qed.

(** * System calls *)

(** The call of thread [t] with the handle table [slots]. *)
Definition spec_enter (slots : list HandleEntry) (a : Spec) (t : Z) (call : Sys) (r : option SyscallReturn) (a' : Spec) : Prop :=
  match call with
  | SysSend x0 msg =>
      (r, a') = match lookup slots (wrap 32 x0) RIGHT_WRITE OTEndpoint with
                | Err e => (Some (Void e), a)
                | Ok entry =>
                    match h_kind entry with
                    | HEndpoint e (Some tok) => spec_send a t e msg tok
                    | _ => (Some (Void INVALID_PARAMETER), a)
                    end
                end
  | SysReceive x0 =>
      (r, a') = match lookup slots (wrap 32 x0) RIGHT_READ OTEndpoint with
                | Err e => (Some (Message e []), a)
                | Ok entry =>
                    match h_kind entry with
                    | HEndpoint e _ => spec_receive a t e
                    | _ => (Some (Message INVALID_PARAMETER []), a)
                    end
                end
  | SysRecvNb x0 =>
      (r, a') = match lookup slots (wrap 32 x0) RIGHT_READ OTEndpoint with
                | Err e => (Some (Message e []), a)
                | Ok entry =>
                    match h_kind entry with
                    | HEndpoint e _ => spec_recv_nb a t e
                    | _ => (Some (Message INVALID_PARAMETER []), a)
                    end
                end
  | SysCall x0 x1 msg =>
      let rw := Z.lor RIGHT_READ RIGHT_WRITE in
      (r, a') = match lookup slots (wrap 32 x0) rw OTEndpoint, lookup slots (wrap 32 x1) rw OTReply with
                | Err e, _ => (Some (Message e []), a)
                | Ok _, Err e => (Some (Message e []), a)
                | Ok entry, Ok reply =>
                    match h_kind entry, h_kind reply with
                    | HEndpoint e (Some tok), HReply rp => spec_call a t e rp msg tok
                    | _, _ => (Some (Message INVALID_PARAMETER []), a)
                    end
                end
  | SysReply msg => (r, a') = spec_reply a t msg
  | SysQueryCallerToken => (r, a') = (Some (Value (Ok (default 0 (sender a !! t)))), a)
  | SysSignal _ _ => is_Some r /\ a' = a
  | SysWaitNotification _ _ => exists n, a' = spec_wait a t (OnNotification n) r
  | SysWaitAny _ _ _ _ _ => a' = spec_wait a t OnAny r
  end.

Definition call_ok (call : Sys) : Prop :=
  match call with SysWaitAny _ _ count deadline _ => single_wait count deadline | _ => True end.

(** The register that holds an address is 64 bits wide. *)
Definition register_ok (call : Sys) : Prop :=
  match call with SysWaitAny _ entries_va _ _ _ => 0 <= entries_va < 2 ^ 64 | _ => True end.

Lemma recv_nb_spec k a c t e :
  Rel k a -> SpecInv a -> s_runs (sch k) c t -> idle a t -> is_Some (eps k !! e) ->
  exists r k', ipc_receive_nb k c e = Ret (r, k') /\ message_return r nb_error = (spec_recv_nb a t e).1 /\
    Rel k' (spec_recv_nb a t e).2 /\ SpecInv (spec_recv_nb a t e).2.
Proof.
  intros RL I Hr Hi [ep He]. destruct (port_of _ _ _ _ RL He) as (p & Hp & Hl & Hst).
  unfold ipc_receive_nb, spec_recv_nb, ep_at. rewrite He. exec. rewrite Hst, bind_Ret, Hp.
  destruct p as [[|u ts]|u]; [by eexists _, _| |by eexists _, _]. cbn [port_state]. rewrite bool_decide_eq_true_2 by done. cbn [negb].
  destruct (receive_spec k a c t e RL I Hr Hi ltac:(by eauto)) as (r & k' & E & Er & RL' & I'). exists r, k'. split_and!; try done.
  rewrite <- Er. destruct r as [[m|err]|]; [done| |done]. revert E. clear -Hr Hp Hst RL He SL.
  (* an error of the receive is not [WouldBlock] *)
  pose proof (runs_live _ _ _ _ RL Hr) as Lt.
  unfold ipc_receive, ep_at, tcb_at. destruct (running _ _ _ _ RL Hr) as (tcb & Ht & _ & Hc & _). rewrite Hc. exec. rewrite He. exec.
  rewrite Hst, bind_Ret, Ht. exec.
  destruct (bool_decide _ && _); [destruct (tcbs k !! queue_head ep) as [h|]; [|done]; exec; destruct (tcb_live (sch k) (queue_head ep)); [|done]|]; exec;
    unfold decide_receive; repeat case_match; try done; intros E; repeat (apply bind_Ret_inv in E as (? & ? & E)); by simplify_eq.
Qed.

Lemma table_of k a c t tcb :
  Rel k a -> s_runs (sch k) c t -> tcbs k !! t = Some tcb ->
  exists slots, tables k !! process_kva tcb = Some slots /\ handle_table k c = Ret slots.
Proof.
  intros RL Hr Ht. destruct (running _ _ _ _ RL Hr) as (x & Hx & (T1 & _) & Hc & _). assert (x = tcb) as -> by congruence.
  destruct T1 as [slots Hs]. exists slots. split; [done|]. pose proof (runs_live _ _ _ _ RL Hr) as Lt.
  unfold handle_table, tcb_at. rewrite Hc. exec. rewrite Ht. exec. by rewrite Hs.
Qed.

Lemma handle_kind k a p slots handle rights ty entry :
  Rel k a -> tables k !! p = Some slots -> lookup slots handle rights ty = Ok entry -> handle_wf k (h_kind entry).
Proof. intros RL Hp El. apply lookup_ok in El as [El _]. eapply (rl_handles _ _ RL); [done|]. by eapply list_elem_of_lookup_2. Qed.

Lemma enter_spec k a c t tcb call :
  Rel k a -> SpecInv a -> s_runs (sch k) c t -> idle a t -> tcbs k !! t = Some tcb -> register_ok call -> call_ok call ->
  exists slots r k' a', tables k !! process_kva tcb = Some slots /\ ipc_syscall k c call = Ret (r, k') /\
    spec_enter slots a t call r a' /\ Rel k' a' /\ SpecInv a'.
Proof.
  intros RL I Hr Hi Ht Hreg Hok. destruct (table_of _ _ _ _ _ RL Hr Ht) as (slots & Hs & Htab). exists slots.
  destruct call as [h msg|h|h h' msg|msg|h|h v|h th|load va count dl now|]; cbn [ipc_syscall spec_enter].
  - unfold sys_send, op_send. rewrite Htab. exec. destruct (lookup slots (wrap 32 h) _ _) as [en|e] eqn:El; [|by eexists _, _, _].
    pose proof (handle_kind _ _ _ _ _ _ _ _ RL Hs El) as Hw. destruct (h_kind en) as [| | |e [tok|]| | | |]; try (by eexists _, _, _).
    destruct (send_spec k a c t e msg tok RL I Hr Hi Hw) as (r & k' & E & Er & RL' & I'). rewrite E. exec.
    eexists _, _, _. split_and!; [done|done| |done|done]. rewrite (surjective_pairing (spec_send a t e msg tok)), <- Er. by destruct r as [[]|].
  - unfold sys_receive, op_receive. rewrite Htab. exec. destruct (lookup slots (wrap 32 h) _ _) as [en|e] eqn:El; [|by eexists _, _, _].
    pose proof (handle_kind _ _ _ _ _ _ _ _ RL Hs El) as Hw. destruct (h_kind en) as [| | |e tok| | | |]; try (by eexists _, _, _).
    destruct (receive_spec k a c t e RL I Hr Hi Hw) as (r & k' & E & Er & RL' & I'). rewrite E. exec.
    eexists _, _, _. split_and!; [done|done| |done|done]. by rewrite (surjective_pairing (spec_receive a t e)), <- Er.
  - unfold sys_call, op_call. rewrite Htab. exec. destruct (lookup slots (wrap 32 h) _ _) as [en|e] eqn:El; [|by eexists _, _, _].
    destruct (lookup slots (wrap 32 h') _ _) as [en'|e'] eqn:El'; [|by eexists _, _, _].
    pose proof (handle_kind _ _ _ _ _ _ _ _ RL Hs El) as Hw. pose proof (handle_kind _ _ _ _ _ _ _ _ RL Hs El') as Hw'.
    destruct (h_kind en) as [| | |e [tok|]| | | |]; try (by eexists _, _, _). destruct (h_kind en') as [| | | | |rp| |]; try (by eexists _, _, _).
    destruct (ipc_call_spec k a c t e rp msg tok RL I Hr Hi Hw Hw') as (r & k' & E & Er & RL' & I'). rewrite E. exec.
    eexists _, _, _. split_and!; [done|done| |done|done]. by rewrite (surjective_pairing (spec_call a t e rp msg tok)), <- Er.
  - unfold sys_reply. destruct (reply_spec k a c t msg RL I Hr Hi) as (r & k' & E & Er & RL' & I'). rewrite E. exec.
    eexists _, _, _. split_and!; [done|done| |done|done]. by rewrite (surjective_pairing (spec_reply a t msg)), <- Er.
  - unfold sys_recv_nb, op_recv_nb. rewrite Htab. exec. destruct (lookup slots (wrap 32 h) _ _) as [en|e] eqn:El; [|by eexists _, _, _].
    pose proof (handle_kind _ _ _ _ _ _ _ _ RL Hs El) as Hw. destruct (h_kind en) as [| | |e tok| | | |]; try (by eexists _, _, _).
    destruct (recv_nb_spec k a c t e RL I Hr Hi Hw) as (r & k' & E & Er & RL' & I'). rewrite E. exec.
    eexists _, _, _. split_and!; [done|done| |done|done]. by rewrite (surjective_pairing (spec_recv_nb a t e)), <- Er.
  - unfold sys_signal_notification, op_signal_notification. rewrite Htab. exec. destruct (lookup slots (wrap 32 h) _ _) as [en|e] eqn:El; [|by eexists _, _, a; eauto].
    pose proof (handle_kind _ _ _ _ _ _ _ _ RL Hs El) as Hw. destruct (h_kind en) as [| | | |n| | |]; try (by eexists _, _, a; eauto).
    destruct (signal_spec k a n v RL Hw) as (r & k' & E & RL'). rewrite E. exec. eexists _, _, a.
    split_and!; [done|done|by destruct r as [|[]]; eauto|done|done|done].
  - unfold sys_wait_notification, op_wait_notification. rewrite Htab. exec.
    destruct (lookup slots (wrap 32 h) _ _) as [en|e] eqn:El; [|eexists _, _, a; split_and!; try done; by exists 0].
    pose proof (handle_kind _ _ _ _ _ _ _ _ RL Hs El) as Hw.
    destruct (h_kind en) as [| | | |n| | |]; try (eexists _, _, a; split_and!; try done; by exists 0).
    destruct (notification_wait_spec k a c t n th RL I Hr Hi Hw) as (r & k' & E & RL'). rewrite E. exec.
    eexists _, _, _. split_and!; [done|done| |exact RL'|by apply spec_wait_inv]. exists n. by destruct r as [[|[]]|].
  - destruct (wait_any_spec k a c t load va count dl now RL I Hr Hi Hreg Hok) as (r & k' & E & RL').
    eexists _, _, _. split_and!; [done|exact E|done|done|by apply spec_wait_inv].
  - unfold sys_query_caller_token. destruct (running _ _ _ _ RL Hr) as (x & Hx & (_ & _ & T3 & _) & Hc & _). assert (x = tcb) as -> by congruence.
    pose proof (runs_live _ _ _ _ RL Hr) as Lt. rewrite Hc. exec. unfold tcb_at. rewrite Ht. exec. rewrite T3. by eexists _, _, _.
Qed.

(** * Events and histories *)

(** When an event can happen: a thread enters a call when it runs and is in
    none, and returns from one when the scheduler runs it again; an interrupt
    is bound to a notification. *)
Definition occurs (k : Kernel) (ev : Event) : Prop :=
  match ev with
  | Enter c call => (exists t, s_runs (sch k) c t /\ stacks k !! t = None) /\ register_ok call
  | Resume c => exists t, s_runs (sch k) c t /\ is_Some (stacks k !! t)
  | Irq n => is_Some (ntfs k !! n)
  | Between e => s_enabled (sch k) e
  end.

(** What safety asks of a history beyond that. A thread leaves
    [block_current] on the CPU it entered it on; *)
Definition stays_put (k : Kernel) (ev : Event) : Prop :=
  match ev with Between e => s_stays (sch k) e | _ => True end.

(** an interrupt finds the counter of its notification below the largest
    64-bit number; *)
Definition counter_left (k : Kernel) (ev : Event) : Prop :=
  match ev with Irq n => forall o, ntfs k !! n = Some o -> value (nt_state o) < U64_MAX | _ => True end.

(** and no thread waits for more than one thing at once. *)
Definition one_wait (_ : Kernel) (ev : Event) : Prop :=
  match ev with Enter _ call => call_ok call | _ => True end.

(** Every event has [P] when it happens. *)
Fixpoint along (P : Kernel -> Event -> Prop) (k : Kernel) (evs : list Event) : Prop :=
  match evs with
  | [] => True
  | ev :: evs' => P k ev /\ forall x, handle k ev = Ret x -> along P x.2 evs'
  end.

(** What the specification says of an event in a kernel state [k], of which
    only the running threads and the handle tables matter. *)
Definition spec_event (k : Kernel) (a : Spec) (ev : Event) (r : option SyscallReturn) (a' : Spec) : Prop :=
  match ev with
  | Enter c call => exists t tcb slots, s_runs (sch k) c t /\ tcbs k !! t = Some tcb /\ tables k !! process_kva tcb = Some slots /\
      spec_enter slots a t call r a'
  | Resume c => exists t, s_runs (sch k) c t /\ is_Some r /\ a' = spec_drop a t /\
      forall ret, status a !! t = Some (Completed ret) -> r = Some ret
  | Irq _ | Between _ => r = None /\ a' = a
  end.

(** The specification follows a history. *)
Inductive follows : Kernel -> Spec -> list Event -> list (option SyscallReturn) -> Kernel -> Spec -> Prop :=
  | follows_nil k a : follows k a [] [] k a
  | follows_cons k a ev evs r rs k1 a1 k' a' :
      handle k ev = Ret (r, k1) -> spec_event k a ev r a1 -> follows k1 a1 evs rs k' a' ->
      follows k a (ev :: evs) (r :: rs) k' a'.

Lemma stack_idle k a t tcb : Rel k a -> tcbs k !! t = Some tcb -> (stacks k !! t = None <-> idle a t).
Proof.
  intros RL Ht. destruct (rl_thread _ _ RL _ _ Ht) as (_ & _ & _ & T4). unfold idle. revert T4.
  destruct (status a !! t) as [[]|]; cbn; intros T4; split; intros E; try done; [..|by destruct T4];
    repeat match goal with X : _ /\ _ |- _ => destruct X | X : exists _, _ |- _ => destruct X end; congruence.
Qed.

Lemma event_spec k a ev :
  Rel k a -> SpecInv a -> occurs k ev -> stays_put k ev -> counter_left k ev -> one_wait k ev ->
  exists r k' a', handle k ev = Ret (r, k') /\ spec_event k a ev r a' /\ Rel k' a' /\ SpecInv a'.
Proof.
  intros RL I Hc Hst Hv Hok. destruct ev as [c call|c|n|e]; cbn [handle occurs stays_put counter_left one_wait spec_event] in *.
  - destruct Hc as [(t & Hr & Hs) Hreg]. destruct (running _ _ _ _ RL Hr) as (tcb & Ht & _).
    destruct (enter_spec k a c t tcb call RL I Hr (proj1 (stack_idle _ _ _ _ RL Ht) Hs) Ht Hreg Hok) as (slots & r & k' & a' & E1 & E2 & E3 & RL' & I').
    exists r, k', a'. split_and!; try done. by exists t, tcb, slots.
  - destruct Hc as (t & Hr & Hs). destruct (running _ _ _ _ RL Hr) as (tcb & Ht & _).
    assert (~ idle a t) as Hi by (intros Hi; apply (stack_idle _ _ _ _ RL Ht) in Hi; destruct Hs; congruence).
    destruct (resume_spec k a c t RL I Hr Hi) as (r & k' & E & RL' & I' & Hret). exists (Some r), k', (spec_drop a t). split_and!; try done.
    exists t. split_and!; eauto. intros ret Eret. by rewrite (Hret _ Eret).
  - destruct Hc as (o & Hn). specialize (Hv o Hn). unfold irq_signal, ntf_at, add_chk. rewrite Hn. exec.
    rewrite (proj2 (Z.ltb_lt _ _)) by (unfold U64_MAX in Hv; lia). exec.
    destruct (signal_spec k a n (value (nt_state o) + 1) RL ltac:(by eauto)) as (r & k' & E & RL'). rewrite E. exec. by exists None, k', a.
  - destruct (law_step (sch k) e (rl_ok _ _ RL) Hc Hst) as (s' & E & Ok' & Hd & Hk). rewrite E. exec. exists None, (with_sch k s'), a. split_and!; try done.
    apply (Rel_update k _ a _ []); fields; try done.
    + intros t Ht. by apply (rl_known _ _ RL), Hk.
    + intros t _. constructor; fields; try done; [by apply Hd| |by destruct (tcbs k !! t)].
      intros Bt. destruct (tcbs k !! t) as [tcb|] eqn:Ht; [|by destruct (rl_dom _ _ RL _ Ht) as [-> _]].
      destruct (rl_thread _ _ RL _ _ Ht) as (_ & _ & _ & T4). destruct (status a !! t) as [[]|]; cbn in T4; try done; apply Hd; naive_solver.
    + intros t Ht. by apply elem_of_nil in Ht.
    + apply (rl_ep _ _ RL).
    + apply (rl_port _ _ RL).
    + apply (rl_rep _ _ RL).
    + apply (rl_call _ _ RL).
    + intros n o Hn Hw. destruct (rl_ntf _ _ RL _ _ Hn Hw) as [N1 N2]. split; [done|]. apply Hd; [|done].
      destruct (tcbs k !! blocked_tcb_kva o) as [tcb|] eqn:Ht; [|destruct (rl_dom _ _ RL _ Ht); congruence].
      destruct (rl_thread _ _ RL _ _ Ht) as (_ & _ & _ & T4). rewrite N1 in T4. by destruct T4 as (_ & ? & _).
    + intros ty kva t Hr Ht. assert (registered k ty kva t) as Hr0 by (by destruct ty).
      destruct (rl_ready _ _ RL _ _ _ Hr0 Ht) as [R1 R2 R3 R4]. destruct (Hd _ R3) as [D1 D2]. constructor; fields; auto.
Qed.

Lemma ipc_history_spec evs : forall k a,
  Rel k a -> SpecInv a -> along occurs k evs -> along stays_put k evs -> along counter_left k evs -> along one_wait k evs ->
  exists rs k' a', history k evs = Ret (rs, k') /\ follows k a evs rs k' a' /\ Rel k' a' /\ SpecInv a'.
Proof.
  induction evs as [|ev evs IH]; intros k a RL I Ho Hs Hv Hw; cbn [history]; [exists [], k, a; split_and!; try done; constructor|].
  destruct Ho as [Ho Ho'], Hs as [Hs Hs'], Hv as [Hv Hv'], Hw as [Hw Hw']. destruct (event_spec k a ev RL I Ho Hs Hv Hw) as (r & k1 & a1 & E & Hsp & RL1 & I1). rewrite E. exec.
  destruct (IH k1 a1 RL1 I1 (Ho' _ E) (Hs' _ E) (Hv' _ E) (Hw' _ E)) as (rs & k' & a' & E' & Hf & RL' & I'). rewrite E'. exec.
  exists (r :: rs), k', a'. split_and!; try done. by econstructor.
Qed.

(** * Replies in the kernel's terms *)

Definition in_queue (k : Kernel) (e t : Z) : Prop :=
  exists ep ts, eps k !! e = Some ep /\ links (tcbs k) (queue_head ep) ts /\ t ∈ ts.

(** The control block of [t] names the reply [r]; a thread owes a reply while
    its control block is allocated. *)
Definition names (k : Kernel) (t r : Z) : Prop := exists tcb, tcbs k !! t = Some tcb /\ current_reply_kva tcb = r.
Definition owes (k : Kernel) (t r : Z) : Prop := tcb_live (sch k) t = true /\ names k t r.

Lemma links_fun m ts : forall h ts', links m h ts -> links m h ts' -> ts = ts'.
Proof.
  induction ts as [|t ts IH]; intros h [|t' ts'] H1 H2; [done| | |]; cbn in *.
  - by destruct H2 as (-> & ? & _).
  - by destruct H1 as (-> & ? & _).
  - destruct H1 as (-> & H0 & x & Hx & H1). destruct H2 as (<- & _ & y & Hy & H2). assert (y = x) as -> by congruence.
    f_equal. by eapply IH.
Qed.

Lemma in_queue_iff k a e t : Rel k a -> SpecInv a -> (in_queue k e t <-> exists w, queued_at a t e w).
Proof.
  intros RL I. split.
  - intros (ep & ts & He & Hl & Ht). destruct (rl_ep _ _ RL _ _ He) as (p & Hp & [_ L _]).
    apply (si_member _ I _ _ _ Hp). by rewrite (links_fun _ _ _ _ L Hl).
  - intros [w Hw]. destruct (si_port _ I _ _ _ Hw) as [p Hp]. destruct (rl_port _ _ RL e) as [ep He]; [by eauto|].
    destruct (rl_ep _ _ RL _ _ He) as (p' & Hp' & [_ L _]). assert (p' = p) as -> by congruence.
    exists ep, (port_threads p). split_and!; [done|done|]. apply (si_member _ I _ _ _ Hp). eauto.
Qed.

Lemma names_iff k a t r : Rel k a -> r <> 0 -> (names k t r <-> serving a !! t = Some r).
Proof.
  intros RL Hr. split.
  - intros (tcb & Ht & Hc). destruct (rl_thread _ _ RL _ _ Ht) as (_ & T2 & _). rewrite T2 in Hc. by destruct (serving a !! t); cbn in *; subst.
  - intros Hs. destruct (tcbs k !! t) as [tcb|] eqn:Ht; [|destruct (rl_dom _ _ RL _ Ht); congruence].
    destruct (rl_thread _ _ RL _ _ Ht) as (_ & T2 & _). exists tcb. split; [done|]. by rewrite T2, Hs.
Qed.

(** A bound reply has a blocked caller, whose control block is allocated. The
    caller is queued at exactly one endpoint while no control block names the
    reply, or in no queue; then exactly one thread owes the reply, or the
    thread that took the call has exited, its control block is freed and
    nobody owes the reply. *)
Definition exclusive (k : Kernel) : Prop :=
  forall r c, reps k !! r = Some (mkReply REPLY_STATE_BOUND c) -> s_blocked (sch k) c /\ tcb_live (sch k) c = true /\
    ((exists e, in_queue k e c /\ (forall e', in_queue k e' c -> e' = e) /\ forall t, ~ names k t r) \/
     (forall e, ~ in_queue k e c) /\
     ((exists t, owes k t r /\ forall t', owes k t' r -> t' = t) \/
      (exists t, tcb_live (sch k) t = false /\ names k t r) /\ forall t, ~ owes k t r)).

Lemma Rel_exclusive k a : Rel k a -> SpecInv a -> exclusive k.
Proof.
  intros RL I r c Hr. assert (Hr0 : r <> 0) by (intros ->; destruct (rl_zero _ _ RL); congruence).
  pose proof (rl_rep _ _ RL _ _ Hr) as E. destruct (calls a !! r) as [c'|] eqn:Hc; [|done]. injection E as <-.
  assert (Hb : forall s, status a !! c = Some s -> match s with Queued _ _ _ _ _ | Awaiting _ => s_blocked (sch k) c | _ => True end).
  { intros s Hs. destruct (tcbs k !! c) as [tcb|] eqn:Ht; [|destruct (rl_dom _ _ RL _ Ht); congruence].
    destruct (rl_thread _ _ RL _ _ Ht) as (_ & _ & _ & T4). rewrite Hs in T4. destruct s; cbn in *; naive_solver. }
  destruct (proj1 (si_calls _ I r c) Hc) as [(e & m & tok & Hs)|Hs]; pose proof (Hb _ Hs) as Bl; cbn in Bl;
    (split; [exact Bl|]); (split; [by eapply blocked_live|]).
  - left. exists e. split_and!.
    + apply (in_queue_iff _ a); [done|done|]. exists WCall. by eexists _, _, _.
    + intros e' [w (? & ? & ? & Hq)]%(in_queue_iff _ a); [congruence|done|done].
    + intros t Ho%(names_iff _ a); [|done|done]. destruct (si_serving _ I _ _ Ho) as [c2 Hc2].
      assert (calls a !! r = Some c2) by (apply si_calls; [done|by right]). congruence.
  - right. destruct (si_awaited _ I _ _ Hs) as [t Ht]. pose proof (proj2 (names_iff k a t r RL Hr0) Ht) as Hn.
    assert (U : forall t', owes k t' r -> t' = t) by (intros t' [_ Ho%(names_iff _ a)]; [by eapply (si_inj _ I)|done|done]).
    split; [intros e [w (? & ? & ? & Hq)]%(in_queue_iff _ a); [congruence|done|done]|].
    destruct (tcb_live (sch k) t) eqn:El; [left; by exists t|]. right. split; [by exists t|].
    intros t' Ho. pose proof (U t' Ho) as ->. destruct Ho. congruence.
Qed.

End Safe.
