(* ===== verification/IpcSched.v ===== *)
(** The kernel's scheduler [KSched] satisfies what IPC relies on, and so IPC
    over it: no possible history panics, each refines the specification, and a
    bound reply always has exactly one holder. A [sys_wait_any] on two objects
    that are both signalled before its thread runs panics the kernel. *)
From Stdlib Require Import ZArith Lia.
From stdpp Require Import base option list gmap numbers fin_maps.
From S2P Require Import Prelude Sched KSched Handles IpcState Ipc IpcSpec IpcRefine IpcSafe.
Open Scope nat_scope.

(** * The scheduler as IPC sees it *)

Definition ks_current (k : KSched) (c : nat) : outcome Z := t ← current_for (ks_state k) c; KSched.tcb_at k t.

#[export] Instance ksched : Scheduler KSched := {|
  Ipc.current_tcb_kva := ks_current;
  Ipc.unblock_thread := KSched.unblock_thread;
  Ipc.block_current := KSched.block_current;
  Ipc.tcb_live k kva := bool_decide (is_Some (ks_tcbs k !! kva));
  Ipc.set_wait_deadline := KSched.set_wait_deadline;
  Ipc.sched_event := KSched.Event;
  Ipc.sched_step := KSched.handle;
|}.

Definition runs (k : KSched) (c : nat) (kva : Z) : Prop :=
  exists i, running_user k c i /\ ks_threads k !! i = Some (Some kva).
Definition blocked (k : KSched) (kva : Z) : Prop :=
  exists i, ks_threads k !! i = Some (Some kva) /\ get (ks_state k) i = Some Sched.Blocked.
Definition known (k : KSched) (kva : Z) : Prop := exists i, ks_threads k !! i = Some (Some kva).
Definition deadline_of (k : KSched) (kva : Z) : Z :=
  match ks_tcbs k !! kva with Some t => wait_deadline t | None => NO_DEADLINE end.

(** What happens between system calls: ticks, threads that look again after a
    halt, and exits. *)
Definition between (k : KSched) (e : KSched.Event) : Prop :=
  enabled k e /\
  match e with EvTick _ _ | EvBlockWake _ | EvExit _ | EvExitWake _ => True | _ => False end.

(** ** Steps that wake nobody *)

(** No thread starts or stops being blocked; control blocks are at most freed. *)
Record quiet (k k' : KSched) : Prop := {
  qu_threads : forall i kva, ks_threads k' !! i = Some (Some kva) -> ks_threads k !! i = Some (Some kva);
  qu_blocked : forall i, get (ks_state k') i = Some Sched.Blocked <-> get (ks_state k) i = Some Sched.Blocked;
  qu_kept : forall i, get (ks_state k) i = Some Sched.Blocked -> ks_threads k' !! i = ks_threads k !! i;
  qu_tcbs : forall u, ks_tcbs k' !! u = ks_tcbs k !! u \/ ks_tcbs k' !! u = None;
}.

Lemma quiet_refl k : quiet k k.
Proof. constructor; auto. Qed.
Lemma quiet_trans k1 k2 k3 : quiet k1 k2 -> quiet k2 k3 -> quiet k1 k3.
Proof.
  intros [A1 A2 A3 A4] [B1 B2 B3 B4]. constructor; [auto|intros i; by rewrite B2|intros i Hi|intros u; destruct (A4 u), (B4 u); (left; congruence) || (right; congruence)].
  rewrite B3 by (by apply A2). by apply A3.
Qed.

Lemma quiet_state k s : (forall i, get s i = Some Sched.Blocked <-> get (ks_state k) i = Some Sched.Blocked) -> quiet k (KSched.with_st k s).
Proof. intros H. constructor; auto. Qed.

Lemma step_blocked s c r d s' : sinv s -> step s c r = Ret (d, s') ->
  forall i, get s' i = Some Sched.Blocked <-> get s i = Some Sched.Blocked.
Proof.
  intros I H i. destruct (current_for s c) as [cur|] eqn:Hcf; [|unfold step in H; by rewrite Hcf in H].
  pose proof (current_for_inv _ _ _ Hcf) as Hc. destruct (si_current _ I c cur Hc) as (st & Hst & Hne).
  assert (reason_ok r (Some st)) as Hr.
  { rewrite <- Hst. apply entry_ok_spec. unfold step in H. rewrite Hcf, bind_Ret in H. by destruct (entry_ok s cur r). }
  destruct (step_spec s c cur st r I Hc Hst Hr) as (d' & s'' & E & _ & Hp). rewrite E in H. injection H as -> ->.
  pose proof (get_lt _ _ _ Hst) as L1. destruct Hp as [(n & (Hnc & Hn & _) & _ & ->)|[_ Hp]].
  - pose proof (get_lt _ _ _ Hn) as L2. rewrite get_switched by done. case_decide as D1; [subst; rewrite Hn; done|].
    case_decide as D2; [|done]. subst i. rewrite Hst. destruct r; cbn in *; [split; [done|congruence]|done|split; [done|congruence]].
  - destruct r; destruct Hp as [_ ->]; try done. rewrite get_with_state by done. case_decide as D; [|done]. subst i. rewrite Hst.
    cbn in Hr. split; [done|congruence].
Qed.

Lemma remove_thread_ok s i x s' : remove_thread s i = Ret (Ok x, s') -> s' = with_state s i None /\ i < length (states s).
Proof.
  intros H. unfold remove_thread in H. undo H. unfold set_state in *. case_decide; [|done]. by simplify_eq.
Qed.

Lemma finish_exit_quiet k c k' : KI k -> finish_exit k c = Ret k' -> quiet k k'.
Proof.
  intros I H. unfold finish_exit in H. destruct (ks_pending k !! c) as [[p|]|] eqn:Hp; [|by injection H as <-; apply quiet_refl|done].
  destruct (ki_pending _ I _ _ Hp) as (E & Et & Eu). undo H; try (injection H as <-; apply quiet_refl).
  all: match goal with X : remove_thread _ _ = Ret (Ok _, _) |- _ => apply remove_thread_ok in X as [-> Hl] end; injection H as <-.
  all: (constructor; cbn; [|intros i; rewrite get_with_state by done; case_decide; [subst; rewrite E; done|done]|
    |intros u; rewrite lookup_delete; case_decide; [by right|by left]]).
  all: try (intros i kva Hi; destruct (decide (i = thread_idx p)) as [->|]; [by rewrite list_lookup_insert_eq in Hi|by rewrite list_lookup_insert_ne in Hi]).
  all: intros i Hi; rewrite list_lookup_insert_ne; [done|]; intros <-; congruence.
Qed.

Lemma schedule_quiet k c r k' : KI k -> schedule k c r = Ret k' -> quiet k k'.
Proof.
  intros I H. unfold schedule in H. destruct (finish_exit k c) as [k1|] eqn:E1; [rewrite bind_Ret in H|done].
  assert (c < MAX_CPUS).
  { unfold finish_exit in E1. destruct (ks_pending k !! c) eqn:Hp; [|done]. apply lookup_lt_Some in Hp. by rewrite (ki_plen _ I) in Hp. }
  destruct (finish_exit_spec k c I ltac:(done)) as (k1' & E1' & [I1 _ _ _ _]). assert (k1' = k1) as -> by congruence.
  pose proof (finish_exit_quiet _ _ _ I E1) as Q. eapply quiet_trans; [exact Q|].
  undo H; injection H as <-; apply quiet_state; eapply step_blocked; try done; apply I1.
Qed.

Lemma idle_step_blocked s c o s' : step_from_idle s c = Ret (o, s') ->
  forall i, get s' i = Some Sched.Blocked <-> get s i = Some Sched.Blocked.
Proof.
  unfold step_from_idle, try_current_for. destruct (current_per_cpu s !! c) as [[x|]|] eqn:Hc; try done.
  rewrite bind_Ret, bool_decide_eq_true_2 by done. cbn [assert]. rewrite bind_Ret.
  pose proof (idle_loop_spec (decide_state s None) MAX_THREADS 0) as Hs. unfold select_for_idle_cpu.
  destruct (idle_loop MAX_THREADS 0 (decide_state s None)) as [n|]; [|by intros [= <- <-]].
  destruct Hs as (Hl & Hn & _). apply decide_state_ready in Hn. pose proof (get_lt _ _ _ Hn).
  rewrite set_state_spec, bind_Ret, set_current_spec, bind_Ret by (done || by eapply lookup_lt_Some).
  destruct (check_invariants _); cbn [assert]; [|done]. rewrite bind_Ret. intros [= <- <-] i.
  assert (E : get (with_state s n (Some Sched.Running)) i = if decide (i = n) then Some Sched.Running else get s i) by (by apply get_with_state).
  transitivity (get (with_state s n (Some Sched.Running)) i = Some Sched.Blocked); [done|]. rewrite E. case_decide; [subst; by rewrite Hn|done].
Qed.

Lemma idle_quiet k c k' : KI k -> schedule_from_idle k c = Ret k' -> quiet k k'.
Proof.
  intros I H. unfold schedule_from_idle in H. destruct (finish_exit k c) as [k1|] eqn:E1; [rewrite bind_Ret in H|done].
  assert (c < MAX_CPUS).
  { unfold finish_exit in E1. destruct (ks_pending k !! c) eqn:Hp; [|done]. apply lookup_lt_Some in Hp. by rewrite (ki_plen _ I) in Hp. }
  destruct (finish_exit_spec k c I ltac:(done)) as (k1' & E1' & [I1 _ _ _ _]). assert (k1' = k1) as -> by congruence.
  pose proof (finish_exit_quiet _ _ _ I E1) as Q. eapply quiet_trans; [exact Q|].
  undo H; injection H as <-; apply quiet_state; by eapply idle_step_blocked.
Qed.

Lemma exit_quiet k c k' t : KI k -> running_user k c t -> t <> 0 -> exit_current k c = Ret k' -> quiet k k'.
Proof.
  intros I (Hc & Hr & Hb) H0 H. unfold exit_current in H.
  destruct (finish_exit_spec k c I (on_cpu_lt _ _ _ I Hc)) as (k1 & E1 & [I1 D1 D2 D3 D4]). rewrite E1, bind_Ret in H.
  eapply quiet_trans; [by eapply finish_exit_quiet|].
  assert (on_cpu k1 c t) as Hc1 by (unfold on_cpu; by rewrite D1).
  assert (get (ks_state k1) t = Some Sched.Running) as Hr1 by (rewrite D2; [done|right; by exists c]).
  rewrite <- D3 in Hb. pose proof (D4 t Hc ltac:(congruence)) as Hp. rewrite Hp, bind_Ret in H.
  cbn [assert bool_decide] in H. rewrite bool_decide_eq_true_2 in H by done. cbn [assert] in H. rewrite bind_Ret in H.
  destruct (step_spec (ks_state k1) c t Sched.Running Sched.Exit (ki_sched _ I1) Hc1 Hr1 eq_refl) as (d & s & Es & Hs & Hpost).
  pose proof (step_blocked _ _ _ _ _ (ki_sched _ I1) Es) as SB. rewrite Es, bind_Ret in H.
  destruct (tcb_at_spec k1 t I1 ltac:(by eexists)) as (kva & Ek & Eth). pose proof (get_lt _ _ _ Hr1) as L1.
  assert (Q : forall p, quiet k1 (with_pending (KSched.with_st k1 s) p)) by (intros p; constructor; auto).
  destruct Hpost as [(n & (Hnt & Hn & _) & -> & ->)|[_ [-> ->]]]; cbn [left_as] in *; rewrite Ek, bind_Ret in H.
  - destruct (tcb_at_spec k1 n I1 ltac:(by eexists)) as (kva' & En & _). rewrite En, bind_Ret in H. injection H as <-. apply Q.
  - eapply quiet_trans; [apply Q|]. eapply schedule_quiet; [|exact H]. apply KI_exit; try done; intros i.
    + rewrite get_with_state by done. case_decide; subst; naive_solver.
    + rewrite get_with_state by done. case_decide; [subst; rewrite Hr1; split; by eexists|done].
    + rewrite get_with_state by done. by case_decide.
Qed.

(** ** Waking by deadline *)

(** Threads without a deadline are left alone. *)
Record calm (k k' : KSched) : Prop := {
  ca_known : forall i kva, ks_threads k' !! i = Some (Some kva) -> ks_threads k !! i = Some (Some kva);
  ca_deadline : forall kva, deadline_of k kva = NO_DEADLINE -> deadline_of k' kva = NO_DEADLINE;
  ca_blocked : forall i kva, deadline_of k kva = NO_DEADLINE -> ks_threads k !! i = Some (Some kva) ->
    get (ks_state k) i = Some Sched.Blocked -> ks_threads k' !! i = Some (Some kva) /\ get (ks_state k') i = Some Sched.Blocked;
}.

Lemma calm_refl k : calm k k.
Proof. by constructor. Qed.
Lemma calm_trans k1 k2 k3 : calm k1 k2 -> calm k2 k3 -> calm k1 k3.
Proof.
  intros [A1 A2 A3] [B1 B2 B3]. constructor; [auto|auto|]. intros i kva Hd Ht Hb. destruct (A3 i kva Hd Ht Hb). by apply B3; auto.
Qed.
Lemma quiet_deadline k k' :
  (forall u, ks_tcbs k' !! u = ks_tcbs k !! u \/ ks_tcbs k' !! u = None) ->
  forall u, deadline_of k u = NO_DEADLINE -> deadline_of k' u = NO_DEADLINE.
Proof. intros Q u. unfold deadline_of. by destruct (Q u) as [-> | ->]. Qed.
Lemma quiet_calm k k' : quiet k k' -> calm k k'.
Proof.
  intros [A1 A2 A3 A4]. constructor; [done|by apply quiet_deadline|]. intros i kva _ Ht Hb. by rewrite A3, A2 by done.
Qed.

Lemma wake_slot_calm now idx k k' : KI k -> wake_slot now idx k = Ret k' -> calm k k'.
Proof.
  intros I H. unfold wake_slot in H. destruct (ks_threads k !! Z.to_nat idx) as [[kva|]|] eqn:Et; [|injection H as <-; apply calm_refl|done].
  destruct (ks_tcbs k !! kva) as [tcb|] eqn:Eb; [cbn [unwrap] in H; rewrite bind_Ret in H|done].
  destruct (is_no_deadline (wait_deadline tcb)) eqn:En; [injection H as <-; apply calm_refl|].
  destruct (negb (has_expired _ _)); [injection H as <-; apply calm_refl|].
  destruct (negb (bool_decide (get (ks_state k) (Z.to_nat idx) = Some Sched.Blocked))) eqn:Eg; [injection H as <-; apply calm_refl|].
  apply negb_false_iff, bool_decide_eq_true in Eg. unfold unblock in H. cbn [KSched.with_tcbs ks_state] in H. rewrite Eg in H.
  pose proof (get_lt _ _ _ Eg) as Hl. rewrite set_state_spec, !bind_Ret in H by done. injection H as <-.
  constructor; cbn [KSched.with_st KSched.with_tcbs ks_threads ks_state]; [done| |].
  - intros kva'. unfold deadline_of. cbn. rewrite lookup_insert. by case_decide.
  - intros i kva' Hd Ht Hb. split; [done|]. rewrite get_with_state by done. case_decide; [|done]. subst i.
    assert (kva' = kva) as -> by congruence. unfold deadline_of in Hd. rewrite Eb in Hd. unfold is_no_deadline in En. rewrite Hd, Z.eqb_refl in En. done.
Qed.

Lemma wake_calm now k k' : KI k -> wake_expired_deadlines k now = Ret k' -> calm k k'.
Proof.
  intros I H. unfold wake_expired_deadlines in H.
  destruct (for_range_inv (fun _ k1 => KI k1 /\ calm k k1) (wake_slot now) MAX_THREADS 0%Z k) as (k1 & E & _ & C).
  - split; [done|apply calm_refl].
  - intros j k1 Hj [I1 C1]. destruct (wake_slot_spec now j k1 I1 ltac:(lia)) as (k2 & E2 & I2). exists k2. split_and!; [done|done|].
    eapply calm_trans; [exact C1|]. by eapply wake_slot_calm.
  - congruence.
Qed.

Lemma tick_calm k c k' : KI k -> tick k c = Ret k' -> calm k k'.
Proof.
  intros I H. unfold tick in H. destruct (negb (ks_active k) || _); [injection H as <-; apply calm_refl|].
  destruct (try_current_for (ks_state k) c) as [cur|]; [rewrite bind_Ret in H|done].
  destruct cur as [cur|]; [|by apply quiet_calm, (idle_quiet k c)].
  destruct (get (ks_state k) cur) as [[]|]; first [injection H as <-; apply calm_refl|by apply quiet_calm; eapply schedule_quiet].
Qed.

Lemma between_calm k e k' : KI k -> between k e -> KSched.handle k e = Ret k' -> calm k k'.
Proof.
  intros I (He & Hb) H. destruct e as [c now|c d|c|c|c|c|t|tcb stack]; try done; cbn [KSched.handle enabled] in *.
  - unfold handle_tick in H. destruct (wake_spec now k I) as (k1 & E1 & I1). rewrite E1, bind_Ret in H.
    eapply calm_trans; [by eapply wake_calm|by eapply tick_calm].
  - destruct He as (t & Hc & _). rewrite (current_for_spec _ _ _ Hc), bind_Ret in H. apply quiet_calm. unfold block_iter in H. undo H.
    + injection H as <-; constructor; auto.
    + by eapply schedule_quiet.
  - destruct He as (t & Hu & H0). apply quiet_calm. by eapply exit_quiet.
  - apply quiet_calm. by eapply schedule_quiet.
Qed.

(** ** The laws *)

Lemma blocked_mono k k' : calm k k' -> forall u, deadline_of k u = NO_DEADLINE -> deadline_of k' u = NO_DEADLINE /\ (blocked k u -> blocked k' u).
Proof.
  intros [_ H1 H2] u Hd. split; [auto|]. intros (i & Ht & Hb). exists i. by apply H2.
Qed.

Lemma quiet_blocked k k' : quiet k k' -> forall u, blocked k' u <-> blocked k u.
Proof.
  intros [H1 H2 H3 _] u. split; intros (i & Ht & Hb); exists i.
  - split; [auto|by apply H2].
  - split; [by rewrite H3|by apply H2].
Qed.

Lemma runs_current k c t : KI k -> runs k c t -> ks_current k c = Ret t.
Proof.
  intros I (i & (Hc & _) & Ht). unfold ks_current, KSched.tcb_at. by rewrite (current_for_spec _ _ _ Hc), bind_Ret, Ht.
Qed.

Lemma runs_awake k c t : KI k -> runs k c t -> ~ blocked k t.
Proof.
  intros I (i & (_ & Hr & _) & Ht) (j & Ht' & Hb). rewrite (ki_inj _ I _ _ _ Ht Ht') in Hr. congruence.
Qed.

Lemma unblock_law k t : KI k -> blocked k t ->
  exists k', KSched.unblock_thread k t = Ret k' /\ KI k' /\
    (forall u, blocked k' u <-> blocked k u /\ u <> t) /\ (forall u, deadline_of k' u = deadline_of k u) /\
    (forall u, known k' u -> known k u) /\ (forall c u, runs k c u -> runs k' c u).
Proof.
  intros I (i & Ht & Hb). pose proof (get_lt _ _ _ Hb) as Hl. unfold KSched.unblock_thread, thread_index_for.
  destruct (list_find (fun o => o = Some t) (ks_threads k)) as [[j x]|] eqn:Ef.
  2: { eapply list_find_None, Forall_lookup_1 in Ef; [|exact Ht]. done. }
  apply list_find_Some in Ef as (Hj & -> & _). rewrite (ki_inj _ I j i t Hj Ht). cbn [fmap option_fmap option_map fst unwrap].
  rewrite bind_Ret. destruct (unblock_KI k i I Hb) as (s & E & I'). rewrite E, bind_Ret.
  unfold unblock in E. rewrite Hb, set_state_spec, bind_Ret in E by done. injection E as <-.
  eexists. split_and!; [done|done| |done|done|].
  - intros u. split; intros H.
    + destruct H as (j' & Hu & Hbu). cbn [KSched.with_st ks_threads ks_state] in *. rewrite get_with_state in Hbu by done.
      case_decide; [by destruct (is_current _ _)|]. split; [by exists j'|]. intros ->. by rewrite (ki_inj _ I _ _ _ Hu Ht) in *.
    + destruct H as [(j' & Hu & Hbu) Hne]. exists j'. split; [done|]. cbn [KSched.with_st ks_state]. rewrite get_with_state by done.
      rewrite decide_False; [done|]. intros ->. congruence.
  - intros c u (j' & (Hc & Hr & Hin) & Hu). exists j'. split; [|done]. split; [done|]. split; [|done].
    cbn [KSched.with_st ks_state]. rewrite get_with_state by done. rewrite decide_False; [done|congruence].
Qed.

Lemma block_law k c t : KI k -> runs k c t ->
  exists k', KSched.block_current k c = Ret k' /\ KI k' /\
    (forall u, blocked k' u <-> blocked k u \/ u = t) /\
    (forall u, deadline_of k u = NO_DEADLINE -> deadline_of k' u = NO_DEADLINE) /\ (forall u, known k' u -> known k u).
Proof.
  intros I (i & Hu & Ht). destruct (block_spec _ _ _ I Hu) as (k' & E & I'). exists k'. split; [done|]. split; [done|].
  rewrite (block_marks _ _ _ Hu) in E. pose proof (marked_KI _ _ _ I Hu) as IM. destruct Hu as (Hc & Hr & Hin).
  pose proof (get_lt _ _ _ Hr) as Hl.
  assert (Hg : forall j, get (ks_state (marked k c i)) j = if decide (j = i) then Some Sched.Blocked else get (ks_state k) j)
    by (intros j; by apply get_with_state).
  assert (quiet (marked k c i) k') as Q.
  { unfold block_iter in E. cbn [marked with_block in_block] in E. rewrite lookup_insert_eq in E. cbn [unwrap] in E.
    rewrite bind_Ret, (current_for_spec (ks_state (marked k c i)) c i Hc), bind_Ret in E. change (ks_state (KSched.with_st _ _)) with (ks_state (marked k c i)) in E.
    rewrite Hg, decide_True in E by done. by eapply schedule_quiet. }
  split_and!.
  - intros u. rewrite (quiet_blocked _ _ Q). split.
    + intros (j & Hj & Hb). rewrite Hg in Hb. change (ks_threads k !! j = Some (Some u)) in Hj. case_decide; [subst; right; congruence|left; by exists j].
    + intros [(j & Hj & Hb)| ->]; [exists j|exists i]; (split; [done|]); rewrite Hg; by case_decide.
  - intros u. exact (quiet_deadline _ _ (qu_tcbs _ _ Q) u).
  - intros u (j & Hj). exists j. by apply (qu_threads _ _ Q) in Hj.
Qed.

Lemma deadline_law k c t d : KI k -> runs k c t ->
  exists k', KSched.set_wait_deadline k c d = Ret k' /\ KI k' /\
    (forall u, blocked k' u <-> blocked k u) /\
    (forall u, deadline_of k' u = if decide (u = t) then d else deadline_of k u) /\
    (forall u, known k' u -> known k u) /\ (forall c u, runs k c u -> runs k' c u).
Proof.
  intros I (i & (Hc & Hr & Hin) & Ht). unfold KSched.set_wait_deadline, KSched.tcb_at. rewrite (current_for_spec _ _ _ Hc), bind_Ret, Ht.
  cbn [unwrap]. rewrite bind_Ret. destruct (ki_tcb _ I _ _ Ht) as (tcb & Eb & _). rewrite Eb. cbn [unwrap]. rewrite bind_Ret.
  eexists. split_and!; [done|by apply KI_tcbs|done| |done|done].
  intros u. unfold deadline_of. cbn [KSched.with_tcbs ks_tcbs]. destruct (decide (u = t)) as [->|].
  - by rewrite lookup_insert_eq.
  - by rewrite lookup_insert_ne.
Qed.

Lemma step_law k e : KI k -> between k e -> stays k e ->
  exists k', KSched.handle k e = Ret k' /\ KI k' /\
    (forall u, deadline_of k u = NO_DEADLINE -> deadline_of k' u = NO_DEADLINE /\ (blocked k u -> blocked k' u)) /\
    (forall u, known k' u -> known k u).
Proof.
  intros I He Hs. destruct (KSched.handle_spec k e I) as (k' & E & I'); [apply He|done|]. pose proof (between_calm _ _ _ I He E) as C.
  exists k'. split_and!; [done|done|by apply blocked_mono|]. intros u (i & Hi). exists i. by apply (ca_known _ _ C).
Qed.

Lemma known_live k t : KI k -> known k t -> bool_decide (is_Some (ks_tcbs k !! t)) = true.
Proof. intros I (i & Hi). destruct (ki_tcb _ I _ _ Hi) as (tcb & -> & _). done. Qed.

Lemma unblock_live k t k' u : KSched.unblock_thread k t = Ret k' ->
  bool_decide (is_Some (ks_tcbs k' !! u)) = bool_decide (is_Some (ks_tcbs k !! u)).
Proof. intros H. unfold KSched.unblock_thread in H. undo H. by injection H as <-. Qed.

Lemma deadline_live k c d k' u : KSched.set_wait_deadline k c d = Ret k' ->
  bool_decide (is_Some (ks_tcbs k' !! u)) = bool_decide (is_Some (ks_tcbs k !! u)).
Proof.
  intros H. unfold KSched.set_wait_deadline in H. destruct (current_for (ks_state k) c) as [i|]; [rewrite bind_Ret in H|done].
  destruct (KSched.tcb_at k i) as [kva|]; [rewrite bind_Ret in H|done].
  destruct (ks_tcbs k !! kva) as [tcb|] eqn:E; [cbn [unwrap] in H; rewrite bind_Ret in H|done].
  injection H as <-. cbn [KSched.with_tcbs ks_tcbs]. rewrite lookup_insert. case_decide; [subst; by rewrite E|done].
Qed.

#[export] Instance ksched_laws : SchedulerLaws KSched := {|
  s_ok := KI; s_runs := runs; s_blocked := blocked; s_known := known; s_deadline := deadline_of; s_enabled := between;
  s_stays := stays;
  law_current := runs_current;
  law_known k c t _ H := match H with ex_intro _ i (conj _ E) => ex_intro _ i E end;
  law_awake := runs_awake;
  law_unblock := unblock_law;
  law_block := block_law;
  law_deadline := deadline_law;
  law_step := step_law;
  law_live := known_live;
  law_blocked k t _ H := match H with ex_intro _ i (conj E _) => ex_intro _ i E end;
  law_unblock_live := unblock_live;
  law_deadline_live := deadline_live;
|}.

(** * From a fresh system *)

(** No object has been used, and no thread is inside a call. *)
Record fresh (k : Kernel KSched) : Prop := {
  fr_sched : KI (sch k);
  fr_deadline : forall t, deadline_of (sch k) t = NO_DEADLINE;
  fr_known : forall t, known (sch k) t -> is_Some (tcbs k !! t);
  fr_zero : tcbs k !! 0%Z = None /\ reps k !! 0%Z = None;
  fr_tcb : forall t tcb, tcbs k !! t = Some tcb ->
    is_Some (tables k !! process_kva tcb) /\ current_reply_kva tcb = 0%Z /\ last_caller_token tcb = 0%Z;
  fr_ep : forall e x, eps k !! e = Some x -> x = create_endpoint;
  fr_rep : forall r x, reps k !! r = Some x -> x = create_reply;
  fr_ntf : forall n x, ntfs k !! n = Some x -> x = create_notification;
  fr_stacks : stacks k = ∅;
  fr_handles : forall p slots h, tables k !! p = Some slots -> h ∈ slots -> handle_wf k (h_kind h);
}.

(** The specification's initial state: an empty port for each endpoint. *)
Definition spec_init (k : Kernel KSched) : Spec := mkSpec ∅ ((fun _ => Waiters []) <$> eps k) ∅ ∅ ∅.

Lemma spec_init_inv k : SpecInv (spec_init k).
Proof.
  assert (P : forall e p, ports (spec_init k) !! e = Some p -> p = Waiters []).
  { intros e p. cbn. rewrite lookup_fmap. destruct (eps k !! e); [by intros [= <-]|done]. }
  constructor.
  - intros e p ->%P. constructor.
  - intros e p t ->%P. split; [by intros ?%elem_of_nil|by intros (w & m & x & y & H)].
  - intros e p t w _ (m & x & y & H). done.
  - intros t e w (m & x & y & H). done.
  - intros r c. split; [done|]. by intros [(e & m & x & H)|H].
  - done.
  - done.
  - done.
  - done.
Qed.

Lemma fresh_Rel k : fresh k -> Rel k (spec_init k).
Proof.
  intros [F1 F2 F3 F4 F5 F6 F7 F8 F9 F10]. constructor; try done.
  - intros t tcb Ht. destruct (F5 t tcb Ht) as (H1 & H2 & H3). split_and!; [done|done|done|].
    cbn [spec_init status]. rewrite lookup_empty. unfold status_rel. rewrite F9. split; [done|apply F2].
  - intros e ep He. exists (Waiters []). split; [cbn; by rewrite lookup_fmap, He|]. by rewrite (F6 _ _ He).
  - intros e. cbn. rewrite lookup_fmap. destruct (eps k !! e); [by eexists|by intros [? [=]]].
  - by intros r [? [=]].
  - intros n o Ho. by rewrite (F8 _ _ Ho).
  - intros ty kva t Ht H0. destruct H0. destruct ty; try done; destruct Ht as (x & Hx & <-); [by rewrite (F6 _ _ Hx)|by rewrite (F8 _ _ Hx)].
Qed.

(** ** Checking that a history is possible *)

Definition inside (k : Kernel KSched) (c : nat) (p : option Suspended -> bool) : bool :=
  on_cpu_with (sch k) c (fun i =>
    bool_decide (get (ks_state (sch k)) i = Some Sched.Running) && bool_decide (in_block (sch k) !! i = None) &&
    match ks_threads (sch k) !! i with Some (Some kva) => p (stacks k !! kva) | _ => false end).

Definition occursb (k : Kernel KSched) (ev : Event) : bool :=
  match ev with
  | Enter c call =>
      inside k c (fun o => match o with None => true | _ => false end) &&
      match call with SysWaitAny _ va _ _ _ => (0 <=? va)%Z && (va <? 2 ^ 64)%Z | _ => true end
  | Resume c => inside k c (fun o => match o with None => false | _ => true end)
  | Irq n => bool_decide (is_Some (ntfs k !! n))
  | Between e => enabledb (sch k) e && match e with EvTick _ _ | EvBlockWake _ | EvExit _ | EvExitWake _ => true | _ => false end
  end.

Definition stays_putb (k : Kernel KSched) (ev : Event) : bool := match ev with Between e => staysb (sch k) e | _ => true end.
Definition counter_leftb (k : Kernel KSched) (ev : Event) : bool :=
  match ev with Irq n => match ntfs k !! n with Some o => (value (nt_state o) <? U64_MAX)%Z | None => true end | _ => true end.
Definition one_waitb (_ : Kernel KSched) (ev : Event) : bool :=
  match ev with
  | Enter _ (SysWaitAny _ _ count deadline _) => (count =? 0) || (count =? 1) && (deadline =? no_deadline)%Z
  | _ => true
  end.

Fixpoint alongb (p : Kernel KSched -> Event -> bool) (k : Kernel KSched) (evs : list Event) : bool :=
  match evs with
  | [] => true
  | ev :: evs' => p k ev && match handle k ev with Ret x => alongb p x.2 evs' | Panic _ => true end
  end.

Lemma inside_sound k c p : inside k c p = true -> exists t, runs (sch k) c t /\ p (stacks k !! t) = true.
Proof.
  intros (i & Hc & H)%on_cpu_with_spec. apply andb_true_iff in H as [[H1 H2]%andb_true_iff H3].
  destruct (ks_threads (sch k) !! i) as [[kva|]|] eqn:E; try done. exists kva. split; [|done]. exists i. split; [|done].
  split; [done|]. split; by eapply bool_decide_eq_true_1.
Qed.

Lemma occursb_sound k ev : occursb k ev = true -> occurs k ev.
Proof.
  destruct ev as [c call|c|n|e]; cbn [occursb occurs].
  - intros [(t & Hr & Hs)%inside_sound Hc]%andb_true_iff. split; [exists t; split; [done|]; by destruct (stacks k !! t)|].
    destruct call; try done. by apply andb_true_iff in Hc as [?%Z.leb_le ?%Z.ltb_lt].
  - intros (t & Hr & Hs)%inside_sound. exists t. split; [done|]. destruct (stacks k !! t); [by eexists|done].
  - apply bool_decide_eq_true_1.
  - intros [H1 H2]%andb_true_iff. split; [by apply enabledb_sound|by destruct e].
Qed.

Lemma stays_putb_sound k ev : stays_putb k ev = true -> stays_put k ev.
Proof. destruct ev; try done. apply staysb_sound. Qed.
Lemma counter_leftb_sound k ev : counter_leftb k ev = true -> counter_left k ev.
Proof. destruct ev as [| |n|]; try done. cbn. intros H o Ho. rewrite Ho in H. by apply Z.ltb_lt. Qed.
Lemma one_waitb_sound k ev : one_waitb k ev = true -> one_wait k ev.
Proof.
  destruct ev as [c [| | | | | | |load va count deadline now|]| | |]; try done. cbn [one_waitb one_wait call_ok].
  intros [H%Nat.eqb_eq|[H%Nat.eqb_eq H3%Z.eqb_eq]%andb_true_iff]%orb_true_iff; [by left|by right].
Qed.

Lemma alongb_sound p P : (forall k ev, p k ev = true -> P k ev) ->
  forall evs k, alongb p k evs = true -> along P k evs.
Proof.
  intros Hp. induction evs as [|ev evs IH]; intros k H; [done|]. cbn [alongb along] in *.
  apply andb_true_iff in H as [H1 H2]. split; [auto|]. intros x E. rewrite E in H2. auto.
Qed.

(** ** An example system *)

Definition example_tcb (proc : Z) : Tcb := Ipc.mkTcb proc 0 no_msg 0 0 0 0 0 0 [] [].
Definition all_rights : Z := Z.lor RIGHT_READ RIGHT_WRITE.

Definition three_threads : KSched :=
  mkKS (mkSched [Some 0; None; None; None] (Some Sched.Running :: Some Sched.Ready :: Some Sched.Ready :: replicate 1021 None))
    (Some 4096%Z :: Some 8192%Z :: Some 12288%Z :: replicate 1021 None) true (replicate 4 None)
    {[4096%Z := KSched.mkTcb (Image 0) NO_DEADLINE STACK_CANARY; 8192%Z := KSched.mkTcb (DirectMap 0) NO_DEADLINE STACK_CANARY;
      12288%Z := KSched.mkTcb (DirectMap 1) NO_DEADLINE STACK_CANARY]} ∅.

Lemma three_threads_KI : KI three_threads.
Proof.
  destruct (add_spec two_threads 12288 1 two_threads_KI) as (r & k & E & I).
  - intros i Hi. pose proof (two_threads_slot i) as Hs. rewrite Hi in Hs. destruct i as [|[|i]]; discriminate Hs.
  - assert (add_thread (KSched.with_tcbs two_threads (<[12288%Z := KSched.mkTcb (DirectMap 1) NO_DEADLINE STACK_CANARY]> (ks_tcbs two_threads))) 12288 = Ret (true, three_threads)) as E'
      by (vm_compute; reflexivity).
    rewrite E' in E. injection E as _ <-. exact I.
Qed.

(** Three threads in two processes, which share an endpoint and two
    notifications; the second process has a reply object. *)
Definition example : Kernel KSched :=
  mkK {[100%Z := create_endpoint]} {[200%Z := create_reply]} {[300%Z := create_notification; 301%Z := create_notification]}
    {[4096%Z := example_tcb 1; 8192%Z := example_tcb 2; 12288%Z := example_tcb 2]}
    {[1%Z := [mkHandle all_rights (HEndpoint 100 (Some 7%Z)); mkHandle all_rights (HNotification 300); mkHandle all_rights (HNotification 301)];
      2%Z := [mkHandle all_rights (HEndpoint 100 (Some 9%Z)); mkHandle all_rights (HNotification 300); mkHandle all_rights (HNotification 301);
              mkHandle all_rights (HReply 200)]]}
    ∅ three_threads.

(** Looks a key up in a finite map given in full. *)
Ltac one_of H :=
  repeat first [apply lookup_insert_Some in H as [[<- <-]|[_ H]]
               |apply lookup_singleton_Some in H as [<- <-]
               |rewrite lookup_empty in H; discriminate H].

Lemma example_fresh : fresh example.
Proof.
  constructor.
  - apply three_threads_KI.
  - intros t. unfold deadline_of. destruct (ks_tcbs (sch example) !! t) as [x|] eqn:E; [|reflexivity].
    cbn [example sch three_threads ks_tcbs] in E. one_of E; reflexivity.
  - intros t (i & Hi). cbn [example sch three_threads ks_threads] in Hi.
    destruct i as [|[|[|i]]]; [injection Hi as <-|injection Hi as <-|injection Hi as <-|]; [eexists; reflexivity..|].
    cbn [lookup list_lookup] in Hi. by apply lookup_replicate in Hi as [[=] _].
  - split; reflexivity.
  - intros t x E. cbn [example tcbs] in E. one_of E; (split; [eexists; reflexivity|split; reflexivity]).
  - intros e x E. cbn [example eps] in E. one_of E; reflexivity.
  - intros e x E. cbn [example reps] in E. one_of E; reflexivity.
  - intros e x E. cbn [example ntfs] in E. one_of E; reflexivity.
  - reflexivity.
  - intros p slots h E Hin. cbn [example tables] in E.
    one_of E; repeat (apply elem_of_cons in Hin as [->|Hin]; [eexists; reflexivity|]); by apply elem_of_nil in Hin.
Qed.


(** Two entries at 4096, for the handles 1 and 2, both from value 1 on. *)
Definition two_entries (va : Z) : option WaitEntry :=
  if (va =? 4096)%Z then Some (mkWE 1 1) else if (va =? 4112)%Z then Some (mkWE 2 1) else None.

(** A server receives a client's call, answers it, takes the message another
    thread has left meanwhile, and waits for a notification that the client
    signals. *)
Definition rpc : list Event :=
  [Enter 0 (SysReceive 0); Enter 0 (SysCall 0 3 (1, 2, 3, 4)%Z); Enter 0 (SysSend 0 (9, 9, 9, 9)%Z);
   Between (EvBlockWake 0); Resume 0; Enter 0 SysQueryCallerToken; Enter 0 (SysReply (5, 6, 7, 8)%Z); Enter 0 (SysRecvNb 0);
   Enter 0 (SysWaitAny (Some two_entries) 4096 1 no_deadline 0); Between (EvBlockWake 0); Resume 0; Enter 0 (SysSignal 1 3);
   Between (EvTick 0 0); Between (EvBlockWake 0); Resume 0; Between (EvTick 0 0); Between (EvBlockWake 0); Resume 0].

(** The conditions of the theorems, by evaluation. *)
Ltac along_check :=
  first [apply (alongb_sound occursb); [apply occursb_sound|vm_compute; reflexivity]
        |apply (alongb_sound stays_putb); [apply stays_putb_sound|vm_compute; reflexivity]
        |apply (alongb_sound counter_leftb); [apply counter_leftb_sound|vm_compute; reflexivity]
        |apply (alongb_sound one_waitb); [apply one_waitb_sound|vm_compute; reflexivity]].

Definition rpc_returns : list (option SyscallReturn) :=
  [None; None; None; None; Some (Message OK [1; 2; 3; 4]%Z); Some (Value (Ok 9%Z)); Some (Void OK); Some (Message OK [9; 9; 9; 9]%Z);
   None; None; Some (Message OK [5; 6; 7; 8]%Z); Some (Void OK); None; None; Some (Void OK); None; None; Some (Value (Ok 1%Z))].

Definition returns (o : outcome (list (option SyscallReturn) * Kernel KSched)) : outcome (list (option SyscallReturn)) :=
  match o with Ret x => Ret x.1 | Panic p => Panic p end.

Lemma rpc_results : returns (Ipc.history example rpc) = Ret rpc_returns.
Proof. vm_compute. reflexivity. Qed.

(** A thread takes a client's call and exits without answering it; the boot
    thread, woken by an interrupt, makes the scheduler free the exited thread's
    control block. *)
Definition server_exits : list Event :=
  [Enter 0 (SysWaitNotification 1 1); Enter 0 (SysReceive 0); Enter 0 (SysCall 0 3 (1, 2, 3, 4)%Z); Between (EvBlockWake 0); Resume 0;
   Between (EvExit 0); Irq 300; Between (EvExitWake 0); Between (EvBlockWake 0); Resume 0; Between (EvTick 0 0)].

(** A wait on two notifications, each signalled before the waiter runs; and a
    wait on one with a deadline, which passes and is followed by the signal. *)
Definition two_signals : list Event :=
  [Enter 0 (SysWaitAny (Some two_entries) 4096 2 no_deadline 0); Enter 0 (SysSignal 1 1); Enter 0 (SysSignal 2 1)].
Definition late_signal : list Event :=
  [Enter 0 (SysWaitAny (Some two_entries) 4096 1 5 0); Between (EvTick 0 6); Enter 0 (SysSignal 1 1)].

(** * Theorems *)

(** C1: IPC refines its specification. From a fresh system, take any history
    of the IPC system calls of any threads on any CPUs, of threads returning
    from blocking calls, interrupts, timer ticks and exits, in any order in
    which they can happen ([occurs]), under three conditions, without each of
    which the kernel can panic: every thread leaves [block_current] on the CPU
    it entered it on ([stays_put]); an interrupt finds the counter of its
    notification below [u64::MAX] ([counter_left]); and no thread waits in one
    [sys_wait_any] for two objects, or for an object and a deadline
    ([one_wait]). Then the history runs without a panic, reads no control block
    the scheduler has freed, and the specification follows it: every message,
    token, blocking and return value of send, receive, call, reply and the
    non-blocking receive is the one of first-come-first-served ports and
    one-shot replies, and the endpoints, reply objects and threads of the
    kernel again stand for the specification's state. *)
Theorem ipc_refines k evs :
  fresh k -> along occurs k evs -> along stays_put k evs -> along counter_left k evs -> along one_wait k evs ->
  exists rs k' a', Ipc.history k evs = Ret (rs, k') /\ follows k (spec_init k) evs rs k' a' /\ Rel k' a' /\ SpecInv a'.
Proof. intros F. apply ipc_history_spec; [by apply fresh_Rel|apply spec_init_inv]. Qed.

Lemma ipc_refines_witness :
  exists k' a', Ipc.history example rpc = Ret (rpc_returns, k') /\ Rel k' a'.
Proof.
  destruct (ipc_refines example rpc example_fresh) as (rs & k' & a' & E & _ & RL & _); [along_check..|].
  exists k', a'. split; [|exact RL]. pose proof rpc_results as R. rewrite E in R. injection R as ->. exact E.
Defined.

(** C16: Replies are one-shot and exclusive. Take any state a fresh system
    reaches by a history of IPC calls, returns, interrupts, ticks and exits, in
    which threads leave [block_current] on the CPU they entered it on
    ([stays_put]), interrupts find their counter below [u64::MAX]
    ([counter_left]) and no thread waits for two things at once ([one_wait]).
    In it a reply object that is bound has a blocked caller, whose control
    block is still allocated. The caller either waits in the queue of exactly
    one endpoint while no control block names the reply; or it is in no queue,
    and then exactly one thread with an allocated control block owes the reply,
    or the thread that took the call has exited, its control block has been
    freed and no thread owes the reply: the caller then stays blocked. So a
    call is never owed by two threads, nor both queued and owed, and it is
    dropped only by the exit of the thread that took it. *)
Theorem ipc_replies_exclusive k evs :
  fresh k -> along occurs k evs -> along stays_put k evs -> along counter_left k evs -> along one_wait k evs ->
  exists rs k', Ipc.history k evs = Ret (rs, k') /\ exclusive k'.
Proof.
  intros F H1 H2 H3 H4.
  destruct (ipc_history_spec evs k _ (fresh_Rel k F) (spec_init_inv k) H1 H2 H3 H4) as (rs & k' & a' & E & _ & RL & I).
  exists rs, k'. split; [done|]. by eapply Rel_exclusive.
Qed.

Lemma ipc_replies_exclusive_witness :
  (exists rs k', Ipc.history example rpc = Ret (rs, k') /\ exclusive k') /\
  exists rs k', Ipc.history example server_exits = Ret (rs, k') /\ exclusive k' /\
    reps k' !! 200%Z = Some (mkReply REPLY_STATE_BOUND 12288) /\ tcb_live (sch k') 8192 = false.
Proof.
  split; [apply (ipc_replies_exclusive example rpc example_fresh); along_check|].
  destruct (ipc_replies_exclusive example server_exits example_fresh) as (rs & k' & E & X); [along_check..|].
  exists rs, k'. split; [exact E|]. split; [exact X|].
  assert (match Ipc.history example server_exits with
    | Ret (_, k) => Some (reps k !! 200%Z, tcb_live (sch k) 8192)
    | Panic _ => None end = Some (Some (mkReply REPLY_STATE_BOUND 12288), false)) as R by (vm_compute; reflexivity).
  rewrite E in R. injection R as R1 R2. exact (conj R1 R2).
Defined.

(** C35: Waiting for two things can panic the kernel. A thread in
    [sys_wait_any] stays registered with its objects until it runs again.
    When it waits for two notifications and another thread signals both, the
    second signal unblocks a thread that is not blocked, which panics; so does
    a signal after the wait's deadline has passed. All calls are ones any
    thread with the handles can make. *)
Theorem wait_any_double_wake_panics :
  fresh example /\
  (along occurs example two_signals /\ Ipc.history example two_signals = Panic PUnwrap) /\
  (along occurs example late_signal /\ Ipc.history example late_signal = Panic PUnwrap).
Proof.
  split; [apply example_fresh|]. split; (split; [|vm_compute; reflexivity]).
  - along_check.
  - along_check.
Qed.
