(* ===== verification/Process.v ===== *)
(** Processes: the lifecycle decisions and the creation plan of
    lockjaw-types/src/process.rs, ProcessObject (src/cap/process_obj.rs),
    process creation (src/process.rs, sys_create_process and the donation of
    src/syscall/handler.rs) and the exit of a thread (finish_exit of
    src/sched/scheduler.rs). *)
From Stdlib Require Import ZArith Lia.
From stdpp Require Import base option gmap numbers sets fin_sets list.
From S2P Require Import Ipc IpcState KSched DmaSync Prelude Frames Buddy BuddyInv Pools FrameAlloc PageSet Ownership KPageSet HeaderFrame PageTable Vmem Kvm KvmPool Handles Revoke SysPages AddrSpace.
Open Scope Z_scope.

(** * Decisions *)

Inductive ProcessLifecycle := ThreadsRemaining (n : Z) | LastThread | Immortal (n : Z).

Definition on_thread_exit (thread_count : Z) (immortal : bool) : outcome ProcessLifecycle :=
  assert (0 <? thread_count) ;;
  let new_count := thread_count - 1 in
  Ret (if immortal then Immortal new_count else if new_count =? 0 then LastThread else ThreadsRemaining new_count).

Definition on_thread_create (thread_count : Z) : outcome Z :=
  if thread_count + 1 <? 2 ^ 32 then Ret (thread_count + 1) else Panic PUnwrap.

Definition MAX_OWNED_PAGES : Z := 128.
Definition MAX_CONSUMED_HEADERS : Z := 32.

Inductive TransferError := TooManyTransferHeaders.

(** [headers] are the first [count] entries of an array of [cap]. *)
Definition dedup_add_header (header : Z) (headers : list Z) (cap : Z) : result (bool * list Z) TransferError :=
  if bool_decide (header ∈ headers) then Ok (false, headers) else
  if cap <=? Z.of_nat (length headers) then Err TooManyTransferHeaders else Ok (true, headers ++ [header]).

Inductive CreateProcessPlanError :=
  | PageSetKindParentHandle
  | BufferCapacityExceeded
  | TooManyHeaders
  | HandleTableTooSmall
  | SchedulerFull
  | StackAlreadyRecorded
  | ParentCopyAlreadyRecorded
  | EmptyParentHandle.

(** [parent_copy]: the rights and kind of the handle to copy. *)
Record ProcessCreationPlanBuilder := mkPlan {
  mapping_count : Z; stack_pages : Z; stack_recorded : bool; parent_copy : option (Z * HandleKind)
}.

Definition plan_new : ProcessCreationPlanBuilder := mkPlan 0 0 false None.

Definition record_mapping (b : ProcessCreationPlanBuilder) : ProcessCreationPlanBuilder :=
  mkPlan (mapping_count b + 1) (stack_pages b) (stack_recorded b) (parent_copy b).

Definition record_stack (b : ProcessCreationPlanBuilder) (pages : Z) : result ProcessCreationPlanBuilder CreateProcessPlanError :=
  if stack_recorded b then Err StackAlreadyRecorded else Ok (mkPlan (mapping_count b) pages true (parent_copy b)).

Definition record_parent_copy (b : ProcessCreationPlanBuilder) (e : HandleEntry) : result ProcessCreationPlanBuilder CreateProcessPlanError :=
  if bool_decide (is_Some (parent_copy b)) then Err ParentCopyAlreadyRecorded else
  match h_kind e with
  | HEmpty => Err EmptyParentHandle
  | HPageSet _ _ => Err PageSetKindParentHandle
  | kind => Ok (mkPlan (mapping_count b) (stack_pages b) (stack_recorded b) (Some (h_rights e, kind)))
  end.

Record ValidatedProcessCreationPlan := mkValidated { v_unique_header_count : Z; v_parent_copy : option (Z * HandleKind) }.

Definition plan_validate (b : ProcessCreationPlanBuilder) (scratch_capacity : Z) (scheduler_has_room : bool) (unique_header_count : Z)
  : outcome (result ValidatedProcessCreationPlan CreateProcessPlanError) :=
  fits ← validate_process_mappings (mapping_count b) (stack_pages b) scratch_capacity;
  Ret (if negb fits then Err BufferCapacityExceeded else
       if negb scheduler_has_room then Err SchedulerFull else
       let parent_copy_count := if bool_decide (is_Some (parent_copy b)) then 1 else 0 in
       if HANDLE_SLOTS_PER_PAGE <? unique_header_count + parent_copy_count then Err HandleTableTooSmall else
       Ok (mkValidated unique_header_count (parent_copy b))).

Inductive TeardownStep :=
  | FreeOwnedPages (count : Z)
  | FreeAddressSpace
  | CleanupHandleEntriesPtesGone
  | CleanupHandleEntriesNoAddressSpace
  | FreeHandleTable (page_count : Z)
  | FreeProcessPage.

Definition build_teardown_plan (owned_page_count : Z) (has_address_space has_handle_table : bool) (handle_table_page_count : Z) : list TeardownStep :=
  (if 0 <? owned_page_count then [FreeOwnedPages owned_page_count] else []) ++
  (if has_address_space then [FreeAddressSpace] else []) ++
  (if has_handle_table then
     (if has_address_space then [CleanupHandleEntriesPtesGone] else [CleanupHandleEntriesNoAddressSpace]) ++
     [FreeHandleTable handle_table_page_count]
   else []) ++
  [FreeProcessPage].

(** * State

    A ProcessObject besides its TTBR0 and the slots of its handle table, which
    are in [k_procs]; [po_ht] is the address of the handle table. *)
Record ProcessObject := mkPObj { po_ht : Z; po_threads : Z; po_immortal : bool; po_owned : list Z }.

(** An object that handles name, as it was made. *)
Inductive IpcObject := IEndpoint (o : EndpointObject) | INotification (o : NotificationObject) | IReply (o : ReplyObject).

(** ** What create_tcb writes *)

(** The kernel's code a new thread runs first. *)
Inductive KernelCode := process_entry | thread_entry.

(** The frame [context_switch] restores: x20 to x29 and the vector registers
    as lists. *)
Record SavedContext := mkSaved { x19 : KernelCode; x20_x29 : list Z; lr : KernelCode; fpcr : Z; fpsr : Z; vregs : list Z }.
Definition SAVED_CONTEXT_BYTES : Z := 624.

(** ThreadBootstrap::new *)
Definition thread_bootstrap (entry_fn thread_entry_addr : KernelCode) (stack_top : Z) : outcome (SavedContext * Z) :=
  saved_sp ← sub_chk stack_top SAVED_CONTEXT_BYTES;
  Ret (mkSaved entry_fn (replicate 10 0) thread_entry_addr 0 0 (replicate 32 0), saved_sp).

(** Where a new thread starts: the canary at the base of its kernel stack, the
    context at its top, and what [process_entry] enters user mode with. *)
Record ThreadStart := mkStart {
  ts_canary : Z; ts_context : SavedContext; ts_saved_sp : Z;
  user_entry_point : Z; user_stack_top : Z; user_stack_base : Z; user_arg : Z
}.

Definition tcb_start (stack_va entry_point stack_top stack_base arg : Z) : outcome ThreadStart :=
  top ← add_chk 64 stack_va PAGE_SIZE;
  boot ← thread_bootstrap process_entry thread_entry top;
  Ret (mkStart STACK_CANARY boot.1 boot.2 entry_point stack_top stack_base arg).

(** The kernel with its ProcessObjects, the stacks of its TCBs, the pool of
    kernel addresses (whose frames are the kernel's), the objects of IPC and
    what each TCB was made to start with. The maps keep what a freed TCB held;
    only those of the threads in the scheduler's slots are read. *)
Record World := mkWorld {
  w_k : Kernel;
  w_objs : gmap Z ProcessObject;
  w_stacks : gmap Z KernelStackBase;
  w_pool : KvmPool.Pool unit;
  w_ipc : gmap Z IpcObject;
  w_starts : gmap Z ThreadStart;
}.

Definition set_k (w : World) (k : Kernel) : World := mkWorld k (w_objs w) (w_stacks w) (w_pool w) (w_ipc w) (w_starts w).
Definition set_objs (w : World) (o : gmap Z ProcessObject) : World := mkWorld (w_k w) o (w_stacks w) (w_pool w) (w_ipc w) (w_starts w).

(** The pool over the kernel's frames, and back. *)
Definition pool_of (w : World) : KvmPool.Pool KMem :=
  mkPool (p_list (w_pool w)) (p_l1 (w_pool w)) (p_initialized (w_pool w)) (p_mem (w_pool w)) (k_mem (w_k w)).
Definition set_pool (w : World) (q : KvmPool.Pool KMem) : World :=
  mkWorld (with_mem (w_k w) (p_frames q)) (w_objs w) (w_stacks w) (mkPool (p_list q) (p_l1 q) (p_initialized q) (p_mem q) tt) (w_ipc w) (w_starts w).

(** process_push_owned_page *)
Definition push_owned_page (owned : list Z) (page_paddr : Z) : bool * list Z :=
  if bool_decide (page_paddr ∈ owned) then (true, owned) else
  if MAX_OWNED_PAGES <=? Z.of_nat (length owned) then (false, owned) else (true, owned ++ [page_paddr]).

(** The scheduler's slots (has_room and add_thread of src/sched/scheduler.rs;
    the states of the slots are in KSched). *)
Fixpoint free_slot (threads : list (option Z)) : option nat :=
  match threads with [] => None | None :: _ => Some O | Some _ :: rest => S <$> free_slot rest end.

Definition has_room (k : Kernel) : bool := bool_decide (is_Some (free_slot (k_threads k))).

Definition with_threads (k : Kernel) (ts : list (option Z)) (tp : gmap Z Z) : Kernel :=
  mkKernel (k_mem k) (k_pt k) (k_procs k) ts tp (k_next_token k).

(** The TCB's process_kva was written when the TCB was made. *)
Definition sched_add_thread (k : Kernel) (tcb : Z) : bool * Kernel :=
  match free_slot (k_threads k) with
  | Some i => (true, with_threads k (<[i := Some tcb]> (k_threads k)) (k_tcb_process k))
  | None => (false, k)
  end.

(** * Donations *)

(** validate_buddy_pageset: the header's address and its page count. *)
Definition validate_buddy_pageset (k : Kernel) (p ps_handle lo hi : Z) : outcome (result (Z * Z) SyscallError) :=
  pr ← unwrap (k_procs k !! p);
  match lookup (p_table pr) ps_handle RIGHT_WRITE OTPageSet with
  | Err e => Ret (Err e)
  | Ok entry =>
      match h_kind entry with
      | HPageSet header_kva _ =>
          backed ← read_header_backed (k_mem k) header_kva;
          match Hdr.origin (Hdr.bk_header backed) with
          | Some PageSet.Buddy =>
              if negb (h_map_count (Hdr.bk_header backed) =? 0) then Ret (Err INVALID_PARAMETER) else
              let count := Hdr.bk_count backed in
              if (lo <=? count) && (count <=? hi) then Ret (Ok (header_kva, count)) else Ret (Err INVALID_PARAMETER)
          | Some _ => Ret (Err INVALID_PARAMETER)
          | None => Ret (Err INVALID_HANDLE)
          end
      | _ => Ret (Err INVALID_HANDLE)
      end
  end.

(** ProcessPagesDonation: the header and the page count. Its [resolved] flag
    only guards against code that forgets to resolve it. *)
Record ProcessPagesDonation := mkDonation { d_header_kva : Z; d_page_count : Z }.

Definition donate_process_pages (k : Kernel) (p ps_handle : Z) : outcome (result ProcessPagesDonation SyscallError) :=
  r ← validate_buddy_pageset k p ps_handle PROCESS_MIN_PAGES PROCESS_MAX_PAGES;
  Ret (match r with Ok (h, n) => Ok (mkDonation h n) | Err e => Err e end).

(** page_paddr and obj_kva of a PageSet; PageSetRef::page reads the same way. *)
Definition ps_page (s : KMem) (header_kva idx : Z) : outcome (option Z) :=
  b ← read_header_backed s header_kva; Hdr.get_page b idx.

Definition obj_kva (s : KMem) (d : ProcessPagesDonation) (idx : Z) : outcome (option Z) :=
  o ← ps_page s (d_header_kva d) idx;
  match o with Some a => t ← add_chk 64 a KERNEL_VA_OFFSET; Ret (Some t) | None => Ret None end.

(** PageSetRef::from_header_kva and origin: the count and the origin. *)
Definition ps_ref (s : KMem) (header_kva : Z) : outcome (Z * option PageSetOrigin) :=
  l ← unwrap (trusted_layout s header_kva);
  b ← read_header_backed s header_kva;
  Ret (l.1, Hdr.origin (Hdr.bk_header b)).

Section Donate.
Context (cfg : Config).

(** The pages [start..n] of the donation: the snapshot of unclaimed ones. *)
Fixpoint snapshot (s : KMem) (header_kva idx : Z) (n : nat) : outcome (list Z) :=
  match n with
  | O => Ret []
  | S n' =>
      o ← ps_page s header_kva idx;
      r ← snapshot s header_kva (idx + 1) n';
      Ret (match o with Some a => a :: r | None => r end)
  end.

Fixpoint dealloc_addrs (l : list Z) (s : KMem) : outcome KMem :=
  match l with
  | [] => Ret s
  | a :: l' => s' ← @dealloc_at KMem (kframes cfg) a s; dealloc_addrs l' s'
  end.

Definition into_consumed (k : Kernel) (d : ProcessPagesDonation) (workspace_claimed : Z) : outcome Kernel :=
  let n := d_page_count d in
  workspace_total ← sub_chk n PROCESS_KERNEL_OBJ_PAGES;
  assert (workspace_claimed <=? workspace_total) ;;
  let start := PROCESS_KERNEL_OBJ_PAGES + workspace_claimed in
  assert (n - start <=? WORKSPACE_MAX_PAGES) ;;
  unclaimed ← snapshot (k_mem k) (d_header_kva d) start (Z.to_nat (n - start));
  k1 ← consume_pageset_apply cfg k (d_header_kva d);
  s ← dealloc_addrs unclaimed (k_mem k1);
  Ret (with_mem k1 s).
End Donate.

(** * create_process *)

Inductive CreateProcessError :=
  | OutOfMemory
  | BadHandle
  | InvalidUserMemory
  | TooManyOwnedPages
  | AddressSpaceMappingFailed
  | CpOutOfPageTables
  | PlanError (e : CreateProcessPlanError)
  | ConsumeValidateFailed (idx : Z).

Definition to_syscall_error (e : CreateProcessError) : SyscallError :=
  match e with
  | OutOfMemory | AddressSpaceMappingFailed => OUT_OF_MEMORY
  | CpOutOfPageTables => OUT_OF_PAGE_TABLES
  | PlanError SchedulerFull => QUEUE_FULL
  | PlanError HandleTableTooSmall => HANDLE_TABLE_FULL
  | PlanError PageSetKindParentHandle | BadHandle | PlanError EmptyParentHandle | ConsumeValidateFailed _ => INVALID_HANDLE
  | PlanError BufferCapacityExceeded | PlanError TooManyHeaders | TooManyOwnedPages | InvalidUserMemory => INVALID_PARAMETER
  | PlanError StackAlreadyRecorded | PlanError ParentCopyAlreadyRecorded => UNKNOWN
  end.

(** Provisioning only writes page-table memory: a computation reads and writes
    that memory and may fail. *)
Definition Prov (A : Type) : Type := gmap Z Z -> outcome (result A CreateProcessError * gmap Z Z).
Definition pret {A} (a : A) : Prov A := fun m => Ret (Ok a, m).
Definition pfail {A} (e : CreateProcessError) : Prov A := fun m => Ret (Err e, m).
Definition pbind {A B} (x : Prov A) (f : A -> Prov B) : Prov B :=
  fun m => r ← x m; match r with (Ok a, m') => f a m' | (Err e, m') => Ret (Err e, m') end.
Definition plift {A} (x : outcome A) : Prov A := fun m => a ← x; Ret (Ok a, m).
Declare Scope prov_scope.
Notation "x ⇐ c ; k" := (pbind c (fun x => k)) (at level 20, c at level 100, k at level 200, right associativity) : prov_scope.
Open Scope prov_scope.

(** [o.ok_or(e)?] and [r.map_err(f)?] *)
Definition ok_or {A} (o : option A) (e : CreateProcessError) : Prov A := match o with Some a => pret a | None => pfail e end.
Definition or_fail {A E} (r : result A E) (f : E -> CreateProcessError) : Prov A := match r with Ok a => pret a | Err e => pfail (f e) end.

Definition map_vmem_err (e : VmemError) : CreateProcessError :=
  match e with OutOfPageTables | TooManyL3Regions => CpOutOfPageTables | _ => AddressSpaceMappingFailed end.

Record ProcessMapping := mkPM { pm_virt_addr : Z; pm_pageset_id : Z; pm_page_index : Z; pm_flags : Z }.
Definition PROCESS_MAP_FLAG_EXECUTABLE : Z := 1.
Definition PROCESS_MAPPING_SIZE : Z := 32.
Definition USER_STACK_BASE : Z := 0x800000.

(** UserAddressSpace::read of a value of [size] bytes; [mem] is what memory holds
    at a physical address. *)
Definition user_read {A} (ttbr0 size align : Z) (mem : Z -> A) (va : Z) (m : gmap Z Z) : outcome (option A) :=
  if negb (validate_user_buffer va size) then Ret None else
  if negb (validate_intra_page va size) then Ret None else
  if negb (Z.land va (align - 1) =? 0) then Ret None else
  o ← translate_user_va (arr_peek m) ttbr0 va;
  Ret (match o with Some a => Some (mem a) | None => None end).

(** The mapping buffer in the current scratch page, the cursor and the builder. *)
Record Scratchpad := mkPad { pad_builder : AddressSpaceBuilder; pad_buf : list Mapping; pad_cursor : Scratch.ScratchCursor }.

Definition ZERO_MAPPING : Mapping := mkMapping 0 0 false false.
Definition zero_buf : list Mapping := replicate (Z.to_nat MAPPINGS_PER_PAGE) ZERO_MAPPING.

(** What creation records of the new process: its owned pages, the consumed
    headers and the plan. *)
Record Recorded := mkRec { rc_owned : list Z; rc_headers : list Z; rc_plan : ProcessCreationPlanBuilder }.

Section Create.
Context (cfg : Config).

Section Provision.
(** [s] is the kernel's memory, [pr] the caller and [d] the donation;
    [mem i] is what memory holds when mapping [i] is read. *)
Context (s : KMem) (pr : Proc) (d : ProcessPagesDonation) (scratch_kva : Z) (mem : Z -> Z -> ProcessMapping).

Definition builder_page (idx : Z) : outcome (option Z) := ps_page s (d_header_kva d) idx.

Definition flush (ms : list Mapping) (b : AddressSpaceBuilder) : Prov AddressSpaceBuilder :=
  fun m => x ← map_batch builder_page ms b m;
  Ret (match x.1 with Ok b => Ok b | Err e => Err (map_vmem_err e) end, x.2).

(** Writing one entry of the buffer and flushing a full page. *)
Definition write_mapping (mp : Mapping) (x : Scratchpad) : Prov Scratchpad :=
  buf ⇐ plift (if Scratch.offset (pad_cursor x) <? MAPPINGS_PER_PAGE
               then Ret (<[Z.to_nat (Scratch.offset (pad_cursor x)) := mp]> (pad_buf x)) else Panic PIndex);
  let '(action, c) := Scratch.advance (pad_cursor x) in
  match action with
  | Scratch.Continue => pret (mkPad (pad_builder x) buf c)
  | Scratch.FlushAndAdvance next_page_idx =>
      b ⇐ flush (take (Z.to_nat MAPPINGS_PER_PAGE) buf) (pad_builder x);
      o ⇐ plift (ps_page s scratch_kva next_page_idx);
      _ ⇐ ok_or o InvalidUserMemory;
      pret (mkPad b zero_buf (Scratch.did_advance c))
  end.

(** The PageSet a handle of the caller names. *)
Definition pageset_of (handle_reg : Z) : Prov Z :=
  entry ⇐ or_fail (lookup (p_table pr) (wrap 32 handle_reg) RIGHT_READ OTPageSet) (fun _ => BadHandle);
  match h_kind entry with HPageSet kva _ => pret kva | _ => pfail BadHandle end.

(** A PageSet of ordinary memory: its page count. *)
Definition buddy_count (kva : Z) : Prov Z :=
  x ⇐ plift (ps_ref s kva);
  match x.2 with Some PageSet.Buddy => pret x.1 | _ => pfail BadHandle end.

Definition push_owned (phys : Z) (r : Recorded) : Prov Recorded :=
  let '(pushed, owned) := push_owned_page (rc_owned r) phys in
  if pushed : bool then pret (mkRec owned (rc_headers r) (rc_plan r)) else pfail TooManyOwnedPages.

(** process_record_consumed_header, as record_mapping_into_plan and
    record_stack_into_plan call it. *)
Definition record_header (kva : Z) (r : Recorded) : Prov Recorded :=
  x ⇐ or_fail (dedup_add_header kva (rc_headers r) MAX_CONSUMED_HEADERS) (fun _ => PlanError TooManyHeaders);
  pret (mkRec (rc_owned r) x.2 (rc_plan r)).

Definition record_mapping_into_plan (kva : Z) (r : Recorded) : Prov Recorded :=
  r ⇐ record_header kva r;
  pret (mkRec (rc_owned r) (rc_headers r) (record_mapping (rc_plan r))).

Definition record_stack_into_plan (kva pages : Z) (r : Recorded) : Prov Recorded :=
  r ⇐ record_header kva r;
  plan ⇐ or_fail (record_stack (rc_plan r) pages) PlanError;
  pret (mkRec (rc_owned r) (rc_headers r) plan).

(** Mapping [i] of the caller's list. *)
Definition add_user_mapping (ttbr0 mappings_va i : Z) (x : Scratchpad * Recorded) : Prov (Scratchpad * Recorded) :=
  entry_va ⇐ plift (add_chk 64 mappings_va (i * PROCESS_MAPPING_SIZE));
  o ⇐ (fun m => a ← user_read ttbr0 PROCESS_MAPPING_SIZE 8 (mem i) entry_va m; Ret (Ok a, m));
  um ⇐ ok_or o InvalidUserMemory;
  ps_kva ⇐ pageset_of (pm_pageset_id um);
  if ps_kva =? d_header_kva d then pfail BadHandle else
  _ ⇐ buddy_count ps_kva;
  o ⇐ plift (ps_page s ps_kva (pm_page_index um));
  phys ⇐ ok_or o InvalidUserMemory;
  pad ⇐ write_mapping (mkMapping (pm_virt_addr um) phys true (negb (Z.land (pm_flags um) PROCESS_MAP_FLAG_EXECUTABLE =? 0))) x.1;
  r ⇐ push_owned phys x.2;
  r ⇐ record_mapping_into_plan ps_kva r;
  pret (pad, r).

(** Page [i] of the stack. *)
Definition add_stack_page (stack_kva i : Z) (x : Scratchpad * Recorded) : Prov (Scratchpad * Recorded) :=
  o ⇐ plift (ps_page s stack_kva i);
  phys ⇐ ok_or o InvalidUserMemory;
  pad ⇐ write_mapping (mkMapping (USER_STACK_BASE + i * PAGE_SIZE) phys true false) x.1;
  r ⇐ push_owned phys x.2;
  pret (pad, r).

Fixpoint repeat_from {A} (i : Z) (n : nat) (f : Z -> A -> Prov A) (a : A) : Prov A :=
  match n with O => pret a | S n' => a ⇐ f i a; repeat_from (i + 1) n' f a end.

(** Phases 2 to 4: the root of the new space, the workspace pages claimed and
    what was recorded. The handle table of 127 slots fits its page, and the TCB's
    process has a TTBR0, so neither initialisation fails. *)
Definition phase_2_4 (ttbr0 mappings_va count stack_kva stack_count scratch_count : Z) (plan : ProcessCreationPlanBuilder)
  : Prov (Z * Z * Recorded * list HandleEntry) :=
  workspace_capacity ⇐ plift (sub_chk (d_page_count d) PROCESS_KERNEL_OBJ_PAGES);
  b ⇐ (fun m => x ← builder_new builder_page (workspace_new workspace_capacity) m;
        Ret (match x.1 with Ok b => Ok b | Err e => Err (map_vmem_err e) end, x.2));
  x ⇐ repeat_from 0 (Z.to_nat count) (add_user_mapping ttbr0 mappings_va) (mkPad b zero_buf (Scratch.new scratch_count), mkRec [] [] plan);
  x ⇐ repeat_from 0 (Z.to_nat stack_count) (add_stack_page stack_kva) x;
  r ⇐ record_stack_into_plan stack_kva stack_count x.2;
  b ⇐ (if Scratch.has_pending (pad_cursor x.1)
       then flush (take (Z.to_nat (Scratch.pending_count (pad_cursor x.1))) (pad_buf x.1)) (pad_builder x.1)
       else pret (pad_builder x.1));
  let '(root, workspace_claimed) := finish b in
  slots ⇐ ok_or (create_handle_table HANDLE_SLOTS_PER_PAGE) OutOfMemory;
  if root =? 0 then pfail OutOfMemory else
  pret (root, workspace_claimed, r, slots).
End Provision.

(** The arguments of sys_create_process (ProcessCreateInfo); the name, a label
    for messages, is left out. *)
Record CreateArgs := mkArgs {
  a_mappings_ptr : Z; a_mapping_count : Z; a_stack_pageset_id : Z; a_scratch_pageset_id : Z; a_parent_handle_to_copy : Z; a_process_resources_ps : Z;
  a_entry_point : Z
}.

Definition from_donate_error (e : SyscallError) : CreateProcessError :=
  match e with INVALID_HANDLE | INSUFFICIENT_RIGHTS => BadHandle | _ => InvalidUserMemory end.

(** What phase 1 finds: the stack and scratch PageSets with their page counts,
    the plan and the donation. *)
Record Prepared := mkPrep { pp_stack : Z; pp_stack_count : Z; pp_scratch : Z; pp_scratch_count : Z; pp_plan : ProcessCreationPlanBuilder; pp_donation : ProcessPagesDonation }.

Definition phase_1 (k : Kernel) (p : Z) (pr : Proc) (a : CreateArgs) : Prov Prepared :=
  if negb (has_room k) then pfail (PlanError SchedulerFull) else
  stack_kva ⇐ pageset_of pr (a_stack_pageset_id a);
  stack_count ⇐ buddy_count (k_mem k) stack_kva;
  plan ⇐ (if a_parent_handle_to_copy a =? U64_MAX then pret plan_new else
          entry ⇐ or_fail (lookup_any (p_table pr) (wrap 32 (a_parent_handle_to_copy a)) rights_none) (fun _ => BadHandle);
          or_fail (record_parent_copy plan_new entry) PlanError);
  scratch_kva ⇐ pageset_of pr (a_scratch_pageset_id a);
  scratch_count ⇐ buddy_count (k_mem k) scratch_kva;
  if scratch_count =? 0 then pfail InvalidUserMemory else
  scratch_capacity ⇐ plift (mul_chk 64 scratch_count MAPPINGS_PER_PAGE);
  fits ⇐ plift (validate_process_mappings (a_mapping_count a) stack_count scratch_capacity);
  if negb fits then pfail (PlanError BufferCapacityExceeded) else
  r ⇐ plift (donate_process_pages k p (wrap 32 (a_process_resources_ps a)));
  d ⇐ or_fail r from_donate_error;
  pret (mkPrep stack_kva stack_count scratch_kva scratch_count plan d).

(** The consume-validate loop: the first header that fails. *)
Fixpoint validate_headers (k : Kernel) (idx : Z) (headers : list Z) : outcome (option CreateProcessError) :=
  match headers with
  | [] => Ret None
  | h :: rest =>
      r ← consume_pageset_validate k h;
      match r with Ok _ => validate_headers k (idx + 1) rest | Err _ => Ret (Some (ConsumeValidateFailed idx)) end
  end.

Fixpoint apply_headers (k : Kernel) (headers : list Z) : outcome Kernel :=
  match headers with [] => Ret k | h :: rest => k' ← consume_pageset_apply cfg k h; apply_headers k' rest end.

(** The copied handle in the child's table; an endpoint handle gets a fresh
    caller token. *)
Definition copy_parent (k : Kernel) (slots : list HandleEntry) (copy : option (Z * HandleKind)) : outcome (list HandleEntry * Kernel) :=
  match copy with
  | None => Ret (slots, k)
  | Some (rights, kind) =>
      x ← export_kind_of k kind;
      match ht_insert slots rights x.1 with
      | (Ok _, slots') => Ret (slots', x.2)
      | (Err _, _) => Panic PAssert
      end
  end.

(** The new process with its handle table, its TCB and its thread. They were
    written where they are now while nothing could reach them. *)
Definition start_process (w : World) (proc_kva ht_kva kstack_kva tcb_kva root : Z) (slots : list HandleEntry) (owned : list Z)
    (start : ThreadStart) : outcome World :=
  count ← on_thread_create 0;
  let k := w_k w in
  let k1 := mkKernel (k_mem k) (k_pt k) (<[proc_kva := mkProc root slots]> (k_procs k)) (k_threads k) (<[tcb_kva := proc_kva]> (k_tcb_process k)) (k_next_token k) in
  let '(added, k2) := sched_add_thread k1 tcb_kva in
  assert added ;;
  Ret (mkWorld k2 (<[proc_kva := mkPObj ht_kva count false owned]> (w_objs w)) (<[tcb_kva := DirectMap kstack_kva]> (w_stacks w)) (w_pool w) (w_ipc w)
    (<[tcb_kva := start]> (w_starts w))).

(** Phases 4 and 5: the plan and the recorded headers are validated, then the
    donation and the headers are consumed and the process starts. Phases 2 to
    4 left the page tables of [k]. *)
Definition phase_5 (w : World) (k : Kernel) (d : ProcessPagesDonation) (proc_kva ht_kva kstack_kva tcb_kva scratch_count : Z)
    (root workspace_claimed : Z) (r : Recorded) (slots : list HandleEntry) (start : ThreadStart) : outcome (result unit CreateProcessError * World) :=
  v ← plan_validate (rc_plan r) (scratch_count * MAPPINGS_PER_PAGE) (has_room k) (Z.of_nat (length (rc_headers r)));
  match v with
  | Err e => Ret (Err (PlanError e), set_k w k)
  | Ok plan =>
      v ← validate_headers k 0 (rc_headers r);
      match v with
      | Some e => Ret (Err e, set_k w k)
      | None =>
          k ← into_consumed cfg k d workspace_claimed;
          k ← apply_headers k (rc_headers r);
          y ← copy_parent k slots (v_parent_copy plan);
          w ← start_process (set_k w y.2) proc_kva ht_kva kstack_kva tcb_kva root y.1 (rc_owned r) start;
          Ret (Ok tt, w)
      end
  end.

(** Called by a thread of process [p], whose TTBR0 is not zero. *)
Definition create_process (w : World) (p : Z) (a : CreateArgs) (mem : Z -> Z -> ProcessMapping)
  : outcome (result unit CreateProcessError * World) :=
  let k := w_k w in
  pr ← unwrap (k_procs k !! p);
  x ← phase_1 k p pr a (k_pt k);
  match x with
  | (Err e, _) => Ret (Err e, w)
  | (Ok prep, m) =>
      let d := pp_donation prep in
      let s := k_mem k in
      o ← obj_kva s d 0; proc_kva ← unwrap o;
      o ← obj_kva s d 1; ht_kva ← unwrap o;
      o ← obj_kva s d 2; kstack_kva ← unwrap o;
      o ← obj_kva s d 3; tcb_kva ← unwrap o;
      o ← ps_page s (pp_scratch prep) 0; _ ← unwrap o;
      x ← phase_2_4 s pr d (pp_scratch prep) mem (p_ttbr0 pr) (a_mappings_ptr a) (a_mapping_count a) (pp_stack prep) (pp_stack_count prep)
            (pp_scratch_count prep) (pp_plan prep) m;
      match x with
      | (Err e, m) => Ret (Err e, set_k w (with_pt k m))
      | (Ok (root, workspace_claimed, r, slots), m) =>
          size ← mul_chk 64 (pp_stack_count prep) PAGE_SIZE;
          top ← add_chk 64 USER_STACK_BASE size;
          start ← tcb_start kstack_kva (a_entry_point a) top USER_STACK_BASE 0;
          phase_5 w (with_pt k m) d proc_kva ht_kva kstack_kva tcb_kva (pp_scratch_count prep) root workspace_claimed r slots start
      end
  end.

(** * Exit of a thread *)

(** [for i in 0..count]: the owned pages. *)
Definition free_owned_pages (owned : list Z) (count : Z) (s : KMem) : outcome KMem :=
  for_range 0 (Z.to_nat count) (fun i s =>
    match owned !! Z.to_nat i with Some a => @dealloc_at KMem (kframes cfg) a s | None => Ret s end) s.

(** The callback of the two handle cleanups. *)
Definition cleanup_ptes_gone (e : HandleEntry) (s : KMem) : outcome KMem :=
  match decide_close_handle (Some e) with
  | RemoveAndDecRef header_kva => dec_refcount_and_maybe_free cfg s header_kva
  | UnmapThenRemove header_kva _ => dec_both_and_maybe_free cfg s header_kva
  | _ => Ret s
  end.

Definition cleanup_no_address_space (e : HandleEntry) (s : KMem) : outcome KMem :=
  a ← decide_teardown_handle e;
  match a with DecRef header_kva => dec_refcount_and_maybe_free cfg s header_kva | Skip => Ret s end.

Fixpoint for_each_entry (f : HandleEntry -> KMem -> outcome KMem) (slots : list HandleEntry) (s : KMem) : outcome KMem :=
  match slots with
  | [] => Ret s
  | e :: rest => s' ← (if is_empty e then Ret s else f e s); for_each_entry f rest s'
  end.

Definition assert_direct_map_kva (kva : Z) : outcome unit := assert ((KERNEL_VA_OFFSET <=? kva) && (kva <? KVM_POOL_BASE)).

(** [dealloc_page] of the frame behind a direct-map address. *)
Definition dealloc_kva (kva : Z) (s : KMem) : outcome KMem := a ← sub_chk kva KERNEL_VA_OFFSET; @dealloc_at KMem (kframes cfg) a s.

Definition run_step (k : Kernel) (o : ProcessObject) (process_kva : Z) (pr : Proc) (step : TeardownStep) : outcome Kernel :=
  match step with
  | FreeOwnedPages count => s ← free_owned_pages (po_owned o) count (k_mem k); Ret (with_mem k s)
  | FreeAddressSpace => s ← @free_address_space KMem (kframes cfg) (k_pt k) (p_ttbr0 pr) (k_mem k); Ret (with_mem k s)
  | CleanupHandleEntriesPtesGone => s ← for_each_entry cleanup_ptes_gone (p_table pr) (k_mem k); Ret (with_mem k s)
  | CleanupHandleEntriesNoAddressSpace => s ← for_each_entry cleanup_no_address_space (p_table pr) (k_mem k); Ret (with_mem k s)
  | FreeHandleTable page_count =>
      assert_direct_map_kva (po_ht o) ;;
      s ← for_range 0 (Z.to_nat page_count) (fun i s => dealloc_kva (po_ht o + i * PAGE_SIZE) s) (k_mem k);
      Ret (with_mem k s)
  | FreeProcessPage =>
      assert_direct_map_kva process_kva ;;
      s ← dealloc_kva process_kva (k_mem k);
      Ret (with_procs (with_mem k s) (delete process_kva (k_procs k)))
  end.

Fixpoint run_teardown (k : Kernel) (o : ProcessObject) (process_kva : Z) (pr : Proc) (steps : list TeardownStep) : outcome Kernel :=
  match steps with [] => Ret k | st :: rest => k' ← run_step k o process_kva pr st; run_teardown k' o process_kva pr rest end.

Definition teardown_process (k : Kernel) (o : ProcessObject) (process_kva : Z) : outcome Kernel :=
  pr ← unwrap (k_procs k !! process_kva);
  let ht_page_count := if negb (po_ht o =? 0) then wrap 8 (query_handle_table_size (Z.of_nat (length (p_table pr)))) else 0 in
  run_teardown k o process_kva pr
    (build_teardown_plan (Z.of_nat (length (po_owned o))) (negb (p_ttbr0 pr =? 0)) (negb (po_ht o =? 0)) ht_page_count).

(** Steps 1 to 4 of finish_exit for the pending exit of [tcb_kva] in slot
    [idx], which runs on another thread. *)
Definition finish_exit (w : World) (idx : nat) (tcb_kva : Z) : outcome World :=
  stack_base ← unwrap (w_stacks w !! tcb_kva);
  process_kva ← unwrap (k_tcb_process (w_k w) !! tcb_kva);
  let w1 := set_k w (with_threads (w_k w) (<[idx := None]> (k_threads (w_k w))) (k_tcb_process (w_k w))) in
  w2 ← match stack_base with
       | Image _ => Panic PAssert
       | KSched.Pool stack_kva =>
           q ← @free_kernel_pages KMem (kframes cfg) (pool_of w1) stack_kva 1;
           q ← @free_kernel_pages KMem (kframes cfg) q tcb_kva 1;
           Ret (set_pool w1 q)
       | DirectMap stack_kva =>
           s ← dealloc_kva stack_kva (k_mem (w_k w1));
           s ← dealloc_kva tcb_kva s;
           Ret (set_k w1 (with_mem (w_k w1) s))
       end;
  o ← unwrap (w_objs w2 !! process_kva);
  lifecycle ← on_thread_exit (po_threads o) (po_immortal o);
  let new_count := match lifecycle with ThreadsRemaining n | Immortal n => n | LastThread => 0 end in
  let o' := mkPObj (po_ht o) new_count (po_immortal o) (po_owned o) in
  let w3 := set_objs w2 (<[process_kva := o']> (w_objs w2)) in
  match lifecycle with
  | LastThread => k ← teardown_process (w_k w3) o' process_kva; Ret (set_k w3 k)
  | _ => Ret w3
  end.
End Create.
