(* ===== verification/ProcSpec.v ===== *)
(** What provisioning a process does: the phases of create_process over a
    kernel whose accounting holds. *)
From Stdlib Require Import ZArith Lia.
From stdpp Require Import base option gmap numbers sets fin_sets list.
From S2P Require Import IpcState KSched DmaSync Prelude Frames Buddy BuddyInv Pools FrameAlloc PageSet Ownership KPageSet HeaderFrame PageTable Vmem Kvm KvmPool Handles Revoke SysPages AddrSpace Process.
Open Scope Z_scope.
Open Scope prov_scope.

(** * Reasoning about provisioning *)

Definition pwp {A} (x : Prov A) (Q : A -> gmap Z Z -> Prop) (E : CreateProcessError -> gmap Z Z -> Prop) (m : gmap Z Z) : Prop :=
  exists r m', x m = Ret (r, m') /\ match r with Ok a => Q a m' | Err e => E e m' end.

Lemma pwp_ret {A} (a : A) (Q : A -> gmap Z Z -> Prop) E m : Q a m -> pwp (pret a) Q E m.
Proof. intros H. by exists (Ok a), m. Qed.

Lemma pwp_fail {A} e (Q : A -> gmap Z Z -> Prop) (E : CreateProcessError -> gmap Z Z -> Prop) m : E e m -> pwp (pfail e) Q E m.
Proof. intros H. by exists (Err e), m. Qed.

Lemma pwp_bind {A B} (x : Prov A) (f : A -> Prov B) Q E m : pwp x (fun a m' => pwp (f a) Q E m') E m -> pwp (pbind x f) Q E m.
Proof.
  intros (r & m' & Ex & H). unfold pbind, pwp. rewrite Ex, bind_Ret. destruct r as [a|e]; [|by exists (Err e), m'].
  destruct H as (r & m2 & E2 & H). by exists r, m2.
Qed.

Lemma pwp_lift {A} (x : outcome A) a (Q : A -> gmap Z Z -> Prop) E m : x = Ret a -> Q a m -> pwp (plift x) Q E m.
Proof. intros -> H. unfold plift. exists (Ok a), m. by rewrite bind_Ret. Qed.

Lemma pwp_mono {A} (x : Prov A) (Q Q' : A -> gmap Z Z -> Prop) (E E' : CreateProcessError -> gmap Z Z -> Prop) m :
  pwp x Q E m -> (forall a m', Q a m' -> Q' a m') -> (forall e m', E e m' -> E' e m') -> pwp x Q' E' m.
Proof. intros (r & m' & Ex & H) HQ HE. exists r, m'. split; [done|]. destruct r; auto. Qed.

Lemma pwp_ok_or {A} (o : option A) e (Q : A -> gmap Z Z -> Prop) (E : CreateProcessError -> gmap Z Z -> Prop) m :
  (forall a, o = Some a -> Q a m) -> (o = None -> E e m) -> pwp (ok_or o e) Q E m.
Proof. intros H1 H2. destruct o; [by apply pwp_ret, H1|by apply pwp_fail, H2]. Qed.

Lemma pwp_or_fail {A X} (r : result A X) f (Q : A -> gmap Z Z -> Prop) (E : CreateProcessError -> gmap Z Z -> Prop) m :
  (forall a, r = Ok a -> Q a m) -> (forall e, r = Err e -> E (f e) m) -> pwp (or_fail r f) Q E m.
Proof. intros H1 H2. destruct r; [by apply pwp_ret, H1|by apply pwp_fail, H2]. Qed.

(** A counted loop keeps an invariant. *)
Lemma pwp_repeat {A} (f : Z -> A -> Prov A) (I : Z -> A -> gmap Z Z -> Prop) E n : forall i a m, I i a m ->
  (forall j a m, i <= j < i + Z.of_nat n -> I j a m -> pwp (f j a) (I (j + 1)) E m) ->
  pwp (repeat_from i n f a) (I (i + Z.of_nat n)) E m.
Proof.
  induction n as [|n IH]; intros i a m HI Hf; cbn [repeat_from].
  { apply pwp_ret. by rewrite Z.add_0_r. }
  apply pwp_bind. eapply pwp_mono; [apply Hf; [lia|done]| |auto]. intros a' m' H'. cbn beta.
  replace (i + Z.of_nat (Datatypes.S n)) with (i + 1 + Z.of_nat n) by lia. apply IH; [done|]. intros j a2 m2 Hj. apply Hf. lia.
Qed.

(** * PageSets of ordinary memory *)
Section Sets.
Context (cfg : Config) (Hcfg : config_ok cfg).
Context (G D : gset Z) (oB oD : nat -> list Z) (S : gmap Z AS) (k : Kernel) (K : sys_ok cfg G D oB oD S k).

(** [kva] is the PageSet of buddy pages in table slot [j]. *)
Record buddy_set (kva : Z) (j : nat) (e : PageSetEntry) : Prop := {
  bs_entry : table (k_mem k) !! j = Some (Some e);
  bs_kva : e_header_kva e = kva;
  bs_origin : e_origin e = PageSet.Buddy;
}.

Lemma set_backed j e : table (k_mem k) !! j = Some (Some e) ->
  read_header_backed (k_mem k) (e_header_kva e) = Ret (Hdr.backed (read_header (k_mem k) (e_header_kva e)) (e_count e)) /\
  trusted_layout (k_mem k) (e_header_kva e) = Some (e_count e, HeaderPool.header_pages_for (e_count e)) /\
  Hdr.origin (read_header (k_mem k) (e_header_kva e)) = Some (e_origin e) /\ 0 < e_count e <= MAX_PRACTICAL_PAGES_PER_SET.
Proof using K.
  intros He. pose proof (ok_mem _ _ _ _ _ _ _ K) as I. destruct (iv_entry _ _ _ _ _ _ _ I j e He) as [Hk Hc].
  split; [rewrite Hk; by eapply read_backed_spec|]. split; [by eapply trusted_layout_entry|]. split; [|done].
  pose proof (iv_pages _ _ _ _ _ _ _ I j) as Hs. unfold slot_ok in Hs. rewrite He in Hs. cbn [mjoin option_join] in Hs.
  rewrite decide_False in Hs by done. rewrite Hk. apply Hs.
Qed.

Lemma set_pages kva j e : buddy_set kva j e ->
  pages (read_header (k_mem k) kva) (e_count e) = addr_of cfg <$> oB j /\ Z.of_nat (length (oB j)) = e_count e.
Proof using K.
  intros [He Hk Ho]. pose proof (ok_mem _ _ _ _ _ _ _ K) as I. destruct (iv_entry _ _ _ _ _ _ _ I j e He) as [Hk' Hc].
  pose proof (iv_pages _ _ _ _ _ _ _ I j) as Hs. unfold slot_ok in Hs. rewrite He in Hs. cbn [mjoin option_join] in Hs.
  rewrite decide_False in Hs by done. destruct Hs as [_ Hs]. rewrite Ho in Hs. destruct Hs as [Hs _]. rewrite <- Hk' in Hs. rewrite Hk in Hs.
  split; [done|]. apply (f_equal length) in Hs. unfold pages in Hs. rewrite !length_fmap, length_seqZ in Hs. lia.
Qed.

Lemma ps_page_buddy kva j e i : buddy_set kva j e -> 0 <= i -> ps_page (k_mem k) kva i = Ret (addr_of cfg <$> oB j !! Z.to_nat i).
Proof using K.
  intros B Hi. destruct (set_pages kva j e B) as [Hp Hl]. destruct B as [He Hk Ho]. destruct (set_backed j e He) as (Hb & _ & _ & Hc). rewrite Hk in Hb.
  unfold ps_page. rewrite Hb, bind_Ret, Hdr.get_page_spec by (done || split; done). cbn [Hdr.backed Hdr.bk_count Hdr.bk_header].
  rewrite <- list_lookup_fmap, <- Hp. unfold pages. rewrite list_lookup_fmap.
  destruct (Z.ltb_spec i (e_count e)) as [L|L].
  - rewrite lookup_seqZ_lt by lia. cbn. do 3 f_equal. lia.
  - rewrite lookup_seqZ_ge by lia. done.
Qed.

(** The pages of PageSets: page addresses, of different pages, no table of any
    address space. *)
Lemma set_page_range j i idx : oB j !! i = Some idx -> 0 <= idx < total_pages (plat cfg) /\ idx ∉ G.
Proof using K. intros H. destruct (pt_own _ _ _ _ (iv_B _ _ _ _ _ _ _ (ok_mem _ _ _ _ _ _ _ K)) j i idx H) as (H1 & _ & H2). done. Qed.

Lemma addr_of_page idx : 0 <= idx < total_pages (plat cfg) -> page_addr (addr_of cfg idx) /\ addr_of cfg idx / 4096 = frame_of cfg idx.
Proof using Hcfg.
  intros Hi. destruct (frame_of_eq cfg idx Hcfg Hi) as [E R]. unfold PAGE_SIZE in E. rewrite <- E. split; [|apply Z.div_mul; lia].
  split; [lia|by apply Z.mod_mul].
Qed.

Lemma addr_of_inj i j : addr_of cfg i = addr_of cfg j -> i = j.
Proof using. unfold addr_of, PAGE_SIZE. lia. Qed.

Lemma set_page_not_table j i idx r a : oB j !! i = Some idx -> S !! r = Some a -> ~ as_page r a (addr_of cfg idx).
Proof using K Hcfg.
  intros Hi Hr Hq. destruct (set_page_range j i idx Hi) as [Hx HG]. pose proof (ok_tables _ _ _ _ _ _ _ K r a _ Hr Hq) as Ht.
  apply elem_of_map in Ht as (idx' & E & Hin). destruct (addr_of_page idx Hx) as [_ E']. rewrite E' in E.
  apply frame_of_inj in E; [|done|done|by apply (pt_G _ _ _ _ (iv_B _ _ _ _ _ _ _ (ok_mem _ _ _ _ _ _ _ K)))]. by subst idx'.
Qed.

(** The PageSet a handle of a process names. *)
Definition names (pr : Proc) (reg kva : Z) : Prop :=
  exists entry mv, lookup (p_table pr) (wrap 32 reg) RIGHT_READ OTPageSet = Ok entry /\ h_kind entry = HPageSet kva mv.

Lemma pageset_of_spec p pr reg m : k_procs k !! p = Some pr ->
  pwp (pageset_of pr reg) (fun kva m' => m' = m /\ names pr reg kva /\ exists j e, table (k_mem k) !! j = Some (Some e) /\ e_header_kva e = kva)
    (fun e m' => m' = m /\ e = BadHandle) m.
Proof using K.
  intros Hp. unfold pageset_of. apply pwp_bind, pwp_or_fail; [|done]. intros entry El. pose proof El as El'. apply lookup_ok in El as [Hi Hty].
  destruct (h_kind entry) as [| | | | | | |kva mv] eqn:Ek; try (by apply pwp_fail). apply pwp_ret. split; [done|]. split; [by exists entry, mv|].
  destruct (ok_handle _ _ _ _ _ _ _ K p pr _ entry kva mv Hp Hi Ek) as (j & e & Hj & <- & _). by exists j, e.
Qed.

Lemma buddy_count_spec j e m : table (k_mem k) !! j = Some (Some e) ->
  pwp (buddy_count (k_mem k) (e_header_kva e)) (fun n m' => m' = m /\ n = e_count e /\ buddy_set (e_header_kva e) j e) (fun e m' => m' = m /\ e = BadHandle) m.
Proof using K.
  intros He. destruct (set_backed j e He) as (Hb & Ht & Ho & _). unfold buddy_count. apply pwp_bind.
  eapply pwp_lift; [unfold ps_ref; rewrite Ht; cbn [unwrap]; rewrite bind_Ret, Hb, bind_Ret; reflexivity|].
  cbn [fst snd Hdr.backed Hdr.bk_header]. rewrite Ho. destruct (e_origin e) eqn:Eo; [|by apply pwp_fail|by apply pwp_fail].
  apply pwp_ret. done.
Qed.
End Sets.

(** * Phases 2 to 4 *)
Section Provisioning.
Context (cfg : Config) (Hcfg : config_ok cfg).
Context (G D : gset Z) (oB oD : nat -> list Z) (S : gmap Z AS) (k : Kernel) (K : sys_ok cfg G D oB oD S k).
Context (p : Z) (pr : Proc) (Hp : k_procs k !! p = Some pr).
Context (d : ProcessPagesDonation) (jd : nat) (ed : PageSetEntry) (Hd : buddy_set k (d_header_kva d) jd ed).
Context (Hdc : d_page_count d = e_count ed) (Hdr : PROCESS_MIN_PAGES <= e_count ed <= PROCESS_MAX_PAGES).
Context (scratch_kva : Z) (jc : nat) (ec : PageSetEntry) (Hc : buddy_set k scratch_kva jc ec).

Definition obj_page (i : Z) : Z := default 0 (addr_of cfg <$> oB jd !! Z.to_nat i).
Definition ws_page (i : Z) : Z := obj_page (PROCESS_KERNEL_OBJ_PAGES + i).
Definition ws_cap : Z := e_count ed - PROCESS_KERNEL_OBJ_PAGES.

(** Page-table memory as the address spaces see it. *)
Definition kept (m : gmap Z Z) : Prop := spaces_ok m S /\ forall r u, sview m S r u = sview (k_pt k) S r u.

Lemma obj_page_spec i : 0 <= i < e_count ed ->
  exists idx, oB jd !! Z.to_nat i = Some idx /\ obj_page i = addr_of cfg idx /\ page_addr (obj_page i) /\
    (forall r a, S !! r = Some a -> ~ as_page r a (obj_page i)).
Proof using K Hcfg Hd.
  intros Hi. destruct (set_pages _ _ _ _ _ _ _ K _ _ _ Hd) as [_ Hl]. destruct (lookup_lt_is_Some_2 (oB jd) (Z.to_nat i)) as [idx Hx]; [lia|].
  exists idx. unfold obj_page. rewrite Hx. cbn. destruct (set_page_range _ _ _ _ _ _ _ K _ _ _ Hx) as [Hr _].
  split; [done|]. split; [done|]. split; [by apply addr_of_page|]. intros r a Hr'. by eapply set_page_not_table.
Qed.

Lemma obj_page_inj i i' : 0 <= i < e_count ed -> 0 <= i' < e_count ed -> obj_page i = obj_page i' -> i = i'.
Proof using K Hcfg Hd.
  intros Hi Hi' E. destruct (obj_page_spec i Hi) as (x & Hx & Ex & _), (obj_page_spec i' Hi') as (x' & Hx' & Ex' & _).
  rewrite Ex, Ex' in E. apply addr_of_inj in E as ->.
  destruct (pt_inj _ _ _ _ (iv_B _ _ _ _ _ _ _ (ok_mem _ _ _ _ _ _ _ K)) _ _ _ _ _ Hx Hx') as [_ ?]. lia.
Qed.

Lemma ws_bounds : WORKSPACE_MIN_PAGES <= ws_cap.
Proof using Hdr. unfold ws_cap, PROCESS_MIN_PAGES in *. lia. Qed.

Lemma ws_builder i : 0 <= i < ws_cap -> builder_page (k_mem k) d (PROCESS_KERNEL_OBJ_PAGES + i) = Ret (Some (ws_page i)).
Proof using K Hcfg Hd.
  intros Hi. unfold ws_cap, PROCESS_KERNEL_OBJ_PAGES in *. unfold builder_page. rewrite (ps_page_buddy _ _ _ _ _ _ _ K _ _ _ _ Hd) by lia.
  destruct (obj_page_spec (4 + i)) as (x & Hx & Ex & _); [lia|]. unfold ws_page. change PROCESS_KERNEL_OBJ_PAGES with 4. by rewrite Ex, Hx.
Qed.

Lemma ws_inj i j : 0 <= i < ws_cap -> 0 <= j < ws_cap -> ws_page i = ws_page j -> i = j.
Proof using K Hcfg Hd. intros Hi Hj E. unfold ws_cap, ws_page, PROCESS_KERNEL_OBJ_PAGES in *. apply obj_page_inj in E; lia. Qed.

Lemma ws_addr i : 0 <= i < ws_cap -> page_addr (ws_page i).
Proof using K Hcfg Hd. intros Hi. unfold ws_cap, ws_page, PROCESS_KERNEL_OBJ_PAGES in *. destruct (obj_page_spec (4 + i)) as (x & _ & _ & H & _); [lia|done]. Qed.

Lemma ws_fresh i r a : 0 <= i < ws_cap -> S !! r = Some a -> ~ as_page r a (ws_page i).
Proof using K Hcfg Hd. intros Hi. unfold ws_cap, ws_page, PROCESS_KERNEL_OBJ_PAGES in *. destruct (obj_page_spec (4 + i)) as (x & _ & _ & _ & H); [lia|by apply H]. Qed.

Abbreviation bt := (built S ws_page ws_cap (k_pt k)).

Lemma built_kept m b a : bt m b a -> kept m.
Proof using K Hcfg Hd Hdr.
  intros B. assert (N : S !! ws_page 0 = None) by (apply (root_fresh S ws_page ws_cap); [apply ws_bounds|intros; by apply ws_fresh]). split.
  - destruct (bu_spaces _ _ _ _ _ _ _ B) as [Ho Hs]. constructor.
    + intros r a' Hr. apply Ho. by rewrite lookup_insert_ne by congruence.
    + intros r r' a1 a2 q H1 H2. apply (Hs r r' a1 a2 q); rewrite lookup_insert_ne by congruence; done.
  - intros r u. destruct (decide (r = ws_page 0)) as [->|Hne]; [unfold sview; by rewrite N|by apply B].
Qed.

Lemma kept_now : kept (k_pt k).
Proof using K. split; [apply (ok_spaces _ _ _ _ _ _ _ K)|done]. Qed.

(** The buffer holds the mappings not yet flushed. *)
Record pad_ok (done : list Mapping) (x : Scratchpad) (m : gmap Z Z) : Prop := {
  pk_flushed : exists a flushed, bt m (pad_builder x) a /\ (forall u, as_view m a u = view_of flushed u) /\
    done = flushed ++ take (Z.to_nat (Scratch.offset (pad_cursor x))) (pad_buf x) /\
    Z.of_nat (length flushed) = Scratch.page_idx (pad_cursor x) * MAPPINGS_PER_PAGE;
  pk_len : length (pad_buf x) = Z.to_nat MAPPINGS_PER_PAGE;
  pk_pages : Scratch.total_pages (pad_cursor x) = e_count ec /\ 0 <= Scratch.page_idx (pad_cursor x) < e_count ec;
  pk_offset : 0 <= Scratch.offset (pad_cursor x) <= MAPPINGS_PER_PAGE;
  pk_full : Scratch.offset (pad_cursor x) = MAPPINGS_PER_PAGE -> Scratch.page_idx (pad_cursor x) + 1 = e_count ec;
}.

Lemma flush_spec ms flushed m b a : bt m b a -> (forall u, as_view m a u = view_of flushed u) ->
  pwp (flush (k_mem k) d ms b) (fun b' m' => exists a', bt m' b' a' /\ forall u, as_view m' a' u = view_of (flushed ++ ms) u)
    (fun e m' => e = CpOutOfPageTables /\ kept m') m.
Proof using K Hcfg Hd Hdr.
  intros B V. destruct (map_batch_spec S (builder_page (k_mem k) d) ws_page ws_cap (k_pt k) ws_bounds ws_builder ws_inj ws_addr ws_fresh ms flushed m b a B V)
    as (r & m' & E & Hr).
  exists (match r with Ok b => Ok b | Err e => Err (map_vmem_err e) end), m'. unfold flush. rewrite E, bind_Ret. split; [done|]. destruct r as [b'|e]; [done|].
  destruct Hr as (-> & b' & a' & B'). split; [done|]. by eapply built_kept.
Qed.

Lemma write_mapping_spec done mp x m : pad_ok done x m -> Z.of_nat (length done) < e_count ec * MAPPINGS_PER_PAGE ->
  pwp (write_mapping (k_mem k) d scratch_kva mp x) (pad_ok (done ++ [mp])) (fun e m' => e = CpOutOfPageTables /\ kept m') m.
Proof using K Hcfg Hd Hdr Hc.
  intros [(a & fl & B & V & Ed & Hfl) Hlen [Htp Hpi] Hoff Hfull] Hroom. destruct x as [b buf [pi off tp tw]]. cbn in *. subst tp.
  assert (Hln : length (take (Z.to_nat off) buf) = Z.to_nat off) by (rewrite length_take; unfold MAPPINGS_PER_PAGE in *; lia).
  assert (off < MAPPINGS_PER_PAGE).
  { destruct (Z.eq_dec off MAPPINGS_PER_PAGE) as [->|]; [|lia]. specialize (Hfull eq_refl). rewrite Ed, length_app, Hln in Hroom. unfold MAPPINGS_PER_PAGE in *. nia. }
  unfold write_mapping. cbn. apply pwp_bind. eapply pwp_lift; [rewrite (proj2 (Z.ltb_lt _ _)) by done; reflexivity|].
  set (buf' := <[Z.to_nat off := mp]> buf).
  assert (Hlen' : length buf' = Z.to_nat MAPPINGS_PER_PAGE) by (unfold buf'; by rewrite length_insert).
  assert (Hbuf' : take (Z.to_nat (off + 1)) buf' = take (Z.to_nat off) buf ++ [mp]).
  { unfold buf'. replace (Z.to_nat (off + 1)) with (Datatypes.S (Z.to_nat off)) by lia.
    rewrite (take_S_r _ _ mp) by (apply list_lookup_insert_eq; unfold MAPPINGS_PER_PAGE in *; lia). by rewrite take_insert_ge by lia. }
  unfold Scratch.advance. cbn. destruct ((MAPPINGS_PER_PAGE <=? off + 1) && (pi + 1 <? e_count ec)) eqn:Ea.
  - apply andb_true_iff in Ea as [E1%Z.leb_le E2%Z.ltb_lt]. assert (off + 1 = MAPPINGS_PER_PAGE) as Eoff by lia.
    rewrite (take_ge buf') by lia. apply pwp_bind. eapply pwp_mono; [by apply (flush_spec buf' fl m b a)| |done].
    intros b' m' (a' & B' & V'). apply pwp_bind. eapply pwp_lift.
    { apply (ps_page_buddy _ _ _ _ _ _ _ K _ _ _ _ Hc). lia. }
    apply pwp_bind, pwp_ok_or; [|intros E; exfalso].
    2:{ destruct (set_pages _ _ _ _ _ _ _ K _ _ _ Hc) as [_ Hl]. destruct (lookup_lt_is_Some_2 (oB jc) (Z.to_nat (pi + 1))) as [y Hy]; [lia|]. by rewrite Hy in E. }
    intros _ _. apply pwp_ret. constructor; cbn.
    + exists a', (fl ++ buf'). split; [done|]. split; [done|]. rewrite app_nil_r. split.
      * rewrite Ed, <- app_assoc. f_equal. rewrite <- Hbuf', Eoff. by rewrite take_ge by lia.
      * rewrite length_app, Hlen'. unfold MAPPINGS_PER_PAGE in *. lia.
    + done.
    + split; [done|lia].
    + unfold MAPPINGS_PER_PAGE. lia.
    + done.
  - apply andb_false_iff in Ea. apply pwp_ret. constructor; cbn; try done.
    + exists a, fl. rewrite Hbuf', Ed, app_assoc. done.
    + lia.
    + intros E. destruct Ea as [Ea%Z.leb_gt|Ea%Z.ltb_ge]; lia.
Qed.

Context (mem : Z -> Z -> ProcessMapping) (Hmem : forall i a, 0 <= pm_page_index (mem i a)).

(** Every mapping's page is a page of one of the PageSets [hs]; the owned pages
    are those pages. *)
Record rec_ok (hs : list Z) (done : list Mapping) (r : Recorded) : Prop := {
  ro_nodup : NoDup (rc_owned r);
  ro_owned : forall q, q ∈ rc_owned r <-> exists mp, mp ∈ done /\ phys_addr mp = q;
  ro_src : forall mp, mp ∈ done -> exists kva j e i idx, kva ∈ hs /\ buddy_set k kva j e /\ oB j !! i = Some idx /\ phys_addr mp = addr_of cfg idx;
}.

(** The recorded headers are different PageSets, none of them the donation. *)
Record hdrs_ok (r : Recorded) : Prop := {
  ho_nodup : NoDup (rc_headers r);
  ho_set : forall h, h ∈ rc_headers r -> h <> d_header_kva d /\ exists j e, buddy_set k h j e;
}.

Lemma push_owned_spec phys hs done r mp m : phys_addr mp = phys -> rec_ok hs done r ->
  (exists kva j e i idx, kva ∈ hs /\ buddy_set k kva j e /\ oB j !! i = Some idx /\ phys = addr_of cfg idx) ->
  pwp (push_owned phys r) (fun r' m' => m' = m /\ rec_ok hs (done ++ [mp]) r' /\ rc_headers r' = rc_headers r /\ rc_plan r' = rc_plan r)
    (fun e m' => e = TooManyOwnedPages /\ m' = m) m.
Proof using Hdr.
  intros Em [R1 R2 R3] Hsrc. unfold push_owned, push_owned_page.
  assert (R3' : forall mp', mp' ∈ done ++ [mp] -> exists kva j e i idx, kva ∈ hs /\ buddy_set k kva j e /\ oB j !! i = Some idx /\ phys_addr mp' = addr_of cfg idx).
  { intros mp' [Hin| ->%list_elem_of_singleton]%elem_of_app; [by apply R3|by rewrite Em]. }
  assert (R2' : forall q, (exists mp', mp' ∈ done ++ [mp] /\ phys_addr mp' = q) <-> q ∈ rc_owned r \/ q = phys).
  { intros q. rewrite R2. split.
    - intros (mp' & [Hin| ->%list_elem_of_singleton]%elem_of_app & <-); [left; by exists mp'|by right].
    - intros [(mp' & Hin & <-)| ->]; [exists mp'|exists mp]; rewrite elem_of_app; (split; [|done]); [by left|right; by apply list_elem_of_singleton]. }
  destruct (decide (phys ∈ rc_owned r)) as [Hin|Hin].
  - rewrite bool_decide_eq_true_2 by done. apply pwp_ret. split; [done|]. split; [|done]. constructor; cbn; [done| |done].
    intros q. rewrite R2'. split; [tauto|]. intros [| ->]; done.
  - rewrite bool_decide_eq_false_2 by done. destruct (MAX_OWNED_PAGES <=? _); [by apply pwp_fail|]. apply pwp_ret. split; [done|]. split; [|done].
    constructor; cbn; [|intros q; rewrite R2', elem_of_app, list_elem_of_singleton; tauto|done].
    apply NoDup_app. split; [done|]. split; [|apply NoDup_singleton]. by intros x Hx ->%list_elem_of_singleton.
Qed.

Lemma record_header_spec kva j e hs done r m : buddy_set k kva j e -> kva <> d_header_kva d -> hdrs_ok r -> rec_ok hs done r ->
  pwp (record_header kva r) (fun r' m' => m' = m /\ hdrs_ok r' /\ rec_ok hs done r' /\ rc_plan r' = rc_plan r /\ kva ∈ rc_headers r' /\ rc_headers r ⊆ rc_headers r' /\
      rc_headers r' ⊆ kva :: rc_headers r)
    (fun e m' => e = PlanError TooManyHeaders /\ m' = m) m.
Proof using Hdr.
  intros B Hne [H1 H2] [R1 R2 R3]. unfold record_header, dedup_add_header. apply pwp_bind, pwp_or_fail.
  - intros [b hs'] E. apply pwp_ret. cbn. split; [done|]. destruct (decide (kva ∈ rc_headers r)) as [Hin|Hin].
    + rewrite bool_decide_eq_true_2 in E by done. injection E as _ <-. split; [by constructor|]. split; [by constructor|]. split; [done|]. split; [done|]. split; [done|].
      intros x Hx. by right.
    + rewrite bool_decide_eq_false_2 in E by done. destruct (_ <=? _); [done|]. injection E as _ <-.
      assert (Hk : kva ∈ rc_headers r ++ [kva]) by (apply elem_of_app; right; by apply list_elem_of_singleton).
      assert (Hi : rc_headers r ⊆ rc_headers r ++ [kva]) by (intros x Hx; apply elem_of_app; by left).
      assert (Ho : rc_headers r ++ [kva] ⊆ kva :: rc_headers r) by (intros x [Hx| ->%list_elem_of_singleton]%elem_of_app; [by right|by left]).
      split; [constructor; cbn|split; [by constructor|done]].
      * apply NoDup_app. split; [done|]. split; [|apply NoDup_singleton]. by intros x Hx ->%list_elem_of_singleton.
      * intros h [Hh| ->%list_elem_of_singleton]%elem_of_app; [by apply H2|]. split; [done|by exists j, e].
  - intros e' E. destruct e'. done.
Qed.

Lemma rec_ok_mono hs hs' done r : rec_ok hs done r -> hs ⊆ hs' -> rec_ok hs' done r.
Proof using.
  intros [R1 R2 R3] Hsub. constructor; [done|done|]. intros mp Hin. destruct (R3 mp Hin) as (kva & j & e & i & idx & Hk & H). exists kva, j, e, i, idx. split; [by apply Hsub|done].
Qed.

Context (stack_kva : Z) (js : nat) (es : PageSetEntry) (Hs : buddy_set k stack_kva js es) (Hsd : stack_kva <> d_header_kva d).
Context (mappings_va count : Z) (Hva : 0 <= mappings_va < 2 ^ 64) (Hcount : 0 < count) (Hfit : count + e_count es <= e_count ec * MAPPINGS_PER_PAGE).
Context (pc : option (Z * HandleKind)).

(** Mapping [i] of the new space, as the caller's list has it. *)
Definition from_user (i : Z) (mp : Mapping) : Prop :=
  exists pa kva j e, let um := mem i pa in
    virt_addr mp = pm_virt_addr um /\ user_accessible mp = true /\ m_executable mp = negb (Z.land (pm_flags um) PROCESS_MAP_FLAG_EXECUTABLE =? 0) /\
    names pr (pm_pageset_id um) kva /\ kva <> d_header_kva d /\ buddy_set k kva j e /\
    addr_of cfg <$> oB j !! Z.to_nat (pm_page_index um) = Some (phys_addr mp).

Record user_inv (i : Z) (x : Scratchpad * Recorded) (m : gmap Z Z) : Prop := {
  ui_va : i = 0 \/ mappings_va + i * PROCESS_MAPPING_SIZE <= USER_VA_END;
  ui_maps : exists done, Z.of_nat (length done) = i /\ pad_ok done x.1 m /\ rec_ok (rc_headers x.2) done x.2 /\
    (forall n mp, done !! n = Some mp -> from_user (Z.of_nat n) mp);
  ui_hdrs : hdrs_ok x.2;
  ui_plan : rc_plan x.2 = mkPlan i 0 false pc;
}.

Lemma user_read_spec {A} ttbr0 size align (f : Z -> A) va m : 0 <= va -> 0 <= size ->
  exists o, user_read ttbr0 size align f va m = Ret o /\ (forall v, o = Some v -> va + size <= USER_VA_END /\ exists pa, v = f pa).
Proof using.
  intros H0 H1. unfold user_read, validate_user_buffer, checked_add64. change IpcState.USER_VA_END with USER_VA_END.
  destruct (Z.leb_spec (va + size) U64_MAX); cbn [negb]; [|by exists None].
  destruct (Z.ltb_spec va USER_VA_END); cbn [andb negb]; [|by exists None].
  destruct (Z.leb_spec (va + size) USER_VA_END); cbn [negb]; [|by exists None].
  destruct (validate_intra_page va size); cbn [negb]; [|by exists None]. destruct (_ =? 0); cbn [negb]; [|by exists None].
  rewrite translate_spec, bind_Ret. eexists. split; [reflexivity|]. intros v Hv. split; [done|]. destruct (translation _ _ _) as [pa|]; [|done].
  injection Hv as <-. by exists pa.
Qed.

Lemma pad_kept done x m : pad_ok done x m -> kept m.
Proof using K Hcfg Hd Hdr. intros [(a & fl & B & _) _ _ _ _]. by eapply built_kept. Qed.

Lemma add_user_mapping_spec i x m : 0 <= i < count -> user_inv i x m ->
  pwp (add_user_mapping (k_mem k) pr d scratch_kva mem (p_ttbr0 pr) mappings_va i x) (user_inv (i + 1)) (fun _ m' => kept m') m.
Proof using All.
  intros Hi [Uv (dn & Hn & Pk & Rk & Uf) Uh Up]. destruct x as [pad r]. cbn [fst snd] in *. pose proof (pad_kept _ _ _ Pk) as Hk0.
  unfold USER_VA_END, PROCESS_MAPPING_SIZE in Uv. unfold add_user_mapping. cbn [fst snd].
  apply pwp_bind. eapply pwp_lift; [unfold add_chk; rewrite (proj2 (Z.ltb_lt _ _)); [reflexivity|unfold PROCESS_MAPPING_SIZE; lia]|].
  destruct (user_read_spec (p_ttbr0 pr) PROCESS_MAPPING_SIZE 8 (mem i) (mappings_va + i * PROCESS_MAPPING_SIZE) m) as (o & Eo & Ho); [unfold PROCESS_MAPPING_SIZE; lia|done|].
  apply pwp_bind. exists (Ok o), m. split; [by rewrite Eo, bind_Ret|]. apply pwp_bind, pwp_ok_or; [|done]. intros um ->. destruct (Ho um eq_refl) as [Hend (pa & ->)].
  apply pwp_bind. eapply pwp_mono; [by apply (pageset_of_spec _ _ _ _ _ _ _ K p pr (pm_pageset_id (mem i pa)) m)| |intros e m' [-> _]; done].
  intros kva m' (-> & Hnm & j & e & He & <-). destruct (Z.eqb_spec (e_header_kva e) (d_header_kva d)) as [|Hne]; [by apply pwp_fail|].
  apply pwp_bind. eapply pwp_mono; [by apply (buddy_count_spec _ _ _ _ _ _ _ K j e m)| |intros e' m' [-> _]; done]. intros n m' (-> & -> & Hb).
  apply pwp_bind. eapply pwp_lift; [by apply (ps_page_buddy _ _ _ _ _ _ _ K _ _ _ _ Hb)|]. apply pwp_bind, pwp_ok_or; [|done]. intros phys Ephys.
  destruct (oB j !! Z.to_nat (pm_page_index (mem i pa))) as [idx|] eqn:Eidx; [|done]. cbn in Ephys. injection Ephys as <-.
  set (mp := mkMapping _ _ _ _). apply pwp_bind. eapply pwp_mono; [apply (write_mapping_spec dn mp pad m Pk)| |by intros e' m' [_ ?]].
  { pose proof (set_backed _ _ _ _ _ _ _ K _ _ (bs_entry _ _ _ _ Hs)) as (_ & _ & _ & Hpos). lia. }
  intros pad' m' Pk'. pose proof (pad_kept _ _ _ Pk') as Hk'. apply pwp_bind.
  eapply pwp_mono; [apply (push_owned_spec (addr_of cfg idx) (e_header_kva e :: rc_headers r) dn r mp m')| |intros e' m2 [_ ->]; done].
  { done. }
  { eapply rec_ok_mono; [done|]. intros y Hy. by right. }
  { exists (e_header_kva e), j, e, (Z.to_nat (pm_page_index (mem i pa))), idx. split; [by left|done]. }
  intros r' m2 (-> & Rk' & Eh & Ep). apply pwp_bind. unfold record_mapping_into_plan. apply pwp_bind.
  eapply pwp_mono; [apply (record_header_spec (e_header_kva e) j e (e_header_kva e :: rc_headers r) (dn ++ [mp]) r' m' Hb Hne)| |intros e' m2 [_ ->]; done].
  { destruct Uh as [U1 U2]. constructor; by rewrite Eh. }
  { done. }
  intros r2 m2 (-> & Hh2 & Rk2 & Ep2 & Hin & Hsub & Hsup). apply pwp_ret, pwp_ret. constructor; cbn.
  - right. unfold PROCESS_MAPPING_SIZE, USER_VA_END in *. lia.
  - exists (dn ++ [mp]). split; [rewrite length_app; cbn; lia|]. split; [done|]. split.
    + destruct Rk2 as [A1 A2 A3]. constructor; cbn; [done|done|]. intros mp' Hmp'. destruct (A3 mp' Hmp') as (kva & j' & e' & i' & idx' & Hkva & Hrest).
      exists kva, j', e', i', idx'. split; [|done]. apply elem_of_cons in Hkva as [->|Hkva]; [done|]. apply Hsub. by rewrite Eh.
    + intros n mp' Hl. apply lookup_app_Some in Hl as [Hl|[Hl1 Hl2]]; [by apply Uf|]. apply list_lookup_singleton_Some in Hl2 as [Hl2 <-].
      assert (Z.of_nat n = i) as -> by lia. exists pa, (e_header_kva e), j, e. cbn. rewrite Eidx. done.
  - destruct Hh2. by constructor.
  - rewrite Ep2, Ep, Up. done.
Qed.

(** The stack's mappings: its pages from [USER_STACK_BASE] on. *)
Definition stack_maps (n : nat) : list Mapping :=
  imap (fun i idx => mkMapping (USER_STACK_BASE + Z.of_nat i * PAGE_SIZE) (addr_of cfg idx) true false) (take n (oB js)).

Record stack_inv (i : Z) (x : Scratchpad * Recorded) (m : gmap Z Z) : Prop := {
  si_maps : exists done, Z.of_nat (length done) = count /\ pad_ok (done ++ stack_maps (Z.to_nat i)) x.1 m /\
    rec_ok (stack_kva :: rc_headers x.2) (done ++ stack_maps (Z.to_nat i)) x.2 /\ (forall n mp, done !! n = Some mp -> from_user (Z.of_nat n) mp);
  si_hdrs : hdrs_ok x.2;
  si_plan : rc_plan x.2 = mkPlan count 0 false pc;
}.

Lemma stack_maps_S i idx : 0 <= i -> oB js !! Z.to_nat i = Some idx ->
  stack_maps (Z.to_nat (i + 1)) = stack_maps (Z.to_nat i) ++ [mkMapping (USER_STACK_BASE + i * PAGE_SIZE) (addr_of cfg idx) true false].
Proof using.
  intros Hi Hx. unfold stack_maps. replace (Z.to_nat (i + 1)) with (Datatypes.S (Z.to_nat i)) by lia. rewrite (take_S_r _ _ idx Hx), imap_app. f_equal. cbn.
  rewrite length_take_le by (apply lookup_lt_Some in Hx; lia). replace (Z.of_nat (Z.to_nat i + 0)) with i by lia. done.
Qed.

Lemma stack_maps_length n : (n <= length (oB js))%nat -> length (stack_maps n) = n.
Proof using. intros Hn. unfold stack_maps. rewrite length_imap, length_take. lia. Qed.

Lemma add_stack_page_spec i x m : 0 <= i < e_count es -> stack_inv i x m ->
  pwp (add_stack_page (k_mem k) d scratch_kva stack_kva i x) (stack_inv (i + 1)) (fun _ m' => kept m') m.
Proof using All.
  intros Hi [(dn & Hn & Pk & Rk & Uf) Uh Up]. destruct x as [pad r]. cbn [fst snd] in *. pose proof (pad_kept _ _ _ Pk) as Hk0.
  destruct (set_pages _ _ _ _ _ _ _ K _ _ _ Hs) as [_ Hl]. destruct (lookup_lt_is_Some_2 (oB js) (Z.to_nat i)) as [idx Hidx]; [lia|].
  unfold add_stack_page. cbn [fst snd]. apply pwp_bind. eapply pwp_lift; [apply (ps_page_buddy _ _ _ _ _ _ _ K _ _ _ _ Hs); lia|]. rewrite Hidx.
  apply pwp_bind, pwp_ok_or; [|done]. intros phys [= <-]. set (mp := mkMapping _ _ _ _). apply pwp_bind.
  eapply pwp_mono; [apply (write_mapping_spec (dn ++ stack_maps (Z.to_nat i)) mp pad m Pk)| |by intros e' m' [_ ?]].
  { rewrite length_app, stack_maps_length; lia. }
  intros pad' m' Pk'. pose proof (pad_kept _ _ _ Pk') as Hk'. apply pwp_bind.
  eapply pwp_mono; [apply (push_owned_spec (addr_of cfg idx) (stack_kva :: rc_headers r) (dn ++ stack_maps (Z.to_nat i)) r mp m')| |intros e' m2 [_ ->]; done].
  { done. }
  { done. }
  { exists stack_kva, js, es, (Z.to_nat i), idx. split; [by left|done]. }
  intros r' m2 (-> & Rk' & Eh & Ep). apply pwp_ret. rewrite <- app_assoc in Pk', Rk'. unfold mp in Pk', Rk'. rewrite <- stack_maps_S in Pk', Rk' by (done || lia).
  constructor; cbn [fst snd].
  - exists dn. split; [done|]. split; [done|]. by rewrite Eh.
  - destruct Uh as [U1 U2]. constructor; by rewrite Eh.
  - by rewrite Ep.
Qed.

(** What provisioning leaves. *)
Record provisioned (root claimed_ws : Z) (r : Recorded) (slots : list HandleEntry) (m : gmap Z Z) : Prop := {
  pv_slots : slots = replicate (Z.to_nat HANDLE_SLOTS_PER_PAGE) EMPTY;
  pv_root : root = ws_page 0 /\ root <> 0;
  pv_space : exists b a user, bt m b a /\ claimed (workspace b) = claimed_ws /\
    Z.of_nat (length user) = count /\ (forall n mp, user !! n = Some mp -> from_user (Z.of_nat n) mp) /\
    (forall u, as_view m a u = view_of (user ++ stack_maps (length (oB js))) u) /\
    rec_ok (rc_headers r) (user ++ stack_maps (length (oB js))) r;
  pv_hdrs : hdrs_ok r;
  pv_stack : stack_kva ∈ rc_headers r;
  pv_plan : rc_plan r = mkPlan count (e_count es) true pc;
}.

Lemma phase_2_4_spec :
  pwp (phase_2_4 (k_mem k) pr d scratch_kva mem (p_ttbr0 pr) mappings_va count stack_kva (e_count es) (e_count ec) (mkPlan 0 0 false pc))
    (fun '(root, claimed_ws, r, slots) m => provisioned root claimed_ws r slots m) (fun _ m' => kept m') (k_pt k).
Proof using All.
  unfold phase_2_4. apply pwp_bind. eapply pwp_lift.
  { rewrite Hdc. unfold sub_chk, PROCESS_MIN_PAGES, WORKSPACE_MIN_PAGES in *. rewrite (proj2 (Z.leb_le _ _)) by (unfold MAX_L3_TABLES in *; lia). reflexivity. }
  fold ws_cap. destruct (builder_new_spec S (builder_page (k_mem k) d) ws_page ws_cap (k_pt k) ws_bounds ws_builder ws_inj ws_addr ws_fresh (ok_spaces _ _ _ _ _ _ _ K))
    as (b & m & a & Eb & B & Et & V).
  apply pwp_bind. exists (Ok b), m. split; [by rewrite Eb, bind_Ret|].
  destruct (set_backed _ _ _ _ _ _ _ K _ _ (bs_entry _ _ _ _ Hc)) as (_ & _ & _ & Hcp).
  destruct (set_pages _ _ _ _ _ _ _ K _ _ _ Hs) as [_ Hl].
  apply pwp_bind. eapply pwp_mono; [apply (pwp_repeat _ user_inv (fun _ m' => kept m'))| |done].
  { constructor; cbn.
    - by left.
    - exists []. split; [done|]. split; [|split; [|done]].
      + constructor; cbn; [|done|lia|unfold MAPPINGS_PER_PAGE; lia|done]. exists a, []. done.
      + constructor; cbn; [constructor| |].
        * intros q. split; [by intros ?%elem_of_nil|]. intros (mp & Hmp%elem_of_nil & _). done.
        * by intros mp ?%elem_of_nil.
    - constructor; cbn; [constructor|by intros h ?%elem_of_nil].
    - done. }
  { intros j x m' Hj U. apply add_user_mapping_spec; [lia|done]. }
  intros [pad r] m1 U. rewrite Z2Nat.id in U by lia. cbn [Z.add] in U. apply pwp_bind. eapply pwp_mono; [apply (pwp_repeat _ stack_inv (fun _ m' => kept m'))| |done].
  { destruct U as [_ (dn & Hn & Pk & Rk & Uf) Uh Up]. constructor; [|done|done]. exists dn. change (stack_maps (Z.to_nat 0)) with (@nil Mapping). rewrite app_nil_r.
    split; [done|]. split; [done|]. split; [|done]. eapply rec_ok_mono; [done|]. intros y Hy. by right. }
  { intros j x m' Hj U'. apply add_stack_page_spec; [lia|done]. }
  clear U pad r. intros [pad r] m2 [(dn & Hn & Pk & Rk & Uf) Uh Up]. cbn [fst snd] in *. rewrite <- Hl in Pk, Rk.
  replace (Z.to_nat (0 + Z.of_nat (Z.to_nat (Z.of_nat (length (oB js)))))) with (length (oB js)) in Pk, Rk by lia.
  pose proof (pad_kept _ _ _ Pk) as Hk2. apply pwp_bind. unfold record_stack_into_plan. apply pwp_bind.
  eapply pwp_mono; [apply (record_header_spec stack_kva js es _ _ r m2 Hs Hsd Uh Rk)| |intros e' m3 [_ ->]; done].
  intros r2 m3 (-> & Hh2 & Rk2 & Ep2 & Hin & Hsub & Hsup). apply pwp_bind, pwp_or_fail; [|done].
  intros plan Epl. rewrite Ep2, Up in Epl. injection Epl as <-. apply pwp_ret. cbn [rc_owned rc_headers rc_plan fst snd].
  set (r3 := mkRec _ _ _). assert (Hr3 : rec_ok (rc_headers r3) (dn ++ stack_maps (length (oB js))) r3).
  { destruct Rk2 as [A1 A2 A3]. constructor; [done|done|]. intros mp' Hmp'. destruct (A3 mp' Hmp') as (kva & j' & e' & i' & idx' & Hkva & Hrest).
    exists kva, j', e', i', idx'. split; [|done]. apply elem_of_cons in Hkva as [->|Hkva]; [done|by apply Hsub]. }
  assert (Hh3 : hdrs_ok r3) by (destruct Hh2; by constructor).
  apply pwp_bind. destruct Pk as [(a2 & fl & B2 & V2 & Ed & Hfl) Hlen [Htp Hpi] Hoff Hfull].
  eapply pwp_mono with (Q := fun b m' => exists a, bt m' b a /\ forall u, as_view m' a u = view_of (dn ++ stack_maps (length (oB js))) u) (E := fun _ m' => kept m'); [| |done].
  { unfold Scratch.has_pending, Scratch.pending_count. destruct (Z.ltb_spec 0 (Scratch.offset (pad_cursor pad))).
    - rewrite Ed. eapply pwp_mono; [by apply (flush_spec _ fl m2 _ a2)|done|by intros e' m' [_ ?]].
    - apply pwp_ret. exists a2. split; [done|]. rewrite Ed. replace (Scratch.offset (pad_cursor pad)) with 0 by lia. cbn [Z.to_nat take]. by rewrite app_nil_r. }
  intros b3 m3 (a3 & B3 & V3). unfold finish. apply pwp_bind, pwp_ok_or; [|done]. intros slots Esl.
  destruct (Z.eqb_spec (l0_paddr b3) 0) as [|Hr0]; [apply pwp_fail; by eapply built_kept|]. apply pwp_ret. constructor.
  - by injection Esl as <-.
  - split; [apply B3|done].
  - exists b3, a3, dn. done.
  - done.
  - done.
  - done.
Qed.
End Provisioning.
