(* ===== verification/ProcSafe.v ===== *)
(** Process creation over a kernel whose accounting holds: the commit phase,
    the ownership of kernel pages by processes and threads, and what
    create_process does as a whole. *)
From Stdlib Require Import ZArith Lia.
From stdpp Require Import base option gmap numbers sets fin_sets list.
From S2P Require Import Ipc IpcState KSched DmaSync Prelude Frames Buddy BuddyInv Pools FrameAlloc PageSet Ownership KPageSet HeaderFrame PageTable Vmem Kvm KvmPool Handles Revoke SysPages SysSafe AddrSpace Process ProcSpec.
Open Scope Z_scope.

(** * Revoking handles that are not mapped *)

Lemma walk_keeps {St} (P : St -> Prop) tp f threads : (forall p st st', P st -> f p st = Ret st' -> P st') ->
  forall visited st st', P st -> for_each_unique_process tp threads visited f st = Ret st' -> P st'.
Proof.
  intros Hf. induction threads as [|[t|] threads IH]; intros visited st st' H0 E; cbn [for_each_unique_process] in E.
  - by injection E as <-.
  - destruct (tp !! t) as [q|]; cbn [unwrap] in E; [|done]. rewrite bind_Ret in E. destruct (q =? 0); [by eapply IH|].
    destruct (bool_decide _); [by eapply IH|]. destruct (_ <=? _); [done|]. destruct (f q st) as [st1|] eqn:E1; [|done].
    rewrite bind_Ret in E. eapply IH; [|exact E]. by eapply Hf.
  - by eapply IH.
Qed.

Lemma iterM_keeps {A St} (P : St -> Prop) (f : A -> St -> outcome St) l : (forall a st st', a ∈ l -> P st -> f a st = Ret st' -> P st') ->
  forall st st', P st -> iterM f l st = Ret st' -> P st'.
Proof.
  induction l as [|a l IH]; intros Hf st st' H0 E; cbn [iterM] in E; [by injection E as <-|].
  destruct (f a st) as [st1|] eqn:E1; [|done]. rewrite bind_Ret in E. eapply IH; [|by eapply Hf; [left| |]|exact E].
  intros b st2 st3 Hb. apply Hf. by right.
Qed.

Definition unmapped (k : Kernel) (kva : Z) : Prop :=
  forall p pr a, k_procs k !! p = Some pr -> a ∈ actions kva (p_table pr) -> ra_had_mapping a = false.

Lemma actions_revoked target target' slots : target <> target' -> actions target' (revoke_slot target <$> slots) = actions target' slots.
Proof.
  intros Hne. induction slots as [|h slots IH]; [done|]. rewrite fmap_cons, !actions_cons, revoke_action_slot, decide_False by done. by rewrite IH.
Qed.

Lemma actions_gone target slots : actions target (revoke_slot target <$> slots) = [].
Proof. induction slots as [|h slots IH]; [done|]. by rewrite fmap_cons, actions_cons, revoke_action_slot, decide_True. Qed.

Lemma revoke_unmapped k kva k' st : revoke_apply k kva = Ret (k', st) -> unmapped k kva -> k_pt k' = k_pt k.
Proof.
  intros E U. apply (walk_keeps (fun x : Kernel * RevokeStats => k_pt x.1 = k_pt k /\ unmapped x.1 kva) (k_tcb_process k) (apply_process kva) (k_threads k)) in E;
    [by destruct E| |done].
  clear k' st E U. intros p [k1 st1] [k2 st2] [Ept U] E. cbn [fst] in *. unfold apply_process in E.
  destruct (k_procs k1 !! p) as [pr|] eqn:Hp; cbn [unwrap] in E; [|done]. rewrite bind_Ret, slot_apply_iter in E.
  destruct (iterM _ _ _) as [[[s m] st3]|] eqn:Ei; [|done]. rewrite !bind_Ret in E. injection E as <- <-.
  apply (iterM_keeps (fun x : ApplyState => x.1.2 = k_pt k1)) in Ei; [| |done].
  - cbn in *. split; [congruence|]. intros q qr a Hq Ha. cbn in Hq. apply lookup_insert_Some in Hq as [[<- <-]|[_ Hq]]; [|by apply (U q qr)].
    cbn [p_table] in Ha. rewrite actions_gone in Ha. by apply elem_of_nil in Ha.
  - intros a [[s1 m1] st4] st5 Ha Hm Ea. unfold apply_action in Ea. rewrite (U p pr a Hp Ha), bind_Ret in Ea. cbn in Hm.
    destruct (ra_kind a); try (injection Ea as <-; done). destruct (Hdr.dec_refcount _); [|done]. rewrite bind_Ret in Ea. by injection Ea as <-.
Qed.

Section Commit.
Context (cfg : Config) (Hcfg : config_ok cfg).

Lemma no_maps_unmapped G D oB oD S k j e : sys_ok cfg G D oB oD S k -> table (k_mem k) !! j = Some (Some e) ->
  h_map_count (read_header (k_mem k) (e_header_kva e)) = 0 -> unmapped k (e_header_kva e).
Proof.
  intros K He Hm p pr a Hp Ha. destruct (ok_counts _ _ _ _ _ _ _ K j e He) as [_ Hc]. rewrite Hm in Hc.
  pose proof (sum_procs_le (nmaps (e_header_kva e)) (k_procs k) p pr Hp ltac:(intros; apply nmaps_le_nrefs)) as L.
  pose proof (nmaps_actions (e_header_kva e) (p_table pr)) as L2. destruct (ra_had_mapping a) eqn:E; [|done]. exfalso.
  assert (Hin : a ∈ mapped_actions (e_header_kva e) (p_table pr)) by (unfold mapped_actions; apply list_elem_of_filter; done).
  destruct (mapped_actions _ _); [by apply elem_of_nil in Hin|]. cbn [length] in L2. lia.
Qed.

Lemma unmapped_fine k S e : unmapped k (e_header_kva e) -> validated k S e /\ no_overlap k e.
Proof.
  intros U. split.
  - intros p pr Hp a Ha Hm. rewrite (U p pr a Hp Ha) in Hm. done.
  - intros p pr Hp i i' a a' Hi _ _ Hm. rewrite (U p pr a Hp) in Hm; [done|by eapply list_elem_of_lookup_2].
Qed.

(** Only the page tables change, and every space is as it was. *)
Lemma sys_pt G D oB oD S k m : sys_ok cfg G D oB oD S k -> spaces_ok m S -> sys_ok cfg G D oB oD S (with_pt k m).
Proof. intros [? ? ? ? ? ? ? ? ? ? ?] Hm. by constructor. Qed.

Lemma dealloc_idx G D oB oD s idx : inv cfg G D None oB oD s -> idx ∈ G ->
  exists s', @dealloc_at KMem (kframes cfg) (addr_of cfg idx) s = Ret s' /\ inv cfg (G ∖ {[idx]}) D None oB oD s' /\ frames_only s s'.
Proof.
  intros I Hi. destruct (k_dealloc_page_spec cfg Hcfg _ _ _ _ _ s idx I Hi) as (s' & E & I' & Es & _). exists s'. split; [exact E|]. split; [done|].
  rewrite Es. done.
Qed.

Lemma dealloc_addrs_spec D oB oD (l : list Z) : forall G s, inv cfg G D None oB oD s -> NoDup l -> (forall x, x ∈ l -> x ∈ G) ->
  exists s', dealloc_addrs cfg (addr_of cfg <$> l) s = Ret s' /\ inv cfg (G ∖ list_to_set l) D None oB oD s' /\ frames_only s s'.
Proof.
  induction l as [|x l IH]; intros G s I Hn Hl; cbn [dealloc_addrs fmap list_fmap list_to_set].
  - exists s. split; [done|]. split; [|done]. by rewrite difference_empty_L.
  - apply NoDup_cons in Hn as [Hx Hn]. destruct (dealloc_idx G D oB oD s x I) as (s1 & -> & I1 & F1); [apply Hl; by left|]. rewrite bind_Ret.
    destruct (IH _ s1 I1 Hn) as (s2 & E2 & I2 & F2).
    + intros y Hy. apply elem_of_difference. split; [apply Hl; by right|]. by intros ->%elem_of_singleton.
    + exists s2. split; [done|]. split; [|by eapply frames_trans]. by rewrite <- difference_difference_l_L.
Qed.

Lemma frames_only_counts s s' x : frames_only s s' -> same_counts (read_header s x) (read_header s' x).
Proof. intros (_ & _ & Hh & _). unfold read_header. by rewrite Hh. Qed.

(** Frames go back to the allocator, or come from it: nothing else changes. *)
Lemma sys_frames G D oB oD S k G' s' : sys_ok cfg G D oB oD S k -> inv cfg G' D None oB oD s' -> frames_only (k_mem k) s' ->
  tables_held (set_map (frame_of cfg) G') S -> sys_ok cfg G' D oB oD S (with_mem k s').
Proof.
  intros K I F Ht. pose proof F as (_ & _ & _ & F4). eapply sys_mem_change; [done|done|done| |].
  - intros j e Hj. left. rewrite F4 in Hj. split; [done|]. by apply frames_only_counts.
  - intros j e Hj. left. by rewrite F4.
Qed.

(** ** The donation *)

Lemma snapshot_spec G D oB oD S k d jd ed : sys_ok cfg G D oB oD S k -> buddy_set k (d_header_kva d) jd ed -> forall n i, 0 <= i -> i + Z.of_nat n = e_count ed ->
  snapshot (k_mem k) (d_header_kva d) i n = Ret (addr_of cfg <$> drop (Z.to_nat i) (oB jd)).
Proof.
  intros K B. destruct (set_pages _ _ _ _ _ _ _ K _ _ _ B) as [_ Hl]. induction n as [|n IH]; intros i Hi E; cbn [snapshot].
  - rewrite drop_ge by lia. done.
  - rewrite (ps_page_buddy _ _ _ _ _ _ _ K _ _ _ _ B), bind_Ret, IH, bind_Ret by lia.
    destruct (lookup_lt_is_Some_2 (oB jd) (Z.to_nat i)) as [x Hx]; [lia|]. rewrite Hx. rewrite (drop_S _ x (Z.to_nat i) Hx).
    replace (Z.to_nat (i + 1)) with (Datatypes.S (Z.to_nat i)) by lia. done.
Qed.

Lemma own_nodup N bits G own i : Partition N bits G own -> NoDup (own i).
Proof. intros P. apply NoDup_alt. intros a b x Ha Hb. by apply (pt_inj _ _ _ _ P i a i b x). Qed.

Lemma into_consumed_spec G D oB oD S k d jd ed claimed_ws :
  sys_ok cfg G D oB oD S k -> buddy_set k (d_header_kva d) jd ed -> h_map_count (read_header (k_mem k) (d_header_kva d)) = 0 ->
  d_page_count d = e_count ed -> PROCESS_MIN_PAGES <= e_count ed <= PROCESS_MAX_PAGES -> 0 <= claimed_ws <= e_count ed - PROCESS_KERNEL_OBJ_PAGES ->
  exists k' D' oD', into_consumed cfg k d claimed_ws = Ret k' /\ k_pt k' = k_pt k /\ revoked S ed k k' /\
    table (k_mem k') = <[jd := None]> (table (k_mem k)) /\
    (forall x, x <> d_header_kva d -> read_header (k_mem k') x = read_header (k_mem k) x) /\
    sys_ok cfg (G ∪ list_to_set (take (Z.to_nat (PROCESS_KERNEL_OBJ_PAGES + claimed_ws)) (oB jd))) D' (set_own oB jd []) oD' S k'.
Proof.
  intros K B Hm Hc Hr Hcl. unfold into_consumed, sub_chk. unfold PROCESS_MIN_PAGES, PROCESS_MAX_PAGES, PROCESS_KERNEL_OBJ_PAGES, WORKSPACE_MIN_PAGES, WORKSPACE_MAX_PAGES, MAX_L3_TABLES in *.
  rewrite Hc, (proj2 (Z.leb_le 4 _)), bind_Ret by lia. rewrite (proj2 (Z.leb_le claimed_ws _)) by lia. cbn [assert]. rewrite bind_Ret.
  rewrite (proj2 (Z.leb_le _ 32)) by lia. cbn [assert]. rewrite bind_Ret, (snapshot_spec _ _ _ _ _ _ _ _ _ K B), bind_Ret by lia.
  set (n := Z.to_nat (4 + claimed_ws)). destruct B as [He Hk Ho]. rewrite <- Hk in *.
  pose proof (no_maps_unmapped _ _ _ _ _ _ _ _ K He Hm) as U. destruct (unmapped_fine k S ed U) as [V O].
  destruct (consume_apply_spec _ _ _ _ _ _ _ _ _ K He V O) as (k1 & E1 & R & Et & Eh & K1). rewrite E1, bind_Ret.
  assert (Ept : k_pt k1 = k_pt k).
  { unfold consume_pageset_apply in E1. destruct (revoke_apply k (e_header_kva ed)) as [[k2 st2]|] eqn:E2; [|done]. rewrite bind_Ret in E1.
    destruct (hp_release _ _ _); [|done]. rewrite bind_Ret in E1. injection E1 as <-. exact (revoke_unmapped _ _ k2 st2 E2 U). }
  pose proof (iv_B _ _ _ _ _ _ _ (ok_mem _ _ _ _ _ _ _ K)) as P. pose proof (own_nodup _ _ _ _ jd P) as ND.
  destruct (dealloc_addrs_spec _ _ _ (drop n (oB jd)) _ _ (ok_mem _ _ _ _ _ _ _ K1)) as (s & Es & I & F).
  { eapply sublist_NoDup; [exact ND|]. apply sublist_drop. }
  { intros x Hx. apply elem_of_union. right. apply elem_of_list_to_set. rewrite <- (take_drop n (oB jd)). apply elem_of_app. by right. }
  rewrite Es, bind_Ret. eexists _, _, _. split; [reflexivity|]. cbn [with_mem k_mem k_pt]. pose proof F as (_ & _ & F3 & F4).
  split; [done|]. split; [by destruct R|]. split; [by rewrite F4|]. split; [intros x Hx; rewrite <- Eh by done; unfold read_header; by rewrite F3|].
  assert (Eg : (G ∪ list_to_set (oB jd)) ∖ list_to_set (drop n (oB jd)) = G ∪ list_to_set (take n (oB jd))).
  { apply set_eq. intros x. rewrite elem_of_difference, !elem_of_union, !elem_of_list_to_set. rewrite <- (take_drop n (oB jd)) at 1. rewrite elem_of_app.
    rewrite <- (take_drop n (oB jd)) in ND. apply NoDup_app in ND as (_ & ND & _). split; [tauto|]. intros [Hx|Hx].
    - split; [tauto|]. intros Hd. apply (pt_not_G _ _ _ _ jd x P); [|done]. rewrite <- (take_drop n (oB jd)). apply elem_of_app. by right.
    - split; [tauto|by apply ND]. }
  rewrite Eg in I. eapply sys_frames; [exact K1|exact I|done|]. intros r a q Hra Hq. pose proof (ok_tables _ _ _ _ _ _ _ K r a q Hra Hq) as Ht.
  apply elem_of_map in Ht as (x & -> & Hx). apply elem_of_map_2, elem_of_union. by left.
Qed.

(** A further address space, whose tables the kernel holds. *)
Lemma sys_space G D oB oD S k r a : sys_ok cfg G D oB oD S k -> S !! r = None -> spaces_ok (k_pt k) (<[r := a]> S) ->
  (forall q, as_page r a q -> q / 4096 ∈ (set_map (frame_of cfg) G : gset Z)) -> sys_ok cfg G D oB oD (<[r := a]> S) k.
Proof.
  intros [? ? ? ? ? ? ? ? ? ? ?] Hr Hs Ht. constructor; try done.
  - intros r' a' q [[<- <-]|[_ H]]%lookup_insert_Some Hq; [by apply Ht|by eapply ok_tables].
  - intros p pr Hp. destruct (ok_root p pr Hp) as [|[a' Ha]]; [by left|right]. apply lookup_insert_is_Some'. right. by exists a'.
Qed.

(** ** The recorded headers *)

(** The PageSet can be consumed. *)
Definition fine (k : Kernel) (S : gmap Z AS) (h : Z) : Prop := exists j e, buddy_set k h j e /\ validated k S e /\ no_overlap k e.

Lemma frames_pages G D oB oD S k kva j e : sys_ok cfg G D oB oD S k -> buddy_set k kva j e -> frames (k_mem k) kva (e_count e) = addr_of cfg <$> oB j.
Proof. intros K B. by destruct (set_pages _ _ _ _ _ _ _ K _ _ _ B) as [<- _]. Qed.

(** Two PageSets are not mapped at the same page. *)
Lemma covers_apart G D oB oD S k h j e h0 j0 e0 p pr a n x : sys_ok cfg G D oB oD S k -> buddy_set k h j e -> buddy_set k h0 j0 e0 -> h <> h0 ->
  validated k S e -> validated k S e0 -> k_procs k !! p = Some pr -> a ∈ actions h (p_table pr) -> ra_had_mapping a = true ->
  frames (k_mem k) h (e_count e) !! n = Some x -> covered (e_count e0) (actions h0 (p_table pr)) (ra_mapped_va_page a + Z.of_nat n) = false.
Proof.
  intros K B B0 Hne V V0 Hp Ha Hm Hx. apply not_true_is_false. intros (a0 & Ha0 & Hm0 & Hu)%covered_true.
  pose proof (frames_pages _ _ _ _ _ _ _ _ _ K B) as Ef. pose proof (frames_pages _ _ _ _ _ _ _ _ _ K B0) as Ef0.
  pose proof B as [He Hk _]. pose proof B0 as [He0 Hk0 _]. rewrite <- Hk in Ha, Hx, Ef. rewrite <- Hk0 in Ha0, Ef0.
  pose proof (V p pr Hp a Ha Hm n x Hx) as Sx. set (u := ra_mapped_va_page a + Z.of_nat n) in *.
  destruct (lookup_lt_is_Some_2 (frames (k_mem k) (e_header_kva e0) (e_count e0)) (Z.to_nat (u - ra_mapped_va_page a0))) as [y Hy].
  { rewrite frames_length. lia. }
  pose proof (V0 p pr Hp a0 Ha0 Hm0 _ y Hy) as Sy. replace (ra_mapped_va_page a0 + Z.of_nat (Z.to_nat (u - ra_mapped_va_page a0))) with u in Sy by lia.
  rewrite Sx in Sy. injection Sy as ->. rewrite Ef in Hx. rewrite Ef0 in Hy. rewrite list_lookup_fmap in Hx, Hy.
  destruct (oB j !! n) as [i1|] eqn:E1; [|done]. destruct (oB j0 !! _) as [i2|] eqn:E2; [|done]. cbn in Hx, Hy. injection Hx as Hx. injection Hy as Hy.
  rewrite <- Hx in Hy. apply addr_of_inj in Hy as ->. destruct (pt_inj _ _ _ _ (iv_B _ _ _ _ _ _ _ (ok_mem _ _ _ _ _ _ _ K)) _ _ _ _ _ E1 E2) as [-> _].
  rewrite He in He0. injection He0 as ->. congruence.
Qed.

(** Consuming one PageSet leaves the others as they were. *)
Lemma consumed_other G D oB oD S k h0 j0 e0 k' h j e : sys_ok cfg G D oB oD S k -> buddy_set k h0 j0 e0 -> validated k S e0 -> revoked S e0 k k' ->
  table (k_mem k') = <[j0 := None]> (table (k_mem k)) -> (forall x, x <> h0 -> read_header (k_mem k') x = read_header (k_mem k) x) ->
  h <> h0 -> buddy_set k h j e -> buddy_set k' h j e /\ (validated k S e -> no_overlap k e -> validated k' S e /\ no_overlap k' e).
Proof.
  intros K B0 V0 R Et Eh Hne B. pose proof B as [He Hk Ho]. pose proof B0 as [He0 Hk0 _]. split.
  { constructor; [|done|done]. rewrite Et, list_lookup_insert_ne; [done|]. intros ->. congruence. }
  assert (Hpr : forall p pr', k_procs k' !! p = Some pr' -> exists pr, k_procs k !! p = Some pr /\ p_ttbr0 pr' = p_ttbr0 pr /\ actions (e_header_kva e) (p_table pr') = actions (e_header_kva e) (p_table pr)).
  { intros p pr' Hp. rewrite (rv_procs _ _ _ _ R), lookup_fmap in Hp. destruct (k_procs k !! p) as [pr|] eqn:E; [|done]. injection Hp as <-.
    exists pr. split; [done|]. split; [done|]. apply actions_revoked. congruence. }
  intros V O. split.
  - intros p pr' (pr & Hp & Er & Ea)%Hpr a Ha Hm n x Hx. rewrite Er. rewrite Ea in Ha. unfold frames in Hx. rewrite Hk, Eh in Hx by done.
    rewrite (rv_view _ _ _ _ R p pr _ Hp), Hk0. rewrite Hk in Ha. rewrite (covers_apart _ _ _ _ _ _ h j e h0 j0 e0 p pr a n x K B B0 Hne V V0 Hp Ha Hm Hx).
    apply (V p pr Hp a); [by rewrite Hk|done|unfold frames; by rewrite Hk].
  - intros p pr' (pr & Hp & _ & Ea)%Hpr. rewrite Ea. by apply O with p.
Qed.

(** The kernel after the PageSets [hs] have been consumed. *)
Record committed (hs : list Z) (S : gmap Z AS) (G : gset Z) (oB : nat -> list Z) (k : Kernel) (G' : gset Z) (oB' : nat -> list Z) (k' : Kernel) : Prop := {
  cm_threads : k_threads k' = k_threads k /\ k_tcb_process k' = k_tcb_process k /\ k_next_token k' = k_next_token k;
  cm_procs : k_procs k' = foldl (fun ps h => revoke_proc h <$> ps) (k_procs k) hs;
  cm_G : forall idx, idx ∈ G' <-> idx ∈ G \/ exists h j e, h ∈ hs /\ buddy_set k h j e /\ idx ∈ oB j;
  cm_table : forall j e, table (k_mem k') !! j = Some (Some e) <-> table (k_mem k) !! j = Some (Some e) /\ e_header_kva e ∉ hs;
  cm_own : forall j e, table (k_mem k') !! j = Some (Some e) -> oB' j = oB j;
  cm_header : forall x, x ∉ hs -> read_header (k_mem k') x = read_header (k_mem k) x;
  cm_noroot : forall r u, (forall p pr, k_procs k !! p = Some pr -> p_ttbr0 pr <> r) -> sview (k_pt k') S r u = sview (k_pt k) S r u;
  cm_less : forall p pr u, k_procs k !! p = Some pr -> sview (k_pt k) S (p_ttbr0 pr) u = None -> sview (k_pt k') S (p_ttbr0 pr) u = None;
  cm_gone : forall p pr u h j e, k_procs k !! p = Some pr -> h ∈ hs -> buddy_set k h j e ->
    covered (e_count e) (actions h (p_table pr)) u = true -> sview (k_pt k') S (p_ttbr0 pr) u = None;
  cm_kept : forall p pr u, k_procs k !! p = Some pr ->
    (forall h j e, h ∈ hs -> buddy_set k h j e -> covered (e_count e) (actions h (p_table pr)) u = false) ->
    sview (k_pt k') S (p_ttbr0 pr) u = sview (k_pt k) S (p_ttbr0 pr) u;
}.

Lemma buddy_set_unique G D oB oD S k h j e j' e' : sys_ok cfg G D oB oD S k -> buddy_set k h j e -> buddy_set k h j' e' -> j = j' /\ e = e'.
Proof.
  intros K [A1 A2 _] [B1 B2 _]. assert (j = j') as <- by (eapply entry_unique; [apply K|done|done|congruence]).
  rewrite A1 in B1. by injection B1.
Qed.

Lemma apply_headers_spec S hs : forall G D oB oD k, sys_ok cfg G D oB oD S k -> NoDup hs -> (forall h, h ∈ hs -> fine k S h) ->
  exists k' G' D' oB' oD', apply_headers cfg k hs = Ret k' /\ sys_ok cfg G' D' oB' oD' S k' /\ committed hs S G oB k G' oB' k'.
Proof.
  induction hs as [|h hs IH]; intros G D oB oD k K ND Hf; cbn [apply_headers].
  { exists k, G, D, oB, oD. split; [done|]. split; [done|]. constructor; try done.
    - intros idx. split; [tauto|]. intros [|(h & _ & _ & Hh%elem_of_nil & _)]; done.
    - intros j e. split; [|tauto]. intros H. split; [done|apply not_elem_of_nil].
    - by intros p pr u h j e _ Hh%elem_of_nil. }
  apply NoDup_cons in ND as [Hn ND]. destruct (Hf h) as (j0 & e0 & B0 & V0 & O0); [by left|].
  destruct (consume_apply_spec _ _ _ _ _ _ _ _ _ K (bs_entry _ _ _ _ B0) V0 O0) as (k1 & E1 & R & Et & Eh & K1).
  pose proof B0 as [He0 Hk0 Ho0]. rewrite Hk0 in E1, Eh. rewrite E1, bind_Ret.
  assert (Hnot : forall j' e', table (k_mem k1) !! j' = Some (Some e') <-> table (k_mem k) !! j' = Some (Some e') /\ e_header_kva e' <> h).
  { intros j' e'. rewrite Et, list_lookup_insert_Some. split.
    - intros [(_ & ? & _)|[Hne He']]; [done|]. split; [done|]. intros E. apply Hne. rewrite <- Hk0 in E. symmetry in E.
      by apply (entry_unique cfg _ _ _ _ _ _ _ _ _ _ (ok_mem _ _ _ _ _ _ _ K) He0 He').
    - intros [He' Hne]. right. split; [|done]. intros ->. congruence. }
  assert (Hbs : forall h' j' e', h' <> h -> buddy_set k1 h' j' e' <-> buddy_set k h' j' e').
  { intros h' j' e' Hne. split; intros [A1 A2 A3]; (constructor; [|done|done]); [by apply Hnot in A1 as [? _]|apply Hnot; split; [done|by rewrite A2]]. }
  assert (Hhs : forall h', h' ∈ hs -> h' <> h) by (intros h' Hin ->; done).
  destruct (IH _ _ _ _ k1 K1 ND) as (k' & G' & D' & oB' & oD' & E' & K' & C).
  { intros h' Hh'. destruct (Hf h') as (j & e & B & V & O); [by right|].
    destruct (consumed_other _ _ _ _ _ _ h j0 e0 k1 h' j e K B0 V0 R Et Eh (Hhs h' Hh') B) as [B' VO]. destruct (VO V O). by exists j, e. }
  exists k', G', D', oB', oD'. split; [done|]. split; [done|]. destruct C as [(C1 & C2 & C3) C4 C5 C6 C6' C7 C8 C8' C9 C10], R as [(R1 & R2 & R3) R4 R5 R6].
  assert (Hp1 : forall p pr, k_procs k !! p = Some pr -> k_procs k1 !! p = Some (revoke_proc h pr)).
  { intros p pr Hp. rewrite R4, lookup_fmap, Hp, Hk0. done. }
  constructor.
  - by rewrite C1, C2, C3, R1, R2, R3.
  - rewrite C4, R4, Hk0. done.
  - intros idx. rewrite C5, elem_of_union, elem_of_list_to_set. split.
    + intros [[|Hx]|(h' & j & e & Hh' & B & Hx)]; [by left|right; exists h, j0, e0; split; [by left|done]|].
      right. exists h', j, e. split; [by right|]. apply Hbs in B; [|by apply Hhs]. split; [done|].
      unfold set_own in Hx. case_decide; [by apply elem_of_nil in Hx|done].
    + intros [|(h' & j & e & [->|Hh']%elem_of_cons & B & Hx)]; [by left; left| |].
      * left. right. by destruct (buddy_set_unique _ _ _ _ _ _ _ _ _ _ _ K B B0) as [-> _].
      * right. exists h', j, e. split; [done|]. split; [apply Hbs; [by apply Hhs|done]|]. unfold set_own. rewrite decide_False; [done|].
        intros ->. pose proof (bs_entry _ _ _ _ B) as Hj. rewrite He0 in Hj. injection Hj as ->. apply (Hhs h' Hh'). by rewrite <- (bs_kva _ _ _ _ B), <- Hk0.
  - intros j e. rewrite C6, Hnot, not_elem_of_cons. tauto.
  - intros j e Hj. rewrite (C6' j e Hj). apply C6 in Hj as [Hj _]. apply Hnot in Hj as [Hj Hne]. unfold set_own. rewrite decide_False; [done|].
    intros ->. congruence.
  - intros x [Hx1 Hx2]%not_elem_of_cons. rewrite C7 by done. by apply Eh.
  - intros r u Hr. rewrite C8; [by apply R6|]. intros p pr Hp. rewrite R4, lookup_fmap in Hp. destruct (k_procs k !! p) as [pr0|] eqn:E; [|done]. injection Hp as <-. by apply (Hr p pr0).
  - intros p pr u Hp Hu. apply (C8' p (revoke_proc h pr) u (Hp1 p pr Hp)). cbn [revoke_proc p_ttbr0]. rewrite (R5 p pr u Hp). by destruct (covered _ _ _).
  - intros p pr u h' j e Hp [->|Hh']%elem_of_cons B Hcov.
    + destruct (buddy_set_unique _ _ _ _ _ _ _ _ _ _ _ K B B0) as [-> ->].
      apply (C8' p (revoke_proc h pr) u (Hp1 p pr Hp)). cbn [revoke_proc p_ttbr0]. rewrite (R5 p pr u Hp), Hk0, Hcov. done.
    + apply (C9 p (revoke_proc h pr) u h' j e (Hp1 p pr Hp) Hh'); [by apply Hbs, B; apply Hhs|]. cbn [revoke_proc p_table].
      by rewrite actions_revoked by (intros ->; by apply (Hhs h')).
  - intros p pr u Hp Hcov. change (p_ttbr0 pr) with (p_ttbr0 (revoke_proc h pr)) at 1. rewrite (C10 p (revoke_proc h pr) u (Hp1 p pr Hp)).
    + cbn [revoke_proc p_ttbr0]. rewrite (R5 p pr u Hp), Hk0, (Hcov h j0 e0); [done|by left|done].
    + intros h' j e Hh' B. cbn [revoke_proc p_table]. rewrite actions_revoked by (intros ->; by apply (Hhs h')).
      apply (Hcov h' j e); [by right|]. by apply Hbs, B; apply Hhs.
Qed.

Lemma validate_headers_spec G D oB oD S k : sys_ok cfg G D oB oD S k -> forall hs idx, (forall h, h ∈ hs -> exists j e, buddy_set k h j e) ->
  exists r, validate_headers k idx hs = Ret r /\ (r = None -> forall h, h ∈ hs -> exists j e, buddy_set k h j e /\ validated k S e).
Proof.
  intros K. induction hs as [|h hs IH]; intros idx Hs; cbn [validate_headers].
  { exists None. split; [done|]. by intros _ h ?%elem_of_nil. }
  destruct (Hs h) as (j & e & B); [by left|]. unfold consume_pageset_validate.
  destruct (revoke_validate_spec _ _ _ _ _ _ _ _ _ K (bs_entry _ _ _ _ B)) as (res & E & V). rewrite (bs_kva _ _ _ _ B) in E. rewrite E, bind_Ret.
  destruct res as [u|err]; [|by eexists]. destruct (IH (idx + 1)) as (r & -> & Hr); [intros h' Hh'; apply Hs; by right|].
  exists r. split; [done|]. intros Hn h' [->|Hh']%elem_of_cons; [by exists j, e|by apply Hr].
Qed.

(** ** The new process *)

Definition copied (k : Kernel) (copy : option (Z * HandleKind)) : option HandleEntry :=
  match copy with
  | None => None
  | Some (rights, HEndpoint kva _) => Some (mkHandle rights (HEndpoint kva (Some (next_token_of k kva))))
  | Some (rights, kind) => Some (mkHandle rights kind)
  end.

Definition child_slots (k : Kernel) (copy : option (Z * HandleKind)) : list HandleEntry :=
  match copied k copy with
  | Some h => h :: replicate 126 EMPTY
  | None => replicate 127 EMPTY
  end.

Definition copied_tokens (k : Kernel) (copy : option (Z * HandleKind)) : gmap Z Z :=
  match copy with
  | Some (_, HEndpoint kva _) => <[kva := next_token_of k kva + 1]> (k_next_token k)
  | _ => k_next_token k
  end.

Lemma copy_parent_spec k copy : tokens_left k 1 ->
  (forall rights kind, copy = Some (rights, kind) -> kind <> HEmpty /\ forall kva mv, kind <> HPageSet kva mv) ->
  copy_parent k (replicate (Z.to_nat HANDLE_SLOTS_PER_PAGE) EMPTY) copy = Ret (child_slots k copy, with_tokens k (copied_tokens k copy)).
Proof.
  intros Ht Hc. unfold copy_parent, child_slots, copied, copied_tokens. destruct copy as [[rights kind]|].
  2:{ by rewrite with_tokens_self. }
  destruct (Hc rights kind eq_refl) as [H1 H2]. destruct kind as [| | | | | | |kva mv]; try done; cbn [export_kind_of];
    try (rewrite bind_Ret; cbn [fst snd]; rewrite with_tokens_self; reflexivity).
  - destruct (Ht kva) as [Ht1 Ht2]. unfold mint_caller_token, checked_add64, U64_MAX. rewrite (proj2 (Z.eqb_neq _ 0)) by lia. cbn [negb assert]. rewrite bind_Ret.
    rewrite (proj2 (Z.leb_le _ _)) by lia. cbn [unwrap]. rewrite !bind_Ret. reflexivity.
  - by destruct (H2 kva mv).
Qed.

Lemma elem_of_procs_of tp threads p : p ∈ procs_of tp threads <-> exists t, Some t ∈ threads /\ tp !! t = Some p.
Proof.
  unfold procs_of. rewrite list_elem_of_omap. split.
  - intros ([t|] & Hin & E); [by exists t|done].
  - intros (t & Hin & E). by exists (Some t).
Qed.

Lemma free_slot_spec ts i : free_slot ts = Some i -> ts !! i = Some None.
Proof.
  revert i. induction ts as [|[t|] ts IH]; intros i E; cbn in E; [done| |by injection E as <-].
  destruct (free_slot ts) as [i'|]; [|done]. injection E as <-. by apply IH.
Qed.

Lemma elem_of_filled {A} (ts : list (option A)) i x t : ts !! i = Some None -> Some t ∈ <[i := Some x]> ts <-> t = x \/ Some t ∈ ts.
Proof.
  intros Hi. rewrite !list_elem_of_lookup. split.
  - intros (j & [(-> & [= ->] & _)|[_ Hj]]%list_lookup_insert_Some); [by left|right; by exists j].
  - intros [->|[j Hj]].
    + exists i. apply list_lookup_insert_eq. by eapply lookup_lt_Some.
    + exists j. rewrite list_lookup_insert_ne; [done|]. intros ->. congruence.
Qed.

Lemma no_pagesets_counts x slots : (forall i h kva mv, slots !! i = Some h -> h_kind h <> HPageSet kva mv) -> nrefs x slots = 0 /\ nmaps x slots = 0.
Proof.
  intros Hn. unfold nrefs, nmaps. induction slots as [|h slots IH]; [done|]. cbn [tally foldr].
  destruct (ref_w_other x h) as [-> ->]; [intros kva mv; by apply (Hn 0%nat)|]. destruct IH as [A B]; [intros i h' kva mv Hi; by apply (Hn (Datatypes.S i) h')|].
  unfold tally in *. lia.
Qed.

(** A new process with one thread. *)
Lemma sys_start G D oB oD S k p root slots tcb i : sys_ok cfg G D oB oD S k -> k_procs k !! p = None -> p <> 0 -> Some tcb ∉ k_threads k ->
  k_threads k !! i = Some None -> is_Some (S !! root) -> (forall q qr, k_procs k !! q = Some qr -> p_ttbr0 qr <> root) ->
  Z.of_nat (length slots) <= HANDLE_SLOTS_PER_PAGE -> (forall i h kva mv, slots !! i = Some h -> h_kind h <> HPageSet kva mv) ->
  sys_ok cfg G D oB oD S (mkKernel (k_mem k) (k_pt k) (<[p := mkProc root slots]> (k_procs k)) (<[i := Some tcb]> (k_threads k))
    (<[tcb := p]> (k_tcb_process k)) (k_next_token k)).
Proof.
  intros [? ? ? ? ? ? ? ? ? ? ?] Hp H0 Ht Hi Hr Hd Hl Hn.
  assert (Hne : forall t, Some t ∈ k_threads k -> t <> tcb) by (by intros t Hin ->).
  constructor; try done; cbn [k_mem k_pt k_procs k_threads k_tcb_process].
  - by rewrite length_insert.
  - intros t [->|Hin]%elem_of_filled; [by rewrite lookup_insert_eq| |done]. rewrite lookup_insert_ne by (intros ->; by apply (Hne t)). by apply ok_tcb.
  - intros q. rewrite lookup_insert_is_Some', <- ok_live, !elem_of_procs_of. split.
    + intros [(t & [->|Hin]%elem_of_filled & E) Hq]; [| |done].
      * rewrite lookup_insert_eq in E. injection E as ->. by left.
      * rewrite lookup_insert_ne in E by (intros ->; by apply (Hne t)). right. split; [by exists t|done].
    + intros [<-|[(t & Hin & E) Hq]].
      * split; [|done]. exists tcb. rewrite lookup_insert_eq. split; [|done]. apply elem_of_filled; [done|by left].
      * split; [|done]. exists t. rewrite lookup_insert_ne by (intros ->; by apply (Hne t)). split; [|done]. apply elem_of_filled; [done|by right].
  - intros q qr [[<- <-]|[_ Hq]]%lookup_insert_Some; [by right|by eapply ok_root].
  - intros q q' qr qr' [[<- <-]|[_ Hq]]%lookup_insert_Some [[<- <-]|[_ Hq']]%lookup_insert_Some; cbn; try done.
    + intros E. by destruct (Hd _ _ Hq').
    + intros E. by destruct (Hd _ _ Hq).
    + by eapply ok_root_inj.
  - intros q qr [[<- <-]|[_ Hq]]%lookup_insert_Some; [done|by eapply ok_slots].
  - intros q qr j h kva mv [[<- <-]|[_ Hq]]%lookup_insert_Some Hj Hk; [|by eapply ok_handle]. by destruct (Hn j h kva mv Hj).
  - intros j e He. destruct (ok_counts j e He) as [-> ->]. destruct (no_pagesets_counts (e_header_kva e) slots Hn) as [E1 E2].
    rewrite !(sum_procs_delete _ (<[p := _]> (k_procs k)) p (mkProc root slots)) by apply lookup_insert_eq.
    rewrite delete_insert_id by done. cbn [p_table]. lia.
Qed.
End Commit.

(** * Phase 1 *)
Section Prepare.
Context (cfg : Config) (G D : gset Z) (oB oD : nat -> list Z) (S : gmap Z AS) (k : Kernel) (K : sys_ok cfg G D oB oD S k).
Context (p : Z) (pr : Proc) (Hp : k_procs k !! p = Some pr) (a : CreateArgs).

(** The PageSet the caller donates. *)
Definition donated (kva : Z) : Prop :=
  exists entry mv, lookup (p_table pr) (wrap 32 (a_process_resources_ps a)) RIGHT_WRITE OTPageSet = Ok entry /\ h_kind entry = HPageSet kva mv.

(** The handle of the caller that the child gets. *)
Definition copy_of (pc : option (Z * HandleKind)) : Prop :=
  if a_parent_handle_to_copy a =? U64_MAX then pc = None else
  exists entry, lookup_any (p_table pr) (wrap 32 (a_parent_handle_to_copy a)) rights_none = Ok entry /\ pc = Some (h_rights entry, h_kind entry) /\
    h_kind entry <> HEmpty /\ forall kva mv, h_kind entry <> HPageSet kva mv.

Record prepared (x : Prepared) (js jc jd : nat) (es ec ed : PageSetEntry) (pc : option (Z * HandleKind)) : Prop := {
  pp_room : has_room k = true;
  pp_stack_set : names pr (a_stack_pageset_id a) (pp_stack x) /\ buddy_set k (pp_stack x) js es /\ pp_stack_count x = e_count es;
  pp_scratch_set : names pr (a_scratch_pageset_id a) (pp_scratch x) /\ buddy_set k (pp_scratch x) jc ec /\ pp_scratch_count x = e_count ec;
  pp_donated : donated (d_header_kva (pp_donation x)) /\ buddy_set k (d_header_kva (pp_donation x)) jd ed;
  pp_pages : d_page_count (pp_donation x) = e_count ed /\ PROCESS_MIN_PAGES <= e_count ed <= PROCESS_MAX_PAGES;
  pp_unmapped : h_map_count (read_header (k_mem k) (d_header_kva (pp_donation x))) = 0;
  pp_copy : pp_plan x = mkPlan 0 0 false pc /\ copy_of pc;
  pp_fit : 0 < a_mapping_count a /\ a_mapping_count a + e_count es <= e_count ec * MAPPINGS_PER_PAGE;
}.

Lemma donate_spec lo hi h : exists r, validate_buddy_pageset k p h lo hi = Ret r /\
  match r with
  | Ok (kva, n) => exists entry mv j e, lookup (p_table pr) h RIGHT_WRITE OTPageSet = Ok entry /\ h_kind entry = HPageSet kva mv /\
      buddy_set k kva j e /\ n = e_count e /\ lo <= n <= hi /\ h_map_count (read_header (k_mem k) kva) = 0
  | Err e => e <> OK
  end.
Proof using K Hp.
  unfold validate_buddy_pageset. rewrite Hp. cbn [unwrap]. rewrite bind_Ret. destruct (lookup _ _ _ _) as [entry|e0] eqn:El; [|eexists; split; [reflexivity|]; by eapply lookup_err].
  pose proof El as El'. apply lookup_ok in El as [Hi _]. destruct (h_kind entry) as [| | | | | | |kva mv] eqn:Ek; try (by eexists).
  destruct (ok_handle _ _ _ _ _ _ _ K p pr _ entry kva mv Hp Hi Ek) as (j & e & Hj & <- & _).
  destruct (set_backed _ _ _ _ _ _ _ K j e Hj) as (Hb & _ & Ho & _). rewrite Hb, bind_Ret. cbn [Hdr.backed Hdr.bk_header Hdr.bk_count]. rewrite Ho.
  destruct (e_origin e) eqn:Eo; [|by eexists|by eexists]. destruct (Z.eqb_spec (h_map_count (read_header (k_mem k) (e_header_kva e))) 0); cbn [negb]; [|by eexists].
  destruct (Z.leb_spec lo (e_count e)); cbn [andb]; [|by eexists]. destruct (Z.leb_spec (e_count e) hi); [|by eexists].
  eexists. split; [reflexivity|]. cbn. exists entry, mv, j, e. done.
Qed.

Lemma copy_spec m : pwp (if a_parent_handle_to_copy a =? U64_MAX then pret plan_new else
          entry ⇐ or_fail (lookup_any (p_table pr) (wrap 32 (a_parent_handle_to_copy a)) rights_none) (fun _ => BadHandle);
          or_fail (record_parent_copy plan_new entry) PlanError)
    (fun plan m' => m' = m /\ exists pc, plan = mkPlan 0 0 false pc /\ copy_of pc) (fun _ m' => m' = m) m.
Proof using.
  unfold copy_of. destruct (a_parent_handle_to_copy a =? U64_MAX).
  { apply pwp_ret. split; [done|]. by exists None. }
  apply pwp_bind, pwp_or_fail; [|done]. intros entry El. apply pwp_or_fail; [|done]. intros plan E. split; [done|].
  unfold record_parent_copy in E. cbn [plan_new parent_copy] in E. rewrite bool_decide_eq_false_2 in E by (by intros []).
  destruct (h_kind entry) eqn:Ek; try done; injection E as <-; (eexists; split; [reflexivity|]; exists entry; rewrite Ek; done).
Qed.

Lemma mappings_fit mc sc cap : 0 < sc -> mc + sc < 2 ^ 64 -> validate_process_mappings mc sc cap = Ret ((0 <? mc) && (mc + sc <=? cap)).
Proof using.
  intros Hs Hm. unfold validate_process_mappings, add_chk. destruct (0 <? mc); [|done]. cbn [negb andb]. rewrite (proj2 (Z.ltb_lt 0 sc)) by done. cbn [negb].
  rewrite (proj2 (Z.ltb_lt _ _)) by done. by rewrite bind_Ret.
Qed.

Lemma phase_1_spec : 0 <= a_mapping_count a -> a_mapping_count a + MAX_PRACTICAL_PAGES_PER_SET < 2 ^ 64 ->
  pwp (phase_1 k p pr a) (fun x m => m = k_pt k /\ exists js jc jd es ec ed pc, prepared x js jc jd es ec ed pc) (fun _ m => m = k_pt k) (k_pt k).
Proof using K Hp.
  intros H0 Hmax. unfold phase_1. destruct (has_room k) eqn:Er; cbn [negb]; [|by apply pwp_fail]. apply pwp_bind.
  eapply pwp_mono; [by apply (pageset_of_spec _ _ _ _ _ _ _ K p pr)| |by intros e m [-> _]]. intros stack m (-> & Ns & js & es & Hjs & <-). apply pwp_bind.
  eapply pwp_mono; [by apply (buddy_count_spec _ _ _ _ _ _ _ K)| |by intros e m [-> _]]. intros n m (-> & -> & Bs). apply pwp_bind.
  eapply pwp_mono; [apply copy_spec| |done]. intros plan m (-> & pc & -> & Hpc). apply pwp_bind.
  eapply pwp_mono; [by apply (pageset_of_spec _ _ _ _ _ _ _ K p pr)| |by intros e m [-> _]]. intros scratch m (-> & Nc & jc & ec & Hjc & <-). apply pwp_bind.
  eapply pwp_mono; [by apply (buddy_count_spec _ _ _ _ _ _ _ K)| |by intros e m [-> _]]. intros n m (-> & -> & Bc).
  destruct (set_backed _ _ _ _ _ _ _ K _ _ Hjs) as (_ & _ & _ & Cs). destruct (set_backed _ _ _ _ _ _ _ K _ _ Hjc) as (_ & _ & _ & Cc).
  unfold MAX_PRACTICAL_PAGES_PER_SET in *. rewrite (proj2 (Z.eqb_neq _ _)) by lia. apply pwp_bind. eapply pwp_lift.
  { unfold mul_chk, MAPPINGS_PER_PAGE. rewrite (proj2 (Z.ltb_lt _ _)) by lia. reflexivity. }
  apply pwp_bind. eapply pwp_lift; [apply mappings_fit; lia|].
  destruct (Z.ltb_spec 0 (a_mapping_count a)); cbn [andb negb]; [|by apply pwp_fail].
  change 170 with MAPPINGS_PER_PAGE. destruct (Z.leb_spec (a_mapping_count a + e_count es) (e_count ec * MAPPINGS_PER_PAGE)); cbn [negb]; [|by apply pwp_fail].
  apply pwp_bind. unfold donate_process_pages.
  destruct (donate_spec PROCESS_MIN_PAGES PROCESS_MAX_PAGES (wrap 32 (a_process_resources_ps a))) as (r & Ed & Hd).
  eapply pwp_lift; [rewrite Ed, bind_Ret; reflexivity|]. apply pwp_bind, pwp_or_fail; [|done]. intros d Er'. apply pwp_ret. split; [done|].
  destruct r as [[kva n]|]; [|done]. injection Er' as <-. destruct Hd as (entry & mv & jd & ed & El & Ek & Bd & -> & Hr & Hm).
  exists js, jc, jd, es, ec, ed, pc. constructor; try done. cbn. split; [by exists entry, mv|done].
Qed.
End Prepare.

(** * Who owns the kernel's pages

    What a page held by the kernel is used for, besides user page tables: the
    parts of a process, a thread's TCB and stack, a kernel object at an address
    of the pool, a table of the pool. *)
Inductive Owner := OProc (p : Z) | OHandles (p : Z) | OData (p : Z) | OTcb (t : Z) | OStack (t : Z) | OObj (kva : Z) | OKvm.

(** The threads in the scheduler's slots of process [p]. *)
Definition threads_of (k : Kernel) (p : Z) : Z := Z.of_nat (length (filter (fun q => q = p) (procs_of (k_tcb_process k) (k_threads k)))).

Section World.
Context (cfg : Config).

(** The direct-map address of page [idx]. *)
Definition kva_of (idx : Z) : Z := addr_of cfg idx + KERNEL_VA_OFFSET.

(** RAM ends below the pool of kernel addresses in the direct map. *)
Definition direct_map_ok : Prop := ram_base (plat cfg) + ram_size (plat cfg) <= KVM_POOL_BASE - KERNEL_VA_OFFSET.

Definition owned (own : Z -> option Owner) (kva : Z) (l : Owner) : Prop := exists idx, kva = kva_of idx /\ own idx = Some l.

(** What a process that goes away when its last thread exits owns. *)
Record mortal (own : Z -> option Owner) (p : Z) (pr : Proc) (o : ProcessObject) : Prop := {
  mo_root : p_ttbr0 pr <> 0;
  mo_proc : owned own p (OProc p);
  mo_table : owned own (po_ht o) (OHandles p);
  mo_pages : NoDup (po_owned o) /\ forall q, q ∈ po_owned o -> exists idx, q = addr_of cfg idx /\ own idx = Some (OData p);
}.

(** ** Handles and the objects they name *)

(** A handle's object is there, of the handle's type, and the identity on an
    endpoint was minted. *)
Definition handle_ok (k : Kernel) (ipc : gmap Z IpcObject) (kind : HandleKind) : Prop :=
  match kind with
  | HEmpty | HPageSet _ _ => True
  | HEndpoint kva tok => (exists o, ipc !! kva = Some (IEndpoint o)) /\ forall t, tok = Some t -> 1 <= t < next_token_of k kva
  | HNotification kva => exists o, ipc !! kva = Some (INotification o)
  | HReply kva => exists o, ipc !! kva = Some (IReply o)
  | HHandleTable _ | HThreadControlBlock _ | HProcess _ => False
  end.

(** Slot [i] of process [q] has a handle of this kind. *)
Definition at_slot (k : Kernel) (q : Z) (i : nat) (kind : HandleKind) : Prop :=
  exists pr h, k_procs k !! q = Some pr /\ p_table pr !! i = Some h /\ h_kind h = kind.

Record handles_sound (k : Kernel) (ipc : gmap Z IpcObject) : Prop := {
  hs_ok : forall q i kind, at_slot k q i kind -> handle_ok k ipc kind;
  hs_unique : forall q q' i i' kva t, at_slot k q i (HEndpoint kva (Some t)) -> at_slot k q' i' (HEndpoint kva (Some t)) -> q = q' /\ i = i';
  hs_counts : forall kva, 1 <= next_token_of k kva;
}.

Definition no_object (kind : HandleKind) : Prop := kind = HEmpty \/ exists kva mv, kind = HPageSet kva mv.

(** At most one handle, of [kind], is new. *)
Lemma sound_change k k' ipc ipc' tgt i0 kind : handles_sound k ipc ->
  (forall q i kind', at_slot k' q i kind' -> q = tgt /\ i = i0 /\ kind' = kind \/ no_object kind' \/ at_slot k q i kind') ->
  (forall x, is_Some (ipc !! x) -> next_token_of k x <= next_token_of k' x) -> (forall x, 1 <= next_token_of k' x) -> (forall kva o, ipc !! kva = Some o -> ipc' !! kva = Some o) ->
  handle_ok k' ipc' kind -> (forall kva t, kind = HEndpoint kva (Some t) -> next_token_of k kva <= t) -> handles_sound k' ipc'.
Proof.
  intros [H1 H2 H3] Hs Ht Hc Hi Hn Hf. constructor; [| |done].
  - intros q i kind' [(-> & -> & ->)|[[->|(kva & mv & ->)]|Hk%H1]]%Hs; [done|done|done|].
    destruct kind'; cbn in *; try done; try (destruct Hk as [o Ho]; exists o; by apply Hi).
    destruct Hk as [(o & Ho) Hk]. split; [exists o; by apply Hi|]. intros t Et. specialize (Hk t Et). specialize (Ht kva (ex_intro _ _ Ho)). lia.
  - intros q q' i i' kva t A B.
    assert (Hold : forall q i, at_slot k q i (HEndpoint kva (Some t)) -> HEndpoint kva (Some t) <> kind).
    { intros q0 i0' A0%H1 <-. destruct A0 as [_ A0]. specialize (A0 t eq_refl). specialize (Hf kva t eq_refl). lia. }
    destruct (Hs _ _ _ A) as [(-> & -> & Ek)|[[Ek|(? & ? & Ek)]|A']]; [|done|done|].
    + destruct (Hs _ _ _ B) as [(-> & -> & _)|[[Ek'|(? & ? & Ek')]|B']]; [done|done|done|]. by destruct (Hold _ _ B').
    + destruct (Hs _ _ _ B) as [(-> & -> & Ek')|[[Ek'|(? & ? & Ek')]|B']]; [|done|done|by eapply H2]. by destruct (Hold _ _ A').
Qed.

Lemma sound_put k k' ipc ipc' tgt i0 kind : handles_sound k ipc ->
  (forall q i kind', at_slot k' q i kind' -> q = tgt /\ i = i0 /\ kind' = kind \/ no_object kind' \/ at_slot k q i kind') ->
  (forall x, next_token_of k x <= next_token_of k' x) -> (forall kva o, ipc !! kva = Some o -> ipc' !! kva = Some o) ->
  handle_ok k' ipc' kind -> (forall kva t, kind = HEndpoint kva (Some t) -> next_token_of k kva <= t) -> handles_sound k' ipc'.
Proof.
  intros H Hs Ht Hi Hn Hf. apply (sound_change k k' ipc ipc' tgt i0 kind); try done. intros x. pose proof (hs_counts _ _ H x). specialize (Ht x). lia.
Qed.

(** Handles only go. *)
Lemma sound_less k k' ipc : handles_sound k ipc -> (forall q i kind, at_slot k' q i kind -> no_object kind \/ at_slot k q i kind) ->
  (forall x, next_token_of k x <= next_token_of k' x) -> handles_sound k' ipc.
Proof. intros H Hs Ht. apply (sound_put k k' ipc ipc 0 0%nat HEmpty); try done. intros q i kind Hk. right. by apply Hs. Qed.

Lemma sound_revoked k k' ipc h : handles_sound k ipc -> k_procs k' = revoke_proc h <$> k_procs k -> k_next_token k' = k_next_token k -> handles_sound k' ipc.
Proof.
  intros H Ep Et. apply (sound_less k); [done| |unfold next_token_of; rewrite Et; lia].
  intros q i kind (pr & e & Hq & Hi & <-). rewrite Ep, lookup_fmap in Hq. destruct (k_procs k !! q) as [pr0|] eqn:E; [|done]. injection Hq as <-.
  cbn [revoke_proc p_table] in Hi. rewrite list_lookup_fmap in Hi. destruct (p_table pr0 !! i) as [e0|] eqn:E0; [|done]. injection Hi as <-.
  unfold revoke_slot. destruct (revoke_action e0 h); [by left; left|]. right. by exists pr0, e0.
Qed.

(** A call's step on the table of [tgt]. *)
Lemma sound_step k k' ipc p tgt pr slots : handles_sound k ipc -> k_procs k !! tgt = Some pr -> table_step k p (p_table pr) slots (k_next_token k') ->
  k_procs k' !! tgt = Some (mkProc (p_ttbr0 pr) slots) -> (forall q, q <> tgt -> k_procs k' !! q = k_procs k !! q) -> handles_sound k' ipc.
Proof.
  intros H Hp Hts Hp' Ho.
  assert (Hput : forall i0 h, slots = <[i0 := h]> (p_table pr) -> (forall x, next_token_of k x <= next_token_of k' x) -> handle_ok k' ipc (h_kind h) ->
    (forall kva t, h_kind h = HEndpoint kva (Some t) -> next_token_of k kva <= t) -> handles_sound k' ipc).
  { intros i0 h -> Ht Hok Hf. apply (sound_put k k' ipc ipc tgt i0 (h_kind h)); try done. intros q i kind (pr' & e & Hq & Hi & <-).
    destruct (decide (q = tgt)) as [->|Hne].
    - rewrite Hp' in Hq. injection Hq as <-. apply list_lookup_insert_Some in Hi as [(-> & -> & _)|[_ Hi]]; [by left|right; right; by exists pr, e].
    - right. right. rewrite Ho in Hq by done. by exists pr', e. }
  assert (Hheld : forall kind, held k p kind -> handle_ok k ipc kind) by (intros kind (pr0 & i & e & H1 & H2 & H3); apply (hs_ok _ _ H p i); by exists pr0, e).
  inversion Hts as [tok Hle E1 E2|i h Hk E1 E2|i rights kind Hk Hne E1 E2|i rights kva t Hk E1 E2].
  - apply (sound_less k); [done| |intros x; apply Hle]. intros q i kind (pr' & e & Hq & Hi & <-). right. destruct (decide (q = tgt)) as [->|Hne].
    + rewrite Hp' in Hq. injection Hq as <-. exists pr, e. cbn in Hi. by rewrite E1.
    + rewrite Ho in Hq by done. by exists pr', e.
  - apply (Hput i h); [done|unfold next_token_of; rewrite <- E2; lia|destruct Hk as [->|(? & ? & ->)]; done|]. intros kva t E. destruct Hk as [|(? & ? & ?)]; congruence.
  - apply (Hput i (mkHandle rights kind)); [done|unfold next_token_of; rewrite <- E2; lia| |intros kva t E; by destruct (Hne kva (Some t))].
    apply Hheld in Hk. cbn [h_kind]. destruct kind; try done. by destruct (Hne kva caller_token).
  - assert (Hn : forall x, next_token_of k' x = if decide (x = kva) then next_token_of k kva + 1 else next_token_of k x).
    { intros x. unfold next_token_of. rewrite <- E2. case_decide; [subst; by rewrite lookup_insert_eq|by rewrite lookup_insert_ne by done]. }
    apply (Hput i (mkHandle rights (HEndpoint kva (Some (next_token_of k kva))))); [done|intros x; rewrite Hn; case_decide; subst; lia| |by intros ? ? [= <- <-]].
    apply Hheld in Hk. cbn in *. split; [apply Hk|]. intros t' [= <-]. rewrite Hn, decide_True by done. pose proof (hs_counts _ _ H kva). lia.
Qed.

(** ** The pool of kernel addresses *)

(** The frame [idx] is behind page [i] of the pool: a TCB, a kernel object or the
    stack of a thread. *)
Definition pool_page (own : Z -> option Owner) (w : World) (i idx : Z) : Prop :=
  own idx = Some (OTcb (va_of i)) \/ own idx = Some (OObj (va_of i)) \/
  exists t, own idx = Some (OStack t) /\ Some t ∈ k_threads (w_k w) /\ w_stacks w !! t = Some (KSched.Pool (va_of i)).

(** The pool maps exactly the pages of [F], each owned by what is on it; its
    tables, the pages of threads in it and the objects are the kernel's. *)
Record pool_inv (own : Z -> option Owner) (w : World) (F : gmap Z Z) : Prop := {
  pi_ok : exists outside, pool_ok outside (p_l1 (w_pool w)) (pool_of w) F;
  pi_tables : forall n, 0 <= n < 514 -> exists idx, p_l1 (w_pool w) + n * 4096 = addr_of cfg idx /\ own idx = Some OKvm;
  pi_pages : forall i a, F !! i = Some a -> 0 <= i < POOL_PAGES /\ exists idx, a = addr_of cfg idx /\ pool_page own w i idx;
  pi_threads : forall t s, Some t ∈ k_threads (w_k w) -> w_stacks w !! t = Some (KSched.Pool s) -> exists i j xt xs,
    t = va_of i /\ s = va_of j /\ F !! i = Some (addr_of cfg xt) /\ own xt = Some (OTcb t) /\ F !! j = Some (addr_of cfg xs) /\ own xs = Some (OStack t);
  pi_objs : forall kva o, w_ipc w !! kva = Some o -> exists i x, kva = va_of i /\ F !! i = Some (addr_of cfg x) /\ own x = Some (OObj kva);
}.

(** Before boot sets the pool up, no thread and no object uses it. *)
Definition pool_use (own : Z -> option Owner) (w : World) : Prop :=
  if p_initialized (w_pool w) then exists F, pool_inv own w F
  else w_ipc w = ∅ /\ forall t s, Some t ∈ k_threads (w_k w) -> w_stacks w !! t <> Some (KSched.Pool s).

Record world_ok (own : Z -> option Owner) (G D : gset Z) (oB oD : nat -> list Z) (S : gmap Z AS) (w : World) : Prop := {
  wk_sys : sys_ok cfg G D oB oD S (w_k w);
  wk_held : forall idx l, own idx = Some l -> idx ∈ G;
  wk_tables : forall r a q idx, S !! r = Some a -> as_page r a q -> q = addr_of cfg idx -> own idx = None;
  wk_objs : forall p pr, k_procs (w_k w) !! p = Some pr -> exists o, w_objs w !! p = Some o /\ po_threads o = threads_of (w_k w) p /\
    (po_immortal o = false -> mortal own p pr o);
  wk_procs : forall p idx, is_Some (k_procs (w_k w) !! p) -> p = kva_of idx -> own idx = Some (OProc p);
  wk_tcbs : forall t idx, Some t ∈ k_threads (w_k w) -> t = kva_of idx -> t < KVM_POOL_BASE -> own idx = Some (OTcb t);
  wk_slots : forall i j t, k_threads (w_k w) !! i = Some (Some t) -> k_threads (w_k w) !! j = Some (Some t) -> i = j;
  wk_stacks : forall t, Some t ∈ k_threads (w_k w) -> exists b, w_stacks w !! t = Some b /\
    (forall s, b = DirectMap s -> owned own t (OTcb t) /\ owned own s (OStack t)) /\ (forall va, b = Image va -> t < KVM_POOL_BASE);
  wk_pool : pool_use own w;
  wk_handles : handles_sound (w_k w) (w_ipc w);
}.

(** The labels of the pool's pages. *)
Definition pool_label (w : World) (l : Owner) : Prop :=
  match l with
  | OKvm | OObj _ => True
  | OTcb t => KVM_POOL_BASE <= t
  | OStack t => Some t ∈ k_threads (w_k w) /\ exists s, w_stacks w !! t = Some (KSched.Pool s)
  | _ => False
  end.

(** Nothing of the pool changes when the pool, its labels and its threads stay. *)
Lemma pool_use_kept own own' w w' : pool_use own w -> w_pool w' = w_pool w -> w_ipc w' = w_ipc w ->
  (forall idx l, own idx = Some l -> pool_label w l -> own' idx = Some l) ->
  (forall t s, Some t ∈ k_threads (w_k w') /\ w_stacks w' !! t = Some (KSched.Pool s) <-> Some t ∈ k_threads (w_k w) /\ w_stacks w !! t = Some (KSched.Pool s)) ->
  pool_use own' w'.
Proof.
  unfold pool_use. intros H E Ei Ho Ht. rewrite E, Ei. destruct (p_initialized (w_pool w)).
  2:{ destruct H as [H0 H]. split; [done|]. intros t s H1 H2. destruct (proj1 (Ht t s) (conj H1 H2)) as [H3 H4]. by apply (H t s). }
  destruct H as (F & [(out & [P1 P2 P3 P4 P5 P6]) I2 I3 I4 I5]). exists F.
  assert (Hb : forall i, 0 <= i -> KVM_POOL_BASE <= va_of i) by (intros i Hi; unfold va_of; lia).
  constructor; rewrite ?E, ?Ei.
  - exists out. constructor; unfold pool_of in *; cbn in *; by rewrite ?E.
  - intros n Hn. destruct (I2 n Hn) as (idx & En & Hl). exists idx. split; [done|]. by apply Ho.
  - intros i a Hi. destruct (I3 i a Hi) as (Hr & idx & Ea & Hp). split; [done|]. exists idx. split; [done|].
    destruct Hp as [Hp|[Hp|(t & Hp & Hs1 & Hs2)]].
    + left. apply Ho; [done|]. apply Hb. lia.
    + right. left. by apply Ho.
    + right. right. exists t. destruct (proj2 (Ht t _) (conj Hs1 Hs2)). split; [|done]. apply Ho; [done|]. split; [done|by eexists].
  - intros t s H1 H2. destruct (proj1 (Ht t s) (conj H1 H2)) as [H3 H4]. destruct (I4 t s H3 H4) as (i & j & xt & xs & Et & Es & F1 & L1 & F2 & L2).
    exists i, j, xt, xs. split_and!; try done; apply Ho; try done; cbn; [|split; [done|by eexists]]. rewrite Et. apply Hb. apply (I3 _ _ F1).
  - intros kva o Hk. destruct (I5 kva o Hk) as (i & x & Ek & F1 & L1). exists i, x. split_and!; [done|done|]. by apply Ho.
Qed.
End World.

(** ** Thread counts *)

Lemma procs_of_app tp l l' : procs_of tp (l ++ l') = procs_of tp l ++ procs_of tp l'.
Proof. unfold procs_of. apply omap_app. Qed.

Lemma procs_of_other tp l t p : Some t ∉ l -> procs_of (<[t := p]> tp) l = procs_of tp l.
Proof.
  induction l as [|[x|] l IH]; intros Hn; [done| |].
  - apply not_elem_of_cons in Hn as [Hx Hn]. unfold procs_of in *. cbn. rewrite lookup_insert_ne by congruence. by rewrite IH.
  - apply not_elem_of_cons in Hn as [_ Hn]. by apply IH.
Qed.

Lemma slot_at_split {A} (l : list A) i x y : l !! i = Some x -> exists l1 l2, l = l1 ++ x :: l2 /\ <[i := y]> l = l1 ++ y :: l2.
Proof.
  intros Hi. exists (take i l), (drop (Datatypes.S i) l). split; [symmetry; by apply take_drop_middle|].
  apply insert_take_drop. by eapply lookup_lt_Some.
Qed.

Lemma procs_of_add tp ths i t p : ths !! i = Some None -> Some t ∉ ths ->
  procs_of (<[t := p]> tp) (<[i := Some t]> ths) ≡ₚ p :: procs_of tp ths.
Proof.
  intros Hi Hn. destruct (slot_at_split ths i None (Some t) Hi) as (l1 & l2 & -> & ->). apply not_elem_of_app in Hn as [H1 [_ H2]%not_elem_of_cons].
  rewrite !procs_of_app. change (None :: l2) with ([None] ++ l2). change (Some t :: l2) with ([Some t] ++ l2). rewrite !procs_of_app, (procs_of_other tp l1), (procs_of_other tp l2) by done.
  unfold procs_of at 2 5. cbn. rewrite lookup_insert_eq. symmetry. apply Permutation_middle.
Qed.

Lemma procs_of_remove tp ths i t p : ths !! i = Some (Some t) -> tp !! t = Some p ->
  procs_of tp ths ≡ₚ p :: procs_of tp (<[i := None]> ths).
Proof.
  intros Hi Ht. destruct (slot_at_split ths i (Some t) None Hi) as (l1 & l2 & -> & ->).
  rewrite !procs_of_app. change (None :: l2) with ([None] ++ l2). change (Some t :: l2) with ([Some t] ++ l2). rewrite !procs_of_app.
  unfold procs_of at 2 5. cbn. rewrite Ht. symmetry. apply Permutation_middle.
Qed.

Lemma count_cons (p q : Z) l l' : l ≡ₚ q :: l' -> Z.of_nat (length (filter (fun x => x = p) l)) =
  Z.of_nat (length (filter (fun x => x = p) l')) + if decide (q = p) then 1 else 0.
Proof. intros E. rewrite E, filter_cons. destruct (decide (q = p)); cbn [length]; lia. Qed.

Lemma threads_none cfg G D oB oD S k p : sys_ok cfg G D oB oD S k -> k_procs k !! p = None -> p <> 0 -> threads_of k p = 0.
Proof.
  intros K Hp H0. unfold threads_of. destruct (filter _ _) as [|x l] eqn:E; [done|]. exfalso.
  assert (Hx : x ∈ filter (fun q => q = p) (procs_of (k_tcb_process k) (k_threads k))) by (rewrite E; by left).
  apply list_elem_of_filter in Hx as [-> Hx]. destruct (proj1 (ok_live _ _ _ _ _ _ _ K p) (conj Hx H0)) as [pr Hpr]. congruence.
Qed.

(** The tables of a space are pages the kernel holds. *)
Lemma table_page cfg G D oB oD S k r a q : config_ok cfg -> sys_ok cfg G D oB oD S k -> S !! r = Some a -> as_page r a q -> exists idx, idx ∈ G /\ q = addr_of cfg idx.
Proof.
  intros C K Hr Hq. pose proof (ok_tables _ _ _ _ _ _ _ K r a q Hr Hq) as Ht. apply elem_of_map in Ht as (idx & E & Hin). exists idx. split; [done|].
  pose proof (pt_G _ _ _ _ (iv_B _ _ _ _ _ _ _ (ok_mem _ _ _ _ _ _ _ K)) idx Hin) as [Hi _]. destruct (frame_of_eq cfg idx C Hi) as [E2 _].
  destruct (as_page_addr _ _ _ _ (so_as _ _ (ok_spaces _ _ _ _ _ _ _ K) r a Hr) Hq) as [_ Hm]. pose proof (Z.div_mod q 4096). unfold PAGE_SIZE in E2. lia.
Qed.

(** ** Where a new thread starts *)

(** On the kernel stack at [stack_va], with user code at [entry] and a user
    stack from [base] to [top]. *)
Definition start_at (stack_va entry top base arg : Z) : ThreadStart :=
  mkStart STACK_CANARY (mkSaved process_entry (replicate 10 0) thread_entry 0 0 (replicate 32 0)) (stack_va + 3472) entry top base arg.

Lemma tcb_start_spec stack_va entry top base arg : 0 <= stack_va -> stack_va + PAGE_SIZE < 2 ^ 64 ->
  tcb_start stack_va entry top base arg = Ret (start_at stack_va entry top base arg).
Proof.
  intros H0 H1. unfold tcb_start, thread_bootstrap, add_chk, sub_chk, SAVED_CONTEXT_BYTES. rewrite (proj2 (Z.ltb_lt _ _) H1), bind_Ret.
  rewrite (proj2 (Z.leb_le _ _)), !bind_Ret by (unfold PAGE_SIZE; lia). unfold start_at. cbn [fst snd]. do 2 f_equal. unfold PAGE_SIZE. lia.
Qed.

Section Addresses.
Context (cfg : Config) (Hcfg : config_ok cfg) (Hdm : direct_map_ok cfg).

Lemma kva_of_inj i j : kva_of cfg i = kva_of cfg j -> i = j.
Proof using. unfold kva_of. intros E. apply (addr_of_inj cfg). lia. Qed.

Lemma kva_of_range idx : 0 <= idx < total_pages (plat cfg) -> KERNEL_VA_OFFSET <= kva_of cfg idx < KVM_POOL_BASE.
Proof using Hcfg Hdm.
  intros Hi. pose proof (ck_plat _ Hcfg) as P. pose proof (pk_base _ P). unfold direct_map_ok, kva_of, addr_of, total_pages in *.
  pose proof (Z.mul_div_le (ram_size (plat cfg)) PAGE_SIZE ltac:(done)). unfold PAGE_SIZE, KVM_POOL_BASE, KERNEL_VA_OFFSET in *. lia.
Qed.
End Addresses.
