(* ===== verification/ProcCreate.v ===== *)
(** create_process as a whole: it never panics, a failure leaves the kernel as
    it was, and a success makes a process that owns its pages and maps exactly
    what was asked for. *)
From Stdlib Require Import ZArith Lia.
From stdpp Require Import base option gmap numbers sets fin_sets list.
From S2P Require Import Ipc IpcState KSched DmaSync Prelude Frames Buddy BuddyInv Pools FrameAlloc PageSet Ownership KPageSet HeaderFrame PageTable Vmem Kvm KvmPool Handles Revoke SysPages SysSafe AddrSpace Process ProcSpec ProcSafe.
Open Scope Z_scope.

(** A handle after the PageSets [hs] are gone. *)
Definition strip (hs : list Z) (h : HandleEntry) : HandleEntry :=
  match h_kind h with HPageSet kva _ => if bool_decide (kva ∈ hs) then EMPTY else h | _ => h end.
Definition strip_proc (hs : list Z) (pr : Proc) : Proc := mkProc (p_ttbr0 pr) (strip hs <$> p_table pr).

Lemma strip_slot_cases hs h : strip hs h = EMPTY \/ strip hs h = h.
Proof. unfold strip. destruct (h_kind h); try (by right). case_bool_decide; auto. Qed.

Lemma strip_nil h : strip [] h = h.
Proof. unfold strip. by destruct (h_kind h). Qed.

Lemma strip_cons x hs h : strip hs (revoke_slot x h) = strip (x :: hs) h.
Proof.
  unfold revoke_slot, revoke_action, strip. destruct (h_kind h) as [| | | | | | |kva mv] eqn:E; rewrite ?E; try done.
  destruct (Z.eqb_spec kva x) as [->|Hne]; cbn.
  - by rewrite bool_decide_eq_true_2 by (by left).
  - rewrite E. rewrite (bool_decide_ext (kva ∈ hs) (kva ∈ x :: hs)); [done|]. rewrite elem_of_cons. tauto.
Qed.

Lemma strip_procs hs : forall ps : gmap Z Proc, foldl (fun ps h => revoke_proc h <$> ps) ps hs = strip_proc hs <$> ps.
Proof.
  induction hs as [|h hs IH]; intros ps; cbn [foldl].
  - rewrite <- (map_fmap_id ps) at 1. apply map_fmap_ext. intros q [r t] _. unfold strip_proc. cbn. f_equal. rewrite <- (list_fmap_id t) at 1.
    apply list_fmap_ext. intros i e _. by rewrite strip_nil.
  - rewrite IH, <- map_fmap_compose. apply map_fmap_ext. intros q [r t] _. unfold strip_proc, revoke_proc. cbn. f_equal. rewrite <- list_fmap_compose.
    apply list_fmap_ext. intros i e _. cbn. apply strip_cons.
Qed.

(** The memory of [k'] is that of [k] without the PageSets [hs]. *)
Record stripped (hs : list Z) (S S' : gmap Z AS) (k k' : Kernel) : Prop := {
  st_table : forall j e, table (k_mem k') !! j = Some (Some e) <-> table (k_mem k) !! j = Some (Some e) /\ e_header_kva e ∉ hs;
  st_header : forall x, x ∉ hs -> read_header (k_mem k') x = read_header (k_mem k) x;
  st_gone : forall p pr u h j e, k_procs k !! p = Some pr -> h ∈ hs -> buddy_set k h j e ->
    covered (e_count e) (actions h (p_table pr)) u = true -> sview (k_pt k') S' (p_ttbr0 pr) u = None;
  st_kept : forall p pr u, k_procs k !! p = Some pr ->
    (forall h j e, h ∈ hs -> buddy_set k h j e -> covered (e_count e) (actions h (p_table pr)) u = false) ->
    sview (k_pt k') S' (p_ttbr0 pr) u = sview (k_pt k) S (p_ttbr0 pr) u;
}.

Lemma sview_other m S r a r' u : r' <> r -> sview m (<[r := a]> S) r' u = sview m S r' u.
Proof. intros Hne. unfold sview. by rewrite lookup_insert_ne. Qed.

Lemma buddy_set_pt k m h j e : buddy_set (with_pt k m) h j e <-> buddy_set k h j e.
Proof. split; intros []; by constructor. Qed.

Section Committing.
Context (cfg : Config) (Hcfg : config_ok cfg).
Context (G D : gset Z) (oB oD : nat -> list Z) (S : gmap Z AS) (k : Kernel) (K : sys_ok cfg G D oB oD S k).
Context (pr : Proc) (d : ProcessPagesDonation) (jd : nat) (ed : PageSetEntry) (Hd : buddy_set k (d_header_kva d) jd ed).
Context (Hdc : d_page_count d = e_count ed) (Hdr : PROCESS_MIN_PAGES <= e_count ed <= PROCESS_MAX_PAGES).
Context (Hdm : h_map_count (read_header (k_mem k) (d_header_kva d)) = 0).
Context (mem : Z -> Z -> ProcessMapping) (stack_kva : Z) (js : nat) (es : PageSetEntry) (count : Z) (pc : option (Z * HandleKind)).
Context (root cl : Z) (r : Recorded) (slots : list HandleEntry) (m : gmap Z Z).
Context (PV : provisioned cfg oB S k pr d jd ed mem stack_kva js es count pc root cl r slots m).
Context (Hno : forall j e, table (k_mem k) !! j = Some (Some e) -> no_overlap k e).

Definition all_headers : list Z := d_header_kva d :: rc_headers r.


Lemma root_unused : S !! root = None /\ forall p qr, k_procs k !! p = Some qr -> p_ttbr0 qr <> root.
Proof using K Hcfg Hd Hdr PV.
  destruct (pv_root _ _ _ _ _ _ _ _ _ _ _ _ _ _ _ _ _ _ _ PV) as [Eroot Hroot].
  assert (Hfr : S !! root = None).
  { rewrite Eroot. apply (root_fresh S (ws_page cfg oB jd) (ws_cap ed)); [by apply ws_bounds|]. intros i r' a' Hi. by eapply ws_fresh. }
  split; [done|]. intros p qr Hp E. destruct (ok_root _ _ _ _ _ _ _ K p qr Hp) as [|[x Hx]]; congruence.
Qed.

Lemma donation_unmapped : unmapped k (d_header_kva d).
Proof using K Hd Hdm.
  pose proof (no_maps_unmapped cfg _ _ _ _ _ _ jd ed K (bs_entry _ _ _ _ Hd)) as U. rewrite (bs_kva _ _ _ _ Hd) in U. by apply U.
Qed.

(** The donation is the kernel's: the new space is one of its spaces. *)
Lemma donation_spec : exists k2 a D2 oD2, into_consumed cfg (with_pt k m) d cl = Ret k2 /\ k_pt k2 = m /\ revoked S ed (with_pt k m) k2 /\
  table (k_mem k2) = <[jd := None]> (table (k_mem k)) /\ (forall x, x <> d_header_kva d -> read_header (k_mem k2) x = read_header (k_mem k) x) /\
  kept S k m /\
  sys_ok cfg (G ∪ list_to_set (take (Z.to_nat (PROCESS_KERNEL_OBJ_PAGES + cl)) (oB jd))) D2 (set_own oB jd []) oD2 (<[root := a]> S) k2 /\
  (forall q, as_page root a q -> exists i idx, (4 <= i < Z.to_nat (PROCESS_KERNEL_OBJ_PAGES + cl))%nat /\ oB jd !! i = Some idx /\ q = addr_of cfg idx) /\
  (exists user, Z.of_nat (length user) = count /\ (forall n mp, user !! n = Some mp -> from_user cfg oB k pr d mem (Z.of_nat n) mp) /\
     rec_ok cfg oB k (rc_headers r) (user ++ stack_maps cfg oB js (length (oB js))) r /\
     forall u, as_view m a u = view_of (user ++ stack_maps cfg oB js (length (oB js))) u).
Proof using K Hcfg Hd Hdr Hdc Hdm PV.
  destruct root_unused as [Hfr _]. destruct PV as [_ [Eroot Hroot] (b & a & user & B & Ecl & Hul & Huf & Hv & Hrec) _ _ _].
  pose proof (built_kept cfg Hcfg _ _ _ _ _ _ K d jd ed Hd Hdr m b a B) as Hks.
  pose proof (sys_pt _ _ _ _ _ _ _ m K (proj1 Hks)) as K1.
  pose proof (bu_claimed _ _ _ _ _ _ _ B) as Hc1. pose proof (bu_small _ _ _ _ _ _ _ B) as Hc2. rewrite Ecl in Hc1.
  assert (Hcl : 0 <= cl <= e_count ed - PROCESS_KERNEL_OBJ_PAGES) by (unfold PROCESS_MIN_PAGES, WORKSPACE_MIN_PAGES in *; lia).
  destruct (into_consumed_spec cfg Hcfg _ _ _ _ _ _ d jd ed cl K1 (proj2 (buddy_set_pt k m _ _ _) Hd) Hdm Hdc Hdr Hcl) as (k2 & D2 & oD2 & E2 & Ept & R & Et & Eh & K2).
  assert (Hpg : forall q, as_page root a q -> exists i idx, (4 <= i < Z.to_nat (PROCESS_KERNEL_OBJ_PAGES + cl))%nat /\ oB jd !! i = Some idx /\ q = addr_of cfg idx).
  { intros q Hq. rewrite Eroot in Hq. apply (bu_pages _ _ _ _ _ _ _ B) in Hq as (i & Hi & ->). rewrite Ecl in Hi. unfold ws_page, PROCESS_KERNEL_OBJ_PAGES in *.
    destruct (obj_page_spec cfg Hcfg _ _ _ _ _ _ K d jd ed Hd (4 + i)) as (idx & Hidx & -> & _); [lia|]. exists (Z.to_nat (4 + i)), idx. split; [lia|done]. }
  exists k2, a, D2, oD2. do 6 (split; [done|]). split; [|split; [done|by exists user]].
  apply sys_space; [done|done|rewrite Ept, Eroot; apply B|]. intros q (i & idx & Hi & Hx & ->)%Hpg. destruct (addr_of_page cfg Hcfg idx) as [_ ->].
  - by apply (pt_own _ _ _ _ (iv_B _ _ _ _ _ _ _ (ok_mem _ _ _ _ _ _ _ K)) jd i).
  - apply elem_of_map_2, elem_of_union. right. apply elem_of_list_to_set, list_elem_of_lookup. exists i. by rewrite lookup_take_lt by lia.
Qed.

(** The recorded PageSets can still be consumed then. *)
Lemma headers_fine k2 a : revoked S ed (with_pt k m) k2 -> table (k_mem k2) = <[jd := None]> (table (k_mem k)) ->
  (forall x, x <> d_header_kva d -> read_header (k_mem k2) x = read_header (k_mem k) x) -> kept S k m ->
  (forall h, h ∈ rc_headers r -> exists j e, buddy_set k h j e /\ validated (with_pt k m) S e) ->
  forall h, h ∈ rc_headers r -> fine k2 (<[root := a]> S) h.
Proof using K Hcfg Hd Hdr Hdm PV Hno.
  intros R Et Eh Hks Hval h Hh. destruct root_unused as [_ Hroots]. pose proof (sys_pt _ _ _ _ _ _ _ m K (proj1 Hks)) as K1.
  pose proof (proj2 (buddy_set_pt k m _ _ _) Hd) as Hd1. destruct (unmapped_fine (with_pt k m) S ed) as [V0 _]; [rewrite (bs_kva _ _ _ _ Hd1); apply donation_unmapped|].
  destruct (Hval h Hh) as (j & e & Be & Ve). destruct (ho_set _ _ _ (pv_hdrs _ _ _ _ _ _ _ _ _ _ _ _ _ _ _ _ _ _ _ PV) h Hh) as [Hne _].
  destruct (consumed_other cfg _ _ _ _ _ (with_pt k m) (d_header_kva d) jd ed k2 h j e K1 Hd1 V0 R Et Eh Hne (proj2 (buddy_set_pt k m _ _ _) Be)) as [Be2 VO].
  destruct (VO Ve (Hno j e (bs_entry _ _ _ _ Be))) as [Ve2 Oe2]. exists j, e. split; [done|]. split; [|done].
  intros p qr Hp x Hx Hm n y Hy. rewrite sview_other; [by apply (Ve2 p qr Hp x Hx Hm)|]. rewrite (rv_procs _ _ _ _ R), lookup_fmap in Hp.
  cbn [with_pt k_procs] in Hp. destruct (k_procs k !! p) as [qr0|] eqn:E; [|done]. injection Hp as <-. by apply (Hroots p qr0).
Qed.

Lemma stripped_spec k2 k3 a G2 oB2 G3 oB3 : revoked S ed (with_pt k m) k2 -> table (k_mem k2) = <[jd := None]> (table (k_mem k)) ->
  (forall x, x <> d_header_kva d -> read_header (k_mem k2) x = read_header (k_mem k) x) -> kept S k m -> k_pt k2 = m ->
  committed (rc_headers r) (<[root := a]> S) G2 oB2 k2 G3 oB3 k3 -> 
  k_threads k3 = k_threads k /\ k_tcb_process k3 = k_tcb_process k /\ k_next_token k3 = k_next_token k /\ k_procs k3 = strip_proc all_headers <$> k_procs k /\
  stripped all_headers S (<[root := a]> S) k k3.
Proof using K Hcfg Hd Hdr Hdm PV Hno.
  intros [(R1 & R2 & R3) R4 _ _] Et Eh [_ Hkv] Ept [(C1 & C2 & C3) C4 _ C6 _ C7 _ _ C9 C10]. destruct root_unused as [_ Hroots].
  cbn [with_pt k_procs k_threads k_tcb_process k_next_token] in *. rewrite (bs_kva _ _ _ _ Hd) in R4.
  pose proof (ho_set _ _ _ (pv_hdrs _ _ _ _ _ _ _ _ _ _ _ _ _ _ _ _ _ _ _ PV)) as Hset.
  assert (Hnot : forall j' e', table (k_mem k2) !! j' = Some (Some e') <-> table (k_mem k) !! j' = Some (Some e') /\ e_header_kva e' <> d_header_kva d).
  { intros j' e'. pose proof Hd as [He0 Hk0 _]. rewrite Et, list_lookup_insert_Some. split.
    - intros [(_ & ? & _)|[Hne He']]; [done|]. split; [done|]. intros E. apply Hne. rewrite <- Hk0 in E. symmetry in E.
      by apply (entry_unique cfg _ _ _ _ _ _ _ _ _ _ (ok_mem _ _ _ _ _ _ _ K) He0 He').
    - intros [He' Hne]. right. split; [|done]. intros ->. congruence. }
  assert (Hp2 : forall p qr, k_procs k !! p = Some qr -> k_procs k2 !! p = Some (revoke_proc (d_header_kva d) qr)) by (intros p qr Hp; by rewrite R4, lookup_fmap, Hp).
  assert (Hbs : forall h j e, h ∈ rc_headers r -> buddy_set k2 h j e <-> buddy_set k h j e).
  { intros h j e [Hne _]%Hset. split; intros [A1 A2 A3]; (constructor; [|done|done]); [by apply Hnot in A1 as [? _]|apply Hnot; by rewrite A2]. }
  rewrite C1, C2, C3, R1, R2, R3. do 3 (split; [done|]). split; [rewrite C4, R4, <- strip_procs; done|]. constructor.
  - intros j e. unfold all_headers. rewrite C6, Hnot, not_elem_of_cons. tauto.
  - intros x [Hx1 Hx2]%not_elem_of_cons. rewrite C7 by done. by apply Eh.
  - intros p qr u h j e Hp [->|Hh]%elem_of_cons B Hcov.
    + apply covered_true in Hcov as (x & Hx & Hm & _). rewrite (donation_unmapped p qr x Hp Hx) in Hm. done.
    + apply (C9 p _ u h j e (Hp2 p qr Hp) Hh); [by apply Hbs|]. cbn [revoke_proc p_table]. rewrite actions_revoked; [done|]. apply not_eq_sym. by apply Hset.
  - intros p qr u Hp Hcov. change (p_ttbr0 qr) with (p_ttbr0 (revoke_proc (d_header_kva d) qr)) at 1. rewrite (C10 p _ u (Hp2 p qr Hp)).
    + cbn [revoke_proc p_ttbr0]. rewrite Ept, sview_other by (by apply (Hroots p)). apply Hkv.
    + intros h j e Hh B. cbn [revoke_proc p_table]. rewrite actions_revoked by (apply not_eq_sym; by apply Hset). apply (Hcov h j e); [by right|by apply Hbs].
Qed.

(** The two commits together. *)
Lemma commit_all_spec : (forall h, h ∈ rc_headers r -> exists j e, buddy_set k h j e /\ validated (with_pt k m) S e) ->
  exists k2 k3 a G3 D3 oB3 oD3, into_consumed cfg (with_pt k m) d cl = Ret k2 /\ apply_headers cfg k2 (rc_headers r) = Ret k3 /\
    sys_ok cfg G3 D3 oB3 oD3 (<[root := a]> S) k3 /\
    (k_threads k3 = k_threads k /\ k_tcb_process k3 = k_tcb_process k /\ k_next_token k3 = k_next_token k /\ k_procs k3 = strip_proc all_headers <$> k_procs k /\
    stripped all_headers S (<[root := a]> S) k k3) /\
    (forall q, as_page root a q -> exists i idx, (4 <= i)%nat /\ oB jd !! i = Some idx /\ q = addr_of cfg idx) /\
    (forall idx, idx ∈ G3 <-> idx ∈ G \/ idx ∈ take (Z.to_nat (PROCESS_KERNEL_OBJ_PAGES + cl)) (oB jd) \/
       exists h j e, h ∈ rc_headers r /\ buddy_set k h j e /\ idx ∈ oB j) /\
    (exists user, Z.of_nat (length user) = count /\ (forall n mp, user !! n = Some mp -> from_user cfg oB k pr d mem (Z.of_nat n) mp) /\
       rec_ok cfg oB k (rc_headers r) (user ++ stack_maps cfg oB js (length (oB js))) r /\
       forall u, sview (k_pt k3) (<[root := a]> S) root u = view_of (user ++ stack_maps cfg oB js (length (oB js))) u).
Proof using All.
  intros Hval. destruct donation_spec as (k2 & a & D2 & oD2 & E2 & Ept & R & Et & Eh & Hks & K2 & Hpg & user & Hul & Huf & Hrec & Hv).
  pose proof (ho_set _ _ _ (pv_hdrs _ _ _ _ _ _ _ _ _ _ _ _ _ _ _ _ _ _ _ PV)) as Hset.
  destruct (apply_headers_spec cfg (<[root := a]> S) (rc_headers r) _ _ _ _ k2 K2 (ho_nodup _ _ _ (pv_hdrs _ _ _ _ _ _ _ _ _ _ _ _ _ _ _ _ _ _ _ PV))) as (k3 & G3 & D3 & oB3 & oD3 & E3 & K3 & C).
  { intros h Hh. by apply (headers_fine k2 a R Et Eh Hks Hval). }
  exists k2, k3, a, G3, D3, oB3, oD3. split; [done|]. split; [done|]. split; [done|].
  split; [by apply (stripped_spec k2 k3 a _ _ _ _ R Et Eh Hks Ept C)|]. split.
  { intros q (i & idx & Hi & H)%Hpg. exists i, idx. split; [lia|done]. }
  assert (Hbs : forall h j e, h ∈ rc_headers r -> (buddy_set k2 h j e <-> buddy_set k h j e) /\ (buddy_set k h j e -> j <> jd)).
  { intros h j e [Hne _]%Hset. pose proof Hd as [He0 Hk0 _].
    assert (Hj : buddy_set k h j e -> j <> jd) by (intros [A1 A2 _] ->; congruence). split; [|done]. split.
    - intros [A1 A2 A3]. constructor; [|done|done]. rewrite Et in A1. by apply list_lookup_insert_Some in A1 as [(_ & ? & _)|[_ ?]].
    - intros Bs. pose proof Bs as [A1 A2 A3]. constructor; [|done|done]. rewrite Et, list_lookup_insert_ne; [done|]. apply not_eq_sym. by apply Hj. }
  split.
  - intros idx. rewrite (cm_G _ _ _ _ _ _ _ _ C), elem_of_union, elem_of_list_to_set. split.
    + intros [[|]|(h & j & e & Hh & Be & Hx)]; [tauto|tauto|]. right. right. apply Hbs in Be; [|done]. exists h, j, e. split; [done|]. split; [done|].
      unfold set_own in Hx. case_decide; [by apply elem_of_nil in Hx|done].
    + intros [|[|(h & j & e & Hh & Be & Hx)]]; [tauto|tauto|]. right. exists h, j, e. destruct (Hbs h j e Hh) as [Hb1 Hb2]. split; [done|]. split; [by apply Hb1|].
      unfold set_own. rewrite decide_False by (by apply Hb2). done.
  - exists user. split; [done|]. split; [done|]. split; [done|]. intros u. destruct root_unused as [_ Hroots]. rewrite (cm_noroot _ _ _ _ _ _ _ _ C).
    + rewrite Ept. unfold sview. by rewrite lookup_insert_eq.
    + intros p qr Hp. rewrite (rv_procs _ _ _ _ R), lookup_fmap in Hp. cbn [with_pt k_procs] in Hp. destruct (k_procs k !! p) as [qr0|] eqn:E; [|done].
      injection Hp as <-. by apply (Hroots p qr0).
Qed.
End Committing.

(** * The new world *)
Section NewWorld.
Context (cfg : Config) (Hcfg : config_ok cfg) (Hdm : direct_map_ok cfg).

Lemma obj_kva_spec G D oB oD S k d jd ed i : sys_ok cfg G D oB oD S k -> buddy_set k (d_header_kva d) jd ed -> 0 <= i < e_count ed ->
  exists idx, oB jd !! Z.to_nat i = Some idx /\ obj_kva (k_mem k) d i = Ret (Some (kva_of cfg idx)).
Proof using Hcfg Hdm.
  intros K Hd Hi. destruct (obj_page_spec cfg Hcfg _ _ _ _ _ _ K d jd ed Hd i Hi) as (idx & Hx & _). exists idx. split; [done|].
  unfold obj_kva. rewrite (ps_page_buddy _ _ _ _ _ _ _ K _ _ _ _ Hd), bind_Ret, Hx by lia. cbn [fmap option_fmap option_map].
  destruct (set_page_range _ _ _ _ _ _ _ K _ _ _ Hx) as [Hr _]. pose proof (kva_of_range cfg Hcfg Hdm idx Hr) as R.
  unfold add_chk. fold (kva_of cfg idx). unfold KVM_POOL_BASE in R. rewrite (proj2 (Z.ltb_lt _ _)) by lia. by rewrite bind_Ret.
Qed.

(** The labels of a new process: its object, handle table, stack and TCB on the
    pages [x0] to [x3], and its data pages. *)
Definition new_own (own : Z -> option Owner) (x0 x1 x2 x3 : Z) (data : list Z) (idx : Z) : option Owner :=
  if decide (idx = x0) then Some (OProc (kva_of cfg x0)) else if decide (idx = x1) then Some (OHandles (kva_of cfg x0)) else
  if decide (idx = x2) then Some (OStack (kva_of cfg x3)) else if decide (idx = x3) then Some (OTcb (kva_of cfg x3)) else
  if bool_decide (addr_of cfg idx ∈ data) then Some (OData (kva_of cfg x0)) else own idx.

Section Start.
Context (own : Z -> option Owner) (G D : gset Z) (oB oD : nat -> list Z) (S : gmap Z AS) (w : World) (W : world_ok cfg own G D oB oD S w).
Context (root : Z) (a : AS) (hs : list Z) (k3 : Kernel) (G3 D3 : gset Z) (oB3 oD3 : nat -> list Z) (K3 : sys_ok cfg G3 D3 oB3 oD3 (<[root := a]> S) k3).
Context (Eth : k_threads k3 = k_threads (w_k w)) (Etp : k_tcb_process k3 = k_tcb_process (w_k w)) (Epr : k_procs k3 = strip_proc hs <$> k_procs (w_k w)).
Context (x0 x1 x2 x3 : Z) (data : list Z).
Context (Hnd : NoDup [x0; x1; x2; x3]) (Hsub : forall idx, idx ∈ G -> idx ∈ G3).
Context (Hnew : forall idx, idx ∈ [x0; x1; x2; x3] \/ addr_of cfg idx ∈ data -> idx ∉ G /\ idx ∈ G3).
Context (Hdis : forall idx, idx ∈ [x0; x1; x2; x3] -> addr_of cfg idx ∉ data).
Context (Hdata : NoDup data /\ forall q, q ∈ data -> exists idx, q = addr_of cfg idx).
Context (Hpg : forall idx, as_page root a (addr_of cfg idx) -> idx ∉ [x0; x1; x2; x3] /\ addr_of cfg idx ∉ data /\ idx ∉ G).
Context (Hroot : root <> 0) (Hfresh : S !! root = None).
Context (slots : list HandleEntry) (Hsl : Z.of_nat (length slots) <= HANDLE_SLOTS_PER_PAGE).
Context (Hps : forall i h kva mv, slots !! i = Some h -> h_kind h <> HPageSet kva mv) (tok : gmap Z Z).

Abbreviation own' := (new_own own x0 x1 x2 x3 data).

Lemma new_own_old idx : idx ∈ G -> own' idx = own idx.
Proof using All.
  intros Hi. unfold new_own. assert (Hn : forall y, y ∈ [x0; x1; x2; x3] -> idx <> y) by (intros y Hy ->; by destruct (Hnew y (or_introl Hy))).
  rewrite !decide_False by (apply Hn; rewrite !elem_of_cons; tauto). rewrite bool_decide_eq_false_2; [done|]. intros H. by destruct (Hnew idx (or_intror H)).
Qed.

Lemma new_own_labels : own' x0 = Some (OProc (kva_of cfg x0)) /\ own' x1 = Some (OHandles (kva_of cfg x0)) /\ own' x2 = Some (OStack (kva_of cfg x3)) /\
  own' x3 = Some (OTcb (kva_of cfg x3)) /\ forall idx, addr_of cfg idx ∈ data -> own' idx = Some (OData (kva_of cfg x0)).
Proof using All.
  rewrite !NoDup_cons, !not_elem_of_cons in Hnd. destruct Hnd as ((N1 & N2 & N3 & _) & (N4 & N5 & _) & (N6 & _) & _).
  unfold new_own. split; [by rewrite decide_True|].
  split; [by rewrite decide_False, decide_True by congruence|]. split; [by rewrite !decide_False, decide_True by congruence|].
  split; [by rewrite !decide_False, decide_True by congruence|]. intros idx Hi.
  assert (Hn : forall y, y ∈ [x0; x1; x2; x3] -> idx <> y) by (intros y Hy ->; by apply (Hdis y)).
  rewrite !decide_False by (apply Hn; rewrite !elem_of_cons; tauto). by rewrite bool_decide_eq_true_2.
Qed.

Lemma new_own_cases idx l : own' idx = Some l -> idx ∈ [x0; x1; x2; x3] \/ addr_of cfg idx ∈ data \/ own idx = Some l.
Proof using All.
  unfold new_own. rewrite !elem_of_cons. repeat (case_decide; [tauto|]). case_bool_decide; tauto.
Qed.

Lemma owned_old kva l : owned cfg own kva l -> owned cfg own' kva l.
Proof using All. intros (idx & -> & Hi). exists idx. split; [done|]. rewrite new_own_old; [done|]. by eapply wk_held. Qed.

Lemma new_names : k_procs (w_k w) !! kva_of cfg x0 = None /\ Some (kva_of cfg x3) ∉ k_threads (w_k w).
Proof using All.
  assert (Hn : forall y l, y ∈ [x0; x1; x2; x3] -> own y = Some l -> False).
  { intros y l Hy Hl. destruct (Hnew y (or_introl Hy)) as [Hg _]. apply Hg. by eapply wk_held. }
  split.
  - destruct (k_procs (w_k w) !! kva_of cfg x0) as [qr|] eqn:E; [|done]. exfalso. eapply (Hn x0); [by left|]. eapply wk_procs; [done|by exists qr|done].
  - intros Hin. eapply (Hn x3); [by do 3 right; left|]. eapply wk_tcbs; [done|done|done|]. apply kva_of_range; [done|done|].
    destruct (Hnew x3) as [_ Hx]; [left; by do 3 right; left|]. by apply (pt_G _ _ _ _ (iv_B _ _ _ _ _ _ _ (ok_mem _ _ _ _ _ _ _ K3))).
Qed.

Lemma start_spec st : has_room (w_k w) = true ->
  exists i, let k4 := mkKernel (k_mem k3) (k_pt k3) (<[kva_of cfg x0 := mkProc root slots]> (k_procs k3)) (<[i := Some (kva_of cfg x3)]> (k_threads k3))
      (<[kva_of cfg x3 := kva_of cfg x0]> (k_tcb_process k3)) tok in
    let w' := mkWorld k4 (<[kva_of cfg x0 := mkPObj (kva_of cfg x1) 1 false data]> (w_objs w)) (<[kva_of cfg x3 := DirectMap (kva_of cfg x2)]> (w_stacks w)) (w_pool w) (w_ipc w) (<[kva_of cfg x3 := st]> (w_starts w)) in
    k_threads (w_k w) !! i = Some None /\ k_procs (w_k w) !! kva_of cfg x0 = None /\ Some (kva_of cfg x3) ∉ k_threads (w_k w) /\
    start_process (set_k w (with_tokens k3 tok)) (kva_of cfg x0) (kva_of cfg x1) (kva_of cfg x2) (kva_of cfg x3) root slots data st = Ret w' /\
    sys_ok cfg G3 D3 oB3 oD3 (<[root := a]> S) k4.
Proof using All.
  intros Hroom. unfold has_room in Hroom. apply bool_decide_eq_true_1 in Hroom as [i Hi]. pose proof (free_slot_spec _ _ Hi) as Hs. exists i. cbn zeta.
  split; [done|]. destruct new_names as [N1 N2]. split; [done|]. split; [done|]. split.
  - unfold start_process. replace (on_thread_create 0) with (Ret 1 : outcome Z) by done. cbn [set_k w_k with_tokens k_threads k_procs]. rewrite bind_Ret. unfold sched_add_thread. cbn [k_threads]. rewrite Eth, Hi.
    cbn [assert]. rewrite bind_Ret. done.
  - apply (sys_start cfg _ _ _ _ _ (with_tokens k3 tok)); cbn [with_tokens k_procs k_threads].
    + eapply tokens_changed. done.
    + by rewrite Epr, lookup_fmap, N1.
    + destruct (kva_of_range cfg Hcfg Hdm x0); [|unfold KERNEL_VA_OFFSET in *; lia]. destruct (Hnew x0) as [_ Hx]; [left; by left|].
      by apply (pt_G _ _ _ _ (iv_B _ _ _ _ _ _ _ (ok_mem _ _ _ _ _ _ _ K3))).
    + by rewrite Eth.
    + by rewrite Eth.
    + rewrite lookup_insert_eq. by eexists.
    + intros q qr Hq E. rewrite Epr, lookup_fmap in Hq. destruct (k_procs (w_k w) !! q) as [qr0|] eqn:E0; [|done]. injection Hq as <-. cbn in E.
      destruct (ok_root _ _ _ _ _ _ _ (wk_sys _ _ _ _ _ _ _ _ W) q qr0 E0) as [|[y Hy]]; congruence.
    + done.
    + done.
Qed.

(** The ownership of the new world. *)
Lemma start_world i k4 w' st :
  k4 = mkKernel (k_mem k3) (k_pt k3) (<[kva_of cfg x0 := mkProc root slots]> (k_procs k3)) (<[i := Some (kva_of cfg x3)]> (k_threads k3))
      (<[kva_of cfg x3 := kva_of cfg x0]> (k_tcb_process k3)) tok ->
  w' = mkWorld k4 (<[kva_of cfg x0 := mkPObj (kva_of cfg x1) 1 false data]> (w_objs w)) (<[kva_of cfg x3 := DirectMap (kva_of cfg x2)]> (w_stacks w)) (w_pool w) (w_ipc w) (<[kva_of cfg x3 := st]> (w_starts w)) ->
  k_threads (w_k w) !! i = Some None -> sys_ok cfg G3 D3 oB3 oD3 (<[root := a]> S) k4 -> handles_sound k4 (w_ipc w) -> world_ok cfg own' G3 D3 oB3 oD3 (<[root := a]> S) w'.
Proof using All.
  intros -> -> Hi K4 Hsound. destruct new_names as [N1 N2]. destruct new_own_labels as (L0 & L1 & L2 & L3 & LD).
  pose proof (procs_of_add (k_tcb_process (w_k w)) (k_threads (w_k w)) i (kva_of cfg x3) (kva_of cfg x0) Hi N2) as Hperm.
  assert (Hcnt : forall q, q <> kva_of cfg x0 -> threads_of (mkKernel (k_mem k3) (k_pt k3) (<[kva_of cfg x0 := mkProc root slots]> (k_procs k3)) (<[i := Some (kva_of cfg x3)]> (k_threads k3))
      (<[kva_of cfg x3 := kva_of cfg x0]> (k_tcb_process k3)) tok) q = threads_of (w_k w) q).
  { intros q Hq. unfold threads_of. cbn [k_threads k_tcb_process]. rewrite Eth, Etp, (count_cons q _ _ _ Hperm), decide_False by congruence. lia. }
  rewrite Eth, Epr in K4, Hcnt, Hsound. constructor; cbn [w_k w_objs w_stacks k_procs k_threads k_tcb_process]; rewrite ?Eth, ?Epr.
  - exact K4.
  - intros idx l [H|[H|H]]%new_own_cases; [apply (Hnew idx); by left|apply (Hnew idx); by right|]. apply Hsub. by eapply wk_held.
  - intros r a' q idx [[<- <-]|[Hne Hr]]%lookup_insert_Some Hq ->.
    + destruct (Hpg idx Hq) as (P1 & P2 & P3). destruct (own' idx) as [l|] eqn:E; [|done]. destruct (new_own_cases idx l E) as [|[|H]]; [done|done|].
      destruct P3. by eapply wk_held.
    + destruct (table_page _ _ _ _ _ _ _ _ _ _ Hcfg (wk_sys _ _ _ _ _ _ _ _ W) Hr Hq) as (idx' & Hin & ->%addr_of_inj).
      rewrite new_own_old by done. by eapply wk_tables.
  - intros q qr [[<- <-]|[Hne Hq]]%lookup_insert_Some.
    + exists (mkPObj (kva_of cfg x1) 1 false data). rewrite lookup_insert_eq. split; [done|]. split.
      * unfold threads_of. cbn [k_threads k_tcb_process]. rewrite Etp, (count_cons _ _ _ _ Hperm), decide_True by done.
        fold (threads_of (w_k w) (kva_of cfg x0)). rewrite (threads_none _ _ _ _ _ _ _ _ (wk_sys _ _ _ _ _ _ _ _ W) N1); [done|].
        destruct (kva_of_range cfg Hcfg Hdm x0); [|unfold KERNEL_VA_OFFSET in *; lia]. destruct (Hnew x0) as [_ Hx]; [left; by left|].
        by apply (pt_G _ _ _ _ (iv_B _ _ _ _ _ _ _ (ok_mem _ _ _ _ _ _ _ K3))).
      * intros _. constructor; [done|by exists x0|by exists x1|]. split; [apply Hdata|]. intros q Hq. destruct (proj2 Hdata q Hq) as [idx ->].
        exists idx. split; [done|by apply LD].
    + rewrite lookup_fmap in Hq. destruct (k_procs (w_k w) !! q) as [qr0|] eqn:E; [|done]. injection Hq as <-.
      destruct (wk_objs _ _ _ _ _ _ _ _ W q qr0 E) as (o & Ho & Hc & Hm). exists o. rewrite lookup_insert_ne by done. split; [done|].
      split; [by rewrite Hcnt by done|]. intros Him. destruct (Hm Him) as [M1 M2 M3 [M4 M5]].
      constructor; [done|by apply owned_old|by apply owned_old|]. split; [done|]. intros y Hy. destruct (M5 y Hy) as (idx & -> & Hl).
      exists idx. split; [done|]. rewrite new_own_old; [done|]. by eapply wk_held.
  - intros q idx Hq ->. rewrite lookup_insert_is_Some' in Hq. destruct Hq as [->%kva_of_inj|Hq]; [done|].
    rewrite lookup_fmap, fmap_is_Some in Hq. pose proof (wk_procs _ _ _ _ _ _ _ _ W _ idx Hq eq_refl) as Hl. rewrite new_own_old; [done|]. by eapply wk_held.
  - intros t idx Ht -> Hlt. apply elem_of_filled in Ht as [->%kva_of_inj|Ht]; [done| |done].
    pose proof (wk_tcbs _ _ _ _ _ _ _ _ W _ idx Ht eq_refl Hlt) as Hl. rewrite new_own_old; [done|]. by eapply wk_held.
  - intros j j' t [(-> & E & _)|[Hj1 Hj2]]%list_lookup_insert_Some [(-> & E' & _)|[Hj1' Hj2']]%list_lookup_insert_Some; [done| | |by eapply wk_slots].
    + assert (t = kva_of cfg x3) as -> by congruence. destruct N2. by eapply list_elem_of_lookup_2.
    + assert (t = kva_of cfg x3) as -> by congruence. destruct N2. by eapply list_elem_of_lookup_2.
  - intros t Ht. apply elem_of_filled in Ht as [->|Ht]; [| |done].
    + exists (DirectMap (kva_of cfg x2)). rewrite lookup_insert_eq. split; [done|]. split; [|done]. intros s [= <-]. split; [by exists x3|by exists x2].
    + destruct (wk_stacks _ _ _ _ _ _ _ _ W t Ht) as (b & Hb & Hs & Hm). exists b. rewrite lookup_insert_ne by (by intros <-). split; [done|]. split; [|done].
      intros s Es. destruct (Hs s Es). split; by apply owned_old.
  - eapply pool_use_kept; [apply (wk_pool _ _ _ _ _ _ _ _ W)|done|done| |]; cbn [w_k w_stacks k_threads].
    + intros idx l Hl _. rewrite new_own_old; [done|]. by eapply wk_held.
    + intros t s. rewrite elem_of_filled by done. destruct (decide (t = kva_of cfg x3)) as [->|Hne].
      * rewrite lookup_insert_eq. split; [intros [_ ?]; done|intros [? _]; done].
      * rewrite lookup_insert_ne by done. tauto.
  - exact Hsound.
Qed.
End Start.
End NewWorld.

(** * create_process *)

(** A process that was made: where its object, handle table, kernel stack and
    TCB are, its root table and pages, the PageSets consumed (the donation
    first), the caller's mappings, the stack's PageSet and the thread slot. *)
Record NewProcess := mkNew {
  n_proc : Z; n_ht : Z; n_stack : Z; n_tcb : Z; n_root : Z; n_owned : list Z; n_donation : Z; n_headers : list Z;
  n_user : list Mapping; n_stack_set : nat; n_slot : nat
}.

Section Created.
Context (cfg : Config) (oB : nat -> list Z) (S : gmap Z AS) (w : World) (pr : Proc) (a : CreateArgs) (mem : Z -> Z -> ProcessMapping).

(** What the new space maps: the caller's list and the stack. *)
Definition new_maps (n : NewProcess) : list Mapping := n_user n ++ stack_maps cfg oB (n_stack_set n) (length (oB (n_stack_set n))).

Record created (n : NewProcess) (S' : gmap Z AS) (w' : World) : Prop := {
  cr_procs : exists pc, copy_of pr a pc /\ k_procs (w_k w') =
    <[n_proc n := mkProc (n_root n) (child_slots (w_k w) pc)]> (strip_proc (n_donation n :: n_headers n) <$> k_procs (w_k w));
  cr_fresh : k_procs (w_k w) !! n_proc n = None /\ Some (n_tcb n) ∉ k_threads (w_k w) /\ S !! n_root n = None;
  cr_objs : w_objs w' = <[n_proc n := mkPObj (n_ht n) 1 false (n_owned n)]> (w_objs w) /\
    w_stacks w' = <[n_tcb n := DirectMap (n_stack n)]> (w_stacks w) /\ w_pool w' = w_pool w;
  cr_start : w_starts w' = <[n_tcb n := start_at (n_stack n) (a_entry_point a)
    (USER_STACK_BASE + Z.of_nat (length (oB (n_stack_set n))) * PAGE_SIZE) USER_STACK_BASE 0]> (w_starts w);
  cr_ipc : w_ipc w' = w_ipc w;
  cr_thread : k_threads (w_k w) !! n_slot n = Some None /\ k_threads (w_k w') = <[n_slot n := Some (n_tcb n)]> (k_threads (w_k w)) /\
    k_tcb_process (w_k w') = <[n_tcb n := n_proc n]> (k_tcb_process (w_k w));
  cr_sets : donated pr a (n_donation n) /\ NoDup (n_donation n :: n_headers n) /\
    stripped (n_donation n :: n_headers n) S S' (w_k w) (w_k w');
  cr_stack : exists kva e, names pr (a_stack_pageset_id a) kva /\ buddy_set (w_k w) kva (n_stack_set n) e /\ kva ∈ n_headers n;
  cr_user : Z.of_nat (length (n_user n)) = a_mapping_count a /\
    forall i mp, n_user n !! i = Some mp -> from_user cfg oB (w_k w) pr (mkDonation (n_donation n) 0) mem (Z.of_nat i) mp;
  cr_view : forall u, sview (k_pt (w_k w')) S' (n_root n) u = view_of (new_maps n) u;
  cr_owned : NoDup (n_owned n) /\ (forall q, q ∈ n_owned n <-> exists mp, mp ∈ new_maps n /\ phys_addr mp = q) /\
    forall q, q ∈ n_owned n -> exists h j e i idx, h ∈ n_headers n /\ buddy_set (w_k w) h j e /\ oB j !! i = Some idx /\ q = addr_of cfg idx;
}.
End Created.

Section CreateSpec.
Context (cfg : Config) (Hcfg : config_ok cfg) (Hdm : direct_map_ok cfg).
Context (own : Z -> option Owner) (G D : gset Z) (oB oD : nat -> list Z) (S : gmap Z AS) (w : World) (W : world_ok cfg own G D oB oD S w).
Context (p : Z) (pr : Proc) (Hp : k_procs (w_k w) !! p = Some pr) (a : CreateArgs) (mem : Z -> Z -> ProcessMapping).
Context (Hno : forall j e, table (k_mem (w_k w)) !! j = Some (Some e) -> no_overlap (w_k w) e) (Htok : tokens_left (w_k w) 1).

(** The outcome: the world as it was, or the new process. *)
Definition creation (r : result unit CreateProcessError) (w' : World) : Prop :=
  match r with
  | Err _ => exists m, w' = set_k w (with_pt (w_k w) m) /\ kept S (w_k w) m
  | Ok _ => exists n own' G' D' oB' oD' S', world_ok cfg own' G' D' oB' oD' S' w' /\ created cfg oB S w pr a mem n S' w'
  end.

Lemma child_slots_spec k pc : copy_of pr a pc -> Z.of_nat (length (child_slots k pc)) <= HANDLE_SLOTS_PER_PAGE /\
  forall i h kva mv, child_slots k pc !! i = Some h -> h_kind h <> HPageSet kva mv.
Proof using.
  intros Hc. unfold child_slots. destruct (copied k pc) as [h0|] eqn:E.
  - split; [cbn [length]; rewrite length_replicate; done|]. intros [|i] h kva mv Hi.
    + injection Hi as <-. unfold copy_of in Hc. destruct (a_parent_handle_to_copy a =? U64_MAX); [by subst pc|].
      destruct Hc as (entry & _ & -> & _ & Hn). unfold copied in E. destruct (h_kind entry); injection E as <-; cbn; congruence.
    + change (replicate 126 EMPTY !! i = Some h) in Hi. apply lookup_replicate in Hi as [-> _]. done.
  - split; [by rewrite length_replicate|]. intros i h kva mv [-> _]%lookup_replicate. done.
Qed.

Lemma child_sound k4 q root hs pc : copy_of pr a pc -> k_procs k4 = <[q := mkProc root (child_slots (w_k w) pc)]> (strip_proc hs <$> k_procs (w_k w)) ->
  k_next_token k4 = copied_tokens (w_k w) pc -> handles_sound k4 (w_ipc w).
Proof using W Hp.
  intros Hc Ep Et. pose proof (wk_handles _ _ _ _ _ _ _ _ W) as H.
  assert (Hold : forall q' i kind, q' <> q -> at_slot k4 q' i kind -> no_object kind \/ at_slot (w_k w) q' i kind).
  { intros q' i kind Hne (qr & h & Hq & Hi & <-). rewrite Ep, lookup_insert_ne, lookup_fmap in Hq by done. destruct (k_procs (w_k w) !! q') as [qr0|] eqn:E; [|done].
    injection Hq as <-. cbn [strip_proc p_table] in Hi. rewrite list_lookup_fmap in Hi. destruct (p_table qr0 !! i) as [h0|] eqn:E0; [|done]. injection Hi as <-.
    destruct (strip_slot_cases hs h0) as [->| ->]; [by left; left|]. right. by exists qr0, h0. }
  assert (Hkind : exists kind, (forall i k', at_slot k4 q i k' -> i = 0%nat /\ k' = kind \/ no_object k') /\ (forall x, next_token_of (w_k w) x <= next_token_of k4 x) /\
    handle_ok k4 (w_ipc w) kind /\ forall kva t, kind = HEndpoint kva (Some t) -> next_token_of (w_k w) kva <= t).
  { assert (Hq : forall i k', at_slot k4 q i k' -> exists h, child_slots (w_k w) pc !! i = Some h /\ h_kind h = k').
    { intros i k' (qr & h & Hq & Hi & <-). rewrite Ep, lookup_insert_eq in Hq. injection Hq as <-. by exists h. }
    unfold copied_tokens in Et. unfold child_slots, copied in Hq. unfold copy_of in Hc. destruct (a_parent_handle_to_copy a =? U64_MAX).
    - subst pc. exists HEmpty. split; [|split; [unfold next_token_of; rewrite Et; lia|done]]. intros i k' (h & [-> _]%lookup_replicate & <-)%Hq. by right; left.
    - destruct Hc as (entry & [Hl _]%lookup_any_ok & -> & Hne & Hnp).
      assert (Hok : handle_ok (w_k w) (w_ipc w) (h_kind entry)) by (eapply (hs_ok _ _ H p); by exists pr, entry).
      assert (Htl : forall i (h0 h : HandleEntry), (h0 :: replicate 126 EMPTY) !! i = Some h -> i = 0%nat /\ h = h0 \/ no_object (h_kind h)).
      { intros [|i] h0 h Hi; [injection Hi as <-; by left|]. change (replicate 126 EMPTY !! i = Some h) in Hi. apply lookup_replicate in Hi as [-> _]. by right; left. }
      destruct (h_kind entry) as [| | |kva t| | | |kva mv] eqn:Ek; try done; try (by destruct (Hnp kva mv)).
      + exists (HEndpoint kva (Some (next_token_of (w_k w) kva))). assert (Hn : forall x, next_token_of k4 x = if decide (x = kva) then next_token_of (w_k w) kva + 1 else next_token_of (w_k w) x).
        { intros x. unfold next_token_of. rewrite Et. case_decide; [subst; by rewrite lookup_insert_eq|by rewrite lookup_insert_ne by done]. }
        split; [intros i k' (h & [[-> ->]|?]%Htl & <-)%Hq; [by left|by right]|]. split; [intros x; rewrite Hn; case_decide; subst; lia|].
        split; [|intros kva0 t0 [= <- <-]; lia]. destruct Hok as [Hok _]. split; [done|]. intros t0 [= <-]. rewrite Hn, decide_True by done. pose proof (hs_counts _ _ H kva). lia.
      + exists (HNotification kva). split; [intros i k' (h & [[-> ->]|?]%Htl & <-)%Hq; [by left|by right]|]. split; [unfold next_token_of; rewrite Et; lia|done].
      + exists (HReply kva). split; [intros i k' (h & [[-> ->]|?]%Htl & <-)%Hq; [by left|by right]|]. split; [unfold next_token_of; rewrite Et; lia|done]. }
  destruct Hkind as (kind & K1 & K2 & K3 & K4). apply (sound_put (w_k w) k4 (w_ipc w) (w_ipc w) q 0%nat kind); try done.
  intros q' i kind' Hs. destruct (decide (q' = q)) as [->|Hne]; [destruct (K1 _ _ Hs) as [[-> ->]|]; [by left|by right; left]|right; by apply Hold].
Qed.

Section Prepd.
Context (x : Prepared) (js jc jd : nat) (es ec ed : PageSetEntry) (pc : option (Z * HandleKind)) (X : prepared (w_k w) pr a x js jc jd es ec ed pc).
Context (Hmax : a_mapping_count a + MAX_PRACTICAL_PAGES_PER_SET < 2 ^ 64).
Context (root cl : Z) (r : Recorded) (slots : list HandleEntry) (m : gmap Z Z).
Context (PV : provisioned cfg oB S (w_k w) pr (pp_donation x) jd ed mem (pp_stack x) js es (a_mapping_count a) pc root cl r slots m).
Context (Hk : kept S (w_k w) m).
Context (x0 x1 x2 x3 : Z) (X0 : oB jd !! 0%nat = Some x0) (X1 : oB jd !! 1%nat = Some x1) (X2 : oB jd !! 2%nat = Some x2) (X3 : oB jd !! 3%nat = Some x3).


(** The pages the new process takes: none was the kernel's before. *)
Lemma new_pages maps sp (G3 : gset Z) : rec_ok cfg oB (w_k w) (rc_headers r) maps r ->
  (forall q, as_page root sp q -> exists i idx, (4 <= i)%nat /\ oB jd !! i = Some idx /\ q = addr_of cfg idx) ->
  (forall idx, idx ∈ G3 <-> idx ∈ G \/ idx ∈ take (Z.to_nat (PROCESS_KERNEL_OBJ_PAGES + cl)) (oB jd) \/
     exists h j e, h ∈ rc_headers r /\ buddy_set (w_k w) h j e /\ idx ∈ oB j) ->
  NoDup [x0; x1; x2; x3] /\ (forall idx, idx ∈ [x0; x1; x2; x3] \/ addr_of cfg idx ∈ rc_owned r -> idx ∉ G /\ idx ∈ G3) /\
  (forall idx, idx ∈ [x0; x1; x2; x3] -> addr_of cfg idx ∉ rc_owned r) /\ (forall q, q ∈ rc_owned r -> exists idx, q = addr_of cfg idx) /\
  (forall idx, as_page root sp (addr_of cfg idx) -> idx ∉ [x0; x1; x2; x3] /\ addr_of cfg idx ∉ rc_owned r /\ idx ∉ G).
Proof using All.
  intros [_ R2 R3] Pg HG3. pose proof (wk_sys _ _ _ _ _ _ _ _ W) as K. pose proof (iv_B _ _ _ _ _ _ _ (ok_mem _ _ _ _ _ _ _ K)) as P.
  assert (Hx : forall idx, idx ∈ [x0; x1; x2; x3] -> exists i, (i < 4)%nat /\ oB jd !! i = Some idx).
  { intros idx. rewrite !elem_of_cons, elem_of_nil. intros [->|[->|[->|[->|[]]]]]; [exists 0%nat|exists 1%nat|exists 2%nat|exists 3%nat]; (split; [lia|done]). }
  assert (Hdat : forall q, q ∈ rc_owned r -> exists h j e i idx, h ∈ rc_headers r /\ buddy_set (w_k w) h j e /\ oB j !! i = Some idx /\ q = addr_of cfg idx /\ j <> jd).
  { intros q (mp & Hmp & <-)%R2. destruct (R3 mp Hmp) as (h & j & e & i & idx & Hh & B & Hi & ->). exists h, j, e, i, idx. do 4 (split; [done|]).
    intros ->. destruct (ho_set _ _ _ (pv_hdrs _ _ _ _ _ _ _ _ _ _ _ _ _ _ _ _ _ _ _ PV) h Hh) as [Hne _]. destruct (pp_donated _ _ _ _ _ _ _ _ _ _ _ X) as [_ Bd].
    apply Hne. rewrite <- (bs_kva _ _ _ _ B), <- (bs_kva _ _ _ _ Bd). pose proof (bs_entry _ _ _ _ B) as A1. rewrite (bs_entry _ _ _ _ Bd) in A1. by injection A1 as ->. }
  assert (Hnd : forall i j y, oB jd !! i = Some y -> oB jd !! j = Some y -> i = j) by (intros i j y A B; by apply (pt_inj _ _ _ _ P jd i jd j y)).
  assert (Hna : forall i y, oB jd !! i = Some y -> addr_of cfg y ∉ rc_owned r).
  { intros i y Hy (h & j & e & i' & idx & _ & _ & Hi & ->%addr_of_inj & Hj)%Hdat. apply Hj. by destruct (pt_inj _ _ _ _ P _ _ _ _ _ Hi Hy). }
  split; [|split; [|split; [|split]]].
  - rewrite !NoDup_cons, !not_elem_of_cons. pose proof (NoDup_nil_2 : NoDup (@nil Z)).
    repeat split; try apply not_elem_of_nil; try done; intros ->; exfalso.
    + by pose proof (Hnd _ _ _ X0 X1).
    + by pose proof (Hnd _ _ _ X0 X2).
    + by pose proof (Hnd _ _ _ X0 X3).
    + by pose proof (Hnd _ _ _ X1 X2).
    + by pose proof (Hnd _ _ _ X1 X3).
    + by pose proof (Hnd _ _ _ X2 X3).
  - intros idx [(i & Hi & E)%Hx|(h & j & e & i & idx' & Hh & B & Hi & ->%addr_of_inj & _)%Hdat].
    + split; [by apply (set_page_range _ _ _ _ _ _ _ K jd i)|]. apply HG3. right. left. apply list_elem_of_lookup. exists i.
      rewrite lookup_take_lt; [done|]. destruct PV as [_ _ (b & ? & ? & B & Ecl & _) _ _ _]. pose proof (bu_claimed _ _ _ _ _ _ _ B).
      unfold PROCESS_KERNEL_OBJ_PAGES. lia.
    + split; [by apply (set_page_range _ _ _ _ _ _ _ K j i)|]. apply HG3. right. right. exists h, j, e. split; [done|]. split; [done|]. by eapply list_elem_of_lookup_2.
  - intros idx (i & _ & Hi)%Hx. by apply (Hna i).
  - intros q (h & j & e & i & idx & _ & _ & _ & -> & _)%Hdat. by exists idx.
  - intros idx Hq. destruct (Pg _ Hq) as (i & idx' & Hi & E & ->%addr_of_inj). split; [|split; [by apply (Hna i)|by apply (set_page_range _ _ _ _ _ _ _ K jd i)]].
    intros (i' & Hi' & E')%Hx. pose proof (Hnd _ _ _ E E'). lia.
Qed.

Definition new_start : ThreadStart :=
  start_at (kva_of cfg x2) (a_entry_point a) (USER_STACK_BASE + Z.of_nat (length (oB js)) * PAGE_SIZE) USER_STACK_BASE 0.

(** The commit. *)
Lemma apply_spec : (forall h, h ∈ rc_headers r -> exists j e, buddy_set (w_k w) h j e /\ validated (with_pt (w_k w) m) S e) ->
  exists w', (k ← into_consumed cfg (with_pt (w_k w) m) (pp_donation x) cl;
     k ← apply_headers cfg k (rc_headers r);
     y ← copy_parent k slots pc;
     w ← start_process (set_k w y.2) (kva_of cfg x0) (kva_of cfg x1) (kva_of cfg x2) (kva_of cfg x3) root y.1 (rc_owned r) new_start;
     Ret (Ok (E := CreateProcessError) tt, w)) = Ret (Ok tt, w') /\ creation (Ok tt) w'.
Proof using All.
  intros Hval. pose proof (wk_sys _ _ _ _ _ _ _ _ W) as K. destruct X as [Xr (Xs1 & Xs2 & Xs3) (_ & _ & Xc3) [Xd1 Xd2] [Xp1 Xp2] Xu [Xpl Xcp] [Xf1 Xf2]].
  destruct (commit_all_spec cfg Hcfg _ _ _ _ _ _ K pr _ _ _ Xd2 Xp1 Xp2 Xu _ _ _ _ _ _ _ _ _ _ _ PV Hno Hval)
    as (k2 & k3 & sp & G3 & D3 & oB3 & oD3 & E2 & E3 & K3 & (T1 & T2 & T3 & T4 & T5) & Pg & HG3 & user & U1 & U2 & U3 & U4).
  rewrite E2, bind_Ret, E3, bind_Ret. destruct (new_pages _ sp G3 U3 Pg HG3) as (N1 & N2 & N3 & N4 & N5).
  destruct (root_unused cfg Hcfg _ _ _ _ _ _ K pr _ _ _ Xd2 Xp2 _ _ _ _ _ _ _ _ _ _ _ PV) as [Hfr _].
  pose proof (copy_parent_spec k3 pc) as Ec. set (tok := copied_tokens k3 pc) in Ec. specialize (Ec ltac:(intros y; unfold next_token_of; rewrite T3; apply Htok)).
  rewrite (pv_slots _ _ _ _ _ _ _ _ _ _ _ _ _ _ _ _ _ _ _ PV), Ec, bind_Ret.
  2:{ intros rights kind ->. unfold copy_of in Xcp. destruct (_ =? _); [done|]. destruct Xcp as (entry & _ & [= -> ->] & H1 & H2). done. }
  cbn [fst snd].
  assert (Ecs : child_slots k3 pc = child_slots (w_k w) pc) by (unfold child_slots, copied, next_token_of; by rewrite T3). rewrite Ecs.
  destruct (child_slots_spec (w_k w) pc Xcp) as [L1 L2].
  destruct (start_spec cfg Hcfg Hdm own _ _ _ _ _ w W root sp _ k3 G3 D3 oB3 oD3 K3 T1 T2 T4 x0 x1 x2 x3 (rc_owned r) N1 ltac:(intros; apply HG3; by left) N2 N3
    (conj (ro_nodup _ _ _ _ _ _ U3) N4) N5 (proj2 (pv_root _ _ _ _ _ _ _ _ _ _ _ _ _ _ _ _ _ _ _ PV)) Hfr _ L1 L2 tok new_start Xr) as (i & Hi & F1 & F2 & Es & K4).
  rewrite Es, bind_Ret. eexists. split; [reflexivity|]. cbn [creation].
  exists (mkNew (kva_of cfg x0) (kva_of cfg x1) (kva_of cfg x2) (kva_of cfg x3) root (rc_owned r) (d_header_kva (pp_donation x)) (rc_headers r) user js i).
  eexists _, _, _, _, _, _. split.
  { eapply (start_world cfg Hcfg Hdm own _ _ _ _ _ w W root sp _ k3 G3 D3 oB3 oD3 K3 T1 T2 T4 x0 x1 x2 x3 (rc_owned r) N1 ltac:(intros; apply HG3; by left) N2 N3
    (conj (ro_nodup _ _ _ _ _ _ U3) N4) N5 (proj2 (pv_root _ _ _ _ _ _ _ _ _ _ _ _ _ _ _ _ _ _ _ PV)) Hfr _ L1 L2 tok i); [reflexivity|reflexivity|exact Hi|exact K4|].
    eapply child_sound; [exact Xcp|cbn [k_procs]; by rewrite T4|]. cbn [k_next_token]. unfold tok, copied_tokens, next_token_of. by rewrite T3. }
  pose proof (pv_hdrs _ _ _ _ _ _ _ _ _ _ _ _ _ _ _ _ _ _ _ PV) as [H1 H2].
  constructor; cbn [n_proc n_ht n_stack n_tcb n_root n_owned n_donation n_headers n_user n_stack_set n_slot w_k w_objs w_stacks w_pool w_ipc w_starts k_procs k_threads k_tcb_process]; try done.
  - exists pc. split; [done|]. by rewrite T4.
  - by rewrite T1, T2.
  - split; [done|]. split; [apply NoDup_cons; split; [intros Hin; by destruct (H2 _ Hin)|done]|]. destruct T5; by constructor.
  - exists (pp_stack x), es. split; [done|]. split; [done|]. apply (pv_stack _ _ _ _ _ _ _ _ _ _ _ _ _ _ _ _ _ _ _ PV).
  - destruct U3 as [V1 V2 V3]. split; [done|]. split; [done|]. intros q (mp & Hmp & <-)%V2. by apply V3.
Qed.

Lemma phase_5_spec : exists res w', phase_5 cfg w (with_pt (w_k w) m) (pp_donation x) (kva_of cfg x0) (kva_of cfg x1) (kva_of cfg x2) (kva_of cfg x3)
    (pp_scratch_count x) root cl r slots new_start = Ret (res, w') /\ creation res w'.
Proof using All.
  pose proof (wk_sys _ _ _ _ _ _ _ _ W) as K. destruct X as [Xr (Xs1 & Xs2 & Xs3) (_ & _ & Xc3) [Xd1 Xd2] [Xp1 Xp2] Xu [Xpl Xcp] [Xf1 Xf2]].
  assert (Herr : forall e : CreateProcessError, creation (Err e) (set_k w (with_pt (w_k w) m))) by (intros e; by exists m).
  unfold phase_5, plan_validate. rewrite (pv_plan _ _ _ _ _ _ _ _ _ _ _ _ _ _ _ _ _ _ _ PV). cbn [mapping_count stack_pages parent_copy].
  destruct (set_backed _ _ _ _ _ _ _ K _ _ (bs_entry _ _ _ _ Xs2)) as (_ & _ & _ & Cs). unfold MAX_PRACTICAL_PAGES_PER_SET in *.
  rewrite mappings_fit, bind_Ret by lia. rewrite (proj2 (Z.ltb_lt 0 _)) by done. rewrite Xc3, (proj2 (Z.leb_le _ _)) by done. cbn [andb negb].
  change (has_room (with_pt (w_k w) m)) with (has_room (w_k w)). rewrite Xr. cbn [negb].
  destruct (HANDLE_SLOTS_PER_PAGE <? _); rewrite bind_Ret; [eexists _, _; split; [reflexivity|apply Herr]|]. cbn [v_parent_copy].
  pose proof (sys_pt _ _ _ _ _ _ _ m K (proj1 Hk)) as K1.
  destruct (validate_headers_spec _ _ _ _ _ _ _ K1 (rc_headers r) 0) as (v & Ev & Hv).
  { intros h Hh. destruct (ho_set _ _ _ (pv_hdrs _ _ _ _ _ _ _ _ _ _ _ _ _ _ _ _ _ _ _ PV) h Hh) as (_ & j & e & B). exists j, e. by apply buddy_set_pt. }
  rewrite Ev, bind_Ret. destruct v as [e|]; [eexists _, _; split; [reflexivity|apply Herr]|]. specialize (Hv eq_refl).
  destruct apply_spec as (w' & -> & C).
  { intros h Hh. destruct (Hv h Hh) as (j & e & B & V). exists j, e. split; [by apply (buddy_set_pt _ m)|done]. }
  by exists (Ok tt), w'.
Qed.
End Prepd.

Context (Hargs : 0 <= a_mappings_ptr a < 2 ^ 64 /\ 0 <= a_mapping_count a /\ a_mapping_count a + MAX_PRACTICAL_PAGES_PER_SET < 2 ^ 64).
Context (Hmem : forall i x, 0 <= pm_page_index (mem i x)).
Context (Hapart : forall kva, donated pr a kva -> ~ names pr (a_stack_pageset_id a) kva /\ ~ names pr (a_scratch_pageset_id a) kva).

Lemma create_process_spec : exists r w', create_process cfg w p a mem = Ret (r, w') /\ creation r w'.
Proof using All.
  pose proof (wk_sys _ _ _ _ _ _ _ _ W) as K. destruct Hargs as (A1 & A2 & A3).
  assert (Hself : w = set_k w (with_pt (w_k w) (k_pt (w_k w)))) by (destruct w as [[] ? ? ?]; done).
  unfold create_process. rewrite Hp. cbn [unwrap]. rewrite bind_Ret.
  destruct (phase_1_spec cfg _ _ _ _ _ _ K p pr Hp a A2 A3) as (r1 & m1 & -> & H1). rewrite bind_Ret. destruct r1 as [x|e].
  2:{ exists (Err e), w. split; [done|]. exists (k_pt (w_k w)). split; [done|]. by eapply kept_now. }
  destruct H1 as (-> & js & jc & jd & es & ec & ed & pc & X).
  pose proof X as [Xr (Xs1 & Xs2 & Xs3) (Xc1 & Xc2 & Xc3) [Xd1 Xd2] [Xp1 Xp2] Xu [Xpl Xcp] [Xf1 Xf2]].
  assert (Hlen : 4 < e_count ed) by (unfold PROCESS_MIN_PAGES, PROCESS_KERNEL_OBJ_PAGES, WORKSPACE_MIN_PAGES, MAX_L3_TABLES in *; lia).
  destruct (obj_kva_spec cfg Hcfg Hdm _ _ _ _ _ _ _ _ _ 0 K Xd2 ltac:(lia)) as (x0 & X0 & ->). rewrite bind_Ret. cbn [unwrap]. rewrite bind_Ret.
  destruct (obj_kva_spec cfg Hcfg Hdm _ _ _ _ _ _ _ _ _ 1 K Xd2 ltac:(lia)) as (x1 & X1 & ->). rewrite bind_Ret. cbn [unwrap]. rewrite bind_Ret.
  destruct (obj_kva_spec cfg Hcfg Hdm _ _ _ _ _ _ _ _ _ 2 K Xd2 ltac:(lia)) as (x2 & X2 & ->). rewrite bind_Ret. cbn [unwrap]. rewrite bind_Ret.
  destruct (obj_kva_spec cfg Hcfg Hdm _ _ _ _ _ _ _ _ _ 3 K Xd2 ltac:(lia)) as (x3 & X3 & ->). rewrite bind_Ret. cbn [unwrap]. rewrite bind_Ret.
  destruct (set_pages _ _ _ _ _ _ _ K _ _ _ Xc2) as [_ Hlc]. destruct (set_backed _ _ _ _ _ _ _ K _ _ (bs_entry _ _ _ _ Xc2)) as (_ & _ & _ & Cc).
  destruct (lookup_lt_is_Some_2 (oB jc) 0) as [y Hy]; [lia|].
  rewrite (ps_page_buddy _ _ _ _ _ _ _ K _ _ _ 0 Xc2), bind_Ret by lia. change (Z.to_nat 0) with 0%nat. rewrite Hy. cbn [fmap option_fmap option_map unwrap]. rewrite bind_Ret.
  assert (Hsd : pp_stack x <> d_header_kva (pp_donation x)) by (intros E; destruct (Hapart _ Xd1) as [N _]; apply N; by rewrite <- E).
  destruct (phase_2_4_spec cfg Hcfg _ _ _ _ _ _ K p pr Hp _ _ _ Xd2 Xp1 Xp2 _ _ _ Xc2 mem Hmem _ _ _ Xs2 Hsd (a_mappings_ptr a) (a_mapping_count a) A1 Xf1 Xf2 pc)
    as (r2 & m2 & E2 & H2). rewrite Xs3, Xc3, Xpl, E2, bind_Ret. destruct r2 as [[[[root cl] r] slots]|e].
  - destruct (set_backed _ _ _ _ _ _ _ K _ _ (bs_entry _ _ _ _ Xs2)) as (_ & _ & _ & Cs). destruct (set_pages _ _ _ _ _ _ _ K _ _ _ Xs2) as [_ Hls].
    assert (Hx2 : 0 <= kva_of cfg x2 /\ kva_of cfg x2 + PAGE_SIZE < 2 ^ 64).
    { destruct (kva_of_range cfg Hcfg Hdm x2); [by apply (set_page_range _ _ _ _ _ _ _ K jd 2%nat)|]. unfold KERNEL_VA_OFFSET, KVM_POOL_BASE, PAGE_SIZE in *. lia. }
    unfold mul_chk, add_chk. do 2 (rewrite (proj2 (Z.ltb_lt _ _)), bind_Ret by (unfold MAX_PRACTICAL_PAGES_PER_SET, PAGE_SIZE, USER_STACK_BASE in *; lia)).
    rewrite tcb_start_spec, bind_Ret by apply Hx2. rewrite <- Hls.
    rewrite <- Xc3. apply (phase_5_spec x js jc jd es ec ed pc X A3 root cl r slots m2 H2); try done.
    destruct (pv_space _ _ _ _ _ _ _ _ _ _ _ _ _ _ _ _ _ _ _ H2) as (b & sp & _ & B & _). by apply (built_kept cfg Hcfg _ _ _ _ _ _ K _ _ _ Xd2 Xp2 m2 b sp).
  - eexists _, _. split; [reflexivity|]. by exists m2.
Qed.
End CreateSpec.
