(* ===== verification/ProcExit.v ===== *)
(** The exit of a thread (finish_exit): its stack and TCB go back to the frame
    allocator, and with the last thread of a process everything the process
    owned. *)
From Stdlib Require Import ZArith Lia.
From stdpp Require Import base option gmap numbers sets fin_sets list.
From S2P Require Import Ipc IpcState KSched DmaSync Prelude Frames Buddy BuddyInv Pools FrameAlloc PageSet Ownership KPageSet HeaderFrame PageTable Vmem Kvm KvmPool Handles Revoke SysPages SysSafe AddrSpace Process ProcSpec ProcSafe.
Open Scope Z_scope.

(** * Dropping the handles of a process *)
Section Handles.
Context (cfg : Config) (Hcfg : config_ok cfg).

(** The part of [sys_ok] about PageSets and the handles to them. *)
Record acct (G D : gset Z) (oB oD : nat -> list Z) (ps : gmap Z Proc) (s : KMem) : Prop := {
  ac_inv : inv cfg G D None oB oD s;
  ac_handle : forall p pr i h kva mv, ps !! p = Some pr -> p_table pr !! i = Some h -> h_kind h = HPageSet kva mv ->
    exists j e, table s !! j = Some (Some e) /\ e_header_kva e = kva /\ 0 <= mv /\ (mv <> 0 -> p_ttbr0 pr <> 0 /\ mv + e_count e <= 2 ^ 18);
  ac_counts : forall j e, table s !! j = Some (Some e) ->
    h_refcount (read_header s (e_header_kva e)) = sum_procs (nrefs (e_header_kva e)) ps /\
    h_map_count (read_header s (e_header_kva e)) = sum_procs (nmaps (e_header_kva e)) ps;
}.

(** From [s] to [s'] the handles of [ps] became those of [ps']: PageSets that
    lost their last handle are gone, all others are as they were. *)
Record dropped (oB : nat -> list Z) (ps : gmap Z Proc) (s : KMem) (oB' : nat -> list Z) (ps' : gmap Z Proc) (s' : KMem) : Prop := {
  dr_table : forall j e, table s' !! j = Some (Some e) <->
    table s !! j = Some (Some e) /\ (sum_procs (nrefs (e_header_kva e)) ps = sum_procs (nrefs (e_header_kva e)) ps' \/ 0 < sum_procs (nrefs (e_header_kva e)) ps');
  dr_own : forall j e, table s' !! j = Some (Some e) -> oB' j = oB j;
  dr_mono : forall x, 0 <= sum_procs (nrefs x) ps' <= sum_procs (nrefs x) ps;
}.

Lemma sum_refs_nonneg x ps : 0 <= sum_procs (nrefs x) ps.
Proof using. apply sum_procs_nonneg. intros. apply nrefs_nonneg. Qed.

Lemma dropped_refl oB ps s : dropped oB ps s oB ps s.
Proof using.
  constructor; [|done|].
  - intros j e. split; [|tauto]. intros H. split; [done|by left].
  - intros x. pose proof (sum_refs_nonneg x ps). lia.
Qed.

Lemma dropped_trans oB ps s oB1 ps1 s1 oB2 ps2 s2 : dropped oB ps s oB1 ps1 s1 -> dropped oB1 ps1 s1 oB2 ps2 s2 -> dropped oB ps s oB2 ps2 s2.
Proof using.
  intros [A1 A2 A3] [B1 B2 B3]. constructor.
  - intros j e. rewrite B1, A1. pose proof (A3 (e_header_kva e)). pose proof (B3 (e_header_kva e)). split.
    + intros [[H1 H2] H3]. split; [done|lia].
    + intros [H1 H2]. split; [split; [done|lia]|lia].
  - intros j e H. rewrite (B2 j e H). apply B1 in H as [H _]. by apply (A2 j e).
  - intros x. pose proof (A3 x). pose proof (B3 x). lia.
Qed.

(** A PageSet without handles goes back to the pools. *)
Lemma acct_free G D oB oD ps s j e : acct G D oB oD ps s -> table s !! j = Some (Some e) -> sum_procs (nrefs (e_header_kva e)) ps = 0 ->
  exists s', free_by_header_kva cfg s (e_header_kva e) = Ret s' /\ acct G D (set_own oB j []) (set_own oD j []) ps s' /\
    table s' = <[j := None]> (table s).
Proof using Hcfg.
  intros [I Hh Hc] He Hz. destruct (iv_entry _ _ _ _ _ _ _ I j e He) as [Ek _].
  destruct (free_by_header_kva_spec cfg Hcfg _ _ _ _ _ _ _ I He) as (s' & E & [I' Ht _ _]). rewrite <- Ek in E. exists s'. split; [done|].
  pose proof (free_headers _ _ _ _ E) as Ehd. split; [|done]. constructor.
  - done.
  - intros p pr i h kva mv Hp Hi Hk. destruct (Hh p pr i h kva mv Hp Hi Hk) as (j' & e' & Hj & E' & H). exists j', e'. split; [|done].
    rewrite Ht, list_lookup_insert_ne; [done|]. intros <-. rewrite He in Hj. injection Hj as <-. rewrite sum_refs_zero in Hz.
    apply (Hz p pr i h mv Hp Hi). by rewrite E'.
  - intros j' e' Hj. rewrite Ht in Hj. apply list_lookup_insert_Some in Hj as [(_ & ? & _)|[_ Hj]]; [done|].
    unfold read_header. rewrite Ehd. by apply (Hc j').
Qed.

(** One slot is emptied and the counters of the PageSet it named adjusted. *)
Lemma acct_slot G D oB oD ps s p pr i h kva mv h' : acct G D oB oD ps s -> ps !! p = Some pr -> p_table pr !! i = Some h -> h_kind h = HPageSet kva mv ->
  let hd := read_header s kva in
  h_pages h' = h_pages hd -> h_origin_raw h' = h_origin_raw hd -> h_refcount h' = h_refcount hd - 1 ->
  h_map_count h' = h_map_count hd - (if decide (mv = 0) then 0 else 1) ->
  acct G D oB oD (<[p := mkProc (p_ttbr0 pr) (<[i := EMPTY]> (p_table pr))]> ps) (with_header s kva h').
Proof using.
  intros [I Hh Hc] Hp Hi Hk hd Hpg Ho Hr Hm. assert (HO : hdr_only kva s (with_header s kva h')) by (by apply hdr_only_with). constructor.
  - by eapply hdr_only_inv.
  - rewrite (ho_table _ _ _ HO). intros q qr i' h0 kva' mv' [[<- <-]|[_ Hq]]%lookup_insert_Some Hi' Hk'; [|by eapply Hh].
    cbn [p_table p_ttbr0] in *. apply list_lookup_insert_Some in Hi' as [(_ & <- & _)|[_ Hi']]; [done|by eapply Hh].
  - rewrite (ho_table _ _ _ HO). intros j e Hj. destruct (Hc j e Hj) as [Cr Cm]. rewrite !(sum_procs_insert _ _ _ _ _ Hp). cbn [p_table].
    unfold nrefs, nmaps. rewrite !(tally_insert _ _ _ _ _ Hi). fold (nrefs (e_header_kva e)) (nmaps (e_header_kva e)).
    destruct (ref_w_pageset (e_header_kva e) h kva mv Hk) as [-> ->]. destruct (ref_w_other (e_header_kva e) EMPTY) as [-> ->]; [done|].
    destruct (decide (e_header_kva e = kva)) as [E|Hne].
    + rewrite E in *. rewrite read_header_with, decide_True by done. fold hd in Cr, Cm. rewrite Hr, Hm. repeat case_decide; try tauto; lia.
    + rewrite (ho_other _ _ _ HO) by done. rewrite (decide_False (P := _ /\ _)) by tauto. lia.
Qed.

Lemma acct_other G D oB oD ps s p pr i h : acct G D oB oD ps s -> ps !! p = Some pr -> p_table pr !! i = Some h -> (forall kva mv, h_kind h <> HPageSet kva mv) ->
  let ps' := <[p := mkProc (p_ttbr0 pr) (<[i := EMPTY]> (p_table pr))]> ps in
  acct G D oB oD ps' s /\ forall x, sum_procs (nrefs x) ps' = sum_procs (nrefs x) ps.
Proof using.
  intros [I Hh Hc] Hp Hi Hk ps'.
  assert (Hw : forall x, sum_procs (nrefs x) ps' = sum_procs (nrefs x) ps /\ sum_procs (nmaps x) ps' = sum_procs (nmaps x) ps).
  { intros x. unfold ps'. rewrite !(sum_procs_insert _ _ _ _ _ Hp). cbn [p_table]. unfold nrefs, nmaps. rewrite !(tally_insert _ _ _ _ _ Hi).
    destruct (ref_w_other x h Hk) as [-> ->]. destruct (ref_w_other x EMPTY) as [-> ->]; [done|]. lia. }
  split; [|intros x; apply Hw]. constructor; [done| |].
  - intros q qr i' h0 kva' mv' [[<- <-]|[_ Hq]]%lookup_insert_Some Hi' Hk'; [|by eapply Hh].
    cbn [p_table p_ttbr0] in *. apply list_lookup_insert_Some in Hi' as [(_ & <- & _)|[_ Hi']]; [done|by eapply Hh].
  - intros j e Hj. destruct (Hw (e_header_kva e)) as [-> ->]. by apply (Hc j).
Qed.

Lemma slot_sums ps p pr i h kva mv x : ps !! p = Some pr -> p_table pr !! i = Some h -> h_kind h = HPageSet kva mv ->
  sum_procs (nrefs x) (<[p := mkProc (p_ttbr0 pr) (<[i := EMPTY]> (p_table pr))]> ps) = sum_procs (nrefs x) ps - (if decide (x = kva) then 1 else 0).
Proof using.
  intros Hp Hi Hk. rewrite !(sum_procs_insert _ _ _ _ _ Hp). cbn [p_table]. unfold nrefs. rewrite !(tally_insert _ _ _ _ _ Hi).
  destruct (ref_w_pageset x h kva mv Hk) as [-> _]. destruct (ref_w_other x EMPTY) as [-> _]; [done|]. lia.
Qed.

(** Both ways of dropping a reference, as one. *)
Lemma drop_code s kva mv : let hd := read_header s kva in
  let h1 := mkHeader (h_count hd) (h_header_pages hd) (h_refcount hd - 1) (h_map_count hd - (if decide (mv = 0) then 0 else 1)) (h_origin_raw hd) (h_pages hd) in
  1 <= h_refcount hd -> (mv <> 0 -> 1 <= h_map_count hd) ->
  (if negb (mv =? 0) then dec_both_and_maybe_free cfg s kva else dec_refcount_and_maybe_free cfg s kva) =
  if (h_refcount h1 =? 0) && (h_map_count h1 =? 0) then free_by_header_kva cfg (with_header s kva h1) kva else Ret (with_header s kva h1).
Proof using.
  intros hd h1 Hr Hm. unfold dec_both_and_maybe_free, dec_refcount_and_maybe_free. destruct (Z.eqb_spec mv 0) as [->|Hne]; cbn [negb].
  - fold hd. rewrite dec_ref_flag, bind_Ret by done. cbn [fst snd]. unfold h1. cbn [h_refcount h_map_count]. rewrite decide_True, Z.sub_0_r by done. done.
  - fold hd. destruct (dec_map_spec hd) as [b ->]; [specialize (Hm Hne); lia|]. rewrite bind_Ret. cbn [snd].
    rewrite read_header_with, decide_True by done. rewrite dec_ref_flag, bind_Ret by done. cbn [fst snd h_refcount h_map_count].
    unfold h1. cbn [h_refcount h_map_count]. rewrite decide_False by done. unfold with_header. cbn. by rewrite insert_insert_eq.
Qed.

(** The handle in slot [i] is cleaned up. *)
Lemma cleanup_spec G D oB oD ps s p pr i h : acct G D oB oD ps s -> ps !! p = Some pr -> p_table pr !! i = Some h ->
  let ps' := <[p := mkProc (p_ttbr0 pr) (<[i := EMPTY]> (p_table pr))]> ps in
  exists s' oB' oD', cleanup_ptes_gone cfg h s = Ret s' /\ acct G D oB' oD' ps' s' /\ dropped oB ps s oB' ps' s'.
Proof using Hcfg.
  intros A Hp Hi ps'. unfold cleanup_ptes_gone, decide_close_handle.
  destruct (pageset_kind (h_kind h)) as [(kva & mv & Hk)|Hk].
  2:{ destruct (acct_other _ _ _ _ _ _ _ _ _ _ A Hp Hi Hk) as [A' Hs]. exists s, oB, oD. split; [destruct (h_kind h); try done; by destruct (Hk kva mapped_va_page)|].
      split; [done|]. constructor; [|done|].
      - intros j e. rewrite Hs. split; [|tauto]. intros H. split; [done|by left].
      - intros x. rewrite Hs. pose proof (sum_refs_nonneg x ps). lia. }
  rewrite Hk. destruct (ac_handle _ _ _ _ _ _ A p pr i h kva mv Hp Hi Hk) as (j & e & Hj & <- & Hmv & _).
  set (hd := read_header s (e_header_kva e)).
  set (h1 := mkHeader (h_count hd) (h_header_pages hd) (h_refcount hd - 1) (h_map_count hd - (if decide (mv = 0) then 0 else 1)) (h_origin_raw hd) (h_pages hd)).
  set (s1 := with_header s (e_header_kva e) h1).
  assert (A1 : acct G D oB oD ps' s1) by (by eapply acct_slot).
  destruct (ac_counts _ _ _ _ _ _ A j e Hj) as [Cr Cm]. destruct (ac_counts _ _ _ _ _ _ A1 j e Hj) as [Cr1 Cm1]. fold hd in Cr, Cm.
  assert (Hrd : read_header s1 (e_header_kva e) = h1) by (unfold s1; by rewrite read_header_with, decide_True). rewrite Hrd in Cr1, Cm1.
  assert (Hsum : forall x, sum_procs (nrefs x) ps' = sum_procs (nrefs x) ps - (if decide (x = e_header_kva e) then 1 else 0)) by (intros x; by eapply slot_sums).
  assert (Hmono : forall x, 0 <= sum_procs (nrefs x) ps' <= sum_procs (nrefs x) ps).
  { intros x. pose proof (sum_refs_nonneg x ps') as H0. rewrite Hsum in *. case_decide; lia. }
  assert (Hr1 : 1 <= h_refcount hd) by (specialize (Hmono (e_header_kva e)); rewrite Hsum, decide_True in Hmono by done; lia).
  assert (Hm1 : mv <> 0 -> 1 <= h_map_count hd).
  { intros Hne. pose proof (sum_procs_nonneg (nmaps (e_header_kva e)) ps' ltac:(intros; apply nmaps_le_nrefs)) as H0. rewrite <- Cm1 in H0.
    unfold h1 in H0. cbn [h_map_count] in H0. rewrite decide_False in H0 by done. lia. }
  pose proof (drop_code s (e_header_kva e) mv Hr1 Hm1) as Ecode. fold hd h1 s1 in Ecode.
  assert (Hkey : (h_refcount h1 =? 0) && (h_map_count h1 =? 0) = (sum_procs (nrefs (e_header_kva e)) ps' =? 0)).
  { rewrite Cr1, Cm1. destruct (Z.eqb_spec (sum_procs (nrefs (e_header_kva e)) ps') 0) as [Hz|]; [|done]. by rewrite sum_maps_zero. }
  rewrite Hkey in Ecode. destruct (Z.eqb_spec (sum_procs (nrefs (e_header_kva e)) ps') 0) as [Hz|Hz].
  - destruct (acct_free _ _ _ _ _ _ j e A1 Hj Hz) as (s2 & E2 & A2 & T2). rewrite E2 in Ecode. exists s2, (set_own oB j []), (set_own oD j []).
    split; [by destruct (negb (mv =? 0))|]. split; [done|].
    assert (Hj' : forall j' e', table s2 !! j' = Some (Some e') <-> j' <> j /\ table s !! j' = Some (Some e')).
    { intros j' e'. rewrite T2, list_lookup_insert_Some. change (table s1) with (table s). split; [intros [(_ & ? & _)|[? ?]]; done|]. intros [? ?]. right. done. }
    assert (Huniq : forall j' e', table s !! j' = Some (Some e') -> e_header_kva e' = e_header_kva e -> j' = j)
      by (intros j' e' H1 H2; by apply (entry_unique cfg _ _ _ _ _ _ _ _ _ _ (ac_inv _ _ _ _ _ _ A) H1 Hj)).
    constructor; [| |done].
    + intros j' e'. rewrite Hj', Hsum. split.
      * intros [Hne Ht]. split; [done|]. left. rewrite decide_False; [lia|]. intros E. apply Hne. by apply (Huniq j' e').
      * intros [Ht Hc]. split; [|done]. intros ->. rewrite Hj in Ht. injection Ht as <-. rewrite decide_True in Hc by done. rewrite Hsum, decide_True in Hz by done. lia.
    + intros j' e' [Hne _]%Hj'. unfold set_own. by rewrite decide_False.
  - exists s1, oB, oD. split; [by destruct (negb (mv =? 0))|]. split; [done|]. constructor; [|done|done].
    intros j' e'. change (table s1) with (table s). split; [|tauto]. intros Ht. split; [done|]. destruct (decide (e_header_kva e' = e_header_kva e)) as [->|Hne].
    + right. specialize (Hmono (e_header_kva e)). lia.
    + left. rewrite Hsum, decide_False by done. lia.
Qed.

Lemma cleanup_all G D p rt rest : forall done ps s oB oD, ps !! p = Some (mkProc rt (done ++ rest)) -> acct G D oB oD ps s ->
  exists s' oB' oD', for_each_entry (cleanup_ptes_gone cfg) rest s = Ret s' /\
    acct G D oB' oD' (<[p := mkProc rt (done ++ replicate (length rest) EMPTY)]> ps) s' /\
    dropped oB ps s oB' (<[p := mkProc rt (done ++ replicate (length rest) EMPTY)]> ps) s'.
Proof using Hcfg.
  induction rest as [|e rest IH]; intros dn ps s oB oD Hp A; cbn [for_each_entry length replicate].
  { exists s, oB, oD. rewrite insert_id by done. split; [done|]. split; [done|apply dropped_refl]. }
  assert (Hi : (dn ++ e :: rest) !! length dn = Some e) by (by apply list_lookup_middle).
  assert (Hins : <[length dn := EMPTY]> (dn ++ e :: rest) = (dn ++ [EMPTY]) ++ rest).
  { rewrite <- app_assoc. rewrite insert_app_r_alt, Nat.sub_diag by lia. done. }
  assert (Hstep : exists s1 oB1 oD1, (if is_empty e then Ret s else cleanup_ptes_gone cfg e s) = Ret s1 /\
    acct G D oB1 oD1 (<[p := mkProc rt ((dn ++ [EMPTY]) ++ rest)]> ps) s1 /\ dropped oB ps s oB1 (<[p := mkProc rt ((dn ++ [EMPTY]) ++ rest)]> ps) s1).
  { destruct (cleanup_spec _ _ _ _ _ _ _ _ _ _ A Hp Hi) as (s1 & oB1 & oD1 & E1 & A1 & D1). cbn [p_ttbr0 p_table] in A1, D1. rewrite Hins in A1, D1.
    exists s1, oB1, oD1. split; [|done]. destruct (is_empty e) eqn:Ee; [|done]. rewrite <- E1. unfold is_empty in Ee. unfold cleanup_ptes_gone, decide_close_handle.
    by destruct (h_kind e). }
  destruct Hstep as (s1 & oB1 & oD1 & -> & A1 & D1). rewrite bind_Ret.
  destruct (IH (dn ++ [EMPTY]) _ s1 oB1 oD1 (lookup_insert_eq _ _ _) A1) as (s2 & oB2 & oD2 & E2 & A2 & D2).
  assert (Eapp : (dn ++ [EMPTY]) ++ replicate (length rest) EMPTY = dn ++ EMPTY :: replicate (length rest) EMPTY) by (by rewrite <- app_assoc).
  rewrite insert_insert_eq, Eapp in A2, D2. exists s2, oB2, oD2. split; [done|]. split; [done|]. by eapply dropped_trans.
Qed.

Lemma acct_frames G D oB oD ps s G' s' : acct G D oB oD ps s -> inv cfg G' D None oB oD s' -> frames_only s s' -> acct G' D oB oD ps s'.
Proof using.
  intros [I Hh Hc] I' F. pose proof F as (_ & _ & F3 & F4). constructor; [done|by rewrite F4|]. rewrite F4. unfold read_header. by rewrite F3.
Qed.

Lemma sys_acct G D oB oD S k : sys_ok cfg G D oB oD S k -> acct G D oB oD (k_procs k) (k_mem k).
Proof using. intros []. by constructor. Qed.
End Handles.

(** * Giving pages back *)
Section Frees.
Context (cfg : Config) (Hcfg : config_ok cfg).

Lemma dealloc_kva_spec G D oB oD s idx : inv cfg G D None oB oD s -> idx ∈ G ->
  exists s', dealloc_kva cfg (kva_of cfg idx) s = Ret s' /\ inv cfg (G ∖ {[idx]}) D None oB oD s' /\ frames_only s s'.
Proof using Hcfg.
  intros I Hi. destruct (pt_G _ _ _ _ (iv_B _ _ _ _ _ _ _ I) idx Hi) as [Hr _]. destruct (frame_of_eq cfg idx Hcfg Hr) as [E R]. unfold PAGE_SIZE in E.
  unfold dealloc_kva, sub_chk, kva_of. rewrite (proj2 (Z.leb_le _ _)), bind_Ret by lia. rewrite Z.add_simpl_r. by apply dealloc_idx.
Qed.

Lemma free_owned_spec G D oB oD s L : inv cfg G D None oB oD s -> NoDup L -> (forall x, x ∈ L -> x ∈ G) ->
  exists s', free_owned_pages cfg (addr_of cfg <$> L) (Z.of_nat (length L)) s = Ret s' /\ inv cfg (G ∖ list_to_set L) D None oB oD s' /\ frames_only s s'.
Proof using Hcfg.
  intros I ND HL. unfold free_owned_pages. rewrite Nat2Z.id.
  match goal with |- context [for_range 0 _ ?f s] =>
    destruct (for_range_inv (fun i st => inv cfg (G ∖ list_to_set (take (Z.to_nat i) L)) D None oB oD st /\ frames_only s st) f (length L) 0 s) as (s' & -> & I' & F) end.
  - split; [|done]. change (take (Z.to_nat 0) L) with (@nil Z). by rewrite list_to_set_nil, difference_empty_L.
  - intros i st Hi [Ist Fst]. destruct (lookup_lt_is_Some_2 L (Z.to_nat i)) as [x Hx]; [lia|]. rewrite list_lookup_fmap, Hx. cbn [fmap option_fmap option_map].
    destruct (dealloc_idx cfg Hcfg _ _ _ _ st x Ist) as (s2 & -> & I2 & F2).
    { apply elem_of_difference. split; [apply HL; by eapply list_elem_of_lookup_2|]. rewrite elem_of_list_to_set. intros (j & Hj)%list_elem_of_lookup.
      apply lookup_take_Some in Hj as [Hj Hlt]. pose proof (NoDup_lookup _ _ _ _ ND Hj Hx). lia. }
    exists s2. split; [done|]. split; [|by eapply frames_trans]. replace (Z.to_nat (i + 1)) with (Datatypes.S (Z.to_nat i)) by lia.
    rewrite (take_S_r _ _ x Hx), list_to_set_app_L. cbn [list_to_set]. rewrite union_empty_r_L.
    by rewrite <- difference_difference_l_L.
  - exists s'. rewrite Z.add_0_l, Nat2Z.id, firstn_all in I'. done.
Qed.

(** Freeing an address space frees the pages of its tables. *)
Lemma free_space_spec G D oB oD s m r a : inv cfg G D None oB oD s -> as_ok m r a -> (forall q, as_page r a q -> exists idx, idx ∈ G /\ q = addr_of cfg idx) ->
  exists s' G', @free_address_space KMem (kframes cfg) m r s = Ret s' /\ inv cfg G' D None oB oD s' /\ frames_only s s' /\
    forall idx, idx ∈ G' <-> idx ∈ G /\ ~ as_page r a (addr_of cfg idx).
Proof using Hcfg.
  intros I Ha Hp.
  assert (Hrng : forall H s0 x, inv cfg H D None oB oD s0 -> x ∈ H -> 0 <= x < total_pages (plat cfg)) by (intros H s0 x I0 Hx; by apply (pt_G _ _ _ _ (iv_B _ _ _ _ _ _ _ I0))).
  assert (Hfr : forall idx, 0 <= idx < total_pages (plat cfg) -> frame_of cfg idx ∈ as_frames r a <-> as_page r a (addr_of cfg idx)).
  { intros idx Hi. destruct (addr_of_page cfg Hcfg idx Hi) as [Hpa Hf]. rewrite (elem_of_as_frames m) by done. split.
    - intros (q & Hq & E). destruct (Hp q Hq) as (idx' & Hin & ->). destruct (addr_of_page cfg Hcfg idx' (Hrng _ _ _ I Hin)) as [_ Hf']. rewrite Hf' in E.
      apply frame_of_inj in E as ->; [done|done|done|by eapply Hrng].
    - intros Hq. by exists (addr_of cfg idx). }
  destruct (@free_address_space_spec KMem (kframes cfg) (kheld cfg D oB oD s) (kheld_laws cfg D oB oD s Hcfg) m r a (set_map (frame_of cfg) G) s Ha) as (s' & E & Hh).
  { exists G. split; [|split; [done|done]]. intros q. rewrite elem_of_map. naive_solver. }
  { intros f (q & Hq & ->)%(elem_of_as_frames m); [|done]. destruct (Hp q Hq) as (idx & Hin & ->). destruct (addr_of_page cfg Hcfg idx (Hrng _ _ _ I Hin)) as [_ ->]. by apply elem_of_map_2. }
  destruct (kheld_image _ _ _ _ _ _ _ Hh) as (G' & EK & I' & F). exists s', G'. split; [done|]. split; [done|]. split; [done|]. intros idx. split.
  - intros Hi. pose proof (Hrng _ _ _ I' Hi) as Hr. assert (Hin : frame_of cfg idx ∈ (set_map (frame_of cfg) G' : gset Z)) by (by apply elem_of_map_2).
    rewrite <- EK in Hin. apply elem_of_difference in Hin as [(x & Ex & Hx)%elem_of_map Hn]. apply frame_of_inj in Ex as ->; [|done|done|exact (Hrng _ _ _ I Hx)].
    split; [done|]. by rewrite <- Hfr.
  - intros [Hi Hn]. pose proof (Hrng _ _ _ I Hi) as Hr. assert (Hin : frame_of cfg idx ∈ (set_map (frame_of cfg) G ∖ as_frames r a : gset Z)).
    { apply elem_of_difference. split; [by apply elem_of_map_2|by rewrite Hfr]. }
    rewrite EK in Hin. apply elem_of_map in Hin as (x & Ex & Hx). apply frame_of_inj in Ex as ->; [done|done|done|exact (Hrng _ _ _ I' Hx)].
Qed.
Lemma start_frame idx : 0 <= idx < total_pages (plat cfg) -> start_addr (frame_of cfg idx) = addr_of cfg idx.
Proof using Hcfg. intros Hi. destruct (frame_of_eq cfg idx Hcfg Hi) as [E R]. destruct (start_addr_page _ R) as [-> _]. done. Qed.

(** A page of the pool is unmapped and its frame freed. *)
Lemma free_pool_page G D oB oD out root (q : KvmPool.Pool KMem) F i idx : inv cfg G D None oB oD (p_frames q) -> pool_ok out root q F -> 0 <= i < POOL_PAGES ->
  F !! i = Some (addr_of cfg idx) -> idx ∈ G ->
  exists q', @free_kernel_pages KMem (kframes cfg) q (va_of i) 1 = Ret q' /\ pool_ok out root q' (delete i F) /\
    inv cfg (G ∖ {[idx]}) D None oB oD (p_frames q') /\ frames_only (p_frames q) (p_frames q').
Proof using Hcfg.
  intros I Ok Hi HF Hin. assert (Hrng : forall H s0 x, inv cfg H D None oB oD s0 -> x ∈ H -> 0 <= x < total_pages (plat cfg)) by (intros H s0 x I0 Hx; by apply (pt_G _ _ _ _ (iv_B _ _ _ _ _ _ _ I0))).
  pose proof (Hrng _ _ _ I Hin) as Hr. destruct (frame_of_eq cfg idx Hcfg Hr) as [_ R].
  assert (HG : set_map (frame_of cfg) (G ∖ {[idx]}) ∪ {[frame_of cfg idx]} = (set_map (frame_of cfg) G : gset Z)).
  { apply set_eq. intros x. rewrite elem_of_union, elem_of_singleton, !elem_of_map. setoid_rewrite elem_of_difference. setoid_rewrite elem_of_singleton. split.
    - intros [(y & -> & Hy & _)| ->]; eauto.
    - intros (y & -> & Hy). destruct (decide (y = idx)) as [->|]; [by right|left; by exists y]. }
  destruct (@tear_owned out root KMem (kframes cfg) (kheld cfg D oB oD (p_frames q)) (kheld_laws cfg D oB oD _ Hcfg) q F (set_map (frame_of cfg) (G ∖ {[idx]})) i [frame_of cfg idx])
    as (q' & r & E & Ok' & Hh & _); [done|lia|cbn; unfold POOL_PAGES in *; lia|done| | | |].
  - split; [apply NoDup_singleton|]. intros y ->%list_elem_of_singleton. split; [done|]. intros (x & Ex & [Hx Hn]%elem_of_difference)%elem_of_map.
    apply frame_of_inj in Ex as ->; [by apply Hn, elem_of_singleton|done|done|by eapply Hrng].
  - intros [|x] y Hx; [|done]. injection Hx as <-. rewrite Z.add_0_r. by rewrite start_frame.
  - cbn [list_to_set foldr fmap list_fmap]. rewrite union_empty_r_L, HG. exists G. split; [|split; done]. intros y. rewrite elem_of_map. naive_solver.
  - exists q'. unfold free_kernel_pages. rewrite (po_init _ _ _ _ Ok). cbn [assert]. rewrite bind_Ret. split; [exact E|]. split; [done|].
    destruct (kheld_image _ _ _ _ _ _ _ Hh) as (G' & EK & I' & Fr). split; [|done]. replace (G ∖ {[idx]}) with G'; [done|]. apply set_eq. intros x.
    split.
    + intros Hx. pose proof (Hrng _ _ _ I' Hx). assert (Hf : frame_of cfg x ∈ (set_map (frame_of cfg) G' : gset Z)) by (by apply elem_of_map_2).
      rewrite <- EK in Hf. apply elem_of_map in Hf as (y & Ey & Hy). apply frame_of_inj in Ey as ->; [done|done|done|]. apply elem_of_difference in Hy as [Hy _]. exact (Hrng _ _ _ I Hy).
    + intros Hx. apply elem_of_difference in Hx as Hx'. destruct Hx' as [Hx' _]. assert (Hf : frame_of cfg x ∈ (set_map (frame_of cfg) (G ∖ {[idx]}) : gset Z)) by (by apply elem_of_map_2).
      rewrite EK in Hf. apply elem_of_map in Hf as (y & Ey & Hy). apply frame_of_inj in Ey as ->; [done|done|exact (Hrng _ _ _ I Hx')|exact (Hrng _ _ _ I' Hy)].
Qed.
End Frees.

(** * Tearing a process down *)
Section Teardown.
Context (cfg : Config) (Hcfg : config_ok cfg) (Hdm : direct_map_ok cfg).

Lemma dropped_frames oB ps s s0 oB' ps' s' s1 : dropped oB ps s oB' ps' s' -> table s0 = table s -> table s1 = table s' -> dropped oB ps s0 oB' ps' s1.
Proof using. intros [A1 A2 A3] E0 E1. constructor; rewrite ?E0, ?E1; done. Qed.

Lemma direct_map_kva idx : 0 <= idx < total_pages (plat cfg) -> assert_direct_map_kva (kva_of cfg idx) = Ret tt.
Proof using Hcfg Hdm.
  intros Hi. destruct (kva_of_range cfg Hcfg Hdm idx Hi) as [H1 H2]. unfold assert_direct_map_kva. by rewrite (proj2 (Z.leb_le _ _)), (proj2 (Z.ltb_lt _ _)).
Qed.

Lemma one_table_page (slots : list HandleEntry) : Z.of_nat (length slots) <= HANDLE_SLOTS_PER_PAGE -> wrap 8 (query_handle_table_size (Z.of_nat (length slots))) = 1.
Proof using.
  intros Hl. change HANDLE_SLOTS_PER_PAGE with 127 in Hl. assert (query_handle_table_size (Z.of_nat (length slots)) = 1) as ->; [|done].
  unfold query_handle_table_size, HANDLE_TABLE_HEADER_BYTES, HANDLE_ENTRY_BYTES, PAGE_SIZE. symmetry. apply (Z.div_unique _ _ _ (16 + 32 * Z.of_nat (length slots) - 1)); lia.
Qed.

Context (G D : gset Z) (oB oD : nat -> list Z) (k : Kernel) (A : acct cfg G D oB oD (k_procs k) (k_mem k)).
Context (p : Z) (pr : Proc) (Hp : k_procs k !! p = Some pr) (o : ProcessObject) (a : AS).
Context (Hroot : p_ttbr0 pr <> 0) (Hsl : Z.of_nat (length (p_table pr)) <= HANDLE_SLOTS_PER_PAGE) (Ha : as_ok (k_pt k) (p_ttbr0 pr) a).
Context (xp xh : Z) (L : list Z) (Ep : p = kva_of cfg xp) (Eh : po_ht o = kva_of cfg xh) (EL : po_owned o = addr_of cfg <$> L).
Context (Hnd : NoDup (xp :: xh :: L)) (Hin : forall x, x ∈ xp :: xh :: L -> x ∈ G).
Context (Hpg : forall q, as_page (p_ttbr0 pr) a q -> exists idx, idx ∈ G /\ q = addr_of cfg idx /\ idx ∉ xp :: xh :: L).

Lemma held_range idx : idx ∈ G -> 0 <= idx < total_pages (plat cfg).
Proof using A. intros Hi. by apply (pt_G _ _ _ _ (iv_B _ _ _ _ _ _ _ (ac_inv _ _ _ _ _ _ _ A))). Qed.

(** The first two steps: the pages of the process and of its tables. *)
Lemma teardown_pages : exists s G', inv cfg G' D None oB oD s /\ frames_only (k_mem k) s /\
  (forall idx, idx ∈ G' <-> idx ∈ G /\ idx ∉ L /\ ~ as_page (p_ttbr0 pr) a (addr_of cfg idx)) /\
  forall rest, run_teardown cfg k o p pr ((if 0 <? Z.of_nat (length (po_owned o)) then [FreeOwnedPages (Z.of_nat (length (po_owned o)))] else []) ++ FreeAddressSpace :: rest) =
    run_teardown cfg (with_mem k s) o p pr rest.
Proof using All.
  pose proof Hnd as [_ [_ HndL]%NoDup_cons]%NoDup_cons.
  destruct (free_owned_spec cfg Hcfg _ _ _ _ (k_mem k) L (ac_inv _ _ _ _ _ _ _ A) HndL) as (s1 & E1 & I1 & F1).
  { intros x Hx. apply Hin. by do 2 right. }
  destruct (free_space_spec cfg Hcfg _ _ _ _ s1 (k_pt k) (p_ttbr0 pr) a I1 Ha) as (s2 & G2 & E2 & I2 & F2 & HG2).
  { intros q (idx & Hi & -> & Hn)%Hpg. exists idx. split; [|done]. rewrite !not_elem_of_cons in Hn. apply elem_of_difference. rewrite elem_of_list_to_set. tauto. }
  exists s2, G2. split; [done|]. split; [by eapply frames_trans|]. split.
  { intros idx. rewrite HG2, elem_of_difference, elem_of_list_to_set. tauto. }
  intros rest. rewrite EL, length_fmap. assert (Hrun : forall s0, s0 = s1 -> run_teardown cfg (with_mem k s0) o p pr (FreeAddressSpace :: rest) = run_teardown cfg (with_mem k s2) o p pr rest).
  { intros s0 ->. cbn [run_teardown run_step with_mem k_pt k_mem]. rewrite E2, bind_Ret. done. }
  destruct (Z.ltb_spec 0 (Z.of_nat (length L))) as [Hlen|Hlen].
  - cbn [app run_teardown run_step]. rewrite EL, E1, !bind_Ret. by apply (Hrun s1).
  - destruct L as [|]; [|cbn in Hlen; lia]. cbn [app]. rewrite <- (Hrun (k_mem k)); [by destruct k|]. cbn in E1. by injection E1.
Qed.

Lemma teardown_spec : exists s oB' oD' G', let ps' := <[p := mkProc (p_ttbr0 pr) (replicate (length (p_table pr)) EMPTY)]> (k_procs k) in
  teardown_process cfg k o p = Ret (with_procs (with_mem k s) (delete p (k_procs k))) /\ acct cfg G' D oB' oD' ps' s /\ dropped oB (k_procs k) (k_mem k) oB' ps' s /\
  forall idx, idx ∈ G' <-> idx ∈ G /\ idx ∉ xp :: xh :: L /\ ~ as_page (p_ttbr0 pr) a (addr_of cfg idx).
Proof using All.
  destruct teardown_pages as (s1 & G1 & I1 & F1 & HG1 & Erun). pose proof (acct_frames _ _ _ _ _ _ _ _ _ A I1 F1) as A1.
  destruct (cleanup_all cfg Hcfg G1 D p (p_ttbr0 pr) (p_table pr) [] (k_procs k) s1 oB oD) as (s2 & oB2 & oD2 & E2 & A2 & D2); [by destruct pr|done|]. cbn [app] in A2, D2.
  assert (Hx : forall x, x = xp \/ x = xh -> x ∈ G1).
  { intros x Hx. pose proof Hnd as [N1 [N2 _]%NoDup_cons]%NoDup_cons. rewrite not_elem_of_cons in N1. apply HG1. split; [apply Hin; rewrite !elem_of_cons; tauto|].
    split; [destruct Hx as [->| ->]; tauto|]. intros Hq. destruct (Hpg _ Hq) as (idx & _ & ->%addr_of_inj & Hn). rewrite !not_elem_of_cons in Hn. tauto. }
  destruct (dealloc_kva_spec cfg Hcfg _ _ _ _ s2 xh (ac_inv _ _ _ _ _ _ _ A2)) as (s3 & E3 & I3 & F3); [apply Hx; tauto|].
  destruct (dealloc_kva_spec cfg Hcfg _ _ _ _ s3 xp I3) as (s4 & E4 & I4 & F4).
  { pose proof Hnd as [N1 _]%NoDup_cons. rewrite not_elem_of_cons in N1. apply elem_of_difference. rewrite elem_of_singleton. split; [apply Hx|]; tauto. }
  exists s4, oB2, oD2, ((G1 ∖ {[xh]}) ∖ {[xp]}). cbn zeta. pose proof (frames_trans _ _ _ F3 F4) as F34. split; [|split; [|split]].
  - unfold teardown_process. rewrite Hp. cbn [unwrap]. rewrite bind_Ret. unfold build_teardown_plan. rewrite (proj2 (Z.eqb_neq _ _)) by done. cbn [negb].
    assert (Hh0 : po_ht o <> 0).
    { rewrite Eh. destruct (kva_of_range cfg Hcfg Hdm xh); [apply held_range, Hin; by right; left|unfold KERNEL_VA_OFFSET in *; lia]. }
    rewrite (proj2 (Z.eqb_neq _ _)) by done. cbn [negb]. rewrite one_table_page by done. cbn [app]. rewrite Erun.
    cbn [run_teardown run_step with_mem k_mem]. rewrite E2, !bind_Ret. cbn [with_mem k_mem]. rewrite Eh, direct_map_kva, bind_Ret by (apply held_range, Hin; by right; left).
    change (Z.to_nat 1) with 1%nat. unfold for_range.
    rewrite Z.mul_0_l, Z.add_0_r, E3, !bind_Ret. cbn [with_mem k_mem].
    rewrite Ep at 1. rewrite direct_map_kva, bind_Ret by (apply held_range, Hin; by left). rewrite Ep at 1. rewrite E4, !bind_Ret. done.
  - by eapply acct_frames.
  - eapply dropped_frames; [exact D2|destruct F1 as (_ & _ & _ & ->); done|by destruct F34 as (_ & _ & _ & ->)].
  - intros idx. rewrite !elem_of_difference, !elem_of_singleton, HG1, !not_elem_of_cons. tauto.
Qed.
End Teardown.

(** * The exit of a thread *)
Section Exit.
Context (cfg : Config) (Hcfg : config_ok cfg) (Hdm : direct_map_ok cfg).
Context (own : Z -> option Owner) (G D : gset Z) (oB oD : nat -> list Z) (S : gmap Z AS) (w : World) (W : world_ok cfg own G D oB oD S w).
Context (i : nat) (t p : Z) (pr : Proc) (Hi : k_threads (w_k w) !! i = Some (Some t)) (Ht : k_tcb_process (w_k w) !! t = Some p).
Context (Hp : k_procs (w_k w) !! p = Some pr).

Definition without_thread : list (option Z) := <[i := None]> (k_threads (w_k w)).

Lemma thread_gone : Some t ∉ without_thread /\ forall t', Some t' ∈ without_thread -> Some t' ∈ k_threads (w_k w).
Proof using W Hi.
  split.
  - intros (j & Hj)%list_elem_of_lookup. apply list_lookup_insert_Some in Hj as [(_ & ? & _)|[Hne Hj]]; [done|]. apply Hne. by eapply wk_slots.
  - intros t' (j & Hj)%list_elem_of_lookup. apply list_lookup_insert_Some in Hj as [(_ & ? & _)|[_ Hj]]; [done|]. by eapply list_elem_of_lookup_2.
Qed.

Lemma threads_left k' q : k_threads k' = without_thread -> k_tcb_process k' = k_tcb_process (w_k w) ->
  threads_of (w_k w) q = threads_of k' q + if decide (p = q) then 1 else 0.
Proof using Hi Ht. intros E1 E2. unfold threads_of. rewrite E1, E2. by apply count_cons, procs_of_remove with t. Qed.

Lemma procs_left q : q ∈ procs_of (k_tcb_process (w_k w)) (k_threads (w_k w)) <-> q = p \/ q ∈ procs_of (k_tcb_process (w_k w)) without_thread.
Proof using Hi Ht. rewrite (procs_of_remove _ _ _ _ _ Hi Ht). by rewrite elem_of_cons. Qed.

(** What is left of the ownership when the pages outside [G'] are freed. *)
Definition own_in (G' : gset Z) (idx : Z) : option Owner := if decide (idx ∈ G') then own idx else None.

(** The labels that stay: those of live processes and of other threads. *)
Definition stays (k' : Kernel) (l : Owner) : Prop :=
  match l with OProc q | OHandles q | OData q => is_Some (k_procs k' !! q) | OTcb t' | OStack t' => t' <> t | OObj _ | OKvm => True end.

Definition pool_stays (l : Owner) : Prop := match l with OProc _ | OHandles _ | OData _ => False | OTcb t' | OStack t' => t' <> t | OObj _ | OKvm => True end.

Lemma exit_world w' o G' D' oB' oD' S' : sys_ok cfg G' D' oB' oD' S' (w_k w') ->
  k_threads (w_k w') = without_thread -> k_tcb_process (w_k w') = k_tcb_process (w_k w) ->
  (forall q qr, k_procs (w_k w') !! q = Some qr -> k_procs (w_k w) !! q = Some qr) ->
  (forall r a, S' !! r = Some a -> S !! r = Some a) ->
  (forall idx l, own idx = Some l -> stays (w_k w') l -> idx ∈ G') ->
  w_objs w !! p = Some o -> w_objs w' = <[p := mkPObj (po_ht o) (po_threads o - 1) (po_immortal o) (po_owned o)]> (w_objs w) -> w_stacks w' = w_stacks w -> w_ipc w' = w_ipc w -> k_next_token (w_k w') = k_next_token (w_k w) ->
  ((forall idx l, own idx = Some l -> pool_stays l -> own_in G' idx = Some l) -> pool_use cfg (own_in G') w') ->
  world_ok cfg (own_in G') G' D' oB' oD' S' w'.
Proof using W Hi Ht Hp.
  intros K' E1 E2 Hps HS Hk Ho Eo Es Ei Ek Hpool. destruct thread_gone as [T1 T2].
  assert (Hin : forall idx l, own idx = Some l -> stays (w_k w') l -> own_in G' idx = Some l) by (intros idx l H1 H2; unfold own_in; rewrite decide_True; [done|by eapply Hk]).
  assert (Hown : forall kva l, owned cfg own kva l -> stays (w_k w') l -> owned cfg (own_in G') kva l) by (intros kva l (idx & -> & H1) H2; exists idx; split; [done|by apply Hin]).
  constructor.
  - done.
  - intros idx l Hl. unfold own_in in Hl. by case_decide.
  - intros r a q idx Hr Hq Eq. unfold own_in. case_decide; [|done]. eapply wk_tables; [done|by apply HS|done|done].
  - intros q qr Hq. pose proof (Hps q qr Hq) as Hq0. destruct (wk_objs _ _ _ _ _ _ _ _ W q qr Hq0) as (o0 & H1 & H2 & H3). pose proof (threads_left (w_k w') q E1 E2) as Hc.
    assert (Hm : forall o1, po_ht o1 = po_ht o0 -> po_owned o1 = po_owned o0 -> mortal cfg own q qr o0 -> mortal cfg (own_in G') q qr o1).
    { intros o1 Q1 Q2 [M1 M2 M3 [M4 M5]]. constructor; [done|apply Hown; [done|by exists qr]|rewrite Q1; apply Hown; [done|by exists qr]|]. rewrite Q2. split; [done|].
      intros y Hy. destruct (M5 y Hy) as (idx & -> & Hl). exists idx. split; [done|]. apply Hin; [done|by exists qr]. }
    rewrite Eo. destruct (decide (p = q)) as [<-|Hne].
    + rewrite lookup_insert_eq. eexists. split; [reflexivity|]. rewrite Ho in H1. injection H1 as <-. cbn. split; [lia|]. intros Him. apply Hm; [done|done|by apply H3].
    + rewrite lookup_insert_ne by done. exists o0. split; [done|]. split; [lia|]. intros Him. apply Hm; [done|done|by apply H3].
  - intros q idx Hq Eq. apply Hin; [|done]. eapply wk_procs; [done| |done]. destruct Hq as [qr Hq]. exists qr. by apply Hps.
  - intros t' idx Ht' Eq Hlt. rewrite E1 in Ht'. apply Hin; [eapply wk_tcbs; [done|by apply T2|done|done]|]. cbn. by intros ->.
  - intros j j' t' Hj Hj'. rewrite E1 in Hj, Hj'. apply list_lookup_insert_Some in Hj as [(_ & ? & _)|[_ Hj]]; [done|].
    apply list_lookup_insert_Some in Hj' as [(_ & ? & _)|[_ Hj']]; [done|]. by eapply wk_slots.
  - intros t' Ht'. rewrite E1 in Ht'. destruct (wk_stacks _ _ _ _ _ _ _ _ W t' (T2 t' Ht')) as (b & Hb & Hs & Hm). exists b. rewrite Es. split; [done|]. split; [|done].
    intros s Eb. destruct (Hs s Eb) as [O1 O2]. assert (t' <> t) by (by intros ->). split; by apply Hown.
  - apply Hpool. intros idx l Hl Hs. apply Hin; [done|]. by destruct l.
  - rewrite Ei. apply (sound_less (w_k w)); [apply (wk_handles _ _ _ _ _ _ _ _ W)| |unfold next_token_of; rewrite Ek; lia].
    intros q j kind (qr & h & Hq & Hj & <-). right. exists qr, h. by split; [apply Hps|].
Qed.

Lemma tables_kept (G' : gset Z) S' : (forall r a, S' !! r = Some a -> S !! r = Some a) ->
  (forall idx r a, S' !! r = Some a -> as_page r a (addr_of cfg idx) -> idx ∈ G -> idx ∈ G') -> tables_held (set_map (frame_of cfg) G') S'.
Proof using W Hcfg.
  intros HS HG r a q Hr Hq. destruct (table_page _ _ _ _ _ _ _ _ _ _ Hcfg (wk_sys _ _ _ _ _ _ _ _ W) (HS r a Hr) Hq) as (idx & Hin & ->).
  destruct (addr_of_page cfg Hcfg idx) as [_ ->]; [by apply (pt_G _ _ _ _ (iv_B _ _ _ _ _ _ _ (ok_mem _ _ _ _ _ _ _ (wk_sys _ _ _ _ _ _ _ _ W))))|].
  apply elem_of_map_2. by eapply HG.
Qed.

(** A thread goes, the process stays. *)
Lemma exit_some_ok G' s : 1 < threads_of (w_k w) p -> inv cfg G' D None oB oD s -> frames_only (k_mem (w_k w)) s -> tables_held (set_map (frame_of cfg) G') S ->
  sys_ok cfg G' D oB oD S (with_threads (with_mem (w_k w) s) without_thread (k_tcb_process (w_k w))).
Proof using W Hi Ht Hp.
  intros Hn I F Htab. pose proof (wk_sys _ _ _ _ _ _ _ _ W) as K. pose proof (sys_frames cfg _ _ _ _ _ _ G' s K I F Htab) as [? ? ? ? ? ? ? ? ? ? ?].
  assert (Hin : p ∈ procs_of (k_tcb_process (w_k w)) without_thread).
  { pose proof (threads_left (with_threads (w_k w) without_thread (k_tcb_process (w_k w))) p eq_refl eq_refl) as Hc. rewrite decide_True in Hc by done.
    unfold threads_of at 2 in Hc. cbn [with_threads k_threads k_tcb_process] in Hc. destruct (filter (fun q => q = p) (procs_of (k_tcb_process (w_k w)) without_thread)) as [|y l] eqn:E; [cbn in Hc; lia|].
    assert (Hy : y ∈ filter (fun q => q = p) (procs_of (k_tcb_process (w_k w)) without_thread)) by (rewrite E; by left). by apply list_elem_of_filter in Hy as [-> Hy]. }
  constructor; try done; cbn [with_threads with_mem k_threads k_tcb_process k_procs] in *.
  - unfold without_thread. by rewrite length_insert.
  - intros t' Ht'. apply ok_tcb. by apply (proj2 thread_gone).
  - intros q. rewrite <- ok_live, procs_left. split; [tauto|]. intros [[->|H] H0]; done.
Qed.

(** The last thread goes and the process with it. *)
Lemma exit_last_ok G' oB' oD' s n : threads_of (w_k w) p = 1 -> p_ttbr0 pr <> 0 ->
  acct cfg G' D oB' oD' (<[p := mkProc (p_ttbr0 pr) (replicate n EMPTY)]> (k_procs (w_k w))) s -> tables_held (set_map (frame_of cfg) G') (delete (p_ttbr0 pr) S) ->
  sys_ok cfg G' D oB' oD' (delete (p_ttbr0 pr) S)
    (with_procs (with_mem (with_threads (w_k w) without_thread (k_tcb_process (w_k w))) s) (delete p (k_procs (w_k w)))) /\
  forall x, sum_procs (nrefs x) (<[p := mkProc (p_ttbr0 pr) (replicate n EMPTY)]> (k_procs (w_k w))) = sum_procs (nrefs x) (delete p (k_procs (w_k w))).
Proof using W Hi Ht Hp.
  intros Hn Hr [I Hh Hc] Htab. pose proof (wk_sys _ _ _ _ _ _ _ _ W) as [? ? ? ? ? ? ? ? ? ? ?].
  assert (Hout : p ∉ procs_of (k_tcb_process (w_k w)) without_thread).
  { intros Hin. pose proof (threads_left (with_threads (w_k w) without_thread (k_tcb_process (w_k w))) p eq_refl eq_refl) as Hc'. rewrite decide_True in Hc' by done.
    unfold threads_of at 2 in Hc'. cbn [with_threads k_threads k_tcb_process] in Hc'.
    assert (Hy : p ∈ filter (fun q => q = p) (procs_of (k_tcb_process (w_k w)) without_thread)) by (by apply list_elem_of_filter). destruct (filter _ _); [by apply elem_of_nil in Hy|]. cbn [length] in Hc'. lia. }
  assert (Hsum : forall x, sum_procs (nrefs x) (<[p := mkProc (p_ttbr0 pr) (replicate n EMPTY)]> (k_procs (w_k w))) = sum_procs (nrefs x) (delete p (k_procs (w_k w))) /\
    sum_procs (nmaps x) (<[p := mkProc (p_ttbr0 pr) (replicate n EMPTY)]> (k_procs (w_k w))) = sum_procs (nmaps x) (delete p (k_procs (w_k w)))).
  { intros x. rewrite !(sum_procs_delete _ (<[p := _]> (k_procs (w_k w))) p (mkProc (p_ttbr0 pr) (replicate n EMPTY))) by apply lookup_insert_eq.
    rewrite delete_insert_eq. cbn [p_table]. destruct (no_pagesets_counts x (replicate n EMPTY)) as [-> ->]; [|done]. intros j h kva mv [-> _]%lookup_replicate. done. }
  split; [|intros x; apply Hsum]. constructor; cbn [with_threads with_mem with_procs k_threads k_tcb_process k_procs k_mem k_pt].
  - done.
  - destruct ok_spaces as [S1 S2]. constructor.
    + intros r a [_ H]%lookup_delete_Some. by apply S1.
    + intros r r' a a' q [_ H]%lookup_delete_Some [_ H']%lookup_delete_Some. by apply S2.
  - done.
  - unfold without_thread. by rewrite length_insert.
  - intros t' Ht'. apply ok_tcb. by apply (proj2 thread_gone).
  - intros q. rewrite lookup_delete_is_Some, <- ok_live, procs_left. split; [intros [H1 H2]; split; [by intros ->|tauto]|]. intros [H1 [[->|H2] H3]]; done.
  - intros q qr [Hne Hq]%lookup_delete_Some. destruct (ok_root q qr Hq) as [|Hs]; [by left|right]. apply lookup_delete_is_Some. split; [|done].
    intros E. apply Hne. symmetry. apply (ok_root_inj q p qr pr); [done|done|done|congruence].
  - intros q q' qr qr' [_ Hq]%lookup_delete_Some [_ Hq']%lookup_delete_Some. by apply ok_root_inj.
  - intros q qr [_ Hq]%lookup_delete_Some. by eapply ok_slots.
  - intros q qr j h kva mv [Hne Hq]%lookup_delete_Some Hj Hk. eapply Hh; [by rewrite lookup_insert_ne|done|done].
  - intros j e Hj. destruct (Hsum (e_header_kva e)) as [<- <-]. by apply (Hc j).
Qed.

Lemma list_preimage {A B} (f : A -> B) (P : A -> Prop) (l : list B) : (forall y, y ∈ l -> exists x, y = f x /\ P x) ->
  exists L, l = f <$> L /\ forall x, x ∈ L -> P x.
Proof using.
  induction l as [|y l IH]; intros H.
  - exists []. split; [done|]. by intros x ?%elem_of_nil.
  - destruct (H y) as (x & -> & Hx); [by left|]. destruct IH as (L & -> & HL); [intros z Hz; apply H; by right|].
    exists (x :: L). split; [done|]. intros z [->|Hz]%elem_of_cons; [done|by apply HL].
Qed.

(** ** finish_exit *)
Context (b : KernelStackBase) (st : Z) (Hb : b = DirectMap st \/ b = KSched.Pool st) (Hst : w_stacks w !! t = Some b) (o : ProcessObject) (Ho : w_objs w !! p = Some o).
Context (Himm : po_immortal o = true -> 1 < po_threads o).

(** The frame behind an address of the thread's pages: the direct map's, or the
    one the pool's tables map. *)
Definition behind (kva idx : Z) : Prop :=
  match b with
  | KSched.Pool _ => exists j, 0 <= j < POOL_PAGES /\ kva = va_of j /\ read_pte (p_mem (w_pool w)) (slot (p_l1 (w_pool w)) j) = build_kernel_page (addr_of cfg idx)
  | _ => kva = kva_of cfg idx
  end.

Definition last_thread : bool := negb (po_immortal o) && (po_threads o =? 1).

(** The pages that go back: the thread's stack and TCB; with the last thread the
    process's object, handle table, data pages and page tables. *)
Definition given_back (idx : Z) : Prop :=
  behind st idx \/ behind t idx \/
  last_thread = true /\ (kva_of cfg idx = p \/ kva_of cfg idx = po_ht o \/ addr_of cfg idx ∈ po_owned o \/
    exists a, S !! p_ttbr0 pr = Some a /\ as_page (p_ttbr0 pr) a (addr_of cfg idx)).

Record exited (w' : World) (G' : gset Z) (oB' : nat -> list Z) (S' : gmap Z AS) : Prop := {
  ex_threads : k_threads (w_k w') = without_thread /\ k_tcb_process (w_k w') = k_tcb_process (w_k w) /\ k_pt (w_k w') = k_pt (w_k w);
  ex_ipc : w_ipc w' = w_ipc w;
  ex_procs : k_procs (w_k w') = if last_thread then delete p (k_procs (w_k w)) else k_procs (w_k w);
  ex_spaces : S' = if last_thread then delete (p_ttbr0 pr) S else S;
  ex_frames : forall idx, idx ∈ G' <-> idx ∈ G /\ ~ given_back idx;
  ex_sets : dropped oB (k_procs (w_k w)) (k_mem (w_k w)) oB' (k_procs (w_k w')) (k_mem (w_k w'));
}.

(** ** The thread's own pages *)

Record pages_gone (xs xt : Z) (s : KMem) (pl : KvmPool.Pool unit) : Prop := {
  pg_stack : own xs = Some (OStack t) /\ forall idx, idx ∈ G -> behind st idx <-> idx = xs;
  pg_tcb : own xt = Some (OTcb t) /\ forall idx, idx ∈ G -> behind t idx <-> idx = xt;
  pg_inv : inv cfg ((G ∖ {[xs]}) ∖ {[xt]}) D None oB oD s;
  pg_frames : frames_only (k_mem (w_k w)) s;
  pg_pool : forall own' w', w_pool w' = pl -> k_threads (w_k w') = without_thread -> w_stacks w' = w_stacks w -> w_ipc w' = w_ipc w ->
    (forall idx l, own idx = Some l -> pool_stays l -> own' idx = Some l) -> pool_use cfg own' w';
}.

Lemma thread_stays t' : Some t' ∈ k_threads (w_k w) -> t' <> t -> Some t' ∈ without_thread.
Proof using Hi.
  intros (j & Hj)%list_elem_of_lookup Hne. apply list_elem_of_lookup. exists j. unfold without_thread. rewrite list_lookup_insert_ne; [done|]. intros <-. congruence.
Qed.

Lemma direct_pages : b = DirectMap st -> exists xs xt s, (s ← dealloc_kva cfg st (k_mem (w_k w)); dealloc_kva cfg t s) = Ret s /\ pages_gone xs xt s (w_pool w).
Proof using Hcfg Hdm W Hi Hst.
  intros Eb. rewrite Eb in Hst. destruct (wk_stacks _ _ _ _ _ _ _ _ W t) as (b0 & Hb0 & Hs & _); [by eapply list_elem_of_lookup_2|]. rewrite Hst in Hb0. injection Hb0 as <-.
  destruct (Hs st eq_refl) as [(xt & Et & Lt) (xs & Es & Ls)]. exists xs, xt.
  destruct (dealloc_kva_spec cfg Hcfg _ _ _ _ (k_mem (w_k w)) xs (ok_mem _ _ _ _ _ _ _ (wk_sys _ _ _ _ _ _ _ _ W))) as (s1 & E1 & I1 & F1); [by eapply wk_held|].
  destruct (dealloc_kva_spec cfg Hcfg _ _ _ _ s1 xt I1) as (s2 & E2 & I2 & F2).
  { apply elem_of_difference. split; [by eapply wk_held|]. intros ->%elem_of_singleton. congruence. }
  exists s2. rewrite <- Es in E1. rewrite <- Et in E2. rewrite E1, bind_Ret. split; [done|]. constructor; [| |done|by eapply frames_trans|].
  - split; [done|]. intros idx _. unfold behind. rewrite Eb, Es. split; [by intros ->%kva_of_inj|by intros ->].
  - split; [done|]. intros idx _. unfold behind. rewrite Eb, Et. split; [by intros ->%kva_of_inj|by intros ->].
  - intros own' w' Ep Eth Est Ei Hk. eapply pool_use_kept; [apply (wk_pool _ _ _ _ _ _ _ _ W)|done|done| |].
    + intros idx l Hl Hlab. apply Hk; [done|]. destruct l as [| | |t'|t'| |]; cbn in *; try done.
      * intros ->. assert (0 <= xt < total_pages (plat cfg)) as Hr by (apply (pt_G _ _ _ _ (iv_B _ _ _ _ _ _ _ (ok_mem _ _ _ _ _ _ _ (wk_sys _ _ _ _ _ _ _ _ W)))); by eapply wk_held).
        pose proof (kva_of_range cfg Hcfg Hdm xt Hr). lia.
      * intros ->. destruct Hlab as [_ [s' Hs']]. congruence.
    + intros t' s'. rewrite Eth, Est. split; intros [H1 H2]; (split; [|done]).
      * by apply (proj2 thread_gone).
      * apply thread_stays; [done|]. intros ->. congruence.
Qed.

Lemma kernel_page_inj x y : x ∈ G -> y ∈ G -> build_kernel_page (addr_of cfg x) = build_kernel_page (addr_of cfg y) -> x = y.
Proof using Hcfg W.
  assert (Hr : forall z, z ∈ G -> page_addr (addr_of cfg z)).
  { intros z Hz. apply (addr_of_page cfg Hcfg). by apply (pt_G _ _ _ _ (iv_B _ _ _ _ _ _ _ (ok_mem _ _ _ _ _ _ _ (wk_sys _ _ _ _ _ _ _ _ W)))). }
  intros Hx Hy E. apply (addr_of_inj cfg). rewrite <- (output_page _ (Hr x Hx)), <- (output_page _ (Hr y Hy)).
  destruct (kernel_page_fields (addr_of cfg x)) as [_ <-]. destruct (kernel_page_fields (addr_of cfg y)) as [_ <-]. by rewrite E.
Qed.

(** The pool without the two pages of the thread. *)
Lemma pool_thread_gone F i1 i2 xs xt own' w' out : pool_inv cfg own w F -> t = va_of i1 -> st = va_of i2 -> b = KSched.Pool st ->
  F !! i1 = Some (addr_of cfg xt) -> own xt = Some (OTcb t) -> F !! i2 = Some (addr_of cfg xs) -> own xs = Some (OStack t) ->
  pool_ok out (p_l1 (w_pool w)) (pool_of w') (delete i1 (delete i2 F)) -> k_threads (w_k w') = without_thread -> w_stacks w' = w_stacks w -> w_ipc w' = w_ipc w ->
  (forall idx l, own idx = Some l -> pool_stays l -> own' idx = Some l) -> pool_inv cfg own' w' (delete i1 (delete i2 F)).
Proof using W Hi Hst.
  intros [_ I2 I3 I4 I5] Et Es Eb F1 L1 F2 L2 Ok Eth Est Ei Hk. rewrite Eb in Hst. destruct thread_gone as [T1 T2].
  assert (El : p_l1 (w_pool w') = p_l1 (w_pool w)) by apply (po_root _ _ _ _ Ok).
  assert (Hd : forall k x x' l l', F !! k = Some (addr_of cfg x) -> own x = Some l -> F !! k = Some (addr_of cfg x') -> own x' = Some l' -> l = l').
  { intros k x x' l l' A1 A2 A3 A4. rewrite A1 in A3. injection A3 as ->%addr_of_inj. congruence. }
  constructor.
  - exists out. by rewrite El.
  - rewrite El. intros n Hn. destruct (I2 n Hn) as (idx & Ea & Hl). exists idx. split; [done|]. by apply Hk.
  - intros i0 a [N1 [N2 H]%lookup_delete_Some]%lookup_delete_Some. destruct (I3 i0 a H) as (Hr & idx & Ea & Hp0). split; [done|]. exists idx. split; [done|].
    destruct Hp0 as [Hl|[Hl|(t' & Hl & H1 & H2)]].
    + left. apply Hk; [done|]. cbn. rewrite Et. unfold va_of. lia.
    + right. left. by apply Hk.
    + assert (t' <> t) by (intros ->; rewrite Hst in H2; injection H2 as E2; rewrite Es in E2; unfold va_of in E2; lia).
      right. right. exists t'. split; [by apply Hk|]. rewrite Eth, Est. split; [by apply thread_stays|done].
  - intros t' s' H1 H2. rewrite Eth in H1. rewrite Est in H2. assert (t' <> t) by (by intros ->).
    destruct (I4 t' s' (T2 _ H1) H2) as (i' & j' & xt' & xs' & Q1 & Q2 & Q3 & Q4 & Q5 & Q6). exists i', j', xt', xs'. split; [done|]. split; [done|].
    rewrite !lookup_delete_ne; [by split_and!; [|apply Hk| |apply Hk]|intros <-..].
    + pose proof (Hd _ _ _ _ _ F2 L2 Q5 Q6). congruence.
    + pose proof (Hd _ _ _ _ _ F1 L1 Q5 Q6). congruence.
    + pose proof (Hd _ _ _ _ _ F2 L2 Q3 Q4). congruence.
    + pose proof (Hd _ _ _ _ _ F1 L1 Q3 Q4). congruence.
  - rewrite Ei. intros kva o0 Ho0. destruct (I5 kva o0 Ho0) as (i' & x & Ek & Q1 & Q2). exists i', x. split; [done|].
    rewrite !lookup_delete_ne; [by split; [|apply Hk]|intros <-..].
    + pose proof (Hd _ _ _ _ _ F2 L2 Q1 Q2). congruence.
    + pose proof (Hd _ _ _ _ _ F1 L1 Q1 Q2). congruence.
Qed.

Lemma pool_pages (k1 : Kernel) : b = KSched.Pool st -> k_mem k1 = k_mem (w_k w) -> exists xs xt q,
  (q ← @free_kernel_pages KMem (kframes cfg) (pool_of (set_k w k1)) st 1; @free_kernel_pages KMem (kframes cfg) q t 1) = Ret q /\
  pages_gone xs xt (p_frames q) (mkPool (p_list q) (p_l1 q) (p_initialized q) (p_mem q) tt).
Proof using Hcfg W Hi Hst.
  intros Eb Ek. assert (Hin : Some t ∈ k_threads (w_k w)) by (by eapply list_elem_of_lookup_2). pose proof Hst as Hst'. rewrite Eb in Hst'. pose proof (wk_pool _ _ _ _ _ _ _ _ W) as Hu. unfold pool_use in Hu.
  destruct (p_initialized (w_pool w)) eqn:Einit; [|by destruct (proj2 Hu t st Hin Hst')]. destruct Hu as (F & PI). pose proof PI as [(out & Ok) _ I3 I4 _].
  destruct (I4 t st Hin Hst') as (i1 & i2 & xt & xs & Et & Es & F1 & L1 & F2 & L2). destruct (I3 _ _ F1) as [R1 _]. destruct (I3 _ _ F2) as [R2 _].
  pose proof (wk_held _ _ _ _ _ _ _ _ W _ _ L1) as G1. pose proof (wk_held _ _ _ _ _ _ _ _ W _ _ L2) as G2.
  assert (Hne : i1 <> i2) by (intros ->; rewrite F1 in F2; injection F2 as ->%addr_of_inj; congruence).
  destruct (free_pool_page cfg Hcfg G D oB oD out (p_l1 (w_pool w)) (pool_of (set_k w k1)) F i2 xs) as (q1 & E1 & Ok1 & J1 & Fr1); [|by destruct Ok|done|done|done|].
  { cbn. rewrite Ek. apply (ok_mem _ _ _ _ _ _ _ (wk_sys _ _ _ _ _ _ _ _ W)). }
  destruct (free_pool_page cfg Hcfg _ D oB oD out (p_l1 (w_pool w)) q1 _ i1 xt J1 Ok1 R1) as (q2 & E2 & Ok2 & J2 & Fr2).
  { by rewrite lookup_delete_ne by done. }
  { apply elem_of_difference. split; [done|]. intros ->%elem_of_singleton. congruence. }
  exists xs, xt, q2. rewrite <- Es in E1. rewrite E1, bind_Ret. rewrite <- Et in E2. split; [done|].
  assert (Hbeh : forall kva i0 x, kva = va_of i0 -> 0 <= i0 < POOL_PAGES -> F !! i0 = Some (addr_of cfg x) -> x ∈ G -> forall idx, idx ∈ G -> behind kva idx <-> idx = x).
  { intros kva i0 x -> Hr HF Hx idx Hidx. unfold behind. rewrite Eb. pose proof (po_maps _ _ _ _ Ok i0 Hr) as HM. rewrite HF in HM. split.
    - intros (j & _ & Ej & Er). assert (j = i0) as -> by (unfold va_of in Ej; lia). apply kernel_page_inj; [done|done|]. rewrite <- Er. exact HM.
    - intros ->. exists i0. done. }
  constructor; [split; [done|by eapply Hbeh]|split; [done|by eapply Hbeh]|done|cbn in Fr1; rewrite Ek in Fr1; by eapply frames_trans|].
  intros own' w' Ep Eth Est Ei Hk. unfold pool_use. rewrite Ep. cbn [p_initialized]. rewrite (po_init _ _ _ _ Ok2). eexists. eapply pool_thread_gone; [done|done|done|done|done|done|done|done| |done|done|done|done].
  unfold pool_of. rewrite Ep. destruct Ok2. constructor; done.
Qed.

(** What finish_exit does first. *)
Lemma thread_pages : exists xs xt s pl, pages_gone xs xt s pl /\
  forall k1, k_mem k1 = k_mem (w_k w) ->
  match b with
  | Image _ => Panic PAssert
  | KSched.Pool stack_kva =>
      q ← @free_kernel_pages KMem (kframes cfg) (pool_of (set_k w k1)) stack_kva 1;
      q ← @free_kernel_pages KMem (kframes cfg) q t 1;
      Ret (set_pool (set_k w k1) q)
  | DirectMap stack_kva =>
      s ← dealloc_kva cfg stack_kva (k_mem (w_k (set_k w k1)));
      s ← dealloc_kva cfg t s;
      Ret (set_k (set_k w k1) (with_mem (w_k (set_k w k1)) s))
  end = Ret (mkWorld (with_mem k1 s) (w_objs w) (w_stacks w) pl (w_ipc w) (w_starts w)).
Proof using Hcfg Hdm W Hi Hst Hb.
  destruct Hb as [Eb|Eb].
  - destruct (direct_pages Eb) as (xs & xt & s & E & P). exists xs, xt, s, (w_pool w). split; [done|]. intros k1 Ek. cbn [set_k w_k]. rewrite Eb, Ek.
    destruct (dealloc_kva cfg st (k_mem (w_k w))) as [s0|] eqn:E0; [|done]. rewrite bind_Ret in E. by rewrite bind_Ret, E, bind_Ret.
  - destruct (pool_pages (w_k w) Eb eq_refl) as (xs & xt & q & E & P). eexists xs, xt, _, _. split; [exact P|]. intros k1 Ek. rewrite Eb.
    assert (pool_of (set_k w k1) = pool_of (set_k w (w_k w))) as -> by (unfold pool_of; cbn [w_pool w_k set_k]; by rewrite Ek).
    destruct (free_kernel_pages (pool_of (set_k w (w_k w))) st 1) as [q0|] eqn:E0; [|done]. rewrite bind_Ret in E. by rewrite bind_Ret, E, bind_Ret.
Qed.

(** What finish_exit leaves when the process stays. *)
Lemma exit_some xs xt s pl : pages_gone xs xt s pl -> last_thread = false -> po_threads o = threads_of (w_k w) p ->
  let w' := mkWorld (with_mem (with_threads (w_k w) without_thread (k_tcb_process (w_k w))) s)
    (<[p := mkPObj (po_ht o) (po_threads o - 1) (po_immortal o) (po_owned o)]> (w_objs w)) (w_stacks w) pl (w_ipc w) (w_starts w) in
  world_ok cfg (own_in ((G ∖ {[xs]}) ∖ {[xt]})) ((G ∖ {[xs]}) ∖ {[xt]}) D oB oD S w' /\ exited w' ((G ∖ {[xs]}) ∖ {[xt]}) oB S.
Proof using All.
  intros [[Ls Bs] [Lt Bt] I F Hpool] Hl Hcnt w'. set (G' := (G ∖ {[xs]}) ∖ {[xt]}) in *.
  assert (HG' : forall idx, idx ∈ G' <-> idx ∈ G /\ idx <> xs /\ idx <> xt) by (intros idx; unfold G'; rewrite !elem_of_difference, !elem_of_singleton; tauto).
  assert (Hn : 1 < threads_of (w_k w) p).
  { pose proof (threads_left (with_threads (w_k w) without_thread (k_tcb_process (w_k w))) p eq_refl eq_refl) as Hc. rewrite decide_True in Hc by done.
    assert (0 <= threads_of (with_threads (w_k w) without_thread (k_tcb_process (w_k w))) p) by (unfold threads_of; lia).
    unfold last_thread in Hl. destruct (po_immortal o); cbn [negb andb] in Hl; [specialize (Himm eq_refl)|apply Z.eqb_neq in Hl]; lia. }
  assert (Htab : tables_held (set_map (frame_of cfg) G') S).
  { apply tables_kept; [done|]. intros idx r a Hr Hq Hin. apply HG'. pose proof (wk_tables _ _ _ _ _ _ _ _ W r a _ idx Hr Hq eq_refl) as Hnone. split; [done|].
    split; intros ->; congruence. }
  pose proof (exit_some_ok G' s Hn I F Htab) as K'. split.
  - apply (exit_world w' o G' D oB oD S K'); try done; [|by apply Hpool]. intros idx l Hl' Hs. apply HG'. split; [by eapply wk_held|]. split; intros ->; rewrite Hl' in *.
    + injection Ls as ->. by apply Hs.
    + injection Lt as ->. by apply Hs.
  - constructor; try done; try (by rewrite Hl).
    + intros idx. rewrite HG'. unfold given_back. rewrite Hl. split; intros [H1 H2]; (split; [done|]); rewrite (Bs idx H1), (Bt idx H1) in *; [|tauto].
      intros [?|[?|[E _]]]; [tauto|tauto|done].
    + eapply dropped_frames; [apply dropped_refl|done|]. apply F.
Qed.

(** What it leaves when the process goes too. *)
Lemma exit_last xs xt s pl : pages_gone xs xt s pl -> last_thread = true -> po_threads o = threads_of (w_k w) p -> mortal cfg own p pr o ->
  exists k' G' oB' oD', let o' := mkPObj (po_ht o) (po_threads o - 1) (po_immortal o) (po_owned o) in
    let w' := mkWorld k' (<[p := o']> (w_objs w)) (w_stacks w) pl (w_ipc w) (w_starts w) in
    teardown_process cfg (with_mem (with_threads (w_k w) without_thread (k_tcb_process (w_k w))) s) o' p = Ret k' /\
    world_ok cfg (own_in G') G' D oB' oD' (delete (p_ttbr0 pr) S) w' /\ exited w' G' oB' (delete (p_ttbr0 pr) S).
Proof using All.
  intros [[Ls Bs] [Lt Bt] I F Hpool] Hl Hcnt [Hr (xp & Exp & Lp) (xh & Exh & Lh) [Hnd HL0]]. pose proof (wk_sys _ _ _ _ _ _ _ _ W) as K.
  destruct (list_preimage (addr_of cfg) (fun x => own x = Some (OData p)) (po_owned o) HL0) as (L & EL & HL). destruct (ok_root _ _ _ _ _ _ _ K p pr Hp) as [|[a Ha]]; [done|].
  assert (Hlab : forall x, x ∈ xp :: xh :: L -> own x = Some (OProc p) \/ own x = Some (OHandles p) \/ own x = Some (OData p)).
  { intros x [->|[->|Hx]%elem_of_cons]%elem_of_cons; [tauto|tauto|]. right. right. by apply HL. }
  assert (HndL : NoDup (xp :: xh :: L)).
  { rewrite EL in Hnd. apply NoDup_fmap_1 in Hnd. rewrite !NoDup_cons, not_elem_of_cons. split; [split; [intros ->; congruence|intros Hx%HL; congruence]|]. split; [intros Hx%HL; congruence|done]. }
  assert (Hpg : forall q, as_page (p_ttbr0 pr) a q -> exists idx, idx ∈ (G ∖ {[xs]}) ∖ {[xt]} /\ q = addr_of cfg idx /\ idx ∉ xp :: xh :: L).
  { intros q Hq. destruct (table_page _ _ _ _ _ _ _ _ _ _ Hcfg K Ha Hq) as (idx & Hin & ->). pose proof (wk_tables _ _ _ _ _ _ _ _ W _ a _ idx Ha Hq eq_refl) as Hnone.
    exists idx. rewrite !elem_of_difference, !elem_of_singleton. split; [split; [split; [done|]|]; intros ->; congruence|]. split; [done|].
    intros Hx%Hlab. rewrite Hnone in Hx. by destruct Hx as [|[|]]. }
  destruct (teardown_spec cfg Hcfg Hdm _ D oB oD (with_mem (with_threads (w_k w) without_thread (k_tcb_process (w_k w))) s)
    (acct_frames cfg _ _ _ _ _ _ _ _ (sys_acct _ _ _ _ _ _ _ K) I F) p pr Hp (mkPObj (po_ht o) (po_threads o - 1) (po_immortal o) (po_owned o)) a Hr
    (ok_slots _ _ _ _ _ _ _ K p pr Hp) (so_as _ _ (ok_spaces _ _ _ _ _ _ _ K) _ a Ha) xp xh L Exp Exh EL HndL) as (s' & oB' & oD' & G' & E & A' & Dr & HG'); [|done|].
  { intros x Hx. rewrite !elem_of_difference, !elem_of_singleton. pose proof (Hlab x Hx) as Hlx. split; [split|]; [|intros ->; rewrite Ls in Hlx|intros ->; rewrite Lt in Hlx]; destruct Hlx as [Hlx|[Hlx|Hlx]]; try done; by eapply wk_held. }
  assert (HG2 : forall idx, idx ∈ G' <-> idx ∈ G /\ idx <> xs /\ idx <> xt /\ idx ∉ xp :: xh :: L /\ ~ as_page (p_ttbr0 pr) a (addr_of cfg idx)).
  { intros idx. rewrite HG', !elem_of_difference, !elem_of_singleton. tauto. }
  assert (Htab : tables_held (set_map (frame_of cfg) G') (delete (p_ttbr0 pr) S)).
  { apply tables_kept; [by intros r b0 [_ ?]%lookup_delete_Some|]. intros idx r b0 [Hne Hb0]%lookup_delete_Some Hq Hin. apply HG2.
    pose proof (wk_tables _ _ _ _ _ _ _ _ W r b0 _ idx Hb0 Hq eq_refl) as Hnone. split; [done|]. split; [intros ->; congruence|]. split; [intros ->; congruence|].
    split; [intros Hx%Hlab; rewrite Hnone in Hx; by destruct Hx as [|[|]]|]. intros Hq'. apply Hne. by apply (so_sep _ _ (ok_spaces _ _ _ _ _ _ _ K) _ _ a b0 (addr_of cfg idx)). }
  assert (Hn : threads_of (w_k w) p = 1) by (unfold last_thread in Hl; apply andb_true_iff in Hl as [_ Hl%Z.eqb_eq]; lia).
  destruct (exit_last_ok G' oB' oD' s' _ Hn Hr A' Htab) as [K' Hsum].
  set (k' := with_procs (with_mem (with_threads (w_k w) without_thread (k_tcb_process (w_k w))) s') (delete p (k_procs (w_k w)))) in *.
  exists k', G', oB', oD'. cbn zeta. split; [exact E|]. set (w' := mkWorld k' _ _ _ _ _). split.
  - apply (exit_world w' o G' D oB' oD' _ K'); try done; [| | |by apply Hpool].
    + intros q qr Hq. change (delete p (k_procs (w_k w)) !! q = Some qr) in Hq. by apply lookup_delete_Some in Hq as [_ ?].
    + by intros r b0 [_ ?]%lookup_delete_Some.
    + intros idx l Hl' Hs. assert (Hlive : ~ is_Some (k_procs k' !! p)) by (intros [y Hy]; change (delete p (k_procs (w_k w)) !! p = Some y) in Hy; by apply lookup_delete_Some in Hy as [? _]).
      apply HG2. split; [by eapply wk_held|]. split; [intros ->; rewrite Ls in Hl'; injection Hl' as <-; by apply Hs|].
      split; [intros ->; rewrite Lt in Hl'; injection Hl' as <-; by apply Hs|]. split.
      * intros Hx%Hlab. destruct Hx as [Hx|[Hx|Hx]]; rewrite Hx in Hl'; injection Hl' as <-; by apply Hlive.
      * intros Hq. pose proof (wk_tables _ _ _ _ _ _ _ _ W _ a _ idx Ha Hq eq_refl). congruence.
  - constructor; try done; try (by rewrite Hl).
    + intros idx. rewrite HG2. unfold given_back. rewrite EL, Exp, Exh, !not_elem_of_cons. split; intros [H1 H2]; (split; [done|]); rewrite (Bs idx H1), (Bt idx H1) in *.
      * intros [?|[?|[_ [->%kva_of_inj|[->%kva_of_inj|[Hx|(b0 & Hb0 & Hq)]]]]]]; [tauto|tauto|tauto|tauto| |].
        -- apply list_elem_of_fmap in Hx as (y & ->%addr_of_inj & Hy). tauto.
        -- rewrite Ha in Hb0. injection Hb0 as <-. tauto.
      * split; [intros ->; tauto|]. split; [intros ->; tauto|]. split.
        -- split; [intros ->; tauto|]. split; [intros ->; tauto|]. intros Hx. apply H2. right. right. split; [done|]. right. right. left. by apply list_elem_of_fmap_2.
        -- intros Hq. apply H2. right. right. split; [done|]. right. right. right. by exists a.
    + destruct Dr as [R1 R2 R3]. destruct F as (_ & _ & _ & F4). constructor; cbn [w' k' w_k with_procs with_mem with_threads k_procs k_mem] in *.
      * intros j e. rewrite R1, F4, Hsum. done.
      * done.
      * intros x. specialize (R3 x). by rewrite Hsum in R3.
Qed.

Lemma thread_exit_spec : exists w' G' oB' oD' S', finish_exit cfg w i t = Ret w' /\ world_ok cfg (own_in G') G' D oB' oD' S' w' /\ exited w' G' oB' S'.
Proof using All.
  destruct thread_pages as (xs & xt & s1 & pl & Pg & E1). pose proof (wk_sys _ _ _ _ _ _ _ _ W) as K.
  destruct (wk_objs _ _ _ _ _ _ _ _ W p pr Hp) as (o0 & Ho' & Hcnt & Hm). rewrite Ho in Ho'. injection Ho' as <-.
  pose proof (threads_left (with_threads (w_k w) without_thread (k_tcb_process (w_k w))) p eq_refl eq_refl) as Hc. rewrite decide_True in Hc by done.
  assert (Hc0 : 0 <= threads_of (with_threads (w_k w) without_thread (k_tcb_process (w_k w))) p) by (unfold threads_of; lia).
  unfold finish_exit. rewrite Hst, Ht. cbn [unwrap]. rewrite !bind_Ret. fold without_thread.
  rewrite (E1 (with_threads (w_k w) without_thread (k_tcb_process (w_k w))) eq_refl), bind_Ret. cbn [w_objs]. rewrite Ho.
  cbn [unwrap]. rewrite bind_Ret. unfold on_thread_exit. rewrite (proj2 (Z.ltb_lt _ _)) by lia. cbn [assert]. rewrite !bind_Ret.
  destruct last_thread eqn:Hl.
  2:{ destruct (exit_some xs xt s1 pl Pg Hl Hcnt) as [W' X']. eexists _, _, _, _, _. split; [|split; [exact W'|exact X']].
      unfold last_thread in Hl. destruct (po_immortal o); cbn [negb andb] in Hl; [done|]. apply Z.eqb_neq in Hl. rewrite (proj2 (Z.eqb_neq _ _)) by lia. done. }
  pose proof Hl as Hl'. unfold last_thread in Hl'. apply andb_true_iff in Hl' as [Him%negb_true_iff H1%Z.eqb_eq]. rewrite Him, (proj2 (Z.eqb_eq (po_threads o - 1) 0)) by lia.
  destruct (exit_last xs xt s1 pl Pg Hl Hcnt (Hm Him)) as (k' & G' & oB' & oD' & E & W' & X'). cbn zeta in *.
  assert (Hz : po_threads o - 1 = 0) by lia. rewrite Hz, Him in E, W', X'. eexists _, G', oB', oD', _. split; [|split; [exact W'|exact X']].
  cbn [set_objs set_k w_k]. rewrite E, bind_Ret. done.
Qed.
End Exit.
