(* ===== verification/KernelObjects.v ===== *)
(** Kernel objects on donated pages: donate_one_kernel_page and
    create_kernel_object_kvm of src/syscall/handler.rs, the factories of
    src/ipc/endpoint.rs, notification.rs and reply.rs, create_tcb of
    src/sched/tcb.rs, and the calls sys_create_endpoint,
    sys_create_notification, sys_create_reply and sys_create_thread. *)
From Stdlib Require Import ZArith Lia.
From stdpp Require Import base option gmap numbers sets fin_sets list.
From S2P Require Import Ipc IpcState KSched DmaSync Prelude Frames Buddy BuddyInv Pools FrameAlloc PageSet Ownership KPageSet HeaderFrame PageTable Vmem Kvm KvmPool Handles Revoke SysPages AddrSpace Process.
Open Scope Z_scope.

Inductive CreateError := CreateInvalidParameter.

(** What an init function writes: the world with the object on the page at
    [kva], or its error. *)
Definition InitFn : Type := World -> Z -> outcome (result World CreateError).

(** * The factories *)

Definition put_ipc (w : World) (kva : Z) (o : IpcObject) : World := mkWorld (w_k w) (w_objs w) (w_stacks w) (w_pool w) (<[kva := o]> (w_ipc w)) (w_starts w).

(** A new endpoint mints its tokens from 1. *)
Definition init_endpoint : InitFn := fun w kva =>
  Ret (Ok (put_ipc (set_k w (with_tokens (w_k w) (<[kva := 1]> (k_next_token (w_k w))))) kva (IEndpoint create_endpoint))).

Definition init_notification : InitFn := fun w kva => Ret (Ok (put_ipc w kva (INotification create_notification))).

Definition init_reply : InitFn := fun w kva => Ret (Ok (put_ipc w kva (IReply create_reply))).

(** The stack of sys_create_thread: the page becomes the stack as it is. *)
Definition init_none : InitFn := fun w _ => Ret (Ok w).

(** What create_tcb is told (the name, a label for messages, is left out). *)
Record TcbCreateInfo := mkInfo { ti_stack : KernelStackBase; ti_process_kva : Z; ti_entry_point : Z; ti_stack_top : Z; ti_stack_base : Z; ti_arg : Z }.

(** create_tcb: the TCB with its process, its stack and where it starts. *)
Definition create_tcb (info : TcbCreateInfo) : InitFn := fun w base_kva =>
  pr ← unwrap (k_procs (w_k w) !! ti_process_kva info);
  if p_ttbr0 pr =? 0 then Ret (Err CreateInvalidParameter) else
  match ti_stack info with
  | Image _ => Ret (Err CreateInvalidParameter)
  | KSched.Pool stack_kva | DirectMap stack_kva =>
      start ← tcb_start stack_kva (ti_entry_point info) (ti_stack_top info) (ti_stack_base info) (ti_arg info);
      Ret (Ok (mkWorld (with_threads (w_k w) (k_threads (w_k w)) (<[base_kva := ti_process_kva info]> (k_tcb_process (w_k w))))
        (w_objs w) (<[base_kva := ti_stack info]> (w_stacks w)) (w_pool w) (w_ipc w) (<[base_kva := start]> (w_starts w))))
  end.

(** * Donation *)
Section Donation.
Context (cfg : Config).

(** The page of a one-page PageSet, mapped in the pool and taken from the
    caller. The mapping is undone when [init_fn] fails. *)
Definition donate_one_kernel_page (w : World) (p ps_handle : Z) (init_fn : InitFn) : outcome (result Z SyscallError * World) :=
  r ← validate_buddy_pageset (w_k w) p ps_handle 1 1;
  match r with
  | Err e => Ret (Err e, w)
  | Ok (header_kva, _) =>
      page ← ps_page (k_mem (w_k w)) header_kva 0;
      match page with
      | None => Ret (Err INVALID_HANDLE, w)
      | Some page_paddr =>
          v ← consume_pageset_validate (w_k w) header_kva;
          match v with
          | Err _ => Ret (Err INVALID_HANDLE, w)
          | Ok _ =>
              m ← @map_existing KMem (kframes cfg) (pool_of w) (containing_page page_paddr);
              let w1 := set_pool w m.2 in
              match m.1 with
              | Err _ => Ret (Err OUT_OF_MEMORY, w1)
              | Ok kva =>
                  i ← init_fn w1 kva;
                  match i with
                  | Err _ => q ← @unmap_existing KMem (kframes cfg) (pool_of w1) kva 1; Ret (Err UNKNOWN, set_pool w1 q)
                  | Ok w2 => k ← consume_pageset_apply cfg (w_k w2) header_kva; Ret (Ok kva, set_k w2 k)
                  end
              end
          end
      end
  end.

Definition create_kernel_object_kvm (w : World) (p ps_handle : Z) (make_kind : Z -> HandleKind) (init_fn : InitFn) : outcome (result Z SyscallError * World) :=
  d ← donate_one_kernel_page w p ps_handle init_fn;
  match d with
  | (Err e, w1) => Ret (Err e, w1)
  | (Ok kva, w1) =>
      pr ← unwrap (k_procs (w_k w1) !! p);
      match ht_insert (p_table pr) RIGHTS_RW (make_kind kva) with
      | (Ok h, slots) => Ret (Ok h, set_k w1 (with_slots (w_k w1) p pr slots))
      | (Err e, _) => q ← @unmap_existing KMem (kframes cfg) (pool_of w1) kva 1; Ret (Err e, set_pool w1 q)
      end
  end.

Definition sys_create_endpoint (w : World) (p gpr0 : Z) : outcome (result Z SyscallError * World) :=
  create_kernel_object_kvm w p (wrap 32 gpr0) (fun kva => HEndpoint kva None) init_endpoint.

Definition sys_create_notification (w : World) (p gpr0 : Z) : outcome (result Z SyscallError * World) :=
  create_kernel_object_kvm w p (wrap 32 gpr0) HNotification init_notification.

Definition sys_create_reply (w : World) (p gpr0 : Z) : outcome (result Z SyscallError * World) :=
  create_kernel_object_kvm w p (wrap 32 gpr0) HReply init_reply.

(** * Threads *)

(** The registers of sys_create_thread. *)
Record ThreadArgs := mkTArgs { t_entry : Z; t_stack_top : Z; t_stack_base : Z; t_arg : Z; t_stack_pageset : Z; t_tcb_pageset : Z }.

Definition thread_args_ok (a : ThreadArgs) : bool :=
  negb ((USER_VA_END <=? t_entry a) || (USER_VA_END <=? t_stack_top a) || (USER_VA_END <=? t_stack_base a)) &&
  negb (t_stack_top a <=? t_stack_base a) && (Z.land (t_stack_top a) 0xF =? 0).

Definition thread_info (p : Z) (a : ThreadArgs) (stack_kva : Z) : TcbCreateInfo :=
  mkInfo (KSched.Pool stack_kva) p (t_entry a) (t_stack_top a) (t_stack_base a) (t_arg a).

Definition process_inc_thread_count (w : World) (p : Z) : outcome World :=
  o ← unwrap (w_objs w !! p);
  n ← on_thread_create (po_threads o);
  Ret (set_objs w (<[p := mkPObj (po_ht o) n (po_immortal o) (po_owned o)]> (w_objs w))).

(** For a thread of process [p]. *)
Definition sys_create_thread (w : World) (p : Z) (a : ThreadArgs) : outcome (SyscallError * World) :=
  if negb (thread_args_ok a) then Ret (INVALID_PARAMETER, w) else
  if negb (has_room (w_k w)) then Ret (QUEUE_FULL, w) else
  s ← donate_one_kernel_page w p (wrap 32 (t_stack_pageset a)) init_none;
  match s with
  | (Err e, w1) => Ret (e, w1)
  | (Ok stack_kva, w1) =>
      t ← donate_one_kernel_page w1 p (wrap 32 (t_tcb_pageset a)) (create_tcb (thread_info p a stack_kva));
      match t with
      | (Err e, w2) => Ret (e, w2)
      | (Ok tcb_kva, w2) =>
          w3 ← process_inc_thread_count w2 p;
          let '(added, k) := sched_add_thread (w_k w3) tcb_kva in
          assert added ;;
          Ret (OK, set_k w3 k)
      end
  end.
End Donation.
