(* ===== verification/ObjSafe.v ===== *)
(** Kernel objects on donated pages are safe: a donation moves one page from the
    caller's PageSet to the kernel and maps it at a fresh address of the pool, or
    changes nothing the caller can see; the world's ownership, its pool and its
    handles stay right through the creation of objects and of threads. *)
From Stdlib Require Import ZArith Lia.
From stdpp Require Import base option gmap numbers sets fin_sets list.
From S2P Require Import Ipc IpcState KSched DmaSync Prelude Frames Buddy BuddyInv Pools FrameAlloc PageSet Ownership KPageSet HeaderFrame PageTable Vmem Kvm KvmPool Handles Revoke SysPages SysSafe AddrSpace Process ProcSpec ProcSafe ProcExit KernelObjects.
Open Scope Z_scope.

Lemma procs_of_ext tp tp' l : (forall t, Some t ∈ l -> tp' !! t = tp !! t) -> procs_of tp' l = procs_of tp l.
Proof.
  unfold procs_of. induction l as [|[t|] l IH]; intros H; cbn; [done| |].
  - rewrite (H t) by (by left). destruct (tp !! t); cbn; [f_equal|]; apply IH; intros t' Ht'; apply H; by right.
  - apply IH. intros t' Ht'. apply H. by right.
Qed.

(** What an init function may write: the TCB, token counter and object at [kva]. *)
Record init_writes (kva : Z) (w w' : World) : Prop := {
  iw_k : k_mem (w_k w') = k_mem (w_k w) /\ k_pt (w_k w') = k_pt (w_k w) /\ k_procs (w_k w') = k_procs (w_k w) /\ k_threads (w_k w') = k_threads (w_k w);
  iw_tcb : forall t, t <> kva -> k_tcb_process (w_k w') !! t = k_tcb_process (w_k w) !! t;
  iw_token : forall x, x <> kva -> next_token_of (w_k w') x = next_token_of (w_k w) x;
  iw_token1 : 1 <= next_token_of (w_k w) kva -> 1 <= next_token_of (w_k w') kva;
  iw_objs : w_objs w' = w_objs w;
  iw_stacks : forall t, t <> kva -> w_stacks w' !! t = w_stacks w !! t;
  iw_pool : w_pool w' = w_pool w;
  iw_ipc : forall x, x <> kva -> w_ipc w' !! x = w_ipc w !! x;
  iw_starts : forall t, t <> kva -> w_starts w' !! t = w_starts w !! t;
}.

Lemma endpoint_writes w kva w' : init_endpoint w kva = Ret (Ok w') -> init_writes kva w w' /\ w_ipc w' !! kva = Some (IEndpoint create_endpoint) /\
  next_token_of (w_k w') kva = 1.
Proof.
  intros [= <-]. split; [|split; [cbn; by rewrite lookup_insert_eq|unfold next_token_of; cbn; by rewrite lookup_insert_eq]].
  constructor; try done; cbn.
  - intros x Hx. unfold next_token_of. cbn. by rewrite lookup_insert_ne.
  - intros _. unfold next_token_of. cbn. by rewrite lookup_insert_eq.
  - intros x Hx. by rewrite lookup_insert_ne.
Qed.

Lemma notification_writes w kva w' : init_notification w kva = Ret (Ok w') -> init_writes kva w w' /\ w_ipc w' !! kva = Some (INotification create_notification).
Proof. intros [= <-]. split; [|cbn; by rewrite lookup_insert_eq]. constructor; try done. intros x Hx. cbn. by rewrite lookup_insert_ne. Qed.

Lemma reply_writes w kva w' : init_reply w kva = Ret (Ok w') -> init_writes kva w w' /\ w_ipc w' !! kva = Some (IReply create_reply).
Proof. intros [= <-]. split; [|cbn; by rewrite lookup_insert_eq]. constructor; try done. intros x Hx. cbn. by rewrite lookup_insert_ne. Qed.

Lemma none_writes w kva w' : init_none w kva = Ret (Ok w') -> init_writes kva w w' /\ w' = w.
Proof. intros [= <-]. split; [|done]. by constructor. Qed.

Lemma tcb_writes s p a w kva w' : 0 <= s -> s + PAGE_SIZE < 2 ^ 64 -> create_tcb (thread_info p a s) w kva = Ret (Ok w') -> init_writes kva w w' /\ w_ipc w' = w_ipc w /\
  k_tcb_process (w_k w') !! kva = Some p /\ w_stacks w' !! kva = Some (KSched.Pool s) /\
  w_starts w' !! kva = Some (start_at s (t_entry a) (t_stack_top a) (t_stack_base a) (t_arg a)) /\ exists pr, k_procs (w_k w) !! p = Some pr /\ p_ttbr0 pr <> 0.
Proof.
  intros H0 H1. unfold create_tcb. cbn [thread_info ti_process_kva ti_stack ti_entry_point ti_stack_top ti_stack_base ti_arg].
  destruct (k_procs (w_k w) !! p) as [pr|]; [|done]. cbn [unwrap]. rewrite bind_Ret. destruct (Z.eqb_spec (p_ttbr0 pr) 0) as [|Hne]; [done|].
  rewrite tcb_start_spec, bind_Ret by done. intros [= <-].
  split; [|split_and!; [done|cbn; by rewrite lookup_insert_eq..|by exists pr]]. constructor; try done; intros t Ht; cbn; by rewrite lookup_insert_ne.
Qed.

(** It returns, and fails for a kernel process only. *)
Lemma tcb_returns s p a w kva pr : 0 <= s -> s + PAGE_SIZE < 2 ^ 64 -> k_procs (w_k w) !! p = Some pr ->
  exists r, create_tcb (thread_info p a s) w kva = Ret r /\ forall e, r = Err e -> p_ttbr0 pr = 0.
Proof.
  intros H0 H1 Hp. unfold create_tcb. cbn [thread_info ti_process_kva ti_stack ti_entry_point ti_stack_top ti_stack_base ti_arg]. rewrite Hp. cbn [unwrap]. rewrite bind_Ret.
  destruct (Z.eqb_spec (p_ttbr0 pr) 0) as [|Hne]; [by eexists|]. rewrite tcb_start_spec, bind_Ret by done. by eexists.
Qed.

Section Adopt.
Context (cfg : Config) (Hcfg : config_ok cfg) (Hdm : direct_map_ok cfg).
Context (own : Z -> option Owner) (G D : gset Z) (oB oD : nat -> list Z) (S : gmap Z AS) (w : World) (W : world_ok cfg own G D oB oD S w).
Context (F : gmap Z Z) (PI : pool_inv cfg own w F).

Lemma in_range idx : idx ∈ G -> 0 <= idx < total_pages (plat cfg).
Proof using W. intros Hi. by apply (pt_G _ _ _ _ (iv_B _ _ _ _ _ _ _ (ok_mem _ _ _ _ _ _ _ (wk_sys _ _ _ _ _ _ _ _ W)))). Qed.

(** Nothing is at a page of the pool that is not mapped. *)
Lemma fresh_page i : 0 <= i -> F !! i = None -> Some (va_of i) ∉ k_threads (w_k w) /\ w_ipc w !! va_of i = None.
Proof using Hcfg Hdm W PI.
  intros Hi HF. assert (Hva : forall j, va_of i = va_of j -> i = j) by (intros j; unfold va_of; lia). split.
  - intros Ht. destruct (wk_stacks _ _ _ _ _ _ _ _ W _ Ht) as (b & Hb & H1 & H2). destruct b as [va|s|s].
    + specialize (H2 va eq_refl). unfold va_of in H2. lia.
    + destruct (pi_threads _ _ _ _ PI _ _ Ht Hb) as (i1 & i2 & xt & xs & <-%Hva & _ & HF' & _). congruence.
    + destruct (H1 s eq_refl) as [(xt & Et & Lt) _]. pose proof (kva_of_range cfg Hcfg Hdm xt (in_range xt (wk_held _ _ _ _ _ _ _ _ W _ _ Lt))) as R.
      rewrite <- Et in R. unfold va_of in R. lia.
  - destruct (w_ipc w !! va_of i) as [o|] eqn:E; [|done]. destruct (pi_objs _ _ _ _ PI _ _ E) as (j & x & <-%Hva & Hj & _). congruence.
Qed.

(** Another pool with the same mappings. *)
Lemma pool_world out q : pool_ok out (p_l1 (w_pool w)) q F -> p_frames q = k_mem (w_k w) ->
  world_ok cfg own G D oB oD S (set_pool w q) /\ w_k (set_pool w q) = w_k w /\ pool_inv cfg own (set_pool w q) F /\ p_initialized (w_pool (set_pool w q)) = true.
Proof using W PI.
  intros Ok Ef. assert (Ek : w_k (set_pool w q) = w_k w) by (unfold set_pool; cbn; rewrite Ef; by destruct (w_k w)).
  assert (El : p_l1 q = p_l1 (w_pool w)) by apply (po_root _ _ _ _ Ok).
  assert (PI' : pool_inv cfg own (set_pool w q) F).
  { destruct PI as [_ I2 I3 I4 I5]. constructor; rewrite ?Ek; try done.
    - exists out. destruct Ok. by constructor.
    - cbn [set_pool w_pool p_l1]. by rewrite El. }
  assert (Ei : p_initialized (w_pool (set_pool w q)) = true) by apply (po_init _ _ _ _ Ok). split; [|done].
  destruct W. constructor; rewrite ?Ek; try done. unfold pool_use. rewrite Ei. by exists F.
Qed.

Definition own_add (x i idx : Z) : option Owner := if decide (idx = x) then Some (OObj (va_of i)) else own idx.

Lemma own_add_old x i idx l : x ∉ G -> own idx = Some l -> own_add x i idx = Some l.
Proof using W. intros Hx Hl. unfold own_add. rewrite decide_False; [done|]. intros ->. apply Hx. by eapply wk_held. Qed.

(** The pool with one more page, which has the object at its address. *)
Lemma adopt_pool x i out (q : KvmPool.Pool KMem) w' : x ∉ G -> 0 <= i < POOL_PAGES -> F !! i = None -> pool_ok out (p_l1 (w_pool w)) q (<[i := addr_of cfg x]> F) ->
  w_pool w' = mkPool (p_list q) (p_l1 q) (p_initialized q) (p_mem q) tt -> k_threads (w_k w') = k_threads (w_k w) ->
  (forall t, t <> va_of i -> w_stacks w' !! t = w_stacks w !! t) -> (forall y, y <> va_of i -> w_ipc w' !! y = w_ipc w !! y) ->
  pool_inv cfg (own_add x i) w' (<[i := addr_of cfg x]> F).
Proof using Hcfg Hdm W PI.
  intros Hx Hi HF Ok Ep Eth Est Eip. destruct (fresh_page i (proj1 Hi) HF) as [Ht _]. pose proof PI as [_ I2 I3 I4 I5].
  assert (El : p_l1 (w_pool w') = p_l1 (w_pool w)) by (rewrite Ep; apply (po_root _ _ _ _ Ok)).
  assert (Hst : forall t, Some t ∈ k_threads (w_k w) -> w_stacks w' !! t = w_stacks w !! t) by (intros t Hin; apply Est; by intros ->).
  assert (HFi : forall j a, F !! j = Some a -> (<[i := addr_of cfg x]> F) !! j = Some a) by (intros j a Hj; rewrite lookup_insert_ne; [done|]; intros ->; congruence).
  constructor; rewrite ?Eth, ?El.
  - exists out. unfold pool_of. rewrite Ep. destruct Ok. by constructor.
  - intros n Hn. destruct (I2 n Hn) as (idx & En & Hl). exists idx. split; [done|]. by apply own_add_old.
  - intros j a [[<- <-]|[_ Hj]]%lookup_insert_Some.
    + split; [done|]. exists x. split; [done|]. right. left. unfold own_add. by rewrite decide_True.
    + destruct (I3 j a Hj) as (Hr & idx & Ea & Hp). split; [done|]. exists idx. split; [done|]. destruct Hp as [Hp|[Hp|(t & Hp & H1 & H2)]].
      * left. by apply own_add_old.
      * right. left. by apply own_add_old.
      * right. right. exists t. split; [by apply own_add_old|]. rewrite Eth, Hst by done. done.
  - intros t s H1 H2. rewrite Hst in H2 by done. destruct (I4 t s H1 H2) as (i1 & i2 & xt & xs & E1 & E2 & F1 & L1 & F2 & L2).
    exists i1, i2, xt, xs. split_and!; [done|done|by apply HFi|by apply own_add_old|by apply HFi|by apply own_add_old].
  - intros kva o Ho. destruct (decide (kva = va_of i)) as [->|Hne].
    + exists i, x. rewrite lookup_insert_eq. split_and!; [done|done|]. unfold own_add. by rewrite decide_True.
    + rewrite Eip in Ho by done. destruct (I5 kva o Ho) as (j & y & Ek & F1 & L1). exists j, y. split_and!; [done|by apply HFi|by apply own_add_old].
Qed.

(** The page [x] of a PageSet is the kernel's, at page [i] of the pool. *)
Lemma adopt_world h x i out (q : KvmPool.Pool KMem) w' D' oB' oD' : x ∉ G -> 0 <= i < POOL_PAGES -> F !! i = None -> pool_ok out (p_l1 (w_pool w)) q (<[i := addr_of cfg x]> F) ->
  w_pool w' = mkPool (p_list q) (p_l1 q) (p_initialized q) (p_mem q) tt -> sys_ok cfg (G ∪ {[x]}) D' oB' oD' S (w_k w') ->
  k_threads (w_k w') = k_threads (w_k w) -> (forall t, t <> va_of i -> k_tcb_process (w_k w') !! t = k_tcb_process (w_k w) !! t) ->
  k_procs (w_k w') = revoke_proc h <$> k_procs (w_k w) -> w_objs w' = w_objs w -> (forall t, t <> va_of i -> w_stacks w' !! t = w_stacks w !! t) ->
  (forall y, y <> va_of i -> w_ipc w' !! y = w_ipc w !! y) -> (forall r a, S !! r = Some a -> ~ as_page r a (addr_of cfg x)) -> handles_sound (w_k w') (w_ipc w') ->
  world_ok cfg (own_add x i) (G ∪ {[x]}) D' oB' oD' S w'.
Proof using Hcfg Hdm W PI.
  intros Hx Hi HF Ok Ep K' Eth Etp Epr Eo Est Eip Hnt Hs. destruct (fresh_page i (proj1 Hi) HF) as [Ht _].
  assert (Hown : forall kva l, owned cfg own kva l -> owned cfg (own_add x i) kva l) by (intros kva l (idx & -> & Hl); exists idx; split; [done|by apply own_add_old]).
  assert (Hne : forall t, Some t ∈ k_threads (w_k w) -> t <> va_of i) by (by intros t Hin ->).
  assert (Hcnt : forall q0, threads_of (w_k w') q0 = threads_of (w_k w) q0).
  { intros q0. unfold threads_of. rewrite Eth. rewrite (procs_of_ext (k_tcb_process (w_k w))); [done|]. intros t Hin. by apply Etp, Hne. }
  constructor; rewrite ?Eth.
  - exact K'.
  - intros idx l. unfold own_add. case_decide as E; [intros _; subst; set_solver|]. intros Hl%(wk_held _ _ _ _ _ _ _ _ W). set_solver.
  - intros r a q0 idx Hr Hq ->. unfold own_add. rewrite decide_False; [by eapply wk_tables|]. intros ->. by apply (Hnt r a).
  - intros q0 qr Hq. rewrite Epr, lookup_fmap in Hq. destruct (k_procs (w_k w) !! q0) as [qr0|] eqn:E; [|done]. injection Hq as <-.
    destruct (wk_objs _ _ _ _ _ _ _ _ W q0 qr0 E) as (o & Ho & Hc & Hm). exists o. rewrite Eo, Hcnt. split; [done|]. split; [done|]. intros Him.
    destruct (Hm Him) as [M1 M2 M3 [M4 M5]]. constructor; [done|by apply Hown|by apply Hown|]. split; [done|]. intros y Hy.
    destruct (M5 y Hy) as (idx & -> & Hl). exists idx. split; [done|]. by apply own_add_old.
  - intros q0 idx Hq ->. apply own_add_old; [done|]. eapply wk_procs; [done| |done]. by rewrite Epr, lookup_fmap, fmap_is_Some in Hq.
  - intros t idx Hin -> Hlt. apply own_add_old; [done|]. by eapply wk_tcbs.
  - apply (wk_slots _ _ _ _ _ _ _ _ W).
  - intros t Hin. destruct (wk_stacks _ _ _ _ _ _ _ _ W t Hin) as (b & Hb & H1 & H2). exists b. rewrite Est by (by apply Hne). split; [done|]. split; [|done].
    intros s Es. destruct (H1 s Es). split; by apply Hown.
  - unfold pool_use. rewrite Ep. cbn [p_initialized]. rewrite (po_init _ _ _ _ Ok). eexists. eapply adopt_pool; try done.
  - done.
Qed.
End Adopt.

(** * Donations *)

(** The page table entry of page [i] of the pool. *)
Definition pool_entry (w : World) (i : Z) : Z := read_pte (p_mem (w_pool w)) (slot (p_l1 (w_pool w)) i).

(** Nothing but the pool's list of free addresses differs. *)
Record untouched (w w' : World) : Prop := {
  un_k : w_k w' = w_k w;
  un_objs : w_objs w' = w_objs w /\ w_stacks w' = w_stacks w /\ w_ipc w' = w_ipc w;
  un_starts : w_starts w' = w_starts w;
  un_pool : forall i, 0 <= i < POOL_PAGES -> pool_entry w' i = pool_entry w i;
}.

Lemma sys_init cfg G D oB oD S k k' kva : sys_ok cfg G D oB oD S k -> Some kva ∉ k_threads k ->
  k_mem k' = k_mem k /\ k_pt k' = k_pt k /\ k_procs k' = k_procs k /\ k_threads k' = k_threads k -> (forall t, t <> kva -> k_tcb_process k' !! t = k_tcb_process k !! t) ->
  sys_ok cfg G D oB oD S k'.
Proof.
  intros [? ? ? ? ? ? ? ? ? ? ?] Hk (E1 & E2 & E3 & E4) Ht. assert (Ht' : forall t, Some t ∈ k_threads k -> k_tcb_process k' !! t = k_tcb_process k !! t) by (intros t Hin; apply Ht; by intros ->).
  constructor; rewrite ?E1, ?E2, ?E3, ?E4; try done.
  - intros t Hin. rewrite Ht' by done. by apply ok_tcb.
  - intros q. by rewrite (procs_of_ext (k_tcb_process k)).
Qed.

(** The PageSet a handle names. *)
Definition donated_set (pr : Proc) (h : Z) : option Z :=
  match lookup (p_table pr) h RIGHT_WRITE OTPageSet with Ok entry => match h_kind entry with HPageSet hdr _ => Some hdr | _ => None end | Err _ => None end.

Section Donate.
Context (cfg : Config) (Hcfg : config_ok cfg) (Hdm : direct_map_ok cfg).
Context (own : Z -> option Owner) (G D : gset Z) (oB oD : nat -> list Z) (S : gmap Z AS) (w : World) (W : world_ok cfg own G D oB oD S w).
Context (Hinit : p_initialized (w_pool w) = true).
Context (p : Z) (pr : Proc) (Hp : k_procs (w_k w) !! p = Some pr).

(** The page [x] of the PageSet at [hdr] that handle [h] names is mapped at
    [kva], page [i] of the pool, where nothing was; the PageSet is gone. *)
Record donated_page (h hdr kva x i : Z) (w' : World) : Prop := {
  dp_set : donated_set pr h = Some hdr /\
    exists j e, buddy_set (w_k w) hdr j e /\ oB j = [x] /\ table (k_mem (w_k w')) = <[j := None]> (table (k_mem (w_k w)));
  dp_page : kva = va_of i /\ 0 <= i < POOL_PAGES /\ x ∉ G;
  dp_fresh : Some kva ∉ k_threads (w_k w) /\ w_ipc w !! kva = None;
  dp_maps : pool_entry w i = 0 /\ forall j, 0 <= j < POOL_PAGES -> pool_entry w' j = if decide (j = i) then build_kernel_page (addr_of cfg x) else pool_entry w j;
  dp_init : p_initialized (w_pool w') = true;
}.

(** Why a donation fails: the handle is not one to a one-page PageSet that can be
    given, no address of the pool is free, or the init function fails. *)
Definition donation_error (init_fn : InitFn) (h : Z) (err : SyscallError) : Prop :=
  validate_buddy_pageset (w_k w) p h 1 1 = Ret (Err err) \/
  err = OUT_OF_MEMORY /\ (forall b, ~ Kvm.has_room (p_list (w_pool w)) b 1) \/
  err = UNKNOWN /\ exists w1 kva e, w_k w1 = w_k w /\ init_fn w1 kva = Ret (Err e).

Definition donation (init_fn : InitFn) (h : Z) (r : result Z SyscallError) (w' : World) : Prop :=
  match r with
  | Err err => donation_error init_fn h err /\ err <> OK /\ world_ok cfg own G D oB oD S w' /\ untouched w w' /\ p_initialized (w_pool w') = true
  | Ok kva => exists hdr x i w1 w2 D' oB' oD', donated_page h hdr kva x i w' /\ k_procs (w_k w') = revoke_proc hdr <$> k_procs (w_k w) /\ w_k w1 = w_k w /\ w_objs w1 = w_objs w /\ w_stacks w1 = w_stacks w /\ w_ipc w1 = w_ipc w /\ w_starts w1 = w_starts w /\ init_fn w1 kva = Ret (Ok w2) /\ init_writes kva w1 w2 /\
      w' = set_k w2 (w_k w') /\ k_threads (w_k w') = k_threads (w_k w) /\ k_tcb_process (w_k w') = k_tcb_process (w_k w2) /\ k_next_token (w_k w') = k_next_token (w_k w2) /\
      world_ok cfg (own_add own x i) (G ∪ {[x]}) D' oB' oD' S w'
  end.

(** The mapping of the page. *)
Lemma reserve_spec F x : pool_inv cfg own w F -> 0 <= x < total_pages (plat cfg) ->
  exists r q, @map_existing KMem (kframes cfg) (pool_of w) (containing_page (addr_of cfg x)) = Ret (r, q) /\ p_frames q = k_mem (w_k w) /\
    exists out, match r with
    | Ok kva => exists i, kva = va_of i /\ 0 <= i < POOL_PAGES /\ F !! i = None /\ pool_ok out (p_l1 (w_pool w)) q (<[i := addr_of cfg x]> F)
    | Err _ => pool_ok out (p_l1 (w_pool w)) q F /\ forall b, ~ Kvm.has_room (p_list (w_pool w)) b 1
    end.
Proof using Hcfg.
  intros [(out & Ok) _ _ _ _] Hx. destruct (frame_of_eq cfg x Hcfg Hx) as [_ R].
  rewrite <- (start_frame cfg Hcfg x Hx), containing_start by done.
  destruct (@kvm_map_spec out (p_l1 (w_pool w)) KMem (kframes cfg) (pool_of w) F (frame_of cfg x) Ok R) as (r & q & E & Ef & Hr).
  exists r, q. split; [done|]. split; [done|]. exists out. destruct r as [kva|e].
  - destruct Hr as (i & -> & Hi & Hi' & HF & Ok'). exists i. split; [done|]. split; [lia|]. split; [done|]. exact Ok'.
  - destruct Hr as (_ & -> & Hr). split; [exact Ok|exact Hr].
Qed.

(** Undoing it. *)
Lemma stack_release_spec F x i out (q : KvmPool.Pool KMem) : 0 <= x < total_pages (plat cfg) -> 0 <= i < POOL_PAGES -> F !! i = None ->
  pool_ok out (p_l1 (w_pool w)) q (<[i := addr_of cfg x]> F) ->
  exists q', @unmap_existing KMem (kframes cfg) q (va_of i) 1 = Ret q' /\ p_frames q' = p_frames q /\ pool_ok out (p_l1 (w_pool w)) q' F.
Proof using Hcfg.
  intros Hx Hi HF Ok. destruct (frame_of_eq cfg x Hcfg Hx) as [_ R].
  destruct (@tear_mapped out (p_l1 (w_pool w)) KMem (kframes cfg) q (<[i := addr_of cfg x]> F) i [frame_of cfg x] Ok) as (q' & r & E & Ok' & Ef & _); [lia|cbn; lia|done| | |].
  - by intros y ->%list_elem_of_singleton.
  - intros [|n] y Hn; [|done]. injection Hn as <-. rewrite Z.add_0_r, lookup_insert_eq. by rewrite start_frame.
  - exists q'. unfold unmap_existing. rewrite (po_init _ _ _ _ Ok). cbn [assert]. rewrite bind_Ret. split; [exact E|]. split; [done|].
    cbn [length drop_pages] in Ok'. by rewrite delete_insert_id in Ok'.
Qed.

(** The page leaves the PageSet. *)
Lemma consume_one hdr j e x kva w1 w2 : buddy_set (w_k w) hdr j e -> oB j = [x] -> h_map_count (read_header (k_mem (w_k w)) hdr) = 0 ->
  Some kva ∉ k_threads (w_k w) -> w_k w1 = w_k w -> init_writes kva w1 w2 ->
  exists k' D' oB' oD', consume_pageset_apply cfg (w_k w2) hdr = Ret k' /\ sys_ok cfg (G ∪ {[x]}) D' oB' oD' S k' /\ k_threads k' = k_threads (w_k w) /\
    k_tcb_process k' = k_tcb_process (w_k w2) /\ k_next_token k' = k_next_token (w_k w2) /\ k_procs k' = revoke_proc hdr <$> k_procs (w_k w) /\
    table (k_mem k') = <[j := None]> (table (k_mem (w_k w))).
Proof using W.
  intros B Ex Hm Hk E1 I. pose proof (iw_k _ _ _ I) as (A1 & A2 & A3 & A4). rewrite E1 in A1, A2, A3, A4.
  assert (K2 : sys_ok cfg G D oB oD S (w_k w2)) by (eapply sys_init; [apply (wk_sys _ _ _ _ _ _ _ _ W)|exact Hk|done|intros t Ht; rewrite <- E1; by apply (iw_tcb _ _ _ I)]).
  destruct B as [He Hh Ho]. rewrite <- A1 in He, Hm. rewrite <- Hh in Hm.
  destruct (unmapped_fine (w_k w2) S e) as [V O]; [by eapply no_maps_unmapped|].
  destruct (consume_apply_spec _ _ _ _ _ _ _ _ _ K2 He V O) as (k' & E & [(R1 & R2 & R3) R4 _ _] & Et & _ & K'). rewrite Hh in E, R4. rewrite Ex in K'.
  assert (Hx : list_to_set [x] = ({[x]} : gset Z)) by apply list_to_set_singleton_L. rewrite Hx in K'. eexists k', _, _, _. split; [done|]. split; [exact K'|].
  rewrite R1, R2, R3, R4, Et, A1, A3, A4. done.
Qed.

(** Where the handles of a donation end. *)
Lemma donated_sound hdr kva w1 w2 k' : w_k w1 = w_k w -> w_ipc w1 = w_ipc w -> init_writes kva w1 w2 -> w_ipc w !! kva = None -> k_next_token k' = k_next_token (w_k w2) ->
  k_procs k' = revoke_proc hdr <$> k_procs (w_k w) -> handles_sound k' (w_ipc w2).
Proof using W.
  intros E1 E2 I Hf Et Ep. pose proof (wk_handles _ _ _ _ _ _ _ _ W) as H.
  assert (Hn : forall x, next_token_of k' x = next_token_of (w_k w2) x) by (intros x; unfold next_token_of; by rewrite Et).
  pose proof (iw_token _ _ _ I) as T. pose proof (iw_token1 _ _ _ I) as T1. rewrite E1 in T, T1.
  apply (sound_change (w_k w) k' (w_ipc w) (w_ipc w2) 0 0%nat HEmpty); try done.
  - intros q i kind (qr & h & Hq & Hi & <-). rewrite Ep, lookup_fmap in Hq. destruct (k_procs (w_k w) !! q) as [qr0|] eqn:E; [|done]. injection Hq as <-.
    cbn [revoke_proc p_table] in Hi. rewrite list_lookup_fmap in Hi. destruct (p_table qr0 !! i) as [h0|] eqn:E0; [|done]. injection Hi as <-.
    unfold revoke_slot. right. destruct (revoke_action h0 hdr); [by left; left|]. right. by exists qr0, h0.
  - intros x [o Ho]. rewrite Hn, T; [done|]. intros ->. congruence.
  - intros x. rewrite Hn. destruct (decide (x = kva)) as [->|Hne]; [apply T1|rewrite T by done]; apply (hs_counts _ _ H).
  - intros x o Ho. rewrite (iw_ipc _ _ _ I), E2; [done|]. intros ->. congruence.
Qed.

Lemma entry_of F i : pool_inv cfg own w F -> 0 <= i < POOL_PAGES -> pool_entry w i = match F !! i with Some a => build_kernel_page a | None => 0 end.
Proof using. intros [(out & Ok) _ _ _ _] Hi. apply (po_maps _ _ _ _ Ok i Hi). Qed.

(** The validation cannot fail when nothing maps the PageSet. *)
Lemma validate_unmapped hdr j e : buddy_set (w_k w) hdr j e -> h_map_count (read_header (k_mem (w_k w)) hdr) = 0 -> consume_pageset_validate (w_k w) hdr = Ret (Ok tt).
Proof using W.
  intros [He Hk _] Hm. pose proof (wk_sys _ _ _ _ _ _ _ _ W) as K. unfold consume_pageset_validate. rewrite <- Hk in *.
  destruct (revoke_validate_spec _ _ _ _ _ _ _ _ _ K He) as ([[]|err] & E & V); [done|]. destruct V as (q & qr & a & Hq & Ha & Hma & _).
  by rewrite (no_maps_unmapped _ _ _ _ _ _ _ _ _ K He Hm q qr a Hq Ha) in Hma.
Qed.

Lemma donate_one_spec h init_fn :
  (forall w1 kva, w_k w1 = w_k w -> exists r, init_fn w1 kva = Ret r /\ forall w2, r = Ok w2 -> init_writes kva w1 w2) ->
  exists r w', donate_one_kernel_page cfg w p h init_fn = Ret (r, w') /\ donation init_fn h r w'.
Proof using All.
  intros Hi. pose proof (wk_sys _ _ _ _ _ _ _ _ W) as K. pose proof (wk_pool _ _ _ _ _ _ _ _ W) as Hu. unfold pool_use in Hu. rewrite Hinit in Hu. destruct Hu as [F PI].
  unfold donate_one_kernel_page. destruct (donate_spec cfg _ _ _ _ _ _ K p pr Hp 1 1 h) as (r & Ev0 & Hr). rewrite Ev0, bind_Ret.
  destruct r as [[hdr n]|err]; [|eexists _, _; split; [reflexivity|]; split; [by left|]; do 2 (split; [done|]); split; [by constructor|done]]. destruct Hr as (entry & mv & j & e & El & Ek & B & -> & Hn & Hm).
  destruct (set_pages _ _ _ _ _ _ _ K _ _ _ B) as [_ Hlen]. destruct (oB j) as [|x [|]] eqn:Ex; cbn [length] in Hlen; [lia| |lia].
  assert (Hx0 : oB j !! 0%nat = Some x) by (by rewrite Ex). destruct (set_page_range _ _ _ _ _ _ _ K _ _ _ Hx0) as [Hxr HxG].
  rewrite (ps_page_buddy _ _ _ _ _ _ _ K _ _ _ 0 B), bind_Ret by lia. change (Z.to_nat 0) with 0%nat. rewrite Hx0. cbn [fmap option_fmap option_map].
  rewrite (validate_unmapped hdr j e B Hm), bind_Ret.
  destruct (reserve_spec F x PI Hxr) as (rm & q & -> & Ef & out & Hm'). rewrite bind_Ret. cbn [fst snd].
  assert (Ek1 : w_k (set_pool w q) = w_k w) by (unfold set_pool; cbn; rewrite Ef; by destruct (w_k w)).
  destruct rm as [kva|err].
  2:{ destruct Hm' as [Hm' Hfull]. destruct (pool_world cfg _ _ _ _ _ _ w W F PI out q Hm' Ef) as (W' & E' & PI' & I'). eexists _, _. split; [reflexivity|]. split; [right; by left|]. do 2 (split; [done|]). split; [|done].
      constructor; [done|done|done|]. intros i Hr. rewrite (entry_of F i PI Hr). destruct PI' as [(out' & Ok') _ _ _ _]. apply (po_maps _ _ _ _ Ok' i Hr). }
  destruct Hm' as (i & -> & Hir & HF & Ok). destruct (Hi (set_pool w q) (va_of i) Ek1) as (ri & Ei & Hri). rewrite Ei, bind_Ret. destruct ri as [w2|err].
  2:{ destruct (stack_release_spec F x i out (pool_of (set_pool w q)) Hxr Hir HF) as (q' & -> & Ef' & Ok'); [by destruct Ok|]. rewrite bind_Ret.
      assert (Eq : set_pool (set_pool w q) q' = set_pool w q') by reflexivity.
      destruct (pool_world cfg _ _ _ _ _ _ w W F PI out q' Ok') as (W' & E' & PI' & I'); [by rewrite Ef'|]. rewrite Eq.
      eexists _, _. split; [reflexivity|]. split; [right; right; split; [done|]; by exists (set_pool w q), (va_of i), err|]. do 2 (split; [done|]). split; [|done].
      constructor; [done|done|done|]. intros i0 Hr. rewrite (entry_of F i0 PI Hr). destruct PI' as [(out' & Ok'') _ _ _ _]. apply (po_maps _ _ _ _ Ok'' i0 Hr). }
  specialize (Hri w2 eq_refl). destruct (fresh_page cfg Hcfg Hdm _ _ _ _ _ _ w W F PI i (proj1 Hir) HF) as [Fr1 Fr2].
  destruct (consume_one hdr j e x (va_of i) _ _ B Ex Hm Fr1 Ek1 Hri) as (k' & D' & oB' & oD' & -> & K' & T1 & T2 & T3 & T4 & T5). rewrite bind_Ret.
  eexists _, _. split; [reflexivity|]. assert (Epl : w_pool w2 = mkPool (p_list q) (p_l1 q) (p_initialized q) (p_mem q) tt) by apply (iw_pool _ _ _ Hri).
  exists hdr, x, i, (set_pool w q), w2, D', oB', oD'. split.
  { constructor; cbn [set_k w_k w_pool]; [split; [unfold donated_set; by rewrite El, Ek|by exists j, e]|done|done| |rewrite Epl; apply (po_init _ _ _ _ Ok)].
    split; [by rewrite (entry_of F i PI Hir), HF|]. intros i0 Hr. assert (Ee : pool_entry (set_k w2 k') i0 = read_pte (p_mem q) (slot (p_l1 q) i0)) by (unfold pool_entry; cbn [set_k w_pool]; by rewrite Epl). rewrite Ee. pose proof (po_maps _ _ _ _ Ok i0 Hr) as HM.
    unfold read_pte. rewrite HM. case_decide as E; [subst; by rewrite lookup_insert_eq|]. rewrite lookup_insert_ne by done. symmetry. by apply entry_of. }
  do 8 (split; [done|]). cbn [set_k w_k]. do 4 (split; [done|]).
  eapply (adopt_world cfg Hcfg Hdm _ _ _ _ _ _ w W F PI hdr x i out q); try done; cbn [set_k w_k w_objs w_stacks w_ipc w_pool].
  - rewrite T2. intros t Ht. rewrite (iw_tcb _ _ _ Hri) by done. by rewrite Ek1.
  - apply (iw_objs _ _ _ Hri).
  - apply (iw_stacks _ _ _ Hri).
  - apply (iw_ipc _ _ _ Hri).
  - intros r a Hr. by apply (set_page_not_table cfg Hcfg _ _ _ _ _ _ K j 0%nat x).
  - by eapply donated_sound.
Qed.
End Donate.

(** * Objects *)

Inductive ObjectCall := CreateEndpoint | CreateNotification | CreateReply.

Definition kind_of (c : ObjectCall) (kva : Z) : HandleKind :=
  match c with CreateEndpoint => HEndpoint kva None | CreateNotification => HNotification kva | CreateReply => HReply kva end.
Definition init_of (c : ObjectCall) : InitFn :=
  match c with CreateEndpoint => init_endpoint | CreateNotification => init_notification | CreateReply => init_reply end.
Definition object_of (c : ObjectCall) : IpcObject :=
  match c with CreateEndpoint => IEndpoint create_endpoint | CreateNotification => INotification create_notification | CreateReply => IReply create_reply end.

Definition object_call (cfg : Config) (w : World) (p : Z) (c : ObjectCall) (gpr0 : Z) : outcome (result Z SyscallError * World) :=
  match c with
  | CreateEndpoint => sys_create_endpoint cfg w p gpr0
  | CreateNotification => sys_create_notification cfg w p gpr0
  | CreateReply => sys_create_reply cfg w p gpr0
  end.

Lemma object_call_eq cfg w p c gpr0 : object_call cfg w p c gpr0 = create_kernel_object_kvm cfg w p (wrap 32 gpr0) (kind_of c) (init_of c).
Proof. by destruct c. Qed.

Lemma init_of_writes c w1 kva : exists r, init_of c w1 kva = Ret r /\ forall w2, r = Ok w2 -> init_writes kva w1 w2 /\ w_ipc w2 = <[kva := object_of c]> (w_ipc w1).
Proof.
  destruct c; eexists; (split; [reflexivity|]); intros w2 E; (split; [|by injection E as <-]).
  - by apply endpoint_writes, (f_equal Ret E).
  - by apply notification_writes, (f_equal Ret E).
  - by apply reply_writes, (f_equal Ret E).
Qed.

Lemma ht_insert_room slots rights kind i h : kind <> HEmpty -> slots !! i = Some h -> h_kind h = HEmpty ->
  exists j h', slots !! j = Some h' /\ h_kind h' = HEmpty /\ ht_insert slots rights kind = (Ok (Z.of_nat j), <[j := mkHandle rights (clear_mapping kind)]> slots).
Proof.
  intros Hk Hi Hh. destruct (ht_insert_cases slots rights kind Hk) as [|E]; [done|]. exfalso. unfold ht_insert, slot_insert in E.
  pose proof (find_empty_slot_spec slots) as H. destruct (find_empty_slot slots) as [j|]; [by destruct kind|]. specialize (H i h Hi).
  apply not_true_iff_false in H. apply H. by apply is_empty_kind.
Qed.

(** A handle without an identity, to a live object, in an empty slot. *)
Lemma world_handle cfg own G D oB oD S w p pr i h rights kind : world_ok cfg own G D oB oD S w -> k_procs (w_k w) !! p = Some pr -> p_table pr !! i = Some h -> h_kind h = HEmpty ->
  (forall kva mv, kind <> HPageSet kva mv) -> handle_ok (w_k w) (w_ipc w) kind -> (forall kva t, kind <> HEndpoint kva (Some t)) ->
  world_ok cfg own G D oB oD S (set_k w (with_slots (w_k w) p pr (<[i := mkHandle rights kind]> (p_table pr)))).
Proof.
  intros W Hp Hi Hh Hn Hok Hnt. pose proof (add_other_ok cfg _ _ _ _ _ (w_k w) p pr i h (mkHandle rights kind) (k_next_token (w_k w)) (wk_sys _ _ _ _ _ _ _ _ W) Hp Hi Hh Hn) as K.
  set (w' := set_k w _). assert (Epr : k_procs (w_k w') = <[p := mkProc (p_ttbr0 pr) (<[i := mkHandle rights kind]> (p_table pr))]> (k_procs (w_k w))) by reflexivity.
  assert (Hpr : forall q qr, k_procs (w_k w') !! q = Some qr -> exists qr0, k_procs (w_k w) !! q = Some qr0 /\ p_ttbr0 qr = p_ttbr0 qr0).
  { rewrite Epr. intros q qr [[<- <-]|[_ Hq]]%lookup_insert_Some; [by exists pr|by exists qr]. }
  constructor; try apply W.
  - exact K.
  - intros q qr (qr0 & Hq & Et)%Hpr. destruct (wk_objs _ _ _ _ _ _ _ _ W q qr0 Hq) as (o & Ho & Hc & Hm). exists o. split; [done|]. split; [done|].
    intros Him. destruct (Hm Him). constructor; try done. by rewrite Et.
  - intros q idx [qr (qr0 & Hq & _)%Hpr] Eq. eapply wk_procs; [done|by exists qr0|done].
  - by eapply pool_use_kept; [apply (wk_pool _ _ _ _ _ _ _ _ W)|..].
  - apply (sound_put (w_k w) _ (w_ipc w) (w_ipc w) p i kind); try done; [apply (wk_handles _ _ _ _ _ _ _ _ W)| |intros kva t E; by destruct (Hnt kva t)].
    intros q j kind' (qr & e & Hq & Hj & <-). rewrite Epr in Hq. apply lookup_insert_Some in Hq as [[<- <-]|[_ Hq]].
    + cbn [p_table] in Hj. apply list_lookup_insert_Some in Hj as [(-> & <- & _)|[_ Hj]]; [by left|]. right. right. by exists pr, e.
    + right. right. by exists qr, e.
Qed.

Section Create.
Context (cfg : Config) (Hcfg : config_ok cfg) (Hdm : direct_map_ok cfg).
Context (own : Z -> option Owner) (G D : gset Z) (oB oD : nat -> list Z) (S : gmap Z AS) (w : World) (W : world_ok cfg own G D oB oD S w).
Context (Hinit : p_initialized (w_pool w) = true).
Context (p : Z) (pr : Proc) (Hp : k_procs (w_k w) !! p = Some pr).

(** The object of a call is on the donated page, with a first handle in a slot
    that was empty or had the donated PageSet. *)
Record object_made (c : ObjectCall) (h n hdr kva x i : Z) (w' : World) : Prop := {
  om_page : donated_page cfg G oB w pr h hdr kva x i w';
  om_slot : exists j e, n = Z.of_nat j /\ p_table pr !! j = Some e /\ h_kind (revoke_slot hdr e) = HEmpty /\ k_procs (w_k w') =
    <[p := mkProc (p_ttbr0 pr) (<[j := mkHandle RIGHTS_RW (kind_of c kva)]> (revoke_slot hdr <$> p_table pr))]> (revoke_proc hdr <$> k_procs (w_k w));
  om_ipc : w_ipc w' = <[kva := object_of c]> (w_ipc w);
  om_token : (forall y, y <> kva -> next_token_of (w_k w') y = next_token_of (w_k w) y) /\ (c = CreateEndpoint -> next_token_of (w_k w') kva = 1);
  om_rest : k_threads (w_k w') = k_threads (w_k w) /\ k_tcb_process (w_k w') = k_tcb_process (w_k w) /\ w_objs w' = w_objs w /\ w_stacks w' = w_stacks w /\ w_starts w' = w_starts w;
}.

Definition object_creation (c : ObjectCall) (h : Z) (r : result Z SyscallError) (w' : World) : Prop :=
  match r with
  | Err err => (validate_buddy_pageset (w_k w) p h 1 1 = Ret (Err err) \/ err = OUT_OF_MEMORY /\ forall b, ~ Kvm.has_room (p_list (w_pool w)) b 1) /\
      err <> OK /\ world_ok cfg own G D oB oD S w' /\ untouched w w'
  | Ok n => exists hdr kva x i D' oB' oD', object_made c h n hdr kva x i w' /\ world_ok cfg (own_add own x i) (G ∪ {[x]}) D' oB' oD' S w'
  end.

Lemma init_of_exact c w1 kva w2 : init_of c w1 kva = Ret (Ok w2) -> k_tcb_process (w_k w2) = k_tcb_process (w_k w1) /\ (w_stacks w2 = w_stacks w1 /\ w_starts w2 = w_starts w1) /\
  (c = CreateEndpoint -> next_token_of (w_k w2) kva = 1) /\ w_ipc w2 = <[kva := object_of c]> (w_ipc w1).
Proof using. destruct c; intros [= <-]; (split; [done|]; split; [done|]; split; [|done]); try done. intros _. unfold next_token_of. cbn. by rewrite lookup_insert_eq. Qed.

Lemma object_call_spec c gpr0 : exists r w', object_call cfg w p c gpr0 = Ret (r, w') /\ object_creation c (wrap 32 gpr0) r w'.
Proof using All.
  rewrite object_call_eq. unfold create_kernel_object_kvm.
  destruct (donate_one_spec cfg Hcfg Hdm _ _ _ _ _ _ w W Hinit p pr Hp (wrap 32 gpr0) (init_of c)) as (r & w1 & -> & Hr).
  { intros w1 kva _. destruct (init_of_writes c w1 kva) as (r & E & H). exists r. split; [done|]. intros w2 E2. by apply H. }
  rewrite bind_Ret. destruct r as [kva|err]; [|destruct Hr as (Herr & ? & W' & U & _); eexists _, _; split; [reflexivity|]; split; [|done]; destruct Herr as [|[|(_ & w2 & kva & e & _ & E)]]; [by left|by right|by destruct c]]. cbn [donation] in Hr.
  destruct Hr as (hdr & x & i & w0 & w2 & D' & oB' & oD' & DP & Epr & E1 & E2 & E3 & E4 & E5 & Ei & I & Ew & Eth & Etp & Etk & W').
  destruct (init_of_exact c w0 kva w2 Ei) as (X1 & [X2 X5] & X3 & X4).
  assert (Hp1 : k_procs (w_k w1) !! p = Some (revoke_proc hdr pr)) by (by rewrite Epr, lookup_fmap, Hp). rewrite Hp1. cbn [unwrap]. rewrite bind_Ret.
  pose proof (dp_set _ _ _ _ _ _ _ _ _ _ _ DP) as [Hset _]. unfold donated_set in Hset. destruct (lookup _ _ _ _) as [entry|] eqn:El; [|done].
  apply lookup_ok in El as [Hl _]. destruct (h_kind entry) as [| | | | | | |hk mv] eqn:Ek; try done. injection Hset as ->.
  assert (Hempty : revoke_slot hdr entry = EMPTY) by (unfold revoke_slot, revoke_action; by rewrite Ek, Z.eqb_refl).
  destruct (ht_insert_room (p_table (revoke_proc hdr pr)) RIGHTS_RW (kind_of c kva) (Z.to_nat (wrap 32 gpr0)) EMPTY) as (j & e & Hj & He & Ein).
  { by destruct c. } { cbn [revoke_proc p_table]. by rewrite list_lookup_fmap, Hl, <- Hempty. } { done. }
  rewrite Ein. assert (Ecm : clear_mapping (kind_of c kva) = kind_of c kva) by (by destruct c). rewrite Ecm in *.
  eexists _, _. split; [reflexivity|]. exists hdr, kva, x, i, D', oB', oD'.
  assert (Eipc : w_ipc w1 = <[kva := object_of c]> (w_ipc w)) by (rewrite Ew; cbn [set_k w_ipc]; by rewrite X4, E4). split.
  - constructor; cbn [set_k w_k w_ipc w_objs w_stacks with_slots with_procs k_procs k_threads k_tcb_process].
    + destruct DP. by constructor.
    + cbn [revoke_proc p_table] in Hj. rewrite list_lookup_fmap in Hj. destruct (p_table pr !! j) as [e0|] eqn:E0; [|done]. injection Hj as <-.
      exists j, e0. split; [done|]. split; [done|]. split; [done|]. by rewrite Epr.
    + done.
    + unfold next_token_of. cbn. rewrite Etk. fold (next_token_of (w_k w2)). split; [|done].
      intros y Hy. change (next_token_of (w_k w2) y = next_token_of (w_k w) y). rewrite (iw_token _ _ _ I) by done. by rewrite E1.
    + rewrite Eth, Etp, X1, E1, Ew. cbn [set_k w_objs w_stacks w_starts]. by rewrite (iw_objs _ _ _ I), X2, X5, E2, E3, E5.
  - apply (world_handle _ _ _ _ _ _ _ w1 p (revoke_proc hdr pr) j e); try done.
    + by destruct c.
    + rewrite Eipc. destruct c; cbn; rewrite lookup_insert_eq; [split; [by eexists|done]|by eexists..].
    + by destruct c.
Qed.
End Create.

(** * Threads *)

(** A thread more for a live process. *)
Lemma sys_add_thread cfg G D oB oD S k t p n : sys_ok cfg G D oB oD S k -> Some t ∉ k_threads k -> k_threads k !! n = Some None -> k_tcb_process k !! t = Some p ->
  is_Some (k_procs k !! p) -> sys_ok cfg G D oB oD S (with_threads k (<[n := Some t]> (k_threads k)) (k_tcb_process k)).
Proof.
  intros [? ? ? ? ? ? ? ? ? ? ?] Ht Hn Hp Hl. constructor; try done; cbn [with_threads k_threads k_tcb_process k_procs].
  - by rewrite length_insert.
  - intros t' [->|Hin]%elem_of_filled; [by exists p|by apply ok_tcb|done].
  - intros q. rewrite <- ok_live, !elem_of_procs_of. split; intros [(t' & Hin & E) Hq]; (split; [|done]).
    + apply elem_of_filled in Hin as [->|Hin]; [|by exists t'|done]. rewrite Hp in E. injection E as <-. apply ok_live in Hl as [Hl _]. by apply elem_of_procs_of in Hl.
    + exists t'. split; [|done]. apply elem_of_filled; [done|by right].
Qed.

Lemma threads_bound cfg G D oB oD S k p : sys_ok cfg G D oB oD S k -> 0 <= threads_of k p <= MAX_THREADS.
Proof.
  intros K. split; [unfold threads_of; lia|]. etransitivity; [|apply (ok_len _ _ _ _ _ _ _ K)]. unfold threads_of. apply inj_le. etransitivity; [apply length_filter|].
  unfold procs_of. induction (k_threads k) as [|[t|] l IH]; cbn; [done| |lia]. destruct (k_tcb_process k !! t); cbn; lia.
Qed.

Section Thread.
Context (cfg : Config) (Hcfg : config_ok cfg) (Hdm : direct_map_ok cfg).
Context (own : Z -> option Owner) (G D : gset Z) (oB oD : nat -> list Z) (S : gmap Z AS) (w : World) (W : world_ok cfg own G D oB oD S w).
Context (Hinit : p_initialized (w_pool w) = true).

(** What the tables of the pool map at a page is the kernel's. *)
Lemma entry_page F i x : pool_inv cfg own w F -> 0 <= i < POOL_PAGES -> x ∈ G -> pool_entry w i = build_kernel_page (addr_of cfg x) -> F !! i = Some (addr_of cfg x).
Proof using Hcfg W.
  intros PI Hi Hx E. rewrite (entry_of cfg own w F i PI Hi) in E. destruct (F !! i) as [a|] eqn:EF.
  - destruct (pi_pages _ _ _ _ PI i a EF) as (_ & idx & -> & Hp). do 2 f_equal. apply (kernel_page_inj cfg Hcfg _ _ _ _ _ _ _ W); [|done|done].
    destruct Hp as [Hl|[Hl|(t & Hl & _)]]; by eapply wk_held.
  - exfalso. destruct (kernel_page_fields (addr_of cfg x)) as [Hv _]. rewrite <- E in Hv. done.
Qed.

(** The two pages of a new thread, still without a name, and its TCB. *)
Context (i1 i2 xt xs t s p : Z) (Et : t = va_of i1) (Es : s = va_of i2) (Hi1 : 0 <= i1 < POOL_PAGES) (Hi2 : 0 <= i2 < POOL_PAGES).
Context (L1 : own xt = Some (OObj t)) (L2 : own xs = Some (OObj s)) (Hne : i1 <> i2).
Context (Ex1 : pool_entry w i1 = build_kernel_page (addr_of cfg xt)) (Ex2 : pool_entry w i2 = build_kernel_page (addr_of cfg xs)).
Context (N1 : w_ipc w !! t = None) (N2 : w_ipc w !! s = None) (Ht : Some t ∉ k_threads (w_k w)).
Context (Htp : k_tcb_process (w_k w) !! t = Some p) (Hst : w_stacks w !! t = Some (KSched.Pool s)).
Context (pr : Proc) (Hp : k_procs (w_k w) !! p = Some pr) (o : ProcessObject) (Ho : w_objs w !! p = Some o) (n : nat) (Hn : k_threads (w_k w) !! n = Some None).

Definition with_thread : World :=
  mkWorld (with_threads (w_k w) (<[n := Some t]> (k_threads (w_k w))) (k_tcb_process (w_k w)))
    (<[p := mkPObj (po_ht o) (po_threads o + 1) (po_immortal o) (po_owned o)]> (w_objs w)) (w_stacks w) (w_pool w) (w_ipc w) (w_starts w).

Definition own_thread (idx : Z) : option Owner := if decide (idx = xt) then Some (OTcb t) else if decide (idx = xs) then Some (OStack t) else own idx.

Lemma pages_differ : xs <> xt.
Proof using L1 L2 Et Es Hne. intros Exs. rewrite Exs, L1 in L2. injection L2 as E. rewrite Et, Es in E. unfold va_of in E. lia. Qed.

Lemma own_thread_old idx l : own idx = Some l -> l <> OObj t -> l <> OObj s -> own_thread idx = Some l.
Proof using L1 L2. intros Hl H1 H2. unfold own_thread. rewrite !decide_False; [done|intros Ei; rewrite Ei in Hl; congruence..]. Qed.

Lemma thread_pool F : pool_inv cfg own w F -> pool_inv cfg own_thread with_thread F.
Proof using All.
  intros PI. pose proof pages_differ as Hd. assert (G1 : xt ∈ G) by (by eapply wk_held). assert (G2 : xs ∈ G) by (by eapply wk_held).
  pose proof (entry_page F i1 xt PI Hi1 G1 Ex1) as F1. pose proof (entry_page F i2 xs PI Hi2 G2 Ex2) as F2. pose proof PI as [I1 I2 I3 I4 I5].
  assert (O1 : own_thread xt = Some (OTcb t)) by (unfold own_thread; by rewrite decide_True). assert (O2 : own_thread xs = Some (OStack t)) by (unfold own_thread; by rewrite decide_False, decide_True).
  assert (Hva : forall i j, va_of i = va_of j -> i = j) by (intros i j; unfold va_of; lia).
  assert (Hth : forall t', Some t' ∈ k_threads (w_k with_thread) <-> t' = t \/ Some t' ∈ k_threads (w_k w)) by (intros t'; by apply elem_of_filled).
  constructor.
  - exact I1.
  - intros m Hm. destruct (I2 m Hm) as (idx & E & Hl). exists idx. split; [done|]. by apply own_thread_old.
  - intros i a Hi. destruct (I3 i a Hi) as (Hr & idx & -> & Hpg). split; [done|]. exists idx. split; [done|].
    destruct (decide (i = i1)) as [->|Hn1]; [rewrite F1 in Hi; injection Hi as <-%addr_of_inj; left; by rewrite O1, Et|].
    destruct (decide (i = i2)) as [->|Hn2].
    { rewrite F2 in Hi. injection Hi as <-%addr_of_inj. right. right. exists t. rewrite Hth. split; [done|]. split; [by left|]. cbn. by rewrite Hst, Es. }
    destruct Hpg as [Hl|[Hl|(t' & Hl & H1 & H2)]].
    + left. by apply own_thread_old.
    + right. left. apply own_thread_old; [done|rewrite Et|rewrite Es]; by intros [= ?%Hva].
    + right. right. exists t'. rewrite Hth. split; [by apply own_thread_old|]. split; [by right|done].
  - intros t' s' [->|H1]%Hth H2.
    + cbn in H2. rewrite Hst in H2. injection H2 as <-. by exists i1, i2, xt, xs.
    + destruct (I4 t' s' H1 H2) as (j1 & j2 & yt & ys & Q1 & Q2 & Q3 & Q4 & Q5 & Q6). exists j1, j2, yt, ys. split_and!; try done; by apply own_thread_old.
  - intros kva o' Ho'. destruct (I5 kva o' Ho') as (i & x & E & F3 & L3). exists i, x. split_and!; [done|done|]. apply own_thread_old; [done|intros [= ->]..]; cbn in Ho'; congruence.
Qed.

Lemma thread_world : world_ok cfg own_thread G D oB oD S with_thread.
Proof using All.
  pose proof (wk_sys _ _ _ _ _ _ _ _ W) as K. assert (Hva : KVM_POOL_BASE <= t) by (rewrite Et; unfold va_of; lia).
  assert (Hth : forall t', Some t' ∈ k_threads (w_k with_thread) <-> t' = t \/ Some t' ∈ k_threads (w_k w)) by (intros t'; by apply elem_of_filled).
  assert (Hown : forall kva l, owned cfg own kva l -> l <> OObj t -> l <> OObj s -> owned cfg own_thread kva l) by (intros kva l (idx & -> & Hl) H1 H2; exists idx; split; [done|by apply own_thread_old]).
  assert (Hcnt : forall q, threads_of (w_k with_thread) q = threads_of (w_k w) q + if decide (p = q) then 1 else 0).
  { intros q. unfold threads_of. cbn [with_thread w_k with_threads k_threads k_tcb_process]. pose proof (procs_of_add (k_tcb_process (w_k w)) (k_threads (w_k w)) n t p Hn Ht) as Hperm.
    rewrite insert_id in Hperm by done. by apply count_cons. }
  constructor.
  - apply sys_add_thread with p; try done.
  - intros idx l. unfold own_thread. repeat case_decide; subst; [by intros _; eapply wk_held..|]. apply (wk_held _ _ _ _ _ _ _ _ W).
  - intros r a q idx Hr Hq Eq. pose proof (wk_tables _ _ _ _ _ _ _ _ W r a q idx Hr Hq Eq) as Hnone. unfold own_thread. rewrite !decide_False; [done|intros ->..]; congruence.
  - intros q qr Hq. destruct (wk_objs _ _ _ _ _ _ _ _ W q qr Hq) as (o0 & H1 & H2 & H3). cbn [with_thread w_objs]. rewrite Hcnt.
    assert (Hm : forall o1, po_ht o1 = po_ht o0 -> po_owned o1 = po_owned o0 -> mortal cfg own q qr o0 -> mortal cfg own_thread q qr o1).
    { intros o1 Q1 Q2 [M1 M2 M3 [M4 M5]]. constructor; [done|by apply Hown|rewrite Q1; by apply Hown|]. rewrite Q2. split; [done|].
      intros y Hy. destruct (M5 y Hy) as (idx & -> & Hl). exists idx. split; [done|]. by apply own_thread_old. }
    destruct (decide (p = q)) as [<-|Hnq].
    + rewrite lookup_insert_eq. eexists. split; [reflexivity|]. rewrite Ho in H1. injection H1 as <-. cbn. split; [lia|]. intros Him. apply Hm; [done|done|by apply H3].
    + rewrite lookup_insert_ne by done. exists o0. split; [done|]. split; [lia|]. intros Him. apply Hm; [done|done|by apply H3].
  - intros q idx Hq Eq. apply own_thread_old; [by eapply wk_procs|done|done].
  - intros t' idx [->|Hin]%Hth Eq Hlt; [lia|]. apply own_thread_old; [by eapply wk_tcbs|done|done].
  - intros a b t' [(-> & E1 & _)|[Ha1 Ha2]]%list_lookup_insert_Some [(-> & E2 & _)|[Hb1 Hb2]]%list_lookup_insert_Some; [done| | |by eapply wk_slots].
    + injection E1 as <-. destruct Ht. by eapply list_elem_of_lookup_2.
    + injection E2 as <-. destruct Ht. by eapply list_elem_of_lookup_2.
  - intros t' [->|Hin]%Hth; [by exists (KSched.Pool s)|]. destruct (wk_stacks _ _ _ _ _ _ _ _ W t' Hin) as (b & Hb & H1 & H2). exists b. split; [done|]. split; [|done].
    intros s' Eb. destruct (H1 s' Eb). split; by apply Hown.
  - pose proof (wk_pool _ _ _ _ _ _ _ _ W) as Hu. unfold pool_use in *. cbn [with_thread w_pool]. rewrite Hinit in *. destruct Hu as [F PI]. exists F. by apply thread_pool.
  - apply (sound_less (w_k w)); [apply (wk_handles _ _ _ _ _ _ _ _ W)| |done]. intros q i kind Hs. by right.
Qed.
End Thread.

Section CreateThread.
Context (cfg : Config) (Hcfg : config_ok cfg) (Hdm : direct_map_ok cfg).
Context (own : Z -> option Owner) (G D : gset Z) (oB oD : nat -> list Z) (S : gmap Z AS) (w : World) (W : world_ok cfg own G D oB oD S w).
Context (Hinit : p_initialized (w_pool w) = true).
Context (p : Z) (pr : Proc) (Hp : k_procs (w_k w) !! p = Some pr) (a : ThreadArgs).

(** Handle [h] names no one-page PageSet that process [p] can give in [v], or no
    address of the pool is free there. *)
Definition no_donation (v : World) (h : Z) (err : SyscallError) : Prop :=
  validate_buddy_pageset (w_k v) p h 1 1 = Ret (Err err) \/ err = OUT_OF_MEMORY /\ forall b, ~ Kvm.has_room (p_list (w_pool v)) b 1.

(** Why no page is given at all. *)
Definition no_thread (err : SyscallError) : Prop :=
  err = INVALID_PARAMETER /\ thread_args_ok a = false \/ err = QUEUE_FULL /\ has_room (w_k w) = false \/ no_donation w (wrap 32 (t_stack_pageset a)) err.

(** The stack was donated, and only it: the page for the TCB cannot be, or the
    process is a kernel process. *)
Definition stack_lost (err : SyscallError) (w' : World) : Prop := exists hs s xs i w1 D' oB' oD',
  (no_donation w1 (wrap 32 (t_tcb_pageset a)) err \/ err = UNKNOWN /\ p_ttbr0 pr = 0) /\
  donated_page cfg G oB w pr (wrap 32 (t_stack_pageset a)) hs s xs i w1 /\ k_procs (w_k w1) = revoke_proc hs <$> k_procs (w_k w) /\
  k_threads (w_k w1) = k_threads (w_k w) /\ w_objs w1 = w_objs w /\ w_ipc w1 = w_ipc w /\ untouched w1 w' /\ world_ok cfg (own_add own xs i) (G ∪ {[xs]}) D' oB' oD' S w'.

(** A new thread [t] of process [p] with stack [s], on the donated pages. *)
Record thread_made (s t xs xt i2 i1 : Z) (n : nat) (o : ProcessObject) (w' : World) : Prop := {
  tm_pages : exists hs ht w1 oB1, donated_page cfg G oB w pr (wrap 32 (t_stack_pageset a)) hs s xs i2 w1 /\ k_procs (w_k w1) = revoke_proc hs <$> k_procs (w_k w) /\
    donated_page cfg (G ∪ {[xs]}) oB1 w1 (revoke_proc hs pr) (wrap 32 (t_tcb_pageset a)) ht t xt i1 w' /\ k_procs (w_k w') = revoke_proc ht <$> k_procs (w_k w1);
  tm_user : p_ttbr0 pr <> 0;
  tm_slot : k_threads (w_k w) !! n = Some None /\ k_threads (w_k w') = <[n := Some t]> (k_threads (w_k w)) /\ Some t ∉ k_threads (w_k w);
  tm_tcb : k_tcb_process (w_k w') !! t = Some p /\ w_stacks w' !! t = Some (KSched.Pool s) /\
    forall u, Some u ∈ k_threads (w_k w) -> k_tcb_process (w_k w') !! u = k_tcb_process (w_k w) !! u /\ w_stacks w' !! u = w_stacks w !! u;
  tm_start : w_starts w' !! t = Some (start_at s (t_entry a) (t_stack_top a) (t_stack_base a) (t_arg a)) /\
    forall u, u <> t -> w_starts w' !! u = w_starts w !! u;
  tm_objs : w_objs w !! p = Some o /\ w_objs w' = <[p := mkPObj (po_ht o) (po_threads o + 1) (po_immortal o) (po_owned o)]> (w_objs w);
  tm_ipc : w_ipc w' = w_ipc w;
}.

Definition thread_creation (r : SyscallError) (w' : World) : Prop :=
  r <> OK /\ (no_thread r /\ world_ok cfg own G D oB oD S w' /\ untouched w w' \/ stack_lost r w') \/
  r = OK /\ exists s t xs xt i2 i1 n o D' oB' oD', thread_made s t xs xt i2 i1 n o w' /\
    world_ok cfg (own_thread (own_add (own_add own xs i2) xt i1) xt xs t) ((G ∪ {[xs]}) ∪ {[xt]}) D' oB' oD' S w'.

Section Second.
Context (hs s xs i2 : Z) (w0 w1 : World) (D1 : gset Z) (oB1 oD1 : nat -> list Z).
Context (DP1 : donated_page cfg G oB w pr (wrap 32 (t_stack_pageset a)) hs s xs i2 w1) (Epr1 : k_procs (w_k w1) = revoke_proc hs <$> k_procs (w_k w)).
Context (E0 : w_k w0 = w_k w /\ w_objs w0 = w_objs w /\ w_stacks w0 = w_stacks w /\ w_ipc w0 = w_ipc w /\ w_starts w0 = w_starts w) (Ew1 : w1 = set_k w0 (w_k w1)).
Context (Eth1 : k_threads (w_k w1) = k_threads (w_k w)) (Etp1 : k_tcb_process (w_k w1) = k_tcb_process (w_k w)).
Context (W1 : world_ok cfg (own_add own xs i2) (G ∪ {[xs]}) D1 oB1 oD1 S w1) (Hroom : has_room (w_k w) = true).

Lemma first_kept : w_objs w1 = w_objs w /\ w_stacks w1 = w_stacks w /\ w_ipc w1 = w_ipc w /\ w_starts w1 = w_starts w.
Proof using E0 Ew1. destruct E0 as (_ & E1 & E2 & E3 & E4). rewrite Ew1. done. Qed.

Definition finish_thread (w2 : World) (tcb_kva : Z) : outcome (SyscallError * World) :=
  w3 ← process_inc_thread_count w2 p;
  let '(added, k) := sched_add_thread (w_k w3) tcb_kva in
  assert added ;;
  Ret (OK, set_k w3 k).

Lemma second_proc : k_procs (w_k w1) !! p = Some (revoke_proc hs pr).
Proof using Epr1 Hp. by rewrite Epr1, lookup_fmap, Hp. Qed.

(** What the world is after the second donation, in terms of the first. *)
Record second_done (t ht xt i1 : Z) (D2 : gset Z) (oB2 oD2 : nat -> list Z) (w2 : World) : Prop := {
  sd_page : donated_page cfg (G ∪ {[xs]}) oB1 w1 (revoke_proc hs pr) (wrap 32 (t_tcb_pageset a)) ht t xt i1 w2;
  sd_procs : k_procs (w_k w2) = revoke_proc ht <$> k_procs (w_k w1);
  sd_user : p_ttbr0 pr <> 0;
  sd_threads : k_threads (w_k w2) = k_threads (w_k w);
  sd_fresh : Some t ∉ k_threads (w_k w);
  sd_tcb : k_tcb_process (w_k w2) !! t = Some p /\ forall u, u <> t -> k_tcb_process (w_k w2) !! u = k_tcb_process (w_k w) !! u;
  sd_stacks : w_stacks w2 !! t = Some (KSched.Pool s) /\ forall u, u <> t -> w_stacks w2 !! u = w_stacks w !! u;
  sd_starts : w_starts w2 !! t = Some (start_at s (t_entry a) (t_stack_top a) (t_stack_base a) (t_arg a)) /\ forall u, u <> t -> w_starts w2 !! u = w_starts w !! u;
  sd_objs : w_objs w2 = w_objs w;
  sd_ipc : w_ipc w2 = w_ipc w;
  sd_world : world_ok cfg (own_add (own_add own xs i2) xt i1) ((G ∪ {[xs]}) ∪ {[xt]}) D2 oB2 oD2 S w2;
}.

Lemma stack_range : 0 <= s /\ s + PAGE_SIZE < 2 ^ 64.
Proof using DP1.
  destruct (dp_page _ _ _ _ _ _ _ _ _ _ _ DP1) as (-> & Ri & _). unfold va_of, POOL_PAGES, KVM_POOL_BASE, PAGE_SIZE in *. lia.
Qed.

Lemma second_donated t w2 : donation cfg (own_add own xs i2) (G ∪ {[xs]}) D1 oB1 oD1 S w1 p (revoke_proc hs pr) (create_tcb (thread_info p a s)) (wrap 32 (t_tcb_pageset a)) (Ok t) w2 ->
  exists ht xt i1 D2 oB2 oD2, second_done t ht xt i1 D2 oB2 oD2 w2.
Proof using E0 Ew1 Epr1 Hp Eth1 Etp1 DP1.
  intros (ht & xt & i1 & w0' & w2' & D2 & oB2 & oD2 & DP2 & Epr2 & A1 & A2 & A3 & A4 & A5 & Ei & I & Ew2 & Eth2 & Etp2 & _ & W2).
  destruct first_kept as (Eo1 & Es1 & Ei1 & Ss1). destruct (tcb_writes _ _ _ _ _ _ (proj1 stack_range) (proj2 stack_range) Ei) as (_ & X1 & X2 & X3 & X6 & pr0 & X4 & X5). rewrite A1, second_proc in X4. injection X4 as <-.
  destruct (dp_fresh _ _ _ _ _ _ _ _ _ _ _ DP2) as [Ft1 _]. rewrite Eth1 in Ft1.
  exists ht, xt, i1, D2, oB2, oD2. constructor; try done.
  - by rewrite Eth2, Eth1.
  - rewrite Etp2. split; [done|]. intros u Hu. rewrite (iw_tcb _ _ _ I) by done. by rewrite A1, Etp1.
  - split; [by rewrite Ew2|]. intros u Hu. rewrite Ew2. cbn [set_k w_stacks]. rewrite (iw_stacks _ _ _ I) by done. by rewrite A3, Es1.
  - split; [by rewrite Ew2|]. intros u Hu. rewrite Ew2. cbn [set_k w_starts]. rewrite (iw_starts _ _ _ I) by done. by rewrite A5, Ss1.
  - rewrite Ew2. cbn [set_k w_objs]. by rewrite (iw_objs _ _ _ I), A2.
  - rewrite Ew2. cbn [set_k w_ipc]. by rewrite X1, A4.
Qed.

Section Done.
Context (t ht xt i1 : Z) (D2 : gset Z) (oB2 oD2 : nat -> list Z) (w2 : World) (SD : second_done t ht xt i1 D2 oB2 oD2 w2).
Context (n : nat) (o : ProcessObject) (Hn : k_threads (w_k w) !! n = Some None) (Ho : w_objs w !! p = Some o).

Lemma done_made : thread_made s t xs xt i2 i1 n o (with_thread w2 t p o n).
Proof using SD DP1 Epr1 Hn Ho.
  constructor; cbn [with_thread set_k set_objs w_k w_objs w_stacks w_ipc w_starts with_threads k_procs k_threads k_tcb_process].
  - exists hs, ht, w1, oB1. destruct (sd_page _ _ _ _ _ _ _ _ SD) as [P1 P2 P3 P4 P5]. split; [done|]. split; [done|]. split; [by constructor|]. apply SD.
  - apply SD.
  - rewrite (sd_threads _ _ _ _ _ _ _ _ SD). split; [done|]. split; [done|]. apply SD.
  - destruct (sd_tcb _ _ _ _ _ _ _ _ SD) as [T1 T2], (sd_stacks _ _ _ _ _ _ _ _ SD) as [T3 T4]. split; [done|]. split; [done|]. intros u Hu.
    assert (u <> t) by (intros ->; by apply (sd_fresh _ _ _ _ _ _ _ _ SD)). split; [by apply T2|by apply T4].
  - apply SD.
  - by rewrite (sd_objs _ _ _ _ _ _ _ _ SD).
  - apply SD.
Qed.

Lemma done_world : world_ok cfg (own_thread (own_add (own_add own xs i2) xt i1) xt xs t) ((G ∪ {[xs]}) ∪ {[xt]}) D2 oB2 oD2 S (with_thread w2 t p o n).
Proof using All.
  destruct first_kept as (_ & _ & Ei1 & _). pose proof (sd_page _ _ _ _ _ _ _ _ SD) as DP2.
  destruct (dp_page _ _ _ _ _ _ _ _ _ _ _ DP1) as (Es & Ri2 & _). destruct (dp_page _ _ _ _ _ _ _ _ _ _ _ DP2) as (Et & Ri1 & Hxt).
  destruct (dp_fresh _ _ _ _ _ _ _ _ _ _ _ DP1) as [Fs1 Fs2]. destruct (dp_fresh _ _ _ _ _ _ _ _ _ _ _ DP2) as [_ Ft2]. rewrite Ei1 in Ft2.
  destruct (dp_maps _ _ _ _ _ _ _ _ _ _ _ DP1) as [_ M1]. destruct (dp_maps _ _ _ _ _ _ _ _ _ _ _ DP2) as [M2 M3].
  assert (Ee1 : pool_entry w1 i2 = build_kernel_page (addr_of cfg xs)) by (by rewrite (M1 i2 Ri2), decide_True).
  assert (Hne : i1 <> i2). { intros ->. rewrite Ee1 in M2. destruct (kernel_page_fields (addr_of cfg xs)) as [Hv _]. by rewrite M2 in Hv. }
  assert (Hxst : xs <> xt) by (intros ->; apply Hxt; set_solver).
  apply (thread_world cfg Hcfg Hdm _ _ _ _ _ _ w2 (sd_world _ _ _ _ _ _ _ _ SD) (dp_init _ _ _ _ _ _ _ _ _ _ _ DP2) i1 i2 xt xs t s p) with (pr := revoke_proc ht (revoke_proc hs pr));
    rewrite ?(sd_ipc _ _ _ _ _ _ _ _ SD), ?(sd_threads _ _ _ _ _ _ _ _ SD), ?(sd_objs _ _ _ _ _ _ _ _ SD); try done; try apply SD.
  - unfold own_add. by rewrite decide_True, Et.
  - unfold own_add. by rewrite decide_False, decide_True, Es.
  - by rewrite (M3 i1 Ri1), decide_True.
  - by rewrite (M3 i2 Ri2), decide_False.
  - by rewrite (sd_procs _ _ _ _ _ _ _ _ SD), lookup_fmap, second_proc.
Qed.
End Done.

Lemma finish_spec t ht xt i1 D2 oB2 oD2 w2 : second_done t ht xt i1 D2 oB2 oD2 w2 -> exists w', finish_thread w2 t = Ret (OK, w') /\ thread_creation OK w'.
Proof using All.
  intros SD. destruct (wk_objs _ _ _ _ _ _ _ _ W p pr Hp) as (o & Ho & Hcnt & _). pose proof (threads_bound _ _ _ _ _ _ _ p (wk_sys _ _ _ _ _ _ _ _ W)) as Hb.
  unfold finish_thread, process_inc_thread_count, on_thread_create. rewrite (sd_objs _ _ _ _ _ _ _ _ SD), Ho. cbn [unwrap]. rewrite bind_Ret. change MAX_THREADS with 1024 in Hb.
  rewrite (proj2 (Z.ltb_lt _ _)), !bind_Ret by lia. unfold sched_add_thread. cbn [set_objs w_k]. rewrite (sd_threads _ _ _ _ _ _ _ _ SD).
  pose proof Hroom as Hr. unfold has_room in Hr. apply bool_decide_eq_true_1 in Hr as [n Hn]. rewrite Hn. cbn [assert]. rewrite bind_Ret. apply free_slot_spec in Hn.
  exists (with_thread w2 t p o n). split.
  - unfold with_thread, set_k, set_objs. cbn. by rewrite (sd_objs _ _ _ _ _ _ _ _ SD), (sd_threads _ _ _ _ _ _ _ _ SD).
  - right. split; [done|]. exists s, t, xs, xt, i2, i1, n, o, D2, oB2, oD2. split; [by eapply done_made|by eapply done_world].
Qed.

Lemma second_spec : exists r w', (t ← donate_one_kernel_page cfg w1 p (wrap 32 (t_tcb_pageset a)) (create_tcb (thread_info p a s));
      match t with (Err e, w2) => Ret (e, w2) | (Ok tcb_kva, w2) => finish_thread w2 tcb_kva end) = Ret (r, w') /\ thread_creation r w'.
Proof using All.
  destruct (donate_one_spec cfg Hcfg Hdm _ _ _ _ _ _ w1 W1 (dp_init _ _ _ _ _ _ _ _ _ _ _ DP1) p _ second_proc (wrap 32 (t_tcb_pageset a)) (create_tcb (thread_info p a s))) as (r & w2 & -> & Hr).
  { intros w' kva E. destruct stack_range as [S1 S2]. destruct (tcb_returns s p a w' kva (revoke_proc hs pr) S1 S2) as (r & Er & _); [by rewrite E, second_proc|].
    exists r. split; [done|]. intros w2 ->. by apply (tcb_writes s p a w' kva w2 S1 S2) in Er as [? _]. }
  rewrite bind_Ret. destruct r as [t|err].
  - apply second_donated in Hr as (ht & xt & i1 & D2 & oB2 & oD2 & SD). destruct (finish_spec _ _ _ _ _ _ _ _ SD) as (w' & -> & Hw). by eexists _, _.
  - destruct Hr as (Hwhy & Herr & W2 & U & _). destruct first_kept as (? & ? & ? & ?). eexists _, _. split; [reflexivity|]. left. split; [done|]. right.
    exists hs, s, xs, i2, w1, D1, oB1, oD1. split; [|done]. destruct Hwhy as [Hy|[Hy|(-> & w' & kva & e & E & Ee)]]; [by left; left|by left; right|right].
    split; [done|]. destruct stack_range as [S1 S2]. destruct (tcb_returns s p a w' kva (revoke_proc hs pr) S1 S2) as (r & Er & Hr); [by rewrite E, second_proc|].
    rewrite Ee in Er. injection Er as <-. exact (Hr e eq_refl).
Qed.
End Second.

Lemma create_thread_spec : exists r w', sys_create_thread cfg w p a = Ret (r, w') /\ thread_creation r w'.
Proof using All.
  assert (Hun : forall err, err <> OK -> no_thread err -> thread_creation err w) by (intros err Herr Hno; left; split; [done|]; left; split_and!; [done|done|by constructor]).
  unfold sys_create_thread. destruct (thread_args_ok a) eqn:Ha; cbn [negb]; [|by eexists _, _; split; [reflexivity|apply Hun; [done|left]]].
  destruct (has_room (w_k w)) eqn:Hroom; cbn [negb]; [|by eexists _, _; split; [reflexivity|apply Hun; [done|right; left]]].
  destruct (donate_one_spec cfg Hcfg Hdm _ _ _ _ _ _ w W Hinit p pr Hp (wrap 32 (t_stack_pageset a)) init_none) as (r & w1 & -> & Hr).
  { intros w' kva E. eexists. split; [reflexivity|]. intros w2 E2. by eapply none_writes, (f_equal Ret E2). }
  rewrite bind_Ret. destruct r as [s|err].
  2:{ destruct Hr as (Hwhy & Herr & W1 & U & _). eexists _, _. split; [reflexivity|]. left. split; [done|]. left. split; [|done]. right. right.
      destruct Hwhy as [Hy|[Hy|(-> & w' & kva & e & E & Ee)]]; [by left|by right|done]. }
  destruct Hr as (hs & xs & i2 & w0 & w2 & D1 & oB1 & oD1 & DP1 & Epr1 & A1 & A2 & A3 & A4 & A5 & Ei & _ & Ew1 & Eth1 & Etp1 & _ & W1).
  destruct (none_writes _ _ _ Ei) as [_ ->]. rewrite A1 in Etp1. by eapply (second_spec hs s xs i2 w0 w1 D1 oB1 oD1).
Qed.
End CreateThread.
