(* ===== verification/WorldSafe.v ===== *)
(** Histories of the kernel's page calls, of the creation of processes, threads
    and objects, and of thread exit: the ownership of the kernel's pages and the
    meaning of every handle hold after every step, whatever the order, and no
    step panics. The theorems on src/process.rs, on the donations of
    src/syscall/handler.rs and on the exit half of src/sched/scheduler.rs, with a
    running example. *)

From Stdlib Require Import ZArith Lia.
From stdpp Require Import base option gmap numbers sets fin_sets list.
From S2P Require Import Ipc IpcState KSched DmaSync Prelude Frames Buddy BuddyInv Pools FrameAlloc PageSet Ownership KPageSet HeaderFrame PageTable Vmem Kvm KvmPool Handles Revoke SysPages SysSafe AddrSpace Process ProcSpec ProcSafe ProcCreate ProcExit KernelObjects ObjSafe.
Open Scope Z_scope.

(** * Events *)

(** One turn under the kernel lock: a page or handle call of process [p], a
    call of process [p] that makes a process, an object or a thread, or the end
    of the exit of thread [tcb] of slot [idx]. *)
Inductive WorldEvent :=
  | PageCall (p : Z) (c : Call)
  | CreateProcess (p : Z) (a : CreateArgs) (mem : Z -> Z -> ProcessMapping)
  | CreateObject (p : Z) (c : ObjectCall) (gpr0 : Z)
  | CreateThread (p : Z) (a : ThreadArgs)
  | ThreadExit (idx : nat) (tcb : Z).

Definition world_step (cfg : Config) (w : World) (e : WorldEvent) : outcome World :=
  match e with
  | PageCall p c => x ← handle_syscall cfg (w_k w) p c; Ret (set_k w x.2)
  | CreateProcess p a mem => x ← create_process cfg w p a mem; Ret x.2
  | CreateObject p c gpr0 => x ← object_call cfg w p c gpr0; Ret x.2
  | CreateThread p a => x ← sys_create_thread cfg w p a; Ret x.2
  | ThreadExit idx tcb => finish_exit cfg w idx tcb
  end.

Fixpoint run_world (cfg : Config) (w : World) (es : list WorldEvent) : outcome World :=
  match es with [] => Ret w | e :: es' => w' ← world_step cfg w e; run_world cfg w' es' end.

(** The handles of a creation: the donated PageSet is neither the stack nor
    the scratch memory. *)
Definition handles_apart (pr : Proc) (a : CreateArgs) : Prop :=
  forall kva, donated pr a kva -> ~ names pr (a_stack_pageset_id a) kva /\ ~ names pr (a_scratch_pageset_id a) kva.

(** The registers of a creation, which are 64 bits wide, and the pages its
    mapping list names. *)
Definition registers_ok (a : CreateArgs) (mem : Z -> Z -> ProcessMapping) : Prop :=
  0 <= a_mappings_ptr a < 2 ^ 64 /\ 0 <= a_mapping_count a < 2 ^ 64 /\ forall i x, 0 <= pm_page_index (mem i x).

(** The mapping count and the largest stack add up within 64 bits. *)
Definition count_ok (a : CreateArgs) : Prop := a_mapping_count a + MAX_PRACTICAL_PAGES_PER_SET < 2 ^ 64.

(** No process maps a PageSet twice over the same addresses. *)
Definition no_overlaps (k : Kernel) : Prop := forall j e, table (k_mem k) !! j = Some (Some e) -> no_overlap k e.

(** The thread [tcb] of slot [idx] can exit: it is not the boot thread and not
    the last one of an immortal process. *)
Definition may_exit (w : World) (idx : nat) (tcb : Z) : Prop :=
  k_threads (w_k w) !! idx = Some (Some tcb) /\
  exists p b, k_tcb_process (w_k w) !! tcb = Some p /\ is_Some (k_procs (w_k w) !! p) /\ w_stacks w !! tcb = Some b /\ (forall va, b <> Image va) /\
    forall o, w_objs w !! p = Some o -> po_immortal o = true -> 1 < po_threads o.

(** Thread [t] of slot [i] runs in process [p], whose objects are [pr] and [o], on
    the stack [b] at [st] in the direct map or in the pool, and is not the last
    thread of an immortal process. *)
Definition exiting (w : World) (i : nat) (t p : Z) (pr : Proc) (b : KernelStackBase) (st : Z) (o : ProcessObject) : Prop :=
  k_threads (w_k w) !! i = Some (Some t) /\ k_tcb_process (w_k w) !! t = Some p /\ k_procs (w_k w) !! p = Some pr /\
  (b = DirectMap st \/ b = KSched.Pool st) /\ w_stacks w !! t = Some b /\ w_objs w !! p = Some o /\ (po_immortal o = true -> 1 < po_threads o).

(** When an event can happen: its process exists and its registers hold
    64-bit values; objects and threads are made once the pool is set up. *)
Definition event_possible (w : World) (e : WorldEvent) : Prop :=
  match e with
  | PageCall p c => call_ok (w_k w) (p, c)
  | CreateProcess p a mem => is_Some (k_procs (w_k w) !! p) /\ registers_ok a mem
  | CreateObject p _ _ | CreateThread p _ => is_Some (k_procs (w_k w) !! p) /\ p_initialized (w_pool w) = true
  | ThreadExit idx tcb => may_exit w idx tcb
  end.

(** What safety asks of a creation of a process beyond that, and the code does
    not check: the mapping count is not near 2^64, the donated PageSet is
    neither the stack nor the scratch memory, and no process has mapped a
    PageSet twice over the same addresses. *)
Definition creation_ok (w : World) (e : WorldEvent) : Prop :=
  match e with
  | CreateProcess p a _ => count_ok a /\ (forall pr, k_procs (w_k w) !! p = Some pr -> handles_apart pr a) /\ no_overlaps (w_k w)
  | _ => True
  end.

(** No endpoint has given out 2^64 identities. *)
Definition identities_left (w : World) (_ : WorldEvent) : Prop := tokens_left (w_k w) 1.

Definition event_ok (w : World) (e : WorldEvent) : Prop := identities_left w e /\ event_possible w e /\ creation_ok w e.

(** Every event of the history has [P] when its turn comes. *)
Fixpoint along_history (P : World -> WorldEvent -> Prop) (cfg : Config) (w : World) (es : list WorldEvent) : Prop :=
  match es with [] => True | e :: es' => P w e /\ forall w', world_step cfg w e = Ret w' -> along_history P cfg w' es' end.

Definition history_ok : Config -> World -> list WorldEvent -> Prop := along_history event_ok.

Lemma along_impl (P Q : World -> WorldEvent -> Prop) cfg es : (forall w e, P w e -> Q w e) ->
  forall w, along_history P cfg w es -> along_history Q cfg w es.
Proof. intros H. induction es as [|e es IH]; intros w Hh; [done|]. destruct Hh as [He Hs]. split; [by apply H|]. intros w' E. by apply IH, Hs. Qed.

(** The conditions on a history, one by one. *)
Lemma history_ok_iff cfg es : forall w, history_ok cfg w es <->
  along_history event_possible cfg w es /\ along_history creation_ok cfg w es /\ along_history identities_left cfg w es.
Proof.
  intros w. split.
  - intros H. split_and!; (eapply along_impl; [|exact H]); intros w1 e1 H1; apply H1.
  - revert w. induction es as [|e es IH]; intros w (H1 & H2 & H3); [done|].
    destruct H1 as [P1 S1], H2 as [P2 S2], H3 as [P3 S3]. split; [done|]. intros w' E. apply IH. by split_and!; [apply S1|apply S2|apply S3].
Qed.

(** The accounting and the ownership of pages hold. *)
Definition world_good (cfg : Config) (w : World) : Prop := exists own G D oB oD S, world_ok cfg own G D oB oD S w.

(** * Steps *)

Section Steps.
Context (cfg : Config) (Hcfg : config_ok cfg) (Hdm : direct_map_ok cfg).
Context (own : Z -> option Owner) (G D : gset Z) (oB oD : nat -> list Z) (S : gmap Z AS) (w : World) (W : world_ok cfg own G D oB oD S w).

(** A page call keeps every page's owner: it takes frames only for tables. *)
Lemma page_call_world p tgt k' : grown cfg G S k' -> step_frame p tgt (w_k w) k' ->
  exists G' D' oB' oD' S', world_ok cfg own G' D' oB' oD' S' (set_k w k').
Proof using Hcfg W.
  intros (G' & D' & oB' & oD' & S' & K' & HG & HS) F. exists G', D', oB', oD', S'.
  destruct (sf_threads _ _ _ _ F) as [E1 E2]. pose proof (wk_sys _ _ _ _ _ _ _ _ W) as K.
  assert (Hpr : forall q qr', k_procs k' !! q = Some qr' -> exists qr, k_procs (w_k w) !! q = Some qr /\ p_ttbr0 qr' = p_ttbr0 qr).
  { intros q qr' Hq. assert (is_Some (k_procs (w_k w) !! q)) as [qr Hqr].
    { apply (ok_live _ _ _ _ _ _ _ K). rewrite <- E1, <- E2. apply (ok_live _ _ _ _ _ _ _ K'). by eexists. }
    exists qr. split; [done|]. destruct (decide (q = tgt)) as [->|Hne].
    - destruct (sf_tgt _ _ _ _ F qr Hqr) as (sl & E & _). rewrite E in Hq. by injection Hq as <-.
    - rewrite (sf_procs _ _ _ _ F q Hne), Hqr in Hq. by injection Hq as <-. }
  constructor; cbn [set_k w_k w_objs w_stacks].
  - done.
  - intros idx l Hl. apply HG. by eapply wk_held.
  - intros r a q idx Hr Hq ->. destruct (HS r a _ Hr Hq) as [(a0 & Ha & Hq0)|Hn]; [by eapply wk_tables|].
    destruct (own idx) as [l|] eqn:El; [|done]. destruct Hn. pose proof (wk_held _ _ _ _ _ _ _ _ W _ _ El) as Hi.
    apply elem_of_map. exists idx. split; [|done].
    destruct (frame_of_eq cfg idx Hcfg) as [<- _]; [by apply (pt_G _ _ _ _ (iv_B _ _ _ _ _ _ _ (ok_mem _ _ _ _ _ _ _ K)))|]. by rewrite Z.div_mul.
  - intros q qr' Hq. destruct (Hpr q qr' Hq) as (qr & Hqr & Et). destruct (wk_objs _ _ _ _ _ _ _ _ W q qr Hqr) as (o & Ho & Hc & Hm).
    exists o. split; [done|]. unfold threads_of in *. rewrite E1, E2. split; [done|]. intros Hi. destruct (Hm Hi). constructor; try done. by rewrite Et.
  - intros q idx [qr' Hq] E. destruct (Hpr q qr' Hq) as (qr & Hqr & _). by eapply wk_procs.
  - rewrite E1. apply (wk_tcbs _ _ _ _ _ _ _ _ W).
  - rewrite E1. apply (wk_slots _ _ _ _ _ _ _ _ W).
  - rewrite E1. apply (wk_stacks _ _ _ _ _ _ _ _ W).
  - eapply pool_use_kept; [apply (wk_pool _ _ _ _ _ _ _ _ W)|done|done|done|]. intros t s. cbn [set_k w_k w_stacks]. by rewrite E1.
  - pose proof (wk_handles _ _ _ _ _ _ _ _ W) as Hs. destruct (k_procs (w_k w) !! tgt) as [pr|] eqn:Ht.
    + destruct (sf_tgt _ _ _ _ F pr Ht) as (sl & Ht' & _ & Hts). by apply (sound_step (w_k w) k' (w_ipc w) p tgt pr sl Hs Ht Hts Ht'), (sf_procs _ _ _ _ F).
    + apply (sound_less (w_k w)); [done| |intros x; apply (sf_tokens _ _ _ _ F)]. intros q i kind (qr & h & Hq & Hi & <-). right.
      assert (q <> tgt) by (intros ->; destruct (Hpr _ _ Hq) as (? & ? & _); congruence). rewrite (sf_procs _ _ _ _ F) in Hq by done. by exists qr, h.
Qed.

(** A creation that fails leaves the world, up to unreachable table memory. *)
Lemma failed_world m : kept S (w_k w) m -> world_ok cfg own G D oB oD S (set_k w (with_pt (w_k w) m)).
Proof using W.
  intros [Hs _]. pose proof W as [? ? ? ? ? ? ? ? Hpool Hh]. constructor; try done; [by apply sys_pt| |].
  - by eapply pool_use_kept; [exact Hpool|..].
  - apply (sound_less (w_k w)); [done| |done]. intros q i kind Hk. by right.
Qed.

Lemma create_spec p pr a mem : k_procs (w_k w) !! p = Some pr -> no_overlaps (w_k w) -> tokens_left (w_k w) 1 ->
  registers_ok a mem -> count_ok a -> handles_apart pr a ->
  exists r w', create_process cfg w p a mem = Ret (r, w') /\ creation cfg oB S w pr a mem r w'.
Proof using Hcfg Hdm W.
  intros Hp Hno Ht (R1 & R2 & R3) Hc Hap. apply (create_process_spec cfg Hcfg Hdm own G D oB oD S w W p pr Hp a mem); try done. unfold count_ok in Hc. lia.
Qed.

Lemma world_step_spec e : event_ok w e -> exists w', world_step cfg w e = Ret w' /\ world_good cfg w' /\ forall kva o, w_ipc w !! kva = Some o -> w_ipc w' !! kva = Some o.
Proof using Hcfg Hdm W.
  intros (Ht & He & Hcond). unfold identities_left in Ht. destruct e as [p c|p a mem|p c gpr0|p a|i t]; cbn [world_step event_possible creation_ok] in *.
  - destruct (call_spec cfg Hcfg _ _ _ _ _ _ p c (wk_sys _ _ _ _ _ _ _ _ W) He Ht) as (r & k' & -> & Hg & F). rewrite bind_Ret.
    destruct (page_call_world _ _ _ Hg F) as (G' & D' & oB' & oD' & S' & W'). eexists. split; [done|]. split; [|done]. by exists own, G', D', oB', oD', S'.
  - destruct He as ([pr Hp] & Hreg), Hcond as (Hcnt & Hap & Hno).
    destruct (create_spec p pr a mem Hp Hno Ht Hreg Hcnt (Hap pr Hp)) as (r & w' & -> & Hc). rewrite bind_Ret.
    eexists. split; [done|]. cbn [snd]. destruct r as [u|err]; cbn [creation] in Hc.
    + destruct Hc as (n & own' & G' & D' & oB' & oD' & S' & W' & C). split; [by exists own', G', D', oB', oD', S'|]. by rewrite (cr_ipc _ _ _ _ _ _ _ _ _ _ C).
    + destruct Hc as (m & -> & Hk). split; [|done]. exists own, G, D, oB, oD, S. by apply failed_world.
  - destruct He as [[pr Hp] Hinit]. destruct (object_call_spec cfg Hcfg Hdm _ _ _ _ _ _ w W Hinit p pr Hp c gpr0) as (r & w' & -> & Hc). rewrite bind_Ret.
    eexists. split; [done|]. destruct r as [n|err]; cbn [object_creation snd] in *.
    + destruct Hc as (hdr & kva & x & i & D' & oB' & oD' & M & W'). split; [by eexists _, _, D', oB', oD', S|]. rewrite (om_ipc _ _ _ _ _ _ _ _ _ _ _ _ _ _ M).
      intros kva' o Ho. rewrite lookup_insert_ne; [done|]. intros ->. destruct (dp_fresh _ _ _ _ _ _ _ _ _ _ _ (om_page _ _ _ _ _ _ _ _ _ _ _ _ _ _ M)). congruence.
    + destruct Hc as (_ & _ & W' & U). split; [by exists own, G, D, oB, oD, S|]. destruct (un_objs _ _ U) as (_ & _ & ->). done.
  - destruct He as [[pr Hp] Hinit]. destruct (create_thread_spec cfg Hcfg Hdm _ _ _ _ _ _ w W Hinit p pr Hp a) as (r & w' & -> & Hc). rewrite bind_Ret.
    eexists. split; [done|]. cbn [snd]. destruct Hc as [[_ [(_ & W' & U)|Hl]]|(_ & s & t & xs & xt & i2 & i1 & n & o & D' & oB' & oD' & M & W')].
    + split; [by exists own, G, D, oB, oD, S|]. destruct (un_objs _ _ U) as (_ & _ & ->). done.
    + destruct Hl as (hs & s & xs & i & w1 & D' & oB' & oD' & _ & _ & _ & _ & _ & Ei & U & W'). split; [by eexists _, _, D', oB', oD', S|].
      destruct (un_objs _ _ U) as (_ & _ & ->). by rewrite Ei.
    + split; [by eexists _, _, D', oB', oD', S|]. by rewrite (tm_ipc _ _ _ _ _ _ _ _ _ _ _ _ _ _ _ _ M).
  - destruct He as (Hi & p & b & Hp & [pr Hpr] & Hst & Hb & Him). destruct (wk_objs _ _ _ _ _ _ _ _ W p pr Hpr) as (o & Ho & _).
    assert (Hst' : exists st, b = DirectMap st \/ b = KSched.Pool st) by (destruct b as [va|s|s]; [by destruct (Hb va)|exists s; by right|exists s; by left]).
    destruct Hst' as [st Hst']. destruct (thread_exit_spec cfg Hcfg Hdm _ _ _ _ _ _ _ W i t p pr Hi Hp Hpr b st Hst' Hst o Ho (Him o Ho)) as (w' & G' & oB' & oD' & S' & -> & W' & X).
    eexists. split; [done|]. split; [by eexists _, G', D, oB', oD', S'|]. by rewrite (ex_ipc _ _ _ _ _ _ _ _ _ _ _ _ _ _ _ _ X).
Qed.
End Steps.

Lemma run_world_spec cfg : config_ok cfg -> direct_map_ok cfg -> forall es w, world_good cfg w -> history_ok cfg w es ->
  exists w', run_world cfg w es = Ret w' /\ world_good cfg w' /\ forall kva o, w_ipc w !! kva = Some o -> w_ipc w' !! kva = Some o.
Proof.
  intros C Dm. induction es as [|e es IH]; intros w Hw Hh; cbn [run_world]; [by exists w|].
  destruct Hw as (own & G & D & oB & oD & S & W), Hh as [He Hes].
  destruct (world_step_spec cfg C Dm _ _ _ _ _ _ _ W e He) as (w1 & E & W1 & H1). rewrite E, bind_Ret.
  destruct (IH w1 W1 (Hes w1 E)) as (w' & E' & W' & H'). exists w'. split; [done|]. split; [done|]. intros kva o Ho. by apply H', H1.
Qed.

(** * An example world *)

(** The frames a caller takes one by one. *)
Lemma take_frame cfg D oB oD s0 (H : gset Z) s p s' : config_ok cfg -> kheld cfg D oB oD s0 H s ->
  @fr_alloc_page KMem (kframes cfg) s = Ret (Some p, s') -> kheld cfg D oB oD s0 (H ∪ {[p]}) s'.
Proof.
  intros C Hh E. destruct (@fr_alloc_law KMem (kframes cfg) _ (kheld_laws cfg D oB oD s0 C) H s Hh) as (r & s1 & E' & Hr).
  rewrite E in E'. injection E' as <- <-. by destruct Hr as (_ & _ & ?).
Qed.

Lemma empty_sound k ipc : (forall p pr i h, k_procs k !! p = Some pr -> p_table pr !! i = Some h -> h = EMPTY) -> k_next_token k = ∅ -> handles_sound k ipc.
Proof.
  intros H Et. assert (He : forall q i kind, at_slot k q i kind -> kind = HEmpty) by (intros q i kind (pr & h & Hq & Hi & <-); by rewrite (H _ _ _ _ Hq Hi)).
  constructor.
  - by intros q i kind ->%He.
  - by intros q q' i i' kva t ?%He.
  - intros kva. unfold next_token_of. by rewrite Et.
Qed.

(** [n] pages of RAM from address 4096 on, all free but the four tables of
    [ex_mem]; process 77 runs in their address space on a boot stack. *)
Definition bx_cfg (n : Z) : Config := mkConfig (mkPlatform 4096 (n * 4096)) 1048576 0.
Definition bx_buddy (n : Z) : BuddyAllocator :=
  match add_range (mkBuddy ∅ ∅ n 0) 0 n with Ret b => b | Panic _ => mkBuddy ∅ ∅ n 0 end.
Definition bx_take (n : Z) (s : KMem) : KMem := match @fr_alloc_page KMem (kframes (bx_cfg n)) s with Ret (_, s') => s' | Panic _ => s end.
Definition bx_kernel (s : KMem) : Kernel := mkKernel s ex_mem {[77 := mkProc 4096 (replicate 16 EMPTY)]} [Some 6; None; None] {[6 := 77]} ∅.
Definition bx_world (s : KMem) (pl : KvmPool.Pool unit) : World := mkWorld (bx_kernel s) {[77 := mkPObj 0 1 true []]} {[6 := Image 0]} pl ∅ ∅.

Lemma bx_thread t : Some t ∈ [Some 6; None; None] -> t = 6.
Proof. set_solver. Qed.

Section Boot.
Context (n : Z) (Hn : 0 < n <= MAX_PAGES).

Lemma bx_cfg_ok : config_ok (bx_cfg n).
Proof using Hn.
  unfold MAX_PAGES in Hn. constructor; [constructor|]; unfold total_pages, ram_end, bx_cfg, PAGE_SIZE, MAX_PAGES; cbn [plat ram_base ram_size]; try done; try lia.
  rewrite Z.div_mul; lia.
Qed.

Lemma bx_total : total_pages (plat (bx_cfg n)) = n.
Proof using. unfold total_pages, bx_cfg, PAGE_SIZE. cbn [plat ram_size]. by rewrite Z.div_mul. Qed.

Lemma bx_free : kheld (bx_cfg n) ∅ (fun _ => []) (fun _ => []) (kboot (bx_buddy n)) (∅ : gset Z) (kboot (bx_buddy n)).
Proof using Hn.
  destruct (add_range_spec (mkBuddy ∅ ∅ n 0) 0 n) as (b & E & [Wb Tb _ Ab]); try (cbn; lia).
  - apply (init_view n ltac:(lia)).
  - intros p _. apply page_free_empty.
  - assert (bx_buddy n = b) as -> by (unfold bx_buddy; rewrite E; reflexivity). clear E.
    assert (Ha : forall p, abit b p = false).
    { destruct (init_view n ltac:(lia)) as [_ _ _ A0]. intros p. by rewrite Ab, A0. }
    exists ∅. refine (conj _ (conj _ (conj eq_refl (conj eq_refl (conj eq_refl eq_refl))))).
    { intros q. split; [intros Hq; by apply elem_of_empty in Hq|intros (i & Hi & _); by apply elem_of_empty in Hi]. }
    apply kboot_held; [apply bx_cfg_ok|done|by rewrite bx_total| |intros x Hx; by apply elem_of_empty in Hx]. intros x _ Hx. by rewrite Ha in Hx.
Qed.

Lemma bx_taken p s (H : gset Z) : kheld (bx_cfg n) ∅ (fun _ => []) (fun _ => []) (kboot (bx_buddy n)) H s ->
  (match @fr_alloc_page KMem (kframes (bx_cfg n)) s with Ret (Some q, _) => q =? p | _ => false end) = true ->
  kheld (bx_cfg n) ∅ (fun _ => []) (fun _ => []) (kboot (bx_buddy n)) (H ∪ {[p]}) (bx_take n s).
Proof using Hn.
  intros Hh E. unfold bx_take. destruct (@fr_alloc_page KMem (kframes (bx_cfg n)) s) as [[[q|] s']|] eqn:Es; try done.
  apply Z.eqb_eq in E as ->. by eapply take_frame; [apply bx_cfg_ok| |].
Qed.

Lemma bx_sys G s : inv (bx_cfg n) G ∅ None (fun _ => []) (fun _ => []) s -> table s = Tbl.new -> (forall q, q ∈ [1; 2; 3; 4] -> q ∈ (set_map (frame_of (bx_cfg n)) G : gset Z)) ->
  sys_ok (bx_cfg n) G ∅ (fun _ => []) (fun _ => []) {[4096 := ex_as]} (bx_kernel s).
Proof using Hn.
  intros I Et HG. assert (K0 : sys_ok (bx_cfg n) G ∅ (fun _ => []) (fun _ => []) ∅ (mkKernel s ex_mem ∅ [None; None; None] ∅ ∅)).
  { assert (Ht : forall j e, table s !! j <> Some (Some e)).
    { intros j e. rewrite Et. unfold Tbl.new. intros [? _]%lookup_replicate. done. }
    constructor; cbn [k_mem k_pt k_procs k_threads k_tcb_process]; try done.
    - intros t Hin. set_solver.
    - intros p. unfold procs_of. cbn. rewrite lookup_empty, elem_of_nil. split; [tauto|by intros [? ?]].
    - intros j e He. by destruct (Ht j e). }
  pose proof (sys_space (bx_cfg n) _ _ _ _ _ _ 4096 ex_as K0 eq_refl) as K1. rewrite insert_empty in K1. specialize (K1 PageTable.ex_spaces).
  pose proof (sys_start (bx_cfg n) G ∅ (fun _ => []) (fun _ => []) {[4096 := ex_as]} (mkKernel s ex_mem ∅ [None; None; None] ∅ ∅) 77 4096 (replicate 16 EMPTY) 6 0) as K2.
  cbn [k_mem k_pt k_procs k_threads k_tcb_process k_next_token] in K2. rewrite !insert_empty in K2. apply K2; try done.
  - apply K1. intros q Hq. apply HG.
    assert (q = 4096 \/ q = 8192 \/ q = 12288 \/ q = 16384) as Hcase.
    { destruct Hq as [->|[->|[->|[k Hk]]]]; [tauto..|]. cbn in Hk. destruct (k =? 0); [|done]. injection Hk as <-. tauto. }
    rewrite !elem_of_cons. destruct Hcase as [->|[->|[->| ->]]]; vm_compute; tauto.
  - set_solver.
  - intros i h kva mv [-> _]%lookup_replicate. done.
Qed.

Lemma bx_odd x idx : x mod 4096 <> 0 -> x <> kva_of (bx_cfg n) idx.
Proof using.
  intros Hx ->. apply Hx. unfold kva_of, addr_of. cbn [bx_cfg plat ram_base]. apply Z.mod_divide; [done|].
  exists (1 + idx + KERNEL_VA_OFFSET / 4096). change KERNEL_VA_OFFSET with (KERNEL_VA_OFFSET / 4096 * 4096) at 1. unfold PAGE_SIZE. lia.
Qed.

(** Boot with the pages of [own] given out, none of them a table. *)
Lemma bx_good own G s pl : sys_ok (bx_cfg n) G ∅ (fun _ => []) (fun _ => []) {[4096 := ex_as]} (bx_kernel s) -> (forall idx l, own idx = Some l -> idx ∈ G) ->
  (forall a q idx, a = ex_as -> as_page 4096 a q -> q = addr_of (bx_cfg n) idx -> own idx = None) -> pool_use (bx_cfg n) own (bx_world s pl) ->
  world_ok (bx_cfg n) own G ∅ (fun _ => []) (fun _ => []) {[4096 := ex_as]} (bx_world s pl).
Proof using Hn.
  intros K Hown Htab Hpool. constructor; cbn [bx_world w_k w_objs w_stacks bx_kernel k_procs k_threads]; try done.
  - intros r a q idx [<- <-]%lookup_singleton_Some Hq. by apply (Htab ex_as).
  - intros p pr [<- <-]%lookup_singleton_Some. eexists. split; [apply lookup_singleton_eq|]. done.
  - intros p idx [pr [<- _]%lookup_singleton_Some] E. by destruct (bx_odd 77 idx).
  - intros t idx Hin E. assert (t = 6) as -> by set_solver. by destruct (bx_odd 6 idx).
  - intros [|[|[|i]]] [|[|[|j]]] t Hi Hj; cbn in Hi, Hj; rewrite ?lookup_nil in Hi; rewrite ?lookup_nil in Hj; done || congruence.
  - intros t Hin. assert (t = 6) as -> by set_solver. exists (Image 0). split; [apply lookup_singleton_eq|]. split; [done|]. intros va _. unfold KVM_POOL_BASE. lia.
  - apply empty_sound; [|done]. cbn [w_k bx_world bx_kernel k_procs]. by intros p pr i h [<- <-]%lookup_singleton_Some [-> _]%lookup_replicate.
Qed.
End Boot.

(** Sixty-four pages, and no pool. *)
Definition wx_cfg : Config := bx_cfg 64.
Definition wx_mem : KMem := Nat.iter 4 (bx_take 64) (kboot (bx_buddy 64)).
Definition wx_boot : World := bx_world wx_mem (mkPool [] 0 false ∅ tt).

Lemma wx_pages : 0 < 64 <= MAX_PAGES.
Proof. unfold MAX_PAGES. lia. Qed.

Lemma wx_cfg_ok : config_ok wx_cfg.
Proof. apply bx_cfg_ok, wx_pages. Qed.

Lemma wx_direct_map : direct_map_ok wx_cfg.
Proof. unfold direct_map_ok. by vm_compute. Qed.

Lemma wx_held : kheld wx_cfg ∅ (fun _ => []) (fun _ => []) (kboot (bx_buddy 64)) (((({[1]} ∪ {[2]}) ∪ {[3]}) ∪ {[4]}) : gset Z) wx_mem.
Proof.
  unfold wx_mem. cbn [Nat.iter]. pose proof (bx_taken 64 wx_pages) as Hs.
  apply (Hs 4); [|by vm_compute]. apply (Hs 3); [|by vm_compute]. apply (Hs 2); [|by vm_compute].
  rewrite <- (union_empty_l_L {[1]}). apply (Hs 1); [exact (bx_free 64 wx_pages)|by vm_compute].
Qed.

Lemma wx_boot_good : world_good wx_cfg wx_boot.
Proof.
  destruct (kheld_image _ _ _ _ _ _ _ wx_held) as (G & EK & I & _). assert (Et : table wx_mem = Tbl.new) by (by vm_compute).
  assert (K : sys_ok wx_cfg G ∅ (fun _ => []) (fun _ => []) {[4096 := ex_as]} (bx_kernel wx_mem)).
  { revert I Et. unfold wx_boot. generalize wx_mem. intros s I Et. apply (bx_sys 64 wx_pages G s I Et). intros q Hq. fold wx_cfg. rewrite <- EK. set_solver. }
  exists (fun _ => None), G, ∅, (fun _ => []), (fun _ => []), {[4096 := ex_as]}. apply (bx_good 64 wx_pages); [exact K|done|done|].
  clear. split; [done|]. intros t s Hin. apply bx_thread in Hin as ->. cbn [w_stacks wx_boot bx_world]. by rewrite lookup_singleton_eq.
Qed.

Definition after_step (cfg : Config) (w : World) (e : WorldEvent) : World := match world_step cfg w e with Ret w' => w' | Panic _ => w end.
Definition after : World -> WorldEvent -> World := after_step wx_cfg.

(** Process 77 allocates a donation of 20 pages and a page each for the stack,
    the scratch memory and the code, and creates a process from them, which
    maps the code at 4 MiB. *)
Definition wx_alloc (n : Z) : WorldEvent := PageCall 77 (AllocPages n 0).
Definition wx_args : CreateArgs := mkArgs 20480 1 1 2 U64_MAX 0 4194304.
Definition wx_maps (i x : Z) : ProcessMapping := mkPM 4194304 3 0 1.
Definition wx_1 : World := after wx_boot (wx_alloc 20).
Definition wx_2 : World := after wx_1 (wx_alloc 1).
Definition wx_3 : World := after wx_2 (wx_alloc 1).
Definition wx_ready : World := after wx_3 (wx_alloc 1).
Definition wx_started : World := after wx_ready (CreateProcess 77 wx_args wx_maps).
Definition wx_tcb : Z := 18446462598732873728.

Lemma history_cons cfg w e es w1 : w1 = after_step cfg w e -> event_ok w e -> history_ok cfg w1 es -> history_ok cfg w (e :: es).
Proof. intros -> He Hs. split; [done|]. intros w' E. unfold after_step in Hs. by rewrite E in Hs. Qed.

Lemma no_tokens k n : k_next_token k = ∅ -> 0 <= n < 1000 -> tokens_left k n.
Proof. intros E Hn x. unfold next_token_of. rewrite E, lookup_empty. cbn. lia. Qed.

(** No handle of [k] is mapped. *)
Definition unmapped_handle (h : HandleEntry) : bool := match h_kind h with HPageSet _ mv => mv =? 0 | _ => true end.

Lemma unmapped_no_overlaps k : (forall p pr, k_procs k !! p = Some pr -> forallb unmapped_handle (p_table pr) = true) -> no_overlaps k.
Proof.
  intros H j e _ p pr Hp i i' a a' Ha _ _ Hm _. apply list_elem_of_lookup_2 in Ha. specialize (H p pr Hp). rewrite forallb_forall in H.
  unfold actions in Ha. apply list_elem_of_omap in Ha as (h & Hh & E). apply list_elem_of_In in Hh. specialize (H h Hh).
  unfold revoke_action in E. unfold unmapped_handle in H. destruct (h_kind h); try done. destruct (negb _); [done|].
  injection E as <-. cbn in Hm. by rewrite H in Hm.
Qed.

Definition wx_table : list HandleEntry := (fun kva => mkHandle 3 (HPageSet kva 0)) <$> [1048576; 1183744; 1318912; 1454080].

Lemma wx_ready_procs : k_procs (w_k wx_ready) = {[77 := mkProc 4096 (wx_table ++ replicate 12 EMPTY)]}.
Proof. by vm_compute. Qed.

Lemma wx_create_apart pr : k_procs (w_k wx_ready) !! 77 = Some pr -> handles_apart pr wx_args.
Proof.
  rewrite wx_ready_procs, lookup_singleton_eq. intros [= <-] kva (entry & mv & E & Hk). vm_compute in E. injection E as <-. vm_compute in Hk. injection Hk as <- <-.
  split; intros (entry & mv & E & Hk); vm_compute in E; injection E as <-; vm_compute in Hk; congruence.
Qed.

Lemma wx_no_overlaps : no_overlaps (w_k wx_ready).
Proof. apply unmapped_no_overlaps. rewrite wx_ready_procs. by intros p pr [<- <-]%lookup_singleton_Some. Qed.

Lemma wx_registers : registers_ok wx_args wx_maps.
Proof. unfold registers_ok. cbn. split_and!; intros; lia. Qed.

Lemma wx_create_ok : event_ok wx_ready (CreateProcess 77 wx_args wx_maps).
Proof.
  split; [apply no_tokens; [by vm_compute|lia]|]. split.
  - split; [rewrite wx_ready_procs; eexists; apply lookup_singleton_eq|apply wx_registers].
  - split_and!; [unfold count_ok, MAX_PRACTICAL_PAGES_PER_SET; cbn; lia|apply wx_create_apart|apply wx_no_overlaps].
Qed.

Lemma wx_exit_ok : event_ok wx_started (ThreadExit 1 wx_tcb).
Proof.
  split; [apply no_tokens; [by vm_compute|lia]|]. split; [|done]. split; [by vm_compute|]. eexists _, _. split; [by vm_compute|]. split; [eexists; by vm_compute|]. split; [by vm_compute|]. split; [done|].
  intros o Ho. vm_compute in Ho. injection Ho as <-. done.
Qed.

Definition wx_history : list WorldEvent := [wx_alloc 20; wx_alloc 1; wx_alloc 1; wx_alloc 1; CreateProcess 77 wx_args wx_maps; ThreadExit 1 wx_tcb].

Lemma wx_alloc_ok w n : k_next_token (w_k w) = ∅ -> bool_decide (is_Some (k_procs (w_k w) !! 77)) && (0 <=? n) = true -> event_ok w (wx_alloc n).
Proof.
  intros E [Hp%bool_decide_eq_true Hn%Z.leb_le]%andb_true_iff. split; [by apply no_tokens|]. by split; [split|].
Qed.

Lemma wx_history_ok : history_ok wx_cfg wx_boot wx_history.
Proof.
  unfold wx_history.
  apply (history_cons _ _ _ _ wx_1); [unfold wx_1; reflexivity|apply wx_alloc_ok; by vm_compute|].
  apply (history_cons _ _ _ _ wx_2); [unfold wx_2; reflexivity|apply wx_alloc_ok; by vm_compute|].
  apply (history_cons _ _ _ _ wx_3); [unfold wx_3; reflexivity|apply wx_alloc_ok; by vm_compute|].
  apply (history_cons _ _ _ _ wx_ready); [unfold wx_ready; reflexivity|apply wx_alloc_ok; by vm_compute|].
  apply (history_cons _ _ _ _ wx_started); [unfold wx_started; reflexivity|exact wx_create_ok|].
  split; [exact wx_exit_ok|]. by intros.
Qed.

(** The worlds of the example are good, whatever their accounting. *)
Lemma wx_good w e : world_good wx_cfg w -> event_ok w e -> world_good wx_cfg (after w e).
Proof.
  intros (own & G & D & oB & oD & S & W) He.
  destruct (world_step_spec wx_cfg wx_cfg_ok wx_direct_map _ _ _ _ _ _ _ W e He) as (w' & E & W' & _). unfold after, after_step. by rewrite E.
Qed.

Lemma wx_ready_good : world_good wx_cfg wx_ready.
Proof. do 4 (apply wx_good; [|apply wx_alloc_ok; by vm_compute]). apply wx_boot_good. Qed.

Lemma wx_started_good : world_good wx_cfg wx_started.
Proof. apply wx_good; [apply wx_ready_good|apply wx_create_ok]. Qed.

(** * Theorems *)

(** C6: Process creation is all or nothing and exact. Take a world whose
    accounting and page ownership hold, and a create_process with any 64-bit
    argument registers, any handles of the caller and any mapping list, under
    four conditions the code relies on but does not check, without each of
    which the kernel can panic: the mapping count and the largest stack add up
    within 64 bits ([count_ok]); the donated PageSet is neither the stack nor
    the scratch memory ([handles_apart]); no process has mapped a PageSet twice
    over the same addresses ([no_overlaps]); and no endpoint has given out 2^64
    identities ([tokens_left]). Then create_process does not panic. On every
    error path each PageSet, handle, count, process, thread and each mapping of
    every address space is as before. On success there is exactly one more
    process, on a page no process used, with one thread in a free slot, which
    starts in user mode at the entry point with the top of the new stack and
    has a canary below it, and a handle table that is empty but for the copied
    handle; its address space maps the caller's list and the stack pages and
    nothing else; it owns exactly the pages mapped; the donated, the stack and
    the mapped PageSets are gone from the table, from every handle table and
    from every address space, nothing else is; and the accounting and the
    ownership hold again. *)
Theorem create_process_exact cfg own G D oB oD S w p pr a mem :
  config_ok cfg -> direct_map_ok cfg -> world_ok cfg own G D oB oD S w -> k_procs (w_k w) !! p = Some pr -> registers_ok a mem ->
  count_ok a -> handles_apart pr a -> no_overlaps (w_k w) -> tokens_left (w_k w) 1 ->
  exists r w', create_process cfg w p a mem = Ret (r, w') /\ creation cfg oB S w pr a mem r w'.
Proof. intros C Dm W Hp Hr Hc Hap Hno Ht. by apply (create_spec cfg C Dm own G D oB oD S w W p pr). Qed.

Lemma create_process_exact_witness :
  exists w' pr oB S n S', create_process wx_cfg wx_ready 77 wx_args wx_maps = Ret (Ok tt, w') /\ created wx_cfg oB S wx_ready pr wx_args wx_maps n S' w'.
Proof.
  destruct wx_ready_good as (own & G & D & oB & oD & S & W). destruct wx_create_ok as (Ht & ([pr Hp] & Hr) & Hc & Hap & Hno).
  destruct (create_process_exact wx_cfg own G D oB oD S wx_ready 77 pr wx_args wx_maps wx_cfg_ok wx_direct_map W Hp Hr Hc (Hap pr Hp) Hno Ht) as (r & w' & E & Hcr).
  assert (Hok : match create_process wx_cfg wx_ready 77 wx_args wx_maps with Ret (Ok _, _) => true | _ => false end = true) by (vm_compute; reflexivity).
  rewrite E in Hok. destruct r as [[]|]; [|discriminate Hok]. destruct Hcr as (n & own' & G' & D' & oB' & oD' & S' & _ & Hcr).
  exists w', pr, oB, S, n, S'. split; [exact E|exact Hcr].
Defined.

(** C7: Thread exit is exact. When a thread exits, finish_exit never panics;
    its slot is free, its stack and TCB frames (in the direct map or mapped in
    the pool) go back to the frame allocator, and unless it was the last thread
    of its process that is all. With the last thread the process goes: its ProcessObject and
    handle-table frames, exactly the pages it owned and exactly the tables of
    its address space are freed, each once, every PageSet it had a handle to
    loses those references and mappings and is freed when none is left, and no
    other frame, process, handle or mapping changes; the accounting and the
    ownership hold again. *)
Theorem finish_exit_exact cfg own G D oB oD S w i t p pr b st o :
  config_ok cfg -> direct_map_ok cfg -> world_ok cfg own G D oB oD S w -> exiting w i t p pr b st o ->
  exists w' G' oB' oD' S', finish_exit cfg w i t = Ret w' /\ world_ok cfg (own_in own G') G' D oB' oD' S' w' /\
    exited cfg G oB S w i t p pr b st o w' G' oB' S'.
Proof. intros C Dm W (Hi & Ht & Hp & Hb & Hst & Ho & Him). by apply (thread_exit_spec cfg C Dm own G D oB oD S w W i t p pr Hi Ht Hp b st Hb Hst o Ho). Qed.

Lemma finish_exit_exact_witness :
  exists w', finish_exit wx_cfg wx_started 1 wx_tcb = Ret w' /\ k_threads (w_k w') = [Some 6; None; None] /\
    exists p, k_tcb_process (w_k wx_started) !! wx_tcb = Some p /\ is_Some (k_procs (w_k wx_started) !! p) /\ k_procs (w_k w') !! p = None.
Proof.
  destruct wx_started_good as (own & G & D & oB & oD & S & W). destruct wx_exit_ok as (_ & (Hi & p & b & Ht & [pr Hp] & Hst & _ & Him) & _).
  assert (Hd : match w_stacks wx_started !! wx_tcb with Some (DirectMap _) => true | _ => false end = true) by (vm_compute; reflexivity).
  rewrite Hst in Hd. destruct b as [| |st]; [discriminate Hd|discriminate Hd|].
  destruct (wk_objs _ _ _ _ _ _ _ _ W p pr Hp) as (o & Ho & Hc & _).
  destruct (finish_exit_exact wx_cfg own G D oB oD S wx_started 1 wx_tcb p pr (DirectMap st) st o wx_cfg_ok wx_direct_map W
    (conj Hi (conj Ht (conj Hp (conj (or_introl eq_refl) (conj Hst (conj Ho (Him o Ho))))))))
    as (w' & G' & oB' & oD' & S' & E & _ & X). exists w'. split; [exact E|].
  pose proof (ex_threads _ _ _ _ _ _ _ _ _ _ _ _ _ _ _ _ X) as (Eth & _). pose proof (ex_procs _ _ _ _ _ _ _ _ _ _ _ _ _ _ _ _ X) as Ep.
  split; [rewrite Eth; vm_compute; reflexivity|]. exists p. split; [exact Ht|]. split; [by exists pr|].
  assert (Hl : match k_tcb_process (w_k wx_started) !! wx_tcb with Some q => match w_objs wx_started !! q with Some o' => last_thread o' | None => false end | None => false end = true)
    by (vm_compute; reflexivity).
  rewrite Ht, Ho in Hl. rewrite Ep, Hl. apply lookup_delete_eq.
Defined.

(** C2: Safety of histories. Take any history of page and handle calls, of
    creations of processes, endpoints, notifications, replies and threads, and
    of thread exits, by any processes and in any order, in which each event is
    possible when its turn comes ([event_possible]: the process exists, the
    registers hold 64-bit values, the pool is set up before objects are made in
    it, and a thread that exits is neither the boot thread nor the last of an
    immortal process). Two conditions are asked besides. Each creation of a
    process has the mapping count, the handles and the absence of overlapping
    mappings that the code relies on but does not check, and without which the
    kernel can panic ([creation_ok]). And no endpoint has given out 2^64
    identities ([identities_left]). Then the history runs to its end without a
    panic, and the accounting (reference and mapping counts, page tables,
    handle tables) and the ownership of pages (no frame is a table of one space
    and a page of another owner, no two owners share a frame, the pool maps
    exactly the pages of its threads and objects, thread counts are exact) hold
    at the end. *)
Theorem world_histories_safe cfg w es :
  config_ok cfg -> direct_map_ok cfg -> world_good cfg w ->
  along_history event_possible cfg w es -> along_history creation_ok cfg w es -> along_history identities_left cfg w es ->
  exists w', run_world cfg w es = Ret w' /\ world_good cfg w'.
Proof.
  intros C Dm Hw H1 H2 H3. destruct (run_world_spec cfg C Dm es w Hw (proj2 (history_ok_iff cfg es w) (conj H1 (conj H2 H3)))) as (w' & E & W' & _).
  by exists w'.
Qed.

Lemma world_histories_safe_witness :
  length wx_history = 6%nat /\ exists w', run_world wx_cfg wx_boot wx_history = Ret w' /\ world_good wx_cfg w'.
Proof.
  split; [reflexivity|]. destruct (proj1 (history_ok_iff _ _ _) wx_history_ok) as (H1 & H2 & H3).
  exact (world_histories_safe wx_cfg wx_boot wx_history wx_cfg_ok wx_direct_map wx_boot_good H1 H2 H3).
Defined.

(** C36: The two arguments create_process does not check. In the example world
    a process that passes a mapping count of 2^64 - 1 makes the kernel add past
    the machine word, and one that names its donated PageSet as the stack
    makes it consume that PageSet twice: both end in a kernel panic. *)
Theorem create_process_unchecked_args :
  create_process wx_cfg wx_ready 77 (mkArgs 20480 (2 ^ 64 - 1) 1 2 U64_MAX 0 4194304) wx_maps = Panic PArith /\
  create_process wx_cfg wx_ready 77 (mkArgs 20480 1 0 2 U64_MAX 0 4194304) wx_maps = Panic PAssert.
Proof. split; vm_compute; reflexivity. Qed.
