(* ===== verification/ObjWorld.v ===== *)
(** The theorems on kernel objects, threads and handles (src/syscall/handler.rs,
    src/ipc, src/sched/tcb.rs), with an example world whose pool of kernel
    addresses is set up. *)
From Stdlib Require Import ZArith Lia.
From stdpp Require Import base option gmap numbers sets fin_sets list.
From S2P Require Import Ipc IpcState KSched DmaSync Prelude Frames Buddy BuddyInv Pools FrameAlloc PageSet Ownership KPageSet HeaderFrame PageTable Vmem Kvm KvmPool KvmSafe Handles Revoke SysPages SysSafe AddrSpace Process ProcSpec ProcSafe ProcCreate ProcExit KernelObjects ObjSafe WorldSafe.
Open Scope Z_scope.

(** * Typed handles *)

(** What the handle of [kind] names: a registered PageSet, or an object of the
    handle's type, an identity on an endpoint being one the endpoint gave. *)
Definition names_object (w : World) (kind : HandleKind) : Prop :=
  match kind with
  | HEmpty => True
  | HPageSet kva _ => exists j e, table (k_mem (w_k w)) !! j = Some (Some e) /\ e_header_kva e = kva
  | HEndpoint kva tok => (exists o, w_ipc w !! kva = Some (IEndpoint o)) /\ forall t, tok = Some t -> 1 <= t < next_token_of (w_k w) kva
  | HNotification kva => exists o, w_ipc w !! kva = Some (INotification o)
  | HReply kva => exists o, w_ipc w !! kva = Some (IReply o)
  | HHandleTable _ | HThreadControlBlock _ | HProcess _ => False
  end.

(** Frame [x] is mapped at [kva], a page of the pool; it is taken from the frame
    allocator and no PageSet of its frames has it. (A PageSet that registers a
    device page has whatever address its maker gave.) *)
Record object_page (cfg : Config) (w : World) (kva x : Z) : Prop := {
  op_mapped : exists i, 0 <= i < POOL_PAGES /\ kva = va_of i /\ pool_entry w i = build_kernel_page (addr_of cfg x);
  op_taken : 0 <= x < total_pages (plat cfg) /\ abit (buddy (k_mem (w_k w))) x = true;
  op_apart : forall hdr j e n, buddy_set (w_k w) hdr j e -> 0 <= n -> ps_page (k_mem (w_k w)) hdr n <> Ret (Some (addr_of cfg x));
}.

Record typed (cfg : Config) (w : World) : Prop := {
  ty_handles : forall q i kind, at_slot (w_k w) q i kind -> names_object w kind;
  ty_tokens : forall q q' i i' kva t, at_slot (w_k w) q i (HEndpoint kva (Some t)) -> at_slot (w_k w) q' i' (HEndpoint kva (Some t)) -> q = q' /\ i = i';
  ty_objects : forall kva, is_Some (w_ipc w !! kva) -> exists x, object_page cfg w kva x;
  ty_pages : forall kva kva' x, is_Some (w_ipc w !! kva) -> is_Some (w_ipc w !! kva') -> object_page cfg w kva x -> object_page cfg w kva' x -> kva = kva';
}.

Section Typed.
Context (cfg : Config) (Hcfg : config_ok cfg).
Context (own : Z -> option Owner) (G D : gset Z) (oB oD : nat -> list Z) (S : gmap Z AS) (w : World) (W : world_ok cfg own G D oB oD S w).

Lemma frame_apart x : x ∈ G -> forall hdr j e n, buddy_set (w_k w) hdr j e -> 0 <= n -> ps_page (k_mem (w_k w)) hdr n <> Ret (Some (addr_of cfg x)).
Proof using W.
  intros Hx hdr j e n B Hn. pose proof (wk_sys _ _ _ _ _ _ _ _ W) as K. rewrite (ps_page_buddy _ _ _ _ _ _ _ K _ _ _ _ B Hn).
  destruct (oB j !! Z.to_nat n) as [y|] eqn:Ey; [|done]. intros [= Ea%addr_of_inj]. subst y. by destruct (pt_own _ _ _ _ (iv_B _ _ _ _ _ _ _ (ok_mem _ _ _ _ _ _ _ K)) _ _ _ Ey) as (_ & _ & []).
Qed.

Lemma object_frame kva : is_Some (w_ipc w !! kva) -> exists x, own x = Some (OObj kva) /\ object_page cfg w kva x.
Proof using W.
  intros [o Ho]. pose proof (wk_pool _ _ _ _ _ _ _ _ W) as Hu. unfold pool_use in Hu. destruct (p_initialized _); [|destruct Hu as [E _]; rewrite E in Ho; done].
  destruct Hu as [F PI]. destruct (pi_objs _ _ _ _ PI kva o Ho) as (i & x & -> & EF & Ex). destruct (pi_pages _ _ _ _ PI i _ EF) as [Hi _]. exists x. split; [done|].
  pose proof (wk_held _ _ _ _ _ _ _ _ W _ _ Ex) as Hx. constructor; [|by apply (pt_G _ _ _ _ (iv_B _ _ _ _ _ _ _ (ok_mem _ _ _ _ _ _ _ (wk_sys _ _ _ _ _ _ _ _ W))))|by apply frame_apart].
  exists i. split; [done|]. split; [done|]. by rewrite (entry_of cfg own w F i PI Hi), EF.
Qed.

(** The frame behind an object is labelled with it. *)
Lemma object_owner kva x o : w_ipc w !! kva = Some o -> object_page cfg w kva x -> own x = Some (OObj kva).
Proof using Hcfg W.
  intros Ho [(i & _ & -> & Ee) [Hx _] _]. destruct (object_frame _ (ex_intro _ _ Ho)) as (y & Ey & [(i' & _ & Ei & Ee') [Hy _] _]). apply va_of_inj in Ei as <-.
  assert (x = y) as ->; [|done]. apply (addr_of_inj cfg). rewrite <- (output_page _ (proj1 (addr_of_page cfg Hcfg x Hx))), <- (output_page _ (proj1 (addr_of_page cfg Hcfg y Hy))).
  destruct (kernel_page_fields (addr_of cfg x)) as [_ <-]. destruct (kernel_page_fields (addr_of cfg y)) as [_ <-]. congruence.
Qed.

Lemma world_typed : typed cfg w.
Proof using Hcfg W.
  pose proof (wk_handles _ _ _ _ _ _ _ _ W) as [H1 H2 _]. constructor.
  - intros q i kind Hs. specialize (H1 q i kind Hs). destruct kind; try done. destruct Hs as (pr & h & Hq & Hh & Ek).
    destruct (ok_handle _ _ _ _ _ _ _ (wk_sys _ _ _ _ _ _ _ _ W) q pr i h _ _ Hq Hh Ek) as (j & e & Hj & He & _). by exists j, e.
  - done.
  - intros kva Hk. destruct (object_frame kva Hk) as (x & _ & Hx). by exists x.
  - intros kva kva' x [o Ho] [o' Ho'] P1 P2. pose proof (object_owner kva x o Ho P1) as E1. pose proof (object_owner kva' x o' Ho' P2) as E2. congruence.
Qed.
End Typed.

(** * An example with a pool *)

(** Two thousand and forty-eight pages: the four tables of process 77 and, in
    the upper half, the 514 tables of the pool, whose L1 and L2 tables are
    linked and whose L3 tables are empty. *)
Definition wp_cfg : Config := bx_cfg 2048.
Definition wp_mem0 : KMem := Nat.iter 4 (bx_take 2048) (kboot (bx_buddy 2048)).
Definition wp_alloc (s : KMem) : KMem := match k_alloc_contiguous wp_cfg s 514 with Ret (_, s') => s' | Panic _ => s end.
Definition wp_mem : KMem := wp_alloc wp_mem0.
Definition wp_base : Z := 4198400.
Definition wp_tables : gmap Z Z := match stitch wp_base 0 ∅ with Ret m => m | Panic _ => ∅ end.
Definition wp_boot : World := bx_world wp_mem (mkPool new wp_base true wp_tables tt).

Lemma wp_pages : 0 < 2048 <= MAX_PAGES.
Proof. unfold MAX_PAGES. lia. Qed.

Lemma wp_cfg_ok : config_ok wp_cfg.
Proof. apply bx_cfg_ok, wp_pages. Qed.

Lemma wp_direct_map : direct_map_ok wp_cfg.
Proof. unfold direct_map_ok. by vm_compute. Qed.

Lemma wp_held0 : kheld wp_cfg ∅ (fun _ => []) (fun _ => []) (kboot (bx_buddy 2048)) (((((∅ ∪ {[1]}) ∪ {[2]}) ∪ {[3]}) ∪ {[4]}) : gset Z) wp_mem0.
Proof.
  unfold wp_mem0. cbn [Nat.iter]. pose proof (bx_taken 2048 wp_pages) as Hs.
  apply (Hs 4); [|by vm_compute]. apply (Hs 3); [|by vm_compute]. apply (Hs 2); [|by vm_compute].
  apply (Hs 1); [exact (bx_free 2048 wp_pages)|by vm_compute].
Qed.

(** The frames of the pool's tables, and those the allocator gave with them. *)
Definition wp_own (idx : Z) : option Owner := if decide (1024 <= idx < 2048) then Some OKvm else None.

Lemma wp_alloc_page : match k_alloc_contiguous wp_cfg wp_mem0 514 with Ret (Some p, _) => p =? 1025 | _ => false end = true.
Proof. by vm_compute. Qed.

Lemma wp_inv : exists G, inv wp_cfg G ∅ None (fun _ => []) (fun _ => []) wp_mem /\ table wp_mem = Tbl.new /\
  (forall q, q ∈ [1; 2; 3; 4] -> q ∈ (set_map (frame_of wp_cfg) G : gset Z)) /\ forall idx, 1024 <= idx < 2048 -> idx ∈ G.
Proof.
  destruct (kheld_image _ _ _ _ _ _ _ wp_held0) as (G & EK & I & _). pose proof wp_alloc_page as Hp.
  assert (Et : table wp_mem0 = Tbl.new) by (by vm_compute). unfold wp_mem, wp_alloc. revert I Hp Et. generalize wp_mem0. intros s I Hp Et.
  destruct (k_alloc_contiguous_spec wp_cfg wp_cfg_ok G ∅ None (fun _ => []) (fun _ => []) s 514 I) as (order & r & s' & Eo & Hle & Ho & Hleast & E & Hr).
  { unfold MAX_PRACTICAL_PAGES_PER_SET. lia. }
  rewrite E in Hp |- *. destruct r as [p|]; [|done]. apply Z.eqb_eq in Hp as ->. destruct Hr as (idx & Ea & _ & I' & _ & Es').
  vm_compute in Eo. injection Eo as <-. assert (idx = 1024) as ->.
  { unfold addr_of in Ea. cbn [wp_cfg bx_cfg plat ram_base] in Ea. unfold PAGE_SIZE in Ea. vm_compute (start_addr 1025) in Ea. lia. }
  change (2 ^ 10) with 1024 in I'. eexists. split; [exact I'|]. split; [by rewrite Es'|]. split.
  - intros q Hq. rewrite set_map_union_L, <- EK. apply elem_of_union_l. revert Hq. clear. set_solver.
  - intros i Hi. apply elem_of_union_r, elem_of_list_to_set, elem_of_seqZ. lia.
Qed.

Lemma wp_pool_ok {M} (s : M) : pool_ok ∅ wp_base (mkPool new wp_base true wp_tables s) ∅.
Proof.
  destruct (stitch_spec ∅ wp_base) as (m & E & Hm). assert (wp_tables = m) as -> by (unfold wp_tables; by rewrite E). clear E.
  assert (H0 : forall a, arr_peek (∅ : gmap Z Z) a = 0) by (intros a; unfold arr_peek; by rewrite lookup_empty).
  constructor; cbn [p_initialized p_list p_l1 p_mem]; [done|apply new_ok| | |intros i _ _; apply lookup_empty|done].
  - constructor.
    + unfold page_addr, wp_base. split; [split; [lia|done]|lia].
    + rewrite Hm, decide_True by done. done.
    + intros k Hk. rewrite Hm, decide_False, decide_True by (lia || (split; [lia|]; replace (wp_base + 4096 + k * 8 - wp_base) with ((512 + k) * 8) by lia; apply Z.mod_mul; lia)). f_equal. replace (wp_base + 4096 + k * 8 - wp_base - 4096) with (k * 8) by lia. rewrite Z.div_mul; lia.
    + intros a Ha. rewrite Hm, !decide_False by lia. done.
  - intros i Hi. rewrite lookup_empty. unfold slot. rewrite Hm, !decide_False by lia. done.
Qed.

Lemma wp_boot_good : world_good wp_cfg wp_boot.
Proof.
  destruct wp_inv as (G & I & Et & HG & Hk). exists wp_own, G, ∅, (fun _ => []), (fun _ => []), {[4096 := ex_as]}.
  unfold wp_boot. revert I Et. generalize wp_mem. intros s I Et. apply (bx_good 2048 wp_pages).
  - by apply (bx_sys 2048 wp_pages G s I Et).
  - intros idx l. unfold wp_own. case_decide; [|done]. intros _. by apply Hk.
  - intros a q idx -> Hq ->. unfold wp_own. rewrite decide_False; [done|]. intros Hi. unfold addr_of, PAGE_SIZE in Hq. cbn [bx_cfg plat ram_base] in Hq.
    destruct Hq as [E|[E|[E|[k E]]]]; [cbn in E; lia..|]. cbn in E. destruct (k =? 0); [|done]. injection E as E. lia.
  - exists ∅. constructor.
    + exists ∅. apply wp_pool_ok.
    + intros n Hn. exists (1024 + n). split; [unfold addr_of, PAGE_SIZE, wp_base; cbn; lia|]. unfold wp_own. by rewrite decide_True by lia.
    + by intros i a ?%lookup_empty_Some.
    + intros t b Hin Hb. apply bx_thread in Hin as ->. cbn [w_stacks bx_world] in Hb. by rewrite lookup_singleton_eq in Hb.
    + intros kva o Ho. cbn [w_ipc bx_world] in Ho. by apply lookup_empty_Some in Ho.
Qed.

Definition wp_after : World -> WorldEvent -> World := after_step wp_cfg.
Definition wp_thread : ThreadArgs := mkTArgs 4194304 8388608 4194304 0 1 2.
Definition wp_1 : World := wp_after wp_boot (wx_alloc 1).
Definition wp_2 : World := wp_after wp_1 (wx_alloc 1).
Definition wp_3 : World := wp_after wp_2 (wx_alloc 1).
Definition wp_4 : World := wp_after wp_3 (CreateObject 77 CreateEndpoint 0).
Definition wp_5 : World := wp_after wp_4 (CreateThread 77 wp_thread).
Definition wp_tcb : Z := 18446603336221204480.
Definition wp_history : list WorldEvent :=
  [wx_alloc 1; wx_alloc 1; wx_alloc 1; CreateObject 77 CreateEndpoint 0; CreateThread 77 wp_thread; ThreadExit 1 wp_tcb].

Lemma wp_good w e : world_good wp_cfg w -> event_ok w e -> world_good wp_cfg (wp_after w e).
Proof.
  intros (own & G & D & oB & oD & S & W) He.
  destruct (world_step_spec wp_cfg wp_cfg_ok wp_direct_map _ _ _ _ _ _ _ W e He) as (w' & E & W' & _). unfold wp_after, after_step. by rewrite E.
Qed.

Lemma wp_3_good : world_good wp_cfg wp_3.
Proof. do 3 (apply wp_good; [|apply wx_alloc_ok; by vm_compute]). apply wp_boot_good. Qed.

Lemma wp_object_ok : event_ok wp_3 (CreateObject 77 CreateEndpoint 0).
Proof. split; [apply no_tokens; [by vm_compute|lia]|]. split; [|done]. split; [eexists|]; by vm_compute. Qed.

Lemma one_token k x n : k_next_token k = {[x := 1]} -> 0 <= n < 1000 -> tokens_left k n.
Proof. intros E Hn y. unfold next_token_of. rewrite E. destruct (decide (x = y)) as [<-|Hne]; [rewrite lookup_singleton_eq|rewrite lookup_singleton_ne by done]; cbn; lia. Qed.

Lemma wp_thread_ok : event_ok wp_4 (CreateThread 77 wp_thread).
Proof. split; [apply (one_token _ 18446603336221196288); [by vm_compute|lia]|]. split; [|done]. split; [eexists|]; by vm_compute. Qed.

Lemma wp_mortal : match w_objs wp_5 !! 77 with Some o => negb (po_immortal o) || (1 <? po_threads o) | None => true end = true.
Proof. by vm_compute. Qed.

Lemma wp_exit_ok : event_ok wp_5 (ThreadExit 1 wp_tcb).
Proof.
  split; [apply (one_token _ 18446603336221196288); [by vm_compute|lia]|]. split; [|done]. split; [by vm_compute|]. exists 77, (KSched.Pool 18446603336221200384). split; [by vm_compute|]. split; [eexists; by vm_compute|].
  split; [by vm_compute|]. split; [done|]. pose proof wp_mortal as Hm. intros o Ho Hi. rewrite Ho, Hi in Hm. by apply Z.ltb_lt.
Qed.

Lemma wp_4_good : world_good wp_cfg wp_4.
Proof. apply wp_good; [apply wp_3_good|apply wp_object_ok]. Qed.

Lemma wp_history_ok : history_ok wp_cfg wp_boot wp_history.
Proof.
  unfold wp_history.
  apply (history_cons _ _ _ _ wp_1); [unfold wp_1; reflexivity|apply wx_alloc_ok; by vm_compute|].
  apply (history_cons _ _ _ _ wp_2); [unfold wp_2; reflexivity|apply wx_alloc_ok; by vm_compute|].
  apply (history_cons _ _ _ _ wp_3); [unfold wp_3; reflexivity|apply wx_alloc_ok; by vm_compute|].
  apply (history_cons _ _ _ _ wp_4); [unfold wp_4; reflexivity|exact wp_object_ok|].
  apply (history_cons _ _ _ _ wp_5); [unfold wp_5; reflexivity|exact wp_thread_ok|].
  split; [exact wp_exit_ok|]. by intros.
Qed.

(** * Theorems *)

(** C8: The creation of an endpoint, a notification or a reply is all or nothing
    and exact. From a world whose accounting and page ownership hold, with the
    pool set up, the call never panics, whatever its register holds. It fails
    only when the register names no one-page PageSet the caller can give or when
    the pool is full, and then PageSets, handles, counts, objects, threads and
    the pool's mappings are as before. On success the donated page, which was
    in no other PageSet and is the kernel's from now on, is mapped at an address
    of the pool where nothing was; the new object is there and no other object
    changes; the PageSet is gone from the table and from every handle table;
    the caller has a first handle of the object's type, without an identity, in
    a slot that was empty or had the PageSet, and an endpoint's first identity
    will be 1; and the accounting and the ownership hold again. *)
Theorem create_object_exact cfg own G D oB oD S w p pr c gpr0 :
  config_ok cfg -> direct_map_ok cfg -> world_ok cfg own G D oB oD S w -> p_initialized (w_pool w) = true -> k_procs (w_k w) !! p = Some pr ->
  exists r w', object_call cfg w p c gpr0 = Ret (r, w') /\ object_creation cfg own G D oB oD S w p pr c (wrap 32 gpr0) r w'.
Proof. intros C Dm W Hi Hp. by apply object_call_spec. Qed.

Lemma create_object_exact_witness : exists w' pr G oB n hdr kva x i,
  object_call wp_cfg wp_3 77 CreateEndpoint 0 = Ret (Ok n, w') /\ object_made wp_cfg G oB wp_3 77 pr CreateEndpoint (wrap 32 0) n hdr kva x i w'.
Proof.
  destruct wp_3_good as (own & G & D & oB & oD & S & W). destruct wp_object_ok as (_ & ([pr Hp] & Hi) & _).
  destruct (create_object_exact wp_cfg own G D oB oD S wp_3 77 pr CreateEndpoint 0 wp_cfg_ok wp_direct_map W Hi Hp) as (r & w' & E & Hc).
  assert (Hr : match object_call wp_cfg wp_3 77 CreateEndpoint 0 with Ret (Ok _, _) => true | _ => false end = true) by (vm_compute; reflexivity).
  rewrite E in Hr. destruct r as [n|]; [|discriminate Hr]. destruct Hc as (hdr & kva & x & i & D' & oB' & oD' & M & _).
  exists w', pr, G, oB, n, hdr, kva, x, i. split; [exact E|exact M].
Defined.

(** C9: The creation of a thread is exact. From a world whose accounting and page
    ownership hold, with the pool set up, sys_create_thread never panics,
    whatever its registers hold. When the entry or the stack is not a user
    address, no thread slot is free, or the page for the kernel stack cannot be
    given, it fails with the error for that and nothing has changed. When only
    the page for the TCB cannot be given, or the process is a kernel process, it
    fails with the stack's page already the kernel's and nothing else changed.
    Otherwise there is exactly one more thread, in a slot that was free: it is
    of the calling process, whose thread count grows by one, and its TCB and its
    stack are at two addresses of the pool where nothing was, on the two donated
    pages, whose PageSets are gone; it starts in user mode at the entry, on the
    stack and with the argument the caller gave, through a bootstrap frame at
    the top of its kernel stack, whose base has the canary; and the accounting
    and the ownership hold again. *)
Theorem create_thread_exact cfg own G D oB oD S w p pr a :
  config_ok cfg -> direct_map_ok cfg -> world_ok cfg own G D oB oD S w -> p_initialized (w_pool w) = true -> k_procs (w_k w) !! p = Some pr ->
  exists r w', sys_create_thread cfg w p a = Ret (r, w') /\ thread_creation cfg own G D oB oD S w p pr a r w'.
Proof. intros C Dm W Hi Hp. by apply create_thread_spec. Qed.

Lemma create_thread_exact_witness : exists w' pr G oB s t xs xt i2 i1 n o,
  sys_create_thread wp_cfg wp_4 77 wp_thread = Ret (OK, w') /\ thread_made wp_cfg G oB wp_4 77 pr wp_thread s t xs xt i2 i1 n o w'.
Proof.
  destruct wp_4_good as (own & G & D & oB & oD & S & W). destruct wp_thread_ok as (_ & ([pr Hp] & Hi) & _).
  destruct (create_thread_exact wp_cfg own G D oB oD S wp_4 77 pr wp_thread wp_cfg_ok wp_direct_map W Hi Hp) as (r & w' & E & Hc).
  assert (Hr : match sys_create_thread wp_cfg wp_4 77 wp_thread with Ret (OK, _) => true | _ => false end = true) by (vm_compute; reflexivity).
  rewrite E in Hr. destruct Hc as [[Hne _]|(Er & s & t & xs & xt & i2 & i1 & n & o & D' & oB' & oD' & M & _)]; [destruct r; [destruct (Hne eq_refl)|discriminate Hr..]|].
  rewrite Er in E.
  exists w', pr, G, oB, s, t, xs, xt, i2, i1, n, o. split; [exact E|exact M].
Defined.

(** C3: Handles are typed capabilities. After any history of page and handle
    calls, of creations of processes, endpoints, notifications, replies and
    threads, and of thread exits, in which each event is possible when its turn
    comes ([event_possible]), creations of processes have what the code relies
    on but does not check ([creation_ok]) and no endpoint has given out 2^64
    identities ([identities_left]), every handle of every process is empty,
    names a registered PageSet, or names a live object of exactly the type the
    handle says. An identity on an endpoint is one the endpoint gave out, and
    no two handles, of the same process or of two, have the same. Each object
    is on a frame of its own, mapped at its address in the pool, which the
    frame allocator has handed out and no PageSet of the allocator's frames
    has. That says nothing of the PageSets of sys_register_device_page, which
    takes any physical address ([device_page_exposes_object]). An object never
    goes away, so no handle dangles. *)
Theorem capabilities_sound cfg w es :
  config_ok cfg -> direct_map_ok cfg -> world_good cfg w ->
  along_history event_possible cfg w es -> along_history creation_ok cfg w es -> along_history identities_left cfg w es ->
  exists w', run_world cfg w es = Ret w' /\ typed cfg w' /\ forall kva o, w_ipc w !! kva = Some o -> w_ipc w' !! kva = Some o.
Proof.
  intros C Dm Hw H1 H2 H3.
  destruct (run_world_spec cfg C Dm es w Hw (proj2 (history_ok_iff cfg es w) (conj H1 (conj H2 H3)))) as (w' & E & (own & G & D & oB & oD & S & W) & Hi).
  exists w'. split; [done|]. split; [|done]. by eapply world_typed.
Qed.

Lemma capabilities_sound_witness : exists w', run_world wp_cfg wp_boot wp_history = Ret w' /\ typed wp_cfg w' /\
  at_slot (w_k w') 77 0 (HEndpoint 18446603336221196288 None).
Proof.
  destruct (proj1 (history_ok_iff _ _ _) wp_history_ok) as (H1 & H2 & H3).
  destruct (capabilities_sound wp_cfg wp_boot wp_history wp_cfg_ok wp_direct_map wp_boot_good H1 H2 H3) as (w' & E & T & _).
  exists w'. split; [exact E|]. split; [exact T|].
  assert (Hs : match run_world wp_cfg wp_boot wp_history with
               | Ret w1 => match k_procs (w_k w1) !! 77 with Some pr => match p_table pr !! 0%nat with Some h => bool_decide (h_kind h = HEndpoint 18446603336221196288 None) | None => false end | None => false end
               | Panic _ => false end = true) by (vm_compute; reflexivity).
  rewrite E in Hs. destruct (k_procs (w_k w') !! 77) as [pr|] eqn:Hp; [|discriminate Hs]. destruct (p_table pr !! 0%nat) as [h|] eqn:Hh; [|discriminate Hs].
  apply bool_decide_eq_true_1 in Hs. exists pr, h. split; [exact Hp|]. split; [exact Hh|exact Hs].
Defined.

(** sys_register_device_page takes any physical address. In the example world,
    whose process 77 has made an endpoint on the frame at address 20480, that
    process registers the frame as a device page and maps it: its address space
    then translates an address of its own to the endpoint's memory, with every
    accounting and ownership invariant intact. *)
Theorem device_page_exposes_object :
  world_good wp_cfg wp_4 /\
  is_Some (w_ipc wp_4 !! va_of 0) /\ pool_entry wp_4 0 = build_kernel_page 20480 /\
  exists k, run_calls wp_cfg (w_k wp_4) [(77, RegisterDevicePage 20480); (77, MapPages 3 6291456 0)] = Ret ([Value (Ok 3); Void OK], k) /\
    translate_user_va (arr_peek (k_pt k)) 4096 6291456 = Ret (Some 20480).
Proof.
  split; [apply wp_4_good|]. split; [by vm_compute; eexists|]. split; [vm_compute; reflexivity|].
  assert (H : match run_calls wp_cfg (w_k wp_4) [(77, RegisterDevicePage 20480); (77, MapPages 3 6291456 0)] with
    | Ret (rs, k) => Some (rs, translate_user_va (arr_peek (k_pt k)) 4096 6291456)
    | Panic _ => None end = Some ([Value (Ok 3); Void OK], Ret (Some 20480))) by (vm_compute; reflexivity).
  destruct (run_calls wp_cfg (w_k wp_4) _) as [[rs k]|p]; [|discriminate H]. exists k. injection H as H1 H2. rewrite H1, H2. split; reflexivity.
Qed.
