(* ===== verification/Fat32.v ===== *)
(** The FAT32 on-disk format (lockjaw-types/src/fat32.rs): the boot parameter
    block, cluster arithmetic, FAT entries, directory slots and 8.3 names. *)
From Stdlib Require Import ZArith Lia.
From stdpp Require Import base option numbers list.
From S2P Require Import Prelude Bytes.
Open Scope Z_scope.

(** * Geometry *)

Inductive Fat32Error :=
  | BadBootSignature
  | NotFat32
  | InvalidBytesPerSector (value : Z)
  | InvalidSectorsPerCluster (value : Z)
  | ZeroReservedSectors
  | ZeroFats
  | ZeroSectorsPerFat
  | InvalidRootCluster (value : Z)
  | ZeroTotalSectors
  | NonZeroRootEntries (value : Z)
  | NonZeroSectorsPerFat16 (value : Z)
  | LayoutExceedsVolume (data_start total_sectors : Z)
  | NoDataClusters
  | RootClusterOutOfRange (value max : Z)
  | BelowFat32MinimumClusters (count minimum : Z)
  | FatTooSmallForClusterCount (fat_entries required : Z).

Definition FAT32_MIN_CLUSTERS : Z := 65525.

Record Fat32Geometry := mkGeom {
  bytes_per_sector : Z;
  sectors_per_cluster : Z;
  num_fats : Z;
  fat_start_sector : Z;
  sectors_per_fat : Z;
  data_start_sector : Z;
  root_cluster : Z;
  total_sectors : Z;
}.

(** [a / b] on an unsigned integer. *)
Definition div_chk (a b : Z) : outcome Z := if b =? 0 then Panic PArith else Ret (a / b).

Definition bytes_per_cluster (g : Fat32Geometry) : outcome Z := mul_chk 32 (bytes_per_sector g) (sectors_per_cluster g).

Definition cluster_count (g : Fat32Geometry) : outcome Z :=
  data_sectors ← sub_chk (total_sectors g) (data_start_sector g); div_chk data_sectors (sectors_per_cluster g).

Definition max_cluster (g : Fat32Geometry) : outcome Z := c ← cluster_count g; add_chk 32 c 1.

(** * The boot parameter block *)

(** Words of a sector. *)
Definition read_u16 (sector : list Z) (offset : Z) : outcome Z := read_le 2 sector offset.
Definition read_u32 (sector : list Z) (offset : Z) : outcome Z := read_le 4 sector offset.

(** [b"FAT32   "] *)
Definition FAT32_TYPE : list Z := [70; 65; 84; 51; 50; 32; 32; 32].

Definition is_power_of_two (x : Z) : bool := negb (x =? 0) && (Z.land x (x - 1) =? 0).

(** The last part of parse_bpb, from the fields of the sector. *)
Definition check_layout (bytes_per_sector sectors_per_cluster reserved_sectors num_fats total_sectors_32 sectors_per_fat root_cluster : Z) :
  outcome (result Fat32Geometry Fat32Error) :=
  let fat_start_sector := reserved_sectors in
  fat_region_64 ← mul_chk 64 num_fats sectors_per_fat;
  data_start_64 ← add_chk 64 fat_start_sector fat_region_64;
  if total_sectors_32 <? data_start_64 then Ret (Err (LayoutExceedsVolume data_start_64 total_sectors_32)) else
  let data_start_sector := wrap 32 data_start_64 in
  data_sectors ← sub_chk total_sectors_32 data_start_sector;
  cluster_count ← div_chk data_sectors sectors_per_cluster;
  if cluster_count =? 0 then Ret (Err NoDataClusters) else
  if cluster_count <? FAT32_MIN_CLUSTERS then Ret (Err (BelowFat32MinimumClusters cluster_count FAT32_MIN_CLUSTERS)) else
  fat_capacity_bytes ← mul_chk 64 sectors_per_fat bytes_per_sector;
  let fat_capacity_entries := fat_capacity_bytes / 4 in
  required_entries ← add_chk 64 cluster_count 2;
  if fat_capacity_entries <? required_entries then Ret (Err (FatTooSmallForClusterCount fat_capacity_entries required_entries)) else
  max_cluster ← add_chk 32 cluster_count 1;
  if max_cluster <? root_cluster then Ret (Err (RootClusterOutOfRange root_cluster max_cluster)) else
  Ret (Ok (mkGeom bytes_per_sector sectors_per_cluster num_fats fat_start_sector sectors_per_fat data_start_sector root_cluster total_sectors_32)).

Definition parse_bpb (sector0 : list Z) : outcome (result Fat32Geometry Fat32Error) :=
  s0 ← byte_at sector0 510;
  s1 ← byte_at sector0 511;
  if negb (s0 =? 0x55) || negb (s1 =? 0xAA) then Ret (Err BadBootSignature) else
  fs_type ← bytes_at sector0 82 0 8;
  if negb (bool_decide (fs_type = FAT32_TYPE)) then Ret (Err NotFat32) else
  bytes_per_sector ← read_u16 sector0 11;
  if negb (bytes_per_sector =? 512) then Ret (Err (InvalidBytesPerSector bytes_per_sector)) else
  sectors_per_cluster ← byte_at sector0 13;
  if (sectors_per_cluster =? 0) || negb (is_power_of_two sectors_per_cluster) || (128 <? sectors_per_cluster) then Ret (Err (InvalidSectorsPerCluster sectors_per_cluster)) else
  reserved_sectors ← read_u16 sector0 14;
  if reserved_sectors =? 0 then Ret (Err ZeroReservedSectors) else
  num_fats ← byte_at sector0 16;
  if num_fats =? 0 then Ret (Err ZeroFats) else
  root_entry_count ← read_u16 sector0 17;
  if negb (root_entry_count =? 0) then Ret (Err (NonZeroRootEntries root_entry_count)) else
  sectors_per_fat_16 ← read_u16 sector0 22;
  if negb (sectors_per_fat_16 =? 0) then Ret (Err (NonZeroSectorsPerFat16 sectors_per_fat_16)) else
  total_sectors_32 ← read_u32 sector0 32;
  if total_sectors_32 =? 0 then Ret (Err ZeroTotalSectors) else
  sectors_per_fat ← read_u32 sector0 36;
  if sectors_per_fat =? 0 then Ret (Err ZeroSectorsPerFat) else
  root_cluster ← read_u32 sector0 44;
  if root_cluster <? 2 then Ret (Err (InvalidRootCluster root_cluster)) else
  check_layout bytes_per_sector sectors_per_cluster reserved_sectors num_fats total_sectors_32 sectors_per_fat root_cluster.

(** * Cluster arithmetic *)

Definition cluster_to_sector (cluster : Z) (geom : Fat32Geometry) : outcome (option Z) :=
  if cluster <? 2 then Ret None else
  m ← max_cluster geom;
  if m <? cluster then Ret None else
  o ← mul_chk 32 (cluster - 2) (sectors_per_cluster geom);
  s ← add_chk 32 (data_start_sector geom) o;
  Ret (Some s).

Definition fat_entry_location (cluster : Z) (geom : Fat32Geometry) : outcome (option (Z * Z)) :=
  m ← max_cluster geom;
  if m <? cluster then Ret None else
  byte_offset ← mul_chk 64 cluster 4;
  q ← div_chk byte_offset (bytes_per_sector geom);
  let in_sector := wrap 32 (byte_offset mod bytes_per_sector geom) in
  s ← add_chk 32 (fat_start_sector geom) (wrap 32 q);
  Ret (Some (s, in_sector)).

(** * FAT entries *)

Inductive FatEntry := Free | Used (next : Z) | Reserved | Bad | EndOfChain.

Definition FAT32_ENTRY_MASK : Z := 0x0FFFFFFF.

Definition classify_entry (value : Z) : FatEntry :=
  if value =? 0 then Free
  else if value =? 1 then Reserved
  else if (2 <=? value) && (value <=? 0xFFFFFEF) then Used value
  else if (0xFFFFFF0 <=? value) && (value <=? 0xFFFFFF6) then Reserved
  else if value =? 0xFFFFFF7 then Bad
  else EndOfChain.

Definition decode_fat_entry_value (raw : Z) : FatEntry := classify_entry (Z.land raw FAT32_ENTRY_MASK).

Definition decode_fat_entry (fat_bytes : list Z) (cluster : Z) : outcome (option FatEntry) :=
  byte_offset ← mul_chk 64 cluster 4;
  e ← add_chk 64 byte_offset 4;
  if len fat_bytes <? e then Ret None else
  raw ← read_le 4 fat_bytes byte_offset;
  Ret (Some (classify_entry (Z.land raw FAT32_ENTRY_MASK))).

(** * Directory slots *)

Definition ATTR_READ_ONLY : Z := 0x01.
Definition ATTR_HIDDEN : Z := 0x02.
Definition ATTR_SYSTEM : Z := 0x04.
Definition ATTR_VOLUME_ID : Z := 0x08.
Definition ATTR_DIRECTORY : Z := 0x10.
Definition ATTR_LFN_MASK : Z := Z.lor (Z.lor (Z.lor ATTR_READ_ONLY ATTR_HIDDEN) ATTR_SYSTEM) ATTR_VOLUME_ID.

Record DirEntry := mkDirEntry { name : list Z; attr : Z; first_cluster : Z; size : Z }.

#[export] Instance DirEntry_eq_dec : EqDecision DirEntry.
Proof. solve_decision. Defined.

Definition is_directory (e : DirEntry) : bool := negb (Z.land (attr e) ATTR_DIRECTORY =? 0).

Inductive DirEntryStatus := EndOfDir | Skip | Entry (e : DirEntry).

Definition parse_dirent (bytes : list Z) : outcome DirEntryStatus :=
  first ← byte_at bytes 0;
  if first =? 0 then Ret EndOfDir else
  if first =? 0xE5 then Ret Skip else
  attr ← byte_at bytes 11;
  if Z.land attr ATTR_LFN_MASK =? ATTR_LFN_MASK then Ret Skip else
  if negb (Z.land attr ATTR_VOLUME_ID =? 0) then Ret Skip else
  name ← bytes_at bytes 0 0 11;
  let name := if bool_decide (head name = Some 5) then <[0%nat := 0xE5]> name else name in
  cluster_hi ← read_le 2 bytes 20;
  cluster_lo ← read_le 2 bytes 26;
  let first_cluster := Z.lor (Z.shiftl cluster_hi 16) cluster_lo in
  size ← read_le 4 bytes 28;
  Ret (Entry (mkDirEntry name attr first_cluster size)).

Record DirIter := mkIter { it_bytes : list Z; it_offset : Z; it_done : bool }.

Definition iter_dir (bytes : list Z) : DirIter := mkIter bytes 0 false.

(** The loop of [DirIter::next]. *)
Fixpoint dir_next (fuel : nat) (it : DirIter) : outcome (option DirEntry * DirIter) :=
  match fuel with
  | O => Panic PFuel
  | S fuel' =>
      if it_done it then Ret (None, it) else
      e ← add_chk 64 (it_offset it) 32;
      if len (it_bytes it) <? e then Ret (None, it) else
      chunk ← bytes_at (it_bytes it) (it_offset it) 0 32;
      let it' := mkIter (it_bytes it) e (it_done it) in
      st ← parse_dirent chunk;
      match st with
      | EndOfDir => Ret (None, mkIter (it_bytes it') (it_offset it') true)
      | Skip => dir_next fuel' it'
      | Entry d => Ret (Some d, it')
      end
  end.

(** [iter.find(p)] *)
Fixpoint dir_find (fuel : nat) (p : DirEntry -> outcome bool) (it : DirIter) : outcome (option DirEntry) :=
  match fuel with
  | O => Panic PFuel
  | S fuel' =>
      r ← dir_next fuel it;
      match r with
      | (None, _) => Ret None
      | (Some d, it') => b ← p d; if b : bool then Ret (Some d) else dir_find fuel' p it'
      end
  end.

(** One turn per slot and one to see the end. *)
Definition dir_fuel (bytes : list Z) : nat := S (S (length bytes)).

(** * 8.3 names *)

Definition ascii_uppercase (b : Z) : Z := if (97 <=? b) && (b <=? 122) then b - 32 else b.

(** [canon[off + i] = ascii_uppercase(part[i])] for every [i]. *)
Fixpoint write_upper (canon : list Z) (off : nat) (part : list Z) : outcome (list Z) :=
  match part with
  | [] => Ret canon
  | b :: part' => if decide (off < length canon)%nat then write_upper (<[off := ascii_uppercase b]> canon) (S off) part' else Panic PIndex
  end.

(** The query before and after its first dot. *)
Fixpoint split_dot (query : list Z) : list Z * list Z :=
  match query with
  | [] => ([], [])
  | b :: q => if b =? 46 then ([], q) else let '(n, e) := split_dot q in (b :: n, e)
  end.

Definition match_8_3 (query : list Z) (entry : DirEntry) : outcome bool :=
  if bool_decide (query = [46]) then
    n0 ← byte_at (name entry) 0; n1 ← byte_at (name entry) 1; Ret ((n0 =? 46) && (n1 =? 32))
  else if bool_decide (query = [46; 46]) then
    n0 ← byte_at (name entry) 0; n1 ← byte_at (name entry) 1; n2 ← byte_at (name entry) 2;
    Ret ((n0 =? 46) && (n1 =? 46) && (n2 =? 32))
  else
    let '(name_part, ext_part) := split_dot query in
    if bool_decide (name_part = []) then Ret false else
    if (8 <? len name_part) || (3 <? len ext_part) then Ret false else
    c ← write_upper (replicate 11 32) 0 name_part;
    c ← write_upper c 8 ext_part;
    Ret (bool_decide (c = name entry)).

(** * What a valid volume is *)

(** Data clusters of the volume. *)
Definition clusters (g : Fat32Geometry) : Z := (total_sectors g - data_start_sector g) / sectors_per_cluster g.

(** [c] is a data cluster. *)
Definition is_data (g : Fat32Geometry) (c : Z) : Prop := 2 <= c <= clusters g + 1.

#[export] Instance is_data_dec g c : Decision (is_data g c).
Proof. unfold is_data. apply _. Defined.

(** The reserved sectors, the FATs and the data clusters lie in this order in the
    volume, the first FAT has an entry for each cluster, and the root directory
    starts on a data cluster. *)
Record geom_ok (g : Fat32Geometry) : Prop := {
  gk_sector : bytes_per_sector g = 512;
  gk_cluster : 0 < sectors_per_cluster g <= 128 /\ is_power_of_two (sectors_per_cluster g) = true;
  gk_fats : 0 < num_fats g /\ 0 < fat_start_sector g /\ 0 < sectors_per_fat g;
  gk_data : data_start_sector g = fat_start_sector g + num_fats g * sectors_per_fat g;
  gk_total : data_start_sector g <= total_sectors g < 2 ^ 32;
  gk_count : FAT32_MIN_CLUSTERS <= clusters g;
  gk_entries : clusters g + 2 <= sectors_per_fat g * 128;
  gk_root : is_data g (root_cluster g);
}.

(** A word of a sector, little-endian. *)
Definition word_at (n : Z) (sector : list Z) (off : Z) : Z := from_le_bytes (slice sector off n).

(** The sector has the boot signature and the FAT32 type, no FAT16 fields, and the
    fields of [g]. *)
Record describes (sector0 : list Z) (g : Fat32Geometry) : Prop := {
  ds_signature : word_at 2 sector0 510 = 0xAA55;
  ds_type : slice sector0 82 8 = FAT32_TYPE;
  ds_fat16 : word_at 2 sector0 17 = 0 /\ word_at 2 sector0 22 = 0;
  ds_sector : bytes_per_sector g = word_at 2 sector0 11;
  ds_cluster : sectors_per_cluster g = word_at 1 sector0 13;
  ds_reserved : fat_start_sector g = word_at 2 sector0 14;
  ds_fats : num_fats g = word_at 1 sector0 16;
  ds_total : total_sectors g = word_at 4 sector0 32;
  ds_per_fat : sectors_per_fat g = word_at 4 sector0 36;
  ds_root : root_cluster g = word_at 4 sector0 44;
}.

Lemma word_range n sector off : bytes sector -> 0 <= off -> 0 <= n -> off + n <= len sector -> 0 <= word_at n sector off < 256 ^ n.
Proof.
  intros Hb Ho Hn Hl. unfold word_at. pose proof (from_le_range (slice sector off n) (slice_bytes _ _ _ Hb)) as H. by rewrite slice_length in H.
Qed.

Lemma read_word n sector off : 0 <= off -> off + Z.of_nat n <= len sector -> len sector < 2 ^ 64 -> read_le n sector off = Ret (word_at (Z.of_nat n) sector off).
Proof. apply read_le_in. Qed.

Lemma byte_word sector off : 0 <= off < len sector -> byte_at sector off = Ret (word_at 1 sector off).
Proof.
  intros Ho. destruct (byte_at_in sector off Ho) as (b & Hb & ->). unfold word_at. change 1 with (0 + 1). rewrite (slice_cons _ _ _ b) by (done || lia).
  unfold slice. change (Z.to_nat 0) with 0%nat. rewrite take_0. unfold from_le_bytes. cbn [foldr]. f_equal. lia.
Qed.

Lemma add_chk_in w a b : a + b < 2 ^ w -> add_chk w a b = Ret (a + b).
Proof. intros H. unfold add_chk. by rewrite (proj2 (Z.ltb_lt _ _) H). Qed.

Lemma mul_chk_in w a b : a * b < 2 ^ w -> mul_chk w a b = Ret (a * b).
Proof. intros H. unfold mul_chk. by rewrite (proj2 (Z.ltb_lt _ _) H). Qed.

Lemma sub_chk_in a b : b <= a -> sub_chk a b = Ret (a - b).
Proof. intros H. unfold sub_chk. by rewrite (proj2 (Z.leb_le _ _) H). Qed.

Lemma div_chk_in a b : b <> 0 -> div_chk a b = Ret (a / b).
Proof. intros H. unfold div_chk. by rewrite (proj2 (Z.eqb_neq _ _) H). Qed.

Section Layout.
Context (spc rs nf ts spf root : Z) (Hspc : 0 < spc <= 128) (Hrs : 0 < rs < 2 ^ 16) (Hnf : 0 < nf < 2 ^ 8) (Hts : 0 < ts < 2 ^ 32) (Hspf : 0 < spf < 2 ^ 32) (Hroot : 2 <= root < 2 ^ 32).

(** The volume the fields describe. *)
Definition layout : Fat32Geometry := mkGeom 512 spc nf rs spf (rs + nf * spf) root ts.

Lemma check_layout_spec : exists r, check_layout 512 spc rs nf ts spf root = Ret r /\
  ((exists g, r = Ok g) <-> rs + nf * spf <= ts /\ FAT32_MIN_CLUSTERS <= clusters layout /\ clusters layout + 2 <= spf * 128 /\ root <= clusters layout + 1) /\
  forall g, r = Ok g -> g = layout.
Proof using All.
  unfold check_layout. assert (0 < nf * spf < 2 ^ 40) by nia. rewrite (mul_chk_in 64 nf), bind_Ret, add_chk_in, bind_Ret by lia.
  destruct (Z.ltb_spec ts (rs + nf * spf)) as [L|L]; [eexists; split; [reflexivity|]; split; [|done]; split; [by intros [g Hg]|lia]|].
  unfold wrap. rewrite Z.mod_small by lia. rewrite sub_chk_in, bind_Ret, div_chk_in, bind_Ret by lia.
  change ((ts - (rs + nf * spf)) / spc) with (clusters layout). set (n := clusters layout).
  assert (Hn : 0 <= n < 2 ^ 32) by (subst n; unfold clusters; cbn; split; [apply Z.div_pos; lia|]; apply Z.div_lt_upper_bound; lia).
  unfold FAT32_MIN_CLUSTERS. destruct (Z.eqb_spec n 0); [eexists; split; [reflexivity|]; split; [|done]; split; [by intros [g Hg]|lia]|].
  destruct (Z.ltb_spec n 65525); [eexists; split; [reflexivity|]; split; [|done]; split; [by intros [g Hg]|lia]|].
  rewrite mul_chk_in, bind_Ret, (add_chk_in 64 n), bind_Ret by lia.
  replace (spf * 512 / 4) with (spf * 128) by (replace (spf * 512) with (spf * 128 * 4) by lia; by rewrite Z.div_mul).
  destruct (Z.ltb_spec (spf * 128) (n + 2)); [eexists; split; [reflexivity|]; split; [|done]; split; [by intros [g Hg]|lia]|].
  assert (n + 1 < 2 ^ 32) by (enough (n <= ts - (rs + nf * spf)) by lia; subst n; unfold clusters; cbn; apply Z.div_le_upper_bound; [lia|]; rewrite <- (Z.mul_1_l (ts - _)) at 1; apply Z.mul_le_mono_nonneg_r; lia).
  rewrite add_chk_in, bind_Ret by done. destruct (Z.ltb_spec (n + 1) root); [eexists; split; [reflexivity|]; split; [|done]; split; [by intros [g Hg]|lia]|].
  eexists. split; [reflexivity|]. split; [|by intros g [= <-]]. split; [done|]. intros _. by eexists.
Qed.
End Layout.

Lemma word_pair sector off : bytes sector -> 0 <= off -> off + 2 <= len sector -> word_at 2 sector off = word_at 1 sector off + 256 * word_at 1 sector (off + 1).
Proof.
  intros Hb Ho Hl. unfold word_at. change 2 with (0 + 1 + 1). destruct (byte_at_in sector off) as (b & E & _); [lia|]. destruct (byte_at_in sector (off + 1)) as (b' & E' & _); [lia|].
  rewrite (slice_cons _ _ _ b), (slice_cons _ _ _ b') by (done || lia). change 1 with (0 + 1). rewrite (slice_cons _ off _ b), (slice_cons _ (off + 1) _ b') by (done || lia).
  unfold slice. change (Z.to_nat 0) with 0%nat. rewrite !take_0. unfold from_le_bytes. cbn [foldr]. lia.
Qed.

Section Bpb.
Context (sector0 : list Z) (Hlen : len sector0 = 512) (Hb : bytes sector0).

(** Nothing is described by a sector that fails one of the checks. *)
Lemma refused (e : Fat32Error) : (forall g, describes sector0 g -> geom_ok g -> False) ->
  exists r, Ret (Err e) = Ret (A := result Fat32Geometry Fat32Error) r /\ forall g, r = Ok g <-> describes sector0 g /\ geom_ok g.
Proof using. intros H. eexists. split; [reflexivity|]. intros g. split; [done|]. intros [D K]. by destruct (H g D K). Qed.

Lemma parse_bpb_spec : exists r, parse_bpb sector0 = Ret r /\ forall g, r = Ok g <-> describes sector0 g /\ geom_ok g.
Proof using Hlen Hb.
  assert (R : forall n off, 0 <= off -> 0 <= n -> off + n <= 512 -> 0 <= word_at n sector0 off < 256 ^ n) by (intros; apply word_range; lia || done).
  unfold parse_bpb, read_u16, read_u32. rewrite !byte_word, !read_word, bytes_at_in, !bind_Ret by (rewrite ?Hlen; cbn; lia). change (Z.of_nat 2) with 2. change (Z.of_nat 4) with 4. change (Z.of_nat 8) with 8. change (82 + 0) with 82.
  pose proof (word_pair sector0 510 Hb ltac:(lia) ltac:(lia)) as H510. change (510 + 1) with 511 in H510.
  pose proof (R 1 510 ltac:(lia) ltac:(lia) ltac:(lia)). pose proof (R 1 511 ltac:(lia) ltac:(lia) ltac:(lia)).
  destruct (Z.eqb_spec (word_at 1 sector0 510) 0x55) as [E1|]; [|apply refused; intros g [] []; lia].
  destruct (Z.eqb_spec (word_at 1 sector0 511) 0xAA) as [E2|]; [|apply refused; intros g [] []; lia]. cbn [negb orb].
  case_bool_decide as Et; [|apply refused; by intros g [] []]. cbn [negb].
  destruct (Z.eqb_spec (word_at 2 sector0 11) 512) as [E3|]; [|apply refused; intros g [] []; lia]. cbn [negb].
  destruct (Z.eqb_spec (word_at 1 sector0 13) 0); [apply refused; intros g [] []; lia|].
  destruct (is_power_of_two (word_at 1 sector0 13)) eqn:E4; [|apply refused; intros g [] []; destruct gk_cluster0; congruence].
  destruct (Z.ltb_spec 128 (word_at 1 sector0 13)); [apply refused; intros g [] []; lia|]. cbn [negb orb].
  destruct (Z.eqb_spec (word_at 2 sector0 14) 0); [apply refused; intros g [] []; lia|].
  destruct (Z.eqb_spec (word_at 1 sector0 16) 0); [apply refused; intros g [] []; lia|].
  destruct (Z.eqb_spec (word_at 2 sector0 17) 0) as [E5|]; [|apply refused; intros g [] []; lia].
  destruct (Z.eqb_spec (word_at 2 sector0 22) 0) as [E6|]; [|apply refused; intros g [] []; lia]. cbn [negb].
  destruct (Z.eqb_spec (word_at 4 sector0 32) 0); [apply refused; intros g [] []; nia|].
  destruct (Z.eqb_spec (word_at 4 sector0 36) 0); [apply refused; intros g [] []; lia|].
  destruct (Z.ltb_spec (word_at 4 sector0 44) 2); [apply refused; intros g [] []; unfold is_data in *; lia|]. rewrite E3.
  pose proof (R 2 14 ltac:(lia) ltac:(lia) ltac:(lia)). pose proof (R 1 16 ltac:(lia) ltac:(lia) ltac:(lia)). pose proof (R 1 13 ltac:(lia) ltac:(lia) ltac:(lia)).
  pose proof (R 4 32 ltac:(lia) ltac:(lia) ltac:(lia)). pose proof (R 4 36 ltac:(lia) ltac:(lia) ltac:(lia)). pose proof (R 4 44 ltac:(lia) ltac:(lia) ltac:(lia)).
  destruct (check_layout_spec (word_at 1 sector0 13) (word_at 2 sector0 14) (word_at 1 sector0 16) (word_at 4 sector0 32) (word_at 4 sector0 36) (word_at 4 sector0 44)) as (r & -> & Hok & Hg); [lia..|].
  exists r. split; [done|]. intros g. split.
  - intros ->. destruct (proj1 Hok (ex_intro _ g eq_refl)) as (L1 & L2 & L3 & L4). rewrite (Hg g eq_refl) in *. split; constructor; unfold is_data; cbn [layout bytes_per_sector sectors_per_cluster num_fats fat_start_sector sectors_per_fat data_start_sector root_cluster total_sectors]; try done; try lia.
    split; [lia|done].
  - intros [D K]. assert (Eg : g = layout (word_at 1 sector0 13) (word_at 2 sector0 14) (word_at 1 sector0 16) (word_at 4 sector0 32) (word_at 4 sector0 36) (word_at 4 sector0 44)).
    { destruct g, D, K. unfold layout. cbn in *. subst. congruence. }
    destruct (proj2 Hok) as [g' Er]; [|by rewrite Er, (Hg g' Er), Eg]. rewrite <- Eg. destruct D, K. unfold is_data in *. split; [lia|]. split; [done|]. split; lia.
Qed.
End Bpb.

(** * Cluster arithmetic *)
Section Clusters.
Context (g : Fat32Geometry) (K : geom_ok g).

Lemma clusters_span : 0 <= clusters g /\ clusters g * sectors_per_cluster g <= total_sectors g - data_start_sector g.
Proof using K.
  destruct K. unfold clusters. split; [apply Z.div_pos; lia|]. rewrite Z.mul_comm. apply Z.mul_div_le. lia.
Qed.

Lemma max_cluster_spec : max_cluster g = Ret (clusters g + 1).
Proof using K.
  pose proof clusters_span. destruct K. unfold max_cluster, cluster_count. rewrite sub_chk_in, bind_Ret, div_chk_in, bind_Ret by lia. fold (clusters g). apply add_chk_in. nia.
Qed.

(** The first sector of cluster [c]. *)
Definition sector_of (c : Z) : Z := data_start_sector g + (c - 2) * sectors_per_cluster g.

Lemma sector_of_in c : is_data g c -> data_start_sector g <= sector_of c /\ sector_of c + sectors_per_cluster g <= total_sectors g.
Proof using K. pose proof clusters_span. destruct K. unfold is_data, sector_of. nia. Qed.

Lemma cluster_to_sector_spec c : 0 <= c -> cluster_to_sector c g = Ret (if decide (is_data g c) then Some (sector_of c) else None).
Proof using K.
  intros Hc. unfold cluster_to_sector. destruct (Z.ltb_spec c 2); [rewrite decide_False; [done|unfold is_data; lia]|].
  rewrite max_cluster_spec, bind_Ret. destruct (Z.ltb_spec (clusters g + 1) c); [rewrite decide_False; [done|unfold is_data; lia]|].
  rewrite decide_True by (unfold is_data; lia). destruct (sector_of_in c) as [H1 H2]; [unfold is_data; lia|]. unfold sector_of in *. destruct K.
  rewrite mul_chk_in, bind_Ret, add_chk_in, bind_Ret by nia. done.
Qed.

Lemma sectors_apart c c' s : is_data g c -> is_data g c' -> sector_of c <= s < sector_of c + sectors_per_cluster g -> sector_of c' <= s < sector_of c' + sectors_per_cluster g -> c = c'.
Proof using K. destruct K. unfold sector_of. intros _ _ H H'. destruct (Z.lt_total c c') as [|[|]]; [nia|done|nia]. Qed.

Lemma fat_before_data : fat_start_sector g + sectors_per_fat g <= data_start_sector g.
Proof using K. destruct K. rewrite gk_data0. nia. Qed.

(** Where the entry of cluster [c] is in the first FAT. *)
Lemma fat_entry_location_spec c : 0 <= c <= clusters g + 1 -> fat_entry_location c g = Ret (Some (fat_start_sector g + c / 128, 4 * (c mod 128))).
Proof using K.
  intros Hc. unfold fat_entry_location. rewrite max_cluster_spec, bind_Ret. destruct (Z.ltb_spec (clusters g + 1) c); [lia|].
  pose proof fat_before_data. destruct K. rewrite mul_chk_in, bind_Ret by lia. rewrite gk_sector0, div_chk_in, bind_Ret by done.
  assert (E : c * 4 / 512 = c / 128) by (rewrite (Z.mul_comm c), <- (Z.div_mul_cancel_l c 128 4) by lia; done). rewrite E.
  assert (E' : (c * 4) mod 512 = 4 * (c mod 128)) by (rewrite (Z.mul_comm c); change 512 with (4 * 128); by rewrite Z.mul_mod_distr_l). rewrite E'.
  assert (c / 128 < sectors_per_fat g) by (apply Z.div_lt_upper_bound; lia). assert (0 <= c / 128) by (apply Z.div_pos; lia).
  pose proof (Z.mod_pos_bound c 128 ltac:(lia)). unfold wrap. rewrite (Z.mod_small (c / 128)), (Z.mod_small (4 * _)), add_chk_in, bind_Ret by lia. done.
Qed.

Lemma fat_entry_location_out c : clusters g + 1 < c -> fat_entry_location c g = Ret None.
Proof using K. intros Hc. unfold fat_entry_location. rewrite max_cluster_spec, bind_Ret. destruct (Z.ltb_spec (clusters g + 1) c); [done|lia]. Qed.

Lemma bytes_per_cluster_spec : bytes_per_cluster g = Ret (512 * sectors_per_cluster g).
Proof using K. destruct K as [E [H _]]. unfold bytes_per_cluster. rewrite E. apply mul_chk_in. lia. Qed.
End Clusters.

(** * Directories *)

(** A slot decodes without a panic. *)
Lemma parse_dirent_spec c : len c = 32 -> exists s, parse_dirent c = Ret s /\ forall e, s = Entry e -> length (name e) = 11%nat.
Proof.
  intros Hl. unfold parse_dirent. rewrite !byte_word, !read_le_in, bytes_at_in, !bind_Ret by (rewrite ?Hl; cbn; lia).
  repeat (case_match; [by eexists|]). eexists. split; [reflexivity|]. intros e [= <-]. cbn [name].
  assert (Hn : length (slice c (0 + 0) (Z.of_nat 11)) = 11%nat) by (pose proof (slice_length c (0 + 0) (Z.of_nat 11)); unfold len in *; lia).
  case_bool_decide; [by rewrite length_insert|done].
Qed.

Definition dirent_of (c : list Z) : DirEntryStatus := match parse_dirent c with Ret s => s | Panic _ => Skip end.

(** The whole slots of a buffer. *)
Definition slots (bs : list Z) : list (list Z) := (fun i => slice bs (32 * i) 32) <$> seqZ 0 (len bs / 32).

(** The entries before the end marker, if there is one. *)
Fixpoint entries_of (sl : list (list Z)) : list DirEntry :=
  match sl with
  | [] => []
  | c :: sl' => match dirent_of c with EndOfDir => [] | Skip => entries_of sl' | Entry e => e :: entries_of sl' end
  end.

Definition dir_entries (bs : list Z) : list DirEntry := entries_of (slots bs).

Lemma slots_drop bs k : 0 <= k < len bs / 32 -> drop (Z.to_nat k) (slots bs) = slice bs (32 * k) 32 :: drop (Z.to_nat (k + 1)) (slots bs).
Proof.
  intros Hk. rewrite (drop_S _ (slice bs (32 * k) 32)); [f_equal; f_equal; lia|].
  unfold slots. rewrite list_lookup_fmap, lookup_seqZ_lt by lia. cbn. do 3 f_equal. lia.
Qed.

Lemma slots_drop_all bs k : len bs / 32 <= k -> drop (Z.to_nat k) (slots bs) = [].
Proof. intros Hk. apply drop_ge. unfold slots. rewrite length_fmap, length_seqZ. lia. Qed.

Section Find.
Context (bs : list Z) (Hl : len bs < 2 ^ 63).

(** The iterator at slot [k]. *)
Notation at_ k := (mkIter bs (32 * k) false).
Notation rest k := (entries_of (drop (Z.to_nat k) (slots bs))).

Lemma dir_next_spec fuel : forall k, 0 <= k <= len bs / 32 -> len bs / 32 - k < Z.of_nat fuel ->
  exists r it, dir_next fuel (at_ k) = Ret (r, it) /\
  match r with
  | None => rest k = []
  | Some d => exists k', k < k' <= len bs / 32 /\ it = at_ k' /\ rest k = d :: rest k' /\ length (name d) = 11%nat
  end.
Proof using Hl.
  induction fuel as [|fuel IH]; intros k Hk Hf; [lia|]. cbn [dir_next it_done it_offset it_bytes].
  pose proof (Z.div_mod (len bs) 32 ltac:(lia)) as Hd. pose proof (Z.mod_pos_bound (len bs) 32 ltac:(lia)) as Hm. rewrite add_chk_in, bind_Ret by lia.
  destruct (Z.ltb_spec (len bs) (32 * k + 32)) as [L|L]; [eexists _, _; split; [reflexivity|]; by rewrite slots_drop_all by lia|].
  rewrite bytes_at_in, bind_Ret by (cbn; lia). rewrite Z.add_0_r. change (Z.of_nat 32) with 32.
  destruct (parse_dirent_spec (slice bs (32 * k) 32)) as (st & Es & Hn); [apply slice_length; lia|]. rewrite Es, bind_Ret.
  rewrite slots_drop by lia. cbn [entries_of]. unfold dirent_of. rewrite Es. replace (32 * k + 32) with (32 * (k + 1)) by lia. destruct st as [| |d].
  - by eexists _, _.
  - destruct (IH (k + 1)) as (r & it & E & Hr); [lia..|]. exists r, it. split; [exact E|]. destruct r as [d|]; [|done].
    destruct Hr as (k' & ? & ? & ?). exists k'. split; [lia|]. done.
  - eexists _, _. split; [reflexivity|]. exists (k + 1). split; [lia|]. split; [done|]. split; [done|]. by apply Hn.
Qed.

Lemma dir_find_spec p q fuel : (forall d, length (name d) = 11%nat -> p d = Ret (q d)) -> forall k, 0 <= k <= len bs / 32 -> len bs / 32 - k < Z.of_nat fuel ->
  dir_find fuel p (at_ k) = Ret (List.find q (rest k)).
Proof using Hl.
  intros Hp. induction fuel as [|fuel IH]; intros k Hk Hf; [lia|]. cbn [dir_find].
  destruct (dir_next_spec (S fuel) k Hk Hf) as (r & it & -> & Hr). rewrite bind_Ret. destruct r as [d|]; [|by rewrite Hr].
  destruct Hr as (k' & Hk' & -> & -> & Hn). rewrite Hp, bind_Ret by done. cbn [List.find]. destruct (q d); [done|]. apply IH; lia.
Qed.

(** [iter_dir(bytes).find(p)] is the first entry that satisfies [p]. *)
Lemma iter_dir_find p q : (forall d, length (name d) = 11%nat -> p d = Ret (q d)) -> dir_find (dir_fuel bs) p (iter_dir bs) = Ret (List.find q (dir_entries bs)).
Proof using Hl.
  intros Hp. unfold iter_dir. change 0 with (32 * 0) at 1. assert (len bs / 32 <= len bs) by (apply Z.div_le_upper_bound; unfold len; lia).
  rewrite (dir_find_spec p q _ Hp 0); [done| |]; [split; [lia|apply Z.div_pos; unfold len; lia]|]. unfold dir_fuel, len in *. lia.
Qed.
End Find.

(** * Names *)

Definition pad (n : nat) (l : list Z) : list Z := l ++ replicate (n - length l) 32.

(** What [match_8_3] decides: the query is the padded upper-case name. *)
Definition matches (query : list Z) (e : DirEntry) : bool :=
  if bool_decide (query = [46]) then bool_decide (take 2 (name e) = [46; 32])
  else if bool_decide (query = [46; 46]) then bool_decide (take 3 (name e) = [46; 46; 32])
  else let '(n, x) := split_dot query in
    negb (bool_decide (n = [])) && (len n <=? 8) && (len x <=? 3) && bool_decide (name e = pad 8 (ascii_uppercase <$> n) ++ pad 3 (ascii_uppercase <$> x)).

Lemma write_upper_spec part : forall canon off, (off + length part <= length canon)%nat ->
  write_upper canon off part = Ret (take off canon ++ (ascii_uppercase <$> part) ++ drop (off + length part) canon).
Proof.
  induction part as [|b part IH]; intros canon off Hl; cbn [write_upper length] in *; [by rewrite Nat.add_0_r; cbn [app fmap list_fmap]; rewrite take_drop|].
  rewrite decide_True, IH by (rewrite ?length_insert; lia). f_equal. rewrite (take_S_r _ _ (ascii_uppercase b)) by (apply list_lookup_insert_eq; lia).
  rewrite take_insert_ge, drop_insert_lt by lia. rewrite fmap_cons, <- app_assoc. by replace (S off + length part)%nat with (off + S (length part))%nat by lia.
Qed.

(** The two writes leave the padded name and extension. *)
Lemma canon_spec (u v : list Z) : (length u <= 8)%nat -> (length v <= 3)%nat ->
  take 8 (u ++ drop (length u) (replicate 11 32)) ++ v ++ drop (8 + length v) (u ++ drop (length u) (replicate 11 32)) = pad 8 u ++ pad 3 v.
Proof.
  intros Hu Hv. rewrite drop_replicate, take_app, drop_app, take_replicate, drop_replicate, take_ge, drop_ge by lia. unfold pad. rewrite <- !app_assoc. cbn [app].
  f_equal. f_equal; [f_equal; lia|]. f_equal. f_equal. lia.
Qed.

Lemma match_8_3_spec query e : length (name e) = 11%nat -> match_8_3 query e = Ret (matches query e).
Proof.
  intros Hn. destruct (name e) as [|n0 [|n1 [|n2 rest]]] eqn:En; try done. unfold match_8_3, matches. rewrite En.
  case_bool_decide; [change (byte_at (n0 :: n1 :: n2 :: rest) 0) with (Ret n0); change (byte_at (n0 :: n1 :: n2 :: rest) 1) with (Ret n1); cbn [mbind outcome_bind take]; f_equal|].
  - destruct (Z.eqb_spec n0 46), (Z.eqb_spec n1 32); symmetry; [apply bool_decide_eq_true_2|apply bool_decide_eq_false_2..]; congruence.
  - case_bool_decide.
    + change (byte_at (n0 :: n1 :: n2 :: rest) 0) with (Ret n0). change (byte_at (n0 :: n1 :: n2 :: rest) 1) with (Ret n1). change (byte_at (n0 :: n1 :: n2 :: rest) 2) with (Ret n2).
      cbn [mbind outcome_bind take]. rewrite take_0. f_equal. destruct (Z.eqb_spec n0 46), (Z.eqb_spec n1 46), (Z.eqb_spec n2 32); symmetry; [apply bool_decide_eq_true_2|apply bool_decide_eq_false_2..]; congruence.
    + destruct (split_dot query) as [n x]. case_bool_decide; [done|]. cbn [negb andb]. rewrite !Z.ltb_antisym. destruct (Z.leb_spec (len n) 8) as [L1|]; [|done]. destruct (Z.leb_spec (len x) 3) as [L2|]; [|done]. cbn [negb orb andb].
      unfold len in *. rewrite write_upper_spec, bind_Ret by (rewrite length_replicate; lia). rewrite take_0, app_nil_l, Nat.add_0_l.
      rewrite write_upper_spec, bind_Ret by (rewrite ?length_app, ?length_fmap, ?length_drop, ?length_replicate; cbn; lia). f_equal. apply bool_decide_ext.
      rewrite <- (length_fmap ascii_uppercase n), <- (length_fmap ascii_uppercase x), canon_spec by (rewrite length_fmap; lia). done.
Qed.
