(* ===== verification/FatServer.v ===== *)
(** The FAT32 server (user/fat32-server/src/main.rs) and its protocol
    (lockjaw-types/src/fs.rs): cluster chains, path resolution, open files and the
    requests of its clients. The block device below it, the kernel's page calls
    and the process's address allocator are interfaces. *)
From Stdlib Require Import ZArith Lia.
From stdpp Require Import base option gmap numbers list.
From S2P Require Import Prelude Bytes Fat32.
Open Scope Z_scope.

(** * The protocol *)

Definition FS_OPEN : Z := 1.
Definition FS_READ : Z := 2.
Definition FS_CLOSE : Z := 3.
Definition FS_OK : Z := 0.
Definition FS_ERR_NOT_FOUND : Z := 1.
Definition FS_ERR_INVALID : Z := 2.
Definition FS_ERR_TOO_MANY_OPEN : Z := 3.
Definition FS_ERR_IO : Z := 4.
Definition FS_ERR_PATH_TOO_LONG : Z := 5.
Definition FS_ERR_INVALID_BUFFER_PAGES : Z := 6.
Definition FS_ERR_ALLOC : Z := 7.
Definition FS_ERR_IS_DIRECTORY : Z := 8.
Definition FS_ERR_NOT_DIRECTORY : Z := 9.
Definition FS_MAX_INLINE_PATH : Z := 16.
Definition FS_MAX_BUFFER_PAGES : Z := 8.

Record FsRequest := mkReq { cmd : Z; arg1 : Z; arg2 : Z; arg3 : Z }.

(** The four words of a reply. *)
Record Words := mkWords { w0 : Z; w1 : Z; w2 : Z; w3 : Z }.

Definition fail_words (status : Z) : Words := mkWords status 0 0 0.

Inductive FsAction :=
  | Open (path : list Z) (path_len buffer_pages : Z)
  | Read (handle len : Z)
  | Close (handle : Z)
  | Reply (words : Words).

Definition U32_MAX : Z := 4294967295.

Definition decode_open (req : FsRequest) : FsAction :=
  let path_len_raw := wrap 8 (Z.land (arg1 req) 0xFF) in
  let buffer_pages := wrap 8 (Z.land (Z.shiftr (arg1 req) 8) 0xFF) in
  if (path_len_raw =? 0) || (FS_MAX_INLINE_PATH <? path_len_raw) then Reply (fail_words FS_ERR_PATH_TOO_LONG) else
  if (buffer_pages =? 0) || (FS_MAX_BUFFER_PAGES <? buffer_pages) then Reply (fail_words FS_ERR_INVALID_BUFFER_PAGES) else
  Open (le_bytes 8 (arg2 req) ++ le_bytes 8 (arg3 req)) path_len_raw buffer_pages.

Definition dispatch (req : FsRequest) : FsAction :=
  if cmd req =? FS_OPEN then
    if negb (Z.shiftr (arg1 req) 16 =? 0) then Reply (fail_words FS_ERR_INVALID) else decode_open req
  else if cmd req =? FS_READ then
    if U32_MAX <? arg1 req then Reply (fail_words FS_ERR_INVALID) else
    if U32_MAX <? arg2 req then Reply (fail_words FS_ERR_INVALID) else
    if negb (arg3 req =? 0) then Reply (fail_words FS_ERR_INVALID) else
    Read (wrap 32 (arg1 req)) (wrap 32 (arg2 req))
  else if cmd req =? FS_CLOSE then
    if U32_MAX <? arg1 req then Reply (fail_words FS_ERR_INVALID) else
    if negb (arg2 req =? 0) || negb (arg3 req =? 0) then Reply (fail_words FS_ERR_INVALID) else
    Close (wrap 32 (arg1 req))
  else Reply (fail_words FS_ERR_INVALID).

(** The client's side (user/lockjaw-userlib/src/fs.rs packs with these). *)
Definition pack_path (path : list Z) : Z * Z :=
  let n := Z.min (len path) FS_MAX_INLINE_PATH in
  let buf := take (Z.to_nat n) path ++ replicate (16 - Z.to_nat n) 0 in
  (from_le_bytes (slice buf 0 8), from_le_bytes (slice buf 8 8)).

Definition pack_open_header (path_len buffer_pages : Z) : Z := Z.lor (Z.shiftl buffer_pages 8) path_len.

(** * Interfaces *)

(** A block device as its client sees it: [blk_read sector count] is what a read
    leaves in the buffer, [None] when it fails. *)
Class BlockDevice := blk_read : Z -> Z -> option (list Z).

(** What the block protocol promises (lockjaw-types/src/block.rs, CMD_READ): a read
    that succeeds leaves the sectors in the buffer. *)
Class Disk (B : BlockDevice) (sector : Z -> list Z) := {
  disk_sector : forall s, len (sector s) = 512 /\ bytes (sector s);
  disk_read : forall s n l, 0 <= s -> 0 <= n -> blk_read s n = Some l -> l = concat (sector <$> seqZ s n);
}.

(** The kernel calls and the address allocator (VMEM) of the server. *)
Class Platform (P : Type) := {
  sys_alloc_pages : P -> Z -> option Z * P;
  vmem_alloc : P -> Z -> option Z * P;
  sys_map_pages : P -> Z -> Z -> bool * P;
  sys_close_handle : P -> Z -> P;
  free_unused_allocation : P -> Z -> Z -> P;
  unmap_pages_tracked : P -> Z -> Z -> Z -> bool * P;
  free_unmapped : P -> Z -> Z -> P;
  sys_export_handle : P -> Z -> option Z * P;
}.

(** * Open files *)

Definition MAX_OPEN_FILES : nat := 8.

Record OpenFile := mkOpen {
  caller_token : Z;
  start_cluster : Z;
  of_size : Z;
  cursor : Z;
  buffer_ps : Z;
  buffer_va : Z;
  buffer_size_bytes : Z;
  of_pages : Z;
}.

Notation OpenTable := (list (option OpenFile)).

Definition new_table : OpenTable := replicate MAX_OPEN_FILES None.

Definition set_cursor (f : OpenFile) (c : Z) : OpenFile :=
  mkOpen (caller_token f) (start_cluster f) (of_size f) c (buffer_ps f) (buffer_va f) (buffer_size_bytes f) (of_pages f).

Fixpoint first_none (t : OpenTable) : option nat :=
  match t with [] => None | None :: _ => Some 0%nat | Some _ :: t' => S <$> first_none t' end.

Definition ot_insert (t : OpenTable) (f : OpenFile) : option Z * OpenTable :=
  match first_none t with Some i => (Some (Z.of_nat i + 1), <[i := Some f]> t) | None => (None, t) end.

(** The slot of a handle, if it is the caller's. *)
Definition ot_slot (t : OpenTable) (handle token : Z) : option (nat * OpenFile) :=
  if handle <? 1 then None else
  match t !! Z.to_nat (handle - 1) with
  | Some (Some f) => if caller_token f =? token then Some (Z.to_nat (handle - 1), f) else None
  | _ => None
  end.

Definition ot_get (t : OpenTable) (handle token : Z) : option OpenFile := snd <$> ot_slot t handle token.

Definition ot_set_cursor (t : OpenTable) (handle token c : Z) : OpenTable :=
  match ot_slot t handle token with Some (i, f) => <[i := Some (set_cursor f c)]> t | None => t end.

Definition ot_remove (t : OpenTable) (handle token : Z) : option OpenFile * OpenTable :=
  match ot_slot t handle token with Some (i, f) => (Some f, <[i := None]> t) | None => (None, t) end.

(** The server's memory at the addresses it has written, its open files and what
    the kernel and the address allocator hold for it. *)
Record Server (P : Type) := mkServer { sv_mem : gmap Z Z; sv_table : OpenTable; sv_platform : P }.
Arguments sv_mem {P} s.
Arguments sv_table {P} s.
Arguments sv_platform {P} s.

(** [ptr::copy_nonoverlapping(src, dest, len)] *)
Fixpoint mem_write (a : Z) (l : list Z) (m : gmap Z Z) : gmap Z Z :=
  match l with [] => m | b :: l' => mem_write (a + 1) l' (<[a := b]> m) end.

(** * Reading the volume *)
Section Mount.
Context {B : BlockDevice} (geom : Fat32Geometry).

Definition read_cluster (cluster : Z) : outcome (result (list Z) Z) :=
  s ← cluster_to_sector cluster geom;
  match s with
  | None => Ret (Err FS_ERR_IO)
  | Some start_sector => Ret (match blk_read start_sector (sectors_per_cluster geom) with Some l => Ok l | None => Err FS_ERR_IO end)
  end.

(** The bytes of the scratch buffer after a read that left [l] there. *)
Definition cluster_bytes (l : list Z) : outcome (list Z) := n ← bytes_per_cluster geom; Ret (slice l 0 n).

Definition fat_next (cluster : Z) : outcome (result FatEntry Z) :=
  loc ← fat_entry_location cluster geom;
  match loc with
  | None => Ret (Err FS_ERR_IO)
  | Some (sector, in_sector_offset) =>
      match blk_read sector 1 with
      | None => Ret (Err FS_ERR_IO)
      | Some l => raw ← read_le 4 (slice l 0 512) in_sector_offset; Ret (Ok (decode_fat_entry_value raw))
      end
  end.

(** * Path resolution *)

(** The loop over the clusters of a directory. *)
Fixpoint lookup_in_dir (fuel : nat) (cluster : Z) (nm : list Z) : outcome (result DirEntry Z) :=
  match fuel with
  | O => Panic PFuel
  | S fuel' =>
      r ← read_cluster cluster;
      match r with
      | Err e => Ret (Err e)
      | Ok l =>
          dir_data ← cluster_bytes l;
          found ← dir_find (dir_fuel dir_data) (match_8_3 nm) (iter_dir dir_data);
          match found with
          | Some entry => Ret (Ok entry)
          | None =>
              n ← fat_next cluster;
              match n with
              | Err e => Ret (Err e)
              | Ok (Used next) => lookup_in_dir fuel' next nm
              | Ok EndOfChain => Ret (Err FS_ERR_NOT_FOUND)
              | Ok _ => Ret (Err FS_ERR_IO)
              end
          end
      end
  end.

(** [path.split(|b| b == b'/').filter(|c| !c.is_empty())] *)
Fixpoint split_slash (path : list Z) : list (list Z) :=
  match path with
  | [] => [[]]
  | b :: path' => if b =? 47 then [] :: split_slash path' else match split_slash path' with c :: cs => (b :: c) :: cs | [] => [[b]] end
  end.

Definition components (path : list Z) : list (list Z) := filter (fun c => c <> []) (split_slash path).

Fixpoint resolve_loop (fuel : nat) (cluster : Z) (lst : option DirEntry) (cs : list (list Z)) : outcome (result (option DirEntry) Z) :=
  match cs with
  | [] => Ret (Ok lst)
  | c :: cs' =>
      let step cluster :=
        r ← lookup_in_dir fuel cluster c;
        match r with Err e => Ret (Err e) | Ok entry => resolve_loop fuel cluster (Some entry) cs' end in
      match lst with
      | None => step cluster
      | Some prev =>
          if negb (is_directory prev) then Ret (Err FS_ERR_NOT_DIRECTORY) else
          if first_cluster prev <? 2 then Ret (Err FS_ERR_NOT_FOUND) else step (first_cluster prev)
      end
  end.

Definition resolve_path (fuel : nat) (path : list Z) : outcome (result DirEntry Z) :=
  let must_be_directory := bool_decide (last path = Some 47) in
  r ← resolve_loop fuel (root_cluster geom) None (components path);
  match r with
  | Err e => Ret (Err e)
  | Ok None => Ret (Err FS_ERR_NOT_FOUND)
  | Ok (Some entry) => if must_be_directory && negb (is_directory entry) then Ret (Err FS_ERR_NOT_DIRECTORY) else Ret (Ok entry)
  end.

(** * The handlers *)
Section Handlers.
Context {P : Type} `{!Platform P}.

Definition handle_open (fuel : nat) (s : Server P) (token : Z) (path : list Z) (buffer_pages : Z) : outcome (Words * Server P) :=
  r ← resolve_path fuel path;
  match r with
  | Err e => Ret (fail_words e, s)
  | Ok entry =>
      if is_directory entry then Ret (fail_words FS_ERR_IS_DIRECTORY, s) else
      let '(ps, p) := sys_alloc_pages (sv_platform s) buffer_pages in
      match ps with
      | None => Ret (fail_words FS_ERR_ALLOC, mkServer _ (sv_mem s) (sv_table s) p)
      | Some buffer_ps =>
          let '(va, p) := vmem_alloc p buffer_pages in
          match va with
          | None => Ret (fail_words FS_ERR_ALLOC, mkServer _ (sv_mem s) (sv_table s) (sys_close_handle p buffer_ps))
          | Some buffer_va =>
              let '(mapped, p) := sys_map_pages p buffer_ps buffer_va in
              if negb mapped then
                Ret (fail_words FS_ERR_ALLOC, mkServer _ (sv_mem s) (sv_table s) (free_unused_allocation (sys_close_handle p buffer_ps) buffer_va buffer_pages))
              else
                buffer_size_bytes ← mul_chk 32 buffer_pages PAGE_SIZE;
                let teardown p := let '(ok, p) := unmap_pages_tracked p buffer_ps buffer_va buffer_pages in
                                  sys_close_handle (if ok : bool then free_unmapped p buffer_va buffer_pages else p) buffer_ps in
                match ot_insert (sv_table s) (mkOpen token (first_cluster entry) (size entry) 0 buffer_ps buffer_va buffer_size_bytes buffer_pages) with
                | (None, _) => Ret (fail_words FS_ERR_TOO_MANY_OPEN, mkServer _ (sv_mem s) (sv_table s) (teardown p))
                | (Some handle, t) =>
                    let '(exported, p) := sys_export_handle p buffer_ps in
                    match exported with
                    | Some idx => Ret (mkWords FS_OK handle idx buffer_size_bytes, mkServer _ (sv_mem s) t p)
                    | None =>
                        let '(removed, t) := ot_remove t handle token in
                        _ ← unwrap removed;
                        Ret (fail_words FS_ERR_ALLOC, mkServer _ (sv_mem s) t (teardown p))
                    end
                end
          end
      end
  end.

(** The first loop of handle_read: to the cluster the cursor is in. *)
Fixpoint skip_clusters (n : nat) (cluster : Z) : outcome (result Z Z) :=
  match n with
  | O => Ret (Ok cluster)
  | S n' =>
      r ← fat_next cluster;
      match r with Ok (Used next) => skip_clusters n' next | _ => Ret (Err FS_ERR_IO) end
  end.

(** The second: cluster by cluster into the buffer at [dest]. The result is the
    number of bytes copied. *)
Fixpoint copy_clusters (fuel : nat) (bpc dest : Z) (cluster in_cluster_offset bytes_left dest_offset : Z) (m : gmap Z Z) : outcome (result Z Z * gmap Z Z) :=
  match fuel with
  | O => Panic PFuel
  | S fuel' =>
      r ← read_cluster cluster;
      match r with
      | Err _ => Ret (Err FS_ERR_IO, m)
      | Ok l =>
          cluster_bytes ← cluster_bytes l;
          avail ← sub_chk bpc in_cluster_offset;
          let in_this_cluster := Z.min avail bytes_left in
          let m := mem_write (dest + dest_offset) (slice cluster_bytes in_cluster_offset in_this_cluster) m in
          dest_offset ← add_chk 32 dest_offset in_this_cluster;
          bytes_left ← sub_chk bytes_left in_this_cluster;
          if bytes_left =? 0 then Ret (Ok dest_offset, m) else
          n ← fat_next cluster;
          match n with
          | Ok (Used next) => copy_clusters fuel' bpc dest next 0 bytes_left dest_offset m
          | Ok EndOfChain => Ret (Ok dest_offset, m)
          | _ => Ret (Err FS_ERR_IO, m)
          end
      end
  end.

(** A turn for each cluster the bytes may be spread over. *)
Definition copy_fuel (bpc to_read : Z) : nat := Z.to_nat (to_read / bpc + 2).

Definition handle_read (s : Server P) (token handle len : Z) : outcome (Words * Server P) :=
  match ot_get (sv_table s) handle token with
  | None => Ret (fail_words FS_ERR_INVALID, s)
  | Some f =>
      let remaining := Z.max 0 (of_size f - cursor f) in
      let to_read := Z.min (Z.min len (buffer_size_bytes f)) remaining in
      if to_read =? 0 then Ret (fail_words FS_OK, s) else
      bpc ← bytes_per_cluster geom;
      clusters_to_skip ← div_chk (cursor f) bpc;
      r ← skip_clusters (Z.to_nat clusters_to_skip) (start_cluster f);
      match r with
      | Err e => Ret (fail_words e, s)
      | Ok cluster =>
          c ← copy_clusters (copy_fuel bpc to_read) bpc (buffer_va f) cluster (cursor f mod bpc) to_read 0 (sv_mem s);
          let '(n, m) := c in
          match n with
          | Err e => Ret (fail_words e, mkServer _ m (sv_table s) (sv_platform s))
          | Ok bytes_returned =>
              Ret (mkWords FS_OK bytes_returned 0 0, mkServer _ m (ot_set_cursor (sv_table s) handle token (sat_add 32 (cursor f) bytes_returned)) (sv_platform s))
          end
      end
  end.

Definition handle_close (s : Server P) (token handle : Z) : Words * Server P :=
  match ot_remove (sv_table s) handle token with
  | (None, _) => (fail_words FS_ERR_INVALID, s)
  | (Some f, t) =>
      let '(ok, p) := unmap_pages_tracked (sv_platform s) (buffer_ps f) (buffer_va f) (of_pages f) in
      let p := if ok : bool then free_unmapped p (buffer_va f) (of_pages f) else p in
      (fail_words FS_OK, mkServer _ (sv_mem s) t (sys_close_handle p (buffer_ps f)))
  end.

(** One turn of the server's loop: a request from the client with [token]. *)
Definition serve (fuel : nat) (s : Server P) (token : Z) (req : FsRequest) : outcome (Words * Server P) :=
  match dispatch req with
  | Open path path_len buffer_pages => handle_open fuel s token (slice path 0 path_len) buffer_pages
  | Read handle len => handle_read s token handle len
  | Close handle => Ret (handle_close s token handle)
  | Reply words => Ret (words, s)
  end.
End Handlers.
End Mount.
