(* ===== verification/FatVolume.v ===== *)
(** The FAT32 server's reads: what a cluster chain holds, that a read delivers it,
    and when the walks end (user/fat32-server/src/main.rs). *)
From Stdlib Require Import ZArith Lia.
From stdpp Require Import base option gmap numbers list.
From S2P Require Import Prelude Bytes Fat32 FatServer.
Open Scope Z_scope.

(** * Loops that may not end *)
Section Iterate.
Context {A : Type} `{EqDecision A} (step : A -> option A).

Fixpoint iter (n : nat) (a : A) : option A := match n with O => Some a | S n' => step a ≫= iter n' end.

Lemma iter_add n m a : iter (n + m) a = iter n a ≫= iter m.
Proof using. revert a. induction n as [|n IH]; intros a; [done|]. cbn. destruct (step a); [apply IH|done]. Qed.

Lemma iter_le n m a : (n <= m)%nat -> is_Some (iter m a) -> is_Some (iter n a).
Proof using. intros Hl [b Hb]. replace m with (n + (m - n))%nat in Hb by lia. rewrite iter_add in Hb. by destruct (iter n a). Qed.

(** The first [n] states. *)
Fixpoint trace (n : nat) (a : A) : list A := match n with O => [] | S n' => a :: match step a with Some b => trace n' b | None => [] end end.

Lemma trace_lookup n : forall i a, (i < n)%nat -> trace n a !! i = iter i a.
Proof using.
  induction n as [|n IH]; intros i a Hi; [lia|]. cbn [trace]. destruct i as [|i]; [done|]. cbn. destruct (step a) as [b|]; [|done]. cbn. apply IH. lia.
Qed.

Lemma trace_length n a : is_Some (iter n a) -> length (trace n a) = n.
Proof using. revert a. induction n as [|n IH]; intros a Hs; [done|]. cbn in *. destruct (step a); [by rewrite IH|by destruct Hs]. Qed.

Lemma repeats (l : list A) : ~ NoDup l -> exists i j x, (i < j)%nat /\ l !! i = Some x /\ l !! j = Some x.
Proof.
  induction l as [|x l IH]; intros Hn; [destruct Hn; constructor|]. destruct (decide (x ∈ l)) as [[j Hj]%list_elem_of_lookup|Hx].
  - exists 0%nat, (S j), x. split; [lia|done].
  - destruct IH as (i & j & y & ? & ? & ?); [intros Hd; apply Hn; by constructor|]. exists (S i), (S j), y. split; [lia|done].
Qed.

(** A walk that has not ended after as many steps as there are states never ends. *)
Lemma iter_forever (L : list A) a : (forall b c, step b = Some c -> b ∈ L) -> is_Some (iter (S (length L)) a) -> forall n, is_Some (iter n a).
Proof.
  intros HL Hs. assert (Hd : ~ NoDup (trace (S (length L)) a)).
  { intros Hd. assert (Hsub : trace (S (length L)) a ⊆ L).
    { intros x Hx. apply list_elem_of_lookup in Hx as [i Hi]. pose proof (lookup_lt_Some _ _ _ Hi) as Hlt. rewrite trace_length in Hlt by done. rewrite trace_lookup in Hi by lia.
      destruct (iter_le (S i) _ a Hlt Hs) as [y Hy]. replace (S i) with (i + 1)%nat in Hy by lia. rewrite iter_add, Hi in Hy. cbn in Hy. destruct (step x) eqn:E; [by eapply HL|done]. }
    pose proof (submseteq_length _ _ (NoDup_submseteq _ _ Hd Hsub)) as Hlen. rewrite trace_length in Hlen by done. lia. }
  apply repeats in Hd as (i & j & x & Hij & Hi & Hj). pose proof (lookup_lt_Some _ _ _ Hj) as Hlt. rewrite trace_length in Hlt by done. rewrite trace_lookup in Hi, Hj by lia.
  intros n. induction n as [n IH] using lt_wf_ind. destruct (decide (n <= S (length L))%nat) as [|Hg]; [by eapply iter_le|].
  replace n with (j + (n - j))%nat by lia. rewrite iter_add, Hj. cbn. destruct (IH (i + (n - j))%nat) as [y Hy]; [lia|]. rewrite iter_add, Hi in Hy. by exists y.
Qed.
End Iterate.

(** * The volume *)
Section Volume.
Context {B : BlockDevice} (g : Fat32Geometry) (K : geom_ok g) (sector : Z -> list Z) (D : Disk B sector).

Definition bpc : Z := 512 * sectors_per_cluster g.

(** The FAT's entry of a cluster and a cluster's bytes. *)
Definition fat_entry (c : Z) : FatEntry := decode_fat_entry_value (word_at 4 (sector (fat_start_sector g + c / 128)) (4 * (c mod 128))).
Definition cluster_data (c : Z) : list Z := concat (sector <$> seqZ (sector_of g c) (sectors_per_cluster g)).

Lemma sectors_length s n : 0 <= n -> len (concat (sector <$> seqZ s n)) = 512 * n.
Proof using D.
  intros Hn. rewrite <- (Z2Nat.id n Hn). generalize (Z.to_nat n). clear n Hn. intros n. revert s. induction n as [|n IH]; intros s; [done|].
  rewrite seqZ_cons by lia. rewrite fmap_cons. cbn [concat]. unfold len in *. rewrite length_app, Nat2Z.inj_add. replace (Z.pred (Z.of_nat (S n))) with (Z.of_nat n) by lia.
  rewrite IH. destruct (disk_sector (sector := sector) s) as [Hs _]. unfold len in Hs. lia.
Qed.

Lemma cluster_data_len c : len (cluster_data c) = bpc.
Proof using D K. destruct (gk_cluster _ K). apply sectors_length. lia. Qed.

Lemma read_cluster_spec c : 0 <= c -> exists r, read_cluster g c = Ret r /\
  ((r = Err FS_ERR_IO /\ (is_data g c -> blk_read (sector_of g c) (sectors_per_cluster g) = None)) \/ is_data g c /\ r = Ok (cluster_data c)).
Proof using D K.
  intros Hc. unfold read_cluster. rewrite (cluster_to_sector_spec g K c Hc), bind_Ret. case_decide as Hd; [|by eexists; split; [reflexivity|left]].
  eexists. split; [reflexivity|]. destruct (blk_read _ _) as [l|] eqn:E; [|by left]. right. split; [done|]. f_equal.
  destruct (sector_of_in g K c Hd). pose proof (fat_before_data g K). pose proof (gk_fats g K). pose proof (gk_cluster g K). eapply disk_read; [lia..|done].
Qed.

Lemma cluster_bytes_spec c : cluster_bytes g (cluster_data c) = Ret (cluster_data c).
Proof using D K.
  unfold cluster_bytes. rewrite (bytes_per_cluster_spec g K), bind_Ret. f_equal. unfold slice. rewrite drop_0. apply take_ge.
  pose proof (cluster_data_len c) as H. unfold len, bpc in H. lia.
Qed.

Lemma fat_sector_in c : 0 <= c <= clusters g + 1 -> 0 <= fat_start_sector g + c / 128 /\ fat_start_sector g + c / 128 + 1 <= total_sectors g.
Proof using K.
  intros Hc. pose proof (fat_before_data g K). pose proof (gk_entries g K). pose proof (gk_total g K). pose proof (gk_fats g K). assert (c / 128 < sectors_per_fat g) by (apply Z.div_lt_upper_bound; lia). assert (0 <= c / 128) by (apply Z.div_pos; lia). lia.
Qed.

Lemma fat_next_spec c : 0 <= c -> exists r, fat_next g c = Ret r /\
  ((r = Err FS_ERR_IO /\ (c <= clusters g + 1 -> blk_read (fat_start_sector g + c / 128) 1 = None)) \/ c <= clusters g + 1 /\ r = Ok (fat_entry c)).
Proof using D K.
  intros Hc. unfold fat_next. destruct (Z.leb_spec c (clusters g + 1)) as [L|L].
  - rewrite (fat_entry_location_spec g K c), bind_Ret by lia. destruct (blk_read _ _) as [l|] eqn:E; [|by eexists; split; [reflexivity|left]].
    destruct (fat_sector_in c) as [F1 F2]; [lia|]. apply (disk_read (sector := sector)) in E; [|lia..]. rewrite seqZ_cons in E by lia. change (Z.pred 1) with 0 in E. cbn in E. rewrite app_nil_r in E. subst l.
    destruct (disk_sector (sector := sector) (fat_start_sector g + c / 128)) as [Hs _]. set (v := sector _) in *.
    assert (Ev : slice v 0 512 = v) by (unfold slice; rewrite drop_0; apply take_ge; unfold len in Hs; lia). rewrite Ev.
    pose proof (Z.mod_pos_bound c 128 ltac:(lia)). rewrite read_word, bind_Ret by (rewrite ?Hs; cbn; lia). eexists. split; [reflexivity|]. right. done.
  - rewrite (fat_entry_location_out g K c), bind_Ret by lia. eexists. split; [reflexivity|]. left. split; [done|lia].
Qed.

Lemma classify_used v n : classify_entry v = Used n -> 2 <= n.
Proof. unfold classify_entry. repeat case_match; try done. intros [= <-]. lia. Qed.

Lemma used_pos c n : fat_entry c = Used n -> 2 <= n.
Proof. apply classify_used. Qed.

(** ** Directories *)

(** One turn of the directory walk: a result, or the next cluster. *)
Definition turn (nm : list Z) (c : Z) : result DirEntry Z + Z :=
  match read_cluster g c with
  | Ret (Ok _) =>
      match List.find (matches nm) (dir_entries (cluster_data c)) with
      | Some e => inl (Ok e)
      | None =>
          match fat_next g c with
          | Ret (Ok (Used n)) => inr n
          | Ret (Ok EndOfChain) => inl (Err FS_ERR_NOT_FOUND)
          | _ => inl (Err FS_ERR_IO)
          end
      end
  | _ => inl (Err FS_ERR_IO)
  end.

Definition walk (nm : list Z) (c : Z) : option Z := match turn nm c with inr n => Some n | inl _ => None end.

Lemma bpc_range : 0 < bpc <= 65536.
Proof using K. pose proof (gk_cluster g K). unfold bpc. lia. Qed.

Lemma find_in_cluster nm c : dir_find (dir_fuel (cluster_data c)) (match_8_3 nm) (iter_dir (cluster_data c)) = Ret (List.find (matches nm) (dir_entries (cluster_data c))).
Proof using D K. apply iter_dir_find; [rewrite cluster_data_len; pose proof bpc_range; lia|]. intros d. apply match_8_3_spec. Qed.

Lemma lookup_turn fuel c nm : 0 <= c -> lookup_in_dir g (S fuel) c nm = match turn nm c with inl r => Ret r | inr n => lookup_in_dir g fuel n nm end.
Proof using D K.
  intros Hc. cbn [lookup_in_dir]. unfold turn. destruct (read_cluster_spec c Hc) as (r & -> & [[-> _]|[Hd ->]]); [done|]. rewrite bind_Ret, cluster_bytes_spec, bind_Ret, find_in_cluster, bind_Ret.
  destruct (List.find _ _) as [e|]; [done|]. destruct (fat_next_spec c Hc) as (r & -> & [[-> _]|[_ ->]]); [done|]. rewrite bind_Ret. by destruct (fat_entry c).
Qed.

Lemma walk_data nm c n : 0 <= c -> walk nm c = Some n -> is_data g c /\ 2 <= n.
Proof using D K.
  intros Hc. unfold walk, turn. destruct (read_cluster_spec c Hc) as (r & -> & [[-> _]|[Hd ->]]); [done|]. destruct (List.find _ _); [done|].
  destruct (fat_next_spec c Hc) as (r & -> & [[-> _]|[_ ->]]); [done|]. destruct (fat_entry c) eqn:E; try done. intros [= <-]. split; [done|by eapply used_pos].
Qed.

Lemma lookup_goes_on nm fuel : forall c, 0 <= c -> is_Some (iter (walk nm) fuel c) -> lookup_in_dir g fuel c nm = Panic PFuel.
Proof using D K.
  induction fuel as [|fuel IH]; intros c Hc Hs; [done|]. rewrite lookup_turn by done. cbn [iter] in Hs. destruct (walk nm c) as [n|] eqn:E; [|by destruct Hs].
  destruct (walk_data nm c n Hc E). unfold walk in E. destruct (turn nm c); [done|]. injection E as ->. apply IH; [lia|done].
Qed.

Lemma lookup_ends nm fuel : forall c, 0 <= c -> iter (walk nm) fuel c = None -> exists r, forall fuel', (fuel <= fuel')%nat -> lookup_in_dir g fuel' c nm = Ret r.
Proof using D K.
  induction fuel as [|fuel IH]; intros c Hc Hs; [done|]. cbn [iter] in Hs. destruct (walk nm c) as [n|] eqn:E.
  - destruct (walk_data nm c n Hc E). destruct (IH n) as [r Hr]; [lia|done|]. exists r. intros [|f] Hf; [lia|]. rewrite lookup_turn by done. unfold walk in E. destruct (turn nm c); [done|].
    injection E as ->. apply Hr. lia.
  - unfold walk in E. destruct (turn nm c) as [r|] eqn:Et; [|done]. exists r. intros [|f] Hf; [lia|]. by rewrite lookup_turn, Et.
Qed.

(** As many turns as the volume has clusters, and one more. *)
Definition walk_bound : nat := S (Z.to_nat (clusters g)).

(** A walk ends within the bound or never. *)
Lemma lookup_decided c nm : 0 <= c -> (exists r, forall fuel, (walk_bound <= fuel)%nat -> lookup_in_dir g fuel c nm = Ret r) \/ forall fuel, lookup_in_dir g fuel c nm = Panic PFuel.
Proof using D K.
  intros Hc. destruct (iter (walk nm) walk_bound c) as [x|] eqn:E; [right|left; by apply lookup_ends].
  intros fuel. apply lookup_goes_on; [done|]. pose (st z := if decide (0 <= z) then walk nm z else None).
  assert (Hst : forall n z, 0 <= z -> iter st n z = iter (walk nm) n z).
  { induction n as [|n IH]; intros z Hz; [done|]. cbn [iter]. assert (Ez : st z = walk nm z) by (unfold st; by rewrite decide_True). rewrite Ez. destruct (walk nm z) as [y|] eqn:Ey; [|done]. cbn. apply IH. apply walk_data in Ey; [lia|done]. }
  rewrite <- Hst in E |- * by done. apply (iter_forever st (seqZ 2 (clusters g))).
  - intros b y Hb. unfold st in Hb. case_decide; [|done]. apply walk_data in Hb as [[? ?] _]; [|done]. apply elem_of_seqZ. lia.
  - rewrite length_seqZ. by exists x.
Qed.

(** ** Cluster chains *)

Inductive chain : Z -> list Z -> Prop :=
  | chain_last c : is_data g c -> fat_entry c = EndOfChain -> chain c [c]
  | chain_next c n l : is_data g c -> fat_entry c = Used n -> chain n l -> chain c (c :: l).

(** What the clusters hold. *)
Definition content (l : list Z) : list Z := concat (cluster_data <$> l).

Lemma content_len l : len (content l) = bpc * Z.of_nat (length l).
Proof using D K.
  induction l as [|c l IH]; [by rewrite Z.mul_0_r|]. unfold content in *. rewrite fmap_cons. cbn [concat length]. unfold len in *. rewrite length_app, Nat2Z.inj_add.
  pose proof (cluster_data_len c) as Hc. unfold len in Hc. lia.
Qed.

(** The device serves every read inside the volume. *)
Definition serves : Prop := forall s n, 0 <= s -> 0 < n -> s + n <= total_sectors g -> is_Some (blk_read s n).

Section Serves.
Context (Hs : serves).

Lemma read_cluster_ok c : is_data g c -> read_cluster g c = Ret (Ok (cluster_data c)).
Proof using D K Hs.
  intros Hd. destruct (read_cluster_spec c) as (r & -> & [[-> Hn]|[_ ->]]); [unfold is_data in Hd; lia| |done]. exfalso.
  destruct (sector_of_in g K c Hd) as [S1 S2]. pose proof (fat_before_data g K). pose proof (gk_fats g K). pose proof (gk_cluster g K).
  destruct (Hs (sector_of g c) (sectors_per_cluster g)) as [l Hl]; [lia..|]. by rewrite (Hn Hd) in Hl.
Qed.

Lemma fat_next_ok c : is_data g c -> fat_next g c = Ret (Ok (fat_entry c)).
Proof using D K Hs.
  intros Hd. unfold is_data in Hd. destruct (fat_next_spec c) as (r & -> & [[-> Hn]|[_ ->]]); [lia| |done]. exfalso.
  destruct (fat_sector_in c) as [S1 S2]; [lia|]. destruct (Hs (fat_start_sector g + c / 128) 1) as [l Hl]; [lia..|]. by rewrite Hn in Hl by lia.
Qed.

(** A lookup finds the first entry of that name on the chain, each cluster being
    read up to its own end marker. *)
Lemma lookup_exact nm c l : chain c l -> forall fuel, (length l <= fuel)%nat ->
  lookup_in_dir g fuel c nm = Ret (match List.find (matches nm) (concat ((fun c => dir_entries (cluster_data c)) <$> l)) with Some e => Ok e | None => Err FS_ERR_NOT_FOUND end).
Proof using D K Hs.
  assert (Hf : forall a b, List.find (matches nm) (a ++ b) = match List.find (matches nm) a with Some e => Some e | None => List.find (matches nm) b end)
    by (induction a as [|x a IH]; intros b; [done|]; cbn; by destruct (matches nm x)).
  induction 1 as [c Hd He|c n l Hd He Hc IH]; intros [|fuel] Hl; [cbn in Hl; lia| |cbn in Hl; lia|]; rewrite lookup_turn by (unfold is_data in Hd; lia); unfold turn; rewrite read_cluster_ok, fat_next_ok, He by done.
  - rewrite fmap_cons. cbn [concat]. rewrite Hf. cbn beta. by destruct (List.find _ _).
  - rewrite fmap_cons. cbn [concat]. rewrite Hf. cbn beta. destruct (List.find _ (dir_entries _)); [done|]. apply IH. cbn in Hl. lia.
Qed.

Lemma skip_exact c l : chain c l -> forall k, (k < length l)%nat -> exists c', skip_clusters g k c = Ret (Ok c') /\ chain c' (drop k l).
Proof using D K Hs.
  induction 1 as [c Hd He|c n l Hd He Hc IH]; intros [|k] Hk; cbn [length skip_clusters drop] in *; [exists c; split; [done|by constructor]|lia|exists c; split; [done|by econstructor]|].
  rewrite fat_next_ok, bind_Ret, He by done. apply IH. lia.
Qed.
End Serves.

(** ** Reads *)

Lemma mem_write_app l1 : forall a l2 m, mem_write a (l1 ++ l2) m = mem_write (a + len l1) l2 (mem_write a l1 m).
Proof using.
  induction l1 as [|b l1 IH]; intros a l2 m; [unfold len; cbn; by rewrite Z.add_0_r|]. cbn [app mem_write]. rewrite IH. f_equal. unfold len. cbn [length]. lia.
Qed.

Lemma mem_write_other l : forall a m x, ~ (a <= x < a + len l) -> mem_write a l m !! x = m !! x.
Proof using.
  induction l as [|b l IH]; intros a m x Hx; [done|]. cbn [mem_write]. unfold len in *. cbn [length] in Hx. rewrite IH by lia. apply lookup_insert_ne. lia.
Qed.

Lemma mem_write_at l : forall a m i, (i < length l)%nat -> mem_write a l m !! (a + Z.of_nat i) = l !! i.
Proof using.
  induction l as [|b l IH]; intros a m i Hi; [cbn in Hi; lia|]. cbn [mem_write]. destruct i as [|i].
  - rewrite Z.add_0_r, mem_write_other by lia. by rewrite lookup_insert_eq.
  - replace (a + Z.of_nat (S i)) with (a + 1 + Z.of_nat i) by lia. rewrite IH by (cbn in Hi; lia). done.
Qed.

Lemma slice_split l r a n : 0 <= a <= len l -> 0 <= n -> slice (l ++ r) a n = slice l a (Z.min (len l - a) n) ++ slice r 0 (n - Z.min (len l - a) n).
Proof using.
  intros Ha Hn. unfold slice, len in *. rewrite drop_app_le, take_app, length_drop by lia. change (Z.to_nat 0) with 0%nat. rewrite drop_0.
  f_equal; [|f_equal; lia]. destruct (Z.le_ge_cases n (Z.of_nat (length l) - a)); [f_equal; lia|]. rewrite !take_ge by (rewrite length_drop; lia). done.
Qed.

(** The loop that copies the clusters ends, whatever the FAT and the device hold,
    and writes nothing outside the bytes asked for. *)
Lemma copy_returns fuel : forall dest c off left doff m, 0 <= c -> 0 <= off < bpc -> 0 < left -> off + left <= bpc * Z.of_nat fuel -> 0 <= doff -> doff + left < 2 ^ 32 ->
  exists r m', copy_clusters g fuel bpc dest c off left doff m = Ret (r, m') /\ (forall n, r = Ok n -> doff <= n <= doff + left) /\
    forall x, ~ (dest + doff <= x < dest + doff + left) -> m' !! x = m !! x.
Proof using D K.
  induction fuel as [|fuel IH]; intros dest c off left doff m Hc Ho Hl Hf Hd Hw; [lia|]. cbn [copy_clusters].
  destruct (read_cluster_spec c Hc) as (r & -> & [[-> _]|[Hdat ->]]); [rewrite bind_Ret; eexists _, _; split; [reflexivity|]; split; [done|done]|].
  rewrite bind_Ret, cluster_bytes_spec, bind_Ret, sub_chk_in, bind_Ret by lia. set (k := Z.min (bpc - off) left).
  assert (Hsl : len (slice (cluster_data c) off k) = k) by (apply slice_length; rewrite ?cluster_data_len; lia).
  rewrite add_chk_in, bind_Ret, sub_chk_in, bind_Ret by lia.
  assert (Hm : forall x, ~ (dest + doff <= x < dest + doff + left) -> mem_write (dest + doff) (slice (cluster_data c) off k) m !! x = m !! x) by (intros x Hx; apply mem_write_other; lia).
  destruct (Z.eqb_spec (left - k) 0); [eexists _, _; split; [reflexivity|]; split; [intros n [= <-]; lia|done]|].
  destruct (fat_next_spec c Hc) as (r & -> & [[-> _]|[_ ->]]); rewrite bind_Ret; [eexists _, _; split; [reflexivity|]; split; [done|done]|].
  destruct (fat_entry c) as [|nx| | |] eqn:E; try (eexists _, _; split; [reflexivity|]; split; [done|done]).
  - destruct (IH dest nx 0 (left - k) (doff + k) (mem_write (dest + doff) (slice (cluster_data c) off k) m)) as (r & m' & -> & Hr & Hm'); [apply used_pos in E; lia|lia..|].
    eexists _, _. split; [reflexivity|]. split; [intros n0 Hn; specialize (Hr n0 Hn); lia|]. intros x Hx. rewrite Hm' by lia. by apply Hm.
  - eexists _, _. split; [reflexivity|]. split; [intros n' [= <-]; lia|done].
Qed.

Lemma copy_exact (Hs : serves) c l : chain c l -> forall fuel dest off left doff m, 0 <= off < bpc -> 0 < left -> off + left <= bpc * Z.of_nat (length l) -> off + left <= bpc * Z.of_nat fuel ->
  0 <= doff -> doff + left < 2 ^ 32 ->
  copy_clusters g fuel bpc dest c off left doff m = Ret (Ok (doff + left), mem_write (dest + doff) (slice (content l) off left) m).
Proof using D K.
  induction 1 as [c Hd He|c n l Hd He Hc IH]; intros [|fuel] dest off left doff m Ho Hl Hln Hf Hdo Hw; [lia| |lia|]; cbn [copy_clusters length] in *;
    rewrite read_cluster_ok, bind_Ret, cluster_bytes_spec, bind_Ret, sub_chk_in, bind_Ret by (done || lia); unfold content; rewrite fmap_cons; cbn [concat].
  - rewrite Z.min_r, add_chk_in, bind_Ret, sub_chk_in, bind_Ret by lia. rewrite Z.sub_diag. cbn [Z.eqb]. cbn. by rewrite app_nil_r.
  - rewrite slice_split by (rewrite ?cluster_data_len; lia). rewrite cluster_data_len. set (k := Z.min (bpc - off) left).
    assert (Hsl : len (slice (cluster_data c) off k) = k) by (apply slice_length; rewrite ?cluster_data_len; lia).
    rewrite add_chk_in, bind_Ret, sub_chk_in, bind_Ret by lia. destruct (Z.eqb_spec (left - k) 0) as [E0|].
    + rewrite E0. replace (slice (concat (cluster_data <$> l)) 0 0) with (@nil Z) by done. rewrite app_nil_r. do 3 f_equal. lia.
    + rewrite fat_next_ok, bind_Ret, He by done. rewrite IH by lia. rewrite mem_write_app, Hsl. do 2 f_equal; [f_equal; lia|]. f_equal. lia.
Qed.

(** ** The read handler *)

(** An open file as handle_open makes it and reads keep it. *)
Record file_ok (f : OpenFile) : Prop := {
  fo_start : 0 <= start_cluster f;
  fo_size : 0 <= of_size f < 2 ^ 32;
  fo_cursor : 0 <= cursor f < 2 ^ 32;
  fo_pages : 0 < of_pages f <= FS_MAX_BUFFER_PAGES;
  fo_buffer : buffer_size_bytes f = of_pages f * PAGE_SIZE;
}.

Definition table_ok (t : OpenTable) : Prop := length t = MAX_OPEN_FILES /\ forall i f, t !! i = Some (Some f) -> file_ok f.

Lemma skip_returns k : forall c, 0 <= c -> exists r, skip_clusters g k c = Ret r /\ forall c', r = Ok c' -> 0 <= c'.
Proof using D K.
  induction k as [|k IH]; intros c Hc; cbn [skip_clusters]; [eexists; split; [reflexivity|by intros c' [= <-]]|].
  destruct (fat_next_spec c Hc) as (r & -> & [[-> _]|[_ ->]]); rewrite bind_Ret; [by eexists|].
  destruct (fat_entry c) as [|nx| | |] eqn:E; try by eexists. apply IH. apply used_pos in E. lia.
Qed.

Lemma ot_slot_spec t handle token i f : ot_slot t handle token = Some (i, f) -> t !! i = Some (Some f) /\ caller_token f = token /\ handle = Z.of_nat i + 1.
Proof using.
  unfold ot_slot. destruct (Z.ltb_spec handle 1); [done|]. destruct (t !! _) as [[f'|]|] eqn:E; [|done..]. destruct (Z.eqb_spec (caller_token f') token); [|done].
  intros [= <- <-]. split; [done|]. split; [done|]. lia.
Qed.

Section Reading.
Context {P : Type} `{!Platform P}.

(** What a read of the file in slot [i] may change: its cursor, and the memory of
    its buffer. *)
Record read_frame (s : Server P) (i : nat) (f : OpenFile) (s' : Server P) : Prop := {
  rf_table : sv_table s' = sv_table s \/ exists c, 0 <= c < 2 ^ 32 /\ sv_table s' = <[i := Some (set_cursor f c)]> (sv_table s);
  rf_mem : forall x, ~ (buffer_va f <= x < buffer_va f + buffer_size_bytes f) -> sv_mem s' !! x = sv_mem s !! x;
  rf_platform : sv_platform s' = sv_platform s;
}.

Lemma handle_read_spec (s : Server P) token handle n : table_ok (sv_table s) -> 0 <= n < 2 ^ 32 -> exists w s', handle_read g s token handle n = Ret (w, s') /\
  (s' = s \/ exists i f, ot_slot (sv_table s) handle token = Some (i, f) /\ read_frame s i f s').
Proof using D K.
  intros [_ Hok] Hn. unfold handle_read, ot_get. destruct (ot_slot _ _ _) as [[i f]|] eqn:Ef; cbn [fmap option_fmap option_map snd]; [|by eexists _, _; split; [reflexivity|left]].
  destruct (ot_slot_spec _ _ _ _ _ Ef) as (Hi & _ & _). destruct (Hok i f Hi) as [F1 F2 F3 F4 F5]. unfold FS_MAX_BUFFER_PAGES, PAGE_SIZE in *. pose proof bpc_range.
  set (tr := Z.min _ _). destruct (Z.eqb_spec tr 0) as [|Ht]; [by eexists _, _; split; [reflexivity|left]|]. assert (0 < tr <= buffer_size_bytes f) by (subst tr; lia).
  rewrite (bytes_per_cluster_spec g K), bind_Ret. fold bpc. rewrite div_chk_in, bind_Ret by lia. destruct (skip_returns (Z.to_nat (cursor f / bpc)) (start_cluster f) F1) as (r & -> & Hc).
  rewrite bind_Ret. destruct r as [c|e]; [|by eexists _, _; split; [reflexivity|left]].
  pose proof (Z.mod_pos_bound (cursor f) bpc ltac:(lia)). pose proof (Z.div_mod tr bpc ltac:(lia)). pose proof (Z.mod_pos_bound tr bpc ltac:(lia)). assert (0 <= tr / bpc) by (apply Z.div_pos; lia).
  destruct (copy_returns (copy_fuel bpc tr) (buffer_va f) c (cursor f mod bpc) tr 0 (sv_mem s)) as (r & m & -> & Hr & Hm); [by apply Hc|lia|lia|unfold copy_fuel; nia|lia|lia|].
  rewrite bind_Ret. destruct r as [k|e]; eexists _, _; (split; [reflexivity|]); right; exists i, f; (split; [done|]); constructor; cbn [sv_table sv_mem sv_platform]; try done; try by left.
  - right. specialize (Hr k eq_refl). exists (sat_add 32 (cursor f) k). split; [unfold sat_add; lia|]. unfold ot_set_cursor. by rewrite Ef.
  - intros x Hx. apply Hm. lia.
  - intros x Hx. apply Hm. lia.
Qed.

(** The file with the chain [l] and the size [n]. *)
Definition file_bytes (l : list Z) (n : Z) : list Z := slice (content l) 0 n.

Lemma content_drop l k off n : 0 <= off -> (k <= length l)%nat -> slice (content l) (bpc * Z.of_nat k + off) n = slice (content (drop k l)) off n.
Proof using D K.
  intros Ho Hk. pose proof bpc_range. rewrite <- (take_drop k l) at 1. unfold content. rewrite fmap_app, concat_app. fold (content (take k l)). fold (content (drop k l)).
  unfold slice. pose proof (content_len (take k l)) as Hl. rewrite length_take, Nat.min_l in Hl by lia. unfold len in Hl.
  rewrite drop_app_ge by lia. do 2 f_equal. lia.
Qed.

(** A read of an intact file leaves the bytes at the cursor in its buffer. *)
Lemma handle_read_exact (s : Server P) token handle n i f l : serves -> table_ok (sv_table s) -> 0 <= n < 2 ^ 32 -> ot_slot (sv_table s) handle token = Some (i, f) ->
  chain (start_cluster f) l -> of_size f <= bpc * Z.of_nat (length l) ->
  let k := Z.min (Z.min n (buffer_size_bytes f)) (Z.max 0 (of_size f - cursor f)) in
  handle_read g s token handle n = Ret (mkWords FS_OK k 0 0, mkServer _ (mem_write (buffer_va f) (slice (content l) (cursor f) k) (sv_mem s)) (<[i := Some (set_cursor f (cursor f + k))]> (sv_table s)) (sv_platform s)).
Proof using D K.
  intros Hs [_ Hok] Hn Ef Hc Hsz k. destruct (ot_slot_spec _ _ _ _ _ Ef) as (Hi & _ & _). destruct (Hok i f Hi) as [F1 F2 F3 F4 F5]. unfold FS_MAX_BUFFER_PAGES, PAGE_SIZE in *. pose proof bpc_range.
  unfold handle_read, ot_get. rewrite Ef. cbn [fmap option_fmap option_map snd]. fold k. destruct (Z.eqb_spec k 0) as [E|Ek].
  - rewrite E. replace (slice (content l) (cursor f) 0) with (@nil Z) by done. cbn [mem_write]. rewrite Z.add_0_r, list_insert_id; [by destruct s|]. rewrite Hi. by destruct f.
  - assert (0 < k <= buffer_size_bytes f /\ cursor f + k <= of_size f) as [Hk1 Hk2] by (subst k; lia). rewrite (bytes_per_cluster_spec g K), bind_Ret. fold bpc. rewrite div_chk_in, bind_Ret by lia.
    pose proof (Z.mod_pos_bound (cursor f) bpc ltac:(lia)) as Hm. pose proof (Z.div_mod (cursor f) bpc ltac:(lia)) as Hdm. assert (0 <= cursor f / bpc) by (apply Z.div_pos; lia).
    assert (Hlt : (Z.to_nat (cursor f / bpc) < length l)%nat) by (enough (cursor f / bpc < Z.of_nat (length l)) by lia; apply Z.div_lt_upper_bound; lia). destruct (skip_exact Hs _ _ Hc _ Hlt) as (c & -> & Hc'). rewrite bind_Ret.
    pose proof (Z.div_mod k bpc ltac:(lia)). pose proof (Z.mod_pos_bound k bpc ltac:(lia)). assert (0 <= k / bpc) by (apply Z.div_pos; lia).
    rewrite (copy_exact Hs _ _ Hc') by (rewrite ?length_drop; unfold copy_fuel; nia). rewrite bind_Ret. unfold ot_set_cursor. rewrite Ef, !Z.add_0_r, Z.add_0_l.
    unfold sat_add. rewrite Z.min_l by lia. rewrite <- content_drop by lia. rewrite Z2Nat.id by lia. by rewrite <- Hdm.
Qed.

(** *** A client that reads a file *)

(** The first [n] bytes a client sees in the buffer at [a]. *)
Definition mem_read (m : gmap Z Z) (a n : Z) : list Z := (fun i => default 0 (m !! (a + i))) <$> seqZ 0 n.

(** Requests for [lens] bytes one after the other, taking what each reply says is
    there. *)
Fixpoint read_file (s : Server P) (token handle va : Z) (lens : list Z) : outcome (list Z * Server P) :=
  match lens with
  | [] => Ret ([], s)
  | n :: lens' =>
      r ← handle_read g s token handle n;
      let '(w, s') := r in
      if w0 w =? FS_OK then
        rest ← read_file s' token handle va lens';
        Ret (mem_read (sv_mem s') va (w1 w) ++ rest.1, rest.2)
      else Ret ([], s')
  end.

(** The bytes the requests ask for, each at most a buffer full. *)
Definition asked (f : OpenFile) (lens : list Z) : Z := foldr (fun n a => Z.min n (buffer_size_bytes f) + a) 0 lens.

Lemma mem_read_write a l m : mem_read (mem_write a l m) a (len l) = l.
Proof using.
  apply list_eq. intros i. unfold mem_read. rewrite list_lookup_fmap. destruct (decide (i < length l)%nat) as [Hi|Hi].
  - rewrite lookup_seqZ_lt by (unfold len; lia). cbn [fmap option_fmap option_map]. rewrite Z.add_0_l, mem_write_at by done. by destruct (lookup_lt_is_Some_2 l i Hi) as [b ->].
  - rewrite lookup_seqZ_ge, lookup_ge_None_2 by (unfold len; lia). done.
Qed.

Lemma slice_join l a k1 k2 : 0 <= a -> 0 <= k1 -> 0 <= k2 -> slice l a k1 ++ slice l (a + k1) k2 = slice l a (k1 + k2).
Proof using.
  intros Ha H1 H2. unfold slice. replace (Z.to_nat (a + k1)) with (Z.to_nat a + Z.to_nat k1)%nat by lia. rewrite <- drop_drop.
  replace (Z.to_nat (k1 + k2)) with (Z.to_nat k1 + Z.to_nat k2)%nat by lia. by rewrite take_take_drop.
Qed.

Lemma ot_slot_insert t handle token i f f' : ot_slot t handle token = Some (i, f) -> caller_token f' = token -> ot_slot (<[i := Some f']> t) handle token = Some (i, f').
Proof using.
  intros H Ht. destruct (ot_slot_spec _ _ _ _ _ H) as (Hi & _ & ->). unfold ot_slot. destruct (Z.ltb_spec (Z.of_nat i + 1) 1); [lia|].
  replace (Z.to_nat (Z.of_nat i + 1 - 1)) with i by lia. rewrite list_lookup_insert_eq by (by eapply lookup_lt_Some). by rewrite Ht, Z.eqb_refl.
Qed.

Lemma table_ok_insert t i f : table_ok t -> file_ok f -> table_ok (<[i := Some f]> t).
Proof using.
  intros [Hl Ht] Hf. split; [by rewrite length_insert|]. intros j f' [(-> & [= <-] & _)|[_ Hj]]%list_lookup_insert_Some; [done|by eapply Ht].
Qed.

Lemma asked_nonneg f lens : file_ok f -> Forall (fun n => 0 <= n < 2 ^ 32) lens -> 0 <= asked f lens.
Proof using. intros [_ _ _ F4 F5]. unfold FS_MAX_BUFFER_PAGES, PAGE_SIZE in *. induction 1 as [|n l Hn Hl IH]; [done|]. cbn beta in Hn. unfold asked in *. cbn [foldr]. lia. Qed.

Lemma read_file_spec lens : forall s token handle i f l, serves -> table_ok (sv_table s) -> Forall (fun n => 0 <= n < 2 ^ 32) lens -> ot_slot (sv_table s) handle token = Some (i, f) ->
  chain (start_cluster f) l -> of_size f <= bpc * Z.of_nat (length l) -> cursor f <= of_size f ->
  let k := Z.min (asked f lens) (of_size f - cursor f) in
  exists m, read_file s token handle (buffer_va f) lens =
    Ret (slice (content l) (cursor f) k, mkServer _ m (<[i := Some (set_cursor f (cursor f + k))]> (sv_table s)) (sv_platform s)) /\
    forall x, ~ (buffer_va f <= x < buffer_va f + buffer_size_bytes f) -> m !! x = sv_mem s !! x.
Proof using D K.
  induction lens as [|n lens IH]; intros s token handle i f l Hs Ht Hn Ef Hc Hsz Hcu k; destruct (ot_slot_spec _ _ _ _ _ Ef) as (Hi & Etk & _).
  - exists (sv_mem s). cbn [read_file]. replace k with 0 by (subst k; cbn; lia). rewrite Z.add_0_r, list_insert_id by (rewrite Hi; by destruct f). split; [by destruct s|done].
  - apply Forall_cons in Hn as [Hn Hns]. pose proof (proj2 Ht i f Hi) as Fo. destruct Fo as [F1 F2 F3 F4 F5]. pose proof (asked_nonneg f lens (Build_file_ok f F1 F2 F3 F4 F5) Hns) as Ha. unfold FS_MAX_BUFFER_PAGES, PAGE_SIZE in *.
    cbn [read_file]. rewrite (handle_read_exact s token handle n i f l Hs Ht Hn Ef Hc Hsz), bind_Ret. set (k1 := Z.min (Z.min n _) _). cbn [w0 w1]. change (FS_OK =? FS_OK) with true. cbn iota.
    set (f1 := set_cursor f (cursor f + k1)). assert (Ho : file_ok f1) by (constructor; cbn; subst k1; (done || lia)).
    edestruct (IH (mkServer _ (mem_write (buffer_va f) (slice (content l) (cursor f) k1) (sv_mem s)) (<[i := Some f1]> (sv_table s)) (sv_platform s)) token handle i f1 l) as (m & E & Hx); cbn [sv_table];
      [done|by apply table_ok_insert|done|by apply ot_slot_insert with f|done|done|cbn; subst k1; lia|].
    cbn [buffer_va f1 set_cursor] in E. rewrite E, bind_Ret. cbn [fst snd]. set (k2 := Z.min (asked f1 lens) _).
    assert (Ek : k = k1 + k2) by (subst k k1 k2; cbn [asked foldr f1 set_cursor of_size cursor buffer_size_bytes]; change (asked f1 lens) with (asked f lens); fold (asked f lens); lia).
    assert (Hlen : len (slice (content l) (cursor f) k1) = k1) by (apply slice_length; rewrite ?content_len; subst k1; lia).
    exists m. split; [|intros x Hn'; rewrite Hx by done; apply mem_write_other; rewrite Hlen; subst k1; lia].
    cbn [sv_mem sv_table sv_platform]. rewrite list_insert_insert_eq. do 2 f_equal; [|by rewrite Ek; unfold set_cursor, f1; cbn; rewrite Z.add_assoc].
    rewrite <- Hlen at 2. rewrite mem_read_write.
    rewrite Ek. apply slice_join; subst k1 k2; cbn; change (asked f1 lens) with (asked f lens); lia.
Qed.
End Reading.
End Volume.
