(* ===== verification/FatSafe.v ===== *)
(** Histories of requests to the FAT32 server: safety, resources and isolation of
    its clients (user/fat32-server/src/main.rs), with the theorems of the storage
    components. *)
From Stdlib Require Import ZArith Lia.
From stdpp Require Import base option gmap numbers sets fin_sets list.
From S2P Require Import Prelude Bytes Fat32 FatServer FatVolume.
Open Scope Z_scope.

(** * What the kernel and the address allocator promise *)

(** The PageSet handles, the address ranges (page counts by address) and the
    mappings (handles by address) of a process. *)
Record Res := mkRes { r_handles : gset Z; r_vas : gmap Z Z; r_maps : gmap Z Z }.

Definition apart (a n b m : Z) : Prop := a + n * PAGE_SIZE <= b \/ b + m * PAGE_SIZE <= a.

(** The page calls as the kernel documents them, and VMEM's promise to hand out
    only free ranges. Any of the requests for resources may fail. An unmap may fail
    and then changes nothing; VMEM may leak a range it is given back, as it does
    when its table of regions is full. Closing a mapped handle unmaps it first, and
    is refused when that fails. No other process takes a PageSet of this one away:
    the kernel does so when a process is created from a mapped PageSet. *)
Class PlatformLaws (P : Type) `{!Platform P} (res : P -> Res) := {
  pl_alloc_pages : forall p n o p', sys_alloc_pages p n = (o, p') ->
    match o with None => res p' = res p | Some h => h ∉ r_handles (res p) /\ res p' = mkRes ({[h]} ∪ r_handles (res p)) (r_vas (res p)) (r_maps (res p)) end;
  pl_vmem_alloc : forall p n o p', vmem_alloc p n = (o, p') ->
    match o with
    | None => res p' = res p
    | Some va => (forall va' n', r_vas (res p) !! va' = Some n' -> apart va n va' n') /\ r_vas (res p) !! va = None /\ res p' = mkRes (r_handles (res p)) (<[va := n]> (r_vas (res p))) (r_maps (res p))
    end;
  pl_map : forall p h va b p', sys_map_pages p h va = (b, p') ->
    res p' = if b : bool then mkRes (r_handles (res p)) (r_vas (res p)) (<[va := h]> (r_maps (res p))) else res p;
  pl_close : forall p h, (forall va, r_maps (res p) !! va <> Some h) -> res (sys_close_handle p h) = mkRes (r_handles (res p) ∖ {[h]}) (r_vas (res p)) (r_maps (res p));
  pl_close_mapped : forall p h va, r_maps (res p) !! va = Some h -> (forall va', r_maps (res p) !! va' = Some h -> va' = va) ->
    res (sys_close_handle p h) = res p \/ res (sys_close_handle p h) = mkRes (r_handles (res p) ∖ {[h]}) (r_vas (res p)) (delete va (r_maps (res p)));
  pl_free_unused : forall p va n, r_vas (res p) !! va = Some n -> r_maps (res p) !! va = None ->
    res (free_unused_allocation p va n) = res p \/ res (free_unused_allocation p va n) = mkRes (r_handles (res p)) (delete va (r_vas (res p))) (r_maps (res p));
  pl_unmap : forall p h va n, r_maps (res p) !! va = Some h -> exists ok p', unmap_pages_tracked p h va n = (ok, p') /\
    res p' = if ok : bool then mkRes (r_handles (res p)) (r_vas (res p)) (delete va (r_maps (res p))) else res p;
  pl_free : forall p va n, r_vas (res p) !! va = Some n -> r_maps (res p) !! va = None ->
    res (free_unmapped p va n) = res p \/ res (free_unmapped p va n) = mkRes (r_handles (res p)) (delete va (r_vas (res p))) (r_maps (res p));
  pl_export : forall p h o p', sys_export_handle p h = (o, p') -> res p' = res p;
}.

(** A platform that loses nothing: unmaps succeed, and ranges come back. *)
Definition lossless {P : Type} `{!Platform P} (res : P -> Res) : Prop :=
  (forall p h va n, r_maps (res p) !! va = Some h -> (unmap_pages_tracked p h va n).1 = true) /\
  forall p va n, r_vas (res p) !! va = Some n -> r_maps (res p) !! va = None ->
    r_vas (res (free_unmapped p va n)) !! va = None /\ r_vas (res (free_unused_allocation p va n)) !! va = None.

(** [b'] is [b] and what has been lost. *)
Definition extends (b b' : Res) : Prop := r_handles b ⊆ r_handles b' /\ r_vas b ⊆ r_vas b' /\ r_maps b ⊆ r_maps b'.

Lemma extends_refl b : extends b b.
Proof. done. Qed.

Lemma extends_trans b1 b2 b3 : extends b1 b2 -> extends b2 b3 -> extends b1 b3.
Proof. intros (H1 & H2 & H3) (H4 & H5 & H6). split_and!; by etrans. Qed.

(** * Entries *)

Lemma res_eta r : mkRes (r_handles r) (r_vas r) (r_maps r) = r.
Proof. by destruct r. Qed.

Lemma handle_back (H : gset Z) h : h ∉ H -> ({[h]} ∪ H) ∖ {[h]} = H.
Proof. set_solver. Qed.

Lemma parse_dirent_range c e : bytes c -> len c = 32 -> parse_dirent c = Ret (Entry e) -> 0 <= first_cluster e /\ 0 <= size e < 2 ^ 32.
Proof.
  intros Hb Hl. unfold parse_dirent. rewrite !byte_word, !read_word, bytes_at_in, !bind_Ret by (rewrite ?Hl; cbn; lia). repeat (case_match; [done|]). intros [= <-]. cbn [first_cluster size].
  change (Z.of_nat 2) with 2. change (Z.of_nat 4) with 4. pose proof (word_range 2 c 20 Hb ltac:(lia) ltac:(lia) ltac:(lia)). pose proof (word_range 2 c 26 Hb ltac:(lia) ltac:(lia) ltac:(lia)).
  pose proof (word_range 4 c 28 Hb ltac:(lia) ltac:(lia) ltac:(lia)). split; [|lia]. apply Z.lor_nonneg. split; [apply Z.shiftl_nonneg|]; lia.
Qed.

Lemma dir_entries_range bs e : bytes bs -> e ∈ dir_entries bs -> 0 <= first_cluster e /\ 0 <= size e < 2 ^ 32.
Proof.
  intros Hb. unfold dir_entries. assert (Hs : Forall (fun c => bytes c /\ len c = 32) (slots bs)).
  { apply Forall_fmap, Forall_forall. intros i Hi%elem_of_seqZ. cbn. pose proof (Z.div_mod (len bs) 32 ltac:(lia)). pose proof (Z.mod_pos_bound (len bs) 32 ltac:(lia)).
    split; [by apply slice_bytes|apply slice_length; lia]. }
  induction Hs as [|c sl [Hc Hl] Hs IH]; cbn [entries_of]; [by intros ?%not_elem_of_nil|]. destruct (parse_dirent_spec c Hl) as (st & Es & _). unfold dirent_of. rewrite Es. destruct st as [| |d]; [by intros ?%not_elem_of_nil|done|].
  intros [->|He]%elem_of_cons; [by apply (parse_dirent_range c)|by apply IH].
Qed.

Section Server.
Context {B : BlockDevice} (g : Fat32Geometry) (K : geom_ok g) (sector : Z -> list Z) (D : Disk B sector).

Lemma cluster_data_bytes c : bytes (cluster_data g sector c).
Proof using D. unfold cluster_data. apply Forall_concat, Forall_fmap, Forall_forall. intros s _. apply (disk_sector (sector := sector) s). Qed.

Lemma lookup_range nm fuel : forall c e, 0 <= c -> lookup_in_dir g fuel c nm = Ret (Ok e) -> 0 <= first_cluster e /\ 0 <= size e < 2 ^ 32.
Proof using D K.
  induction fuel as [|fuel IH]; intros c e Hc; [done|]. rewrite (lookup_turn g K sector D) by done. destruct (turn g sector nm c) as [r|n] eqn:Et.
  - intros [= ->]. unfold turn in Et. destruct (read_cluster_spec g K sector D c Hc) as (r & E & [[-> _]|[Hd ->]]); rewrite E in Et; [done|].
    destruct (List.find _ _) as [d|] eqn:Ef; [|repeat case_match; done]. injection Et as ->. apply List.find_some in Ef as [Hin _]. apply list_elem_of_In in Hin.
    by eapply dir_entries_range; [apply (cluster_data_bytes c)|].
  - assert (Hw : walk g sector nm c = Some n) by (unfold walk; by rewrite Et). apply (walk_data g K sector D) in Hw as [_ Hn]; [|done]. apply IH. lia.
Qed.

(** ** Volumes without cycles *)

(** The FAT's link from a data cluster to the next. *)
Definition fat_link (c : Z) : option Z := if decide (is_data g c) then match fat_entry g sector c with Used n => Some n | _ => None end else None.

(** No chain of the FAT runs into a cycle. *)
Definition acyclic : Prop := forall c, exists n, iter fat_link n c = None.

Lemma walk_link nm n : forall c, 0 <= c -> is_Some (iter (walk g sector nm) n c) -> is_Some (iter fat_link n c).
Proof using D K.
  induction n as [|n IH]; intros c Hc Hs; [done|]. cbn [iter] in *. destruct (walk g sector nm c) as [x|] eqn:E; [|by destruct Hs]. destruct (walk_data g K sector D nm c x Hc E).
  enough (El : fat_link c = Some x) by (rewrite El; apply IH; [lia|done]). unfold walk, turn in E. destruct (read_cluster g c) as [[|]|]; [|done..]. destruct (List.find _ _); [done|].
  destruct (fat_next_spec g K sector D c Hc) as (r & Er & [[-> _]|[_ ->]]); rewrite Er in E; [done|]. unfold fat_link. rewrite decide_True by done. by destruct (fat_entry g sector c).
Qed.

Context (Hac : acyclic).

Lemma lookup_returns c nm : 0 <= c -> exists r, lookup_in_dir g (walk_bound g) c nm = Ret r /\ forall e, r = Ok e -> 0 <= first_cluster e /\ 0 <= size e < 2 ^ 32.
Proof using D K Hac.
  intros Hc. destruct (Hac c) as [n Hn]. destruct (iter (walk g sector nm) n c) as [x|] eqn:E; [destruct (walk_link nm n c Hc) as [y Hy]; [by exists x|congruence]|].
  destruct (lookup_ends g K sector D nm n c Hc E) as [r Hr]. destruct (lookup_decided g K sector D c nm Hc) as [[r' Hr']|Hf]; [|specialize (Hr n ltac:(lia)); by rewrite Hf in Hr].
  exists r'. rewrite Hr' by lia. split; [done|]. intros e ->. eapply lookup_range; [done|]. by apply Hr'.
Qed.

Lemma resolve_returns path : exists r, resolve_path g (walk_bound g) path = Ret r /\ forall e, r = Ok e -> 0 <= first_cluster e /\ 0 <= size e < 2 ^ 32.
Proof using D K Hac.
  unfold resolve_path. assert (Hl : forall cs c lst, 0 <= c -> (forall e, lst = Some e -> 0 <= first_cluster e /\ 0 <= size e < 2 ^ 32) ->
    exists r, resolve_loop g (walk_bound g) c lst cs = Ret r /\ forall e, r = Ok (Some e) -> 0 <= first_cluster e /\ 0 <= size e < 2 ^ 32).
  { induction cs as [|nm cs IH]; intros c lst Hc Hlst; cbn [resolve_loop]; [eexists; split; [reflexivity|]; intros e [= ->]; by apply Hlst|].
    assert (Hst : forall c, 0 <= c -> exists r, (r ← lookup_in_dir g (walk_bound g) c nm; match r with Err e => Ret (Err e) | Ok entry => resolve_loop g (walk_bound g) c (Some entry) cs end) = Ret r /\
      forall e, r = Ok (Some e) -> 0 <= first_cluster e /\ 0 <= size e < 2 ^ 32).
    { intros c' Hc'. destruct (lookup_returns c' nm Hc') as (r & -> & Hr). rewrite bind_Ret. destruct r as [e|e]; [|by eexists]. apply IH; [done|]. intros e' [= <-]. by apply Hr. }
    destruct lst as [prev|]; [|by apply Hst]. repeat (case_match; [by eexists|]). apply Hst. by apply (Hlst prev). }
  destruct (Hl (components path) (root_cluster g) None) as (r & -> & Hr); [pose proof (gk_root g K); unfold is_data in *; lia|done|]. rewrite bind_Ret.
  destruct r as [[e|]|e]; [|by eexists..]. case_match; [by eexists|]. eexists. split; [reflexivity|]. intros e' [= <-]. by apply Hr.
Qed.

(** ** Resources *)
Section Resources.
Context {P : Type} `{!Platform P} (res : P -> Res) (L : PlatformLaws P res).

Definition opened (t : OpenTable) (f : OpenFile) : Prop := exists i, t !! i = Some (Some f).

(** The server holds what it held at start, [b], and for each open file a PageSet
    mapped in an address range of its own, and nothing else. *)
Record accounts (b : Res) (t : OpenTable) (r : Res) : Prop := {
  ac_handles : forall h, h ∈ r_handles r <-> h ∈ r_handles b \/ exists f, opened t f /\ buffer_ps f = h;
  ac_vas : forall va n, r_vas r !! va = Some n <-> r_vas b !! va = Some n \/ exists f, opened t f /\ buffer_va f = va /\ of_pages f = n;
  ac_maps : forall va h, r_maps r !! va = Some h <-> r_maps b !! va = Some h \/ exists f, opened t f /\ buffer_va f = va /\ buffer_ps f = h;
  ac_new : forall f, opened t f -> buffer_ps f ∉ r_handles b /\ r_vas b !! buffer_va f = None;
  ac_apart : forall i j f f', t !! i = Some (Some f) -> t !! j = Some (Some f') -> i <> j ->
    buffer_ps f <> buffer_ps f' /\ buffer_va f <> buffer_va f' /\ apart (buffer_va f) (of_pages f) (buffer_va f') (of_pages f');
  ac_base : forall va h, r_maps b !! va = Some h -> h ∈ r_handles b /\ is_Some (r_vas b !! va);
  ac_behind : forall f va n, opened t f -> r_vas b !! va = Some n -> apart (buffer_va f) (of_pages f) va n;
}.

(** A handle and a range that are new. *)
Record unused (r : Res) (h va n : Z) : Prop := {
  un_handle : h ∉ r_handles r;
  un_va : r_vas r !! va = None;
  un_apart : forall va' n', r_vas r !! va' = Some n' -> apart va n va' n';
}.

Definition grow_va (r : Res) (va n : Z) : Res := mkRes (r_handles r) (<[va := n]> (r_vas r)) (r_maps r).
Definition grow (r : Res) (h va n : Z) : Res := mkRes ({[h]} ∪ r_handles r) (<[va := n]> (r_vas r)) (<[va := h]> (r_maps r)).

Lemma maps_within b t r va h : accounts b t r -> r_maps r !! va = Some h -> h ∈ r_handles r /\ is_Some (r_vas r !! va).
Proof using.
  intros A [Hb|(f & Hf & <- & <-)]%(ac_maps _ _ _ A).
  - destruct (ac_base _ _ _ A va h Hb) as [Hh [n Hn]]. split; [apply (ac_handles _ _ _ A); by left|]. exists n. apply (ac_vas _ _ _ A). by left.
  - split; [apply (ac_handles _ _ _ A); right; by exists f|]. exists (of_pages f). apply (ac_vas _ _ _ A). right. by exists f.
Qed.

Lemma opened_insert t i f f' : (i < length t)%nat -> t !! i = Some None -> opened (<[i := Some f]> t) f' <-> f' = f \/ opened t f'.
Proof using.
  intros Hi Hn. split.
  - intros [j [(-> & [= <-] & _)|[_ Hj]]%list_lookup_insert_Some]; [by left|right; by exists j].
  - intros [->|[j Hj]]; [exists i; by apply list_lookup_insert_eq|]. exists j. rewrite list_lookup_insert_ne; [done|]. intros ->. congruence.
Qed.

(** A file is opened. *)
Lemma accounts_open b t r i f : accounts b t r -> t !! i = Some None -> buffer_ps f ∉ r_handles r -> (forall va' n', r_vas r !! va' = Some n' -> apart (buffer_va f) (of_pages f) va' n') -> r_vas r !! buffer_va f = None ->
  accounts b (<[i := Some f]> t) (mkRes ({[buffer_ps f]} ∪ r_handles r) (<[buffer_va f := of_pages f]> (r_vas r)) (<[buffer_va f := buffer_ps f]> (r_maps r))).
Proof using.
  intros A Hi Hh Hva Hn. pose proof (lookup_lt_Some _ _ _ Hi) as Hlt. pose proof (fun f' => opened_insert t i f f' Hlt Hi) as Ho. constructor; cbn [r_handles r_vas r_maps].
  - intros h. rewrite elem_of_union, elem_of_singleton, (ac_handles _ _ _ A). setoid_rewrite Ho. naive_solver.
  - intros va n. rewrite lookup_insert_Some, (ac_vas _ _ _ A). setoid_rewrite Ho. split; [naive_solver|]. intros [Hb|(f' & [->|Hf] & <- & <-)]; [right|by left|right].
    + split; [|by left]. intros <-. assert (Hx : r_vas r !! buffer_va f = Some n) by (apply (ac_vas _ _ _ A); by left). congruence.
    + split; [|right; by exists f']. intros E. assert (Hx : r_vas r !! buffer_va f = Some (of_pages f')) by (apply (ac_vas _ _ _ A); right; by exists f'). congruence.
  - intros va h. rewrite lookup_insert_Some, (ac_maps _ _ _ A). setoid_rewrite Ho. split; [naive_solver|]. intros [Hb|(f' & [->|Hf] & <- & <-)]; [right|by left|right].
    + split; [|by left]. intros <-. destruct (maps_within b t r (buffer_va f) h A) as [_ [n Hx]]; [apply (ac_maps _ _ _ A); by left|]. congruence.
    + split; [|right; by exists f']. intros E. assert (Hx : r_vas r !! buffer_va f = Some (of_pages f')) by (apply (ac_vas _ _ _ A); right; by exists f'). congruence.
  - intros f' [->|Hf]%Ho; [|by apply (ac_new _ _ _ A)]. split; [intros Hb; apply Hh, (ac_handles _ _ _ A); by left|]. destruct (r_vas b !! buffer_va f) as [n|] eqn:E; [|done].
    assert (Hx : r_vas r !! buffer_va f = Some n) by (apply (ac_vas _ _ _ A); by left). congruence.
  - assert (Hnew : forall j f', t !! j = Some (Some f') -> buffer_ps f <> buffer_ps f' /\ buffer_va f <> buffer_va f' /\ apart (buffer_va f) (of_pages f) (buffer_va f') (of_pages f')).
    { intros j f' Hj. assert (Hx : r_vas r !! buffer_va f' = Some (of_pages f')) by (apply (ac_vas _ _ _ A); right; exists f'; split; [by exists j|done]). split_and!; [|congruence|by apply Hva].
      intros E. apply Hh, (ac_handles _ _ _ A). right. exists f'. split; [by exists j|done]. }
    intros j k f1 f2 [(-> & [= <-] & _)|[_ Hj]]%list_lookup_insert_Some [(<- & [= <-] & _)|[_ Hk]]%list_lookup_insert_Some Hne; [done|by apply (Hnew k)| |by apply (ac_apart _ _ _ A j k)].
    destruct (Hnew j f1 Hj) as (H1 & H2 & H3). split_and!; [congruence|congruence|]. unfold apart in *. lia.
  - apply A.
  - intros f' va n [->|Hf]%Ho Hb; [|by apply (ac_behind _ _ _ A)]. apply Hva. apply (ac_vas _ _ _ A). by left.
Qed.

(** The base grows with what is lost. *)
Lemma accounts_grow b t r h va n : accounts b t r -> unused r h va n -> accounts (grow b h va n) t (grow r h va n) /\ extends b (grow b h va n).
Proof using.
  intros A [Hh Hn Hap].
  assert (Hbv : r_vas b !! va = None) by (destruct (r_vas b !! va) as [m|] eqn:E; [|done]; rewrite <- Hn; symmetry; apply (ac_vas _ _ _ A); by left).
  assert (Hrm : r_maps r !! va = None) by (destruct (r_maps r !! va) as [m|] eqn:E; [|done]; destruct (maps_within _ _ _ _ _ A E) as [_ [k Hk]]; congruence).
  assert (Hbm : r_maps b !! va = None) by (destruct (r_maps b !! va) as [m|] eqn:E; [|done]; rewrite <- Hrm; symmetry; apply (ac_maps _ _ _ A); by left).
  assert (Hf : forall f, opened t f -> buffer_va f <> va /\ buffer_ps f <> h).
  { intros f Hf. split; intros E; [|apply Hh, (ac_handles _ _ _ A); right; by exists f].
    assert (Hx : r_vas r !! va = Some (of_pages f)) by (apply (ac_vas _ _ _ A); right; by exists f). congruence. }
  split; [constructor; cbn [grow r_handles r_vas r_maps]|].
  - intros x. rewrite !elem_of_union, (ac_handles _ _ _ A). naive_solver.
  - intros x m. rewrite !lookup_insert_Some, (ac_vas _ _ _ A). split; [naive_solver|]. intros [[[<- <-]|[Hne Hb]]|(f & Ho & <- & <-)]; [by left|right; split; [done|by left]|]. right. split; [apply not_eq_sym; by apply Hf|right; by exists f].
  - intros x m. rewrite !lookup_insert_Some, (ac_maps _ _ _ A). split; [naive_solver|]. intros [[[<- <-]|[Hne Hb]]|(f & Ho & <- & <-)]; [by left|right; split; [done|by left]|]. right. split; [apply not_eq_sym; by apply Hf|right; by exists f].
  - intros f Ho. destruct (ac_new _ _ _ A f Ho). destruct (Hf f Ho). rewrite lookup_insert_ne, elem_of_union, elem_of_singleton by done. tauto.
  - apply A.
  - intros x m [[<- <-]|[Hne Hb]]%lookup_insert_Some; [split; [by apply elem_of_union_l, elem_of_singleton|rewrite lookup_insert_eq; by eexists]|]. destruct (ac_base _ _ _ A _ _ Hb). rewrite lookup_insert_ne by done. split; [by apply elem_of_union_r|done].
  - intros f x m Ho [[<- <-]|[Hne Hb]]%lookup_insert_Some; [|by apply (ac_behind _ _ _ A)].
    assert (Hx : apart va n (buffer_va f) (of_pages f)) by (apply Hap, (ac_vas _ _ _ A); right; by exists f). unfold apart in *. lia.
  - split_and!; cbn [grow r_handles r_vas r_maps]; [apply union_subseteq_r|by apply insert_subseteq|by apply insert_subseteq].
Qed.

Lemma accounts_grow_va b t r va n : accounts b t r -> r_vas r !! va = None -> (forall va' n', r_vas r !! va' = Some n' -> apart va n va' n') ->
  accounts (grow_va b va n) t (grow_va r va n) /\ extends b (grow_va b va n).
Proof using.
  intros A Hn Hap.
  assert (Hbv : r_vas b !! va = None) by (destruct (r_vas b !! va) as [m|] eqn:E; [|done]; rewrite <- Hn; symmetry; apply (ac_vas _ _ _ A); by left).
  assert (Hf : forall f, opened t f -> buffer_va f <> va).
  { intros f Hf E. assert (Hx : r_vas r !! va = Some (of_pages f)) by (apply (ac_vas _ _ _ A); right; by exists f). congruence. }
  split; [constructor; cbn [grow_va r_handles r_vas r_maps]; try apply A|].
  - intros x m. rewrite !lookup_insert_Some, (ac_vas _ _ _ A). split; [naive_solver|]. intros [[[<- <-]|[Hne Hb]]|(f & Ho & <- & <-)]; [by left|right; split; [done|by left]|]. right. split; [apply not_eq_sym; by apply Hf|right; by exists f].
  - intros f Ho. destruct (ac_new _ _ _ A f Ho). split; [done|]. rewrite lookup_insert_ne; [done|]. apply not_eq_sym. by apply Hf.
  - intros x m Hb. destruct (ac_base _ _ _ A _ _ Hb) as [? Hv]. split; [done|]. destruct (decide (x = va)) as [->|]; [rewrite lookup_insert_eq; by eexists|by rewrite lookup_insert_ne].
  - intros f x m Ho [[<- <-]|[Hne Hb]]%lookup_insert_Some; [|by apply (ac_behind _ _ _ A)].
    assert (Hx : apart va n (buffer_va f) (of_pages f)) by (apply Hap, (ac_vas _ _ _ A); right; by exists f). unfold apart in *. lia.
  - split_and!; cbn [grow_va r_handles r_vas r_maps]; [done|by apply insert_subseteq|done].
Qed.

(** A file is closed. *)
Definition shrink (r : Res) (h va : Z) : Res := mkRes (r_handles r ∖ {[h]}) (delete va (r_vas r)) (delete va (r_maps r)).

Lemma accounts_close b t r i f : accounts b t r -> t !! i = Some (Some f) -> accounts b (<[i := None]> t) (shrink r (buffer_ps f) (buffer_va f)).
Proof using.
  intros A Hi. pose proof (lookup_lt_Some _ _ _ Hi) as Hlt. destruct (ac_new _ _ _ A f) as [N1 N2]; [by exists i|].
  assert (Ho : forall f', opened (<[i := None]> t) f' <-> exists j, j <> i /\ t !! j = Some (Some f')).
  { intros f'. split.
    - intros [j [(? & ? & _)|[Hne Hj]]%list_lookup_insert_Some]; [done|]. exists j. split; [done|exact Hj].
    - intros (j & Hne & Hj). exists j. by rewrite list_lookup_insert_ne. }
  assert (Hj : forall j f', j <> i -> t !! j = Some (Some f') -> buffer_ps f' <> buffer_ps f /\ buffer_va f' <> buffer_va f) by (intros j f' Hne Hj; destruct (ac_apart _ _ _ A j i f' f Hj Hi Hne) as (? & ? & _); done).
  constructor; cbn [shrink r_handles r_vas r_maps].
  - intros h. rewrite elem_of_difference, elem_of_singleton, (ac_handles _ _ _ A). setoid_rewrite Ho. split.
    + intros [[Hb|(f' & [j Hf] & <-)] Hne]; [by left|]. right. exists f'. split; [|done]. exists j. split; [|done]. intros ->. congruence.
    + intros [Hb|(f' & (j & Hne & Hf) & <-)]; [split; [by left|by intros ->]|]. split; [right; exists f'; split; [by exists j|done]|by apply (Hj j)].
  - intros va n. rewrite lookup_delete_Some, (ac_vas _ _ _ A). setoid_rewrite Ho. split.
    + intros [Hne [Hb|(f' & [j Hf] & <- & <-)]]; [by left|]. right. exists f'. split; [|done]. exists j. split; [|done]. intros ->. congruence.
    + intros [Hb|(f' & (j & Hne & Hf) & <- & <-)]; [split; [by intros <-; congruence|by left]|]. split; [apply not_eq_sym; by apply (Hj j)|right; exists f'; split; [by exists j|done]].
  - intros va h. rewrite lookup_delete_Some, (ac_maps _ _ _ A). setoid_rewrite Ho. split.
    + intros [Hne [Hb|(f' & [j Hf] & <- & <-)]]; [by left|]. right. exists f'. split; [|done]. exists j. split; [|done]. intros ->. congruence.
    + intros [Hb|(f' & (j & Hne & Hf) & <- & <-)]; [|split; [apply not_eq_sym; by apply (Hj j)|right; exists f'; split; [by exists j|done]]].
      split; [|by left]. intros <-. destruct (ac_base _ _ _ A _ _ Hb) as [_ [n Hn]]. congruence.
  - intros f' (j & _ & Hf)%Ho. apply (ac_new _ _ _ A). by exists j.
  - intros j k f1 f2 [(? & ? & _)|[_ H1]]%list_lookup_insert_Some [(? & ? & _)|[_ H2]]%list_lookup_insert_Some Hne; [done..|]. by apply (ac_apart _ _ _ A j k).
  - apply A.
  - intros f' va n (j & _ & Hf)%Ho Hb. apply (ac_behind _ _ _ A); [by exists j|done].
Qed.

(** What the file had, over what is left. *)
Lemma shrink_grow b t r i f : accounts b t r -> t !! i = Some (Some f) ->
  r = grow (shrink r (buffer_ps f) (buffer_va f)) (buffer_ps f) (buffer_va f) (of_pages f) /\ unused (shrink r (buffer_ps f) (buffer_va f)) (buffer_ps f) (buffer_va f) (of_pages f).
Proof using.
  intros A Hi. assert (Ho : opened t f) by (by exists i).
  assert (Hh : buffer_ps f ∈ r_handles r) by (apply (ac_handles _ _ _ A); right; by exists f).
  assert (Hv : r_vas r !! buffer_va f = Some (of_pages f)) by (apply (ac_vas _ _ _ A); right; by exists f).
  assert (Hm : r_maps r !! buffer_va f = Some (buffer_ps f)) by (apply (ac_maps _ _ _ A); right; by exists f). split.
  - destruct r as [H V M]. unfold grow, shrink. cbn [r_handles r_vas r_maps] in *. f_equal; [apply leibniz_equiv, set_equiv; intros x; rewrite elem_of_union, elem_of_difference, elem_of_singleton; destruct (decide (x = buffer_ps f)); naive_solver|by rewrite insert_delete_id..].
  - constructor; cbn [shrink r_handles r_vas]; [rewrite not_elem_of_difference, elem_of_singleton; by right|apply lookup_delete_eq|]. intros va' n' [Hne Hr]%lookup_delete_Some. apply (ac_vas _ _ _ A) in Hr as [Hb|(f' & [j Hj] & <- & <-)]; [by apply (ac_behind _ _ _ A)|].
    apply (ac_apart _ _ _ A i j); [done|done|]. intros ->. congruence.
Qed.

(** A cursor moves. *)
Lemma accounts_cursor b t r i f c : accounts b t r -> t !! i = Some (Some f) -> accounts b (<[i := Some (set_cursor f c)]> t) r.
Proof using.
  intros A Hi. pose proof (lookup_lt_Some _ _ _ Hi) as Hlt.
  (* each file of one table has a namesake in the other *)
  assert (Hto : forall j f', <[i := Some (set_cursor f c)]> t !! j = Some (Some f') -> exists f0, t !! j = Some (Some f0) /\ buffer_ps f0 = buffer_ps f' /\ buffer_va f0 = buffer_va f' /\ of_pages f0 = of_pages f').
  { intros j f' [(-> & [= <-] & _)|[_ Hj]]%list_lookup_insert_Some; [by exists f|by exists f']. }
  assert (Hfrom : forall j f0, t !! j = Some (Some f0) -> exists f', <[i := Some (set_cursor f c)]> t !! j = Some (Some f') /\ buffer_ps f0 = buffer_ps f' /\ buffer_va f0 = buffer_va f' /\ of_pages f0 = of_pages f').
  { intros j f0 Hj. destruct (decide (i = j)) as [<-|Hne]; [|exists f0; by rewrite list_lookup_insert_ne]. exists (set_cursor f c). rewrite list_lookup_insert_eq by done.
    rewrite Hi in Hj. by injection Hj as <-. }
  assert (Ho : forall Q : Z -> Z -> Z -> Prop, (exists f', opened (<[i := Some (set_cursor f c)]> t) f' /\ Q (buffer_ps f') (buffer_va f') (of_pages f')) <-> exists f0, opened t f0 /\ Q (buffer_ps f0) (buffer_va f0) (of_pages f0)).
  { intros Q. split.
    - intros (f' & [j Hj] & HQ). destruct (Hto j f' Hj) as (f0 & H0 & E1 & E2 & E3). exists f0. split; [by exists j|]. by rewrite E1, E2, E3.
    - intros (f0 & [j Hj] & HQ). destruct (Hfrom j f0 Hj) as (f' & H' & E1 & E2 & E3). exists f'. split; [by exists j|]. by rewrite <- E1, <- E2, <- E3. }
  constructor; try apply A.
  - intros h. rewrite (ac_handles _ _ _ A). by rewrite <- (Ho (fun ps _ _ => ps = h)).
  - intros va n. rewrite (ac_vas _ _ _ A). by rewrite <- (Ho (fun _ va' n' => va' = va /\ n' = n)).
  - intros va h. rewrite (ac_maps _ _ _ A). by rewrite <- (Ho (fun ps va' _ => va' = va /\ ps = h)).
  - intros f' [j Hj]. destruct (Hto j f' Hj) as (f0 & H0 & <- & <- & _). apply (ac_new _ _ _ A). by exists j.
  - intros j k f1 f2 Hj Hk Hne. destruct (Hto j f1 Hj) as (f1' & H1 & <- & <- & <-). destruct (Hto k f2 Hk) as (f2' & H2 & <- & <- & <-). by apply (ac_apart _ _ _ A j k).
  - intros f' va n [j Hj]. destruct (Hto j f' Hj) as (f0 & H0 & _ & <- & <-). apply (ac_behind _ _ _ A). by exists j.
Qed.

(** ** Giving back *)

(** What a step may lose: the base grows, and on a lossless platform it does not. *)
Definition settled (b : Res) (t : OpenTable) (r : Res) : Prop := exists b', accounts b' t r /\ extends b b' /\ (lossless res -> b' = b).

Lemma settled_same b t r : accounts b t r -> settled b t r.
Proof using. intros A. by exists b. Qed.

Lemma settled_va b t r va n (lost : lossless res -> False) : accounts b t r -> r_vas r !! va = None -> (forall va' n', r_vas r !! va' = Some n' -> apart va n va' n') -> settled b t (grow_va r va n).
Proof using. intros A H1 H2. destruct (accounts_grow_va b t r va n A H1 H2). exists (grow_va b va n). split; [done|]. split; [done|]. intros Hl. by destruct (lost Hl). Qed.

Lemma settled_all b t r h va n (lost : lossless res -> False) : accounts b t r -> unused r h va n -> settled b t (grow r h va n).
Proof using. intros A H. destruct (accounts_grow b t r h va n A H). exists (grow b h va n). split; [done|]. split; [done|]. intros Hl. by destruct (lost Hl). Qed.

Definition teardown (p : P) (h va n : Z) : P :=
  let '(ok, p) := unmap_pages_tracked p h va n in sys_close_handle (if ok : bool then free_unmapped p va n else p) h.

Section Undo.
Context (b : Res) (t : OpenTable) (r0 : Res) (A : accounts b t r0) (h va n : Z) (U : unused r0 h va n).

Lemma handle_unmapped x : r_maps r0 !! x <> Some h.
Proof using A U. intros Hm. destruct (maps_within _ _ _ _ _ A Hm) as [? _]. by destruct (un_handle _ _ _ _ U). Qed.

Lemma va_unmapped : r_maps r0 !! va = None.
Proof using A U. destruct (r_maps r0 !! va) as [h'|] eqn:E; [|done]. destruct (maps_within _ _ _ _ _ A E) as [_ [m Hm]]. pose proof (un_va _ _ _ _ U). congruence. Qed.

(** The handle is closed; the range may have stayed. *)
Lemma undo_close p V : res p = mkRes ({[h]} ∪ r_handles r0) V (r_maps r0) -> res (sys_close_handle p h) = mkRes (r_handles r0) V (r_maps r0).
Proof using A U L. intros E. rewrite pl_close; rewrite E; cbn [r_handles r_vas r_maps]; [|apply handle_unmapped]. by rewrite handle_back by apply U. Qed.

Lemma undo_handle p : res p = mkRes ({[h]} ∪ r_handles r0) (r_vas r0) (r_maps r0) -> res (sys_close_handle p h) = r0.
Proof using A U L. intros E. rewrite (undo_close p (r_vas r0) E). apply res_eta. Qed.

Lemma undo_va p : res p = mkRes ({[h]} ∪ r_handles r0) (<[va := n]> (r_vas r0)) (r_maps r0) -> settled b t (res (free_unused_allocation (sys_close_handle p h) va n)).
Proof using A U L.
  intros E. pose proof (undo_close p _ E) as E1. set (q := sys_close_handle p h) in *.
  assert (Hv : r_vas (res q) !! va = Some n) by (rewrite E1; apply lookup_insert_eq). assert (Hm : r_maps (res q) !! va = None) by (rewrite E1; apply va_unmapped).
  destruct (pl_free_unused q va n Hv Hm) as [Er|Er].
  - rewrite Er, E1. apply settled_va; [|done|apply U|apply U]. intros [_ Hl]. destruct (Hl q va n Hv Hm) as [_ Hx]. rewrite Er, Hv in Hx. done.
  - rewrite Er, E1. cbn [r_handles r_vas r_maps]. rewrite delete_insert_id by apply U. rewrite res_eta. by apply settled_same.
Qed.

Lemma undo_map p : res p = grow r0 h va n -> settled b t (res (teardown p h va n)).
Proof using A U L.
  intros E. unfold teardown. assert (Hm : r_maps (res p) !! va = Some h) by (rewrite E; apply lookup_insert_eq).
  destruct (pl_unmap p h va n Hm) as (ok & p1 & Eu & E1). rewrite Eu. destruct ok.
  - rewrite E in E1. cbn [grow r_handles r_vas r_maps] in E1. rewrite delete_insert_id in E1 by apply va_unmapped.
    assert (Hv : r_vas (res p1) !! va = Some n) by (rewrite E1; apply lookup_insert_eq). assert (Hm1 : r_maps (res p1) !! va = None) by (rewrite E1; apply va_unmapped).
    destruct (pl_free p1 va n Hv Hm1) as [Er|Er].
    + rewrite (undo_close _ (<[va := n]> (r_vas r0))) by (by rewrite Er). apply settled_va; [|done|apply U|apply U]. intros [_ Hl]. destruct (Hl p1 va n Hv Hm1) as [Hx _]. rewrite Er, Hv in Hx. done.
    + rewrite undo_handle; [by apply settled_same|]. rewrite Er, E1. cbn [r_handles r_vas r_maps]. by rewrite delete_insert_id by apply U.
  - assert (lost : lossless res -> False) by (intros [Hl _]; specialize (Hl p h va n Hm); by rewrite Eu in Hl).
    destruct (pl_close_mapped p1 h va) as [Er|Er]; [by rewrite E1| |rewrite Er, E1, E; by apply settled_all|].
    + rewrite E1, E. cbn [grow r_maps]. intros va' [[<- _]|[_ Hx]]%lookup_insert_Some; [done|]. by destruct (handle_unmapped va').
    + rewrite Er, E1, E. cbn [grow r_handles r_vas r_maps]. rewrite delete_insert_id by apply va_unmapped. rewrite handle_back by apply U. apply settled_va; [done|done|apply U|apply U].
Qed.
End Undo.

(** ** Requests *)

Record server_ok (b : Res) (s : Server P) : Prop := {
  so_table : table_ok (sv_table s);
  so_res : accounts b (sv_table s) (res (sv_platform s));
}.

(** The server's state is sound, with the base it had and what the platform lost. *)
Definition kept_ok (b : Res) (s : Server P) : Prop := exists b', server_ok b' s /\ extends b b' /\ (lossless res -> b' = b).

Lemma server_kept b s : server_ok b s -> kept_ok b s.
Proof using. intros H. by exists b. Qed.

Lemma kept_settled b s : table_ok (sv_table s) -> settled b (sv_table s) (res (sv_platform s)) -> kept_ok b s.
Proof using. intros T (b' & A & H). by exists b'. Qed.

(** What the request of a client may change for another: nothing. *)
Record others_kept (token : Z) (s s' : Server P) : Prop := {
  ok_slots : forall i f, caller_token f <> token -> sv_table s !! i = Some (Some f) <-> sv_table s' !! i = Some (Some f);
  ok_buffers : forall i f x, sv_table s !! i = Some (Some f) -> caller_token f <> token -> buffer_va f <= x < buffer_va f + buffer_size_bytes f -> sv_mem s' !! x = sv_mem s !! x;
}.

Lemma same_server b s p : server_ok b s -> res p = res (sv_platform s) -> server_ok b (mkServer _ (sv_mem s) (sv_table s) p).
Proof using. intros [T A] E. constructor; cbn; [done|]. by rewrite E. Qed.

Lemma others_kept_same token s m p : (forall x, m !! x = sv_mem s !! x) -> others_kept token s (mkServer _ m (sv_table s) p).
Proof using. intros E. by constructor. Qed.

Lemma read_serves b s token handle n : server_ok b s -> 0 <= n < 2 ^ 32 -> exists w s', handle_read g s token handle n = Ret (w, s') /\ server_ok b s' /\ others_kept token s s'.
Proof using D K.
  intros [T A] Hn. destruct (handle_read_spec g K sector D s token handle n T Hn) as (w & s' & E & [->|(i & f & Ef & [R1 R2 R3])]); exists w; eexists; (split; [exact E|]); [by split|].
  destruct (ot_slot_spec _ _ _ _ _ Ef) as (Hi & Etk & _). destruct T as [Tl Tf]. pose proof (Tf i f Hi) as Fo. destruct Fo as [F1 F2 F3 F4 F5].
  assert (Hb : forall j f' x, sv_table s !! j = Some (Some f') -> caller_token f' <> token -> buffer_va f' <= x < buffer_va f' + buffer_size_bytes f' -> sv_mem s' !! x = sv_mem s !! x).
  { intros j f' x Hj Hne Hx. apply R2. assert (j <> i) as Hji by (intros ->; congruence). destruct (ac_apart _ _ _ A j i f' f Hj Hi Hji) as (_ & _ & Hap). destruct (Tf j f' Hj) as [_ _ _ _ F5']. unfold apart in Hap. lia. }
  destruct R1 as [R1|(c & Hc & R1)]; (split; constructor; rewrite ?R1, ?R3; try done).
  - apply table_ok_insert; [done|]. by constructor.
  - by apply accounts_cursor.
  - intros j f' Hne. destruct (decide (i = j)) as [<-|]; [|by rewrite list_lookup_insert_ne]. rewrite list_lookup_insert_eq by (by eapply lookup_lt_Some). split; [congruence|]. intros [= <-]. by cbn in Hne.
Qed.

Lemma close_serves b s token handle : server_ok b s -> kept_ok b (handle_close s token handle).2 /\ others_kept token s (handle_close s token handle).2.
Proof using L.
  intros [T A]. unfold handle_close, ot_remove. destruct (ot_slot _ _ _) as [[i f]|] eqn:Ef; [|by split; [apply server_kept|]]. destruct (ot_slot_spec _ _ _ _ _ Ef) as (Hi & Etk & _).
  destruct (shrink_grow _ _ _ _ _ A Hi) as [Er U]. pose proof (undo_map _ _ _ (accounts_close _ _ _ _ _ A Hi) _ _ _ U _ Er) as Hs. unfold teardown in Hs.
  destruct (unmap_pages_tracked (sv_platform s) (buffer_ps f) (buffer_va f) (of_pages f)) as [ok p]. cbn [snd]. split; [apply kept_settled; cbn [sv_table sv_platform]; [|exact Hs]|constructor; cbn [sv_table sv_mem]; [|done]].
  - split; [rewrite length_insert; apply T|]. intros j f' [(? & ? & _)|[_ Hj]]%list_lookup_insert_Some; [done|]. by apply (proj2 T j).
  - intros j f' Hne. destruct (decide (i = j)) as [<-|]; [|by rewrite list_lookup_insert_ne]. rewrite list_lookup_insert_eq by (by eapply lookup_lt_Some). split; [congruence|done].
Qed.

Lemma first_none_free t i : first_none t = Some i -> t !! i = Some None.
Proof using. revert i. induction t as [|[f|] t IH]; intros i; cbn; [done| |by intros [= <-]]. destruct (first_none t) as [j|]; [|done]. intros [= <-]. by apply IH. Qed.

Lemma open_serves b s token path n : server_ok b s -> 0 < n <= FS_MAX_BUFFER_PAGES ->
  exists w s', handle_open g (walk_bound g) s token path n = Ret (w, s') /\ kept_ok b s' /\ others_kept token s s' /\ sv_mem s' = sv_mem s.
Proof using D K Hac L.
  intros SO Hn. pose proof SO as [T A]. unfold handle_open, FS_MAX_BUFFER_PAGES in *. destruct (resolve_returns path) as (r & -> & Hr). rewrite bind_Ret.
  assert (Hback : forall (w : Words) p, settled b (sv_table s) (res p) -> exists w' s', Ret (w, mkServer _ (sv_mem s) (sv_table s) p) = Ret (w', s') /\ kept_ok b s' /\ others_kept token s s' /\ sv_mem s' = sv_mem s)
    by (intros w p E; eexists _, _; split; [reflexivity|]; split; [by apply kept_settled|]; split; [by apply others_kept_same|done]).
  assert (Hsame : forall (w : Words) p, res p = res (sv_platform s) -> exists w' s', Ret (w, mkServer _ (sv_mem s) (sv_table s) p) = Ret (w', s') /\ kept_ok b s' /\ others_kept token s s' /\ sv_mem s' = sv_mem s)
    by (intros w p E; apply Hback; rewrite E; by apply settled_same).
  destruct r as [e|e]; [|eexists _, _; split; [reflexivity|]; split; [by apply server_kept|done]]. destruct (is_directory e); [eexists _, _; split; [reflexivity|]; split; [by apply server_kept|done]|]. destruct (Hr e eq_refl) as [Hfc Hsz].
  destruct (sys_alloc_pages (sv_platform s) n) as [o p1] eqn:E1. apply pl_alloc_pages in E1. destruct o as [h|]; [|by apply Hsame]. destruct E1 as [Hh E1].
  destruct (vmem_alloc p1 n) as [o p2] eqn:E2. apply pl_vmem_alloc in E2. destruct o as [va|].
  2:{ apply Hsame. rewrite pl_close; rewrite E2, E1; cbn [r_handles r_vas r_maps]; [by rewrite handle_back, res_eta|]. intros va Hm. by destruct (maps_within _ _ _ _ _ A Hm). }
  rewrite E1 in E2. cbn [r_handles r_vas r_maps] in E2. destruct E2 as (Hap & Hva & E2). pose proof (Build_unused _ h va n Hh Hva Hap) as U.
  destruct (sys_map_pages p2 h va) as [mapped p3] eqn:E3. apply pl_map in E3. destruct mapped; cbn [negb]; [|apply Hback; eapply undo_va; [exact A|exact U|congruence]].
  rewrite E2 in E3. cbn [r_handles r_vas r_maps] in E3. unfold PAGE_SIZE. rewrite mul_chk_in, bind_Ret by lia. set (f := mkOpen _ _ _ _ _ _ _ _).
  assert (Hf : file_ok f) by (constructor; cbn; (done || lia)).
  unfold ot_insert. destruct (first_none (sv_table s)) as [i|] eqn:Ei; [|apply Hback; eapply undo_map; [exact A|exact U|exact E3]]. apply first_none_free in Ei. pose proof (lookup_lt_Some _ _ _ Ei) as Hlt.
  destruct (sys_export_handle p3 h) as [o p4] eqn:E4. apply pl_export in E4. rewrite E3 in E4. destruct o as [idx|].
  - eexists _, _. split; [reflexivity|]. cbn [sv_mem]. split; [apply server_kept|split; [|done]]; constructor; cbn [sv_table sv_platform sv_mem]; [by apply table_ok_insert| |intros j f' Hne|done].
    + rewrite E4. by apply (accounts_open b (sv_table s) (res (sv_platform s)) i f).
    + destruct (decide (i = j)) as [<-|]; [|by rewrite list_lookup_insert_ne]. rewrite list_lookup_insert_eq by done. split; [congruence|]. intros [= <-]. by cbn in Hne.
  - assert (Er : ot_remove (<[i := Some f]> (sv_table s)) (Z.of_nat i + 1) token = (Some f, sv_table s)).
    { unfold ot_remove, ot_slot. destruct (Z.ltb_spec (Z.of_nat i + 1) 1); [lia|]. replace (Z.to_nat (Z.of_nat i + 1 - 1)) with i by lia. rewrite list_lookup_insert_eq by done. cbn [caller_token f].
      rewrite Z.eqb_refl, list_insert_insert_eq, list_insert_id by done. done. }
    rewrite Er. cbn [unwrap]. rewrite bind_Ret. apply Hback. eapply undo_map; [exact A|exact U|exact E4].
Qed.

Definition req_ok (r : FsRequest) : Prop := 0 <= arg1 r /\ 0 <= arg2 r /\ 0 <= arg3 r.

Lemma serve_spec b s token r : server_ok b s -> req_ok r -> exists w s', serve g (walk_bound g) s token r = Ret (w, s') /\ kept_ok b s' /\ others_kept token s s'.
Proof using D K Hac L.
  intros SO (Ha1 & Ha2 & Ha3). assert (Hsame : forall w : Words, exists w' s', Ret (w, s) = Ret (w', s') /\ kept_ok b s' /\ others_kept token s s') by (intros w; eexists _, _; split; [reflexivity|]; split; [by apply server_kept|done]).
  unfold serve, dispatch. destruct (cmd r =? FS_OPEN).
  - destruct (negb (Z.shiftr (arg1 r) 16 =? 0)); [apply Hsame|]. unfold decode_open. set (pl := wrap 8 (Z.land (arg1 r) 255)). set (bp := wrap 8 _). destruct ((pl =? 0) || _); [apply Hsame|].
    destruct (Z.eqb_spec bp 0); [apply Hsame|]. destruct (Z.ltb_spec FS_MAX_BUFFER_PAGES bp); [apply Hsame|]. cbn [orb].
    destruct (open_serves b s token (slice (le_bytes 8 (arg2 r) ++ le_bytes 8 (arg3 r)) 0 pl) bp SO) as (w & s' & E & H1 & H2 & _); [|by exists w, s'].
    assert (0 <= bp) by (subst bp; unfold wrap; apply Z.mod_pos_bound; lia). lia.
  - destruct (cmd r =? FS_READ); [|destruct (cmd r =? FS_CLOSE); [|apply Hsame]].
    + destruct (U32_MAX <? arg1 r); [apply Hsame|]. destruct (U32_MAX <? arg2 r); [apply Hsame|]. destruct (negb (arg3 r =? 0)); [apply Hsame|]. destruct (read_serves b s token (wrap 32 (arg1 r)) (wrap 32 (arg2 r)) SO) as (w & s' & E & H1 & H2); [unfold wrap; apply Z.mod_pos_bound; lia|]. exists w, s'. split; [done|]. split; [by apply server_kept|done].
    + destruct (U32_MAX <? arg1 r); [apply Hsame|]. destruct (negb (arg2 r =? 0) || negb (arg3 r =? 0)); [apply Hsame|]. destruct (close_serves b s token (wrap 32 (arg1 r)) SO). destruct (handle_close s token (wrap 32 (arg1 r))) as [w s'] eqn:E. by exists w, s'.
Qed.

(** ** Histories *)

(** Requests, each with its client's token, in the order the server receives
    them. *)
Fixpoint serve_all (s : Server P) (rs : list (Z * FsRequest)) : outcome (list Words * Server P) :=
  match rs with
  | [] => Ret ([], s)
  | (token, r) :: rs' =>
      x ← serve g (walk_bound g) s token r;
      y ← serve_all x.2 rs';
      Ret (x.1 :: y.1, y.2)
  end.

Lemma serve_all_spec rs : forall b s, server_ok b s -> Forall (fun x => req_ok x.2) rs -> exists ws s', serve_all s rs = Ret (ws, s') /\ length ws = length rs /\ kept_ok b s' /\
  forall token, Forall (fun x => x.1 <> token) rs -> (forall i f, caller_token f = token -> sv_table s !! i = Some (Some f) <-> sv_table s' !! i = Some (Some f)) /\
    forall i f x, sv_table s !! i = Some (Some f) -> caller_token f = token -> buffer_va f <= x < buffer_va f + buffer_size_bytes f -> sv_mem s' !! x = sv_mem s !! x.
Proof using D K Hac L.
  induction rs as [|[tk r] rs IH]; intros b s SO Hr; [eexists _, _; split; [reflexivity|]; split; [done|]; split; [by apply server_kept|done]|]. apply Forall_cons in Hr as [Hr Hrs]. cbn [serve_all snd] in *.
  destruct (serve_spec b s tk r SO Hr) as (w & s1 & -> & (b1 & SO1 & X1 & Y1) & K1 & K2). rewrite bind_Ret. cbn [snd fst]. destruct (IH b1 s1 SO1 Hrs) as (ws & s' & -> & Hl & (b2 & SO2 & X2 & Y2) & HI). rewrite bind_Ret.
  eexists _, _. split; [reflexivity|]. split; [cbn; by rewrite Hl|]. split; [exists b2; split; [done|]; split; [by eapply extends_trans|]; intros Hq; by rewrite Y2, Y1|]. intros token [Hne Hns]%Forall_cons. cbn [fst] in Hne. destruct (HI token Hns) as [I1 I2]. split.
  - intros i f Hf. cbn [snd]. rewrite <- (I1 i f Hf). apply K1. congruence.
  - intros i f x Hi Hf Hx. cbn [snd]. rewrite (I2 i f x); [|apply K1; [congruence|done]|done|done]. apply (K2 i f x Hi); [congruence|done].
Qed.
End Resources.
End Server.
