(* ===== verification/Block.v ===== *)
(** The block layer: the server loop with its buffer table and the client
    (user/lockjaw-userlib/src/block.rs, lockjaw-types/src/block.rs), the MBR
    (lockjaw-types/src/partition.rs) and the partition engine
    (user/partition-manager/src/main.rs). *)
From Stdlib Require Import ZArith Lia.
From stdpp Require Import base option numbers list.
From S2P Require Import Prelude Bytes.
Open Scope Z_scope.

(** * The protocol *)

Definition CMD_GET_INFO : Z := 1.
Definition CMD_ALLOC_BUFFER : Z := 2.
Definition CMD_READ : Z := 3.
Definition CMD_WRITE : Z := 4.
Definition CMD_FREE_BUFFER : Z := 5.
Definition BLK_OK : Z := 0.
Definition BLK_ERR_IO : Z := 1.
Definition BLK_ERR_UNSUPPORTED : Z := 2.
Definition BLK_ERR_INVALID : Z := 3.
Definition BLK_ERR_ALLOC : Z := 4.

(** Four message words. *)
Record Msg := mkMsg { m0 : Z; m1 : Z; m2 : Z; m3 : Z }.

Definition status (s : Z) : Msg := mkMsg s 0 0 0.

Inductive BlockError := IoError | Unsupported | InvalidParameter | AllocFailed | InvalidBuffer | IpcFailed.

Record BlockInfo := mkInfo { capacity_sectors : Z; sector_size : Z; buffer_attribute : Z }.

(** * Buffers by client *)

Definition MAX_BUFFERS : nat := 8.

Record BufferSlot := mkSlot { buffer_id : Z; caller_token : Z; engine_handle : Z }.
Record BufferTracker := mkTracker { slots : list (option BufferSlot); next_id : Z }.

Definition new_tracker : BufferTracker := mkTracker (replicate MAX_BUFFERS None) 1.

Fixpoint free_slot {A} (l : list (option A)) : option nat :=
  match l with [] => None | None :: _ => Some 0%nat | Some _ :: l' => S <$> free_slot l' end.

Definition track (b : BufferTracker) (caller h : Z) : option Z * BufferTracker :=
  match free_slot (slots b) with
  | Some i => (Some (next_id b), mkTracker (<[i := Some (mkSlot (next_id b) caller h)]> (slots b)) (wrap 32 (next_id b + 1)))
  | None => (None, b)
  end.

(** The first slot with this id and this caller. *)
Fixpoint find_buffer (l : list (option BufferSlot)) (id caller : Z) : option (nat * BufferSlot) :=
  match l with
  | [] => None
  | Some s :: l' => if (buffer_id s =? id) && (caller_token s =? caller) then Some (0%nat, s) else (fun x => (S x.1, x.2)) <$> find_buffer l' id caller
  | None :: l' => (fun x => (S x.1, x.2)) <$> find_buffer l' id caller
  end.

Definition translate (b : BufferTracker) (id caller : Z) : option Z := (fun x => engine_handle x.2) <$> find_buffer (slots b) id caller.

Definition remove (b : BufferTracker) (id caller : Z) : option Z * BufferTracker :=
  match find_buffer (slots b) id caller with
  | Some (i, s) => (Some (engine_handle s), mkTracker (<[i := None]> (slots b)) (next_id b))
  | None => (None, b)
  end.

(** * Engines and the server loop *)

(** The trait BlockEngine. *)
Class BlockEngine (E : Type) := {
  eng_info : E -> BlockInfo;
  eng_alloc_buffer : E -> Z -> result Z BlockError * E;
  eng_read : E -> Z -> Z -> Z -> outcome (result unit BlockError * E);
  eng_write : E -> Z -> Z -> Z -> outcome (result unit BlockError * E);
  eng_free_buffer : E -> Z -> outcome E;
}.

Section Serve.
Context {E : Type} `{!BlockEngine E}.

Definition io_status (r : result unit BlockError) : Z :=
  match r with Ok _ => BLK_OK | Err IoError => BLK_ERR_IO | Err Unsupported => BLK_ERR_UNSUPPORTED | Err _ => BLK_ERR_INVALID end.

(** One turn of run_block_server. [export] is sys_export_handle; the kernel's state
    is part of what the engine runs on. *)
Definition block_serve (export : E -> Z -> option Z * E) (e : E) (b : BufferTracker) (caller : Z) (m : Msg) : outcome (Msg * E * BufferTracker) :=
  if m0 m =? CMD_GET_INFO then
    let i := eng_info e in Ret (mkMsg (capacity_sectors i) (sector_size i) (buffer_attribute i) 0, e, b)
  else if m0 m =? CMD_ALLOC_BUFFER then
    let '(r, e) := eng_alloc_buffer e (m1 m) in
    match r with
    | Err _ => Ret (status BLK_ERR_ALLOC, e, b)
    | Ok ps =>
        match track b caller ps with
        | (None, b) => e ← eng_free_buffer e ps; Ret (status BLK_ERR_ALLOC, e, b)
        | (Some id, b) =>
            match export e ps with
            | (Some idx, e) => Ret (mkMsg BLK_OK idx id 0, e, b)
            | (None, e) => let b := (remove b id caller).2 in e ← eng_free_buffer e ps; Ret (status BLK_ERR_ALLOC, e, b)
            end
        end
    end
  else if m0 m =? CMD_READ then
    match translate b (wrap 32 (m3 m)) caller with
    | None => Ret (status BLK_ERR_INVALID, e, b)
    | Some h => x ← eng_read e (m1 m) (m2 m) h; Ret (status (io_status x.1), x.2, b)
    end
  else if m0 m =? CMD_WRITE then
    match translate b (wrap 32 (m3 m)) caller with
    | None => Ret (status BLK_ERR_INVALID, e, b)
    | Some h => x ← eng_write e (m1 m) (m2 m) h; Ret (status (io_status x.1), x.2, b)
    end
  else if m0 m =? CMD_FREE_BUFFER then
    match remove b (wrap 32 (m1 m)) caller with
    | (Some ps, b) => e ← eng_free_buffer e ps; Ret (status BLK_OK, e, b)
    | (None, b) => Ret (status BLK_ERR_INVALID, e, b)
    end
  else Ret (status BLK_ERR_UNSUPPORTED, e, b).
End Serve.

(** * The client *)

(** A connection to a block server, with the kernel calls of the process: the reply,
    or nothing when the call fails; the close and the export of a local handle. *)
Class Transport (U : Type) := {
  call : U -> Msg -> option Msg * U;
  close_handle : U -> Z -> U;
  export_handle : U -> Z -> option Z * U;
}.

Section Client.
Context {U : Type} `{!Transport U}.

Definition decode_status (s : Z) : result unit BlockError :=
  if s =? BLK_OK then Ok tt
  else if s =? BLK_ERR_IO then Err IoError
  else if s =? BLK_ERR_UNSUPPORTED then Err Unsupported
  else if s =? BLK_ERR_INVALID then Err InvalidParameter
  else if s =? BLK_ERR_ALLOC then Err AllocFailed
  else Err InvalidParameter.

Definition status_of (r : option Msg) : result unit BlockError := match r with None => Err IpcFailed | Some m => decode_status (m0 m) end.

(** The PageSet handle and the buffer id. *)
Definition client_alloc_buffer (u : U) (sector_count : Z) : result (Z * Z) BlockError * U :=
  let '(r, u) := call u (mkMsg CMD_ALLOC_BUFFER sector_count 0 0) in
  (match r with
   | None => Err IpcFailed
   | Some m => match decode_status (m0 m) with Ok _ => Ok (m1 m, wrap 32 (m2 m)) | Err e => Err e end
   end, u).

Definition client_read (u : U) (sector count id : Z) : result unit BlockError * U := let '(r, u) := call u (mkMsg CMD_READ sector count id) in (status_of r, u).
Definition client_write (u : U) (sector count id : Z) : result unit BlockError * U := let '(r, u) := call u (mkMsg CMD_WRITE sector count id) in (status_of r, u).
Definition client_free_buffer (u : U) (id : Z) : result unit BlockError * U := let '(r, u) := call u (mkMsg CMD_FREE_BUFFER id 0 0) in (status_of r, u).
End Client.

(** * The master boot record *)

Definition MAX_MBR_PARTITIONS : nat := 4.

Record MbrPartition := mkPart { partition_type : Z; start_lba : Z; sector_count : Z }.

Inductive DiskLayout := BareFat (sectors : Z) | Mbr (partitions : list MbrPartition).

Inductive PartitionError := Unrecognised | NoPartitions.

Definition is_fat32 (partition_type : Z) : bool := (partition_type =? 0x0B) || (partition_type =? 0x0C).

Definition FAT32_NAME : list Z := [70; 65; 84; 51; 50; 32; 32; 32].

(** The loop over the entries from [i] on, with [any_nonempty]. *)
Fixpoint parse_entries (n : nat) (i : Z) (sector_zero : list Z) (capacity : Z) (any : bool) : outcome (result (list MbrPartition * bool) PartitionError) :=
  match n with
  | O => Ret (Ok ([], any))
  | S n' =>
      let base := 446 + i * 16 in
      entry ← bytes_at sector_zero base 0 16;
      partition_type ← byte_at entry 4;
      start_lba ← read_le 4 entry 8;
      sector_count ← read_le 4 entry 12;
      let p := mkPart partition_type start_lba sector_count in
      let go any :=
        r ← parse_entries n' (i + 1) sector_zero capacity any;
        Ret (match r with Ok (ps, any) => Ok (p :: ps, any) | Err e => Err e end) in
      if negb (partition_type =? 0) then
        if sector_count =? 0 then Ret (Err Unrecognised) else
        e ← add_chk 64 start_lba sector_count;
        if capacity <? e then Ret (Err Unrecognised) else go true
      else go any
  end.

Definition parse_disk (sector_zero : list Z) (upstream_capacity_sectors : Z) : outcome (result DiskLayout PartitionError) :=
  s0 ← byte_at sector_zero 510;
  s1 ← byte_at sector_zero 511;
  if negb (s0 =? 0x55) || negb (s1 =? 0xAA) then Ret (Err Unrecognised) else
  t ← bytes_at sector_zero 82 0 8;
  if bool_decide (t = FAT32_NAME) then Ret (Ok (BareFat upstream_capacity_sectors)) else
  r ← parse_entries MAX_MBR_PARTITIONS 0 sector_zero upstream_capacity_sectors false;
  Ret (match r with
       | Err e => Err e
       | Ok (partitions, any_nonempty) => if negb any_nonempty then Err NoPartitions else Ok (Mbr partitions)
       end).

(** The partition _start serves, [None] where it halts. *)
Definition choose_partition (layout : result DiskLayout PartitionError) : option (Z * Z) :=
  match layout with
  | Ok (BareFat n) => Some (0, n)
  | Ok (Mbr ps) => (fun p => (start_lba p, sector_count p)) <$> List.find (fun p => is_fat32 (partition_type p)) ps
  | Err _ => None
  end.

(** * The partition engine *)

Record BufMapEntry := mkEntry { pageset_local : Z; upstream_buffer_id : Z }.

Record PartitionBlockEngine (U : Type) := mkEngine {
  upstream : U;
  pe_start : Z;
  pe_count : Z;
  upstream_buffer_attr : Z;
  buf_map : list (option BufMapEntry);
}.
Arguments mkEngine {U}.
Arguments upstream {U}.
Arguments pe_start {U}.
Arguments pe_count {U}.
Arguments upstream_buffer_attr {U}.
Arguments buf_map {U}.

Section Partition.
Context {U : Type} `{!Transport U}.

Definition with_upstream (e : PartitionBlockEngine U) (u : U) : PartitionBlockEngine U := mkEngine u (pe_start e) (pe_count e) (upstream_buffer_attr e) (buf_map e).

Fixpoint find_slot (l : list (option BufMapEntry)) (ps : Z) : option nat :=
  match l with
  | [] => None
  | Some x :: l' => if pageset_local x =? ps then Some 0%nat else S <$> find_slot l' ps
  | None :: l' => S <$> find_slot l' ps
  end.

Definition pe_info (e : PartitionBlockEngine U) : BlockInfo := mkInfo (pe_count e) 512 (upstream_buffer_attr e).

Definition pe_alloc_buffer (e : PartitionBlockEngine U) (n : Z) : result Z BlockError * PartitionBlockEngine U :=
  match free_slot (buf_map e) with
  | None => (Err AllocFailed, e)
  | Some i =>
      let '(r, u) := client_alloc_buffer (upstream e) n in
      match r with
      | Err _ => (Err AllocFailed, with_upstream e u)
      | Ok (ps, id) => (Ok ps, mkEngine u (pe_start e) (pe_count e) (upstream_buffer_attr e) (<[i := Some (mkEntry ps id)]> (buf_map e)))
      end
  end.

(** read and write, which differ in the upstream operation. *)
Definition pe_io (op : U -> Z -> Z -> Z -> result unit BlockError * U) (e : PartitionBlockEngine U) (sector count buffer : Z) : outcome (result unit BlockError * PartitionBlockEngine U) :=
  match checked_add64 sector count with
  | None => Ret (Err InvalidParameter, e)
  | Some end_ =>
      if pe_count e <? end_ then Ret (Err InvalidParameter, e) else
      match find_slot (buf_map e) buffer with
      | None => Ret (Err InvalidBuffer, e)
      | Some idx =>
          entry ← unwrap (mjoin (buf_map e !! idx));
          match checked_add64 (pe_start e) sector with
          | None => Ret (Err InvalidParameter, e)
          | Some upstream_sector => let '(r, u) := op (upstream e) upstream_sector count (upstream_buffer_id entry) in Ret (r, with_upstream e u)
          end
      end
  end.

Definition pe_read := pe_io client_read.
Definition pe_write := pe_io client_write.

Definition pe_free_buffer (e : PartitionBlockEngine U) (buffer : Z) : outcome (PartitionBlockEngine U) :=
  match find_slot (buf_map e) buffer with
  | None => Ret e
  | Some idx =>
      entry ← unwrap (mjoin (buf_map e !! idx));
      let '(_, u) := client_free_buffer (upstream e) (upstream_buffer_id entry) in
      Ret (mkEngine (close_handle u (pageset_local entry)) (pe_start e) (pe_count e) (upstream_buffer_attr e) (<[idx := None]> (buf_map e)))
  end.

Definition pe_export (e : PartitionBlockEngine U) (ps : Z) : option Z * PartitionBlockEngine U :=
  let '(r, u) := export_handle (upstream e) ps in (r, with_upstream e u).

#[export] Instance PartitionEngine : BlockEngine (PartitionBlockEngine U) := {
  eng_info := pe_info;
  eng_alloc_buffer := pe_alloc_buffer;
  eng_read := pe_read;
  eng_write := pe_write;
  eng_free_buffer := pe_free_buffer;
}.
End Partition.
