(* ===== verification/BlockSafe.v ===== *)
(** The block layer's promises: partitions lie on the disk, a partition's server
    reaches no sector outside it, and clients have buffers of their own. *)
From Stdlib Require Import ZArith Lia.
From stdpp Require Import base option gmap numbers sets fin_sets list.
From S2P Require Import Prelude Bytes Fat32 FatServer Block.
Open Scope Z_scope.

(** * The partition table *)

(** A partition that is in use has sectors, all of them on the disk. *)
Definition on_disk (capacity : Z) (p : MbrPartition) : Prop :=
  0 <= start_lba p /\ (partition_type p <> 0 -> 0 < sector_count p /\ start_lba p + sector_count p <= capacity).

Section Mbr.
Context (sector0 : list Z) (Hlen : len sector0 = 512) (Hb : bytes sector0) (capacity : Z).

Lemma parse_entries_spec n : forall i any, 0 <= i -> i + Z.of_nat n <= 4 -> exists r, parse_entries n i sector0 capacity any = Ret r /\
  forall ps any', r = Ok (ps, any') -> length ps = n /\ Forall (on_disk capacity) ps /\ (any' = true -> any = true \/ Exists (fun p => partition_type p <> 0) ps).
Proof using Hlen Hb.
  induction n as [|n IH]; intros i any Hi Hn; cbn [parse_entries].
  - eexists. split; [reflexivity|]. intros ps any' [= <- <-]. split; [done|]. split; [constructor|]. by left.
  - rewrite bytes_at_in, bind_Ret by (rewrite ?Hlen; cbn; lia). rewrite Z.add_0_r. change (Z.of_nat 16) with 16. set (entry := slice sector0 (446 + i * 16) 16).
    assert (He : len entry = 16) by (apply slice_length; lia). assert (Hbe : bytes entry) by (by apply slice_bytes).
    rewrite byte_word, bind_Ret, !read_word, !bind_Ret by (rewrite ?He; cbn; lia). change (Z.of_nat 4) with 4.
    pose proof (word_range 4 entry 8 Hbe ltac:(lia) ltac:(lia) ltac:(lia)). pose proof (word_range 4 entry 12 Hbe ltac:(lia) ltac:(lia) ltac:(lia)).
    assert (Hgo : forall any0 (p := mkPart (word_at 1 entry 4) (word_at 4 entry 8) (word_at 4 entry 12)), on_disk capacity p -> (any0 = true -> any = true \/ partition_type p <> 0) ->
      exists r, (r ← parse_entries n (i + 1) sector0 capacity any0; Ret (match r with Ok (ps, any) => Ok (p :: ps, any) | Err e => Err e end)) = Ret r /\
      forall ps any', r = Ok (ps, any') -> length ps = S n /\ Forall (on_disk capacity) ps /\ (any' = true -> any = true \/ Exists (fun p => partition_type p <> 0) ps)).
    { intros any0 p Hp Ha. destruct (IH (i + 1) any0) as (r & -> & Hr); [lia..|]. rewrite bind_Ret. eexists. split; [reflexivity|]. intros ps any'. destruct r as [[ps' any1]|e]; [|done]. intros [= <- <-].
      destruct (Hr ps' any1 eq_refl) as (H1 & H2 & H3). split; [cbn; by rewrite H1|]. split; [by constructor|]. intros Ht. destruct (H3 Ht) as [[Hy|Hy]%Ha|Hy]; [by left|right; by constructor|right; by constructor 2]. }
    destruct (Z.eqb_spec (word_at 1 entry 4) 0) as [E0|E0]; cbn [negb].
    + apply Hgo; [split; cbn; [lia|done]|]. intros ->. by left.
    + destruct (Z.eqb_spec (word_at 4 entry 12) 0); [by eexists|]. rewrite add_chk_in, bind_Ret by lia. destruct (Z.ltb_spec capacity (word_at 4 entry 8 + word_at 4 entry 12)); [by eexists|].
      apply Hgo; [split; cbn; [lia|intros _; lia]|]. intros _. by right.
Qed.

Lemma parse_disk_spec : exists r, parse_disk sector0 capacity = Ret r /\ forall start count, choose_partition r = Some (start, count) -> 0 <= start /\ start + count <= capacity.
Proof using Hlen Hb.
  unfold parse_disk. rewrite !byte_word, bytes_at_in, !bind_Ret by (rewrite ?Hlen; cbn; lia). case_match; [by eexists|]. case_bool_decide; [eexists; split; [reflexivity|]; intros start count [= <- <-]; lia|].
  destruct (parse_entries_spec MAX_MBR_PARTITIONS 0 false) as (r & -> & Hr); [done..|]. rewrite bind_Ret. eexists. split; [reflexivity|]. intros start count. destruct r as [[ps any]|e]; [|done].
  destruct (Hr ps any eq_refl) as (_ & Hd & _). destruct (negb any); [done|]. cbn [choose_partition]. destruct (List.find _ ps) as [p|] eqn:Ef; [|done]. intros [= <- <-].
  apply List.find_some in Ef as [Hin Hf]. rewrite Forall_forall in Hd. destruct (Hd p) as [Hst Hp]; [by apply list_elem_of_In|]. assert (partition_type p <> 0) by (intros E; rewrite E in Hf; done). split; [lia|]. by apply Hp.
Qed.
End Mbr.

(** * Confinement *)

(** A connection with a record of its messages. *)
#[export] Instance Logged (U : Type) `{!Transport U} : Transport (list Msg * U) := {
  call lu m := let '(r, u) := call lu.2 m in (r, (lu.1 ++ [m], u));
  close_handle lu h := (lu.1, close_handle lu.2 h);
  export_handle lu h := let '(r, u) := export_handle lu.2 h in (r, (lu.1, u));
}.

(** What the manager relies on: a reply to an allocation brings a handle that the
    process does not have, and nothing but its own close takes a handle away. *)
Class TransportLaws (U : Type) `{!Transport U} (handles : U -> gset Z) := {
  tl_call : forall u m r u', call u m = (r, u') ->
    match r with
    | Some w => if (m0 m =? CMD_ALLOC_BUFFER) && (m0 w =? BLK_OK) then m1 w ∉ handles u /\ handles u' = {[m1 w]} ∪ handles u else handles u' = handles u
    | None => handles u' = handles u
    end;
  tl_close : forall u h, handles (close_handle u h) = handles u ∖ {[h]};
  tl_export : forall u h, handles (export_handle u h).2 = handles u;
}.

(** Reads and writes stay between [start] and [start + count]. *)
Definition confined (start count : Z) (m : Msg) : Prop := m0 m = CMD_READ \/ m0 m = CMD_WRITE -> start <= m1 m /\ m1 m + m2 m <= start + count.

Section Confined.
Context {U : Type} `{!Transport U} (handles : U -> gset Z) (TL : TransportLaws U handles).
Abbreviation Engine := (PartitionBlockEngine (list Msg * U)).
Abbreviation log e := (upstream e).1.
Abbreviation held e := (handles (upstream e).2).

(** The engine of a partition, whose messages so far were confined to it. *)
Record engine_ok (start count : Z) (e : Engine) : Prop := {
  eo_part : pe_start e = start /\ pe_count e = count;
  eo_log : Forall (confined start count) (log e);
}.

(** ** Buffers *)

(** The upstream id that the engine has for a handle. *)
Definition upstream_id (l : list (option BufMapEntry)) (ps : Z) : option Z := i ← find_slot l ps; x ← mjoin (l !! i); Some (upstream_buffer_id x).

(** What a client's buffer id stands for: the PageSet and its id at the driver. *)
Definition buffer_of (e : Engine) (b : BufferTracker) (id c : Z) : option (Z * option Z) := h ← translate b id c; Some (h, upstream_id (buf_map e) h).

(** The buffers the clients have. *)
Definition tracked (b : BufferTracker) : list Z := omap (fmap engine_handle) (slots b).

(** Every buffer in use is a PageSet of its own that the manager holds. *)
Record buffers_ok (e : Engine) (b : BufferTracker) : Prop := {
  bo_nodup : NoDup (tracked b);
  bo_held : forall h, h ∈ tracked b -> h ∈ held e;
  bo_ids : forall s, Some s ∈ slots b -> buffer_id s < next_id b;
}.

Lemma call_log (u : list Msg * U) m : (call u m).2.1 = u.1 ++ [m].
Proof using. cbn [call Logged]. by destruct (call u.2 m). Qed.

Lemma find_slot_local l ps i : find_slot l ps = Some i -> exists x, l !! i = Some (Some x) /\ pageset_local x = ps.
Proof using.
  revert i. induction l as [|[x|] l IH]; intros i; cbn; [done| |].
  - destruct (Z.eqb_spec (pageset_local x) ps); [intros [= <-]; by exists x|]. destruct (find_slot l ps) as [j|]; [|done]. intros [= <-]. by apply IH.
  - destruct (find_slot l ps) as [j|]; [|done]. intros [= <-]. by apply IH.
Qed.

Lemma upstream_id_cons o l ps : upstream_id (o :: l) ps = match o with Some x => if pageset_local x =? ps then Some (upstream_buffer_id x) else upstream_id l ps | None => upstream_id l ps end.
Proof using. unfold upstream_id. cbn [find_slot]. destruct o as [x|]; [destruct (pageset_local x =? ps); [done|]|]; by destruct (find_slot l ps). Qed.

(** Entries of other handles do not matter. *)
Lemma upstream_id_put l i x ps : free_slot l = Some i -> ps <> pageset_local x -> upstream_id (<[i := Some x]> l) ps = upstream_id l ps.
Proof using.
  intros Hi Hne. revert i Hi. induction l as [|[y|] l IH]; intros i; cbn [free_slot]; [done| |].
  - destruct (free_slot l) as [j|]; [|done]. intros [= <-]. cbn [insert list_insert]. rewrite !upstream_id_cons. destruct (pageset_local y =? ps); [done|]. by apply IH.
  - intros [= <-]. cbn [insert list_insert]. rewrite !upstream_id_cons. by rewrite (proj2 (Z.eqb_neq _ _)) by congruence.
Qed.

Lemma upstream_id_drop l i h ps : find_slot l h = Some i -> ps <> h -> upstream_id (<[i := None]> l) ps = upstream_id l ps.
Proof using.
  intros Hi Hne. revert i Hi. induction l as [|[y|] l IH]; intros i; cbn [find_slot]; [done| |].
  - destruct (Z.eqb_spec (pageset_local y) h).
    + intros [= <-]. cbn [insert list_insert]. rewrite !upstream_id_cons. by rewrite (proj2 (Z.eqb_neq (pageset_local y) ps)) by congruence.
    + destruct (find_slot l h) as [j|]; [|done]. intros [= <-]. cbn [insert list_insert]. rewrite !upstream_id_cons. destruct (pageset_local y =? ps); [done|]. by apply IH.
  - destruct (find_slot l h) as [j|]; [|done]. intros [= <-]. cbn [insert list_insert]. rewrite !upstream_id_cons. by apply IH.
Qed.

Lemma find_slot_some l ps i : find_slot l ps = Some i -> exists x, l !! i = Some (Some x).
Proof.
  revert i. induction l as [|[x|] l IH]; intros i; cbn; [done| |].
  - destruct (pageset_local x =? ps); [intros [= <-]; by exists x|]. destruct (find_slot l ps) as [j|]; [|done]. intros [= <-]. by apply IH.
  - destruct (find_slot l ps) as [j|]; [|done]. intros [= <-]. by apply IH.
Qed.

(** The operations upstream that the engine's read and write are. *)
Definition io_op (cmd : Z) (op : (list Msg * U) -> Z -> Z -> Z -> result unit BlockError * (list Msg * U)) : Prop :=
  forall u s n id, (op u s n id).2.1 = u.1 ++ [mkMsg cmd s n id].

Lemma client_read_op : io_op CMD_READ client_read.
Proof using. intros u s n id. unfold client_read. rewrite <- (call_log u). by destruct (call u _) as [? ?]. Qed.

Lemma client_write_op : io_op CMD_WRITE client_write.
Proof using. intros u s n id. unfold client_write. rewrite <- (call_log u). by destruct (call u _) as [? ?]. Qed.

(** The driver's replies to reads, writes and frees bring no handles. *)
Lemma call_keeps (u : list Msg * U) m : m0 m <> CMD_ALLOC_BUFFER -> handles (call u m).2.2 = handles u.2.
Proof using TL.
  intros Hm. cbn [call Logged]. destruct (call u.2 m) as [r u'] eqn:E. apply (tl_call (TransportLaws := TL)) in E. rewrite (proj2 (Z.eqb_neq _ _) Hm) in E. cbn [andb] in E. by destruct r.
Qed.

Definition io_keeps (op : (list Msg * U) -> Z -> Z -> Z -> result unit BlockError * (list Msg * U)) : Prop := forall u s n id, handles (op u s n id).2.2 = handles u.2.

Lemma client_read_keeps : io_keeps client_read.
Proof using TL. intros u s n id. unfold client_read. rewrite <- (call_keeps u (mkMsg CMD_READ s n id)) by done. by destruct (call u _). Qed.

Lemma client_write_keeps : io_keeps client_write.
Proof using TL. intros u s n id. unfold client_write. rewrite <- (call_keeps u (mkMsg CMD_WRITE s n id)) by done. by destruct (call u _). Qed.

Lemma pe_io_ok cmd op start count e s n h : io_op cmd op -> io_keeps op -> 0 <= s -> engine_ok start count e ->
  exists r e', pe_io op e s n h = Ret (r, e') /\ engine_ok start count e' /\ buf_map e' = buf_map e /\ held e' = held e.
Proof using.
  intros Hop Hk Hs EO. pose proof EO as [[E1 E2] Hl]. unfold pe_io, checked_add64. destruct (Z.leb_spec (s + n) U64_MAX); [|by eexists _, _]. rewrite E1, E2. destruct (Z.ltb_spec count (s + n)); [by eexists _, _|].
  destruct (find_slot (buf_map e) h) as [idx|] eqn:Ef; [|by eexists _, _]. apply find_slot_some in Ef as [x Hx]. rewrite Hx. cbn [mjoin option_join unwrap]. rewrite bind_Ret.
  destruct (start + s <=? U64_MAX); [|by eexists _, _]. pose proof (Hop (upstream e) (start + s) n (upstream_buffer_id x)) as Ho. pose proof (Hk (upstream e) (start + s) n (upstream_buffer_id x)) as Hh. destruct (op _ _ _ _) as [r u]. cbn [snd] in Ho, Hh.
  eexists _, _. split; [reflexivity|]. split; [|done]. constructor; cbn [with_upstream pe_start pe_count upstream]; [done|]. rewrite Ho. apply Forall_app. split; [done|]. constructor; [|constructor]. intros _. cbn. lia.
Qed.

(** An allocation adds an entry for a handle that is new. *)
Lemma pe_alloc_ok start count e n : engine_ok start count e ->
  let '(r, e') := pe_alloc_buffer e n in engine_ok start count e' /\
  match r with
  | Ok ps => ps ∉ held e /\ held e' = {[ps]} ∪ held e /\ forall h, h <> ps -> upstream_id (buf_map e') h = upstream_id (buf_map e) h
  | Err _ => held e' = held e /\ buf_map e' = buf_map e
  end.
Proof using TL.
  intros EO. pose proof EO as [Hp Hl]. unfold pe_alloc_buffer, client_alloc_buffer. destruct (free_slot (buf_map e)) as [i|] eqn:Ei; [|done].
  cbn [call Logged]. destruct (call (upstream e).2 (mkMsg CMD_ALLOC_BUFFER n 0 0)) as [r u] eqn:Ec. apply (tl_call (TransportLaws := TL)) in Ec. cbn [m0] in Ec. rewrite Z.eqb_refl in Ec. cbn [andb] in Ec.
  assert (Hf : Forall (confined start count) ((upstream e).1 ++ [mkMsg CMD_ALLOC_BUFFER n 0 0])) by (apply Forall_app; split; [done|]; constructor; [|constructor]; by intros [?|?]).
  destruct r as [m|]; [|split; [by constructor|done]]. unfold decode_status. destruct (Z.eqb_spec (m0 m) BLK_OK).
  - destruct Ec as [H1 H2]. split; [by constructor|]. split; [done|]. split; [done|]. intros h Hh. cbn [buf_map]. by apply upstream_id_put.
  - assert (Hd : exists x, (if m0 m =? BLK_ERR_IO then Err IoError else if m0 m =? BLK_ERR_UNSUPPORTED then Err Unsupported else if m0 m =? BLK_ERR_INVALID then Err InvalidParameter else
      if m0 m =? BLK_ERR_ALLOC then Err AllocFailed else Err (A := unit) InvalidParameter) = Err x) by (repeat case_match; by eexists).
    destruct Hd as [x ->]. split; [by constructor|done].
Qed.

(** A free takes the entry of its handle and the handle away. *)
Lemma pe_free_ok start count e h : engine_ok start count e -> exists e', pe_free_buffer e h = Ret e' /\ engine_ok start count e' /\
  (forall h', h' <> h -> h' ∈ held e -> h' ∈ held e') /\ forall h', h' <> h -> upstream_id (buf_map e') h' = upstream_id (buf_map e) h'.
Proof using TL.
  intros EO. pose proof EO as [Hp Hl]. unfold pe_free_buffer. destruct (find_slot (buf_map e) h) as [idx|] eqn:Ef; [|by eexists]. pose proof (find_slot_local _ _ _ Ef) as (x & Hx & Ex). rewrite Hx. cbn [mjoin option_join unwrap]. rewrite bind_Ret.
  unfold client_free_buffer. pose proof (call_log (upstream e) (mkMsg CMD_FREE_BUFFER (upstream_buffer_id x) 0 0)) as Hc. pose proof (call_keeps (upstream e) (mkMsg CMD_FREE_BUFFER (upstream_buffer_id x) 0 0) ltac:(done)) as Hk.
  destruct (call (upstream e) _) as [r u]. cbn [snd] in Hc, Hk. eexists. split; [reflexivity|]. split; [|split].
  - constructor; cbn [pe_start pe_count upstream close_handle Logged fst]; [done|]. rewrite Hc. apply Forall_app. split; [done|]. constructor; [|constructor]. by intros [?|?].
  - intros h' Hne Hh. cbn [upstream close_handle Logged snd]. rewrite (tl_close (TransportLaws := TL)), Hk, Ex, elem_of_difference, elem_of_singleton. done.
  - intros h' Hne. cbn [buf_map]. by apply upstream_id_drop with h.
Qed.

(** The requests of a client change nothing of what another's buffer ids stand for. *)
Definition others_buffers (caller : Z) (b b' : BufferTracker) : Prop := forall id c, c <> caller -> translate b' id c = translate b id c.

Lemma find_buffer_free l i caller s id c : free_slot l = Some i -> caller_token s = caller -> c <> caller -> snd <$> find_buffer (<[i := Some s]> l) id c = snd <$> find_buffer l id c.
Proof.
  intros Hi Ht Hc. revert i Hi. induction l as [|[x|] l IH]; intros i; cbn; [done| |].
  - destruct (free_slot l) as [j|]; [|done]. intros [= <-]. cbn. destruct (_ && _); [done|]. specialize (IH j eq_refl). destruct (find_buffer _ id c), (find_buffer l id c); cbn in *; congruence.
  - intros [= <-]. cbn. rewrite Ht, (proj2 (Z.eqb_neq caller c)), andb_false_r by congruence. done.
Qed.

Lemma find_buffer_some l id c i s : find_buffer l id c = Some (i, s) -> l !! i = Some (Some s) /\ caller_token s = c.
Proof.
  revert i. induction l as [|[x|] l IH]; intros i; cbn; [done| |].
  - destruct (Z.eqb_spec (buffer_id x) id), (Z.eqb_spec (caller_token x) c); cbn; [intros [= <- <-]; done|..]; (destruct (find_buffer l id c) as [[j s']|]; [|done]); intros [= <- <-]; by apply IH.
  - destruct (find_buffer l id c) as [[j s']|]; [|done]. intros [= <- <-]. by apply IH.
Qed.

Lemma find_buffer_removed l i caller s id c : l !! i = Some (Some s) -> caller_token s = caller -> c <> caller -> snd <$> find_buffer (<[i := None]> l) id c = snd <$> find_buffer l id c.
Proof.
  intros Hi Ht Hc. revert i Hi. induction l as [|[x|] l IH]; intros [|i]; cbn; try done.
  - intros [= ->]. rewrite Ht, (proj2 (Z.eqb_neq caller c)), andb_false_r by congruence. done.
  - intros Hi. destruct (_ && _); [done|]. specialize (IH i Hi). destruct (find_buffer _ id c), (find_buffer l id c); cbn in *; congruence.
  - intros Hi. specialize (IH i Hi). destruct (find_buffer _ id c), (find_buffer l id c); cbn in *; congruence.
Qed.

Lemma translate_snd b id c : translate b id c = engine_handle <$> (snd <$> find_buffer (slots b) id c).
Proof. unfold translate. by destruct (find_buffer _ _ _). Qed.

Lemma track_others b caller h : others_buffers caller b (track b caller h).2.
Proof.
  intros id c Hc. unfold track. destruct (free_slot (slots b)) as [i|] eqn:E; [|done]. cbn [snd]. rewrite !translate_snd. cbn [slots]. by rewrite (find_buffer_free _ _ caller).
Qed.

Lemma remove_others b id0 caller : others_buffers caller b (remove b id0 caller).2.
Proof.
  intros id c Hc. unfold remove. destruct (find_buffer (slots b) id0 caller) as [[i s]|] eqn:E; [|done]. apply find_buffer_some in E as [Hi Ht]. cbn [snd]. rewrite !translate_snd. cbn [slots]. by rewrite (find_buffer_removed _ _ caller s).
Qed.

Lemma tracked_translate b id c h : translate b id c = Some h -> h ∈ tracked b.
Proof using.
  unfold translate, tracked. destruct (find_buffer (slots b) id c) as [[i s]|] eqn:E; [|done]. intros [= <-]. apply find_buffer_some in E as [Hi _]. apply list_elem_of_omap. exists (Some s). split; [by eapply list_elem_of_lookup_2|done].
Qed.

Lemma track_tracked b caller ps : match track b caller ps with (Some _, b') => tracked b' ≡ₚ ps :: tracked b | (None, b') => b' = b end.
Proof using.
  unfold track. destruct (free_slot (slots b)) as [i|] eqn:E; [|done]. unfold tracked. cbn [slots]. revert i E. induction (slots b) as [|[x|] l IH]; intros i; cbn [free_slot]; [done| |].
  - destruct (free_slot l) as [j|]; [|done]. intros [= <-]. cbn. etrans; [apply Permutation_skip, (IH j eq_refl)|apply perm_swap].
  - intros [= <-]. cbn. done.
Qed.

(** The buffer that was tracked last is the one its id names. *)
Lemma remove_back b caller ps id b1 : (forall s, Some s ∈ slots b -> buffer_id s < next_id b) -> track b caller ps = (Some id, b1) -> slots (remove b1 id caller).2 = slots b /\ next_id (remove b1 id caller).2 = wrap 32 (next_id b + 1).
Proof using.
  intros Hid. unfold track. destruct (free_slot (slots b)) as [i|] eqn:E; [|done]. intros [= <- <-].
  assert (Hf : find_buffer (<[i := Some (mkSlot (next_id b) caller ps)]> (slots b)) (next_id b) caller = Some (i, mkSlot (next_id b) caller ps) /\ slots b !! i = Some None).
  { revert i E. set (nx := next_id b) in *. clearbody nx. induction (slots b) as [|[x|] l IH]; intros i; cbn [free_slot]; [done| |].
    - destruct (free_slot l) as [j|]; [|done]. intros [= <-]. cbn. assert (buffer_id x < nx) by (apply Hid; by left). rewrite (proj2 (Z.eqb_neq (buffer_id x) nx)) by lia. cbn.
      destruct (IH ltac:(intros s Hs; apply Hid; by right) j eq_refl) as [E1 ?]. split; [exact (f_equal (fmap (M := option) (fun x => (S x.1, x.2))) E1)|done].
    - intros [= <-]. cbn. by rewrite !Z.eqb_refl. }
  destruct Hf as [Hf Hn]. unfold remove. cbn [slots next_id]. rewrite Hf. cbn [snd slots next_id]. rewrite list_insert_insert_eq. split; [by apply list_insert_id|done].
Qed.

Lemma track_ids b caller ps id b1 : (forall s, Some s ∈ slots b -> buffer_id s < next_id b) -> 0 <= next_id b < 2 ^ 32 - 1 -> track b caller ps = (Some id, b1) ->
  next_id b1 = next_id b + 1 /\ forall s, Some s ∈ slots b1 -> buffer_id s < next_id b1.
Proof using.
  intros Hid Hn. unfold track. destruct (free_slot (slots b)) as [i|] eqn:E; [|done]. intros [= <- <-]. cbn [slots next_id]. assert (Ew : wrap 32 (next_id b + 1) = next_id b + 1) by (unfold wrap; apply Z.mod_small; lia). rewrite Ew. split; [done|].
  intros s [j Hj]%list_elem_of_lookup. apply list_lookup_insert_Some in Hj as [(_ & [= <-] & _)|[_ Hj]]; [cbn; lia|]. apply list_elem_of_lookup_2 in Hj. specialize (Hid s Hj). lia.
Qed.

Lemma remove_ids b id caller : (forall s, Some s ∈ slots b -> buffer_id s < next_id b) -> next_id (remove b id caller).2 = next_id b /\ forall s, Some s ∈ slots (remove b id caller).2 -> buffer_id s < next_id (remove b id caller).2.
Proof using.
  intros Hid. unfold remove. destruct (find_buffer (slots b) id caller) as [[i x]|]; [|done]. cbn [snd next_id slots]. split; [done|].
  intros s [j Hj]%list_elem_of_lookup. apply list_lookup_insert_Some in Hj as [(_ & [=] & _)|[_ Hj]]. apply Hid. by eapply list_elem_of_lookup_2.
Qed.

Lemma remove_tracked b id caller : match remove b id caller with (Some h, b') => h :: tracked b' ≡ₚ tracked b | (None, b') => b' = b end.
Proof using.
  unfold remove. destruct (find_buffer (slots b) id caller) as [[i s]|] eqn:E; [|done]. apply find_buffer_some in E as [Hi _]. unfold tracked. cbn [slots]. revert i Hi. induction (slots b) as [|[x|] l IH]; intros [|i]; cbn; try done.
  - by intros [= ->].
  - intros Hi. etrans; [apply perm_swap|]. apply Permutation_skip, (IH i Hi).
  - intros Hi. apply (IH i Hi).
Qed.

(** A step keeps the buffers of the other clients, and counts at most one id. *)
Record step_ok (caller : Z) (e : Engine) (b : BufferTracker) (e' : Engine) (b' : BufferTracker) : Prop := {
  st_buffers : buffers_ok e' b';
  st_others : forall id c, c <> caller -> buffer_of e' b' id c = buffer_of e b id c;
  st_next : next_id b <= next_id b' <= next_id b + 1;
}.

Lemma step_same caller e b e' : buffers_ok e b -> buf_map e' = buf_map e -> held e' = held e -> step_ok caller e b e' b.
Proof using.
  intros [B1 B2 B3] Hm Hh. constructor; [constructor; [done|by rewrite Hh|done]| |lia]. intros id c Hc. unfold buffer_of. by rewrite Hm.
Qed.

(** A freed buffer is no other client's. *)
Lemma step_free start count caller e0 e b b1 h : engine_ok start count e -> h ∉ tracked b1 -> buffers_ok e b1 -> (forall id c, c <> caller -> buffer_of e b1 id c = buffer_of e0 b id c) -> next_id b <= next_id b1 <= next_id b + 1 ->
  exists e', pe_free_buffer e h = Ret e' /\ engine_ok start count e' /\ step_ok caller e0 b e' b1.
Proof using TL.
  intros EO Hni [B1 B2 B3] Ho Hn. destruct (pe_free_ok start count e h EO) as (e' & E & EO' & K1 & K2). exists e'. split; [done|]. split; [done|].
  assert (Hne : forall x, x ∈ tracked b1 -> x <> h) by (intros x Hx ->; done). constructor; [constructor; [done| |done]; intros x Hx; apply K1; [by apply Hne|by apply B2]| |done].
  intros id c Hc. rewrite <- (Ho id c Hc). unfold buffer_of. destruct (translate b1 id c) as [x|] eqn:Et; [|done]. cbn. rewrite K2; [done|]. by apply Hne, (tracked_translate _ id c).
Qed.

Lemma alloc_serve_ok start count e b caller m : engine_ok start count e -> buffers_ok e b -> 0 <= next_id b < 2 ^ 32 - 1 -> m0 m = CMD_ALLOC_BUFFER ->
  exists r e' b', block_serve pe_export e b caller m = Ret (r, e', b') /\ engine_ok start count e' /\ step_ok caller e b e' b'.
Proof using TL.
  intros EO BO Hnx Hm. unfold block_serve. rewrite Hm. change (CMD_ALLOC_BUFFER =? CMD_GET_INFO) with false. rewrite Z.eqb_refl. cbv iota. cbn [eng_alloc_buffer eng_free_buffer PartitionEngine].
  pose proof (pe_alloc_ok start count e (m1 m) EO) as Ha. destruct (pe_alloc_buffer e (m1 m)) as [[ps|err] e1]; destruct Ha as [EO1 Ha].
  2:{ destruct Ha as [Hh Hb]. eexists _, _, _. split; [reflexivity|]. split; [done|]. by apply step_same. }
  destruct Ha as (Hnew & Hh & Hid). destruct BO as [B1 B2 B3]. assert (Hps : ps ∉ tracked b) by (intros Hx; by apply Hnew, B2).
  assert (Hne : forall x, x ∈ tracked b -> x <> ps) by (by intros x Hx ->). assert (Hheld : forall x, x ∈ ps :: tracked b -> x ∈ held e1) by (intros x [->|Hx]%elem_of_cons; rewrite Hh, elem_of_union, elem_of_singleton; auto).
  assert (Hsame : forall id c, buffer_of e1 b id c = buffer_of e b id c) by (intros id c; unfold buffer_of; destruct (translate b id c) as [x|] eqn:Et; [|done]; cbn; rewrite Hid; [done|]; by apply Hne, (tracked_translate _ id c)).
  pose proof (track_others b caller ps) as To. pose proof (track_tracked b caller ps) as Tt. destruct (track b caller ps) as [[id|] b1] eqn:Etr; cbn [snd] in To.
  - destruct (track_ids _ _ _ _ _ B3 Hnx Etr) as [Hn1 Hi1].
    unfold pe_export. cbn [export_handle Logged]. destruct (export_handle (upstream e1).2 ps) as [x u] eqn:Ex. pose proof (tl_export (TransportLaws := TL) (upstream e1).2 ps) as Hx. rewrite Ex in Hx. cbn [snd] in Hx.
    set (e2 := with_upstream e1 ((upstream e1).1, u)). assert (EO2 : engine_ok start count e2) by (by destruct EO1). assert (Hh2 : held e2 = held e1) by exact Hx. destruct x as [idx|].
    + eexists _, _, _. split; [reflexivity|]. split; [done|]. constructor; [constructor; [rewrite Tt; by apply NoDup_cons| |done]|intros id' c Hc|lia].
      * intros y. rewrite Tt, Hh2. apply Hheld.
      * rewrite <- (Hsame id' c). unfold buffer_of. by rewrite (To id' c Hc).
    + destruct (remove_back b caller ps id b1 B3 Etr) as [Hsl Hnx2]. set (b2 := (remove b1 id caller).2) in *. assert (Ht2 : tracked b2 = tracked b) by (unfold tracked; by rewrite Hsl).
      assert (Ew : wrap 32 (next_id b + 1) = next_id b + 1) by (unfold wrap; apply Z.mod_small; lia).
      destruct (step_free start count caller e e2 b b2 ps EO2) as (e3 & -> & EO3 & S3); [by rewrite Ht2| | |lia|rewrite bind_Ret; by eexists _, _, _].
      * constructor; [by rewrite Ht2|intros y; rewrite Ht2, Hh2; intros Hy; apply Hheld; by right|]. intros s. rewrite Hsl, Hnx2, Ew. intros Hs. specialize (B3 s Hs). lia.
      * intros id' c _. rewrite <- (Hsame id' c). unfold buffer_of, translate. by rewrite Hsl.
  - subst b1. destruct (step_free start count caller e e1 b b ps EO1) as (e3 & -> & EO3 & S3); [done| |done|lia|rewrite bind_Ret; by eexists _, _, _].
    constructor; [done|intros y Hy; apply Hheld; by right|done].
Qed.

Lemma block_serve_ok start count e b caller m : engine_ok start count e -> buffers_ok e b -> 0 <= next_id b < 2 ^ 32 - 1 -> 0 <= m1 m ->
  exists r e' b', block_serve pe_export e b caller m = Ret (r, e', b') /\ engine_ok start count e' /\ step_ok caller e b e' b'.
Proof using TL.
  intros EO BO Hnx Hm. destruct (decide (m0 m = CMD_ALLOC_BUFFER)) as [Ha|Ha]; [by apply alloc_serve_ok|].
  assert (Hsame : step_ok caller e b e b) by (by apply step_same). unfold block_serve. rewrite (proj2 (Z.eqb_neq _ _) Ha). cbn [eng_info eng_read eng_write eng_free_buffer PartitionEngine].
  destruct (m0 m =? CMD_GET_INFO); [by eexists _, _, _|]. destruct (m0 m =? CMD_READ).
  { destruct (translate b _ caller) as [h|]; [|by eexists _, _, _]. destruct (pe_io_ok _ _ start count e (m1 m) (m2 m) h client_read_op client_read_keeps Hm EO) as (r & e1 & E & EO1 & ? & ?). unfold pe_read. rewrite E, bind_Ret. eexists _, _, _. split; [reflexivity|]. split; [done|]. by apply step_same. }
  destruct (m0 m =? CMD_WRITE).
  { destruct (translate b _ caller) as [h|]; [|by eexists _, _, _]. destruct (pe_io_ok _ _ start count e (m1 m) (m2 m) h client_write_op client_write_keeps Hm EO) as (r & e1 & E & EO1 & ? & ?). unfold pe_write. rewrite E, bind_Ret. eexists _, _, _. split; [reflexivity|]. split; [done|]. by apply step_same. }
  destruct (m0 m =? CMD_FREE_BUFFER); [|by eexists _, _, _]. destruct BO as [B1 B2 B3].
  pose proof (remove_others b (wrap 32 (m1 m)) caller) as Ro. pose proof (remove_tracked b (wrap 32 (m1 m)) caller) as Rt. destruct (remove_ids b (wrap 32 (m1 m)) caller B3) as [Rn Ri].
  destruct (remove b _ caller) as [[ps|] b1]; cbn [snd] in *; [|subst b1; by eexists _, _, _]. rewrite <- Rt in B1. apply NoDup_cons in B1 as [Hni Hnd].
  destruct (step_free start count caller e e b b1 ps EO Hni) as (e2 & -> & EO2 & S2); [|intros id c Hc; unfold buffer_of; by rewrite (Ro id c Hc)|lia|rewrite bind_Ret; by eexists _, _, _].
  constructor; [done|intros h Hh; apply B2; rewrite <- Rt; by right|done].
Qed.

(** Messages, each with its sender's token, in the order the server receives them. *)
Fixpoint block_run (e : Engine) (b : BufferTracker) (ms : list (Z * Msg)) : outcome (list Msg * Engine * BufferTracker) :=
  match ms with
  | [] => Ret ([], e, b)
  | (caller, m) :: ms' =>
      x ← block_serve pe_export e b caller m;
      let '(r, e, b) := x in
      y ← block_run e b ms';
      let '(rs, e, b) := y in
      Ret (r :: rs, e, b)
  end.

Lemma block_run_ok start count ms : forall e b, engine_ok start count e -> buffers_ok e b -> 0 <= next_id b -> next_id b + Z.of_nat (length ms) < 2 ^ 32 -> Forall (fun x => 0 <= m1 x.2) ms ->
  exists rs e' b', block_run e b ms = Ret (rs, e', b') /\ engine_ok start count e' /\ buffers_ok e' b' /\ next_id b <= next_id b' <= next_id b + Z.of_nat (length ms) /\
    forall c, Forall (fun x => x.1 <> c) ms -> forall id, buffer_of e' b' id c = buffer_of e b id c.
Proof using TL.
  induction ms as [|[caller m] ms IH]; intros e b EO BO Hn Hlt Hm; [eexists _, _, _; split; [reflexivity|]; split; [done|]; split; [done|]; split; [cbn; lia|done]|]. apply Forall_cons in Hm as [Hm Hms]. cbn [block_run length] in *.
  destruct (block_serve_ok start count e b caller m EO BO ltac:(lia) Hm) as (r & e1 & b1 & -> & EO1 & [S1 S2 S3]). rewrite bind_Ret. destruct (IH e1 b1 EO1 S1 ltac:(lia) ltac:(lia) Hms) as (rs & e' & b' & -> & EO' & BO' & Hn' & Hc). rewrite bind_Ret.
  eexists _, _, _. split; [reflexivity|]. split; [done|]. split; [done|]. split; [lia|]. intros c [Hne Hns]%Forall_cons id. cbn [fst] in Hne. rewrite (Hc c Hns id). apply S2. congruence.
Qed.

Lemma new_buffers_ok e : buffers_ok e new_tracker.
Proof using. constructor; [constructor|by intros h ?%not_elem_of_nil|]. intros s Hs. apply elem_of_replicate in Hs as [? _]. done. Qed.

(** Different clients have different PageSets. *)
Lemma find_buffer_apart l : NoDup (omap (fmap engine_handle) l) -> forall id c i s id' c' i' s', find_buffer l id c = Some (i, s) -> find_buffer l id' c' = Some (i', s') -> engine_handle s = engine_handle s' -> c = c'.
Proof using.
  intros Hn id c i s id' c' i' s' H H' E. apply find_buffer_some in H as [Hi <-]. apply find_buffer_some in H' as [Hi' <-]. destruct (decide (i = i')) as [->|Hne]; [congruence|]. exfalso.
  revert i i' Hi Hi' Hne. induction l as [|[x|] l IH]; intros [|i] [|i']; cbn in *; try done.
  - intros [= ->] Hi' _. apply NoDup_cons in Hn as [Hx _]. apply Hx. rewrite E. apply list_elem_of_omap. exists (Some s'). split; [by eapply list_elem_of_lookup_2|done].
  - intros Hi [= ->] _. apply NoDup_cons in Hn as [Hx _]. apply Hx. rewrite <- E. apply list_elem_of_omap. exists (Some s). split; [by eapply list_elem_of_lookup_2|done].
  - intros Hi Hi' Hne. apply NoDup_cons in Hn as [_ Hn]. apply (IH Hn i i' Hi Hi'). congruence.
  - intros Hi Hi' Hne. apply (IH Hn i i' Hi Hi'). congruence.
Qed.

Lemma buffers_apart e b id c h x id' c' x' : buffers_ok e b -> buffer_of e b id c = Some (h, x) -> buffer_of e b id' c' = Some (h, x') -> c = c'.
Proof using.
  intros [B1 _ _]. unfold buffer_of, translate. destruct (find_buffer (slots b) id c) as [[i s]|] eqn:E; [|done]. destruct (find_buffer (slots b) id' c') as [[i' s']|] eqn:E'; [|done].
  cbn. intros [= <- _] [= Eh _]. by eapply find_buffer_apart.
Qed.
End Confined.
(** * A partition as a disk *)

(** What the engine's read leaves in the buffer, over the device's. *)
Definition partition_device (up : BlockDevice) (start count : Z) : BlockDevice := fun s n =>
  match checked_add64 s n with
  | Some e => if count <? e then None else match checked_add64 start s with Some u => @blk_read up u n | None => None end
  | None => None
  end.

(** A partition of a disk is a disk, with the sectors of the partition. *)
Lemma partition_disk up sector start count : 0 <= start -> Disk up sector -> Disk (partition_device up start count) (fun s => sector (start + s)).
Proof.
  intros Hst D. constructor.
  - intros s. apply (disk_sector (B := up) (sector := sector)).
  - intros s n l Hs Hn. unfold blk_read, partition_device, checked_add64. destruct (s + n <=? U64_MAX); [|done]. destruct (count <? s + n); [done|]. destruct (start + s <=? U64_MAX); [|done].
    intros Hr. apply (disk_read (B := up) (sector := sector)) in Hr; [|lia..]. rewrite Hr. f_equal. apply list_eq. intros i. rewrite !list_lookup_fmap.
    destruct (decide (Z.of_nat i < n)); [rewrite !lookup_seqZ_lt by lia|rewrite !lookup_seqZ_ge by lia; done]. cbn. f_equal. f_equal. lia.
Qed.
