(* ===== verification/Storage.v ===== *)
(** The theorems on the storage stack (the FAT32 server, its format, the block
    layer and partitions), with an example volume. *)
From Stdlib Require Import ZArith Lia.
From stdpp Require Import base option gmap numbers sets fin_sets list.
From S2P Require Import Prelude Bytes Block BlockSafe Fat32 FatServer FatVolume FatSafe.
Open Scope Z_scope.

(** * The requests of a client *)

Lemma le_from_bytes l : bytes l -> le_bytes (length l) (from_le_bytes l) = l.
Proof.
  induction 1 as [|b l Hb Hl IH]; [done|]. cbn [length le_bytes from_le_bytes foldr]. fold (from_le_bytes l). unfold is_byte in Hb.
  rewrite Z.mul_comm, Z.mod_add, Z.mod_small by lia. rewrite Z.div_add, Z.div_small, Z.add_0_l by lia. by rewrite IH.
Qed.

Lemma pack_open_spec n pages : 0 <= n < 256 -> 0 <= pages < 256 ->
  let h := pack_open_header n pages in Z.shiftr h 16 = 0 /\ wrap 8 (Z.land h 0xFF) = n /\ wrap 8 (Z.land (Z.shiftr h 8) 0xFF) = pages /\ 0 <= h.
Proof.
  intros Hn Hp h. assert (Eh : h = pages * 256 + n).
  { unfold h, pack_open_header. rewrite Z.shiftl_mul_pow2 by lia. change (2 ^ 8) with 256. symmetry. apply Z.add_nocarry_lor. apply Z.bits_inj'. intros i Hi. rewrite Z.land_spec, Z.bits_0.
    destruct (Z.lt_ge_cases i 8); [change 256 with (2 ^ 8); rewrite Z.mul_pow2_bits_low by lia; done|].
    destruct (decide (n = 0)) as [->|]; [rewrite Z.bits_0; apply andb_false_r|]. rewrite (Z.bits_above_log2 n i); [apply andb_false_r|lia|]. eapply Z.lt_le_trans; [apply (Z.log2_lt_pow2 n 8); lia|done]. }
  rewrite Eh, !Z.shiftr_div_pow2 by lia. change (2 ^ 16) with 65536. change (2 ^ 8) with 256. change 0xFF with (Z.ones 8). rewrite !Z.land_ones by lia. unfold wrap. change (2 ^ 8) with 256.
  split_and!; [apply Z.div_small; lia| | |lia].
  - rewrite Zmod_mod, Z.add_comm, Z.mod_add, Z.mod_small by lia. done.
  - rewrite Zmod_mod, Z.add_comm, Z.div_add, Z.div_small, Z.add_0_l, Z.mod_small by lia. done.
Qed.

(** The path the client packs. *)
Lemma pack_path_spec path : bytes path -> len path <= 16 -> let '(lo, hi) := pack_path path in le_bytes 8 lo ++ le_bytes 8 hi = path ++ replicate (16 - length path) 0.
Proof.
  intros Hb Hl. unfold pack_path, len in *. rewrite Z.min_l by (unfold FS_MAX_INLINE_PATH; lia). rewrite Nat2Z.id, (take_ge path) by lia. set (buf := path ++ replicate (16 - length path) 0).
  assert (Hbuf : length buf = 16%nat) by (subst buf; rewrite length_app, length_replicate; lia).
  assert (Hbb : bytes buf) by (apply Forall_app; split; [done|]; apply Forall_replicate; unfold is_byte; lia).
  assert (H1 : length (slice buf 0 8) = 8%nat) by (pose proof (slice_length buf 0 8); unfold len in *; lia). assert (H2 : length (slice buf 8 8) = 8%nat) by (pose proof (slice_length buf 8 8); unfold len in *; lia).
  assert (H8 : forall l, length l = 8%nat -> bytes l -> le_bytes 8 (from_le_bytes l) = l) by (intros l <-; apply le_from_bytes).
  rewrite !H8 by (done || by apply slice_bytes). unfold slice. change (Z.to_nat 0) with 0%nat. change (Z.to_nat 8) with 8%nat. rewrite drop_0.
  rewrite <- (take_drop 8 buf) at 3. f_equal. apply take_ge. rewrite length_drop. lia.
Qed.

(** What FsClient::open packs for a path of 1 to 16 bytes and a buffer of 1 to 8
    pages, dispatch takes apart into an open of exactly that path. *)
Lemma open_request_spec path pages : bytes path -> 0 < len path <= 16 -> 0 < pages <= 8 -> let '(lo, hi) := pack_path path in
  exists buf, dispatch (mkReq FS_OPEN (pack_open_header (len path) pages) lo hi) = Open buf (len path) pages /\ slice buf 0 (len path) = path.
Proof.
  intros Hb Hl Hp. pose proof (pack_path_spec path Hb ltac:(lia)) as Hpk. destruct (pack_path path) as [lo hi]. destruct (pack_open_spec (len path) pages ltac:(lia) ltac:(lia)) as (E1 & E2 & E3 & _).
  unfold dispatch, decode_open. cbn [cmd arg1 arg2 arg3]. change (FS_OPEN =? FS_OPEN) with true. cbn iota. rewrite E1, E2, E3. cbn [Z.eqb negb]. unfold FS_MAX_INLINE_PATH, FS_MAX_BUFFER_PAGES.
  destruct (Z.eqb_spec (len path) 0); [lia|]. destruct (Z.ltb_spec 16 (len path)); [lia|]. destruct (Z.eqb_spec pages 0); [lia|]. destruct (Z.ltb_spec 8 pages); [lia|]. cbn [orb].
  eexists. split; [reflexivity|]. rewrite Hpk. unfold slice, len. rewrite Nat2Z.id. change (Z.to_nat 0) with 0%nat. by rewrite drop_0, take_app_length.
Qed.

(** * An example volume *)

(** Clusters of one sector: the root directory on cluster 2 with HELLO.TXT, whose
    700 bytes are on clusters 3 and 4, and the directory LOOP on cluster 5,
    which the FAT links to [n5]. The chain of clusters 6 and 7 has an end marker
    first and an entry after it. *)
Definition sx_pad (n : nat) (l : list Z) : list Z := l ++ replicate (n - length l) 0.
Definition sx_bpb : list Z :=
  sx_pad 11 [] ++ le_bytes 2 512 ++ [1] ++ le_bytes 2 32 ++ [2] ++ le_bytes 2 0 ++ le_bytes 2 0 ++ [0] ++ le_bytes 2 0 ++ sx_pad 8 [] ++
  le_bytes 4 70000 ++ le_bytes 4 560 ++ le_bytes 4 0 ++ le_bytes 4 2 ++ sx_pad 34 [] ++ FAT32_TYPE ++ sx_pad 420 [] ++ [0x55; 0xAA].
Definition sx_entry (nm : list Z) (attr cluster size : Z) : list Z := nm ++ [attr] ++ sx_pad 8 [] ++ le_bytes 2 (cluster / 65536) ++ sx_pad 4 [] ++ le_bytes 2 (cluster mod 65536) ++ le_bytes 4 size.
Definition sx_hello : list Z := [72; 69; 76; 76; 79; 32; 32; 32; 84; 88; 84].
Definition sx_loop : list Z := [76; 79; 79; 80; 32; 32; 32; 32; 32; 32; 32].
Definition sx_fat (n5 : Z) : list Z := sx_pad 512 (concat (le_bytes 4 <$> [0; 0; 0x0FFFFFF8; 4; 0x0FFFFFF8; n5; 7; 0x0FFFFFF8])).
Definition sx_sector (n5 s : Z) : list Z :=
  if s =? 0 then sx_bpb
  else if s =? 32 then sx_fat n5
  else if s =? 1152 then sx_pad 512 (sx_entry sx_hello 32 3 700 ++ sx_entry sx_loop 16 5 0)
  else if s =? 1153 then replicate 512 65
  else if s =? 1154 then replicate 512 66
  else if s =? 1157 then sx_pad 512 (sx_entry sx_hello 32 4 100)
  else replicate 512 0.
Definition sx_device (n5 : Z) : BlockDevice := fun s n => if (0 <=? s) && (0 <=? n) && (s + n <=? 70000) then Some (concat (sx_sector n5 <$> seqZ s n)) else None.
Definition sx_end : Z := 0x0FFFFFF8.
Definition sx_geom : Fat32Geometry := mkGeom 512 1 2 32 560 1152 2 70000.

Lemma sx_bpb_bytes : len sx_bpb = 512 /\ bytes sx_bpb.
Proof. split; [by vm_compute|]. unfold bytes. apply (bool_decide_unpack (Forall (fun b => 0 <= b < 256) sx_bpb)). by vm_compute. Qed.

Lemma sx_parse : parse_bpb sx_bpb = Ret (Ok sx_geom).
Proof. by vm_compute. Qed.

Lemma sx_geom_ok : geom_ok sx_geom.
Proof. destruct sx_bpb_bytes as [H1 H2]. destruct (parse_bpb_spec sx_bpb H1 H2) as (r & E & Hg). rewrite sx_parse in E. injection E as <-. by apply (Hg sx_geom). Qed.

Lemma sx_sector_ok n5 s : len (sx_sector n5 s) = 512 /\ bytes (sx_sector n5 s).
Proof.
  assert (Hd : forall l, (len l =? 512) && forallb (fun b => (0 <=? b) && (b <? 256)) l = true -> len l = 512 /\ bytes l).
  { intros l [E%Z.eqb_eq H]%andb_true_iff. split; [done|]. rewrite forallb_forall in H. apply Forall_forall. intros b Hb. apply list_elem_of_In, H in Hb. unfold is_byte. lia. }
  unfold sx_sector. destruct (s =? 0); [apply Hd; by vm_compute|]. destruct (s =? 32).
  - split; [by vm_compute|]. unfold sx_fat, sx_pad. apply Forall_app. split; [|apply Forall_replicate; unfold is_byte; lia]. apply Forall_concat, Forall_fmap, Forall_forall. intros x _. apply le_bytes_bytes.
  - repeat (case_match; [apply Hd; by vm_compute|]). apply Hd. by vm_compute.
Qed.

Lemma sx_disk n5 : Disk (sx_device n5) (sx_sector n5).
Proof. constructor; [apply sx_sector_ok|]. intros s n l _ _. unfold blk_read, sx_device. case_match; [|done]. by intros [= <-]. Qed.

Lemma sx_serves n5 : @serves (sx_device n5) sx_geom.
Proof. intros s n Hs Hn Ht. cbn in Ht. unfold blk_read, sx_device. rewrite !(proj2 (Z.leb_le _ _)) by lia. by eexists. Qed.

Lemma sx_chain : chain sx_geom (sx_sector sx_end) 3 [3; 4].
Proof. apply (chain_next _ _ 3 4); [apply (bool_decide_unpack _); by vm_compute|by vm_compute|]. apply chain_last; [apply (bool_decide_unpack _); by vm_compute|by vm_compute]. Qed.

Lemma sx_acyclic : acyclic sx_geom (sx_sector sx_end).
Proof.
  intros c. exists 3%nat. destruct (decide (2 <= c < 128)) as [Hc|Hc].
  - assert (Hall : forallb (fun c => bool_decide (iter (fat_link sx_geom (sx_sector sx_end)) 3 c = None)) (seqZ 2 126) = true) by (vm_compute; reflexivity).
    rewrite forallb_forall in Hall. specialize (Hall c). rewrite <- list_elem_of_In, elem_of_seqZ in Hall. apply (bool_decide_unpack _). rewrite Hall by lia. done.
  - assert (Hl : fat_link sx_geom (sx_sector sx_end) c = None); [|cbn [iter]; by rewrite Hl]. unfold fat_link. case_decide as Hd; [|done]. assert (E : fat_entry sx_geom (sx_sector sx_end) c = Free); [|by rewrite E].
    assert (Hcl : clusters sx_geom = 68848) by (by vm_compute). unfold is_data in Hd. assert (1 <= c / 128) by (apply Z.div_le_lower_bound; lia). assert (c / 128 < 600) by (apply Z.div_lt_upper_bound; lia).
    unfold fat_entry, sx_sector, sx_geom. cbn [fat_start_sector]. rewrite !(proj2 (Z.eqb_neq _ _)) by lia. pose proof (Z.mod_pos_bound c 128 ltac:(lia)).
    assert (Hz : slice (replicate 512 0) (4 * (c mod 128)) 4 = replicate 4 0) by (unfold slice; rewrite drop_replicate, take_replicate; f_equal; lia). unfold word_at. by rewrite Hz.
Qed.

(** A platform that never refuses. *)
Definition sx_top (m : gmap Z Z) : Z := map_fold (fun va n a => Z.max a (Z.max (va + 1) (va + n * PAGE_SIZE))) 0 m.
#[local] Instance sx_platform : Platform Res := {
  sys_alloc_pages p _ := let h := fresh (r_handles p) in (Some h, mkRes ({[h]} ∪ r_handles p) (r_vas p) (r_maps p));
  vmem_alloc p n := let va := sx_top (r_vas p) in (Some va, mkRes (r_handles p) (<[va := n]> (r_vas p)) (r_maps p));
  sys_map_pages p h va := (true, mkRes (r_handles p) (r_vas p) (<[va := h]> (r_maps p)));
  sys_close_handle p h := mkRes (r_handles p ∖ {[h]}) (r_vas p) (filter (fun x => x.2 <> h) (r_maps p));
  free_unused_allocation p va _ := mkRes (r_handles p) (delete va (r_vas p)) (r_maps p);
  unmap_pages_tracked p h va _ := if bool_decide (r_maps p !! va = Some h) then (true, mkRes (r_handles p) (r_vas p) (delete va (r_maps p))) else (false, p);
  free_unmapped p va _ := mkRes (r_handles p) (delete va (r_vas p)) (r_maps p);
  sys_export_handle p _ := (Some 1, p);
}.

Lemma sx_top_above m va n : m !! va = Some n -> va + 1 <= sx_top m /\ va + n * PAGE_SIZE <= sx_top m.
Proof.
  unfold sx_top. apply (map_fold_weak_ind (fun a m => m !! va = Some n -> va + 1 <= a /\ va + n * PAGE_SIZE <= a)); [by rewrite lookup_empty|].
  intros i x m' r _ IH [[-> ->]|[_ H]]%lookup_insert_Some; [lia|]. specialize (IH H). lia.
Qed.

Lemma sx_laws : PlatformLaws Res (fun r => r).
Proof.
  constructor.
  - intros p n o p' [= <- <-]. split; [apply is_fresh|done].
  - intros p n o p' [= <- <-]. split; [intros va' n' H; right; apply (sx_top_above _ _ _ H)|]. split; [|done]. destruct (r_vas p !! sx_top (r_vas p)) as [m|] eqn:E; [|done]. apply sx_top_above in E. lia.
  - by intros p h va b p' [= <- <-].
  - intros p h H. cbn. f_equal. apply map_filter_id. intros va h' Hm. cbn. intros ->. by destruct (H va).
  - intros p h va Hm Hu. right. cbn. f_equal. apply map_eq. intros x. apply option_eq. intros h'. rewrite map_lookup_filter_Some, lookup_delete_Some. cbn. split.
    + intros [Hx Hne]. split; [|done]. intros <-. congruence.
    + intros [Hx Hl]. split; [done|]. intros ->. by apply Hx, eq_sym, Hu.
  - intros p va n _ _. by right.
  - intros p h va n H. exists true. eexists. cbn. by rewrite bool_decide_true.
  - intros p va n _ _. by right.
  - by intros p h o p' [= <- <-].
Qed.

Lemma sx_lossless : lossless (fun r : Res => r).
Proof.
  split; [intros p h va n H; cbn; by rewrite bool_decide_true|]. intros p va n _ _. cbn. split; apply lookup_delete_eq.
Qed.

Definition sx_server : Server Res := mkServer _ ∅ new_table (mkRes ∅ ∅ ∅).
Definition sx_path : list Z := [47; 104; 101; 108; 108; 111; 46; 116; 120; 116].
Definition sx_open : FsRequest := let '(lo, hi) := pack_path sx_path in mkReq FS_OPEN (pack_open_header 10 1) lo hi.
Definition sx_serve : Server Res -> Z -> FsRequest -> outcome (Words * Server Res) := @serve (sx_device sx_end) sx_geom Res sx_platform 10.
Definition sx_opened : Server Res := match sx_serve sx_server 5 sx_open with Ret (_, s) => s | Panic _ => sx_server end.

Lemma sx_server_ok : server_ok (fun r => r) (mkRes ∅ ∅ ∅) sx_server.
Proof.
  constructor; [split; [done|]|].
  - intros i f H. cbn [sx_server sv_table] in H. apply lookup_replicate in H as [? _]. done.
  - assert (Hno : forall f, ~ opened new_table f) by (intros f [i H]; apply lookup_replicate in H as [? _]; done). change (sv_table sx_server) with new_table. constructor; cbn [r_handles r_vas r_maps sx_server sv_platform].
    + intros h. split; [by intros ?%not_elem_of_empty|]. intros [?%not_elem_of_empty|(f & Hf & _)]; [done|by destruct (Hno f)].
    + intros va n. split; [by rewrite lookup_empty|]. intros [H|(f & Hf & _)]; [by rewrite lookup_empty in H|by destruct (Hno f)].
    + intros va n. split; [by rewrite lookup_empty|]. intros [H|(f & Hf & _)]; [by rewrite lookup_empty in H|by destruct (Hno f)].
    + intros f Hf. by destruct (Hno f).
    + intros i j f f' H _ _. apply lookup_replicate in H as [? _]. done.
    + intros va h H. by rewrite lookup_empty in H.
    + intros f va n Hf. by destruct (Hno f).
Qed.

Lemma sx_opened_table : sv_table sx_opened = Some (mkOpen 5 3 700 0 0 0 4096 1) :: replicate 7 None.
Proof. vm_compute. reflexivity. Qed.

Lemma sx_opened_ok : table_ok (sv_table sx_opened).
Proof.
  rewrite sx_opened_table. split; [reflexivity|]. intros [|i] f H; [injection H as <-; constructor; cbn; unfold FS_MAX_BUFFER_PAGES, PAGE_SIZE; lia|].
  change (replicate 7 (@None OpenFile) !! i = Some (Some f)) in H. apply lookup_replicate in H as [? _]. discriminate.
Qed.

(** * Theorems *)

(** C23: The geometry of a FAT32 volume is sound. parse_bpb panics on no sector, and
    it accepts a sector exactly when its fields describe a volume whose reserved
    sectors, FATs and data clusters fit in this order, whose first FAT has an
    entry for every cluster and whose root is a data cluster. With the geometry it
    returns, no cluster number makes the arithmetic overflow: a data cluster's
    sectors lie inside the data region and inside the volume and are no other
    cluster's, other numbers are refused, and the FAT entry of a cluster is the
    four bytes at offset 4c of the first FAT, inside one sector. *)
Theorem fat32_geometry_sound sector0 : len sector0 = 512 -> bytes sector0 ->
  exists r, parse_bpb sector0 = Ret r /\ (forall g, r = Ok g <-> describes sector0 g /\ geom_ok g) /\
  forall g c, r = Ok g -> 0 <= c ->
    cluster_to_sector c g = Ret (if decide (is_data g c) then Some (sector_of g c) else None) /\
    (is_data g c -> data_start_sector g <= sector_of g c /\ sector_of g c + sectors_per_cluster g <= total_sectors g) /\
    (forall c' s, is_data g c -> is_data g c' -> sector_of g c <= s < sector_of g c + sectors_per_cluster g -> sector_of g c' <= s < sector_of g c' + sectors_per_cluster g -> c = c') /\
    (clusters g + 1 < c -> fat_entry_location c g = Ret None) /\
    (c <= clusters g + 1 -> exists s o, fat_entry_location c g = Ret (Some (s, o)) /\ 512 * (s - fat_start_sector g) + o = 4 * c /\ 0 <= o <= 508 /\
       fat_start_sector g <= s < fat_start_sector g + sectors_per_fat g /\ fat_start_sector g + sectors_per_fat g <= data_start_sector g).
Proof.
  intros Hl Hb. destruct (parse_bpb_spec sector0 Hl Hb) as (r & E & Hr). exists r. split; [done|]. split; [done|]. intros g c Er Hc. destruct (proj1 (Hr g) Er) as [_ K].
  split; [by apply cluster_to_sector_spec|]. split; [by apply sector_of_in|]. split; [intros; by eapply sectors_apart|]. split; [by apply fat_entry_location_out|]. intros Hm.
  eexists _, _. split; [by apply fat_entry_location_spec|]. pose proof (Z.div_mod c 128 ltac:(lia)). pose proof (Z.mod_pos_bound c 128 ltac:(lia)). pose proof (fat_before_data g K). pose proof (gk_entries g K).
  assert (c / 128 < sectors_per_fat g) by (apply Z.div_lt_upper_bound; lia). assert (0 <= c / 128) by (apply Z.div_pos; lia). lia.
Qed.

Lemma fat32_geometry_sound_witness : exists r, parse_bpb sx_bpb = Ret r /\ r = Ok sx_geom /\ cluster_to_sector 3 sx_geom = Ret (Some 1153) /\ fat_entry_location 200 sx_geom = Ret (Some (33, 288)).
Proof.
  destruct (fat32_geometry_sound sx_bpb (proj1 sx_bpb_bytes) (proj2 sx_bpb_bytes)) as (r & E & _). exists r. split; [exact E|]. split; [|split; vm_compute; reflexivity].
  pose proof sx_parse as E'. rewrite E in E'. by injection E'.
Defined.

(** C13: A client reads exactly the file. On a volume that the device serves, for an
    open file whose cluster chain is [l], whose size the chain holds and whose cursor
    is not beyond its end, any sequence of read requests delivers in the file's
    buffer, one piece after the other, the file's bytes from the cursor on in
    order: as many as were asked for, each request counting at most a buffer full,
    and no more than the file has. The cursor is then behind them, no other open
    file has changed, no byte of the server's memory outside the file's buffer has,
    and no resource was taken or given back. *)
Theorem fat32_reads_file {B : BlockDevice} g sector {P : Type} `{!Platform P} (s : Server P) token handle i f l lens :
  geom_ok g -> Disk B sector -> serves g -> table_ok (sv_table s) -> ot_slot (sv_table s) handle token = Some (i, f) -> cursor f <= of_size f ->
  chain g sector (start_cluster f) l -> of_size f <= bpc g * Z.of_nat (length l) -> Forall (fun n => 0 <= n < 2 ^ 32) lens ->
  let k := Z.min (asked f lens) (of_size f - cursor f) in
  exists m, read_file g s token handle (buffer_va f) lens =
    Ret (slice (content g sector l) (cursor f) k, mkServer _ m (<[i := Some (set_cursor f (cursor f + k))]> (sv_table s)) (sv_platform s)) /\
    forall x, ~ (buffer_va f <= x < buffer_va f + buffer_size_bytes f) -> m !! x = sv_mem s !! x.
Proof. intros K D Hs Ht Ef Hc Hch Hsz Hn. by apply (read_file_spec g K sector D). Qed.

Lemma fat32_reads_file_witness : exists m, @read_file (sx_device sx_end) sx_geom Res sx_opened 5 1 0 [300; 300; 300] =
  Ret (replicate 512 65 ++ replicate 188 66, mkServer _ m (<[0%nat := Some (mkOpen 5 3 700 700 0 0 4096 1)]> (sv_table sx_opened)) (sv_platform sx_opened)) /\ m !! 5000 = None.
Proof.
  assert (Ef : ot_slot (sv_table sx_opened) 1 5 = Some (0%nat, mkOpen 5 3 700 0 0 0 4096 1)) by (vm_compute; reflexivity).
  destruct (@fat32_reads_file (sx_device sx_end) sx_geom (sx_sector sx_end) Res sx_platform sx_opened 5 1 0 (mkOpen 5 3 700 0 0 0 4096 1) [3; 4] [300; 300; 300]
    sx_geom_ok (sx_disk sx_end) (sx_serves sx_end) sx_opened_ok Ef) as (m & E & Hx); [cbn; lia|exact sx_chain|by vm_compute|repeat constructor; lia|].
  exists m. split; [|rewrite Hx by (cbn; lia); vm_compute; reflexivity].
  etransitivity; [exact E|]. assert (Ec : slice (content sx_geom (sx_sector sx_end) [3; 4]) 0 700 = replicate 512 65 ++ replicate 188 66) by (vm_compute; reflexivity). rewrite <- Ec. reflexivity.
Defined.

(** C21: The walks over the FAT end, or are bounded by the volume. handle_read returns
    on any volume, whatever its FAT holds, cycles included, and however the device
    fails. A directory lookup either returns, within one turn more than the volume
    has clusters, with the same result for every larger bound, or it never returns;
    and it returns whenever the FAT's links from the directory's first cluster come
    to an end. *)
Theorem fat32_walks_terminate {B : BlockDevice} g sector {P : Type} `{!Platform P} : geom_ok g -> Disk B sector ->
  (forall (s : Server P) token handle n, table_ok (sv_table s) -> 0 <= n < 2 ^ 32 -> exists w s', handle_read g s token handle n = Ret (w, s')) /\
  forall c nm, 0 <= c ->
    ((exists r, forall fuel, (walk_bound g <= fuel)%nat -> lookup_in_dir g fuel c nm = Ret r) \/ forall fuel, lookup_in_dir g fuel c nm = Panic PFuel) /\
    ((exists n, iter (fat_link g sector) n c = None) -> exists r, forall fuel, (walk_bound g <= fuel)%nat -> lookup_in_dir g fuel c nm = Ret r).
Proof.
  intros K D. split; [intros s token handle n Ht Hn; destruct (handle_read_spec g K sector D s token handle n Ht Hn) as (w & s' & E & _); by exists w, s'|].
  intros c nm Hc. pose proof (lookup_decided g K sector D c nm Hc) as Hd. split; [done|]. intros [n Hn]. destruct Hd as [Hd|Hf]; [done|]. exfalso.
  destruct (iter (walk g sector nm) n c) as [x|] eqn:E; [destruct (walk_link g K sector D nm n c Hc) as [y Hy]; [by exists x|congruence]|].
  destruct (lookup_ends g K sector D nm n c Hc E) as [r Hr]. specialize (Hr n ltac:(lia)). by rewrite Hf in Hr.
Qed.

Lemma fat32_walks_terminate_witness : exists w s', @handle_read (sx_device 5) sx_geom Res sx_opened 5 1 300 = Ret (w, s').
Proof.
  destruct (@fat32_walks_terminate (sx_device 5) sx_geom (sx_sector 5) Res sx_platform sx_geom_ok (sx_disk 5)) as [Hr _]. apply Hr; [exact sx_opened_ok|lia].
Defined.

(** C14: The FAT32 server is safe for its clients, as long as no process takes an
    exported buffer away by creating a process from it. On a volume without cycles,
    with any device behaviour and any content otherwise, every history of
    requests with any words, from any clients, is answered without a panic. Requests
    for memory and addresses, unmaps and the return of address ranges may fail at any
    time. At the end the server holds one PageSet, one address range and one mapping
    for each open file, the ranges being apart, and besides them what it held before
    and what was lost to failed unmaps and to a full table of address ranges; what
    was lost is never used for a file again, and where unmaps succeed and ranges come
    back nothing is lost: failed opens and closes leak nothing. A client that sent
    none of the requests finds each of its open files, cursors included, and every
    byte of their buffers as before. *)
Theorem fat32_server_safe {B : BlockDevice} g sector {P : Type} `{!Platform P} (res : P -> Res) b s rs :
  geom_ok g -> Disk B sector -> acyclic g sector -> PlatformLaws P res -> server_ok res b s -> Forall (fun x => req_ok x.2) rs ->
  exists ws s', serve_all g s rs = Ret (ws, s') /\ length ws = length rs /\
  (exists b', server_ok res b' s' /\ extends b b' /\ (lossless res -> b' = b)) /\
  forall token, Forall (fun x => x.1 <> token) rs -> (forall i f, caller_token f = token -> sv_table s !! i = Some (Some f) <-> sv_table s' !! i = Some (Some f)) /\
    forall i f x, sv_table s !! i = Some (Some f) -> caller_token f = token -> buffer_va f <= x < buffer_va f + buffer_size_bytes f -> sv_mem s' !! x = sv_mem s !! x.
Proof. intros K D Hac L SO Hr. by apply (serve_all_spec g K sector D Hac res L). Qed.

Definition sx_history : list (Z * FsRequest) := [(5, sx_open); (5, mkReq FS_READ 1 300 0); (6, mkReq FS_READ 1 300 0); (6, sx_open); (5, mkReq FS_CLOSE 1 0 0); (5, mkReq 9 0 0 0)].

Lemma fat32_server_safe_witness : exists ws s', @serve_all (sx_device sx_end) sx_geom Res sx_platform sx_server sx_history = Ret (ws, s') /\ length ws = 6%nat /\ server_ok (fun r => r) (mkRes ∅ ∅ ∅) s'.
Proof.
  destruct (@fat32_server_safe (sx_device sx_end) sx_geom (sx_sector sx_end) Res sx_platform (fun r => r) (mkRes ∅ ∅ ∅) sx_server sx_history
    sx_geom_ok (sx_disk sx_end) sx_acyclic sx_laws sx_server_ok) as (ws & s' & E & Hl & (b' & SO & _ & Hb) & _); [|rewrite (Hb sx_lossless) in SO; exists ws, s'; split; [exact E|split; [exact Hl|exact SO]]].
  assert (Hq : forallb (fun x => (0 <=? arg1 x.2) && (0 <=? arg2 x.2) && (0 <=? arg3 x.2)) sx_history = true) by (vm_compute; reflexivity).
  rewrite forallb_forall in Hq. apply Forall_forall. intros x Hx. apply list_elem_of_In, Hq in Hx. unfold req_ok. lia.
Defined.







(** C34: Two lookups that go wrong. On the example volume with a directory whose cluster
    is its own successor, the lookup of a name the directory does not have never
    returns, for any bound on its turns. On a directory whose first cluster starts
    with the end marker, the lookup goes on to the next cluster and returns the
    entry it finds there. *)
Theorem fat32_lookup_flaws :
  (forall fuel, @lookup_in_dir (sx_device 5) sx_geom fuel 5 [72; 73] = Panic PFuel) /\
  dirent_of (slice (cluster_data sx_geom (sx_sector sx_end) 6) 0 32) = EndOfDir /\
  @lookup_in_dir (sx_device sx_end) sx_geom 2 6 [104; 101; 108; 108; 111; 46; 116; 120; 116] = Ret (Ok (mkDirEntry sx_hello 32 4 100)).
Proof.
  split; [|split; vm_compute; reflexivity]. intros fuel. apply (@lookup_goes_on (sx_device 5) sx_geom sx_geom_ok (sx_sector 5) (sx_disk 5)); [lia|].
  induction fuel as [|fuel IH]; [by eexists|]. cbn [iter]. assert (E : @walk (sx_device 5) sx_geom (sx_sector 5) [72; 73] 5 = Some 5) by (vm_compute; reflexivity). rewrite E. exact IH.
Qed.
